(* ===== verification/_CoqProject ===== *)
-Q . S2P
Prelude.v
MemoryHelpers.v
MemoryMap.v
Hhdm.v
PmmCore.v
PmmProps.v
PmmInit.v
PmmTrace.v
SchedCore.v
SchedInv.v
SchedOps.v
SchedTick.v
SchedTrace.v
SchedMoves.v
SchedProps.v
VmmCore.v
VmmMap.v
VmmSpec.v
VmmTrace.v
VmmProps.v
Bytes.v
HeapCore.v
HeapInv.v
HeapLinks.v
HeapBlocks.v
HeapAlloc.v
HeapFree.v
HeapSpec.v
HeapStore.v
HeapProps.v
Elf.v
Strings.v
Vfs.v
VfsTree.v
VfsProps.v
Fat32.v
Fat32Read.v
Fat32Tree.v
Fat32Import.v
Fat32Props.v
NetCodec.v
NetServices.v
NetDns.v
NetStack.v
NetInv.v
NetProps.v
Frames.v
PmmFrames.v
KernelVm.v
HeapPages.v
KernelPages.v
KernelVmProps.v
KernelHeap.v
ThreadStack.v
ThreadStackProps.v
UserVm.v
UserVmTree.v
UserVmOps.v
UserVmLife.v
UserVmSpec.v
UserVmFrame.v
UserVmProps.v
ElfLoad.v
ElfLoadProps.v
World.v
WorldInv.v
Devices.v
System.v
Scheduler.v
Process.v
SystemInv.v
SystemSteps.v
SystemEvents.v
SystemSpawn.v
SystemProcess.v
SystemCalls.v
SystemBoot.v
SystemTrace.v
SystemExample.v
SystemProps.v
