(* ===== verification/Prelude.v ===== *)
(** * UTAMO OS: a verification development of the kernel

    UTAMO OS is a kernel for x86_64 in C: it takes over the memory map and the
    page tables of the boot loader, manages physical pages, its own address
    space, a heap and kernel stacks, runs preemptible threads and user processes
    with private address spaces and system calls, and has a read-only file
    system (an archive and a FAT32 volume) and a small network stack.  This
    library models the C code as Rocq functions and proves what makes the parts
    correct, one by one and together.

    ** Conventions

    - A C integer is a [Z]; unsigned arithmetic of 64 bits wraps and is written
      with [+u], [-u] and [*u] below.  Narrower types use [u8], [u16], [u32].
    - A static variable or an object that a function changes is an argument and
      a result.  Where many calls are threaded there is a small state monad
      (Fat32.v, NetStack.v, System.v).
    - A call that returns [false] gives [false] or [None], with the state that
      the code leaves behind.  [PANIC] is a flag of the state, which the
      theorems show never to be set, or the outcome [None] of System.v.
    - Pointers are addresses.  Memory that the code reads byte by byte or word by
      word is a function of the address; objects in the heap that only one file
      uses are kept in a map by address.  Arguments that are checked for [NULL]
      and can only be [NULL] by a programming error are left out.
    - Callbacks and hardware are type classes, records of functions, or
      arguments.  What the code may rely on is in a class of laws, and every
      class of laws that stands for code of the repository has an instance here.
    - There is one CPU.  Functions that save the interrupt flag, work, and restore
      it are modelled without the flag; functions that test it take [iflag].
    - Definitions keep the names of the source.  The comment in front of a file
      names the source files it models.

    ** Physical memory

    MemoryHelpers.v (memory_helpers.c), MemoryMap.v (memory_map.c) and Hhdm.v
    (hhdm.c) are the arithmetic of pages, the boot memory map and the direct map;
    [hhdm_exact]: translation is defined on exactly the ranges of mapped regions
    and is inverted.  PmmCore.v (pmm_core.c) is the page allocator on its two
    bitmaps, PmmProps.v its invariant and the abstract allocator on sets of
    frames, PmmInit.v its start from the memory map, PmmTrace.v any history of
    calls: they refine the abstract allocator, live allocations are disjoint, a
    pinned or reserved frame never comes back, the statistics are exact.
    Frames.v is the interface that the address spaces ask for, PmmFrames.v
    (pmm.c, parts of vmm.c) its instance.

    ** Address spaces

    VmmCore.v (vmm_core.c) is the code for four-level page tables on the words of
    the table frames; VmmMap.v, VmmSpec.v, VmmTrace.v and VmmProps.v show that
    map, unmap, protect and query behave as a finite map from pages to frames and
    rights, with complete rollback.  KernelVm.v (vmm.c) is the kernel's own space
    after the boot; KernelPages.v and KernelVmProps.v confine its calls to the
    dynamic region.  UserVm.v (user_vm.c) is a process's space with its ledgers;
    UserVmTree.v, UserVmOps.v, UserVmLife.v, UserVmSpec.v, UserVmFrame.v and
    UserVmProps.v show that it is a map from pages to rights and bytes, that
    nobody else's frame is touched, that writable pages are not executable and
    pages not shared, and that destruction returns every frame.

    ** Heap and stacks

    Bytes.v is byte-addressed memory.  HeapCore.v (heap_core.c) is the block
    allocator with its headers in memory; HeapInv.v, HeapLinks.v, HeapBlocks.v,
    HeapAlloc.v, HeapFree.v, HeapSpec.v, HeapStore.v and HeapProps.v show that it
    is a map from pointers to bytes, that its validator decides the invariant and
    that a block that fits is found.  HeapPages.v (heap_pages.c) lets an interval
    grow as a transaction, KernelHeap.v (heap.c) joins blocks, pages and frames.
    ThreadStack.v and ThreadStackProps.v (thread_stack.c) are the slots of the
    kernel stacks: guard pages, epochs, exact allocation and release.

    ** Executables, files and network

    Elf.v (elf.c) and ElfLoad.v, ElfLoadProps.v (elf_load.c): what the validator
    accepts is safe to load, and the loaded program sees exactly the bytes and
    rights that the image describes.  Strings.v (string.c) are the byte loops.
    Vfs.v, VfsTree.v and VfsProps.v (vfs.c, initramfs.c) are paths, mounts and
    the archive parser; Fat32.v, Fat32Read.v, Fat32Tree.v, Fat32Import.v and
    Fat32Props.v (fat32.c, block.c) the FAT32 importer, which yields exactly the
    listing of the volume or gives everything back.  NetCodec.v (ethernet.c,
    arp.c, ipv4.c, icmp.c, udp.c), NetServices.v and NetDns.v (dhcp.c, dns.c) are
    the packets, NetStack.v, NetInv.v and NetProps.v (stack.c) the stack with its
    invariant under any frames that arrive.

    ** Threads, processes and interrupts

    SchedCore.v (sched_core.c) is the scheduling policy on linked queues;
    SchedInv.v, SchedOps.v, SchedTick.v, SchedTrace.v, SchedMoves.v and
    SchedProps.v: the validator decides the invariant, every history keeps it,
    ready tasks run in turn, sleepers wake in order.  World.v joins the machine
    under all components, and WorldInv.v says which frame belongs to whom.
    Devices.v (irq.c, pic.c, pit.c, keyboard.c, input.c) are the interrupt lines:
    ports answer with an arbitrary sequence and all accesses are recorded; the
    input ring is a queue, a genuine interrupt is acknowledged exactly once.
    System.v, Scheduler.v and Process.v are scheduler.c, process.c,
    process_files.c, process_syscall.c, process_policy.c and the dispatcher of
    exceptions.c.  SystemInv.v is their invariant; SystemSteps.v, SystemEvents.v,
    SystemSpawn.v, SystemProcess.v, SystemCalls.v and SystemBoot.v show that every
    function keeps it and returns; SystemTrace.v has the events and the states
    that they reach, SystemExample.v a concrete kernel, SystemProps.v the
    theorems: no event makes the kernel panic, an event of one thread leaves the
    others alone, what the CPU returns to is safe, and every allocated frame,
    heap block and stack slot belongs to one thread or process that exists.

    ** Steps and bounds

    A loop whose length is not a list in hand takes a number of steps.  The
    numbers are those of the code where it has one (128 turns in the names of
    dns.c, 17 pieces in the copies of user_vm.c, the limits on directories and
    clusters of fat32.c), or enough by a lemma: the archive parser has one step
    for every 110 bytes ([parse_fuel]), DHCP options one for every byte, the
    checksum folds 32 times where two suffice, the pages of a segment and the
    headers of an image are bounded by what the validator accepts (128 and 16),
    the rounds of a growth by its size, the walks along the heap and the queues
    by the largest number of blocks and tasks.  Where the end of the steps could
    be confused with a refusal, the outcomes are different values or the theorem
    says that more steps change nothing.

    ** Not modelled

    - A spawn is one step.  The code builds the new process with preemption
      disabled but interrupts enabled; interrupts in that time only count ticks
      and return to the same thread.
    - The accessed and dirty bits that the CPU sets in page tables, and the use of
      the heap by other kernel code while threads run: the blocks [K] of before
      the start stay.
    - Vectors 2, 8 and 18 and faults inside the kernel end in a report and a halt
      by design; the theorems on events leave them out.
    - The boot part of vmm.c, boot.c and main.c: they read the responses of the
      boot loader and CPU registers.  The theorems start from the state that they
      are to leave ([kinv] of KernelPages.v, [booted] of SystemBoot.v).
    - Drivers for the disk, the network card, PCI, the serial port and the screen:
      sequences of accesses to device registers.  The disk and the card are callbacks of fat32.c and
      stack.c, and the theorems hold for any answers.
    - The shell and its line editor, formatting, logging and the self tests: what
      they change is text that is printed; the calls that they make are the ones
      modelled here, with any arguments.
    - Assembly, the linker scripts, the user programs and the scripts. *)

From stdpp Require Export prelude gmap list_numbers.
Open Scope Z_scope.

(** ** Machine integers

    Every C integer is a [Z].  Unsigned arithmetic wraps: the source's
    64-bit sums, differences and products are written with the operators
    of [c_scope], which reduce modulo 2^64. *)

Definition UINT64_MAX : Z := 18446744073709551615.
Definition UINT32_MAX : Z := 4294967295.
Definition SIZE_MAX : Z := UINT64_MAX.

Definition u64 (x : Z) : Z := x mod 18446744073709551616.
Definition u32 (x : Z) : Z := x mod 4294967296.
Definition u16 (x : Z) : Z := x mod 65536.
Definition u8 (x : Z) : Z := x mod 256.

Declare Scope c_scope.
Delimit Scope c_scope with C.
Notation "a +u b" := (u64 (a + b)) (at level 50, left associativity) : c_scope.
Notation "a -u b" := (u64 (a - b)) (at level 50, left associativity) : c_scope.
Notation "a *u b" := (u64 (a * b)) (at level 40, left associativity) : c_scope.
Open Scope c_scope.

(** Bitwise complement at width 64. *)
Definition not64 (x : Z) : Z := Z.ldiff UINT64_MAX x.

(** The values a [uint64_t] can hold. *)
Definition u64_ok (x : Z) : Prop := 0 <= x <= UINT64_MAX.

(** ** Arrays indexed by machine integers *)

Definition arr_get {A} `{Inhabited A} (l : list A) (i : Z) : A := l !!! Z.to_nat i.
Definition arr_set {A} (l : list A) (i : Z) (v : A) : list A := <[Z.to_nat i := v]> l.

(** Number of elements of a list that satisfy a boolean test. *)
Fixpoint count_if {A} (p : A -> bool) (l : list A) : Z :=
  match l with
  | [] => 0
  | x :: l' => (if p x then 1 else 0) + count_if p l'
  end.

#[global] Arguments Z.land : simpl never.
#[global] Arguments Z.lor : simpl never.
#[global] Arguments Z.lxor : simpl never.
#[global] Arguments Z.ldiff : simpl never.
#[global] Arguments Z.shiftl : simpl never.
#[global] Arguments Z.shiftr : simpl never.
#[global] Arguments Z.testbit : simpl never.
#[global] Arguments Z.pow : simpl never.
#[global] Arguments Z.modulo : simpl never.
#[global] Arguments Z.div : simpl never.
#[global] Arguments Z.mul : simpl never.
#[global] Arguments Z.add : simpl never.
#[global] Arguments Z.sub : simpl never.
#[global] Arguments Z.of_nat : simpl never.
#[global] Arguments Z.to_nat : simpl never.
#[global] Arguments u64 : simpl never.
#[global] Arguments u32 : simpl never.
#[global] Arguments u16 : simpl never.
#[global] Arguments u8 : simpl never.
#[global] Arguments not64 : simpl never.
#[global] Arguments arr_get : simpl never.
#[global] Arguments arr_set : simpl never.

(** ** Tactics *)

(** Turns boolean tests in the hypotheses into propositions. *)
Ltac bsimpl_step H :=
  first
    [ rewrite orb_false_iff in H | rewrite orb_true_iff in H
    | rewrite andb_true_iff in H | rewrite andb_false_iff in H
    | rewrite negb_true_iff in H | rewrite negb_false_iff in H
    | rewrite Z.ltb_lt in H | rewrite Z.ltb_ge in H
    | rewrite Z.leb_le in H | rewrite Z.leb_gt in H
    | rewrite Z.eqb_eq in H | rewrite Z.eqb_neq in H ].

Ltac breflect :=
  repeat match goal with
  | H : _ /\ _ |- _ => destruct H
  | H : context [_ = true] |- _ => bsimpl_step H
  | H : context [_ = false] |- _ => bsimpl_step H
  end.

(** Case analysis on the guard of the conditional that a hypothesis is about. *)
Ltac guard_in H :=
  match type of H with
  | context [if ?c then _ else _] => let E := fresh "G" in destruct c eqn:E
  end.

(** [field_setter eta getter]: the function that replaces the field [getter]
    of a record, from [eta], the record rebuilt from its fields. *)
Ltac field_setter eta getter :=
  let e := eval cbv delta [eta] in eta in
  match eval pattern getter in e with
  | ?u _ => let t := eval cbv beta in (fun v => u (fun _ => v)) in exact t
  end.

(** Linear arithmetic with constant divisions and remainders. *)
Ltac dlia := Z.div_mod_to_equations; lia.

(** ** Machine-integer lemmas *)

Create HintDb cint discriminated.

Lemma u64_small x : u64_ok x -> u64 x = x.
Proof. unfold u64_ok, u64, UINT64_MAX. intros. apply Z.mod_small. lia. Qed.

Lemma u64_range x : u64_ok (u64 x).
Proof. unfold u64_ok, u64, UINT64_MAX. dlia. Qed.

Lemma u32_small x : 0 <= x <= UINT32_MAX -> u32 x = x.
Proof. unfold u32, UINT32_MAX. intros. apply Z.mod_small. lia. Qed.

Lemma u16_small x : 0 <= x < 65536 -> u16 x = x.
Proof. unfold u16. intros. apply Z.mod_small. lia. Qed.

Lemma u8_small x : 0 <= x < 256 -> u8 x = x.
Proof. unfold u8. intros. apply Z.mod_small. lia. Qed.

Lemma u64_ok_intro x : 0 <= x -> x <= UINT64_MAX -> u64_ok x.
Proof. done. Qed.

#[export] Hint Resolve u64_range u64_ok_intro : cint.

(** Replaces every wrapped expression that lia can bound by the plain one. *)
Ltac nowrap :=
  repeat match goal with
  | |- context [u64 ?x] => rewrite (u64_small x) by (unfold u64_ok, UINT64_MAX in *; lia)
  | H : context [u64 ?x] |- _ =>
      rewrite (u64_small x) in H by (unfold u64_ok, UINT64_MAX in *; lia)
  end.

(** ** Bits *)

Lemma testbit_high x k n : 0 <= x < 2 ^ k -> k <= n -> Z.testbit x n = false.
Proof.
  intros Hx Hn. destruct (Z.lt_trichotomy k 0) as [?|Hk].
  - rewrite Z.pow_neg_r in Hx; lia.
  - rewrite <- (Z.mod_small x (2 ^ k)) by lia. apply Z.mod_pow2_bits_high. lia.
Qed.

Lemma land_pow2_test x k : 0 <= k -> negb (Z.land x (Z.shiftl 1 k) =? 0) = Z.testbit x k.
Proof.
  intros Hk. rewrite Z.shiftl_1_l.
  destruct (Z.testbit x k) eqn:E.
  - apply negb_true_iff, Z.eqb_neq. intros H0.
    assert (Z.testbit (Z.land x (2 ^ k)) k = true) as Ht
      by (rewrite Z.land_spec, E, Z.pow2_bits_true; done).
    by rewrite H0, Z.bits_0 in Ht.
  - apply negb_false_iff, Z.eqb_eq, Z.bits_inj_0. intros n.
    rewrite Z.land_spec. destruct (decide (n = k)) as [->|Hn].
    + by rewrite E.
    + rewrite Z.pow2_bits_false by done. apply andb_false_r.
Qed.

(** The bits of a 64-bit value. *)
Lemma u64_bits x n : u64_ok x -> 64 <= n -> Z.testbit x n = false.
Proof. intros Hx Hn. apply (testbit_high x 64); unfold u64_ok, UINT64_MAX in *; lia. Qed.

Lemma bits_u64 x : 0 <= x -> (forall n, 64 <= n -> Z.testbit x n = false) -> u64_ok x.
Proof.
  intros Hx Hb. unfold u64_ok, UINT64_MAX. split; [done|].
  destruct (decide (x = 0)) as [->|]; [done|].
  assert (Z.log2 x < 64) as Hl.
  { destruct (decide (Z.log2 x < 64)); [done|]. pose proof (Hb (Z.log2 x) ltac:(lia)) as H.
    rewrite Z.bit_log2 in H by lia. done. }
  apply Z.log2_lt_pow2 in Hl; [|lia]. change (2 ^ 64) with 18446744073709551616 in Hl. lia.
Qed.

Lemma lxor_u64 x y : u64_ok x -> u64_ok y -> u64_ok (Z.lxor x y).
Proof.
  intros Hx Hy. apply bits_u64; [apply Z.lxor_nonneg; destruct Hx, Hy; lia|].
  intros n Hn. by rewrite Z.lxor_spec, (u64_bits x n), (u64_bits y n).
Qed.

Lemma lor_u64 x y : u64_ok x -> u64_ok y -> u64_ok (Z.lor x y).
Proof.
  intros Hx Hy. apply bits_u64; [apply Z.lor_nonneg; destruct Hx, Hy; lia|].
  intros n Hn. by rewrite Z.lor_spec, (u64_bits x n), (u64_bits y n).
Qed.

Lemma land_u64 x y : u64_ok x -> u64_ok (Z.land x y).
Proof.
  intros Hx. apply bits_u64; [apply Z.land_nonneg; destruct Hx; lia|].
  intros n Hn. by rewrite Z.land_spec, (u64_bits x n).
Qed.

Lemma land_not64 x m : u64_ok x -> Z.land x (not64 m) = Z.ldiff x m.
Proof.
  unfold u64_ok, not64, UINT64_MAX. intros Hx. apply Z.bits_inj'. intros n Hn.
  rewrite Z.land_spec, !Z.ldiff_spec.
  change 18446744073709551615 with (Z.ones 64).
  destruct (decide (n < 64)).
  - by rewrite Z.ones_spec_low by lia.
  - rewrite (testbit_high x 64) by lia. done.
Qed.

Lemma ldiff_ones x k : 0 <= k -> Z.ldiff x (Z.ones k) = x - x mod 2 ^ k.
Proof.
  intros Hk. rewrite Z.ldiff_ones_r, Z.shiftl_mul_pow2, Z.shiftr_div_pow2 by done.
  pose proof (Z.div_mod x (2 ^ k)). pose proof (Z.pow_pos_nonneg 2 k). lia.
Qed.

Lemma land_low_mask x k : 0 <= k -> Z.land x (Z.ones k) = x mod 2 ^ k.
Proof. apply Z.land_ones. Qed.

(** Disjoint bit fields add up. *)
Lemma lor_add x y k : 0 <= k -> x mod 2 ^ k = 0 -> 0 <= y < 2 ^ k -> Z.lor x y = x + y.
Proof.
  intros Hk Hx Hy. symmetry. rewrite <- Z.lxor_lor.
  - apply Z.add_nocarry_lxor. apply Z.bits_inj_0. intros n. rewrite Z.land_spec.
    destruct (decide (n < k)).
    + rewrite <- (Z.mod_pow2_bits_low x k n) by lia. rewrite Hx, Z.bits_0. done.
    + rewrite (testbit_high y k n) by lia. apply andb_false_r.
  - apply Z.bits_inj_0. intros n. rewrite Z.land_spec.
    destruct (decide (n < k)).
    + rewrite <- (Z.mod_pow2_bits_low x k n) by lia. rewrite Hx, Z.bits_0. done.
    + rewrite (testbit_high y k n) by lia. apply andb_false_r.
Qed.

Lemma mod_land_0 x k : 0 <= k -> (Z.land x (Z.ones k) =? 0) = (x mod 2 ^ k =? 0).
Proof. intros. by rewrite Z.land_ones. Qed.

(** ** Arrays *)

Section arrays.
Context {A : Type} `{!Inhabited A}.
Implicit Types (l : list A) (i j : Z).

Lemma arr_get_set_eq l i v : 0 <= i < Z.of_nat (length l) -> arr_get (arr_set l i v) i = v.
Proof. intros. unfold arr_get, arr_set. apply list_lookup_total_insert_eq. lia. Qed.

Lemma arr_get_set_ne l i j v : 0 <= i -> 0 <= j -> i <> j ->
  arr_get (arr_set l i v) j = arr_get l j.
Proof. intros. unfold arr_get, arr_set. apply list_lookup_total_insert_ne. lia. Qed.

Lemma length_arr_set l i v : length (arr_set l i v) = length l.
Proof. apply length_insert. Qed.
End arrays.

(** ** Counting *)

Section counting.
Context {A : Type}.
Implicit Types (p q : A -> bool) (l : list A).

Lemma count_if_app p l1 l2 : count_if p (l1 ++ l2) = count_if p l1 + count_if p l2.
Proof. induction l1 as [|x l1 IH]; simpl; [done|]. rewrite IH. lia. Qed.

Lemma count_if_bounds p l : 0 <= count_if p l <= Z.of_nat (length l).
Proof. induction l as [|x l IH]; simpl; [lia|]. destruct (p x); lia. Qed.

Lemma count_if_ext p q l : (forall x, x ∈ l -> p x = q x) -> count_if p l = count_if q l.
Proof.
  induction l as [|x l IH]; intros H; simpl; [done|].
  rewrite (H x) by (by left). rewrite IH; [done|]. intros y Hy. apply H. by right.
Qed.

Lemma count_if_mono p q l :
  (forall x, x ∈ l -> p x = true -> q x = true) -> count_if p l <= count_if q l.
Proof.
  induction l as [|x l IH]; intros H; simpl; [done|].
  assert (count_if p l <= count_if q l) by (apply IH; intros; apply H; [by right|done]).
  pose proof (H x ltac:(by left)). destruct (p x), (q x); naive_solver lia.
Qed.

Lemma count_if_all p l : (forall x, x ∈ l -> p x = true) -> count_if p l = Z.of_nat (length l).
Proof.
  induction l as [|x l IH]; intros H; simpl; [done|].
  rewrite (H x) by (by left). rewrite IH; [lia|]. intros y Hy. apply H. by right.
Qed.

Lemma count_if_none p l : (forall x, x ∈ l -> p x = false) -> count_if p l = 0.
Proof.
  induction l as [|x l IH]; intros H; simpl; [done|].
  rewrite (H x) by (by left). rewrite IH; [lia|]. intros y Hy. apply H. by right.
Qed.
End counting.

(** Counting over an interval splits at any point. *)
Lemma count_seqZ_split p lo mid hi : lo <= mid <= hi ->
  count_if p (seqZ lo (hi - lo)) = count_if p (seqZ lo (mid - lo)) + count_if p (seqZ mid (hi - mid)).
Proof.
  intros. replace (hi - lo) with ((mid - lo) + (hi - mid)) by lia.
  rewrite seqZ_app, count_if_app by lia. do 2 f_equal. f_equal. lia.
Qed.

(** Changing a predicate on one sub-interval changes the count by the
    difference on that sub-interval. *)
Lemma count_seqZ_update p q lo a b hi : lo <= a -> a <= b -> b <= hi ->
  (forall f, lo <= f < hi -> ~ (a <= f < b) -> p f = q f) ->
  count_if q (seqZ lo (hi - lo)) - count_if q (seqZ a (b - a)) =
  count_if p (seqZ lo (hi - lo)) - count_if p (seqZ a (b - a)).
Proof.
  intros H1 H2 H3 Hpq.
  rewrite !(count_seqZ_split _ lo a hi), !(count_seqZ_split _ a b hi) by lia.
  rewrite (count_if_ext q p (seqZ lo (a - lo))), (count_if_ext q p (seqZ b (hi - b))); [lia| |].
  all: intros x Hx; apply elem_of_seqZ in Hx; symmetry; apply Hpq; lia.
Qed.

Lemma forallb_seqZ (p : Z -> bool) lo n :
  forallb p (seqZ lo n) = true <-> (forall f, lo <= f < lo + n -> p f = true).
Proof.
  rewrite List.forallb_forall. split; intros H f Hf; apply H.
  - apply list_elem_of_In, elem_of_seqZ. done.
  - apply elem_of_seqZ, list_elem_of_In. done.
Qed.

Lemma existsb_seqZ (p : Z -> bool) lo n :
  existsb p (seqZ lo n) = true <-> (exists f, lo <= f < lo + n /\ p f = true).
Proof.
  rewrite existsb_exists. split; intros (f & Hf & Hp); exists f.
  - by apply list_elem_of_In, elem_of_seqZ in Hf.
  - by rewrite <- list_elem_of_In, elem_of_seqZ.
Qed.

Lemma existsb_seqZ_false (p : Z -> bool) lo n :
  existsb p (seqZ lo n) = false <-> (forall f, lo <= f < lo + n -> p f = false).
Proof.
  rewrite <- not_true_iff_false, existsb_seqZ. split.
  - intros H f Hf. destruct (p f) eqn:E; [|done]. exfalso. eauto.
  - intros H (f & Hf & Hp). rewrite H in Hp; done.
Qed.
