(* ===== verification/MemoryHelpers.v ===== *)
(** * Page arithmetic (kernel/memory/memory_helpers.c)

    Alignment, canonical addresses, physical-address masks and page-table
    indices, with the facts about them that the allocators and the page-table
    walk rely on. *)

From S2P Require Import Prelude.
Open Scope Z_scope.

Definition MEMORY_PAGE_SIZE : Z := 4096.

Definition memory_align_up (value : Z) : option Z :=
  if UINT64_MAX -u (MEMORY_PAGE_SIZE -u 1) <? value then None
  else Some (Z.land (value +u MEMORY_PAGE_SIZE -u 1) (not64 (MEMORY_PAGE_SIZE -u 1))).

Definition memory_align_down (value : Z) : Z :=
  Z.land value (not64 (MEMORY_PAGE_SIZE -u 1)).

Definition memory_is_page_aligned (value : Z) : bool :=
  Z.land value (MEMORY_PAGE_SIZE -u 1) =? 0.

Definition memory_is_canonical (address : Z) : bool :=
  (address <=? 0x00007fffffffffff) || (0xffff800000000000 <=? address).

Definition memory_physical_mask (bits : Z) : option Z :=
  if (bits <? 32) || (52 <? bits) then None
  else Some (Z.land (u64 (Z.shiftl 1 bits) -u 1) (not64 (MEMORY_PAGE_SIZE -u 1))).

Definition memory_page_index (virt level : Z) : Z :=
  if (level <? 1) || (4 <? level) then 512
  else Z.land (Z.shiftr virt (12 + 9 * (level - 1))) 511.

(** ** Facts *)

Lemma page_mask_ones : MEMORY_PAGE_SIZE -u 1 = Z.ones 12.
Proof. reflexivity. Qed.

Lemma page_aligned_mod x : memory_is_page_aligned x = (x mod 4096 =? 0).
Proof. unfold memory_is_page_aligned. rewrite page_mask_ones. by rewrite Z.land_ones. Qed.

Lemma align_down_eq x : u64_ok x -> memory_align_down x = x - x mod 4096.
Proof.
  intros. unfold memory_align_down.
  by rewrite land_not64, page_mask_ones, ldiff_ones.
Qed.

Lemma align_up_eq x r : u64_ok x -> memory_align_up x = Some r ->
  x <= UINT64_MAX - 4095 /\ r = x + (- x) mod 4096.
Proof.
  unfold memory_align_up. intros Hx H. guard_in H; [done|]. simplify_eq.
  change (UINT64_MAX -u (MEMORY_PAGE_SIZE -u 1)) with 18446744073709547520 in G.
  apply Z.ltb_ge in G. unfold MEMORY_PAGE_SIZE in *.
  rewrite land_not64 by apply u64_range. change (4096 -u 1) with (Z.ones 12).
  rewrite ldiff_ones by done. unfold u64_ok, UINT64_MAX, u64 in *.
  change (2 ^ 12) with 4096. dlia.
Qed.

Lemma align_up_some x : 0 <= x <= UINT64_MAX - 4095 -> is_Some (memory_align_up x).
Proof.
  intros Hx. unfold memory_align_up.
  change (UINT64_MAX -u (MEMORY_PAGE_SIZE -u 1)) with (UINT64_MAX - 4095).
  destruct (Z.ltb_spec (UINT64_MAX - 4095) x); [lia|]. eauto.
Qed.

Lemma align_up_none x : memory_align_up x = None -> UINT64_MAX - 4095 < x.
Proof.
  unfold memory_align_up. change (UINT64_MAX -u (MEMORY_PAGE_SIZE -u 1)) with (UINT64_MAX - 4095).
  destruct (Z.ltb_spec (UINT64_MAX - 4095) x); [lia|done].
Qed.

Lemma page_index_eq virt level : 1 <= level <= 4 ->
  memory_page_index virt level = (virt / 2 ^ (12 + 9 * (level - 1))) mod 512.
Proof.
  intros Hl. unfold memory_page_index.
  destruct (Z.ltb_spec level 1); [lia|]. destruct (Z.ltb_spec 4 level); [lia|]. simpl.
  change 511 with (Z.ones 9). by rewrite Z.land_ones, Z.shiftr_div_pow2 by lia.
Qed.

Lemma page_index_range virt level : 1 <= level <= 4 -> 0 <= memory_page_index virt level < 512.
Proof. intros. rewrite page_index_eq by done. apply Z.mod_pos_bound. lia. Qed.

(** Rounding up gives the least page boundary at or above the value, and
    fails exactly when no such boundary is a 64-bit number. *)
Theorem memory_align_up_least (value : Z) (Hv : u64_ok value) :
  match memory_align_up value with
  | Some r => memory_is_page_aligned r = true /\ u64_ok r /\ value <= r < value + 4096
  | None => forall r, memory_is_page_aligned r = true -> value <= r -> UINT64_MAX < r
  end.
Proof.
  destruct (memory_align_up value) as [r|] eqn:E.
  - destruct (align_up_eq _ _ Hv E) as [? ->]. rewrite page_aligned_mod.
    unfold u64_ok, UINT64_MAX in *. rewrite Z.eqb_eq. dlia.
  - apply align_up_none in E. intros r. rewrite page_aligned_mod, Z.eqb_eq.
    unfold u64_ok, UINT64_MAX in *. dlia.
Qed.

Lemma memory_align_up_least_witness :
  match memory_align_up 4097 with
  | Some r => memory_is_page_aligned r = true /\ u64_ok r /\ 4097 <= r < 4097 + 4096
  | None => forall r, memory_is_page_aligned r = true -> 4097 <= r -> UINT64_MAX < r
  end.
Proof. apply (memory_align_up_least 4097). unfold u64_ok, UINT64_MAX. lia. Defined.
