(* ===== verification/MemoryMap.v ===== *)
(** * The boot memory map (kernel/memory/memory_map.c)

    The map is an append-only array of regions in ascending base order,
    with two running totals.  [map_wf] is the contract that every consumer
    of the map states in its header ("mutated only through memory_map_add"). *)

From S2P Require Import Prelude MemoryHelpers.
Open Scope Z_scope.

Definition UTAMO_MEMORY_REGION_LIMIT : Z := 512.

(** [enum memory_type]: a C enumeration is an integer, and the code checks
    its range. *)
Definition UTAMO_MEMORY_USABLE : Z := 0.
Definition UTAMO_MEMORY_RESERVED : Z := 1.
Definition UTAMO_MEMORY_ACPI_RECLAIMABLE : Z := 2.
Definition UTAMO_MEMORY_ACPI_NVS : Z := 3.
Definition UTAMO_MEMORY_BAD : Z := 4.
Definition UTAMO_MEMORY_BOOTLOADER_RECLAIMABLE : Z := 5.
Definition UTAMO_MEMORY_KERNEL_AND_MODULES : Z := 6.
Definition UTAMO_MEMORY_FRAMEBUFFER : Z := 7.

Record memory_region := MkRegion { mr_base : Z; mr_length : Z; mr_type : Z }.

#[export] Instance memory_region_inhabited : Inhabited memory_region :=
  populate (MkRegion 0 0 0).

(** [mm_regions] holds the first [count] entries of the C array. *)
Record memory_map := MkMap {
  mm_regions : list memory_region;
  mm_usable_bytes : Z;
  mm_bootloader_reclaimable_bytes : Z
}.

Definition mm_count (map : memory_map) : Z := Z.of_nat (length (mm_regions map)).

Definition memory_map_init (map : memory_map) : memory_map := MkMap [] 0 0.

Definition requires_exclusive_region (type : Z) : bool :=
  (type =? UTAMO_MEMORY_USABLE) || (type =? UTAMO_MEMORY_BOOTLOADER_RECLAIMABLE).

(** The overlap test of one iteration of the scan in [memory_map_add]. *)
Definition region_conflict (region : memory_region) (limit : Z) (previous : memory_region) : bool :=
  (requires_exclusive_region (mr_type region) || requires_exclusive_region (mr_type previous)) &&
  (mr_base region <? mr_base previous +u mr_length previous) && (mr_base previous <? limit).

Definition memory_map_add (map : memory_map) (region : memory_region) : memory_map * bool :=
  if (UTAMO_MEMORY_REGION_LIMIT <=? mm_count map) ||
     (UTAMO_MEMORY_FRAMEBUFFER <? mr_type region) ||
     (mr_length region =? 0) || (UINT64_MAX -u mr_base region <? mr_length region)
  then (map, false)
  else if negb (mm_count map =? 0) &&
          (mr_base region <? mr_base (arr_get (mm_regions map) (mm_count map - 1)))
  then (map, false)
  else if requires_exclusive_region (mr_type region) &&
          negb (Z.land (Z.lor (mr_base region) (mr_length region)) 0xfff =? 0)
  then (map, false)
  else
  let limit := mr_base region +u mr_length region in
  if existsb (region_conflict region limit) (mm_regions map) then (map, false)
  else
  let usable := mm_usable_bytes map in
  let reclaimable := mm_bootloader_reclaimable_bytes map in
  if mr_type region =? UTAMO_MEMORY_USABLE then
    if UINT64_MAX -u usable <? mr_length region then (map, false)
    else (MkMap (mm_regions map ++ [region]) (usable +u mr_length region) reclaimable, true)
  else if mr_type region =? UTAMO_MEMORY_BOOTLOADER_RECLAIMABLE then
    if UINT64_MAX -u reclaimable <? mr_length region then (map, false)
    else (MkMap (mm_regions map ++ [region]) usable (reclaimable +u mr_length region), true)
  else (MkMap (mm_regions map ++ [region]) usable reclaimable, true).

(** ** The contract of the map *)

(** A region as the firmware reports it: 64-bit fields, an enumeration value
    read as an unsigned integer. *)
Definition region_input (r : memory_region) : Prop :=
  u64_ok (mr_base r) /\ u64_ok (mr_length r) /\ 0 <= mr_type r.

Definition region_end (r : memory_region) : Z := mr_base r + mr_length r.

Definition region_ok (r : memory_region) : Prop :=
  0 <= mr_base r /\ 0 < mr_length r /\ region_end r <= UINT64_MAX /\
  0 <= mr_type r <= UTAMO_MEMORY_FRAMEBUFFER /\
  (requires_exclusive_region (mr_type r) = true ->
   mr_base r mod 4096 = 0 /\ mr_length r mod 4096 = 0).

Definition regions_disjoint (r s : memory_region) : Prop :=
  requires_exclusive_region (mr_type r) || requires_exclusive_region (mr_type s) = true ->
  region_end r <= mr_base s \/ region_end s <= mr_base r.

Definition is_usable (r : memory_region) : bool := mr_type r =? UTAMO_MEMORY_USABLE.

Definition sum_length (p : memory_region -> bool) (l : list memory_region) : Z :=
  foldr (fun r acc => (if p r then mr_length r else 0) + acc) 0 l.

Record map_wf (map : memory_map) : Prop := {
  map_wf_count : mm_count map <= UTAMO_MEMORY_REGION_LIMIT;
  map_wf_regions : Forall region_ok (mm_regions map);
  map_wf_sorted : forall i j r s, (i < j)%nat ->
    mm_regions map !! i = Some r -> mm_regions map !! j = Some s -> mr_base r <= mr_base s;
  map_wf_disjoint : forall i j r s, i <> j ->
    mm_regions map !! i = Some r -> mm_regions map !! j = Some s -> regions_disjoint r s;
  map_wf_usable : mm_usable_bytes map = sum_length is_usable (mm_regions map);
  map_wf_usable_max : mm_usable_bytes map <= UINT64_MAX;
  map_wf_reclaimable : mm_bootloader_reclaimable_bytes map =
    sum_length (fun r => mr_type r =? UTAMO_MEMORY_BOOTLOADER_RECLAIMABLE) (mm_regions map);
  map_wf_reclaimable_max : mm_bootloader_reclaimable_bytes map <= UINT64_MAX
}.

Lemma sum_length_app p l1 l2 : sum_length p (l1 ++ l2) = sum_length p l1 + sum_length p l2.
Proof. induction l1 as [|r l1 IH]; simpl; [done|]. rewrite IH. lia. Qed.

Lemma sum_length_nonneg p l : Forall region_ok l -> 0 <= sum_length p l.
Proof.
  induction 1 as [|r l Hr Hl IH]; simpl; [done|].
  destruct Hr as (?&?&?). destruct (p r); lia.
Qed.

Lemma lookup_snoc {A} (l : list A) x i y : (l ++ [x]) !! i = Some y ->
  l !! i = Some y \/ i = length l /\ y = x.
Proof.
  intros H. apply lookup_app_Some in H as [?|[? H]]; [by left|].
  right. destruct (i - length l)%nat eqn:E; simpl in H; simplify_eq. split; [lia|done].
Qed.

Lemma lor_low_bits a b k : 0 <= k -> (Z.land (Z.lor a b) (Z.ones k) =? 0) = true ->
  a mod 2 ^ k = 0 /\ b mod 2 ^ k = 0.
Proof.
  intros Hk H. apply Z.eqb_eq in H. rewrite Z.land_lor_distr_l in H.
  apply Z.lor_eq_0_iff in H. by rewrite !Z.land_ones in H.
Qed.

Lemma region_end_nowrap r : region_ok r -> mr_base r +u mr_length r = region_end r.
Proof. intros (?&?&?&_). unfold region_end in *. apply u64_small. unfold u64_ok. lia. Qed.

Lemma no_conflict_disjoint region r : region_ok region -> region_ok r ->
  region_conflict region (mr_base region +u mr_length region) r = false ->
  regions_disjoint r region.
Proof.
  intros H1 H2. unfold region_conflict, regions_disjoint. rewrite !region_end_nowrap by done.
  intros Hc Hex. rewrite orb_comm, Hex in Hc. unfold region_end in *. lia.
Qed.

(** The order test against the last entry bounds every entry. *)
Lemma last_base_bound map b : map_wf map ->
  negb (mm_count map =? 0) && (b <? mr_base (arr_get (mm_regions map) (mm_count map - 1))) = false ->
  forall r, r ∈ mm_regions map -> mr_base r <= b.
Proof.
  intros Hwf HG r Hr. apply list_elem_of_lookup in Hr as [i Hi].
  pose proof (lookup_lt_Some _ _ _ Hi) as Hil. unfold mm_count in *.
  destruct (Z.eqb_spec (Z.of_nat (length (mm_regions map))) 0); [lia|]. simpl in HG.
  apply Z.ltb_ge in HG. etransitivity; [|exact HG]. unfold arr_get.
  replace (Z.to_nat _) with (length (mm_regions map) - 1)%nat by lia.
  destruct (lookup_lt_is_Some_2 (mm_regions map) (length (mm_regions map) - 1)) as [s Hs]; [lia|].
  erewrite list_lookup_total_correct by done.
  destruct (decide (i = length (mm_regions map) - 1)%nat) as [->|Hne]; [by simplify_eq|].
  eapply (map_wf_sorted _ Hwf i); [|done|done]. lia.
Qed.

Lemma map_wf_totals_nonneg map : map_wf map ->
  0 <= mm_usable_bytes map /\ 0 <= mm_bootloader_reclaimable_bytes map.
Proof.
  intros Hwf. rewrite (map_wf_usable _ Hwf), (map_wf_reclaimable _ Hwf).
  split; apply sum_length_nonneg, Hwf.
Qed.

(** What a successful [memory_map_add] has checked and written. *)
Lemma memory_map_add_true map region map' : map_wf map -> region_input region ->
  memory_map_add map region = (map', true) ->
  mm_count map < UTAMO_MEMORY_REGION_LIMIT /\ region_ok region /\
  (forall r, r ∈ mm_regions map -> mr_base r <= mr_base region /\ regions_disjoint r region) /\
  mm_regions map' = mm_regions map ++ [region] /\
  mm_usable_bytes map' = mm_usable_bytes map + (if is_usable region then mr_length region else 0) /\
  mm_usable_bytes map' <= UINT64_MAX /\
  mm_bootloader_reclaimable_bytes map' = mm_bootloader_reclaimable_bytes map +
    (if mr_type region =? UTAMO_MEMORY_BOOTLOADER_RECLAIMABLE then mr_length region else 0) /\
  mm_bootloader_reclaimable_bytes map' <= UINT64_MAX.
Proof.
  intros Hwf (Hb & Hl & Ht). unfold memory_map_add.
  destruct (_ || _ || _ || _) eqn:G1; [done|].
  destruct (negb _ && _) eqn:G2; [done|].
  destruct (requires_exclusive_region _ && _) eqn:G3; [done|].
  destruct (existsb _ _) eqn:G4; [done|]. intros Hadd.
  rewrite !orb_false_iff, !Z.leb_gt, !Z.ltb_ge, Z.eqb_neq in G1.
  destruct G1 as [[[Hcount Htype] Hlen] Hend].
  unfold u64_ok in *. rewrite u64_small in Hend by (unfold u64_ok; lia).
  pose proof (map_wf_usable_max _ Hwf). pose proof (map_wf_reclaimable_max _ Hwf).
  destruct (map_wf_totals_nonneg _ Hwf).
  assert (region_ok region) as Hrok.
  { unfold region_ok, region_end. split_and!; try lia. intros He. rewrite He in G3.
    apply negb_false_iff in G3. apply (lor_low_bits _ _ 12) in G3; [done|lia]. }
  assert (forall r, r ∈ mm_regions map -> mr_base r <= mr_base region /\ regions_disjoint r region)
    as Hall.
  { intros r Hr. split; [by eapply last_base_bound|]. apply no_conflict_disjoint; [done| |].
    - by eapply (proj1 (Forall_forall _ _) (map_wf_regions _ Hwf)).
    - destruct (region_conflict _ _ r) eqn:Hc; [|done]. rewrite <- G4. symmetry.
      apply existsb_exists. exists r. by rewrite <- list_elem_of_In. }
  unfold is_usable. destruct (mr_type region =? UTAMO_MEMORY_USABLE) eqn:Eu;
    [apply Z.eqb_eq in Eu; rewrite Eu in *|destruct (mr_type region =? _) eqn:Er in Hadd |- *].
  1, 2: destruct (_ <? mr_length region) eqn:G5 in Hadd; [done|];
    apply Z.ltb_ge in G5; rewrite u64_small in G5 by (unfold u64_ok; lia).
  all: simplify_eq/=; rewrite ?u64_small by (unfold u64_ok; lia);
    split_and!; try done; simpl; lia.
Qed.

Lemma memory_map_add_false map region map' :
  memory_map_add map region = (map', false) -> map' = map.
Proof. unfold memory_map_add. intros H. repeat (case_match; simplify_eq; try done). Qed.

(** Every successful append keeps the map sorted, aligned and free of
    overlaps between exclusive regions, with exact totals; a rejected
    region leaves the map as it was. *)
Theorem memory_map_add_wf (map : memory_map) (region : memory_region)
    (Hwf : map_wf map) (Hin : region_input region) :
  map_wf (fst (memory_map_add map region)) /\
  (snd (memory_map_add map region) = false -> fst (memory_map_add map region) = map).
Proof.
  destruct (memory_map_add map region) as [map' []] eqn:E; simpl; cycle 1.
  { apply memory_map_add_false in E as ->. done. }
  split; [|done].
  destruct (memory_map_add_true _ _ _ Hwf Hin E) as (Hc & Hr & Hall & Hregs & Hu & ? & Hb & ?).
  constructor; rewrite ?Hregs.
  - unfold mm_count in *. rewrite Hregs, length_app. simpl. lia.
  - apply Forall_app. split; [apply Hwf|]. by constructor.
  - intros i j r s Hij [Hi|[-> ->]]%lookup_snoc [Hj|[-> ->]]%lookup_snoc.
    + by eapply (map_wf_sorted _ Hwf i j).
    + apply Hall. by eapply list_elem_of_lookup_2.
    + apply lookup_lt_Some in Hj. lia.
    + lia.
  - intros i j r s Hij [Hi|[-> ->]]%lookup_snoc [Hj|[-> ->]]%lookup_snoc.
    + by eapply (map_wf_disjoint _ Hwf i j).
    + apply Hall. by eapply list_elem_of_lookup_2.
    + apply list_elem_of_lookup_2, Hall in Hj as [_ Hd].
      unfold regions_disjoint in *. rewrite orb_comm. intros ?. destruct (Hd ltac:(done)); auto.
    + done.
  - rewrite sum_length_app, Hu, (map_wf_usable _ Hwf). simpl. lia.
  - done.
  - rewrite sum_length_app, Hb, (map_wf_reclaimable _ Hwf). simpl. lia.
  - done.
Qed.

Lemma map_wf_empty : map_wf (MkMap [] 0 0).
Proof. by constructor; unfold mm_count; simpl; try done; intros; rewrite ?lookup_nil in *. Qed.

Lemma memory_map_add_wf_witness :
  map_wf (fst (memory_map_add (MkMap [] 0 0) (MkRegion 4096 8192 UTAMO_MEMORY_USABLE))) /\
  (snd (memory_map_add (MkMap [] 0 0) (MkRegion 4096 8192 UTAMO_MEMORY_USABLE)) = false ->
   fst (memory_map_add (MkMap [] 0 0) (MkRegion 4096 8192 UTAMO_MEMORY_USABLE)) = MkMap [] 0 0).
Proof.
  apply (memory_map_add_wf (MkMap [] 0 0) (MkRegion 4096 8192 UTAMO_MEMORY_USABLE)).
  - apply map_wf_empty.
  - repeat split; vm_compute; discriminate.
Defined.
