(* ===== verification/Hhdm.v ===== *)
(** * The higher-half direct map (kernel/memory/hhdm.c)

    Address arithmetic between physical addresses and their direct mapping.
    [hhdm_init] checks the whole memory map once; afterwards [hhdm_translate]
    is defined on exactly the ranges of mapped regions, and [hhdm_reverse] is
    its inverse. *)

From S2P Require Import Prelude MemoryHelpers MemoryMap.
Open Scope Z_scope.

Record hhdm_context := MkHhdm {
  hh_map : memory_map;
  hh_offset : Z;
  hh_physical_mask : Z;
  hh_initialized : bool
}.

Definition hhdm_type_mapped (type : Z) : bool :=
  (type =? UTAMO_MEMORY_USABLE) || (type =? UTAMO_MEMORY_BOOTLOADER_RECLAIMABLE) ||
  (type =? UTAMO_MEMORY_KERNEL_AND_MODULES) || (type =? UTAMO_MEMORY_FRAMEBUFFER).

(** The body of the loop of [hhdm_init]: the region does not make it fail. *)
Definition hhdm_region_ok (map : memory_map) (offset mask i : Z) : bool :=
  let region := arr_get (mm_regions map) i in
  if (mr_length region =? 0) || (UINT64_MAX -u mr_base region <? mr_length region) ||
     (UTAMO_MEMORY_FRAMEBUFFER <? mr_type region) ||
     (negb (i =? 0) && (mr_base region <? mr_base (arr_get (mm_regions map) (i - 1))))
  then false
  else if ((mr_type region =? UTAMO_MEMORY_USABLE) ||
           (mr_type region =? UTAMO_MEMORY_BOOTLOADER_RECLAIMABLE)) &&
          (negb (memory_is_page_aligned (mr_base region)) ||
           negb (memory_is_page_aligned (mr_length region)))
  then false
  else if negb (hhdm_type_mapped (mr_type region)) then true
  else
    let last := mr_base region +u mr_length region -u 1 in
    if (Z.lor mask (MEMORY_PAGE_SIZE -u 1) <? last) || (UINT64_MAX -u offset <? last) ||
       negb (memory_is_canonical (offset +u mr_base region)) ||
       negb (memory_is_canonical (offset +u last))
    then false else true.

Definition hhdm_init (context : hhdm_context) (map : memory_map) (offset physical_bits : Z)
    : option hhdm_context :=
  if hh_initialized context || (mm_count map =? 0) || (UTAMO_MEMORY_REGION_LIMIT <? mm_count map) ||
     (offset <? 0xffff800000000000) || negb (memory_is_page_aligned offset) ||
     negb (memory_is_canonical offset)
  then None
  else match memory_physical_mask physical_bits with
  | None => None
  | Some mask =>
      if forallb (hhdm_region_ok map offset mask) (seqZ 0 (mm_count map))
      then Some (MkHhdm map offset mask true) else None
  end.

Definition region_holds (phys bytes : Z) (region : memory_region) : bool :=
  (mr_base region <=? phys) && (phys -u mr_base region <? mr_length region) &&
  (bytes <=? mr_length region -u (phys -u mr_base region)).

Definition hhdm_region (context : hhdm_context) (phys bytes : Z) : option memory_region :=
  if negb (hh_initialized context) || (bytes =? 0) || (UINT64_MAX -u phys <? bytes -u 1) then None
  else List.find (region_holds phys bytes) (mm_regions (hh_map context)).

Definition hhdm_translate (context : hhdm_context) (phys bytes : Z) : option Z :=
  match hhdm_region context phys bytes with
  | None => None
  | Some region =>
      if negb (hhdm_type_mapped (mr_type region)) || (UINT64_MAX -u hh_offset context <? phys) then None
      else
        let virt := hh_offset context +u phys in
        if (UINT64_MAX -u virt <? bytes -u 1) || negb (memory_is_canonical virt) ||
           negb (memory_is_canonical (virt +u bytes -u 1))
        then None else Some virt
  end.

Definition hhdm_reverse (context : hhdm_context) (virt bytes : Z) : option Z :=
  if negb (hh_initialized context) || (virt <? hh_offset context) then None
  else
    let phys := virt -u hh_offset context in
    match hhdm_translate context phys bytes with
    | Some checked => if negb (checked =? virt) then None else Some phys
    | None => None
    end.

(** ** What a successful initialisation establishes *)

Lemma region_holds_spec r phys bytes : region_ok r -> u64_ok phys -> 0 < bytes <= UINT64_MAX ->
  region_holds phys bytes r = true <-> mr_base r <= phys /\ phys + bytes <= region_end r.
Proof.
  unfold region_ok, region_end, region_holds, u64_ok. intros (Ha & Hc & Hd & _) Hp Hb.
  rewrite !andb_true_iff, Z.leb_le, Z.ltb_lt, Z.leb_le. split.
  - intros [[H1 H2] H3]. rewrite (u64_small (phys - mr_base r)) in * by (unfold u64_ok; lia).
    rewrite u64_small in H3 by (unfold u64_ok; lia). lia.
  - intros [H1 H2]. rewrite (u64_small (phys - mr_base r)) by (unfold u64_ok; lia).
    rewrite u64_small by (unfold u64_ok; lia). lia.
Qed.

Section init.
Context (context0 context : hhdm_context) (map : memory_map) (offset bits : Z).
Context (Hwf : map_wf map) (Hoff : u64_ok offset).
Context (Hinit : hhdm_init context0 map offset bits = Some context).

Lemma init_fields : hh_map context = map /\ hh_offset context = offset /\ hh_initialized context = true /\
  0xffff800000000000 <= offset.
Proof using Hinit.
  revert Hinit. unfold hhdm_init. destruct (_ || _) eqn:E; [done|].
  destruct (memory_physical_mask bits); [|done]. destruct (forallb _ _); [|done]. intros [= <-].
  rewrite !orb_false_iff, Z.ltb_ge in E. split_and!; try done. lia.
Qed.

(** Every byte of a mapped region has a direct mapping. *)
Lemma init_region r : r ∈ mm_regions map -> hhdm_type_mapped (mr_type r) = true ->
  region_end r - 1 <= UINT64_MAX - offset.
Proof using All.
  intros Hr Hm. pose proof (proj1 (Forall_forall _ _) (map_wf_regions _ Hwf) r Hr) as (H1 & H2 & H3 & _).
  apply list_elem_of_lookup in Hr as [i Hi]. pose proof (lookup_lt_Some _ _ _ Hi) as Hlt.
  revert Hinit. unfold hhdm_init. destruct (_ || _) eqn:E; [done|].
  destruct (memory_physical_mask bits) as [mask|]; [|done]. destruct (forallb _ _) eqn:Hall; [|done]. intros _.
  rewrite forallb_seqZ in Hall. specialize (Hall (Z.of_nat i)). unfold mm_count in Hall.
  specialize (Hall ltac:(lia)). revert Hall. unfold hhdm_region_ok, arr_get. rewrite Nat2Z.id.
  rewrite (list_lookup_total_correct _ _ _ Hi), Hm. do 2 (case_match; [done|]).
  cbn [negb]. case_match eqn:Eg; [done|]. intros _.
  rewrite !orb_false_iff, !Z.ltb_ge in Eg. destruct Eg as [[[_ Eg] _] _].
  unfold region_end, u64_ok in *. rewrite (u64_small (mr_base r + mr_length r)), !u64_small in Eg by (unfold u64_ok; lia).
  lia.
Qed.

Lemma region_spec phys bytes r : u64_ok phys -> 0 < bytes <= UINT64_MAX ->
  hhdm_region context phys bytes = Some r ->
  r ∈ mm_regions map /\ mr_base r <= phys /\ phys + bytes <= region_end r.
Proof using All.
  intros Hp Hb. destruct init_fields as (Em & _). unfold hhdm_region. rewrite Em.
  destruct (_ || _); [done|]. intros [Hin Hh]%List.find_some. apply list_elem_of_In in Hin.
  split; [done|]. apply region_holds_spec; try done.
  by apply (proj1 (Forall_forall _ _) (map_wf_regions _ Hwf)).
Qed.

(** The checks of [hhdm_translate] after the lookup never fail. *)
Lemma translate_spec phys bytes virt : u64_ok phys -> 0 < bytes <= UINT64_MAX ->
  hhdm_translate context phys bytes = Some virt <->
  (exists r, hhdm_region context phys bytes = Some r /\ hhdm_type_mapped (mr_type r) = true) /\
  virt = offset + phys.
Proof using All.
  intros Hp Hb. unfold hhdm_translate. destruct (hhdm_region context phys bytes) as [r|] eqn:Er;
    [|split; [done|by intros [(? & ? & _) _]]].
  destruct (region_spec phys bytes r Hp Hb Er) as (Hin & H1 & H2).
  pose proof (proj1 (Forall_forall _ _) (map_wf_regions _ Hwf) r Hin) as (H3 & H4 & H5 & _).
  destruct init_fields as (_ & Eo & _ & Hlow). rewrite Eo.
  destruct (hhdm_type_mapped (mr_type r)) eqn:Em; cbn [negb orb]; cycle 1.
  { split; [done|]. intros [(? & [= <-] & ?) _]. congruence. }
  pose proof (init_region r Hin Em) as Hend. unfold u64_ok, region_end in *.
  rewrite (u64_small (UINT64_MAX - offset)), (u64_small (offset + phys)) by (unfold u64_ok; lia).
  rewrite (u64_small (UINT64_MAX - (offset + phys))), (u64_small (bytes - 1)) by (unfold u64_ok; lia).
  assert (offset +u phys +u bytes -u 1 = offset + phys + bytes - 1) as Elast.
  { unfold u64 at 2. rewrite (u64_small (offset + phys)) by (unfold u64_ok; lia).
    unfold u64. rewrite Zminus_mod_idemp_l. apply Z.mod_small. unfold UINT64_MAX in *. lia. }
  rewrite (u64_small (offset + phys)) in Elast by (unfold u64_ok; lia). rewrite Elast.
  assert (forall a, 0xffff800000000000 <= a -> memory_is_canonical a = true) as Hcan.
  { intros a Ha. unfold memory_is_canonical. apply orb_true_iff. right. lia. }
  rewrite !Hcan by lia. assert (UINT64_MAX - offset <? phys = false) as -> by lia.
  assert (UINT64_MAX - (offset + phys) <? bytes - 1 = false) as -> by lia. cbn [negb orb].
  split; [|by intros [_ ->]]. intros [= <-]. split; [|done]. by exists r.
Qed.

Lemma reverse_spec phys bytes virt : u64_ok virt -> 0 < bytes <= UINT64_MAX -> u64_ok phys ->
  hhdm_reverse context virt bytes = Some phys <-> hhdm_translate context phys bytes = Some virt.
Proof using All.
  intros Hv Hb Hp. destruct init_fields as (_ & Eo & Ei & Hlow). unfold hhdm_reverse. rewrite Eo, Ei. cbn [negb orb].
  unfold u64_ok in *. destruct (Z.ltb_spec virt offset) as [Hlt|Hge].
  { split; [done|]. intros [_ E]%translate_spec; [lia|done|done]. }
  rewrite (u64_small (virt - offset)) by (unfold u64_ok; lia).
  destruct (hhdm_translate context (virt - offset) bytes) as [c|] eqn:Et.
  - assert (c = virt) as -> by (apply translate_spec in Et as [_ ?]; [lia|unfold u64_ok; lia|done]).
    rewrite Z.eqb_refl. cbn [negb]. split; [by intros [= <-]|].
    intros [_ ->]%translate_spec; [f_equal; lia|done|done].
  - split; [done|]. intros E. pose proof E as [_ ->]%translate_spec; [|done|done].
    replace (offset + phys - offset) with phys in Et by lia. congruence.
Qed.

(** Every range inside a usable region is found, and in that region. *)
Lemma region_usable phys bytes r : u64_ok phys -> 0 < bytes <= UINT64_MAX ->
  r ∈ mm_regions map -> requires_exclusive_region (mr_type r) = true ->
  mr_base r <= phys -> phys + bytes <= region_end r -> hhdm_region context phys bytes = Some r.
Proof using All.
  intros Hp Hb Hr He H1 H2. pose proof (proj1 (Forall_forall _ _) (map_wf_regions _ Hwf)) as Hok.
  pose proof (Hok r Hr) as (H3 & H4 & H5 & _).
  destruct init_fields as (Em & _ & Ei & _). unfold hhdm_region. rewrite Em, Ei. cbn [negb orb].
  unfold u64_ok, region_end in *. assert (bytes =? 0 = false) as -> by lia.
  rewrite !u64_small by (unfold u64_ok; lia). assert (UINT64_MAX - phys <? bytes - 1 = false) as -> by lia.
  cbn [orb]. destruct (List.find _ _) as [s|] eqn:Ef.
  - apply List.find_some in Ef as [Hs Hh]. apply list_elem_of_In in Hs. f_equal.
    apply region_holds_spec in Hh; [|by apply Hok|unfold u64_ok; lia|done].
    apply list_elem_of_lookup in Hr as [i Hi], Hs as [j Hj].
    destruct (decide (i = j)) as [->|Hij]; [congruence|]. pose proof (map_wf_disjoint _ Hwf i j r s Hij Hi Hj) as Hd.
    unfold regions_disjoint, region_end in Hd. rewrite He in Hd. destruct (Hd eq_refl); unfold region_end in *; lia.
  - exfalso. apply list_elem_of_In in Hr. pose proof (List.find_none _ _ Ef r Hr) as Hn.
    apply not_true_iff_false in Hn. apply Hn. apply list_elem_of_In in Hr. apply region_holds_spec; [by apply Hok|unfold u64_ok; lia|done|].
    unfold region_end. lia.
Qed.
End init.

(** C38. Once [hhdm_init] accepts a well-formed memory
    map, [hhdm_translate] adds the offset to exactly the ranges whose region
    has a mapped type, [hhdm_reverse] is its inverse in both directions, and
    every range inside a usable or reclaimable region translates. *)
Theorem hhdm_exact context0 map offset bits context phys bytes virt :
  map_wf map -> u64_ok offset -> hhdm_init context0 map offset bits = Some context ->
  u64_ok phys -> u64_ok virt -> 0 < bytes <= UINT64_MAX ->
  (hhdm_translate context phys bytes = Some virt <->
     (exists r, hhdm_region context phys bytes = Some r /\ hhdm_type_mapped (mr_type r) = true) /\
     virt = offset + phys) /\
  (hhdm_reverse context virt bytes = Some phys <-> hhdm_translate context phys bytes = Some virt) /\
  (forall r, r ∈ mm_regions map -> requires_exclusive_region (mr_type r) = true ->
     mr_base r <= phys -> phys + bytes <= region_end r ->
     hhdm_translate context phys bytes = Some (offset + phys)).
Proof.
  intros Hwf Ho Hi Hp Hv Hb. split_and!.
  - by apply (translate_spec context0 context map offset bits).
  - by apply (reverse_spec context0 context map offset bits).
  - intros r Hr He H1 H2. apply (translate_spec context0 context map offset bits); try done. split; [|done].
    exists r. split; [by apply (region_usable context0 context map offset bits)|].
    unfold requires_exclusive_region in He. unfold hhdm_type_mapped. by rewrite He.
Qed.

Lemma hhdm_exact_witness :
  let map := fst (memory_map_add (MkMap [] 0 0) (MkRegion 4096 8192 UTAMO_MEMORY_USABLE)) in
  let context := MkHhdm map 0xffff800000000000 0x000000fffffff000 true in
  hhdm_translate context 5000 100 = Some 0xffff800000001388 /\
  hhdm_reverse context 0xffff800000001388 100 = Some 5000.
Proof.
  intros map context.
  destruct (hhdm_exact (MkHhdm (MkMap [] 0 0) 0 0 false) map 0xffff800000000000 40 context 5000 100 0xffff800000001388)
    as (H1 & H2 & H3).
  - constructor; unfold map; cbn; try done.
    + by repeat constructor.
    + intros [|[|]] [|[|]]; cbn; intros; simplify_eq; lia.
    + intros [|[|]] [|[|]]; cbn; intros; simplify_eq; lia.
  - unfold u64_ok, UINT64_MAX. lia.
  - by vm_compute.
  - unfold u64_ok, UINT64_MAX. lia.
  - unfold u64_ok, UINT64_MAX. lia.
  - unfold UINT64_MAX. lia.
  - assert (hhdm_translate context 5000 100 = Some 0xffff800000001388) as E.
    { apply (H3 (MkRegion 4096 8192 UTAMO_MEMORY_USABLE)); [cbn; by left|done|cbn; lia|cbn; unfold region_end; cbn; lia]. }
    split; [done|]. by apply H2.
Defined.
