(* ===== verification/PmmCore.v ===== *)
(** * The physical page allocator (kernel/memory/pmm_core.c): definitions

    Two bitmaps with one bit per 4 KiB frame live side by side in one byte
    array, the storage the plan reserves: [eligible] at its start, [occupied]
    [bitmap_bytes] further.  The state keeps that array once, and the two
    bitmap pointers are offsets into it, so that the model has the aliasing of
    the code. *)

From S2P Require Import Prelude MemoryHelpers MemoryMap.
Open Scope Z_scope.

Record pmm_plan_t := MkPlan {
  pl_storage_phys : Z;
  pl_storage_bytes : Z;
  pl_bitmap_bytes : Z;
  pl_span_frames : Z
}.

#[export] Instance pmm_plan_eq_dec : EqDecision pmm_plan_t.
Proof. solve_decision. Defined.

Record pmm_stats := MkPmmStats {
  ps_total_frames : Z;
  ps_free_frames : Z;
  ps_used_frames : Z;
  ps_bitmap_phys : Z;
  ps_bitmap_bytes : Z;
  ps_storage_bytes : Z;
  ps_span_frames : Z
}.

Record pmm_state := MkPmm {
  pmm_mem : list Z;          (** the bytes both bitmap pointers point into *)
  pmm_eligible : Z;          (** offset of the eligibility bitmap *)
  pmm_occupied : Z;          (** offset of the occupancy bitmap *)
  pmm_plan_of : pmm_plan_t;
  pmm_total_frames : Z;
  pmm_free_frames : Z;
  pmm_cursor : Z;
  pmm_initialized : bool
}.

Definition pmm_span (state : pmm_state) : Z := pl_span_frames (pmm_plan_of state).

Definition with_mem (state : pmm_state) (mem : list Z) : pmm_state :=
  MkPmm mem (pmm_eligible state) (pmm_occupied state) (pmm_plan_of state)
    (pmm_total_frames state) (pmm_free_frames state) (pmm_cursor state) (pmm_initialized state).

Definition with_free (state : pmm_state) (free : Z) : pmm_state :=
  MkPmm (pmm_mem state) (pmm_eligible state) (pmm_occupied state) (pmm_plan_of state)
    (pmm_total_frames state) free (pmm_cursor state) (pmm_initialized state).

Definition with_cursor (state : pmm_state) (cursor : Z) : pmm_state :=
  MkPmm (pmm_mem state) (pmm_eligible state) (pmm_occupied state) (pmm_plan_of state)
    (pmm_total_frames state) (pmm_free_frames state) cursor (pmm_initialized state).

(** ** Bitmaps *)

Definition bitmap_test (mem : list Z) (bitmap frame : Z) : bool :=
  let bit := Z.land frame 7 in
  negb (Z.land (arr_get mem (bitmap + frame / 8)) (Z.shiftl 1 bit) =? 0).

Definition bitmap_set (mem : list Z) (bitmap frame : Z) (value : bool) : list Z :=
  let index := bitmap + frame / 8 in
  let bit := Z.land frame 7 in
  let mask := u8 (Z.shiftl 1 bit) in
  if value then arr_set mem index (Z.lor (arr_get mem index) mask)
  else arr_set mem index (Z.land (arr_get mem index) (Z.ldiff 255 mask)).

#[global] Arguments bitmap_test : simpl never.
#[global] Arguments bitmap_set : simpl never.

(** A [for] loop that sets or clears one bitmap on [first, limit). *)
Definition bitmap_set_range (mem : list Z) (bitmap first limit : Z) (value : bool) : list Z :=
  foldl (fun mem frame => bitmap_set mem bitmap frame value) mem (seqZ first (limit - first)).

(** ** Planning *)

(** The first loop of [pmm_plan]: validates the regions and computes
    [last_end] and [usable_bytes]; [None] is an early [return false]. *)
Fixpoint plan_scan (previous : option memory_region) (regions : list memory_region)
    (last_end usable_bytes : Z) : option (Z * Z) :=
  match regions with
  | [] => Some (last_end, usable_bytes)
  | region :: rest =>
      if (mr_length region =? 0) || (UINT64_MAX -u mr_base region <? mr_length region) ||
         (UTAMO_MEMORY_FRAMEBUFFER <? mr_type region) ||
         match previous with Some p => mr_base region <? mr_base p | None => false end
      then None
      else if negb (mr_type region =? UTAMO_MEMORY_USABLE) then
        plan_scan (Some region) rest last_end usable_bytes
      else if negb (memory_is_page_aligned (mr_base region)) ||
              negb (memory_is_page_aligned (mr_length region)) ||
              (UINT64_MAX -u usable_bytes <? mr_length region)
      then None
      else
        let limit := mr_base region +u mr_length region in
        plan_scan (Some region) rest (if last_end <? limit then limit else last_end)
          (usable_bytes +u mr_length region)
  end.

(** The second loop: the first usable region that can hold the bitmaps. *)
Fixpoint plan_place (regions : list memory_region) (storage_bytes bitmap_bytes frames : Z)
    : option pmm_plan_t :=
  match regions with
  | [] => None
  | region :: rest =>
      if negb (mr_type region =? UTAMO_MEMORY_USABLE) then
        plan_place rest storage_bytes bitmap_bytes frames
      else
        let start := if mr_base region =? 0 then MEMORY_PAGE_SIZE else mr_base region in
        let limit := mr_base region +u mr_length region in
        if (start <=? limit) && (storage_bytes <=? limit -u start)
        then Some (MkPlan start storage_bytes bitmap_bytes frames)
        else plan_place rest storage_bytes bitmap_bytes frames
  end.

Definition pmm_plan (map : memory_map) : option pmm_plan_t :=
  if (mm_count map =? 0) || (UTAMO_MEMORY_REGION_LIMIT <? mm_count map) then None
  else match plan_scan None (mm_regions map) 0 0 with
  | None => None
  | Some (last_end, usable_bytes) =>
      if (last_end =? 0) || negb (usable_bytes =? mm_usable_bytes map) then None
      else
      let frames := last_end / MEMORY_PAGE_SIZE in
      let bitmap_bytes := frames / 8 +u (if negb (frames mod 8 =? 0) then 1 else 0) in
      if UINT64_MAX / 2 <? bitmap_bytes then None
      else match memory_align_up (bitmap_bytes *u 2) with
      | None => None
      | Some storage_bytes =>
          if SIZE_MAX <? storage_bytes then None
          else plan_place (mm_regions map) storage_bytes bitmap_bytes frames
      end
  end.

(** ** Range checks and permanent reservations *)

Definition range_frames (state : pmm_state) (phys count : Z) : option (Z * Z) :=
  if negb (pmm_initialized state) || (count =? 0) || negb (memory_is_page_aligned phys) then None
  else
    let frame := phys / MEMORY_PAGE_SIZE in
    if (pmm_span state <=? frame) || (pmm_span state -u frame <? count) then None
    else Some (frame, frame +u count).

(** One iteration of the reservation loop. *)
Definition reserve_frame (state : pmm_state) (frame : Z) : pmm_state :=
  if bitmap_test (pmm_mem state) (pmm_eligible state) frame then
    let state := with_mem state (bitmap_set (pmm_mem state) (pmm_eligible state) frame false) in
    let state := with_mem state (bitmap_set (pmm_mem state) (pmm_occupied state) frame true) in
    with_free state (pmm_free_frames state -u 1)
  else state.

Definition pmm_core_reserve_range (state : pmm_state) (phys bytes : Z) : pmm_state * bool :=
  if negb (pmm_initialized state) || (bytes =? 0) || (UINT64_MAX -u phys <? bytes)
  then (state, false)
  else match memory_align_up (phys +u bytes) with
  | None => (state, false)
  | Some end_address =>
      let first := phys / MEMORY_PAGE_SIZE in
      let limit := end_address / MEMORY_PAGE_SIZE in
      let limit := if pmm_span state <? limit then pmm_span state else limit in
      if existsb (fun frame => bitmap_test (pmm_mem state) (pmm_eligible state) frame &&
                               bitmap_test (pmm_mem state) (pmm_occupied state) frame)
           (seqZ first (limit - first))
      then (state, false)
      else (foldl reserve_frame state (seqZ first (limit - first)), true)
  end.

(** ** Initialisation *)

(** One usable region made available. *)
Definition init_region (eligible occupied : Z) (mem : list Z) (region : memory_region) : list Z :=
  if negb (mr_type region =? UTAMO_MEMORY_USABLE) then mem
  else
    let first := mr_base region / MEMORY_PAGE_SIZE in
    let limit := (mr_base region +u mr_length region) / MEMORY_PAGE_SIZE in
    foldl (fun mem frame => bitmap_set (bitmap_set mem eligible frame true) occupied frame false)
      mem (seqZ first (limit - first)).

(** The two [memset]s on the storage object, whose bytes are [storage]. *)
Definition init_storage (storage : list Z) (storage_bytes bitmap_bytes : Z) : list Z :=
  let mem := replicate (Z.to_nat storage_bytes) 0 ++ drop (Z.to_nat storage_bytes) storage in
  take (Z.to_nat bitmap_bytes) mem ++ replicate (Z.to_nat bitmap_bytes) 255 ++
  drop (Z.to_nat (bitmap_bytes + bitmap_bytes)) mem.

Definition pmm_core_init (state : pmm_state) (map : memory_map) (plan : pmm_plan_t)
    (storage : list Z) : pmm_state * bool :=
  if pmm_initialized state then (state, false)
  else match pmm_plan map with
  | None => (state, false)
  | Some expected =>
      if negb (pl_storage_phys plan =? pl_storage_phys expected) ||
         negb (pl_storage_bytes plan =? pl_storage_bytes expected) ||
         negb (pl_bitmap_bytes plan =? pl_bitmap_bytes expected) ||
         negb (pl_span_frames plan =? pl_span_frames expected)
      then (state, false)
      else
      let eligible := 0 in
      let occupied := pl_bitmap_bytes plan in
      let mem := init_storage storage (pl_storage_bytes plan) (pl_bitmap_bytes plan) in
      let mem := foldl (init_region eligible occupied) mem (mm_regions map) in
      let initial := MkPmm mem eligible occupied plan
        (mm_usable_bytes map / MEMORY_PAGE_SIZE) (mm_usable_bytes map / MEMORY_PAGE_SIZE) 0 true in
      let initial := fst (pmm_core_reserve_range initial 0 MEMORY_PAGE_SIZE) in
      let initial := fst (pmm_core_reserve_range initial (pl_storage_phys plan)
                            (pl_storage_bytes plan)) in
      (initial, true)
  end.

(** ** Allocation *)

(** The scan of [find_run]: [steps] frames are left, [run] free ones have
    just been seen. *)
Fixpoint find_run_from (state : pmm_state) (steps : nat) (frame run count : Z) : option Z :=
  match steps with
  | O => None
  | S steps =>
      if negb (bitmap_test (pmm_mem state) (pmm_occupied state) frame) then
        let run := run +u 1 in
        if run =? count then Some (frame -u (count -u 1))
        else find_run_from state steps (frame +u 1) run count
      else find_run_from state steps (frame +u 1) 0 count
  end.

Definition find_run (state : pmm_state) (start count : Z) : option Z :=
  find_run_from state (Z.to_nat (pmm_span state - start)) start 0 count.

Definition pmm_core_alloc_pages (state : pmm_state) (count : Z) : pmm_state * option Z :=
  if negb (pmm_initialized state) || (count =? 0) || (pmm_free_frames state <? count)
  then (state, None)
  else
  let found := match find_run state (pmm_cursor state) count with
    | Some first => Some first
    | None => if pmm_cursor state =? 0 then None else find_run state 0 count
    end in
  match found with
  | None => (state, None)
  | Some first =>
      let limit := first +u count in
      let state := with_mem state
        (bitmap_set_range (pmm_mem state) (pmm_occupied state) first limit true) in
      let state := with_free state (pmm_free_frames state -u count) in
      let state := with_cursor state (if limit =? pmm_span state then 0 else limit) in
      (state, Some (first *u MEMORY_PAGE_SIZE))
  end.

Definition pmm_core_free_pages (state : pmm_state) (phys count : Z) : pmm_state * bool :=
  match range_frames state phys count with
  | None => (state, false)
  | Some (first, limit) =>
      if existsb (fun frame => negb (bitmap_test (pmm_mem state) (pmm_eligible state) frame) ||
                               negb (bitmap_test (pmm_mem state) (pmm_occupied state) frame))
           (seqZ first (limit - first))
      then (state, false)
      else
        let state := with_mem state
          (bitmap_set_range (pmm_mem state) (pmm_occupied state) first limit false) in
        (with_free state (pmm_free_frames state +u count), true)
  end.

Definition pmm_core_pin_page (state : pmm_state) (phys : Z) : pmm_state * bool :=
  match range_frames state phys 1 with
  | None => (state, false)
  | Some (first, _) =>
      if negb (bitmap_test (pmm_mem state) (pmm_eligible state) first) ||
         negb (bitmap_test (pmm_mem state) (pmm_occupied state) first)
      then (state, false)
      else (with_mem state (bitmap_set (pmm_mem state) (pmm_eligible state) first false), true)
  end.

Definition pmm_core_is_allocated_page (state : pmm_state) (phys : Z) : bool :=
  match range_frames state phys 1 with
  | None => false
  | Some (first, _) =>
      bitmap_test (pmm_mem state) (pmm_eligible state) first &&
      bitmap_test (pmm_mem state) (pmm_occupied state) first
  end.

Definition pmm_core_get_stats (state : pmm_state) : option pmm_stats :=
  if negb (pmm_initialized state) then None
  else Some (MkPmmStats (pmm_total_frames state) (pmm_free_frames state)
    (pmm_total_frames state -u pmm_free_frames state)
    (pl_storage_phys (pmm_plan_of state)) (pl_bitmap_bytes (pmm_plan_of state))
    (pl_storage_bytes (pmm_plan_of state)) (pmm_span state)).
