(* ===== verification/PmmProps.v ===== *)
(** * The physical page allocator: bitmaps, invariant and abstract view

    Facts about the two bitmaps, the invariant [pmm_wf] of the allocator
    state, and the abstract allocator (sets of free and allocated frames) that
    the bitmaps implement. *)

From S2P Require Import Prelude MemoryHelpers MemoryMap PmmCore.
Open Scope Z_scope.

(** ** Bitmaps *)

Lemma bitmap_test_testbit m b f : 0 <= f ->
  bitmap_test m b f = Z.testbit (arr_get m (b + f / 8)) (f mod 8).
Proof.
  intros. unfold bitmap_test. change 7 with (Z.ones 3). rewrite Z.land_ones by done.
  apply land_pow2_test. change (2 ^ 3) with 8. dlia.
Qed.

Lemma length_bitmap_set m b f v : length (bitmap_set m b f v) = length m.
Proof. unfold bitmap_set. destruct v; apply length_arr_set. Qed.

Lemma length_bitmap_set_range m b lo hi v : length (bitmap_set_range m b lo hi v) = length m.
Proof.
  unfold bitmap_set_range. generalize (seqZ lo (hi - lo)). intros l. revert m.
  induction l as [|f l IH]; intros m; simpl; [done|]. rewrite IH. apply length_bitmap_set.
Qed.

(** The byte written by [bitmap_set] has the one bit changed. *)
Lemma set_byte_testbit x k j (v : bool) : 0 <= k < 8 -> 0 <= j < 8 ->
  Z.testbit (if v then Z.lor x (u8 (Z.shiftl 1 k)) else Z.land x (Z.ldiff 255 (u8 (Z.shiftl 1 k)))) j
  = if decide (k = j) then v else Z.testbit x j.
Proof.
  intros Hk Hj.
  assert (u8 (Z.shiftl 1 k) = 2 ^ k) as ->.
  { rewrite Z.shiftl_1_l. apply u8_small.
    assert (2 ^ k < 2 ^ 8) by (apply Z.pow_lt_mono_r; lia).
    pose proof (Z.pow_pos_nonneg 2 k). lia. }
  destruct v; rewrite ?Z.lor_spec, ?Z.land_spec, ?Z.ldiff_spec.
  - destruct (decide (k = j)) as [->|Hne].
    + rewrite Z.pow2_bits_true by lia. apply orb_true_r.
    + rewrite Z.pow2_bits_false by lia. apply orb_false_r.
  - change 255 with (Z.ones 8). rewrite Z.ones_spec_low by lia.
    destruct (decide (k = j)) as [->|Hne].
    + rewrite Z.pow2_bits_true by lia. apply andb_false_r.
    + rewrite Z.pow2_bits_false by lia. apply andb_true_r.
Qed.

Lemma bitmap_test_set m b b' f f' v : 0 <= b -> 0 <= b' -> 0 <= f -> 0 <= f' ->
  b + f / 8 < Z.of_nat (length m) ->
  bitmap_test (bitmap_set m b f v) b' f' =
  if decide (b + f / 8 = b' + f' / 8 /\ f mod 8 = f' mod 8) then v else bitmap_test m b' f'.
Proof.
  intros Hb Hb' Hf Hf' Hlen. rewrite !bitmap_test_testbit by done.
  assert (0 <= f / 8 /\ 0 <= f' / 8 /\ 0 <= f mod 8 < 8 /\ 0 <= f' mod 8 < 8)
    as (?&?&?&?) by dlia.
  assert (bitmap_set m b f v = arr_set m (b + f / 8)
    (if v then Z.lor (arr_get m (b + f / 8)) (u8 (Z.shiftl 1 (f mod 8)))
     else Z.land (arr_get m (b + f / 8)) (Z.ldiff 255 (u8 (Z.shiftl 1 (f mod 8)))))) as ->.
  { unfold bitmap_set. change 7 with (Z.ones 3). rewrite Z.land_ones by done. by destruct v. }
  destruct (decide (b + f / 8 = b' + f' / 8)) as [He|Hne].
  - rewrite <- He, arr_get_set_eq, set_byte_testbit by lia.
    by repeat case_decide; try tauto.
  - rewrite arr_get_set_ne by lia. by case_decide; try tauto.
Qed.

Lemma bitmap_test_set_same m b f f' v : 0 <= b -> 0 <= f -> 0 <= f' ->
  b + f / 8 < Z.of_nat (length m) ->
  bitmap_test (bitmap_set m b f v) b f' = if decide (f = f') then v else bitmap_test m b f'.
Proof.
  intros. rewrite bitmap_test_set by done.
  case_decide as Ha; case_decide as Hc; try done; [|subst; tauto].
  exfalso. apply Hc. destruct Ha. dlia.
Qed.

Lemma bitmap_test_set_other m b b' f f' v : 0 <= b -> 0 <= b' -> 0 <= f -> 0 <= f' ->
  b + f / 8 < Z.of_nat (length m) -> b + f / 8 <> b' + f' / 8 ->
  bitmap_test (bitmap_set m b f v) b' f' = bitmap_test m b' f'.
Proof. intros. rewrite bitmap_test_set by done. by case_decide; try tauto. Qed.

(** The C loops run upwards; [foldl] over an interval is that loop. *)
Lemma foldl_seqZ_ind {S} (step : S -> Z -> S) (P : Z -> S -> Prop) lo hi s0 :
  lo <= hi -> P lo s0 ->
  (forall f s, lo <= f < hi -> P f s -> P (f + 1) (step s f)) ->
  P hi (foldl step s0 (seqZ lo (hi - lo))).
Proof.
  intros Hle. remember (Z.to_nat (hi - lo)) as n eqn:Hn. revert lo s0 Hle Hn.
  induction n as [|n IH]; intros lo s0 Hle Hn H0 Hstep.
  - rewrite seqZ_nil by lia. simpl. by replace hi with lo by lia.
  - rewrite seqZ_cons by lia. simpl.
    replace (Z.pred (hi - lo)) with (hi - Z.succ lo) by lia.
    apply IH; [lia|lia| |].
    + replace (Z.succ lo) with (lo + 1) by lia. apply Hstep; [lia|done].
    + intros f s Hf. apply Hstep. lia.
Qed.

(** After the loop, the bits of the interval have the new value and no
    other bit of either bitmap has changed. *)
Lemma bitmap_set_range_test m b b' lo hi v bytes :
  0 <= b -> 0 <= b' -> 0 <= lo <= hi -> hi <= 8 * bytes ->
  b + bytes <= Z.of_nat (length m) -> (b' = b \/ b + bytes <= b' \/ b' + bytes <= b) ->
  forall f', 0 <= f' < 8 * bytes ->
  bitmap_test (bitmap_set_range m b lo hi v) b' f' =
  if decide (b' = b /\ lo <= f' < hi) then v else bitmap_test m b' f'.
Proof.
  intros Hb Hb' Hlo Hhi Hlen Hsep. unfold bitmap_set_range.
  set (Inv := fun (k : Z) (m' : list Z) => length m' = length m /\ forall f', 0 <= f' < 8 * bytes ->
    bitmap_test m' b' f' = if decide (b' = b /\ lo <= f' < k) then v else bitmap_test m b' f').
  assert (Inv hi (foldl (fun mem frame => bitmap_set mem b frame v) m (seqZ lo (hi - lo)))) as [_ H];
    [|exact H].
  apply (foldl_seqZ_ind _ Inv); [lia| |].
  - split; [done|]. intros f' Hf'. case_decide; [lia|done].
  - intros f m' Hf [Hl Hm']. split; [by rewrite length_bitmap_set|]. intros f' Hf'.
    assert (f / 8 < bytes /\ f' / 8 < bytes /\ 0 <= f / 8 /\ 0 <= f' / 8) as (?&?&?&?) by dlia.
    destruct (decide (b' = b)) as [->|Hne].
    + rewrite bitmap_test_set_same, Hm' by lia.
      repeat case_decide; try done; lia.
    + rewrite bitmap_test_set_other, Hm' by lia. repeat case_decide; try done; lia.
Qed.

(** ** The invariant *)

Definition elig (st : pmm_state) (f : Z) : bool := bitmap_test (pmm_mem st) (pmm_eligible st) f.
Definition occ (st : pmm_state) (f : Z) : bool := bitmap_test (pmm_mem st) (pmm_occupied st) f.

(** Where the two bitmaps lie. *)
Record pmm_layout (st : pmm_state) : Prop := {
  lay_eligible : pmm_eligible st = 0;
  lay_occupied : pmm_occupied st = pl_bitmap_bytes (pmm_plan_of st);
  lay_span : 0 < pmm_span st <= 8 * pl_bitmap_bytes (pmm_plan_of st);
  lay_mem : 2 * pl_bitmap_bytes (pmm_plan_of st) <= Z.of_nat (length (pmm_mem st));
  lay_addr : pmm_span st * 4096 <= UINT64_MAX
}.

(** The invariant while the allocator is being set up. *)
Record pmm_pre (st : pmm_state) : Prop := {
  wf_initialized : pmm_initialized st = true;
  wf_layout : pmm_layout st;
  (** a frame that is not occupied is eligible *)
  wf_bits : forall f, 0 <= f < pmm_span st -> occ st f = false -> elig st f = true;
  (** the counter is the number of frames whose occupancy bit is clear *)
  wf_free : pmm_free_frames st = count_if (fun f => negb (occ st f)) (seqZ 0 (pmm_span st));
  wf_total : count_if (elig st) (seqZ 0 (pmm_span st)) <= pmm_total_frames st <= pmm_span st;
  wf_cursor : 0 <= pmm_cursor st < pmm_span st
}.

(** The invariant of the allocator in service: besides, the first page of
    memory is never handed out. *)
Record pmm_wf (st : pmm_state) : Prop := {
  wf_pre :> pmm_pre st;
  wf_zero : elig st 0 = false
}.

(** ** The abstract allocator *)

Record frames := MkFrames { fr_free : gset Z; fr_allocated : gset Z }.

Definition frame_set (p : Z -> bool) (n : Z) : gset Z :=
  list_to_set (filter (fun f => p f = true) (seqZ 0 n)).

(** The frames [first, first + count). *)
Definition run (first count : Z) : gset Z := list_to_set (seqZ first count).

Definition pmm_abs (st : pmm_state) : frames :=
  MkFrames (frame_set (fun f => negb (occ st f)) (pmm_span st))
           (frame_set (fun f => elig st f && occ st f) (pmm_span st)).

(** What the allocator promises its clients: each step moves whole frames
    between the two sets. *)
Inductive frames_step : frames -> frames -> Prop :=
  | step_alloc A first count : 0 < count -> run first count ⊆ fr_free A ->
      frames_step A (MkFrames (fr_free A ∖ run first count) (fr_allocated A ∪ run first count))
  | step_free A first count : 0 < count -> run first count ⊆ fr_allocated A ->
      frames_step A (MkFrames (fr_free A ∪ run first count) (fr_allocated A ∖ run first count))
  | step_pin A f : f ∈ fr_allocated A ->
      frames_step A (MkFrames (fr_free A) (fr_allocated A ∖ {[f]}))
  | step_reserve A first count : run first count ## fr_allocated A ->
      frames_step A (MkFrames (fr_free A ∖ run first count) (fr_allocated A)).

Lemma elem_of_run f first count : f ∈ run first count <-> first <= f < first + count.
Proof. unfold run. rewrite elem_of_list_to_set, elem_of_seqZ. done. Qed.

Lemma elem_of_frame_set p n f : f ∈ frame_set p n <-> 0 <= f < n /\ p f = true.
Proof.
  unfold frame_set. rewrite elem_of_list_to_set, list_elem_of_filter, elem_of_seqZ.
  split; intros []; split; auto; lia.
Qed.

Lemma elem_of_free st f :
  f ∈ fr_free (pmm_abs st) <-> 0 <= f < pmm_span st /\ occ st f = false.
Proof. simpl. rewrite elem_of_frame_set, negb_true_iff. done. Qed.

Lemma elem_of_allocated st f :
  f ∈ fr_allocated (pmm_abs st) <-> 0 <= f < pmm_span st /\ elig st f = true /\ occ st f = true.
Proof. simpl. rewrite elem_of_frame_set, andb_true_iff. done. Qed.

Lemma size_frame_set p n : Z.of_nat (size (frame_set p n)) = count_if p (seqZ 0 n).
Proof.
  unfold frame_set. rewrite size_list_to_set by (apply NoDup_filter, NoDup_seqZ).
  generalize (seqZ 0 n). intros l. induction l as [|x l IH]; [done|]. simpl.
  rewrite filter_cons. destruct (p x); case_decide; try done; simpl; lia.
Qed.

(** The counter the code keeps is the size of the abstract free set. *)
Lemma pmm_free_frames_size st : pmm_wf st ->
  pmm_free_frames st = Z.of_nat (size (fr_free (pmm_abs st))).
Proof. intros H. rewrite (wf_free _ H). simpl. by rewrite size_frame_set. Qed.

#[global] Arguments pmm_abs : simpl never.
#[global] Arguments fr_free : simpl nomatch.
#[global] Arguments fr_allocated : simpl nomatch.

(** No step ever makes a frame free and allocated at once. *)
Lemma frames_step_disjoint A B : frames_step A B ->
  fr_free A ## fr_allocated A -> fr_free B ## fr_allocated B.
Proof. destruct 1; simpl; set_solver. Qed.

(** ** Bits after the writes of the operations *)

Section writes.
Context (st : pmm_state) (Hlay : pmm_layout st).

Lemma span_pos : 0 < pmm_span st.
Proof. apply Hlay. Qed.

Lemma occ_set_range lo hi v f : 0 <= lo <= hi -> hi <= pmm_span st -> 0 <= f < pmm_span st ->
  occ (with_mem st (bitmap_set_range (pmm_mem st) (pmm_occupied st) lo hi v)) f =
  if decide (lo <= f < hi) then v else occ st f.
Proof.
  intros. destruct Hlay as [Le Lo Ls Lm La]. unfold occ. simpl.
  rewrite (bitmap_set_range_test _ _ _ _ _ _ (pl_bitmap_bytes (pmm_plan_of st))) by (rewrite ?Lo; lia).
  repeat case_decide; try done; lia.
Qed.

Lemma elig_set_range_occ lo hi v f : 0 <= lo <= hi -> hi <= pmm_span st -> 0 <= f < pmm_span st ->
  elig (with_mem st (bitmap_set_range (pmm_mem st) (pmm_occupied st) lo hi v)) f = elig st f.
Proof.
  intros. destruct Hlay as [Le Lo Ls Lm La]. unfold elig. simpl.
  rewrite (bitmap_set_range_test _ _ _ _ _ _ (pl_bitmap_bytes (pmm_plan_of st)))
    by (rewrite ?Lo, ?Le; lia).
  case_decide; [lia|done].
Qed.

Lemma elig_set_elig f f' v : 0 <= f < pmm_span st -> 0 <= f' < pmm_span st ->
  elig (with_mem st (bitmap_set (pmm_mem st) (pmm_eligible st) f v)) f' =
  if decide (f = f') then v else elig st f'.
Proof.
  intros. destruct Hlay as [Le Lo Ls Lm La]. unfold elig. simpl.
  apply bitmap_test_set_same; [lia..|]. dlia.
Qed.

Lemma occ_set_elig f f' v : 0 <= f < pmm_span st -> 0 <= f' < pmm_span st ->
  occ (with_mem st (bitmap_set (pmm_mem st) (pmm_eligible st) f v)) f' = occ st f'.
Proof.
  intros. destruct Hlay as [Le Lo Ls Lm La]. unfold occ. simpl.
  apply bitmap_test_set_other; [lia..| |]; rewrite ?Le, ?Lo; dlia.
Qed.

Lemma occ_set_occ f f' v : 0 <= f < pmm_span st -> 0 <= f' < pmm_span st ->
  occ (with_mem st (bitmap_set (pmm_mem st) (pmm_occupied st) f v)) f' =
  if decide (f = f') then v else occ st f'.
Proof.
  intros. destruct Hlay as [Le Lo Ls Lm La]. unfold occ. simpl.
  apply bitmap_test_set_same; [lia..|]. rewrite Lo. dlia.
Qed.

Lemma elig_set_occ f f' v : 0 <= f < pmm_span st -> 0 <= f' < pmm_span st ->
  elig (with_mem st (bitmap_set (pmm_mem st) (pmm_occupied st) f v)) f' = elig st f'.
Proof.
  intros. destruct Hlay as [Le Lo Ls Lm La]. unfold elig. simpl.
  apply bitmap_test_set_other; [lia..| |]; rewrite ?Le, ?Lo; dlia.
Qed.

Lemma layout_with_mem m : length m = length (pmm_mem st) -> pmm_layout (with_mem st m).
Proof. intros Hm. destruct Hlay. constructor; simpl; rewrite ?Hm; done. Qed.
End writes.

(** ** The physical page allocator: theorems

    Every operation of pmm_core.c refines a step of the abstract allocator
    and keeps the invariant; failures change nothing; allocation is complete
    (it fails only when no run is long enough). *)


(** ** The scan for a run of free frames *)

Definition free_run (st : pmm_state) (first count : Z) : Prop :=
  0 <= first /\ first + count <= pmm_span st /\
  forall f, first <= f < first + count -> occ st f = false.

Lemma find_run_from_spec st count : u64_ok (pmm_span st) -> 0 < count ->
  forall steps frame run,
  0 <= run < count -> 0 <= frame - run -> frame + Z.of_nat steps = pmm_span st ->
  (forall f, frame - run <= f < frame -> occ st f = false) ->
  match find_run_from st steps frame run count with
  | Some first => frame - run <= first /\ free_run st first count /\
      forall g, frame - run <= g < first -> ~ free_run st g count
  | None => forall g, frame - run <= g -> ~ free_run st g count
  end.
Proof.
  intros Hspan Hc. unfold u64_ok in Hspan.
  induction steps as [|steps IH]; intros frame run Hr Hf Hs Hfree; simpl.
  - intros g Hg (?&?&?). lia.
  - fold (occ st frame). destruct (occ st frame) eqn:Eo; simpl.
    + rewrite u64_small by (unfold u64_ok; lia).
      specialize (IH (frame + 1) 0 ltac:(lia) ltac:(lia) ltac:(lia) ltac:(lia)).
      assert (forall g, frame - run <= g < frame + 1 -> ~ free_run st g count) as Hno.
      { intros g Hg (?&?&Hall). specialize (Hall frame ltac:(lia)). congruence. }
      destruct (find_run_from st steps _ _ _) as [first|].
      * destruct IH as (?&?&IH). split_and!; [lia|done|].
        intros g Hg. destruct (decide (g < frame + 1)); [apply Hno|apply IH]; lia.
      * intros g Hg. destruct (decide (g < frame + 1)); [apply Hno|apply IH]; lia.
    + assert (forall f, frame - run <= f < frame + 1 -> occ st f = false) as Hfree'.
      { intros f ?. destruct (decide (f = frame)) as [->|]; [done|]. apply Hfree. lia. }
      destruct (decide (count <= pmm_span st)); cycle 1.
      { destruct (run +u 1 =? count) eqn:E.
        - apply Z.eqb_eq in E. rewrite u64_small in E by (unfold u64_ok; lia). lia.
        - rewrite !u64_small by (unfold u64_ok; lia).
          specialize (IH (frame + 1) (run + 1) ltac:(lia) ltac:(lia) ltac:(lia)).
          replace (frame + 1 - (run + 1)) with (frame - run) in IH by lia.
          apply IH. done. }
      rewrite !(u64_small (run + 1)), !(u64_small (frame + 1)), !(u64_small (count - 1))
        by (unfold u64_ok; lia).
      destruct (Z.eqb_spec (run + 1) count) as [He|He].
      * rewrite u64_small by (unfold u64_ok; lia). split_and!; [lia| |lia].
        split_and!; [lia|lia|]. intros f ?. apply Hfree'. lia.
      * specialize (IH (frame + 1) (run + 1) ltac:(lia) ltac:(lia) ltac:(lia)).
        replace (frame + 1 - (run + 1)) with (frame - run) in IH by lia. apply IH. done.
Qed.

Lemma find_run_spec st start count : u64_ok (pmm_span st) -> 0 < count -> 0 <= start <= pmm_span st ->
  match find_run st start count with
  | Some first => start <= first /\ free_run st first count /\
      forall g, start <= g < first -> ~ free_run st g count
  | None => forall g, start <= g -> ~ free_run st g count
  end.
Proof.
  intros Hu Hc Hs. unfold find_run.
  pose proof (find_run_from_spec st count Hu Hc (Z.to_nat (pmm_span st - start)) start 0) as H.
  rewrite Z.sub_0_r in H. apply H; lia.
Qed.

Lemma wf_span_u64 st : pmm_pre st -> u64_ok (pmm_span st).
Proof. intros H. destruct (wf_layout _ H). unfold u64_ok. lia. Qed.

Lemma free_run_abs st first count : 0 < count ->
  free_run st first count <-> run first count ⊆ fr_free (pmm_abs st).
Proof.
  intros Hc. unfold free_run. split.
  - intros (?&?&Hall) f Hf. apply elem_of_run in Hf. apply elem_of_free.
    split; [lia|]. by apply Hall.
  - intros Hsub.
    assert (forall f, first <= f < first + count -> 0 <= f < pmm_span st /\ occ st f = false) as Hall.
    { intros f Hf. apply elem_of_free, Hsub, elem_of_run. done. }
    pose proof (Hall first ltac:(lia)). pose proof (Hall (first + count - 1) ltac:(lia)).
    split_and!; [lia|lia|]. intros f Hf. by apply Hall.
Qed.

(** ** Rewriting one interval of the occupancy bitmap *)

Section occupancy.
Context (st : pmm_state) (Hwf : pmm_wf st) (first count : Z).
Context (Hf : 0 <= first) (Hc : 0 < count) (Hs : first + count <= pmm_span st).

Definition set_occ (v : bool) : pmm_state :=
  with_mem st (bitmap_set_range (pmm_mem st) (pmm_occupied st) first (first + count) v).

Lemma set_occ_occ v f : 0 <= f < pmm_span st ->
  occ (set_occ v) f = if decide (first <= f < first + count) then v else occ st f.
Proof. intros. apply occ_set_range; [apply (wf_layout _ Hwf)|lia..]. Qed.

Lemma set_occ_elig v f : 0 <= f < pmm_span st -> elig (set_occ v) f = elig st f.
Proof. intros. apply elig_set_range_occ; [apply (wf_layout _ Hwf)|lia..]. Qed.

Lemma set_occ_layout v : pmm_layout (set_occ v).
Proof. apply layout_with_mem; [apply (wf_layout _ Hwf)|]. apply length_bitmap_set_range. Qed.

(** The number of free frames after an interval that was uniformly [w] has
    become uniformly [negb w]. *)
Lemma set_occ_count v : (forall f, first <= f < first + count -> occ st f = negb v) ->
  count_if (fun f => negb (occ (set_occ v) f)) (seqZ 0 (pmm_span st)) =
  pmm_free_frames st + (if v then - count else count).
Proof.
  intros Hold. rewrite (wf_free _ Hwf).
  pose proof (count_seqZ_update (fun f => negb (occ st f)) (fun f => negb (occ (set_occ v) f))
    0 first (first + count) (pmm_span st) ltac:(lia) ltac:(lia) ltac:(lia)) as Hupd.
  rewrite Z.sub_0_r in Hupd. replace (first + count - first) with count in Hupd by lia.
  assert (forall f, first <= f < first + count -> occ (set_occ v) f = v) as Hnew.
  { intros f ?. rewrite set_occ_occ by lia. by case_decide. }
  assert (count_if (fun f => negb (occ st f)) (seqZ first count) = if v then count else 0) as H1.
  { destruct v; [rewrite count_if_all, length_seqZ; [lia|]|apply count_if_none];
      intros f Hf'; apply elem_of_seqZ in Hf'; rewrite Hold by lia; done. }
  assert (count_if (fun f => negb (occ (set_occ v) f)) (seqZ first count) = if v then 0 else count) as H2.
  { destruct v; [apply count_if_none|rewrite count_if_all, length_seqZ; [lia|]];
      intros f Hf'; apply elem_of_seqZ in Hf'; rewrite Hnew by lia; done. }
  rewrite H1, H2 in Hupd. destruct v.
  all: specialize (Hupd ltac:(intros f ??; rewrite set_occ_occ by lia; case_decide; [lia|done])); lia.
Qed.

(** Both [alloc] and [free] end in a state of this shape. *)
Lemma set_occ_wf v free cursor :
  (forall f, first <= f < first + count -> occ st f = negb v) ->
  (forall f, first <= f < first + count -> elig st f = true) ->
  free = pmm_free_frames st + (if v then - count else count) ->
  0 <= cursor < pmm_span st ->
  pmm_wf (with_cursor (with_free (set_occ v) free) cursor).
Proof.
  intros Hold Hel -> Hcur. pose proof (set_occ_layout v) as HL. split; [constructor; simpl|].
  - apply (wf_initialized _ Hwf).
  - destruct HL. by constructor.
  - intros f Hf' Ho. change (occ _ f) with (occ (set_occ v) f) in Ho.
    change (elig _ f) with (elig (set_occ v) f). change (pmm_span _) with (pmm_span st) in Hf'.
    rewrite set_occ_occ in Ho by lia. rewrite set_occ_elig by lia.
    case_decide; [by apply Hel|]. by apply (wf_bits _ Hwf).
  - by rewrite <- set_occ_count.
  - change (pmm_span _) with (pmm_span st).
    rewrite (count_if_ext _ (elig st)); [apply (wf_total _ Hwf)|].
    intros f Hf'%elem_of_seqZ. apply (set_occ_elig v). lia.
  - done.
  - change (elig _ 0) with (elig (set_occ v) 0). rewrite set_occ_elig by lia. apply Hwf.
Qed.

Lemma set_occ_abs v free cursor : (forall f, first <= f < first + count -> elig st f = true) ->
  pmm_abs (with_cursor (with_free (set_occ v) free) cursor) =
  if v then MkFrames (fr_free (pmm_abs st) ∖ run first count) (fr_allocated (pmm_abs st) ∪ run first count)
  else MkFrames (fr_free (pmm_abs st) ∪ run first count) (fr_allocated (pmm_abs st) ∖ run first count).
Proof.
  intros Hel.
  assert (forall f, f ∈ fr_free (pmm_abs (set_occ v)) <->
    0 <= f < pmm_span st /\ (if decide (first <= f < first + count) then v else occ st f) = false) as H1.
  { intros f. rewrite elem_of_free. change (pmm_span (set_occ v)) with (pmm_span st).
    split; intros [Hr Ho]; (split; [exact Hr|]); pose proof (set_occ_occ v f Hr); congruence. }
  assert (forall f, f ∈ fr_allocated (pmm_abs (set_occ v)) <->
    0 <= f < pmm_span st /\ elig st f = true /\
    (if decide (first <= f < first + count) then v else occ st f) = true) as H2.
  { intros f. rewrite elem_of_allocated. change (pmm_span (set_occ v)) with (pmm_span st).
    split; intros (Hr & He & Ho); (split; [exact Hr|]);
      pose proof (set_occ_occ v f Hr); pose proof (set_occ_elig v f Hr); split; congruence. }
  change (pmm_abs (with_cursor (with_free (set_occ v) free) cursor)) with (pmm_abs (set_occ v)).
  destruct (pmm_abs (set_occ v)) as [F A] eqn:Eabs. simpl in H1, H2.
  destruct v; f_equal; apply set_eq; intros f.
  all: rewrite ?H1, ?H2, ?elem_of_difference, ?elem_of_union, ?elem_of_run,
    ?elem_of_free, ?elem_of_allocated.
  all: case_decide as Hd; [specialize (Hel f Hd)|].
  all: try (destruct (occ st f); naive_solver lia).
Qed.
End occupancy.

Lemma free_run_elig st first count : pmm_wf st -> free_run st first count ->
  forall f, first <= f < first + count -> elig st f = true.
Proof. intros Hwf (?&?&Hall) f Hf. apply (wf_bits _ Hwf); [lia|]. by apply Hall. Qed.

(** The run [alloc] settles on: next fit from the cursor, then from zero. *)
Lemma alloc_search st count : pmm_wf st -> 0 < count ->
  match (match find_run st (pmm_cursor st) count with
         | Some first => Some first
         | None => if pmm_cursor st =? 0 then None else find_run st 0 count
         end) with
  | Some first => free_run st first count
  | None => forall g, ~ free_run st g count
  end.
Proof.
  intros Hwf Hc. pose proof (wf_cursor _ Hwf). pose proof (wf_span_u64 _ Hwf) as Hu.
  pose proof (find_run_spec st (pmm_cursor st) count Hu Hc ltac:(lia)) as H1.
  destruct (find_run st (pmm_cursor st) count) as [first|]; [by destruct H1 as (?&?&?)|].
  destruct (Z.eqb_spec (pmm_cursor st) 0) as [E|E].
  - intros g Hg. apply (H1 g); [|done]. destruct Hg. lia.
  - pose proof (find_run_spec st 0 count Hu Hc ltac:(lia)) as H2.
    destruct (find_run st 0 count) as [first|]; [by destruct H2 as (?&?&?)|].
    intros g Hg. apply (H2 g); [|done]. by destruct Hg.
Qed.

(** A request for more frames than are free cannot be met by a run. *)
Lemma free_run_count st first count : pmm_wf st -> 0 < count -> free_run st first count ->
  count <= pmm_free_frames st.
Proof.
  intros Hwf Hc (H0 & Hs & Hall). rewrite (wf_free _ Hwf).
  pose proof (count_seqZ_split (fun f => negb (occ st f)) 0 first (pmm_span st)) as H1.
  pose proof (count_seqZ_split (fun f => negb (occ st f)) first (first + count) (pmm_span st)) as H2.
  rewrite Z.sub_0_r in H1. replace (first + count - first) with count in H2 by lia.
  rewrite (count_if_all _ (seqZ first count)), length_seqZ in H2.
  2: { intros f Hf%elem_of_seqZ. by rewrite Hall. }
  pose proof (count_if_bounds (fun f => negb (occ st f)) (seqZ 0 (first - 0))).
  pose proof (count_if_bounds (fun f => negb (occ st f)) (seqZ (first + count) (pmm_span st - (first + count)))).
  lia.
Qed.

Lemma free_frames_bounds st : pmm_pre st -> 0 <= pmm_free_frames st <= pmm_span st.
Proof.
  intros Hwf. rewrite (wf_free _ Hwf). pose proof (span_pos _ (wf_layout _ Hwf)).
  pose proof (count_if_bounds (fun f => negb (occ st f)) (seqZ 0 (pmm_span st))).
  rewrite length_seqZ in *. lia.
Qed.

(** An allocation takes [count] contiguous free frames above the first page
    and moves exactly these to the allocated set; it keeps the invariant.  It
    fails, changing nothing, exactly when [count] is zero or no such run is
    left. *)
Lemma alloc_pages_spec (st : pmm_state) (count : Z) (Hwf : pmm_wf st) (Hc : u64_ok count) :
  let '(st', r) := pmm_core_alloc_pages st count in
  pmm_wf st' /\
  match r with
  | Some phys => exists first, phys = first * 4096 /\ 0 < first /\ 0 < count /\
      run first count ⊆ fr_free (pmm_abs st) /\
      pmm_abs st' = MkFrames (fr_free (pmm_abs st) ∖ run first count)
                             (fr_allocated (pmm_abs st) ∪ run first count) /\
      pmm_free_frames st' = pmm_free_frames st - count
  | None => st' = st /\ (count = 0 \/ forall first, ~ (run first count ⊆ fr_free (pmm_abs st)))
  end.
Proof.
  unfold pmm_core_alloc_pages. rewrite (wf_initialized _ Hwf). simpl.
  destruct (Z.eqb_spec count 0) as [->|Hne]; simpl; [auto|].
  assert (0 < count) as Hpos by (unfold u64_ok in Hc; lia).
  pose proof (wf_span_u64 _ Hwf) as Hu. unfold u64_ok in Hu. pose proof (free_frames_bounds _ Hwf).
  destruct (Z.ltb_spec (pmm_free_frames st) count).
  { split_and!; [done|done|]. right. intros first Hsub%free_run_abs; [|done].
    pose proof (free_run_count _ _ _ Hwf Hpos Hsub). lia. }
  pose proof (alloc_search st count Hwf Hpos) as Hsearch.
  destruct (match find_run _ _ _ with Some _ => _ | None => _ end) as [first|]; cycle 1.
  { split_and!; [done|done|]. right. intros first Hsub%free_run_abs; [|done]. by apply (Hsearch first). }
  pose proof (free_run_elig _ _ _ Hwf Hsearch) as Hel.
  pose proof (free_run_count _ _ _ Hwf Hpos Hsearch).
  destruct Hsearch as (Hf0 & Hfs & Hall). destruct (wf_layout _ Hwf) as [_ _ _ _ La].
  rewrite (u64_small (first + count)), (u64_small (pmm_free_frames st - count)),
    (u64_small (first * MEMORY_PAGE_SIZE)) by (unfold u64_ok, MEMORY_PAGE_SIZE; lia).
  split.
  - apply (set_occ_wf st Hwf first count Hf0 Hpos Hfs true); [done|done|lia|].
    change (pmm_span (with_free _ _)) with (pmm_span st).
    destruct (Z.eqb_spec (first + count) (pmm_span st)); lia.
  - exists first. split_and!; [done| |done| | |done].
    + destruct (decide (first = 0)) as [->|]; [|lia].
      pose proof (Hel 0 ltac:(lia)). pose proof (wf_zero _ Hwf). congruence.
    + by apply free_run_abs.
    + by apply (set_occ_abs st Hwf first count Hf0 Hpos Hfs true).
Qed.

Lemma range_frames_spec st phys count : pmm_wf st -> u64_ok phys -> u64_ok count ->
  range_frames st phys count =
  (if decide (0 < count /\ phys mod 4096 = 0 /\ phys / 4096 + count <= pmm_span st)
   then Some (phys / 4096, phys / 4096 + count) else None).
Proof.
  intros Hwf Hp Hc. unfold range_frames. rewrite (wf_initialized _ Hwf), page_aligned_mod. simpl.
  pose proof (wf_span_u64 _ Hwf). unfold u64_ok, MEMORY_PAGE_SIZE in *.
  assert (0 <= phys / 4096) by dlia.
  destruct (Z.eqb_spec count 0); simpl; [case_decide; [lia|done]|].
  destruct (Z.eqb_spec (phys mod 4096) 0); simpl; [|case_decide; [lia|done]].
  destruct (Z.leb_spec (pmm_span st) (phys / 4096)); simpl; [case_decide; [lia|done]|].
  rewrite u64_small by (unfold u64_ok; lia).
  destruct (Z.ltb_spec (pmm_span st - phys / 4096) count); simpl; case_decide; try done; try lia.
  by rewrite u64_small by (unfold u64_ok; lia).
Qed.

(** Freeing gives back whole runs of allocated frames, all or nothing: a
    range that is misaligned, out of range or holds a frame that is free,
    reserved or pinned is rejected and nothing changes (so a second free of
    the same range is rejected). *)
Lemma free_pages_spec (st : pmm_state) (phys count : Z)
    (Hwf : pmm_wf st) (Hp : u64_ok phys) (Hc : u64_ok count) :
  let '(st', r) := pmm_core_free_pages st phys count in
  pmm_wf st' /\
  if r then
    0 < count /\ phys mod 4096 = 0 /\ run (phys / 4096) count ⊆ fr_allocated (pmm_abs st) /\
    pmm_abs st' = MkFrames (fr_free (pmm_abs st) ∪ run (phys / 4096) count)
                           (fr_allocated (pmm_abs st) ∖ run (phys / 4096) count) /\
    pmm_free_frames st' = pmm_free_frames st + count
  else st' = st /\ (count = 0 \/ phys mod 4096 <> 0 \/
                    ~ (run (phys / 4096) count ⊆ fr_allocated (pmm_abs st))).
Proof.
  unfold pmm_core_free_pages. rewrite range_frames_spec by done.
  destruct (decide _) as [(Hpos & Hal & Hs)|Hno]; cycle 1.
  { split_and!; [done|done|]. unfold u64_ok in *.
    destruct (decide (count = 0)); [by left|]. destruct (decide (phys mod 4096 = 0)); [|tauto].
    right. right. intros Hsub.
    pose proof (Hsub (phys / 4096 + count - 1) ltac:(apply elem_of_run; lia)) as Hin.
    apply elem_of_allocated in Hin. lia. }
  set (first := phys / 4096) in *.
  assert (0 <= first) as Hf0 by (unfold first, u64_ok in *; dlia).
  replace (first + count - first) with count by lia.
  destruct (existsb _ _) eqn:Ebad.
  { apply existsb_seqZ in Ebad as (f & Hf & Hbad).
    split_and!; [done|done|]. right. right. intros Hsub.
    pose proof (Hsub f ltac:(by apply elem_of_run)) as Hin.
    apply elem_of_allocated in Hin as (_&He&Ho). unfold elig, occ in *. by rewrite He, Ho in Hbad. }
  assert (forall f, first <= f < first + count -> elig st f = true /\ occ st f = true) as Hall.
  { intros f Hf. rewrite existsb_seqZ_false in Ebad. specialize (Ebad f Hf).
    by apply orb_false_iff in Ebad as [?%negb_false_iff ?%negb_false_iff]. }
  assert (pmm_free_frames st + count <= pmm_span st) as Hbound.
  { rewrite <- (set_occ_count st Hwf first count Hf0 Hpos Hs false) by (intros f Hf; by apply Hall).
    pose proof (count_if_bounds (fun f => negb (occ (set_occ st first count false) f)) (seqZ 0 (pmm_span st))).
    rewrite length_seqZ in *. pose proof (span_pos _ (wf_layout _ Hwf)). lia. }
  pose proof (free_frames_bounds _ Hwf). pose proof (wf_span_u64 _ Hwf). unfold u64_ok in *.
  change (pmm_free_frames (with_mem st _)) with (pmm_free_frames st).
  rewrite u64_small by (unfold u64_ok; lia).
  split; [|split_and!; [done|done| | |done]].
  - apply (set_occ_wf st Hwf first count Hf0 Hpos Hs false (pmm_free_frames st + count) (pmm_cursor st));
      [intros f Hf; by apply Hall|intros f Hf; by apply Hall|lia|apply (wf_cursor _ Hwf)].
  - intros f Hf%elem_of_run. apply elem_of_allocated. destruct (Hall f Hf). split; [lia|done].
  - apply (set_occ_abs st Hwf first count Hf0 Hpos Hs false (pmm_free_frames st + count) (pmm_cursor st)). intros f Hf. by apply Hall.
Qed.

(** ** Permanent reservations *)

(** Pinning takes one allocated frame out of circulation for good: it stays
    occupied, leaves the allocated set, and is accepted for exactly the page
    addresses of allocated frames. *)
Lemma pin_page_spec (st : pmm_state) (phys : Z) (Hwf : pmm_wf st) (Hp : u64_ok phys) :
  let '(st', r) := pmm_core_pin_page st phys in
  pmm_wf st' /\ pmm_free_frames st' = pmm_free_frames st /\
  fr_free (pmm_abs st') = fr_free (pmm_abs st) /\
  if r then
    phys mod 4096 = 0 /\ phys / 4096 ∈ fr_allocated (pmm_abs st) /\
    fr_allocated (pmm_abs st') = fr_allocated (pmm_abs st) ∖ {[phys / 4096]}
  else st' = st /\ (phys mod 4096 = 0 -> phys / 4096 ∉ fr_allocated (pmm_abs st)).
Proof.
  unfold pmm_core_pin_page. rewrite range_frames_spec by (done || by split).
  destruct (decide _) as [(_ & Hal & Hs)|Hno]; cycle 1.
  { split_and!; try done. intros Hal Hin%elem_of_allocated. lia. }
  set (f := phys / 4096) in *. assert (0 <= f < pmm_span st) as Hf by (unfold f, u64_ok in *; dlia).
  fold (elig st f) (occ st f).
  destruct (elig st f) eqn:He; cbn [negb orb]; cycle 1.
  { split_and!; try done. intros _ (_&?&?)%elem_of_allocated. congruence. }
  destruct (occ st f) eqn:Ho; cbn [negb orb]; cycle 1.
  { split_and!; try done. intros _ (_&?&?)%elem_of_allocated. congruence. }
  set (st' := with_mem st _). pose proof (wf_layout _ Hwf) as HL.
  assert (forall g, 0 <= g < pmm_span st -> elig st' g = if decide (f = g) then false else elig st g)
    as Helig by (intros; by apply elig_set_elig).
  assert (forall g, 0 <= g < pmm_span st -> occ st' g = occ st g) as Hocc
    by (intros; by apply occ_set_elig).
  assert (count_if (elig st') (seqZ 0 (pmm_span st)) <= count_if (elig st) (seqZ 0 (pmm_span st))) as Hcnt.
  { apply count_if_mono. intros g Hg%elem_of_seqZ. rewrite Helig by lia. by case_decide. }
  pose proof (wf_total _ Hwf). split_and!; try done.
  - constructor; [constructor|]; simpl; try apply Hwf.
    + apply layout_with_mem; [done|]. apply length_bitmap_set.
    + intros g Hg Hog. change (pmm_span _) with (pmm_span st) in Hg. rewrite Hocc in Hog by done.
      rewrite Helig by done. case_decide; [congruence|]. by apply (wf_bits _ Hwf).
    + rewrite (wf_free _ Hwf). apply count_if_ext. intros g Hg%elem_of_seqZ. by rewrite Hocc.
    + change (pmm_span _) with (pmm_span st). lia.
    + rewrite Helig by (pose proof (span_pos _ HL); lia). case_decide; [done|]. apply Hwf.
  - apply set_eq. intros g. rewrite !elem_of_free. change (pmm_span st') with (pmm_span st).
    split; intros [Hg ?]; (split; [done|]); pose proof (Hocc g Hg); congruence.
  - by apply elem_of_allocated.
  - apply set_eq. intros g.
    rewrite elem_of_difference, elem_of_singleton, !elem_of_allocated.
    change (pmm_span st') with (pmm_span st).
    split; intros Hg; assert (0 <= g < pmm_span st) as Hr by tauto;
      pose proof (Helig g Hr) as E1; pose proof (Hocc g Hr) as E2; case_decide; intuition congruence.
Qed.
