(* ===== verification/PmmInit.v ===== *)
(** * The physical page allocator: reservations and initialisation

    [pmm_core_reserve_range], whose loop writes both bitmaps, and
    [pmm_core_init], which builds them from the boot memory map. *)

From S2P Require Import Prelude MemoryHelpers MemoryMap PmmCore PmmProps.
Open Scope Z_scope.

(** The fields no reservation touches. *)
Definition same_shape (s st : pmm_state) : Prop :=
  pmm_eligible s = pmm_eligible st /\ pmm_occupied s = pmm_occupied st /\
  pmm_plan_of s = pmm_plan_of st /\ pmm_total_frames s = pmm_total_frames st /\
  pmm_cursor s = pmm_cursor st /\ pmm_initialized s = pmm_initialized st /\
  length (pmm_mem s) = length (pmm_mem st).

Lemma same_shape_layout s st : same_shape s st -> pmm_layout st -> pmm_layout s.
Proof.
  intros (H1&H2&H3&H4&H5&H6&H7) []. constructor; unfold pmm_span in *; rewrite ?H1, ?H2, ?H3, ?H7; done.
Qed.

Lemma same_shape_span s st : same_shape s st -> pmm_span s = pmm_span st.
Proof. intros (_&_&H&_). unfold pmm_span. by rewrite H. Qed.

(** The sub-interval count is at most the count of the whole. *)
Lemma count_sub p lo hi n : 0 <= lo <= hi -> hi <= n ->
  count_if p (seqZ lo (hi - lo)) <= count_if p (seqZ 0 n).
Proof.
  intros. pose proof (count_seqZ_split p 0 lo n ltac:(lia)) as H1.
  pose proof (count_seqZ_split p lo hi n ltac:(lia)) as H2. rewrite Z.sub_0_r in H1.
  pose proof (count_if_bounds p (seqZ 0 (lo - 0))). pose proof (count_if_bounds p (seqZ hi (n - hi))).
  lia.
Qed.

Section reserve.
Context (st : pmm_state) (Hpre : pmm_pre st) (lo hi : Z).
Context (Hlo : 0 <= lo <= hi) (Hhi : hi <= pmm_span st).
Context (Hclear : forall f, lo <= f < hi -> elig st f = true -> occ st f = false).

(** The state when the loop has reached frame [k]. *)
Definition reserved_upto (k : Z) (s : pmm_state) : Prop :=
  same_shape s st /\
  (forall f, 0 <= f < pmm_span st -> elig s f = if decide (lo <= f < k) then false else elig st f) /\
  (forall f, 0 <= f < pmm_span st -> occ s f = if decide (lo <= f < k) then true else occ st f) /\
  pmm_free_frames s = pmm_free_frames st - count_if (elig st) (seqZ lo (k - lo)).

Lemma eligible_in_range_free k : lo <= k <= hi ->
  0 <= count_if (elig st) (seqZ lo (k - lo)) <= pmm_free_frames st.
Proof.
  intros Hk. split; [apply count_if_bounds|]. rewrite (wf_free _ Hpre).
  transitivity (count_if (fun f => negb (occ st f)) (seqZ lo (k - lo))).
  - apply count_if_mono. intros f Hf%elem_of_seqZ He. by rewrite Hclear by (done || lia).
  - apply count_sub; lia.
Qed.

Lemma reserve_frame_step k s : lo <= k < hi -> reserved_upto k s ->
  reserved_upto (k + 1) (reserve_frame s k).
Proof.
  intros Hk (Hsh & He & Ho & Hfree). pose proof (same_shape_layout _ _ Hsh (wf_layout _ Hpre)) as HL.
  pose proof (same_shape_span _ _ Hsh) as Hsp.
  assert (count_if (elig st) (seqZ lo (k + 1 - lo)) =
    count_if (elig st) (seqZ lo (k - lo)) + (if elig st k then 1 else 0)) as Hcnt.
  { rewrite (count_seqZ_split _ lo k (k + 1)) by lia.
    replace (k + 1 - k) with 1 by lia. rewrite (seqZ_cons k), (seqZ_nil (Z.succ k)) by lia.
    cbn [count_if]. lia. }
  pose proof (eligible_in_range_free (k + 1) ltac:(lia)) as Hb.
  pose proof (wf_span_u64 st Hpre) as Hu. unfold u64_ok in Hu.
  pose proof (free_frames_bounds st Hpre) as Hfb.
  unfold reserve_frame. fold (elig s k). rewrite (He k) by lia.
  destruct (decide (lo <= k < k)); [lia|].
  destruct (elig st k) eqn:Ek.
  - cbv zeta. set (s1 := with_mem s _). set (s2 := with_mem s1 _).
    assert (pmm_layout s1) as HL1 by (apply layout_with_mem; [done|apply length_bitmap_set]).
    unfold reserved_upto. split_and!.
    + destruct Hsh as (?&?&?&?&?&?&?). unfold same_shape. simpl. rewrite !length_bitmap_set. done.
    + intros f Hf. change (elig (with_free s2 (pmm_free_frames s2 -u 1)) f) with (elig s2 f).
      unfold s2. rewrite elig_set_occ by (done || (change (pmm_span s1) with (pmm_span s); lia)).
      unfold s1. rewrite elig_set_elig, He by (done || lia). repeat case_decide; try done; lia.
    + intros f Hf. change (occ (with_free s2 (pmm_free_frames s2 -u 1)) f) with (occ s2 f).
      unfold s2. rewrite occ_set_occ by (done || (change (pmm_span s1) with (pmm_span s); lia)).
      unfold s1. rewrite occ_set_elig, Ho by (done || lia). repeat case_decide; try done; lia.
    + cbn. rewrite u64_small by (unfold u64_ok; lia). lia.
  - unfold reserved_upto. split_and!; [done| | |lia].
    + intros f Hf. rewrite He by done. destruct (decide (f = k)) as [->|].
      * repeat case_decide; try done; lia.
      * repeat case_decide; try done; lia.
    + intros f Hf. rewrite Ho by done. destruct (decide (f = k)) as [->|].
      * repeat case_decide; try done; try lia.
        destruct (occ st k) eqn:E; [done|]. pose proof (wf_bits _ Hpre k Hf E). congruence.
      * repeat case_decide; try done; lia.
Qed.

Lemma reserve_loop : reserved_upto hi (foldl reserve_frame st (seqZ lo (hi - lo))).
Proof.
  apply (foldl_seqZ_ind _ reserved_upto); [lia| |].
  - unfold reserved_upto. replace (lo - lo) with 0 by lia. rewrite seqZ_nil by lia. simpl.
    split_and!; [done| | |lia]; intros f Hf; case_decide; try done; lia.
  - intros f s Hf. apply reserve_frame_step. lia.
Qed.

Section reserved.
Context (s : pmm_state) (Hs : reserved_upto hi s).

Lemma reserved_pre : pmm_pre s.
Proof using All.
  destruct Hs as (Hsh & He & Ho & Hfree). pose proof (same_shape_span _ _ Hsh) as Hsp.
  pose proof Hsh as (_&_&_&Ht&Hc&Hi&_). pose proof (wf_total _ Hpre) as Htot.
  constructor; rewrite ?Hsp, ?Ht, ?Hc, ?Hi; try apply Hpre.
  - by eapply same_shape_layout, Hpre.
  - intros f Hf. rewrite He, Ho by done. case_decide; [done|]. by apply Hpre.
  - rewrite Hfree, (wf_free _ Hpre).
    assert (count_if (fun f => negb (occ s f)) (seqZ lo (hi - lo)) = 0) as Hz.
    { apply count_if_none. intros f Hf%elem_of_seqZ. rewrite Ho by lia. case_decide; [done|lia]. }
    assert (count_if (fun f => negb (occ st f)) (seqZ lo (hi - lo)) =
            count_if (elig st) (seqZ lo (hi - lo))) as Hel.
    { apply count_if_ext. intros f Hf%elem_of_seqZ.
      destruct (elig st f) eqn:E; [by rewrite Hclear by (done || lia)|].
      destruct (occ st f) eqn:Eo; [done|]. rewrite (wf_bits _ Hpre) in E by (done || lia). done. }
    pose proof (count_seqZ_update (fun f => negb (occ st f)) (fun f => negb (occ s f))
      0 lo hi (pmm_span st) ltac:(lia) ltac:(lia) ltac:(lia)) as Hupd. rewrite Z.sub_0_r in Hupd.
    rewrite Hz, Hel in Hupd. rewrite <- Z.sub_0_r, Hupd; [done|].
    intros f Hf Hout. rewrite Ho by lia. case_decide; [lia|done].
  - split; [|lia]. transitivity (count_if (elig st) (seqZ 0 (pmm_span st))); [|lia].
    apply count_if_mono. intros f Hf%elem_of_seqZ. rewrite He by lia. by case_decide.
Qed.

Lemma reserved_abs : pmm_abs s =
  MkFrames (fr_free (pmm_abs st) ∖ run lo (hi - lo)) (fr_allocated (pmm_abs st)).
Proof using All.
  destruct Hs as (Hsh & He & Ho & _). pose proof (same_shape_span _ _ Hsh) as Hsp.
  assert (forall A B : frames, fr_free A = fr_free B -> fr_allocated A = fr_allocated B -> A = B)
    as Hext by (intros [] []; simpl; congruence).
  apply Hext; apply set_eq; intros f; cbn [fr_free fr_allocated].
  - rewrite elem_of_difference, !elem_of_free, elem_of_run, Hsp.
    split; intros Hf; assert (0 <= f < pmm_span st) as Hr by tauto;
      pose proof (Ho f Hr) as E; case_decide; intuition (congruence || lia).
  - rewrite !elem_of_allocated, Hsp.
    split; intros Hf; assert (0 <= f < pmm_span st) as Hr by tauto;
      pose proof (Ho f Hr) as E; pose proof (He f Hr) as E'; case_decide; intuition try congruence.
    exfalso. pose proof (Hclear f ltac:(lia) ltac:(done)). congruence.
Qed.
End reserved.
End reserve.

(** The frames a byte range touches, cut at the end of the tracked span. *)
Definition touched (st : pmm_state) (phys bytes : Z) : gset Z :=
  run (phys / 4096) (Z.min ((phys + bytes + 4095) / 4096) (pmm_span st) - phys / 4096).

Lemma reserve_range_spec st phys bytes : pmm_pre st -> u64_ok phys -> u64_ok bytes ->
  let '(st', r) := pmm_core_reserve_range st phys bytes in
  pmm_pre st' /\ same_shape st' st /\
  (forall f, 0 <= f < pmm_span st ->
     elig st' f = if decide (r = true /\ f ∈ touched st phys bytes) then false else elig st f) /\
  if r then
    0 < bytes /\ touched st phys bytes ## fr_allocated (pmm_abs st) /\
  pmm_abs st' = MkFrames (fr_free (pmm_abs st) ∖ touched st phys bytes) (fr_allocated (pmm_abs st))
  else st' = st /\ (bytes = 0 \/ UINT64_MAX < phys + bytes + 4095 \/
                    ~ (touched st phys bytes ## fr_allocated (pmm_abs st))).
Proof.
  intros Hpre Hp Hb.
  assert (forall P, P -> pmm_pre st /\ same_shape st st /\
  (forall f, 0 <= f < pmm_span st -> elig st f =
       if decide (false = true /\ f ∈ touched st phys bytes) then false else elig st f) /\
  st = st /\ P) as Hfail by (intros; split_and!; try done; intros; case_decide; intuition congruence).
  unfold pmm_core_reserve_range. rewrite (wf_initialized _ Hpre). cbn [negb orb].
  unfold u64_ok in *.
  destruct (Z.eqb_spec bytes 0); cbn [negb orb]; [apply Hfail; by left|].
  rewrite (u64_small (UINT64_MAX - phys)) by (unfold u64_ok; lia).
  destruct (Z.ltb_spec (UINT64_MAX - phys) bytes); [apply Hfail; right; left; lia|].
  rewrite (u64_small (phys + bytes)) by (unfold u64_ok; lia).
  destruct (memory_align_up (phys + bytes)) as [e|] eqn:Eal; cycle 1.
  { apply Hfail. right. left. apply align_up_none in Eal. lia. }
  apply align_up_eq in Eal as [Hle ->]; [|unfold u64_ok; lia].
  set (lo := phys / MEMORY_PAGE_SIZE). set (e := (_ + _ mod _) / _).
  assert (e = (phys + bytes + 4095) / 4096) as He by (unfold e, MEMORY_PAGE_SIZE; dlia).
  set (hi := if pmm_span st <? e then pmm_span st else e).
  assert (touched st phys bytes = run lo (hi - lo)) as ->.
  { unfold touched. rewrite <- He. f_equal. unfold hi, lo, MEMORY_PAGE_SIZE.
    destruct (Z.ltb_spec (pmm_span st) e); lia. }
  assert (0 <= lo /\ hi <= pmm_span st) as [Hlo Hhi].
  { unfold lo, hi, MEMORY_PAGE_SIZE. split; [dlia|]. destruct (Z.ltb_spec (pmm_span st) e); lia. }
  cbv zeta. fold hi. destruct (existsb _ _) eqn:Ebad.
  { apply Hfail. right. right. apply existsb_seqZ in Ebad as (f & Hf & [? ?]%andb_true_iff).
    intros Hdis. apply (Hdis f); [by apply elem_of_run|].
    apply elem_of_allocated. split; [lia|done]. }
  destruct (decide (lo <= hi)) as [Hle'|Hgt]; cycle 1.
  { rewrite seqZ_nil by lia. simpl.
    assert (run lo (hi - lo) = ∅) as -> by (unfold run; by rewrite seqZ_nil by lia).
    split_and!; [done|done| |lia|set_solver|].
    - intros f Hf. by case_decide as Hc; [set_solver|].
    - by rewrite difference_empty_L. }
  rewrite existsb_seqZ_false in Ebad.
  assert (forall f, lo <= f < hi -> elig st f = true -> occ st f = false) as Hclear.
  { intros f Hf He'. specialize (Ebad f ltac:(lia)). fold (elig st f) (occ st f) in Ebad.
    rewrite He' in Ebad. done. }
  pose proof (reserve_loop st Hpre lo hi (conj Hlo Hle') Hhi Hclear) as Hloop.
  split_and!.
  - exact (reserved_pre st Hpre lo hi (conj Hlo Hle') Hhi Hclear _ Hloop).
  - apply Hloop.
  - intros f Hf. destruct Hloop as (_ & Hel & _). rewrite Hel by done.
    clear Hfail. case_decide as Ha; case_decide as Hc; try done; rewrite elem_of_run in Hc; lia.
  - lia.
  - intros f Hf%elem_of_run (_&Hfe&Hfo)%elem_of_allocated.
    rewrite Hclear in Hfo by (done || lia). done.
  - exact (reserved_abs st Hpre lo hi (conj Hlo Hle') Hhi Hclear _ Hloop).
Qed.

(** Reserving a byte range withdraws, for good, every frame the range touches
    from the free set; it is accepted exactly when no touched frame is
    allocated, and a rejected reservation changes nothing. *)
Lemma reserve_range_wf (st : pmm_state) (phys bytes : Z)
    (Hwf : pmm_wf st) (Hp : u64_ok phys) (Hb : u64_ok bytes) :
  let '(st', r) := pmm_core_reserve_range st phys bytes in
  pmm_wf st' /\
  if r then
    0 < bytes /\ touched st phys bytes ## fr_allocated (pmm_abs st) /\
    pmm_abs st' = MkFrames (fr_free (pmm_abs st) ∖ touched st phys bytes) (fr_allocated (pmm_abs st))
  else st' = st /\ (bytes = 0 \/ UINT64_MAX < phys + bytes + 4095 \/
                    ~ (touched st phys bytes ## fr_allocated (pmm_abs st))).
Proof.
  pose proof (reserve_range_spec st phys bytes Hwf Hp Hb) as H.
  destruct (pmm_core_reserve_range st phys bytes) as [st' r]. destruct H as (Hpre & _ & He & Hr).
  split; [|done]. constructor; [done|].
  rewrite He by (pose proof (span_pos _ (wf_layout _ Hwf)); lia).
  destruct (decide _); [done|apply (wf_zero _ Hwf)].
Qed.

(** ** The physical page allocator: planning and initialisation

    [pmm_plan] sizes and places the bitmaps, [pmm_core_init] fills them from
    the boot memory map.  The theorems start from the contract of the map,
    [map_wf], which every [memory_map_add] keeps. *)


(** ** The frames the firmware declares usable *)

Definition region_covers (f : Z) (r : memory_region) : bool :=
  is_usable r && (mr_base r / 4096 <=? f) && (f <? region_end r / 4096).

Definition covers (l : list memory_region) (f : Z) : bool := existsb (region_covers f) l.

Definition usable_frames (map : memory_map) (span : Z) : gset Z :=
  frame_set (covers (mm_regions map)) span.

(** ** Planning *)

(** The loop of [pmm_plan] that computes the end of the highest usable region. *)
Lemma plan_scan_spec l : Forall region_ok l -> forall prev e u e' u',
  plan_scan prev l e u = Some (e', u') -> 0 <= e <= UINT64_MAX -> e mod 4096 = 0 ->
  e <= e' <= UINT64_MAX /\ e' mod 4096 = 0 /\
  (forall r, r ∈ l -> is_usable r = true -> region_end r <= e').
Proof.
  induction 1 as [|r l Hr Hl IH]; intros prev e u e' u' Hs He Ha; simpl in Hs.
  { simplify_eq. split_and!; try done; try lia. intros r Hr%elem_of_nil. done. }
  guard_in Hs; [done|]. pose proof (region_end_nowrap _ Hr) as Hend.
  destruct Hr as (?&?&?&?&Hal). destruct (mr_type r =? UTAMO_MEMORY_USABLE) eqn:Eu; cbn [negb] in Hs.
  - guard_in Hs; [done|]. rewrite Hend in Hs.
    assert (region_end r mod 4096 = 0) as Hm.
    { destruct Hal as [? ?]; [unfold requires_exclusive_region; by rewrite Eu|].
      unfold region_end. dlia. }
    apply IH in Hs as (?&?&Hin); [|destruct (e <? region_end r); unfold region_end in *; lia|by destruct (e <? region_end r)].
    split_and!; try done; try (destruct (Z.ltb_spec e (region_end r)); lia).
    intros s [->|Hs]%elem_of_cons Hu; [|by apply Hin].
    destruct (Z.ltb_spec e (region_end r)); lia.
  - apply IH in Hs as (?&?&Hin); [|done..]. split_and!; try done; try lia.
    intros s [->|Hs]%elem_of_cons Hu; [|by apply Hin]. unfold is_usable in Hu. congruence.
Qed.

Lemma plan_place_spec l sb bb fr plan : Forall region_ok l -> 0 < sb ->
  plan_place l sb bb fr = Some plan ->
  plan = MkPlan (pl_storage_phys plan) sb bb fr /\ 0 < pl_storage_phys plan /\
  pl_storage_phys plan mod 4096 = 0 /\
  exists r, r ∈ l /\ is_usable r = true /\
    mr_base r <= pl_storage_phys plan /\ pl_storage_phys plan + sb <= region_end r.
Proof.
  intros Hl Hsb. induction Hl as [|r l Hr Hl IH]; simpl; [done|].
  pose proof (region_end_nowrap _ Hr) as Hend.
  destruct (mr_type r =? UTAMO_MEMORY_USABLE) eqn:Eu; cbn [negb]; cycle 1.
  { intros Hp%IH. destruct Hp as (?&?&?&s&?&?). split_and!; try done. exists s. split; [by right|done]. }
  rewrite Hend. set (start := if mr_base r =? 0 then MEMORY_PAGE_SIZE else mr_base r).
  destruct Hr as (?&?&?&?&Hal). destruct Hal as [Ha1 Ha2];
    [unfold requires_exclusive_region; by rewrite Eu|].
  assert (0 < start /\ start mod 4096 = 0 /\ mr_base r <= start) as (?&?&?).
  { unfold start, MEMORY_PAGE_SIZE. destruct (Z.eqb_spec (mr_base r) 0); split_and!; done || lia. }
  destruct ((start <=? region_end r) && _) eqn:G.
  - intros [= <-]. simpl. apply andb_true_iff in G as [G1%Z.leb_le G2%Z.leb_le].
    rewrite u64_small in G2 by (unfold u64_ok; lia).
    split_and!; try done. exists r. split_and!; try done; [by left|lia].
  - intros Hp%IH. destruct Hp as (?&?&?&s&?&?). split_and!; try done. exists s. split; [by right|done].
Qed.

(** What a successful plan has established. *)
Record plan_ok (map : memory_map) (plan : pmm_plan_t) : Prop := {
  plan_span : 0 < pl_span_frames plan;
  plan_span_max : pl_span_frames plan * 4096 <= UINT64_MAX;
  plan_covered : forall r, r ∈ mm_regions map -> is_usable r = true ->
    region_end r <= pl_span_frames plan * 4096;
  plan_bitmap : pl_bitmap_bytes plan = (pl_span_frames plan + 7) / 8;
  plan_storage : 2 * pl_bitmap_bytes plan <= pl_storage_bytes plan < 2 * pl_bitmap_bytes plan + 4096;
  plan_storage_aligned : pl_storage_bytes plan mod 4096 = 0 /\ pl_storage_phys plan mod 4096 = 0;
  plan_storage_low : 0 < pl_storage_phys plan;
  plan_storage_usable : exists r, r ∈ mm_regions map /\ is_usable r = true /\
    mr_base r <= pl_storage_phys plan /\
    pl_storage_phys plan + pl_storage_bytes plan <= region_end r
}.

Lemma pmm_plan_ok map plan : map_wf map -> pmm_plan map = Some plan -> plan_ok map plan.
Proof.
  intros Hwf. unfold pmm_plan. destruct (_ || _); [done|].
  destruct (plan_scan None _ 0 0) as [[e u]|] eqn:Escan; [|done].
  destruct (plan_scan_spec _ (map_wf_regions _ Hwf) _ _ _ _ _ Escan) as (He & Hm & Hcov);
    [done|done|].
  destruct ((e =? 0) || _) eqn:G; [done|]. apply orb_false_iff in G as [G%Z.eqb_neq _].
  unfold MEMORY_PAGE_SIZE. set (frames := e / 4096).
  assert (0 < frames /\ frames * 4096 = e) as [Hf Hfe] by (unfold frames; dlia).
  assert (frames / 8 +u (if negb (frames mod 8 =? 0) then 1 else 0) = (frames + 7) / 8) as ->.
  { unfold UINT64_MAX in *. rewrite u64_small.
    - destruct (Z.eqb_spec (frames mod 8) 0); cbn [negb]; dlia.
    - unfold u64_ok, UINT64_MAX. destruct (negb _); dlia. }
  destruct (_ <? _); [done|].
  rewrite (u64_small ((frames + 7) / 8 * 2)) by (unfold u64_ok, UINT64_MAX in *; dlia).
  destruct (memory_align_up _) as [sb|] eqn:Eal; [|done].
  apply align_up_eq in Eal as [? ->]; [|unfold u64_ok, UINT64_MAX in *; dlia].
  destruct (_ <? _); [done|]. intros Hp.
  apply plan_place_spec in Hp as (Heq & Hlow & Hal & r & ?); [|apply Hwf|dlia].
  destruct plan. simpl in *. simplify_eq.
  constructor; simpl; try done; try lia; try dlia.
  - intros s Hs Hu. rewrite Hfe. by apply Hcov.
  - by exists r.
Qed.

(** ** Filling the bitmaps *)

Definition on_frames (lo hi : Z) (f : Z) : bool := (lo <=? f) && (f <? hi).

Section fill.
Context (bytes : Z).

(** Both bitmaps after one region, and after all of them. *)
Definition bits_updated (p : Z -> bool) (m m' : list Z) : Prop :=
  length m' = length m /\
  forall f, 0 <= f < 8 * bytes ->
    bitmap_test m' 0 f = p f || bitmap_test m 0 f /\
    bitmap_test m' bytes f = negb (p f) && bitmap_test m bytes f.

Lemma bits_updated_trans p q m1 m2 m3 : bits_updated p m1 m2 -> bits_updated q m2 m3 ->
  bits_updated (fun f => p f || q f) m1 m3.
Proof.
  intros [L1 H1] [L2 H2]. split; [congruence|]. intros f Hf.
  destruct (H1 f Hf) as [E1 E2], (H2 f Hf) as [-> ->]. rewrite E1, E2.
  destruct (p f), (q f); done.
Qed.

Lemma fill_interval m lo hi : 0 <= lo <= hi -> hi <= 8 * bytes ->
  2 * bytes <= Z.of_nat (length m) ->
  bits_updated (on_frames lo hi) m
    (foldl (fun mem frame => bitmap_set (bitmap_set mem 0 frame true) bytes frame false)
       m (seqZ lo (hi - lo))).
Proof.
  intros Hlo Hhi Hlen.
  apply (foldl_seqZ_ind _ (fun k m' => bits_updated (on_frames lo k) m m')); [lia| |].
  - split; [done|]. intros f Hf. unfold on_frames.
    assert ((lo <=? f) && (f <? lo) = false) as -> by lia. by rewrite andb_true_l.
  - intros k m' Hk [Hl Hm]. split; [by rewrite !length_bitmap_set|]. intros f Hf.
    destruct (Hm f Hf) as [He Ho]. unfold on_frames in *.
    rewrite bitmap_test_set_other by (rewrite ?length_bitmap_set; dlia).
    rewrite !bitmap_test_set_same by (rewrite ?length_bitmap_set; dlia).
    rewrite bitmap_test_set_other by (rewrite ?length_bitmap_set; dlia).
    rewrite He, Ho. destruct (decide (k = f)) as [->|Hne].
    + assert ((lo <=? f) && (f <? f + 1) = true) as -> by lia. done.
    + assert ((f <? k + 1) = (f <? k)) as -> by lia. done.
Qed.

Lemma fill_regions l : Forall region_ok l ->
  (forall r, r ∈ l -> is_usable r = true -> region_end r <= 8 * bytes * 4096) ->
  forall m, 2 * bytes <= Z.of_nat (length m) ->
  bits_updated (covers l) m (foldl (init_region 0 bytes) m l).
Proof.
  induction 1 as [|r l Hr Hl IH]; intros Hend m Hm; simpl.
  { split; [done|]. intros f Hf. done. }
  assert (bits_updated (fun f => region_covers f r) m (init_region 0 bytes m r)) as H1.
  { unfold init_region, region_covers. rewrite (region_end_nowrap _ Hr).
    fold (is_usable r). destruct (is_usable r) eqn:Eu; cbn [negb andb].
    - destruct Hr as (?&?&?&_). unfold MEMORY_PAGE_SIZE.
      specialize (Hend r ltac:(by left) Eu). unfold region_end in *.
      apply fill_interval; [|dlia|done]. split; [dlia|]. apply Z.div_le_mono; lia.
    - split; [done|]. done. }
  apply (bits_updated_trans _ _ _ _ _ H1). apply IH.
  - intros s Hs. apply Hend. by right.
  - destruct H1 as [-> _]. done.
Qed.
End fill.

(** The storage after the two [memset]s: nothing eligible, all occupied. *)
Lemma init_storage_spec storage sb bb : 0 < bb -> 2 * bb <= sb <= Z.of_nat (length storage) ->
  length (init_storage storage sb bb) = length storage /\
  forall f, 0 <= f < 8 * bb ->
    bitmap_test (init_storage storage sb bb) 0 f = false /\
    bitmap_test (init_storage storage sb bb) bb f = true.
Proof.
  intros Hbb Hsb. unfold init_storage.
  rewrite take_app_le, take_replicate, drop_app_le, drop_replicate
    by (rewrite length_replicate; lia).
  split; [rewrite !length_app, !length_replicate, length_drop; lia|].
  intros f Hf. assert (0 <= f / 8 < bb /\ 0 <= f mod 8 < 8) as [Hi Hj] by dlia.
  rewrite !bitmap_test_testbit by lia. unfold arr_get. split.
  - rewrite lookup_total_app_l by (rewrite length_replicate; lia).
    rewrite lookup_total_replicate_2 by lia. apply Z.testbit_0_l.
  - rewrite lookup_total_app_r, lookup_total_app_l by (rewrite ?length_replicate; lia).
    rewrite lookup_total_replicate_2 by (rewrite length_replicate; lia).
    change 255 with (Z.ones 8). apply Z.ones_spec_low. lia.
Qed.

(** ** Counting the usable frames *)

Lemma count_on_frames lo hi n : 0 <= lo <= hi -> hi <= n ->
  count_if (on_frames lo hi) (seqZ 0 n) = hi - lo.
Proof.
  intros. rewrite <- (Z.sub_0_r n) at 1.
  rewrite (count_seqZ_split _ 0 lo n), (count_seqZ_split _ lo hi n) by lia.
  rewrite (count_if_none _ (seqZ 0 _)), (count_if_all _ (seqZ lo _)), (count_if_none _ (seqZ hi _)).
  - rewrite length_seqZ. lia.
  - intros f Hf%elem_of_seqZ. unfold on_frames. lia.
  - intros f Hf%elem_of_seqZ. unfold on_frames. lia.
  - intros f Hf%elem_of_seqZ. unfold on_frames. lia.
Qed.

Lemma count_if_disjoint {A} (p q : A -> bool) l :
  (forall x, x ∈ l -> p x = true -> q x = false) ->
  count_if (fun x => p x || q x) l = count_if p l + count_if q l.
Proof.
  induction l as [|x l IH]; intros H; simpl; [done|].
  rewrite IH by (intros; apply H; [by right|done]).
  specialize (H x ltac:(by left)). destruct (p x); simpl; [rewrite H by done; simpl|]; lia.
Qed.

(** Distinct usable regions cover distinct frames, so that the number of
    covered frames is the number of usable pages. *)
Lemma count_covers n l : Forall region_ok l ->
  (forall r, r ∈ l -> is_usable r = true -> region_end r <= n * 4096) ->
  (forall i j r s, i <> j -> l !! i = Some r -> l !! j = Some s -> regions_disjoint r s) ->
  count_if (covers l) (seqZ 0 n) * 4096 = sum_length is_usable l.
Proof.
  induction 1 as [|r l Hr Hl IH]; intros Hend Hdis; simpl.
  { by rewrite count_if_none. }
  rewrite (count_if_disjoint (fun f => region_covers f r) (covers l)).
  - rewrite Z.mul_add_distr_r, IH; cycle 1.
    { intros s Hs. apply Hend. by right. }
    { intros i j r' s Hij Hi Hj. apply (Hdis (S i) (S j)); [lia|done..]. }
    f_equal. unfold region_covers. destruct (is_usable r) eqn:Eu; cbn [andb]; cycle 1.
    { by rewrite count_if_none. }
    specialize (Hend r ltac:(by left) Eu).
    destruct Hr as (?&?&?&?&Hal). destruct Hal as [Ha1 Ha2].
    { unfold requires_exclusive_region. unfold is_usable in Eu. by rewrite Eu. }
    unfold region_end in *. pose proof (count_on_frames (mr_base r / 4096)
      ((mr_base r + mr_length r) / 4096) n ltac:(dlia) ltac:(dlia)) as Hc.
    unfold on_frames in Hc. rewrite Hc. dlia.
  - intros f _ Hf. apply not_true_iff_false. intros Hc.
    apply existsb_exists in Hc as (s & Hs%list_elem_of_In & Hfs).
    apply list_elem_of_lookup in Hs as [j Hj].
    specialize (Hdis 0%nat (S j) r s ltac:(lia) eq_refl Hj).
    unfold region_covers in *. rewrite !andb_true_iff, !Z.leb_le, !Z.ltb_lt in *.
    destruct Hf as [[Hu ?] ?], Hfs as [[? ?] ?].
    destruct Hdis; [unfold requires_exclusive_region; unfold is_usable in Hu; by rewrite Hu|dlia..].
Qed.

(** ** The initialised allocator *)

(** The state just before the two reservations. *)
Definition initial_state (map : memory_map) (plan : pmm_plan_t) (storage : list Z) : pmm_state :=
  MkPmm (foldl (init_region 0 (pl_bitmap_bytes plan))
           (init_storage storage (pl_storage_bytes plan) (pl_bitmap_bytes plan)) (mm_regions map))
    0 (pl_bitmap_bytes plan) plan
    (mm_usable_bytes map / MEMORY_PAGE_SIZE) (mm_usable_bytes map / MEMORY_PAGE_SIZE) 0 true.

Section init.
Context (map : memory_map) (plan : pmm_plan_t) (storage : list Z).
Context (Hmap : map_wf map) (Hplan : plan_ok map plan).
Context (Hstorage : pl_storage_bytes plan <= Z.of_nat (length storage)).

Notation st0 := (initial_state map plan storage).

Lemma initial_bits :
  length (pmm_mem st0) = length storage /\
  forall f, 0 <= f < pmm_span st0 ->
    elig st0 f = covers (mm_regions map) f /\ occ st0 f = negb (covers (mm_regions map) f).
Proof using All.
  destruct Hplan as [Hs Hmax Hcov Hb [Hsb _] _ _ _].
  assert (pl_span_frames plan <= 8 * pl_bitmap_bytes plan) by dlia.
  destruct (init_storage_spec storage (pl_storage_bytes plan) (pl_bitmap_bytes plan)) as [Hlen Hbits];
    [dlia|lia|].
  destruct (fill_regions (pl_bitmap_bytes plan) (mm_regions map)) with
    (m := init_storage storage (pl_storage_bytes plan) (pl_bitmap_bytes plan)) as [Hl Hu].
  - apply Hmap.
  - intros r Hr Hus. specialize (Hcov r Hr Hus). lia.
  - rewrite Hlen. lia.
  - split; [simpl; congruence|]. intros f Hf. unfold pmm_span in Hf. simpl in Hf.
    destruct (Hu f ltac:(lia)) as [E1 E2], (Hbits f ltac:(lia)) as [E3 E4].
    unfold elig, occ. simpl. rewrite E1, E2, E3, E4. by rewrite orb_false_r, andb_true_r.
Qed.

Lemma initial_pre : pmm_pre st0.
Proof using All.
  destruct initial_bits as [Hlen Hbits].
  assert (count_if (covers (mm_regions map)) (seqZ 0 (pmm_span st0)) = pmm_total_frames st0) as Hc.
  { simpl. rewrite (map_wf_usable _ Hmap). unfold pmm_span. simpl. unfold MEMORY_PAGE_SIZE.
    rewrite <- (count_covers (pl_span_frames plan) (mm_regions map));
      [by rewrite Z.div_mul|apply Hmap|apply Hplan|].
    intros i j r s. apply (map_wf_disjoint _ Hmap). }
  pose proof (count_if_bounds (covers (mm_regions map)) (seqZ 0 (pmm_span st0))) as Hb.
  rewrite length_seqZ in Hb. destruct Hplan as [Hs Hmax Hcov Hbm [Hsb _] _ _ _].
  constructor; try done.
  - constructor; try done; unfold pmm_span; simpl; [split; [done|dlia]|].
    simpl in Hlen. rewrite Hlen. lia.
  - intros f Hf. destruct (Hbits f Hf) as [-> ->]. apply negb_false_iff.
  - change (pmm_free_frames st0) with (pmm_total_frames st0). rewrite <- Hc. apply count_if_ext. intros f Hf%elem_of_seqZ.
    destruct (Hbits f ltac:(lia)) as [_ ->]. by rewrite negb_involutive.
  - rewrite <- Hc. rewrite (count_if_ext (elig st0) (covers (mm_regions map))); cycle 1.
    { intros f Hf%elem_of_seqZ. by destruct (Hbits f ltac:(lia)). }
    unfold pmm_span in *. simpl in *. lia.
Qed.

Lemma initial_abs : pmm_abs st0 = MkFrames (usable_frames map (pl_span_frames plan)) ∅.
Proof using All.
  destruct initial_bits as [_ Hbits]. unfold pmm_abs, usable_frames. f_equal.
  - apply set_eq. intros f. rewrite !elem_of_frame_set. unfold pmm_span in *. simpl in *.
    split; intros [Hf H]; destruct (Hbits f Hf) as [_ E]; rewrite E, ?negb_involutive in *; done.
  - apply elem_of_equiv_empty_L. intros f [Hf H]%elem_of_frame_set.
    destruct (Hbits f Hf) as [E1 E2]. rewrite E1, E2 in H. by destruct (covers _ f).
Qed.
End init.

(** The frames of the storage the plan reserves. *)
Definition storage_frames (plan : pmm_plan_t) : gset Z :=
  run (pl_storage_phys plan / 4096) (pl_storage_bytes plan / 4096).

(** While nothing is allocated, a reservation that does not overflow is
    always granted. *)
Lemma reserve_unallocated st phys bytes : pmm_pre st -> fr_allocated (pmm_abs st) = ∅ ->
  0 <= phys -> 0 < bytes -> phys + bytes + 4095 <= UINT64_MAX ->
  let st' := fst (pmm_core_reserve_range st phys bytes) in
  pmm_pre st' /\ same_shape st' st /\
  (forall f, 0 <= f < pmm_span st ->
     elig st' f = if decide (f ∈ touched st phys bytes) then false else elig st f) /\
  pmm_abs st' = MkFrames (fr_free (pmm_abs st) ∖ touched st phys bytes) ∅.
Proof.
  intros Hpre Ha Hp Hb Hov.
  pose proof (reserve_range_spec st phys bytes Hpre ltac:(unfold u64_ok; lia)
    ltac:(unfold u64_ok; lia)) as H.
  destruct (pmm_core_reserve_range st phys bytes) as [st' r]. simpl.
  destruct H as (Hpre' & Hsh & He & H). rewrite Ha in H. destruct r; cycle 1.
  { destruct H as (_ & [?|[?|H]]); [lia|lia|]. exfalso. apply H. set_solver. }
  split_and!; try done; [|apply H]. intros f Hf. rewrite He by done.
  destruct (decide (f ∈ touched st phys bytes)), (decide (true = true /\ _)); intuition congruence.
Qed.

Lemma pmm_init_spec (state : pmm_state) (map : memory_map) (plan : pmm_plan_t)
    (storage : list Z)
    (Hmap : map_wf map) (Hplan : pmm_plan map = Some plan)
    (Hfresh : pmm_initialized state = false)
    (Hstorage : pl_storage_bytes plan <= Z.of_nat (length storage)) :
  let '(st, r) := pmm_core_init state map plan storage in
  r = true /\ pmm_wf st /\
  pmm_abs st = MkFrames (usable_frames map (pl_span_frames plan) ∖ {[0]} ∖ storage_frames plan) ∅ /\
  pmm_total_frames st = mm_usable_bytes map / 4096.
Proof.
  pose proof (pmm_plan_ok _ _ Hmap Hplan) as Hok.
  unfold pmm_core_init. rewrite Hfresh, Hplan, !Z.eqb_refl. cbn [negb orb]. cbv zeta.
  change (MkPmm _ _ _ _ _ _ _ _) with (initial_state map plan storage).
  set (st0 := initial_state map plan storage).
  pose proof (initial_pre map plan storage Hmap Hok Hstorage) as Hpre0. fold st0 in Hpre0.
  pose proof (initial_abs map plan storage Hmap Hok Hstorage) as Habs0. fold st0 in Habs0.
  destruct Hok as [Hs Hmax Hcov Hbm Hsb [Hal1 Hal2] Hlow (r & Hr & Hru & Hrb & Hre)].
  specialize (Hcov r Hr Hru). pose proof (proj1 (Forall_forall _ _) (map_wf_regions _ Hmap) r Hr) as Hrok.
  unfold region_ok in Hrok.
  destruct (reserve_unallocated st0 0 MEMORY_PAGE_SIZE) as (Hpre1 & Hsh1 & He1 & Habs1);
    [done|by rewrite Habs0|done..|].
  set (st1 := fst (pmm_core_reserve_range st0 0 _)) in *.
  assert (pmm_span st1 = pl_span_frames plan) as Hsp1 by apply (same_shape_span _ _ Hsh1).
  destruct (reserve_unallocated st1 (pl_storage_phys plan) (pl_storage_bytes plan))
    as (Hpre2 & Hsh2 & He2 & Habs2); [done|by rewrite Habs1|lia|dlia|unfold UINT64_MAX in *; dlia|].
  set (st2 := fst (pmm_core_reserve_range st1 _ _)) in *.
  assert (touched st0 0 MEMORY_PAGE_SIZE = {[0]}) as Ht1.
  { apply set_eq. intros f. unfold touched. rewrite elem_of_run, elem_of_singleton.
    unfold pmm_span. simpl. change (0 / 4096) with 0. change (_ / 4096) with 1. lia. }
  assert (touched st1 (pl_storage_phys plan) (pl_storage_bytes plan) = storage_frames plan) as Ht2.
  { unfold touched, storage_frames. f_equal. rewrite Hsp1. dlia. }
  split_and!; [done| | |].
  - constructor; [done|]. rewrite He2 by lia. case_decide; [done|].
    rewrite He1 by (change (pmm_span st0) with (pl_span_frames plan); lia). rewrite Ht1.
    by rewrite decide_True by set_solver.
  - by rewrite Habs2, Habs1, Habs0, Ht1, Ht2.
  - destruct Hsh2 as (_&_&_&->&_), Hsh1 as (_&_&_&->&_). done.
Qed.

(** C21. Starting from a map built by [memory_map_add] and the plan computed from
    it, [pmm_core_init] succeeds and yields a well-formed allocator: nothing
    is allocated, and the free frames are exactly the usable frames without
    page zero and without the frames that hold the bitmaps themselves. *)
Theorem pmm_init_refines (state : pmm_state) (map : memory_map) (plan : pmm_plan_t)
    (storage : list Z)
    (Hmap : map_wf map) (Hplan : pmm_plan map = Some plan)
    (Hfresh : pmm_initialized state = false)
    (Hstorage : pl_storage_bytes plan <= Z.of_nat (length storage)) :
  let '(st, r) := pmm_core_init state map plan storage in
  r = true /\ pmm_wf st /\
  pmm_abs st = MkFrames (usable_frames map (pl_span_frames plan) ∖ {[0]} ∖ storage_frames plan) ∅ /\
  pmm_total_frames st = mm_usable_bytes map / 4096.
Proof. exact (pmm_init_spec state map plan storage Hmap Hplan Hfresh Hstorage). Qed.
