(* ===== verification/PmmTrace.v ===== *)
(** * The physical page allocator: histories

    A history is any sequence of calls of the four operations that change
    the allocator.  The theorems speak of whole histories, of pairs of calls
    and of each operation's exact outcome; a concrete allocator of sixteen
    frames, built by the code itself, shows that their hypotheses hold. *)

From S2P Require Import Prelude MemoryHelpers MemoryMap PmmCore PmmProps PmmInit.
Open Scope Z_scope.

Inductive pmm_op :=
  | OpAlloc (count : Z)
  | OpFree (phys count : Z)
  | OpPin (phys : Z)
  | OpReserve (phys bytes : Z).

(** The arguments are values of [uint64_t]. *)
Definition op_ok (op : pmm_op) : Prop :=
  match op with
  | OpAlloc count => u64_ok count
  | OpFree phys count => u64_ok phys /\ u64_ok count
  | OpPin phys => u64_ok phys
  | OpReserve phys bytes => u64_ok phys /\ u64_ok bytes
  end.

Definition pmm_apply (st : pmm_state) (op : pmm_op) : pmm_state :=
  match op with
  | OpAlloc count => fst (pmm_core_alloc_pages st count)
  | OpFree phys count => fst (pmm_core_free_pages st phys count)
  | OpPin phys => fst (pmm_core_pin_page st phys)
  | OpReserve phys bytes => fst (pmm_core_reserve_range st phys bytes)
  end.

Definition pmm_history (st : pmm_state) (ops : list pmm_op) : pmm_state := foldl pmm_apply st ops.

(** Executable form of the invariant. *)
Definition pmm_wf_b (st : pmm_state) : bool :=
  let span := pmm_span st in
  let bb := pl_bitmap_bytes (pmm_plan_of st) in
  pmm_initialized st && (pmm_eligible st =? 0) && (pmm_occupied st =? bb) &&
  (0 <? span) && (span <=? 8 * bb) && (2 * bb <=? Z.of_nat (length (pmm_mem st))) &&
  (span * 4096 <=? UINT64_MAX) &&
  forallb (fun f => occ st f || elig st f) (seqZ 0 span) &&
  (pmm_free_frames st =? count_if (fun f => negb (occ st f)) (seqZ 0 span)) &&
  (count_if (elig st) (seqZ 0 span) <=? pmm_total_frames st) && (pmm_total_frames st <=? span) &&
  (0 <=? pmm_cursor st) && (pmm_cursor st <? span) && negb (elig st 0).

Lemma pmm_wf_b_sound st : pmm_wf_b st = true -> pmm_wf st.
Proof.
  unfold pmm_wf_b. rewrite !andb_true_iff, !Z.eqb_eq, !Z.leb_le, !Z.ltb_lt, negb_true_iff.
  intros H. destruct_and! H. repeat (constructor; try done).
  intros f Hf Ho. rewrite forallb_seqZ in *.
  match goal with H : forall f, _ -> _ || _ = true |- _ => specialize (H f ltac:(lia)) as Hb end.
  by rewrite Ho in Hb.
Qed.

(** ** Every operation is a step of the abstract allocator *)

Lemma pmm_apply_step st op : pmm_wf st -> op_ok op ->
  pmm_wf (pmm_apply st op) /\
  (pmm_apply st op = st \/ frames_step (pmm_abs st) (pmm_abs (pmm_apply st op))).
Proof.
  intros Hwf Hop. destruct op as [count|phys count|phys|phys bytes]; cbn [pmm_apply op_ok] in *.
  - pose proof (alloc_pages_spec st count Hwf Hop) as H.
    destruct (pmm_core_alloc_pages st count) as [st' [p|]]; cbn [fst snd]; destruct H as [Hw H].
    + destruct H as (first & _ & _ & ? & ? & -> & _). split; [done|]. right. by constructor.
    + destruct H. split; [done|by left].
  - pose proof (free_pages_spec st phys count Hwf (proj1 Hop) (proj2 Hop)) as H.
    destruct (pmm_core_free_pages st phys count) as [st' []]; cbn [fst snd]; destruct H as [Hw H].
    + destruct H as (? & _ & ? & -> & _). split; [done|]. right. by constructor.
    + destruct H. split; [done|by left].
  - pose proof (pin_page_spec st phys Hwf Hop) as H.
    destruct (pmm_core_pin_page st phys) as [st' []]; cbn [fst snd]; destruct H as (Hw & _ & Hf & H).
    + destruct H as (_ & ? & Ha). split; [done|]. right.
      assert (pmm_abs st' = MkFrames (fr_free (pmm_abs st)) (fr_allocated (pmm_abs st) ∖ {[phys / 4096]}))
        as -> by (rewrite <- Hf, <- Ha; by destruct (pmm_abs st')).
      by constructor.
    + destruct H. split; [done|by left].
  - pose proof (reserve_range_wf st phys bytes Hwf (proj1 Hop) (proj2 Hop)) as H.
    destruct (pmm_core_reserve_range st phys bytes) as [st' []]; cbn [fst snd]; destruct H as [Hw H].
    + destruct H as (_ & ? & ->). split; [done|]. right. by constructor.
    + destruct H. split; [done|by left].
Qed.

Lemma pmm_history_steps ops : forall st, pmm_wf st -> Forall op_ok ops ->
  pmm_wf (pmm_history st ops) /\ rtc frames_step (pmm_abs st) (pmm_abs (pmm_history st ops)).
Proof.
  induction ops as [|op ops IH]; intros st Hwf Hops; simpl; [done|].
  inversion Hops as [|? ? Hop Hops']; subst.
  destruct (pmm_apply_step st op Hwf Hop) as [Hw Hs].
  destruct (IH _ Hw Hops') as [Hw' Hr]. split; [done|].
  destruct Hs as [E|Hs]; [by rewrite E in Hr |- *|by econstructor].
Qed.

(** Without a free in between, the free set only shrinks. *)
Definition not_free (op : pmm_op) : Prop :=
  match op with OpFree _ _ => False | _ => True end.

Lemma pmm_history_shrinks ops : forall st, pmm_wf st -> Forall op_ok ops -> Forall not_free ops ->
  fr_free (pmm_abs (pmm_history st ops)) ⊆ fr_free (pmm_abs st).
Proof.
  induction ops as [|op ops IH]; intros st Hwf Hops Hnf; cbn [pmm_history foldl]; [done|].
  inversion Hops as [|? ? Hop Hops']; inversion Hnf as [|? ? Hn Hnf']; subst.
  destruct (pmm_apply_step st op Hwf Hop) as [Hw _].
  etransitivity; [by apply IH|]. destruct op as [count| |phys|phys bytes]; cbn [pmm_apply op_ok not_free] in *; [|done| |].
  - pose proof (alloc_pages_spec st count Hwf Hop) as H.
    destruct (pmm_core_alloc_pages st count) as [st' [p|]]; cbn [fst snd]; destruct H as [_ H].
    + destruct H as (first & _ & _ & _ & _ & -> & _). cbn [fr_free]. set_solver.
    + by destruct H as [-> _].
  - pose proof (pin_page_spec st phys Hwf Hop) as H.
    destruct (pmm_core_pin_page st phys) as [st' r]; cbn [fst]. by destruct H as (_ & _ & -> & _).
  - pose proof (reserve_range_wf st phys bytes Hwf (proj1 Hop) (proj2 Hop)) as H.
    destruct (pmm_core_reserve_range st phys bytes) as [st' []]; cbn [fst snd]; destruct H as [_ H].
    + destruct H as (_ & _ & ->). cbn [fr_free]. set_solver.
    + by destruct H as [-> _].
Qed.



(** What a granted allocation hands out. *)
Lemma alloc_granted st count st' p : pmm_wf st -> u64_ok count ->
  pmm_core_alloc_pages st count = (st', Some p) ->
  exists first, p = first * 4096 /\ 0 < first /\ 0 < count /\ first + count <= pmm_span st /\
  run first count ⊆ fr_free (pmm_abs st) /\
  pmm_abs st' = MkFrames (fr_free (pmm_abs st) ∖ run first count)
                         (fr_allocated (pmm_abs st) ∪ run first count) /\
  pmm_free_frames st' = pmm_free_frames st - count /\ pmm_wf st'.
Proof.
  intros Hwf Hc E. pose proof (alloc_pages_spec st count Hwf Hc) as H. rewrite E in H.
  destruct H as (Hw & first & ? & ? & ? & Hsub & ?). exists first. split_and!; try tauto.
  pose proof (Hsub (first + count - 1) ltac:(apply elem_of_run; lia)) as Hin.
  apply elem_of_free in Hin. lia.
Qed.

Lemma is_allocated_spec st phys : pmm_wf st -> u64_ok phys ->
  pmm_core_is_allocated_page st phys = true <->
  phys mod 4096 = 0 /\ phys / 4096 ∈ fr_allocated (pmm_abs st).
Proof.
  intros Hwf Hp. unfold pmm_core_is_allocated_page. rewrite range_frames_spec by (done || by split).
  rewrite elem_of_allocated. destruct (decide _) as [(_&?&?)|Hno].
  - rewrite andb_true_iff. assert (0 <= phys / 4096) by (unfold u64_ok in *; dlia).
    split; [intros []; split_and!; done || lia|tauto].
  - split; [done|]. intros (?&?&_). lia.
Qed.

Lemma reserve_range_overflow st phys bytes : u64_ok phys -> u64_ok bytes ->
  UINT64_MAX < phys + bytes + 4095 -> snd (pmm_core_reserve_range st phys bytes) = false.
Proof.
  unfold u64_ok. intros Hp Hb Hov. unfold pmm_core_reserve_range.
  rewrite (u64_small (UINT64_MAX - phys)) by (unfold u64_ok; lia).
  destruct (_ || _ || _) eqn:G; [done|]. apply orb_false_iff in G as [_ G%Z.ltb_ge].
  rewrite u64_small by (unfold u64_ok; lia).
  destruct (memory_align_up (phys + bytes)) eqn:E; [|done].
  apply align_up_eq in E; [|unfold u64_ok; lia]. lia.
Qed.

(** Free and allocated frames together are within the initial total. *)
Lemma free_allocated_total st : pmm_wf st ->
  pmm_free_frames st + Z.of_nat (size (fr_allocated (pmm_abs st))) <= pmm_total_frames st.
Proof.
  intros Hwf. rewrite (wf_free _ Hwf). unfold pmm_abs. cbn [fr_allocated]. rewrite size_frame_set.
  rewrite <- count_if_disjoint by (intros f _ Hf%negb_true_iff; rewrite Hf; apply andb_false_r).
  etransitivity; [|apply (wf_total _ Hwf)]. apply count_if_mono.
  intros f Hf%elem_of_seqZ H. destruct (occ st f) eqn:Eo; simpl in H.
  - by rewrite andb_true_r in H.
  - apply (wf_bits _ Hwf); [lia|done].
Qed.

(** ** Properties *)

(** C20. Any history of calls keeps the invariant, is a sequence of steps of the
    abstract allocator, and leaves the counter equal to the number of free
    frames. *)
Theorem pmm_history_refines (st : pmm_state) (ops : list pmm_op)
    (Hwf : pmm_wf st) (Hops : Forall op_ok ops) :
  pmm_wf (pmm_history st ops) /\
  rtc frames_step (pmm_abs st) (pmm_abs (pmm_history st ops)) /\
  pmm_free_frames (pmm_history st ops) =
    Z.of_nat (size (fr_free (pmm_abs (pmm_history st ops)))).
Proof.
  destruct (pmm_history_steps ops st Hwf Hops). auto using pmm_free_frames_size.
Qed.

(** Allocation is complete: it succeeds exactly when some run of [count]
    consecutive free frames exists, wherever the search cursor stands, and it
    hands out such a run, above page zero. *)
Theorem pmm_alloc_exact (st : pmm_state) (count : Z) (Hwf : pmm_wf st) (Hc : u64_ok count) :
  (is_Some (snd (pmm_core_alloc_pages st count)) <->
   0 < count /\ exists first, run first count ⊆ fr_free (pmm_abs st)) /\
  forall st' p, pmm_core_alloc_pages st count = (st', Some p) ->
    exists first, p = first * 4096 /\ 0 < first /\ run first count ⊆ fr_free (pmm_abs st) /\
    pmm_abs st' = MkFrames (fr_free (pmm_abs st) ∖ run first count)
                           (fr_allocated (pmm_abs st) ∪ run first count).
Proof.
  split.
  - pose proof (alloc_pages_spec st count Hwf Hc) as H.
    destruct (pmm_core_alloc_pages st count) as [st' [p|]]; cbn [fst snd]; destruct H as [_ H].
    + destruct H as (first & _ & _ & ? & ? & _). split; [|by eauto]. intros _. by eauto.
    + destruct H as [_ H]. split; [by intros []|]. intros [? [first Hf]].
      destruct H as [->|H]; [lia|]. by destruct (H first).
  - intros st' p E. destruct (alloc_granted st count st' p Hwf Hc E) as (first & H).
    exists first. tauto.
Qed.

(** C22. Two allocations that are live at the same time never overlap: whatever
    is called between them, as long as nothing is freed, the second range of
    addresses is disjoint from the first. *)
Theorem pmm_live_allocations_disjoint (st st1 st2 : pmm_state) (c1 c2 p1 p2 : Z)
    (ops : list pmm_op) (Hwf : pmm_wf st) (Hc1 : u64_ok c1) (Hc2 : u64_ok c2)
    (Hops : Forall op_ok ops) (Hnf : Forall not_free ops)
    (H1 : pmm_core_alloc_pages st c1 = (st1, Some p1))
    (H2 : pmm_core_alloc_pages (pmm_history st1 ops) c2 = (st2, Some p2)) :
  p1 + c1 * 4096 <= p2 \/ p2 + c2 * 4096 <= p1.
Proof.
  destruct (alloc_granted _ _ _ _ Hwf Hc1 H1) as (f1 & -> & _ & ? & _ & _ & Habs & _ & Hw1).
  destruct (pmm_history_steps ops st1 Hw1 Hops) as [Hw2 _].
  destruct (alloc_granted _ _ _ _ Hw2 Hc2 H2) as (f2 & -> & _ & ? & _ & Hsub & _).
  pose proof (pmm_history_shrinks ops st1 Hw1 Hops Hnf) as Hshr. rewrite Habs in Hshr.
  cbn [fr_free] in Hshr.
  destruct (decide (f1 + c1 <= f2)); [lia|]. destruct (decide (f2 + c2 <= f1)); [lia|].
  assert (Z.max f1 f2 ∈ run f1 c1 /\ Z.max f1 f2 ∈ run f2 c2) as [Ha Hb]
    by (rewrite !elem_of_run; lia).
  exfalso. apply Hsub, Hshr in Hb. set_solver.
Qed.

(** Freeing what an allocation returned restores the allocator's abstract
    state and its counter, and a second free of the same range is rejected. *)
Theorem pmm_alloc_free_roundtrip (st st1 : pmm_state) (count p : Z)
    (Hwf : pmm_wf st) (Hc : u64_ok count)
    (Halloc : pmm_core_alloc_pages st count = (st1, Some p)) :
  let '(st2, r) := pmm_core_free_pages st1 p count in
  r = true /\ pmm_abs st2 = pmm_abs st /\ pmm_free_frames st2 = pmm_free_frames st /\
  pmm_core_free_pages st2 p count = (st2, false).
Proof.
  destruct (alloc_granted _ _ _ _ Hwf Hc Halloc)
    as (first & -> & ? & ? & Hs & Hsub & Habs & Hfree & Hw1).
  pose proof (lay_addr _ (wf_layout _ Hwf)) as Hmax.
  assert (u64_ok (first * 4096)) as Hp by (unfold u64_ok; lia).
  assert (run first count ## fr_allocated (pmm_abs st)) as Hdis.
  { intros f Hf (_ & _ & Ho)%elem_of_allocated. apply Hsub, elem_of_free in Hf as [_ Hf]. congruence. }
  pose proof (free_pages_spec st1 (first * 4096) count Hw1 Hp Hc) as HF.
  rewrite Z.div_mul, Z.mod_mul, Habs in HF by lia. cbn [fr_free fr_allocated] in HF.
  destruct (pmm_core_free_pages st1 (first * 4096) count) as [st2 []]; destruct HF as [Hw2 HF]; cycle 1.
  { exfalso. destruct HF as (_ & [?|[?|HF]]); [lia|lia|]. apply HF. set_solver. }
  destruct HF as (_ & _ & _ & Habs2 & Hfree2).
  assert (pmm_abs st2 = pmm_abs st) as Heq.
  { rewrite Habs2. destruct (pmm_abs st) as [F A] eqn:E. cbn [fr_free fr_allocated] in *.
    f_equal; apply set_eq; intros f; specialize (Hsub f); specialize (Hdis f);
      rewrite ?elem_of_union, ?elem_of_difference, ?elem_of_union; destruct (decide (f ∈ run first count));
      tauto. }
  split_and!; [done|done|lia|].
  pose proof (free_pages_spec st2 (first * 4096) count Hw2 Hp Hc) as HG.
  destruct (pmm_core_free_pages st2 (first * 4096) count) as [st3 []]; destruct HG as [_ HG].
  - exfalso. destruct HG as (_ & _ & HG & _). rewrite Z.div_mul, Heq in HG by lia.
    assert (first ∈ run first count) as Hin by (apply elem_of_run; lia). set_solver.
  - by destruct HG as [-> _].
Qed.

(** A call succeeds exactly on the arguments it should: a free on whole runs
    of allocated frames, a pin on an allocated page, the query on an allocated
    page, a reservation on ranges that touch no allocated frame; every
    rejected call leaves the allocator unchanged. *)
Theorem pmm_calls_exact (st : pmm_state) (phys n : Z)
    (Hwf : pmm_wf st) (Hp : u64_ok phys) (Hn : u64_ok n) :
  (snd (pmm_core_free_pages st phys n) = true <->
     0 < n /\ phys mod 4096 = 0 /\ run (phys / 4096) n ⊆ fr_allocated (pmm_abs st)) /\
  (snd (pmm_core_free_pages st phys n) = false -> fst (pmm_core_free_pages st phys n) = st) /\
  (snd (pmm_core_pin_page st phys) = true <->
     phys mod 4096 = 0 /\ phys / 4096 ∈ fr_allocated (pmm_abs st)) /\
  (snd (pmm_core_pin_page st phys) = false -> fst (pmm_core_pin_page st phys) = st) /\
  (pmm_core_is_allocated_page st phys = true <->
     phys mod 4096 = 0 /\ phys / 4096 ∈ fr_allocated (pmm_abs st)) /\
  (snd (pmm_core_reserve_range st phys n) = true <->
     0 < n /\ phys + n + 4095 <= UINT64_MAX /\ touched st phys n ## fr_allocated (pmm_abs st)) /\
  (snd (pmm_core_reserve_range st phys n) = false -> fst (pmm_core_reserve_range st phys n) = st).
Proof.
  pose proof (free_pages_spec st phys n Hwf Hp Hn) as HF.
  pose proof (pin_page_spec st phys Hwf Hp) as HP.
  pose proof (reserve_range_wf st phys n Hwf Hp Hn) as HR.
  destruct (pmm_core_free_pages st phys n) as [s1 r1], (pmm_core_pin_page st phys) as [s2 r2].
  pose proof (reserve_range_overflow st phys n Hp Hn) as HO.
  destruct (pmm_core_reserve_range st phys n) as [s3 r3]. cbn [fst snd] in *.
  unfold u64_ok in Hn. split; [|split; [|split; [|split; [|split; [|split]]]]].
  - destruct r1; split; try tauto; try done. intros (?&?&?). exfalso. intuition lia.
  - destruct r1; tauto || done.
  - destruct r2; split; tauto || done.
  - destruct r2; tauto || done.
  - apply is_allocated_spec; done.
  - destruct r3; split; try tauto; try done; [|intros (?&?&?); exfalso; intuition lia].
    intros _. destruct (decide (phys + n + 4095 <= UINT64_MAX)); [tauto|]. exfalso.
    by specialize (HO ltac:(lia)).
  - destruct r3; tauto || done.
Qed.


(** What no call changes: the plan and the number of frames counted at the start. *)
Definition same_totals (s st : pmm_state) : Prop :=
  pmm_plan_of s = pmm_plan_of st /\ pmm_total_frames s = pmm_total_frames st.

Lemma reserve_totals st phys bytes : same_totals (fst (pmm_core_reserve_range st phys bytes)) st.
Proof.
  unfold pmm_core_reserve_range. destruct (_ || _); [done|]. destruct (memory_align_up _) as [limit|]; [|done].
  cbv zeta. destruct (existsb _ _); [done|]. cbn [fst]. generalize (seqZ (phys / MEMORY_PAGE_SIZE)
    ((if pmm_span st <? limit / MEMORY_PAGE_SIZE then pmm_span st else limit / MEMORY_PAGE_SIZE) - phys / MEMORY_PAGE_SIZE)).
  intros l. revert st. induction l as [|f l IH]; intros st; [done|]. cbn [foldl]. destruct (IH (reserve_frame st f)) as [E1 E2].
  split; [rewrite E1|rewrite E2]; unfold reserve_frame; by destruct (bitmap_test _ _ _).
Qed.

Lemma apply_totals st op : same_totals (pmm_apply st op) st.
Proof.
  destruct op as [count|phys count|phys|phys bytes]; cbn [pmm_apply]; [| | |apply reserve_totals].
  - unfold pmm_core_alloc_pages. destruct (_ || _); [done|]. cbv zeta. by destruct (match find_run _ _ _ with Some _ => _ | None => _ end).
  - unfold pmm_core_free_pages. destruct (range_frames _ _ _) as [[first limit]|]; [|done]. by destruct (existsb _ _).
  - unfold pmm_core_pin_page. destruct (range_frames _ _ _) as [[first limit]|]; [|done]. by destruct (_ || _).
Qed.

Lemma history_totals ops : forall st, same_totals (pmm_history st ops) st.
Proof.
  induction ops as [|op ops IH]; intros st; [done|]. destruct (IH (pmm_apply st op)) as [E1 E2], (apply_totals st op) as [E3 E4].
  split; [exact (eq_trans E1 E3)|exact (eq_trans E2 E4)].
Qed.

(** No frame comes from outside. *)
Lemma frames_steps_within A B U : rtc frames_step A B -> fr_free A ∪ fr_allocated A ⊆ U -> fr_free B ∪ fr_allocated B ⊆ U.
Proof. induction 1 as [|A1 A2 A3 Hs _ IH]; [done|]. intros HU. apply IH. destruct Hs; cbn [fr_free fr_allocated]; set_solver. Qed.

(** The bytes that the memory map calls usable are those of the usable frames. *)
Lemma usable_total map plan : map_wf map -> pmm_plan map = Some plan ->
  Z.of_nat (size (usable_frames map (pl_span_frames plan))) = mm_usable_bytes map / 4096.
Proof.
  intros Hmap Hplan. pose proof (pmm_plan_ok _ _ Hmap Hplan) as Hok. set (storage := replicate (Z.to_nat (pl_storage_bytes plan)) 0).
  assert (pl_storage_bytes plan <= Z.of_nat (length storage)) as Hl by (unfold storage; rewrite length_replicate; lia).
  pose proof (wf_free _ (initial_pre map plan storage Hmap Hok Hl)) as Hf. pose proof (initial_abs map plan storage Hmap Hok Hl) as Ha.
  apply (f_equal fr_free) in Ha. unfold pmm_abs in Ha. cbn [fr_free] in Ha. rewrite <- Ha, size_frame_set. by rewrite <- Hf.
Qed.

(** C40. The statistics are exact after any history.  With the allocator built from a
    memory map by the plan computed from it, whatever calls follow: the total is
    the number of usable frames of the map, the free frames are those free at
    that point, all of them usable, the used ones are the other usable frames
    (the subtraction never wraps), and the place and size of the bitmaps and the
    span are those of the plan. *)
Theorem pmm_stats_exact (state : pmm_state) (map : memory_map) (plan : pmm_plan_t) (storage : list Z) (ops : list pmm_op)
    (Hmap : map_wf map) (Hplan : pmm_plan map = Some plan) (Hfresh : pmm_initialized state = false)
    (Hstorage : pl_storage_bytes plan <= Z.of_nat (length storage)) (Hops : Forall op_ok ops) :
  let st := pmm_history (fst (pmm_core_init state map plan storage)) ops in
  let usable := usable_frames map (pl_span_frames plan) in
  fr_free (pmm_abs st) ∪ fr_allocated (pmm_abs st) ⊆ usable /\
  pmm_core_get_stats st = Some (MkPmmStats (Z.of_nat (size usable)) (Z.of_nat (size (fr_free (pmm_abs st))))
    (Z.of_nat (size (usable ∖ fr_free (pmm_abs st))))
    (pl_storage_phys plan) (pl_bitmap_bytes plan) (pl_storage_bytes plan) (pl_span_frames plan)).
Proof.
  intros st usable. pose proof (pmm_init_spec state map plan storage Hmap Hplan Hfresh Hstorage) as Hi.
  assert (pmm_plan_of (fst (pmm_core_init state map plan storage)) = plan) as Ep.
  { unfold pmm_core_init. rewrite Hfresh, Hplan, !Z.eqb_refl. cbn [negb orb fst]. by rewrite !(proj1 (reserve_totals _ _ _)). }
  destruct (pmm_core_init state map plan storage) as [st0 r]. cbn [fst] in st, Ep. destruct Hi as (_ & Hwf & Habs & Ht).
  destruct (pmm_history_steps ops st0 Hwf Hops) as [Hw Hs]. destruct (history_totals ops st0) as [E1 E2]. fold st in Hw, Hs, E1, E2.
  assert (fr_free (pmm_abs st) ∪ fr_allocated (pmm_abs st) ⊆ usable) as Hin.
  { apply (frames_steps_within _ _ usable Hs). rewrite Habs. cbn [fr_free fr_allocated]. set_solver. }
  split; [done|]. assert (fr_free (pmm_abs st) ⊆ usable) as Hf by set_solver.
  unfold pmm_core_get_stats, pmm_span. rewrite (wf_initialized _ Hw), E1, E2, Ep, Ht, (pmm_free_frames_size st Hw), <- (usable_total map plan Hmap Hplan). fold usable.
  rewrite size_difference by done. pose proof (subseteq_size _ _ Hf). pose proof (wf_span_u64 _ Hw) as Hu.
  pose proof (wf_total _ Hw) as [_ Htot]. rewrite E2, Ht, <- (usable_total map plan Hmap Hplan) in Htot. fold usable in Htot. unfold u64_ok in Hu.
  cbn [negb]. rewrite u64_small by (unfold u64_ok; lia). do 2 f_equal. lia.
Qed.

(** ** A machine with sixteen frames *)

Definition ex_map : memory_map := MkMap [MkRegion 0 65536 UTAMO_MEMORY_USABLE] 65536 0.
Definition ex_plan : pmm_plan_t := MkPlan 4096 4096 2 16.
Definition ex_blank : pmm_state := MkPmm [] 0 0 (MkPlan 0 0 0 0) 0 0 0 false.
Definition ex_state : pmm_state :=
  Eval vm_compute in
  let st := fst (pmm_core_init ex_blank ex_map ex_plan (replicate 4096 7)) in
  with_mem st (take 4 (pmm_mem st)).

Lemma ex_map_wf : map_wf ex_map.
Proof.
  constructor; simpl; try done.
  - by repeat constructor.
  - intros [|i] [|j] r s Hij Hi Hj; simplify_eq/=; lia.
  - intros [|i] [|j] r s Hij Hi Hj; simplify_eq/=.
Qed.

Lemma ex_wf : pmm_wf ex_state.
Proof. apply pmm_wf_b_sound. by vm_compute. Qed.

Lemma pmm_history_refines_witness :
  pmm_wf (pmm_history ex_state [OpAlloc 3; OpReserve 40960 1; OpFree 8192 3; OpPin 8192]) /\
  rtc frames_step (pmm_abs ex_state)
    (pmm_abs (pmm_history ex_state [OpAlloc 3; OpReserve 40960 1; OpFree 8192 3; OpPin 8192])) /\
  pmm_free_frames (pmm_history ex_state [OpAlloc 3; OpReserve 40960 1; OpFree 8192 3; OpPin 8192]) =
    Z.of_nat (size (fr_free (pmm_abs
      (pmm_history ex_state [OpAlloc 3; OpReserve 40960 1; OpFree 8192 3; OpPin 8192])))).
Proof.
  apply (pmm_history_refines ex_state [OpAlloc 3; OpReserve 40960 1; OpFree 8192 3; OpPin 8192]).
  - apply ex_wf.
  - by repeat constructor.
Defined.

Lemma pmm_alloc_exact_witness :
  is_Some (snd (pmm_core_alloc_pages ex_state 14)) <->
  0 < 14 /\ exists first, run first 14 ⊆ fr_free (pmm_abs ex_state).
Proof. apply (pmm_alloc_exact ex_state 14); [apply ex_wf|by split]. Defined.

Lemma pmm_live_allocations_disjoint_witness :
  8192 + 2 * 4096 <= 20480 \/ 20480 + 5 * 4096 <= 8192.
Proof.
  apply (pmm_live_allocations_disjoint ex_state
    (fst (pmm_core_alloc_pages ex_state 2))
    (fst (pmm_core_alloc_pages
      (pmm_history (fst (pmm_core_alloc_pages ex_state 2)) [OpAlloc 1; OpPin 8192]) 5))
    2 5 8192 20480 [OpAlloc 1; OpPin 8192]);
    [apply ex_wf|by split|by split|by repeat constructor|by repeat constructor|
     by vm_compute|by vm_compute].
Defined.

Lemma pmm_alloc_free_roundtrip_witness :
  let '(st2, r) := pmm_core_free_pages (fst (pmm_core_alloc_pages ex_state 4)) 8192 4 in
  r = true /\ pmm_abs st2 = pmm_abs ex_state /\ pmm_free_frames st2 = pmm_free_frames ex_state /\
  pmm_core_free_pages st2 8192 4 = (st2, false).
Proof.
  apply (pmm_alloc_free_roundtrip ex_state (fst (pmm_core_alloc_pages ex_state 4)) 4 8192);
    [apply ex_wf|by split|by vm_compute].
Defined.

Lemma pmm_calls_exact_witness :
  snd (pmm_core_free_pages ex_state 8192 1) = true <->
  0 < 1 /\ 8192 mod 4096 = 0 /\ run (8192 / 4096) 1 ⊆ fr_allocated (pmm_abs ex_state).
Proof. apply (pmm_calls_exact ex_state 8192 1); [apply ex_wf|by split|by split]. Defined.


(** After three calls thirteen of the sixteen frames are free. *)
Lemma pmm_stats_exact_witness :
  let st := pmm_history (fst (pmm_core_init ex_blank ex_map ex_plan (replicate 4096 7))) [OpAlloc 2; OpPin 8192; OpFree 12288 1] in
  fr_free (pmm_abs st) ∪ fr_allocated (pmm_abs st) ⊆ usable_frames ex_map 16 /\
  pmm_core_get_stats st = Some (MkPmmStats 16 13 3 4096 2 4096 16).
Proof.
  split; [|vm_compute; reflexivity].
  refine (proj1 (pmm_stats_exact ex_blank ex_map ex_plan (replicate 4096 7) [OpAlloc 2; OpPin 8192; OpFree 12288 1] ex_map_wf _ _ _ _));
    [by vm_compute|done|by vm_compute|by repeat constructor].
Defined.

Lemma pmm_init_refines_witness :
  let '(st, r) := pmm_core_init ex_blank ex_map ex_plan (replicate 4096 7) in
  r = true /\ pmm_wf st /\
  pmm_abs st = MkFrames (usable_frames ex_map 16 ∖ {[0]} ∖ storage_frames ex_plan) ∅ /\
  pmm_total_frames st = mm_usable_bytes ex_map / 4096.
Proof.
  apply (pmm_init_refines ex_blank ex_map ex_plan (replicate 4096 7));
    [apply ex_map_wf|by vm_compute|done|by vm_compute].
Defined.
