(* ===== verification/SchedCore.v ===== *)
(** * The scheduler policy (kernel/core/sched_core.c): definitions

    Tasks are nodes of a shared store, linked through their [next] fields
    into the FIFO of ready tasks and the list of sleepers ordered by deadline;
    the registry, the current task, the idle task and both queues hold
    addresses.  [NULL] is address 0.  [self] is the address of the scheduler
    object, which every registered node records as its owner. *)

From stdpp Require Import strings.
From S2P Require Import Prelude.
Open Scope Z_scope.

Definition NULL : Z := 0.
Definition UTAMO_SCHED_MAX_TASKS : Z := 64.

(** [enum sched_state]; a C enumeration object can hold other integers,
    which the code rejects. *)
Inductive sched_state :=
  | UTAMO_SCHED_RUNNING
  | UTAMO_SCHED_READY
  | UTAMO_SCHED_BLOCKED
  | UTAMO_SCHED_SLEEPING
  | UTAMO_SCHED_ZOMBIE
  | UTAMO_SCHED_OTHER (code : Z).

#[export] Instance sched_state_eq_dec : EqDecision sched_state.
Proof. solve_decision. Defined.

Definition state_eqb (a b : sched_state) : bool := bool_decide (a = b).

Definition state_in_enum (a : sched_state) : bool :=
  match a with UTAMO_SCHED_OTHER _ => false | _ => true end.

Record sched_task := MkTask {
  st_owner : Z;
  st_id : Z;
  st_state : sched_state;
  st_next : Z;
  st_wake_tick : Z;
  st_run_ticks : Z;
  st_quantum_left : Z;
  st_preempt_depth : Z
}.

(** A zeroed node. *)
Definition task_zero : sched_task := MkTask 0 0 UTAMO_SCHED_RUNNING 0 0 0 0 0.

#[export] Instance sched_task_inhabited : Inhabited sched_task := populate task_zero.

Record sched_core := MkCore {
  sc_tasks : list Z;
  sc_current : Z;
  sc_idle : Z;
  sc_ready_head : Z;
  sc_ready_tail : Z;
  sc_sleep_head : Z;
  sc_now : Z;
  sc_next_id : Z;
  sc_ticks : Z;
  sc_switches : Z;
  sc_task_count : Z;
  sc_quantum_ticks : Z;
  sc_reschedule : bool;
  sc_initialized : bool
}.

(** The scheduler object and the store its addresses refer to. *)
Record sched := MkSched { s_core : sched_core; s_mem : gmap Z sched_task }.

Definition node (s : sched) (p : Z) : sched_task := s_mem s !!! p.

(** ** Field assignments *)

Definition set_state (v : sched_state) (t : sched_task) : sched_task :=
  MkTask (st_owner t) (st_id t) v (st_next t) (st_wake_tick t) (st_run_ticks t)
    (st_quantum_left t) (st_preempt_depth t).
Definition set_next (v : Z) (t : sched_task) : sched_task :=
  MkTask (st_owner t) (st_id t) (st_state t) v (st_wake_tick t) (st_run_ticks t)
    (st_quantum_left t) (st_preempt_depth t).
Definition set_wake (v : Z) (t : sched_task) : sched_task :=
  MkTask (st_owner t) (st_id t) (st_state t) (st_next t) v (st_run_ticks t)
    (st_quantum_left t) (st_preempt_depth t).
Definition set_run_ticks (v : Z) (t : sched_task) : sched_task :=
  MkTask (st_owner t) (st_id t) (st_state t) (st_next t) (st_wake_tick t) v
    (st_quantum_left t) (st_preempt_depth t).
Definition set_quantum (v : Z) (t : sched_task) : sched_task :=
  MkTask (st_owner t) (st_id t) (st_state t) (st_next t) (st_wake_tick t) (st_run_ticks t)
    v (st_preempt_depth t).
Definition set_preempt (v : Z) (t : sched_task) : sched_task :=
  MkTask (st_owner t) (st_id t) (st_state t) (st_next t) (st_wake_tick t) (st_run_ticks t)
    (st_quantum_left t) v.

(** [p->field = value]: the node at [p] is replaced by its image. *)
Definition upd (f : sched_task -> sched_task) (p : Z) (s : sched) : sched :=
  MkSched (s_core s) (<[p := f (node s p)]> (s_mem s)).

Definition with_core (f : sched_core -> sched_core) (s : sched) : sched :=
  MkSched (f (s_core s)) (s_mem s).

Definition set_queues (head tail : Z) (c : sched_core) : sched_core :=
  MkCore (sc_tasks c) (sc_current c) (sc_idle c) head tail (sc_sleep_head c) (sc_now c)
    (sc_next_id c) (sc_ticks c) (sc_switches c) (sc_task_count c) (sc_quantum_ticks c)
    (sc_reschedule c) (sc_initialized c).
Definition set_sleep_head (v : Z) (c : sched_core) : sched_core :=
  MkCore (sc_tasks c) (sc_current c) (sc_idle c) (sc_ready_head c) (sc_ready_tail c) v (sc_now c)
    (sc_next_id c) (sc_ticks c) (sc_switches c) (sc_task_count c) (sc_quantum_ticks c)
    (sc_reschedule c) (sc_initialized c).
Definition set_reschedule (v : bool) (c : sched_core) : sched_core :=
  MkCore (sc_tasks c) (sc_current c) (sc_idle c) (sc_ready_head c) (sc_ready_tail c)
    (sc_sleep_head c) (sc_now c) (sc_next_id c) (sc_ticks c) (sc_switches c) (sc_task_count c)
    (sc_quantum_ticks c) v (sc_initialized c).
Definition set_registry (tasks : list Z) (count next_id : Z) (c : sched_core) : sched_core :=
  MkCore tasks (sc_current c) (sc_idle c) (sc_ready_head c) (sc_ready_tail c)
    (sc_sleep_head c) (sc_now c) next_id (sc_ticks c) (sc_switches c) count
    (sc_quantum_ticks c) (sc_reschedule c) (sc_initialized c).
Definition set_clock (now ticks : Z) (c : sched_core) : sched_core :=
  MkCore (sc_tasks c) (sc_current c) (sc_idle c) (sc_ready_head c) (sc_ready_tail c)
    (sc_sleep_head c) now (sc_next_id c) ticks (sc_switches c) (sc_task_count c)
    (sc_quantum_ticks c) (sc_reschedule c) (sc_initialized c).
Definition set_current (current switches : Z) (c : sched_core) : sched_core :=
  MkCore (sc_tasks c) current (sc_idle c) (sc_ready_head c) (sc_ready_tail c)
    (sc_sleep_head c) (sc_now c) (sc_next_id c) (sc_ticks c) switches (sc_task_count c)
    (sc_quantum_ticks c) (sc_reschedule c) (sc_initialized c).

(** ** Helpers *)

(** Counters saturate. *)
Definition increment (value : Z) : Z := if value =? UINT64_MAX then value else value +u 1.

Fixpoint slot_from (tasks : list Z) (task : Z) : Z :=
  match tasks with
  | [] => 0
  | p :: rest => if p =? task then 0 else 1 + slot_from rest task
  end.

(** The index of a node in the registry, or [UTAMO_SCHED_MAX_TASKS]. *)
Definition task_slot (core : sched_core) (task : Z) : Z :=
  if task =? NULL then UTAMO_SCHED_MAX_TASKS else slot_from (sc_tasks core) task.

Definition sched_state_name (state : sched_state) : string :=
  match state with
  | UTAMO_SCHED_RUNNING => "RUNNING"
  | UTAMO_SCHED_READY => "READY"
  | UTAMO_SCHED_BLOCKED => "BLOCKED"
  | UTAMO_SCHED_SLEEPING => "SLEEPING"
  | UTAMO_SCHED_ZOMBIE => "ZOMBIE"
  | UTAMO_SCHED_OTHER _ => "UNKNOWN"
  end.

Definition sched_ms_to_ticks (milliseconds : Z) : Z :=
  milliseconds / 10 +u (if negb (milliseconds mod 10 =? 0) then 1 else 0).

(** ** Validation *)

Section core.
(** The address of the scheduler object. *)
Variable self : Z.

(** The checks [sched_core_validate] makes on one registered task. *)
Definition task_fields_ok (s : sched) (p : Z) : bool :=
  let core := s_core s in
  let task := node s p in
  (st_owner task =? self) && (st_id task <? sc_next_id core) && state_in_enum (st_state task) &&
  (st_quantum_left task <=? sc_quantum_ticks core) &&
  ((p =? sc_current core) || (st_preempt_depth task =? 0)).

Definition task_role_ok (s : sched) (p : Z) : bool :=
  let core := s_core s in
  let task := node s p in
  if p =? sc_idle core then
    (st_id task =? 0) && (st_next task =? NULL) && (st_wake_tick task =? 0) &&
    state_eqb (st_state task)
      (if p =? sc_current core then UTAMO_SCHED_RUNNING else UTAMO_SCHED_READY)
  else negb (st_id task =? 0).

Definition task_state_ok (s : sched) (p : Z) : bool :=
  let core := s_core s in
  let task := node s p in
  match st_state task with
  | UTAMO_SCHED_RUNNING =>
      (p =? sc_current core) && (st_next task =? NULL) && (st_wake_tick task =? 0)
  | UTAMO_SCHED_READY => st_wake_tick task =? 0
  | UTAMO_SCHED_SLEEPING => (sc_now core <? st_wake_tick task) && (st_preempt_depth task =? 0)
  | _ => (st_next task =? NULL) && (st_wake_tick task =? 0) && (st_preempt_depth task =? 0)
  end.

(** The loop over the registry: [seen] holds the earlier entries, and the
    counters are those of the code. *)
Fixpoint validate_tasks (s : sched) (seen rest : list Z)
    (count ready_count sleep_count running_count : Z) : option (Z * Z * Z * Z) :=
  match rest with
  | [] => Some (count, ready_count, sleep_count, running_count)
  | p :: rest =>
      if p =? NULL then
        validate_tasks s (seen ++ [p]) rest count ready_count sleep_count running_count
      else if negb (task_fields_ok s p) then None
      else if existsb (fun q => negb (q =? NULL) &&
                ((q =? p) || (st_id (node s q) =? st_id (node s p)))) seen then None
      else if negb (task_role_ok s p) then None
      else if negb (task_state_ok s p) then None
      else
        let state := st_state (node s p) in
        let is_idle := p =? sc_idle (s_core s) in
        validate_tasks s (seen ++ [p]) rest (count + 1)
          (if state_eqb state UTAMO_SCHED_READY && negb is_idle
           then ready_count + 1 else ready_count)
          (if state_eqb state UTAMO_SCHED_SLEEPING then sleep_count + 1 else sleep_count)
          (if state_eqb state UTAMO_SCHED_RUNNING then running_count + 1 else running_count)
  end.

Definition registered (core : sched_core) (p : Z) : bool :=
  negb (task_slot core p =? UTAMO_SCHED_MAX_TASKS).

(** The walk along the ready queue: the address after the last node, and the
    last node. *)
Fixpoint validate_ready (s : sched) (steps : nat) (task last : Z) : option (Z * Z) :=
  match steps with
  | O => Some (task, last)
  | S steps =>
      if negb (registered (s_core s) task) || (task =? sc_idle (s_core s)) ||
         negb (state_eqb (st_state (node s task)) UTAMO_SCHED_READY)
      then None
      else validate_ready s steps (st_next (node s task)) task
  end.

Fixpoint validate_sleep (s : sched) (steps : nat) (task previous_deadline : Z) : option Z :=
  match steps with
  | O => Some task
  | S steps =>
      if negb (registered (s_core s) task) ||
         negb (state_eqb (st_state (node s task)) UTAMO_SCHED_SLEEPING) ||
         (st_wake_tick (node s task) <? previous_deadline)
      then None
      else validate_sleep s steps (st_next (node s task)) (st_wake_tick (node s task))
  end.

Definition sched_core_validate (s : sched) : bool :=
  let core := s_core s in
  if negb (sc_initialized core) || (sc_quantum_ticks core =? 0) || (sc_task_count core =? 0) ||
     (UTAMO_SCHED_MAX_TASKS <? sc_task_count core) || (sc_next_id core <? 2) ||
     negb (registered core (sc_idle core)) || negb (registered core (sc_current core))
  then false
  else match validate_tasks s [] (sc_tasks core) 0 0 0 0 with
  | None => false
  | Some (count, ready_count, sleep_count, running_count) =>
      let running := state_eqb (st_state (node s (sc_current core))) UTAMO_SCHED_RUNNING in
      if negb (count =? sc_task_count core) || negb (running_count =? (if running then 1 else 0)) ||
         ((running_count =? 0) && negb (sc_reschedule core))
      then false
      else match validate_ready s (Z.to_nat ready_count) (sc_ready_head core) NULL with
      | None => false
      | Some (task, last) =>
          if negb (task =? NULL) || negb (last =? sc_ready_tail core) then false
          else match validate_sleep s (Z.to_nat sleep_count) (sc_sleep_head core) 0 with
          | None => false
          | Some task => task =? NULL
          end
      end
  end.

(** ** Operations *)

Definition sched_core_init (s : sched) (idle bootstrap quantum_ticks now : Z) : sched * bool :=
  if sc_initialized (s_core s) || (idle =? NULL) || (bootstrap =? NULL) || (idle =? bootstrap) ||
     negb (st_owner (node s idle) =? NULL) || negb (st_owner (node s bootstrap) =? NULL) ||
     (quantum_ticks =? 0)
  then (s, false)
  else
    let tasks := replicate (Z.to_nat UTAMO_SCHED_MAX_TASKS) NULL in
    let s := with_core (fun _ => MkCore tasks bootstrap idle NULL NULL NULL now 2 0 0 2
                                   quantum_ticks false true) s in
    let s := upd (fun _ => MkTask self 0 UTAMO_SCHED_READY NULL 0 0 quantum_ticks 0) idle s in
    let s := upd (fun _ => MkTask self 1 UTAMO_SCHED_RUNNING NULL 0 0 quantum_ticks 0) bootstrap s in
    let core := s_core s in
    let tasks := arr_set (arr_set (sc_tasks core) 0 idle) 1 bootstrap in
    (with_core (set_registry tasks (sc_task_count core) (sc_next_id core)) s, true).

Definition ready_push (s : sched) (task : Z) : sched :=
  let s := upd (set_next NULL) task s in
  let s := upd (set_state UTAMO_SCHED_READY) task s in
  let s := upd (set_wake 0) task s in
  let core := s_core s in
  let s :=
    if negb (sc_ready_tail core =? NULL)
    then with_core (set_queues (sc_ready_head core) task) (upd (set_next task) (sc_ready_tail core) s)
    else with_core (set_queues task task) s in
  let core := s_core s in
  if (sc_current core =? sc_idle core) ||
     negb (state_eqb (st_state (node s (sc_current core))) UTAMO_SCHED_RUNNING)
  then with_core (set_reschedule true) s else s.

(** The search for a free registry slot. *)
Definition free_slot (core : sched_core) : Z := slot_from (sc_tasks core) NULL.

Definition sched_core_add (s : sched) (task : Z) : sched * bool :=
  let core := s_core s in
  if negb (sched_core_validate s) || (task =? NULL) || negb (st_owner (node s task) =? NULL) ||
     (sc_task_count core =? UTAMO_SCHED_MAX_TASKS) || (sc_next_id core =? UINT64_MAX)
  then (s, false)
  else
    let slot := free_slot core in
    let s := upd (fun _ => MkTask self (sc_next_id core) UTAMO_SCHED_READY NULL 0 0
                             (sc_quantum_ticks core) 0) task s in
    let s := with_core (set_registry (arr_set (sc_tasks core) slot task)
                          (sc_task_count core +u 1) (sc_next_id core +u 1)) s in
    (ready_push s task, true).

(** The loop of [sched_core_tick] that wakes sleepers. *)
Fixpoint wake_due (fuel : nat) (now : Z) (s : sched) : sched :=
  match fuel with
  | O => s
  | S fuel =>
      let task := sc_sleep_head (s_core s) in
      if negb (task =? NULL) && (st_wake_tick (node s task) <=? now) then
        let s := with_core (set_sleep_head (st_next (node s task))) s in
        wake_due fuel now (ready_push s task)
      else s
  end.

(** The accounting of [sched_core_tick] on the running task. *)
Definition tick_current (s : sched) : sched :=
  let cur := sc_current (s_core s) in
  if state_eqb (st_state (node s cur)) UTAMO_SCHED_RUNNING then
    let s := upd (fun t => set_run_ticks (increment (st_run_ticks t)) t) cur s in
    if negb (cur =? sc_idle (s_core s)) then
      let s := if negb (st_quantum_left (node s cur) =? 0)
               then upd (fun t => set_quantum (u32 (st_quantum_left t - 1)) t) cur s else s in
      if st_quantum_left (node s cur) =? 0 then with_core (set_reschedule true) s else s
    else s
  else s.

Definition sched_core_tick (s : sched) (now : Z) : sched * bool :=
  if negb (sched_core_validate s) || (now <? sc_now (s_core s)) then (s, false)
  else
    let s := with_core (fun c => set_clock now (increment (sc_ticks c)) c) s in
    let s := tick_current s in
    (wake_due (Z.to_nat UTAMO_SCHED_MAX_TASKS) now s, true).

Definition sched_core_select (s : sched) (force : bool) : sched * Z :=
  if negb (sched_core_validate s) then (s, NULL)
  else
    let old := sc_current (s_core s) in
    if negb (st_preempt_depth (node s old) =? 0) ||
       (negb force && negb (sc_reschedule (s_core s)) &&
        state_eqb (st_state (node s old)) UTAMO_SCHED_RUNNING)
    then (s, old)
    else
      let s := if state_eqb (st_state (node s old)) UTAMO_SCHED_RUNNING then
                 if old =? sc_idle (s_core s) then upd (set_state UTAMO_SCHED_READY) old s
                 else ready_push s old
               else s in
      let core := s_core s in
      let next := if negb (sc_ready_head core =? NULL) then sc_ready_head core else sc_idle core in
      let s := if negb (sc_ready_head core =? NULL) then
                 let head := st_next (node s next) in
                 with_core (set_queues head (if head =? NULL then NULL else sc_ready_tail core)) s
               else s in
      let s := upd (set_next NULL) next s in
      let s := upd (set_state UTAMO_SCHED_RUNNING) next s in
      let s := upd (set_wake 0) next s in
      let s := upd (set_quantum (sc_quantum_ticks (s_core s))) next s in
      let s := with_core (fun c => set_reschedule false (set_current next (sc_switches c) c)) s in
      let s := if negb (next =? old)
               then with_core (fun c => set_current (sc_current c) (increment (sc_switches c)) c) s
               else s in
      (s, next).

Definition current_can_wait (s : sched) : bool :=
  let core := s_core s in
  sched_core_validate s && negb (sc_current core =? sc_idle core) &&
  state_eqb (st_state (node s (sc_current core))) UTAMO_SCHED_RUNNING &&
  (st_preempt_depth (node s (sc_current core)) =? 0).

(** [struct sched_task **link]: the address of [core->sleep_head] or of the
    [next] field of a node. *)
Inductive link := LinkHead | LinkNext (p : Z).

Definition link_get (s : sched) (l : link) : Z :=
  match l with LinkHead => sc_sleep_head (s_core s) | LinkNext p => st_next (node s p) end.

Definition link_set (s : sched) (l : link) (v : Z) : sched :=
  match l with
  | LinkHead => with_core (set_sleep_head v) s
  | LinkNext p => upd (set_next v) p s
  end.

(** [while (keep going at *link) link = &( *link)->next;] *)
Fixpoint link_walk (fuel : nat) (go : Z -> bool) (s : sched) (l : link) : option link :=
  if go (link_get s l) then
    match fuel with
    | O => None
    | S fuel => link_walk fuel go s (LinkNext (link_get s l))
    end
  else Some l.

Definition sched_core_sleep_current (s : sched) (delay : Z) : sched * bool :=
  if negb (current_can_wait s) || (delay =? 0) || (UINT64_MAX -u sc_now (s_core s) <? delay)
  then (s, false)
  else
    let task := sc_current (s_core s) in
    let s1 := upd (set_wake (sc_now (s_core s) +u delay)) task s in
    let s1 := upd (set_state UTAMO_SCHED_SLEEPING) task s1 in
    match link_walk (Z.to_nat UTAMO_SCHED_MAX_TASKS)
            (fun p => negb (p =? NULL) && (st_wake_tick (node s1 p) <=? st_wake_tick (node s1 task)))
            s1 LinkHead with
    | None => (s, false)
    | Some l =>
        let s1 := upd (set_next (link_get s1 l)) task s1 in
        let s1 := link_set s1 l task in
        (with_core (set_reschedule true) s1, true)
    end.

Definition sched_core_block_current (s : sched) : sched * bool :=
  if negb (current_can_wait s) then (s, false)
  else
    let s := upd (set_state UTAMO_SCHED_BLOCKED) (sc_current (s_core s)) s in
    (with_core (set_reschedule true) s, true).

Definition sched_core_wake (s : sched) (task : Z) : sched * bool :=
  let state := st_state (node s task) in
  if negb (sched_core_validate s) || negb (registered (s_core s) task) ||
     (negb (state_eqb state UTAMO_SCHED_BLOCKED) && negb (state_eqb state UTAMO_SCHED_SLEEPING))
  then (s, false)
  else if state_eqb state UTAMO_SCHED_SLEEPING then
    match link_walk (Z.to_nat UTAMO_SCHED_MAX_TASKS) (fun p => negb (p =? task)) s LinkHead with
    | None => (s, false)
    | Some l => (ready_push (link_set s l (st_next (node s task))) task, true)
    end
  else (ready_push s task, true).

Definition sched_core_exit_current (s : sched) : sched * bool :=
  if negb (current_can_wait s) then (s, false)
  else
    let s := upd (set_state UTAMO_SCHED_ZOMBIE) (sc_current (s_core s)) s in
    (with_core (set_reschedule true) s, true).

Definition sched_core_remove_zombie (s : sched) (task : Z) : sched * bool :=
  if negb (sched_core_validate s) then (s, false)
  else
    let core := s_core s in
    let slot := task_slot core task in
    if (slot =? UTAMO_SCHED_MAX_TASKS) || (task =? sc_current core) || (task =? sc_idle core) ||
       negb (state_eqb (st_state (node s task)) UTAMO_SCHED_ZOMBIE)
    then (s, false)
    else
      let s := with_core (set_registry (arr_set (sc_tasks core) slot NULL)
                            (sc_task_count core -u 1) (sc_next_id core)) s in
      (upd (fun _ => task_zero) task s, true).

Definition sched_core_preempt_disable (s : sched) : sched * bool :=
  let cur := sc_current (s_core s) in
  if negb (sched_core_validate s) || negb (state_eqb (st_state (node s cur)) UTAMO_SCHED_RUNNING) ||
     (st_preempt_depth (node s cur) =? UINT32_MAX)
  then (s, false)
  else (upd (fun t => set_preempt (u32 (st_preempt_depth t + 1)) t) cur s, true).

Definition sched_core_preempt_enable (s : sched) : sched * bool :=
  let cur := sc_current (s_core s) in
  if negb (sched_core_validate s) || negb (state_eqb (st_state (node s cur)) UTAMO_SCHED_RUNNING) ||
     (st_preempt_depth (node s cur) =? 0)
  then (s, false)
  else (upd (fun t => set_preempt (u32 (st_preempt_depth t - 1)) t) cur s, true).

Definition sched_core_reschedule_pending (s : sched) : bool :=
  sched_core_validate s && sc_reschedule (s_core s) &&
  (st_preempt_depth (node s (sc_current (s_core s))) =? 0).

(** ** Snapshots *)

Record sched_snapshot := MkSnapshot {
  sn_now : Z; sn_ticks : Z; sn_switches : Z; sn_current_id : Z; sn_next_id : Z;
  sn_task_count : Z;
  sn_ready_count : Z;
  sn_sleeping_count : Z; sn_blocked_count : Z; sn_zombie_count : Z;
  sn_quantum_ticks : Z;
  sn_reschedule_pending : bool
}.

Record sched_task_snapshot := MkTaskSnapshot {
  ts_id : Z; ts_run_ticks : Z; ts_wake_tick : Z;
  ts_state : sched_state;
  ts_quantum_left : Z; ts_preempt_depth : Z;
  ts_current : bool; ts_idle : bool
}.

(** The counting loop; [None] is the [default: return false]. *)
Fixpoint snapshot_counts (s : sched) (tasks : list Z) (ready sleeping blocked zombie : Z)
    : option (Z * Z * Z * Z) :=
  match tasks with
  | [] => Some (ready, sleeping, blocked, zombie)
  | p :: rest =>
      if (p =? NULL) || (p =? sc_idle (s_core s))
      then snapshot_counts s rest ready sleeping blocked zombie
      else match st_state (node s p) with
      | UTAMO_SCHED_READY => snapshot_counts s rest (ready + 1) sleeping blocked zombie
      | UTAMO_SCHED_SLEEPING => snapshot_counts s rest ready (sleeping + 1) blocked zombie
      | UTAMO_SCHED_BLOCKED => snapshot_counts s rest ready sleeping (blocked + 1) zombie
      | UTAMO_SCHED_ZOMBIE => snapshot_counts s rest ready sleeping blocked (zombie + 1)
      | UTAMO_SCHED_RUNNING => snapshot_counts s rest ready sleeping blocked zombie
      | UTAMO_SCHED_OTHER _ => None
      end
  end.

Definition sched_core_snapshot (s : sched) : option sched_snapshot :=
  let core := s_core s in
  if negb (sched_core_validate s) then None
  else match snapshot_counts s (sc_tasks core) 0 0 0 0 with
  | None => None
  | Some (ready, sleeping, blocked, zombie) =>
      Some (MkSnapshot (sc_now core) (sc_ticks core) (sc_switches core)
        (st_id (node s (sc_current core))) (sc_next_id core) (sc_task_count core)
        ready sleeping blocked zombie (sc_quantum_ticks core) (sc_reschedule core))
  end.

Definition sched_core_task_snapshot (s : sched) (task : Z) : option sched_task_snapshot :=
  let core := s_core s in
  if negb (sched_core_validate s) || negb (registered core task) then None
  else
    let t := node s task in
    Some (MkTaskSnapshot (st_id t) (st_run_ticks t) (st_wake_tick t) (st_state t)
      (st_quantum_left t) (st_preempt_depth t) (task =? sc_current core) (task =? sc_idle core)).
End core.
