(* ===== verification/SchedInv.v ===== *)
(** * The scheduler policy: invariant and queues

    [sched_rep s rq sq] is the invariant of the scheduler: it is the property
    [sched_core_validate] decides ([validate_rep]), with the two linked queues
    made explicit as the lists [rq] (ready tasks, oldest first) and [sq]
    (sleepers, earliest deadline first). *)

From stdpp Require Import sorting.
From S2P Require Import Prelude SchedCore.
Open Scope Z_scope.

#[global] Arguments upd : simpl never.
#[global] Arguments node : simpl never.

(** ** The store *)

Lemma node_upd f p s q : node (upd f p s) q = if decide (q = p) then f (node s p) else node s q.
Proof.
  unfold node, upd. simpl. destruct (decide (q = p)) as [->|Hne].
  - by rewrite lookup_total_insert_eq.
  - by rewrite lookup_total_insert_ne.
Qed.

Lemma node_with_core f s q : node (with_core f s) q = node s q.
Proof. done. Qed.

Lemma core_upd f p s : s_core (upd f p s) = s_core s.
Proof. done. Qed.

Lemma core_with_core f s : s_core (with_core f s) = f (s_core s).
Proof. done. Qed.

Create HintDb sched discriminated.
#[export] Hint Rewrite node_upd node_with_core core_upd core_with_core : sched.

(** Read back what the assignments of an operation have written. *)
Ltac sread := autorewrite with sched in *; cbn in *.

(** ** Values fit their C types *)

Record task_typed (t : sched_task) : Prop := {
  tt_id : u64_ok (st_id t);
  tt_wake : u64_ok (st_wake_tick t);
  tt_run : u64_ok (st_run_ticks t);
  tt_quantum : 0 <= st_quantum_left t <= UINT32_MAX;
  tt_preempt : 0 <= st_preempt_depth t <= UINT32_MAX
}.

Record sched_typed (s : sched) : Prop := {
  ty_tasks : length (sc_tasks (s_core s)) = Z.to_nat UTAMO_SCHED_MAX_TASKS;
  ty_now : u64_ok (sc_now (s_core s));
  ty_next_id : u64_ok (sc_next_id (s_core s));
  ty_ticks : u64_ok (sc_ticks (s_core s));
  ty_switches : u64_ok (sc_switches (s_core s));
  ty_quantum : 0 <= sc_quantum_ticks (s_core s) <= UINT32_MAX;
  ty_nodes : forall p, task_typed (node s p)
}.

(** ** The registry *)

(** The registered tasks. *)
Definition reg (s : sched) : list Z := filter (fun p => p <> NULL) (sc_tasks (s_core s)).

Lemma slot_from_bound l p : 0 <= slot_from l p <= Z.of_nat (length l).
Proof. induction l as [|q l IH]; simpl; [lia|]. destruct (q =? p); lia. Qed.

Lemma slot_from_found l p : p ∈ l <-> slot_from l p < Z.of_nat (length l).
Proof.
  induction l as [|q l IH]; simpl; [split; [by intros ?%elem_of_nil|lia]|].
  rewrite elem_of_cons, IH. destruct (Z.eqb_spec q p); split; intros; intuition lia.
Qed.

Lemma slot_from_lookup l p : p ∈ l -> l !! Z.to_nat (slot_from l p) = Some p.
Proof.
  induction l as [|q l IH]; simpl; [by intros ?%elem_of_nil|]. intros H.
  destruct (Z.eqb_spec q p) as [->|Hne]; [done|].
  apply elem_of_cons in H as [H|H]; [congruence|]. pose proof (slot_from_bound l p).
  replace (Z.to_nat (1 + slot_from l p)) with (S (Z.to_nat (slot_from l p))) by lia. by apply IH.
Qed.

Lemma elem_of_reg s p : p ∈ reg s <-> p <> NULL /\ p ∈ sc_tasks (s_core s).
Proof. unfold reg. by rewrite list_elem_of_filter. Qed.

Lemma registered_reg s p : sched_typed s -> registered (s_core s) p = true <-> p ∈ reg s.
Proof.
  intros Hty. unfold registered, task_slot. rewrite elem_of_reg, slot_from_found.
  rewrite (ty_tasks _ Hty), negb_true_iff, Z.eqb_neq.
  pose proof (slot_from_bound (sc_tasks (s_core s)) p) as Hb. rewrite (ty_tasks _ Hty) in Hb.
  unfold UTAMO_SCHED_MAX_TASKS in *.
  destruct (Z.eqb_spec p NULL); split; intros; intuition lia.
Qed.

(** ** Linked queues *)

Fixpoint chain (s : sched) (h : Z) (l : list Z) : Prop :=
  match l with
  | [] => h = NULL
  | p :: l' => h = p /\ p <> NULL /\ chain s (st_next (node s p)) l'
  end.

Lemma chain_det s h l1 : forall l2, chain s h l1 -> chain s h l2 -> l1 = l2.
Proof.
  revert h. induction l1 as [|p l1 IH]; intros h [|q l2]; simpl; try done.
  - intros -> (-> & ? & _). done.
  - intros (-> & ? & _) ->. done.
  - intros (-> & _ & H1) (-> & _ & H2). f_equal. by apply (IH _ _ H1).
Qed.

Lemma chain_app s h l1 l2 : chain s h (l1 ++ l2) ->
  exists h', chain s h' l2.
Proof.
  revert h. induction l1 as [|p l1 IH]; intros h; simpl; [eauto|]. intros (_ & _ & H). eauto.
Qed.

(** A chain that ends cannot pass a node twice. *)
Lemma chain_NoDup s h l : chain s h l -> NoDup l.
Proof.
  revert h. induction l as [|p l IH]; intros h; simpl; [constructor|].
  intros (-> & Hp & Hc). constructor; [|by eapply IH].
  intros Hin. apply list_elem_of_split in Hin as (l1 & l2 & ->).
  destruct (chain_app s _ l1 (p :: l2) Hc) as [h' (-> & _ & Hc')].
  pose proof (chain_det _ _ _ _ Hc Hc') as E. apply (f_equal length) in E.
  rewrite length_app in E. simpl in E. lia.
Qed.

Lemma chain_frame s s' h l : (forall p, p ∈ l -> st_next (node s' p) = st_next (node s p)) ->
  chain s h l -> chain s' h l.
Proof.
  revert h. induction l as [|p l IH]; intros h Hf; simpl; [done|]. intros (-> & ? & H).
  split_and!; [done|done|]. rewrite Hf by by left. apply IH; [|done]. intros q Hq. apply Hf. by right.
Qed.

Lemma chain_not_null s h l p : chain s h l -> p ∈ l -> p <> NULL.
Proof.
  revert h. induction l as [|q l IH]; intros h; simpl; [by intros _ ?%elem_of_nil|].
  intros (_ & ? & H) [->|Hp]%elem_of_cons; [done|by eapply IH].
Qed.

Lemma chain_head s h l : chain s h l -> h = default NULL (head l).
Proof. destruct l; simpl; intuition. Qed.

Lemma chain_nil s h : chain s h [] <-> h = NULL.
Proof. done. Qed.

Lemma chain_nonempty s h l : chain s h l -> h <> NULL -> exists l', l = h :: l' /\
  chain s (st_next (node s h)) l'.
Proof. destruct l as [|p l]; simpl; [congruence|]. intros (-> & _ & H) _. eauto. Qed.

(** Splicing a node in behind [l1]. *)
Lemma chain_insert s s' h l1 l2 t : chain s h (l1 ++ l2) -> t <> NULL -> t ∉ l1 ++ l2 ->
  st_next (node s' t) = default NULL (head l2) ->
  (forall q, q ∈ l1 ++ l2 -> st_next (node s' q) =
     if decide (Some q = last l1) then t else st_next (node s q)) ->
  chain s' (default t (head l1)) (l1 ++ t :: l2).
Proof.
  intros Hc Ht Hin Hnt. revert h Hc. induction l1 as [|q l1 IH]; intros h Hc Hnext.
  - simpl in *. split_and!; [done|done|]. rewrite Hnt.
    pose proof (chain_head _ _ _ Hc) as <-. eapply chain_frame, Hc.
    intros p Hp. by rewrite Hnext.
  - simpl in Hc. destruct Hc as (-> & Hq & Hc). simpl. split_and!; [done|done|].
    assert (NoDup (q :: l1 ++ l2)) as Hnd by (eapply (chain_NoDup s q); simpl; done).
    inversion Hnd as [|? ? Hql Hnd']; subst. rewrite Hnext by by left.
    destruct l1 as [|r l1].
    + rewrite decide_True by done. apply (IH ltac:(set_solver) (st_next (node s q))); [done|].
      intros x Hx. rewrite Hnext by by right. simpl. rewrite decide_False; [done|].
      intros [= ->]. done.
    + assert (last (q :: r :: l1) = last (r :: l1)) as El by apply last_cons_cons. rewrite El in *.
      rewrite decide_False.
      * pose proof (chain_head _ _ _ Hc) as Hh. simpl in Hh. rewrite Hh in *.
        apply (IH ltac:(set_solver) r); [done|]. intros x Hx. by rewrite Hnext by by right.
      * intros E. symmetry in E. apply last_Some_elem_of in E. apply Hql, elem_of_app. by left.
Qed.

(** Unlinking the node behind [l1]. *)
Lemma chain_remove s s' h l1 l2 t : chain s h (l1 ++ t :: l2) ->
  (forall q, q ∈ l1 ++ l2 -> st_next (node s' q) =
     if decide (Some q = last l1) then st_next (node s t) else st_next (node s q)) ->
  chain s' (default (st_next (node s t)) (head l1)) (l1 ++ l2).
Proof.
  revert h. induction l1 as [|q l1 IH]; intros h Hc Hnext.
  - simpl in *. destruct Hc as (-> & _ & Hc). eapply chain_frame, Hc.
    intros p Hp. by rewrite Hnext.
  - simpl in Hc. destruct Hc as (-> & Hq & Hc). simpl. split_and!; [done|done|].
    assert (NoDup (q :: l1 ++ t :: l2)) as Hnd by (eapply (chain_NoDup s q); simpl; done).
    inversion Hnd as [|? ? Hql Hnd']; subst. rewrite Hnext by by left.
    destruct l1 as [|r l1].
    + rewrite decide_True by done. apply (IH (st_next (node s q))); [done|].
      intros x Hx. rewrite Hnext by by right. simpl. rewrite decide_False; [done|].
      intros [= ->]. apply Hql. by right.
    + assert (last (q :: r :: l1) = last (r :: l1)) as El by apply last_cons_cons. rewrite El in *.
      rewrite decide_False.
      * pose proof (chain_head _ _ _ Hc) as Hh. simpl in Hh. rewrite Hh in *.
        apply (IH r); [done|]. intros x Hx. by rewrite Hnext by by right.
      * intros E. symmetry in E. apply last_Some_elem_of in E. apply Hql, elem_of_app. by left.
Qed.

(** Appending a node whose [next] is [NULL] behind the last one. *)
Lemma chain_snoc s s' h l p : chain s h l -> p <> NULL -> p ∉ l ->
  st_next (node s' p) = NULL ->
  (forall q, q ∈ l -> st_next (node s' q) =
     if decide (Some q = last l) then p else st_next (node s q)) ->
  chain s' (default p (head l)) (l ++ [p]).
Proof.
  intros Hc Hp Hin Hnp Hnext. rewrite <- (app_nil_r l) in Hc, Hin.
  eapply chain_insert; [done|done|done|done|]. intros q. rewrite app_nil_r. apply Hnext.
Qed.

(** ** The invariant *)

Section inv.
Context (self : Z).

Definition is_ready (s : sched) (p : Z) : bool :=
  state_eqb (st_state (node s p)) UTAMO_SCHED_READY && negb (p =? sc_idle (s_core s)).
Definition is_sleeping (s : sched) (p : Z) : bool :=
  state_eqb (st_state (node s p)) UTAMO_SCHED_SLEEPING.
Definition is_running (s : sched) (p : Z) : bool :=
  state_eqb (st_state (node s p)) UTAMO_SCHED_RUNNING.

(** What holds of one registered task. *)
Record task_inv (s : sched) (p : Z) : Prop := {
  ti_owner : st_owner (node s p) = self;
  ti_id : st_id (node s p) < sc_next_id (s_core s);
  ti_quantum : st_quantum_left (node s p) <= sc_quantum_ticks (s_core s);
  ti_preempt : p <> sc_current (s_core s) -> st_preempt_depth (node s p) = 0;
  ti_idle : p = sc_idle (s_core s) -> st_id (node s p) = 0 /\ st_next (node s p) = NULL /\
    st_wake_tick (node s p) = 0 /\
    st_state (node s p) =
      (if p =? sc_current (s_core s) then UTAMO_SCHED_RUNNING else UTAMO_SCHED_READY);
  ti_nonidle : p <> sc_idle (s_core s) -> st_id (node s p) <> 0;
  ti_state : match st_state (node s p) with
    | UTAMO_SCHED_RUNNING =>
        p = sc_current (s_core s) /\ st_next (node s p) = NULL /\ st_wake_tick (node s p) = 0
    | UTAMO_SCHED_READY => st_wake_tick (node s p) = 0
    | UTAMO_SCHED_SLEEPING =>
        sc_now (s_core s) < st_wake_tick (node s p) /\ st_preempt_depth (node s p) = 0
    | UTAMO_SCHED_BLOCKED | UTAMO_SCHED_ZOMBIE =>
        st_next (node s p) = NULL /\ st_wake_tick (node s p) = 0 /\ st_preempt_depth (node s p) = 0
    | UTAMO_SCHED_OTHER _ => False
    end
}.

Record sched_rep (s : sched) (rq sq : list Z) : Prop := {
  rep_initialized : sc_initialized (s_core s) = true;
  rep_quantum : sc_quantum_ticks (s_core s) <> 0;
  rep_next_id : 2 <= sc_next_id (s_core s);
  rep_count : sc_task_count (s_core s) = Z.of_nat (length (reg s));
  rep_idle : sc_idle (s_core s) ∈ reg s;
  rep_current : sc_current (s_core s) ∈ reg s;
  rep_nodup : NoDup (reg s);
  rep_ids : forall p q, p ∈ reg s -> q ∈ reg s -> st_id (node s p) = st_id (node s q) -> p = q;
  rep_tasks : forall p, p ∈ reg s -> task_inv s p;
  (** a current task that is not running is about to be replaced *)
  rep_resched : is_running s (sc_current (s_core s)) = false -> sc_reschedule (s_core s) = true;
  rep_rq : chain s (sc_ready_head (s_core s)) rq;
  rep_tail : sc_ready_tail (s_core s) = default NULL (last rq);
  rep_ready : forall p, p ∈ rq <-> p ∈ reg s /\ is_ready s p = true;
  rep_sq : chain s (sc_sleep_head (s_core s)) sq;
  rep_sleeping : forall p, p ∈ sq <-> p ∈ reg s /\ is_sleeping s p = true;
  rep_sorted : StronglySorted (fun p q => st_wake_tick (node s p) <= st_wake_tick (node s q)) sq
}.

Lemma state_eqb_true a b : state_eqb a b = true <-> a = b.
Proof. apply bool_decide_eq_true. Qed.

Lemma state_eqb_refl a : state_eqb a a = true.
Proof. by apply state_eqb_true. Qed.

Lemma task_inv_reflect s p :
  task_fields_ok self s p && task_role_ok s p && task_state_ok s p = true <-> task_inv s p.
Proof.
  unfold task_fields_ok, task_role_ok, task_state_ok.
  rewrite !andb_true_iff, orb_true_iff, !Z.eqb_eq, Z.ltb_lt, Z.leb_le. split.
  - intros [[[[[[? ?] He] ?] Hp] Hrole] Hst]. constructor; try done.
    + intros Hne. by destruct Hp.
    + intros Hi. destruct (Z.eqb_spec p (sc_idle (s_core s))); [|done].
      rewrite !andb_true_iff, !Z.eqb_eq, state_eqb_true in Hrole. tauto.
    + intros Hi. destruct (Z.eqb_spec p (sc_idle (s_core s))); [done|].
      by apply negb_true_iff, Z.eqb_neq in Hrole.
    + destruct (st_state (node s p)); rewrite ?andb_true_iff, ?Z.eqb_eq, ?Z.ltb_lt in Hst; try tauto.
      done.
  - intros [? ? ? Hp Hi Hn Hst]. split; [split; [split; [split; [split|]|]|]|]; try done; try lia.
    + by destruct (st_state (node s p)).
    + destruct (Z.eqb_spec p (sc_idle (s_core s))) as [E|E].
      * rewrite !andb_true_iff, !Z.eqb_eq, state_eqb_true. specialize (Hi E). tauto.
      * apply negb_true_iff, Z.eqb_neq. by apply Hn.
    + destruct (st_state (node s p)); rewrite ?andb_true_iff, ?Z.eqb_eq, ?Z.ltb_lt; tauto.
Qed.

(** ** What the registry loop decides *)

Definition regs (l : list Z) : list Z := filter (fun p => p <> NULL) l.

Record tasks_ok (s : sched) (seen rest : list Z) : Prop := {
  tk_inv : forall p, p ∈ regs rest -> task_inv s p;
  tk_nodup : NoDup (regs rest);
  tk_ids : forall p q, p ∈ regs rest -> q ∈ regs rest ->
    st_id (node s p) = st_id (node s q) -> p = q;
  tk_seen : forall p q, p ∈ regs rest -> q ∈ regs seen ->
    q <> p /\ st_id (node s q) <> st_id (node s p)
}.

Lemma regs_cons p l : regs (p :: l) = if decide (p = NULL) then regs l else p :: regs l.
Proof. unfold regs. rewrite filter_cons. repeat case_decide; tauto. Qed.

Lemma elem_of_regs p l : p ∈ regs l <-> p <> NULL /\ p ∈ l.
Proof. unfold regs. by rewrite list_elem_of_filter. Qed.

Lemma seen_check s seen p :
  existsb (fun q => negb (q =? NULL) && ((q =? p) || (st_id (node s q) =? st_id (node s p)))) seen
    = false <->
  forall q, q ∈ regs seen -> q <> p /\ st_id (node s q) <> st_id (node s p).
Proof.
  rewrite <- not_true_iff_false, existsb_exists. split.
  - intros H q [Hq Hin]%elem_of_regs. split; intros E; apply H; exists q;
      rewrite <- list_elem_of_In; (split; [done|]); lia.
  - intros H (q & Hin%list_elem_of_In & Hb). rewrite andb_true_iff, orb_true_iff in Hb.
    destruct (H q ltac:(apply elem_of_regs; split; [lia|done])). lia.
Qed.

Lemma tasks_ok_cons s seen p rest : p <> NULL ->
  tasks_ok s seen (p :: rest) <->
  task_inv s p /\ (forall q, q ∈ regs seen -> q <> p /\ st_id (node s q) <> st_id (node s p)) /\
  tasks_ok s (seen ++ [p]) rest.
Proof.
  intros Hp. assert (forall q, q ∈ regs (p :: rest) <-> q = p \/ q ∈ regs rest) as He.
  { intros q. rewrite regs_cons, decide_False by done. apply elem_of_cons. }
  assert (forall q, q ∈ regs (seen ++ [p]) <-> q ∈ regs seen \/ q = p) as Hs.
  { intros q. rewrite !elem_of_regs, elem_of_app, list_elem_of_singleton. naive_solver. }
  split.
  - intros [Hi Hn Hid Hse]. rewrite regs_cons, decide_False in Hn by done.
    inversion Hn as [|? ? Hn1 Hn2]; subst. split_and!.
    + apply Hi, He. by left.
    + intros q Hq. apply Hse; [apply He; by left|done].
    + constructor; [intros; apply Hi, He; by right|done|intros; apply Hid; [apply He; by right..|done]|].
      intros q r Hq [Hr| ->]%Hs; [apply Hse; [apply He; by right|done]|].
      assert (q <> p) by congruence. split; [done|]. intros E.
      apply Hid in E; [done|apply He; by left|apply He; by right].
  - intros (Hi & Hse & [Hi' Hn Hid Hse']). constructor.
    + intros q [->|Hq]%He; [done|by apply Hi'].
    + rewrite regs_cons, decide_False by done. constructor; [|done].
      intros Hin. destruct (Hse' p p Hin ltac:(apply Hs; by right)). done.
    + intros q r [->|Hq]%He [->|Hr]%He E; [done| | |by apply Hid].
      * destruct (Hse' r p Hr ltac:(apply Hs; by right)). congruence.
      * destruct (Hse' q p Hq ltac:(apply Hs; by right)). congruence.
    + intros q r [->|Hq]%He Hr; [by apply Hse|]. apply Hse'; [done|]. apply Hs. by left.
Qed.

Lemma tasks_ok_null s seen rest : tasks_ok s seen (NULL :: rest) <-> tasks_ok s (seen ++ [NULL]) rest.
Proof.
  assert (regs (seen ++ [NULL]) = regs seen) as Hs.
  { unfold regs. rewrite filter_app, filter_cons_False by tauto. by rewrite filter_nil, app_nil_r. }
  assert (regs (NULL :: rest) = regs rest) as Hn by (by rewrite regs_cons, decide_True).
  split; intros [H1 H2 H3 H4]; constructor; rewrite ?Hn, ?Hs in *; done.
Qed.

Lemma quad_eq (a b c d a' b' c' d' : Z) : a = a' -> b = b' -> c = c' -> d = d' ->
  (a, b, c, d) = (a', b', c', d').
Proof. congruence. Qed.

Lemma tasks_ok_nil s seen : tasks_ok s seen [].
Proof.
  assert (forall p, ~ p ∈ regs []) as H by (intros p [_ ?%elem_of_nil]%elem_of_regs; done).
  constructor; try (intros p Hp; by destruct (H p)); try (intros p q Hp; by destruct (H p)).
  constructor.
Qed.

Lemma validate_tasks_sound s rest : forall seen c r sl ru res,
  validate_tasks self s seen rest c r sl ru = Some res ->
  tasks_ok s seen rest /\
  res = (c + Z.of_nat (length (regs rest)), r + count_if (is_ready s) (regs rest),
         sl + count_if (is_sleeping s) (regs rest), ru + count_if (is_running s) (regs rest)).
Proof.
  induction rest as [|p rest IH]; intros seen c r sl ru res; simpl.
  { intros [= <-]. split; [apply tasks_ok_nil|].
    by rewrite !Z.add_0_r. }
  destruct (Z.eqb_spec p NULL) as [->|Hp].
  { intros H. apply IH in H. rewrite regs_cons, decide_True, tasks_ok_null by done. done. }
  destruct (task_fields_ok self s p) eqn:E1; cbn [negb]; [|done].
  destruct (existsb _ seen) eqn:E2; [done|].
  destruct (task_role_ok s p) eqn:E3; cbn [negb]; [|done].
  destruct (task_state_ok s p) eqn:E4; cbn [negb]; [|done]. intros H.
  apply IH in H as [Hok ->]. rewrite regs_cons, decide_False by done. split.
  - apply tasks_ok_cons; [done|]. split_and!; [|by apply seen_check|done].
    apply task_inv_reflect. by rewrite E1, E3, E4.
  - simpl. unfold is_ready, is_sleeping, is_running.
    repeat match goal with |- context [if ?b then _ else _] => destruct b end; apply quad_eq; lia.
Qed.

Lemma validate_tasks_complete s rest : forall seen c r sl ru,
  tasks_ok s seen rest ->
  validate_tasks self s seen rest c r sl ru =
    Some (c + Z.of_nat (length (regs rest)), r + count_if (is_ready s) (regs rest),
          sl + count_if (is_sleeping s) (regs rest), ru + count_if (is_running s) (regs rest)).
Proof.
  induction rest as [|p rest IH]; intros seen c r sl ru Hok; simpl.
  { by rewrite !Z.add_0_r. }
  destruct (Z.eqb_spec p NULL) as [->|Hp].
  { apply tasks_ok_null in Hok. rewrite IH by done. by rewrite regs_cons, decide_True. }
  apply tasks_ok_cons in Hok as (Hinv & Hseen & Hok); [|done].
  apply task_inv_reflect in Hinv. rewrite !andb_true_iff in Hinv. destruct Hinv as [[-> ->] ->].
  apply seen_check in Hseen. rewrite Hseen. cbn [negb].
  rewrite IH by done. rewrite regs_cons, decide_False by done. simpl.
  unfold is_ready, is_sleeping, is_running.
  repeat match goal with |- context [if ?b then _ else _] => destruct b end; f_equal; apply quad_eq; lia.
Qed.

(** ** What the queue walks decide *)

Lemma validate_ready_sound s : sched_typed s -> forall n h last0 t l,
  validate_ready s n h last0 = Some (t, l) -> t = NULL ->
  exists rq, chain s h rq /\ length rq = n /\ l = default last0 (last rq) /\
    forall p, p ∈ rq -> p ∈ reg s /\ is_ready s p = true.
Proof.
  intros Hty. induction n as [|n IH]; intros h last0 t l; simpl.
  { intros [= -> ->] ->. exists []. split_and!; try done. by intros p ?%elem_of_nil. }
  destruct (registered _ h) eqn:Er; cbn [negb orb]; [|done].
  apply registered_reg in Er; [|done].
  destruct (Z.eqb_spec h (sc_idle (s_core s))) as [|Hi]; cbn [orb]; [done|].
  destruct (state_eqb _ _) eqn:Es; cbn [negb]; [|done]. intros H Ht.
  destruct (IH _ _ _ _ H Ht) as (rq & Hc & Hl & Hlast & Hall). exists (h :: rq). split_and!.
  - simpl. apply elem_of_reg in Er as [? _]. done.
  - simpl. lia.
  - rewrite Hlast. destruct rq; [done|]. rewrite last_cons_cons.
    destruct (last (z :: rq)) eqn:E; [done|]. by apply last_None in E.
  - intros p [->|Hp]%elem_of_cons; [|by apply Hall]. split; [done|]. unfold is_ready.
    rewrite Es. by apply negb_true_iff, Z.eqb_neq.
Qed.

Lemma validate_ready_complete s rq : sched_typed s -> forall h last0,
  chain s h rq -> (forall p, p ∈ rq -> p ∈ reg s /\ is_ready s p = true) ->
  validate_ready s (length rq) h last0 = Some (NULL, default last0 (last rq)).
Proof.
  intros Hty. induction rq as [|p rq IH]; intros h last0 Hc Hall; simpl in *.
  { by rewrite Hc. }
  destruct Hc as (-> & Hp & Hc). destruct (Hall p ltac:(by left)) as [Hr Hrd].
  unfold is_ready in Hrd. apply andb_true_iff in Hrd as [-> Hi%negb_true_iff].
  apply registered_reg in Hr; [|done]. rewrite Hr, Hi. cbn [negb orb].
  rewrite IH; [|done|intros q Hq; apply Hall; by right].
  destruct rq as [|q rq]; [done|]. rewrite last_cons_cons.
  destruct (last (q :: rq)) eqn:E; [done|]. by apply last_None in E.
Qed.

Lemma validate_sleep_sound s : sched_typed s -> forall n h d t,
  validate_sleep s n h d = Some t -> t = NULL ->
  exists sq, chain s h sq /\ length sq = n /\
    (forall p, p ∈ sq -> p ∈ reg s /\ is_sleeping s p = true /\ d <= st_wake_tick (node s p)) /\
    StronglySorted (fun p q => st_wake_tick (node s p) <= st_wake_tick (node s q)) sq.
Proof.
  intros Hty. induction n as [|n IH]; intros h d t; simpl.
  { intros [= ->] ->. exists []. split_and!; try done; [by intros p ?%elem_of_nil|constructor]. }
  destruct (registered _ h) eqn:Er; cbn [negb orb]; [|done].
  apply registered_reg in Er; [|done].
  destruct (state_eqb _ _) eqn:Es; cbn [negb orb]; [|done].
  destruct (Z.ltb_spec (st_wake_tick (node s h)) d); [done|]. intros H' Ht.
  destruct (IH _ _ _ H' Ht) as (sq & Hc & Hl & Hall & Hs). exists (h :: sq). split_and!.
  - simpl. apply elem_of_reg in Er as [? _]. done.
  - simpl. lia.
  - intros p [->|Hp]%elem_of_cons; [done|]. destruct (Hall p Hp) as (?&?&?). split_and!; [done|done|lia].
  - constructor; [done|]. apply Forall_forall. intros q Hq. by apply Hall.
Qed.

Lemma validate_sleep_complete s sq : sched_typed s -> forall h d,
  chain s h sq ->
  (forall p, p ∈ sq -> p ∈ reg s /\ is_sleeping s p = true /\ d <= st_wake_tick (node s p)) ->
  StronglySorted (fun p q => st_wake_tick (node s p) <= st_wake_tick (node s q)) sq ->
  validate_sleep s (length sq) h d = Some NULL.
Proof.
  intros Hty. induction sq as [|p sq IH]; intros h d Hc Hall Hs; simpl in *.
  { by rewrite Hc. }
  destruct Hc as (-> & Hp & Hc). destruct (Hall p ltac:(by left)) as (Hr & Hrd & Hd).
  unfold is_sleeping in Hrd. rewrite Hrd. apply registered_reg in Hr; [|done]. rewrite Hr.
  cbn [negb orb]. destruct (Z.ltb_spec (st_wake_tick (node s p)) d); [lia|].
  inversion Hs as [|? ? Hs1 Hs2]; subst. rewrite Forall_forall in Hs2. apply IH; [done| |done].
  intros q Hq. destruct (Hall q ltac:(by right)) as (?&?&_). split_and!; [done|done|by apply Hs2].
Qed.

(** ** Validation decides the invariant *)

Lemma count_if_length (f : Z -> bool) l :
  count_if f l = Z.of_nat (length (filter (fun p => f p = true) l)).
Proof.
  induction l as [|x l IH]; [done|]. rewrite filter_cons. simpl.
  destruct (f x); case_decide; try done; simpl; lia.
Qed.

Lemma queue_is_full (f : Z -> bool) l q : NoDup q -> NoDup l ->
  (forall p, p ∈ q -> p ∈ l /\ f p = true) ->
  (Z.of_nat (length q) = count_if f l <-> forall p, p ∈ q <-> p ∈ l /\ f p = true).
Proof.
  intros Hq Hl Hsub. rewrite count_if_length.
  assert (forall p, p ∈ filter (fun p => f p = true) l <-> p ∈ l /\ f p = true) as Hf.
  { intros p. rewrite list_elem_of_filter. tauto. }
  assert (NoDup (filter (fun p => f p = true) l)) by by apply NoDup_filter.
  split.
  - intros Hlen. assert (q ≡ₚ filter (fun p => f p = true) l) as Hp.
    { apply submseteq_length_Permutation; [|lia]. apply NoDup_submseteq; [done|].
      intros p Hp. by apply Hf, Hsub. }
    intros p. by rewrite Hp, Hf.
  - intros Hall. f_equal. apply Permutation_length, NoDup_Permutation; [done|done|].
    intros p. by rewrite Hall, Hf.
Qed.

Lemma count_if_unique (f : Z -> bool) l x : NoDup l -> x ∈ l ->
  (forall p, p ∈ l -> f p = true -> p = x) -> count_if f l = if f x then 1 else 0.
Proof.
  induction l as [|y l IH]; intros Hn Hx Hu; [by apply elem_of_nil in Hx|]. simpl.
  inversion Hn as [|? ? Hy Hn']; subst.
  destruct (decide (x = y)) as [->|Hne].
  - rewrite (count_if_none f l); [destruct (f y); lia|]. intros p Hp.
    destruct (f p) eqn:E; [|done]. apply Hu in E; [congruence|by right].
  - apply elem_of_cons in Hx as [?|Hx]; [done|].
    rewrite IH; [|done|done|intros p Hp; apply Hu; by right].
    destruct (f y) eqn:E; [|lia]. apply Hu in E; [congruence|by left].
Qed.

Lemma filter_length_le (l : list Z) : Z.of_nat (length (filter (fun p => p <> NULL) l)) <= Z.of_nat (length l).
Proof. pose proof (length_filter (fun p => p <> NULL) l). lia. Qed.

Lemma elem_of_reg_length s p : p ∈ reg s -> 0 < Z.of_nat (length (reg s)).
Proof. destruct (reg s); [by intros ?%elem_of_nil|simpl; lia]. Qed.

Lemma validate_rep s : sched_typed s ->
  sched_core_validate self s = true <-> exists rq sq, sched_rep s rq sq.
Proof.
  intros Hty. split.
  - unfold sched_core_validate. destruct (_ || _) eqn:G; [done|].
    repeat rewrite orb_false_iff in G. rewrite !negb_false_iff, !registered_reg in G by done.
    destruct G as [[[[[[? ?] ?] ?] ?] Hi] Hcur].
    destruct (validate_tasks _ _ _ _ _ _ _ _) as [res|] eqn:Ev; [|done].
    apply validate_tasks_sound in Ev as [[Hinv Hnd Hids _] ->].
    change (regs (sc_tasks (s_core s))) with (reg s) in *.
    fold (is_running s (sc_current (s_core s))).
    destruct (_ || _) eqn:G2; [done|]. rewrite !orb_false_iff, !negb_false_iff in G2.
    destruct G2 as [[Hcount Hrun] Hres].
    destruct (validate_ready _ _ _ _) as [[t l]|] eqn:Er; [|done].
    destruct (negb _ || _) eqn:G3; [done|]. rewrite orb_false_iff, !negb_false_iff, !Z.eqb_eq in G3.
    destruct G3 as [-> Ht]. destruct (validate_sleep _ _ _ _) as [t'|] eqn:Es; [|done].
    intros Ht'%Z.eqb_eq.
    apply validate_ready_sound in Er as (rq & Hrc & Hrl & Hrt & Hrall); [|done|done].
    apply validate_sleep_sound in Es as (sq & Hsc & Hsl & Hsall & Hss); [|done|done].
    pose proof (count_if_bounds (is_ready s) (reg s)).
    pose proof (count_if_bounds (is_sleeping s) (reg s)).
    exists rq, sq. constructor; try done; try lia.
    + intros Hr. rewrite Hr in Hrun. destruct (sc_reschedule (s_core s)); [done|].
      rewrite andb_true_r in Hres. lia.
    + apply queue_is_full; try done; [by eapply chain_NoDup|]. lia.
    + apply queue_is_full; try done; [by eapply chain_NoDup|intros p Hp; by destruct (Hsall p Hp) as (?&?&_)|].
      lia.
  - intros (rq & sq & H). unfold sched_core_validate.
    pose proof (filter_length_le (sc_tasks (s_core s))) as Hreg. rewrite (ty_tasks _ Hty) in Hreg.
    fold (reg s) in Hreg. pose proof (elem_of_reg_length _ _ (rep_idle _ _ _ H)) as Hpos.
    pose proof (rep_count _ _ _ H) as Hcount. pose proof (rep_next_id _ _ _ H).
    pose proof (rep_quantum _ _ _ H).
    destruct (_ || _) eqn:G; [exfalso|].
    { repeat rewrite orb_true_iff in G.
      rewrite (rep_initialized _ _ _ H), !negb_true_iff, <- !not_true_iff_false, !registered_reg in G by done.
      pose proof (rep_idle _ _ _ H). pose proof (rep_current _ _ _ H).
      unfold UTAMO_SCHED_MAX_TASKS in *. intuition (done || lia). }
    rewrite validate_tasks_complete; cycle 1.
    { constructor; try apply H. intros p q _ [_ ?%elem_of_nil]%elem_of_regs. done. }
    fold (regs (sc_tasks (s_core s))) (reg s) (is_running s (sc_current (s_core s))).
    change (regs (sc_tasks (s_core s))) with (reg s).
    rewrite !Z.add_0_l, Hcount, Z.eqb_refl.
    rewrite (count_if_unique (is_running s) (reg s) (sc_current (s_core s))); [|apply H|apply H|]; cycle 1.
    { intros p Hp Hr. unfold is_running in Hr. apply state_eqb_true in Hr.
      pose proof (ti_state _ _ (rep_tasks _ _ _ H p Hp)) as Hst. rewrite Hr in Hst. apply Hst. }
    rewrite Z.eqb_refl. cbn [negb orb].
    destruct (is_running s (sc_current (s_core s))) eqn:Erun; cbn [Z.eqb andb negb];
      [|rewrite (rep_resched _ _ _ H Erun); cbn [negb]].
    all: rewrite <- (proj2 (queue_is_full (is_ready s) (reg s) rq (chain_NoDup _ _ _ (rep_rq _ _ _ H))
           (rep_nodup _ _ _ H) (fun p => proj1 (rep_ready _ _ _ H p))) (rep_ready _ _ _ H)).
    all: rewrite <- (proj2 (queue_is_full (is_sleeping s) (reg s) sq (chain_NoDup _ _ _ (rep_sq _ _ _ H))
           (rep_nodup _ _ _ H) (fun p => proj1 (rep_sleeping _ _ _ H p))) (rep_sleeping _ _ _ H)).
    all: rewrite !Nat2Z.id, (validate_ready_complete s rq Hty _ _ (rep_rq _ _ _ H)
           (fun p => proj1 (rep_ready _ _ _ H p))).
    all: rewrite (rep_tail _ _ _ H), !Z.eqb_refl; cbn [negb orb].
    all: rewrite (validate_sleep_complete s sq Hty _ _ (rep_sq _ _ _ H)); [done| |apply H].
    all: intros p Hp; apply (rep_sleeping _ _ _ H) in Hp as [? ?]; split_and!; try done; apply Hty.
Qed.
End inv.
