(* ===== verification/SchedOps.v ===== *)
(** * The scheduler policy: queue operations

    [ready_push] and the walks along the sleepers, which all operations
    share.  An operation first takes a task out of the picture (the [hole] of
    [queues]), then puts it back. *)

From stdpp Require Import sorting.
From S2P Require Import Prelude SchedCore SchedInv.
Open Scope Z_scope.

Lemma StronglySorted_impl_in {A} (R S : A -> A -> Prop) l :
  (forall x y, x ∈ l -> y ∈ l -> R x y -> S x y) -> StronglySorted R l -> StronglySorted S l.
Proof.
  induction l as [|a l IH]; intros H Hs; [constructor|]. inversion Hs as [|? ? H1 H2]; subst.
  rewrite Forall_forall in H2. constructor.
  - apply IH; [|done]. intros. apply H; [by right|by right|done].
  - apply Forall_forall. intros y Hy. apply H; [by left|by right|by apply H2].
Qed.

Section queue.
Context (self : Z).

(** ** Parts of the invariant *)

Record sched_base (s : sched) : Prop := {
  base_initialized : sc_initialized (s_core s) = true;
  base_quantum : sc_quantum_ticks (s_core s) <> 0;
  base_next_id : 2 <= sc_next_id (s_core s);
  base_count : sc_task_count (s_core s) = Z.of_nat (length (reg s));
  base_idle : sc_idle (s_core s) ∈ reg s;
  base_current : sc_current (s_core s) ∈ reg s;
  base_nodup : NoDup (reg s);
  base_ids : forall p q, p ∈ reg s -> q ∈ reg s -> st_id (node s p) = st_id (node s q) -> p = q
}.

(** Both queues, for all tasks but [hole] ([NULL] when there is none). *)
Record queues (s : sched) (hole : Z) (rq sq : list Z) : Prop := {
  qu_rq : chain s (sc_ready_head (s_core s)) rq;
  qu_tail : sc_ready_tail (s_core s) = default NULL (last rq);
  qu_ready : forall p, p ∈ rq <-> p ∈ reg s /\ p <> hole /\ is_ready s p = true;
  qu_sq : chain s (sc_sleep_head (s_core s)) sq;
  qu_sleeping : forall p, p ∈ sq <-> p ∈ reg s /\ p <> hole /\ is_sleeping s p = true;
  qu_sorted : StronglySorted (fun p q => st_wake_tick (node s p) <= st_wake_tick (node s q)) sq
}.

Lemma reg_not_null s p : p ∈ reg s -> p <> NULL.
Proof. by intros [? _]%elem_of_reg. Qed.

Lemma rep_parts s rq sq : sched_rep self s rq sq <->
  sched_base s /\ queues s NULL rq sq /\ (forall p, p ∈ reg s -> task_inv self s p) /\
  (is_running s (sc_current (s_core s)) = false -> sc_reschedule (s_core s) = true).
Proof.
  split.
  - intros []. split_and!; try done; constructor; try done.
    + intros p. rewrite rep_ready. split; [|tauto]. intros [Hp ?]. pose proof (reg_not_null _ _ Hp). tauto.
    + intros p. rewrite rep_sleeping. split; [|tauto]. intros [Hp ?]. pose proof (reg_not_null _ _ Hp). tauto.
  - intros ([] & [] & ? & ?). constructor; try done.
    + intros p. rewrite qu_ready0. split; [tauto|]. intros [Hp ?]. pose proof (reg_not_null _ _ Hp). tauto.
    + intros p. rewrite qu_sleeping0. split; [tauto|]. intros [Hp ?]. pose proof (reg_not_null _ _ Hp). tauto.
Qed.

(** The fields of the scheduler object that queue operations leave alone. *)
Definition same_core (s' s : sched) : Prop :=
  sc_tasks (s_core s') = sc_tasks (s_core s) /\ sc_current (s_core s') = sc_current (s_core s) /\
  sc_idle (s_core s') = sc_idle (s_core s) /\ sc_now (s_core s') = sc_now (s_core s) /\
  sc_next_id (s_core s') = sc_next_id (s_core s) /\
  sc_task_count (s_core s') = sc_task_count (s_core s) /\
  sc_quantum_ticks (s_core s') = sc_quantum_ticks (s_core s) /\
  sc_initialized (s_core s') = sc_initialized (s_core s).

Lemma same_core_reg s' s : same_core s' s -> reg s' = reg s.
Proof. intros (H&_). unfold reg. by rewrite H. Qed.

Lemma base_frame s' s : same_core s' s -> (forall p, p ∈ reg s -> st_id (node s' p) = st_id (node s p)) ->
  sched_base s -> sched_base s'.
Proof.
  intros Hc Hid []. pose proof (same_core_reg _ _ Hc) as Hr.
  destruct Hc as (E1&E2&E3&E4&E5&E6&E7&E8). constructor; rewrite ?Hr, ?E2, ?E3, ?E5, ?E6, ?E7, ?E8; try done.
  intros p q Hp Hq. rewrite !Hid by done. by apply base_ids0.
Qed.

(** A task's invariant depends on its own node and on the core's fields; the
    [next] field of a queued task is free to change. *)
Lemma task_inv_frame s' s p : same_core s' s ->
  (node s' p = node s p \/
   exists v, node s' p = set_next v (node s p) /\ (is_ready s p = true \/ is_sleeping s p = true)) ->
  task_inv self s p -> task_inv self s' p.
Proof.
  intros (E1&E2&E3&E4&E5&E6&E7&E8) [E|(v & E & Hr)] [].
  - constructor; rewrite ?E, ?E2, ?E3, ?E4, ?E5, ?E7; done.
  - assert (p <> sc_idle (s_core s) /\ (st_state (node s p) = UTAMO_SCHED_READY \/
      st_state (node s p) = UTAMO_SCHED_SLEEPING)) as [Hi Hs].
    { destruct Hr as [[Hs%state_eqb_true Hi%negb_true_iff%Z.eqb_neq]%andb_true_iff|Hs%state_eqb_true];
        [tauto|]. split; [|tauto]. intros Hi. destruct (ti_idle Hi) as (_&_&_&Hs').
      rewrite Hs in Hs'. by destruct (p =? sc_current (s_core s)). }
    constructor; rewrite ?E, ?E2, ?E3, ?E4, ?E5, ?E7; try done.
    simpl. destruct Hs as [Hs|Hs]; rewrite Hs in *; done.
Qed.

(** ** ready_push *)

Section push.
Context (s : sched) (p : Z).
Context (Htail : sc_ready_tail (s_core s) <> p).

Lemma ready_push_node q : node (ready_push s p) q =
  if decide (q = p) then set_wake 0 (set_state UTAMO_SCHED_READY (set_next NULL (node s p)))
  else if decide (sc_ready_tail (s_core s) <> NULL /\ q = sc_ready_tail (s_core s))
  then set_next p (node s q) else node s q.
Proof using Htail.
  unfold ready_push. cbv zeta.
  match goal with |- context [if ?b then with_core (set_reschedule true) _ else _] => destruct b end;
  rewrite ?node_with_core; autorewrite with sched;
  (destruct (Z.eqb_spec (sc_ready_tail (s_core s)) NULL) as [E|E]; cbn [negb];
   autorewrite with sched; repeat case_decide; subst; try tauto; try congruence; try done).
Qed.

Lemma ready_push_core :
  same_core (ready_push s p) s /\
  sc_ready_head (s_core (ready_push s p)) =
    (if sc_ready_tail (s_core s) =? NULL then p else sc_ready_head (s_core s)) /\
  sc_ready_tail (s_core (ready_push s p)) = p /\
  sc_sleep_head (s_core (ready_push s p)) = sc_sleep_head (s_core s) /\
  sc_ticks (s_core (ready_push s p)) = sc_ticks (s_core s) /\
  sc_switches (s_core (ready_push s p)) = sc_switches (s_core s).
Proof.
  unfold ready_push. cbv zeta.
  match goal with |- context [if ?b then with_core (set_reschedule true) _ else _] => destruct b end;
    autorewrite with sched; destruct (sc_ready_tail (s_core s) =? NULL); by repeat split.
Qed.

Lemma ready_push_resched :
  (sc_reschedule (s_core s) = true -> sc_reschedule (s_core (ready_push s p)) = true) /\
  (is_running (ready_push s p) (sc_current (s_core s)) = false ->
   sc_reschedule (s_core (ready_push s p)) = true).
Proof.
  unfold is_running, ready_push. cbv zeta. rewrite !core_upd.
  match goal with |- context [if ?b then with_core (set_reschedule true) _ else _] =>
    destruct b eqn:Eb end; [done|].
  apply orb_false_iff in Eb as [_ Eb%negb_false_iff].
  destruct (sc_ready_tail (s_core s) =? NULL); cbn [negb] in *;
    split; unfold with_core, upd, node, set_queues in *; cbn in *; congruence.
Qed.
End push.

(** What holds of a task whatever its state. *)
Record task_base (s : sched) (p : Z) : Prop := {
  tb_owner : st_owner (node s p) = self;
  tb_id : st_id (node s p) < sc_next_id (s_core s);
  tb_quantum : st_quantum_left (node s p) <= sc_quantum_ticks (s_core s);
  tb_preempt : p <> sc_current (s_core s) -> st_preempt_depth (node s p) = 0;
  tb_nonidle : st_id (node s p) <> 0
}.

Lemma inv_base s p : p <> sc_idle (s_core s) -> task_inv self s p -> task_base s p.
Proof. intros Hi []. constructor; auto. Qed.

Lemma queue_members s hole rq sq : queues s hole rq sq ->
  hole ∉ rq /\ hole ∉ sq /\ (forall p, p ∈ rq -> p ∉ sq) /\ sc_ready_tail (s_core s) <> hole \/ hole = NULL.
Proof.
  intros []. destruct (decide (hole = NULL)); [by right|left].
  assert (hole ∉ rq) as Hr by (rewrite qu_ready0; tauto). split_and!.
  - done.
  - rewrite qu_sleeping0. tauto.
  - intros p (_ & _ & H)%qu_ready0 (_ & _ & H')%qu_sleeping0. unfold is_ready, is_sleeping in *.
    apply andb_true_iff in H as [H%state_eqb_true _]. rewrite H in H'. done.
  - rewrite qu_tail0. destruct (last rq) eqn:E; simpl; [|done].
    apply last_Some_elem_of in E. congruence.
Qed.

(** No task is in both queues. *)
Lemma queue_members' s rq sq : queues s NULL rq sq -> forall p, p ∈ rq -> p ∉ sq.
Proof.
  intros [] p (_ & _ & H)%qu_ready0 (_ & _ & H')%qu_sleeping0. unfold is_ready, is_sleeping in *.
  apply andb_true_iff in H as [H%state_eqb_true _]. rewrite H in H'. done.
Qed.

Section push_rep.
Context (s : sched) (p : Z) (rq sq : list Z).
Context (Hbase : sched_base s) (Hq : queues s p rq sq) (Hreg : p ∈ reg s).
Context (Hidle : p <> sc_idle (s_core s)).

Lemma push_tail : sc_ready_tail (s_core s) <> p.
Proof using All.
  destruct (queue_members _ _ _ _ Hq) as [H|H]; [apply H|]. by apply reg_not_null in Hreg.
Qed.

(** Nodes after the push, by role. *)
Lemma push_node_self :
  node (ready_push s p) p = set_wake 0 (set_state UTAMO_SCHED_READY (set_next NULL (node s p))).
Proof using All. rewrite ready_push_node by apply push_tail. by rewrite decide_True. Qed.

Lemma push_node_other q : q <> p ->
  node (ready_push s p) q = node s q \/
  node (ready_push s p) q = set_next p (node s q) /\ last rq = Some q.
Proof using All.
  intros Hne. rewrite ready_push_node by apply push_tail. rewrite decide_False by done.
  case_decide as Hd; [right|by left]. split; [done|]. destruct Hd as [Hn ->].
  rewrite (qu_tail _ _ _ _ Hq) in *. by destruct (last rq).
Qed.

Lemma push_other_ready q : q <> p -> last rq = Some q -> is_ready s q = true.
Proof using All. intros _ E%last_Some_elem_of. by apply (qu_ready _ _ _ _ Hq) in E as (_ & _ & ?). Qed.

Lemma push_state q : q <> p ->
  st_state (node (ready_push s p) q) = st_state (node s q) /\
  st_wake_tick (node (ready_push s p) q) = st_wake_tick (node s q) /\
  st_id (node (ready_push s p) q) = st_id (node s q).
Proof using All. intros Hne. by destruct (push_node_other q Hne) as [->|[-> _]]. Qed.

Lemma push_queues : queues (ready_push s p) NULL (rq ++ [p]) sq.
Proof using All.
  pose proof (ready_push_core s p) as (Hsame & Hh & Ht & Hsl & _).
  pose proof (same_core_reg _ _ Hsame) as Hr. pose proof Hsame as (_ & _ & Ei & _).
  destruct (queue_members _ _ _ _ Hq) as [(Hprq & Hpsq & Hdis & _)|E];
    [|by apply reg_not_null in Hreg].
  pose proof (reg_not_null _ _ Hreg) as Hnull. constructor.
  - rewrite Hh, (qu_tail _ _ _ _ Hq).
    pose proof (chain_snoc s (ready_push s p) _ rq p (qu_rq _ _ _ _ Hq) Hnull Hprq) as Hc.
    assert ((if default NULL (last rq) =? NULL then p else sc_ready_head (s_core s)) =
            default p (head rq)) as ->.
    { pose proof (chain_head _ _ _ (qu_rq _ _ _ _ Hq)) as ->.
      destruct rq as [|x l]; [done|]. destruct (last (x :: l)) as [z|] eqn:E; [|by apply last_None in E].
      apply last_Some_elem_of in E. apply (chain_not_null _ _ _ _ (qu_rq _ _ _ _ Hq)) in E.
      simpl. by destruct (Z.eqb_spec z NULL). }
    apply Hc; [by rewrite push_node_self|]. intros q Hq'.
    assert (q <> p) by congruence. rewrite ready_push_node by apply push_tail.
    rewrite (decide_False (P := q = p)) by done. rewrite (qu_tail _ _ _ _ Hq).
    pose proof (chain_not_null _ _ _ _ (qu_rq _ _ _ _ Hq) Hq').
    destruct (last rq) as [z|] eqn:El; simpl.
    + destruct (decide (q = z)) as [->|Hne]; [|by rewrite !decide_False by (congruence || tauto)].
      by rewrite !decide_True.
    + repeat case_decide; intuition congruence.
  - by rewrite Ht, last_snoc.
  - intros q. rewrite elem_of_app, list_elem_of_singleton, Hr, (qu_ready _ _ _ _ Hq).
    unfold is_ready. rewrite Ei. destruct (decide (q = p)) as [->|Hne].
    + rewrite push_node_self. simpl. destruct (Z.eqb_spec p (sc_idle (s_core s))); [done|]. tauto.
    + destruct (push_state q Hne) as [-> _]. split; [|tauto].
      intros [?|?]; [|done]. pose proof (reg_not_null s q). tauto.
  - rewrite Hsl. eapply chain_frame, Hq. intros q Hin.
    assert (q <> p) by congruence. destruct (push_node_other q) as [->|[_ E]]; [done|done|].
    exfalso. apply last_Some_elem_of in E. by apply (Hdis q).
  - intros q. rewrite Hr, (qu_sleeping _ _ _ _ Hq). unfold is_sleeping.
    destruct (decide (q = p)) as [->|Hne].
    + rewrite push_node_self. simpl. intuition done.
    + destruct (push_state q Hne) as [-> _]. pose proof (reg_not_null s q). tauto.
  - eapply StronglySorted_impl_in; [|apply Hq]. intros x y Hx Hy.
    assert (x <> p /\ y <> p) as [Hxp Hyp] by (split; congruence).
    destruct (push_state x Hxp) as (_ & -> & _), (push_state y Hyp) as (_ & -> & _). done.
Qed.

Lemma push_self_inv : task_base s p -> task_inv self (ready_push s p) p.
Proof using All.
  intros []. pose proof (ready_push_core s p) as ((_&E2&E3&E4&E5&_&E7&_) & _).
  constructor; rewrite ?push_node_self, ?E2, ?E3, ?E4, ?E5, ?E7; done.
Qed.

Lemma push_other_inv q : q <> p -> task_inv self s q -> task_inv self (ready_push s p) q.
Proof using All.
  intros Hne. pose proof (ready_push_core s p) as (Hsame & _). apply task_inv_frame; [done|].
  destruct (push_node_other q Hne) as [->|[-> E]]; [by left|right].
  exists p. split; [done|]. left. by eapply push_other_ready.
Qed.

Lemma push_base : sched_base (ready_push s p).
Proof using All.
  pose proof (ready_push_core s p) as (Hsame & _). apply (base_frame _ s); [done| |done]. intros q _.
  destruct (decide (q = p)) as [->|Hne]; [by rewrite push_node_self|by apply push_state].
Qed.

(** Putting a task at the end of the ready queue restores the invariant. *)
Lemma ready_push_rep :
  (forall q, q ∈ reg s -> q <> p -> task_inv self s q) -> task_base s p ->
  (p <> sc_current (s_core s) -> is_running s (sc_current (s_core s)) = false ->
   sc_reschedule (s_core s) = true) ->
  sched_rep self (ready_push s p) (rq ++ [p]) sq.
Proof using All.
  intros Hinv Hp Hres. pose proof (ready_push_core s p) as (Hsame & _).
  pose proof (same_core_reg _ _ Hsame) as Hr. apply rep_parts. split_and!.
  - apply push_base.
  - apply push_queues.
  - intros q. rewrite Hr. intros Hq'. destruct (decide (q = p)) as [->|Hne].
    + by apply push_self_inv.
    + apply push_other_inv; [done|by apply Hinv].
  - destruct Hsame as (_ & -> & _). apply ready_push_resched.
Qed.
End push_rep.
End queue.

(** ** Walking along the sleepers *)

(** The link behind the nodes [l1]. *)
Definition link_after (lk : link) (l1 : list Z) : link :=
  match last l1 with None => lk | Some p => LinkNext p end.

Lemma link_walk_spec s go sq : forall lk fuel,
  chain s (link_get s lk) sq -> (length sq <= fuel)%nat ->
  (go NULL = false \/ exists p, p ∈ sq /\ go p = false) ->
  exists l1 l2, sq = l1 ++ l2 /\ (forall p, p ∈ l1 -> go p = true) /\
    go (default NULL (head l2)) = false /\ link_walk fuel go s lk = Some (link_after lk l1).
Proof.
  induction sq as [|p sq IH]; intros lk fuel Hc Hf Hgo.
  - simpl in Hc. destruct Hgo as [Hgo|(p & ?%elem_of_nil & _)]; [|done].
    exists [], []. split_and!; [done|by intros ? ?%elem_of_nil|done|].
    destruct fuel; simpl; by rewrite Hc, Hgo.
  - simpl in Hc. destruct Hc as (Hp & ? & Hc). destruct (go p) eqn:E.
    + destruct fuel as [|fuel]; [simpl in Hf; lia|]. simpl. rewrite Hp, E.
      destruct (IH (LinkNext p) fuel) as (l1 & l2 & -> & Hl1 & Hl2 & Hw); [done|simpl in Hf; lia| |].
      { destruct Hgo as [?|(q & Hq & ?)]; [by left|right].
        apply elem_of_cons in Hq as [->|Hq]; [congruence|eauto]. }
      exists (p :: l1), l2. split_and!; [done| |done|].
      * intros q [->|Hq]%elem_of_cons; [done|by apply Hl1].
      * rewrite Hw. unfold link_after. destruct l1 as [|r l1]; [done|].
        rewrite last_cons_cons. destruct (last (r :: l1)) eqn:El; [done|]. by apply last_None in El.
    + exists [], (p :: sq). split_and!; [done|by intros ? ?%elem_of_nil|done|].
      destruct fuel; simpl; by rewrite Hp, E.
Qed.

(** ** Registry updates *)

Lemma regs_perm_insert l i p : l !! i = Some NULL -> p <> NULL ->
  regs (<[i := p]> l) ≡ₚ p :: regs l.
Proof.
  intros Hi Hp. pose proof (lookup_lt_Some _ _ _ Hi) as Hlt.
  rewrite insert_take_drop by done. rewrite <- (take_drop_middle l i NULL Hi) at 3.
  unfold regs. rewrite !filter_app, filter_cons_True, filter_cons_False by tauto.
  by rewrite <- Permutation_middle.
Qed.

Lemma regs_perm_delete l i p : l !! i = Some p -> p <> NULL ->
  p :: regs (<[i := NULL]> l) ≡ₚ regs l.
Proof.
  intros Hi Hp. pose proof (lookup_lt_Some _ _ _ Hi) as Hlt.
  rewrite insert_take_drop by done. rewrite <- (take_drop_middle l i p Hi) at 3.
  unfold regs. rewrite !filter_app, filter_cons_False, filter_cons_True by tauto.
  by rewrite <- Permutation_middle.
Qed.

Lemma regs_full l : (length (regs l) < length l)%nat -> NULL ∈ l.
Proof.
  induction l as [|p l IH]; simpl; [lia|]. rewrite regs_cons.
  destruct (decide (p = NULL)) as [->|Hne]; [by left|]. simpl. intros. right. apply IH. lia.
Qed.

(** ** C types *)

Lemma typed_upd f p s : sched_typed s -> (forall t, task_typed t -> task_typed (f t)) ->
  sched_typed (upd f p s).
Proof.
  intros [] Hf. constructor; try done. intros q. rewrite node_upd. case_decide; [apply Hf|]; auto.
Qed.

Lemma typed_core f s : sched_typed s ->
  length (sc_tasks (f (s_core s))) = Z.to_nat UTAMO_SCHED_MAX_TASKS ->
  u64_ok (sc_now (f (s_core s))) -> u64_ok (sc_next_id (f (s_core s))) ->
  u64_ok (sc_ticks (f (s_core s))) -> u64_ok (sc_switches (f (s_core s))) ->
  0 <= sc_quantum_ticks (f (s_core s)) <= UINT32_MAX ->
  sched_typed (with_core f s).
Proof. intros [] ? ? ? ? ? ?. constructor; try done. Qed.

Lemma increment_ok v : u64_ok v -> u64_ok (increment v).
Proof. unfold increment. intros. destruct (v =? UINT64_MAX); [done|apply u64_range]. Qed.

Lemma typed_set_state v t : task_typed t -> task_typed (set_state v t).
Proof. intros []. by constructor. Qed.
Lemma typed_set_next v t : task_typed t -> task_typed (set_next v t).
Proof. intros []. by constructor. Qed.
Lemma typed_set_wake v t : u64_ok v -> task_typed t -> task_typed (set_wake v t).
Proof. intros ? []. by constructor. Qed.
Lemma typed_set_run v t : u64_ok v -> task_typed t -> task_typed (set_run_ticks v t).
Proof. intros ? []. by constructor. Qed.
Lemma typed_set_quantum v t : 0 <= v <= UINT32_MAX -> task_typed t -> task_typed (set_quantum v t).
Proof. intros ? []. by constructor. Qed.
Lemma typed_set_preempt v t : 0 <= v <= UINT32_MAX -> task_typed t -> task_typed (set_preempt v t).
Proof. intros ? []. by constructor. Qed.

Lemma u32_range x : 0 <= u32 x <= UINT32_MAX.
Proof. unfold u32, UINT32_MAX. dlia. Qed.

#[export] Hint Resolve typed_set_state typed_set_next typed_set_wake typed_set_run
  typed_set_quantum typed_set_preempt u32_range u64_range increment_ok : sched.

Lemma typed_same f s : sched_typed s ->
  (forall c, sc_tasks (f c) = sc_tasks c /\ sc_now (f c) = sc_now c /\ sc_next_id (f c) = sc_next_id c /\
     sc_ticks (f c) = sc_ticks c /\ sc_switches (f c) = sc_switches c /\
     sc_quantum_ticks (f c) = sc_quantum_ticks c) ->
  sched_typed (with_core f s).
Proof.
  intros Hty Hf. destruct (Hf (s_core s)) as (E1&E2&E3&E4&E5&E6). destruct Hty.
  apply typed_core; rewrite ?E1, ?E2, ?E3, ?E4, ?E5, ?E6; try done.
Qed.

Lemma typed_ready_push s p : sched_typed s -> sched_typed (ready_push s p).
Proof.
  intros Hty. unfold ready_push. cbv zeta.
  assert (sched_typed (upd (set_wake 0) p (upd (set_state UTAMO_SCHED_READY) p (upd (set_next NULL) p s))))
    as H1.
  { repeat apply typed_upd; try done; intros t Ht; [by apply typed_set_next|by apply typed_set_state|].
    by apply typed_set_wake. }
  destruct (negb _); (match goal with |- context [if ?b then _ else _] => destruct b end);
    repeat (apply typed_same; [|done]); try done; (apply typed_upd; [done|auto with sched]).
Qed.

(** ** The scheduler policy: the operations

    For each operation, the invariant it leaves and what it does to the two
    queues. *)


(** Nodes agree on what the queues depend on. *)
Definition same_links (s' s : sched) (q : Z) : Prop :=
  st_next (node s' q) = st_next (node s q) /\ st_state (node s' q) = st_state (node s q) /\
  st_wake_tick (node s' q) = st_wake_tick (node s q).

Lemma queues_frame s' s hole hole' rq sq : queues s hole rq sq ->
  sc_ready_head (s_core s') = sc_ready_head (s_core s) ->
  sc_ready_tail (s_core s') = sc_ready_tail (s_core s) ->
  sc_sleep_head (s_core s') = sc_sleep_head (s_core s) ->
  sc_idle (s_core s') = sc_idle (s_core s) ->
  (forall q, q ∈ reg s' /\ q <> hole' <-> q ∈ reg s /\ q <> hole) ->
  (forall q, q ∈ reg s -> q <> hole -> same_links s' s q) ->
  queues s' hole' rq sq.
Proof.
  intros [] E1 E2 E3 E4 Hreg Hl.
  assert (forall q, q ∈ rq -> same_links s' s q) as Hr by (intros q Hq; apply qu_ready0 in Hq; apply Hl; tauto).
  assert (forall q, q ∈ sq -> same_links s' s q) as Hs by (intros q Hq; apply qu_sleeping0 in Hq; apply Hl; tauto).
  constructor; rewrite ?E1, ?E2, ?E3; try done.
  - eapply chain_frame; [|done]. intros q Hq. by apply Hr.
  - intros q. rewrite qu_ready0. unfold is_ready. rewrite E4. split.
    + intros (H1 & H2 & Hb). destruct (Hl q H1 H2) as (_ & E & _). rewrite E.
      pose proof (proj2 (Hreg q) (conj H1 H2)). tauto.
    + intros (H1 & H2 & Hb). destruct (proj1 (Hreg q) (conj H1 H2)) as [H3 H4].
      destruct (Hl q H3 H4) as (_ & E & _). rewrite E in Hb. tauto.
  - eapply chain_frame; [|done]. intros q Hq. by apply Hs.
  - intros q. rewrite qu_sleeping0. unfold is_sleeping. split.
    + intros (H1 & H2 & Hb). destruct (Hl q H1 H2) as (_ & E & _). rewrite E.
      pose proof (proj2 (Hreg q) (conj H1 H2)). tauto.
    + intros (H1 & H2 & Hb). destruct (proj1 (Hreg q) (conj H1 H2)) as [H3 H4].
      destruct (Hl q H3 H4) as (_ & E & _). rewrite E in Hb. tauto.
  - eapply StronglySorted_impl_in; [|done]. intros x y Hx Hy.
    destruct (Hs x Hx) as (_&_&->), (Hs y Hy) as (_&_&->). done.
Qed.

(** A task that is neither ready nor asleep can be left out. *)
Lemma queues_hole s p rq sq : p ∈ reg s -> is_ready s p = false -> is_sleeping s p = false ->
  queues s NULL rq sq <-> queues s p rq sq.
Proof.
  intros Hp Hr Hs.
  assert (forall f : Z -> bool, f p = false -> forall q,
    q ∈ reg s /\ q <> NULL /\ f q = true <-> q ∈ reg s /\ q <> p /\ f q = true) as Hf.
  { intros f Hfp q. split; intros (Hq & ? & ?); split_and!; try done; [by intros ->; congruence|].
    by apply reg_not_null in Hq. }
  split; intros []; constructor; try done; intros q.
  - by rewrite qu_ready0, (Hf (is_ready s)).
  - by rewrite qu_sleeping0, (Hf (is_sleeping s)).
  - by rewrite qu_ready0, (Hf (is_ready s)).
  - by rewrite qu_sleeping0, (Hf (is_sleeping s)).
Qed.

Section ops.
Context (self : Z) (Hself : self <> NULL).

(** ** sched_core_add *)

Section add.
Context (s : sched) (p : Z) (rq sq : list Z).
Context (Hty : sched_typed s) (Hrep : sched_rep self s rq sq).
Context (Hp : p <> NULL) (Howner : st_owner (node s p) = NULL).
Context (Hcount : sc_task_count (s_core s) <> UTAMO_SCHED_MAX_TASKS).
Context (Hid : sc_next_id (s_core s) <> UINT64_MAX).

(** The scheduler with the new node registered, before it is queued. *)
Definition added : sched :=
  with_core (set_registry (arr_set (sc_tasks (s_core s)) (free_slot (s_core s)) p)
               (sc_task_count (s_core s) +u 1) (sc_next_id (s_core s) +u 1))
    (upd (fun _ => MkTask self (sc_next_id (s_core s)) UTAMO_SCHED_READY NULL 0 0
                     (sc_quantum_ticks (s_core s)) 0) p s).

Lemma added_fresh : p ∉ reg s.
Proof using All.
  intros Hin. pose proof (ti_owner _ _ _ (rep_tasks _ _ _ _ Hrep p Hin)). congruence.
Qed.

Lemma added_reg : reg added ≡ₚ p :: reg s.
Proof using All.
  unfold reg, added. simpl. unfold arr_set. apply regs_perm_insert; [|done].
  apply slot_from_lookup, regs_full.
  pose proof (rep_count _ _ _ _ Hrep). pose proof (ty_tasks _ Hty).
  pose proof (filter_length_le (sc_tasks (s_core s))).
  unfold reg, regs, UTAMO_SCHED_MAX_TASKS in *. lia.
Qed.

Lemma added_node q : q <> p -> node added q = node s q.
Proof using All. intros Hne. unfold added. rewrite node_with_core, node_upd. by rewrite decide_False. Qed.

Lemma added_next_id : sc_next_id (s_core s) +u 1 = sc_next_id (s_core s) + 1.
Proof using All.
  pose proof (ty_next_id _ Hty). unfold u64_ok in *. apply u64_small. unfold u64_ok. lia.
Qed.

Lemma added_base : sched_base added.
Proof using All.
  destruct (proj1 (rep_parts _ _ _ _) Hrep) as ([] & _ & Hinv & _). pose proof added_reg as Hr.
  assert (forall q, q ∈ reg added <-> q = p \/ q ∈ reg s) as Hm
    by (intros q; rewrite Hr; apply elem_of_cons).
  constructor; try done.
  - simpl. rewrite added_next_id. lia.
  - rewrite Hr. simpl. rewrite base_count0. pose proof (filter_length_le (sc_tasks (s_core s))) as Hl.
    rewrite (ty_tasks _ Hty) in Hl. unfold reg in *. unfold UTAMO_SCHED_MAX_TASKS in Hl.
    rewrite u64_small by (unfold u64_ok, UINT64_MAX; lia). lia.
  - apply Hm. by right.
  - apply Hm. by right.
  - rewrite Hr. constructor; [apply added_fresh|done].
  - assert (forall q, q ∈ reg s -> st_id (node added q) < st_id (node added p)) as Hlt.
    { intros q Hq. rewrite added_node by (intros ->; by apply added_fresh).
      pose proof (ti_id _ _ _ (Hinv q Hq)). unfold added. rewrite node_with_core, node_upd, decide_True by done.
      done. }
    intros q r [->|Hq]%Hm [->|Hr']%Hm E; try done.
    + specialize (Hlt r Hr'). lia.
    + specialize (Hlt q Hq). lia.
    + apply base_ids0; try done. rewrite !added_node in E by (intros ->; by apply added_fresh). done.
Qed.

Lemma added_queues : queues added p rq sq.
Proof using All.
  destruct (proj1 (rep_parts _ _ _ _) Hrep) as (_ & Hq & _ & _). eapply queues_frame; [exact Hq|done..| |].
  - intros q. rewrite added_reg, elem_of_cons. split.
    + intros [[->|H] ?]; [done|]. split; [done|]. by apply reg_not_null in H.
    + intros [H ?]. split; [by right|]. intros ->. by apply added_fresh.
  - intros q H _. unfold same_links. rewrite added_node by (intros ->; by apply added_fresh). done.
Qed.

Lemma add_spec : sched_core_add self s p = (ready_push added p, true) /\
  sched_rep self (ready_push added p) (rq ++ [p]) sq.
Proof using All.
  split.
  - unfold sched_core_add. rewrite (proj2 (validate_rep self s Hty)) by eauto.
    rewrite Howner. destruct (Z.eqb_spec p NULL); [done|].
    destruct (Z.eqb_spec (sc_task_count (s_core s)) UTAMO_SCHED_MAX_TASKS); [done|].
    destruct (Z.eqb_spec (sc_next_id (s_core s)) UINT64_MAX); [done|]. done.
  - apply (ready_push_rep self added p rq sq added_base added_queues).
    + rewrite added_reg. by left.
    + intros E. apply added_fresh. rewrite E. apply Hrep.
    + intros q Hq Hne. rewrite added_reg, elem_of_cons in Hq. destruct Hq as [?|Hq]; [done|].
      destruct (rep_tasks _ _ _ _ Hrep q Hq). constructor; rewrite ?added_node by done; try done.
      simpl. rewrite added_next_id. lia.
    + constructor; unfold added; rewrite ?node_with_core, ?node_upd, ?decide_True by done; simpl; try done.
      * rewrite added_next_id. lia.
      * pose proof (rep_next_id _ _ _ _ Hrep). lia.
    + intros _. unfold is_running. rewrite added_node; [apply (rep_resched _ _ _ _ Hrep)|].
      intros E. apply added_fresh. rewrite <- E. apply Hrep.
Qed.
End add.

(** ** Waiting: block, exit, sleep *)

Lemma running_facts s rq sq p : sched_rep self s rq sq -> p ∈ reg s -> is_running s p = true ->
  p = sc_current (s_core s) /\ st_next (node s p) = NULL /\ st_wake_tick (node s p) = 0 /\
  is_ready s p = false /\ is_sleeping s p = false.
Proof.
  intros Hrep Hp Hr. unfold is_running in Hr. apply state_eqb_true in Hr.
  pose proof (ti_state _ _ _ (rep_tasks _ _ _ _ Hrep p Hp)) as H. rewrite Hr in H.
  unfold is_ready, is_sleeping. rewrite Hr. tauto.
Qed.

(** The guard of the waiting operations. *)
Lemma can_wait_spec s rq sq : sched_typed s -> sched_rep self s rq sq ->
  current_can_wait self s = true <->
  sc_current (s_core s) <> sc_idle (s_core s) /\ is_running s (sc_current (s_core s)) = true /\
  st_preempt_depth (node s (sc_current (s_core s))) = 0.
Proof.
  intros Hty Hrep. unfold current_can_wait, is_running.
  rewrite (proj2 (validate_rep self s Hty)) by eauto.
  rewrite !andb_true_iff, negb_true_iff, Z.eqb_neq, Z.eqb_eq. tauto.
Qed.

Lemma invalid_cannot_wait s : sched_core_validate self s = false -> current_can_wait self s = false.
Proof. unfold current_can_wait. by intros ->. Qed.

Lemma same_core_upd f p s : same_core (upd f p s) s.
Proof. by repeat split. Qed.

Lemma same_core_trans s1 s2 s3 : same_core s1 s2 -> same_core s2 s3 -> same_core s1 s3.
Proof. unfold same_core. intros (?&?&?&?&?&?&?&?) (?&?&?&?&?&?&?&?). split_and!; congruence. Qed.

(** The current task leaves the CPU for a state outside both queues. *)
Lemma retire_current s rq sq v : sched_rep self s rq sq ->
  v = UTAMO_SCHED_BLOCKED \/ v = UTAMO_SCHED_ZOMBIE ->
  let c := sc_current (s_core s) in
  c <> sc_idle (s_core s) -> is_running s c = true -> st_preempt_depth (node s c) = 0 ->
  sched_rep self (with_core (set_reschedule true) (upd (set_state v) c s)) rq sq.
Proof.
  intros Hrep Hv c Hi Hrun Hpd. destruct (proj1 (rep_parts _ _ _ _) Hrep) as (Hb & Hq & Hinv & _).
  pose proof (rep_current _ _ _ _ Hrep) as Hc. fold c in Hc.
  destruct (running_facts s rq sq c Hrep Hc Hrun) as (_ & Hn & Hw & Hnr & Hns).
  set (s' := with_core _ _). assert (same_core s' s) as Hsame by by repeat split.
  assert (forall q, node s' q = if decide (q = c) then set_state v (node s c) else node s q) as Hnode
    by (intros q; unfold s'; by rewrite node_with_core, node_upd).
  assert (reg s' = reg s) as Hr by by apply same_core_reg.
  apply rep_parts. split_and!; [| | |done].
  - eapply base_frame; [done| |done]. intros q _. rewrite Hnode. case_decide; by subst.
  - apply (queues_hole s' c); [by rewrite Hr| | |].
    + unfold is_ready. rewrite Hnode, decide_True by done. simpl. by destruct Hv as [-> | ->].
    + unfold is_sleeping. rewrite Hnode, decide_True by done. simpl. by destruct Hv as [-> | ->].
    + apply (queues_hole s c) in Hq; [|done..]. eapply queues_frame; [exact Hq|done..| |].
      * intros q. by rewrite Hr.
      * intros q _ Hne. unfold same_links. by rewrite Hnode, decide_False.
  - intros q. rewrite Hr. intros Hin. specialize (Hinv q Hin). destruct (decide (q = c)) as [->|Hne].
    + destruct Hinv. constructor; rewrite ?Hnode, ?decide_True by done; try done.
      destruct Hv as [-> | ->]; simpl; done.
    + eapply task_inv_frame; [done|left|done]. by rewrite Hnode, decide_False.
Qed.

Lemma block_spec s rq sq : sched_typed s -> sched_rep self s rq sq -> current_can_wait self s = true ->
  let s' := with_core (set_reschedule true) (upd (set_state UTAMO_SCHED_BLOCKED) (sc_current (s_core s)) s) in
  sched_core_block_current self s = (s', true) /\ sched_rep self s' rq sq.
Proof.
  intros Hty Hrep Hw. unfold sched_core_block_current. rewrite Hw. cbn [negb]. split; [done|].
  apply (can_wait_spec _ _ _ Hty Hrep) in Hw as (?&?&?). apply retire_current; auto.
Qed.

Lemma exit_spec s rq sq : sched_typed s -> sched_rep self s rq sq -> current_can_wait self s = true ->
  let s' := with_core (set_reschedule true) (upd (set_state UTAMO_SCHED_ZOMBIE) (sc_current (s_core s)) s) in
  sched_core_exit_current self s = (s', true) /\ sched_rep self s' rq sq.
Proof.
  intros Hty Hrep Hw. unfold sched_core_exit_current. rewrite Hw. cbn [negb]. split; [done|].
  apply (can_wait_spec _ _ _ Hty Hrep) in Hw as (?&?&?). apply retire_current; auto.
Qed.

(** ** Preemption depth *)

Lemma set_preempt_rep s rq sq v : sched_rep self s rq sq ->
  is_running s (sc_current (s_core s)) = true ->
  sched_rep self (upd (fun t => set_preempt (v t) t) (sc_current (s_core s)) s) rq sq.
Proof.
  intros Hrep Hrun. destruct (proj1 (rep_parts _ _ _ _) Hrep) as (Hb & Hq & Hinv & Hres).
  set (c := sc_current (s_core s)) in *. set (s' := upd _ c s).
  assert (same_core s' s) as Hsame by by repeat split.
  assert (forall q, node s' q = if decide (q = c) then set_preempt (v (node s c)) (node s c) else node s q)
    as Hn by (intros q; unfold s'; by rewrite node_upd).
  unfold is_running in Hrun. apply state_eqb_true in Hrun.
  apply rep_parts. split_and!.
  - eapply base_frame; [done| |done]. intros q _. rewrite Hn. case_decide; by subst.
  - eapply queues_frame; [exact Hq|done..|]. intros q _ _. unfold same_links. rewrite Hn.
    case_decide; by subst.
  - intros q Hq'. destruct (Hinv q Hq'). destruct (decide (q = c)) as [->|Hne].
    + rewrite Hrun in *. constructor; rewrite ?Hn, ?decide_True by done; simpl; rewrite ?Hrun; done.
    + constructor; rewrite ?Hn, ?(decide_False (P := q = c)) by done; done.
  - change (sc_current (s_core s')) with c. unfold is_running. rewrite Hn, decide_True by done.
    simpl. by rewrite Hrun.
Qed.

(** ** sched_core_remove_zombie *)

Section remove.
Context (s : sched) (t : Z) (rq sq : list Z).
Context (Hty : sched_typed s) (Hrep : sched_rep self s rq sq).
Context (Ht : t ∈ reg s) (Hcur : t <> sc_current (s_core s)) (Hidle : t <> sc_idle (s_core s)).
Context (Hz : st_state (node s t) = UTAMO_SCHED_ZOMBIE).

Definition removed : sched :=
  upd (fun _ => task_zero) t
    (with_core (set_registry (arr_set (sc_tasks (s_core s)) (task_slot (s_core s) t) NULL)
       (sc_task_count (s_core s) -u 1) (sc_next_id (s_core s))) s).

Lemma removed_reg : t :: reg removed ≡ₚ reg s.
Proof using All.
  unfold reg, removed. simpl. unfold arr_set, task_slot.
  pose proof (reg_not_null _ _ Ht) as Hn. destruct (Z.eqb_spec t NULL); [done|].
  apply regs_perm_delete; [|done]. apply slot_from_lookup. by apply elem_of_reg in Ht as [_ ?].
Qed.

Lemma removed_node q : q <> t -> node removed q = node s q.
Proof using All. intros Hne. unfold removed. by rewrite node_upd, decide_False. Qed.

Lemma remove_spec : sched_core_remove_zombie self s t = (removed, true) /\
  sched_rep self removed rq sq /\ t ∉ reg removed /\ node removed t = task_zero.
Proof using All.
  destruct (proj1 (rep_parts _ _ _ _) Hrep) as (Hb & Hq & Hinv & Hres).
  pose proof removed_reg as Hr.
  assert (NoDup (t :: reg removed)) as Hnd by (rewrite Hr; apply Hb).
  inversion Hnd as [|? ? Hnt Hnd']; subst.
  assert (forall q, q ∈ reg removed <-> q ∈ reg s /\ q <> t) as Hm.
  { intros q. rewrite <- Hr, elem_of_cons. split; [|tauto]. intros Hin. split; [by right|congruence]. }
  assert (is_ready s t = false /\ is_sleeping s t = false) as [Hnr Hns].
  { unfold is_ready, is_sleeping. by rewrite Hz. }
  split_and!; [| |done|unfold removed; by rewrite node_upd, decide_True].
  - unfold sched_core_remove_zombie. rewrite (proj2 (validate_rep self s Hty)) by eauto. cbn [negb].
    pose proof (proj2 (registered_reg s t Hty) Ht) as Hreg. unfold registered in Hreg.
    apply negb_true_iff in Hreg. rewrite Hreg, Hz.
    destruct (Z.eqb_spec t (sc_current (s_core s))); [done|].
    by destruct (Z.eqb_spec t (sc_idle (s_core s))).
  - apply rep_parts. split_and!.
    + destruct Hb. constructor; try done.
      * apply Permutation_length in Hr. simpl in Hr. simpl. rewrite base_count0, u64_small.
        { lia. }
        pose proof (filter_length_le (sc_tasks (s_core s))) as Hl. fold (reg s) in Hl.
        rewrite (ty_tasks _ Hty) in Hl. unfold u64_ok, UINT64_MAX. unfold UTAMO_SCHED_MAX_TASKS in Hl. lia.
      * by apply Hm.
      * apply Hm. split; [done|]. by apply not_eq_sym.
      * intros p q [Hp Hp']%Hm [Hq' Hq'']%Hm. rewrite !removed_node by done. by apply base_ids0.
    + apply (queues_hole s t) in Hq; [|done..]. eapply queues_frame; [exact Hq|done..| |].
      * intros q. rewrite Hm. split; [tauto|]. intros [H ?]. split; [done|]. by apply reg_not_null in H.
      * intros q _ Hne. unfold same_links. by rewrite removed_node.
    + intros q [Hq' Hne]%Hm. destruct (Hinv q Hq'). constructor; rewrite ?removed_node by done; done.
    + change (sc_current (s_core removed)) with (sc_current (s_core s)). unfold is_running.
      rewrite removed_node by done. apply Hres.
Qed.
End remove.

(** ** sched_core_init *)

Lemma init_spec s idle bootstrap quantum now :
  sc_initialized (s_core s) = false -> idle <> NULL -> bootstrap <> NULL -> idle <> bootstrap ->
  st_owner (node s idle) = NULL -> st_owner (node s bootstrap) = NULL -> quantum <> 0 ->
  0 <= quantum ->
  exists s', sched_core_init self s idle bootstrap quantum now = (s', true) /\
    sched_rep self s' [] [] /\ reg s' = [idle; bootstrap] /\
    sc_current (s_core s') = bootstrap /\ sc_idle (s_core s') = idle.
Proof.
  intros Hinit Hi Hb Hib Hoi Hob Hqt Hq0. unfold sched_core_init. rewrite Hinit, Hoi, Hob.
  destruct (Z.eqb_spec idle NULL); [done|]. destruct (Z.eqb_spec bootstrap NULL); [done|].
  destruct (Z.eqb_spec idle bootstrap); [done|]. destruct (Z.eqb_spec quantum 0); [done|].
  cbn [negb orb]. cbv zeta. eexists. split; [reflexivity|].
  match goal with |- sched_rep _ ?x _ _ /\ _ => set (s' := x) end.
  assert (node s' idle = MkTask self 0 UTAMO_SCHED_READY NULL 0 0 quantum 0) as Hni.
  { unfold s'. rewrite node_with_core, !node_upd, decide_False, decide_True by done. done. }
  assert (node s' bootstrap = MkTask self 1 UTAMO_SCHED_RUNNING NULL 0 0 quantum 0) as Hnb.
  { unfold s'. by rewrite node_with_core, !node_upd, decide_True. }
  assert (reg s' = [idle; bootstrap]) as Hr.
  { unfold reg. change (sc_tasks (s_core s')) with (idle :: bootstrap :: replicate 62 NULL).
    by rewrite !filter_cons_True. }
  assert (forall p, p ∈ reg s' <-> p = idle \/ p = bootstrap) as Hm
    by (intros p; rewrite Hr, elem_of_cons, list_elem_of_singleton; done).
  split_and!; [|done|done|done]. constructor; try done.
  - by rewrite Hr.
  - apply Hm. by left.
  - apply Hm. by right.
  - rewrite Hr. apply NoDup_cons. split; [by rewrite list_elem_of_singleton|apply NoDup_singleton].
  - intros p q [->| ->]%Hm [->| ->]%Hm; rewrite ?Hni, ?Hnb; done.
  - intros p [->| ->]%Hm.
    + constructor; rewrite ?Hni; simpl; try done. destruct (Z.eqb_spec idle bootstrap); done.
    + constructor; rewrite ?Hnb; simpl; done.
  - change (sc_current (s_core s')) with bootstrap. unfold is_running. by rewrite Hnb.
  - intros p. split; [by intros ?%elem_of_nil|]. intros [[->| ->]%Hm H]; unfold is_ready in H.
    + change (sc_idle (s_core s')) with idle in H. by rewrite Z.eqb_refl, andb_false_r in H.
    + by rewrite Hnb in H.
  - intros p. split; [by intros ?%elem_of_nil|]. intros [[->| ->]%Hm H]; unfold is_sleeping in H.
    + by rewrite Hni in H.
    + by rewrite Hnb in H.
  - constructor.
Qed.
End ops.
