(* ===== verification/SchedTick.v ===== *)
(** * The scheduler policy: sleeping and waking

    The sleepers form a list ordered by deadline: [sched_core_sleep_current]
    splices the current task in behind all deadlines that are not later,
    [sched_core_wake] unlinks one sleeper, [sched_core_tick] takes the due ones
    off the front. *)

From stdpp Require Import sorting.
From S2P Require Import Prelude SchedCore SchedInv SchedOps.
Open Scope Z_scope.

Definition wake_of (s : sched) (p : Z) : Z := st_wake_tick (node s p).

Lemma chain_last_next s h l1 l2 x : chain s h (l1 ++ l2) -> last l1 = Some x ->
  st_next (node s x) = default NULL (head l2).
Proof.
  revert h. induction l1 as [|p l1 IH]; intros h Hc Hl; [done|].
  simpl in Hc. destruct Hc as (-> & _ & Hc). destruct l1 as [|q l1].
  - simpl in *. simplify_eq. by apply chain_head in Hc.
  - rewrite last_cons_cons in Hl. by eapply IH.
Qed.

(** The value behind the link the walk has stopped at. *)
Lemma link_after_get s l1 l2 : chain s (sc_sleep_head (s_core s)) (l1 ++ l2) ->
  link_get s (link_after LinkHead l1) = default NULL (head l2).
Proof.
  intros Hc. unfold link_after. destruct (last l1) as [x|] eqn:E; simpl.
  - by eapply chain_last_next.
  - apply last_None in E as ->. simpl in *. by apply chain_head in Hc.
Qed.

Lemma link_after_set_node s l1 v q : node (link_set s (link_after LinkHead l1) v) q =
  if decide (Some q = last l1) then set_next v (node s q) else node s q.
Proof.
  unfold link_after. destruct (last l1) as [x|] eqn:E; simpl.
  - rewrite node_upd. repeat case_decide; simplify_eq; done.
  - done.
Qed.

Lemma link_after_set_head s l1 v h : chain s (sc_sleep_head (s_core s)) h ->
  head l1 = head h \/ l1 = [] ->
  sc_sleep_head (s_core (link_set s (link_after LinkHead l1) v)) = default v (head l1).
Proof.
  intros Hc%chain_head Hl. unfold link_after. destruct (last l1) as [x|] eqn:E; simpl.
  - rewrite Hc. destruct l1 as [|y l1]; [done|]. destruct Hl as [<-|?]; done.
  - apply last_None in E as ->. done.
Qed.

Section sleep.
Context (self : Z).

Lemma queue_length s rq sq : sched_typed s -> sched_rep self s rq sq ->
  (length rq <= 64)%nat /\ (length sq <= 64)%nat.
Proof.
  intros Hty Hrep. pose proof (filter_length_le (sc_tasks (s_core s))) as Hl.
  rewrite (ty_tasks _ Hty) in Hl. unfold UTAMO_SCHED_MAX_TASKS in Hl.
  assert (forall q : list Z, NoDup q -> (forall p, p ∈ q -> p ∈ reg s) -> (length q <= 64)%nat) as H.
  { intros q Hnd Hsub. apply NoDup_submseteq, submseteq_length in Hsub; [|done]. unfold reg in *. lia. }
  split; apply H; try (eapply chain_NoDup; apply Hrep); intros p Hp.
  - apply (rep_ready _ _ _ _ Hrep) in Hp. tauto.
  - apply (rep_sleeping _ _ _ _ Hrep) in Hp. tauto.
Qed.

(** ** sched_core_sleep_current *)

Section sleep_current.
Context (s : sched) (rq sq : list Z) (delay : Z).
Context (Hty : sched_typed s) (Hrep : sched_rep self s rq sq).
Notation c := (sc_current (s_core s)).
Notation d := (sc_now (s_core s) + delay).
Context (Hidle : c <> sc_idle (s_core s)) (Hrun : is_running s c = true).
Context (Hpd : st_preempt_depth (node s c) = 0).
Context (Hdelay : 0 < delay) (Hmax : d <= UINT64_MAX).

Definition asleep : sched := upd (set_state UTAMO_SCHED_SLEEPING) c (upd (set_wake d) c s).

Lemma asleep_node q : node asleep q =
  if decide (q = c) then set_state UTAMO_SCHED_SLEEPING (set_wake d (node s c)) else node s q.
Proof. unfold asleep. rewrite !node_upd. repeat case_decide; subst; done. Qed.

Lemma current_not_sleeping : c ∉ sq /\ c ∉ rq.
Proof using All.
  destruct (running_facts self s rq sq c Hrep (rep_current _ _ _ _ Hrep) Hrun) as (_&_&_&Hr&Hs).
  rewrite (rep_sleeping _ _ _ _ Hrep), (rep_ready _ _ _ _ Hrep). split; intros [? ?]; congruence.
Qed.

(** Where the walk stops. *)
Lemma sleep_position : exists l1 l2, sq = l1 ++ l2 /\
  (forall p, p ∈ l1 -> wake_of s p <= d) /\ (forall p, p ∈ l2 -> d < wake_of s p) /\
  link_walk (Z.to_nat UTAMO_SCHED_MAX_TASKS)
    (fun p => negb (p =? NULL) && (st_wake_tick (node asleep p) <=? st_wake_tick (node asleep c)))
    asleep LinkHead = Some (link_after LinkHead l1).
Proof using All.
  destruct current_not_sleeping as [Hns _].
  assert (forall p, p ∈ sq -> node asleep p = node s p) as Hn.
  { intros p Hp. rewrite asleep_node, decide_False; [done|congruence]. }
  destruct (queue_length s rq sq Hty Hrep) as [_ Hlen].
  destruct (link_walk_spec asleep (fun p => negb (p =? NULL) &&
    (st_wake_tick (node asleep p) <=? st_wake_tick (node asleep c))) sq LinkHead
    (Z.to_nat UTAMO_SCHED_MAX_TASKS)) as (l1 & l2 & E & H1 & H2 & Hw).
  - simpl. eapply chain_frame; [|apply Hrep]. intros p Hp. by rewrite Hn.
  - done.
  - by left.
  - exists l1, l2.
    assert (st_wake_tick (node asleep c) = d) as Hd by (by rewrite asleep_node, decide_True).
    rewrite Hd in *. subst sq. split_and!; [done| | |done].
    + intros p Hp. specialize (H1 p Hp). rewrite Hn in H1 by (apply elem_of_app; by left). unfold wake_of. lia.
    + intros p Hp. destruct l2 as [|x l2]; [by apply elem_of_nil in Hp|]. simpl in H2.
      assert (x ∈ l1 ++ x :: l2) as Hx by (apply elem_of_app; right; by left).
      rewrite Hn in H2 by done. assert (x <> NULL) by exact (chain_not_null _ _ _ _ (rep_sq _ _ _ _ Hrep) Hx).
      pose proof (StronglySorted_app_1_r _ _ _ (rep_sorted _ _ _ _ Hrep)) as Hs.
      inversion Hs as [|? ? _ Hall]; subst. rewrite Forall_forall in Hall. unfold wake_of.
      apply elem_of_cons in Hp as [->|Hp]; [lia|]. specialize (Hall p Hp). lia.
Qed.

(** The state after the task has been spliced in behind [l1]. *)
Definition slept (l1 : list Z) : sched :=
  let s1 := upd (set_next (link_get asleep (link_after LinkHead l1))) c asleep in
  with_core (set_reschedule true) (link_set s1 (link_after LinkHead l1) c).

Section slept.
Context (l1 l2 : list Z) (Hsq : sq = l1 ++ l2).
Context (H1 : forall p, p ∈ l1 -> wake_of s p <= d) (H2 : forall p, p ∈ l2 -> d < wake_of s p).

Lemma slept_node q : node (slept l1) q =
  if decide (q = c)
  then set_next (default NULL (head l2)) (set_state UTAMO_SCHED_SLEEPING (set_wake d (node s c)))
  else if decide (Some q = last l1) then set_next c (node s q) else node s q.
Proof using All.
  destruct current_not_sleeping as [Hns _].
  assert (link_get asleep (link_after LinkHead l1) = default NULL (head l2)) as Hg.
  { apply link_after_get. simpl. rewrite <- Hsq. eapply chain_frame; [|apply Hrep].
    intros p Hp. rewrite asleep_node, decide_False; [done|congruence]. }
  unfold slept. rewrite node_with_core, link_after_set_node, !node_upd, Hg, !asleep_node.
  destruct (decide (q = c)) as [->|Hq]; [|done]. rewrite (decide_True (P := c = c)) by done.
  rewrite decide_False; [done|]. intros E. symmetry in E. apply last_Some_elem_of in E.
  apply Hns. rewrite Hsq. apply elem_of_app. by left.
Qed.

Lemma slept_core : same_core (slept l1) s /\
  sc_ready_head (s_core (slept l1)) = sc_ready_head (s_core s) /\
  sc_ready_tail (s_core (slept l1)) = sc_ready_tail (s_core s) /\
  sc_sleep_head (s_core (slept l1)) = default c (head l1) /\
  sc_reschedule (s_core (slept l1)) = true.
Proof using All.
  split_and!.
  1, 2, 3, 5: unfold slept, link_after; destruct (last l1); by repeat split.
  unfold slept. rewrite core_with_core. simpl.
  set (s1 := upd _ c asleep). erewrite <- (link_after_set_head s l1 c sq);
    [|apply Hrep|rewrite Hsq; destruct l1; simpl; auto].
  unfold link_after. by destruct (last l1).
Qed.

Lemma slept_links q : q ∈ reg s -> q <> c -> q ∉ l1 ->
  node (slept l1) q = node s q.
Proof using All.
  intros _ Hc Hl. rewrite slept_node, decide_False by done. rewrite decide_False; [done|].
  intros E. symmetry in E. by apply last_Some_elem_of in E.
Qed.

Lemma slept_state q : q <> c ->
  st_state (node (slept l1) q) = st_state (node s q) /\
  st_wake_tick (node (slept l1) q) = st_wake_tick (node s q).
Proof using All. intros Hc. rewrite slept_node, decide_False by done. by case_decide. Qed.

Lemma slept_queues : queues (slept l1) NULL rq (l1 ++ c :: l2).
Proof using All.
  destruct slept_core as (Hsame & Eh & Et & Es & _). pose proof (same_core_reg _ _ Hsame) as Hr.
  destruct current_not_sleeping as [Hns Hnr]. pose proof Hsame as (_ & _ & Ei & _).
  assert (forall q, q ∈ rq -> q ∉ l1) as Hdis.
  { intros q Hq Hq'. assert (q ∈ sq) as Hq2 by (rewrite Hsq; apply elem_of_app; by left).
    apply (rep_ready _ _ _ _ Hrep) in Hq as [_ Hq]. apply (rep_sleeping _ _ _ _ Hrep) in Hq2 as [_ Hq2].
    unfold is_ready, is_sleeping in *. apply andb_true_iff in Hq as [Hq%state_eqb_true _].
    rewrite Hq in Hq2. done. }
  assert (st_state (node (slept l1) c) = UTAMO_SCHED_SLEEPING) as Hcs.
  { by rewrite slept_node, decide_True. }
  constructor; rewrite ?Eh, ?Et, ?Es, ?Hr.
  - eapply chain_frame; [|apply Hrep]. intros q Hq.
    rewrite slept_links; [done| |congruence|by apply Hdis]. by apply (rep_ready _ _ _ _ Hrep) in Hq as [? _].
  - apply (rep_tail _ _ _ _ Hrep).
  - intros q. rewrite (rep_ready _ _ _ _ Hrep). unfold is_ready. rewrite Ei.
    destruct (decide (q = c)) as [->|Hne].
    + rewrite Hcs. simpl. split; [|by intros (_&_&?)]. intros [Hc Hx].
      exfalso. apply Hnr, (rep_ready _ _ _ _ Hrep). split; [done|exact Hx].
    + destruct (slept_state q Hne) as [-> _]. pose proof (reg_not_null s q). tauto.
  - eapply chain_insert; [rewrite <- Hsq; apply Hrep|apply (reg_not_null s), Hrep|by rewrite <- Hsq| |].
    + by rewrite slept_node, decide_True.
    + intros q Hq. rewrite slept_node, (decide_False (P := q = c)); [by case_decide|].
      intros ->. apply Hns. by rewrite Hsq.
  - intros q. destruct (decide (q = c)) as [->|Hne].
    + unfold is_sleeping. rewrite Hcs. split; [intros _|intros _; apply elem_of_app; right; by left].
      pose proof (rep_current _ _ _ _ Hrep) as Hc. pose proof (reg_not_null _ _ Hc). done.
    + assert (q ∈ l1 ++ c :: l2 <-> q ∈ sq) as ->.
      { rewrite Hsq, !elem_of_app, elem_of_cons. tauto. }
      rewrite (rep_sleeping _ _ _ _ Hrep). unfold is_sleeping. destruct (slept_state q Hne) as [-> _].
      pose proof (reg_not_null s q). tauto.
  - pose proof (rep_sorted _ _ _ _ Hrep) as Hs. rewrite Hsq in Hs, Hns.
    rewrite not_elem_of_app in Hns. destruct Hns as [Hn1 Hn2].
    apply StronglySorted_app in Hs as (Hs12 & Hs1 & Hs2).
    assert (wake_of (slept l1) c = d) as Hwc by (unfold wake_of; by rewrite slept_node, decide_True).
    assert (forall q, q <> c -> wake_of (slept l1) q = wake_of s q) as Hwo by (intros q Hq; by apply slept_state).
    unfold wake_of in *. apply StronglySorted_app. split_and!.
    + intros x y Hx [->|Hy]%elem_of_cons.
      * rewrite Hwc, Hwo by congruence. by apply H1.
      * rewrite !Hwo by congruence. by apply Hs12.
    + eapply StronglySorted_impl_in; [|exact Hs1]. intros x y Hx Hy. by rewrite !Hwo by congruence.
    + constructor.
      * eapply StronglySorted_impl_in; [|exact Hs2]. intros x y Hx Hy. by rewrite !Hwo by congruence.
      * apply Forall_forall. intros y Hy. rewrite Hwc, Hwo by congruence. specialize (H2 y Hy). lia.
Qed.

Lemma slept_rep : sched_rep self (slept l1) rq (l1 ++ c :: l2).
Proof using All.
  destruct (proj1 (rep_parts _ _ _ _) Hrep) as (Hb & _ & Hinv & _).
  destruct slept_core as (Hsame & _ & _ & _ & Eres). pose proof (same_core_reg _ _ Hsame) as Hr.
  apply rep_parts. split_and!; [|apply slept_queues| |done].
  - eapply base_frame; [done| |done]. intros q _. rewrite slept_node.
    repeat case_decide; subst; done.
  - intros q. rewrite Hr. intros Hq. specialize (Hinv q Hq). destruct (decide (q = c)) as [->|Hne].
    + destruct Hinv, Hsame as (_&E2&E3&E4&E5&_&E7&_).
      constructor; rewrite ?slept_node, ?decide_True, ?E2, ?E3, ?E4, ?E5, ?E7 by done; try done.
      simpl. lia.
    + eapply task_inv_frame; [done| |done]. rewrite slept_node, decide_False by done.
      destruct (decide (Some q = last l1)) as [E|E]; [right|by left].
      eexists. split; [done|]. right. symmetry in E. apply last_Some_elem_of in E.
      assert (q ∈ sq) as Hs by (rewrite Hsq; apply elem_of_app; by left).
      by apply (rep_sleeping _ _ _ _ Hrep) in Hs as [_ ?].
Qed.
End slept.

Lemma sleep_spec : exists l1 l2, sq = l1 ++ l2 /\
  (forall p, p ∈ l1 -> wake_of s p <= d) /\ (forall p, p ∈ l2 -> d < wake_of s p) /\
  sched_core_sleep_current self s delay = (slept l1, true) /\
  sched_rep self (slept l1) rq (l1 ++ c :: l2) /\ wake_of (slept l1) c = d.
Proof using All.
  destruct sleep_position as (l1 & l2 & E & H1 & H2 & Hw). exists l1, l2. split_and!; try done.
  - unfold sched_core_sleep_current. rewrite (proj2 (can_wait_spec self s rq sq Hty Hrep)) by done.
    pose proof (ty_now _ Hty). unfold u64_ok in *.
    rewrite !u64_small by (unfold u64_ok; lia).
    destruct (Z.eqb_spec delay 0); [lia|]. destruct (Z.ltb_spec (UINT64_MAX - sc_now (s_core s)) delay); [lia|].
    cbn [negb orb]. cbv zeta. fold asleep. by rewrite Hw.
  - by apply slept_rep.
  - unfold wake_of. erewrite slept_node by done. by rewrite decide_True.
Qed.
End sleep_current.

(** ** Unlinking a sleeper *)

Section unlink.
Context (s : sched) (rq l1 l2 : list Z) (t : Z).
Context (Hq : queues s NULL rq (l1 ++ t :: l2)).

Definition unlinked : sched := link_set s (link_after LinkHead l1) (st_next (node s t)).

Lemma unlinked_node q : node unlinked q =
  if decide (Some q = last l1) then set_next (st_next (node s t)) (node s q) else node s q.
Proof. apply link_after_set_node. Qed.

Lemma unlinked_core : same_core unlinked s /\
  sc_ready_head (s_core unlinked) = sc_ready_head (s_core s) /\
  sc_ready_tail (s_core unlinked) = sc_ready_tail (s_core s) /\
  sc_sleep_head (s_core unlinked) = default (st_next (node s t)) (head l1) /\
  sc_reschedule (s_core unlinked) = sc_reschedule (s_core s).
Proof using All.
  split_and!.
  1, 2, 3, 5: unfold unlinked, link_after; destruct (last l1); by repeat split.
  unfold unlinked. eapply link_after_set_head; [apply Hq|]. destruct l1; simpl; auto.
Qed.

Lemma unlinked_nodup : NoDup (l1 ++ t :: l2).
Proof using All. eapply chain_NoDup, Hq. Qed.

Lemma unlinked_queues : queues unlinked t rq (l1 ++ l2).
Proof using All.
  destruct unlinked_core as (Hsame & Eh & Et & Es & _). pose proof (same_core_reg _ _ Hsame) as Hr.
  pose proof unlinked_nodup as Hnd. apply NoDup_app in Hnd as (Hn1 & Hn12 & Hn2).
  inversion Hn2 as [|? ? Ht2 _]; subst.
  assert (t ∉ l1) as Ht1 by (intros H; apply (Hn12 t H); by left).
  assert (forall q, st_state (node unlinked q) = st_state (node s q) /\
                    st_wake_tick (node unlinked q) = st_wake_tick (node s q)) as Hst
    by (intros q; rewrite unlinked_node; by case_decide).
  assert (is_sleeping s t = true) as Hts.
  { apply (qu_sleeping _ _ _ _ Hq). apply elem_of_app. right. by left. }
  pose proof Hsame as (_ & _ & Ei & _).
  constructor; rewrite ?Eh, ?Et, ?Es, ?Hr; try apply Hq.
  - eapply chain_frame; [|apply Hq]. intros q Hin. rewrite unlinked_node, decide_False; [done|].
    intros E. symmetry in E. apply last_Some_elem_of in E.
    assert (q ∈ l1 ++ t :: l2) as Hs by (apply elem_of_app; by left).
    apply (qu_sleeping _ _ _ _ Hq) in Hs as (_ & _ & Hs). apply (qu_ready _ _ _ _ Hq) in Hin as (_ & _ & Hin).
    unfold is_ready, is_sleeping in *. apply andb_true_iff in Hin as [Hin%state_eqb_true _].
    rewrite Hin in Hs. done.
  - intros q. rewrite (qu_ready _ _ _ _ Hq). unfold is_ready. rewrite Ei. destruct (Hst q) as [-> _].
    split; [|pose proof (reg_not_null s q); tauto]. intros (?&?&?). split_and!; try done. intros ->.
    unfold is_sleeping in Hts. destruct (st_state (node s t)); done.
  - eapply chain_remove; [apply Hq|]. intros q Hin. rewrite unlinked_node. by case_decide.
  - intros q. unfold is_sleeping. destruct (Hst q) as [-> _]. fold (is_sleeping s q).
    pose proof (qu_sleeping _ _ _ _ Hq q) as H. rewrite elem_of_app, elem_of_cons in *.
    split.
    + intros Hin. assert (q <> t) by (intros ->; tauto). tauto.
    + intros (? & ? & ?). pose proof (reg_not_null s q). tauto.
  - pose proof (qu_sorted _ _ _ _ Hq) as Hs. apply StronglySorted_app in Hs as (H12 & H1 & H2).
    inversion H2 as [|? ? H2' _]; subst.
    eapply (StronglySorted_impl_in (fun p q => st_wake_tick (node s p) <= st_wake_tick (node s q))).
    { intros x y _ _. destruct (Hst x) as [_ ->], (Hst y) as [_ ->]. done. }
    apply StronglySorted_app. split_and!; [|done|done]. intros x y Hx Hy. apply H12; [done|by right].
Qed.
End unlink.

(** ** sched_core_wake *)

Lemma wake_blocked_spec s rq sq t : sched_typed s -> sched_rep self s rq sq -> t ∈ reg s ->
  st_state (node s t) = UTAMO_SCHED_BLOCKED ->
  sched_core_wake self s t = (ready_push s t, true) /\ sched_rep self (ready_push s t) (rq ++ [t]) sq.
Proof.
  intros Hty Hrep Ht Hst. destruct (proj1 (rep_parts _ _ _ _) Hrep) as (Hb & Hq & Hinv & Hres). split.
  - unfold sched_core_wake. rewrite (proj2 (validate_rep self s Hty)) by eauto.
    rewrite (proj2 (registered_reg s t Hty)) by done. by rewrite Hst.
  - assert (t <> sc_idle (s_core s)) as Hi.
    { intros E. destruct (ti_idle _ _ _ (Hinv t Ht) E) as (_&_&_&H). rewrite Hst in H.
      by destruct (t =? sc_current (s_core s)). }
    apply (ready_push_rep self s t rq sq Hb); try done.
    + apply queues_hole; [done|unfold is_ready; by rewrite Hst|unfold is_sleeping; by rewrite Hst|done].
    + intros q Hq' _. by apply Hinv.
    + by apply inv_base, Hinv.
Qed.

Lemma wake_sleeping_spec s rq sq t : sched_typed s -> sched_rep self s rq sq -> t ∈ reg s ->
  st_state (node s t) = UTAMO_SCHED_SLEEPING ->
  exists l1 l2, sq = l1 ++ t :: l2 /\
  sched_core_wake self s t = (ready_push (unlinked s l1 t) t, true) /\
  sched_rep self (ready_push (unlinked s l1 t) t) (rq ++ [t]) (l1 ++ l2).
Proof.
  intros Hty Hrep Ht Hst. destruct (proj1 (rep_parts _ _ _ _) Hrep) as (Hb & Hq & Hinv & Hres).
  assert (t ∈ sq) as Hin.
  { apply (rep_sleeping _ _ _ _ Hrep). unfold is_sleeping. by rewrite Hst. }
  destruct (queue_length s rq sq Hty Hrep) as [_ Hlen].
  destruct (link_walk_spec s (fun p => negb (p =? t)) sq LinkHead (Z.to_nat UTAMO_SCHED_MAX_TASKS))
    as (l1 & l2 & -> & H1 & H2 & Hw).
  - apply Hq.
  - done.
  - right. exists t. by rewrite Z.eqb_refl.
  - apply negb_false_iff, Z.eqb_eq in H2. destruct l2 as [|x l2]; simpl in H2.
    { by apply reg_not_null in Ht. }
    subst x. exists l1, l2. split_and!; [done| |].
    + unfold sched_core_wake. rewrite (proj2 (validate_rep self s Hty)) by eauto.
      rewrite (proj2 (registered_reg s t Hty)) by done. rewrite Hst, state_eqb_refl. cbn [negb orb andb].
      rewrite andb_false_r. cbn [orb]. by rewrite Hw.
    + destruct (unlinked_core s rq l1 l2 t Hq) as (Hsame & _ & _ & _ & Er).
      pose proof (same_core_reg _ _ Hsame) as Hr. pose proof Hsame as (_&Ec&Ei&_).
      assert (forall q, node (unlinked s l1 t) q = node s q \/ q ∈ reg s /\ is_sleeping s q = true /\
        node (unlinked s l1 t) q = set_next (st_next (node s t)) (node s q)) as Hn.
      { intros q. rewrite unlinked_node. case_decide as E; [right|by left].
        symmetry in E. apply last_Some_elem_of in E. split_and!; [| |done];
          apply (rep_sleeping _ _ _ _ Hrep), elem_of_app; by left. }
      assert (forall q, q ∈ reg s -> task_inv self (unlinked s l1 t) q) as Hinv'.
      { intros q Hq'. eapply task_inv_frame; [done| |by apply Hinv].
        destruct (Hn q) as [E|(_ & E & E')]; [by left|right; eauto]. }
      assert (t <> sc_idle (s_core s)) as Hi.
      { intros E. destruct (ti_idle _ _ _ (Hinv t Ht) E) as (_&_&_&H). rewrite Hst in H.
        by destruct (t =? sc_current (s_core s)). }
      apply ready_push_rep; rewrite ?Hr, ?Ei; try done.
      * eapply base_frame; [done| |done]. intros q _. by destruct (Hn q) as [->|(_&_&->)].
      * by apply unlinked_queues.
      * intros q Hq' _. by apply Hinv'.
      * apply inv_base; [by rewrite Ei|by apply Hinv'].
      * rewrite Ec, Er. intros _. intros Hnr. apply Hres. unfold is_running in *.
        by destruct (Hn (sc_current (s_core s))) as [E|(_&_&E)]; rewrite E in Hnr.
Qed.
End sleep.

(** ** The scheduler policy: the timer tick

    The tick advances the clock, charges the running task and moves the
    sleepers whose deadline has come to the ready queue, in deadline order. *)


Section tick.
Context (self : Z).

(** The invariant while due sleepers are still queued. *)
Record tick_inv (s : sched) (rq sq : list Z) : Prop := {
  tv_base : sched_base s;
  tv_queues : queues s NULL rq sq;
  tv_inv : forall q, q ∈ reg s -> q ∉ sq -> task_inv self s q;
  tv_sleep : forall q, q ∈ sq -> q <> sc_idle (s_core s) /\ task_base self s q /\
    st_preempt_depth (node s q) = 0;
  tv_resched : is_running s (sc_current (s_core s)) = false -> sc_reschedule (s_core s) = true
}.

Lemma sleeping_not_idle s p : task_inv self s p -> is_sleeping s p = true ->
  p <> sc_idle (s_core s) /\ st_preempt_depth (node s p) = 0.
Proof.
  intros [] Hs. unfold is_sleeping in Hs. apply state_eqb_true in Hs. rewrite Hs in *. split; [|tauto].
  intros E. destruct (ti_idle E) as (_&_&_&H). by destruct (p =? _).
Qed.

(** Between ticks, the two invariants are the same once no sleeper is due. *)
Lemma tick_inv_rep s rq sq : tick_inv s rq sq ->
  (forall p, p ∈ sq -> sc_now (s_core s) < wake_of s p) -> sched_rep self s rq sq.
Proof.
  intros [Hb Hq Hinv Hsl Hres] Hw. apply rep_parts. split_and!; try done. intros p Hp.
  destruct (decide (p ∈ sq)) as [Hin|Hin]; [|by apply Hinv].
  destruct (Hsl p Hin) as (Hi & [] & Hpd). apply (qu_sleeping _ _ _ _ Hq) in Hin as H.
  destruct H as (_ & _ & H). apply state_eqb_true in H.
  constructor; try done; try lia. rewrite H. split; [by apply Hw|done].
Qed.

(** One iteration of the loop. *)
Lemma wake_due_step s rq t sq : tick_inv s rq (t :: sq) ->
  let s' := ready_push (with_core (set_sleep_head (st_next (node s t))) s) t in
  tick_inv s' (rq ++ [t]) sq /\ same_core s' s /\
  (forall p, p ∉ rq -> p <> t -> node s' p = node s p) /\
  (sc_reschedule (s_core s) = true -> sc_reschedule (s_core s') = true).
Proof.
  intros [Hb Hq Hinv Hsl Hres]. set (u := with_core _ s). cbv zeta.
  change u with (unlinked s [] t). pose proof (unlinked_queues self s rq [] sq t Hq) as Hqu.
  destruct (unlinked_core self s rq [] sq t Hq) as (Hsame & _ & _ & _ & Er). simpl in Hqu.
  set (v := unlinked s [] t) in *. pose proof Hsame as (_&Ec&Ei&_).
  pose proof (same_core_reg _ _ Hsame) as Hr.
  assert (forall q, node v q = node s q) as Hn by (intros q; unfold v; by rewrite unlinked_node).
  assert (sched_base v) as Hbv by (eapply base_frame; [done| |done]; intros; by rewrite Hn).
  assert (t ∈ t :: sq) as Htin by by left.
  destruct (Hsl t Htin) as (Hti & Htb & _). apply (qu_sleeping _ _ _ _ Hq) in Htin as (Htr & _ & Hts).
  assert (t ∈ reg v) as Htv by by rewrite Hr. assert (t <> sc_idle (s_core v)) as Htvi by by rewrite Ei.
  pose proof (ready_push_core v t) as (Hsame' & _).
  pose proof (same_core_trans _ _ _ Hsame' Hsame) as Hsame''.
  pose proof (unlinked_nodup self s rq [] sq t Hq) as Hnd. simpl in Hnd. inversion Hnd as [|? ? Hnt _]; subst.
  destruct (queue_members _ _ _ _ Hqu) as [(_ & _ & Hdis & _)|E]; [|by apply reg_not_null in Htr].
  assert (forall p, p ∉ rq -> p <> t -> node (ready_push v t) p = node s p) as Hnr.
  { intros p Hp Hne. destruct (push_node_other self v t rq sq Hbv Hqu Htv Htvi p) as [->|[_ E]];
      [done|apply Hn|]. exfalso. by apply last_Some_elem_of in E. }
  assert (forall p, p ∈ sq -> node (ready_push v t) p = node s p) as Hns.
  { intros p Hp. apply Hnr; [|congruence]. intros H. by apply (Hdis p). }
  split_and!; [|done|done|]; cycle 1.
  { intros H. apply (proj1 (ready_push_resched v t)). by rewrite Er. }
  constructor.
  - by eapply push_base.
  - by apply push_queues.
  - intros q. rewrite (same_core_reg _ _ Hsame''). intros Hqr Hqs.
    assert (forall x, task_base self s x -> task_base self v x) as Htbv.
    { intros x []. destruct Hsame as (_&E2&E3&E4&E5&_&E7&_).
      constructor; rewrite ?Hn, ?E2, ?E3, ?E4, ?E5, ?E7; done. }
    destruct (decide (q = t)) as [->|Hne]; [apply (push_self_inv self v t rq sq); auto|].
    apply (push_other_inv self v t rq sq); try done.
    eapply task_inv_frame; [done|left; apply Hn|]. apply Hinv; [done|].
    rewrite elem_of_cons. tauto.
  - intros q Hq'. destruct (Hsl q ltac:(by right)) as (? & [] & ?).
    destruct Hsame'' as (_&E2&E3&E4&E5&_&E7&_). rewrite E3, Hns by done. split_and!; try done.
    constructor; rewrite ?Hns, ?E2, ?E3, ?E4, ?E5, ?E7; done.
  - destruct Hsame' as (_ & -> & _). apply ready_push_resched.
Qed.

Lemma wake_due_spec now fuel : forall s rq sq, (length sq <= fuel)%nat -> tick_inv s rq sq ->
  exists w rest, sq = w ++ rest /\ (forall p, p ∈ w -> wake_of s p <= now) /\
    (forall p, p ∈ rest -> now < wake_of s p) /\
    tick_inv (wake_due fuel now s) (rq ++ w) rest /\ same_core (wake_due fuel now s) s /\
    (forall p, p ∉ rq -> p ∉ w -> node (wake_due fuel now s) p = node s p) /\
    (sc_reschedule (s_core s) = true -> sc_reschedule (s_core (wake_due fuel now s)) = true).
Proof.
  induction fuel as [|fuel IH]; intros s rq sq Hlen Hti.
  { destruct sq; [|simpl in Hlen; lia]. exists [], []. rewrite (app_nil_r rq).
    split_and!; try done; try (by intros ? ?%elem_of_nil); by repeat split. }
  simpl. pose proof (tv_queues _ _ _ Hti) as Hq. pose proof (chain_head _ _ _ (qu_sq _ _ _ _ Hq)) as Hh.
  destruct (Z.eqb_spec (sc_sleep_head (s_core s)) NULL) as [E|E]; cbn [negb andb].
  { destruct sq as [|t sq]; cycle 1.
    { simpl in Hh. exfalso. pose proof (chain_not_null _ _ _ t (qu_sq _ _ _ _ Hq) ltac:(by left)). congruence. }
    exists [], []. rewrite (app_nil_r rq). split_and!; try done; try (by intros ? ?%elem_of_nil); by repeat split. }
  destruct sq as [|t sq]; simpl in Hh; [done|]. rewrite Hh.
  destruct (Z.leb_spec (st_wake_tick (node s t)) now) as [Hdue|Hdue].
  - destruct (wake_due_step s rq t sq Hti) as (Hti' & Hsame & Hn & Hm).
    destruct (IH _ _ sq ltac:(simpl in Hlen; lia) Hti')
      as (w & rest & -> & Hw & Hrest & Hti'' & Hsame' & Hn' & Hm').
    exists (t :: w), rest. rewrite <- app_assoc in Hti''.
    assert (forall p, p ∈ w ++ rest -> wake_of s p =
      wake_of (ready_push (with_core (set_sleep_head (st_next (node s t))) s) t) p) as Hwake.
    { intros p Hp. unfold wake_of. rewrite Hn; [done| |].
      - intros H. apply (queue_members' _ _ _ Hq p H). by right.
      - intros ->. pose proof (chain_NoDup _ _ _ (qu_sq _ _ _ _ Hq)) as Hnd.
        by inversion Hnd. }
    split_and!; try done.
    + intros p [->|Hp]%elem_of_cons; [done|]. rewrite Hwake by (apply elem_of_app; by left). by apply Hw.
    + intros p Hp. rewrite Hwake by (apply elem_of_app; by right). by apply Hrest.
    + by eapply same_core_trans.
    + intros p Hp [Hp1 Hp2]%not_elem_of_cons. rewrite Hn', Hn; [done|done|done| |done].
      rewrite elem_of_app, list_elem_of_singleton. tauto.
    + intros H. by apply Hm', Hm.
  - exists [], (t :: sq). rewrite (app_nil_r rq). split_and!; try done; [by intros ? ?%elem_of_nil|].
    intros p Hp. unfold wake_of. apply elem_of_cons in Hp as [->|Hp]; [done|].
    pose proof (qu_sorted _ _ _ _ Hq) as Hs. inversion Hs as [|? ? _ Hall]; subst.
    rewrite Forall_forall in Hall. specialize (Hall p Hp). lia.
Qed.

(** ** The accounting of the running task *)

Lemma tick_current_facts s : (forall p, task_typed (node s p)) ->
  let c := sc_current (s_core s) in
  let s' := tick_current s in
  same_core s' s /\ sc_ready_head (s_core s') = sc_ready_head (s_core s) /\
  sc_ready_tail (s_core s') = sc_ready_tail (s_core s) /\
  sc_sleep_head (s_core s') = sc_sleep_head (s_core s) /\
  (sc_reschedule (s_core s) = true -> sc_reschedule (s_core s') = true) /\
  (forall q, q <> c -> node s' q = node s q) /\
  exists r ql, node s' c = set_quantum ql (set_run_ticks r (node s c)) /\
    ql <= st_quantum_left (node s c) /\
    (is_running s c = false -> r = st_run_ticks (node s c) /\ ql = st_quantum_left (node s c)) /\
    (is_running s c = true -> r = increment (st_run_ticks (node s c))) /\
    (is_running s c = true -> c <> sc_idle (s_core s) ->
       ql = Z.max 0 (st_quantum_left (node s c) - 1) /\ (ql = 0 -> sc_reschedule (s_core s') = true)).
Proof.
  intros Hty. cbv zeta. unfold tick_current. fold (is_running s (sc_current (s_core s))).
  set (c := sc_current (s_core s)). pose proof (tt_quantum _ (Hty c)) as Hq.
  assert (forall t : sched_task, t = set_quantum (st_quantum_left t) (set_run_ticks (st_run_ticks t) t))
    as Heta by by intros [].
  destruct (is_running s c) eqn:Er; cycle 1.
  { split_and!; try done. exists (st_run_ticks (node s c)), (st_quantum_left (node s c)). split_and!; done. }
  cbv zeta. set (s1 := upd _ c s).
  assert (forall q, node s1 q = if decide (q = c)
    then set_run_ticks (increment (st_run_ticks (node s c))) (node s c) else node s q) as Hn1
    by (intros q; unfold s1; by rewrite node_upd).
  change (sc_idle (s_core s1)) with (sc_idle (s_core s)).
  destruct (Z.eqb_spec c (sc_idle (s_core s))) as [Ei|Ei]; cbn [negb].
  { split_and!; try done; [intros q Hne; by rewrite Hn1, decide_False|].
    exists (increment (st_run_ticks (node s c))), (st_quantum_left (node s c)).
    rewrite Hn1, decide_True by done. split_and!; try done. }
  rewrite (Hn1 c), decide_True by done. cbn [st_quantum_left set_run_ticks].
  set (ql := Z.max 0 (st_quantum_left (node s c) - 1)).
  set (s2 := if negb _ then _ else s1).
  assert (same_core s2 s /\ s_core s2 = s_core s) as [Hs2 Hc2] by (unfold s2; destruct (negb _); done).
  assert (forall q, node s2 q = if decide (q = c)
    then set_quantum ql (set_run_ticks (increment (st_run_ticks (node s c))) (node s c)) else node s q) as Hn2.
  { intros q. unfold s2. destruct (Z.eqb_spec (st_quantum_left (node s c)) 0) as [E0|E0]; cbn [negb].
    - rewrite Hn1. case_decide; [|done]. unfold ql. rewrite E0. simpl. unfold set_run_ticks, set_quantum.
      simpl. by rewrite E0.
    - rewrite node_upd, !Hn1. repeat case_decide; try done. rewrite u32_small by (cbn; lia).
      cbn [st_quantum_left set_run_ticks]. f_equal. unfold ql. lia. }
  rewrite (Hn2 c), decide_True by done. cbn [st_quantum_left set_quantum].
  destruct (Z.eqb_spec ql 0) as [E0|E0].
  - split_and!; try done; try (unfold s2; destruct (negb _); done).
    + intros q Hne. by rewrite node_with_core, Hn2, decide_False.
    + exists (increment (st_run_ticks (node s c))), ql. rewrite node_with_core, Hn2, decide_True by done.
      split_and!; try done. unfold ql. lia.
  - rewrite Hc2. split_and!; try done.
    + intros q Hne. by rewrite Hn2, decide_False.
    + exists (increment (st_run_ticks (node s c))), ql. rewrite Hn2, decide_True by done.
      split_and!; try done. unfold ql. lia.
Qed.

(** ** sched_core_tick *)

Lemma tick_start s rq sq now : sched_typed s -> sched_rep self s rq sq ->
  let s1 := tick_current (with_core (fun c => set_clock now (increment (sc_ticks c)) c) s) in
  tick_inv s1 rq sq.
Proof.
  intros Hty Hrep. set (s0 := with_core _ s). cbv zeta.
  destruct (proj1 (rep_parts _ _ _ _) Hrep) as (Hb & Hq & Hinv & Hres).
  assert (sched_base s0) as Hb0 by (destruct Hb; by constructor).
  assert (queues s0 NULL rq sq) as Hq0 by (eapply queues_frame; [exact Hq|done..]; done).
  assert (forall p, node s0 p = node s p) as Hn0 by done.
  destruct (tick_current_facts s0) as (Hsame & Eh & Et & Es & Hm & Hother & r & ql & Hcur & Hql & Hnr & _ & _).
  { intros p. apply Hty. }
  set (s1 := tick_current s0) in *. set (c := sc_current (s_core s0)) in *.
  pose proof (same_core_reg _ _ Hsame) as Hr. pose proof Hsame as (_ & Ec & Ei & _).
  assert (forall q, st_id (node s1 q) = st_id (node s q) /\ same_links s1 s0 q /\
    st_owner (node s1 q) = st_owner (node s q) /\ st_preempt_depth (node s1 q) = st_preempt_depth (node s q) /\
    st_quantum_left (node s1 q) <= st_quantum_left (node s q)) as Hf.
  { intros q. destruct (decide (q = c)) as [->|Hne].
    - rewrite Hcur. unfold same_links. rewrite Hcur. done.
    - unfold same_links. rewrite (Hother q Hne). done. }
  assert (forall q, task_base self s q -> task_base self s1 q) as Htb.
  { intros q []. destruct (Hf q) as (E1 & _ & E2 & E3 & E4). destruct Hsame as (_&F2&F3&F4&F5&_&F7&_).
    constructor; rewrite ?E1, ?E2, ?E3, ?F2, ?F3, ?F4, ?F5, ?F7; try done.
    change (sc_quantum_ticks (s_core s0)) with (sc_quantum_ticks (s_core s)). lia. }
  constructor.
  - eapply base_frame; [done| |done]. intros q _. apply Hf.
  - eapply queues_frame; [exact Hq0|done..| |]; [by intros q; rewrite Hr|]. intros q _ _. apply Hf.
  - intros q. rewrite Hr. intros Hqr Hqs. destruct (Hinv q Hqr).
    destruct (Hf q) as (E1 & (E5 & E6 & E7) & E2 & E3 & E4). rewrite Hn0 in *.
    destruct Hsame as (_&F2&F3&F4&F5&_&F7&_).
    constructor; rewrite ?E1, ?E2, ?E3, ?E5, ?E6, ?E7, ?F2, ?F3, ?F4, ?F5, ?F7; try done.
    + change (sc_quantum_ticks (s_core s0)) with (sc_quantum_ticks (s_core s)). lia.
    + destruct (st_state (node s q)) eqn:Est; try done. exfalso. apply Hqs, (rep_sleeping _ _ _ _ Hrep).
      unfold is_sleeping. by rewrite Est.
  - intros q Hqs. apply (rep_sleeping _ _ _ _ Hrep) in Hqs as [Hqr Hqs].
    destruct (sleeping_not_idle s q (Hinv q Hqr) Hqs) as [Hi Hp]. rewrite Ei.
    destruct (Hf q) as (_ & _ & _ & E3 & _). rewrite E3. split_and!; [done| |done].
    apply Htb, inv_base; [done|]. by apply Hinv.
  - intros H. apply Hm, Hres. unfold is_running in *. destruct (Hf c) as (_ & (_ & E & _) & _).
    rewrite Ec in H. fold c in H. rewrite E in H. exact H.
Qed.

Lemma tick_spec s rq sq now : sched_typed s -> sched_rep self s rq sq -> u64_ok now ->
  sc_now (s_core s) <= now ->
  exists s' w rest, sched_core_tick self s now = (s', true) /\ sq = w ++ rest /\
    (forall p, p ∈ w -> wake_of s p <= now) /\ (forall p, p ∈ rest -> now < wake_of s p) /\
    sched_rep self s' (rq ++ w) rest /\ sc_now (s_core s') = now /\
    sc_current (s_core s') = sc_current (s_core s) /\
    (is_running s (sc_current (s_core s)) = true -> sc_current (s_core s) <> sc_idle (s_core s) ->
     let ql := Z.max 0 (st_quantum_left (node s (sc_current (s_core s))) - 1) in
     st_quantum_left (node s' (sc_current (s_core s))) = ql /\
     (ql = 0 -> sc_reschedule (s_core s') = true)).
Proof.
  intros Hty Hrep Hnow Hle. set (s0 := with_core (fun c => set_clock now (increment (sc_ticks c)) c) s).
  pose proof (tick_start s rq sq now Hty Hrep) as Hti. fold s0 in Hti.
  destruct (tick_current_facts s0) as (Hsame & _ & _ & _ & _ & Hother & r & ql & Hcur & _ & _ & _ & Hrun).
  { intros p. apply Hty. }
  change (sc_current (s_core s0)) with (sc_current (s_core s)) in *.
  set (c := sc_current (s_core s)) in *.
  destruct (queue_length self s rq sq Hty Hrep) as [_ Hlen].
  destruct (wake_due_spec now (Z.to_nat UTAMO_SCHED_MAX_TASKS) _ rq sq Hlen Hti)
    as (w & rest & E & Hw & Hrest & Hti' & Hsame' & Hn' & Hm').
  pose proof (same_core_trans _ _ _ Hsame' Hsame) as Hs'.
  set (s' := wake_due _ now (tick_current s0)) in *.
  assert (forall p, wake_of (tick_current s0) p = wake_of s p) as Hwk.
  { intros p. unfold wake_of. destruct (decide (p = c)) as [->|Hne]; [by rewrite Hcur|by rewrite Hother]. }
  assert (sc_now (s_core s') = now) as Hn by (destruct Hs' as (_&_&_&->&_); done).
  exists s', w, rest. split_and!; try done.
  - unfold sched_core_tick. rewrite (proj2 (validate_rep self s Hty)) by eauto. cbn [negb orb].
    by destruct (Z.ltb_spec now (sc_now (s_core s))); [lia|].
  - intros p Hp. rewrite <- Hwk. by apply Hw.
  - intros p Hp. rewrite <- Hwk. by apply Hrest.
  - apply tick_inv_rep; [done|]. intros p Hp. rewrite Hn. unfold wake_of. rewrite Hn'.
    + by apply Hrest.
    + intros Hpr. apply (queue_members' _ _ _ (tv_queues _ _ _ Hti) p Hpr). rewrite E. apply elem_of_app. by right.
    + intros Hpw. pose proof (chain_NoDup _ _ _ (rep_sq _ _ _ _ Hrep)) as Hnd. rewrite E in Hnd.
      apply NoDup_app in Hnd as (_ & Hnd & _). by apply (Hnd p Hpw).
  - by destruct Hs' as (_&->&_).
  - intros Hr Hi. destruct (running_facts self s rq sq c Hrep (rep_current _ _ _ _ Hrep) Hr) as (_&_&_&Hnr&Hns).
    destruct (Hrun Hr Hi) as [-> Hres]. rewrite Hn'.
    + rewrite Hcur. split; [done|]. intros H0. by apply Hm', Hres.
    + rewrite (rep_ready _ _ _ _ Hrep). intros [_ ?]. congruence.
    + intros Hpw. assert (c ∈ sq) as Hc by (rewrite E; apply elem_of_app; by left).
      apply (rep_sleeping _ _ _ _ Hrep) in Hc as [_ ?]. congruence.
Qed.
End tick.

(** ** The scheduler policy: choosing the next task

    [sched_core_select] first puts a preempted task at the end of the ready
    queue, then dispatches the head of the queue, or the idle task when the
    queue is empty.  In between no task is running ([quiescent]). *)


(** The second half of [sched_core_select]. *)
Definition dispatch (s : sched) (old : Z) : sched * Z :=
  let core := s_core s in
  let next := if negb (sc_ready_head core =? NULL) then sc_ready_head core else sc_idle core in
  let s := if negb (sc_ready_head core =? NULL) then
             let head := st_next (node s next) in
             with_core (set_queues head (if head =? NULL then NULL else sc_ready_tail core)) s
           else s in
  let s := upd (set_next NULL) next s in
  let s := upd (set_state UTAMO_SCHED_RUNNING) next s in
  let s := upd (set_wake 0) next s in
  let s := upd (set_quantum (sc_quantum_ticks (s_core s))) next s in
  let s := with_core (fun c => set_reschedule false (set_current next (sc_switches c) c)) s in
  let s := if negb (next =? old)
           then with_core (fun c => set_current (sc_current c) (increment (sc_switches c)) c) s
           else s in
  (s, next).

Section select.
Context (self : Z).

Record task_quiet (s : sched) (p : Z) : Prop := {
  tq_owner : st_owner (node s p) = self;
  tq_id : st_id (node s p) < sc_next_id (s_core s);
  tq_quantum : st_quantum_left (node s p) <= sc_quantum_ticks (s_core s);
  tq_preempt : st_preempt_depth (node s p) = 0;
  tq_idle : p = sc_idle (s_core s) -> st_id (node s p) = 0 /\ st_next (node s p) = NULL /\
    st_wake_tick (node s p) = 0 /\ st_state (node s p) = UTAMO_SCHED_READY;
  tq_nonidle : p <> sc_idle (s_core s) -> st_id (node s p) <> 0;
  tq_state : match st_state (node s p) with
    | UTAMO_SCHED_READY => st_wake_tick (node s p) = 0
    | UTAMO_SCHED_SLEEPING => sc_now (s_core s) < st_wake_tick (node s p)
    | UTAMO_SCHED_BLOCKED | UTAMO_SCHED_ZOMBIE =>
        st_next (node s p) = NULL /\ st_wake_tick (node s p) = 0
    | UTAMO_SCHED_RUNNING | UTAMO_SCHED_OTHER _ => False
    end
}.

Definition quiescent (s : sched) (rq sq : list Z) : Prop :=
  sched_base s /\ queues s NULL rq sq /\ forall p, p ∈ reg s -> task_quiet s p.

Section dispatch.
Context (s : sched) (rq sq : list Z) (old : Z).
Context (Hquiet : quiescent s rq sq).
Notation next := (default (sc_idle (s_core s)) (head rq)).

Lemma dispatch_head : sc_ready_head (s_core s) = default NULL (head rq) /\
  (if negb (sc_ready_head (s_core s) =? NULL) then sc_ready_head (s_core s) else sc_idle (s_core s)) = next.
Proof using All.
  destruct Hquiet as (_ & Hq & _). pose proof (chain_head _ _ _ (qu_rq _ _ _ _ Hq)) as Hh.
  split; [done|]. rewrite Hh. destruct rq as [|p l]; [done|]. simpl.
  pose proof (chain_not_null _ _ _ p (qu_rq _ _ _ _ Hq) ltac:(by left)).
  by destruct (Z.eqb_spec p NULL).
Qed.

Lemma dispatch_next : next ∈ reg s /\ next ∉ tail rq /\ next ∉ sq.
Proof using All.
  destruct Hquiet as (Hb & Hq & Htq). destruct rq as [|p l]; simpl.
  - split_and!; [apply Hb|apply not_elem_of_nil|]. intros H. apply (qu_sleeping _ _ _ _ Hq) in H as (Hr & _ & H).
    destruct (tq_idle _ _ (Htq _ Hr) eq_refl) as (_&_&_&E). unfold is_sleeping in H. by rewrite E in H.
  - pose proof (chain_NoDup _ _ _ (qu_rq _ _ _ _ Hq)) as Hnd. inversion Hnd; subst.
    assert (p ∈ p :: l) as Hp by by left. split_and!; [|done|by apply (queue_members' _ _ _ Hq)].
    by apply (qu_ready _ _ _ _ Hq) in Hp as [? _].
Qed.

Lemma dispatch_spec : exists s', dispatch s old = (s', next) /\
  (forall q, node s' q = if decide (q = next)
     then set_quantum (sc_quantum_ticks (s_core s)) (set_wake 0 (set_state UTAMO_SCHED_RUNNING
            (set_next NULL (node s next)))) else node s q) /\
  s_core s' = set_reschedule false (set_current next
    (if next =? old then sc_switches (s_core s) else increment (sc_switches (s_core s)))
    (set_queues (default NULL (head (tail rq))) (default NULL (last (tail rq))) (s_core s))).
Proof using All.
  destruct dispatch_head as [Hh Hn]. destruct Hquiet as (_ & Hq & _).
  unfold dispatch. cbv zeta. rewrite Hn. set (n := next) in *.
  match goal with |- context [upd (set_next NULL) n ?x] => set (u := x) end.
  assert (forall q, node u q = node s q) as Hu by (intros q; unfold u; by destruct (negb _)).
  assert (s_core u = set_queues (default NULL (head (tail rq))) (default NULL (last (tail rq))) (s_core s)) as Hc.
  { unfold u. rewrite Hh, (qu_tail _ _ _ _ Hq). destruct rq as [|p l]; simpl.
    - pose proof (qu_tail _ _ _ _ Hq) as Ht. simpl in *. destruct (s_core s). simpl in *. unfold set_queues.
      simpl. by subst.
    - pose proof (qu_rq _ _ _ _ Hq) as Hch. simpl in Hch. destruct Hch as (_ & Hp & Hch).
      destruct (Z.eqb_spec p NULL); [done|]. cbn [negb]. simpl. unfold n. simpl.
      pose proof (chain_head _ _ _ Hch) as Hx. rewrite Hx. destruct l as [|x l]; [done|].
      simpl in *. destruct Hch as (_ & Hxn & _). destruct (Z.eqb_spec x NULL); [done|].
      done. }
  assert (forall q, node (upd (set_quantum (sc_quantum_ticks (s_core (upd (set_wake 0) n
     (upd (set_state UTAMO_SCHED_RUNNING) n (upd (set_next NULL) n u)))))) n (upd (set_wake 0) n
     (upd (set_state UTAMO_SCHED_RUNNING) n (upd (set_next NULL) n u)))) q =
    if decide (q = n) then set_quantum (sc_quantum_ticks (s_core s)) (set_wake 0
      (set_state UTAMO_SCHED_RUNNING (set_next NULL (node s n)))) else node s q) as Hnode.
  { intros q. rewrite !node_upd, !core_upd, Hu, Hc. repeat case_decide; try done. }
  eexists. split; [done|]. destruct (Z.eqb_spec n old); cbn [negb]; (split; [|]).
  - intros q. rewrite !node_with_core. apply Hnode.
  - rewrite core_with_core, !core_upd, Hc. done.
  - intros q. rewrite !node_with_core. apply Hnode.
  - rewrite !core_with_core, !core_upd, Hc. done.
Qed.

Section dispatched.
Context (s' : sched).
Context (Hnode : forall q, node s' q = if decide (q = next)
  then set_quantum (sc_quantum_ticks (s_core s)) (set_wake 0 (set_state UTAMO_SCHED_RUNNING
         (set_next NULL (node s next)))) else node s q).
Context (sw : Z) (Hcore : s_core s' = set_reschedule false (set_current next sw
  (set_queues (default NULL (head (tail rq))) (default NULL (last (tail rq))) (s_core s)))).

Lemma dispatched_reg : reg s' = reg s.
Proof using Hcore. unfold reg. by rewrite Hcore. Qed.

Lemma dispatched_queues : queues s' NULL (tail rq) sq.
Proof using All.
  destruct dispatch_next as (Hn & Hn1 & Hn2). destruct Hquiet as (Hb & Hq & Htq).
  assert (forall q, q <> next -> node s' q = node s q) as Ho by (intros; by rewrite Hnode, decide_False).
  assert (st_state (node s' next) = UTAMO_SCHED_RUNNING) as Hrun by (by rewrite Hnode, decide_True).
  constructor; rewrite ?dispatched_reg, ?Hcore; try done.
  - simpl. destruct rq as [|p l]; [done|]. simpl in *. pose proof (qu_rq _ _ _ _ Hq) as (_ & _ & Hch).
    pose proof (chain_head _ _ _ Hch) as Hh. rewrite <- Hh. eapply chain_frame, Hch.
    intros q Hin. rewrite Ho by congruence. done.
  - intros q. unfold is_ready. rewrite Hcore. cbn [sc_idle set_reschedule set_current set_queues].
    destruct (decide (q = next)) as [->|Hne].
    + rewrite Hrun. split; [done|by intros (_&_&?)].
    + rewrite Ho by done. fold (is_ready s q). rewrite <- (qu_ready _ _ _ _ Hq).
      destruct rq as [|p l]; simpl in *; [done|]. rewrite elem_of_cons. tauto.
  - eapply chain_frame; [|apply Hq]. intros q Hin. rewrite Ho by congruence. done.
  - intros q. unfold is_sleeping. destruct (decide (q = next)) as [->|Hne].
    + rewrite Hrun. split; [done|by intros (_&_&?)].
    + rewrite Ho by done. apply (qu_sleeping _ _ _ _ Hq).
  - eapply StronglySorted_impl_in; [|apply Hq]. intros x y Hx Hy. by rewrite !Ho by congruence.
Qed.

Lemma dispatched_rep : sched_rep self s' (tail rq) sq.
Proof using All.
  pose proof dispatched_queues as Hqs. pose proof dispatched_reg as Hr.
  destruct dispatch_next as (Hn & _ & _). destruct Hquiet as (Hb & _ & Htq).
  assert (st_state (node s' next) = UTAMO_SCHED_RUNNING) as Hrun by (by rewrite Hnode, decide_True).
  apply rep_parts. split_and!; [|done| |]; cycle 2.
  { rewrite Hcore. simpl. unfold is_running. by rewrite Hrun. }
  { destruct Hb. constructor; rewrite ?Hr; try (rewrite Hcore; done); [done|].
    intros p q Hp Hq. rewrite !Hnode. intros E. apply base_ids; [done|done|].
    repeat case_decide; subst; done. }
  intros q. rewrite Hr. intros Hq. destruct (Htq q Hq). destruct (decide (q = next)) as [->|Hne].
  - constructor; rewrite ?Hnode, ?decide_True, ?Hcore by done;
      cbn [sc_current sc_idle sc_now sc_next_id sc_quantum_ticks set_reschedule set_current set_queues]; try done.
    + intros E. rewrite Z.eqb_refl. specialize (tq_idle0 E). simpl. tauto.
  - constructor; rewrite ?Hnode, ?(decide_False (P := q = next)), ?Hcore by done;
      cbn [sc_current sc_idle sc_now sc_next_id sc_quantum_ticks set_reschedule set_current set_queues]; try done.
    + intros E. specialize (tq_idle0 E). destruct (Z.eqb_spec q next); tauto.
    + destruct (st_state (node s q)); tauto.
Qed.
End dispatched.
End dispatch.

(** ** From the invariant to a quiescent state *)

Lemma quiet_of_rep s rq sq : sched_rep self s rq sq ->
  is_running s (sc_current (s_core s)) = false ->
  st_preempt_depth (node s (sc_current (s_core s))) = 0 -> quiescent s rq sq.
Proof.
  intros Hrep Hr Hp. destruct (proj1 (rep_parts _ _ _ _) Hrep) as (Hb & Hq & Hinv & _).
  split_and!; [done|done|]. intros p Hpr. destruct (Hinv p Hpr).
  assert (st_state (node s p) <> UTAMO_SCHED_RUNNING) as Hnr.
  { intros E. rewrite E in ti_state. destruct ti_state as (-> & _ & _).
    unfold is_running in Hr. by rewrite E in Hr. }
  assert (st_preempt_depth (node s p) = 0).
  { destruct (decide (p = sc_current (s_core s))) as [->|Hne]; auto. }
  constructor; try done.
  - intros E. specialize (ti_idle E). destruct (Z.eqb_spec p (sc_current (s_core s))); intuition congruence.
  - destruct (st_state (node s p)); tauto || congruence.
Qed.

(** The running idle task steps back. *)
Lemma quiet_idle s rq sq : sched_rep self s rq sq ->
  sc_current (s_core s) = sc_idle (s_core s) ->
  st_preempt_depth (node s (sc_current (s_core s))) = 0 ->
  quiescent (upd (set_state UTAMO_SCHED_READY) (sc_current (s_core s)) s) rq sq.
Proof.
  intros Hrep Hci Hpd. destruct (proj1 (rep_parts _ _ _ _) Hrep) as (Hb & Hq & Hinv & _).
  set (i := sc_current (s_core s)) in *. set (s' := upd _ i s).
  assert (same_core s' s) as Hsame by by repeat split.
  assert (i ∈ reg s) as Hi by apply Hb.
  assert (forall q, node s' q = if decide (q = i) then set_state UTAMO_SCHED_READY (node s i) else node s q)
    as Hn by (intros q; unfold s'; by rewrite node_upd).
  destruct (ti_idle _ _ _ (Hinv i Hi) Hci) as (_ & _ & _ & Hst). fold i in Hst. rewrite Z.eqb_refl in Hst.
  assert (forall t, is_ready t i = false \/ sc_idle (s_core t) <> i) as Hir.
  { intros t. unfold is_ready. destruct (Z.eqb_spec i (sc_idle (s_core t))); [left; apply andb_false_r|by right]. }
  split_and!.
  - eapply base_frame; [done| |done]. intros q _. rewrite Hn. case_decide; by subst.
  - apply (queues_hole s' i); [done| | |].
    + destruct (Hir s') as [?|Hx]; [done|]. by destruct Hx.
    + unfold is_sleeping. by rewrite Hn, decide_True.
    + apply (queues_hole s i) in Hq; [|done| |unfold is_sleeping; by rewrite Hst].
      * eapply queues_frame; [exact Hq|done..|]. intros q _ Hne. unfold same_links. by rewrite Hn, decide_False.
      * destruct (Hir s) as [?|Hx]; [done|]. by destruct Hx.
  - intros q Hq'. destruct (Hinv q Hq'). destruct (decide (q = i)) as [->|Hne].
    + constructor; rewrite ?Hn, ?decide_True by done; try done.
      * intros E. destruct (ti_idle E) as (?&?&?&_). done.
      * simpl. by destruct (ti_idle Hci) as (_&_&?&_).
    + constructor; rewrite ?Hn, ?(decide_False (P := q = i)) by done; try done; auto.
      * intros E. change (sc_idle (s_core s')) with (sc_idle (s_core s)) in E. congruence.
      * destruct (st_state (node s q)); tauto.
Qed.

(** ** sched_core_select *)

(** The ready queue with a preempted task appended. *)
Definition requeued (s : sched) (rq : list Z) : list Z :=
  if is_running s (sc_current (s_core s)) && negb (sc_current (s_core s) =? sc_idle (s_core s))
  then rq ++ [sc_current (s_core s)] else rq.

Lemma select_stays s force rq sq : sched_typed s -> sched_rep self s rq sq ->
  st_preempt_depth (node s (sc_current (s_core s))) <> 0 \/
  force = false /\ sc_reschedule (s_core s) = false ->
  sched_core_select self s force = (s, sc_current (s_core s)).
Proof.
  intros Hty Hrep H. unfold sched_core_select. rewrite (proj2 (validate_rep self s Hty)) by eauto.
  cbn [negb]. destruct (Z.eqb_spec (st_preempt_depth (node s (sc_current (s_core s)))) 0); cbn [negb orb]; [|done].
  destruct H as [?|[-> Hr]]; [done|]. rewrite Hr. cbn [negb andb].
  destruct (is_running s (sc_current (s_core s))) eqn:E; unfold is_running in E; [by rewrite E|].
  pose proof (rep_resched _ _ _ _ Hrep E). congruence.
Qed.

Lemma select_quiet s force rq sq : sched_typed s -> sched_rep self s rq sq ->
  st_preempt_depth (node s (sc_current (s_core s))) = 0 ->
  force = true \/ sc_reschedule (s_core s) = true ->
  exists s1, sched_core_select self s force = dispatch s1 (sc_current (s_core s)) /\
    quiescent s1 (requeued s rq) sq /\ same_core s1 s /\
    forall q, st_state (node s1 q) = st_state (node s q) \/
      is_running s q = true /\ st_state (node s1 q) = UTAMO_SCHED_READY.
Proof.
  intros Hty Hrep Hpd Hf. unfold sched_core_select. rewrite (proj2 (validate_rep self s Hty)) by eauto.
  cbn [negb]. rewrite Hpd. cbn [Z.eqb negb orb].
  assert (negb force && negb (sc_reschedule (s_core s)) = false) as -> by (destruct Hf as [-> | ->]; [done|apply andb_false_r]).
  cbn [andb]. unfold requeued. fold (is_running s (sc_current (s_core s))). cbv zeta.
  set (c := sc_current (s_core s)) in *. destruct (is_running s c) eqn:Er; cbn [andb].
  - destruct (Z.eqb_spec c (sc_idle (s_core s))) as [Ei|Ei]; cbn [negb].
    + eexists. split; [reflexivity|]. split_and!; [by apply quiet_idle|by repeat split|].
      intros q. rewrite node_upd. case_decide; subst; auto.
    + destruct (proj1 (rep_parts _ _ _ _) Hrep) as (Hb & Hq & Hinv & _).
      assert (c ∈ reg s) as Hc by apply Hb.
      destruct (running_facts self s rq sq c Hrep Hc Er) as (_ & _ & _ & Hnr & Hns).
      apply (queues_hole s c) in Hq; [|done..].
      pose proof (ready_push_core s c) as (Hsame & _). pose proof Hsame as (_ & Ec & _).
      exists (ready_push s c). split; [reflexivity|]. split_and!; [|done|]; cycle 1.
      { intros q. destruct (decide (q = c)) as [-> |Hne]; [right; by rewrite (push_node_self self s c rq sq)|].
        left. by apply (push_state self s c rq sq). }
      apply quiet_of_rep.
      * apply ready_push_rep; try done; [by intros; apply Hinv|by apply inv_base, Hinv].
      * rewrite Ec. fold c. unfold is_running. by rewrite (push_node_self self s c rq sq).
      * rewrite Ec. fold c. by rewrite (push_node_self self s c rq sq).
  - exists s. split; [reflexivity|]. split_and!; [by apply quiet_of_rep|by repeat split|auto].
Qed.

Lemma select_spec s force rq sq : sched_typed s -> sched_rep self s rq sq ->
  st_preempt_depth (node s (sc_current (s_core s))) = 0 ->
  force = true \/ sc_reschedule (s_core s) = true ->
  let next := default (sc_idle (s_core s)) (head (requeued s rq)) in
  exists s', sched_core_select self s force = (s', next) /\
    sched_rep self s' (tail (requeued s rq)) sq /\
    sc_current (s_core s') = next /\ is_running s' next = true /\
    st_quantum_left (node s' next) = sc_quantum_ticks (s_core s) /\
    st_preempt_depth (node s' next) = 0 /\ sc_reschedule (s_core s') = false /\
    sc_idle (s_core s') = sc_idle (s_core s) /\ sc_now (s_core s') = sc_now (s_core s).
Proof.
  intros Hty Hrep Hpd Hf. destruct (select_quiet s force rq sq Hty Hrep Hpd Hf) as (s1 & -> & Hq & Hsame & _).
  destruct (dispatch_spec s1 _ sq (sc_current (s_core s)) Hq) as (s' & -> & Hn & Hc).
  destruct Hsame as (_ & _ & Ei & Enow & _ & _ & Eqt & _). rewrite Ei in *. cbv zeta.
  set (next := default _ _) in *. exists s'. split_and!; try done.
  - eapply (dispatched_rep s1 _ sq (sc_current (s_core s)) Hq s'); rewrite Ei; done.
  - by rewrite Hc.
  - unfold is_running. by rewrite Hn, decide_True.
  - rewrite Hn, decide_True by done. simpl. done.
  - rewrite Hn, decide_True by done. simpl. destruct (dispatch_next s1 _ sq (sc_current (s_core s)) Hq) as (Hreg & _).
    rewrite Ei in Hreg. destruct Hq as (_ & _ & Hq). by destruct (Hq _ Hreg).
  - by rewrite Hc.
  - by rewrite Hc.
  - by rewrite Hc.
Qed.
End select.
