(* ===== verification/SchedTrace.v ===== *)
(** * The scheduler policy: histories and properties *)

From stdpp Require Import sorting.
From S2P Require Import Prelude SchedCore SchedInv SchedOps SchedTick.
Open Scope Z_scope.

Inductive sched_op :=
  | SchedAdd (task : Z)
  | SchedTick (now : Z)
  | SchedSelect (force : bool)
  | SchedSleep (delay : Z)
  | SchedBlock
  | SchedWake (task : Z)
  | SchedExit
  | SchedRemove (task : Z)
  | SchedDisable
  | SchedEnable.

(** Times and delays are values of [uint64_t]; addresses are arbitrary. *)
Definition sched_op_ok (op : sched_op) : Prop :=
  match op with SchedTick v | SchedSleep v => u64_ok v | _ => True end.

Definition sched_apply (self : Z) (s : sched) (op : sched_op) : sched :=
  match op with
  | SchedAdd task => fst (sched_core_add self s task)
  | SchedTick now => fst (sched_core_tick self s now)
  | SchedSelect force => fst (sched_core_select self s force)
  | SchedSleep delay => fst (sched_core_sleep_current self s delay)
  | SchedBlock => fst (sched_core_block_current self s)
  | SchedWake task => fst (sched_core_wake self s task)
  | SchedExit => fst (sched_core_exit_current self s)
  | SchedRemove task => fst (sched_core_remove_zombie self s task)
  | SchedDisable => fst (sched_core_preempt_disable self s)
  | SchedEnable => fst (sched_core_preempt_enable self s)
  end.

Definition sched_history (self : Z) (s : sched) (ops : list sched_op) : sched :=
  foldl (sched_apply self) s ops.

(** ** Every operation keeps the C types *)

Lemma typed_link_set s l v : sched_typed s -> sched_typed (link_set s l v).
Proof. intros H. destruct l; simpl; [by apply typed_same|apply typed_upd; auto with sched]. Qed.

Lemma typed_tick_current s : sched_typed s -> sched_typed (tick_current s).
Proof.
  intros H. unfold tick_current. cbv zeta.
  assert (sched_typed (upd (fun t => set_run_ticks (increment (st_run_ticks t)) t) (sc_current (s_core s)) s)) as H1.
  { apply typed_upd; [done|]. intros t Ht. apply typed_set_run; [|done]. apply increment_ok, Ht. }
  destruct (state_eqb _ _); [|done]. destruct (negb _); [|done].
  match goal with |- context [if negb ?b then ?x else ?y] => assert (sched_typed (if negb b then x else y)) as H2; [|set (u := if negb b then x else y) in *] end.
  { destruct (negb _); [|done]. apply typed_upd; [done|]. intros t Ht. apply typed_set_quantum; [apply u32_range|done]. }
  destruct (st_quantum_left (node u _) =? 0); [by apply typed_same|done].
Qed.

Lemma typed_wake_due now fuel : forall s, sched_typed s -> sched_typed (wake_due fuel now s).
Proof.
  induction fuel as [|fuel IH]; intros s H; simpl; [done|].
  destruct (_ && _); [|done]. apply IH, typed_ready_push. by apply typed_same.
Qed.

Lemma typed_dispatch s old : sched_typed s -> sched_typed (fst (dispatch s old)).
Proof.
  intros H. unfold dispatch. cbv zeta. cbn [fst].
  match goal with |- context [upd (set_next NULL) ?n ?x] =>
    set (nx := n); assert (sched_typed x) as H0; [|set (u := x) in *] end.
  { destruct (negb _); [by apply typed_same|done]. }
  assert (sched_typed (upd (set_quantum (sc_quantum_ticks (s_core u))) nx (upd (set_wake 0) nx
    (upd (set_state UTAMO_SCHED_RUNNING) nx (upd (set_next NULL) nx u))))) as H1.
  { apply typed_upd; [|intros t; apply typed_set_quantum, H0].
    apply typed_upd; [|intros t; by apply typed_set_wake].
    apply typed_upd; [|auto with sched]. apply typed_upd; auto with sched. }
  match goal with |- context [with_core (fun c => set_reschedule false _) ?x] =>
    assert (sched_typed (with_core (fun c => set_reschedule false (set_current nx (sc_switches c) c)) x)) as H2 end.
  { by apply typed_same. }
  destruct (negb (nx =? old)); [|done]. apply typed_core; try apply H2. apply increment_ok, H2.
Qed.

Section typed.
Context (self : Z).

Lemma typed_add s t : sched_typed s -> sched_typed (fst (sched_core_add self s t)).
Proof.
  intros H. unfold sched_core_add. destruct (_ || _); [done|]. cbv zeta. cbn [fst].
  apply typed_ready_push, typed_core.
  - apply typed_upd; [done|]. intros _ _. destruct H. constructor; simpl; try done.
  - simpl. rewrite length_arr_set. apply H.
  - apply H.
  - apply u64_range.
  - apply H.
  - apply H.
  - apply H.
Qed.

Lemma typed_tick s now : u64_ok now -> sched_typed s -> sched_typed (fst (sched_core_tick self s now)).
Proof.
  intros Hn H. unfold sched_core_tick. destruct (_ || _); [done|]. cbv zeta. cbn [fst].
  apply typed_wake_due, typed_tick_current, typed_core; try apply H; [done|]. apply increment_ok, H.
Qed.

Lemma select_cases s force :
  sched_core_select self s force = (s, NULL) \/
  sched_core_select self s force = (s, sc_current (s_core s)) \/
  exists s1, sched_core_select self s force = dispatch s1 (sc_current (s_core s)) /\
    (s1 = s \/ s1 = upd (set_state UTAMO_SCHED_READY) (sc_current (s_core s)) s \/
     s1 = ready_push s (sc_current (s_core s))).
Proof.
  unfold sched_core_select. destruct (negb _); [by left|right]. cbv zeta.
  destruct (_ || _); [by left|right]. destruct (state_eqb _ _); [destruct (_ =? sc_idle _)|];
    (eexists; split; [reflexivity|tauto]).
Qed.

Lemma typed_select s force : sched_typed s -> sched_typed (fst (sched_core_select self s force)).
Proof.
  intros H. destruct (select_cases s force) as [->|[->|(s1 & -> & Hs1)]]; [done|done|].
  apply typed_dispatch. destruct Hs1 as [-> | [-> | ->]]; [done| |by apply typed_ready_push].
  apply typed_upd; auto with sched.
Qed.

Lemma typed_sleep s delay : sched_typed s -> sched_typed (fst (sched_core_sleep_current self s delay)).
Proof.
  intros H. unfold sched_core_sleep_current. destruct (_ || _); [done|]. cbv zeta.
  destruct (link_walk _ _ _ _); [|done]. cbn [fst]. apply typed_same; [|done]. apply typed_link_set.
  apply typed_upd; [|auto with sched]. apply typed_upd; [|auto with sched].
  apply typed_upd; [done|]. intros t. apply typed_set_wake, u64_range.
Qed.

Lemma typed_wake s t : sched_typed s -> sched_typed (fst (sched_core_wake self s t)).
Proof.
  intros H. unfold sched_core_wake. destruct (_ || _); [done|]. destruct (state_eqb _ _).
  - destruct (link_walk _ _ _ _); [|done]. by apply typed_ready_push, typed_link_set.
  - by apply typed_ready_push.
Qed.

Lemma typed_retire v s : sched_typed s ->
  sched_typed (with_core (set_reschedule true) (upd (set_state v) (sc_current (s_core s)) s)).
Proof. intros H. apply typed_same; [|done]. apply typed_upd; auto with sched. Qed.

Lemma typed_remove s t : sched_typed s -> sched_typed (fst (sched_core_remove_zombie self s t)).
Proof.
  intros H. unfold sched_core_remove_zombie. destruct (negb _); [done|]. cbv zeta.
  destruct (_ || _); [done|]. cbn [fst]. apply typed_upd.
  - apply typed_core; try apply H. simpl. rewrite length_arr_set. apply H.
  - intros _ _. by constructor.
Qed.

Lemma typed_init s idle bootstrap quantum now : (forall p, task_typed (node s p)) ->
  0 < quantum <= UINT32_MAX -> u64_ok now ->
  snd (sched_core_init self s idle bootstrap quantum now) = true ->
  sched_typed (fst (sched_core_init self s idle bootstrap quantum now)).
Proof.
  intros H Hq Hn. unfold sched_core_init. destruct (_ || _); [done|]. intros _. cbv zeta. cbn [fst].
  constructor; try done; try (simpl; lia).
  intros p. rewrite node_with_core, !node_upd. repeat case_decide; try apply H; constructor; simpl; done || lia.
Qed.

Lemma typed_apply s op : sched_op_ok op -> sched_typed s -> sched_typed (sched_apply self s op).
Proof.
  intros Hop H. destruct op; simpl in *.
  - by apply typed_add.
  - by apply typed_tick.
  - by apply typed_select.
  - by apply typed_sleep.
  - unfold sched_core_block_current. destruct (negb _); [done|]. by apply typed_retire.
  - by apply typed_wake.
  - unfold sched_core_exit_current. destruct (negb _); [done|]. by apply typed_retire.
  - by apply typed_remove.
  - unfold sched_core_preempt_disable. destruct (_ || _); [done|]. apply typed_upd; [done|].
    intros t. apply typed_set_preempt, u32_range.
  - unfold sched_core_preempt_enable. destruct (_ || _); [done|]. apply typed_upd; [done|].
    intros t. apply typed_set_preempt, u32_range.
Qed.
End typed.

(** ** Every operation keeps the scheduler valid *)

Section valid.
Context (self : Z) (Hself : self <> NULL).

Lemma invalid_unchanged s op : sched_core_validate self s = false -> sched_apply self s op = s.
Proof.
  intros Hv. pose proof (invalid_cannot_wait self s Hv) as Hw. destruct op; simpl;
    unfold sched_core_add, sched_core_tick, sched_core_select, sched_core_sleep_current,
      sched_core_block_current, sched_core_wake, sched_core_exit_current, sched_core_remove_zombie,
      sched_core_preempt_disable, sched_core_preempt_enable; by rewrite ?Hv, ?Hw.
Qed.

Lemma add_rep s t rq sq : sched_typed s -> sched_rep self s rq sq ->
  exists rq', sched_rep self (fst (sched_core_add self s t)) rq' sq.
Proof.
  intros Hty Hrep. destruct (decide (t <> NULL /\ st_owner (node s t) = NULL /\
    sc_task_count (s_core s) <> UTAMO_SCHED_MAX_TASKS /\ sc_next_id (s_core s) <> UINT64_MAX)) as [(?&?&?&?)|Hno].
  - destruct (add_spec self Hself s t rq sq) as [-> ?]; eauto.
  - exists rq. unfold sched_core_add. destruct (_ || _) eqn:G; [done|]. exfalso. apply Hno.
    repeat rewrite orb_false_iff in G. rewrite !Z.eqb_neq, !negb_false_iff, Z.eqb_eq in G. tauto.
Qed.

Lemma tick_rep s now rq sq : sched_typed s -> sched_rep self s rq sq -> u64_ok now ->
  exists rq' sq', sched_rep self (fst (sched_core_tick self s now)) rq' sq'.
Proof.
  intros Hty Hrep Hn. destruct (decide (sc_now (s_core s) <= now)).
  - destruct (tick_spec self s rq sq now Hty Hrep Hn) as (s' & w & rest & -> & _ & _ & _ & ? & _); eauto.
  - exists rq, sq. unfold sched_core_tick. destruct (Z.ltb_spec now (sc_now (s_core s))); [|lia].
    by rewrite orb_true_r.
Qed.

Lemma select_rep s force rq sq : sched_typed s -> sched_rep self s rq sq ->
  exists rq', sched_rep self (fst (sched_core_select self s force)) rq' sq.
Proof.
  intros Hty Hrep.
  destruct (decide (st_preempt_depth (node s (sc_current (s_core s))) = 0)) as [Hp|Hp].
  - destruct (decide (force = true \/ sc_reschedule (s_core s) = true)) as [Hf|Hf].
    + destruct (select_spec self s force rq sq Hty Hrep Hp Hf) as (s' & -> & ? & _). eauto.
    + rewrite (select_stays self s force rq sq Hty Hrep); [eauto|]. right.
      destruct force, (sc_reschedule (s_core s)); tauto.
  - rewrite (select_stays self s force rq sq Hty Hrep) by tauto. eauto.
Qed.

Lemma sleep_rep s delay rq sq : sched_typed s -> sched_rep self s rq sq -> u64_ok delay ->
  exists sq', sched_rep self (fst (sched_core_sleep_current self s delay)) rq sq'.
Proof.
  intros Hty Hrep Hd. destruct (current_can_wait self s) eqn:Hw; cycle 1.
  { exists sq. unfold sched_core_sleep_current. by rewrite Hw. }
  pose proof Hw as (Hi & Hr & Hp)%(can_wait_spec self s rq sq Hty Hrep).
  pose proof (ty_now _ Hty). unfold u64_ok in *.
  destruct (decide (0 < delay /\ sc_now (s_core s) + delay <= UINT64_MAX)) as [[? ?]|Hno].
  - destruct (sleep_spec self s rq sq delay) as (l1 & l2 & _ & _ & _ & -> & ? & _); eauto.
  - exists sq. unfold sched_core_sleep_current. rewrite Hw, u64_small by (unfold u64_ok; lia).
    destruct (Z.eqb_spec delay 0); [done|].
    destruct (Z.ltb_spec (UINT64_MAX - sc_now (s_core s)) delay); [done|]. lia.
Qed.

Lemma wake_rep s t rq sq : sched_typed s -> sched_rep self s rq sq ->
  exists rq' sq', sched_rep self (fst (sched_core_wake self s t)) rq' sq'.
Proof.
  intros Hty Hrep. destruct (registered (s_core s) t) eqn:Hr; cycle 1.
  { exists rq, sq. unfold sched_core_wake. rewrite Hr. by rewrite orb_true_r. }
  apply registered_reg in Hr as Ht; [|done].
  destruct (st_state (node s t)) eqn:Est;
    try (exists rq, sq; unfold sched_core_wake; rewrite Est; by rewrite orb_true_r).
  - destruct (wake_blocked_spec self s rq sq t Hty Hrep Ht Est) as [-> ?]. eauto.
  - destruct (wake_sleeping_spec self s rq sq t Hty Hrep Ht Est) as (l1 & l2 & _ & -> & ?). eauto.
Qed.

Lemma remove_rep s t rq sq : sched_typed s -> sched_rep self s rq sq ->
  sched_rep self (fst (sched_core_remove_zombie self s t)) rq sq.
Proof.
  intros Hty Hrep. unfold sched_core_remove_zombie at 1. destruct (negb _); [done|]. cbv zeta.
  destruct (_ || _) eqn:G; [done|]. repeat rewrite orb_false_iff in G.
  rewrite negb_false_iff, state_eqb_true, !Z.eqb_neq in G. destruct G as [[[Hs ?] ?] ?].
  assert (t ∈ reg s) as Ht by (apply registered_reg; [done|]; by apply negb_true_iff, Z.eqb_neq).
  by destruct (remove_spec self Hself s t rq sq Hty Hrep Ht) as (_ & ? & _).
Qed.

Lemma preempt_guard s v b rq sq : sched_rep self s rq sq ->
  sched_rep self (fst (if negb (sched_core_validate self s) ||
      negb (state_eqb (st_state (node s (sc_current (s_core s)))) UTAMO_SCHED_RUNNING) || b
    then (s, false) else (upd (fun t => set_preempt (v t) t) (sc_current (s_core s)) s, true))) rq sq.
Proof.
  intros Hrep. destruct (_ || _) eqn:G; [done|]. repeat rewrite orb_false_iff in G.
  destruct G as [[_ Hr%negb_false_iff] _]. by apply set_preempt_rep.
Qed.

Lemma sched_apply_rep s op rq sq : sched_op_ok op -> sched_typed s -> sched_rep self s rq sq ->
  exists rq' sq', sched_rep self (sched_apply self s op) rq' sq'.
Proof.
  intros Hop Hty Hrep. destruct op; simpl in *.
  - destruct (add_rep s task rq sq Hty Hrep) as [rq' ?]. eauto.
  - by apply (tick_rep s now rq sq).
  - destruct (select_rep s force rq sq Hty Hrep) as [rq' ?]. eauto.
  - destruct (sleep_rep s delay rq sq Hty Hrep Hop) as [sq' ?]. eauto.
  - exists rq, sq. destruct (current_can_wait self s) eqn:Hw.
    + by destruct (block_spec self s rq sq Hty Hrep Hw) as [-> ?].
    + unfold sched_core_block_current. by rewrite Hw.
  - by apply (wake_rep s task rq sq).
  - exists rq, sq. destruct (current_can_wait self s) eqn:Hw.
    + by destruct (exit_spec self s rq sq Hty Hrep Hw) as [-> ?].
    + unfold sched_core_exit_current. by rewrite Hw.
  - exists rq, sq. by apply remove_rep.
  - exists rq, sq. by apply (preempt_guard s (fun t => u32 (st_preempt_depth t + 1))).
  - exists rq, sq. by apply (preempt_guard s (fun t => u32 (st_preempt_depth t - 1))).
Qed.

Lemma sched_history_valid_from ops : forall s, Forall sched_op_ok ops -> sched_typed s ->
  sched_core_validate self s = true ->
  sched_core_validate self (sched_history self s ops) = true /\ sched_typed (sched_history self s ops).
Proof.
  induction ops as [|op ops IH]; intros s Hops Hty Hv; simpl; [done|].
  inversion Hops as [|? ? Hop Hops']; subst. pose proof (typed_apply self s op Hop Hty) as Hty'.
  apply IH; [done|done|]. apply (validate_rep self); [done|].
  apply (validate_rep self) in Hv as (rq & sq & Hrep); [|done]. by eapply sched_apply_rep.
Qed.
End valid.
