(* ===== verification/SchedMoves.v ===== *)
(** * The scheduler policy, seen from its client

    [sched_ok] is the invariant with the queues hidden; [moved] is what scheduler.c
    relies on when it calls sched_core.c: the registered tasks stay the same, and
    no task becomes a zombie or stops being one. *)

From S2P Require Import Prelude SchedCore SchedInv SchedOps SchedTick SchedTrace.
Open Scope Z_scope.

Definition zombie (s : sched) (p : Z) : Prop := st_state (node s p) = UTAMO_SCHED_ZOMBIE.

Section moves.
Context (self : Z) (Hself : self <> NULL).
Implicit Types s : sched.

Definition sched_ok s : Prop := sched_typed s /\ exists rq sq, sched_rep self s rq sq.

Record moved s s' : Prop := {
  mv_ok : sched_ok s';
  mv_tasks : sc_tasks (s_core s') = sc_tasks (s_core s);
  mv_idle : sc_idle (s_core s') = sc_idle (s_core s);
  mv_count : sc_task_count (s_core s') = sc_task_count (s_core s);
  mv_zombie : forall p, p ∈ reg s -> zombie s' p <-> zombie s p
}.

Lemma moved_reg s s' : moved s s' -> reg s' = reg s.
Proof. intros M. unfold reg. by rewrite (mv_tasks _ _ M). Qed.

Lemma moved_refl s : sched_ok s -> moved s s.
Proof. by constructor. Qed.

Lemma ok_valid s : sched_ok s -> sched_core_validate self s = true.
Proof. intros [Hty (rq & sq & Hr)]. apply (validate_rep self s Hty). by eauto. Qed.

Lemma ok_current s : sched_ok s -> sc_current (s_core s) ∈ reg s /\ sc_idle (s_core s) ∈ reg s.
Proof. intros [_ (rq & sq & Hr)]. split; apply Hr. Qed.

Lemma idle_not_zombie s : sched_ok s -> ~ zombie s (sc_idle (s_core s)).
Proof.
  intros [_ (rq & sq & Hr)]. destruct (ti_idle _ _ _ (rep_tasks _ _ _ _ Hr _ (rep_idle _ _ _ _ Hr)) eq_refl) as (_ & _ & _ & E). unfold zombie. rewrite E. by destruct (_ =? _).
Qed.

Lemma zombie_depth s p : sched_ok s -> p ∈ reg s -> zombie s p -> st_preempt_depth (node s p) = 0.
Proof. intros [_ (rq & sq & Hr)] Hp Hz. pose proof (ti_state _ _ _ (rep_tasks _ _ _ _ Hr p Hp)) as Hs. unfold zombie in Hz. rewrite Hz in Hs. apply Hs. Qed.

Lemma running_not_zombie s p : is_running s p = true -> ~ zombie s p.
Proof. unfold is_running, zombie. rewrite state_eqb_true. by intros ->. Qed.

(** Equal states of all tasks that are not in the ready queue. *)
Lemma moved_by s s' rq sq rq' sq' : sched_typed s' -> same_core s' s \/ (sc_tasks (s_core s') = sc_tasks (s_core s) /\ sc_idle (s_core s') = sc_idle (s_core s) /\ sc_task_count (s_core s') = sc_task_count (s_core s)) ->
  sched_rep self s rq sq -> sched_rep self s' rq' sq' -> 
  (forall p, p ∈ reg s -> st_state (node s' p) = st_state (node s p) \/ (~ zombie s p /\ ~ zombie s' p)) -> moved s s'.
Proof.
  intros Hty Hc R R' Hs. assert (sc_tasks (s_core s') = sc_tasks (s_core s) /\ sc_idle (s_core s') = sc_idle (s_core s) /\ sc_task_count (s_core s') = sc_task_count (s_core s)) as (E1 & E2 & E3) by (destruct Hc as [(? & ? & ? & ? & ? & ? & _)|]; done).
  constructor; [split; [done|by eauto]|done|done|done|]. intros p Hp. unfold zombie. destruct (Hs p Hp) as [-> |[H1 H2]]; [done|]. unfold zombie in *. tauto.
Qed.

Lemma tick_moved s now : sched_ok s -> u64_ok now -> sc_now (s_core s) <= now ->
  exists s', sched_core_tick self s now = (s', true) /\ moved s s' /\ sc_current (s_core s') = sc_current (s_core s) /\ sc_now (s_core s') = now /\
  (is_running s (sc_current (s_core s)) = true -> is_running s' (sc_current (s_core s)) = true /\ st_preempt_depth (node s' (sc_current (s_core s))) = st_preempt_depth (node s (sc_current (s_core s)))).
Proof.
  intros [Hty (rq & sq & Hrep)] Hnow Hle. destruct (tick_spec self s rq sq now Hty Hrep Hnow Hle) as (s' & w & rest & Et & E & _ & _ & R' & Hn & Hc & _). pose proof (typed_tick self s now Hnow Hty) as Hty'. rewrite Et in Hty'. cbn [fst] in Hty'. exists s'.
  set (s0 := with_core (fun c => set_clock now (increment (sc_ticks c)) c) s). pose proof (tick_start self s rq sq now Hty Hrep) as Hti. fold s0 in Hti.
  destruct (tick_current_facts s0) as (Hsame & _ & _ & _ & _ & Hother & r & ql & Hcur & _); [intros p; apply Hty|]. change (sc_current (s_core s0)) with (sc_current (s_core s)) in *. set (c := sc_current (s_core s)) in *.
  destruct (queue_length self s rq sq Hty Hrep) as [_ Hlen]. destruct (wake_due_spec self now (Z.to_nat UTAMO_SCHED_MAX_TASKS) _ rq sq Hlen Hti) as (w' & rest' & E' & _ & _ & Hti' & Hsame' & Hn' & _).
  assert (s' = wake_due (Z.to_nat UTAMO_SCHED_MAX_TASKS) now (tick_current s0)) as Es.
  { revert Et. unfold sched_core_tick. rewrite (proj2 (validate_rep self s Hty)) by eauto. cbn [negb orb]. destruct (Z.ltb_spec now (sc_now (s_core s))); [lia|]. fold s0. generalize (wake_due (Z.to_nat UTAMO_SCHED_MAX_TASKS) now (tick_current s0)). intros x Ex. by injection Ex as ->. }
  rewrite <- Es in Hti', Hsame', Hn'. pose proof (same_core_trans _ _ _ Hsame' Hsame) as Hs'.
  assert (forall p, st_state (node (tick_current s0) p) = st_state (node s p) /\ st_preempt_depth (node (tick_current s0) p) = st_preempt_depth (node s p)) as Hst by (intros p; destruct (decide (p = c)) as [-> |Hne]; [by rewrite Hcur|by rewrite Hother]).
  split_and!; [done| |done|done|].
  - apply (moved_by s s' rq sq (rq ++ w) rest); [done|right; by destruct Hs' as (? & _ & ? & _ & _ & ? & _)|done|done|]. intros p Hp. destruct (decide (p ∈ rq ++ w')) as [Hin|Hno].
    + right. apply elem_of_app in Hin. assert (~ zombie s p) as Hz.
      { unfold zombie. destruct Hin as [Hin|Hin]; [apply (rep_ready _ _ _ _ Hrep) in Hin as [_ Hin]|].
        - unfold is_ready in Hin. apply andb_true_iff in Hin as [Hin%state_eqb_true _]. by rewrite Hin.
        - assert (p ∈ sq) as Hs by (rewrite E'; apply elem_of_app; by left). apply (rep_sleeping _ _ _ _ Hrep) in Hs as [_ Hs]. unfold is_sleeping in Hs. apply state_eqb_true in Hs. by rewrite Hs. }
      split; [done|]. destruct (proj1 (qu_ready _ _ _ _ (tv_queues _ _ _ _ Hti') p) ltac:(by apply elem_of_app)) as (_ & _ & Hr). unfold is_ready in Hr. apply andb_true_iff in Hr as [Hr%state_eqb_true _]. unfold zombie. by rewrite Hr.
    + left. rewrite Hn'; [apply Hst|by intros ?; apply Hno, elem_of_app; left|by intros ?; apply Hno, elem_of_app; right].
  - intros Hr. destruct (running_facts self s rq sq c Hrep (rep_current _ _ _ _ Hrep) Hr) as (_ & _ & _ & Hnr & Hns). assert (node s' c = node (tick_current s0) c) as En.
    { apply Hn'; [rewrite (rep_ready _ _ _ _ Hrep); intros [_ ?]; congruence|]. intros Hw. assert (c ∈ sq) as Hs by (rewrite E'; apply elem_of_app; by left). apply (rep_sleeping _ _ _ _ Hrep) in Hs as [_ ?]. congruence. }
    unfold is_running. rewrite En. destruct (Hst c) as [-> ->]. done.
Qed.

(** Selection: the current task stays, or a task that is no zombie takes over. *)
Lemma next_not_zombie s rq sq : sched_ok s -> sched_rep self s rq sq -> ~ zombie s (default (sc_idle (s_core s)) (head (requeued s rq))).
Proof.
  intros Hok Hrep. assert (forall p, p ∈ rq -> ~ zombie s p) as Hr.
  { intros p Hp. apply (rep_ready _ _ _ _ Hrep) in Hp as [_ Hp]. unfold is_ready in Hp. apply andb_true_iff in Hp as [Hp%state_eqb_true _]. unfold zombie. by rewrite Hp. }
  unfold requeued. destruct rq as [|p rq]; [|destruct (_ && _); apply Hr; by left].
  destruct (is_running _ _) eqn:E; cbn [andb]; [|by apply idle_not_zombie]. destruct (Z.eqb_spec (sc_current (s_core s)) (sc_idle (s_core s))); cbn; [by apply idle_not_zombie|by apply running_not_zombie].
Qed.

Lemma select_moved s force : sched_ok s -> (~ zombie s (sc_current (s_core s)) \/ (force = true /\ st_preempt_depth (node s (sc_current (s_core s))) = 0)) ->
  exists s' next, sched_core_select self s force = (s', next) /\ moved s s' /\ sc_current (s_core s') = next /\ next ∈ reg s /\ ~ zombie s next /\ sc_now (s_core s') = sc_now (s_core s) /\
    ((s' = s /\ next = sc_current (s_core s) /\ ~ (force = true /\ st_preempt_depth (node s (sc_current (s_core s))) = 0)) \/ (is_running s' next = true /\ st_preempt_depth (node s' next) = 0)).
Proof.
  intros Hok Hz. pose proof Hok as [Hty (rq & sq & Hrep)]. destruct (decide (st_preempt_depth (node s (sc_current (s_core s))) = 0 /\ (force = true \/ sc_reschedule (s_core s) = true))) as [[Hd Hf]|Hn]; cycle 1.
  { exists s, (sc_current (s_core s)). split_and!; [|by apply moved_refl|done|by apply ok_current| |done|left; split_and!; [done|done|tauto]].
    - apply (select_stays self s force rq sq Hty Hrep). destruct (decide (st_preempt_depth (node s (sc_current (s_core s))) = 0)); [|by left]. right. destruct force; [tauto|]. split; [done|]. apply not_true_iff_false. tauto.
    - destruct Hz as [|[-> Hd]]; [done|]. tauto. }
  destruct (select_spec self s force rq sq Hty Hrep Hd Hf) as (s' & Es & R' & Hc & Hrun & _ & Hd' & _ & Hi & Hnow). pose proof (next_not_zombie s rq sq Hok Hrep) as Hnz. set (next := default _ _) in *. exists s', next.
  pose proof (typed_select self s force Hty) as Hty'. rewrite Es in Hty'. cbn [fst] in Hty'. destruct (select_quiet self s force rq sq Hty Hrep Hd Hf) as (s1 & E1 & Hq & Hsame & Hst).
  destruct (dispatch_spec self s1 _ sq (sc_current (s_core s)) Hq) as (s2 & E2 & Hnode & Hcore). pose proof Hsame as (Et & _ & Ei & _ & _ & Ect & _). rewrite Ei in E2, Hnode, Hcore. fold next in E2, Hnode, Hcore.
  assert (s2 = s') as -> by (rewrite Es, E2 in E1; by injection E1). destruct (dispatch_next self s1 (requeued s rq) sq (sc_current (s_core s)) Hq) as (Hin & _ & _). rewrite Ei in Hin. fold next in Hin.
  assert (reg s1 = reg s) as Er by (unfold reg; by rewrite Et). rewrite Er in Hin.
  split_and!; [done| |done|done|done|done|by right]. apply (moved_by s s' rq sq (tail (requeued s rq)) sq); [done| |done|done|].
  - right. rewrite Hcore. cbn. by rewrite Et, Ei, Ect.
  - intros p Hp. rewrite (Hnode p). unfold zombie. rewrite (Hnode p). destruct (decide (p = next)) as [-> |Hne]; [right; by split|]. destruct (Hst p) as [E|[Hr E]]; [by left|].
    right. rewrite E. split; [by apply (running_not_zombie s)|done].
Qed.

(** The current task waits, or the call is refused. *)
Definition waits s s' (b : bool) : Prop :=
  moved s s' /\ sc_current (s_core s') = sc_current (s_core s) /\ sc_now (s_core s') = sc_now (s_core s) /\
  (b = false -> s' = s) /\
  (b = true -> is_running s (sc_current (s_core s)) = true /\ ~ zombie s' (sc_current (s_core s)) /\ st_preempt_depth (node s' (sc_current (s_core s))) = 0).

Lemma waits_not s : sched_ok s -> waits s s false.
Proof. intros Hok. split_and!; [by apply moved_refl|done..]. Qed.

Lemma sleep_moved s delay : sched_ok s -> u64_ok delay -> exists s' b, sched_core_sleep_current self s delay = (s', b) /\ waits s s' b.
Proof.
  intros Hok Hdel. pose proof Hok as [Hty (rq & sq & Hrep)]. destruct (current_can_wait self s) eqn:Hw; cycle 1.
  { exists s, false. split; [unfold sched_core_sleep_current; by rewrite Hw|by apply waits_not]. }
  pose proof Hw as (Hi & Hr & Hp)%(can_wait_spec self s rq sq Hty Hrep). pose proof (ty_now _ Hty). unfold u64_ok in *.
  destruct (decide (0 < delay /\ sc_now (s_core s) + delay <= UINT64_MAX)) as [[H1 H2]|Hno]; cycle 1.
  { exists s, false. split; [|by apply waits_not]. unfold sched_core_sleep_current. rewrite Hw, u64_small by (unfold u64_ok; lia).
    destruct (Z.eqb_spec delay 0); [done|]. destruct (Z.ltb_spec (UINT64_MAX - sc_now (s_core s)) delay); [done|]. lia. }
  destruct (sleep_spec self s rq sq delay Hty Hrep Hi Hr Hp H1 H2) as (l1 & l2 & Hsq & Hl1 & Hl2 & E & R & _). exists (slept s delay l1), true. split; [done|].
  pose proof (typed_sleep self s delay Hty) as Hty'. rewrite E in Hty'. cbn [fst] in Hty'. destruct (slept_core self s rq sq delay Hty Hrep Hi Hr Hp H1 H2 l1 l2 Hsq Hl1 Hl2) as (Hsame & _).
  pose proof (slept_node self s rq sq delay Hty Hrep Hi Hr Hp H1 H2 l1 l2 Hsq Hl1 Hl2) as Hn. pose proof Hsame as (_ & Ec & _ & En & _).
  assert (~ zombie (slept s delay l1) (sc_current (s_core s))) as Hz by (unfold zombie; rewrite Hn, decide_True by done; done).
  split_and!; [|done|done|done|]; cycle 1.
  { intros _. split_and!; [done|done|]. rewrite Hn, decide_True by done. done. }
  apply (moved_by s _ rq sq rq (l1 ++ sc_current (s_core s) :: l2)); [done|by left|done|done|].
  intros p Hp'. destruct (decide (p = sc_current (s_core s))) as [-> |Hne]; [right; split; [by apply running_not_zombie|done]|].
  left. by apply (slept_state self s rq sq delay Hty Hrep Hi Hr Hp H1 H2 l1 l2 Hsq Hl1 Hl2).
Qed.

(** What a state of the current task set to [v] is. *)
Definition retired v s : sched := with_core (set_reschedule true) (upd (set_state v) (sc_current (s_core s)) s).

Lemma retired_node v s q : node (retired v s) q = if decide (q = sc_current (s_core s)) then set_state v (node s q) else node s q.
Proof. unfold retired. rewrite node_with_core, node_upd. case_decide; by subst. Qed.

Lemma retired_ok v s : v = UTAMO_SCHED_BLOCKED \/ v = UTAMO_SCHED_ZOMBIE -> sched_ok s -> sc_current (s_core s) <> sc_idle (s_core s) ->
  is_running s (sc_current (s_core s)) = true -> st_preempt_depth (node s (sc_current (s_core s))) = 0 -> sched_ok (retired v s).
Proof.
  intros Hv [Hty (rq & sq & Hrep)] Hi Hr Hp. split; [|exists rq, sq; by apply retire_current]. by apply typed_retire.
Qed.

Lemma can_wait s : sched_ok s -> sc_current (s_core s) <> sc_idle (s_core s) -> is_running s (sc_current (s_core s)) = true ->
  st_preempt_depth (node s (sc_current (s_core s))) = 0 -> current_can_wait self s = true.
Proof. intros [Hty (rq & sq & Hrep)] ? ? ?. by apply (can_wait_spec self s rq sq Hty Hrep). Qed.

Lemma exit_moved s : sched_ok s -> sc_current (s_core s) <> sc_idle (s_core s) -> is_running s (sc_current (s_core s)) = true ->
  st_preempt_depth (node s (sc_current (s_core s))) = 0 -> sched_core_exit_current self s = (retired UTAMO_SCHED_ZOMBIE s, true) /\ sched_ok (retired UTAMO_SCHED_ZOMBIE s).
Proof.
  intros Hok Hi Hr Hp. split; [|apply retired_ok; auto]. unfold sched_core_exit_current. by rewrite can_wait.
Qed.

Lemma block_moved s : sched_ok s -> sc_current (s_core s) <> sc_idle (s_core s) -> is_running s (sc_current (s_core s)) = true ->
  st_preempt_depth (node s (sc_current (s_core s))) = 0 -> sched_core_block_current self s = (retired UTAMO_SCHED_BLOCKED s, true) /\ moved s (retired UTAMO_SCHED_BLOCKED s).
Proof.
  intros Hok Hi Hr Hp. split; [unfold sched_core_block_current; by rewrite can_wait|]. constructor; try done; [apply retired_ok; auto|].
  intros p _. unfold zombie. rewrite retired_node. case_decide; subst; [|done]. split; [done|]. intros Hz. by apply running_not_zombie in Hr.
Qed.

Lemma wake_moved s t : sched_ok s -> t ∈ reg s -> st_state (node s t) = UTAMO_SCHED_BLOCKED ->
  exists s', sched_core_wake self s t = (s', true) /\ moved s s' /\ sc_current (s_core s') = sc_current (s_core s) /\ sc_now (s_core s') = sc_now (s_core s) /\
  (forall p, p ∈ reg s -> p <> t -> st_state (node s' p) = st_state (node s p) /\ st_preempt_depth (node s' p) = st_preempt_depth (node s p)).
Proof.
  intros [Hty (rq & sq & Hrep)] Ht Hb. destruct (wake_blocked_spec self s rq sq t Hty Hrep Ht Hb) as [E R]. exists (ready_push s t).
  pose proof (typed_wake self s t Hty) as Hty'. rewrite E in Hty'. cbn [fst] in Hty'. destruct (ready_push_core s t) as (Hsame & _).
  assert (sc_ready_tail (s_core s) <> t) as Htail.
  { rewrite (rep_tail _ _ _ _ Hrep). destruct (last rq) as [q|] eqn:El; simpl; [|intros <-; by apply elem_of_reg in Ht as [? _]].
    intros ->. apply last_Some_elem_of in El. apply (rep_ready _ _ _ _ Hrep) in El as [_ El]. unfold is_ready in El. by rewrite Hb in El. }
  assert (forall q, node (ready_push s t) q = _) as Hn by (intros q; by apply ready_push_node).
  split_and!; [done| |apply Hsame|apply Hsame|].
  - apply (moved_by s _ rq sq (rq ++ [t]) sq); [done|by left|done|done|]. intros p _. unfold zombie. rewrite Hn. destruct (decide (p = t)) as [-> |]; [right; rewrite Hb; split; discriminate|]. left. by destruct (decide (_ /\ _)).
  - intros p _ Hne. rewrite Hn, decide_False by done. by destruct (decide (_ /\ _)).
Qed.

(** ** New and removed tasks *)

Lemma rep_outside s s' rq sq : s_core s' = s_core s -> (forall p, p ∈ reg s -> node s' p = node s p) -> sched_rep self s rq sq -> sched_rep self s' rq sq.
Proof.
  intros Ec Hn R. assert (reg s' = reg s) as Er by (unfold reg; by rewrite Ec). destruct R.
  assert (forall q, q ∈ rq -> node s' q = node s q) as Hrq by (intros q Hq; apply Hn; by apply rep_ready in Hq as [? _]).
  assert (forall q, q ∈ sq -> node s' q = node s q) as Hsq by (intros q Hq; apply Hn; by apply rep_sleeping in Hq as [? _]).
  constructor; rewrite ?Ec, ?Er; try done.
  - intros p q Hp Hq. rewrite !Hn by done. by apply rep_ids.
  - intros p Hp. destruct (rep_tasks p Hp). constructor; rewrite ?Ec, ?Hn by done; done.
  - unfold is_running. by rewrite Hn.
  - eapply chain_frame; [|done]. intros q Hq. by rewrite Hrq.
  - intros p. rewrite rep_ready. unfold is_ready. rewrite Ec. split; intros [H1 H2]; [|rewrite Hn in H2 by done; done]. by rewrite Hn.
  - eapply chain_frame; [|done]. intros q Hq. by rewrite Hsq.
  - intros p. rewrite rep_sleeping. unfold is_sleeping. split; intros [H1 H2]; [|rewrite Hn in H2 by done; done]. by rewrite Hn.
  - eapply StronglySorted_impl_in; [|done]. intros x y Hx Hy. by rewrite !Hsq.
Qed.

Lemma ok_outside s mem : (forall p, p ∈ reg s -> mem !!! p = node s p) -> (forall p, task_typed (mem !!! p)) -> sched_ok s -> sched_ok (MkSched (s_core s) mem).
Proof.
  intros Hm Hty [Ht (rq & sq & R)]. split; [|exists rq, sq; by apply (rep_outside s)]. destruct Ht. by constructor.
Qed.

Lemma add_moved s t : sched_ok s -> t <> NULL -> node s t = task_zero ->
  exists s' b, sched_core_add self s t = (s', b) /\ (b = false -> s' = s) /\
  (b = true -> sched_ok s' /\ t ∉ reg s /\ reg s' ≡ₚ t :: reg s /\ sc_idle (s_core s') = sc_idle (s_core s) /\ sc_current (s_core s') = sc_current (s_core s) /\
     sc_now (s_core s') = sc_now (s_core s) /\ ~ zombie s' t /\
     (forall p, p ∈ reg s -> st_state (node s' p) = st_state (node s p) /\ st_preempt_depth (node s' p) = st_preempt_depth (node s p)) /\
     (forall p, p ∉ reg s -> p <> t -> node s' p = node s p)).
Proof.
  intros [Hty (rq & sq & Hrep)] Hn Hz. assert (st_owner (node s t) = NULL) as Ho by by rewrite Hz.
  destruct (decide (sc_task_count (s_core s) <> UTAMO_SCHED_MAX_TASKS /\ sc_next_id (s_core s) <> UINT64_MAX)) as [[Hc Hi]|Hno]; cycle 1.
  { exists s, false. split; [|done]. unfold sched_core_add. destruct (_ || _) eqn:G; [done|]. exfalso. apply Hno.
    repeat rewrite orb_false_iff in G. rewrite !Z.eqb_neq, !negb_false_iff, Z.eqb_eq in G. tauto. }
  destruct (add_spec self Hself s t rq sq Hty Hrep Hn Ho Hc Hi) as [E R]. eexists _, true. split; [exact E|]. split; [done|]. intros _.
  pose proof (typed_add self s t Hty) as Hty'. rewrite E in Hty'. cbn [fst] in Hty'. set (a := added self s t) in *. pose proof (added_fresh self Hself s t rq sq Hty Hrep Hn Ho Hc Hi) as Hf.
  pose proof (added_reg self Hself s t rq sq Hty Hrep Hn Ho Hc Hi) as Hr. pose proof (added_node self Hself s t rq sq Hty Hrep Hn Ho Hc Hi) as Hnode. fold a in Hr, Hnode.
  destruct (ready_push_core a t) as (Hsame & _). pose proof (same_core_reg _ _ Hsame) as Er.
  assert (sc_ready_tail (s_core a) <> t /\ forall p, p ∉ reg s -> p <> NULL -> p <> sc_ready_tail (s_core a)) as [Htail Hout].
  { change (sc_ready_tail (s_core a)) with (sc_ready_tail (s_core s)). rewrite (rep_tail _ _ _ _ Hrep). destruct (last rq) as [q|] eqn:El; simpl; [|by split].
    apply last_Some_elem_of in El. apply (rep_ready _ _ _ _ Hrep) in El as [El _]. split; [by intros ->|]. intros p Hp _ ->. done. }
  assert (forall q, node (ready_push a t) q = _) as Hpn by (intros q; by apply ready_push_node).
  split_and!; [by split; [|by eauto]|done|by rewrite Er|apply Hsame|apply Hsame|apply Hsame| | |].
  - unfold zombie. rewrite Hpn, decide_True by done. done.
  - intros p Hp. assert (p <> t) by (intros ->; done). rewrite Hpn, decide_False by done. rewrite (Hnode p) by done. by destruct (decide (_ /\ _)).
  - intros p Hp Hne. rewrite Hpn, decide_False by done. rewrite decide_False; [by apply Hnode|]. intros [H1 H2]. destruct (decide (p = NULL)) as [-> |Hp0]; [congruence|]. by apply (Hout p).
Qed.

Lemma remove_moved s t : sched_ok s -> t ∈ reg s -> zombie s t -> t <> sc_current (s_core s) ->
  exists s', sched_core_remove_zombie self s t = (s', true) /\ sched_ok s' /\ reg s ≡ₚ t :: reg s' /\ t ∉ reg s' /\ sc_idle (s_core s') = sc_idle (s_core s) /\ sc_current (s_core s') = sc_current (s_core s) /\
     sc_now (s_core s') = sc_now (s_core s) /\ node s' t = task_zero /\ (forall p, p <> t -> node s' p = node s p).
Proof.
  intros Hok Ht Hz Hc. pose proof Hok as [Hty (rq & sq & Hrep)]. assert (t <> sc_idle (s_core s)) as Hi by (intros ->; by apply (idle_not_zombie s)).
  destruct (remove_spec self Hself s t rq sq Hty Hrep Ht) as (E & R & Hnt & Hzero); [done..|]. eexists. split; [exact E|].
  pose proof (typed_remove self s t Hty) as Hty'. rewrite E in Hty'. cbn [fst] in Hty'.
  split_and!; [by split; [|by eauto]| |done|done|done|done|done|].
  - symmetry. by apply (removed_reg self Hself s t rq sq).
  - intros p Hp. by apply (removed_node self Hself s t rq sq).
Qed.

(** ** Preemption *)

Definition depth s : Z := st_preempt_depth (node s (sc_current (s_core s))).

Lemma set_preempt_moved s v : sched_ok s -> is_running s (sc_current (s_core s)) = true -> 0 <= v <= UINT32_MAX ->
  moved s (upd (set_preempt v) (sc_current (s_core s)) s).
Proof.
  intros [Hty (rq & sq & Hrep)] Hr Hv. apply (moved_by s _ rq sq rq sq); [|left; by repeat split|done|by apply (set_preempt_rep self s rq sq (fun _ => v))|].
  - apply typed_upd; [done|]. intros t Ht. destruct Ht. by constructor.
  - intros p _. left. rewrite node_upd. case_decide; by subst.
Qed.

Lemma preempt_step s v : sched_ok s -> is_running s (sc_current (s_core s)) = true -> 0 <= v <= UINT32_MAX ->
  let s' := upd (set_preempt v) (sc_current (s_core s)) s in
  moved s s' /\ sc_current (s_core s') = sc_current (s_core s) /\ sc_now (s_core s') = sc_now (s_core s) /\ is_running s' (sc_current (s_core s)) = true /\ depth s' = v.
Proof.
  intros Hok Hr Hv. cbv zeta. split_and!; [by apply set_preempt_moved|done|done| |]; [unfold is_running in *|unfold depth]; by rewrite node_upd, decide_True.
Qed.

Lemma disable_moved s : sched_ok s -> is_running s (sc_current (s_core s)) = true -> depth s < UINT32_MAX ->
  exists s', sched_core_preempt_disable self s = (s', true) /\ moved s s' /\ sc_current (s_core s') = sc_current (s_core s) /\ sc_now (s_core s') = sc_now (s_core s) /\
    is_running s' (sc_current (s_core s)) = true /\ depth s' = depth s + 1.
Proof.
  intros Hok Hr Hd. pose proof Hok as [Hty _]. pose proof (tt_preempt _ (ty_nodes _ Hty (sc_current (s_core s)))) as Hp. unfold depth, UINT32_MAX in *.
  eexists. split; [|apply (preempt_step s); [done|done|unfold UINT32_MAX; lia]]. unfold sched_core_preempt_disable. rewrite (ok_valid s Hok). unfold is_running in Hr. rewrite Hr. cbn [negb orb].
  destruct (Z.eqb_spec (st_preempt_depth (node s (sc_current (s_core s)))) UINT32_MAX); [unfold UINT32_MAX in *; lia|]. unfold upd, node in *. do 3 f_equal. unfold u32. by rewrite Z.mod_small by lia.
Qed.

Lemma enable_moved s : sched_ok s -> is_running s (sc_current (s_core s)) = true -> depth s <> 0 ->
  exists s', sched_core_preempt_enable self s = (s', true) /\ moved s s' /\ sc_current (s_core s') = sc_current (s_core s) /\ sc_now (s_core s') = sc_now (s_core s) /\
    is_running s' (sc_current (s_core s)) = true /\ depth s' = depth s - 1.
Proof.
  intros Hok Hr Hd. pose proof Hok as [Hty _]. pose proof (tt_preempt _ (ty_nodes _ Hty (sc_current (s_core s)))) as Hp. unfold depth, UINT32_MAX in *.
  eexists. split; [|apply (preempt_step s); [done|done|unfold UINT32_MAX; lia]]. unfold sched_core_preempt_enable. rewrite (ok_valid s Hok). unfold is_running in Hr. rewrite Hr. cbn [negb orb].
  destruct (Z.eqb_spec (st_preempt_depth (node s (sc_current (s_core s)))) 0); [done|]. unfold upd, node in *. do 3 f_equal. unfold u32. by rewrite Z.mod_small by lia.
Qed.
End moves.
