(* ===== verification/SchedProps.v ===== *)
(** * The scheduler policy: what the kernel relies on

    The properties are stated on the queues read off the store, so that both
    sides evaluate. *)

From stdpp Require Import sorting.
From S2P Require Import Prelude SchedCore SchedInv SchedOps SchedTick SchedTrace.
Open Scope Z_scope.

(** The nodes reached from [p] by following [next]. *)
Fixpoint queue_from (fuel : nat) (s : sched) (p : Z) : list Z :=
  match fuel with
  | O => []
  | S fuel => if p =? NULL then [] else p :: queue_from fuel s (st_next (node s p))
  end.

Definition ready_queue (s : sched) : list Z := queue_from 64 s (sc_ready_head (s_core s)).
Definition sleep_queue (s : sched) : list Z := queue_from 64 s (sc_sleep_head (s_core s)).

Lemma queue_from_chain s l : forall fuel h, chain s h l -> (length l <= fuel)%nat -> queue_from fuel s h = l.
Proof.
  induction l as [|p l IH]; intros fuel h Hc Hf; simpl in Hc.
  - subst. by destruct fuel.
  - destruct Hc as (-> & Hp & Hc). destruct fuel as [|fuel]; simpl in Hf; [lia|]. simpl.
    destruct (Z.eqb_spec p NULL); [done|]. f_equal. apply IH; [done|lia].
Qed.

Lemma rep_ready_queue self s rq sq : sched_typed s -> sched_rep self s rq sq ->
  ready_queue s = rq /\ sleep_queue s = sq.
Proof.
  intros Hty Hrep. destruct (queue_length self s rq sq Hty Hrep).
  split; apply queue_from_chain; try done; apply Hrep.
Qed.

Lemma filter_all {A} (P : A -> Prop) `{!forall x, Decision (P x)} (l : list A) :
  (forall x, x ∈ l -> P x) -> filter P l = l.
Proof.
  induction l as [|x l IH]; intros Hl; [done|]. rewrite filter_cons_True by (apply Hl; by left).
  f_equal. apply IH. intros y Hy. apply Hl. by right.
Qed.

Lemma filter_none {A} (P : A -> Prop) `{!forall x, Decision (P x)} (l : list A) :
  (forall x, x ∈ l -> ~ P x) -> filter P l = [].
Proof.
  induction l as [|x l IH]; intros Hl; [done|]. rewrite filter_cons_False by (apply Hl; by left).
  apply IH. intros y Hy. apply Hl. by right.
Qed.

Lemma filter_split {A} (P : A -> Prop) `{!forall x, Decision (P x)} (l1 l2 : list A) :
  (forall x, x ∈ l1 -> P x) -> (forall x, x ∈ l2 -> ~ P x) ->
  filter P (l1 ++ l2) = l1 /\ filter (fun x => ~ P x) (l1 ++ l2) = l2.
Proof.
  intros H1 H2. rewrite !filter_app. split.
  - rewrite (filter_all P l1), (filter_none P l2) by done. apply app_nil_r.
  - rewrite (filter_none (fun x => ~ P x) l1), (filter_all (fun x => ~ P x) l2); auto.
Qed.

(** [n] voluntary yields in a row: the tasks they dispatch. *)
Fixpoint sched_yields (self : Z) (n : nat) (s : sched) : list Z :=
  match n with
  | O => []
  | S n => let '(s', p) := sched_core_select self s true in p :: sched_yields self n s'
  end.

Lemma yields_prefix self l1 : forall s l2 sq, sched_typed s -> sched_rep self s (l1 ++ l2) sq ->
  st_preempt_depth (node s (sc_current (s_core s))) = 0 ->
  sched_yields self (length l1) s = l1.
Proof.
  induction l1 as [|p l1 IH]; intros s l2 sq Hty Hrep Hp; [done|].
  destruct (select_spec self s true _ sq Hty Hrep Hp ltac:(by left)) as (s' & E & Hrep' & Hc & _ & _ & Hp' & _).
  pose proof (typed_select self s true Hty) as Hty'. rewrite E in Hty'.
  assert (exists l3, requeued s ((p :: l1) ++ l2) = p :: l1 ++ l3) as [l3 Hq].
  { unfold requeued. destruct (_ && _); [|by exists l2]. exists (l2 ++ [sc_current (s_core s)]).
    by rewrite app_assoc. }
  rewrite Hq in *. cbn [length sched_yields]. rewrite E. simpl in *. f_equal.
  eapply (IH s'); [done|done|]. by rewrite Hc.
Qed.

(** ** Properties *)

(** C30. From a zeroed scheduler object, initialisation succeeds, and after any
    sequence of calls with any arguments the scheduler still passes its own
    validation. *)
Theorem sched_reachable_valid (self : Z) (s : sched) (idle bootstrap quantum now : Z)
    (ops : list sched_op)
    (Hself : self <> NULL) (Hty : forall p, task_typed (node s p))
    (Hzero : sc_initialized (s_core s) = false)
    (Hidle : idle <> NULL) (Hboot : bootstrap <> NULL) (Hdiff : idle <> bootstrap)
    (Hoi : st_owner (node s idle) = NULL) (Hob : st_owner (node s bootstrap) = NULL)
    (Hq : 0 < quantum <= UINT32_MAX) (Hnow : u64_ok now) (Hops : Forall sched_op_ok ops) :
  let '(s0, r) := sched_core_init self s idle bootstrap quantum now in
  r = true /\ sched_core_validate self (sched_history self s0 ops) = true.
Proof.
  destruct (init_spec self s idle bootstrap quantum now) as (s0 & E & Hrep & _); try done; try lia.
  pose proof (typed_init self s idle bootstrap quantum now Hty Hq Hnow) as Hty0. rewrite E in *.
  split; [done|]. specialize (Hty0 eq_refl). cbn [fst] in Hty0.
  apply (sched_history_valid_from self Hself ops s0); [done|done|].
  apply validate_rep; eauto.
Qed.

(** C36. Validation decides the invariant: it accepts exactly the schedulers whose
    registry is sound and whose two linked lists hold exactly the ready tasks
    and exactly the sleeping tasks, the latter in deadline order. *)
Theorem sched_validate_decides (self : Z) (s : sched) (Hty : sched_typed s) :
  sched_core_validate self s = true <-> exists rq sq, sched_rep self s rq sq.
Proof. by apply validate_rep. Qed.

(** C33. Round robin: with preemption enabled, successive yields dispatch the ready
    tasks in queue order, so every ready task runs after at most as many
    yields as there are tasks before it. *)
Theorem sched_round_robin (self : Z) (s : sched) (Hty : sched_typed s)
    (Hv : sched_core_validate self s = true)
    (Hp : st_preempt_depth (node s (sc_current (s_core s))) = 0) :
  sched_yields self (length (ready_queue s)) s = ready_queue s.
Proof.
  apply validate_rep in Hv as (rq & sq & Hrep); [|done].
  destruct (rep_ready_queue self s rq sq Hty Hrep) as [-> _].
  apply (yields_prefix self rq s [] sq); [done|by rewrite app_nil_r|done].
Qed.

(** C34. A tick moves exactly the sleepers whose deadline has come to the end of
    the ready queue, earliest deadline first, and keeps the others asleep. *)
Theorem sched_tick_wakes (self : Z) (s : sched) (now : Z) (Hty : sched_typed s)
    (Hv : sched_core_validate self s = true) (Hnow : u64_ok now) (Hle : sc_now (s_core s) <= now) :
  let '(s', r) := sched_core_tick self s now in
  r = true /\ sc_now (s_core s') = now /\
  ready_queue s' = ready_queue s ++ filter (fun p => wake_of s p <= now) (sleep_queue s) /\
  sleep_queue s' = filter (fun p => ~ wake_of s p <= now) (sleep_queue s).
Proof.
  apply validate_rep in Hv as (rq & sq & Hrep); [|done].
  destruct (tick_spec self s rq sq now Hty Hrep Hnow Hle) as (s' & w & rest & E & -> & Hw & Hr & Hrep' & Hn & _).
  pose proof (typed_tick self s now Hnow Hty) as Hty'. rewrite E in *. cbn [fst] in Hty'.
  destruct (rep_ready_queue self s _ _ Hty Hrep) as [-> ->].
  destruct (rep_ready_queue self s' _ _ Hty' Hrep') as [-> ->].
  destruct (filter_split (fun p => wake_of s p <= now) w rest) as [-> ->]; try done.
  intros p Hp. specialize (Hr p Hp). lia.
Qed.

(** Going to sleep takes the current task off the CPU with deadline [now +
    delay] and puts it behind every sleeper that is due no later: the sleepers
    stay in deadline order, first come first served among equal deadlines. *)
Theorem sched_sleep_ordered (self : Z) (s : sched) (delay : Z) (Hty : sched_typed s)
    (Hw : current_can_wait self s = true) (Hd : 0 < delay)
    (Hmax : sc_now (s_core s) + delay <= UINT64_MAX) :
  let d := sc_now (s_core s) + delay in
  let '(s', r) := sched_core_sleep_current self s delay in
  r = true /\ sched_core_validate self s' = true /\ wake_of s' (sc_current (s_core s)) = d /\
  ready_queue s' = ready_queue s /\
  sleep_queue s' = filter (fun p => wake_of s p <= d) (sleep_queue s) ++
    sc_current (s_core s) :: filter (fun p => ~ wake_of s p <= d) (sleep_queue s).
Proof.
  assert (sched_core_validate self s = true) as Hv.
  { unfold current_can_wait in Hw. by destruct (sched_core_validate self s). }
  apply validate_rep in Hv as (rq & sq & Hrep); [|done].
  apply (can_wait_spec self s rq sq Hty Hrep) in Hw as (Hi & Hr & Hp).
  destruct (sleep_spec self s rq sq delay Hty Hrep Hi Hr Hp Hd Hmax) as (l1 & l2 & -> & H1 & H2 & E & Hrep' & Hw').
  pose proof (typed_sleep self s delay Hty) as Hty'. cbv zeta. rewrite E in *. cbn [fst] in Hty'.
  destruct (rep_ready_queue self s _ _ Hty Hrep) as [-> ->].
  destruct (rep_ready_queue self _ _ _ Hty' Hrep') as [-> ->].
  destruct (filter_split (fun p => wake_of s p <= sc_now (s_core s) + delay) l1 l2) as [-> ->]; try done.
  { intros p Hp'. specialize (H2 p Hp'). lia. }
  split_and!; try done. apply validate_rep; eauto.
Qed.

(** C35. A selection never switches while preemption is disabled or no switch was
    asked for.  Otherwise it dispatches the head of the ready queue, to whose
    end a task that was still running has been appended, or the idle task when
    that queue is empty; the chosen task starts with a full quantum and is the
    only one running. *)
Theorem sched_select_exact (self : Z) (s : sched) (force : bool) (Hty : sched_typed s)
    (Hv : sched_core_validate self s = true) :
  let cur := sc_current (s_core s) in
  let '(s', next) := sched_core_select self s force in
  if negb (st_preempt_depth (node s cur) =? 0) || negb (force || sc_reschedule (s_core s))
  then s' = s /\ next = cur
  else
    let q := requeued s (ready_queue s) in
    next = default (sc_idle (s_core s)) (head q) /\ ready_queue s' = tail q /\
    sleep_queue s' = sleep_queue s /\ sched_core_validate self s' = true /\
    sc_current (s_core s') = next /\ st_quantum_left (node s' next) = sc_quantum_ticks (s_core s) /\
    forall p, p ∈ reg s' -> is_running s' p = true <-> p = next.
Proof.
  apply validate_rep in Hv as (rq & sq & Hrep); [|done].
  destruct (rep_ready_queue self s _ _ Hty Hrep) as [-> ->]. cbv zeta.
  pose proof (typed_select self s force Hty) as Hty'.
  destruct (Z.eqb_spec (st_preempt_depth (node s (sc_current (s_core s)))) 0) as [Hp|Hp]; cbn [negb orb].
  2:{ rewrite (select_stays self s force rq sq Hty Hrep) by tauto. done. }
  destruct (force || sc_reschedule (s_core s)) eqn:Hf; cbn [negb].
  2:{ apply orb_false_iff in Hf. rewrite (select_stays self s force rq sq Hty Hrep) by tauto. done. }
  apply orb_true_iff in Hf.
  destruct (select_spec self s force rq sq Hty Hrep Hp Hf) as (s' & E & Hrep' & Hc & Hr & Hq & _).
  rewrite E in *. cbn [fst] in Hty'. destruct (rep_ready_queue self s' _ _ Hty' Hrep') as [-> ->].
  split_and!; try done; [apply validate_rep; eauto|]. intros p Hp'. split; [|by intros ->].
  intros Hrp. by destruct (running_facts self s' _ _ p Hrep' Hp' Hrp) as [-> _].
Qed.

Lemma snapshot_counts_spec self s l : forall a b c d,
  (forall p, p ∈ regs l -> task_inv self s p) ->
  exists x y, snapshot_counts s l a b c d =
    Some (a + count_if (is_ready s) (regs l), b + count_if (is_sleeping s) (regs l), x, y).
Proof.
  induction l as [|p l IH]; intros a b c d Hinv; simpl.
  { rewrite !Z.add_0_r. eauto. }
  rewrite regs_cons. destruct (Z.eqb_spec p NULL) as [->|Hp]; cbn [orb].
  { rewrite decide_True by done. apply IH. intros q Hq. apply Hinv. by rewrite regs_cons, decide_True. }
  rewrite decide_False by done. rewrite regs_cons, decide_False in Hinv by done.
  assert (forall a b c d, exists x y, snapshot_counts s l a b c d =
    Some (a + count_if (is_ready s) (regs l), b + count_if (is_sleeping s) (regs l), x, y)) as IH'.
  { intros. apply IH. intros q Hq. apply Hinv. by right. }
  pose proof (Hinv p ltac:(by left)) as Hip. simpl. unfold is_ready, is_sleeping in *.
  destruct (Z.eqb_spec p (sc_idle (s_core s))) as [Ei|Ei].
  - destruct (ti_idle _ _ _ Hip Ei) as (_ & _ & _ & Hst).
    assert (state_eqb (st_state (node s p)) UTAMO_SCHED_SLEEPING = false) as ->
      by (rewrite Hst; by destruct (p =? _)).
    rewrite andb_false_r, !Z.add_0_l. apply IH'.
  - pose proof (ti_state _ _ _ Hip) as Hst. destruct (st_state (node s p)) eqn:E; try done;
      cbn; rewrite ?Z.add_0_l, ?Z.add_assoc; apply IH'.
Qed.

(** The snapshot of a valid scheduler exists, and its ready and sleeping
    counts are the lengths of the two queues. *)
Theorem sched_snapshot_exact (self : Z) (s : sched) (Hty : sched_typed s)
    (Hv : sched_core_validate self s = true) :
  exists sn, sched_core_snapshot self s = Some sn /\
  sn_ready_count sn = Z.of_nat (length (ready_queue s)) /\
  sn_sleeping_count sn = Z.of_nat (length (sleep_queue s)) /\
  sn_task_count sn = Z.of_nat (length (reg s)) /\ sn_current_id sn < sn_next_id sn.
Proof.
  unfold sched_core_snapshot. rewrite Hv. cbn [negb].
  apply validate_rep in Hv as (rq & sq & Hrep); [|done].
  destruct (rep_ready_queue self s _ _ Hty Hrep) as [-> ->].
  destruct (snapshot_counts_spec self s (sc_tasks (s_core s)) 0 0 0 0) as (x & y & E).
  { intros p Hp. by apply (rep_tasks _ _ _ _ Hrep). }
  rewrite E. eexists. split; [done|]. cbn [sn_ready_count sn_sleeping_count sn_task_count sn_current_id sn_next_id].
  rewrite !Z.add_0_l. change (regs (sc_tasks (s_core s))) with (reg s). split_and!.
  - symmetry. apply queue_is_full; [by eapply chain_NoDup, Hrep|apply Hrep| |]; intros p;
      apply (rep_ready _ _ _ _ Hrep).
  - symmetry. apply queue_is_full; [eapply chain_NoDup, (rep_sq _ _ _ _ Hrep)|apply Hrep| |]; intros p;
      apply (rep_sleeping _ _ _ _ Hrep).
  - apply Hrep.
  - apply (rep_tasks _ _ _ _ Hrep), Hrep.
Qed.

(** ** A scheduler with five tasks *)

Definition ex_self : Z := 1000.
Definition ex_zero : sched := MkSched (MkCore [] 0 0 0 0 0 0 0 0 0 0 0 false false) ∅.
Definition ex_ops : list sched_op :=
  [SchedAdd 3; SchedAdd 4; SchedAdd 5; SchedSelect true; SchedSleep 50; SchedSelect false;
   SchedSleep 20; SchedSelect false].
Definition ex_sched : sched :=
  Eval vm_compute in sched_history ex_self (fst (sched_core_init ex_self ex_zero 1 2 5 100)) ex_ops.

Lemma ex_zero_typed p : task_typed (node ex_zero p).
Proof. unfold node, ex_zero. simpl. rewrite lookup_total_empty. by constructor. Qed.

Lemma ex_sched_typed : sched_typed ex_sched.
Proof.
  constructor; try done; try by vm_compute. intros p. unfold node.
  assert (map_Forall (fun _ t => task_typed t) (s_mem ex_sched)) as H.
  { apply map_Forall_to_list. vm_compute. repeat constructor; by vm_compute. }
  rewrite lookup_total_alt. destruct (s_mem ex_sched !! p) eqn:E; simpl; [by eapply H|by constructor].
Qed.

Lemma sched_reachable_valid_witness :
  let '(s0, r) := sched_core_init ex_self ex_zero 1 2 5 100 in
  r = true /\ sched_core_validate ex_self (sched_history ex_self s0 ex_ops) = true.
Proof.
  apply (sched_reachable_valid ex_self ex_zero 1 2 5 100 ex_ops);
    [done|apply ex_zero_typed|done..|by repeat constructor].
Defined.

Lemma sched_validate_decides_witness :
  sched_core_validate ex_self ex_sched = true <-> exists rq sq, sched_rep ex_self ex_sched rq sq.
Proof. apply (sched_validate_decides ex_self ex_sched). apply ex_sched_typed. Defined.

Lemma sched_round_robin_witness :
  sched_yields ex_self (length (ready_queue ex_sched)) ex_sched = ready_queue ex_sched.
Proof. apply (sched_round_robin ex_self ex_sched); [apply ex_sched_typed|by vm_compute..]. Defined.

Lemma sched_tick_wakes_witness :
  let '(s', r) := sched_core_tick ex_self ex_sched 130 in
  r = true /\ sc_now (s_core s') = 130 /\
  ready_queue s' = ready_queue ex_sched ++ filter (fun p => wake_of ex_sched p <= 130) (sleep_queue ex_sched) /\
  sleep_queue s' = filter (fun p => ~ wake_of ex_sched p <= 130) (sleep_queue ex_sched).
Proof.
  apply (sched_tick_wakes ex_self ex_sched 130); [apply ex_sched_typed|by vm_compute|by split|by vm_compute].
Defined.

Lemma sched_sleep_ordered_witness :
  let '(s', r) := sched_core_sleep_current ex_self ex_sched 30 in
  r = true /\ sched_core_validate ex_self s' = true /\
  wake_of s' (sc_current (s_core ex_sched)) = sc_now (s_core ex_sched) + 30 /\
  ready_queue s' = ready_queue ex_sched /\
  sleep_queue s' =
    filter (fun p => wake_of ex_sched p <= sc_now (s_core ex_sched) + 30) (sleep_queue ex_sched) ++
    sc_current (s_core ex_sched) ::
    filter (fun p => ~ wake_of ex_sched p <= sc_now (s_core ex_sched) + 30) (sleep_queue ex_sched).
Proof.
  apply (sched_sleep_ordered ex_self ex_sched 30); [apply ex_sched_typed|by vm_compute..].
Defined.

Lemma sched_select_exact_witness :
  let s := ex_sched in
  let cur := sc_current (s_core s) in
  let '(s', next) := sched_core_select ex_self s true in
  if negb (st_preempt_depth (node s cur) =? 0) || negb (true || sc_reschedule (s_core s))
  then s' = s /\ next = cur
  else
    let q := requeued s (ready_queue s) in
    next = default (sc_idle (s_core s)) (head q) /\ ready_queue s' = tail q /\
    sleep_queue s' = sleep_queue s /\ sched_core_validate ex_self s' = true /\
    sc_current (s_core s') = next /\ st_quantum_left (node s' next) = sc_quantum_ticks (s_core s) /\
    forall p, p ∈ reg s' -> is_running s' p = true <-> p = next.
Proof. apply (sched_select_exact ex_self ex_sched true); [apply ex_sched_typed|by vm_compute]. Defined.

Lemma sched_snapshot_exact_witness :
  exists sn, sched_core_snapshot ex_self ex_sched = Some sn /\
  sn_ready_count sn = Z.of_nat (length (ready_queue ex_sched)) /\
  sn_sleeping_count sn = Z.of_nat (length (sleep_queue ex_sched)) /\
  sn_task_count sn = Z.of_nat (length (reg ex_sched)) /\ sn_current_id sn < sn_next_id sn.
Proof. apply (sched_snapshot_exact ex_self ex_sched); [apply ex_sched_typed|by vm_compute]. Defined.
