(* ===== verification/VmmCore.v ===== *)
(** * Page tables (kernel/memory/vmm_core.c): definitions

    The four-level page tables live in physical frames.  [vm_mem p i] is the
    64-bit entry [i] of the frame at physical address [p]; a pointer to an
    entry is the pair of its frame and its index.  The callbacks of
    [struct vmm_ops] belong to the caller and are an interface: their state is
    a type [C], their operations are the methods of [VmmOps], and what the
    header asks of them is [VmmOpsLaws]. *)

From S2P Require Import Prelude MemoryHelpers.
Open Scope Z_scope.

Definition VMM_PRESENT : Z := 1.
Definition VMM_WRITABLE : Z := 2.
Definition VMM_USER : Z := 4.
Definition VMM_WRITE_THROUGH : Z := 8.
Definition VMM_CACHE_DISABLE : Z := 16.
Definition VMM_HUGE : Z := 128.
Definition VMM_GLOBAL : Z := 256.
Definition VMM_NX : Z := 0x8000000000000000.
Definition VMM_ADDRESS_MASK : Z := 0x000ffffffffff000.

Definition VMM_PERMISSION_MASK : Z :=
  Z.lor VMM_PRESENT (Z.lor VMM_WRITABLE (Z.lor VMM_USER (Z.lor VMM_WRITE_THROUGH
    (Z.lor VMM_CACHE_DISABLE (Z.lor VMM_GLOBAL VMM_NX))))).
Definition VMM_NEW_PARENT_FLAGS : Z := Z.lor VMM_PRESENT (Z.lor VMM_WRITABLE VMM_USER).
Definition VMM_LARGE_PAT : Z := 0x1000.

(** [(value & flag) != 0] *)
Definition has (value flag : Z) : bool := negb (Z.land value flag =? 0).

(** ** The callbacks *)

Class VmmOps (C : Type) := {
  op_table : C -> Z -> bool;             (** [table(phys)] is not [NULL] *)
  op_alloc : C -> C * option Z;
  op_free : C -> Z -> C;
  op_commit : C -> Z -> C;
  op_invalidate : C -> Z -> C
}.

(** The contract of vmm_core.h, for callers in a state [op_wf]: storage that is
    in somebody's hands is stable, [alloc] returns a frame nobody else owns, a
    frame that has not been committed can be freed, and [commit] and
    [invalidate] take nothing from anybody. *)
Class VmmOpsLaws (C : Type) `{VmmOps C} := {
  op_wf : C -> Prop;
  op_owned : C -> Z -> Prop;             (** frames in somebody's hands *)
  op_loose : C -> Z -> Prop;             (** allocated and not yet committed *)
  law_loose : forall c f, op_wf c -> op_loose c f -> op_owned c f;
  law_alloc : forall c c' r, op_wf c -> op_alloc c = (c', r) ->
    op_wf c' /\ (forall f, r = Some f -> u64_ok f /\ ~ op_owned c f) /\
    forall g, (op_owned c' g <-> op_owned c g \/ r = Some g) /\
              (op_loose c' g <-> op_loose c g \/ r = Some g) /\
              (op_owned c g -> op_table c' g = op_table c g);
  law_free : forall c f, op_wf c -> op_loose c f ->
    op_wf (op_free c f) /\
    forall g, (op_owned (op_free c f) g <-> op_owned c g /\ g <> f) /\
              (op_loose (op_free c f) g <-> op_loose c g /\ g <> f) /\
              (op_owned c g -> g <> f -> op_table (op_free c f) g = op_table c g);
  law_commit : forall c f, op_wf c -> op_loose c f ->
    op_wf (op_commit c f) /\
    forall g, (op_owned (op_commit c f) g <-> op_owned c g) /\
              (op_loose (op_commit c f) g <-> op_loose c g /\ g <> f) /\
              op_table (op_commit c f) g = op_table c g;
  law_invalidate : forall c v, op_wf c ->
    op_wf (op_invalidate c v) /\
    forall g, (op_owned (op_invalidate c v) g <-> op_owned c g) /\
              (op_loose (op_invalidate c v) g <-> op_loose c g) /\
              op_table (op_invalidate c v) g = op_table c g
}.

Record vmm_space := MkSpace {
  vs_root_phys : Z;
  vs_physical_mask : Z;
  vs_nx_enabled : bool;
  vs_initialized : bool
}.

Record vmm_mapping := MkMapping {
  vp_mapped : bool;
  vp_physical : Z;
  vp_flags : Z;
  vp_page_size : Z
}.

(** The caller's state and the words of all page-table frames. *)
Record vm (C : Type) := MkVm { vm_ctx : C; vm_mem : Z -> Z -> Z }.
#[global] Arguments MkVm {C} _ _.
#[global] Arguments vm_ctx {C} _.
#[global] Arguments vm_mem {C} _ _ _.

Record walk_result := MkWalk {
  wr_table : Z;            (** [entry] points to word [wr_index] of frame [wr_table] *)
  wr_index : Z;
  wr_value : Z;
  wr_level : Z;
  wr_missing : bool;
  wr_parent_writable : bool;
  wr_parent_user : bool;
  wr_parent_nx : bool
}.

Definition physical_valid (space : vmm_space) (phys : Z) : bool :=
  memory_is_page_aligned phys && (Z.land phys (not64 (vs_physical_mask space)) =? 0).

Definition level_page_size (level : Z) : Z := Z.shiftl 1 (12 + 9 * (level - 1)).

Definition entry_valid (space : vmm_space) (entry level : Z) : bool :=
  if negb (Z.land entry (Z.land VMM_ADDRESS_MASK (not64 (vs_physical_mask space))) =? 0) ||
     (negb (vs_nx_enabled space) && has entry VMM_NX) ||
     ((level =? 4) && has entry VMM_HUGE)
  then false
  else if ((level =? 2) || (level =? 3)) && has entry VMM_HUGE then
    let alignment_bits := Z.land (Z.land (level_page_size level -u 1) VMM_ADDRESS_MASK)
                                 (not64 VMM_LARGE_PAT) in
    if has entry alignment_bits then false else true
  else true.

(** A store to an entry, and [memset] of a whole table. *)
Definition mem_set (mem : Z -> Z -> Z) (p i v : Z) : Z -> Z -> Z :=
  fun p' i' => if (p' =? p) && (i' =? i) then v else mem p' i'.
Definition mem_clear (mem : Z -> Z -> Z) (p : Z) : Z -> Z -> Z :=
  fun p' i' => if p' =? p then 0 else mem p' i'.

Section core.
Context {C : Type} `{VmmOps C}.

(** The loop of [walk]: [level] levels are left, [phys] is the table of that
    level and [ancestors] are the tables above it. *)
Fixpoint walk_from (space : vmm_space) (m : vm C) (virt : Z) (level : nat) (phys : Z)
    (ancestors : list Z) (writable user nx : bool) : option walk_result :=
  match level with
  | O => None
  | S lower =>
      if existsb (fun a => a =? phys) ancestors then None
      else if negb (op_table (vm_ctx m) phys) then None
      else
        let index := memory_page_index virt (Z.of_nat level) in
        let value := vm_mem m phys index in
        let missing := Z.land value VMM_PRESENT =? 0 in
        if negb missing && negb (entry_valid space value (Z.of_nat level)) then None
        else if missing || (Z.of_nat level =? 1) || has value VMM_HUGE then
          Some (MkWalk phys index value (Z.of_nat level) missing writable user nx)
        else
          walk_from space m virt lower (Z.land value (vs_physical_mask space))
            (ancestors ++ [phys]) (writable && has value VMM_WRITABLE)
            (user && has value VMM_USER) (nx || has value VMM_NX)
  end.

Definition walk (space : vmm_space) (m : vm C) (virt : Z) : option walk_result :=
  if negb (vs_initialized space) || negb (memory_is_canonical virt) then None
  else walk_from space m virt 4 (vs_root_phys space) [] true true false.

Definition vmm_space_init (m : vm C) (root_phys physical_bits : Z) (nx_enabled : bool)
    : option vmm_space :=
  match memory_physical_mask physical_bits with
  | None => None
  | Some mask =>
      if negb (memory_is_page_aligned root_phys) || negb (Z.land root_phys (not64 mask) =? 0) ||
         negb (op_table (vm_ctx m) root_phys)
      then None
      else Some (MkSpace root_phys mask nx_enabled true)
  end.

Definition vmm_space_query (space : vmm_space) (m : vm C) (virt : Z) : option vmm_mapping :=
  match walk space m virt with
  | None => None
  | Some found =>
      if wr_missing found then Some (MkMapping false 0 0 0)
      else
        let page_size := level_page_size (wr_level found) in
        let flags := Z.land (wr_value found) (not64 VMM_ADDRESS_MASK) in
        let flags := if negb (wr_level found =? 1)
                     then Z.lor flags (Z.land (wr_value found) VMM_LARGE_PAT) else flags in
        let flags := if negb (wr_parent_writable found) then Z.land flags (not64 VMM_WRITABLE) else flags in
        let flags := if negb (wr_parent_user found) then Z.land flags (not64 VMM_USER) else flags in
        let flags := if wr_parent_nx found then Z.lor flags VMM_NX else flags in
        Some (MkMapping true
          (Z.lor (Z.land (Z.land (wr_value found) (vs_physical_mask space)) (not64 (page_size -u 1)))
                 (Z.land virt (page_size -u 1)))
          flags page_size)
  end.

Definition flags_valid (space : vmm_space) (flags : Z) : bool :=
  vs_initialized space && has flags VMM_PRESENT &&
  (Z.land flags (not64 VMM_PERMISSION_MASK) =? 0) &&
  (vs_nx_enabled space || (Z.land flags VMM_NX =? 0)).

Definition parents_allow (found : walk_result) (flags : Z) : bool :=
  (wr_parent_writable found || (Z.land flags VMM_WRITABLE =? 0)) &&
  (wr_parent_user found || (Z.land flags VMM_USER =? 0)) &&
  (negb (wr_parent_nx found) || has flags VMM_NX).

(** The last frame first. *)
Definition rollback (c : C) (frames : list Z) : C := foldl op_free c (rev frames).

(** The acquisition loop of [vmm_space_map]; [frames] are those acquired so
    far.  [None] means that the frames have been rolled back. *)
Fixpoint acquire (space : vmm_space) (needed : nat) (m : vm C) (frames : list Z)
    : vm C * option (list Z) :=
  match needed with
  | O => (m, Some frames)
  | S needed =>
      match op_alloc (vm_ctx m) with
      | (c, None) => (MkVm (rollback c frames) (vm_mem m), None)
      | (c, Some f) =>
          let frames := frames ++ [f] in
          if negb (physical_valid space f) then (MkVm (rollback c frames) (vm_mem m), None)
          else if negb (op_table c f) then (MkVm (rollback c frames) (vm_mem m), None)
          else acquire space needed (MkVm c (mem_clear (vm_mem m) f)) frames
      end
  end.

(** The loop that links the new tables; [level] is the level of the first. *)
Fixpoint link_tables (mem : Z -> Z -> Z) (virt phys flags level : Z) (frames : list Z) : Z -> Z -> Z :=
  match frames with
  | [] => mem
  | f :: rest =>
      let index := memory_page_index virt level in
      let value := if level =? 1 then Z.lor phys flags
                   else Z.lor (hd 0 rest) VMM_NEW_PARENT_FLAGS in
      link_tables (mem_set mem f index value) virt phys flags (level - 1) rest
  end.

Definition vmm_space_map (space : vmm_space) (m : vm C) (virt phys flags : Z) : vm C * bool :=
  if negb (flags_valid space flags) || negb (physical_valid space phys) ||
     negb (memory_is_page_aligned virt)
  then (m, false)
  else match walk space m virt with
  | None => (m, false)
  | Some found =>
      if negb (wr_missing found) || negb (wr_value found =? 0) || negb (parents_allow found flags)
      then (m, false)
      else if wr_level found =? 1 then
        (MkVm (op_invalidate (vm_ctx m) virt)
              (mem_set (vm_mem m) (wr_table found) (wr_index found) (Z.lor phys flags)), true)
      else
        match acquire space (Z.to_nat (wr_level found - 1)) m [] with
        | (m, None) => (m, false)
        | (m, Some frames) =>
            let mem := link_tables (vm_mem m) virt phys flags (wr_level found - 1) frames in
            let mem := mem_set mem (wr_table found) (wr_index found)
                         (Z.lor (hd 0 frames) VMM_NEW_PARENT_FLAGS) in
            let c := foldl op_commit (vm_ctx m) frames in
            (MkVm (op_invalidate c virt) mem, true)
        end
  end.

Definition vmm_space_unmap (space : vmm_space) (m : vm C) (virt : Z) : vm C * bool :=
  if negb (memory_is_page_aligned virt) then (m, false)
  else match walk space m virt with
  | None => (m, false)
  | Some found =>
      if wr_missing found || negb (wr_level found =? 1) then (m, false)
      else (MkVm (op_invalidate (vm_ctx m) virt)
                 (mem_set (vm_mem m) (wr_table found) (wr_index found) 0), true)
  end.

Definition vmm_space_protect (space : vmm_space) (m : vm C) (virt flags : Z) : vm C * bool :=
  if negb (flags_valid space flags) || negb (memory_is_page_aligned virt) then (m, false)
  else match walk space m virt with
  | None => (m, false)
  | Some found =>
      if wr_missing found || negb (wr_level found =? 1) || negb (parents_allow found flags)
      then (m, false)
      else (MkVm (op_invalidate (vm_ctx m) virt)
                 (mem_set (vm_mem m) (wr_table found) (wr_index found)
                    (Z.lor (Z.land (wr_value found) (not64 VMM_PERMISSION_MASK)) flags)), true)
  end.
End core.
