(* ===== verification/VmmMap.v ===== *)
(** * Page tables: entries, and the tree of tables

    How a virtual address splits into table indices, what the entries written
    by the code decode to, and which frames are tables of a space ([reach]). *)

From S2P Require Import Prelude MemoryHelpers VmmCore.
Open Scope Z_scope.

(** ** Bits *)

(** The page number within the 48-bit address space. *)
Definition vpn (virt : Z) : Z := (virt / 4096) mod 2 ^ 36.

Definition vprefix (virt : Z) (level : Z) : Z := vpn virt / 512 ^ level.

Lemma page_index_vpn virt level : 1 <= level <= 4 ->
  memory_page_index virt level = vprefix virt (level - 1) mod 512.
Proof.
  intros Hl. rewrite page_index_eq by done. unfold vprefix, vpn.
  assert (level = 1 \/ level = 2 \/ level = 3 \/ level = 4) as [->|[->|[->| ->]]] by lia;
    cbn -[Z.div Z.modulo]; dlia.
Qed.

Lemma vprefix_step virt level : 1 <= level <= 4 ->
  vprefix virt (level - 1) = vprefix virt level * 512 + memory_page_index virt level.
Proof.
  intros Hl. rewrite page_index_vpn by done. unfold vprefix.
  assert (level = 1 \/ level = 2 \/ level = 3 \/ level = 4) as [->|[->|[->| ->]]] by lia;
    cbn -[Z.div Z.modulo vpn]; dlia.
Qed.

Lemma vprefix_top virt : vprefix virt 4 = 0.
Proof. unfold vprefix, vpn. cbn -[Z.div Z.modulo]. dlia. Qed.

Lemma vprefix_zero virt : vprefix virt 0 = vpn virt.
Proof. unfold vprefix. cbn -[Z.div Z.modulo vpn]. apply Z.div_1_r. Qed.

(** Two addresses share a table of level [l] below a common prefix exactly
    when they also share the index. *)
Lemma vprefix_below v w level : 1 <= level <= 4 ->
  vprefix v (level - 1) = vprefix w (level - 1) <->
  vprefix v level = vprefix w level /\ memory_page_index v level = memory_page_index w level.
Proof.
  intros Hl. rewrite !vprefix_step by done.
  pose proof (page_index_range v level Hl). pose proof (page_index_range w level Hl). lia.
Qed.

Lemma vpn_page v w : u64_ok v -> u64_ok w -> memory_is_canonical v = true -> memory_is_canonical w = true ->
  vpn v = vpn w -> v / 4096 = w / 4096.
Proof.
  unfold memory_is_canonical, u64_ok, UINT64_MAX, vpn. rewrite !orb_true_iff, !Z.leb_le.
  change (2 ^ 36) with 68719476736. intros ? ? [?|?] [?|?] ?; dlia.
Qed.

(** The bits of a physical-address mask. *)
Definition mask_ok (mask : Z) : Prop :=
  exists bits, 32 <= bits <= 52 /\ forall n, 0 <= n -> Z.testbit mask n = (12 <=? n) && (n <? bits).

Lemma not64_testbit x n : 0 <= n < 64 -> Z.testbit (not64 x) n = negb (Z.testbit x n).
Proof.
  intros Hn. unfold not64. rewrite Z.ldiff_spec. change UINT64_MAX with (Z.ones 64).
  by rewrite Z.ones_spec_low.
Qed.

Lemma not64_testbit_high x n : 64 <= n -> Z.testbit (not64 x) n = false.
Proof.
  intros Hn. unfold not64. rewrite Z.ldiff_spec. change UINT64_MAX with (Z.ones 64).
  by rewrite Z.ones_spec_high.
Qed.

Lemma has_testbit v k : 0 <= k -> has v (2 ^ k) = Z.testbit v k.
Proof. intros. unfold has. rewrite <- Z.shiftl_1_l. by apply land_pow2_test. Qed.

Lemma land_zero_bits a b : Z.land a b = 0 <-> forall n, 0 <= n -> Z.testbit a n && Z.testbit b n = false.
Proof.
  split.
  - intros E n Hn. by rewrite <- Z.land_spec, E, Z.testbit_0_l.
  - intros H. apply Z.bits_inj'. intros n Hn. by rewrite Z.land_spec, Z.testbit_0_l, H.
Qed.

Section bits.
Context (mask : Z) (Hmask : mask_ok mask).

(** A page-aligned physical address within the mask. *)
Definition frame_ok (f : Z) : Prop := u64_ok f /\ Z.land f mask = f.

Lemma frame_bits f n : frame_ok f -> 0 <= n -> Z.testbit f n = true -> 12 <= n < 52.
Proof using Hmask.
  intros [_ E] Hn Hb. destruct Hmask as (bits & Hr & Hm). rewrite <- E, Z.land_spec, Hm in Hb by done. lia.
Qed.

Lemma physical_valid_frame space f : vs_physical_mask space = mask -> u64_ok f ->
  physical_valid space f = true <-> frame_ok f.
Proof using Hmask.
  intros E Hf. unfold physical_valid. rewrite E, page_aligned_mod, andb_true_iff, !Z.eqb_eq.
  destruct Hmask as (bits & Hr & Hm). unfold frame_ok. split.
  - intros [_ Hz]. split; [done|]. apply Z.bits_inj'. intros n Hn. rewrite Z.land_spec.
    rewrite land_zero_bits in Hz. specialize (Hz n Hn). destruct (decide (n < 64)).
    + rewrite not64_testbit in Hz by lia. destruct (Z.testbit f n), (Z.testbit mask n); done.
    + by rewrite (u64_bits f n) by (done || lia).
  - intros [_ Hz]. split.
    + change 4096 with (2 ^ 12). rewrite <- Z.land_ones by done. apply land_zero_bits. intros n Hn.
      rewrite <- Hz, Z.land_spec, Hm by done. destruct (decide (n < 12)).
      * assert (12 <=? n = false) as -> by lia. by rewrite andb_false_r.
      * rewrite Z.ones_spec_high by lia. apply andb_false_r.
    + apply land_zero_bits. intros n Hn. destruct (decide (n < 64)).
      * rewrite not64_testbit by lia. rewrite <- Hz, Z.land_spec. destruct (Z.testbit f n), (Z.testbit mask n); done.
      * rewrite (not64_testbit_high mask n) by lia. apply andb_false_r.
Qed.

Lemma address_mask_bits n : 0 <= n -> Z.testbit VMM_ADDRESS_MASK n = (12 <=? n) && (n <? 52).
Proof.
  intros Hn. change VMM_ADDRESS_MASK with (Z.shiftl (Z.ones 40) 12). rewrite Z.shiftl_spec by done.
  destruct (decide (n < 12)).
  - rewrite Z.testbit_neg_r by lia. lia.
  - destruct (decide (n < 52)); [rewrite Z.ones_spec_low by lia|rewrite Z.ones_spec_high by lia]; lia.
Qed.

Lemma small_bits (c : Z) (p : Z -> bool) : 0 <= c < 2 ^ 64 ->
  forallb (fun n => negb (Z.testbit c n) || p n) (seqZ 0 64) = true ->
  forall n, 0 <= n -> Z.testbit c n = true -> p n = true.
Proof.
  intros Hc H n Hn Hb. rewrite forallb_seqZ in H. destruct (decide (n < 64)).
  - specialize (H n ltac:(lia)). by rewrite Hb in H.
  - rewrite (testbit_high c 64) in Hb by lia. done.
Qed.

Lemma permission_bits n : 0 <= n -> Z.testbit VMM_PERMISSION_MASK n = true -> n <= 4 \/ n = 8 \/ n = 63.
Proof.
  intros Hn Hb.
  pose proof (small_bits VMM_PERMISSION_MASK (fun n => (n <=? 4) || (n =? 8) || (n =? 63))
    ltac:(by vm_compute) ltac:(by vm_compute) n Hn Hb) as H. cbv beta in H. lia.
Qed.

Lemma new_parent_bits n : 0 <= n -> Z.testbit VMM_NEW_PARENT_FLAGS n = (n <=? 2).
Proof.
  intros Hn. change VMM_NEW_PARENT_FLAGS with (Z.ones 3). destruct (decide (n < 3)).
  - rewrite Z.ones_spec_low by lia. lia.
  - rewrite Z.ones_spec_high by lia. lia.
Qed.

(** The checks on a present entry that is not a large page. *)
Lemma entry_valid_small space e level : vs_physical_mask space = mask ->
  (forall n, 0 <= n -> Z.testbit e n = true -> 12 <= n < 52 -> Z.testbit mask n = true) ->
  Z.testbit e 7 = false -> (vs_nx_enabled space = true \/ Z.testbit e 63 = false) ->
  entry_valid space e level = true.
Proof using Hmask.
  intros Em Hb H7 Hnx. unfold entry_valid. rewrite Em.
  change VMM_HUGE with (2 ^ 7). change VMM_NX with (2 ^ 63). rewrite !has_testbit, H7 by done.
  rewrite !andb_false_r, orb_false_r.
  assert (Z.land e (Z.land VMM_ADDRESS_MASK (not64 mask)) = 0) as ->.
  { apply land_zero_bits. intros n Hn. rewrite Z.land_spec, address_mask_bits by done.
    destruct (Z.testbit e n) eqn:E; [|done]. destruct (decide (12 <= n < 52)).
    - rewrite not64_testbit, (Hb n) by (done || lia). by rewrite andb_false_r.
    - assert ((12 <=? n) && (n <? 52) = false) as -> by lia. done. }
  rewrite Z.eqb_refl. cbn [negb orb]. destruct Hnx as [-> | ->]; [done|]. by rewrite andb_false_r.
Qed.

(** The entry that publishes a new table. *)
Lemma parent_entry space f level : vs_physical_mask space = mask -> frame_ok f ->
  let e := Z.lor f VMM_NEW_PARENT_FLAGS in
  Z.land e mask = f /\ (Z.land e VMM_PRESENT =? 0) = false /\ has e VMM_HUGE = false /\
  has e VMM_WRITABLE = true /\ has e VMM_USER = true /\ has e VMM_NX = false /\ u64_ok e /\
  entry_valid space e level = true.
Proof using Hmask.
  intros Em Hf e.
  assert (forall n, 0 <= n -> Z.testbit e n = Z.testbit f n || (n <=? 2)) as Hb.
  { intros n Hn. unfold e. by rewrite Z.lor_spec, new_parent_bits. }
  assert (forall n, 0 <= n -> n < 12 \/ 52 <= n -> Z.testbit f n = false) as Hout.
  { intros n Hn Hr. destruct (Z.testbit f n) eqn:E; [|done]. apply frame_bits in E; [lia|done|done]. }
  assert (forall v k, 0 <= k -> has v (2 ^ k) = Z.testbit v k) as Hh by (intros; by apply has_testbit).
  split_and!.
  - destruct Hmask as (bits & Hr & Hm). apply Z.bits_inj'. intros n Hn.
    rewrite Z.land_spec, Hb, Hm by done. destruct Hf as [_ E]. rewrite <- E at 2.
    rewrite Z.land_spec, Hm by done. destruct (Z.testbit f n); [by rewrite orb_true_l|].
    rewrite orb_false_l, andb_false_l. lia.
  - apply negb_true_iff. fold (has e VMM_PRESENT). change VMM_PRESENT with (2 ^ 0). rewrite Hh, Hb by done.
    apply orb_true_r.
  - change VMM_HUGE with (2 ^ 7). rewrite Hh, Hb, Hout by lia. done.
  - change VMM_WRITABLE with (2 ^ 1). rewrite Hh, Hb by done. apply orb_true_r.
  - change VMM_USER with (2 ^ 2). rewrite Hh, Hb by done. apply orb_true_r.
  - change VMM_NX with (2 ^ 63). rewrite Hh, Hb, Hout by lia. done.
  - destruct Hf as [[? ?] _]. apply bits_u64.
    + apply Z.lor_nonneg. split; [done|]. by vm_compute.
    + intros n Hn. rewrite Hb, Hout by lia. lia.
  - apply entry_valid_small; [done| | |].
    + intros n Hn. rewrite Hb by done. intros E Hr'. destruct (Z.testbit f n) eqn:Ef; [|lia].
      destruct Hf as [_ E']. rewrite <- E', Z.land_spec in Ef. by apply andb_true_iff in Ef as [_ ?].
    + rewrite Hb, Hout by lia. done.
    + right. rewrite Hb, Hout by lia. done.
Qed.

(** The entry that maps a page. *)
Lemma leaf_entry space phys flags : vs_physical_mask space = mask -> frame_ok phys -> u64_ok flags ->
  flags_valid space flags = true ->
  let e := Z.lor phys flags in
  Z.land e mask = phys /\ (Z.land e VMM_PRESENT =? 0) = false /\
  Z.land e (not64 VMM_ADDRESS_MASK) = flags /\ u64_ok e /\ entry_valid space e 1 = true.
Proof using Hmask.
  intros Em Hf Hfl Hv e. unfold flags_valid in Hv. rewrite !andb_true_iff in Hv.
  destruct Hv as [[[_ Hp] Hperm%Z.eqb_eq] Hnx].
  assert (forall n, 0 <= n -> Z.testbit flags n = true -> n <= 4 \/ n = 8 \/ n = 63) as Hfb.
  { intros n Hn Hb. rewrite land_zero_bits in Hperm. specialize (Hperm n Hn). rewrite Hb in Hperm.
    destruct (decide (n < 64)); [|by rewrite (u64_bits flags n) in Hb by (done || lia)].
    rewrite not64_testbit in Hperm by lia. apply permission_bits; [done|].
    by destruct (Z.testbit VMM_PERMISSION_MASK n). }
  assert (forall n, 0 <= n -> 12 <= n < 52 -> Z.testbit flags n = false) as Hfo.
  { intros n Hn Hr. destruct (Z.testbit flags n) eqn:E; [|done]. apply Hfb in E; lia. }
  assert (forall n, 0 <= n -> n < 12 \/ 52 <= n -> Z.testbit phys n = false) as Hout.
  { intros n Hn Hr. destruct (Z.testbit phys n) eqn:E; [|done]. apply frame_bits in E; [lia|done|done]. }
  split_and!.
  - destruct Hmask as (bits & Hr & Hm). apply Z.bits_inj'. intros n Hn. unfold e.
    destruct Hf as [_ E]. rewrite <- E at 2. rewrite !Z.land_spec, Z.lor_spec, Hm by done.
    destruct (decide (12 <= n < bits)).
    + rewrite Hfo by lia. by rewrite orb_false_r.
    + assert ((12 <=? n) && (n <? bits) = false) as -> by lia. by rewrite !andb_false_r.
  - apply negb_true_iff. fold (has e VMM_PRESENT). change VMM_PRESENT with (2 ^ 0) in *.
    rewrite has_testbit in * by done. unfold e. rewrite Z.lor_spec, Hp. apply orb_true_r.
  - apply Z.bits_inj'. intros n Hn. unfold e. rewrite Z.land_spec, Z.lor_spec.
    destruct (decide (n < 64)).
    + rewrite not64_testbit, address_mask_bits by lia. destruct (decide (12 <= n < 52)).
      * rewrite Hfo by lia. assert ((12 <=? n) && (n <? 52) = true) as -> by lia. apply andb_false_r.
      * rewrite Hout by lia. assert ((12 <=? n) && (n <? 52) = false) as -> by lia. by rewrite andb_true_r.
    + rewrite not64_testbit_high, andb_false_r by lia. symmetry. apply u64_bits; [done|lia].
  - destruct Hf as [[? ?] _], Hfl as [? ?]. apply bits_u64; [by apply Z.lor_nonneg|].
    intros n Hn. unfold e. rewrite Z.lor_spec, Hout by lia. apply u64_bits; [done|lia].
  - apply entry_valid_small; [done| | |].
    + intros n Hn. unfold e. rewrite Z.lor_spec. intros E Hr'. rewrite Hfo, orb_false_r in E by lia.
      destruct Hf as [_ E']. rewrite <- E', Z.land_spec in E. by apply andb_true_iff in E as [_ ?].
    + unfold e. rewrite Z.lor_spec, Hout by lia. destruct (Z.testbit flags 7) eqn:E; [|done].
      apply Hfb in E; lia.
    + unfold e. rewrite Z.lor_spec, Hout by lia. cbn [orb]. destruct (vs_nx_enabled space); [by left|right].
      cbn [orb] in Hnx. change VMM_NX with (2 ^ 63) in Hnx.
      rewrite <- has_testbit by done. unfold has. by rewrite Hnx.
Qed.
End bits.

(** ** Page tables: the tree of tables and the walk

    [reach] says which frames are page tables, at which level, and for which
    part of the address space: the table of level [l] with prefix [pre] serves
    the addresses whose page number, without its lowest [l] nine-bit groups, is
    [pre].  The invariant [vm_inv] is that every table has one place in the
    tree, is accessible and owned, and holds only valid entries. *)

Definition present (v : Z) : bool := negb (Z.land v VMM_PRESENT =? 0).

Inductive reach (mask root : Z) (mem : Z -> Z -> Z) : Z -> Z -> Z -> Prop :=
  | reach_root : reach mask root mem 4 root 0
  | reach_child l p pre i : reach mask root mem (l + 1) p pre -> 1 <= l -> 0 <= i < 512 ->
      present (mem p i) = true -> has (mem p i) VMM_HUGE = false ->
      reach mask root mem l (Z.land (mem p i) mask) (pre * 512 + i).

Lemma reach_level mask root mem l p pre : reach mask root mem l p pre -> 1 <= l <= 4.
Proof. induction 1; lia. Qed.

(** A tree in which every absent entry is zero and every table grants all
    rights, without large pages: what the operations build from an empty root. *)
Definition plain_tree (mask root : Z) (mem : Z -> Z -> Z) : Prop :=
  forall l p pre i, reach mask root mem l p pre -> 0 <= i < 512 ->
    (present (mem p i) = false -> mem p i = 0) /\
    (2 <= l -> present (mem p i) = true -> has (mem p i) VMM_WRITABLE = true /\
       has (mem p i) VMM_USER = true /\ has (mem p i) VMM_NX = false /\ has (mem p i) VMM_HUGE = false).

Section tree.
Context {C : Type} `{VmmOpsLaws C}.

Record vm_inv (space : vmm_space) (m : vm C) : Prop := {
  vi_ctx : op_wf (vm_ctx m);
  vi_init : vs_initialized space = true;
  vi_mask : mask_ok (vs_physical_mask space);
  vi_root : frame_ok (vs_physical_mask space) (vs_root_phys space);
  vi_table : forall l p pre, reach (vs_physical_mask space) (vs_root_phys space) (vm_mem m) l p pre ->
    op_table (vm_ctx m) p = true /\ op_owned (vm_ctx m) p;
  vi_entry : forall l p pre i,
    reach (vs_physical_mask space) (vs_root_phys space) (vm_mem m) l p pre -> 0 <= i < 512 ->
    u64_ok (vm_mem m p i) /\ (present (vm_mem m p i) = true -> entry_valid space (vm_mem m p i) l = true);
  vi_unique : forall l l' p pre pre',
    reach (vs_physical_mask space) (vs_root_phys space) (vm_mem m) l p pre ->
    reach (vs_physical_mask space) (vs_root_phys space) (vm_mem m) l' p pre' -> l = l' /\ pre = pre'
}.

(** The walk without its checks. *)
Fixpoint pure_walk (mask : Z) (mem : Z -> Z -> Z) (virt : Z) (level : nat) (p : Z)
    (w u nx : bool) : walk_result :=
  let index := memory_page_index virt (Z.of_nat level) in
  let value := mem p index in
  match level with
  | O => MkWalk p index value 0 true w u nx
  | S lower =>
      if negb (present value) || (Z.of_nat level =? 1) || has value VMM_HUGE then
        MkWalk p index value (Z.of_nat level) (negb (present value)) w u nx
      else pure_walk mask mem virt lower (Z.land value mask)
             (w && has value VMM_WRITABLE) (u && has value VMM_USER) (nx || has value VMM_NX)
  end.

Section walk.
Context (space : vmm_space) (m : vm C) (Hinv : vm_inv space m).
Notation mask := (vs_physical_mask space).
Notation root := (vs_root_phys space).
Notation mem := (vm_mem m).
Notation rch := (reach mask root mem).

Lemma reach_step virt level p : 2 <= level <= 4 -> rch level p (vprefix virt level) ->
  present (mem p (memory_page_index virt level)) = true ->
  has (mem p (memory_page_index virt level)) VMM_HUGE = false ->
  rch (level - 1) (Z.land (mem p (memory_page_index virt level)) mask) (vprefix virt (level - 1)).
Proof.
  intros Hl Hr Hp Hh. rewrite vprefix_step by lia. apply reach_child; try done; try lia.
  - by replace (level - 1 + 1) with level by lia.
  - apply page_index_range. lia.
Qed.

Lemma walk_from_pure virt level : forall p anc w u nx, (1 <= level <= 4)%nat ->
  rch (Z.of_nat level) p (vprefix virt (Z.of_nat level)) ->
  (forall a, a ∈ anc -> exists l pre, Z.of_nat level < l /\ rch l a pre) ->
  walk_from space m virt level p anc w u nx = Some (pure_walk mask mem virt level p w u nx).
Proof using Hinv.
  induction level as [|lower IH]; intros p anc w u nx Hl Hr Hanc; [lia|].
  cbn [walk_from pure_walk].
  assert (existsb (fun a => a =? p) anc = false) as ->.
  { apply not_true_iff_false. rewrite existsb_exists. intros (a & Ha%list_elem_of_In & E%Z.eqb_eq).
    subst a. destruct (Hanc p Ha) as (l & pre & Hlt & Hrp).
    destruct (vi_unique _ _ Hinv _ _ _ _ _ Hr Hrp). lia. }
  destruct (vi_table _ _ Hinv _ _ _ Hr) as [-> _]. cbn [negb].
  set (lv := Z.of_nat (S lower)) in *. set (i := memory_page_index virt lv).
  destruct (vi_entry _ _ Hinv lv p _ i Hr) as [_ Hv]; [apply page_index_range; lia|].
  fold (present (mem p i)). assert ((Z.land (mem p i) VMM_PRESENT =? 0) = negb (present (mem p i))) as ->
    by (unfold present; by rewrite negb_involutive).
  destruct (present (mem p i)) eqn:Ep; cbn [negb andb orb]; [|done]. rewrite Hv by done. cbn [negb].
  destruct (Z.eqb_spec lv 1) as [E1|E1]; cbn [orb]; [done|].
  destruct (has (mem p i) VMM_HUGE) eqn:Eh; [done|].
  apply IH; [lia| |].
  - replace (Z.of_nat lower) with (lv - 1) by lia. apply reach_step; try done. lia.
  - intros a [Ha|Ha%list_elem_of_singleton]%elem_of_app.
    + destruct (Hanc a Ha) as (l & pre & ? & ?). exists l, pre. split; [lia|done].
    + subst a. exists lv, (vprefix virt lv). split; [lia|done].
Qed.

Lemma walk_pure virt : memory_is_canonical virt = true ->
  walk space m virt = Some (pure_walk mask mem virt 4 root true true false).
Proof using Hinv.
  intros Hc. unfold walk. rewrite (vi_init _ _ Hinv), Hc. cbn [negb orb].
  apply walk_from_pure; [lia| |by intros a ?%elem_of_nil].
  change (Z.of_nat 4) with 4. rewrite vprefix_top. constructor.
Qed.

(** Where the walk stops. *)
Lemma pure_walk_found virt level : forall p w u nx, (1 <= level <= 4)%nat ->
  rch (Z.of_nat level) p (vprefix virt (Z.of_nat level)) ->
  let r := pure_walk mask mem virt level p w u nx in
  1 <= wr_level r <= Z.of_nat level /\ rch (wr_level r) (wr_table r) (vprefix virt (wr_level r)) /\
  wr_index r = memory_page_index virt (wr_level r) /\ wr_value r = mem (wr_table r) (wr_index r) /\
  wr_missing r = negb (present (wr_value r)).
Proof.
  induction level as [|lower IH]; intros p w u nx Hl Hr; [lia|]. cbn [pure_walk].
  set (lv := Z.of_nat (S lower)) in *. set (i := memory_page_index virt lv).
  destruct (negb (present (mem p i)) || (lv =? 1) || has (mem p i) VMM_HUGE) eqn:E.
  { cbn. split_and!; try done; lia. }
  rewrite !orb_false_iff, negb_false_iff in E. destruct E as [[Ep E1%Z.eqb_neq] Eh].
  destruct (IH (Z.land (mem p i) mask) (w && has (mem p i) VMM_WRITABLE) (u && has (mem p i) VMM_USER)
    (nx || has (mem p i) VMM_NX)) as (? & ? & ? & ? & ?); [lia| |].
  - replace (Z.of_nat lower) with (lv - 1) by lia. apply reach_step; try done. lia.
  - split_and!; try done; lia.
Qed.

(** In a plain tree every page is a 4 KiB page with the rights of its entry. *)
Lemma plain_walk virt level : plain_tree mask root mem -> forall p, (1 <= level <= 4)%nat ->
  rch (Z.of_nat level) p (vprefix virt (Z.of_nat level)) ->
  let r := pure_walk mask mem virt level p true true false in
  wr_parent_writable r = true /\ wr_parent_user r = true /\ wr_parent_nx r = false /\
  (wr_missing r = true -> wr_value r = 0) /\ (wr_missing r = false -> wr_level r = 1).
Proof.
  intros Hpl. induction level as [|lower IH]; intros p Hl Hr; [lia|]. cbn [pure_walk].
  set (lv := Z.of_nat (S lower)) in *. set (i := memory_page_index virt lv).
  destruct (Hpl lv p _ i Hr) as [Ha Hb]; [apply page_index_range; lia|].
  destruct (present (mem p i)) eqn:Ep; cbn [negb orb]; [|cbn; split_and!; auto; done].
  destruct (Z.eqb_spec lv 1) as [E1|E1]; cbn [orb]; [cbn; split_and!; auto; done|].
  destruct (Hb ltac:(lia) eq_refl) as (Hw & Hu & Hn & Hh). rewrite Hh, Hw, Hu, Hn. cbn [andb orb].
  apply IH; [lia|]. replace (Z.of_nat lower) with (lv - 1) by lia. apply reach_step; try done. lia.
Qed.

(** ** Memory that differs in one entry of the tree *)

Section update.
Context (mem' : Z -> Z -> Z) (virt tl tp : Z).
Context (Htp : rch tl tp (vprefix virt tl)).
(** Every entry of the tree but the one for [virt] in table [tp]. *)
Context (Hsame : forall l p pre i, rch l p pre -> 0 <= i < 512 ->
  ~ (p = tp /\ i = memory_page_index virt tl) -> mem' p i = mem p i).

Lemma update_hit v l p : rch l p (vprefix v l) -> p = tp ->
  memory_page_index v l = memory_page_index virt tl -> l = tl /\ vprefix v (l - 1) = vprefix virt (tl - 1).
Proof using All.
  intros Hr -> Hi. destruct (vi_unique _ _ Hinv _ _ _ _ _ Hr Htp) as [-> Hpre].
  split; [done|]. apply vprefix_below; [by apply reach_level in Htp|done].
Qed.

(** Addresses outside the part of the tree below the entry see no change. *)
Lemma pure_walk_other v level : vprefix v (tl - 1) <> vprefix virt (tl - 1) ->
  forall p w u nx, (1 <= level <= 4)%nat -> rch (Z.of_nat level) p (vprefix v (Z.of_nat level)) ->
  pure_walk mask mem' v level p w u nx = pure_walk mask mem v level p w u nx.
Proof using All.
  intros Hne. induction level as [|lower IH]; intros p w u nx Hl Hr; [lia|]. cbn [pure_walk].
  set (lv := Z.of_nat (S lower)) in *. set (i := memory_page_index v lv).
  assert (mem' p i = mem p i) as ->.
  { apply (Hsame lv p _ i Hr); [apply page_index_range; lia|]. intros [E1 E2].
    destruct (update_hit v lv p Hr E1 E2) as [-> ?]. done. }
  destruct (negb (present (mem p i)) || (lv =? 1) || has (mem p i) VMM_HUGE) eqn:E; [done|].
  rewrite !orb_false_iff, negb_false_iff in E. destruct E as [[Ep E1%Z.eqb_neq] Eh].
  apply IH; [lia|]. replace (Z.of_nat lower) with (lv - 1) by lia. apply reach_step; try done. lia.
Qed.

(** The walk for [v], an address below the entry, gets to the entry as before. *)
Lemma pure_walk_path v level : vprefix v (tl - 1) = vprefix virt (tl - 1) ->
  forall p w u nx, (1 <= level <= 4)%nat -> rch (Z.of_nat level) p (vprefix v (Z.of_nat level)) ->
  let r := pure_walk mask mem v level p w u nx in
  wr_table r = tp -> wr_level r = tl ->
  pure_walk mask mem' v level p w u nx =
  pure_walk mask mem' v (Z.to_nat tl) tp (wr_parent_writable r) (wr_parent_user r) (wr_parent_nx r).
Proof using All.
  intros Heq. induction level as [|lower IH]; intros p w u nx Hl Hr; [lia|].
  cbn [pure_walk]. set (lv := Z.of_nat (S lower)) in *. set (i := memory_page_index v lv).
  destruct (negb (present (mem p i)) || (lv =? 1) || has (mem p i) VMM_HUGE) eqn:E.
  { cbn. intros -> <-. unfold lv. by rewrite Nat2Z.id. }
  cbv zeta. intros Ht Hlv.
  rewrite !orb_false_iff, negb_false_iff in E. destruct E as [[Ep E1%Z.eqb_neq] Eh].
  assert (rch (Z.of_nat lower) (Z.land (mem p i) mask) (vprefix v (Z.of_nat lower))) as Hr'.
  { replace (Z.of_nat lower) with (lv - 1) by lia. apply reach_step; try done. lia. }
  assert (mem' p i = mem p i) as ->.
  { apply (Hsame lv p _ i Hr); [apply page_index_range; lia|]. intros [F1 F2].
    destruct (update_hit v lv p Hr F1 F2) as [F3 _].
    pose proof (pure_walk_found v lower (Z.land (mem p i) mask) (w && has (mem p i) VMM_WRITABLE)
      (u && has (mem p i) VMM_USER) (nx || has (mem p i) VMM_NX) ltac:(lia) Hr') as (Hb & _). lia. }
  rewrite Ep, Eh. cbn [negb orb]. destruct (Z.eqb_spec lv 1); [done|]. cbn [orb].
  by apply IH; [lia| | |].
Qed.
End update.
End walk.
End tree.

(** ** Page tables: the operations

    Each operation keeps the invariant of the tree; what [vmm_space_query]
    answers afterwards is the abstract effect of the operation. *)


(** What [vmm_space_query] reports for the result of a walk. *)
Definition mapping_of (mask virt : Z) (found : walk_result) : vmm_mapping :=
  if wr_missing found then MkMapping false 0 0 0
  else
    let page_size := level_page_size (wr_level found) in
    let flags := Z.land (wr_value found) (not64 VMM_ADDRESS_MASK) in
    let flags := if negb (wr_level found =? 1)
                 then Z.lor flags (Z.land (wr_value found) VMM_LARGE_PAT) else flags in
    let flags := if negb (wr_parent_writable found) then Z.land flags (not64 VMM_WRITABLE) else flags in
    let flags := if negb (wr_parent_user found) then Z.land flags (not64 VMM_USER) else flags in
    let flags := if wr_parent_nx found then Z.lor flags VMM_NX else flags in
    MkMapping true
      (Z.lor (Z.land (Z.land (wr_value found) mask) (not64 (page_size -u 1)))
             (Z.land virt (page_size -u 1)))
      flags page_size.

Section ops.
Context {C : Type} `{VmmOpsLaws C}.

Lemma query_mapping space (m : vm C) virt : vmm_space_query space m virt =
  match walk space m virt with
  | None => None
  | Some found => Some (mapping_of (vs_physical_mask space) virt found)
  end.
Proof. unfold vmm_space_query, mapping_of. destruct (walk space m virt) as [[]|]; [|done]. simpl. by destruct wr_missing. Qed.

Lemma query_canonical space (m : vm C) virt : vm_inv space m ->
  vmm_space_query space m virt =
  if memory_is_canonical virt then
    Some (mapping_of (vs_physical_mask space) virt
      (pure_walk (vs_physical_mask space) (vm_mem m) virt 4 (vs_root_phys space) true true false))
  else None.
Proof.
  intros Hinv. rewrite query_mapping. destruct (memory_is_canonical virt) eqn:E.
  - by rewrite (walk_pure space m Hinv).
  - unfold walk. rewrite E. by rewrite orb_true_r.
Qed.

(** ** One level-1 entry *)

Section leaf.
Context (space : vmm_space) (m : vm C) (Hinv : vm_inv space m).
Notation mask := (vs_physical_mask space).
Notation root := (vs_root_phys space).
Notation mem := (vm_mem m).
Context (virt tp v : Z) (c : C).
Context (Htp : reach mask root mem 1 tp (vprefix virt 1)).
Notation ix := (memory_page_index virt 1).
Notation mem' := (mem_set mem tp ix v).
Context (Hwf : op_wf c).
Context (Hctx : forall g, (op_owned c g <-> op_owned (vm_ctx m) g) /\ op_table c g = op_table (vm_ctx m) g).
Context (Hv : u64_ok v) (Hvalid : present v = true -> entry_valid space v 1 = true).

Lemma leaf_same l p pre i : reach mask root mem l p pre -> 0 <= i < 512 ->
  ~ (p = tp /\ i = ix) -> mem' p i = mem p i.
Proof using All.
  intros _ _ Hne. unfold mem_set. destruct (Z.eqb_spec p tp), (Z.eqb_spec i ix); tauto.
Qed.

Lemma leaf_hit : mem' tp ix = v.
Proof. unfold mem_set. by rewrite !Z.eqb_refl. Qed.

Lemma leaf_reach l p pre : reach mask root mem' l p pre -> reach mask root mem l p pre.
Proof using All.
  induction 1 as [|l p pre i Hr IH Hl Hi Hp Hh]; [constructor|].
  assert (mem' p i = mem p i) as E.
  { unfold mem_set in *. destruct (Z.eqb_spec p tp) as [->|]; [|done].
    destruct (vi_unique _ _ Hinv _ _ _ _ _ IH Htp). lia. }
  rewrite E in *. by constructor.
Qed.

Lemma leaf_inv : vm_inv space (MkVm c mem').
Proof using All.
  constructor; cbn [vm_mem vm_ctx]; [done|apply Hinv|apply Hinv|apply Hinv|..].
  - intros l p pre Hr%leaf_reach. destruct (Hctx p) as [-> ->]. by apply (vi_table _ _ Hinv _ _ _ Hr).
  - intros l p pre i Hr%leaf_reach Hi. unfold mem_set. destruct (Z.eqb_spec p tp) as [->|].
    + destruct (Z.eqb_spec i ix) as [->|]; cbn [andb]; [|by apply (vi_entry _ _ Hinv _ _ _ _ Hr)].
      destruct (vi_unique _ _ Hinv _ _ _ _ _ Hr Htp) as [-> _]. done.
    + cbn [andb]. by apply (vi_entry _ _ Hinv _ _ _ _ Hr).
  - intros l l' p pre pre' Hr%leaf_reach Hr'%leaf_reach. by eapply (vi_unique _ _ Hinv).
Qed.

Lemma leaf_plain : present v = true \/ v = 0 -> plain_tree mask root mem -> plain_tree mask root mem'.
Proof using All.
  intros Hpv Hpl l p pre i Hr%leaf_reach Hi. destruct (decide (p = tp /\ i = ix)) as [[-> ->]|Hne].
  - destruct (vi_unique _ _ Hinv _ _ _ _ _ Hr Htp) as [-> _]. rewrite leaf_hit.
    split; [|lia]. intros E. destruct Hpv; congruence.
  - rewrite (leaf_same _ _ _ _ Hr Hi Hne). by apply (Hpl l p pre).
Qed.

Lemma leaf_other w : u64_ok virt -> u64_ok w -> memory_is_canonical virt = true ->
  w / 4096 <> virt / 4096 ->
  vmm_space_query space (MkVm c mem') w = vmm_space_query space m w.
Proof using All.
  intros Hu Hw Hc Hne. rewrite !query_canonical by (done || apply leaf_inv).
  destruct (memory_is_canonical w) eqn:Ew; [|done]. do 2 f_equal.
  apply (pure_walk_other space m Hinv mem' virt 1 tp Htp leaf_same); [|lia|].
  - rewrite !vprefix_zero. intros E. apply Hne. by apply vpn_page.
  - change (Z.of_nat 4) with 4. rewrite vprefix_top. constructor.
Qed.

(** The walk for an address of the page itself. *)
Lemma leaf_self w : vpn w = vpn virt ->
  let r := pure_walk mask mem w 4 root true true false in
  wr_table r = tp -> wr_level r = 1 ->
  pure_walk mask mem' w 4 root true true false =
  MkWalk tp ix v 1 (negb (present v)) (wr_parent_writable r) (wr_parent_user r) (wr_parent_nx r).
Proof using All.
  intros Heq r Ht Hl.
  assert (memory_page_index w 1 = ix) as Hix.
  { rewrite !page_index_vpn by lia. change (1 - 1) with 0. by rewrite !vprefix_zero, Heq. }
  unfold r in *. rewrite (pure_walk_path space m Hinv mem' virt 1 tp Htp leaf_same w 4); try done; try lia.
  - change (Z.to_nat 1) with 1%nat. cbn [pure_walk]. change (Z.of_nat 1) with 1. rewrite Hix, leaf_hit.
    cbn [Z.eqb]. rewrite orb_true_r. cbn [orb]. done.
  - change (1 - 1) with 0. by rewrite !vprefix_zero.
  - change (Z.of_nat 4) with 4. rewrite vprefix_top. constructor.
Qed.
End leaf.

(** ** Acquiring frames *)

Lemma rollback_owned frames : forall c, op_wf c -> NoDup frames -> (forall f, f ∈ frames -> op_loose c f) ->
  op_wf (rollback c frames) /\
  forall g, (op_owned (rollback c frames) g <-> op_owned c g /\ g ∉ frames) /\
            (op_loose (rollback c frames) g <-> op_loose c g /\ g ∉ frames) /\
            (op_owned c g -> g ∉ frames -> op_table (rollback c frames) g = op_table c g).
Proof.
  unfold rollback. induction frames as [|f fs IH] using rev_ind; intros c Hwf Hnd Hl.
  { cbn. split; [done|]. intros g. pose proof (not_elem_of_nil g). tauto. }
  rewrite rev_app_distr. cbn [rev app foldl]. apply NoDup_app in Hnd as (Hnd & Hd & _).
  destruct (law_free c f Hwf) as [Hwf' Hf]; [apply Hl, elem_of_app; right; by left|].
  destruct (IH (op_free c f) Hwf' Hnd) as [Hw Hg].
  { intros f' Hf'. apply Hf. split; [apply Hl, elem_of_app; by left|]. intros ->. apply (Hd f Hf'). by left. }
  split; [done|]. intros g. destruct (Hg g) as (Ho & Hlo & Ht), (Hf g) as (Ho' & Hlo' & Ht'). rewrite not_elem_of_app, list_elem_of_singleton.
  split; [rewrite Ho, Ho'; tauto|]. split; [rewrite Hlo, Hlo'; tauto|]. intros Hog [Hgf Hne]. rewrite Ht by tauto. by apply Ht'.
Qed.

(** What the acquisition loop leaves, when it succeeds and when it fails. *)
Definition acquired (space : vmm_space) (m m' : vm C) (new : list Z) : Prop :=
  op_wf (vm_ctx m') /\ NoDup new /\
  (forall f, f ∈ new -> u64_ok f /\ physical_valid space f = true /\ op_table (vm_ctx m') f = true /\
     ~ op_owned (vm_ctx m) f) /\
  (forall g, (op_owned (vm_ctx m') g <-> op_owned (vm_ctx m) g \/ g ∈ new) /\
             (op_loose (vm_ctx m') g <-> op_loose (vm_ctx m) g \/ g ∈ new) /\
             (op_owned (vm_ctx m) g -> op_table (vm_ctx m') g = op_table (vm_ctx m) g)) /\
  (forall p i, vm_mem m' p i = if decide (p ∈ new) then 0 else vm_mem m p i).

(** The state after a failure: the frames acquired so far are back. *)
Definition returned (m m' : vm C) (frames : list Z) : Prop :=
  op_wf (vm_ctx m') /\
  (forall g, (op_owned (vm_ctx m') g <-> op_owned (vm_ctx m) g /\ g ∉ frames) /\
             (op_loose (vm_ctx m') g <-> op_loose (vm_ctx m) g /\ g ∉ frames) /\
             (op_owned (vm_ctx m) g -> g ∉ frames -> op_table (vm_ctx m') g = op_table (vm_ctx m) g)) /\
  forall p i, op_owned (vm_ctx m) p -> vm_mem m' p i = vm_mem m p i.

(** One more frame, and the two ways to give all back. *)
Lemma acquire_one (m : vm C) c f frames : op_wf (vm_ctx m) -> op_alloc (vm_ctx m) = (c, Some f) ->
  NoDup frames -> (forall x, x ∈ frames -> op_loose (vm_ctx m) x /\ op_owned (vm_ctx m) x) ->
  op_wf c /\ NoDup (frames ++ [f]) /\ (forall x, x ∈ frames ++ [f] -> op_loose c x /\ op_owned c x) /\
  forall mem', (forall p i, op_owned (vm_ctx m) p -> mem' p i = vm_mem m p i) -> returned m (MkVm (rollback c (frames ++ [f])) mem') frames.
Proof.
  intros Hwf Ea Hnd Hfr. destruct (law_alloc _ _ _ Hwf Ea) as (Hwf' & Hnew & Hown). destruct (Hnew f eq_refl) as [_ Hfresh].
  assert (f ∉ frames) as Hnf by (intros Hf; by apply Hfresh, Hfr).
  assert (NoDup (frames ++ [f])) as Hnd'.
  { apply NoDup_app. split_and!; [done| |apply NoDup_singleton]. intros x Hx ->%list_elem_of_singleton. done. }
  assert (forall x, x ∈ frames ++ [f] -> op_loose c x /\ op_owned c x) as Hfr'.
  { intros x Hx. destruct (Hown x) as (Ho & Hl & _). apply elem_of_app in Hx as [Hx|Hx%list_elem_of_singleton].
    - destruct (Hfr x Hx). tauto.
    - subst. tauto. }
  split_and!; [done..|]. intros mem' Hmem. destruct (rollback_owned (frames ++ [f]) c Hwf' Hnd') as [Hw Hg]; [by intros; apply Hfr'|].
  assert (~ op_loose (vm_ctx m) f) as Hnl by (intros Hl; by apply Hfresh, law_loose).
  split_and!; [done| |done]. cbn [vm_ctx]. intros g. destruct (Hg g) as (Ho & Hlo & Ht), (Hown g) as (Ho' & Hlo' & Ht').
  rewrite not_elem_of_app, list_elem_of_singleton in Ho, Hlo, Ht. split_and!.
  - rewrite Ho, Ho'. destruct (decide (g = f)) as [->|]; [tauto|]. intuition congruence.
  - rewrite Hlo, Hlo'. destruct (decide (g = f)) as [->|]; [tauto|]. intuition congruence.
  - intros Hog Hgf. rewrite Ht; [by apply Ht'|tauto|]. split; [done|]. intros ->. done.
Qed.

Lemma acquire_spec space needed : forall m frames, op_wf (vm_ctx m) ->
  NoDup frames -> (forall f, f ∈ frames -> op_loose (vm_ctx m) f /\ op_owned (vm_ctx m) f) ->
  match acquire space needed m frames with
  | (m', Some fs) => exists new, fs = frames ++ new /\ length new = needed /\ acquired space m m' new
  | (m', None) => returned m m' frames
  end.
Proof.
  induction needed as [|needed IH]; intros m frames Hwf Hnd Hfr; cbn [acquire].
  { exists []. rewrite app_nil_r. split_and!; try done. unfold acquired. split_and!; [done|constructor| | |].
    - by intros f ?%elem_of_nil.
    - intros g. pose proof (not_elem_of_nil g). tauto.
    - intros p i. rewrite decide_False; [done|]. apply not_elem_of_nil. }
  destruct (op_alloc (vm_ctx m)) as [c [f|]] eqn:Ea; cycle 1.
  { destruct (law_alloc _ _ _ Hwf Ea) as (Hwf' & _ & Hown). unfold returned. cbn [vm_ctx vm_mem].
    destruct (rollback_owned frames c Hwf' Hnd) as [Hw Hg]; [intros f Hf; apply Hown; left; by apply Hfr|].
    split_and!; [done| |done]. intros g. destruct (Hg g) as (Ho & Hlo & Ht), (Hown g) as (Ho' & Hlo' & Ht'). split_and!.
    - rewrite Ho, Ho'. intuition congruence.
    - rewrite Hlo, Hlo'. intuition congruence.
    - intros Hog Hgf. rewrite Ht by tauto. by apply Ht'. }
  destruct (acquire_one m c f frames Hwf Ea Hnd Hfr) as (Hwf' & Hnd' & Hfr' & Hback).
  destruct (physical_valid space f) eqn:Epv; cbn [negb]; [|by apply Hback].
  destruct (op_table c f) eqn:Et; cbn [negb]; [|by apply Hback].
  destruct (law_alloc _ _ _ Hwf Ea) as (_ & Hnew & Hown). destruct (Hnew f eq_refl) as [Hf64 Hfresh].
  specialize (IH (MkVm c (mem_clear (vm_mem m) f)) (frames ++ [f]) Hwf' Hnd' Hfr').
  destruct (acquire space needed _ _) as [m' [fs|]].
  - destruct IH as (new & -> & Hlen & Hw & Hnn & Hn & Hctx & Hmem). cbn [vm_ctx vm_mem] in *.
    exists (f :: new). rewrite <- app_assoc. split_and!; [done|simpl; lia|].
    assert (op_owned c f /\ op_loose c f) as [Hcf Hlf] by (destruct (Hown f) as (? & ? & _); tauto).
    assert (f ∉ new) as Hfn by (intros Hf; by destruct (Hn f Hf) as (_ & _ & _ & Hno)).
    unfold acquired. split_and!; [done|by constructor| | |].
    + intros x [->|Hx]%elem_of_cons.
      * destruct (Hctx f) as (_ & Hl & Ht). rewrite Ht by done. split_and!; auto.
      * destruct (Hn x Hx) as (?&?&?&Hno). split_and!; try done. intros Ho. apply Hno. destruct (Hown x). tauto.
    + intros g. destruct (Hctx g) as (Ho & Hl & Ht), (Hown g) as (Ho' & Hl' & Ht'). rewrite elem_of_cons. split_and!.
      * rewrite Ho, Ho'. intuition congruence.
      * rewrite Hl, Hl'. intuition congruence.
      * intros Hog. rewrite Ht by tauto. by apply Ht'.
    + intros p i. rewrite Hmem. unfold mem_clear. destruct (Z.eqb_spec p f) as [->|Hne].
      * rewrite (decide_False (P := f ∈ new)), decide_True by (done || by left). done.
      * destruct (decide (p ∈ new)); [by rewrite decide_True by by right|].
        rewrite decide_False; [done|]. rewrite elem_of_cons. tauto.
  - destruct IH as (Hw & Hctx & Hmem). cbn [vm_ctx vm_mem] in *. split_and!; [done| |].
    + assert (~ op_loose (vm_ctx m) f) as Hnl by (intros Hl; by apply Hfresh, law_loose).
      intros g. destruct (Hctx g) as (Ho & Hlo & Ht), (Hown g) as (Ho' & Hlo' & Ht').
      rewrite not_elem_of_app, list_elem_of_singleton in Ho, Hlo, Ht. split_and!.
      * rewrite Ho, Ho'. destruct (decide (g = f)) as [->|]; [tauto|]. intuition congruence.
      * rewrite Hlo, Hlo'. destruct (decide (g = f)) as [->|]; [tauto|]. intuition congruence.
      * intros Hog Hgf. rewrite Ht; [by apply Ht'|tauto|]. split; [done|]. intros ->. done.
    + intros p i Ho. rewrite Hmem; [|destruct (Hown p); tauto]. unfold mem_clear.
      destruct (Z.eqb_spec p f) as [->|]; done.
Qed.

(** ** Linking the new tables *)

Fixpoint new_tables (mem : Z -> Z -> Z) (virt phys flags level : Z) (fs : list Z) : Prop :=
  match fs with
  | [] => True
  | f :: rest =>
      (forall i, mem f i = if i =? memory_page_index virt level then
         (if level =? 1 then Z.lor phys flags else Z.lor (hd 0 rest) VMM_NEW_PARENT_FLAGS) else 0) /\
      new_tables mem virt phys flags (level - 1) rest
  end.

Lemma new_tables_frame mem mem' virt phys flags fs : forall level,
  (forall f i, f ∈ fs -> mem' f i = mem f i) ->
  new_tables mem virt phys flags level fs -> new_tables mem' virt phys flags level fs.
Proof.
  induction fs as [|f fs IH]; intros level Hs; cbn [new_tables]; [done|]. intros [H1 H2]. split.
  - intros i. rewrite Hs by by left. apply H1.
  - apply IH; [|done]. intros g i Hg. apply Hs. by right.
Qed.

Lemma link_tables_spec virt phys flags fs : forall mem level,
  NoDup fs -> (forall f i, f ∈ fs -> mem f i = 0) ->
  new_tables (link_tables mem virt phys flags level fs) virt phys flags level fs /\
  forall p i, p ∉ fs -> link_tables mem virt phys flags level fs p i = mem p i.
Proof.
  induction fs as [|f fs IH]; intros mem level Hnd Hz; cbn [link_tables new_tables]; [done|].
  inversion Hnd as [|? ? Hf Hnd']; subst. set (mem1 := mem_set mem f _ _).
  destruct (IH mem1 (level - 1) Hnd') as [Hn Ho].
  { intros g i Hg. unfold mem1, mem_set. destruct (Z.eqb_spec g f); [congruence|]. apply Hz. by right. }
  split_and!; [|done|].
  - intros i. rewrite Ho by done. unfold mem1, mem_set. rewrite Z.eqb_refl. cbn [andb].
    destruct (i =? _); [done|]. apply Hz. by left.
  - intros p i [Hpf Hp]%not_elem_of_cons. rewrite Ho by done. unfold mem1, mem_set.
    by destruct (Z.eqb_spec p f).
Qed.
End ops.

(** ** Page tables: publishing new tables

    [vmm_space_map] builds a chain of fresh tables and hangs it into the tree
    with one store.  The section [graft] gives the tree after that store. *)


Lemma new_tables_lookup mem virt phys flags fs : forall level k f,
  new_tables mem virt phys flags level fs -> fs !! k = Some f -> forall i,
  mem f i = if i =? memory_page_index virt (level - Z.of_nat k) then
    (if level - Z.of_nat k =? 1 then Z.lor phys flags
     else Z.lor (default 0 (fs !! S k)) VMM_NEW_PARENT_FLAGS) else 0.
Proof.
  induction fs as [|g fs IH]; intros level k f; [done|]. intros [H1 H2] Hk i. destruct k as [|k].
  - injection Hk as ->. rewrite H1. replace (level - Z.of_nat 0) with level by lia.
    by destruct fs.
  - cbn [lookup list_lookup] in *. rewrite (IH _ _ _ H2 Hk).
    by replace (level - 1 - Z.of_nat k) with (level - Z.of_nat (S k)) by lia.
Qed.

Lemma zero_absent : present 0 = false.
Proof. done. Qed.

(** Addresses that share the prefix of a level share all higher prefixes. *)
Lemma vprefix_up v w k l : 0 <= k <= l -> l <= 4 -> vprefix v k = vprefix w k -> vprefix v l = vprefix w l.
Proof.
  intros Hk Hl. replace l with (k + Z.of_nat (Z.to_nat (l - k))) by lia.
  assert (k + Z.of_nat (Z.to_nat (l - k)) <= 4) as Hb by lia. clear Hl. revert Hb.
  induction (Z.to_nat (l - k)) as [|n IH]; intros Hb E; [by rewrite Z.add_0_r|].
  specialize (IH ltac:(lia) E). replace (k + Z.of_nat n) with (k + Z.of_nat (S n) - 1) in IH by lia.
  apply vprefix_below in IH; [tauto|lia].
Qed.

Lemma pure_walk_level mask mem v level : forall p a u nx,
  wr_level (pure_walk mask mem v level p a u nx) <= Z.of_nat level.
Proof.
  induction level as [|l IH]; intros p a u nx; cbn [pure_walk wr_level]; [done|].
  destruct (_ || _); cbn [wr_level]; [done|]. etrans; [apply IH|lia].
Qed.

(** The walk depends only on the prefix it consumes. *)
Lemma pure_walk_same mask mem v w level : forall p a u nx, (1 <= level <= 4)%nat ->
  let r := pure_walk mask mem w level p a u nx in
  1 <= wr_level r <= Z.of_nat level -> vprefix v (wr_level r - 1) = vprefix w (wr_level r - 1) ->
  pure_walk mask mem v level p a u nx = r.
Proof.
  induction level as [|lower IH]; intros p a u nx Hl r Hr E; [lia|].
  assert (memory_page_index v (Z.of_nat (S lower)) = memory_page_index w (Z.of_nat (S lower))) as Hi.
  { apply vprefix_below; [lia|]. by apply (vprefix_up v w (wr_level r - 1)); [lia|lia|]. }
  unfold r in *. cbn [pure_walk] in *. rewrite Hi.
  destruct (negb _ || _ || _) eqn:Ec; [done|]. apply IH; try done.
  - destruct lower; [|lia]. rewrite !orb_false_iff in Ec. destruct Ec as [[_ Ec] _]. done.
  - split; [lia|apply pure_walk_level].
Qed.

Section graft.
Context {C : Type} `{VmmOpsLaws C}.
Context (space : vmm_space) (m : vm C) (Hinv : vm_inv space m).
Notation mask := (vs_physical_mask space).
Notation root := (vs_root_phys space).
Notation mem := (vm_mem m).
Context (virt phys flags tl tp : Z) (fs : list Z) (mem' : Z -> Z -> Z) (c : C).
Notation ix := (memory_page_index virt tl).
Context (Htp : reach mask root mem tl tp (vprefix virt tl)) (Htl : 2 <= tl).
Context (Hphys : frame_ok mask phys) (Hflags : u64_ok flags) (Hfv : flags_valid space flags = true).
Context (Hlen : Z.of_nat (length fs) = tl - 1) (Hnd : NoDup fs).
Context (Hfresh : forall f, f ∈ fs -> frame_ok mask f /\ op_table c f = true /\ ~ op_owned (vm_ctx m) f).
Context (Hwf : op_wf c).
Context (Hctx : forall g, (op_owned c g <-> op_owned (vm_ctx m) g \/ g ∈ fs) /\
                          (op_owned (vm_ctx m) g -> op_table c g = op_table (vm_ctx m) g)).
Context (Hold : forall p i, op_owned (vm_ctx m) p -> ~ (p = tp /\ i = ix) -> mem' p i = mem p i).
Context (Hhit : mem' tp ix = Z.lor (hd 0 fs) VMM_NEW_PARENT_FLAGS).
Context (Hnew : new_tables mem' virt phys flags (tl - 1) fs).

Lemma graft_bound : tl <= 4.
Proof using Htp. exact (proj2 (reach_level _ _ _ _ _ _ Htp)). Qed.

Lemma graft_head : exists f rest, fs = f :: rest /\ frame_ok mask f /\ mem' tp ix = Z.lor f VMM_NEW_PARENT_FLAGS.
Proof using All.
  pose proof Hlen as Hl. pose proof Hfresh as Hfr. pose proof Hhit as Hh.
  destruct fs as [|f rest]; [cbn in Hl; lia|]. exists f, rest. split_and!; [done| |done].
  apply Hfr. by left.
Qed.

Lemma graft_same l p pre i : reach mask root mem l p pre -> 0 <= i < 512 ->
  ~ (p = tp /\ i = ix) -> mem' p i = mem p i.
Proof using All. intros Hr Hi Hne. apply Hold; [|done]. by apply (vi_table _ _ Hinv _ _ _ Hr). Qed.

(** The entries of the new tables. *)
Lemma graft_entry k f i : fs !! k = Some f ->
  (i <> memory_page_index virt (tl - 1 - Z.of_nat k) /\ mem' f i = 0) \/
  (i = memory_page_index virt (tl - 1 - Z.of_nat k) /\
    ((tl - 1 - Z.of_nat k = 1 /\ mem' f i = Z.lor phys flags) \/
     (1 < tl - 1 - Z.of_nat k /\ exists g, fs !! S k = Some g /\ mem' f i = Z.lor g VMM_NEW_PARENT_FLAGS))).
Proof using All.
  intros Hk. pose proof (lookup_lt_Some _ _ _ Hk) as Hlt.
  rewrite (new_tables_lookup _ _ _ _ _ _ _ _ Hnew Hk i).
  destruct (Z.eqb_spec i (memory_page_index virt (tl - 1 - Z.of_nat k))) as [->|]; [right|by left].
  split; [done|]. destruct (Z.eqb_spec (tl - 1 - Z.of_nat k) 1) as [->|]; [by left|right].
  split; [lia|]. destruct (lookup_lt_is_Some_2 fs (S k)) as [g Hg]; [lia|].
  exists g. by rewrite Hg.
Qed.

Definition grafted (l p pre : Z) : Prop :=
  exists k, fs !! k = Some p /\ l = tl - 1 - Z.of_nat k /\ pre = vprefix virt l.

Lemma graft_reach l p pre : reach mask root mem' l p pre -> reach mask root mem l p pre \/ grafted l p pre.
Proof using All.
  pose proof graft_bound as Hb.
  induction 1 as [|l p pre i Hr IH Hl Hi Hp Hh]; [left; constructor|]. destruct IH as [IH|(k & Hk & El & Ep)].
  - destruct (decide (p = tp /\ i = ix)) as [[-> ->]|Hne].
    + right. destruct graft_head as (f & rest & E & Hf & Hv).
      destruct (vi_unique _ _ Hinv _ _ _ _ _ IH Htp) as [<- ->].
      destruct (parent_entry mask (vi_mask _ _ Hinv) space f (l + 1) eq_refl Hf) as [Em _].
      exists 0%nat. rewrite Hv, Em, E. split_and!; [done|lia|].
      replace l with (l + 1 - 1) at 3 by lia. by rewrite (vprefix_step virt (l + 1)) by lia.
    + left. rewrite (graft_same _ _ _ _ IH Hi Hne) in *. by constructor.
  - right. destruct (graft_entry k p i Hk) as [[_ E]|[Ei [[E _]|[_ (g & Hg & E)]]]].
    + by rewrite E in Hp.
    + lia.
    + exists (S k). rewrite E. assert (frame_ok mask g) as Hf by (apply Hfresh; by eapply list_elem_of_lookup_2).
      destruct (parent_entry mask (vi_mask _ _ Hinv) space g (l + 1) eq_refl Hf) as [-> _].
      split_and!; [done|lia|]. rewrite Ep, Ei, <- El.
      replace l with (l + 1 - 1) at 3 by lia. by rewrite (vprefix_step virt (l + 1)) by lia.
Qed.

Lemma graft_inv : vm_inv space (MkVm c mem').
Proof using All.
  assert (forall l p pre, grafted l p pre -> p ∈ fs) as Hin.
  { intros l p pre (k & Hk & _). by eapply list_elem_of_lookup_2. }
  assert (forall l l' p pre pre', reach mask root mem l p pre -> grafted l' p pre' -> False) as Hmix.
  { intros l l' p pre pre' Hr Hg. apply (Hfresh p (Hin _ _ _ Hg)). by apply (vi_table _ _ Hinv _ _ _ Hr). }
  constructor; cbn [vm_mem vm_ctx]; [done|apply Hinv|apply Hinv|apply Hinv|..].
  - intros l p pre [Hr|Hg]%graft_reach; destruct (Hctx p) as [Ho Et].
    + destruct (vi_table _ _ Hinv _ _ _ Hr). rewrite Et by done. tauto.
    + rewrite Ho. destruct (Hfresh p (Hin _ _ _ Hg)) as (_ & ? & _). split; [done|]. right. by eapply Hin.
  - intros l p pre i [Hr|Hg]%graft_reach Hi.
    + destruct (decide (p = tp /\ i = ix)) as [[-> ->]|Hne].
      * destruct graft_head as (f & rest & _ & Hf & ->).
        destruct (parent_entry mask (vi_mask _ _ Hinv) space f l eq_refl Hf) as (_&_&_&_&_&_&?&?). done.
      * rewrite (graft_same _ _ _ _ Hr Hi Hne). by apply (vi_entry _ _ Hinv _ _ _ _ Hr).
    + destruct Hg as (k & Hk & El & _).
      destruct (graft_entry k p i Hk) as [[_ ->]|[_ [[E1 ->]|[_ (g & Hg & ->)]]]]; [done| |].
      * destruct (leaf_entry mask (vi_mask _ _ Hinv) space phys flags eq_refl Hphys Hflags Hfv)
          as (_&_&_&?&?). rewrite El, E1. done.
      * assert (frame_ok mask g) as Hf by (apply Hfresh; by eapply list_elem_of_lookup_2).
        destruct (parent_entry mask (vi_mask _ _ Hinv) space g l eq_refl Hf) as (_&_&_&_&_&_&?&?). done.
  - intros l l' p pre pre' [Hr|Hg]%graft_reach [Hr'|Hg']%graft_reach.
    + by eapply (vi_unique _ _ Hinv).
    + by destruct (Hmix _ _ _ _ _ Hr Hg').
    + by destruct (Hmix _ _ _ _ _ Hr' Hg).
    + destruct Hg as (k & Hk & -> & ->), Hg' as (k' & Hk' & -> & ->).
      by rewrite (NoDup_lookup _ _ _ _ Hnd Hk Hk').
Qed.

Lemma graft_plain : plain_tree mask root mem -> plain_tree mask root mem'.
Proof using All.
  intros Hpl l p pre i [Hr|Hg]%graft_reach Hi.
  - destruct (decide (p = tp /\ i = ix)) as [[-> ->]|Hne].
    + destruct graft_head as (f & rest & _ & Hf & ->).
      destruct (parent_entry mask (vi_mask _ _ Hinv) space f l eq_refl Hf) as (_&Hp&->&->&->&->&_).
      unfold present. by rewrite Hp.
    + rewrite (graft_same _ _ _ _ Hr Hi Hne). by apply (Hpl l p pre).
  - destruct Hg as (k & Hk & -> & _).
    destruct (graft_entry k p i Hk) as [[_ ->]|[_ [[E1 ->]|[_ (g & Hg & ->)]]]]; [done| |].
    + destruct (leaf_entry mask (vi_mask _ _ Hinv) space phys flags eq_refl Hphys Hflags Hfv) as (_&Hp&_).
      unfold present. rewrite Hp. split; [done|lia].
    + assert (frame_ok mask g) as Hf by (apply Hfresh; by eapply list_elem_of_lookup_2).
      destruct (parent_entry mask (vi_mask _ _ Hinv) space g 2 eq_refl Hf) as (_&Hp&->&->&->&->&_).
      unfold present. by rewrite Hp.
Qed.

(** Walking down the new chain. *)
Lemma graft_walk_new v n : forall k f a u nx, (1 <= n)%nat -> fs !! k = Some f ->
  tl - 1 - Z.of_nat k = Z.of_nat n -> vprefix v (Z.of_nat n) = vprefix virt (Z.of_nat n) ->
  let r := pure_walk mask mem' v n f a u nx in
  if decide (vpn v = vpn virt) then
    exists t, r = MkWalk t (memory_page_index virt 1) (Z.lor phys flags) 1 false a u nx
  else wr_missing r = true.
Proof using All.
  pose proof graft_bound as Hb.
  induction n as [|n IH]; intros k f a u nx Hn Hk Hl Hpre r; [lia|]. unfold r. cbn [pure_walk].
  pose proof (graft_entry k f (memory_page_index v (Z.of_nat (S n))) Hk) as He. rewrite Hl in He.
  destruct (decide (memory_page_index v (Z.of_nat (S n)) = memory_page_index virt (Z.of_nat (S n)))) as [Ei|Ei].
  - assert (vprefix v (Z.of_nat (S n) - 1) = vprefix virt (Z.of_nat (S n) - 1)) as Hpre'.
    { apply vprefix_below; [lia|done]. }
    destruct He as [[? _]|[_ [[E1 ->]|[E1 (g & Hg & ->)]]]]; [done| |].
    + destruct (leaf_entry mask (vi_mask _ _ Hinv) space phys flags eq_refl Hphys Hflags Hfv) as (_&Hp&_).
      rewrite Ei, E1. unfold present. rewrite Hp. cbn [negb orb Z.eqb].
      rewrite E1 in Hpre'. change (1 - 1) with 0 in Hpre'. rewrite !vprefix_zero in Hpre'.
      rewrite decide_True by done. by exists f.
    + assert (frame_ok mask g) as Hf by (apply Hfresh; by eapply list_elem_of_lookup_2).
      destruct (parent_entry mask (vi_mask _ _ Hinv) space g 2 eq_refl Hf) as (Em & Hp & -> & -> & -> & -> & _).
      unfold present. rewrite Hp, Em. destruct (Z.eqb_spec (Z.of_nat (S n)) 1); [lia|]. cbn [negb orb].
      rewrite !andb_true_r, orb_false_r. replace (Z.of_nat (S n) - 1) with (Z.of_nat n) in Hpre' by lia.
      apply (IH (S k)); try done; lia.
  - destruct He as [[_ ->]|[? _]]; [|done]. rewrite zero_absent. cbn [negb orb wr_missing].
    rewrite decide_False; [done|]. intros E. apply Ei. rewrite !page_index_vpn by lia. unfold vprefix. by rewrite E.
Qed.

(** The walk in the new tree for an address below the new entry. *)
Lemma graft_walk v a u nx : vprefix v (tl - 1) = vprefix virt (tl - 1) ->
  pure_walk mask mem virt 4 root true true false = MkWalk tp ix (mem tp ix) tl true a u nx ->
  let r := pure_walk mask mem' v 4 root true true false in
  if decide (vpn v = vpn virt) then
    exists t, r = MkWalk t (memory_page_index virt 1) (Z.lor phys flags) 1 false a u nx
  else wr_missing r = true.
Proof using All.
  pose proof graft_bound as Hb. intros Hpre Hw. cbv zeta.
  assert (pure_walk mask mem v 4 root true true false = MkWalk tp ix (mem tp ix) tl true a u nx) as Hv.
  { rewrite (pure_walk_same _ _ v virt); rewrite ?Hw; cbn [wr_level]; try done; lia. }
  pose proof (pure_walk_path space m Hinv mem' virt tl tp Htp graft_same v 4 Hpre root true true false) as Hp.
  cbv zeta in Hp. rewrite Hv in Hp. cbn [wr_table wr_level wr_parent_writable wr_parent_user wr_parent_nx] in Hp.
  rewrite Hp; [|lia| |done|done]; [|change (Z.of_nat 4) with 4; rewrite vprefix_top; constructor].
  destruct (Z.to_nat tl) as [|n] eqn:En; [lia|]. cbn [pure_walk].
  assert (memory_page_index v (Z.of_nat (S n)) = ix) as ->.
  { rewrite <- En, Z2Nat.id by lia. apply vprefix_below in Hpre; [tauto|lia]. }
  destruct graft_head as (f & rest & E & Hf & ->).
  destruct (parent_entry mask (vi_mask _ _ Hinv) space f 2 eq_refl Hf) as (Em & Hpr & -> & -> & -> & -> & _).
  unfold present. rewrite Hpr, Em. destruct (Z.eqb_spec (Z.of_nat (S n)) 1); [lia|]. cbn [negb orb].
  rewrite !andb_true_r, orb_false_r.
  apply (graft_walk_new v n 0); [lia|by rewrite E|lia|]. by replace (Z.of_nat n) with (tl - 1) by lia.
Qed.

(** Nothing is lost: the old tables stay in the tree and every new frame is a
    table of it. *)
Lemma graft_keeps l p pre : present (mem tp ix) = false ->
  reach mask root mem l p pre -> reach mask root mem' l p pre.
Proof using All.
  intros Hm. induction 1 as [|l p pre i Hr IH Hl Hi Hp Hh]; [constructor|].
  assert (mem' p i = mem p i) as E.
  { apply (graft_same _ _ _ _ Hr Hi). intros [-> ->]. congruence. }
  rewrite <- E in *. by constructor.
Qed.

Lemma graft_tables k f : present (mem tp ix) = false -> fs !! k = Some f ->
  reach mask root mem' (tl - 1 - Z.of_nat k) f (vprefix virt (tl - 1 - Z.of_nat k)).
Proof using All.
  pose proof graft_bound as Hb. intros Hm. revert f. induction k as [|k IH]; intros f Hk.
  - destruct graft_head as (f0 & rest & E & Hf & Hv). rewrite E in Hk. injection Hk as ->.
    destruct (parent_entry mask (vi_mask _ _ Hinv) space f 2 eq_refl Hf) as (Em & Hp & Hh & _).
    rewrite <- Hv in Em, Hp, Hh. rewrite <- Em at 1. rewrite Z.sub_0_r. rewrite vprefix_step by lia.
    apply reach_child; [|lia|apply page_index_range; lia|unfold present; by rewrite Hp|done].
    replace (tl - 1 + 1) with tl by lia. by apply graft_keeps.
  - destruct (lookup_lt_is_Some_2 fs k) as [g Hg]; [apply lookup_lt_Some in Hk; lia|].
    pose proof (lookup_lt_Some _ _ _ Hk) as Hlt.
    destruct (graft_entry k g (memory_page_index virt (tl - 1 - Z.of_nat k)) Hg)
      as [[? _]|[_ [[? _]|[_ (f0 & Hf0 & Hv)]]]]; [done|lia|]. rewrite Hk in Hf0. injection Hf0 as <-.
    assert (frame_ok mask f) as Hf by (apply Hfresh; by eapply list_elem_of_lookup_2).
    destruct (parent_entry mask (vi_mask _ _ Hinv) space f 2 eq_refl Hf) as (Em & Hp & Hh & _).
    rewrite <- Hv in Em, Hp, Hh. rewrite <- Em at 1.
    replace (tl - 1 - Z.of_nat (S k)) with (tl - 1 - Z.of_nat k - 1) by lia. rewrite vprefix_step by lia.
    apply reach_child; [|lia|apply page_index_range; lia|unfold present; by rewrite Hp|done].
    replace (tl - 1 - Z.of_nat k - 1 + 1) with (tl - 1 - Z.of_nat k) by lia. by apply IH.
Qed.
End graft.
