(* ===== verification/VmmSpec.v ===== *)
(** * Page tables: what the operations do to the translation

    For any space that satisfies [vm_inv]: what [vmm_space_map],
    [vmm_space_unmap] and [vmm_space_protect] change in the answers of
    [vmm_space_query], and what they do to the ownership of frames. *)

From S2P Require Import Prelude MemoryHelpers VmmCore VmmMap.
Open Scope Z_scope.

(** The permissions that take effect below parents with these rights. *)
Definition effective (w u nx : bool) (flags : Z) : Z :=
  let flags := if negb w then Z.land flags (not64 VMM_WRITABLE) else flags in
  let flags := if negb u then Z.land flags (not64 VMM_USER) else flags in
  if nx then Z.lor flags VMM_NX else flags.

Lemma mapping_leaf mask v t i e w u nx :
  mapping_of mask v (MkWalk t i e 1 false w u nx) =
  MkMapping true (Z.lor (Z.land (Z.land e mask) (not64 4095)) (Z.land v 4095))
    (effective w u nx (Z.land e (not64 VMM_ADDRESS_MASK))) 4096.
Proof. done. Qed.

Lemma page_offset mask phys v : mask_ok mask -> frame_ok mask phys ->
  Z.lor (Z.land phys (not64 4095)) (Z.land v 4095) = phys + v mod 4096.
Proof.
  intros Hm Hf. pose proof Hf as [Hu _]. rewrite land_not64 by done.
  change 4095 with (Z.ones 12). rewrite ldiff_ones, land_low_mask by done. change (2 ^ 12) with 4096.
  assert (phys mod 4096 = 0) as Ha.
  { assert (physical_valid (MkSpace 0 mask true true) phys = true) as Hv by (by apply (physical_valid_frame mask)).
    unfold physical_valid in Hv. rewrite page_aligned_mod in Hv. lia. }
  rewrite Ha, Z.sub_0_r. apply (lor_add _ _ 12); [done|done|]. change (2 ^ 12) with 4096. dlia.
Qed.

Lemma clear_absent x k : 0 <= k < 64 -> u64_ok x -> Z.testbit x k = false -> Z.land x (not64 (2 ^ k)) = x.
Proof.
  intros Hk Hx Hb. apply Z.bits_inj'. intros n Hn. rewrite Z.land_spec. destruct (decide (n < 64)).
  - rewrite not64_testbit by lia. destruct (decide (n = k)) as [->|]; [by rewrite Hb|].
    rewrite Z.pow2_bits_false by lia. apply andb_true_r.
  - by rewrite (u64_bits x n) by (done || lia).
Qed.

Lemma set_present x k : 0 <= k -> Z.testbit x k = true -> Z.lor x (2 ^ k) = x.
Proof.
  intros Hk Hb. apply Z.bits_inj'. intros n Hn. rewrite Z.lor_spec. destruct (decide (n = k)) as [->|].
  - by rewrite Hb.
  - rewrite Z.pow2_bits_false by lia. apply orb_false_r.
Qed.

Lemma effective_allowed t i e l b w u nx flags : u64_ok flags ->
  parents_allow (MkWalk t i e l b w u nx) flags = true -> effective w u nx flags = flags.
Proof.
  unfold parents_allow, effective. cbn [wr_parent_writable wr_parent_user wr_parent_nx].
  rewrite !andb_true_iff, !orb_true_iff, !Z.eqb_eq. intros Hu [[Hw Hus] Hn].
  assert (forall k, 0 <= k -> Z.land flags (2 ^ k) = 0 -> Z.testbit flags k = false) as Hz.
  { intros k Hk E. rewrite <- has_testbit by done. unfold has. by rewrite E. }
  assert ((if negb w then Z.land flags (not64 VMM_WRITABLE) else flags) = flags) as ->.
  { destruct w; [done|]. destruct Hw as [|Hw]; [done|]. apply (clear_absent flags 1); [lia|done|by apply Hz]. }
  assert ((if negb u then Z.land flags (not64 VMM_USER) else flags) = flags) as ->.
  { destruct u; [done|]. destruct Hus as [|Hus]; [done|]. apply (clear_absent flags 2); [lia|done|by apply Hz]. }
  destruct nx; [|done]. destruct Hn as [|Hn]; [done|]. apply (set_present flags 63); [done|].
  by rewrite <- has_testbit.
Qed.

(** ** The new value of an entry in [vmm_space_protect] *)

Definition protected (value flags : Z) : Z := Z.lor (Z.land value (not64 VMM_PERMISSION_MASK)) flags.

Lemma flags_valid_bits space flags n : u64_ok flags -> flags_valid space flags = true -> 0 <= n ->
  Z.testbit flags n = true -> n < 64 /\ Z.testbit VMM_PERMISSION_MASK n = true.
Proof.
  unfold flags_valid. rewrite !andb_true_iff. intros Hu [[[_ _] Hp%Z.eqb_eq] _] Hn Hb.
  rewrite land_zero_bits in Hp. specialize (Hp n Hn). rewrite Hb in Hp.
  destruct (decide (n < 64)); [|by rewrite (u64_bits flags n) in Hb by (done || lia)].
  rewrite not64_testbit in Hp by lia. split; [done|]. by destruct (Z.testbit VMM_PERMISSION_MASK n).
Qed.

Lemma protected_bits value flags n : 0 <= n < 64 ->
  Z.testbit (protected value flags) n =
  Z.testbit value n && negb (Z.testbit VMM_PERMISSION_MASK n) || Z.testbit flags n.
Proof. intros Hn. unfold protected. by rewrite Z.lor_spec, Z.land_spec, not64_testbit. Qed.

Lemma protected_u64 value flags : u64_ok value -> u64_ok flags -> u64_ok (protected value flags).
Proof.
  intros Hv Hf. apply bits_u64.
  - unfold protected. apply Z.lor_nonneg. split; [apply Z.land_nonneg; left; apply Hv|apply Hf].
  - intros n Hn. unfold protected. rewrite Z.lor_spec, Z.land_spec.
    by rewrite (u64_bits value n), (u64_bits flags n).
Qed.

Section protected.
Context (mask : Z) (Hmask : mask_ok mask) (space : vmm_space) (Hsp : vs_physical_mask space = mask).
Context (value flags : Z) (Hv : u64_ok value) (Hf : u64_ok flags) (Hfv : flags_valid space flags = true).

Lemma protected_address n : 0 <= n -> 12 <= n < 52 -> Z.testbit (protected value flags) n = Z.testbit value n.
Proof using All.
  intros Hn Hr. rewrite protected_bits by lia.
  assert (Z.testbit VMM_PERMISSION_MASK n = false) as E.
  { destruct (Z.testbit VMM_PERMISSION_MASK n) eqn:E; [|done]. apply permission_bits in E; lia. }
  rewrite E, andb_true_r. destruct (Z.testbit flags n) eqn:Eb; [|apply orb_false_r].
  apply (flags_valid_bits space) in Eb as [_ Eb]; try done. congruence.
Qed.

Lemma protected_frame : Z.land (protected value flags) mask = Z.land value mask.
Proof using All.
  destruct Hmask as (bits & Hr & Hm). apply Z.bits_inj'. intros n Hn. rewrite !Z.land_spec, Hm by done.
  destruct (decide (12 <= n < bits)).
  - by rewrite protected_address by lia.
  - assert ((12 <=? n) && (n <? bits) = false) as -> by lia. by rewrite !andb_false_r.
Qed.

Lemma protected_present : present (protected value flags) = true.
Proof using All.
  pose proof Hfv as Hp. unfold flags_valid in Hp. rewrite !andb_true_iff in Hp. destruct Hp as [[[_ Hp] _] _].
  unfold present. fold (has (protected value flags) VMM_PRESENT). change VMM_PRESENT with (2 ^ 0) in *.
  rewrite has_testbit in * by done. rewrite protected_bits, Hp by lia. apply orb_true_r.
Qed.

Lemma protected_valid : entry_valid space value 1 = true -> entry_valid space (protected value flags) 1 = true.
Proof using All.
  unfold entry_valid. cbn [Z.eqb andb]. rewrite !orb_false_r, Hsp. change VMM_NX with (2 ^ 63).
  rewrite !has_testbit by done.
  assert (Z.land (protected value flags) (Z.land VMM_ADDRESS_MASK (not64 mask)) =
          Z.land value (Z.land VMM_ADDRESS_MASK (not64 mask))) as ->.
  { apply Z.bits_inj'. intros n Hn. rewrite !Z.land_spec, address_mask_bits by done.
    destruct (decide (12 <= n < 52)); [by rewrite protected_address by lia|].
    assert ((12 <=? n) && (n <? 52) = false) as -> by lia. by rewrite !andb_false_r. }
  destruct (negb _); cbn [orb]; [done|]. destruct (vs_nx_enabled space) eqn:En; [done|]. cbn [negb andb].
  intros _. rewrite protected_bits by lia. replace (Z.testbit VMM_PERMISSION_MASK 63) with true by done.
  cbn [negb]. rewrite andb_false_r, orb_false_l. pose proof Hfv as Hp. unfold flags_valid in Hp.
  rewrite En, !andb_true_iff in Hp. destruct Hp as [_ Hp]. cbn [orb] in Hp.
  change VMM_NX with (2 ^ 63) in Hp. rewrite <- has_testbit by done. unfold has. by rewrite Hp.
Qed.

(** The bits that are not permissions stay, also in what a query reports. *)
Lemma protected_effective w u nx :
  parents_allow (MkWalk 0 0 0 1 false w u nx) flags = true ->
  effective w u nx (Z.land (protected value flags) (not64 VMM_ADDRESS_MASK)) =
  protected (effective w u nx (Z.land value (not64 VMM_ADDRESS_MASK))) flags.
Proof using All.
  intros Hp. pose proof (effective_allowed _ _ _ _ _ _ _ _ _ Hf Hp) as He.
  assert (forall x n, 0 <= n < 64 -> Z.testbit (effective w u nx x) n =
    (Z.testbit x n && (w || negb (n =? 1)) && (u || negb (n =? 2))) || (nx && (n =? 63))) as Heb.
  { intros x n Hn. unfold effective. change VMM_NX with (2 ^ 63). change VMM_WRITABLE with (2 ^ 1).
    change VMM_USER with (2 ^ 2).
    destruct w, u, nx; cbn [negb]; rewrite ?Z.lor_spec, ?Z.land_spec, ?not64_testbit, ?Z.pow2_bits_eqb by lia;
    rewrite ?(Z.eqb_sym n); destruct (Z.testbit x n); cbn [andb orb negb]; rewrite ?andb_true_r, ?orb_false_r; try done. }
  assert (forall x, u64_ok x -> forall n, 64 <= n -> Z.testbit (effective w u nx x) n = false) as Heh.
  { intros x Hx n Hn. unfold effective. change VMM_NX with (2 ^ 63).
    destruct w, u, nx; cbn [negb]; rewrite ?Z.lor_spec, ?Z.land_spec, ?Z.pow2_bits_false, ?(u64_bits x n) by (done || lia); done. }
  assert (forall x, u64_ok x -> u64_ok (Z.land x (not64 VMM_ADDRESS_MASK))) as Hland.
  { intros x Hx. apply bits_u64; [apply Z.land_nonneg; left; apply Hx|]. intros n Hn.
    by rewrite Z.land_spec, (u64_bits x n). }
  apply Z.bits_inj'. intros n Hn. destruct (decide (n < 64)); cycle 1.
  { rewrite Heh by (try lia; by apply Hland, protected_u64). unfold protected.
    rewrite Z.lor_spec, Z.land_spec, Heh, (u64_bits flags n) by (done || lia || by apply Hland). done. }
  rewrite Heb, protected_bits, Heb, !Z.land_spec, protected_bits, not64_testbit by lia.
  pose proof (Heb flags n ltac:(lia)) as E. rewrite He in E.
  destruct (Z.testbit flags n) eqn:Eb.
  - destruct (flags_valid_bits space flags n Hf Hfv ltac:(lia) Eb) as [_ Epm].
    assert (Z.testbit VMM_ADDRESS_MASK n = false) as ->.
    { rewrite address_mask_bits by lia. apply permission_bits in Epm; lia. }
    rewrite Epm. cbn [negb]. rewrite !andb_false_r. cbn [orb negb]. cbn [andb] in *. by rewrite <- E.
  - rewrite orb_false_r. destruct (Z.testbit VMM_PERMISSION_MASK n) eqn:Epm; cbn [negb].
    + rewrite !andb_false_r. cbn [andb orb]. cbn [andb orb] in E. by rewrite <- E.
    + rewrite !andb_true_r.
      assert (n =? 1 = false) as -> by (apply Z.eqb_neq; intros ->; done).
      assert (n =? 2 = false) as -> by (apply Z.eqb_neq; intros ->; done).
      assert (n =? 63 = false) as -> by (apply Z.eqb_neq; intros ->; done).
      cbn [negb]. by rewrite !orb_true_r, !andb_true_r, andb_false_r, !orb_false_r.
Qed.
End protected.

Definition unmapped : vmm_mapping := MkMapping false 0 0 0.

Lemma level_page_size_leaf l : 1 <= l <= 4 -> level_page_size l = 4096 <-> l = 1.
Proof.
  intros Hl. assert (l = 1 \/ l = 2 \/ l = 3 \/ l = 4) as [->|[->|[->| ->]]] by lia; by vm_compute.
Qed.

Lemma canonical_page v w : u64_ok w -> memory_is_canonical v = true -> w / 4096 = v / 4096 ->
  memory_is_canonical w = true.
Proof.
  unfold memory_is_canonical, u64_ok, UINT64_MAX. rewrite !orb_true_iff, !Z.leb_le. intros Hw [?|?] ?; [left|right]; dlia.
Qed.

Lemma vpn_same v w : w / 4096 = v / 4096 -> vpn w = vpn v.
Proof. unfold vpn. by intros ->. Qed.

Section spec.
Context {C : Type} `{VmmOpsLaws C}.
Context (space : vmm_space) (m : vm C) (Hinv : vm_inv space m).
Notation mask := (vs_physical_mask space).
Notation root := (vs_root_phys space).

(** A 4 KiB page is mapped at the address. *)
Definition page_mapped (s : vmm_space) (x : vm C) (virt : Z) : bool :=
  match vmm_space_query s x virt with
  | Some mp => vp_mapped mp && (vp_page_size mp =? 4096)
  | None => false
  end.

Lemma walk_facts virt : memory_is_canonical virt = true -> exists t l v w u nx,
  let r := MkWalk t (memory_page_index virt l) v l (negb (present v)) w u nx in
  walk space m virt = Some r /\ pure_walk mask (vm_mem m) virt 4 root true true false = r /\
  1 <= l <= 4 /\ reach mask root (vm_mem m) l t (vprefix virt l) /\ v = vm_mem m t (memory_page_index virt l) /\
  u64_ok v /\ (present v = true -> entry_valid space v l = true).
Proof using Hinv.
  intros Hc. pose proof (pure_walk_found space m virt 4 root true true false ltac:(lia)) as Hf.
  change (Z.of_nat 4) with 4 in Hf. rewrite vprefix_top in Hf. specialize (Hf ltac:(constructor)).
  cbv zeta in Hf. destruct Hf as (Hl & Hr & Hi & Hv & Hm). pose proof (walk_pure space m Hinv virt Hc) as Hw.
  destruct (pure_walk _ _ _ _ _ _ _ _) as [t i v l mi w u nx] eqn:E.
  cbn [wr_level wr_table wr_index wr_value wr_missing] in *. subst i mi.
  exists t, l, v, w, u, nx. cbv zeta. split_and!; try done; try lia.
  all: subst v; apply (vi_entry _ _ Hinv _ _ _ _ Hr), page_index_range; lia.
Qed.

Lemma query_facts virt t l v w u nx :
  walk space m virt = Some (MkWalk t (memory_page_index virt l) v l (negb (present v)) w u nx) ->
  1 <= l <= 4 -> page_mapped space m virt = present v && (l =? 1).
Proof using Type.
  intros Hw Hl. unfold page_mapped. rewrite query_mapping, Hw. unfold mapping_of. cbn [wr_missing wr_level].
  destruct (present v); cbn [negb andb vp_mapped vp_page_size]; [|done].
  pose proof (level_page_size_leaf l Hl). destruct (Z.eqb_spec l 1), (Z.eqb_spec (level_page_size l) 4096); tauto.
Qed.

Lemma not_canonical virt : memory_is_canonical virt = false ->
  walk space m virt = None /\ page_mapped space m virt = false.
Proof using Type.
  intros E. unfold page_mapped, vmm_space_query, walk. rewrite E, orb_true_r. done.
Qed.

Lemma invalidate_wf virt : op_wf (op_invalidate (vm_ctx m) virt).
Proof using Hinv. apply law_invalidate, Hinv. Qed.

Lemma invalidate_ctx virt g : (op_owned (op_invalidate (vm_ctx m) virt) g <-> op_owned (vm_ctx m) g) /\
  op_table (op_invalidate (vm_ctx m) virt) g = op_table (vm_ctx m) g.
Proof using Hinv. destruct (law_invalidate (vm_ctx m) virt (vi_ctx _ _ Hinv)) as [_ Hg]. by destruct (Hg g) as (? & _ & ?). Qed.

Lemma invalidate_loose virt g : op_loose (op_invalidate (vm_ctx m) virt) g <-> op_loose (vm_ctx m) g.
Proof using Hinv. apply law_invalidate, Hinv. Qed.

(** The frames in somebody's hands that are not tables of this space are left alone. *)
Definition data_kept (m' : vm C) : Prop :=
  forall p i, op_owned (vm_ctx m) p -> (forall l pre, ~ reach mask root (vm_mem m) l p pre) -> vm_mem m' p i = vm_mem m p i.

(** A table of the space was one before, or nobody had the frame. *)
Definition tables_kept (m' : vm C) : Prop :=
  forall l p pre, reach mask root (vm_mem m') l p pre -> reach mask root (vm_mem m) l p pre \/ ~ op_owned (vm_ctx m) p.

(** No frame changes hands, and no table appears or goes. *)
Definition same_owner (m' : vm C) : Prop :=
  forall g, (op_owned (vm_ctx m') g <-> op_owned (vm_ctx m) g) /\ (op_loose (vm_ctx m') g <-> op_loose (vm_ctx m) g) /\
            (op_owned (vm_ctx m) g -> op_table (vm_ctx m') g = op_table (vm_ctx m) g).

Lemma invalidate_same virt mem : same_owner (MkVm (op_invalidate (vm_ctx m) virt) mem).
Proof using Hinv. intros g. destruct (invalidate_ctx virt g) as [H1 H2]. split_and!; [done|apply invalidate_loose|done]. Qed.

Lemma data_kept_set c l t pre i v : reach mask root (vm_mem m) l t pre -> data_kept (MkVm c (mem_set (vm_mem m) t i v)).
Proof using Type.
  intros Hr p j _ Hn. cbn [vm_mem]. unfold mem_set. destruct (Z.eqb_spec p t) as [->|]; [|done]. by destruct (Hn l pre).
Qed.

Lemma leaf_kept virt t v mem' : reach mask root (vm_mem m) 1 t (vprefix virt 1) -> mem' = mem_set (vm_mem m) t (memory_page_index virt 1) v ->
  u64_ok v -> (present v = true -> entry_valid space v 1 = true) ->
  let m' := MkVm (op_invalidate (vm_ctx m) virt) mem' in data_kept m' /\ tables_kept m'.
Proof using Hinv.
  intros Hr -> Hv Hval. split; [by eapply data_kept_set|]. intros l p pre Hp. left.
  by apply (leaf_reach space m Hinv virt t v (op_invalidate (vm_ctx m) virt) Hr (invalidate_wf virt) (invalidate_ctx virt) Hv Hval).
Qed.

(** Queries after a store [v] to the level-1 entry of [virt]. *)
Lemma leaf_queries virt t w u nx v' v :
  u64_ok virt -> memory_is_canonical virt = true ->
  pure_walk mask (vm_mem m) virt 4 root true true false = MkWalk t (memory_page_index virt 1) v' 1 (negb (present v')) w u nx ->
  reach mask root (vm_mem m) 1 t (vprefix virt 1) ->
  u64_ok v -> (present v = true -> entry_valid space v 1 = true) ->
  let m' := MkVm (op_invalidate (vm_ctx m) virt) (mem_set (vm_mem m) t (memory_page_index virt 1) v) in
  vm_inv space m' /\
  (present v = true \/ v = 0 -> plain_tree mask root (vm_mem m) -> plain_tree mask root (vm_mem m')) /\
  forall a, u64_ok a -> vmm_space_query space m' a =
    if a / 4096 =? virt / 4096 then
      Some (mapping_of mask a (MkWalk t (memory_page_index virt 1) v 1 (negb (present v)) w u nx))
    else vmm_space_query space m a.
Proof using Hinv.
  intros Hvu Hc Hw Hr Hv Hval m'.
  assert (vm_inv space m') as Hinv'.
  { by apply (leaf_inv space m Hinv virt t v (op_invalidate (vm_ctx m) virt) Hr (invalidate_wf virt) (invalidate_ctx virt) Hv Hval). }
  split_and!; [done|by apply (leaf_plain space m Hinv virt t v (op_invalidate (vm_ctx m) virt) Hr (invalidate_wf virt) (invalidate_ctx virt) Hv Hval)|].
  intros a Ha. destruct (Z.eqb_spec (a / 4096) (virt / 4096)) as [E|E].
  - rewrite query_canonical, (canonical_page virt a) by done. do 2 f_equal.
    pose proof (leaf_self space m Hinv virt t v (op_invalidate (vm_ctx m) virt) Hr (invalidate_wf virt) (invalidate_ctx virt) Hv Hval
      a (vpn_same _ _ E)) as Hs. cbv zeta in Hs.
    assert (pure_walk mask (vm_mem m) a 4 root true true false = pure_walk mask (vm_mem m) virt 4 root true true false) as Ea.
    { apply pure_walk_same; [lia|rewrite Hw; cbn; lia|]. rewrite Hw. cbn [wr_level]. change (1 - 1) with 0.
      rewrite !vprefix_zero. by apply vpn_same. }
    rewrite Ea, Hw in Hs. by apply Hs.
  - by apply (leaf_other space m Hinv virt t v (op_invalidate (vm_ctx m) virt) Hr (invalidate_wf virt) (invalidate_ctx virt) Hv Hval).
Qed.

Lemma unmap_spec virt : u64_ok virt ->
  let r := vmm_space_unmap space m virt in
  snd r = (virt mod 4096 =? 0) && page_mapped space m virt /\
  (snd r = false -> fst r = m) /\
  (snd r = true -> vm_inv space (fst r) /\
     (plain_tree mask root (vm_mem m) -> plain_tree mask root (vm_mem (fst r))) /\
     same_owner (fst r) /\ (data_kept (fst r) /\ tables_kept (fst r)) /\
     forall a, u64_ok a -> vmm_space_query space (fst r) a =
       if a / 4096 =? virt / 4096 then Some unmapped else vmm_space_query space m a).
Proof using Hinv.
  intros Hu r. unfold r, vmm_space_unmap. rewrite page_aligned_mod. destruct (virt mod 4096 =? 0); cbn [negb andb]; [|done].
  destruct (memory_is_canonical virt) eqn:Hc; [|by destruct (not_canonical virt Hc) as [-> ->]].
  destruct (walk_facts virt Hc) as (t & l & v & w & u & nx & Hw & Hp & Hl & Hr & Hv & Hv64 & Hval).
  rewrite (query_facts virt t l v w u nx Hw Hl), Hw. cbn [wr_missing wr_level wr_table wr_index].
  destruct (present v) eqn:Epr; cbn [negb orb andb]; [|done].
  destruct (Z.eqb_spec l 1) as [->|]; cbn [negb]; [|done]. cbn [fst snd].
  split_and!; [done|done|]. intros _.
  destruct (leaf_queries virt t w u nx v 0) as (Hi & Hpl & Hq); try done.
  { by rewrite Epr. }
  split; [done|]. split; [by apply Hpl; right|]. split; [apply invalidate_same|]. split; [by apply (leaf_kept virt t 0)|done].
Qed.

(** The rights of the tables above the address allow [flags]. *)
Definition parents_permit (s : vmm_space) (x : vm C) (virt flags : Z) : bool :=
  match walk s x virt with Some found => parents_allow found flags | None => false end.

Lemma protect_spec virt flags : u64_ok virt -> u64_ok flags ->
  let r := vmm_space_protect space m virt flags in
  snd r = flags_valid space flags && (virt mod 4096 =? 0) && page_mapped space m virt &&
          parents_permit space m virt flags /\
  (snd r = false -> fst r = m) /\
  (snd r = true -> vm_inv space (fst r) /\
     (plain_tree mask root (vm_mem m) -> plain_tree mask root (vm_mem (fst r))) /\
     same_owner (fst r) /\ (data_kept (fst r) /\ tables_kept (fst r)) /\
     forall a, u64_ok a -> vmm_space_query space (fst r) a =
       if a / 4096 =? virt / 4096 then
         (fun mp => MkMapping true (vp_physical mp) (protected (vp_flags mp) flags) 4096) <$> vmm_space_query space m a
       else vmm_space_query space m a).
Proof using Hinv.
  intros Hu Hf r. unfold r, vmm_space_protect. rewrite page_aligned_mod.
  destruct (flags_valid space flags) eqn:Hfv; cbn [negb orb andb]; [|done].
  destruct (virt mod 4096 =? 0); cbn [negb andb]; [|done].
  destruct (memory_is_canonical virt) eqn:Hc; [|by destruct (not_canonical virt Hc) as [-> ->]].
  destruct (walk_facts virt Hc) as (t & l & v & w & u & nx & Hw & Hp & Hl & Hr & Hv & Hv64 & Hval).
  unfold parents_permit. rewrite (query_facts virt t l v w u nx Hw Hl), Hw. cbn [wr_missing wr_level wr_table wr_index wr_value].
  destruct (present v) eqn:Epr; cbn [negb orb andb]; [|done].
  destruct (Z.eqb_spec l 1) as [->|]; cbn [negb orb andb]; [|done].
  destruct (parents_allow _ flags) eqn:Epa; cbn [negb fst snd]; [|done].
  split_and!; [done|done|]. intros _. fold (protected v flags).
  pose proof (vi_mask _ _ Hinv) as Hm.
  destruct (leaf_queries virt t w u nx v (protected v flags)) as (Hi & Hpl & Hq); try done.
  { by rewrite Epr. }
  { by apply protected_u64. }
  { intros _. apply (protected_valid mask); auto. }
  assert (present (protected v flags) = true -> entry_valid space (protected v flags) 1 = true) as Hpv by (intros _; apply (protected_valid mask); auto).
  split; [done|]. split; [|split; [apply invalidate_same|split; [by apply (leaf_kept virt t (protected v flags)); [| |apply protected_u64|]|]]].
  { apply Hpl. left. by apply (protected_present mask Hm space). }
  intros a Ha. rewrite Hq by done.
  destruct (Z.eqb_spec (a / 4096) (virt / 4096)) as [E|E]; [|done].
  rewrite (query_canonical space m a Hinv), (canonical_page virt a) by done.
  rewrite (pure_walk_same mask (vm_mem m) a virt) by
    (rewrite ?Hp; cbn [wr_level]; change (1 - 1) with 0; rewrite ?vprefix_zero; (lia || by apply vpn_same)).
  rewrite Hp. cbn [fmap option_fmap option_map negb].
  rewrite (protected_present mask Hm space eq_refl v flags Hv64 Hf Hfv). cbn [negb].
  rewrite !mapping_leaf. cbn [vp_physical vp_flags].
  by rewrite (protected_frame mask Hm space eq_refl v flags Hv64 Hf Hfv),
    (protected_effective mask Hm space eq_refl v flags Hv64 Hf Hfv).
Qed.

(** ** A state that differs only outside the tables *)

Section frame.
Context (m' : vm C).
Context (Hwf : op_wf (vm_ctx m')).
Context (Hkeep : forall l p pre, reach mask root (vm_mem m) l p pre ->
  op_table (vm_ctx m') p = true /\ op_owned (vm_ctx m') p /\ forall i, vm_mem m' p i = vm_mem m p i).

Lemma frame_reach l p pre : reach mask root (vm_mem m') l p pre -> reach mask root (vm_mem m) l p pre.
Proof using All.
  induction 1 as [|l p pre i Hr IH Hl Hi Hp Hh]; [constructor|].
  destruct (Hkeep _ _ _ IH) as (_ & _ & Hm). rewrite Hm in *. by constructor.
Qed.

Lemma frame_reach_back l p pre : reach mask root (vm_mem m) l p pre -> reach mask root (vm_mem m') l p pre.
Proof using All.
  induction 1 as [|l p pre i Hr IH Hl Hi Hp Hh]; [constructor|].
  destruct (Hkeep _ _ _ Hr) as (_ & _ & Hm). rewrite <- Hm in *. by constructor.
Qed.

Lemma frame_plain : plain_tree mask root (vm_mem m) -> plain_tree mask root (vm_mem m').
Proof using All.
  intros Hpl l p pre i Hr%frame_reach Hi. destruct (Hkeep _ _ _ Hr) as (_ & _ & ->). by apply (Hpl l p pre).
Qed.

Lemma frame_inv : vm_inv space m'.
Proof using All.
  constructor; [done|apply Hinv|apply Hinv|apply Hinv|..].
  - intros l p pre Hr%frame_reach. by destruct (Hkeep _ _ _ Hr) as (? & ? & _).
  - intros l p pre i Hr%frame_reach Hi. destruct (Hkeep _ _ _ Hr) as (_ & _ & ->). by apply (vi_entry _ _ Hinv _ _ _ _ Hr).
  - intros l l' p pre pre' Hr%frame_reach Hr'%frame_reach. by eapply (vi_unique _ _ Hinv).
Qed.

Lemma frame_walk v level : forall p w u nx, (1 <= level <= 4)%nat ->
  reach mask root (vm_mem m) (Z.of_nat level) p (vprefix v (Z.of_nat level)) ->
  pure_walk mask (vm_mem m') v level p w u nx = pure_walk mask (vm_mem m) v level p w u nx.
Proof using All.
  induction level as [|lower IH]; intros p w u nx Hl Hr; [lia|]. cbn [pure_walk].
  set (lv := Z.of_nat (S lower)) in *. set (i := memory_page_index v lv).
  destruct (Hkeep _ _ _ Hr) as (_ & _ & ->).
  destruct (negb _ || _ || _) eqn:E; [done|].
  rewrite !orb_false_iff, negb_false_iff in E. destruct E as [[Ep E1%Z.eqb_neq] Eh].
  apply IH; [lia|]. replace (Z.of_nat lower) with (lv - 1) by lia. apply reach_step; try done. lia.
Qed.

Lemma frame_query v : vmm_space_query space m' v = vmm_space_query space m v.
Proof using All.
  rewrite !query_canonical by (done || apply frame_inv). destruct (memory_is_canonical v); [|done]. do 2 f_equal.
  apply frame_walk; [lia|]. change (Z.of_nat 4) with 4. rewrite vprefix_top. constructor.
Qed.
End frame.

(** What a failed call leaves is such a state. *)
Lemma kept_frame (m' : vm C) :
  (forall g, (op_owned (vm_ctx m') g <-> op_owned (vm_ctx m) g) /\ (op_loose (vm_ctx m') g <-> op_loose (vm_ctx m) g) /\
             (op_owned (vm_ctx m) g -> op_table (vm_ctx m') g = op_table (vm_ctx m) g)) ->
  (forall p i, op_owned (vm_ctx m) p -> vm_mem m' p i = vm_mem m p i) ->
  forall l p pre, reach mask root (vm_mem m) l p pre ->
  op_table (vm_ctx m') p = true /\ op_owned (vm_ctx m') p /\ forall i, vm_mem m' p i = vm_mem m p i.
Proof using Hinv.
  intros Hk Hmem l p pre Hr. destruct (vi_table _ _ Hinv _ _ _ Hr) as [Ht Ho]. destruct (Hk p) as (? & _ & Et).
  rewrite Et by done. split_and!; [done|tauto|]. intros i. by apply Hmem.
Qed.

(** ** Mapping *)

Lemma commit_ctx fs : forall c : C, op_wf c -> NoDup fs -> (forall f, f ∈ fs -> op_loose c f) ->
  op_wf (foldl op_commit c fs) /\
  forall g, (op_owned (foldl op_commit c fs) g <-> op_owned c g) /\ (op_loose (foldl op_commit c fs) g <-> op_loose c g /\ g ∉ fs) /\
            op_table (foldl op_commit c fs) g = op_table c g.
Proof using Type.
  induction fs as [|f fs IH]; intros c Hwf Hnd Hl; cbn [foldl].
  { split; [done|]. intros g. pose proof (not_elem_of_nil g). tauto. }
  apply NoDup_cons in Hnd as [Hf Hnd].
  destruct (law_commit c f Hwf (Hl f ltac:(by left))) as [Hwf' Hc].
  destruct (IH (op_commit c f) Hwf' Hnd) as [Hw Hg].
  - intros g Hg. apply Hc. split; [apply Hl; by right|congruence].
  - split; [done|]. intros g. destruct (Hg g) as (-> & -> & ->), (Hc g) as (? & -> & ?). rewrite not_elem_of_cons. tauto.
Qed.

(** What a call that maps a page leaves: [fs] are the new tables. *)
Definition mapped_with (virt phys flags : Z) (m' : vm C) (fs : list Z) : Prop :=
  vm_inv space m' /\
  (plain_tree mask root (vm_mem m) -> plain_tree mask root (vm_mem m')) /\
  (forall a, u64_ok a -> vmm_space_query space m' a =
     if a / 4096 =? virt / 4096 then Some (MkMapping true (phys + a mod 4096) flags 4096)
     else vmm_space_query space m a) /\
  (data_kept m' /\ tables_kept m') /\ (length fs <= 3)%nat /\ NoDup fs /\
  (forall f, f ∈ fs -> ~ op_owned (vm_ctx m) f /\ exists l pre, reach mask root (vm_mem m') l f pre) /\
  (forall g, (op_owned (vm_ctx m') g <-> op_owned (vm_ctx m) g \/ g ∈ fs) /\ (op_loose (vm_ctx m') g <-> op_loose (vm_ctx m) g) /\
             (op_owned (vm_ctx m) g -> op_table (vm_ctx m') g = op_table (vm_ctx m) g)).

Section mapping.
Context (virt phys flags : Z) (Hvu : u64_ok virt) (Hpu : u64_ok phys) (Hfu : u64_ok flags).
Context (Hfv : flags_valid space flags = true) (Hpv : physical_valid space phys = true).
Context (Hc : memory_is_canonical virt = true).

Lemma mapping_new t i w u nx a :
  parents_allow (MkWalk t i 0 1 true w u nx) flags = true ->
  mapping_of mask a (MkWalk t i (Z.lor phys flags) 1 false w u nx) =
  MkMapping true (phys + a mod 4096) flags 4096.
Proof using All.
  intros Hpa. pose proof (vi_mask _ _ Hinv) as Hm.
  assert (frame_ok mask phys) as Hf by (by apply (physical_valid_frame mask Hm space)).
  destruct (leaf_entry mask Hm space phys flags eq_refl Hf Hfu Hfv) as (E1 & _ & E3 & _).
  by rewrite mapping_leaf, E1, E3, (page_offset mask), (effective_allowed _ _ _ _ _ _ _ _ _ Hfu Hpa).
Qed.

Lemma map_local t v' w u nx :
  pure_walk mask (vm_mem m) virt 4 root true true false = MkWalk t (memory_page_index virt 1) v' 1 (negb (present v')) w u nx ->
  reach mask root (vm_mem m) 1 t (vprefix virt 1) ->
  parents_allow (MkWalk t (memory_page_index virt 1) 0 1 true w u nx) flags = true ->
  mapped_with virt phys flags
    (MkVm (op_invalidate (vm_ctx m) virt) (mem_set (vm_mem m) t (memory_page_index virt 1) (Z.lor phys flags))) [].
Proof using All.
  intros Hw Hr Hpa. pose proof (vi_mask _ _ Hinv) as Hm.
  assert (frame_ok mask phys) as Hf by (by apply (physical_valid_frame mask Hm space)).
  destruct (leaf_entry mask Hm space phys flags eq_refl Hf Hfu Hfv) as (_ & Hpr & _ & He & Hev).
  destruct (leaf_queries virt t w u nx v' (Z.lor phys flags)) as (Hi & Hpl & Hq); try done.
  unfold mapped_with. split_and!; try done.
  - apply Hpl. left. unfold present. by rewrite Hpr.
  - intros a Ha. rewrite Hq by done. unfold present. rewrite Hpr. cbn [negb].
    by rewrite (mapping_new t _ w u nx a Hpa).
  - by eapply data_kept_set.
  - by apply (leaf_kept virt t (Z.lor phys flags)).
  - simpl. lia.
  - constructor.
  - by intros f ?%elem_of_nil.
  - intros g. cbn [vm_ctx]. destruct (invalidate_ctx virt g) as [-> ->]. rewrite invalidate_loose.
    pose proof (not_elem_of_nil g). tauto.
Qed.

Lemma map_tables t l w u nx m1 fs :
  pure_walk mask (vm_mem m) virt 4 root true true false =
    MkWalk t (memory_page_index virt l) (vm_mem m t (memory_page_index virt l)) l true w u nx ->
  reach mask root (vm_mem m) l t (vprefix virt l) -> 2 <= l ->
  present (vm_mem m t (memory_page_index virt l)) = false ->
  parents_allow (MkWalk t (memory_page_index virt 1) 0 1 true w u nx) flags = true ->
  acquired space m m1 fs -> Z.of_nat (length fs) = l - 1 ->
  mapped_with virt phys flags
    (MkVm (op_invalidate (foldl op_commit (vm_ctx m1) fs) virt)
       (mem_set (link_tables (vm_mem m1) virt phys flags (l - 1) fs) t (memory_page_index virt l)
          (Z.lor (hd 0 fs) VMM_NEW_PARENT_FLAGS))) fs.
Proof using All.
  intros Hw Hr Hl Hmiss Hpa (Hwf1 & Hnd & Hnew & Hctx & Hmem) Hlen. pose proof (vi_mask _ _ Hinv) as Hm.
  pose proof (reach_level _ _ _ _ _ _ Hr) as Hl4.
  assert (frame_ok mask phys) as Hf by (by apply (physical_valid_frame mask Hm space)).
  set (c := op_invalidate _ virt). set (mem' := mem_set _ t _ _).
  assert (forall p, op_owned (vm_ctx m) p -> p ∉ fs) as Hdis.
  { intros p Ho Hp. destruct (Hnew p Hp) as (_ & _ & _ & ?). done. }
  assert (t ∉ fs) as Ht by (apply Hdis; by apply (vi_table _ _ Hinv _ _ _ Hr)).
  destruct (link_tables_spec virt phys flags fs (vm_mem m1) (l - 1) Hnd) as [Hlk Hlo].
  { intros f i Hfs. rewrite Hmem. by rewrite decide_True. }
  destruct (commit_ctx fs (vm_ctx m1) Hwf1 Hnd) as [Hwf2 Hcm]; [intros f Hfs; apply Hctx; by right|].
  destruct (law_invalidate _ virt Hwf2) as [Hwf Hiv]. fold c in Hwf, Hiv.
  assert (forall g, (op_owned c g <-> op_owned (vm_ctx m) g \/ g ∈ fs) /\ (op_owned (vm_ctx m) g -> op_table c g = op_table (vm_ctx m) g)) as Hc'.
  { intros g. destruct (Hiv g) as (-> & _ & ->), (Hcm g) as (-> & _ & ->), (Hctx g) as (? & _ & ?). done. }
  assert (forall g, op_loose c g <-> op_loose (vm_ctx m) g) as Hcl.
  { intros g. destruct (Hiv g) as (_ & -> & _), (Hcm g) as (_ & -> & _), (Hctx g) as (_ & -> & _). split; [tauto|].
    intros Hg. split; [by left|]. apply Hdis, law_loose; [apply Hinv|done]. }
  assert (forall f, f ∈ fs -> frame_ok mask f /\ op_table c f = true /\ ~ op_owned (vm_ctx m) f) as Hfresh.
  { intros f Hfs. destruct (Hnew f Hfs) as (? & ? & ? & ?). destruct (Hiv f) as (_ & _ & ->), (Hcm f) as (_ & _ & ->).
    split_and!; try done. by apply (physical_valid_frame mask Hm space). }
  assert (forall p i, op_owned (vm_ctx m) p -> ~ (p = t /\ i = memory_page_index virt l) -> mem' p i = vm_mem m p i) as Hold.
  { intros p i Ho Hne. unfold mem', mem_set. destruct (Z.eqb_spec p t), (Z.eqb_spec i (memory_page_index virt l)); try tauto;
      cbn [andb]; rewrite Hlo, Hmem, decide_False by auto; done. }
  assert (mem' t (memory_page_index virt l) = Z.lor (hd 0 fs) VMM_NEW_PARENT_FLAGS) as Hhit.
  { unfold mem', mem_set. by rewrite !Z.eqb_refl. }
  assert (new_tables mem' virt phys flags (l - 1) fs) as Hn.
  { eapply new_tables_frame; [|done]. intros f i Hfs. unfold mem', mem_set.
    destruct (Z.eqb_spec f t) as [->|]; done. }
  assert (vm_inv space (MkVm c mem')) as Hi by
    exact (graft_inv space m Hinv virt phys flags l t fs mem' c Hr Hl Hf Hfu Hfv Hlen Hnd Hfresh Hwf Hc' Hold Hhit Hn).
  unfold mapped_with. split_and!; try done; cbn [vm_ctx vm_mem]; [| | | |lia| |intros g; split_and!; [apply Hc'|apply Hcl|apply Hc']].
  - exact (graft_plain space m Hinv virt phys flags l t fs mem' c Hr Hl Hf Hfu Hfv Hlen Hnd Hfresh Hwf Hc' Hold Hhit Hn).
  - intros a Ha. destruct (decide (vprefix a (l - 1) = vprefix virt (l - 1))) as [E|E].
    + pose proof (graft_walk space m Hinv virt phys flags l t fs mem' c Hr Hl Hf Hfu Hfv Hlen Hnd Hfresh Hwf Hc' Hold Hhit Hn
        a w u nx E Hw) as Hg. cbv zeta in Hg.
      rewrite !query_canonical by done. cbn [vm_mem]. destruct (Z.eqb_spec (a / 4096) (virt / 4096)) as [Ea|Ea].
      * rewrite (canonical_page virt a) by done. rewrite decide_True in Hg by by apply vpn_same.
        destruct Hg as [t' ->]. by rewrite (mapping_new t' _ w u nx a Hpa).
      * destruct (memory_is_canonical a) eqn:Eca; [|done].
        rewrite decide_False in Hg by (intros Hx; by apply Ea, vpn_page).
        rewrite (pure_walk_same mask (vm_mem m) a virt) by (rewrite ?Hw; cbn [wr_level]; (done || lia)).
        rewrite Hw. unfold mapping_of. by rewrite Hg.
    + assert (a / 4096 =? virt / 4096 = false) as ->.
      { apply Z.eqb_neq. intros Ea. apply E. unfold vprefix. by rewrite (vpn_same _ _ Ea). }
      rewrite !query_canonical by done. destruct (memory_is_canonical a); [|done]. do 2 f_equal.
      apply (pure_walk_other space m Hinv mem' virt l t Hr); [|done|lia|].
      * intros l' p pre i Hr' Hi'. apply Hold. by apply (vi_table _ _ Hinv _ _ _ Hr').
      * change (Z.of_nat 4) with 4. rewrite vprefix_top. constructor.
  - intros p i Ho Hnr. apply Hold; [done|]. intros [-> _]. by destruct (Hnr l (vprefix virt l)).
  - intros l' p pre Hp. cbn [vm_mem] in Hp.
    destruct (graft_reach space m Hinv virt phys flags l t fs mem' c Hr Hl Hf Hfu Hfv Hlen Hnd Hfresh Hwf Hc' Hold Hhit Hn _ _ _ Hp) as [|(k & Hk & _)]; [by left|].
    right. apply Hfresh. by eapply list_elem_of_lookup_2.
  - intros f Hfs. split; [by apply Hfresh|]. apply list_elem_of_lookup in Hfs as [k Hk]. eexists _, _.
    by apply (graft_tables space m Hinv virt phys flags l t fs mem' c Hr Hl Hf Hfu Hfv Hlen Hnd Hfresh Hwf Hc' Hold Hhit Hn k).
Qed.
End mapping.

Lemma map_spec virt phys flags : u64_ok virt -> u64_ok phys -> u64_ok flags ->
  let r := vmm_space_map space m virt phys flags in
  (snd r = true ->
     flags_valid space flags = true /\ physical_valid space phys = true /\ virt mod 4096 = 0 /\
     vmm_space_query space m virt = Some unmapped /\ exists fs, mapped_with virt phys flags (fst r) fs) /\
  (snd r = false ->
     op_wf (vm_ctx (fst r)) /\
     same_owner (fst r) /\
     forall p i, op_owned (vm_ctx m) p -> vm_mem (fst r) p i = vm_mem m p i).
Proof using Hinv.
  intros Hvu Hpu Hfu r. unfold r, vmm_space_map. rewrite page_aligned_mod. pose proof (vi_ctx _ _ Hinv) as Hwf.
  destruct (flags_valid space flags) eqn:Hfv; cbn [negb orb]; [|done].
  destruct (physical_valid space phys) eqn:Hpv; cbn [negb orb]; [|done].
  destruct (Z.eqb_spec (virt mod 4096) 0) as [Hal|]; cbn [negb]; [|done].
  destruct (memory_is_canonical virt) eqn:Hc; [|by destruct (not_canonical virt Hc) as [-> _]].
  destruct (walk_facts virt Hc) as (t & l & v & w & u & nx & Hw & Hp & Hl & Hr & Hv & _ & _).
  rewrite query_mapping, Hw. cbn [wr_missing wr_level wr_table wr_index wr_value].
  destruct (present v) eqn:Epr; cbn [negb orb]; [done|].
  destruct (v =? 0); cbn [negb orb]; [|done].
  destruct (parents_allow _ flags) eqn:Epa; cbn [negb]; [|done].
  destruct (Z.eqb_spec l 1) as [->|Hl1]; cbn [fst snd].
  { split; [|done]. intros _. split_and!; try done. exists [].
    apply (map_local virt phys flags Hvu Hpu Hfu Hfv Hpv Hc t v w u nx); [by rewrite Epr|done|done]. }
  pose proof (acquire_spec space (Z.to_nat (l - 1)) m []) as Ha.
  destruct (acquire space _ m []) as [m1 [fs|]]; cbn [fst snd].
  - destruct Ha as (new & -> & Hlen & Hacq); [done|constructor|by intros ? ?%elem_of_nil|].
    split; [|done]. intros _. split_and!; try done. exists new. cbn [app].
    apply (map_tables virt phys flags Hvu Hpu Hfu Hfv Hpv Hc t l w u nx m1 new); try done; try lia; by subst v.
  - destruct Ha as (Hw1 & Hctx & Hmem); [done|constructor|by intros ? ?%elem_of_nil|].
    split; [done|]. intros _. split_and!; [done| |done]. intros g. destruct (Hctx g) as (Ho & Hl' & Ht).
    pose proof (not_elem_of_nil g). tauto.
Qed.

(** ** Relations that all callbacks respect *)

Section related.
Context (R : C -> C -> Prop) (Hrefl : forall c, R c c) (Htrans : forall a b c, R a b -> R b c -> R a c).
Context (Halloc : forall c, R c (fst (op_alloc c))) (Hfree : forall c f, R c (op_free c f)).
Context (Hcommit : forall c f, R c (op_commit c f)) (Hinval : forall c v, R c (op_invalidate c v)).

Lemma fold_related (f : C -> Z -> C) l : (forall c x, R c (f c x)) -> forall c, R c (foldl f c l).
Proof using Hrefl Htrans. intros Hf. induction l as [|x l IH]; intros c; cbn [foldl]; [done|]. eapply Htrans; [apply Hf|apply IH]. Qed.

Lemma acquire_related n : forall x frames, R (vm_ctx x) (vm_ctx (fst (acquire space n x frames))).
Proof using Hrefl Htrans Halloc Hfree.
  induction n as [|n IH]; intros x frames; cbn [acquire]; [apply Hrefl|]. pose proof (Halloc (vm_ctx x)) as Ha.
  destruct (op_alloc (vm_ctx x)) as [c [f|]]; cbn [fst vm_ctx] in *; [|eapply Htrans; [done|by apply fold_related]].
  destruct (physical_valid space f); cbn [negb]; [|eapply Htrans; [done|by apply fold_related]].
  destruct (op_table c f); cbn [negb]; [|eapply Htrans; [done|by apply fold_related]]. eapply Htrans; [done|]. apply (IH (MkVm c _)).
Qed.

Lemma map_related x virt phys flags : R (vm_ctx x) (vm_ctx (fst (vmm_space_map space x virt phys flags))).
Proof using Hrefl Htrans Halloc Hfree Hcommit Hinval.
  unfold vmm_space_map. destruct (_ || _); [apply Hrefl|]. destruct (walk space x virt) as [found|]; [|apply Hrefl]. destruct (_ || _); [apply Hrefl|].
  destruct (_ =? 1); [apply Hinval|]. pose proof (acquire_related (Z.to_nat (wr_level found - 1)) x []) as Ha.
  destruct (acquire space _ x []) as [y [fs|]]; cbn [fst vm_ctx] in *; [|done]. eapply Htrans; [done|]. eapply Htrans; [by apply (fold_related op_commit fs)|apply Hinval].
Qed.

Lemma unmap_related x virt : R (vm_ctx x) (vm_ctx (fst (vmm_space_unmap space x virt))).
Proof using Hrefl Hinval. unfold vmm_space_unmap. repeat case_match; cbn; apply Hrefl || apply Hinval. Qed.

Lemma protect_related x virt flags : R (vm_ctx x) (vm_ctx (fst (vmm_space_protect space x virt flags))).
Proof using Hrefl Hinval. unfold vmm_space_protect. repeat case_match; cbn; apply Hrefl || apply Hinval. Qed.
End related.
End spec.
