(* ===== verification/VmmTrace.v ===== *)
(** * Page tables: histories, the abstract address space, and foreign upper halves

    A space that starts from an empty root and is only changed by
    [vmm_space_map], [vmm_space_unmap] and [vmm_space_protect] is a finite map
    from pages to frames and permissions ([vmm_rep]).  A root whose upper half
    belongs to somebody else behaves the same on the lower half ([low_view]). *)

From S2P Require Import Prelude MemoryHelpers VmmCore VmmMap VmmSpec.
Open Scope Z_scope.

Inductive vmm_op :=
  | OpMap (virt phys flags : Z)
  | OpUnmap (virt : Z)
  | OpProtect (virt flags : Z).

Definition op_args_ok (op : vmm_op) : Prop :=
  match op with
  | OpMap v p f => u64_ok v /\ u64_ok p /\ u64_ok f
  | OpUnmap v => u64_ok v
  | OpProtect v f => u64_ok v /\ u64_ok f
  end.

(** ** The abstract address space: page number to frame and permissions *)

Notation aspace := (gmap Z (Z * Z)).

Definition aspace_query (A : aspace) (virt : Z) : option vmm_mapping :=
  if memory_is_canonical virt then
    Some (match A !! (virt / 4096) with
          | Some (phys, flags) => MkMapping true (phys + virt mod 4096) flags 4096
          | None => unmapped
          end)
  else None.

(** When a call is legal. *)
Definition aspace_ok (space : vmm_space) (A : aspace) (op : vmm_op) : bool :=
  match op with
  | OpMap v p f => flags_valid space f && physical_valid space p && (v mod 4096 =? 0) &&
                   memory_is_canonical v && bool_decide (A !! (v / 4096) = None)
  | OpUnmap v => (v mod 4096 =? 0) && memory_is_canonical v && bool_decide (is_Some (A !! (v / 4096)))
  | OpProtect v f => flags_valid space f && (v mod 4096 =? 0) && memory_is_canonical v &&
                     bool_decide (is_Some (A !! (v / 4096)))
  end.

Definition aspace_apply (A : aspace) (op : vmm_op) : aspace :=
  match op with
  | OpMap v p f => <[v / 4096 := (p, f)]> A
  | OpUnmap v => delete (v / 4096) A
  | OpProtect v f => alter (fun e => (fst e, f)) (v / 4096) A
  end.

Lemma physical_mask_ok bits mask : memory_physical_mask bits = Some mask -> mask_ok mask.
Proof.
  unfold memory_physical_mask. destruct ((bits <? 32) || (52 <? bits)) eqn:E; [done|]. intros [= <-].
  rewrite orb_false_iff, !Z.ltb_ge in E. exists bits. split; [lia|]. intros n Hn.
  assert (2 ^ bits <= 2 ^ 52) as Hb by (apply Z.pow_le_mono_r; lia).
  change (2 ^ 52) with 4503599627370496 in Hb. assert (0 < 2 ^ bits) by (apply Z.pow_pos_nonneg; lia).
  rewrite Z.shiftl_1_l, page_mask_ones.
  rewrite (u64_small (2 ^ bits)) by (unfold u64_ok, UINT64_MAX; lia).
  rewrite (u64_small (2 ^ bits - 1)) by (unfold u64_ok, UINT64_MAX; lia).
  replace (2 ^ bits - 1) with (Z.ones bits) by (rewrite Z.ones_equiv; lia).
  rewrite Z.land_spec. destruct (decide (n < bits)).
  - rewrite Z.ones_spec_low, not64_testbit by lia. destruct (decide (n < 12)).
    + rewrite Z.ones_spec_low by lia. lia.
    + rewrite Z.ones_spec_high by lia. lia.
  - rewrite Z.ones_spec_high by lia. lia.
Qed.

Section trace.
Context {C : Type} `{VmmOpsLaws C}.

Definition vmm_apply (space : vmm_space) (m : vm C) (op : vmm_op) : vm C * bool :=
  match op with
  | OpMap v p f => vmm_space_map space m v p f
  | OpUnmap v => vmm_space_unmap space m v
  | OpProtect v f => vmm_space_protect space m v f
  end.

Record vmm_rep (space : vmm_space) (m : vm C) (A : aspace) : Prop := {
  vr_inv : vm_inv space m;
  vr_plain : plain_tree (vs_physical_mask space) (vs_root_phys space) (vm_mem m);
  vr_query : forall v, u64_ok v -> vmm_space_query space m v = aspace_query A v;
  vr_flags : forall k p f, A !! k = Some (p, f) -> u64_ok f /\ flags_valid space f = true
}.

(** The allocator could not supply the tables of a new mapping. *)
Definition out_of_tables (space : vmm_space) (m : vm C) : Prop :=
  exists n, (1 <= n <= 3)%nat /\ snd (acquire space n m []) = None.

(** The calls of a history, the answers, and the map the answers stand for. *)
Fixpoint vmm_run (space : vmm_space) (m : vm C) (ops : list vmm_op) : vm C * list bool :=
  match ops with
  | [] => (m, [])
  | op :: ops =>
      let (m, ok) := vmm_apply space m op in
      let (m, oks) := vmm_run space m ops in (m, ok :: oks)
  end.

Fixpoint aspace_run (A : aspace) (ops : list vmm_op) (oks : list bool) : aspace :=
  match ops, oks with
  | op :: ops, ok :: oks => aspace_run (if ok then aspace_apply A op else A) ops oks
  | _, _ => A
  end.

Lemma empty_reach mask root (mem : Z -> Z -> Z) l p pre : (forall i, 0 <= i < 512 -> mem root i = 0) ->
  reach mask root mem l p pre -> l = 4 /\ p = root /\ pre = 0.
Proof.
  intros Hz. induction 1 as [|l p pre i Hr IH Hl Hi Hp Hh]; [done|]. destruct IH as (_ & -> & _).
  by rewrite Hz in Hp.
Qed.

Lemma init_rep m root_phys bits nx space : u64_ok root_phys ->
  (forall i, 0 <= i < 512 -> vm_mem m root_phys i = 0) -> op_wf (vm_ctx m) -> op_owned (vm_ctx m) root_phys ->
  vmm_space_init m root_phys bits nx = Some space -> vmm_rep space m ∅.
Proof.
  intros Hu Hz Hwf Ho. unfold vmm_space_init. destruct (memory_physical_mask bits) as [mask|] eqn:Em; [|done].
  destruct (_ || _) eqn:Eg; [done|]. intros [= <-]. rewrite !orb_false_iff, !negb_false_iff in Eg.
  destruct Eg as [[Ha Hb] Ht]. pose proof (physical_mask_ok _ _ Em) as Hm.
  assert (vm_inv (MkSpace root_phys mask nx true) m) as Hinv.
  { constructor; cbn [vs_initialized vs_physical_mask vs_root_phys]; try done.
    - apply (physical_valid_frame mask Hm (MkSpace root_phys mask nx true)); [done|done|].
      unfold physical_valid. cbn [vs_physical_mask]. by rewrite Ha, Hb.
    - by intros l p pre (-> & -> & ->)%empty_reach.
    - intros l p pre i (-> & -> & ->)%empty_reach Hi; [|done]. rewrite Hz by done. done.
    - intros l l' p pre pre' (-> & _ & ->)%empty_reach (-> & _ & ->)%empty_reach; done. }
  constructor; [done| | |done].
  - intros l p pre i (-> & -> & ->)%empty_reach Hi; [|done]. cbn [vs_root_phys]. by rewrite Hz.
  - intros v Hv. rewrite query_canonical by done. unfold aspace_query. destruct (memory_is_canonical v); [|done].
    do 2 f_equal. cbn [pure_walk vs_physical_mask vs_root_phys]. change (Z.of_nat 4) with 4.
    rewrite Hz by (apply page_index_range; lia). done.
Qed.

Section step.
Context (space : vmm_space) (m : vm C) (A : aspace) (Hrep : vmm_rep space m A).

Lemma rep_page_mapped v : u64_ok v -> page_mapped space m v =
  memory_is_canonical v && bool_decide (is_Some (A !! (v / 4096))).
Proof using Hrep.
  intros Hv. unfold page_mapped. rewrite (vr_query _ _ _ Hrep v Hv). unfold aspace_query.
  destruct (memory_is_canonical v); [|done]. by destruct (A !! (v / 4096)) as [[p f]|].
Qed.

Lemma rep_permit v f : memory_is_canonical v = true -> parents_permit space m v f = true.
Proof using Hrep.
  intros Hc. unfold parents_permit. rewrite (walk_pure space m (vr_inv _ _ _ Hrep) v Hc).
  pose proof (plain_walk space m v 4 (vr_plain _ _ _ Hrep) (vs_root_phys space) ltac:(lia)) as Hw.
  change (Z.of_nat 4) with 4 in Hw. rewrite vprefix_top in Hw. destruct Hw as (H1 & H2 & H3 & _); [constructor|].
  unfold parents_allow. by rewrite H1, H2, H3.
Qed.

(** The query of the map after an update at [v]. *)
Lemma aspace_query_update B v (a : Z) : u64_ok a ->
  (forall k, k <> v / 4096 -> B !! k = A !! k) -> a / 4096 <> v / 4096 -> aspace_query B a = aspace_query A a.
Proof using Type. intros _ HB Hne. unfold aspace_query. by rewrite HB. Qed.

Lemma rep_unmap v : u64_ok v ->
  let r := vmm_space_unmap space m v in
  snd r = aspace_ok space A (OpUnmap v) /\
  vmm_rep space (fst r) (if snd r then aspace_apply A (OpUnmap v) else A).
Proof using Hrep.
  intros Hv r. destruct (unmap_spec space m (vr_inv _ _ _ Hrep) v Hv) as (Hok & Hno & Hyes). fold r in Hok, Hno, Hyes.
  rewrite rep_page_mapped, andb_assoc in Hok by done. split; [exact Hok|].
  destruct (snd r) eqn:Er; [|by rewrite Hno].
  symmetry in Hok. rewrite !andb_true_iff in Hok. destruct Hok as [[_ Hc] _].
  destruct (Hyes eq_refl) as (Hi & Hpl & _ & _ & Hq). constructor; [done|apply Hpl, Hrep| |].
  - intros a Ha. rewrite Hq by done. cbn [aspace_apply]. destruct (Z.eqb_spec (a / 4096) (v / 4096)) as [E|E].
    + unfold aspace_query. rewrite (canonical_page v a), E, lookup_delete_eq by done. done.
    + rewrite (vr_query _ _ _ Hrep) by done. symmetry. apply (aspace_query_update _ v); [done| |done].
      intros k Hk. by rewrite lookup_delete_ne.
  - intros k p f. cbn [aspace_apply]. rewrite lookup_delete_Some. intros [_ Hk]. by apply (vr_flags _ _ _ Hrep k p f).
Qed.

Lemma protected_flags f flags : u64_ok f -> flags_valid space f = true -> protected f flags = flags.
Proof using Type.
  intros Hf Hv. unfold protected. unfold flags_valid in Hv. rewrite !andb_true_iff in Hv.
  destruct Hv as [[_ ->%Z.eqb_eq] _]. done.
Qed.

Lemma rep_protect v f : u64_ok v -> u64_ok f ->
  let r := vmm_space_protect space m v f in
  snd r = aspace_ok space A (OpProtect v f) /\
  vmm_rep space (fst r) (if snd r then aspace_apply A (OpProtect v f) else A).
Proof using Hrep.
  intros Hv Hf r. destruct (protect_spec space m (vr_inv _ _ _ Hrep) v f Hv Hf) as (Hok & Hno & Hyes).
  fold r in Hok, Hno, Hyes.
  assert (snd r = aspace_ok space A (OpProtect v f)) as Hok'.
  { rewrite Hok, rep_page_mapped by done. cbn [aspace_ok]. rewrite !andb_assoc.
    destruct (memory_is_canonical v) eqn:Hc; [by rewrite rep_permit, andb_true_r|].
    by rewrite !andb_false_r. }
  split; [exact Hok'|]. destruct (snd r) eqn:Er; [|by rewrite Hno].
  symmetry in Hok'. cbn [aspace_ok] in Hok'. rewrite !andb_true_iff, bool_decide_eq_true in Hok'.
  destruct Hok' as [[[Hfv _] Hc] [[p0 f0] Hmp]].
  destruct (vr_flags _ _ _ Hrep _ _ _ Hmp) as [Hf0 Hfv0].
  destruct (Hyes eq_refl) as (Hi & Hpl & _ & _ & Hq). constructor; [done|apply Hpl, Hrep| |].
  - intros a Ha. rewrite Hq by done. cbn [aspace_apply]. destruct (Z.eqb_spec (a / 4096) (v / 4096)) as [E|E].
    + rewrite (vr_query _ _ _ Hrep) by done. unfold aspace_query.
      rewrite (canonical_page v a), E, lookup_alter_eq, Hmp by done.
      cbn [fmap option_fmap option_map vp_physical vp_flags fst]. by rewrite protected_flags.
    + rewrite (vr_query _ _ _ Hrep) by done. symmetry. apply (aspace_query_update _ v); [done| |done].
      intros k Hk. by rewrite lookup_alter_ne.
  - intros k p g. cbn [aspace_apply]. destruct (decide (k = v / 4096)) as [->|Hk].
    + rewrite lookup_alter_eq, Hmp. cbn. by intros [= <- <-].
    + rewrite lookup_alter_ne by done. by apply (vr_flags _ _ _ Hrep k p g).
Qed.

Lemma map_refused v p f : snd (vmm_space_map space m v p f) = false -> u64_ok v ->
  aspace_ok space A (OpMap v p f) = true -> out_of_tables space m.
Proof using Hrep.
  intros Hno Hv. cbn [aspace_ok]. rewrite !andb_true_iff, bool_decide_eq_true.
  intros ((((Hfv & Hpv) & Hal) & Hc) & Hnone). revert Hno. unfold vmm_space_map.
  rewrite page_aligned_mod, Hfv, Hpv, Hal. cbn [negb orb].
  pose proof (rep_permit v f Hc) as Hpp. unfold parents_permit in Hpp.
  pose proof (vr_query _ _ _ Hrep v Hv) as Hq. unfold aspace_query in Hq. rewrite Hc, Hnone, query_mapping in Hq.
  destruct (walk_facts space m (vr_inv _ _ _ Hrep) v Hc) as (t & l & e & w & u & nx & Hw & Hp & Hl & _).
  rewrite Hw in *. injection Hq as Hq. unfold mapping_of in Hq. cbn [wr_missing] in Hq.
  destruct (present e) eqn:Ep; [done|]. cbn [negb] in Hpp. cbn [wr_missing wr_value wr_level negb orb]. rewrite Hpp.
  pose proof (plain_walk space m v 4 (vr_plain _ _ _ Hrep) (vs_root_phys space) ltac:(lia)) as Hwf.
  change (Z.of_nat 4) with 4 in Hwf. rewrite vprefix_top, Hp in Hwf. destruct Hwf as (_ & _ & _ & Hz & _); [constructor|].
  cbn [wr_missing wr_value negb] in Hz. rewrite (Hz eq_refl). cbn [Z.eqb negb orb].
  destruct (Z.eqb_spec l 1); [done|]. destruct (acquire _ _ _ _) as [m1 [fs|]] eqn:Ea; [done|]. intros _.
  exists (Z.to_nat (l - 1)). split; [lia|]. by rewrite Ea.
Qed.

Lemma rep_map v p f : u64_ok v -> u64_ok p -> u64_ok f ->
  let r := vmm_space_map space m v p f in
  (snd r = true -> aspace_ok space A (OpMap v p f) = true) /\
  (snd r = false -> aspace_ok space A (OpMap v p f) = false \/ out_of_tables space m) /\
  vmm_rep space (fst r) (if snd r then aspace_apply A (OpMap v p f) else A).
Proof using Hrep.
  intros Hv Hp Hf r. destruct (map_spec space m (vr_inv _ _ _ Hrep) v p f Hv Hp Hf) as (Hyes & Hno). fold r in Hyes, Hno.
  assert (snd r = true -> aspace_ok space A (OpMap v p f) = true) as Hok.
  { intros Er. destruct (Hyes Er) as (Hfv & Hpv & Hal & Hq & _). cbn [aspace_ok].
    rewrite (vr_query _ _ _ Hrep) in Hq by done. unfold aspace_query in Hq.
    rewrite Hfv, Hpv, Hal, Z.eqb_refl. destruct (memory_is_canonical v); [|done]. cbn [andb].
    apply bool_decide_eq_true. destruct (A !! (v / 4096)) as [[? ?]|]; done. }
  split_and!; [done| |].
  { intros Er. destruct (aspace_ok space A (OpMap v p f)) eqn:E; [right|by left].
    by apply (map_refused v p f). }
  destruct (snd r) eqn:Er.
  - destruct (Hyes eq_refl) as (Hfv & Hpv & Hal & Hq0 & fs & Hi & Hpl & Hq & _).
    pose proof (Hok eq_refl) as Hok'. cbn [aspace_ok] in Hok'. rewrite !andb_true_iff in Hok'.
    destruct Hok' as [[_ Hc] _]. constructor; [done|apply Hpl, Hrep| |].
    + intros a Ha. rewrite Hq by done. cbn [aspace_apply]. destruct (Z.eqb_spec (a / 4096) (v / 4096)) as [E|E].
      * unfold aspace_query. by rewrite (canonical_page v a), E, lookup_insert_eq by done.
      * rewrite (vr_query _ _ _ Hrep) by done. symmetry. apply (aspace_query_update _ v); [done| |done].
        intros k Hk. by rewrite lookup_insert_ne.
    + intros k q g. cbn [aspace_apply]. rewrite lookup_insert_Some. intros [[_ [= <- <-]]|[_ Hk]]; [done|].
      by apply (vr_flags _ _ _ Hrep k q g).
  - destruct (Hno eq_refl) as (Hw & Hk & Hmem). pose proof (kept_frame space m (vr_inv _ _ _ Hrep) _ Hk Hmem) as Hctx. constructor; [|apply (frame_plain space m (vr_inv _ _ _ Hrep) _ Hw Hctx), Hrep| |apply Hrep].
    + by apply (frame_inv space m (vr_inv _ _ _ Hrep)).
    + intros a Ha. rewrite (frame_query space m (vr_inv _ _ _ Hrep) _ Hw Hctx). by apply Hrep.
Qed.
End step.

(** One call of a history. *)
Lemma apply_rep space m A op : vmm_rep space m A -> op_args_ok op ->
  let r := vmm_apply space m op in
  vmm_rep space (fst r) (if snd r then aspace_apply A op else A) /\
  (snd r = true -> aspace_ok space A op = true) /\
  (snd r = false -> aspace_ok space A op = false \/ out_of_tables space m).
Proof.
  intros Hrep Hargs. destruct op as [v p f|v|v f]; cbn [vmm_apply op_args_ok] in *.
  - destruct Hargs as (? & ? & ?). by destruct (rep_map space m A Hrep v p f) as (? & ? & ?).
  - destruct (rep_unmap space m A Hrep v Hargs) as [<- ?]. auto.
  - destruct Hargs. destruct (rep_protect space m A Hrep v f) as [<- ?]; auto.
Qed.

Lemma run_rep space ops : forall m A, vmm_rep space m A -> Forall op_args_ok ops ->
  vmm_rep space (fst (vmm_run space m ops)) (aspace_run A ops (snd (vmm_run space m ops))).
Proof.
  induction ops as [|op ops IH]; intros m A Hrep Hargs; cbn [vmm_run]; [done|].
  inversion Hargs as [|? ? Ha Hargs']; subst. destruct (apply_rep space m A op Hrep Ha) as [Hr _].
  destruct (vmm_apply space m op) as [m' ok]. cbn [fst snd] in Hr. specialize (IH m' _ Hr Hargs').
  destruct (vmm_run space m' ops) as [m2 oks]. done.
Qed.
End trace.

(** ** Page tables: a root whose upper half belongs to somebody else

    The root of a user address space has the kernel's entries in its upper half,
    and their tables are not the caller's.  Calls for addresses of the lower half
    do not see them: they do the same as on the memory [low] in which those
    entries are absent, and there the theory of the whole tree applies. *)

Definition low_view (root : Z) (mem low : Z -> Z -> Z) : Prop :=
  forall p i, low p i = if (p =? root) && (256 <=? i) then 0 else mem p i.

Definition lower_half (virt : Z) : Prop := 0 <= virt < 2 ^ 47.

Lemma lower_index virt : lower_half virt -> memory_page_index virt 4 < 256.
Proof.
  intros Hv. rewrite page_index_eq by lia. unfold lower_half in Hv. change (2 ^ 47) with 140737488355328 in Hv.
  cbn -[Z.div Z.modulo]. dlia.
Qed.

Lemma low_view_set root mem low p i v : low_view root mem low -> (p = root -> i < 256) ->
  low_view root (mem_set mem p i v) (mem_set low p i v).
Proof.
  intros Hl Hi q j. unfold mem_set. destruct (Z.eqb_spec q p) as [->|], (Z.eqb_spec j i) as [->|]; cbn [andb]; try apply Hl.
  destruct (Z.eqb_spec p root) as [->|]; [|done]. destruct (Z.leb_spec 256 i); [|done]. specialize (Hi eq_refl). lia.
Qed.

Lemma low_view_clear root mem low f : low_view root mem low -> low_view root (mem_clear mem f) (mem_clear low f).
Proof. intros Hl q j. unfold mem_clear. destruct (q =? f); [by destruct (_ && _)|apply Hl]. Qed.

Lemma low_view_link root virt phys flags fs : forall mem low level, low_view root mem low -> root ∉ fs ->
  low_view root (link_tables mem virt phys flags level fs) (link_tables low virt phys flags level fs).
Proof.
  induction fs as [|f fs IH]; intros mem low level Hl Hr; cbn [link_tables]; [done|]. apply not_elem_of_cons in Hr as [Hne Hr].
  apply IH; [|done]. apply low_view_set; [done|]. by intros ->.
Qed.

Lemma link_high root virt phys flags fs i : forall mem level, root ∉ fs -> link_tables mem virt phys flags level fs root i = mem root i.
Proof.
  induction fs as [|f fs IH]; intros mem level Hr; cbn [link_tables]; [done|]. apply not_elem_of_cons in Hr as [Hne Hr].
  rewrite IH by done. unfold mem_set. by rewrite (proj2 (Z.eqb_neq root f) Hne).
Qed.

Section low.
Context {C : Type} `{VmmOpsLaws C}.
Context (space : vmm_space).
Notation root := (vs_root_phys space).

Lemma walk_from_low (c : C) mem low virt n : low_view root mem low -> lower_half virt -> forall p anc w u nx,
  (n = 4%nat /\ p = root) \/ root ∈ anc ->
  walk_from space (MkVm c mem) virt n p anc w u nx = walk_from space (MkVm c low) virt n p anc w u nx.
Proof.
  intros Hl Hv. induction n as [|n IH]; intros p anc w u nx Hp; cbn [walk_from]; [done|].
  destruct (existsb (fun a => a =? p) anc) eqn:Ea; [done|]. cbn [vm_ctx vm_mem].
  assert (low p (memory_page_index virt (Z.of_nat (S n))) = mem p (memory_page_index virt (Z.of_nat (S n)))) as ->.
  { rewrite Hl. destruct (Z.eqb_spec p root) as [->|]; [|done]. destruct Hp as [[[= ->] _]|Hr].
    - pose proof (lower_index virt Hv). change (Z.of_nat 4) with 4. destruct (Z.leb_spec 256 (memory_page_index virt 4)); [lia|done].
    - exfalso. apply not_true_iff_false in Ea. apply Ea. apply existsb_exists. exists root. split; [by apply list_elem_of_In|apply Z.eqb_refl]. }
  destruct (op_table c p); [|done]. cbn [negb]. destruct (_ && _); [done|]. destruct (_ || _); [done|]. apply IH. right.
  apply elem_of_app. destruct Hp as [[_ ->]|Hr]; [right; by left|by left].
Qed.

Lemma walk_low (c : C) mem low virt : low_view root mem low -> lower_half virt ->
  walk space (MkVm c mem) virt = walk space (MkVm c low) virt.
Proof.
  intros Hl Hv. unfold walk. destruct (_ || _); [done|]. apply walk_from_low; [done|done|by left].
Qed.

Lemma query_low (c : C) mem low virt : low_view root mem low -> lower_half virt ->
  vmm_space_query space (MkVm c mem) virt = vmm_space_query space (MkVm c low) virt.
Proof. intros Hl Hv. unfold vmm_space_query. by rewrite (walk_low c mem low virt Hl Hv). Qed.

Lemma acquire_low n : forall (c : C) mem low frames, low_view root mem low ->
  let r := acquire space n (MkVm c mem) frames in
  let r' := acquire space n (MkVm c low) frames in
  snd r = snd r' /\ vm_ctx (fst r) = vm_ctx (fst r') /\ low_view root (vm_mem (fst r)) (vm_mem (fst r')).
Proof.
  induction n as [|n IH]; intros c mem low frames Hl; cbn [acquire]; [done|]. cbn [vm_ctx vm_mem].
  destruct (op_alloc c) as [c1 [f|]]; [|done]. destruct (physical_valid space f); cbn [negb]; [|done].
  destruct (op_table c1 f); cbn [negb]; [|done]. apply IH. by apply low_view_clear.
Qed.

Section ops.
Context (c : C) (mem low : Z -> Z -> Z) (Hl : low_view root mem low) (Hinv : vm_inv space (MkVm c low)).
Context (virt : Z) (Hv : lower_half virt).

(** Two results that differ only in the foreign entries, which stay. *)
Definition same_low (r r' : vm C * bool) : Prop :=
  snd r = snd r' /\ vm_ctx (fst r) = vm_ctx (fst r') /\ low_view root (vm_mem (fst r)) (vm_mem (fst r')) /\
  forall i, 256 <= i -> vm_mem (fst r) root i = mem root i.

Lemma set_high mem' p i v j : (p = root -> i < 256) -> 256 <= j -> mem_set mem' p i v root j = mem' root j.
Proof using Type.
  intros Hi Hj. unfold mem_set. destruct (Z.eqb_spec root p) as [E|]; [|done]. destruct (Z.eqb_spec j i) as [->|]; [|done]. specialize (Hi (eq_sym E)). lia.
Qed.

Lemma lower_canonical : memory_is_canonical virt = true.
Proof using Hv. unfold memory_is_canonical, lower_half in *. apply orb_true_iff. left. lia. Qed.

(** The entry of the walk is not a foreign one. *)
Lemma walk_entry_low found : walk space (MkVm c low) virt = Some found -> wr_table found = root -> wr_index found < 256.
Proof using Hinv Hv.
  intros Hw Ht. destruct (walk_facts space _ Hinv virt lower_canonical) as (t & l & v & w & u & nx & Hw' & _ & _ & Hr & _).
  rewrite Hw' in Hw. injection Hw as <-. cbn [wr_table wr_index] in *. subst t.
  destruct (vi_unique _ _ Hinv _ _ _ _ _ Hr (reach_root _ _ _)) as [-> _]. by apply lower_index.
Qed.

Lemma unmap_low : same_low (vmm_space_unmap space (MkVm c mem) virt) (vmm_space_unmap space (MkVm c low) virt).
Proof using All.
  unfold vmm_space_unmap. destruct (negb _); [done|]. rewrite (walk_low c mem low virt Hl Hv).
  destruct (walk space (MkVm c low) virt) as [found|] eqn:Hw; [|done]. destruct (_ || _); [done|]. split_and!; [done|done| |].
  - apply low_view_set; [done|]. by apply walk_entry_low.
  - intros j Hj. apply set_high; [by apply walk_entry_low|done].
Qed.

Lemma protect_low flags : same_low (vmm_space_protect space (MkVm c mem) virt flags) (vmm_space_protect space (MkVm c low) virt flags).
Proof using All.
  unfold vmm_space_protect. destruct (_ || _); [done|]. rewrite (walk_low c mem low virt Hl Hv).
  destruct (walk space (MkVm c low) virt) as [found|] eqn:Hw; [|done]. destruct (_ || _); [done|]. split_and!; [done|done| |].
  - apply low_view_set; [done|]. by apply walk_entry_low.
  - intros j Hj. apply set_high; [by apply walk_entry_low|done].
Qed.

Lemma map_low phys flags : same_low (vmm_space_map space (MkVm c mem) virt phys flags) (vmm_space_map space (MkVm c low) virt phys flags).
Proof using All.
  unfold vmm_space_map. destruct (_ || _); [done|]. rewrite (walk_low c mem low virt Hl Hv).
  destruct (walk space (MkVm c low) virt) as [found|] eqn:Hw; [|done]. destruct (_ || _); [done|].
  destruct (wr_level found =? 1).
  { split_and!; [done|done|apply low_view_set; [done|by apply walk_entry_low]|]. intros j Hj. apply set_high; [by apply walk_entry_low|done]. }
  destruct (acquire_low (Z.to_nat (wr_level found - 1)) c mem low [] Hl) as (Hs & Hc & Hlow).
  pose proof (acquire_spec space (Z.to_nat (wr_level found - 1)) (MkVm c mem) [] (vi_ctx _ _ Hinv)) as Ha.
  assert (op_owned c root) as Hroot by (by apply (vi_table _ _ Hinv _ _ _ (reach_root _ _ _))).
  destruct (acquire space _ (MkVm c mem) []) as [m1 o1], (acquire space _ (MkVm c low) []) as [m2 o2]. cbn [fst snd] in *. subst o1.
  destruct o2 as [fs|]; cycle 1.
  { split_and!; try done. intros j Hj. apply Ha; [constructor|by intros ? ?%elem_of_nil|done]. }
  destruct Ha as (new & -> & _ & _ & _ & Hnew & _ & Hmem); [constructor|by intros ? ?%elem_of_nil|]. cbn [app].
  assert (root ∉ new) as Hrn by (intros Hin; by destruct (Hnew root Hin) as (_ & _ & _ & Hno)).
  rewrite Hc. split_and!; [done|done| |]; cbn [fst vm_mem].
  - apply low_view_set; [|by apply walk_entry_low]. by apply low_view_link.
  - intros j Hj. rewrite set_high by (done || by apply walk_entry_low). rewrite link_high by done. rewrite Hmem. by rewrite decide_False.
Qed.
End ops.
End low.
