(* ===== verification/VmmProps.v ===== *)
(** * Page tables: the theorems

    The properties of [vmm_core.c], and a small frame source with which they
    are instantiated. *)

From S2P Require Import Prelude MemoryHelpers VmmCore VmmMap VmmSpec VmmTrace.
Open Scope Z_scope.

(** ** A frame source: a list of spare frames *)

Record frames := MkFrames { fr_spare : list Z; fr_taken : list Z; fr_pending : list Z }.

#[export] Instance frames_ops : VmmOps frames := {|
  op_table c f := (0 <? f) && (f <? 0x1000000);
  op_alloc c :=
    match fr_spare c with
    | f :: rest =>
        if bool_decide (f ∉ fr_taken c) && (0 <=? f) && (f <=? UINT64_MAX)
        then (MkFrames rest (f :: fr_taken c) (f :: fr_pending c), Some f) else (c, None)
    | [] => (c, None)
    end;
  op_free c f := MkFrames (f :: fr_spare c) (filter (fun g => g <> f) (fr_taken c))
                          (filter (fun g => g <> f) (fr_pending c));
  op_commit c f := MkFrames (fr_spare c) (fr_taken c) (filter (fun g => g <> f) (fr_pending c));
  op_invalidate c v := c
|}.

#[export] Program Instance frames_laws : VmmOpsLaws frames := {|
  op_wf c := forall f, f ∈ fr_pending c -> f ∈ fr_taken c;
  op_owned c f := f ∈ fr_taken c;
  op_loose c f := f ∈ fr_pending c
|}.
Next Obligation. intros c f. cbn. auto. Qed.
Next Obligation.
  intros c c' r Hwf. cbn. destruct (fr_spare c) as [|g rest]; [by intros [= <- <-]; split_and!; [done| |]; intuition congruence|].
  destruct (bool_decide _ && _ && _) eqn:E; intros [= <- <-]; cbn; [|split_and!; [done| |]; intuition congruence].
  rewrite !andb_true_iff, bool_decide_eq_true in E. split_and!.
  - intros f. rewrite !elem_of_cons. intuition.
  - intros f [= <-]. split; [unfold u64_ok; lia|tauto].
  - intros f. rewrite !elem_of_cons. intuition congruence.
Qed.
Next Obligation.
  intros c f Hwf Hf. cbn. split; [intros g; rewrite !list_elem_of_filter; intuition|]. intros g. rewrite !list_elem_of_filter. tauto.
Qed.
Next Obligation.
  intros c f Hwf Hf. cbn. split; [intros g; rewrite !list_elem_of_filter; intuition|]. intros g. rewrite !list_elem_of_filter. tauto.
Qed.
Next Obligation. done. Qed.

(** A space with an empty root at 0x1000 and four spare frames. *)
Definition ex_vm : vm frames := MkVm (MkFrames [0x2000; 0x3000; 0x4000; 0x7000] [0x1000] []) (fun _ _ => 0).
Definition ex_space : vmm_space := MkSpace 0x1000 0x000000fffffff000 true true.
Definition ex_ops : list vmm_op :=
  [OpMap 0x400000 0x5000 7; OpMap 0x401000 0x6000 5; OpMap 0x401000 0x5000 7; OpUnmap 0x400000;
   OpProtect 0x401000 1; OpMap 0x8000000000 0x5000 3].
Definition ex_mapped : vm frames := fst (vmm_run ex_space ex_vm [OpMap 0x400000 0x5000 7]).

Lemma ex_ctx_wf : op_wf (vm_ctx ex_vm).
Proof. intros f Hf. cbn in Hf. by apply elem_of_nil in Hf. Qed.

Lemma ex_rep : vmm_rep ex_space ex_vm ∅.
Proof.
  apply (init_rep ex_vm 0x1000 40 true); [by unfold u64_ok, UINT64_MAX; lia|done|exact ex_ctx_wf|cbn; by left|by vm_compute].
Qed.

Lemma ex_args : Forall op_args_ok ex_ops.
Proof. unfold ex_ops, op_args_ok, u64_ok, UINT64_MAX. repeat constructor; lia. Qed.

Lemma ex_mapped_inv : vm_inv ex_space ex_mapped.
Proof.
  eapply vr_inv. apply (run_rep ex_space [OpMap 0x400000 0x5000 7] ex_vm ∅ ex_rep).
  repeat constructor; unfold u64_ok, UINT64_MAX; lia.
Qed.

(** ** Histories *)

(** C16. A space initialised on an empty root and
    changed by any sequence of map, unmap and protect calls translates like
    the finite map that the successful calls build: [vmm_space_query] reports
    the frame, offset and permissions last given to the page, or "unmapped".
    In every such state a call succeeds only if it is legal, and fails only if
    it is illegal or the frame source cannot supply the new tables. *)
Theorem vmm_history_refines {C} `{VmmOpsLaws C} (m : vm C) root bits nx space ops :
  u64_ok root -> (forall i, 0 <= i < 512 -> vm_mem m root i = 0) -> op_wf (vm_ctx m) -> op_owned (vm_ctx m) root ->
  vmm_space_init m root bits nx = Some space -> Forall op_args_ok ops ->
  let (m', oks) := vmm_run space m ops in
  let A := aspace_run ∅ ops oks in
  (forall v, u64_ok v -> vmm_space_query space m' v = aspace_query A v) /\
  (forall op, op_args_ok op ->
     (snd (vmm_apply space m' op) = true -> aspace_ok space A op = true) /\
     (snd (vmm_apply space m' op) = false -> aspace_ok space A op = false \/ out_of_tables space m')).
Proof.
  intros Hu Hz Hwf Ho Hi Hargs. pose proof (run_rep space ops m ∅ (init_rep m root bits nx space Hu Hz Hwf Ho Hi) Hargs) as Hr.
  destruct (vmm_run space m ops) as [m' oks]. cbn [fst snd] in Hr. split; [apply Hr|].
  intros op Ha. by destruct (apply_rep space m' _ op Hr Ha) as (_ & ? & ?).
Qed.

Lemma vmm_history_refines_witness :
  snd (vmm_run ex_space ex_vm ex_ops) = [true; true; false; true; true; false] /\
  vmm_space_query ex_space (fst (vmm_run ex_space ex_vm ex_ops)) 0x401234 =
    Some (MkMapping true 0x6234 1 4096) /\
  vmm_space_query ex_space (fst (vmm_run ex_space ex_vm ex_ops)) 0x400234 = Some unmapped.
Proof.
  pose proof (vmm_history_refines ex_vm 0x1000 40 true ex_space ex_ops) as Hx.
  destruct (vmm_run ex_space ex_vm ex_ops) as [m' oks] eqn:E. cbn [fst snd].
  assert (oks = [true; true; false; true; true; false]) as Eo.
  { change oks with (snd (m', oks)). rewrite <- E. by vm_compute. }
  split; [done|]. subst oks.
  destruct Hx as [Hq _]; [by unfold u64_ok, UINT64_MAX; lia|done|exact ex_ctx_wf|cbn; by left|by vm_compute|apply ex_args|].
  split; rewrite Hq by (unfold u64_ok, UINT64_MAX; lia); by vm_compute.
Defined.

(** ** Single calls, in any well-formed space *)

(** In any well-formed space, also one with large
    pages and restricted tables: a successful [vmm_space_map] had valid
    arguments and found the page unmapped; afterwards exactly the addresses of
    that page translate to the given frame with exactly the given permissions,
    and every other address translates as before.  A failed call changes no
    translation. *)
Theorem vmm_map_exact {C} `{VmmOpsLaws C} space (m : vm C) virt phys flags :
  vm_inv space m -> u64_ok virt -> u64_ok phys -> u64_ok flags ->
  let (m', ok) := vmm_space_map space m virt phys flags in
  vm_inv space m' /\
  (ok = true -> flags_valid space flags = true /\ physical_valid space phys = true /\
     virt mod 4096 = 0 /\ vmm_space_query space m virt = Some unmapped) /\
  forall a, u64_ok a -> vmm_space_query space m' a =
    if ok && (a / 4096 =? virt / 4096) then Some (MkMapping true (phys + a mod 4096) flags 4096)
    else vmm_space_query space m a.
Proof.
  intros Hinv Hv Hp Hf. destruct (map_spec space m Hinv virt phys flags Hv Hp Hf) as [Hyes Hno].
  destruct (vmm_space_map space m virt phys flags) as [m' []]; cbn [fst snd andb] in *.
  - destruct (Hyes eq_refl) as (? & ? & ? & ? & fs & Hi & _ & Hq & _). by split_and!.
  - destruct (Hno eq_refl) as (Hw & Hk & Hmem). pose proof (kept_frame space m Hinv _ Hk Hmem) as Hctx. split_and!; [by apply (frame_inv space m)|done|].
    intros a _. by apply (frame_query space m Hinv).
Qed.

Lemma vmm_map_exact_witness :
  snd (vmm_space_map ex_space ex_mapped 0x401000 0x6000 5) = true /\
  vmm_space_query ex_space (fst (vmm_space_map ex_space ex_mapped 0x401000 0x6000 5)) 0x401fff =
    Some (MkMapping true 0x6fff 5 4096) /\
  vmm_space_query ex_space (fst (vmm_space_map ex_space ex_mapped 0x401000 0x6000 5)) 0x400001 =
    Some (MkMapping true 0x5001 7 4096).
Proof.
  pose proof (vmm_map_exact ex_space ex_mapped 0x401000 0x6000 5 ex_mapped_inv) as Hx.
  assert (snd (vmm_space_map ex_space ex_mapped 0x401000 0x6000 5) = true) as Eo by by vm_compute.
  destruct (vmm_space_map ex_space ex_mapped 0x401000 0x6000 5) as [m' ok]. cbn [fst snd] in *. subst ok.
  destruct Hx as (_ & _ & Hq); [by unfold u64_ok, UINT64_MAX; lia..|].
  split_and!; [done| |]; rewrite Hq by (unfold u64_ok, UINT64_MAX; lia); by vm_compute.
Defined.

(** C23. [vmm_space_map] never leaks a frame.  When it
    fails, the owned frames are the same as before and so are the contents of
    all of them, however far the acquisition of tables got.  When it succeeds,
    it has taken at most three frames nobody owned, and each of them is a
    table of the tree. *)
Theorem vmm_map_no_leak {C} `{VmmOpsLaws C} space (m : vm C) virt phys flags :
  vm_inv space m -> u64_ok virt -> u64_ok phys -> u64_ok flags ->
  match vmm_space_map space m virt phys flags with
  | (m', false) =>
      (forall g, op_owned (vm_ctx m') g <-> op_owned (vm_ctx m) g) /\
      forall p i, op_owned (vm_ctx m) p -> vm_mem m' p i = vm_mem m p i
  | (m', true) => exists fs, (length fs <= 3)%nat /\ NoDup fs /\
      (forall g, op_owned (vm_ctx m') g <-> op_owned (vm_ctx m) g \/ g ∈ fs) /\
      forall f, f ∈ fs -> ~ op_owned (vm_ctx m) f /\
        exists l pre, reach (vs_physical_mask space) (vs_root_phys space) (vm_mem m') l f pre
  end.
Proof.
  intros Hinv Hv Hp Hf. destruct (map_spec space m Hinv virt phys flags Hv Hp Hf) as [Hyes Hno].
  destruct (vmm_space_map space m virt phys flags) as [m' []]; cbn [fst snd] in *.
  - destruct (Hyes eq_refl) as (_ & _ & _ & _ & fs & _ & _ & _ & _ & ? & ? & ? & Hg). exists fs. split_and!; try done. apply Hg.
  - destruct (Hno eq_refl) as (_ & Hctx & Hmem). split; [|done]. intros g. apply Hctx.
Qed.

(** One spare frame is left where two are needed: nothing stays taken. *)
Lemma vmm_map_no_leak_witness :
  snd (vmm_space_map ex_space ex_mapped 0x8000000000 0x6000 5) = false /\
  forall g, op_owned (vm_ctx (fst (vmm_space_map ex_space ex_mapped 0x8000000000 0x6000 5))) g <->
            op_owned (vm_ctx ex_mapped) g.
Proof.
  pose proof (vmm_map_no_leak ex_space ex_mapped 0x8000000000 0x6000 5 ex_mapped_inv) as Hx.
  assert (snd (vmm_space_map ex_space ex_mapped 0x8000000000 0x6000 5) = false) as Eo by by vm_compute.
  destruct (vmm_space_map ex_space ex_mapped 0x8000000000 0x6000 5) as [m' ok]. cbn [fst snd] in *. subst ok.
  split; [done|]. apply Hx; unfold u64_ok, UINT64_MAX; lia.
Defined.

(** [vmm_space_unmap] succeeds exactly on a
    page-aligned address at which a 4 KiB page is mapped.  Then that page is
    unmapped, all other addresses translate as before and no frame changes
    hands; otherwise nothing changes. *)
Theorem vmm_unmap_exact {C} `{VmmOpsLaws C} space (m : vm C) virt :
  vm_inv space m -> u64_ok virt ->
  let (m', ok) := vmm_space_unmap space m virt in
  ok = (virt mod 4096 =? 0) && page_mapped space m virt /\
  (ok = false -> m' = m) /\ vm_inv space m' /\
  (forall g, op_owned (vm_ctx m') g <-> op_owned (vm_ctx m) g) /\
  forall a, u64_ok a -> vmm_space_query space m' a =
    if ok && (a / 4096 =? virt / 4096) then Some unmapped else vmm_space_query space m a.
Proof.
  intros Hinv Hv. destruct (unmap_spec space m Hinv virt Hv) as (Hok & Hno & Hyes).
  destruct (vmm_space_unmap space m virt) as [m' []]; cbn [fst snd andb] in *.
  - destruct (Hyes eq_refl) as (? & _ & Ho & _ & ?). split_and!; try done. intros g. apply Ho.
  - rewrite (Hno eq_refl). by split_and!.
Qed.

Lemma vmm_unmap_exact_witness :
  snd (vmm_space_unmap ex_space ex_mapped 0x400000) = true /\
  vmm_space_query ex_space (fst (vmm_space_unmap ex_space ex_mapped 0x400000)) 0x400123 = Some unmapped.
Proof.
  pose proof (vmm_unmap_exact ex_space ex_mapped 0x400000 ex_mapped_inv) as Hx.
  assert (snd (vmm_space_unmap ex_space ex_mapped 0x400000) = true) as Eo by by vm_compute.
  destruct (vmm_space_unmap ex_space ex_mapped 0x400000) as [m' ok]. cbn [fst snd] in *. subst ok.
  split; [done|]. destruct Hx as (_ & _ & _ & _ & Hq); [unfold u64_ok, UINT64_MAX; lia|].
  rewrite Hq by (unfold u64_ok, UINT64_MAX; lia). by vm_compute.
Defined.

(** [vmm_space_protect] succeeds exactly for valid
    flags on a page-aligned address at which a 4 KiB page is mapped below
    tables that allow the flags.  Then the page keeps its frame and all bits
    that are not permissions, gets exactly the given permissions, and all
    other addresses translate as before; otherwise nothing changes. *)
Theorem vmm_protect_exact {C} `{VmmOpsLaws C} space (m : vm C) virt flags :
  vm_inv space m -> u64_ok virt -> u64_ok flags ->
  let (m', ok) := vmm_space_protect space m virt flags in
  ok = flags_valid space flags && (virt mod 4096 =? 0) && page_mapped space m virt &&
       parents_permit space m virt flags /\
  (ok = false -> m' = m) /\ vm_inv space m' /\
  (forall g, op_owned (vm_ctx m') g <-> op_owned (vm_ctx m) g) /\
  forall a, u64_ok a -> vmm_space_query space m' a =
    if ok && (a / 4096 =? virt / 4096) then
      (fun mp => MkMapping true (vp_physical mp) (protected (vp_flags mp) flags) 4096) <$>
        vmm_space_query space m a
    else vmm_space_query space m a.
Proof.
  intros Hinv Hv Hf. destruct (protect_spec space m Hinv virt flags Hv Hf) as (Hok & Hno & Hyes).
  destruct (vmm_space_protect space m virt flags) as [m' []]; cbn [fst snd andb] in *.
  - destruct (Hyes eq_refl) as (? & _ & Ho & _ & ?). split_and!; try done. intros g. apply Ho.
  - rewrite (Hno eq_refl). by split_and!.
Qed.

Lemma vmm_protect_exact_witness :
  snd (vmm_space_protect ex_space ex_mapped 0x400000 VMM_PRESENT) = true /\
  vmm_space_query ex_space (fst (vmm_space_protect ex_space ex_mapped 0x400000 VMM_PRESENT)) 0x400123 =
    Some (MkMapping true 0x5123 VMM_PRESENT 4096).
Proof.
  pose proof (vmm_protect_exact ex_space ex_mapped 0x400000 VMM_PRESENT ex_mapped_inv) as Hx.
  assert (snd (vmm_space_protect ex_space ex_mapped 0x400000 VMM_PRESENT) = true) as Eo by by vm_compute.
  destruct (vmm_space_protect ex_space ex_mapped 0x400000 VMM_PRESENT) as [m' ok]. cbn [fst snd] in *. subst ok.
  split; [done|]. destruct Hx as (_ & _ & _ & _ & Hq); [by unfold u64_ok, UINT64_MAX, VMM_PRESENT; lia..|].
  rewrite Hq by (unfold u64_ok, UINT64_MAX; lia). by vm_compute.
Defined.
