(* ===== verification/Bytes.v ===== *)
(** * Byte-addressed memory, and stores of buffers

    A memory is a function from addresses to bytes; 64-bit words are stored
    little-endian, as the target does; [memset] and [memcpy] change a range.
    [ByteStore] is the interface to an allocator of buffers. *)

From stdpp Require Import gmap.
From S2P Require Import Prelude.
Open Scope Z_scope.

Definition memory := Z -> Z.

Definition rd64 (mem : memory) (a : Z) : Z :=
  u8 (mem a) + 256 * (u8 (mem (a + 1)) + 256 * (u8 (mem (a + 2)) + 256 * (u8 (mem (a + 3)) +
  256 * (u8 (mem (a + 4)) + 256 * (u8 (mem (a + 5)) + 256 * (u8 (mem (a + 6)) +
  256 * u8 (mem (a + 7)))))))).

Definition wr64 (mem : memory) (a v : Z) : memory :=
  fun x => if (a <=? x) && (x <? a + 8) then u8 (Z.shiftr v (8 * (x - a))) else mem x.

(** [memset(start, value, bytes)] *)
Definition mem_fill (mem : memory) (start value bytes : Z) : memory :=
  fun x => if (start <=? x) && (x <? start + bytes) then value else mem x.

(** [memcpy(dst, src, bytes)] *)
Definition mem_copy (mem : memory) (dst src bytes : Z) : memory :=
  fun x => if (dst <=? x) && (x <? dst + bytes) then mem (src + (x - dst)) else mem x.

(** [p[i]] of an [unsigned char] buffer. *)
Definition byte_of (p : list Z) (i : Z) : Z := u8 (arr_get p i).

Lemma byte_of_range p i : 0 <= byte_of p i < 256.
Proof. unfold byte_of, u8. apply Z.mod_pos_bound. lia. Qed.

Lemma rd64_range mem a : u64_ok (rd64 mem a).
Proof. unfold rd64, u64_ok, UINT64_MAX, u8. dlia. Qed.

Lemma rd64_ext mem mem' a : (forall x, a <= x < a + 8 -> mem' x = mem x) -> rd64 mem' a = rd64 mem a.
Proof. intros E. unfold rd64. rewrite !E by lia. done. Qed.

Lemma wr64_other mem a v x : x < a \/ a + 8 <= x -> wr64 mem a v x = mem x.
Proof.
  intros Hx. unfold wr64. destruct (Z.leb_spec a x), (Z.ltb_spec x (a + 8)); cbn [andb]; try done. lia.
Qed.

Lemma rd64_wr64_ne mem a b v : b + 8 <= a \/ a + 8 <= b -> rd64 (wr64 mem a v) b = rd64 mem b.
Proof. intros Hd. apply rd64_ext. intros x Hx. apply wr64_other. lia. Qed.

Lemma rd64_wr64_eq mem a v : u64_ok v -> rd64 (wr64 mem a v) a = v.
Proof.
  intros [Hv1 Hv2]. unfold rd64, wr64.
  rewrite !(proj2 (Z.leb_le _ _)), !(proj2 (Z.ltb_lt _ _)) by lia. cbn [andb].
  replace (a - a) with 0 by lia.
  replace (a + 1 - a) with 1 by lia. replace (a + 2 - a) with 2 by lia. replace (a + 3 - a) with 3 by lia.
  replace (a + 4 - a) with 4 by lia. replace (a + 5 - a) with 5 by lia. replace (a + 6 - a) with 6 by lia.
  replace (a + 7 - a) with 7 by lia. rewrite !Z.shiftr_div_pow2 by lia.
  cbn -[Z.div Z.modulo u8]. unfold u8, UINT64_MAX in *. rewrite !Z.mod_mod by lia. dlia.
Qed.

Lemma mem_fill_other mem s v n x : x < s \/ s + n <= x -> mem_fill mem s v n x = mem x.
Proof. intros Hx. unfold mem_fill. destruct (Z.leb_spec s x), (Z.ltb_spec x (s + n)); cbn [andb]; try done. lia. Qed.

Lemma mem_fill_in mem s v n x : s <= x < s + n -> mem_fill mem s v n x = v.
Proof. intros Hx. unfold mem_fill. destruct (Z.leb_spec s x), (Z.ltb_spec x (s + n)); cbn [andb]; try done; lia. Qed.

Lemma mem_copy_other mem d s n x : x < d \/ d + n <= x -> mem_copy mem d s n x = mem x.
Proof. intros Hx. unfold mem_copy. destruct (Z.leb_spec d x), (Z.ltb_spec x (d + n)); cbn [andb]; try done. lia. Qed.

Lemma mem_copy_in mem d s n x : d <= x < d + n -> mem_copy mem d s n x = mem (s + (x - d)).
Proof. intros Hx. unfold mem_copy. destruct (Z.leb_spec d x), (Z.ltb_spec x (d + n)); cbn [andb]; try done; lia. Qed.

(** ** What a component that keeps data in allocated memory relies on

    [ByteStore] has the operations: an allocator that returns an address or 0,
    a release, reading memory and writing a range.  [ByteStoreLaws] states the
    promise, against the table [m] of the live buffers and their contents. *)

Class ByteStore (A : Type) := {
  st_alloc : A -> Z -> A * Z;
  st_free : A -> Z -> A;
  st_mem : A -> memory;
  st_write : A -> Z -> list Z -> A
}.

(** [l] with [v] written at position [i]. *)
Definition splice (l : list Z) (i : Z) (v : list Z) : list Z :=
  take (Z.to_nat i) l ++ v ++ drop (Z.to_nat i + length v) l.

Class ByteStoreLaws (A : Type) `{ByteStore A} := {
  st_holds : A -> gmap Z (list Z) -> Prop;
  law_alloc a m n : st_holds a m -> 0 < n <= UINT32_MAX ->
    let (a', p) := st_alloc a n in
    (p = 0 /\ st_holds a' m) \/
    (p <> 0 /\ m !! p = None /\ exists l, Z.of_nat (length l) = n /\ st_holds a' (<[p := l]> m));
  law_free a m p l : st_holds a m -> m !! p = Some l -> st_holds (st_free a p) (delete p m);
  law_read a m p l i x : st_holds a m -> m !! p = Some l -> 0 <= i -> l !! Z.to_nat i = Some x -> st_mem a (p + i) = x;
  law_write a m p l i v : st_holds a m -> m !! p = Some l -> 0 <= i -> i + Z.of_nat (length v) <= Z.of_nat (length l) ->
    st_holds (st_write a (p + i) v) (<[p := splice l i v]> m)
}.

Lemma length_splice l i v : 0 <= i -> i + Z.of_nat (length v) <= Z.of_nat (length l) -> length (splice l i v) = length l.
Proof. intros Hi Hl. unfold splice. rewrite !length_app, length_take, length_drop. lia. Qed.
