(* ===== verification/HeapCore.v ===== *)
(** * The kernel heap (kernel/memory/heap_core.c): definitions

    The arena is byte-addressed memory; block headers are six 64-bit words at
    the start of each block, read and written where the code reads and writes
    them, and payload bytes live in the same memory.  The growth callback of
    [struct heap_ops] belongs to the caller: it is the method of [HeapOps].
    Loops that follow block sizes or free links take a number of steps that a
    valid heap cannot exceed ([max_blocks]). *)

From S2P Require Import Prelude Bytes.
Open Scope Z_scope.

Definition UTAMO_HEAP_USED : Z := 1.
Definition UTAMO_HEAP_FLAG_MASK : Z := 15.
Definition UTAMO_HEAP_NONE : Z := SIZE_MAX.
Definition UTAMO_HEAP_COOKIE : Z := 0x5554414d4f484541.
Definition UTAMO_HEAP_MIN_BLOCK : Z := 64.
Definition BLOCK_BYTES : Z := 48.        (** [sizeof(struct heap_block)] *)

(** [ops.grow]: append to the accessible prefix of the arena.  It gets the old
    and the new size and changes no byte of the old part. *)
Class HeapOps (C : Type) := { op_grow : C -> Z -> Z -> C * bool }.

Record heap_block := MkBlock {
  hb_size_flags : Z;
  hb_prev_size : Z;
  hb_requested : Z;
  hb_free_prev : Z;
  hb_free_next : Z;
  hb_cookie : Z
}.

Record heap_core := MkHeap {
  hc_base : Z;
  hc_mapped_size : Z;
  hc_max_size : Z;
  hc_growth_size : Z;
  hc_free_head : Z;
  hc_can_grow : bool;                    (** [ops.grow != NULL] *)
  hc_used_bytes : Z;
  hc_live_allocations : Z;
  hc_allocations : Z;
  hc_frees : Z;
  hc_peak_usage : Z;
  hc_failed_allocations : Z;
  hc_invalid_frees : Z;
  hc_debug_poison : bool;
  hc_initialized : bool
}.

Record heap_stats := MkStats {
  hs_mapped_bytes : Z;
  hs_used_bytes : Z;
  hs_free_bytes : Z;
  hs_overhead_bytes : Z;
  hs_live_allocations : Z;
  hs_allocations : Z;
  hs_frees : Z;
  hs_peak_usage : Z;
  hs_failed_allocations : Z;
  hs_invalid_frees : Z;
  hs_largest_free_bytes : Z
}.

(** The heap object, all of memory, and the state of the callback. *)
Record arena (C : Type) := MkArena { ar_heap : heap_core; ar_mem : memory; ar_ctx : C }.
#[global] Arguments MkArena {C} _ _ _.
#[global] Arguments ar_heap {C} _.
#[global] Arguments ar_mem {C} _.
#[global] Arguments ar_ctx {C} _.

(** ** Stores to single fields *)

Definition set_free_head (v : Z) (h : heap_core) : heap_core :=
  MkHeap (hc_base h) (hc_mapped_size h) (hc_max_size h) (hc_growth_size h) v (hc_can_grow h)
    (hc_used_bytes h) (hc_live_allocations h) (hc_allocations h) (hc_frees h) (hc_peak_usage h)
    (hc_failed_allocations h) (hc_invalid_frees h) (hc_debug_poison h) (hc_initialized h).
Definition set_mapped_size (v : Z) (h : heap_core) : heap_core :=
  MkHeap (hc_base h) v (hc_max_size h) (hc_growth_size h) (hc_free_head h) (hc_can_grow h)
    (hc_used_bytes h) (hc_live_allocations h) (hc_allocations h) (hc_frees h) (hc_peak_usage h)
    (hc_failed_allocations h) (hc_invalid_frees h) (hc_debug_poison h) (hc_initialized h).
Definition set_usage (used live : Z) (h : heap_core) : heap_core :=
  MkHeap (hc_base h) (hc_mapped_size h) (hc_max_size h) (hc_growth_size h) (hc_free_head h) (hc_can_grow h)
    used live (hc_allocations h) (hc_frees h) (hc_peak_usage h)
    (hc_failed_allocations h) (hc_invalid_frees h) (hc_debug_poison h) (hc_initialized h).
Definition set_peak (v : Z) (h : heap_core) : heap_core :=
  MkHeap (hc_base h) (hc_mapped_size h) (hc_max_size h) (hc_growth_size h) (hc_free_head h) (hc_can_grow h)
    (hc_used_bytes h) (hc_live_allocations h) (hc_allocations h) (hc_frees h) v
    (hc_failed_allocations h) (hc_invalid_frees h) (hc_debug_poison h) (hc_initialized h).
Definition set_counts (allocations frees failed invalid : Z) (h : heap_core) : heap_core :=
  MkHeap (hc_base h) (hc_mapped_size h) (hc_max_size h) (hc_growth_size h) (hc_free_head h) (hc_can_grow h)
    (hc_used_bytes h) (hc_live_allocations h) allocations frees (hc_peak_usage h)
    failed invalid (hc_debug_poison h) (hc_initialized h).

Definition increment (counter : Z) : Z :=
  if negb (counter =? UINT64_MAX) then counter + 1 else counter.

Section core.
Context {C : Type} `{HeapOps C}.

Definition with_heap (f : heap_core -> heap_core) (a : arena C) : arena C :=
  MkArena (f (ar_heap a)) (ar_mem a) (ar_ctx a).
Definition with_mem (f : memory -> memory) (a : arena C) : arena C :=
  MkArena (ar_heap a) (f (ar_mem a)) (ar_ctx a).

(** The address of [heap->base + offset] and the header there. *)
Definition addr (a : arena C) (offset : Z) : Z := hc_base (ar_heap a) + offset.

Definition block_at (a : arena C) (offset : Z) : heap_block :=
  let p := addr a offset in let mem := ar_mem a in
  MkBlock (rd64 mem p) (rd64 mem (p + 8)) (rd64 mem (p + 16)) (rd64 mem (p + 24)) (rd64 mem (p + 32))
    (rd64 mem (p + 40)).

Definition store (field : Z) (offset v : Z) (a : arena C) : arena C :=
  with_mem (fun mem => wr64 mem (addr a offset + field) v) a.
Definition set_size_flags := store 0.
Definition set_prev_size := store 8.
Definition set_requested := store 16.
Definition set_free_prev := store 24.
Definition set_free_next := store 32.
Definition set_cookie := store 40.

Definition block_size (block : heap_block) : Z := Z.land (hb_size_flags block) (not64 UTAMO_HEAP_FLAG_MASK).
Definition block_used (block : heap_block) : bool := negb (Z.land (hb_size_flags block) UTAMO_HEAP_USED =? 0).
Definition block_cookie (h : heap_core) (offset : Z) : Z :=
  Z.lxor (Z.lxor UTAMO_HEAP_COOKIE (hc_base h)) offset.

Definition write_block (a : arena C) (offset size previous requested : Z) (used : bool) : arena C :=
  set_cookie offset (block_cookie (ar_heap a) offset)
    (set_free_next offset UTAMO_HEAP_NONE (set_free_prev offset UTAMO_HEAP_NONE
      (set_requested offset requested (set_prev_size offset previous
        (set_size_flags offset (Z.lor size (if used then UTAMO_HEAP_USED else 0)) a))))).

Definition context_valid (h : heap_core) : bool :=
  hc_initialized h && negb (hc_base h =? 0) &&
  (Z.land (hc_base h) UTAMO_HEAP_FLAG_MASK =? 0) &&
  (UTAMO_HEAP_MIN_BLOCK <=? hc_mapped_size h) && (hc_mapped_size h <=? hc_max_size h) &&
  (hc_max_size h <=? UINT64_MAX -u hc_base h) && (UTAMO_HEAP_MIN_BLOCK <=? hc_growth_size h) &&
  (Z.land (Z.lor (Z.lor (hc_mapped_size h) (hc_max_size h)) (hc_growth_size h)) UTAMO_HEAP_FLAG_MASK =? 0).

(** Blocks are at least 64 bytes long. *)
Definition max_blocks (a : arena C) : nat := S (Z.to_nat (hc_mapped_size (ar_heap a) / 64)).

Fixpoint exact_block_from (steps : nat) (a : arena C) (target offset : Z) : bool :=
  match steps with
  | O => false
  | S steps =>
      if hc_mapped_size (ar_heap a) <=? offset then false
      else if offset =? target then true
      else exact_block_from steps a target (offset +u block_size (block_at a offset))
  end.

(** The result is [NULL] or the block at [target]. *)
Definition exact_block (a : arena C) (target : Z) : bool := exact_block_from (max_blocks a) a target 0.

(** The loop of [heap_core_validate]: the values after it, or [None] when the
    body returns false. *)
Fixpoint validate_from (steps : nat) (a : arena C) (offset previous free_current free_prior live requested : Z)
    (previous_free : bool) : option (Z * Z * Z) :=
  match steps with
  | O => None
  | S steps =>
      let mapped := hc_mapped_size (ar_heap a) in
      if mapped <=? offset then Some (free_current, live, requested)
      else if mapped -u offset <? BLOCK_BYTES then None
      else
        let block := block_at a offset in
        let size := block_size block in
        if negb (hb_cookie block =? block_cookie (ar_heap a) offset) ||
           negb (Z.land (hb_size_flags block) (Z.land UTAMO_HEAP_FLAG_MASK (not64 UTAMO_HEAP_USED)) =? 0) ||
           (size <? UTAMO_HEAP_MIN_BLOCK) || (mapped -u offset <? size) ||
           negb (hb_prev_size block =? previous)
        then None
        else if block_used block then
          if (hb_requested block =? 0) || (size -u BLOCK_BYTES <? hb_requested block) ||
             negb (hb_free_prev block =? UTAMO_HEAP_NONE) || negb (hb_free_next block =? UTAMO_HEAP_NONE)
          then None
          else validate_from steps a (offset +u size) size free_current free_prior (live +u 1)
                 (requested +u hb_requested block) false
        else
          if negb (hb_requested block =? 0) || previous_free then None
          else if negb (free_current =? offset) || negb (hb_free_prev block =? free_prior) then None
          else validate_from steps a (offset +u size) size (hb_free_next block) offset live requested true
  end.

Definition heap_core_validate (a : arena C) : bool :=
  let h := ar_heap a in
  if negb (context_valid h) then false
  else match validate_from (max_blocks a) a 0 0 (hc_free_head h) UTAMO_HEAP_NONE 0 0 false with
  | None => false
  | Some (free_current, live, requested) =>
      if negb (requested =? hc_used_bytes h) || negb (live =? hc_live_allocations h) ||
         (hc_peak_usage h <? requested)
      then false else free_current =? UTAMO_HEAP_NONE
  end.

Definition heap_core_init (a : arena C) (base initial_size max_size growth_size : Z) (debug_poison : bool)
    (can_grow : bool) : arena C * bool :=
  if hc_initialized (ar_heap a) || (base =? 0) || negb (Z.land base UTAMO_HEAP_FLAG_MASK =? 0) ||
     (initial_size <? UTAMO_HEAP_MIN_BLOCK) || (max_size <? initial_size) ||
     (growth_size <? UTAMO_HEAP_MIN_BLOCK) ||
     negb (Z.land (Z.lor (Z.lor initial_size max_size) growth_size) UTAMO_HEAP_FLAG_MASK =? 0) ||
     (UINT64_MAX -u base <? max_size)
  then (a, false)
  else
    let initial := MkHeap base initial_size max_size growth_size 0 can_grow 0 0 0 0 0 0 0 debug_poison true in
    let a := MkArena initial (ar_mem a) (ar_ctx a) in
    let a := write_block a 0 initial_size 0 0 false in
    (if debug_poison
     then with_mem (fun mem => mem_fill mem (addr a BLOCK_BYTES) 0xdd (initial_size -u BLOCK_BYTES)) a
     else a, true).

Definition remove_free (a : arena C) (offset : Z) : arena C :=
  let block := block_at a offset in
  let a := if hb_free_prev block =? UTAMO_HEAP_NONE
           then with_heap (set_free_head (hb_free_next block)) a
           else set_free_next (hb_free_prev block) (hb_free_next block) a in
  let a := if negb (hb_free_next block =? UTAMO_HEAP_NONE)
           then set_free_prev (hb_free_next block) (hb_free_prev block) a else a in
  set_free_next offset UTAMO_HEAP_NONE (set_free_prev offset UTAMO_HEAP_NONE a).

(** The loop of [insert_free]: the free blocks before and after [offset]. *)
Fixpoint insert_position (steps : nat) (a : arena C) (offset prior current : Z) : Z * Z :=
  match steps with
  | O => (prior, current)
  | S steps =>
      if negb (current =? UTAMO_HEAP_NONE) && (current <? offset)
      then insert_position steps a offset current (hb_free_next (block_at a current))
      else (prior, current)
  end.

Definition insert_free (a : arena C) (offset : Z) : arena C :=
  let (prior, current) :=
    insert_position (max_blocks a) a offset UTAMO_HEAP_NONE (hc_free_head (ar_heap a)) in
  let a := set_free_next offset current (set_free_prev offset prior a) in
  let a := if prior =? UTAMO_HEAP_NONE then with_heap (set_free_head offset) a
           else set_free_next prior offset a in
  if negb (current =? UTAMO_HEAP_NONE) then set_free_prev current offset a else a.

Definition following_previous (a : arena C) (offset size : Z) : arena C :=
  if offset +u size <? hc_mapped_size (ar_heap a) then set_prev_size (offset +u size) size a else a.

Definition poison_free (a : arena C) (offset : Z) : arena C :=
  if hc_debug_poison (ar_heap a)
  then with_mem (fun mem => mem_fill mem (addr a (offset + BLOCK_BYTES)) 0xdd
                   (block_size (block_at a offset) -u BLOCK_BYTES)) a
  else a.

Fixpoint find_fit_from (steps : nat) (a : arena C) (needed offset : Z) : Z :=
  match steps with
  | O => UTAMO_HEAP_NONE
  | S steps =>
      if offset =? UTAMO_HEAP_NONE then UTAMO_HEAP_NONE
      else if needed <=? block_size (block_at a offset) then offset
      else find_fit_from steps a needed (hb_free_next (block_at a offset))
  end.
Definition find_fit (a : arena C) (needed : Z) : Z :=
  find_fit_from (max_blocks a) a needed (hc_free_head (ar_heap a)).

Fixpoint last_block_from (steps : nat) (a : arena C) (offset : Z) : Z :=
  match steps with
  | O => offset
  | S steps =>
      if offset +u block_size (block_at a offset) <? hc_mapped_size (ar_heap a)
      then last_block_from steps a (offset +u block_size (block_at a offset))
      else offset
  end.
Definition last_block (a : arena C) : Z := last_block_from (max_blocks a) a 0.

Definition grow_heap (a : arena C) (needed : Z) : arena C * bool :=
  let h := ar_heap a in
  if negb (hc_can_grow h) || (hc_mapped_size h =? hc_max_size h) then (a, false)
  else
  let needed := if needed <? UTAMO_HEAP_MIN_BLOCK then UTAMO_HEAP_MIN_BLOCK else needed in
  let tail_offset := last_block a in
  let tail := block_at a tail_offset in
  let tail_size := block_size tail in
  let tail_free := if block_used tail then 0 else tail_size in
  if needed <=? tail_free then (a, true)
  else
  let required := needed -u tail_free in
  let available := hc_max_size h -u hc_mapped_size h in
  if available <? required then (a, false)
  else
  let units := required / hc_growth_size h +u
               (if negb (required mod hc_growth_size h =? 0) then 1 else 0) in
  let extra := if units <=? available / hc_growth_size h then units *u hc_growth_size h else available in
  let old_size := hc_mapped_size h in
  let new_size := old_size +u extra in
  match op_grow (ar_ctx a) old_size new_size with
  | (c, false) => (MkArena h (ar_mem a) c, false)
  | (c, true) =>
      let a := MkArena (set_mapped_size new_size h) (ar_mem a) c in
      if negb (block_used tail) then
        let a := remove_free a tail_offset in
        let a := write_block a tail_offset (tail_size +u extra) (hb_prev_size (block_at a tail_offset)) 0 false in
        let a := insert_free a tail_offset in
        (poison_free a tail_offset, true)
      else
        let a := write_block a old_size extra tail_size 0 false in
        let a := insert_free a old_size in
        (poison_free a old_size, true)
  end.

Definition required_size (requested : Z) : option Z :=
  let extra := BLOCK_BYTES +u UTAMO_HEAP_FLAG_MASK in
  if (requested =? 0) || (SIZE_MAX -u extra <? requested) then None
  else Some (Z.land (requested +u extra) (not64 UTAMO_HEAP_FLAG_MASK)).

Definition trim_block (a : arena C) (offset needed : Z) : arena C :=
  let size := block_size (block_at a offset) in
  if size -u needed <? UTAMO_HEAP_MIN_BLOCK then a
  else
  let remainder_size := size -u needed in
  let remainder_offset := offset +u needed in
  let old_next := offset +u size in
  let merge := (old_next <? hc_mapped_size (ar_heap a)) && negb (block_used (block_at a old_next)) in
  let remainder_size := if merge then remainder_size +u block_size (block_at a old_next) else remainder_size in
  let a := if merge then remove_free a old_next else a in
  let a := set_size_flags offset (Z.lor needed UTAMO_HEAP_USED) a in
  let a := write_block a remainder_offset remainder_size needed 0 false in
  let a := following_previous a remainder_offset remainder_size in
  let a := insert_free a remainder_offset in
  poison_free a remainder_offset.

(** The pointer, or [NULL] (0). *)
Definition allocate (a : arena C) (requested needed : Z) (allow_growth : bool) : arena C * Z :=
  let offset := find_fit a needed in
  let (a, offset) :=
    if (offset =? UTAMO_HEAP_NONE) && allow_growth then
      let (a, grown) := grow_heap a needed in
      (a, if grown then find_fit a needed else UTAMO_HEAP_NONE)
    else (a, offset) in
  if offset =? UTAMO_HEAP_NONE then (a, 0)
  else
  let a := remove_free a offset in
  let a := set_size_flags offset (Z.lor (hb_size_flags (block_at a offset)) UTAMO_HEAP_USED) a in
  let a := set_requested offset requested a in
  let a := trim_block a offset needed in
  let a := with_heap (fun h => set_usage (hc_used_bytes h +u requested) (hc_live_allocations h +u 1) h) a in
  let a := with_heap (fun h => set_counts (increment (hc_allocations h)) (hc_frees h)
                                 (hc_failed_allocations h) (hc_invalid_frees h) h) a in
  let a := if hc_peak_usage (ar_heap a) <? hc_used_bytes (ar_heap a)
           then with_heap (fun h => set_peak (hc_used_bytes h) h) a else a in
  let pointer := addr a (offset + BLOCK_BYTES) in
  let a := if hc_debug_poison (ar_heap a)
           then with_mem (fun mem => mem_fill mem pointer 0xcd (block_size (block_at a offset) -u BLOCK_BYTES)) a
           else a in
  (a, pointer).

Definition failed_allocation (a : arena C) : arena C :=
  if hc_initialized (ar_heap a)
  then with_heap (fun h => set_counts (hc_allocations h) (hc_frees h) (increment (hc_failed_allocations h))
                             (hc_invalid_frees h) h) a
  else a.

Definition heap_core_alloc (a : arena C) (size : Z) : arena C * Z :=
  if size =? 0 then (a, 0)
  else match (if heap_core_validate a then required_size size else None) with
  | None => (failed_allocation a, 0)
  | Some needed =>
      let (a, pointer) := allocate a size needed true in
      (if pointer =? 0 then failed_allocation a else a, pointer)
  end.

Definition heap_core_calloc (a : arena C) (count size : Z) : arena C * Z :=
  if (count =? 0) || (size =? 0) then (a, 0)
  else if SIZE_MAX / size <? count then (failed_allocation a, 0)
  else
    let bytes := count *u size in
    let (a, pointer) := heap_core_alloc a bytes in
    (if negb (pointer =? 0) then with_mem (fun mem => mem_fill mem pointer 0 bytes) a else a, pointer).

Definition pointer_offset (a : arena C) (pointer : Z) : Z :=
  let base := hc_base (ar_heap a) in
  if (pointer <? base) || (pointer -u base <? BLOCK_BYTES) ||
     (hc_mapped_size (ar_heap a) <=? pointer -u base) ||
     negb (Z.land pointer UTAMO_HEAP_FLAG_MASK =? 0)
  then UTAMO_HEAP_NONE
  else
    let offset := pointer -u base -u BLOCK_BYTES in
    if exact_block a offset && block_used (block_at a offset) then offset else UTAMO_HEAP_NONE.

Definition release (a : arena C) (offset : Z) : arena C :=
  let block := block_at a offset in
  let size := block_size block in
  let previous := hb_prev_size block in
  let a := with_heap (fun h => set_usage (hc_used_bytes h -u hb_requested block) (hc_live_allocations h -u 1) h) a in
  let a := with_heap (fun h => set_counts (hc_allocations h) (increment (hc_frees h))
                                 (hc_failed_allocations h) (hc_invalid_frees h) h) a in
  let merge_previous := negb (previous =? 0) && negb (block_used (block_at a (offset -u previous))) in
  let a := if merge_previous then remove_free a (offset -u previous) else a in
  let '(size, offset, previous) :=
    if merge_previous
    then (size +u previous, offset -u previous, hb_prev_size (block_at a (offset -u previous)))
    else (size, offset, previous) in
  let next := offset +u size in
  let merge_next := (next <? hc_mapped_size (ar_heap a)) && negb (block_used (block_at a next)) in
  let size := if merge_next then size +u block_size (block_at a next) else size in
  let a := if merge_next then remove_free a next else a in
  let a := write_block a offset size previous 0 false in
  let a := following_previous a offset size in
  let a := insert_free a offset in
  poison_free a offset.

Definition invalid_free (a : arena C) : arena C :=
  with_heap (fun h => set_counts (hc_allocations h) (hc_frees h) (hc_failed_allocations h)
                        (increment (hc_invalid_frees h)) h) a.

Definition heap_core_free (a : arena C) (pointer : Z) : arena C * bool :=
  if pointer =? 0 then (a, true)
  else if negb (heap_core_validate a) then
    (if hc_initialized (ar_heap a) then invalid_free a else a, false)
  else
    let offset := pointer_offset a pointer in
    if offset =? UTAMO_HEAP_NONE then (invalid_free a, false)
    else (release a offset, true).

(** The parts of [resize_block] before and after the trimming. *)
Definition resize_mark (a : arena C) (offset size : Z) : arena C :=
  let old_requested := hb_requested (block_at a offset) in
  let a := with_heap (fun h => set_usage (hc_used_bytes h -u old_requested) (hc_live_allocations h) h) a in
  let a := with_heap (fun h => set_usage (hc_used_bytes h +u size) (hc_live_allocations h) h) a in
  set_requested offset size a.
Definition resize_finish (a : arena C) (offset old_requested size : Z) : arena C :=
  let a := if hc_peak_usage (ar_heap a) <? hc_used_bytes (ar_heap a)
           then with_heap (fun h => set_peak (hc_used_bytes h) h) a else a in
  if hc_debug_poison (ar_heap a) then
    let payload := addr a (offset + BLOCK_BYTES) in
    let a := if old_requested <? size
             then with_mem (fun mem => mem_fill mem (payload + old_requested) 0xcd (size -u old_requested)) a
             else a in
    with_mem (fun mem => mem_fill mem (payload + size) 0xdd
                (block_size (block_at a offset) -u BLOCK_BYTES -u size)) a
  else a.
Definition resize_block (a : arena C) (offset size needed : Z) : arena C :=
  let old_requested := hb_requested (block_at a offset) in
  resize_finish (trim_block (resize_mark a offset size) offset needed) offset old_requested size.

Definition consume_next (a : arena C) (offset needed : Z) : arena C * bool :=
  let current := block_size (block_at a offset) in
  let next := offset +u current in
  if (next =? hc_mapped_size (ar_heap a)) || block_used (block_at a next) ||
     (block_size (block_at a next) <? needed -u current)
  then (a, false)
  else
    let combined := current +u block_size (block_at a next) in
    let a := remove_free a next in
    let a := set_size_flags offset (Z.lor combined UTAMO_HEAP_USED) a in
    (following_previous a offset combined, true).

Definition at_tail (a : arena C) (next : Z) : bool :=
  (next =? hc_mapped_size (ar_heap a)) ||
  (negb (block_used (block_at a next)) &&
   (next +u block_size (block_at a next) =? hc_mapped_size (ar_heap a))).

(** The end of [heap_core_realloc]: the data moves to [replacement]. *)
Definition move_block (a : arena C) (offset pointer replacement size : Z) : arena C * Z :=
  if replacement =? 0 then (failed_allocation a, 0)
  else
    let requested := hb_requested (block_at a offset) in
    let copy := if requested <? size then requested else size in
    let a := with_mem (fun mem => mem_copy mem replacement pointer copy) a in
    (release a offset, replacement).

Definition heap_core_realloc (a : arena C) (pointer size : Z) : arena C * Z :=
  if pointer =? 0 then heap_core_alloc a size
  else if size =? 0 then (fst (heap_core_free a pointer), 0)
  else match (if heap_core_validate a then required_size size else None) with
  | None => (failed_allocation a, 0)
  | Some needed =>
      let offset := pointer_offset a pointer in
      if offset =? UTAMO_HEAP_NONE then (failed_allocation a, 0)
      else
      let current := block_size (block_at a offset) in
      let (a, consumed) := if needed <=? current then (a, true) else consume_next a offset needed in
      if consumed then (resize_block a offset size needed, pointer)
      else
      let (a, replacement) := allocate a size needed false in
      if negb (replacement =? 0) then move_block a offset pointer replacement size
      else if at_tail a (offset +u current) then
        let (a, grown) := grow_heap a (needed -u current) in
        let (a, consumed) := if grown then consume_next a offset needed else (a, false) in
        if consumed then (resize_block a offset size needed, pointer)
        else move_block a offset pointer 0 size
      else
        let (a, replacement) := allocate a size needed true in
        move_block a offset pointer replacement size
  end.

(** The loop of [heap_core_get_stats] over the free list. *)
Fixpoint free_stats (steps : nat) (a : arena C) (offset free_bytes largest : Z) : Z * Z :=
  match steps with
  | O => (free_bytes, largest)
  | S steps =>
      if offset =? UTAMO_HEAP_NONE then (free_bytes, largest)
      else
        let bytes := block_size (block_at a offset) -u BLOCK_BYTES in
        free_stats steps a (hb_free_next (block_at a offset)) (free_bytes +u bytes)
          (if largest <? bytes then bytes else largest)
  end.

Definition heap_core_get_stats (a : arena C) : option heap_stats :=
  if negb (heap_core_validate a) then None
  else
    let h := ar_heap a in
    let (free_bytes, largest) := free_stats (max_blocks a) a (hc_free_head h) 0 0 in
    Some (MkStats (hc_mapped_size h) (hc_used_bytes h) free_bytes
      (hc_mapped_size h -u hc_used_bytes h -u free_bytes) (hc_live_allocations h) (hc_allocations h)
      (hc_frees h) (hc_peak_usage h) (hc_failed_allocations h) (hc_invalid_frees h) largest).
End core.
