(* ===== verification/HeapInv.v ===== *)
(** * The kernel heap: layout and invariant

    A valid heap is a list of blocks laid out one after the other.  [hrep a bl
    fl] says that the headers in memory describe the block list [bl], and that
    the free links thread exactly the offsets [fl] in ascending order.  Between
    two steps of an operation [fl] may leave out free blocks; [heap_rep] asks
    that it is all of them, that no two neighbours are free, and that the
    counters agree with the list. *)

From stdpp Require Import sorting.
From S2P Require Import Prelude Bytes HeapCore.
Open Scope Z_scope.

Record blk := MkBlk { bk_size : Z; bk_used : bool; bk_req : Z }.

Definition bsum (bl : list blk) : Z := foldr (fun b n => bk_size b + n) 0 bl.
Definition last_size (pv : Z) (bl : list blk) : Z := foldl (fun _ b => bk_size b) pv bl.

(** The blocks with their offsets and the sizes of their predecessors. *)
Fixpoint place (o pv : Z) (bl : list blk) : list (Z * Z * blk) :=
  match bl with
  | [] => []
  | b :: bl => (o, pv, b) :: place (o + bk_size b) (bk_size b) bl
  end.

Definition flagged (b : blk) : Z := bk_size b + (if bk_used b then 1 else 0).

Definition blk_ok (b : blk) : Prop :=
  64 <= bk_size b /\ bk_size b mod 16 = 0 /\
  (if bk_used b then 0 < bk_req b <= bk_size b - 48 else bk_req b = 0).

Definition free_offs (o pv : Z) (bl : list blk) : list Z :=
  omap (fun '(o, _, b) => if bk_used b then None else Some o) (place o pv bl).

(** No two neighbours are free; [pf] says whether the block before is. *)
Fixpoint no_adjacent (pf : bool) (bl : list blk) : Prop :=
  match bl with
  | [] => True
  | b :: bl => (pf = true -> bk_used b = true) /\ no_adjacent (negb (bk_used b)) bl
  end.

Definition req_sum (bl : list blk) : Z := foldr (fun b n => bk_req b + n) 0 bl.
Definition live_count (bl : list blk) : Z := count_if bk_used bl.

Record ctx_ok (h : heap_core) : Prop := {
  co_init : hc_initialized h = true;
  co_base : 0 < hc_base h;
  co_align : hc_base h mod 16 = 0;
  co_min : 64 <= hc_mapped_size h;
  co_max : hc_mapped_size h <= hc_max_size h;
  co_top : hc_base h + hc_max_size h <= UINT64_MAX;
  co_growth : 64 <= hc_growth_size h <= UINT64_MAX;
  co_mapped16 : hc_mapped_size h mod 16 = 0;
  co_max16 : hc_max_size h mod 16 = 0;
  co_growth16 : hc_growth_size h mod 16 = 0
}.

(** The fields of a C heap object are 64-bit. *)
Definition heap_typed (h : heap_core) : Prop :=
  u64_ok (hc_base h) /\ u64_ok (hc_mapped_size h) /\ u64_ok (hc_max_size h) /\ u64_ok (hc_growth_size h).

(** ** Sizes and flags *)

Lemma size_mask x : u64_ok x -> Z.land x (not64 UTAMO_HEAP_FLAG_MASK) = x - x mod 16.
Proof. intros Hx. rewrite land_not64 by done. change UTAMO_HEAP_FLAG_MASK with (Z.ones 4). by rewrite ldiff_ones. Qed.

Lemma flag_mask x : Z.land x UTAMO_HEAP_FLAG_MASK = x mod 16.
Proof. change UTAMO_HEAP_FLAG_MASK with (Z.ones 4). by rewrite land_low_mask. Qed.

Lemma used_bit x : negb (Z.land x UTAMO_HEAP_USED =? 0) = (x mod 2 =? 1).
Proof.
  change UTAMO_HEAP_USED with (Z.ones 1). rewrite land_low_mask by done. change (2 ^ 1) with 2.
  pose proof (Z.mod_pos_bound x 2 ltac:(lia)). destruct (Z.eqb_spec (x mod 2) 0), (Z.eqb_spec (x mod 2) 1); try done; lia.
Qed.

Lemma flagged_lor size (used : bool) : size mod 16 = 0 ->
  Z.lor size (if used then UTAMO_HEAP_USED else 0) = size + (if used then 1 else 0).
Proof. intros Hs. apply (lor_add _ _ 4); [done|done|]. unfold UTAMO_HEAP_USED. change (2 ^ 4) with 16. destruct used; lia. Qed.

Lemma flagged_size b : blk_ok b -> flagged b <= UINT64_MAX -> Z.land (flagged b) (not64 UTAMO_HEAP_FLAG_MASK) = bk_size b.
Proof.
  intros (H1 & H2 & _) Hm. unfold flagged in *. rewrite size_mask by (unfold u64_ok; destruct (bk_used b); lia).
  destruct (bk_used b); dlia.
Qed.

Lemma flagged_used b : blk_ok b -> negb (Z.land (flagged b) UTAMO_HEAP_USED =? 0) = bk_used b.
Proof.
  intros (H1 & H2 & _). rewrite used_bit. unfold flagged. destruct (bk_used b); [apply Z.eqb_eq|apply Z.eqb_neq]; dlia.
Qed.

(** ** Placed blocks *)

Lemma bsum_app l1 l2 : bsum (l1 ++ l2) = bsum l1 + bsum l2.
Proof. induction l1 as [|b l1 IH]; cbn; [done|]. fold (bsum (l1 ++ l2)). rewrite IH. fold (bsum l1). lia. Qed.

Lemma bsum_cons b l : bsum (b :: l) = bk_size b + bsum l.
Proof. done. Qed.

Lemma bsum_nonneg bl : Forall blk_ok bl -> 0 <= bsum bl.
Proof. induction 1 as [|b bl (H1 & _) _ IH]; [done|]. rewrite bsum_cons. lia. Qed.

Lemma bsum_length bl : Forall blk_ok bl -> 64 * Z.of_nat (length bl) <= bsum bl.
Proof. induction 1 as [|b bl (H1 & _) _ IH]; [done|]. rewrite bsum_cons. cbn [length]. lia. Qed.

Lemma bsum_mod bl : Forall blk_ok bl -> bsum bl mod 16 = 0.
Proof. induction 1 as [|b bl (_ & H1 & _) _ IH]; [done|]. rewrite bsum_cons. dlia. Qed.

Lemma place_app o pv l1 l2 :
  place o pv (l1 ++ l2) = place o pv l1 ++ place (o + bsum l1) (last_size pv l1) l2.
Proof.
  revert o pv. induction l1 as [|b l1 IH]; intros o pv; cbn [place app].
  - unfold last_size, bsum. cbn. by rewrite Z.add_0_r.
  - rewrite IH. cbn [bsum foldr last_size foldl]. fold (bsum l1) (last_size (bk_size b) l1).
    by replace (o + bk_size b + bsum l1) with (o + (bk_size b + bsum l1)) by lia.
Qed.

Lemma last_size_app pv l1 l2 : last_size pv (l1 ++ l2) = last_size (last_size pv l1) l2.
Proof. unfold last_size. by rewrite foldl_app. Qed.

Lemma place_range o pv bl o' pv' b : Forall blk_ok bl -> (o', pv', b) ∈ place o pv bl ->
  b ∈ bl /\ o <= o' /\ o' + bk_size b <= o + bsum bl /\ (o' - o) mod 16 = 0.
Proof.
  intros Hok. revert o pv. induction Hok as [|c bl Hc Hok IH]; intros o pv; cbn [place]; [by intros ?%elem_of_nil|].
  rewrite elem_of_cons, bsum_cons. pose proof (bsum_nonneg bl Hok). destruct Hc as (Hc1 & Hc2 & _).
  intros [[= -> -> ->]|Hin].
  - split_and!; [by left|lia|lia|]. by rewrite Z.sub_diag.
  - destruct (IH _ _ Hin) as (? & ? & ? & ?). split_and!; [by right|lia|lia|dlia].
Qed.

(** Two placed blocks are the same or do not overlap. *)
Lemma place_sep o pv bl o1 p1 b1 o2 p2 b2 : Forall blk_ok bl ->
  (o1, p1, b1) ∈ place o pv bl -> (o2, p2, b2) ∈ place o pv bl ->
  (o1 = o2 /\ p1 = p2 /\ b1 = b2) \/ o1 + bk_size b1 <= o2 \/ o2 + bk_size b2 <= o1.
Proof.
  intros Hok. revert o pv. induction Hok as [|c bl Hc Hok IH]; intros o pv; cbn [place]; [by intros ?%elem_of_nil|].
  rewrite !elem_of_cons. intros [E1|H1] [E2|H2]; simplify_eq.
  - by left.
  - apply place_range in H2; [|done]. lia.
  - apply place_range in H1; [|done]. lia.
  - by apply (IH _ _ H1 H2).
Qed.

Lemma place_split o pv bl o' pv' b : (o', pv', b) ∈ place o pv bl ->
  exists pre post, bl = pre ++ b :: post /\ o' = o + bsum pre /\ pv' = last_size pv pre.
Proof.
  revert o pv. induction bl as [|c bl IH]; intros o pv; cbn [place]; [by intros ?%elem_of_nil|].
  rewrite elem_of_cons. intros [[= -> -> ->]|Hin].
  - exists [], bl. cbn. split_and!; [done|lia|done].
  - destruct (IH _ _ Hin) as (pre & post & -> & -> & ->). exists (c :: pre), post.
    rewrite bsum_cons. split_and!; [done|lia|done].
Qed.

Lemma place_mid o pv pre b post : (o + bsum pre, last_size pv pre, b) ∈ place o pv (pre ++ b :: post).
Proof. rewrite place_app. apply elem_of_app. right. by left. Qed.

Lemma free_offs_app o pv l1 l2 :
  free_offs o pv (l1 ++ l2) = free_offs o pv l1 ++ free_offs (o + bsum l1) (last_size pv l1) l2.
Proof. unfold free_offs. by rewrite place_app, omap_app. Qed.

Lemma elem_of_free_offs o pv bl o' : o' ∈ free_offs o pv bl <->
  exists pv' b, (o', pv', b) ∈ place o pv bl /\ bk_used b = false.
Proof.
  unfold free_offs. rewrite list_elem_of_omap. split.
  - intros ([[o1 p1] b1] & Hin & E). destruct (bk_used b1) eqn:Eu; simplify_eq. eauto.
  - intros (pv' & b & Hin & Eu). exists (o', pv', b). by rewrite Eu.
Qed.

Lemma free_offs_sorted o pv bl : Forall blk_ok bl -> StronglySorted Z.lt (free_offs o pv bl).
Proof.
  intros Hok. revert o pv. induction Hok as [|b bl Hb Hok IH]; intros o pv; [constructor|].
  unfold free_offs in *. cbn [place omap list_omap]. destruct (bk_used b); [apply IH|]. constructor; [apply IH|].
  apply Forall_forall. intros x Hx. fold (free_offs (o + bk_size b) (bk_size b) bl) in Hx.
  apply elem_of_free_offs in Hx as (p & c & Hin & _). apply place_range in Hin; [|done]. destruct Hb. lia.
Qed.

(** ** Headers in memory *)

Section headers.
Context {C : Type} `{HeapOps C}.

Ltac hdr_eq := unfold block_at, store, with_mem, addr; cbn [ar_mem ar_heap]; f_equal;
  first [apply rd64_wr64_ne; lia | rewrite ?Z.add_0_r; by apply rd64_wr64_eq].

(** A store to a header leaves headers that do not overlap it. *)
Lemma store_other (a : arena C) f o v o' : 0 <= f <= 40 -> o + 48 <= o' \/ o' + 48 <= o ->
  block_at (store f o v a) o' = block_at a o'.
Proof. intros Hf Hd. unfold block_at, store, with_mem, addr. cbn [ar_mem ar_heap]. f_equal; apply rd64_wr64_ne; lia. Qed.

Lemma store_size_flags (a : arena C) o v : u64_ok v -> block_at (set_size_flags o v a) o =
  let b := block_at a o in
  MkBlock v (hb_prev_size b) (hb_requested b) (hb_free_prev b) (hb_free_next b) (hb_cookie b).
Proof. intros Hv. unfold set_size_flags. hdr_eq. Qed.

Lemma store_prev_size (a : arena C) o v : u64_ok v -> block_at (set_prev_size o v a) o =
  let b := block_at a o in
  MkBlock (hb_size_flags b) v (hb_requested b) (hb_free_prev b) (hb_free_next b) (hb_cookie b).
Proof. intros Hv. unfold set_prev_size. hdr_eq. Qed.

Lemma store_requested (a : arena C) o v : u64_ok v -> block_at (set_requested o v a) o =
  let b := block_at a o in
  MkBlock (hb_size_flags b) (hb_prev_size b) v (hb_free_prev b) (hb_free_next b) (hb_cookie b).
Proof. intros Hv. unfold set_requested. hdr_eq. Qed.

Lemma store_free_prev (a : arena C) o v : u64_ok v -> block_at (set_free_prev o v a) o =
  let b := block_at a o in
  MkBlock (hb_size_flags b) (hb_prev_size b) (hb_requested b) v (hb_free_next b) (hb_cookie b).
Proof. intros Hv. unfold set_free_prev. hdr_eq. Qed.

Lemma store_free_next (a : arena C) o v : u64_ok v -> block_at (set_free_next o v a) o =
  let b := block_at a o in
  MkBlock (hb_size_flags b) (hb_prev_size b) (hb_requested b) (hb_free_prev b) v (hb_cookie b).
Proof. intros Hv. unfold set_free_next. hdr_eq. Qed.

Lemma store_cookie (a : arena C) o v : u64_ok v -> block_at (set_cookie o v a) o =
  let b := block_at a o in
  MkBlock (hb_size_flags b) (hb_prev_size b) (hb_requested b) (hb_free_prev b) (hb_free_next b) v.
Proof. intros Hv. unfold set_cookie. hdr_eq. Qed.

Lemma block_at_mem (a a' : arena C) o : hc_base (ar_heap a') = hc_base (ar_heap a) ->
  (forall x, addr a o <= x < addr a o + 48 -> ar_mem a' x = ar_mem a x) -> block_at a' o = block_at a o.
Proof.
  intros Eb E. unfold block_at, addr in *. rewrite Eb. f_equal; apply rd64_ext; intros x Hx; apply E; lia.
Qed.

(** The bytes outside [P] are the same. *)
Definition only (P : Z -> Prop) (a a' : arena C) : Prop :=
  forall x, ~ P x -> ar_mem a' x = ar_mem a x.

Lemma only_refl P a : only P a a.
Proof. by intros x _. Qed.

Lemma only_trans (P Q R : Z -> Prop) a a1 a2 : only P a a1 -> only Q a1 a2 ->
  (forall x, P x \/ Q x -> R x) -> only R a a2.
Proof. intros H1 H2 HR x Hx. rewrite H2, H1; auto. Qed.

Lemma only_weaken (P Q : Z -> Prop) a a' : only P a a' -> (forall x, P x -> Q x) -> only Q a a'.
Proof. intros H1 HR x Hx. apply H1. auto. Qed.

(** The addresses of the header at offset [o], and those of [o, o + n). *)
Definition span (a : arena C) (o n x : Z) : Prop := addr a o <= x < addr a o + n.

Lemma only_store (a : arena C) f o v : 0 <= f <= 40 -> only (span a o 48) a (store f o v a).
Proof.
  intros Hf x Hx. unfold store, with_mem. cbn [ar_mem]. apply wr64_other. unfold span, addr in *. lia.
Qed.

Lemma block_at_only (P : Z -> Prop) (a a' : arena C) o : only P a a' ->
  hc_base (ar_heap a') = hc_base (ar_heap a) -> (forall x, span a o 48 x -> ~ P x) ->
  block_at a' o = block_at a o.
Proof. intros Ho Eb Hn. apply block_at_mem; [done|]. intros x Hx. apply Ho. by apply Hn. Qed.

(** ** The representation *)

Definition hdr (a : arena C) (e : Z * Z * blk) : Prop :=
  let '(o, pv, b) := e in
  hb_size_flags (block_at a o) = flagged b /\ hb_prev_size (block_at a o) = pv /\
  hb_requested (block_at a o) = bk_req b /\ hb_cookie (block_at a o) = block_cookie (ar_heap a) o.

Definition unlinked (a : arena C) (o : Z) : Prop :=
  hb_free_prev (block_at a o) = UTAMO_HEAP_NONE /\ hb_free_next (block_at a o) = UTAMO_HEAP_NONE.

(** The free list from [cur], whose predecessor is [prior], runs through [fl]
    and arrives at [last] with predecessor [lastp]. *)
Fixpoint dseg (a : arena C) (prior cur : Z) (fl : list Z) (lastp last : Z) : Prop :=
  match fl with
  | [] => prior = lastp /\ cur = last
  | o :: fl => cur = o /\ hb_free_prev (block_at a o) = prior /\
               dseg a o (hb_free_next (block_at a o)) fl lastp last
  end.

Definition flist (a : arena C) (fl : list Z) : Prop :=
  exists lastp, dseg a UTAMO_HEAP_NONE (hc_free_head (ar_heap a)) fl lastp UTAMO_HEAP_NONE.

Record hrep (a : arena C) (bl : list blk) (fl : list Z) : Prop := {
  hr_ctx : ctx_ok (ar_heap a);
  hr_size : bsum bl = hc_mapped_size (ar_heap a);
  hr_ok : Forall blk_ok bl;
  hr_hdr : forall e, e ∈ place 0 0 bl -> hdr a e;
  hr_list : flist a fl;
  hr_sorted : StronglySorted Z.lt fl;
  hr_in : forall o, o ∈ fl -> exists pv b, (o, pv, b) ∈ place 0 0 bl;
  hr_out : forall o pv b, (o, pv, b) ∈ place 0 0 bl -> o ∉ fl -> unlinked a o
}.

Record heap_rep (a : arena C) (bl : list blk) : Prop := {
  hp_rep : hrep a bl (free_offs 0 0 bl);
  hp_adj : no_adjacent false bl;
  hp_used : hc_used_bytes (ar_heap a) = req_sum bl;
  hp_live : hc_live_allocations (ar_heap a) = live_count bl;
  hp_peak : req_sum bl <= hc_peak_usage (ar_heap a)
}.

Lemma dseg_app a prior cur l1 l2 lp l : dseg a prior cur (l1 ++ l2) lp l <->
  exists p c, dseg a prior cur l1 p c /\ dseg a p c l2 lp l.
Proof.
  revert prior cur. induction l1 as [|o l1 IH]; intros prior cur; cbn [app dseg].
  - split; [by exists prior, cur|]. by intros (p & c & [-> ->] & ?).
  - rewrite IH. split.
    + intros (-> & -> & p & c & ? & ?). by exists p, c.
    + intros (p & c & (-> & -> & ?) & ?). split_and!; [done|done|]. by exists p, c.
Qed.

(** The link fields. *)
Definition fprev (a : arena C) (o : Z) : Z := hb_free_prev (block_at a o).
Definition fnext (a : arena C) (o : Z) : Z := hb_free_next (block_at a o).

Lemma dseg_frame a a' prior cur fl lp l :
  (forall o, o ∈ fl -> fprev a' o = fprev a o /\ fnext a' o = fnext a o) ->
  dseg a prior cur fl lp l -> dseg a' prior cur fl lp l.
Proof.
  unfold fprev, fnext. revert prior cur. induction fl as [|o fl IH]; intros prior cur E; cbn [dseg]; [done|].
  destruct (E o) as [-> ->]; [by left|]. intros (-> & -> & Hd). split_and!; [done|done|].
  apply IH; [|done]. intros o' Ho'. apply E. by right.
Qed.

(** The first element gets another predecessor. *)
Lemma dseg_first a a' prior prior' cur o fl lp l : fprev a' o = prior' -> fnext a' o = fnext a o ->
  (forall x, x ∈ fl -> fprev a' x = fprev a x /\ fnext a' x = fnext a x) ->
  dseg a prior cur (o :: fl) lp l -> dseg a' prior' cur (o :: fl) lp l.
Proof.
  intros E1 E2 E3. cbn [dseg]. fold (fprev a' o) (fnext a' o) (fnext a o). rewrite E1, E2.
  intros (-> & _ & Hd). split_and!; [done|done|]. by apply (dseg_frame a).
Qed.

(** The last element gets another successor. *)
Lemma dseg_relast a a' prior cur fl o lp l l' : fprev a' o = fprev a o -> fnext a' o = l' ->
  (forall x, x ∈ fl -> fprev a' x = fprev a x /\ fnext a' x = fnext a x) ->
  dseg a prior cur (fl ++ [o]) lp l -> dseg a' prior cur (fl ++ [o]) lp l'.
Proof.
  intros E1 E2 E3. rewrite !dseg_app. intros (p & c & H1 & H2). exists p, c.
  split; [by apply (dseg_frame a)|]. cbn [dseg] in *. fold (fprev a' o) (fnext a' o). fold (fprev a o) in H2.
  rewrite E1, E2. destruct H2 as (-> & -> & <- & _). done.
Qed.

Lemma dseg_last a prior cur fl lp l : dseg a prior cur fl lp l -> lp = default prior (list.last fl).
Proof.
  revert prior cur. induction fl as [|o fl IH]; intros prior cur; cbn [dseg]; [by intros [-> _]|].
  intros (_ & _ & Hd). rewrite (IH _ _ Hd), last_cons. by destruct (list.last fl).
Qed.

Lemma dseg_head a prior cur fl lp l : dseg a prior cur fl lp l -> cur = default l (head fl).
Proof. destruct fl; cbn [dseg head]; [by intros [_ ->]|by intros (-> & _)]. Qed.
End headers.
