(* ===== verification/HeapLinks.v ===== *)
(** * The kernel heap: validation decides the invariant *)

From stdpp Require Import sorting.
From S2P Require Import Prelude Bytes HeapCore HeapInv.
Open Scope Z_scope.

Lemma reserved_mask : Z.land UTAMO_HEAP_FLAG_MASK (not64 UTAMO_HEAP_USED) = 14.
Proof. done. Qed.

Lemma reserved_bits x : Z.land x 14 = 0 <-> x mod 16 = 0 \/ x mod 16 = 1.
Proof.
  assert (Z.land x 14 = Z.land (x mod 16) 14) as ->.
  { change 16 with (2 ^ 4). rewrite <- land_low_mask by done. by rewrite <- Z.land_assoc. }
  pose proof (Z.mod_pos_bound x 16 ltac:(lia)) as Hb. split.
  - intros E. assert (forallb (fun n => negb (Z.land n 14 =? 0) || (n <=? 1)) (seqZ 0 16) = true) as Hall by by vm_compute.
    rewrite forallb_seqZ in Hall. specialize (Hall (x mod 16) ltac:(lia)). rewrite E in Hall. cbn in Hall. lia.
  - by intros [-> | ->].
Qed.

Lemma u64_add_assoc a b c : a +u b +u c = u64 (a + (b + c)).
Proof. unfold u64. rewrite Zplus_mod_idemp_l. f_equal. lia. Qed.

Lemma req_sum_bound bl : Forall blk_ok bl -> 0 <= req_sum bl <= bsum bl.
Proof.
  induction 1 as [|b bl (H1 & _ & H2) _ IH]; [done|]. rewrite bsum_cons. cbn [req_sum foldr].
  fold (req_sum bl). destruct (bk_used b); lia.
Qed.

Lemma live_count_bound bl : Forall blk_ok bl -> 0 <= live_count bl /\ 64 * live_count bl <= bsum bl.
Proof.
  intros Hok. pose proof (bsum_length bl Hok). unfold live_count. pose proof (count_if_bounds bk_used bl). lia.
Qed.

Lemma live_count_cons b bl : live_count (b :: bl) = (if bk_used b then 1 else 0) + live_count bl.
Proof. unfold live_count. change (b :: bl) with ([b] ++ bl). rewrite count_if_app. f_equal. cbn. by destruct (bk_used b). Qed.

Lemma req_sum_cons b bl : req_sum (b :: bl) = bk_req b + req_sum bl.
Proof. done. Qed.

Lemma context_valid_ok h : heap_typed h -> context_valid h = true <-> ctx_ok h.
Proof.
  intros (H1 & H2 & H3 & H4). unfold u64_ok in *. unfold context_valid. rewrite !andb_true_iff, !flag_mask, !Z.eqb_eq, !Z.leb_le, negb_true_iff, Z.eqb_neq.
  rewrite (u64_small (UINT64_MAX - hc_base h)) by (unfold u64_ok; lia). unfold UTAMO_HEAP_MIN_BLOCK.
  assert (forall a b, Z.lor a b mod 16 = 0 <-> a mod 16 = 0 /\ b mod 16 = 0) as Hlor.
  { intros a b. change 16 with (2 ^ 4). rewrite <- !land_low_mask, Z.land_lor_distr_l by done. apply Z.lor_eq_0_iff. }
  rewrite !Hlor. split.
  - intros (((((((? & ?) & ?) & ?) & ?) & ?) & ?) & (? & ?) & ?). constructor; try done; lia.
  - intros []. split_and!; try done; lia.
Qed.

Section valid.
Context {C : Type} `{HeapOps C}.

Lemma block_fields (a : arena C) o : u64_ok (hb_size_flags (block_at a o)) /\ u64_ok (hb_prev_size (block_at a o)) /\
  u64_ok (hb_requested (block_at a o)) /\ u64_ok (hb_free_prev (block_at a o)) /\
  u64_ok (hb_free_next (block_at a o)) /\ u64_ok (hb_cookie (block_at a o)).
Proof. unfold block_at. cbn. split_and!; apply rd64_range. Qed.

Lemma hdr_size (a : arena C) o pv b : hdr a (o, pv, b) -> blk_ok b -> block_size (block_at a o) = bk_size b.
Proof.
  intros (Hs & _) Hb. unfold block_size. rewrite Hs. apply flagged_size; [done|].
  rewrite <- Hs. apply (block_fields a o).
Qed.

Lemma hdr_used (a : arena C) o pv b : hdr a (o, pv, b) -> blk_ok b -> block_used (block_at a o) = bk_used b.
Proof. intros (Hs & _) Hb. unfold block_used. rewrite Hs. by apply flagged_used. Qed.

(** What the loop of [heap_core_validate] checks of the blocks from [o] on. *)
Definition blocks_valid (a : arena C) (o pv cur prior : Z) (pf : bool) (bl : list blk) (lst : Z) : Prop :=
  Forall blk_ok bl /\ (forall e, e ∈ place o pv bl -> hdr a e) /\ o + bsum bl = hc_mapped_size (ar_heap a) /\
  (exists lp, dseg a prior cur (free_offs o pv bl) lp lst) /\
  (forall o' p b, (o', p, b) ∈ place o pv bl -> bk_used b = true -> unlinked a o') /\ no_adjacent pf bl.

Lemma blocks_valid_cons a o pv cur prior pf b bl lst :
  blocks_valid a o pv cur prior pf (b :: bl) lst <->
  blk_ok b /\ hdr a (o, pv, b) /\
  (if bk_used b then unlinked a o /\ blocks_valid a (o + bk_size b) (bk_size b) cur prior false bl lst
   else pf = false /\ cur = o /\ hb_free_prev (block_at a o) = prior /\
        blocks_valid a (o + bk_size b) (bk_size b) (hb_free_next (block_at a o)) o true bl lst).
Proof.
  unfold blocks_valid. rewrite Forall_cons, bsum_cons. unfold free_offs. cbn [place omap list_omap no_adjacent].
  rewrite Z.add_assoc. split.
  - intros ((Hb & Hok) & Hh & Hsz & (lp & Hd) & Hu & Hp & Hadj).
    split_and!; [done|apply Hh; by left|]. destruct (bk_used b) eqn:Eu; cbn [negb] in *.
    + split; [apply (Hu o pv b); [by left|done]|]. split_and!; try done.
      * intros e He. apply Hh. by right.
      * by exists lp.
      * intros o' p c Hin. apply (Hu o' p c). by right.
    + destruct Hd as (-> & Hfp & Hd). split_and!; try done.
      * destruct pf; [|done]. by specialize (Hp eq_refl).
      * intros e He. apply Hh. by right.
      * by exists lp.
      * intros o' p c Hin. apply (Hu o' p c). by right.
  - intros (Hb & Hh & Hrest). destruct (bk_used b) eqn:Eu; cbn [negb] in *.
    + destruct Hrest as (Hun & Hok & Hhs & Hsz & Hd & Hu & Hadj). split_and!; try done.
      * by intros e [->|He]%elem_of_cons; auto.
      * intros o' p c [[= -> -> ->]|Hin]%elem_of_cons; [done|]. by apply (Hu o' p c).
    + destruct Hrest as (-> & -> & Hfp & Hok & Hhs & Hsz & (lp & Hd) & Hu & Hadj). split_and!; try done.
      * by intros e [->|He]%elem_of_cons; auto.
      * by exists lp.
      * intros o' p c [[= -> -> ->]|Hin]%elem_of_cons; [congruence|]. by apply (Hu o' p c).
Qed.

(** The block a header describes. *)
Definition described (a : arena C) (o : Z) : blk :=
  MkBlk (block_size (block_at a o)) (block_used (block_at a o)) (hb_requested (block_at a o)).

Lemma hdr_described a o pv b : hdr a (o, pv, b) -> blk_ok b -> b = described a o.
Proof.
  intros Hh Hb. unfold described. rewrite (hdr_size a o pv b), (hdr_used a o pv b) by done.
  destruct Hh as (_ & _ & -> & _). by destruct b.
Qed.

(** The checks on one header. *)
Lemma header_checks a o pv : ctx_ok (ar_heap a) -> 0 <= o < hc_mapped_size (ar_heap a) ->
  let block := block_at a o in let size := block_size block in
  negb (hb_cookie block =? block_cookie (ar_heap a) o) ||
    negb (Z.land (hb_size_flags block) (Z.land UTAMO_HEAP_FLAG_MASK (not64 UTAMO_HEAP_USED)) =? 0) ||
    (size <? UTAMO_HEAP_MIN_BLOCK) || (hc_mapped_size (ar_heap a) -u o <? size) ||
    negb (hb_prev_size block =? pv) = false <->
  hdr a (o, pv, described a o) /\ 64 <= size /\ size mod 16 = 0 /\ o + size <= hc_mapped_size (ar_heap a).
Proof.
  intros [] Ho block size. rewrite reserved_mask, !orb_false_iff, !negb_false_iff, !Z.eqb_eq, !Z.ltb_ge, reserved_bits.
  rewrite u64_small by (unfold u64_ok, UINT64_MAX in *; lia).
  assert (size = hb_size_flags block - hb_size_flags block mod 16) as Es.
  { unfold size, block_size. apply size_mask, (block_fields a o). }
  assert (flagged (described a o) = size + hb_size_flags block mod 2) as Ef.
  { unfold flagged, described. cbn [bk_size bk_used]. fold block size. f_equal.
    unfold block_used. rewrite used_bit. destruct (Z.eqb_spec (hb_size_flags block mod 2) 1) as [->|]; [done|].
    pose proof (Z.mod_pos_bound (hb_size_flags block) 2 ltac:(lia)). lia. }
  unfold hdr. rewrite Ef. fold block. unfold UTAMO_HEAP_MIN_BLOCK. split.
  - intros ((((Hc & Hm) & Hs) & Hb) & Hp). split_and!; try done; dlia.
  - intros ((Hf & Hp & _ & Hc) & Hs & Hm & Hb). split_and!; try done; dlia.
Qed.

Lemma validate_from_spec a (Hctx : ctx_ok (ar_heap a)) steps : forall o pv cur prior live req pf lst l' r',
  0 <= o <= hc_mapped_size (ar_heap a) -> hc_mapped_size (ar_heap a) - o < 64 * Z.of_nat steps ->
  u64_ok live -> u64_ok req ->
  validate_from steps a o pv cur prior live req pf = Some (lst, l', r') <->
  exists bl, blocks_valid a o pv cur prior pf bl lst /\ l' = u64 (live + live_count bl) /\ r' = u64 (req + req_sum bl).
Proof.
  induction steps as [|steps IH]; intros o pv cur prior live req pf lst l' r' Ho Hst Hl Hr; [lia|]. cbn [validate_from].
  pose proof Hctx as []. destruct (Z.leb_spec (hc_mapped_size (ar_heap a)) o) as [He|He].
  { split.
    - intros [= <- <- <-]. exists []. unfold blocks_valid, live_count, req_sum. cbn.
      rewrite !Z.add_0_r, !u64_small by done. split_and!; try done; try lia; try (by intros; set_solver).
    - intros (bl & (Hok & _ & Hsz & (lp & Hd) & _) & -> & ->). pose proof (bsum_length bl Hok).
      destruct bl; [|cbn [length] in *; lia]. destruct Hd as [_ ->]. cbn. rewrite !Z.add_0_r, !u64_small by done. done. }
  assert (forall bl, blocks_valid a o pv cur prior pf bl lst -> exists bl', bl = described a o :: bl' /\
     hdr a (o, pv, described a o) /\ blk_ok (described a o) /\ o + bk_size (described a o) <= hc_mapped_size (ar_heap a)) as Hcons.
  { intros [|b bl] Hv; [destruct Hv as (_ & _ & Hsz & _); cbn in Hsz; lia|]. pose proof Hv as (Hok & _ & Hsz & _).
    apply blocks_valid_cons in Hv as (Hb & Hh & _). pose proof (hdr_described _ _ _ _ Hh Hb) as ->.
    exists bl. split_and!; try done. apply Forall_cons in Hok as [_ Hok]. pose proof (bsum_nonneg bl Hok).
    rewrite bsum_cons in Hsz. lia. }
  assert (hc_mapped_size (ar_heap a) -u o = hc_mapped_size (ar_heap a) - o) as Esub
    by (apply u64_small; unfold u64_ok, UINT64_MAX in *; lia).
  destruct (Z.ltb_spec (hc_mapped_size (ar_heap a) -u o) BLOCK_BYTES) as [Hs|Hs].
  { split; [done|]. intros (bl & (bl' & _ & _ & (? & _) & ?)%Hcons & _). unfold BLOCK_BYTES in *. lia. }
  pose proof (header_checks a o pv Hctx ltac:(lia)) as Hck. cbv zeta in Hck |- *.
  destruct (_ || _ || _ || _ || _) eqn:Eg.
  { split; [done|]. intros (bl & (bl' & _ & Hh & (H1 & H2 & _) & H3)%Hcons & _).
    exfalso. apply diff_true_false. by apply Hck. }
  destruct (proj1 Hck eq_refl) as (Hh & Hs1 & Hs2 & Hs3). clear Hck Eg.
  set (size := block_size (block_at a o)) in *.
  assert (o +u size = o + size) as -> by (apply u64_small; unfold u64_ok, UINT64_MAX in *; lia).
  assert (size -u BLOCK_BYTES = size - 48) as -> by (apply u64_small; unfold u64_ok, UINT64_MAX, BLOCK_BYTES in *; lia).
  assert (forall P : list blk -> Prop, (exists bl, blocks_valid a o pv cur prior pf bl lst /\ P bl) <->
    exists bl, blocks_valid a o pv cur prior pf (described a o :: bl) lst /\ P (described a o :: bl)) as Hex.
  { intros P. split; [|by intros (bl & ?); eexists]. intros (bl & Hv & HP). destruct (Hcons bl Hv) as (bl' & -> & _). by exists bl'. }
  rewrite (Hex (fun bl => l' = u64 (live + live_count bl) /\ r' = u64 (req + req_sum bl))). clear Hex Hcons.
  setoid_rewrite blocks_valid_cons. setoid_rewrite live_count_cons. setoid_rewrite req_sum_cons.
  change (bk_used (described a o)) with (block_used (block_at a o)).
  change (bk_size (described a o)) with size. change (bk_req (described a o)) with (hb_requested (block_at a o)).
  assert (blk_ok (described a o) <-> if block_used (block_at a o) then 0 < hb_requested (block_at a o) <= size - 48
    else hb_requested (block_at a o) = 0) as Hok.
  { unfold blk_ok. cbn [bk_size bk_used bk_req]. fold size. tauto. }
  pose proof (block_fields a o) as (_ & _ & Hreq & _). destruct (block_used (block_at a o)) eqn:Eu.
  - destruct (_ || _) eqn:Eg.
    + split; [done|]. intros (bl & (Hb & _ & (Hun1 & Hun2) & _) & _). apply Hok in Hb.
      rewrite Hun1, Hun2, !Z.eqb_refl in Eg. cbn [negb orb] in Eg. lia.
    + rewrite !orb_false_iff, !negb_false_iff, !Z.eqb_eq, Z.eqb_neq in Eg. destruct Eg as [[[E1 E2] E3] E4].
      rewrite IH; try lia; try apply u64_range. apply exist_proper. intros bl.
      rewrite !u64_add_assoc. unfold unlinked, u64_ok in *. split; [intros (? & -> & ->)|intros ((_ & _ & _ & ?) & -> & ->)]; [|done].
      split_and!; try done. apply Hok. lia.
  - destruct (_ || _) eqn:Eg.
    + split; [done|]. intros (bl & (Hb & _ & -> & _) & _). apply Hok in Hb.
      rewrite Hb in Eg. done.
    + rewrite orb_false_iff, negb_false_iff, Z.eqb_eq in Eg. destruct Eg as [E1 ->].
      destruct (_ || _) eqn:Eg.
      * split; [done|]. intros (bl & (_ & _ & _ & E5 & E6 & _) & _). by rewrite E5, E6, !Z.eqb_refl in Eg.
      * rewrite !orb_false_iff, !negb_false_iff, !Z.eqb_eq in Eg. destruct Eg as [E3 E4].
        rewrite IH; try lia; try done. apply exist_proper. intros bl. rewrite E1, !Z.add_0_l.
        split; [intros (? & -> & ->)|intros ((_ & _ & _ & _ & _ & ?) & -> & ->)]; [|done].
        split_and!; try done. by apply Hok.
Qed.

Lemma hrep_blocks_valid (a : arena C) bl : ctx_ok (ar_heap a) ->
  hrep a bl (free_offs 0 0 bl) /\ no_adjacent false bl <->
  blocks_valid a 0 0 (hc_free_head (ar_heap a)) UTAMO_HEAP_NONE false bl UTAMO_HEAP_NONE.
Proof.
  intros Hctx. split.
  - intros [[] Hadj]. split_and!; try done. intros o' p b Hin Hu. apply (hr_out o' p b Hin).
    intros (p' & b' & Hin' & Hu')%elem_of_free_offs.
    destruct (place_sep 0 0 bl _ _ _ _ _ _ hr_ok Hin Hin') as [(_ & _ & ->)|Hs]; [congruence|].
    pose proof (proj1 (Forall_forall _ _) hr_ok) as Hok.
    apply place_range in Hin as [Hin _], Hin' as [Hin' _]; try done.
    destruct (Hok b Hin), (Hok b' Hin'). lia.
  - intros (Hok & Hh & Hsz & Hd & Hu & Hadj). split; [|done]. constructor; try done.
    + by apply free_offs_sorted.
    + intros o (pv & b & Hin & _)%elem_of_free_offs. by exists pv, b.
    + intros o pv b Hin Hnot. apply (Hu o pv b Hin). destruct (bk_used b) eqn:E; [done|].
      exfalso. apply Hnot, elem_of_free_offs. by exists pv, b.
Qed.

Lemma heap_validate_rep (a : arena C) : heap_typed (ar_heap a) ->
  heap_core_validate a = true <-> exists bl, heap_rep a bl.
Proof.
  intros Ht. unfold heap_core_validate. destruct (context_valid (ar_heap a)) eqn:Ec; cbn [negb]; cycle 1.
  { split; [done|]. intros (bl & [[Hc _] _]). apply context_valid_ok in Hc; [congruence|done]. }
  apply context_valid_ok in Ec; [|done]. pose proof Ec as [].
  assert (0 <= 0 <= hc_mapped_size (ar_heap a)) as H0 by lia.
  assert (hc_mapped_size (ar_heap a) - 0 < 64 * Z.of_nat (max_blocks a)) as Hst by (unfold max_blocks; dlia).
  assert (forall bl, Forall blk_ok bl -> bsum bl = hc_mapped_size (ar_heap a) ->
    u64 (0 + live_count bl) = live_count bl /\ u64 (0 + req_sum bl) = req_sum bl) as Hu.
  { intros bl Hok Hsz. pose proof (req_sum_bound bl Hok). pose proof (live_count_bound bl Hok).
    rewrite !u64_small by (unfold u64_ok, UINT64_MAX in *; lia). lia. }
  pose proof (fun lst l r => validate_from_spec a Ec (max_blocks a) 0 0 (hc_free_head (ar_heap a)) UTAMO_HEAP_NONE
    0 0 false lst l r H0 Hst ltac:(done) ltac:(done)) as Hv.
  split.
  - destruct (validate_from _ _ _ _ _ _ _ _ _) as [[[lst l'] r']|] eqn:Ev; [|done].
    destruct (proj1 (Hv lst l' r') eq_refl) as (bl & Hbl & -> & ->).
    pose proof Hbl as (Hok & _ & Hsz & _). destruct (Hu bl Hok Hsz) as [-> ->].
    destruct (_ || _ || _) eqn:Eg; [done|]. intros ->%Z.eqb_eq. exists bl.
    rewrite !orb_false_iff, !negb_false_iff, !Z.eqb_eq, Z.ltb_ge in Eg. destruct Eg as [[E1 E2] E3].
    apply hrep_blocks_valid in Hbl as [Hr Ha]; [|done]. constructor; try done; lia.
  - intros (bl & [Hr Ha H1 H2 H3]). pose proof Hr as []. destruct (Hu bl hr_ok hr_size) as [E1 E2].
    assert (validate_from (max_blocks a) a 0 0 (hc_free_head (ar_heap a)) UTAMO_HEAP_NONE 0 0 false =
      Some (UTAMO_HEAP_NONE, live_count bl, req_sum bl)) as ->.
    { apply Hv. exists bl. split; [|done]. apply hrep_blocks_valid; [done|]. done. }
    rewrite H1, H2, !Z.eqb_refl. cbn [negb orb]. destruct (Z.ltb_spec (hc_peak_usage (ar_heap a)) (req_sum bl)); [lia|done].
Qed.

(** Headers seen through the representation. *)
Lemma hrep_block (a : arena C) bl fl o pv b : hrep a bl fl -> (o, pv, b) ∈ place 0 0 bl ->
  blk_ok b /\ 0 <= o /\ o mod 16 = 0 /\ o + bk_size b <= hc_mapped_size (ar_heap a) /\
  block_size (block_at a o) = bk_size b /\ block_used (block_at a o) = bk_used b /\
  hb_prev_size (block_at a o) = pv /\ hb_requested (block_at a o) = bk_req b /\
  hb_size_flags (block_at a o) = flagged b.
Proof.
  intros [] Hin. pose proof (hr_hdr _ Hin) as Hh.
  destruct (place_range 0 0 bl o pv b hr_ok Hin) as (Hb & H1 & H2 & H3).
  pose proof (proj1 (Forall_forall _ _) hr_ok b Hb) as Hok. rewrite Z.sub_0_r in H3.
  rewrite (hdr_size a o pv b), (hdr_used a o pv b) by done. destruct Hh as (? & ? & ? & ?).
  split_and!; try done. lia.
Qed.

(** Offsets are small: sums do not wrap and no offset is [NONE]. *)
Lemma hrep_bounds (a : arena C) bl fl : hrep a bl fl -> 64 <= hc_mapped_size (ar_heap a) < UTAMO_HEAP_NONE /\
  hc_base (ar_heap a) + hc_max_size (ar_heap a) <= UINT64_MAX /\ 0 < hc_base (ar_heap a) /\
  hc_mapped_size (ar_heap a) <= hc_max_size (ar_heap a).
Proof. intros [[] _ _ _ _ _ _ _]. unfold UTAMO_HEAP_NONE, SIZE_MAX. lia. Qed.

Lemma hrep_length (a : arena C) bl fl : hrep a bl fl -> (length bl < max_blocks a)%nat.
Proof.
  intros [[] Hsz Hok _ _ _ _ _]. pose proof (bsum_length bl Hok). unfold max_blocks.
  enough (Z.of_nat (length bl) <= hc_mapped_size (ar_heap a) / 64) by lia. apply Z.div_le_lower_bound; lia.
Qed.

Lemma sorted_cons_inv (o : Z) fl : StronglySorted Z.lt (o :: fl) -> StronglySorted Z.lt fl /\ forall x, x ∈ fl -> o < x.
Proof. intros Hs. apply StronglySorted_inv in Hs as [Hs Hf]. split; [done|]. by apply Forall_forall. Qed.

Lemma sorted_app_inv l1 l2 : StronglySorted Z.lt (l1 ++ l2) <->
  StronglySorted Z.lt l1 /\ StronglySorted Z.lt l2 /\ forall x y, x ∈ l1 -> y ∈ l2 -> x < y.
Proof.
  induction l1 as [|o l1 IH]; cbn [app].
  - split; [|tauto]. intros Hs. split_and!; [constructor|done|by intros x y ?%elem_of_nil].
  - split.
    + intros [Hs Hf]%StronglySorted_inv. apply IH in Hs as (Hs1 & Hs2 & Hs3). rewrite Forall_app, !Forall_forall in Hf.
      destruct Hf as [Hf1 Hf2]. split_and!; [constructor; [done|by apply Forall_forall]|done|].
      intros x y [->|Hx]%elem_of_cons Hy; [by apply Hf2|by apply Hs3].
    + intros ([Hs1 Hf]%StronglySorted_inv & Hs2 & Hs3). constructor.
      * apply IH. split_and!; try done. intros x y Hx Hy. apply Hs3; [by right|done].
      * apply Forall_app. split; [done|]. apply Forall_forall. intros y Hy. apply Hs3; [by left|done].
Qed.

(** Free lists are no longer than block lists. *)
Lemma hrep_fl_length (a : arena C) bl fl : hrep a bl fl -> (length fl <= length bl)%nat.
Proof.
  intros []. assert (fl ⊆+ map (fun e => fst (fst e)) (place 0 0 bl)) as Hsub.
  { apply NoDup_submseteq.
    - clear -hr_sorted. induction hr_sorted as [|o fl Hs IH Hf]; constructor; [|done].
      rewrite Forall_forall in Hf. intros Hin. apply Hf in Hin. lia.
    - intros o Ho. destruct (hr_in o Ho) as (pv & b & Hin). apply list_elem_of_In, in_map_iff.
      exists (o, pv, b). split; [done|]. by apply list_elem_of_In. }
  apply submseteq_length in Hsub. rewrite length_map in Hsub.
  assert (forall o pv l, length (place o pv l) = length l) as Hl.
  { intros o pv l. revert o pv. induction l as [|b l IH]; intros o pv; cbn; [done|]. by rewrite IH. }
  by rewrite Hl in Hsub.
Qed.
End valid.

(** ** The kernel heap: the free list and the block walks *)


Section links.
Context {C : Type} `{HeapOps C}.
Implicit Types a : arena C.

(** The offsets of the blocks, and the bytes of their headers. *)
Definition placed (bl : list blk) (o : Z) : Prop := exists pv b, (o, pv, b) ∈ place 0 0 bl.
Definition hdrs (a : arena C) (bl : list blk) (x : Z) : Prop := exists o, placed bl o /\ span a o 48 x.

Lemma placed_sep bl o1 o2 : Forall blk_ok bl -> placed bl o1 -> placed bl o2 ->
  o1 = o2 \/ o1 + 48 <= o2 \/ o2 + 48 <= o1.
Proof.
  intros Hok (p1 & b1 & H1) (p2 & b2 & H2).
  pose proof (place_range _ _ _ _ _ _ Hok H1) as (Hb1 & _). pose proof (place_range _ _ _ _ _ _ Hok H2) as (Hb2 & _).
  pose proof (proj1 (Forall_forall _ _) Hok) as Hf. destruct (Hf b1 Hb1), (Hf b2 Hb2).
  destruct (place_sep 0 0 bl _ _ _ _ _ _ Hok H1 H2) as [(-> & _)|]; [by left|lia].
Qed.

(** The fields that are not links. *)
Definition plain_block (b : heap_block) : Z * Z * Z * Z :=
  (hb_size_flags b, hb_prev_size b, hb_requested b, hb_cookie b).

(** [a'] differs from [a] only in links and in the head of the list. *)
Definition relinked (bl : list blk) (a a' : arena C) : Prop :=
  (exists x, ar_heap a' = set_free_head x (ar_heap a)) /\ ar_ctx a' = ar_ctx a /\
  only (hdrs a bl) a a' /\
  forall o, placed bl o -> plain_block (block_at a' o) = plain_block (block_at a o).

Lemma hdrs_base a a' bl x : hc_base (ar_heap a') = hc_base (ar_heap a) -> hdrs a' bl x <-> hdrs a bl x.
Proof. intros E. unfold hdrs, span, addr. by rewrite E. Qed.

Lemma relinked_refl bl a : relinked bl a a.
Proof. split_and!; [by exists (hc_free_head (ar_heap a)); destruct (ar_heap a)|done|apply only_refl|done]. Qed.

Lemma relinked_trans bl a a1 a2 : relinked bl a a1 -> relinked bl a1 a2 -> relinked bl a a2.
Proof.
  intros ((x & E1) & C1 & O1 & P1) ((y & E2) & C2 & O2 & P2). split_and!.
  - exists y. by rewrite E2, E1.
  - congruence.
  - eapply only_trans; [done|done|]. intros z [Hz|Hz]; [done|]. eapply hdrs_base; [|done]. by rewrite E1.
  - intros o Ho. rewrite P2, P1; done.
Qed.

Lemma relinked_head bl a x : relinked bl a (with_heap (set_free_head x) a).
Proof. split_and!; [by exists x|done|by intros z _|done]. Qed.

Section store.
Context (bl : list blk) (Hok : Forall blk_ok bl).

Lemma store_prev_links a q v : placed bl q -> u64_ok v ->
  relinked bl a (set_free_prev q v a) /\
  forall o, placed bl o -> fprev (set_free_prev q v a) o = (if o =? q then v else fprev a o) /\
                           fnext (set_free_prev q v a) o = fnext a o.
Proof using Hok.
  intros Hq Hv.
  assert (forall o, placed bl o -> o <> q -> block_at (set_free_prev q v a) o = block_at a o) as Hne.
  { intros o Ho Hne. apply store_other; [lia|]. destruct (placed_sep bl o q Hok Ho Hq); lia. }
  split.
  - split_and!; [by exists (hc_free_head (ar_heap a)); cbn; destruct (ar_heap a)|done| |].
    + eapply only_weaken; [by apply only_store|]. intros x Hx. by exists q.
    + intros o Ho. destruct (decide (o = q)) as [->|]; [|by rewrite Hne]. by rewrite store_free_prev.
  - intros o Ho. unfold fprev, fnext. destruct (Z.eqb_spec o q) as [->|]; [|by rewrite Hne]. by rewrite store_free_prev.
Qed.

Lemma store_next_links a q v : placed bl q -> u64_ok v ->
  relinked bl a (set_free_next q v a) /\
  forall o, placed bl o -> fnext (set_free_next q v a) o = (if o =? q then v else fnext a o) /\
                           fprev (set_free_next q v a) o = fprev a o.
Proof using Hok.
  intros Hq Hv.
  assert (forall o, placed bl o -> o <> q -> block_at (set_free_next q v a) o = block_at a o) as Hne.
  { intros o Ho Hne. apply store_other; [lia|]. destruct (placed_sep bl o q Hok Ho Hq); lia. }
  split.
  - split_and!; [by exists (hc_free_head (ar_heap a)); cbn; destruct (ar_heap a)|done| |].
    + eapply only_weaken; [by apply only_store|]. intros x Hx. by exists q.
    + intros o Ho. destruct (decide (o = q)) as [->|]; [|by rewrite Hne]. by rewrite store_free_next.
  - intros o Ho. unfold fprev, fnext. destruct (Z.eqb_spec o q) as [->|]; [|by rewrite Hne]. by rewrite store_free_next.
Qed.
End store.

Lemma fl_not_none a bl fl o : hrep a bl fl -> placed bl o -> 0 <= o < UTAMO_HEAP_NONE.
Proof.
  intros Hr (pv & b & Hin). pose proof (hrep_bounds _ _ _ Hr). destruct (hrep_block _ _ _ _ _ _ Hr Hin) as ((? & _) & ? & ? & ? & _). lia.
Qed.

(** Links change and nothing else: what is left to show. *)
Lemma hrep_relink a a' bl fl fl' : hrep a bl fl -> relinked bl a a' -> flist a' fl' ->
  StronglySorted Z.lt fl' -> (forall o, o ∈ fl' -> placed bl o) ->
  (forall o, placed bl o -> o ∉ fl' -> unlinked a' o) -> hrep a' bl fl'.
Proof.
  intros [] ((x & Eh) & _ & _ & Hp) Hl Hs Hin Hout. constructor; try done.
  - rewrite Eh. destruct hr_ctx. by constructor.
  - by rewrite Eh.
  - intros [[o pv] b] He. pose proof (hr_hdr _ He) as Hh. unfold hdr in *.
    pose proof (Hp o ltac:(by exists pv, b)) as Ep. unfold plain_block in Ep. simplify_eq.
    rewrite Eh. unfold block_cookie in *. cbn [hc_base set_free_head]. destruct Hh as (? & ? & ? & ?). split_and!; congruence.
  - intros o pv b Hb. apply Hout. by exists pv, b.
Qed.

(** ** Removing a block from the free list *)

Lemma none_ok : u64_ok UTAMO_HEAP_NONE.
Proof. unfold u64_ok, UTAMO_HEAP_NONE, SIZE_MAX, UINT64_MAX. lia. Qed.

Lemma remove_links a bl o : Forall blk_ok bl -> placed bl o ->
  (fprev a o = UTAMO_HEAP_NONE \/ placed bl (fprev a o)) -> (fnext a o = UTAMO_HEAP_NONE \/ placed bl (fnext a o)) ->
  let a' := remove_free a o in
  relinked bl a a' /\
  hc_free_head (ar_heap a') =
    (if fprev a o =? UTAMO_HEAP_NONE then fnext a o else hc_free_head (ar_heap a)) /\
  forall x, placed bl x ->
    fprev a' x = (if x =? o then UTAMO_HEAP_NONE
                  else if negb (fnext a o =? UTAMO_HEAP_NONE) && (x =? fnext a o) then fprev a o else fprev a x) /\
    fnext a' x = (if x =? o then UTAMO_HEAP_NONE
                  else if negb (fprev a o =? UTAMO_HEAP_NONE) && (x =? fprev a o) then fnext a o else fnext a x).
Proof.
  intros Hok Ho Hp Hn. unfold remove_free. fold (fprev a o) (fnext a o).
  destruct (block_fields a o) as (_ & _ & _ & Hpu & Hnu & _). fold (fprev a o) in Hpu. fold (fnext a o) in Hnu.
  set (p := fprev a o) in *. set (n := fnext a o) in *.
  set (a1 := if p =? UTAMO_HEAP_NONE then _ else _).
  assert (relinked bl a a1 /\ hc_free_head (ar_heap a1) = (if p =? UTAMO_HEAP_NONE then n else hc_free_head (ar_heap a)) /\
    forall x, placed bl x -> fprev a1 x = fprev a x /\
      fnext a1 x = if negb (p =? UTAMO_HEAP_NONE) && (x =? p) then n else fnext a x) as (R1 & H1 & L1).
  { unfold a1. destruct (Z.eqb_spec p UTAMO_HEAP_NONE) as [E|E]; cbn [negb andb].
    - split_and!; [apply relinked_head|done|done].
    - destruct Hp as [|Hp]; [done|]. destruct (store_next_links bl Hok a p n Hp Hnu) as [? Hl].
      split_and!; [done|done|]. intros x Hx. destruct (Hl x Hx). done. }
  clearbody a1. set (a2 := if negb (n =? UTAMO_HEAP_NONE) then _ else _).
  assert (relinked bl a1 a2 /\ hc_free_head (ar_heap a2) = hc_free_head (ar_heap a1) /\
    forall x, placed bl x -> fnext a2 x = fnext a1 x /\
      fprev a2 x = if negb (n =? UTAMO_HEAP_NONE) && (x =? n) then p else fprev a1 x) as (R2 & H2 & L2).
  { unfold a2. destruct (Z.eqb_spec n UTAMO_HEAP_NONE) as [E|E]; cbn [negb andb].
    - split_and!; [apply relinked_refl|done|done].
    - destruct Hn as [|Hn]; [done|]. destruct (store_prev_links bl Hok a1 n p Hn Hpu) as [? Hl].
      split_and!; [done|done|]. intros x Hx. destruct (Hl x Hx). done. }
  clearbody a2.
  destruct (store_prev_links bl Hok a2 o UTAMO_HEAP_NONE Ho none_ok) as [R3 L3].
  destruct (store_next_links bl Hok (set_free_prev o UTAMO_HEAP_NONE a2) o UTAMO_HEAP_NONE Ho none_ok) as [R4 L4].
  split_and!.
  - eapply relinked_trans; [exact R1|]. eapply relinked_trans; [exact R2|]. by eapply relinked_trans.
  - rewrite <- H1, <- H2. done.
  - intros x Hx. destruct (L4 x Hx) as [-> ->], (L3 x Hx) as [-> ->], (L2 x Hx) as [-> ->], (L1 x Hx) as [-> ->].
    split; destruct (Z.eqb_spec x o) as [->|]; try done.
Qed.

Lemma sorted_mid l1 (o : Z) l2 : StronglySorted Z.lt (l1 ++ o :: l2) ->
  (forall x, x ∈ l1 -> x < o) /\ (forall x, x ∈ l2 -> o < x) /\ StronglySorted Z.lt (l1 ++ l2).
Proof.
  intros (S1 & S2 & S3)%sorted_app_inv. apply sorted_cons_inv in S2 as [S2 S4].
  split_and!; [intros x Hx; apply S3; [done|by left]|done|].
  apply sorted_app_inv. split_and!; try done. intros x y Hx Hy. apply S3; [done|by right].
Qed.

(** A list whose middle element [o] is taken out: [p] and [n] are linked. *)
Lemma dseg_remove a a' (l1 : list Z) o l2 lp head head' :
  dseg a UTAMO_HEAP_NONE head (l1 ++ o :: l2) lp UTAMO_HEAP_NONE ->
  StronglySorted Z.lt (l1 ++ o :: l2) -> (forall x, x ∈ l1 ++ o :: l2 -> x <> UTAMO_HEAP_NONE) ->
  head' = (if fprev a o =? UTAMO_HEAP_NONE then fnext a o else head) ->
  (forall x, x ∈ l1 ++ o :: l2 -> x <> o ->
    fprev a' x = (if negb (fnext a o =? UTAMO_HEAP_NONE) && (x =? fnext a o) then fprev a o else fprev a x) /\
    fnext a' x = (if negb (fprev a o =? UTAMO_HEAP_NONE) && (x =? fprev a o) then fnext a o else fnext a x)) ->
  exists lp', dseg a' UTAMO_HEAP_NONE head' (l1 ++ l2) lp' UTAMO_HEAP_NONE.
Proof.
  intros Hd Hs Hnn Hh Hl. apply dseg_app in Hd as (p & c & Hd1 & -> & Hp & Hd2). fold (fprev a o) in Hp. fold (fnext a o) in Hd2.
  rewrite Hp in *. set (n := fnext a o) in *. clearbody n. destruct (sorted_mid _ _ _ Hs) as (Hs1 & Hs2 & _).
  pose proof (dseg_head _ _ _ _ _ _ Hd2) as Hn. pose proof (dseg_last _ _ _ _ _ _ Hd1) as Hpl.
  assert (forall x, x ∈ l1 -> fprev a' x = fprev a x /\ (x <> p -> fnext a' x = fnext a x)) as Hl1.
  { intros x Hx. pose proof (Hs1 x Hx). destruct (Hl x) as [-> ->]; [apply elem_of_app; by left|lia|].
    split.
    - destruct (Z.eqb_spec n UTAMO_HEAP_NONE) as [|Hnn']; [done|]. destruct (Z.eqb_spec x n) as [E|]; [|done].
      destruct l2 as [|m l2]; [done|]. cbn in Hn. pose proof (Hs2 m ltac:(by left)). lia.
    - intros Hxp. destruct (Z.eqb_spec x p); [done|]. by rewrite andb_false_r. }
  assert (forall x, x ∈ l2 -> fnext a' x = fnext a x /\ (x <> n -> fprev a' x = fprev a x)) as Hl2.
  { intros x Hx. pose proof (Hs2 x Hx). destruct (Hl x) as [-> ->]; [apply elem_of_app; right; by right|lia|].
    split.
    - destruct (Z.eqb_spec p UTAMO_HEAP_NONE) as [|Hpp]; [done|]. destruct (Z.eqb_spec x p) as [E|]; [|done].
      destruct (list.last l1) as [q|] eqn:Eq; [|done]. cbn in Hpl. subst q.
      apply last_Some in Eq as [l' ->]. pose proof (Hs1 p ltac:(apply elem_of_app; right; by left)). lia.
    - intros Hxn. destruct (Z.eqb_spec x n); [done|]. by rewrite andb_false_r. }
  assert (exists lp', dseg a' p n l2 lp' UTAMO_HEAP_NONE) as [lp' Hd2'].
  { destruct l2 as [|m l2]; [by exists p; cbn|]. cbn in Hn. exists lp. rewrite Hn in *.
    eapply dseg_first; [| | |exact Hd2].
    - destruct (Hl m) as [-> _]; [apply elem_of_app; right; right; by left| |].
      + pose proof (Hs2 m ltac:(by left)). lia.
      + rewrite Z.eqb_refl, andb_true_r. destruct (Z.eqb_spec m UTAMO_HEAP_NONE); [|done].
        exfalso. apply (Hnn m); [|done]. apply elem_of_app. right. right. by left.
    - apply Hl2. by left.
    - intros x Hx. destruct (Hl2 x) as [? Hpx]; [by right|]. split; [|done]. apply Hpx. intros ->.
      apply sorted_app_inv in Hs as (_ & [Hs _]%sorted_cons_inv & _). apply sorted_cons_inv in Hs as [_ Hs].
      specialize (Hs m Hx). lia. }
  exists lp'. apply dseg_app. exists p, n. split; [|done].
  destruct (list.last l1) as [q|] eqn:Eq; cycle 1.
  { apply last_None in Eq as ->. destruct Hd1 as [<- _]. rewrite Z.eqb_refl in Hh. by subst. }
  cbn in Hpl. subst q. apply last_Some in Eq as [l' ->].
  assert (p ≠ UTAMO_HEAP_NONE) as Hpn.
  { apply Hnn. rewrite !elem_of_app. left. right. by left. }
  apply Z.eqb_neq in Hpn as Hpn'. rewrite Hpn' in Hh. subst head'.
  eapply dseg_relast; [| | |exact Hd1].
  - apply Hl1. apply elem_of_app. right. by left.
  - destruct (Hl p) as [_ ->]; [rewrite !elem_of_app; left; right; by left| |by rewrite Hpn', Z.eqb_refl].
    pose proof (Hs1 p ltac:(apply elem_of_app; right; by left)). lia.
  - intros x Hx. destruct (Hl1 x) as [? Hpx]; [apply elem_of_app; by left|]. split; [done|]. apply Hpx. intros ->.
    rewrite <- app_assoc in Hs. apply sorted_app_inv in Hs as (_ & _ & Hs).
    specialize (Hs p p Hx ltac:(apply elem_of_app; left; by left)). lia.
Qed.

Lemma remove_free_spec a bl l1 o l2 : hrep a bl (l1 ++ o :: l2) ->
  hrep (remove_free a o) bl (l1 ++ l2) /\ relinked bl a (remove_free a o).
Proof.
  intros Hr. pose proof Hr as []. destruct hr_list as [lp Hd].
  assert (forall x, x ∈ l1 ++ o :: l2 -> x <> UTAMO_HEAP_NONE) as Hnn.
  { intros x Hx. pose proof (fl_not_none a bl _ x Hr (hr_in x Hx)). lia. }
  assert (placed bl o) as Ho by (apply hr_in, elem_of_app; right; by left).
  pose proof Hd as (p & c & Hd1 & -> & Hp & Hd2)%dseg_app. fold (fprev a o) in Hp. fold (fnext a o) in Hd2.
  destruct (remove_links a bl o hr_ok Ho) as (Hrl & Hh & Hl).
  { rewrite Hp. rewrite (dseg_last _ _ _ _ _ _ Hd1). destruct (list.last l1) as [q|] eqn:Eq; [right|by left].
    apply last_Some in Eq as [l' ->]. apply hr_in. rewrite !elem_of_app. left. right. by left. }
  { rewrite (dseg_head _ _ _ _ _ _ Hd2). destruct l2 as [|m l2]; [by left|right]. cbn. apply hr_in.
    apply elem_of_app. right. right. by left. }
  split; [|done]. destruct (sorted_mid _ _ _ hr_sorted) as (Hs1 & Hs2 & Hs3).
  apply (hrep_relink a _ bl (l1 ++ o :: l2)); try done.
  - eapply dseg_remove; try done. intros x Hx Hxo. destruct (Hl x) as [-> ->]; [by apply hr_in|].
    destruct (Z.eqb_spec x o); [done|]. done.
  - intros x Hx. apply hr_in. apply elem_of_app in Hx as [|]; apply elem_of_app; [by left|right; by right].
  - intros x Hx Hnx. unfold unlinked. fold (fprev (remove_free a o) x) (fnext (remove_free a o) x).
    destruct (Hl x Hx) as [-> ->]. destruct (Z.eqb_spec x o) as [->|Hxo]; [done|].
    assert (x ∉ l1 ++ o :: l2) as Hnx'.
    { intros Hin. apply Hnx. rewrite elem_of_app, elem_of_cons in *. tauto. }
    destruct Hx as (pv & b & Hx). destruct (hr_out x pv b Hx Hnx') as [E1 E2]. fold (fprev a x) in E1. fold (fnext a x) in E2.
    rewrite E1, E2, Hp. split; [destruct (_ && (x =? fnext a o)) eqn:Eb|destruct (_ && (x =? p)) eqn:Eb]; try done; exfalso.
    + rewrite andb_true_iff, Z.eqb_eq in Eb. destruct Eb as [Eb1 ->]. rewrite (dseg_head _ _ _ _ _ _ Hd2) in *.
      destruct l2 as [|m l2]; [done|]. cbn in *. apply Hnx. apply elem_of_app. right. by left.
    + rewrite andb_true_iff, Z.eqb_eq in Eb. destruct Eb as [Eb1 ->]. rewrite (dseg_last _ _ _ _ _ _ Hd1) in *.
      destruct (list.last l1) as [q|] eqn:Eq; [|done]. cbn in *. apply last_Some in Eq as [l' ->].
      apply Hnx. rewrite !elem_of_app. left. right. by left.
Qed.

(** ** Inserting a block *)

Lemma insert_position_spec a o l1 l2 lp : forall steps prior cur,
  dseg a prior cur (l1 ++ l2) lp UTAMO_HEAP_NONE -> (forall x, x ∈ l1 -> x < o) -> (forall x, x ∈ l2 -> o < x) ->
  (forall x, x ∈ l1 -> x <> UTAMO_HEAP_NONE) -> (length l1 < steps)%nat ->
  exists p c, insert_position steps a o prior cur = (p, c) /\ dseg a prior cur l1 p c /\ dseg a p c l2 lp UTAMO_HEAP_NONE.
Proof.
  induction l1 as [|q l1 IH]; intros steps prior cur Hd H1 H2 Hn Hlen; (destruct steps as [|steps]; [cbn in Hlen; lia|]);
    cbn [insert_position app] in *.
  - exists prior, cur. split_and!; try done.
    pose proof (dseg_head _ _ _ _ _ _ Hd) as ->. destruct l2 as [|m l2]; [done|].
    change (default UTAMO_HEAP_NONE (head (m :: l2))) with m.
    pose proof (H2 m ltac:(by left)). destruct (Z.ltb_spec m o); [lia|]. by rewrite andb_false_r.
  - destruct Hd as (-> & Hp & Hd). pose proof (H1 q ltac:(by left)). pose proof (Hn q ltac:(by left)) as Hqn.
    apply Z.eqb_neq in Hqn. rewrite Hqn. destruct (Z.ltb_spec q o); [|lia]. cbn [negb andb dseg].
    destruct (IH steps q (hb_free_next (block_at a q)) Hd) as (p & c & E & Hd1 & Hd2); try done.
    + intros x Hx. apply H1. by right.
    + intros x Hx. apply Hn. by right.
    + cbn in Hlen. lia.
    + exists p, c. by split_and!.
Qed.

Lemma insert_links a bl o p c : Forall blk_ok bl -> placed bl o ->
  (p = UTAMO_HEAP_NONE \/ placed bl p) -> (c = UTAMO_HEAP_NONE \/ placed bl c) -> u64_ok p -> u64_ok c -> u64_ok o ->
  insert_position (max_blocks a) a o UTAMO_HEAP_NONE (hc_free_head (ar_heap a)) = (p, c) ->
  let a' := insert_free a o in
  relinked bl a a' /\
  hc_free_head (ar_heap a') = (if p =? UTAMO_HEAP_NONE then o else hc_free_head (ar_heap a)) /\
  forall x, placed bl x ->
    fprev a' x = (if negb (c =? UTAMO_HEAP_NONE) && (x =? c) then o else if x =? o then p else fprev a x) /\
    fnext a' x = (if negb (p =? UTAMO_HEAP_NONE) && (x =? p) then o else if x =? o then c else fnext a x).
Proof.
  intros Hok Ho Hp Hc Hpu Hcu Hou E. unfold insert_free. rewrite E.
  destruct (store_prev_links bl Hok a o p Ho Hpu) as [R1 L1].
  destruct (store_next_links bl Hok (set_free_prev o p a) o c Ho Hcu) as [R2 L2].
  set (a1 := set_free_next o c _) in *.
  assert (hc_free_head (ar_heap a1) = hc_free_head (ar_heap a)) as H1 by done. clearbody a1.
  set (a2 := if p =? UTAMO_HEAP_NONE then _ else _).
  assert (relinked bl a1 a2 /\ hc_free_head (ar_heap a2) = (if p =? UTAMO_HEAP_NONE then o else hc_free_head (ar_heap a1)) /\
    forall x, placed bl x -> fprev a2 x = fprev a1 x /\
      fnext a2 x = if negb (p =? UTAMO_HEAP_NONE) && (x =? p) then o else fnext a1 x) as (R3 & H2 & L3).
  { unfold a2. destruct (Z.eqb_spec p UTAMO_HEAP_NONE) as [E'|E']; cbn [negb andb].
    - split_and!; [apply relinked_head|done|done].
    - destruct Hp as [|Hp]; [done|]. destruct (store_next_links bl Hok a1 p o Hp Hou) as [? Hl].
      split_and!; [done|done|]. intros x Hx. destruct (Hl x Hx). done. }
  clearbody a2. set (a3 := if negb (c =? UTAMO_HEAP_NONE) then _ else _).
  assert (relinked bl a2 a3 /\ hc_free_head (ar_heap a3) = hc_free_head (ar_heap a2) /\
    forall x, placed bl x -> fnext a3 x = fnext a2 x /\
      fprev a3 x = if negb (c =? UTAMO_HEAP_NONE) && (x =? c) then o else fprev a2 x) as (R4 & H3 & L4).
  { unfold a3. destruct (Z.eqb_spec c UTAMO_HEAP_NONE) as [E'|E']; cbn [negb andb].
    - split_and!; [apply relinked_refl|done|done].
    - destruct Hc as [|Hc]; [done|]. destruct (store_prev_links bl Hok a2 c o Hc Hou) as [? Hl].
      split_and!; [done|done|]. intros x Hx. destruct (Hl x Hx). done. }
  clearbody a3. split_and!.
  - eapply relinked_trans; [exact R1|]. eapply relinked_trans; [exact R2|]. by eapply relinked_trans.
  - by rewrite H3, H2, H1.
  - intros x Hx. by destruct (L4 x Hx) as [-> ->], (L3 x Hx) as [-> ->], (L2 x Hx) as [-> ->], (L1 x Hx) as [-> ->].
Qed.

Lemma dseg_insert a a' (l1 : list Z) o l2 p c lp head head' :
  dseg a UTAMO_HEAP_NONE head l1 p c -> dseg a p c l2 lp UTAMO_HEAP_NONE ->
  StronglySorted Z.lt (l1 ++ o :: l2) -> (forall x, x ∈ l1 ++ l2 -> x <> UTAMO_HEAP_NONE) ->
  head' = (if p =? UTAMO_HEAP_NONE then o else head) ->
  fprev a' o = p -> fnext a' o = c ->
  (forall x, x ∈ l1 ++ l2 ->
    fprev a' x = (if negb (c =? UTAMO_HEAP_NONE) && (x =? c) then o else fprev a x) /\
    fnext a' x = (if negb (p =? UTAMO_HEAP_NONE) && (x =? p) then o else fnext a x)) ->
  exists lp', dseg a' UTAMO_HEAP_NONE head' (l1 ++ o :: l2) lp' UTAMO_HEAP_NONE.
Proof.
  intros Hd1 Hd2 Hs Hnn Hh Eo1 Eo2 Hl. destruct (sorted_mid _ _ _ Hs) as (Hs1 & Hs2 & Hs3).
  pose proof (dseg_head _ _ _ _ _ _ Hd2) as Hc. pose proof (dseg_last _ _ _ _ _ _ Hd1) as Hp.
  apply sorted_app_inv in Hs3 as (Hs4 & Hs5 & Hs6).
  assert (forall x, x ∈ l1 -> fprev a' x = fprev a x /\ (x <> p -> fnext a' x = fnext a x)) as Hl1.
  { intros x Hx. destruct (Hl x) as [-> ->]; [apply elem_of_app; by left|]. split.
    - destruct (Z.eqb_spec c UTAMO_HEAP_NONE); [done|]. destruct (Z.eqb_spec x c) as [E|]; [|done].
      destruct l2 as [|m l2]; [done|]. cbn in Hc. pose proof (Hs6 x m Hx ltac:(by left)). lia.
    - intros Hxp. destruct (Z.eqb_spec x p); [done|]. by rewrite andb_false_r. }
  assert (forall x, x ∈ l2 -> fnext a' x = fnext a x /\ (x <> c -> fprev a' x = fprev a x)) as Hl2.
  { intros x Hx. destruct (Hl x) as [-> ->]; [apply elem_of_app; by right|]. split.
    - destruct (Z.eqb_spec p UTAMO_HEAP_NONE); [done|]. destruct (Z.eqb_spec x p) as [E|]; [|done].
      destruct (list.last l1) as [q|] eqn:Eq; [|done]. cbn in Hp. rewrite <- Hp in Eq.
      apply last_Some in Eq as [l' ->]. pose proof (Hs6 p x ltac:(apply elem_of_app; right; by left) Hx). lia.
    - intros Hxc. destruct (Z.eqb_spec x c); [done|]. by rewrite andb_false_r. }
  assert (exists lp', dseg a' o c l2 lp' UTAMO_HEAP_NONE) as [lp' Hd2'].
  { destruct l2 as [|m l2]; [by exists o; cbn|]. cbn in Hc. exists lp.
    eapply dseg_first; [| | |exact Hd2].
    - destruct (Hl m) as [-> _]; [apply elem_of_app; right; by left|].
      rewrite Hc, Z.eqb_refl, andb_true_r. destruct (Z.eqb_spec m UTAMO_HEAP_NONE) as [E|]; [|done].
      exfalso. apply (Hnn m); [|done]. apply elem_of_app. right. by left.
    - apply Hl2. by left.
    - intros x Hx. destruct (Hl2 x) as [? Hpx]; [by right|]. split; [|done]. apply Hpx. rewrite Hc. intros ->.
      apply sorted_cons_inv in Hs5 as [_ Hs5]. specialize (Hs5 m Hx). lia. }
  exists lp'. apply dseg_app. exists p, o. cbn [dseg]. fold (fprev a' o) (fnext a' o). rewrite Eo1, Eo2.
  split_and!; try done. destruct (list.last l1) as [q|] eqn:Eq; cycle 1.
  { apply last_None in Eq as ->. destruct Hd1 as [Hd1 _]. rewrite <- Hd1, Z.eqb_refl in Hh. by cbn. }
  cbn in Hp. rewrite <- Hp in Eq. apply last_Some in Eq as [l' ->].
  assert (p ≠ UTAMO_HEAP_NONE) as Hpn.
  { apply Hnn. rewrite !elem_of_app. left. right. by left. }
  apply Z.eqb_neq in Hpn as Hpn'. rewrite Hpn' in Hh. subst head'.
  eapply dseg_relast; [| | |exact Hd1].
  - apply Hl1. apply elem_of_app. right. by left.
  - destruct (Hl p) as [_ ->]; [rewrite !elem_of_app; left; right; by left|by rewrite Hpn', Z.eqb_refl].
  - intros x Hx. destruct (Hl1 x) as [? Hpx]; [apply elem_of_app; by left|]. split; [done|]. apply Hpx. intros ->.
    apply sorted_app_inv in Hs4 as (_ & _ & Hs4). specialize (Hs4 p p Hx ltac:(by left)). lia.
Qed.

Lemma insert_free_spec a bl l1 o l2 : hrep a bl (l1 ++ l2) -> placed bl o -> o ∉ l1 ++ l2 ->
  (forall x, x ∈ l1 -> x < o) -> (forall x, x ∈ l2 -> o < x) ->
  hrep (insert_free a o) bl (l1 ++ o :: l2) /\ relinked bl a (insert_free a o).
Proof.
  intros Hr Ho Hno Hs1 Hs2. pose proof Hr as []. destruct hr_list as [lp Hd].
  assert (forall x, x ∈ l1 ++ l2 -> 0 <= x < UTAMO_HEAP_NONE) as Hnn.
  { intros x Hx. by apply (fl_not_none a bl _ x Hr (hr_in x Hx)). }
  assert (StronglySorted Z.lt (l1 ++ o :: l2)) as Hs.
  { apply sorted_app_inv in hr_sorted as (S1 & S2 & S3). apply sorted_app_inv. split_and!; [done| |].
    - constructor; [done|]. by apply Forall_forall.
    - intros x y Hx [->|Hy]%elem_of_cons; [by apply Hs1|by apply S3]. }
  pose proof (hrep_length _ _ _ Hr). pose proof (hrep_fl_length _ _ _ Hr) as Hfl. rewrite length_app in Hfl.
  destruct (insert_position_spec a o l1 l2 lp (max_blocks a) UTAMO_HEAP_NONE (hc_free_head (ar_heap a)))
    as (p & c & E & Hd1 & Hd2); try done; try lia.
  { intros x Hx. pose proof (Hnn x ltac:(apply elem_of_app; by left)). lia. }
  assert (p = UTAMO_HEAP_NONE \/ p ∈ l1) as Hp.
  { rewrite (dseg_last _ _ _ _ _ _ Hd1). destruct (list.last l1) as [q|] eqn:Eq; [right|by left].
    apply last_Some in Eq as [l' ->]. apply elem_of_app. right. by left. }
  assert (c = UTAMO_HEAP_NONE \/ c ∈ l2) as Hc.
  { rewrite (dseg_head _ _ _ _ _ _ Hd2). destruct l2 as [|m l2]; [by left|right]. by left. }
  pose proof (fl_not_none a bl _ o Hr Ho) as Hob.
  assert (forall x, x = UTAMO_HEAP_NONE \/ 0 <= x < UTAMO_HEAP_NONE -> u64_ok x) as Hu.
  { unfold u64_ok, UTAMO_HEAP_NONE, SIZE_MAX, UINT64_MAX. lia. }
  destruct (insert_links a bl o p c hr_ok Ho) as (Hrl & Hh & Hl); try done.
  { destruct Hp as [|Hp]; [by left|right]. apply hr_in, elem_of_app. by left. }
  { destruct Hc as [|Hc]; [by left|right]. apply hr_in, elem_of_app. by right. }
  { apply Hu. destruct Hp as [|Hp]; [by left|right]. apply Hnn, elem_of_app. by left. }
  { apply Hu. destruct Hc as [|Hc]; [by left|right]. apply Hnn, elem_of_app. by right. }
  { apply Hu. by right. }
  assert (forall x, x ∈ l1 ++ l2 -> x <> o) as Hxo by (intros x Hx ->; done).
  split; [|done]. apply (hrep_relink a _ bl (l1 ++ l2)); try done.
  - destruct (Hl o Ho) as [Eo1 Eo2]. rewrite Z.eqb_refl in Eo1, Eo2.
    eapply dseg_insert; try done.
    + intros x Hx. specialize (Hnn x Hx). lia.
    + rewrite Eo1. destruct (Z.eqb_spec o c) as [<-|]; [|by rewrite andb_false_r].
      destruct Hc as [->|Hc]; [lia|]. specialize (Hs2 _ Hc). lia.
    + rewrite Eo2. destruct (Z.eqb_spec o p) as [<-|]; [|by rewrite andb_false_r].
      destruct Hp as [->|Hp]; [lia|]. specialize (Hs1 _ Hp). lia.
    + intros x Hx. destruct (Hl x) as [-> ->]; [by apply hr_in|].
      destruct (Z.eqb_spec x o) as [->|]; [done|]. done.
  - intros x Hx. rewrite elem_of_app, elem_of_cons in Hx. destruct Hx as [Hx|[->|Hx]]; [|done|]; apply hr_in, elem_of_app; tauto.
  - intros x Hx Hnx. unfold unlinked. fold (fprev (insert_free a o) x) (fnext (insert_free a o) x).
    rewrite elem_of_app, elem_of_cons in Hnx.
    destruct (Hl x Hx) as [-> ->]. destruct (Z.eqb_spec x o) as [->|_]; [tauto|].
    destruct Hx as (pv & b & Hx). destruct (hr_out x pv b Hx) as [E1 E2]; [rewrite elem_of_app; tauto|].
    fold (fprev a x) in E1. fold (fnext a x) in E2. rewrite E1, E2.
    split; [destruct (Z.eqb_spec c UTAMO_HEAP_NONE), (Z.eqb_spec x c)|destruct (Z.eqb_spec p UTAMO_HEAP_NONE), (Z.eqb_spec x p)];
      cbn [negb andb]; try done; subst x; exfalso; tauto.
Qed.

(** ** The walks *)

Lemma find_fit_from_spec a needed fl lp : forall steps prior cur,
  dseg a prior cur fl lp UTAMO_HEAP_NONE -> (forall x, x ∈ fl -> x <> UTAMO_HEAP_NONE) -> (length fl < steps)%nat ->
  find_fit_from steps a needed cur =
  default UTAMO_HEAP_NONE (List.find (fun o => needed <=? block_size (block_at a o)) fl).
Proof.
  induction fl as [|o fl IH]; intros steps prior cur Hd Hn Hlen; (destruct steps as [|steps]; [cbn in Hlen; lia|]);
    cbn [find_fit_from List.find].
  - destruct Hd as [_ ->]. by rewrite Z.eqb_refl.
  - destruct Hd as (-> & _ & Hd). pose proof (Hn o ltac:(by left)) as Ho. apply Z.eqb_neq in Ho. rewrite Ho.
    destruct (needed <=? block_size (block_at a o)); [done|]. apply (IH steps o); [done| |cbn in Hlen; lia].
    intros x Hx. apply Hn. by right.
Qed.

Lemma find_fit_spec a bl fl needed : hrep a bl fl ->
  find_fit a needed = default UTAMO_HEAP_NONE (List.find (fun o => needed <=? block_size (block_at a o)) fl).
Proof.
  intros Hr. pose proof Hr as []. destruct hr_list as [lp Hd]. unfold find_fit. eapply find_fit_from_spec; [done| |].
  - intros x Hx. pose proof (fl_not_none a bl _ x Hr (hr_in x Hx)). lia.
  - pose proof (hrep_length _ _ _ Hr). pose proof (hrep_fl_length _ _ _ Hr). lia.
Qed.

Lemma exact_block_from_spec a target bl : forall steps o pv,
  (forall e, e ∈ place o pv bl -> hdr a e) -> Forall blk_ok bl -> 0 <= o -> o + bsum bl = hc_mapped_size (ar_heap a) ->
  hc_mapped_size (ar_heap a) <= UINT64_MAX -> (length bl < steps)%nat ->
  exact_block_from steps a target o = true <-> exists pv' b, (target, pv', b) ∈ place o pv bl.
Proof.
  induction bl as [|b bl IH]; intros steps o pv Hh Hok Ho Hsz Hmx Hlen; (destruct steps as [|steps]; [cbn in Hlen; lia|]);
    cbn [exact_block_from place].
  - cbn in Hsz. destruct (Z.leb_spec (hc_mapped_size (ar_heap a)) o); [|lia]. split; [done|]. by intros (? & ? & ?%elem_of_nil).
  - apply Forall_cons in Hok as [Hb Hok]. rewrite bsum_cons in Hsz. pose proof (bsum_nonneg bl Hok). pose proof Hb as (Hb1 & _).
    destruct (Z.leb_spec (hc_mapped_size (ar_heap a)) o); [lia|].
    rewrite (hdr_size a o pv b) by (done || apply Hh; by left).
    destruct (Z.eqb_spec o target) as [->|Hne].
    + split; [|done]. intros _. exists pv, b. by left.
    + rewrite u64_small by (unfold u64_ok; lia). rewrite (IH steps _ (bk_size b)); try done; try lia; cycle 1.
      { intros e He. apply Hh. by right. }
      { cbn in Hlen. lia. }
      setoid_rewrite elem_of_cons. split; [by intros (p' & b' & ?); exists p', b'; right|].
      intros (p' & b' & [[= -> -> ->]|?]); [done|by exists p', b'].
Qed.

Lemma exact_block_spec a bl fl target : hrep a bl fl ->
  exact_block a target = true <-> placed bl target.
Proof.
  intros Hr. pose proof Hr as []. pose proof (hrep_bounds _ _ _ Hr) as Hb.
  apply exact_block_from_spec; try done; [|by apply hrep_length in Hr].
  unfold UTAMO_HEAP_NONE, SIZE_MAX in Hb. lia.
Qed.

Lemma last_block_from_spec a pre b : forall steps o pv,
  (forall e, e ∈ place o pv (pre ++ [b]) -> hdr a e) -> Forall blk_ok (pre ++ [b]) -> 0 <= o ->
  o + bsum (pre ++ [b]) = hc_mapped_size (ar_heap a) ->
  hc_mapped_size (ar_heap a) <= UINT64_MAX -> (length pre < steps)%nat ->
  last_block_from steps a o = o + bsum pre.
Proof.
  induction pre as [|c pre IH]; intros steps o pv Hh Hok Ho Hsz Hmx Hlen; (destruct steps as [|steps]; [cbn in Hlen; lia|]);
    cbn [last_block_from app] in *.
  - apply Forall_cons in Hok as [Hb _]. pose proof Hb as (? & _). rewrite bsum_cons in Hsz. cbn in Hsz.
    rewrite (hdr_size a o pv b) by (done || apply Hh; by left). rewrite u64_small by (unfold u64_ok; lia).
    destruct (Z.ltb_spec (o + bk_size b) (hc_mapped_size (ar_heap a))); [lia|]. cbn. lia.
  - apply Forall_cons in Hok as [Hb Hok]. pose proof Hb as (? & _). rewrite bsum_cons in Hsz |- *.
    pose proof (bsum_length _ Hok) as Hl. rewrite length_app in Hl. cbn [length] in Hl, Hlen.
    rewrite (hdr_size a o pv c) by (done || apply Hh; by left). rewrite u64_small by (unfold u64_ok; lia).
    destruct (Z.ltb_spec (o + bk_size c) (hc_mapped_size (ar_heap a))); [|lia].
    rewrite (IH steps _ (bk_size c)); try done; try lia. intros e He. apply Hh. by right.
Qed.

Lemma last_block_spec a pre b fl : hrep a (pre ++ [b]) fl -> last_block a = bsum pre.
Proof.
  intros Hr. pose proof Hr as []. pose proof (hrep_bounds _ _ _ Hr) as Hb. unfold last_block.
  rewrite (last_block_from_spec a pre b _ 0 0); try done.
  - unfold UTAMO_HEAP_NONE, SIZE_MAX in Hb. lia.
  - pose proof (hrep_length _ _ _ Hr) as Hl. rewrite length_app in Hl. lia.
Qed.

Lemma free_stats_spec a fl lp : forall steps prior cur free largest,
  dseg a prior cur fl lp UTAMO_HEAP_NONE -> (forall x, x ∈ fl -> x <> UTAMO_HEAP_NONE) -> (length fl < steps)%nat ->
  free_stats steps a cur free largest =
  foldl (fun '(f, l) o => let bytes := block_size (block_at a o) -u BLOCK_BYTES in
           (f +u bytes, if l <? bytes then bytes else l)) (free, largest) fl.
Proof.
  induction fl as [|o fl IH]; intros steps prior cur free largest Hd Hn Hlen; (destruct steps as [|steps]; [cbn in Hlen; lia|]);
    cbn [free_stats foldl].
  - destruct Hd as [_ ->]. by rewrite Z.eqb_refl.
  - destruct Hd as (-> & _ & Hd). pose proof (Hn o ltac:(by left)) as Ho. apply Z.eqb_neq in Ho. rewrite Ho.
    apply (IH steps o); [done| |cbn in Hlen; lia]. intros x Hx. apply Hn. by right.
Qed.
End links.
