(* ===== verification/HeapBlocks.v ===== *)
(** * The kernel heap: splitting and merging blocks

    Operations replace a segment of the block list by another one of the same
    length in bytes.  [hrep_replace] says what memory has to look like
    afterwards; the lemmas after it establish that for the stores of the code. *)

From stdpp Require Import sorting.
From S2P Require Import Prelude Bytes HeapCore HeapInv HeapLinks.
Open Scope Z_scope.

Lemma free_offs_pv o pv pv' bl : free_offs o pv bl = free_offs o pv' bl.
Proof. by destruct bl. Qed.

Lemma free_offs_cons o pv b bl : free_offs o pv (b :: bl) =
  (if bk_used b then [] else [o]) ++ free_offs (o + bk_size b) (bk_size b) bl.
Proof. unfold free_offs. cbn [place omap list_omap]. by destruct (bk_used b). Qed.

Lemma free_offs_range o pv bl x : Forall blk_ok bl -> x ∈ free_offs o pv bl -> o <= x /\ x + 64 <= o + bsum bl.
Proof.
  intros Hok (p & b & Hin & _)%elem_of_free_offs. apply place_range in Hin as (Hb & H1 & H2 & _); [|done].
  pose proof (proj1 (Forall_forall _ _) Hok b Hb) as (? & _). lia.
Qed.

Section blocks.
Context {C : Type} `{HeapOps C}.
Implicit Types a : arena C.

Lemma hdr_block a a' o pv b : hc_base (ar_heap a') = hc_base (ar_heap a) -> block_at a' o = block_at a o ->
  hdr a (o, pv, b) -> hdr a' (o, pv, b).
Proof. unfold hdr, block_cookie. by intros -> ->. Qed.

(** A state that differs outside the headers. *)
Lemma hrep_frame a a' bl fl (P : Z -> Prop) : hrep a bl fl -> ar_heap a' = ar_heap a -> only P a a' ->
  (forall x, P x -> ~ hdrs a bl x) -> hrep a' bl fl.
Proof.
  intros Hr Eh Ho Hn. pose proof Hr as [].
  assert (forall o, placed bl o -> block_at a' o = block_at a o) as Hb.
  { intros o Hp. apply (block_at_only P); [done|by rewrite Eh|]. intros x Hx HP. apply (Hn x HP). by exists o. }
  constructor; rewrite ?Eh; try done.
  - intros [[o pv] b] He. eapply (hdr_block a); [by rewrite Eh|apply Hb; by exists pv, b|by apply hr_hdr].
  - destruct hr_list as [lp Hd]. exists lp. rewrite Eh. eapply dseg_frame; [|done]. intros o Hin.
    unfold fprev, fnext. rewrite Hb; [done|]. by apply hr_in.
  - intros o pv b He Hnf. unfold unlinked. rewrite Hb by by exists pv, b. by eapply hr_out.
Qed.

(** The bookkeeping fields are not part of the representation. *)
Lemma hrep_heap a h bl fl : hrep a bl fl -> ctx_ok h -> hc_base h = hc_base (ar_heap a) ->
  hc_mapped_size h = hc_mapped_size (ar_heap a) -> hc_free_head h = hc_free_head (ar_heap a) ->
  hrep (MkArena h (ar_mem a) (ar_ctx a)) bl fl.
Proof.
  intros [] Hc Eb Em Ef. set (a' := MkArena h _ _).
  assert (forall o, block_at a' o = block_at a o) as Hb.
  { intros o. apply block_at_mem; done. }
  constructor; try done.
  - cbn. by rewrite Em.
  - intros [[o pv] b] He. eapply (hdr_block a); [done|apply Hb|by apply hr_hdr].
  - destruct hr_list as [lp Hd]. exists lp. cbn. rewrite Ef. eapply dseg_frame; [|done]. intros o Hin.
    unfold fprev, fnext. by rewrite Hb.
  - intros o pv b He Hnf. unfold unlinked. rewrite Hb. by eapply hr_out.
Qed.

Section replace.
Context (a a' : arena C) (pre seg seg' post : list blk) (fl : list Z).
Context (Hr : hrep a (pre ++ seg ++ post) fl).
Notation o := (bsum pre).
Notation pv := (last_size 0 pre).
Context (Hctx : ctx_ok (ar_heap a')) (Hbase : hc_base (ar_heap a') = hc_base (ar_heap a)).
Context (Hhead : hc_free_head (ar_heap a') = hc_free_head (ar_heap a)).
Context (Hsize : bsum (pre ++ seg' ++ post) = hc_mapped_size (ar_heap a')).
Context (Htotal : post = [] \/ bsum seg' = bsum seg) (Hok' : Forall blk_ok seg').
Context (Hfl : forall x, x ∈ fl -> x < o \/ o + bsum seg <= x).
Context (Hpre : forall e, e ∈ place 0 0 pre -> block_at a' (fst (fst e)) = block_at a (fst (fst e))).
Context (Hseg : forall e, e ∈ place o pv seg' -> hdr a' e /\ unlinked a' (fst (fst e))).
Context (Hpost : match post with
  | [] => True
  | c :: rest =>
      block_at a' (o + bsum seg) = (let b := block_at a (o + bsum seg) in
        MkBlock (hb_size_flags b) (last_size pv seg') (hb_requested b) (hb_free_prev b) (hb_free_next b) (hb_cookie b)) /\
      forall e, e ∈ place (o + bsum seg + bk_size c) (bk_size c) rest -> block_at a' (fst (fst e)) = block_at a (fst (fst e))
  end).

Lemma replace_ok : Forall blk_ok pre /\ Forall blk_ok seg /\ Forall blk_ok post.
Proof using Hr. destruct Hr. by rewrite !Forall_app in hr_ok. Qed.

(** Each block of the new list is new, or was there, at the same place. *)
Lemma replace_place e : e ∈ place 0 0 (pre ++ seg' ++ post) ->
  e ∈ place o pv seg' \/
  exists pv0, (fst (fst e), pv0, snd e) ∈ place 0 0 (pre ++ seg ++ post) /\
    (fst (fst e) < o \/ o + bsum seg <= fst (fst e)) /\ hdr a' e /\
    fprev a' (fst (fst e)) = fprev a (fst (fst e)) /\ fnext a' (fst (fst e)) = fnext a (fst (fst e)).
Proof using All.
  destruct replace_ok as (Hok1 & Hok2 & Hok3). pose proof Hr as []. rewrite !place_app, !elem_of_app, !Z.add_0_l.
  intros [He|[He|He]]; [right|by left|right].
  - destruct e as [[o' pv'] b]. cbn [fst snd]. exists pv'. pose proof (Hpre _ He) as Hb. cbn [fst] in Hb.
    unfold fprev, fnext. rewrite Hb. rewrite !elem_of_app. split_and!; [by left| | |done|done].
    + left. apply place_range in He as (Hbin & _ & ? & _); [|done]. pose proof (proj1 (Forall_forall _ _) Hok1 b Hbin) as (? & _). lia.
    + eapply hdr_block; [done|done|]. apply hr_hdr. rewrite place_app. apply elem_of_app. by left.
  - destruct post as [|c rest]; [by apply elem_of_nil in He|].
    destruct Htotal as [|Ht]; [done|]. rewrite Ht in He. destruct Hpost as [Hc Hrest].
    destruct e as [[o' pv'] b]. cbn [fst snd]. cbn [place] in *. apply elem_of_cons in He as [[= -> -> ->]|He].
    + exists (last_size pv seg). rewrite !elem_of_app. split; [right; right; by left|]. split; [right; lia|].
      assert (hdr a (o + bsum seg, last_size pv seg, c)) as (E1 & E2 & E3 & E4).
      { apply hr_hdr. rewrite !place_app. cbn [place]. rewrite !elem_of_app. right. right. by left. }
      unfold hdr, fprev, fnext. rewrite !Hc. cbn. unfold block_cookie in *. rewrite Hbase. done.
    + exists pv'. rewrite !elem_of_app. split; [right; right; by right|]. apply Forall_cons in Hok3 as [(? & _) Hok3].
      pose proof (Hrest _ He) as Hb. cbn [fst] in Hb. split_and!.
      * right. apply place_range in He as (_ & ? & _); [|done]. lia.
      * eapply hdr_block; [done|done|]. apply hr_hdr. rewrite !place_app. cbn [place]. rewrite !elem_of_app, !elem_of_cons. tauto.
      * unfold fprev. by rewrite Hb.
      * unfold fnext. by rewrite Hb.
Qed.

(** A free block outside the segment is also in the new list. *)
Lemma replace_keeps x pv0 b : (x, pv0, b) ∈ place 0 0 (pre ++ seg ++ post) -> x < o \/ o + bsum seg <= x ->
  exists pv1, (x, pv1, b) ∈ place 0 0 (pre ++ seg' ++ post).
Proof using All.
  destruct replace_ok as (Hok1 & Hok2 & Hok3). intros Hin Hx. rewrite !place_app, !elem_of_app, !Z.add_0_l in Hin.
  destruct Hin as [Hin|[Hin|Hin]].
  - exists pv0. rewrite !place_app, !elem_of_app. by left.
  - exfalso. apply place_range in Hin as (Hb & ? & ? & _); [|done].
    pose proof (proj1 (Forall_forall _ _) Hok2 b Hb) as (? & _). lia.
  - destruct post as [|c rest]; [by apply elem_of_nil in Hin|]. destruct Htotal as [|Ht]; [done|].
    cbn [place] in *. apply elem_of_cons in Hin as [[= -> -> ->]|Hin].
    + exists (last_size pv seg'). rewrite !place_app, !elem_of_app. cbn [place]. right. right. rewrite !Z.add_0_l, Ht. by left.
    + exists pv0. rewrite !place_app, !elem_of_app. cbn [place]. right. right. rewrite !Z.add_0_l, Ht. by right.
Qed.

Lemma hrep_replace : hrep a' (pre ++ seg' ++ post) fl.
Proof using All.
  destruct replace_ok as (Hok1 & Hok2 & Hok3). pose proof Hr as []. constructor; try done.
  - rewrite !Forall_app. done.
  - intros e He. destruct (replace_place e He) as [He'|(pv0 & _ & _ & Hh & _)]; [by apply Hseg|done].
  - destruct hr_list as [lp Hd]. exists lp. rewrite Hhead. eapply dseg_frame; [|done].
    intros x Hx. destruct (hr_in x Hx) as (pv0 & b & Hin).
    destruct (replace_keeps x pv0 b Hin (Hfl x Hx)) as [pv1 Hin']. destruct (replace_place _ Hin') as [He|(? & _ & _ & _ & ?)]; [|done].
    exfalso. pose proof (Hfl x Hx). destruct (decide (post = [])) as [->|Hpn].
    + apply place_range in He as (_ & ? & _); [|done]. rewrite app_nil_r in Hin.
      apply place_range in Hin as (Hb & _ & Hend & _); [|by apply Forall_app]. rewrite bsum_app in Hend.
      assert (b ∈ pre ++ seg) as Hb' by done. assert (blk_ok b) as (? & _) by (eapply (proj1 (Forall_forall _ _)); [|done]; by apply Forall_app). lia.
    + destruct Htotal as [|Ht]; [done|]. apply place_range in He as (Hb & ? & ? & _); [|done].
      pose proof (proj1 (Forall_forall _ _) Hok' b Hb) as (? & _). lia.
  - intros x Hx. destruct (hr_in x Hx) as (pv0 & b & Hin).
    destruct (replace_keeps x pv0 b Hin (Hfl x Hx)) as [pv1 Hin']. by exists pv1, b.
  - intros x pv1 b Hin Hnx. destruct (replace_place _ Hin) as [He|(pv0 & Hin0 & _ & _ & E1 & E2)].
    + by destruct (Hseg _ He).
    + unfold unlinked. fold (fprev a' x) (fnext a' x). cbn [fst] in E1, E2. rewrite E1, E2.
      apply (hr_out x pv0 b Hin0 Hnx).
Qed.
End replace.

(** ** The stores that replace a segment *)

(** The heap object is the same but for the head of the free list. *)
Definition heap_like (a a' : arena C) : Prop :=
  (exists x, ar_heap a' = set_free_head x (ar_heap a)) /\ ar_ctx a' = ar_ctx a.

Lemma heap_like_refl a : heap_like a a.
Proof. split; [|done]. exists (hc_free_head (ar_heap a)). by destruct (ar_heap a). Qed.

Lemma heap_like_trans a a1 a2 : heap_like a a1 -> heap_like a1 a2 -> heap_like a a2.
Proof. intros ((x & E1) & C1) ((y & E2) & C2). split; [|congruence]. exists y. by rewrite E2, E1. Qed.

Lemma heap_like_eq a a' : ar_heap a' = ar_heap a -> ar_ctx a' = ar_ctx a -> heap_like a a'.
Proof. intros E1 E2. split; [|done]. exists (hc_free_head (ar_heap a)). rewrite E1. by destruct (ar_heap a). Qed.

Lemma heap_like_relinked bl a a' : relinked bl a a' -> heap_like a a'.
Proof. by intros (? & ? & _). Qed.

Lemma heap_like_base a a' : heap_like a a' -> hc_base (ar_heap a') = hc_base (ar_heap a).
Proof. by intros ((x & ->) & _). Qed.

Lemma span_base a a' o n x : hc_base (ar_heap a') = hc_base (ar_heap a) -> span a' o n x <-> span a o n x.
Proof. intros E. unfold span, addr. by rewrite E. Qed.

Lemma cookie_ok h o : u64_ok (hc_base h) -> u64_ok o -> u64_ok (block_cookie h o).
Proof.
  intros Hb Ho. unfold block_cookie. apply lxor_u64; [apply lxor_u64; [unfold u64_ok, UINT64_MAX, UTAMO_HEAP_COOKIE; lia|done]|done].
Qed.

Lemma write_block_only a o size pv req used : only (span a o 48) a (write_block a o size pv req used).
Proof.
  unfold write_block. intros x Hx.
  assert (forall f (b : arena C) v, 0 <= f <= 40 -> hc_base (ar_heap b) = hc_base (ar_heap a) -> ar_mem (store f o v b) x = ar_mem b x) as Hs.
  { intros f b v Hf Eb. apply only_store; [done|]. by rewrite (span_base a b). }
  unfold set_cookie, set_free_next, set_free_prev, set_requested, set_prev_size, set_size_flags.
  by rewrite !Hs by (done || lia).
Qed.

Lemma write_block_at a o size pv req (used : bool) : size mod 16 = 0 -> u64_ok (size + (if used then 1 else 0)) ->
  u64_ok pv -> u64_ok req -> u64_ok (block_cookie (ar_heap a) o) ->
  block_at (write_block a o size pv req used) o =
  MkBlock (size + (if used then 1 else 0)) pv req UTAMO_HEAP_NONE UTAMO_HEAP_NONE (block_cookie (ar_heap a) o).
Proof.
  intros Hm Hs Hp Hq Hc. unfold write_block. rewrite flagged_lor by done.
  rewrite store_cookie, store_free_next, store_free_prev, store_requested, store_prev_size, store_size_flags
    by (done || apply none_ok). done.
Qed.

Lemma following_only a o size : 0 <= o + size <= UINT64_MAX ->
  only (fun x => o + size < hc_mapped_size (ar_heap a) /\ span a (o + size) 48 x) a (following_previous a o size).
Proof.
  intros Hu x Hx. unfold following_previous. rewrite u64_small by (unfold u64_ok; lia).
  destruct (Z.ltb_spec (o + size) (hc_mapped_size (ar_heap a))); [|done].
  apply only_store; [lia|]. intros Hs. by apply Hx.
Qed.

Lemma following_heap a o size : ar_heap (following_previous a o size) = ar_heap a /\
  ar_ctx (following_previous a o size) = ar_ctx a.
Proof. unfold following_previous. by case_match. Qed.

(** Where the bytes of a segment's neighbours are. *)
Lemma segment_bounds a pre seg post fl : hrep a (pre ++ seg ++ post) fl ->
  0 <= bsum pre /\ 0 <= bsum seg /\ bsum pre + bsum seg + bsum post = hc_mapped_size (ar_heap a) /\ 0 <= bsum post /\
  bsum pre mod 16 = 0 /\ bsum seg mod 16 = 0 /\ hc_mapped_size (ar_heap a) < UTAMO_HEAP_NONE /\
  u64_ok (hc_base (ar_heap a)) /\ 0 <= last_size 0 pre < UTAMO_HEAP_NONE.
Proof.
  intros Hr. pose proof (hrep_bounds _ _ _ Hr) as Hb. destruct Hr. rewrite !Forall_app in hr_ok. destruct hr_ok as (H1 & H2 & H3).
  rewrite !bsum_app in hr_size. pose proof (bsum_nonneg _ H1). pose proof (bsum_nonneg _ H2). pose proof (bsum_nonneg _ H3).
  pose proof (bsum_mod _ H1). pose proof (bsum_mod _ H2).
  split_and!; try done; try lia; [unfold u64_ok; lia| |].
  - induction pre as [|b pre IH] using rev_ind; [done|]. rewrite last_size_app. cbn.
    apply Forall_app in H1 as [_ [(? & _) _]%Forall_cons]. lia.
  - induction pre as [|b pre IH] using rev_ind; [cbn; unfold UTAMO_HEAP_NONE, SIZE_MAX, UINT64_MAX; lia|].
    rewrite last_size_app. cbn. apply Forall_app in H1 as [H1 [(? & _) _]%Forall_cons].
    pose proof (bsum_nonneg _ H1). rewrite bsum_app, bsum_cons in *. cbn [bsum foldr] in *. lia.
Qed.

Section segment.
Context (a : arena C) (pre seg post : list blk) (fl : list Z).
Context (Hr : hrep a (pre ++ seg ++ post) fl).
Context (Hfl : forall x, x ∈ fl -> x < bsum pre \/ bsum pre + bsum seg <= x).
Notation o := (bsum pre).
Notation pv := (last_size 0 pre).

(** The stores change the segment and the header after it. *)
Definition segment_bytes (x : Z) : Prop := hdrs a (pre ++ seg ++ post) x \/ span a o (bsum seg) x.

Lemma next_header c rest : post = c :: rest -> placed (pre ++ seg ++ post) (o + bsum seg).
Proof using Type.
  intros E. exists (last_size pv seg), c. rewrite E, !place_app. cbn [place]. rewrite !elem_of_app. right. right. by left.
Qed.

Lemma pre_range e : e ∈ place 0 0 pre -> 0 <= fst (fst e) /\ fst (fst e) + 64 <= o.
Proof using Hr.
  destruct Hr. rewrite !Forall_app in hr_ok. destruct hr_ok as (Hok & _). destruct e as [[o' pv'] b]. intros He.
  apply place_range in He as (Hb & ? & ? & _); [|done]. pose proof (proj1 (Forall_forall _ _) Hok b Hb) as (? & _). cbn. lia.
Qed.

Lemma rest_range c rest e : post = c :: rest -> e ∈ place (o + bsum seg + bk_size c) (bk_size c) rest ->
  o + bsum seg + 64 <= fst (fst e).
Proof using Hr.
  intros ->. destruct Hr. rewrite !Forall_app, Forall_cons in hr_ok. destruct hr_ok as (_ & _ & (? & _) & Hok).
  destruct e as [[o' pv'] b]. intros He. apply place_range in He as (_ & ? & _); [|done]. cbn. lia.
Qed.

(** [a1] has new headers inside the segment, the last of size [last]; then the
    code stores [last] behind it. *)
Lemma segment_replace a1 seg' lo last : only (span a o (bsum seg)) a a1 -> ar_heap a1 = ar_heap a -> ar_ctx a1 = ar_ctx a ->
  Forall blk_ok seg' -> bsum seg' = bsum seg -> last_size pv seg' = last -> u64_ok last -> lo + last = o + bsum seg ->
  (forall e, e ∈ place o pv seg' -> hdr a1 e /\ unlinked a1 (fst (fst e))) ->
  let a' := following_previous a1 lo last in
  hrep a' (pre ++ seg' ++ post) fl /\ ar_heap a' = ar_heap a /\ ar_ctx a' = ar_ctx a /\ only segment_bytes a a'.
Proof using All.
  pose proof rest_range as Hrr. pose proof next_header as Hnh.
  intros Ho Eh Ec Hok Hb Hls Hlu Hlo Hseg a'. destruct (segment_bounds _ _ _ _ _ Hr) as (Hp0 & Hs0 & Hm & Hq0 & _ & _ & Hn & _).
  unfold UTAMO_HEAP_NONE, SIZE_MAX in Hn.
  destruct (following_heap a1 lo last) as [Eh' Ec']. fold a' in Eh', Ec'. rewrite Eh in Eh'. rewrite Ec in Ec'.
  assert (only (fun x => o + bsum seg < hc_mapped_size (ar_heap a) /\ span a (o + bsum seg) 48 x) a1 a') as Hof.
  { pose proof (following_only a1 lo last ltac:(lia)) as Hf. rewrite Eh, Hlo in Hf. unfold span, addr in *. by rewrite Eh in Hf. }
  assert (forall o', o' + 48 <= o + bsum seg -> block_at a' o' = block_at a1 o') as Hin.
  { intros o' Ho'. eapply block_at_only; [exact Hof|by rewrite Eh', Eh|]. unfold span, addr. rewrite Eh. intros x ? [_ ?]. lia. }
  assert (forall o', o' + 48 <= o \/ o + bsum seg + 48 <= o' -> block_at a' o' = block_at a o') as Hout.
  { intros o' Ho'. transitivity (block_at a1 o').
    - eapply block_at_only; [exact Hof|by rewrite Eh', Eh|]. unfold span, addr. rewrite Eh. intros x ? [_ ?]. lia.
    - eapply block_at_only; [exact Ho|by rewrite Eh|]. unfold span, addr. intros x ? ?. lia. }
  split_and!; try done.
  - apply (hrep_replace a a' pre seg seg' post fl Hr); try done.
    + rewrite Eh'. apply Hr.
    + by rewrite Eh'.
    + by rewrite Eh'.
    + rewrite Eh', !bsum_app, Hb. lia.
    + by right.
    + intros e He. apply pre_range in He. apply Hout. lia.
    + intros [[o' pv'] b] He. destruct (Hseg _ He) as [Hh Hu]. cbn [fst] in *.
      pose proof (place_range _ _ _ _ _ _ Hok He) as (Hbin & _ & ? & _).
      pose proof (proj1 (Forall_forall _ _) Hok b Hbin) as (? & _).
      assert (block_at a' o' = block_at a1 o') as E by (apply Hin; lia).
      split; [eapply hdr_block; [by rewrite Eh', Eh|done|done]|]. unfold unlinked in *. by rewrite E.
    + destruct post as [|c rest] eqn:Epost; [done|]. split.
      * assert (block_at a1 (o + bsum seg) = block_at a (o + bsum seg)) as E.
        { eapply block_at_only; [exact Ho|by rewrite Eh|]. unfold span, addr. intros x ? ?. lia. }
        unfold a', following_previous. rewrite Hlo, Eh, u64_small by (unfold u64_ok; lia).
        destruct (Z.ltb_spec (o + bsum seg) (hc_mapped_size (ar_heap a))) as [_|Hge].
        -- by rewrite store_prev_size, E, Hls.
        -- exfalso. rewrite bsum_cons in Hm. destruct Hr. rewrite !Forall_app, Forall_cons in hr_ok.
           destruct hr_ok as (_ & _ & (? & _) & Hrest). pose proof (bsum_nonneg _ Hrest). lia.
      * intros e He. apply (Hrr c rest e eq_refl) in He. apply Hout. lia.
  - eapply only_trans; [exact Ho|exact Hof|]. intros x [Hx|[Hlt Hx]]; [by right|left].
    destruct post as [|c rest] eqn:Epost; [cbn in Hm; lia|]. exists (o + bsum seg). split; [|done]. by eapply Hnh.
Qed.

(** One free block instead of the segment. *)
Lemma segment_fill : seg <> [] ->
  let a' := following_previous (write_block a o (bsum seg) pv 0 false) o (bsum seg) in
  hrep a' (pre ++ [MkBlk (bsum seg) false 0] ++ post) fl /\ ar_heap a' = ar_heap a /\ ar_ctx a' = ar_ctx a /\
  only segment_bytes a a'.
Proof using All.
  intros Hne. destruct (segment_bounds _ _ _ _ _ Hr) as (Hp0 & Hs0 & Hm & Hq0 & Hpm & Hsm & Hn & Hb & Hpv).
  unfold UTAMO_HEAP_NONE, SIZE_MAX in Hn, Hpv.
  assert (64 <= bsum seg) as H64.
  { destruct Hr. rewrite !Forall_app in hr_ok. destruct hr_ok as (_ & Hok & _). pose proof (bsum_length seg Hok).
    destruct seg; [done|]. cbn [length] in *. lia. }
  assert (u64_ok (block_cookie (ar_heap a) o)) as Hck by (apply cookie_ok; [done|unfold u64_ok; lia]).
  apply segment_replace; try done; try (cbn; lia).
  - eapply only_weaken; [apply write_block_only|]. unfold span. lia.
  - constructor; [|constructor]. unfold blk_ok. cbn. lia.
  - unfold u64_ok. lia.
  - intros e. cbn [place]. rewrite list_elem_of_singleton. intros ->. cbn [fst].
    unfold hdr, unlinked, flagged. rewrite write_block_at by (try done; unfold u64_ok; lia). cbn. by split_and!.
Qed.

(** A used block of [needed] bytes and a free one instead of the segment. *)
Lemma segment_split b rest needed : seg = b :: rest -> bk_used b = true -> 0 < bk_req b <= needed - 48 ->
  64 <= needed -> needed mod 16 = 0 -> needed + 64 <= bsum seg ->
  let r := bsum seg - needed in
  let a' := following_previous (write_block (set_size_flags o (Z.lor needed UTAMO_HEAP_USED) a) (o + needed) r needed 0 false)
              (o + needed) r in
  hrep a' (pre ++ [MkBlk needed true (bk_req b); MkBlk r false 0] ++ post) fl /\
  ar_heap a' = ar_heap a /\ ar_ctx a' = ar_ctx a /\
  only (fun x => hdrs a (pre ++ seg ++ post) x \/ span a (o + needed) r x) a a'.
Proof using All.
  pose proof next_header as Hnh. intros Eseg Hu Hreq H64 H16 Hrem r a'. destruct (segment_bounds _ _ _ _ _ Hr) as (Hp0 & Hs0 & Hm & Hq0 & Hpm & Hsm & Hn & Hb & Hpv).
  unfold UTAMO_HEAP_NONE, SIZE_MAX in Hn, Hpv.
  assert (u64_ok (block_cookie (ar_heap a) (o + needed))) as Hck by (apply cookie_ok; [done|unfold u64_ok; lia]).
  assert ((o, pv, b) ∈ place 0 0 (pre ++ seg ++ post)) as Hin.
  { rewrite Eseg. cbn [app]. pose proof (place_mid 0 0 pre b (rest ++ post)) as Hx. by rewrite Z.add_0_l in Hx. }
  assert (hdr a (o, pv, b) /\ unlinked a o) as [(F1 & F2 & F3 & F4) Hun].
  { destruct Hr. split; [by apply hr_hdr|]. eapply hr_out; [done|]. intros Hx. apply Hfl in Hx. lia. }
  set (a1 := set_size_flags o (Z.lor needed UTAMO_HEAP_USED) a) in *.
  set (a2 := write_block a1 (o + needed) r needed 0 false) in *.
  assert (only (span a o 48) a a1) as Ho1 by (apply only_store; lia).
  assert (only (span a (o + needed) 48) a1 a2) as Ho2 by exact (write_block_only a1 (o + needed) r needed 0 false).
  assert (r mod 16 = 0) as Hr16 by (unfold r; dlia).
  assert (Z.lor needed UTAMO_HEAP_USED = needed + 1) as El by apply (flagged_lor needed true H16).
  assert (block_at a2 o = MkBlock (needed + 1) pv (bk_req b) UTAMO_HEAP_NONE UTAMO_HEAP_NONE (block_cookie (ar_heap a) o)) as Eo.
  { transitivity (block_at a1 o).
    - eapply block_at_only; [exact Ho2|done|]. unfold span, addr. cbn. intros x ? ?. lia.
    - unfold a1. rewrite El, store_size_flags by (unfold u64_ok; lia). destruct Hun as [U1 U2]. cbv zeta. by rewrite F2, F3, F4, U1, U2. }
  destruct (segment_replace a2 [MkBlk needed true (bk_req b); MkBlk r false 0] (o + needed) r) as (Hrep & Hh & Hc & _); try done.
  - eapply only_trans; [exact Ho1|exact Ho2|]. unfold span, addr. cbn. intros x [?|?]; lia.
  - repeat constructor; unfold blk_ok; cbn; unfold r in *; lia.
  - cbn. unfold r. lia.
  - unfold u64_ok, r. lia.
  - unfold r. lia.
  - intros e. cbn [place]. rewrite elem_of_cons, list_elem_of_singleton. intros [-> | ->]; cbn [fst].
    + unfold hdr, unlinked, flagged. rewrite Eo. done.
    + unfold hdr, unlinked, flagged. unfold a2. rewrite write_block_at by (try done; unfold u64_ok, r in *; lia). cbn. by split_and!.
  - split_and!; try done. unfold a'.
    eapply (only_trans (fun x => span a o 48 x \/ span a (o + needed) 48 x)); [|apply following_only; unfold r; lia|].
    + eapply only_trans; [exact Ho1|exact Ho2|]. done.
    + change (ar_heap a2) with (ar_heap a). intros x [[Hx|Hx]|[Hlt Hx]].
      * left. exists o. split; [|done]. by exists pv, b.
      * right. unfold span, r in *. lia.
      * left. replace (o + needed + r) with (o + bsum seg) in * by (unfold r; lia).
        destruct post as [|c rest'] eqn:Epost; [cbn in Hm; lia|]. exists (o + bsum seg). split; [by eapply Hnh|].
        by eapply span_base.
Qed.
End segment.
End blocks.

(** ** The kernel heap: trimming, releasing, growing and consuming

    What the internal steps do to the block list. *)


(** Is the last block of the list free? *)
Definition ends_free (pf : bool) (bl : list blk) : bool := foldl (fun _ b => negb (bk_used b)) pf bl.

Lemma no_adjacent_app pf l1 l2 : no_adjacent pf (l1 ++ l2) <-> no_adjacent pf l1 /\ no_adjacent (ends_free pf l1) l2.
Proof.
  revert pf. induction l1 as [|b l1 IH]; intros pf; cbn [app no_adjacent]; [tauto|]. rewrite IH. cbn [ends_free foldl]. tauto.
Qed.

Definition free_blk (n : Z) : blk := MkBlk n false 0.

(** The length of the first block of the list when it is free. *)
Definition merged_next (post : list blk) : Z :=
  match post with n :: _ => if bk_used n then 0 else bk_size n | [] => 0 end.
Definition after_merge (post : list blk) : list blk :=
  match post with n :: rest => if bk_used n then post else rest | [] => [] end.

(** The block list after [trim_block] of a block [b] followed by [post]. *)
Definition trimmed (b : blk) (needed : Z) (post : list blk) : list blk :=
  if bk_size b - needed <? 64 then b :: post
  else MkBlk needed true (bk_req b) :: free_blk (bk_size b - needed + merged_next post) :: after_merge post.

Section steps.
Context {C : Type} `{HeapOps C}.
Implicit Types a : arena C.

Lemma free_offs_mid pre b post : free_offs 0 0 (pre ++ b :: post) =
  free_offs 0 0 pre ++ (if bk_used b then [] else [bsum pre]) ++ free_offs (bsum pre + bk_size b) (bk_size b) post.
Proof. by rewrite free_offs_app, free_offs_cons, Z.add_0_l. Qed.

Lemma mid_facts a pre b post fl : hrep a (pre ++ b :: post) fl ->
  Forall blk_ok pre /\ blk_ok b /\ Forall blk_ok post /\
  (forall x, x ∈ free_offs 0 0 pre -> x < bsum pre) /\
  (forall x, x ∈ free_offs (bsum pre + bk_size b) (bk_size b) post -> bsum pre + bk_size b <= x).
Proof.
  intros Hr. destruct Hr. rewrite Forall_app, Forall_cons in hr_ok. destruct hr_ok as (H1 & H2 & H3).
  split_and!; try done; intros x Hx; apply free_offs_range in Hx; try done; lia.
Qed.

Lemma mid_placed (pre post : list blk) b : placed (pre ++ b :: post) (bsum pre).
Proof. exists (last_size 0 pre), b. pose proof (place_mid 0 0 pre b post) as Hx. by rewrite Z.add_0_l in Hx. Qed.

Lemma mid_in (pre post : list blk) b : (bsum pre, last_size 0 pre, b) ∈ place 0 0 (pre ++ b :: post).
Proof. pose proof (place_mid 0 0 pre b post) as Hx. by rewrite Z.add_0_l in Hx. Qed.

(** ** Making a free block known and poisoning it *)

(** Payload bytes are not header bytes. *)
Lemma payload_not_header a pre b post fl x : hrep a (pre ++ b :: post) fl ->
  addr a (bsum pre) + 48 <= x < addr a (bsum pre) + bk_size b -> ~ hdrs a (pre ++ b :: post) x.
Proof.
  intros Hr Hx (o & Ho & Hs). destruct Hr. destruct Ho as (pv & c & Hin).
  destruct (place_sep 0 0 _ _ _ _ _ _ _ hr_ok Hin (mid_in pre post b)) as [(-> & _)|Hd]; unfold span, addr in *; [lia|].
  apply place_range in Hin as (Hc & _); [|done]. pose proof (proj1 (Forall_forall _ _) hr_ok c Hc) as (? & _). lia.
Qed.

Lemma insert_poison a pre b post : bk_used b = false ->
  hrep a (pre ++ b :: post) (free_offs 0 0 pre ++ free_offs (bsum pre + bk_size b) (bk_size b) post) ->
  let a' := poison_free (insert_free a (bsum pre)) (bsum pre) in
  hrep a' (pre ++ b :: post) (free_offs 0 0 (pre ++ b :: post)) /\ heap_like a a' /\
  only (fun x => hdrs a (pre ++ b :: post) x \/ span a (bsum pre) (bk_size b) x) a a'.
Proof.
  intros Hu Hr a'. destruct (mid_facts _ _ _ _ _ Hr) as (_ & (H64 & _) & _ & Hlo & Hhi).
  destruct (insert_free_spec a _ _ (bsum pre) _ Hr (mid_placed pre post b)) as [Hr1 Hl1].
  { intros [Hx%Hlo|Hx%Hhi]%elem_of_app; lia. }
  { done. }
  { intros x Hx%Hhi. lia. }
  set (a1 := insert_free a (bsum pre)) in *. pose proof (heap_like_relinked _ _ _ Hl1) as Hk.
  pose proof (heap_like_base _ _ Hk) as Eb. destruct Hl1 as (_ & _ & Ho1 & _).
  rewrite free_offs_mid, Hu. cbn [app].
  destruct (hrep_block _ _ _ _ _ _ Hr1 (mid_in pre post b)) as (_ & Ho0 & _ & Hend & Hsz & _).
  unfold a', poison_free. destruct (hc_debug_poison (ar_heap a1)); cycle 1.
  { split_and!; try done. eapply only_weaken; [exact Ho1|]. by left. }
  rewrite Hsz. pose proof (hrep_bounds _ _ _ Hr1) as (Hmn & _). unfold UTAMO_HEAP_NONE, SIZE_MAX in Hmn.
  rewrite u64_small by (unfold u64_ok, BLOCK_BYTES; lia). set (a2 := with_mem _ a1).
  assert (only (fun x => addr a1 (bsum pre) + 48 <= x < addr a1 (bsum pre) + bk_size b) a1 a2) as Ho2.
  { intros x Hx. unfold a2, with_mem. cbn [ar_mem]. apply mem_fill_other. unfold addr, BLOCK_BYTES in *. lia. }
  split_and!.
  - eapply hrep_frame; [exact Hr1|done|exact Ho2|]. intros x Hx. by eapply payload_not_header.
  - eapply heap_like_trans; [exact Hk|]. by apply heap_like_eq.
  - eapply only_trans; [exact Ho1|exact Ho2|]. intros x [Hx|Hx]; [by left|right]. unfold span, addr in *. rewrite Eb in Hx. lia.
Qed.

(** ** Taking a free successor off the list *)

Lemma merged_split post : Forall blk_ok post ->
  post = (if merged_next post =? 0 then [] else [free_blk (merged_next post)]) ++ after_merge post.
Proof.
  destruct post as [|[n u r] rest]; [done|]. intros [(Hn & _ & Hr) _]%Forall_cons. cbn in *.
  destruct u; [done|]. subst r. destruct (Z.eqb_spec n 0); [lia|done].
Qed.

(** Header bytes after a replacement. *)
Lemma hdrs_replace a pre seg seg' post x : bsum seg' = bsum seg -> hdrs a (pre ++ seg' ++ post) x ->
  hdrs a (pre ++ seg ++ post) x \/
  exists o' pv' b', (o', pv', b') ∈ place (bsum pre) (last_size 0 pre) seg' /\ span a o' 48 x.
Proof.
  intros Hb (o' & (pv' & b' & Hin) & Hs). rewrite !place_app, !elem_of_app, !Z.add_0_l in Hin.
  destruct Hin as [Hin|[Hin|Hin]].
  - left. exists o'. split; [|done]. exists pv', b'. rewrite place_app. apply elem_of_app. by left.
  - right. by exists o', pv', b'.
  - left. exists o'. split; [|done]. destruct post as [|c rest]; [by apply elem_of_nil in Hin|].
    cbn [place] in Hin. rewrite Hb in Hin. apply elem_of_cons in Hin as [[= -> -> ->]|Hin].
    + exists (last_size (last_size 0 pre) seg), c. rewrite !place_app. cbn [place]. rewrite !elem_of_app. right. right. by left.
    + exists pv', b'. rewrite !place_app. cbn [place]. rewrite !elem_of_app. right. right. by right.
Qed.

Lemma unhook_next a pre seg post F1 pvx :
  hrep a (pre ++ seg ++ post) (F1 ++ free_offs (bsum pre + bsum seg) pvx post) ->
  let next := bsum pre + bsum seg in
  let merge := (next <? hc_mapped_size (ar_heap a)) && negb (block_used (block_at a next)) in
  let a1 := if merge then remove_free a next else a in
  merge = negb (merged_next post =? 0) /\ (merge = true -> block_size (block_at a next) = merged_next post) /\
  hrep a1 (pre ++ seg ++ post) (F1 ++ free_offs (next + merged_next post) 0 (after_merge post)) /\
  heap_like a a1 /\ only (hdrs a (pre ++ seg ++ post)) a a1.
Proof.
  intros Hr next merge a1. destruct (segment_bounds _ _ _ _ _ Hr) as (Hp0 & Hs0 & Hm & Hq0 & _).
  destruct post as [|n rest].
  { cbn in Hm. assert (merge = false) as Em.
    { unfold merge, next. destruct (Z.ltb_spec (bsum pre + bsum seg) (hc_mapped_size (ar_heap a))); [lia|done]. }
    unfold a1. rewrite Em. cbn. split_and!; try done. apply heap_like_refl. }
  assert ((next, last_size (last_size 0 pre) seg, n) ∈ place 0 0 (pre ++ seg ++ n :: rest)) as Hin.
  { rewrite !place_app. cbn [place]. rewrite !elem_of_app. right. right. by left. }
  destruct (hrep_block _ _ _ _ _ _ Hr Hin) as ((H64 & _) & _ & _ & Hend & Hsz & Hus & _).
  assert (merge = negb (bk_used n)) as Em.
  { unfold merge. rewrite Hus. destruct (Z.ltb_spec next (hc_mapped_size (ar_heap a))); [done|lia]. }
  unfold a1. rewrite Em, Hsz. cbn [merged_next after_merge]. destruct (bk_used n) eqn:Eu; cbn [negb].
  - rewrite Z.eqb_refl, Z.add_0_r, (free_offs_pv _ 0 pvx). cbn. split_and!; try done. apply heap_like_refl.
  - rewrite free_offs_cons, Eu in Hr. cbn [app] in Hr. fold next in Hr.
    destruct (remove_free_spec a _ F1 next _ Hr) as [Hr1 Hl]. rewrite (free_offs_pv _ 0 (bk_size n)).
    destruct (Z.eqb_spec (bk_size n) 0); [lia|]. split_and!; try done; [by eapply heap_like_relinked|]. by destruct Hl as (_ & _ & ? & _).
Qed.

Lemma merged_nonneg post : Forall blk_ok post -> 0 <= merged_next post.
Proof. destruct post as [|n rest]; [done|]. intros [(? & _) _]%Forall_cons. cbn. destruct (bk_used n); lia. Qed.

Lemma merged_bsum post : bsum post = merged_next post + bsum (after_merge post).
Proof. destruct post as [|n rest]; [done|]. cbn. destruct (bk_used n); cbn; lia. Qed.

(** ** [trim_block] *)

Lemma trim_spec a pre b post needed :
  hrep a (pre ++ b :: post) (free_offs 0 0 (pre ++ b :: post)) -> bk_used b = true ->
  bk_req b <= needed - 48 -> 64 <= needed <= bk_size b -> needed mod 16 = 0 ->
  let a' := trim_block a (bsum pre) needed in
  hrep a' (pre ++ trimmed b needed post) (free_offs 0 0 (pre ++ trimmed b needed post)) /\ heap_like a a' /\
  only (fun x => hdrs a (pre ++ b :: post) x \/ span a (bsum pre + needed) (bk_size b - needed + merged_next post) x) a a'.
Proof.
  intros Hr Hu Hreq Hn H16 a'. destruct (mid_facts _ _ _ _ _ Hr) as (_ & (H64 & Hb16 & Hbr) & Hokp & _). rewrite Hu in Hbr.
  destruct (hrep_block _ _ _ _ _ _ Hr (mid_in pre post b)) as (_ & Ho0 & _ & Hend & Hsz & _).
  pose proof (hrep_bounds _ _ _ Hr) as (Hmn & _). unfold UTAMO_HEAP_NONE, SIZE_MAX in Hmn.
  pose proof (merged_nonneg post Hokp) as Hmn0. unfold a', trim_block, trimmed. rewrite Hsz. unfold UTAMO_HEAP_MIN_BLOCK.
  rewrite (u64_small (bk_size b - needed)) by (unfold u64_ok; lia).
  destruct (Z.ltb_spec (bk_size b - needed) 64) as [Hlt|Hge].
  { split_and!; [done|apply heap_like_refl|apply only_refl]. }
  rewrite (u64_small (bsum pre + bk_size b)), (u64_small (bsum pre + needed)) by (unfold u64_ok; lia).
  assert (hrep a (pre ++ [b] ++ post) (free_offs 0 0 pre ++ free_offs (bsum pre + bsum [b]) (bk_size b) post)) as Hr0.
  { rewrite free_offs_mid, Hu in Hr. cbn [app] in Hr. cbn [bsum foldr]. by rewrite Z.add_0_r. }
  destruct (unhook_next a pre [b] post _ _ Hr0) as (Em & Hnsz & Hr1 & Hk1 & Ho1).
  cbn [bsum foldr] in Em, Hnsz, Hr1, Hk1, Ho1. rewrite !Z.add_0_r in Em, Hnsz, Hr1, Hk1, Ho1.
  set (merge := _ && _) in *. set (a1 := if merge then remove_free a _ else a) in *.
  assert ((if merge then bk_size b - needed +u block_size (block_at a (bsum pre + bk_size b)) else bk_size b - needed) =
    bk_size b - needed + merged_next post) as ->.
  { pose proof (merged_bsum post) as Hmb. assert (0 <= bsum (after_merge post)) as Ham.
    { apply bsum_nonneg. destruct post as [|n rest]; [constructor|]. cbn. destruct (bk_used n); [done|]. by apply Forall_cons in Hokp as [_ ?]. }
    pose proof (segment_bounds _ _ _ _ _ Hr0) as (_ & _ & Hmm & _). cbn [bsum foldr] in Hmm.
    destruct merge.
    - rewrite Hnsz by done. apply u64_small. unfold u64_ok. lia.
    - symmetry in Em. rewrite negb_false_iff, Z.eqb_eq in Em. lia. }
  clearbody merge a1. clear Em Hnsz.
  set (seg := b :: (if merged_next post =? 0 then [] else [free_blk (merged_next post)])).
  assert (bsum seg = bk_size b + merged_next post) as Ebs.
  { unfold seg. destruct (Z.eqb_spec (merged_next post) 0) as [->|]; cbn; lia. }
  assert (pre ++ b :: post = pre ++ seg ++ after_merge post) as Ebl.
  { unfold seg. cbn [app]. by rewrite <- merged_split. }
  cbn [app] in Hr1, Ho1. rewrite Ebl in Hr1.
  assert (forall x, x ∈ free_offs 0 0 pre ++ free_offs (bsum pre + bk_size b + merged_next post) 0 (after_merge post) ->
    x < bsum pre \/ bsum pre + bsum seg <= x) as Hfl.
  { intros x [Hx|Hx]%elem_of_app; [left; by eapply (mid_facts a)|right].
    assert (Forall blk_ok (after_merge post)) by (destruct Hr1; by rewrite !Forall_app in hr_ok; destruct hr_ok as (_ & _ & ?)).
    apply free_offs_range in Hx; [|done]. lia. }
  destruct (segment_split a1 pre seg (after_merge post) _ Hr1 Hfl b (tail seg) needed) as (Hr2 & Eh2 & Ec2 & Ho2); try done; try lia.
  rewrite Ebs in Hr2, Eh2, Ec2, Ho2. replace (bk_size b + merged_next post - needed) with (bk_size b - needed + merged_next post) in * by lia.
  set (r := bk_size b - needed + merged_next post) in *. set (a2 := following_previous _ _ r) in *.
  assert (pre ++ [MkBlk needed true (bk_req b); MkBlk r false 0] ++ after_merge post =
    (pre ++ [MkBlk needed true (bk_req b)]) ++ free_blk r :: after_merge post) as Ebl2 by by rewrite <- app_assoc.
  rewrite Ebl2 in Hr2.
  assert (bsum (pre ++ [MkBlk needed true (bk_req b)]) = bsum pre + needed) as Eb2 by (rewrite bsum_app; cbn; lia).
  destruct (insert_poison a2 (pre ++ [MkBlk needed true (bk_req b)]) (free_blk r) (after_merge post)) as (Hr3 & Hk3 & Ho3); [done| |].
  { rewrite free_offs_app, free_offs_cons. cbn [bk_used app]. rewrite app_nil_r, Eb2. cbn [bk_size free_blk].
    rewrite (free_offs_pv (bsum pre + needed + r) r 0). by replace (bsum pre + needed + r) with (bsum pre + bk_size b + merged_next post) by (unfold r; lia). }
  rewrite Eb2 in Hr3, Hk3, Ho3. cbn [bk_size free_blk] in Ho3.
  pose proof (heap_like_base _ _ Hk1) as Eb1. assert (hc_base (ar_heap a2) = hc_base (ar_heap a)) as Eb3 by (by rewrite Eh2).
  split_and!.
  - rewrite <- app_assoc in Hr3. exact Hr3.
  - eapply heap_like_trans; [exact Hk1|]. eapply heap_like_trans; [by apply heap_like_eq|exact Hk3].
  - eapply (only_trans _ (fun x => hdrs a (pre ++ b :: post) x \/ span a (bsum pre + needed) r x)); [exact Ho1| |by intros x [Hx|Hx]; [left|]].
    eapply only_trans; [exact Ho2|exact Ho3|]. intros x [[Hx|Hx]|[Hx|Hx]].
    + left. apply (hdrs_base a a1) in Hx; [|done]. by rewrite Ebl.
    + right. by apply (span_base a a1 _ _ _ Eb1).
    + apply (hdrs_base a a2) in Hx; [|done]. rewrite <- Ebl2 in Hx. apply (hdrs_replace a pre seg) in Hx; [|rewrite Ebs; cbn; unfold r; lia].
      rewrite <- Ebl in Hx. destruct Hx as [Hx|(o' & pv' & b' & Hin & Hs)]; [by left|]. cbn [place] in Hin.
      rewrite elem_of_cons, list_elem_of_singleton in Hin. destruct Hin as [[= -> -> ->]|[= -> -> ->]].
      * left. exists (bsum pre). split; [apply mid_placed|done].
      * right. cbn [bk_size] in Hs. unfold span, r in *. lia.
    + right. by apply (span_base a a2 _ _ _ Eb3).
Qed.

(** ** [release] *)

Lemma unhook_prev a pre b post F2 : hrep a (pre ++ b :: post) (free_offs 0 0 pre ++ F2) ->
  let previous := last_size 0 pre in
  let merge := negb (previous =? 0) && negb (block_used (block_at a (bsum pre -u previous))) in
  let a1 := if merge then remove_free a (bsum pre -u previous) else a in
  exists pre' segp, pre = pre' ++ segp /\
    (segp = [] /\ merge = false /\ ends_free false pre = false \/
     exists p, segp = [p] /\ bk_used p = false /\ merge = true /\ previous = bk_size p /\ bsum pre -u previous = bsum pre') /\
    hrep a1 (pre ++ b :: post) (free_offs 0 0 pre' ++ F2) /\ heap_like a a1 /\ only (hdrs a (pre ++ b :: post)) a a1.
Proof.
  intros Hr previous merge a1. destruct pre as [|p pre' _] using rev_ind.
  { exists [], []. unfold a1, merge. cbn. split_and!; try done; [by left|apply heap_like_refl]. }
  assert (previous = bk_size p) as Ep by (unfold previous; by rewrite last_size_app).
  assert ((bsum pre', last_size 0 pre', p) ∈ place 0 0 ((pre' ++ [p]) ++ b :: post)) as Hin.
  { rewrite <- app_assoc. apply mid_in. }
  destruct (hrep_block _ _ _ _ _ _ Hr Hin) as ((H64 & _) & Ho0 & _ & Hend & Hsz & Hus & _).
  pose proof (hrep_bounds _ _ _ Hr) as (Hmn & _). unfold UTAMO_HEAP_NONE, SIZE_MAX in Hmn.
  assert (bsum (pre' ++ [p]) -u previous = bsum pre') as Eo.
  { rewrite Ep, bsum_app. cbn. rewrite u64_small by (unfold u64_ok; lia). lia. }
  assert (merge = negb (bk_used p)) as Em.
  { unfold merge. rewrite Eo, Hus. destruct (Z.eqb_spec previous 0); [lia|done]. }
  unfold a1. rewrite Em, Eo. destruct (bk_used p) eqn:Eu; cbn [negb].
  - exists (pre' ++ [p]), []. rewrite app_nil_r. split_and!; try done; [|apply heap_like_refl].
    left. split_and!; try done. unfold ends_free. rewrite foldl_app. cbn. by rewrite Eu.
  - exists pre', [p]. split; [done|]. rewrite free_offs_app, free_offs_cons, Eu in Hr. cbn [app] in Hr.
    change (free_offs (0 + bsum pre' + bk_size p) (bk_size p) []) with (@nil Z) in Hr. rewrite Z.add_0_l in Hr.
    rewrite <- (app_assoc (free_offs 0 0 pre')) in Hr. destruct (remove_free_spec a _ _ (bsum pre') F2 Hr) as [Hr1 Hl].
    split_and!; try done; [right; by exists p|by eapply heap_like_relinked|]. by destruct Hl as (_ & _ & ? & _).
Qed.

Lemma after_merge_ok post : Forall blk_ok post -> Forall blk_ok (after_merge post).
Proof. destruct post as [|n rest]; [done|]. intros Hok. cbn. destruct (bk_used n); [done|]. by apply Forall_cons in Hok as [_ ?]. Qed.

(** Filling a segment, in the form the code uses it. *)
Lemma fill_insert a pre seg post :
  hrep a (pre ++ seg ++ post) (free_offs 0 0 pre ++ free_offs (bsum pre + bsum seg) 0 post) -> seg <> [] ->
  let a' := poison_free (insert_free (following_previous
              (write_block a (bsum pre) (bsum seg) (last_size 0 pre) 0 false) (bsum pre) (bsum seg)) (bsum pre)) (bsum pre) in
  let bl' := pre ++ free_blk (bsum seg) :: post in
  hrep a' bl' (free_offs 0 0 bl') /\ heap_like a a' /\
  only (fun x => hdrs a (pre ++ seg ++ post) x \/ span a (bsum pre) (bsum seg) x) a a'.
Proof.
  intros Hr Hne a' bl'. destruct (segment_bounds _ _ _ _ _ Hr) as (Hp0 & Hs0 & Hm & Hq0 & _).
  assert (Forall blk_ok pre /\ Forall blk_ok seg /\ Forall blk_ok post) as (Hok1 & Hok2 & Hok3) by (destruct Hr; by rewrite !Forall_app in hr_ok).
  assert (forall x, x ∈ free_offs 0 0 pre ++ free_offs (bsum pre + bsum seg) 0 post -> x < bsum pre \/ bsum pre + bsum seg <= x) as Hfl.
  { intros x [Hx|Hx]%elem_of_app; apply free_offs_range in Hx; try done; lia. }
  destruct (segment_fill a pre seg post _ Hr Hfl Hne) as (Hr2 & Eh & Ec & Ho2). cbn [app] in Hr2.
  set (a1 := following_previous _ _ _) in *.
  destruct (insert_poison a1 pre (free_blk (bsum seg)) post) as (Hr3 & Hk3 & Ho3); [done| |].
  { cbn [bk_size free_blk]. by rewrite (free_offs_pv (bsum pre + bsum seg) (bsum seg) 0). }
  assert (hc_base (ar_heap a1) = hc_base (ar_heap a)) as Eb by by rewrite Eh.
  split_and!; [done|eapply heap_like_trans; [by apply heap_like_eq|exact Hk3]|].
  eapply only_trans; [exact Ho2|exact Ho3|]. intros x [[Hx|Hx]|[Hx|Hx]].
  - by left.
  - by right.
  - apply (hdrs_base a a1) in Hx; [|done]. apply (hdrs_replace a pre seg [free_blk (bsum seg)]) in Hx; [|cbn; lia].
    destruct Hx as [Hx|(o' & pv' & b' & Hin & Hs)]; [by left|right]. cbn [place] in Hin.
    apply list_elem_of_singleton in Hin as [= -> -> ->]. unfold span in *. pose proof (bsum_length seg Hok2).
    destruct seg; [done|]. cbn [length] in *. lia.
  - right. by apply (span_base a a1 _ _ _ Eb).
Qed.

Definition usage_down (req : Z) (h : heap_core) : heap_core :=
  let h := set_usage (hc_used_bytes h -u req) (hc_live_allocations h -u 1) h in
  set_counts (hc_allocations h) (increment (hc_frees h)) (hc_failed_allocations h) (hc_invalid_frees h) h.

Lemma release_spec a pre b post : hrep a (pre ++ b :: post) (free_offs 0 0 (pre ++ b :: post)) -> bk_used b = true ->
  let a' := release a (bsum pre) in
  exists pre' segp, pre = pre' ++ segp /\
    (segp = [] /\ ends_free false pre = false \/ exists p, segp = [p] /\ bk_used p = false) /\
    let total := bsum segp + bk_size b + merged_next post in
    let bl' := pre' ++ free_blk total :: after_merge post in
    hrep a' bl' (free_offs 0 0 bl') /\ ar_ctx a' = ar_ctx a /\
    (exists x, ar_heap a' = set_free_head x (usage_down (bk_req b) (ar_heap a))) /\
    only (fun x => hdrs a (pre ++ b :: post) x \/ span a (bsum pre') total x) a a'.
Proof.
  intros Hr Hu a'. destruct (mid_facts _ _ _ _ _ Hr) as (Hok1 & (H64 & Hb16 & _) & Hok3 & _).
  destruct (hrep_block _ _ _ _ _ _ Hr (mid_in pre post b)) as (_ & Ho0 & _ & Hend & Hsz & _ & Hpv & Hreq & _).
  unfold a', release. rewrite Hsz, Hpv, Hreq.
  set (a0 := with_heap _ (with_heap _ a)). change (ar_heap a0) with (usage_down (bk_req b) (ar_heap a)) in *.
  assert (hrep a0 (pre ++ b :: post) (free_offs 0 0 pre ++ free_offs (bsum pre + bk_size b) (bk_size b) post)) as Hr0.
  { rewrite free_offs_mid, Hu in Hr. cbn [app] in Hr. apply (hrep_heap a _ _ _ Hr); try done.
    destruct Hr as [[] _ _ _ _ _ _ _]. by constructor. }
  destruct (unhook_prev a0 pre b post _ Hr0) as (pre' & segp & Epre & Hcase & Hr1 & Hk1 & Ho1).
  set (mp := negb _ && _) in *. set (a1 := if mp then remove_free a0 _ else a0) in *.
  exists pre', segp. split; [done|]. split.
  { destruct Hcase as [(-> & _ & ?)|(p & -> & ? & _)]; [by left|right; by exists p]. }
  pose proof (hrep_bounds _ _ _ Hr) as (Hmn & _). unfold UTAMO_HEAP_NONE, SIZE_MAX in Hmn.
  assert (Forall blk_ok pre' /\ Forall blk_ok segp) as [Hokp Hoks] by (rewrite Epre in Hok1; by apply Forall_app).
  pose proof (bsum_nonneg _ Hokp). pose proof (bsum_nonneg _ Hoks). rewrite Epre, bsum_app in Hend, Ho0.
  assert ((if mp then (bk_size b +u last_size 0 pre, bsum pre -u last_size 0 pre, hb_prev_size (block_at a1 (bsum pre -u last_size 0 pre)))
    else (bk_size b, bsum pre, last_size 0 pre)) = (bsum (segp ++ [b]), bsum pre', last_size 0 pre')) as ->.
  { rewrite bsum_app. cbn [bsum foldr]. destruct Hcase as [(-> & -> & _)|(p & -> & Hpu & -> & Ep & Eo)].
    - rewrite app_nil_r in Epre. subst pre'. cbn. by rewrite Z.add_0_r.
    - rewrite Eo, Ep. cbn [bsum foldr] in *. rewrite u64_small by (unfold u64_ok; lia). f_equal; [f_equal; lia|].
      assert ((bsum pre', last_size 0 pre', p) ∈ place 0 0 (pre ++ b :: post)) as Hin.
      { rewrite Epre, <- app_assoc. apply mid_in. }
      by destruct (hrep_block _ _ _ _ _ _ Hr1 Hin) as (_ & _ & _ & _ & _ & _ & ? & _). }
  assert (pre ++ b :: post = pre' ++ (segp ++ [b]) ++ post) as Ebl by (rewrite Epre; by rewrite <- !app_assoc).
  assert (bsum (segp ++ [b]) = bsum segp + bk_size b) as Ebs by (rewrite bsum_app; cbn; lia).
  rewrite u64_small by (unfold u64_ok; lia).
  rewrite Ebl in Hr1, Ho1. rewrite Epre, bsum_app, <- Z.add_assoc, <- Ebs in Hr1.
  destruct (unhook_next a1 pre' (segp ++ [b]) post _ _ Hr1) as (Em & Hnsz & Hr2 & Hk2 & Ho2).
  clearbody mp a1. set (mn := (bsum pre' + bsum (segp ++ [b]) <? _) && _) in *.
  set (a2 := if mn then remove_free a1 _ else a1) in *. pose proof (merged_nonneg post Hok3) as Hm0.
  pose proof (segment_bounds _ _ _ _ _ Hr2) as (_ & _ & Hm & _).
  pose proof (merged_bsum post) as Hmb. pose proof (bsum_nonneg _ (after_merge_ok _ Hok3)) as Ham.
  assert ((if mn then bsum (segp ++ [b]) +u block_size (block_at a1 (bsum pre' + bsum (segp ++ [b]))) else bsum (segp ++ [b])) =
    bsum segp + bk_size b + merged_next post) as ->.
  { assert (ar_heap a2 = ar_heap a2) by done. pose proof (hrep_bounds _ _ _ Hr2) as (Hmn2 & _).
    unfold UTAMO_HEAP_NONE, SIZE_MAX in Hmn2. destruct mn.
    - rewrite Hnsz, u64_small by (done || unfold u64_ok; lia). lia.
    - symmetry in Em. rewrite negb_false_iff, Z.eqb_eq in Em. lia. }
  clearbody mn a2. set (total := bsum segp + bk_size b + merged_next post) in *.
  set (seg := (segp ++ [b]) ++ (if merged_next post =? 0 then [] else [free_blk (merged_next post)])).
  assert (bsum seg = total) as Est.
  { unfold seg. rewrite bsum_app, Ebs. destruct (Z.eqb_spec (merged_next post) 0) as [E|]; cbn; unfold total; lia. }
  assert (pre' ++ (segp ++ [b]) ++ post = pre' ++ seg ++ after_merge post) as Ebl2.
  { unfold seg. rewrite <- (app_assoc (segp ++ [b])). by rewrite <- merged_split. }
  rewrite Ebl2 in Hr2. rewrite Ebs in Hr2.
  replace (bsum pre' + (bsum segp + bk_size b) + merged_next post) with (bsum pre' + bsum seg) in Hr2 by (unfold total in Est; lia).
  destruct (fill_insert a2 pre' seg (after_merge post) Hr2) as (Hr3 & Hk3 & Ho3).
  { unfold seg. destruct segp; done. }
  rewrite Est in Hr3, Hk3, Ho3.
  pose proof (heap_like_trans _ _ _ Hk1 (heap_like_trans _ _ _ Hk2 Hk3)) as [(x & Ex) Ec].
  assert (hc_base (ar_heap a1) = hc_base (ar_heap a)) as Eb1 by apply (heap_like_base _ _ Hk1).
  assert (hc_base (ar_heap a2) = hc_base (ar_heap a)) as Eb2 by (rewrite (heap_like_base _ _ Hk2); apply Eb1).
  split_and!; [exact Hr3|done|by exists x|].
  eapply (only_trans _ (fun x => hdrs a (pre ++ b :: post) x \/ span a (bsum pre') total x)); [exact Ho1| |].
  - eapply (only_trans _ (fun x => hdrs a (pre ++ b :: post) x \/ span a (bsum pre') total x)); [exact Ho2| |].
    + eapply only_weaken; [exact Ho3|]. intros y [Hy|Hy]; [left; apply (hdrs_base a a2 _ _ Eb2) in Hy; by rewrite Ebl, Ebl2|right].
      by apply (span_base a a2 _ _ _ Eb2).
    + intros y [Hy|Hy]; [left|done]. rewrite Ebl. by apply (hdrs_base a a1 _ _ Eb1).
  - intros y [Hy|Hy]; [left|done]. rewrite Ebl. exact Hy.
Qed.
End steps.
