(* ===== verification/HeapAlloc.v ===== *)
(** * The kernel heap: growing and allocating *)

From stdpp Require Import sorting.
From S2P Require Import Prelude Bytes HeapCore HeapInv HeapLinks HeapBlocks.
Open Scope Z_scope.

Section alloc.
Context {C : Type} `{HeapOps C}.
Implicit Types a : arena C.

(** ** [grow_heap] *)

(** [remove_free] neither reads nor writes the size of the arena. *)
Lemma remove_free_mapped a n (c : C) o :
  remove_free (MkArena (set_mapped_size n (ar_heap a)) (ar_mem a) c) o =
  let a' := remove_free a o in MkArena (set_mapped_size n (ar_heap a')) (ar_mem a') c.
Proof.
  unfold remove_free, set_free_next, set_free_prev, store, with_mem, with_heap.
  change (block_at (MkArena (set_mapped_size n (ar_heap a)) (ar_mem a) c) o) with (block_at a o).
  destruct (hb_free_prev (block_at a o) =? UTAMO_HEAP_NONE), (negb (hb_free_next (block_at a o) =? UTAMO_HEAP_NONE)); reflexivity.
Qed.

(** The new space becomes one free block, with the segment before it. *)
Lemma grow_replace a pre seg fl s (c : C) : hrep a (pre ++ seg) fl -> (forall x, x ∈ fl -> x < bsum pre) ->
  64 <= s -> s mod 16 = 0 -> hc_mapped_size (ar_heap a) <= bsum pre + s <= hc_max_size (ar_heap a) ->
  let a1 := MkArena (set_mapped_size (bsum pre + s) (ar_heap a)) (ar_mem a) c in
  let a' := write_block a1 (bsum pre) s (last_size 0 pre) 0 false in
  hrep a' (pre ++ [free_blk s]) fl /\ ar_heap a' = set_mapped_size (bsum pre + s) (ar_heap a) /\ ar_ctx a' = c /\
  only (span a (bsum pre) 48) a a'.
Proof.
  intros Hr0 Hfl H64 H16 Hmax a1 a'.
  assert (hrep a (pre ++ seg ++ []) fl) as Hr by by rewrite app_nil_r.
  destruct (segment_bounds _ _ _ _ _ Hr) as (Hp0 & Hs0 & Hm & _ & Hpm & Hsm & Hn & Hb & Hpv). cbn in Hm.
  pose proof (hrep_bounds _ _ _ Hr) as (_ & Htop & Hbase & _). unfold UTAMO_HEAP_NONE, SIZE_MAX in *.
  assert (only (span a (bsum pre) 48) a a') as Ho by exact (write_block_only a1 (bsum pre) s (last_size 0 pre) 0 false).
  split_and!; try done.
  replace (pre ++ [free_blk s]) with (pre ++ [free_blk s] ++ []) by done.
  assert (u64_ok (block_cookie (ar_heap a1) (bsum pre))) as Hck by (apply cookie_ok; [done|unfold u64_ok; lia]).
  apply (hrep_replace a a' pre seg [free_blk s] [] fl Hr); try done.
  - destruct Hr as [[] _ _ _ _ _ _ _]. constructor; try done; cbn; try lia. dlia.
  - rewrite bsum_app. cbn. lia.
  - by left.
  - constructor; [|constructor]. unfold blk_ok. cbn. lia.
  - intros x Hx. left. by apply Hfl.
  - intros [[o' pv'] b'] He. cbn [fst]. assert (Forall blk_ok pre) as Hok by (destruct Hr; by rewrite !Forall_app in hr_ok; destruct hr_ok).
    apply place_range in He as (Hbin & _ & ? & _); [|done]. pose proof (proj1 (Forall_forall _ _) Hok b' Hbin) as (? & _).
    eapply block_at_only; [exact Ho|done|]. unfold span, addr. intros x ? ?. lia.
  - intros e. cbn [place]. rewrite list_elem_of_singleton. intros ->. cbn [fst].
    unfold hdr, unlinked, flagged. unfold a'. rewrite write_block_at by (try done; unfold u64_ok in *; lia). cbn. by split_and!.
Qed.

(** The tail of the heap has a free block of at least [needed] bytes, after
    the mapped part grew by [extra] bytes. *)
Definition grown (a a' : arena C) (pre : list blk) (t : blk) (needed extra : Z) : Prop :=
  let bl' := if bk_used t then pre ++ [t; free_blk extra] else pre ++ [free_blk (bk_size t + extra)] in
  0 < extra /\ hrep a' bl' (free_offs 0 0 bl') /\
  needed <= (if bk_used t then extra else bk_size t + extra) /\
  (exists x, ar_heap a' = set_free_head x (set_mapped_size (hc_mapped_size (ar_heap a) + extra) (ar_heap a))) /\
  hc_mapped_size (ar_heap a) + extra <= hc_max_size (ar_heap a) /\
  only (fun x => hdrs a (pre ++ [t]) x \/
     (if bk_used t then span a (bsum pre + bk_size t) extra x else span a (bsum pre) (bk_size t + extra) x)) a a'.

(** The amount of memory requested from the callback. *)
Lemma extra_bounds required growth available : 0 < required <= available -> 64 <= growth -> available <= UINT64_MAX ->
  growth mod 16 = 0 -> available mod 16 = 0 ->
  let units := required / growth +u (if negb (required mod growth =? 0) then 1 else 0) in
  let extra := if units <=? available / growth then units *u growth else available in
  required <= extra <= available /\ extra mod 16 = 0.
Proof.
  intros Hr Hg Ha Hg16 Ha16 units extra.
  assert (0 <= required / growth <= required) as Hq.
  { split; [apply Z.div_pos; lia|]. apply Z.div_le_upper_bound; [lia|]. nia. }
  pose proof (Z.div_mod required growth ltac:(lia)) as Hdm. pose proof (Z.mod_pos_bound required growth ltac:(lia)) as Hmb.
  assert (required / growth + 1 <= UINT64_MAX) as Hq1.
  { assert (required / growth <= UINT64_MAX / 64); [|unfold UINT64_MAX in *; dlia].
    etrans; [apply (Z.div_le_mono _ UINT64_MAX); lia|]. apply Z.div_le_compat_l; unfold UINT64_MAX; lia. }
  assert (units = required / growth + (if negb (required mod growth =? 0) then 1 else 0)) as Eu.
  { unfold units. apply u64_small. unfold u64_ok. destruct (negb _); lia. }
  assert (required <= units * growth) as Hup.
  { rewrite Eu. destruct (Z.eqb_spec (required mod growth) 0); cbn [negb]; nia. }
  unfold extra. destruct (Z.leb_spec units (available / growth)) as [Hle|Hgt]; [|lia].
  assert (units * growth <= available) as Hfit.
  { pose proof (Z.mul_div_le available growth ltac:(lia)). nia. }
  rewrite u64_small by (unfold u64_ok; nia). split; [lia|].
  rewrite Z.mul_mod, Hg16, Z.mul_0_r by lia. done.
Qed.

Lemma grow_spec a pre t needed : hrep a (pre ++ [t]) (free_offs 0 0 (pre ++ [t])) -> 0 < needed <= UINT64_MAX ->
  let need := Z.max needed 64 in
  let (a', ok) := grow_heap a needed in
  if ok then (a' = a /\ bk_used t = false /\ need <= bk_size t) \/ exists extra, grown a a' pre t need extra
  else ar_heap a' = ar_heap a /\ ar_mem a' = ar_mem a.
Proof.
  intros Hr Hnd need. assert (hrep a (pre ++ [t] ++ []) (free_offs 0 0 (pre ++ [t]))) as Hr' by done.
  destruct (segment_bounds _ _ _ _ _ Hr') as (Hp0 & Hs0 & Hm & _ & Hpm & Hsm & Hn & _). cbn [bsum foldr] in *.
  destruct (hrep_block _ _ _ _ _ _ Hr (mid_in pre [] t)) as ((H64 & H16 & _) & _ & _ & _ & Hsz & Hus & Hpv & _).
  destruct (mid_facts _ _ _ _ _ Hr) as (_ & _ & _ & Hlo & _). pose proof (hrep_bounds _ _ _ Hr) as (Hmn & Htop & Hb0 & Hmm).
  pose proof Hr as [[] _ _ _ _ _ _ _]. unfold UTAMO_HEAP_NONE, SIZE_MAX in *.
  unfold grow_heap. rewrite (last_block_spec a pre t _ Hr), Hsz, Hus.
  destruct (_ || (_ =? _)) eqn:Eg; [done|]. rewrite orb_false_iff, Z.eqb_neq in Eg. destruct Eg as [_ Hne].
  assert ((if needed <? UTAMO_HEAP_MIN_BLOCK then UTAMO_HEAP_MIN_BLOCK else needed) = need) as ->.
  { unfold UTAMO_HEAP_MIN_BLOCK, need. destruct (Z.ltb_spec needed 64); lia. }
  set (tf := if bk_used t then 0 else bk_size t). assert (0 <= tf <= bk_size t) as Htf by (unfold tf; destruct (bk_used t); lia).
  destruct (Z.leb_spec need tf) as [Hle|Hgt].
  { left. unfold tf in Hle. destruct (bk_used t); [lia|done]. }
  rewrite (u64_small (need - tf)), (u64_small (hc_max_size _ - _)) by (unfold u64_ok; lia).
  destruct (Z.ltb_spec (hc_max_size (ar_heap a) - hc_mapped_size (ar_heap a)) (need - tf)) as [|Hfit]; [done|].
  destruct (extra_bounds (need - tf) (hc_growth_size (ar_heap a)) (hc_max_size (ar_heap a) - hc_mapped_size (ar_heap a)))
    as [Hex Hex16]; try done; try lia; [dlia|].
  set (extra := if _ <=? _ then _ else _) in *. clearbody extra.
  rewrite (u64_small (_ + extra)) by (unfold u64_ok; lia).
  destruct (op_grow (ar_ctx a) _ _) as [c [|]]; [|done]. destruct (bk_used t) eqn:Eu; cbn [negb].
  - right. exists extra. unfold tf in *.
    assert (hrep a ((pre ++ [t]) ++ []) (free_offs 0 0 (pre ++ [t]))) as Hr0 by by rewrite app_nil_r.
    assert (bsum (pre ++ [t]) = hc_mapped_size (ar_heap a)) as Es by (rewrite bsum_app; cbn; lia).
    destruct (grow_replace a (pre ++ [t]) [] _ extra c Hr0) as (Hr1 & Eh1 & Ec1 & Ho1); try lia; try dlia.
    { intros x Hx. rewrite free_offs_mid, Eu in Hx. cbn [app] in Hx. apply elem_of_app in Hx as [Hx%Hlo|Hx]; [lia|].
      by apply elem_of_nil in Hx. }
    rewrite Es, last_size_app in *. cbn [last_size foldl] in *. set (a1 := write_block _ _ extra _ 0 false) in *.
    destruct (insert_poison a1 (pre ++ [t]) (free_blk extra) []) as (Hr2 & Hk2 & Ho2); [done| |].
    { cbn. by rewrite app_nil_r. }
    rewrite Es in *. assert (hc_base (ar_heap a1) = hc_base (ar_heap a)) as Eb by by rewrite Eh1.
    unfold grown. rewrite Eu. rewrite <- app_assoc in Hr2. split_and!; try done; try lia.
    + destruct Hk2 as [(x & Ex) _]. exists x. by rewrite Ex, Eh1.
    + eapply only_trans; [exact Ho1|exact Ho2|]. replace (bsum pre + bk_size t) with (hc_mapped_size (ar_heap a)) by lia.
      intros x [Hx|[Hx|Hx]]; [right; unfold span in *; lia| |right; by apply (span_base a a1 _ _ _ Eb)].
      apply (hdrs_base a a1 _ _ Eb) in Hx. destruct Hx as (o' & (pv' & b' & Hin) & Hs).
      rewrite place_app in Hin. apply elem_of_app in Hin as [Hin|Hin]; [left; exists o'; split; [by exists pv', b'|done]|right].
      cbn [place] in Hin. apply list_elem_of_singleton in Hin as [= -> -> ->]. rewrite Es in Hs. unfold span, addr in *. lia.
  - right. exists extra. unfold tf in *. rewrite remove_free_mapped. cbv zeta.
    pose proof Hr as Hr0. rewrite free_offs_mid, Eu in Hr0. cbn [app] in Hr0.
    destruct (remove_free_spec a _ _ (bsum pre) _ Hr0) as [Hr1 Hl1].
    change (free_offs (bsum pre + bk_size t) (bk_size t) []) with (@nil Z) in Hr1. rewrite app_nil_r in Hr1.
    set (a1 := remove_free a (bsum pre)) in *. pose proof (heap_like_relinked _ _ _ Hl1) as Hk1.
    pose proof (heap_like_base _ _ Hk1) as Eb1. destruct Hl1 as ((x1 & Ex1) & _ & Ho1 & _).
    change (block_at (MkArena _ (ar_mem a1) c) (bsum pre)) with (block_at a1 (bsum pre)).
    destruct (hrep_block _ _ _ _ _ _ Hr1 (mid_in pre [] t)) as (_ & _ & _ & _ & _ & _ & -> & _).
    rewrite (u64_small (bk_size t + extra)) by (unfold u64_ok; lia).
    destruct (grow_replace a1 pre [t] _ (bk_size t + extra) c Hr1) as (Hr2 & Eh2 & Ec2 & Ho2); try done; try lia; try dlia.
    { rewrite Ex1. cbn. lia. }
    replace (bsum pre + (bk_size t + extra)) with (hc_mapped_size (ar_heap a) + extra) in * by lia.
    set (a2 := write_block _ _ _ _ 0 false) in *.
    destruct (insert_poison a2 pre (free_blk (bk_size t + extra)) []) as (Hr3 & Hk3 & Ho3); [done| |].
    { cbn. by rewrite app_nil_r. }
    assert (hc_base (ar_heap a2) = hc_base (ar_heap a)) as Eb2 by by rewrite Eh2.
    unfold grown. rewrite Eu. split_and!; try done; try lia.
    + destruct Hk3 as [(x & Ex) _]. exists x. by rewrite Ex, Eh2, Ex1.
    + eapply (only_trans _ (fun x => hdrs a (pre ++ [t]) x \/ span a (bsum pre) (bk_size t + extra) x)); [exact Ho1| |by intros x [?|?]; [left|]].
      eapply only_trans; [exact Ho2|exact Ho3|]. intros x [Hx|[Hx|Hx]].
      * right. apply (span_base a a1 _ _ _ Eb1) in Hx. unfold span in *. lia.
      * apply (hdrs_base a a2 _ _ Eb2) in Hx. destruct Hx as (o' & (pv' & b' & Hin) & Hs).
        rewrite place_app in Hin. apply elem_of_app in Hin as [Hin|Hin].
        -- left. exists o'. split; [|done]. exists pv', b'. rewrite place_app. apply elem_of_app. by left.
        -- right. cbn [place] in Hin. apply list_elem_of_singleton in Hin as [= -> -> ->]. unfold span, addr in *. lia.
      * right. by apply (span_base a a2 _ _ _ Eb2).
Qed.

(** ** Taking a free block *)

(** A new header for a block that is not on the list, of the same size. *)
Lemma reheader a a' pre b b' post fl : hrep a (pre ++ b :: post) fl -> bsum pre ∉ fl ->
  only (span a (bsum pre) 48) a a' -> ar_heap a' = ar_heap a -> blk_ok b' -> bk_size b' = bk_size b ->
  hdr a' (bsum pre, last_size 0 pre, b') -> unlinked a' (bsum pre) -> hrep a' (pre ++ b' :: post) fl.
Proof.
  intros Hr Hnf Ho Eh Hb' Hsz Hh Hu. assert (hrep a (pre ++ [b] ++ post) fl) as Hr' by done.
  destruct (mid_facts _ _ _ _ _ Hr) as (Hokp & (H64 & _) & Hokq & _).
  assert (forall o', o' + 48 <= bsum pre \/ bsum pre + bk_size b <= o' -> block_at a' o' = block_at a o') as Hout.
  { intros o' Ho'. eapply block_at_only; [exact Ho|by rewrite Eh|]. unfold span, addr. intros x ? ?. lia. }
  change (pre ++ b' :: post) with (pre ++ [b'] ++ post).
  apply (hrep_replace a a' pre [b] [b'] post fl Hr'); rewrite ?Eh; try done.
  - apply Hr.
  - destruct Hr. rewrite !bsum_app, bsum_cons in *. cbn in *. lia.
  - right. cbn. lia.
  - by constructor.
  - intros x Hx. cbn. destruct Hr. destruct (hr_in x Hx) as (pv' & c & Hin).
    destruct (place_sep 0 0 _ _ _ _ _ _ _ hr_ok Hin (mid_in pre post b)) as [(-> & _)|Hd]; [done|].
    apply place_range in Hin as (Hc & _); [|done]. pose proof (proj1 (Forall_forall _ _) hr_ok c Hc) as (? & _). lia.
  - intros [[o' pv'] c] He. cbn [fst]. apply place_range in He as (Hc & _ & ? & _); [|done].
    pose proof (proj1 (Forall_forall _ _) Hokp c Hc) as (? & _). apply Hout. lia.
  - intros e. cbn [place]. rewrite list_elem_of_singleton. by intros ->.
  - destruct post as [|c rest]; [done|]. cbn [bsum foldr last_size foldl]. rewrite Z.add_0_r. split.
    + rewrite Hout by lia. assert ((bsum pre + bk_size b, bk_size b, c) ∈ place 0 0 (pre ++ b :: c :: rest)) as Hin.
      { rewrite place_app. cbn [place]. apply elem_of_app. right. right. by left. }
      destruct Hr. destruct (hr_hdr _ Hin) as (_ & E2 & _). destruct (block_at a (bsum pre + bk_size b)). cbn in *. by rewrite Hsz, <- E2.
    + intros [[o' pv'] c'] He. apply Forall_cons in Hokq as [(? & _) Hokq]. apply place_range in He as (_ & ? & _); [|done].
      cbn [fst]. apply Hout. lia.
Qed.

Definition usage_up (req : Z) (h : heap_core) : heap_core :=
  let h := set_usage (hc_used_bytes h +u req) (hc_live_allocations h +u 1) h in
  let h := set_counts (increment (hc_allocations h)) (hc_frees h) (hc_failed_allocations h) (hc_invalid_frees h) h in
  if hc_peak_usage h <? hc_used_bytes h then set_peak (hc_used_bytes h) h else h.

(** The part of [allocate] after the search, in three steps. *)
Definition mark_step (a : arena C) (offset requested : Z) : arena C :=
  let a := remove_free a offset in
  let a := set_size_flags offset (Z.lor (hb_size_flags (block_at a offset)) UTAMO_HEAP_USED) a in
  set_requested offset requested a.
Definition finish_step (a : arena C) (offset requested : Z) : arena C :=
  let a := with_heap (usage_up requested) a in
  if hc_debug_poison (ar_heap a)
  then with_mem (fun mem => mem_fill mem (addr a (offset + BLOCK_BYTES)) 0xcd (block_size (block_at a offset) -u BLOCK_BYTES)) a
  else a.
Definition take_block (a : arena C) (offset requested needed : Z) : arena C :=
  finish_step (trim_block (mark_step a offset requested) offset needed) offset requested.

Lemma trimmed_head b needed post : exists b' rest, trimmed b needed post = b' :: rest /\
  bk_size b' = (if bk_size b - needed <? 64 then bk_size b else needed) /\ bk_used b' = (if bk_size b - needed <? 64 then bk_used b else true) /\
  bk_req b' = bk_req b.
Proof. unfold trimmed. destruct (bk_size b - needed <? 64); eexists _, _; split_and!; done. Qed.

Lemma usage_up_ctx req h : ctx_ok h -> ctx_ok (usage_up req h) /\ hc_base (usage_up req h) = hc_base h /\
  hc_mapped_size (usage_up req h) = hc_mapped_size h /\ hc_free_head (usage_up req h) = hc_free_head h /\
  hc_debug_poison (usage_up req h) = hc_debug_poison h.
Proof. intros []. unfold usage_up. case_match; split_and!; try done; by constructor. Qed.

(** The header of a free block becomes that of a used one. *)
Lemma mark_used a pre b post requested :
  hrep a (pre ++ b :: post) (free_offs 0 0 (pre ++ b :: post)) -> bk_used b = false ->
  0 < requested <= bk_size b - 48 ->
  let b' := MkBlk (bk_size b) true requested in
  let a2 := mark_step a (bsum pre) requested in
  hrep a2 (pre ++ b' :: post) (free_offs 0 0 (pre ++ b' :: post)) /\ heap_like a a2 /\ only (hdrs a (pre ++ b :: post)) a a2.
Proof.
  intros Hr Hu Hrq b'. cbv zeta. unfold mark_step. set (a1 := remove_free a (bsum pre)).
  destruct (mid_facts _ _ _ _ _ Hr) as (Hokp & (H64 & Hb16 & _) & Hokq & Hlo & Hhi).
  destruct (hrep_block _ _ _ _ _ _ Hr (mid_in pre post b)) as (_ & Ho0 & _ & Hend & _).
  pose proof (hrep_bounds _ _ _ Hr) as (Hmn & _). unfold UTAMO_HEAP_NONE, SIZE_MAX in Hmn.
  pose proof Hr as Hr0. rewrite free_offs_mid, Hu in Hr0. cbn [app] in Hr0.
  destruct (remove_free_spec a _ _ (bsum pre) _ Hr0) as [Hr1 Hl1]. pose proof (heap_like_relinked _ _ _ Hl1) as Hk1.
  destruct Hl1 as (_ & _ & Ho1 & _). fold a1 in Hr1, Hk1, Ho1. clearbody a1.
  pose proof (heap_like_base _ _ Hk1) as Eb1.
  destruct (hrep_block _ _ _ _ _ _ Hr1 (mid_in pre post b)) as (_ & _ & _ & _ & _ & _ & Hpv & _ & Hsf). rewrite Hsf.
  assert (flagged b = bk_size b) as Efl by (unfold flagged; rewrite Hu; lia). rewrite Efl.
  assert (Z.lor (bk_size b) UTAMO_HEAP_USED = bk_size b + 1) as -> by apply (flagged_lor (bk_size b) true Hb16).
  assert (bsum pre ∉ free_offs 0 0 pre ++ free_offs (bsum pre + bk_size b) (bk_size b) post) as Hnf.
  { intros [Hx%Hlo|Hx%Hhi]%elem_of_app; lia. }
  assert (unlinked a1 (bsum pre)) as [U1 U2] by (destruct Hr1; eapply hr_out; [apply mid_in|done]).
  assert (hdr a1 (bsum pre, last_size 0 pre, b)) as (_ & _ & _ & F4) by (destruct Hr1; apply hr_hdr, mid_in).
  set (a2 := set_requested _ _ _).
  assert (only (span a1 (bsum pre) 48) a1 a2) as Ho2.
  { eapply only_trans; [apply (only_store a1 0 (bsum pre) (bk_size b + 1)); lia|apply (only_store _ 16 (bsum pre) requested); lia|].
    intros x [Hx|Hx]; exact Hx. }
  assert (block_at a2 (bsum pre) = MkBlock (bk_size b + 1) (last_size 0 pre) requested UTAMO_HEAP_NONE UTAMO_HEAP_NONE
    (block_cookie (ar_heap a1) (bsum pre))) as E2.
  { unfold a2. rewrite store_requested, store_size_flags by (unfold u64_ok; lia).
    cbn [hb_prev_size hb_free_prev hb_free_next hb_cookie hb_size_flags]. by rewrite Hpv, F4, U1, U2. }
  assert (ar_heap a2 = ar_heap a1) as Eh2 by reflexivity.
  assert (ar_ctx a2 = ar_ctx a1) as Ec2 by reflexivity. clearbody a2. split_and!.
  - rewrite free_offs_mid. apply (reheader a1 a2 pre b b' post _ Hr1 Hnf Ho2 Eh2).
    + unfold blk_ok, b'. cbn [bk_size bk_used bk_req]. lia.
    + reflexivity.
    + unfold hdr, flagged, b'. rewrite E2, Eh2. cbn [bk_size bk_used bk_req hb_size_flags hb_prev_size hb_requested hb_cookie].
      split_and!; reflexivity.
    + unfold unlinked. rewrite E2. by split.
  - eapply heap_like_trans; [exact Hk1|]. by apply heap_like_eq.
  - eapply only_trans; [exact Ho1|exact Ho2|]. intros x [Hx|Hx]; [done|].
    exists (bsum pre). split; [apply mid_placed|]. by apply (span_base a a1 _ _ _ Eb1).
Qed.

(** Filling the payload of a block. *)
Lemma payload_fill a pre b post fl v s n : hrep a (pre ++ b :: post) fl ->
  addr a (bsum pre) + 48 <= s -> s + n <= addr a (bsum pre) + bk_size b ->
  let a' := with_mem (fun mem => mem_fill mem s v n) a in
  hrep a' (pre ++ b :: post) fl /\ only (fun x => s <= x < s + n) a a'.
Proof.
  intros Hr H1 H2 a'. assert (only (fun x => s <= x < s + n) a a') as Ho.
  { intros x Hx. unfold a', with_mem. cbn [ar_mem]. apply mem_fill_other. lia. }
  split; [|done]. eapply hrep_frame; [exact Hr|reflexivity|exact Ho|].
  intros x Hx. cbv beta in Hx. eapply payload_not_header; [exact Hr|]. lia.
Qed.

Lemma finish_spec a pre b post requested fl : hrep a (pre ++ b :: post) fl ->
  let a' := finish_step a (bsum pre) requested in
  hrep a' (pre ++ b :: post) fl /\ ar_ctx a' = ar_ctx a /\ ar_heap a' = usage_up requested (ar_heap a) /\
  only (span a (bsum pre) (bk_size b)) a a'.
Proof.
  intros Hr. destruct (usage_up_ctx requested (ar_heap a) (hr_ctx _ _ _ Hr)) as (Hc4 & Eb4 & Em4 & Ef4 & _).
  pose proof (hrep_heap a (usage_up requested (ar_heap a)) _ _ Hr Hc4 Eb4 Em4 Ef4) as Hr4.
  unfold finish_step, with_heap. set (a4 := MkArena (usage_up requested (ar_heap a)) (ar_mem a) (ar_ctx a)) in *. cbv zeta.
  destruct (hrep_block _ _ _ _ _ _ Hr4 (mid_in pre post b)) as ((Hb4 & _) & Hp0 & _ & Hend & Hsz4 & _). rewrite Hsz4.
  pose proof (hrep_bounds _ _ _ Hr4) as (Hmn & _). unfold UTAMO_HEAP_NONE, SIZE_MAX in Hmn.
  rewrite u64_small by (unfold u64_ok, BLOCK_BYTES; lia).
  destruct (hc_debug_poison (ar_heap a4)); [|split_and!; try done; by intros x _].
  destruct (payload_fill a4 pre b post _ 0xcd (addr a4 (bsum pre + BLOCK_BYTES)) (bk_size b - BLOCK_BYTES) Hr4) as [Hr5 Ho6];
    [unfold addr, BLOCK_BYTES; lia|unfold addr, BLOCK_BYTES; lia|].
  split_and!; [exact Hr5|reflexivity|reflexivity|].
  assert (hc_base (ar_heap a4) = hc_base (ar_heap a)) as Eb5 by exact Eb4.
  intros x Hx. apply Ho6. unfold span, addr, BLOCK_BYTES in *. rewrite Eb5. lia.
Qed.

Lemma take_spec a pre b post requested needed :
  hrep a (pre ++ b :: post) (free_offs 0 0 (pre ++ b :: post)) -> bk_used b = false ->
  0 < requested <= needed - 48 -> 64 <= needed <= bk_size b -> needed mod 16 = 0 ->
  let b' := MkBlk (bk_size b) true requested in
  let a' := take_block a (bsum pre) requested needed in
  hrep a' (pre ++ trimmed b' needed post) (free_offs 0 0 (pre ++ trimmed b' needed post)) /\ ar_ctx a' = ar_ctx a /\
  (exists x, ar_heap a' = usage_up requested (set_free_head x (ar_heap a))) /\
  only (fun x => hdrs a (pre ++ b :: post) x \/ span a (bsum pre) (bk_size b + merged_next post) x) a a'.
Proof.
  intros Hr Hu Hrq Hnd H16 b'. destruct (mid_facts _ _ _ _ _ Hr) as (_ & (H64 & Hb16 & _) & Hokq & _).
  pose proof (merged_nonneg post Hokq) as Hmn0.
  destruct (mark_used a pre b post requested Hr Hu ltac:(lia)) as (Hr2 & Hk2 & Ho2). unfold take_block.
  set (a2 := mark_step a (bsum pre) requested) in *. fold b' in Hr2. clearbody a2. pose proof (heap_like_base _ _ Hk2) as Eb2.
  destruct (trim_spec a2 pre b' post needed Hr2) as (Hr3 & Hk3 & Ho3);
    [reflexivity|unfold b'; cbn [bk_req]; lia|unfold b'; cbn [bk_size]; lia|done|].
  set (a3 := trim_block a2 (bsum pre) needed) in *. clearbody a3. pose proof (heap_like_base _ _ Hk3) as Eb3. rewrite Eb2 in Eb3.
  destruct (heap_like_trans _ _ _ Hk2 Hk3) as [(x3 & Ex3) Ec3].
  assert (only (fun x => hdrs a (pre ++ b :: post) x \/ span a (bsum pre) (bk_size b + merged_next post) x) a a3) as Ho4.
  { eapply only_trans; [exact Ho2|exact Ho3|]. intros x [Hx|[Hx|Hx]]; [by left| |].
    - apply (hdrs_base a a2 _ _ Eb2) in Hx. apply (hdrs_replace a pre [b] [b'] post) in Hx as [Hx|(o' & pv' & c & Hin & Hs)]; [by left| |reflexivity].
      right. cbn [place] in Hin. apply list_elem_of_singleton in Hin as [= -> -> ->]. unfold span in *. lia.
    - right. apply (span_base a a2 _ _ _ Eb2) in Hx. unfold span, addr in *. unfold b' in Hx. cbn [bk_size] in Hx. lia. }
  destruct (trimmed_head b' needed post) as (b4 & rest4 & Et & Hs4 & _ & _). rewrite Et in *.
  destruct (finish_spec a3 pre b4 rest4 requested _ Hr3) as (Hr5 & Ec5 & Eh5 & Ho5).
  assert (bk_size b4 <= bk_size b) as Hle by (rewrite Hs4; unfold b'; cbn [bk_size]; destruct (_ <? _); lia).
  split_and!; [exact Hr5|by rewrite Ec5|exists x3; by rewrite Eh5, Ex3|].
  eapply only_trans; [exact Ho4|exact Ho5|]. intros x [Hx|Hx]; [done|right].
  apply (span_base a a3 _ _ _ Eb3) in Hx. unfold span in *. lia.
Qed.
End alloc.

(** ** The kernel heap: live allocations and taking a block

    The used blocks of a heap as a list of offsets and requested sizes
    ([useds]), how each operation on the block list changes it, and allocation as
    one step on it. *)


(** ** The used blocks *)

Fixpoint useds (o : Z) (bl : list blk) : list (Z * Z) :=
  match bl with
  | [] => []
  | b :: bl => (if bk_used b then [(o, bk_req b)] else []) ++ useds (o + bk_size b) bl
  end.

Lemma useds_app o l1 l2 : useds o (l1 ++ l2) = useds o l1 ++ useds (o + bsum l1) l2.
Proof.
  revert o. induction l1 as [|b l1 IH]; intros o; cbn [useds app].
  - by rewrite Z.add_0_r.
  - rewrite IH, <-app_assoc, bsum_cons. by replace (o + bk_size b + bsum l1) with (o + (bk_size b + bsum l1)) by lia.
Qed.

Lemma useds_cons o b bl : useds o (b :: bl) = (if bk_used b then [(o, bk_req b)] else []) ++ useds (o + bk_size b) bl.
Proof. done. Qed.

Lemma elem_of_useds o pv bl o' r : (o', r) ∈ useds o bl <->
  exists pv' b, (o', pv', b) ∈ place o pv bl /\ bk_used b = true /\ bk_req b = r.
Proof.
  revert o pv. induction bl as [|b bl IH]; intros o pv; cbn [useds place].
  - split; [by intros ?%elem_of_nil|]. by intros (? & ? & ?%elem_of_nil & _).
  - rewrite elem_of_app, (IH _ (bk_size b)). split.
    + intros [Hb|(pv' & b' & Hin & ?)]; [|exists pv', b'; split; [by right|done]].
      destruct (bk_used b) eqn:Hu; [|by apply elem_of_nil in Hb]. apply list_elem_of_singleton in Hb as [= -> ->].
      exists pv, b. split_and!; [by left|done|done].
    + intros (pv' & b' & [[= -> -> ->]|Hin]%elem_of_cons & Hu & Hr); [left; rewrite Hu, Hr; by left|]. right. by exists pv', b'.
Qed.

Lemma req_sum_useds o bl : Forall blk_ok bl -> req_sum bl = foldr (fun e n => snd e + n) 0 (useds o bl).
Proof.
  intros Hok. revert o. induction Hok as [|b bl (_ & _ & Hb) _ IH]; intros o; [done|].
  rewrite req_sum_cons, useds_cons, (IH (o + bk_size b)). destruct (bk_used b); cbn [app foldr snd]; lia.
Qed.

Lemma live_count_useds o bl : live_count bl = Z.of_nat (length (useds o bl)).
Proof.
  revert o. induction bl as [|b bl IH]; intros o; [done|].
  rewrite live_count_cons, useds_cons, length_app, (IH (o + bk_size b)). destruct (bk_used b); cbn [length]; lia.
Qed.

Lemma useds_merged o post : useds (o + merged_next post) (after_merge post) = useds o post.
Proof.
  destruct post as [|n rest]; [done|]. unfold merged_next, after_merge. rewrite (useds_cons o).
  destruct (bk_used n) eqn:Hu; [rewrite Z.add_0_r, useds_cons, Hu; done|done].
Qed.

Lemma useds_trimmed o b needed post : bk_used b = true ->
  useds o (trimmed b needed post) = (o, bk_req b) :: useds (o + bk_size b) post.
Proof.
  intros Hu. unfold trimmed. destruct (_ <? _).
  - by rewrite useds_cons, Hu.
  - rewrite !useds_cons. cbn [bk_used bk_req bk_size free_blk app].
    replace (o + needed + (bk_size b - needed + merged_next post)) with (o + bk_size b + merged_next post) by lia.
    by rewrite useds_merged.
Qed.

Section live.
Context {C : Type} `{HeapOps C}.
Implicit Types a : arena C.

(** The bytes of the allocations [U] are the same in [a'] as in [a]. *)
Definition kept (U : list (Z * Z)) a a' : Prop :=
  forall o r x, (o, r) ∈ U -> addr a (o + BLOCK_BYTES) <= x < addr a (o + BLOCK_BYTES) + r -> ar_mem a' x = ar_mem a x.

Lemma kept_refl U a : kept U a a.
Proof. done. Qed.

Lemma kept_trans U a a1 a2 : hc_base (ar_heap a1) = hc_base (ar_heap a) -> kept U a a1 -> kept U a1 a2 -> kept U a a2.
Proof. intros Eb H1 H2 o r x Hin Hx. rewrite (H2 o r), (H1 o r); try done. unfold addr in *. by rewrite Eb. Qed.

Lemma kept_sub U U' a a' : U ⊆ U' -> kept U' a a' -> kept U a a'.
Proof. intros Hs Hk o r x Hin. apply Hk. by apply Hs. Qed.

Lemma useds_range o bl o' r : Forall blk_ok bl -> (o', r) ∈ useds o bl ->
  o <= o' /\ 0 < r /\ o' + 48 + r <= o + bsum bl.
Proof.
  intros Hok Hin. destruct (proj1 (elem_of_useds o 0 bl o' r) Hin) as (pv & b & Hp & Hu & Hr).
  apply place_range in Hp as (Hb & ? & ? & _); [|done].
  pose proof (proj1 (Forall_forall _ _) Hok b Hb) as (_ & _ & Hq). rewrite Hu, Hr in Hq. lia.
Qed.

Lemma live_outside a pre seg post fl o r x : hrep a (pre ++ seg ++ post) fl ->
  (o, r) ∈ useds 0 pre ++ useds (bsum pre + bsum seg) post ->
  addr a (o + BLOCK_BYTES) <= x < addr a (o + BLOCK_BYTES) + r ->
  ~ hdrs a (pre ++ seg ++ post) x /\ ~ span a (bsum pre) (bsum seg) x.
Proof.
  intros Hr Hin Hx. pose proof (hr_ok _ _ _ Hr) as Hok. apply Forall_app in Hok as [Hokp [Hoks Hokq]%Forall_app].
  assert ((o, r) ∈ useds 0 (pre ++ seg ++ post)) as Hin'.
  { rewrite !useds_app. apply elem_of_app in Hin as [?|?]; set_solver. }
  destruct (proj1 (elem_of_useds _ 0 _ _ _) Hin') as (pv & b & Hp & Hu & Hrq).
  apply place_split in Hp as (pr & po & E & -> & _). rewrite Z.add_0_l in *. split.
  - rewrite E in Hr |- *. eapply payload_not_header; [exact Hr|].
    destruct (mid_facts _ _ _ _ _ Hr) as (_ & (_ & _ & Hq) & _). rewrite Hu in Hq. unfold addr, BLOCK_BYTES in *. lia.
  - intros [Hs1 Hs2]. unfold addr, BLOCK_BYTES in *. apply elem_of_app in Hin as [Hi|Hi].
    + apply useds_range in Hi as (? & ? & ?); [|done]. lia.
    + apply useds_range in Hi as (? & ? & ?); [|done]. lia.
Qed.

(** Writing only to headers and to a segment keeps the other allocations. *)
Lemma kept_segment a a' pre seg post fl : hrep a (pre ++ seg ++ post) fl ->
  only (fun x => hdrs a (pre ++ seg ++ post) x \/ span a (bsum pre) (bsum seg) x) a a' ->
  kept (useds 0 pre ++ useds (bsum pre + bsum seg) post) a a'.
Proof.
  intros Hr Ho o r x Hin Hx. destruct (live_outside _ _ _ _ _ _ _ _ Hr Hin Hx) as [H1 H2]. apply Ho. tauto.
Qed.

Lemma useds_sep a bl fl o1 r1 o2 r2 : hrep a bl fl -> (o1, r1) ∈ useds 0 bl -> (o2, r2) ∈ useds 0 bl ->
  (o1 = o2 /\ r1 = r2) \/ o1 + 48 + r1 <= o2 \/ o2 + 48 + r2 <= o1.
Proof.
  intros Hr H1 H2. destruct (proj1 (elem_of_useds _ 0 _ _ _) H1) as (p1 & b1 & Hp1 & Hu1 & <-).
  destruct (proj1 (elem_of_useds _ 0 _ _ _) H2) as (p2 & b2 & Hp2 & Hu2 & <-).
  destruct (hrep_block _ _ _ _ _ _ Hr Hp1) as ((_ & _ & Hq1) & _). destruct (hrep_block _ _ _ _ _ _ Hr Hp2) as ((_ & _ & Hq2) & _).
  rewrite Hu1 in Hq1. rewrite Hu2 in Hq2.
  destruct (place_sep 0 0 bl _ _ _ _ _ _ (hr_ok _ _ _ Hr) Hp1 Hp2) as [(-> & _ & ->)|[?|?]]; [by left|right; lia|right; lia].
Qed.
End live.

(** ** The kernel heap: allocation

    Searching, growing and taking a block, as one step on the live
    allocations. *)

Section take.
Context {C : Type} `{HeapOps C}.
Implicit Types a : arena C.

Lemma ctx_typed h : ctx_ok h -> heap_typed h.
Proof. intros []. unfold heap_typed, u64_ok. lia. Qed.

Lemma rep_validate a bl : heap_rep a bl -> heap_core_validate a = true.
Proof. intros Hr. apply heap_validate_rep; [apply ctx_typed; apply Hr|by exists bl]. Qed.

Lemma fit_spec a bl needed : hrep a bl (free_offs 0 0 bl) ->
  let o := find_fit a needed in
  (o = UTAMO_HEAP_NONE /\ forall b, b ∈ bl -> bk_used b = false -> bk_size b < needed) \/
  (o <> UTAMO_HEAP_NONE /\
   exists pre b post, bl = pre ++ b :: post /\ o = bsum pre /\ bk_used b = false /\ needed <= bk_size b).
Proof.
  intros Hr o. unfold o. rewrite (find_fit_spec _ _ _ needed Hr).
  destruct (List.find _ _) as [o'|] eqn:Ef; cbn [from_option default id].
  - right. apply List.find_some in Ef as [Hin Hsz]. apply list_elem_of_In, elem_of_free_offs in Hin as (pv & b & Hin & Hu).
    destruct (hrep_block _ _ _ _ _ _ Hr Hin) as (Hok & Ho & _ & Hend & Es & _). rewrite Es in Hsz.
    pose proof (hrep_bounds _ _ _ Hr) as [Hm _]. destruct Hok as [H64 _]. split; [lia|].
    apply place_split in Hin as (pre & post & -> & -> & _). exists pre, b, post. rewrite Z.add_0_l. split_and!; try done. lia.
  - left. split; [done|]. intros b (pre & post & ->)%list_elem_of_split Hu.
    pose proof (mid_in pre post b) as Hin. destruct (hrep_block _ _ _ _ _ _ Hr Hin) as (_ & _ & _ & _ & Es & _).
    assert (bsum pre ∈ free_offs 0 0 (pre ++ b :: post)) as Hf by (apply elem_of_free_offs; eauto).
    apply list_elem_of_In in Hf. pose proof (List.find_none _ _ Ef _ Hf) as Hn. cbn beta in Hn. rewrite Es in Hn. lia.
Qed.

(** The search of [allocate]. *)
Definition search a (needed : Z) (allow_growth : bool) : arena C * Z :=
  let offset := find_fit a needed in
  if (offset =? UTAMO_HEAP_NONE) && allow_growth then
    let (a, grown) := grow_heap a needed in
    (a, if grown then find_fit a needed else UTAMO_HEAP_NONE)
  else (a, offset).

Lemma finish_eq a o requested :
  (let a := with_heap (fun h => set_usage (hc_used_bytes h +u requested) (hc_live_allocations h +u 1) h) a in
   let a := with_heap (fun h => set_counts (increment (hc_allocations h)) (hc_frees h)
                                  (hc_failed_allocations h) (hc_invalid_frees h) h) a in
   let a := if hc_peak_usage (ar_heap a) <? hc_used_bytes (ar_heap a)
            then with_heap (fun h => set_peak (hc_used_bytes h) h) a else a in
   let pointer := addr a (o + BLOCK_BYTES) in
   let a := if hc_debug_poison (ar_heap a)
            then with_mem (fun mem => mem_fill mem pointer 0xcd (block_size (block_at a o) -u BLOCK_BYTES)) a
            else a in
   (a, pointer)) = (finish_step a o requested, addr a (o + BLOCK_BYTES)).
Proof.
  destruct a as [h mem c]. unfold finish_step, with_heap, usage_up. cbn [ar_heap ar_mem ar_ctx].
  destruct (_ <? _); cbn [ar_heap ar_mem ar_ctx]; cbn [hc_debug_poison set_peak set_counts set_usage];
    by destruct (hc_debug_poison h).
Qed.

Lemma allocate_eq a requested needed g : allocate a requested needed g =
  let (a1, o) := search a needed g in
  if o =? UTAMO_HEAP_NONE then (a1, 0)
  else (take_block a1 o requested needed,
        addr (trim_block (mark_step a1 o requested) o needed) (o + BLOCK_BYTES)).
Proof.
  unfold allocate, search. destruct (if _ && g then _ else _) as [a1 o]. destruct (o =? UTAMO_HEAP_NONE); [done|].
  apply finish_eq.
Qed.

Lemma no_adjacent_weak pf bl : no_adjacent pf bl -> no_adjacent false bl.
Proof. destruct bl as [|b bl]; [done|]. intros [_ ?]. by split. Qed.

Lemma last_split (bl : list blk) : bl <> [] -> exists pre t, bl = pre ++ [t].
Proof. destruct bl as [|bl t] using rev_ind; [done|]. eauto. Qed.

Lemma grown_rep a a' pre t needed extra : heap_rep a (pre ++ [t]) -> grown a a' pre t needed extra ->
  exists pre' b, heap_rep a' (pre' ++ [b]) /\ bk_used b = false /\ needed <= bk_size b /\
    (if bk_used t then pre' = pre ++ [t] else pre' = pre) /\
    useds 0 (pre' ++ [b]) = useds 0 (pre ++ [t]) /\ kept (useds 0 (pre ++ [t])) a a'.
Proof.
  intros [Hr Hadj Hus Hlv Hpk] (Hex & Hr' & Hnd & (x & Eh) & Hmx & Ho).
  apply no_adjacent_app in Hadj as (Hadj1 & Hadj2 & _).
  assert (kept (useds 0 (pre ++ [t])) a a') as Hk.
  { intros o r y Hin Hy. apply Ho. intros Hc.
    pose proof (live_outside a [] [] (pre ++ [t]) _ o r y Hr Hin Hy) as [Hnh _]. cbn [app] in Hnh. destruct Hc as [Hc|Hc]; [done|].
    pose proof (hr_ok _ _ _ Hr) as Hok. pose proof (useds_range _ _ _ _ Hok Hin) as Hrg. rewrite bsum_app, bsum_cons in Hrg.
    change (bsum []) with 0 in Hrg. destruct (bk_used t) eqn:Ht; [unfold span, addr, BLOCK_BYTES in *; lia|].
    rewrite useds_app in Hin. cbn [useds] in Hin. rewrite Ht, !app_nil_r in Hin.
    apply Forall_app in Hok as [Hokp _]. apply useds_range in Hin; [|done]. unfold span, addr, BLOCK_BYTES in *. lia. }
  assert (forall bl', useds 0 bl' = useds 0 (pre ++ [t]) -> hrep a' bl' (free_offs 0 0 bl') -> no_adjacent false bl' -> heap_rep a' bl') as Hrep.
  { intros bl' Eu Hb Ha. pose proof (req_sum_useds 0 _ (hr_ok _ _ _ Hr)) as E1. pose proof (req_sum_useds 0 _ (hr_ok _ _ _ Hb)) as E2.
    rewrite Eu, <-E1 in E2. constructor; [done|done|rewrite Eh, E2; done| |rewrite Eh, E2; done].
    rewrite Eh, (live_count_useds 0), Eu, <-live_count_useds. done. }
  destruct (bk_used t) eqn:Ht; cbn [app] in Hr'.
  - exists (pre ++ [t]), (free_blk extra). assert (useds 0 ((pre ++ [t]) ++ [free_blk extra]) = useds 0 (pre ++ [t])) as Eu.
    { rewrite (useds_app 0 (pre ++ [t])). cbn. by rewrite app_nil_r. }
    split_and!; try done. apply Hrep; [done|by rewrite <-app_assoc|]. rewrite <-app_assoc. apply no_adjacent_app. split; [done|].
    cbn. rewrite Ht. split_and!; try done.
  - exists pre, (free_blk (bk_size t + extra)). assert (useds 0 (pre ++ [free_blk (bk_size t + extra)]) = useds 0 (pre ++ [t])) as Eu.
    { rewrite !useds_app. cbn. by rewrite Ht. }
    split_and!; try done. apply Hrep; [done|done|]. apply no_adjacent_app. split; [done|]. split; [|done].
    intros E. apply Hadj2 in E. congruence.
Qed.

(** [ar_heap] up to the head of the free list and the mapped size. *)
Definition heap_reshaped a a' : Prop := exists x m, ar_heap a' = set_free_head x (set_mapped_size m (ar_heap a)).

Lemma reshaped_base a a' : heap_reshaped a a' -> hc_base (ar_heap a') = hc_base (ar_heap a).
Proof. intros (x & m & ->). done. Qed.

Lemma reshaped_refl a : heap_reshaped a a.
Proof. exists (hc_free_head (ar_heap a)), (hc_mapped_size (ar_heap a)). by destruct (ar_heap a). Qed.

Lemma search_spec a bl needed g : heap_rep a bl -> 64 <= needed <= UINT64_MAX ->
  let (a1, o) := search a needed g in
  (o = UTAMO_HEAP_NONE /\ ar_heap a1 = ar_heap a /\ ar_mem a1 = ar_mem a /\
   forall b, b ∈ bl -> bk_used b = false -> bk_size b < needed) \/
  (o <> UTAMO_HEAP_NONE /\ exists pre b post, heap_rep a1 (pre ++ b :: post) /\ o = bsum pre /\ bk_used b = false /\
    needed <= bk_size b /\ useds 0 (pre ++ b :: post) = useds 0 bl /\ kept (useds 0 bl) a a1 /\ heap_reshaped a a1).
Proof.
  intros Hrep Hn. pose proof (hp_rep _ _ Hrep) as Hr. unfold search.
  destruct (fit_spec a bl needed Hr) as [[Eo Hnone]|(Hne & pre & b & post & E & Eo & Hu & Hs)]; cycle 1.
  { rewrite (proj2 (Z.eqb_neq _ _) Hne). cbn [andb]. right. split; [done|]. subst bl.
    exists pre, b, post. split_and!; try done. apply reshaped_refl. }
  rewrite (proj2 (Z.eqb_eq _ _) Eo). cbn [andb]. destruct g; [|by left].
  destruct (last_split bl) as (pre & t & ->).
  { intros ->. pose proof (hr_size _ _ _ Hr) as Hz. pose proof (hrep_bounds _ _ _ Hr) as [Hm _]. cbn in Hz. lia. }
  pose proof (grow_spec a pre t needed Hr ltac:(lia)) as Hg. destruct (grow_heap a needed) as [a' ok]. rewrite Z.max_l in Hg by lia.
  destruct ok; [|left; destruct Hg; split_and!; try done].
  destruct Hg as [(-> & Ht & Hle)|(extra & Hg)].
  { exfalso. pose proof (Hnone t ltac:(set_solver) Ht). lia. }
  pose proof Hg as (_ & _ & _ & (x & Eh) & _).
  destruct (grown_rep a a' pre t needed extra Hrep Hg) as (pre' & b & Hrep' & Hu & Hle & _ & Eu & Hk).
  destruct (fit_spec a' _ needed (hp_rep _ _ Hrep')) as [[_ Hn2]|(Hne & p2 & b2 & q2 & E2 & Eo2 & Hu2 & Hs2)].
  { exfalso. pose proof (Hn2 b ltac:(set_solver) Hu). lia. }
  right. split; [done|]. exists p2, b2, q2. rewrite <-E2. split_and!; try done. eexists _, _. exact Eh.
Qed.

Lemma adj_mid_free pre b post : no_adjacent false (pre ++ b :: post) -> bk_used b = false ->
  merged_next post = 0 /\ after_merge post = post.
Proof.
  intros [_ [_ Hq]]%no_adjacent_app Hu. rewrite Hu in Hq. destruct post as [|n rest]; [done|].
  destruct Hq as [Hn _]. unfold merged_next, after_merge. by rewrite (Hn eq_refl).
Qed.

Lemma after_merge_adj post : no_adjacent false post -> no_adjacent true (after_merge post).
Proof.
  destruct post as [|n rest]; [done|]. intros [_ Hq]. cbn [after_merge]. destruct (bk_used n) eqn:Hn; [|done].
  split; [done|]. by rewrite Hn.
Qed.

Lemma trimmed_adj pf b needed post : bk_used b = true -> no_adjacent pf (b :: post) -> no_adjacent pf (trimmed b needed post).
Proof.
  intros Hu [Hb Hq]. rewrite Hu in Hq. unfold trimmed. destruct (_ <? _); [split; [done|by rewrite Hu]|].
  split; [done|]. split; [done|]. by apply after_merge_adj.
Qed.

Definition req_total (U : list (Z * Z)) : Z := foldr (fun e n => snd e + n) 0 U.

Lemma req_total_insert U1 U2 o r : req_total (U1 ++ (o, r) :: U2) = r + req_total (U1 ++ U2).
Proof. unfold req_total. induction U1 as [|e U1 IH]; cbn [app foldr snd]; lia. Qed.

(** The counters of a heap with the live allocations [U]. *)
Definition counted (h : heap_core) (U : list (Z * Z)) : Prop :=
  hc_used_bytes h = req_total U /\ hc_live_allocations h = Z.of_nat (length U) /\ req_total U <= hc_peak_usage h.

Lemma rep_counted a bl : hrep a bl (free_offs 0 0 bl) -> no_adjacent false bl -> counted (ar_heap a) (useds 0 bl) -> heap_rep a bl.
Proof.
  intros Hr Ha (Hu & Hl & Hp). pose proof (req_sum_useds 0 _ (hr_ok _ _ _ Hr)) as E.
  constructor; [done|done|by rewrite E|by rewrite (live_count_useds 0)|by rewrite E].
Qed.

Lemma counted_rep a bl : heap_rep a bl -> counted (ar_heap a) (useds 0 bl).
Proof.
  intros [Hr Ha Hu Hl Hp]. rewrite (req_sum_useds 0 _ (hr_ok _ _ _ Hr)) in *. rewrite (live_count_useds 0) in Hl. by split_and!.
Qed.

(** No sum of requested sizes exceeds the arena. *)
Lemma req_total_bound a bl fl : hrep a bl fl ->
  0 <= req_total (useds 0 bl) < UTAMO_HEAP_NONE /\ 64 * Z.of_nat (length (useds 0 bl)) < UTAMO_HEAP_NONE.
Proof.
  intros Hr. pose proof (hr_ok _ _ _ Hr) as Hok. pose proof (req_sum_bound _ Hok) as H1. pose proof (live_count_bound _ Hok) as H2.
  pose proof (hrep_bounds _ _ _ Hr) as [H3 _]. rewrite (hr_size _ _ _ Hr) in *. rewrite (req_sum_useds 0 _ Hok) in H1.
  rewrite (live_count_useds 0) in H2. fold (req_total (useds 0 bl)) in H1. lia.
Qed.

Lemma counted_up h U1 U2 o r : counted h (U1 ++ U2) -> req_total (U1 ++ (o, r) :: U2) <= UINT64_MAX ->
  Z.of_nat (length (U1 ++ (o, r) :: U2)) <= UINT64_MAX -> 0 <= r -> 0 <= req_total (U1 ++ U2) ->
  counted (usage_up r h) (U1 ++ (o, r) :: U2).
Proof.
  intros (Hu & Hl & Hp) Hm Hn Hr0 H0. rewrite req_total_insert in *. rewrite length_app in *. cbn [length] in *.
  unfold usage_up. cbn [hc_peak_usage hc_used_bytes hc_live_allocations set_counts set_usage].
  assert (hc_used_bytes h +u r = r + req_total (U1 ++ U2)) as E1 by (rewrite Hu, u64_small; unfold u64_ok; lia).
  assert (hc_live_allocations h +u 1 = Z.of_nat (length U1 + S (length U2))) as E2 by (rewrite Hl, u64_small; unfold u64_ok; lia).
  rewrite E1, E2. unfold counted. rewrite req_total_insert, length_app. cbn [length].
  destruct (Z.ltb_spec (hc_peak_usage h) (r + req_total (U1 ++ U2))); cbn [hc_peak_usage hc_used_bytes hc_live_allocations set_counts set_usage set_peak];
    split_and!; lia.
Qed.

Lemma usage_up_base req h : hc_base (usage_up req h) = hc_base h.
Proof. unfold usage_up. by destruct (_ <? _). Qed.

Lemma finish_base a o r : hc_base (ar_heap (finish_step a o r)) = hc_base (ar_heap a).
Proof.
  unfold finish_step, with_heap, usage_up. cbn [ar_heap]. destruct (_ <? _); cbn [hc_debug_poison set_peak set_counts set_usage];
    by destruct (hc_debug_poison _).
Qed.

(** What [allocate] does: either the heap is as before and no free block is
    large enough, or one allocation is added and the others keep their bytes. *)
Lemma allocate_spec a bl requested needed g : heap_rep a bl -> 0 < requested <= needed - 48 -> 64 <= needed <= UINT64_MAX ->
  needed mod 16 = 0 ->
  let (a', p) := allocate a requested needed g in
  (p = 0 /\ ar_heap a' = ar_heap a /\ ar_mem a' = ar_mem a /\ forall b, b ∈ bl -> bk_used b = false -> bk_size b < needed) \/
  (p <> 0 /\ exists bl' U1 o U2, heap_rep a' bl' /\ p = addr a (o + BLOCK_BYTES) /\ useds 0 bl = U1 ++ U2 /\
    useds 0 bl' = U1 ++ (o, requested) :: U2 /\ kept (useds 0 bl) a a' /\
    exists x m, ar_heap a' = usage_up requested (set_free_head x (set_mapped_size m (ar_heap a)))).
Proof.
  intros Hrep Hrq Hn H16. rewrite allocate_eq. pose proof (search_spec a bl needed g Hrep Hn) as Hs.
  destruct (search a needed g) as [a1 o]. destruct Hs as [(-> & Eh & Em & Hno)|(Hne & pre & b & post & Hrep1 & -> & Hu & Hle & Eu & Hk & Hsh)].
  { rewrite Z.eqb_refl. left. done. }
  rewrite (proj2 (Z.eqb_neq _ _) Hne). pose proof (hp_rep _ _ Hrep1) as Hr1.
  destruct (adj_mid_free _ _ _ (hp_adj _ _ Hrep1) Hu) as [Em1 Em2].
  destruct (take_spec a1 pre b post requested needed Hr1 Hu Hrq ltac:(lia) H16) as (Hr2 & _ & (x & Eh2) & Ho2).
  destruct Hsh as (y & m & Eh1). pose proof (hrep_bounds _ _ _ Hr1) as (Hm & _ & Hb0 & _).
  destruct (hrep_block _ _ _ _ _ _ Hr1 (mid_in pre post b)) as (_ & Ho0 & _).
  set (a2 := take_block a1 (bsum pre) requested needed) in *. set (b' := MkBlk (bk_size b) true requested) in *.
  assert (useds 0 (pre ++ trimmed b' needed post) = useds 0 pre ++ (bsum pre, requested) :: useds (bsum pre + bk_size b) post) as Eu2.
  { rewrite useds_app, useds_trimmed by done. done. }
  assert (useds 0 bl = useds 0 pre ++ useds (bsum pre + bk_size b) post) as Eu1 by (by rewrite <-Eu, useds_app, useds_cons, Hu).
  assert (hc_base (ar_heap a2) = hc_base (ar_heap a)) as Eb.
  { rewrite Eh2, usage_up_base, Eh1. done. }
  assert (addr (trim_block (mark_step a1 (bsum pre) requested) (bsum pre) needed) (bsum pre + BLOCK_BYTES) =
          addr a (bsum pre + BLOCK_BYTES)) as ->.
  { unfold addr. rewrite <-Eb. unfold a2, take_block. by rewrite finish_base. }
  clearbody a2. rewrite Eh1 in Hb0. cbn [hc_base set_free_head set_mapped_size] in Hb0.
  right. split; [unfold addr, BLOCK_BYTES; lia|]. eexists _, _, _, _. split_and!; [|done|exact Eu1|exact Eu2| |].
  - pose proof (req_total_bound _ _ _ Hr2) as Hbd. rewrite Eu2 in Hbd. pose proof (req_total_bound _ _ _ Hr1) as Hbd1.
    rewrite Eu, Eu1 in Hbd1. unfold UTAMO_HEAP_NONE, SIZE_MAX in *.
    apply rep_counted; [exact Hr2| |].
    + pose proof (hp_adj _ _ Hrep1) as [Ha1 [_ Ha2]]%no_adjacent_app. apply no_adjacent_app. split; [done|].
      apply trimmed_adj; [done|]. split; [done|]. by apply (no_adjacent_weak (negb (bk_used b))).
    + rewrite Eu2, Eh2. apply counted_up; [|lia|lia|lia|lia]. pose proof (counted_rep _ _ Hrep1) as Hc.
      by rewrite Eu, Eu1 in Hc.
  - eapply kept_trans; [|exact Hk|]; [by rewrite Eh1|]. rewrite Eu1.
    assert (bsum [b] = bk_size b) as Es by apply Z.add_0_r. rewrite Em1, Z.add_0_r, <-Es in Ho2. rewrite <-Es.
    exact (kept_segment a1 a2 pre [b] post _ Hr1 Ho2).
  - exists x, m. rewrite Eh2, Eh1. by destruct (ar_heap a).
Qed.
End take.
