(* ===== verification/HeapFree.v ===== *)
(** * The kernel heap: sizes, pointers, release and resizing in place

    The size of a block for a request, the lookup of a pointer, [release],
    [consume_next] and [resize_block] as steps on the live allocations. *)

From S2P Require Import Prelude HeapCore HeapInv HeapLinks HeapBlocks HeapAlloc Bytes.
Open Scope Z_scope.

Section free.
Context {C : Type} `{HeapOps C}.
Implicit Types a : arena C.

(** The least multiple of 16 that holds a header and the request. *)
Lemma required_size_spec requested : u64_ok requested ->
  match required_size requested with
  | Some needed => 0 < requested <= needed - 48 /\ needed - 48 < requested + 16 /\ 64 <= needed <= UINT64_MAX /\ needed mod 16 = 0
  | None => requested = 0 \/ UINT64_MAX - 63 < requested
  end.
Proof.
  intros Hr. unfold required_size. change (BLOCK_BYTES +u UTAMO_HEAP_FLAG_MASK) with 63. change (SIZE_MAX -u 63) with (UINT64_MAX - 63).
  unfold u64_ok in Hr. destruct (Z.eqb_spec requested 0); [by left|]. cbn [orb]. destruct (Z.ltb_spec (UINT64_MAX - 63) requested); [by right|].
  rewrite (u64_small (requested + 63)) by (unfold u64_ok; lia). rewrite size_mask by (unfold u64_ok; lia). split_and!; dlia.
Qed.

Lemma pointer_offset_spec a bl p : heap_rep a bl -> u64_ok p ->
  let o := pointer_offset a p in
  (o = UTAMO_HEAP_NONE /\ forall o' r, (o', r) ∈ useds 0 bl -> p <> addr a (o' + BLOCK_BYTES)) \/
  (o <> UTAMO_HEAP_NONE /\ exists pre b post, bl = pre ++ b :: post /\ bk_used b = true /\ o = bsum pre /\ p = addr a (o + BLOCK_BYTES)).
Proof.
  intros Hrep Hp o. pose proof (hp_rep _ _ Hrep) as Hr. pose proof (hrep_bounds _ _ _ Hr) as (Hm & Htop & Hb0 & Hmx).
  unfold u64_ok in Hp. unfold o, pointer_offset.
  assert (forall o' r, (o', r) ∈ useds 0 bl -> p = addr a (o' + BLOCK_BYTES) ->
    0 <= o' /\ p = hc_base (ar_heap a) + o' + 48 /\ o' + 48 < hc_mapped_size (ar_heap a) /\ p mod 16 = 0 /\ placed bl o' /\ block_used (block_at a o') = true) as Hlive.
  { intros o' r Hin ->. destruct (proj1 (elem_of_useds _ 0 _ _ _) Hin) as (pv & b & Hpl & Hu & _).
    destruct (hrep_block _ _ _ _ _ _ Hr Hpl) as ((H64 & _) & ? & H16 & ? & _ & Eu & _). pose proof (co_align _ (hr_ctx _ _ _ Hr)).
    unfold addr, BLOCK_BYTES. split_and!; try lia; [dlia|by eexists _, _|congruence]. }
  set (g := _ || _ || _ || _). destruct g eqn:Hg; unfold g in Hg; clear g.
  { left. split; [done|]. intros o' r Hin E. destruct (Hlive o' r Hin E) as (? & Ep & ? & H16 & _).
    rewrite flag_mask, H16 in Hg. rewrite (u64_small (p - _)) in Hg by (unfold u64_ok; lia). unfold BLOCK_BYTES in Hg.
    repeat (apply orb_true_iff in Hg as [Hg|Hg]); [lia|lia|lia|done]. }
  apply orb_false_iff in Hg as [[[G1 G2]%orb_false_iff G3]%orb_false_iff G4].
  assert (p -u hc_base (ar_heap a) = p - hc_base (ar_heap a)) as E1 by (apply u64_small; unfold u64_ok; lia). rewrite E1 in *.
  unfold BLOCK_BYTES in *. rewrite (u64_small (p - _ - 48)) by (unfold u64_ok; lia). set (t := p - hc_base (ar_heap a) - 48).
  destruct (exact_block a t && block_used (block_at a t)) eqn:Et; cycle 1.
  - left. split; [done|]. intros o' r Hin E. destruct (Hlive o' r Hin E) as (? & Ep & _ & _ & Hpl & Hu).
    assert (o' = t) as -> by (unfold t; lia). apply (exact_block_spec _ _ _ _ Hr) in Hpl. by rewrite Hpl, Hu in Et.
  - apply andb_true_iff in Et as [(pv & b & Hin)%(exact_block_spec _ _ _ _ Hr) Hu]. right. split; [lia|].
    destruct (hrep_block _ _ _ _ _ _ Hr Hin) as (_ & _ & _ & _ & _ & Eu & _).
    apply place_split in Hin as (pre & post & E & Eo & _). exists pre, b, post. rewrite Z.add_0_l in Eo.
    split_and!; [done|congruence|done|]. unfold addr, t. lia.
Qed.

Lemma counted_down h U1 U2 o r : counted h (U1 ++ (o, r) :: U2) -> 0 <= r -> 0 <= req_total (U1 ++ U2) ->
  req_total (U1 ++ (o, r) :: U2) <= UINT64_MAX -> Z.of_nat (length (U1 ++ (o, r) :: U2)) <= UINT64_MAX ->
  counted (usage_down r h) (U1 ++ U2).
Proof.
  intros (Hu & Hl & Hp) Hr0 H0 Hm Hn. rewrite req_total_insert in *. rewrite length_app in *. cbn [length] in *.
  unfold usage_down, counted. cbn [hc_peak_usage hc_used_bytes hc_live_allocations set_counts set_usage].
  rewrite Hu, Hl, !u64_small by (unfold u64_ok; lia). rewrite length_app. split_and!; lia.
Qed.

(** The bytes that [release] may write lie outside the other allocations. *)
Lemma release_rep a pre b post : heap_rep a (pre ++ b :: post) -> bk_used b = true ->
  let a' := release a (bsum pre) in
  let U := useds 0 pre ++ useds (bsum pre + bk_size b) post in
  useds 0 (pre ++ b :: post) = useds 0 pre ++ (bsum pre, bk_req b) :: useds (bsum pre + bk_size b) post /\
  exists bl', heap_rep a' bl' /\ useds 0 bl' = U /\ kept U a a' /\
    exists x, ar_heap a' = set_free_head x (usage_down (bk_req b) (ar_heap a)).
Proof.
  intros Hrep Hu. pose proof (hp_rep _ _ Hrep) as Hr. cbv zeta.
  assert (useds 0 (pre ++ b :: post) = useds 0 pre ++ (bsum pre, bk_req b) :: useds (bsum pre + bk_size b) post) as Eu.
  { by rewrite useds_app, useds_cons, Hu. }
  split; [exact Eu|]. destruct (release_spec a pre b post Hr Hu) as (pre' & segp & -> & Hseg & Hr' & _ & (x & Eh) & Ho).
  set (total := bsum segp + bk_size b + merged_next post) in *. set (a' := release a (bsum (pre' ++ segp))) in *. clearbody a'.
  assert (useds 0 (pre' ++ segp) = useds 0 pre') as Ep.
  { destruct Hseg as [[-> _]|(p & -> & Hp)]; [by rewrite app_nil_r|]. rewrite useds_app. cbn [useds]. by rewrite Hp, !app_nil_r. }
  set (U := useds 0 (pre' ++ segp) ++ useds (bsum (pre' ++ segp) + bk_size b) post).
  assert (useds 0 (pre' ++ free_blk total :: after_merge post) = U) as Eu'.
  { unfold U. rewrite Ep, useds_app, useds_cons. cbn [bk_used free_blk app bk_size]. f_equal. rewrite <-(useds_merged _ post), bsum_app.
    f_equal. unfold total. lia. }
  exists (pre' ++ free_blk total :: after_merge post). split_and!; [|exact Eu'| |by exists x].
  - pose proof (req_total_bound _ _ _ Hr) as Hbd. rewrite Eu in Hbd. pose proof (req_total_bound _ _ _ Hr') as Hbd'. rewrite Eu' in Hbd'.
    destruct (mid_facts _ _ _ _ _ Hr) as (_ & (_ & _ & Hq) & _). rewrite Hu in Hq. unfold UTAMO_HEAP_NONE, SIZE_MAX in *.
    apply rep_counted; [exact Hr'| |].
    + pose proof (hp_adj _ _ Hrep) as Ha. apply no_adjacent_app in Ha as [Ha [_ Hb]]. rewrite Hu in Hb. apply no_adjacent_app.
      apply no_adjacent_app in Ha as [Ha1 Ha2]. split; [done|]. split; [|by apply after_merge_adj].
      destruct Hseg as [[-> He]|(p & -> & Hp)]; [rewrite app_nil_r in He; congruence|]. destruct Ha2 as [Ha2 _]. intros E.
      apply Ha2 in E. congruence.
    + rewrite Eu', Eh. pose proof (counted_down (ar_heap a) _ _ _ _ (eq_ind _ (counted _) (counted_rep _ _ Hrep) _ Eu)) as Hc.
      apply Hc; try lia. apply Hbd'.
  - destruct (mid_facts _ _ _ _ _ Hr) as (_ & _ & Hokq & _). pose proof (merged_split post Hokq) as Em.
    set (segm := if merged_next post =? 0 then [] else [free_blk (merged_next post)]) in Em.
    assert (bsum segm = merged_next post) as Esm.
    { unfold segm. destruct (Z.eqb_spec (merged_next post) 0) as [->|]; [done|]. apply Z.add_0_r. }
    assert ((pre' ++ segp) ++ b :: post = pre' ++ (segp ++ b :: segm) ++ after_merge post) as El.
    { rewrite Em at 1. by rewrite <-!app_assoc. }
    assert (bsum (segp ++ b :: segm) = total) as Et by (rewrite bsum_app, bsum_cons, Esm; unfold total; lia).
    rewrite El in Hr, Ho. rewrite <-Et in Ho. pose proof (kept_segment _ _ _ _ _ _ Hr Ho) as Hk.
    rewrite Et in Hk. rewrite <-Eu', useds_app, useds_cons. exact Hk.
Qed.
End free.

(** ** The kernel heap: growing and shrinking in place

    [consume_next] joins a used block with the free block behind it;
    [resize_block] sets the requested size and trims. *)

Section resize.
Context {C : Type} `{HeapOps C}.
Implicit Types a : arena C.

Lemma next_block a pre b n rest fl : hrep a (pre ++ b :: n :: rest) fl ->
  blk_ok n /\ bsum pre + bk_size b + bk_size n <= hc_mapped_size (ar_heap a) /\
  block_size (block_at a (bsum pre + bk_size b)) = bk_size n /\ block_used (block_at a (bsum pre + bk_size b)) = bk_used n.
Proof.
  intros Hr. assert ((bsum pre + bk_size b, bk_size b, n) ∈ place 0 0 (pre ++ b :: n :: rest)) as Hin.
  { rewrite place_app. apply elem_of_app. right. cbn [place]. rewrite Z.add_0_l. right. by left. }
  destruct (hrep_block _ _ _ _ _ _ Hr Hin) as (? & ? & ? & ? & ? & ? & _). split_and!; done.
Qed.

(** The stores of [consume_next] after the free block left the list. *)
Lemma join_spec a pre b n rest fl : hrep a (pre ++ b :: n :: rest) fl -> bk_used b = true -> bsum pre ∉ fl ->
  (forall x, x ∈ fl -> x < bsum pre \/ bsum pre + (bk_size b + bk_size n) <= x) ->
  let combined := bk_size b + bk_size n in
  let a' := following_previous (set_size_flags (bsum pre) (Z.lor combined UTAMO_HEAP_USED) a) (bsum pre) combined in
  hrep a' (pre ++ MkBlk combined true (bk_req b) :: rest) fl /\ ar_heap a' = ar_heap a /\ ar_ctx a' = ar_ctx a /\
  only (hdrs a (pre ++ b :: n :: rest)) a a'.
Proof.
  intros Hr Hu Hnf Hfl combined. destruct (mid_facts _ _ _ _ _ Hr) as (_ & (H64 & H16 & Hq) & Hokq & _). rewrite Hu in Hq.
  destruct (next_block _ _ _ _ _ _ Hr) as ((Hn64 & Hn16 & _) & Hend & _ & _).
  destruct (hrep_block _ _ _ _ _ _ Hr (mid_in pre (n :: rest) b)) as (_ & Ho0 & _ & _ & _ & _ & Hpv & Hrq & _).
  pose proof (hrep_bounds _ _ _ Hr) as (Hmn & _). unfold UTAMO_HEAP_NONE, SIZE_MAX in Hmn.
  assert (unlinked a (bsum pre)) as [U1 U2] by (destruct Hr; eapply hr_out; [apply mid_in|done]).
  assert (hdr a (bsum pre, last_size 0 pre, b)) as (_ & _ & _ & F4) by (destruct Hr; apply hr_hdr, mid_in).
  assert (Z.lor combined UTAMO_HEAP_USED = combined + 1) as Elor by (apply (flagged_lor combined true); unfold combined; dlia).
  set (a1 := set_size_flags _ _ a). assert (only (span a (bsum pre) 48) a a1) as Ho1 by (apply (only_store a 0); lia).
  assert (bsum [b; n] = combined) as Es by (cbn; lia).
  assert (block_at a1 (bsum pre) = MkBlock (combined + 1) (last_size 0 pre) (bk_req b) UTAMO_HEAP_NONE UTAMO_HEAP_NONE
    (block_cookie (ar_heap a) (bsum pre))) as E1.
  { unfold a1. rewrite Elor, store_size_flags by (unfold u64_ok, combined; lia).
    cbv zeta. by rewrite Hpv, Hrq, F4, U1, U2. }
  assert (ar_heap a1 = ar_heap a) as Eh1 by reflexivity. assert (ar_ctx a1 = ar_ctx a) as Ec1 by reflexivity. clearbody a1.
  destruct (segment_replace a pre [b; n] rest fl Hr ltac:(by rewrite Es) a1 [MkBlk combined true (bk_req b)] (bsum pre) combined)
    as (Hr' & Eh' & Ec' & _); try done.
  - eapply only_weaken; [exact Ho1|]. rewrite Es. unfold span, combined. intros x. lia.
  - repeat constructor; cbn [bk_size bk_used bk_req]; unfold combined; try dlia.
  - rewrite Es. cbn. lia.
  - unfold u64_ok, combined. lia.
  - by rewrite Es.
  - intros e He. cbn [place] in He. apply list_elem_of_singleton in He as ->. cbn [fst hdr]. unfold unlinked. rewrite E1, Eh1.
    cbn [hb_size_flags hb_prev_size hb_requested hb_cookie hb_free_prev hb_free_next]. by split_and!.
  - split_and!; [done|done|done|]. eapply only_trans; [exact Ho1|apply following_only; unfold combined; lia|].
    intros x [Hx|[Hlt Hx]]; [exists (bsum pre); split; [apply mid_placed|done]|].
    apply (span_base a a1 _ _ _ (f_equal hc_base Eh1)) in Hx. rewrite Eh1 in Hlt. destruct rest as [|c rest].
    + exfalso. pose proof (hr_size _ _ _ Hr) as Hz. rewrite bsum_app, !bsum_cons in Hz. change (bsum []) with 0 in Hz. unfold combined in Hlt. lia.
    + exists (bsum pre + combined). split; [|done]. rewrite <-Es. by apply (next_header pre [b; n] (c :: rest) c rest).
Qed.

Lemma consume_spec a pre b post needed : heap_rep a (pre ++ b :: post) -> bk_used b = true -> bk_size b <= needed <= UINT64_MAX ->
  let (a', ok) := consume_next a (bsum pre) needed in
  if ok then exists n rest, post = n :: rest /\ bk_used n = false /\ needed <= bk_size b + bk_size n /\
    heap_rep a' (pre ++ MkBlk (bk_size b + bk_size n) true (bk_req b) :: rest) /\ heap_like a a' /\ only (hdrs a (pre ++ b :: post)) a a'
  else a' = a /\ forall n rest, post = n :: rest -> bk_used n = false -> bk_size b + bk_size n < needed.
Proof.
  intros Hrep Hu Hn. pose proof (hp_rep _ _ Hrep) as Hr. unfold consume_next.
  destruct (hrep_block _ _ _ _ _ _ Hr (mid_in pre post b)) as ((H64 & H16 & Hq) & Ho0 & _ & Hend & Hsz & _). rewrite Hsz.
  pose proof (hrep_bounds _ _ _ Hr) as (Hmn & _). unfold UTAMO_HEAP_NONE, SIZE_MAX in Hmn.
  rewrite (u64_small (bsum pre + bk_size b)), (u64_small (needed - bk_size b)) by (unfold u64_ok; lia).
  pose proof (hr_size _ _ _ Hr) as Hz. rewrite bsum_app, bsum_cons in Hz.
  destruct post as [|n rest].
  { change (bsum []) with 0 in Hz. replace (bsum pre + bk_size b) with (hc_mapped_size (ar_heap a)) by lia. rewrite Z.eqb_refl. done. }
  destruct (next_block _ _ _ _ _ _ Hr) as ((Hn64 & Hn16 & Hnq) & Hend2 & Hnsz & Hnu). rewrite Hnsz, Hnu.
  rewrite (proj2 (Z.eqb_neq (bsum pre + bk_size b) _)) by lia. cbn [orb].
  destruct (bk_used n) eqn:Hnf; cbn [orb]; [split; [done|]; intros ? ? [= -> ->]; congruence|].
  destruct (Z.ltb_spec (bk_size n) (needed - bk_size b)) as [Hlt|Hge]; [split; [done|]; intros ? ? [= -> ->] _; lia|].
  rewrite (u64_small (bk_size b + bk_size n)) by (unfold u64_ok; lia).
  pose proof Hr as Hr0. rewrite free_offs_mid, Hu, free_offs_cons, Hnf in Hr0. cbn [app] in Hr0.
  destruct (remove_free_spec a _ _ (bsum pre + bk_size b) _ Hr0) as [Hr1 Hl1]. pose proof (heap_like_relinked _ _ _ Hl1) as Hk1.
  destruct Hl1 as (_ & _ & Ho1 & _). set (a1 := remove_free a (bsum pre + bk_size b)) in *. clearbody a1.
  pose proof (heap_like_base _ _ Hk1) as Eb1. destruct (mid_facts _ _ _ _ _ Hr) as (Hokp & _ & [_ Hokr]%Forall_cons & _).
  assert (forall x, x ∈ free_offs 0 0 pre ++ free_offs (bsum pre + bk_size b + bk_size n) (bk_size n) rest ->
    x < bsum pre \/ bsum pre + (bk_size b + bk_size n) <= x) as Hfl.
  { intros x [Hx|Hx]%elem_of_app; apply free_offs_range in Hx; try done; lia. }
  destruct (join_spec a1 pre b n rest _ Hr1 Hu ltac:(intros Hx%Hfl; lia) Hfl) as (Hr2 & Eh2 & Ec2 & Ho2).
  set (a2 := following_previous _ _ _) in *. clearbody a2. set (b' := MkBlk (bk_size b + bk_size n) true (bk_req b)) in *.
  pose proof (heap_like_trans _ _ _ Hk1 (heap_like_eq _ _ Eh2 Ec2)) as Hk2. destruct Hk2 as [(x & Ex) Ec].
  exists n, rest. split_and!; [done|done|lia| |split; [by exists x|done]|].
  - apply rep_counted.
    + rewrite free_offs_mid, (free_offs_pv (bsum pre + _) _ (bk_size n)).
      cbn [bk_used bk_size app]. rewrite Z.add_assoc. exact Hr2.
    + pose proof (hp_adj _ _ Hrep) as [Ha1 [_ [_ Ha3]]]%no_adjacent_app. apply no_adjacent_app. split; [done|]. split; [done|].
      by apply no_adjacent_weak in Ha3.
    + pose proof (counted_rep _ _ Hrep) as Hc. rewrite Ex. rewrite useds_app, !useds_cons, Hu, Hnf in Hc. rewrite useds_app, useds_cons.
      unfold b'. cbn [bk_used bk_req bk_size app] in *. rewrite Z.add_assoc. exact Hc.
  - eapply only_trans; [exact Ho1|exact Ho2|]. intros y [Hy|Hy]; [done|]. by apply (hdrs_base a a1 _ _ Eb1).
Qed.

Lemma kept_merged a a' pre b post fl : hrep a (pre ++ b :: post) fl ->
  only (fun x => hdrs a (pre ++ b :: post) x \/ span a (bsum pre) (bk_size b + merged_next post) x) a a' ->
  kept (useds 0 pre ++ useds (bsum pre + bk_size b) post) a a'.
Proof.
  intros Hr Ho. destruct (mid_facts _ _ _ _ _ Hr) as (_ & _ & Hokq & _). pose proof (merged_split post Hokq) as Em.
  set (segm := if merged_next post =? 0 then [] else [free_blk (merged_next post)]) in Em.
  assert (bsum segm = merged_next post) as Esm.
  { unfold segm. destruct (Z.eqb_spec (merged_next post) 0) as [->|]; [done|]. apply Z.add_0_r. }
  assert (pre ++ b :: post = pre ++ (b :: segm) ++ after_merge post) as El by (rewrite Em at 1; done).
  assert (bsum (b :: segm) = bk_size b + merged_next post) as Et by (rewrite bsum_cons, Esm; lia).
  rewrite El in Hr, Ho. rewrite <-Et in Ho. pose proof (kept_segment _ _ _ _ _ _ Hr Ho) as Hk.
  by rewrite Et, Z.add_assoc, useds_merged in Hk.
Qed.

Definition usage_to (old size : Z) (h : heap_core) : heap_core :=
  set_usage (hc_used_bytes h -u old +u size) (hc_live_allocations h) h.
Definition peak_up (h : heap_core) : heap_core :=
  if hc_peak_usage h <? hc_used_bytes h then set_peak (hc_used_bytes h) h else h.

Lemma usage_to_ctx old size h : ctx_ok h -> ctx_ok (usage_to old size h).
Proof. intros []. by constructor. Qed.

Lemma peak_up_ctx h : ctx_ok h -> ctx_ok (peak_up h).
Proof. intros []. unfold peak_up. destruct (_ <? _); by constructor. Qed.

Lemma peak_up_fields h : hc_base (peak_up h) = hc_base h /\ hc_mapped_size (peak_up h) = hc_mapped_size h /\
  hc_free_head (peak_up h) = hc_free_head h /\ hc_debug_poison (peak_up h) = hc_debug_poison h /\
  hc_used_bytes (peak_up h) = hc_used_bytes h /\ hc_live_allocations (peak_up h) = hc_live_allocations h.
Proof. unfold peak_up. by destruct (_ <? _). Qed.

Lemma mark_resized a pre b post fl size : hrep a (pre ++ b :: post) fl -> bk_used b = true -> bsum pre ∉ fl -> 0 < size <= bk_size b - 48 ->
  let a' := resize_mark a (bsum pre) size in
  hrep a' (pre ++ MkBlk (bk_size b) true size :: post) fl /\ ar_ctx a' = ar_ctx a /\
  ar_heap a' = usage_to (bk_req b) size (ar_heap a) /\ only (span a (bsum pre) 48) a a'.
Proof.
  intros Hr Hu Hnf Hsz. destruct (mid_facts _ _ _ _ _ Hr) as (_ & (H64 & H16 & _) & _).
  destruct (hrep_block _ _ _ _ _ _ Hr (mid_in pre post b)) as (_ & Ho0 & _ & Hend & _ & _ & Hpv & Hrq & Hsf).
  pose proof (hrep_bounds _ _ _ Hr) as (Hmn & _). unfold UTAMO_HEAP_NONE, SIZE_MAX in Hmn.
  cbv zeta. unfold resize_mark, with_heap. rewrite Hrq. cbn [ar_heap ar_mem ar_ctx hc_used_bytes hc_live_allocations set_usage].
  set (a0 := MkArena (set_usage _ _ _) (ar_mem a) (ar_ctx a)).
  assert (hrep a0 (pre ++ b :: post) fl) as Hr0.
  { apply (hrep_heap a (usage_to (bk_req b) size (ar_heap a))); try done. apply usage_to_ctx. apply Hr. }
  assert (ar_heap a0 = usage_to (bk_req b) size (ar_heap a)) as Eh0 by reflexivity.
  assert (ar_ctx a0 = ar_ctx a) as Ec0 by reflexivity. assert (ar_mem a0 = ar_mem a) as Em0 by reflexivity. clearbody a0.
  assert (hc_base (ar_heap a0) = hc_base (ar_heap a)) as Eb0 by by rewrite Eh0.
  assert (only (span a0 (bsum pre) 48) a0 (set_requested (bsum pre) size a0)) as Ho by (apply (only_store a0 16); lia).
  assert (unlinked a0 (bsum pre)) as [U1 U2] by (destruct Hr0; eapply hr_out; [apply mid_in|done]).
  assert (hdr a0 (bsum pre, last_size 0 pre, b)) as (F1 & F2 & _ & F4) by (destruct Hr0; apply hr_hdr, mid_in).
  split_and!; [|done|done|intros x Hx; rewrite Ho, Em0; [done|by rewrite (span_base a a0)]].
  apply (reheader a0 _ pre b _ post fl Hr0 Hnf Ho); [done|unfold blk_ok; cbn [bk_size bk_used bk_req]; lia|done| |].
  - unfold hdr. rewrite store_requested by (unfold u64_ok; lia). cbv zeta. rewrite F1, F2, F4. unfold flagged.
    cbn [hb_size_flags hb_prev_size hb_requested hb_cookie bk_size bk_used bk_req]. by rewrite Hu.
  - unfold unlinked. rewrite store_requested by (unfold u64_ok; lia). cbv zeta. by rewrite U1, U2.
Qed.

Lemma finish_resized a pre b post fl old size : hrep a (pre ++ b :: post) fl -> bk_req b = size -> bk_used b = true -> 0 <= old ->
  let a' := resize_finish a (bsum pre) old size in
  hrep a' (pre ++ b :: post) fl /\ ar_ctx a' = ar_ctx a /\ ar_heap a' = peak_up (ar_heap a) /\
  only (fun x => addr a (bsum pre + BLOCK_BYTES) + Z.min old size <= x < addr a (bsum pre) + bk_size b) a a'.
Proof.
  intros Hr Hq Hu Hold. pose proof (peak_up_fields (ar_heap a)) as (Eb & Em & Ef & Ed & _).
  destruct (hrep_block _ _ _ _ _ _ Hr (mid_in pre post b)) as ((H64 & _ & Hbq) & Ho0 & _ & Hend & _). rewrite Hu in Hbq.
  pose proof (hrep_bounds _ _ _ Hr) as (Hmn & _). unfold UTAMO_HEAP_NONE, SIZE_MAX in Hmn.
  pose proof (hrep_heap a (peak_up (ar_heap a)) _ _ Hr (peak_up_ctx _ (hr_ctx _ _ _ Hr)) Eb Em Ef) as Hr1.
  unfold resize_finish. set (a1 := if _ <? _ then _ else _).
  assert (a1 = MkArena (peak_up (ar_heap a)) (ar_mem a) (ar_ctx a)) as ->.
  { unfold a1, peak_up, with_heap. destruct (_ <? _); [done|by destruct a]. }
  set (a1 := MkArena (peak_up (ar_heap a)) (ar_mem a) (ar_ctx a)) in *.
  assert (ar_heap a1 = peak_up (ar_heap a)) as Eh1 by reflexivity. assert (ar_ctx a1 = ar_ctx a) as Ec1 by reflexivity.
  assert (ar_mem a1 = ar_mem a) as Em1 by reflexivity. clearbody a1. cbv zeta.
  assert (forall o, addr a1 o = addr a o) as Ea by (intros o; unfold addr; by rewrite Eh1, Eb).
  destruct (hc_debug_poison (ar_heap a1)); [|split_and!; try done; intros x _; by rewrite Em1].
  set (a2 := if old <? size then _ else a1).
  assert (hrep a2 (pre ++ b :: post) fl /\ ar_ctx a2 = ar_ctx a1 /\ ar_heap a2 = ar_heap a1 /\
    only (fun x => addr a (bsum pre + BLOCK_BYTES) + Z.min old size <= x < addr a (bsum pre) + bk_size b) a a2) as (Hr2 & Ec2 & Eh2 & Ho2).
  { unfold a2. destruct (Z.ltb_spec old size); [|split_and!; try done; intros x _; by rewrite Em1].
    rewrite (u64_small (size - old)) by (unfold u64_ok; lia).
    destruct (payload_fill a1 pre b post fl 0xcd (addr a1 (bsum pre + BLOCK_BYTES) + old) (size - old) Hr1) as [Hr2 Ho];
      [unfold addr, BLOCK_BYTES; lia|unfold addr, BLOCK_BYTES; lia|]. split_and!; [exact Hr2|done|done|].
    intros x Hx. rewrite Ho, Em1; [done|]. rewrite Ea. unfold addr, BLOCK_BYTES in *. lia. }
  clearbody a2. destruct (hrep_block _ _ _ _ _ _ Hr2 (mid_in pre post b)) as (_ & _ & _ & _ & Hsz & _). rewrite Hsz.
  rewrite (u64_small (bk_size b - BLOCK_BYTES)), u64_small by (unfold u64_ok, BLOCK_BYTES; lia).
  assert (forall o, addr a2 o = addr a o) as Ea2 by (intros o; unfold addr; by rewrite Eh2, Eh1, Eb).
  destruct (payload_fill a2 pre b post fl 0xdd (addr a1 (bsum pre + BLOCK_BYTES) + size) (bk_size b - BLOCK_BYTES - size) Hr2) as [Hr3 Ho3];
    [rewrite Ea, Ea2; unfold addr, BLOCK_BYTES; lia|rewrite Ea, Ea2; unfold addr, BLOCK_BYTES; lia|].
  split_and!; [exact Hr3|by rewrite <-Ec1, <-Ec2|by rewrite <-Eh1, <-Eh2|].
  eapply only_trans; [exact Ho2|exact Ho3|]. rewrite Ea. unfold addr, BLOCK_BYTES in *. intros x Hx. lia.
Qed.

Lemma counted_resize h U1 U2 o old size : counted h (U1 ++ (o, old) :: U2) -> 0 <= old -> 0 <= size -> 0 <= req_total (U1 ++ U2) ->
  req_total (U1 ++ (o, old) :: U2) <= UINT64_MAX -> req_total (U1 ++ (o, size) :: U2) <= UINT64_MAX ->
  counted (peak_up (usage_to old size h)) (U1 ++ (o, size) :: U2).
Proof.
  intros (Hu & Hl & Hp) H1 H2 H0 Hm Hn. rewrite req_total_insert in *. unfold counted. rewrite req_total_insert, length_app in *.
  cbn [length] in *. assert (hc_used_bytes h -u old +u size = size + req_total (U1 ++ U2)) as E.
  { rewrite Hu, (u64_small (_ - old)), u64_small; unfold u64_ok; lia. }
  unfold peak_up, usage_to. cbn [hc_peak_usage hc_used_bytes set_usage]. rewrite E.
  destruct (Z.ltb_spec (hc_peak_usage h) (size + req_total (U1 ++ U2))); cbn [hc_peak_usage hc_used_bytes hc_live_allocations set_usage set_peak];
    split_and!; lia.
Qed.

Lemma hdrs_same a pre b b' post x : bk_size b' = bk_size b -> hdrs a (pre ++ b' :: post) x -> hdrs a (pre ++ b :: post) x.
Proof.
  intros Es Hx. apply (hdrs_replace a pre [b] [b'] post) in Hx as [Hx|(o & pv & c & Hin & Hs)]; [done| |by rewrite !bsum_cons, Es].
  cbn [place] in Hin. apply list_elem_of_singleton in Hin as [= -> -> ->]. exists (bsum pre). split; [apply mid_placed|done].
Qed.

Lemma rest_total a pre b post fl : hrep a (pre ++ b :: post) fl -> bk_used b = true ->
  0 <= req_total (useds 0 pre ++ useds (bsum pre + bk_size b) post).
Proof.
  intros Hr Hu. destruct (mid_facts _ _ _ _ _ Hr) as (Hp & _ & Hq & _). unfold req_total. rewrite foldr_app.
  rewrite <-(req_sum_useds (bsum pre + bk_size b) post Hq). pose proof (req_sum_bound _ Hq) as [Hb _]. revert Hb. generalize (req_sum post).
  assert (forall e, e ∈ useds 0 pre -> 0 <= snd e) as Hpos by (intros [o r] He%useds_range; [cbn; lia|done]).
  induction (useds 0 pre) as [|e U IH]; intros z Hz; cbn [foldr]; [done|].
  pose proof (IH ltac:(set_solver) z Hz). pose proof (Hpos e ltac:(set_solver)). lia.
Qed.

(** Resizing in place: the allocation keeps its place and the smaller of the
    two sizes of its bytes; the other allocations keep all of theirs. *)
Lemma resize_rep a pre b post size needed : heap_rep a (pre ++ b :: post) -> bk_used b = true -> 0 < size <= needed - 48 ->
  64 <= needed <= bk_size b -> needed mod 16 = 0 ->
  let a' := resize_block a (bsum pre) size needed in
  let U1 := useds 0 pre in let U2 := useds (bsum pre + bk_size b) post in
  useds 0 (pre ++ b :: post) = U1 ++ (bsum pre, bk_req b) :: U2 /\
  exists bl', heap_rep a' bl' /\ useds 0 bl' = U1 ++ (bsum pre, size) :: U2 /\ kept (U1 ++ U2) a a' /\
    kept [(bsum pre, Z.min (bk_req b) size)] a a' /\
    exists x, ar_heap a' = peak_up (set_free_head x (usage_to (bk_req b) size (ar_heap a))).
Proof.
  intros Hrep Hu Hsz Hn H16. pose proof (hp_rep _ _ Hrep) as Hr. cbv zeta.
  assert (useds 0 (pre ++ b :: post) = useds 0 pre ++ (bsum pre, bk_req b) :: useds (bsum pre + bk_size b) post) as Eu.
  { by rewrite useds_app, useds_cons, Hu. }
  split; [exact Eu|]. unfold resize_block. cbv zeta.
  destruct (hrep_block _ _ _ _ _ _ Hr (mid_in pre post b)) as ((H64 & _ & Hq) & Ho0 & _ & _ & _ & _ & _ & Erq & _). rewrite Hu in Hq.
  rewrite Erq. destruct (mid_facts _ _ _ _ _ Hr) as (_ & _ & Hokq & Hlo & Hhi). pose proof (merged_nonneg post Hokq) as Hmg.
  assert (bsum pre ∉ free_offs 0 0 (pre ++ b :: post)) as Hnf.
  { rewrite free_offs_mid, Hu. cbn [app]. intros [Hx%Hlo|Hx%Hhi]%elem_of_app; lia. }
  destruct (mark_resized a pre b post _ size Hr Hu Hnf ltac:(lia)) as (Hr1 & Ec1 & Eh1 & Ho1).
  set (a1 := resize_mark a (bsum pre) size) in *. clearbody a1. set (b1 := MkBlk (bk_size b) true size) in *.
  assert (free_offs 0 0 (pre ++ b :: post) = free_offs 0 0 (pre ++ b1 :: post)) as Ef by (rewrite !free_offs_mid, Hu; done).
  rewrite Ef in Hr1. clear Ef.
  destruct (trim_spec a1 pre b1 post needed Hr1) as (Hr2 & [(x & Eh2) Ec2] & Ho2); [done|cbn; lia|cbn; lia|done|].
  set (a2 := trim_block a1 (bsum pre) needed) in *. clearbody a2. assert (bk_used b1 = true) as Hu1 by reflexivity.
  destruct (trimmed_head b1 needed post) as (b2 & rest & Et & Hs2 & Hu2 & Hq2). pose proof (useds_trimmed (bsum pre) b1 needed post Hu1) as Eu2.
  pose proof (trimmed_adj (ends_free false pre) b1 needed post Hu1) as Hadj. rewrite Et in *. cbn [b1 bk_size bk_used bk_req] in Hs2, Hu2, Hq2, Eu2.
  assert (bk_used b2 = true) as Hu2' by (rewrite Hu2; by destruct (_ <? _)). assert (bk_size b2 <= bk_size b) as Hle by (rewrite Hs2; destruct (_ <? _); lia).
  destruct (finish_resized a2 pre b2 rest _ (bk_req b) size Hr2 Hq2 Hu2' ltac:(lia)) as (Hr3 & Ec3 & Eh3 & Ho3).
  set (a3 := resize_finish a2 (bsum pre) (bk_req b) size) in *. clearbody a3.
  assert (hc_base (ar_heap a1) = hc_base (ar_heap a)) as Eb1 by by rewrite Eh1.
  assert (hc_base (ar_heap a2) = hc_base (ar_heap a)) as Eb2 by by rewrite Eh2.
  assert (only (fun x => hdrs a (pre ++ b :: post) x \/
    addr a (bsum pre + BLOCK_BYTES) + Z.min (bk_req b) size <= x < addr a (bsum pre) + bk_size b + merged_next post) a a3) as Ho.
  { pose proof (only_trans _ _ _ _ _ _ Ho2 Ho3 (fun x Hx => Hx)) as Ho23. eapply only_trans; [exact Ho1|exact Ho23|]. cbv beta.
    intros y [Hy|[[Hy|Hy]|Hy]].
    - left. exists (bsum pre). split; [apply mid_placed|done].
    - left. apply (hdrs_base a a1 _ _ Eb1) in Hy. by apply (hdrs_same a pre b b1 post).
    - right. apply (span_base a a1 _ _ _ Eb1) in Hy. unfold span, addr, BLOCK_BYTES, b1 in *. cbn [bk_size] in Hy. lia.
    - right. unfold addr, BLOCK_BYTES in *. rewrite Eb2 in Hy. lia. }
  exists (pre ++ b2 :: rest). assert (useds 0 (pre ++ b2 :: rest) = useds 0 pre ++ (bsum pre, size) :: useds (bsum pre + bk_size b) post) as Eu3.
  { by rewrite useds_app, Z.add_0_l, Eu2. }
  split_and!; [|exact Eu3| | |].
  - pose proof (req_total_bound _ _ _ Hr) as Hbd. rewrite Eu in Hbd. pose proof (req_total_bound _ _ _ Hr3) as Hbd'. rewrite Eu3 in Hbd'.
    pose proof (counted_rep _ _ Hrep) as Hc. rewrite Eu in Hc. unfold UTAMO_HEAP_NONE, SIZE_MAX in *. apply rep_counted; [done| |].
    + pose proof (hp_adj _ _ Hrep) as [Ha1 [_ Ha2]]%no_adjacent_app. rewrite Hu in Ha2. apply no_adjacent_app. split; [done|]. by apply Hadj.
    + rewrite Eu3, Eh3, Eh2, Eh1. pose proof (counted_resize (set_free_head x (ar_heap a)) _ _ _ _ size Hc) as Hcr.
      pose proof (rest_total a pre b post _ Hr Hu). apply Hcr; lia.
  - eapply kept_merged; [exact Hr|]. eapply only_weaken; [exact Ho|]. cbv beta. intros y [Hy|Hy]; [by left|right].
    unfold span, addr, BLOCK_BYTES in *. lia.
  - intros o r y Hin%list_elem_of_singleton Hy. simplify_eq. apply Ho. intros [Hc|Hc]; [|lia].
    eapply (payload_not_header a pre b post); [exact Hr| |exact Hc]. unfold addr, BLOCK_BYTES in *. lia.
  - exists x. by rewrite Eh3, Eh2, Eh1.
Qed.
End resize.
