(* ===== verification/HeapSpec.v ===== *)
(** * The kernel heap: the abstract map and the public operations

    What a client can rely on: a finite map from the pointers it owns to the
    bytes stored there, and each public operation of heap_core.c as a change of
    this map. *)

From stdpp Require Import gmap.
From S2P Require Import Prelude HeapCore HeapInv HeapLinks HeapBlocks HeapAlloc HeapFree Bytes.
Open Scope Z_scope.

(** The [n] bytes at [p]. *)
Definition contents (mem : memory) (p n : Z) : list Z := mem <$> seqZ p n.

Lemma length_contents mem p n : 0 <= n -> Z.of_nat (length (contents mem p n)) = n.
Proof. intros Hn. unfold contents. rewrite length_fmap, length_seqZ. lia. Qed.

Lemma contents_ext mem mem' p n : (forall x, p <= x < p + n -> mem' x = mem x) -> contents mem' p n = contents mem p n.
Proof. intros Hx. unfold contents. apply list_fmap_ext. intros i x Hi. apply Hx. apply list_elem_of_lookup_2, elem_of_seqZ in Hi. lia. Qed.

Lemma contents_take mem p n k : 0 <= k <= n -> take (Z.to_nat k) (contents mem p n) = contents mem p k.
Proof.
  intros Hk. unfold contents. rewrite <-fmap_take. f_equal. replace n with (k + (n - k)) by lia. rewrite seqZ_app by lia.
  rewrite take_app_le by (rewrite length_seqZ; lia). rewrite take_ge; [done|]. rewrite length_seqZ. lia.
Qed.

Section abs.
Context {C : Type} `{HeapOps C}.
Implicit Types a : arena C.

Definition ptr a (o : Z) : Z := addr a (o + BLOCK_BYTES).
Definition entry a (e : Z * Z) : Z * list Z := (ptr a (fst e), contents (ar_mem a) (ptr a (fst e)) (snd e)).

(** The map of a heap with the live allocations [U]. *)
Definition heap_abs a (U : list (Z * Z)) : gmap Z (list Z) := list_to_map (entry a <$> U).

Lemma useds_NoDup o bl : Forall blk_ok bl -> NoDup (useds o bl).*1.
Proof.
  intros Hok. revert o. induction Hok as [|b bl Hb Hok IH]; intros o; [constructor|]. rewrite useds_cons.
  destruct (bk_used b); [|apply IH]. cbn [app fmap list_fmap fst]. constructor; [|apply IH].
  intros ([o' r] & E & Hin)%list_elem_of_fmap. cbn [fst] in E. subst o'. apply useds_range in Hin; [|done].
  destruct Hb as [? _]. lia.
Qed.

Lemma entry_keys a U : NoDup U.*1 -> NoDup (entry a <$> U).*1.
Proof.
  intros Hn. assert ((entry a <$> U).*1 = ptr a <$> U.*1) as ->.
  { rewrite <-!list_fmap_compose. by apply list_fmap_ext. }
  apply NoDup_fmap_2_strong; [|done]. intros x y _ _. unfold ptr, addr. lia.
Qed.

Lemma abs_insert a U1 U2 o r : NoDup (U1 ++ (o, r) :: U2).*1 ->
  heap_abs a (U1 ++ (o, r) :: U2) = <[ptr a o := contents (ar_mem a) (ptr a o) r]> (heap_abs a (U1 ++ U2)) /\
  heap_abs a (U1 ++ U2) !! ptr a o = None.
Proof.
  intros Hn. assert (entry a <$> U1 ++ (o, r) :: U2 ≡ₚ entry a (o, r) :: (entry a <$> U1 ++ U2)) as Hp.
  { rewrite <-fmap_cons. apply fmap_Permutation. by rewrite Permutation_middle. }
  assert (NoDup (U1 ++ (o, r) :: U2).*1) as Hn0 by done. apply (entry_keys a) in Hn. split.
  - unfold heap_abs. by rewrite (list_to_map_proper _ _ Hn Hp).
  - apply not_elem_of_list_to_map_1. rewrite Hp in Hn. by apply NoDup_cons in Hn as [? _].
Qed.

Lemma abs_delete a U1 U2 o r : NoDup (U1 ++ (o, r) :: U2).*1 ->
  heap_abs a (U1 ++ U2) = delete (ptr a o) (heap_abs a (U1 ++ (o, r) :: U2)).
Proof. intros [-> Hnone]%(abs_insert a). by rewrite delete_insert_id. Qed.

Lemma abs_kept U a a' : hc_base (ar_heap a') = hc_base (ar_heap a) -> kept U a a' -> heap_abs a' U = heap_abs a U.
Proof.
  intros Eb Hk. unfold heap_abs. f_equal. apply list_fmap_ext. intros i [o r] Hi%list_elem_of_lookup_2. unfold entry, ptr, addr. cbn [fst snd].
  rewrite Eb. f_equal. apply contents_ext. intros x Hx. apply (Hk o r x Hi Hx).
Qed.

Lemma abs_lookup a U p l : NoDup U.*1 -> heap_abs a U !! p = Some l <->
  exists o r, (o, r) ∈ U /\ p = ptr a o /\ l = contents (ar_mem a) p r.
Proof.
  intros Hn. unfold heap_abs. rewrite <-elem_of_list_to_map by (by apply entry_keys). rewrite list_elem_of_fmap. split.
  - intros ([o r] & [= -> ->] & Hin). by exists o, r.
  - intros (o & r & Hin & -> & ->). by exists (o, r).
Qed.

(** The heap is valid and its live allocations are [m]. *)
Definition heap_holds a (m : gmap Z (list Z)) : Prop := exists bl, heap_rep a bl /\ m = heap_abs a (useds 0 bl).

Lemma holds_lookup a bl p l : heap_rep a bl -> heap_abs a (useds 0 bl) !! p = Some l <->
  exists o r, (o, r) ∈ useds 0 bl /\ p = ptr a o /\ l = contents (ar_mem a) p r.
Proof. intros Hr. apply abs_lookup, useds_NoDup. apply (hp_rep _ _ Hr). Qed.

(** Every allocation is 16-aligned and inside the arena; two do not overlap. *)
Lemma holds_layout a m p l : heap_holds a m -> m !! p = Some l ->
  p mod 16 = 0 /\ 0 < Z.of_nat (length l) /\ hc_base (ar_heap a) + 48 <= p /\
  p + Z.of_nat (length l) <= hc_base (ar_heap a) + hc_mapped_size (ar_heap a) /\
  forall q l', m !! q = Some l' -> q <> p -> p + Z.of_nat (length l) <= q \/ q + Z.of_nat (length l') <= p.
Proof.
  intros (bl & Hrep & ->) (o & r & Hin & -> & ->)%(holds_lookup a bl _ _ Hrep). pose proof (hp_rep _ _ Hrep) as Hr.
  pose proof (useds_range _ _ _ _ (hr_ok _ _ _ Hr) Hin) as Hrg. rewrite (hr_size _ _ _ Hr) in Hrg. rewrite length_contents by lia.
  destruct (proj1 (elem_of_useds _ 0 _ _ _) Hin) as (pv & b & Hpl & _). destruct (hrep_block _ _ _ _ _ _ Hr Hpl) as (_ & _ & H16 & _).
  pose proof (co_align _ (hr_ctx _ _ _ Hr)) as Hba. unfold ptr, addr, BLOCK_BYTES. split_and!; try lia; [dlia|].
  intros q l' (o' & r' & Hin' & -> & ->)%(holds_lookup a bl _ _ Hrep) Hne. pose proof (useds_range _ _ _ _ (hr_ok _ _ _ Hr) Hin') as Hrg'.
  rewrite length_contents by lia. unfold ptr, addr, BLOCK_BYTES in *.
  destruct (useds_sep _ _ _ _ _ _ _ Hr Hin Hin') as [[-> _]|[?|?]]; [done|lia|lia].
Qed.
End abs.

(** ** The kernel heap: the operations on the abstract map

    Each public operation of heap_core.c as a change of the map of live
    allocations. *)

Section spec.
Context {C : Type} `{HeapOps C}.
Implicit Types a : arena C.
Implicit Types m : gmap Z (list Z).

Lemma holds_validate a m : heap_holds a m -> heap_core_validate a = true.
Proof. intros (bl & Hr & _). by eapply rep_validate. Qed.

Lemma holds_base a m : heap_holds a m -> 0 < hc_base (ar_heap a) /\ hc_initialized (ar_heap a) = true.
Proof. intros (bl & Hr & _). destruct (hr_ctx _ _ _ (hp_rep _ _ Hr)). done. Qed.

(** The event counters are not part of the representation. *)
Lemma rep_counts a bl w x y z : heap_rep a bl -> heap_rep (with_heap (set_counts w x y z) a) bl.
Proof.
  intros [Hr Ha Hu Hl Hp]. constructor; try done. apply hrep_heap; try done. destruct (hr_ctx _ _ _ Hr). by constructor.
Qed.

Lemma holds_counts a m w x y z : heap_holds a m -> heap_holds (with_heap (set_counts w x y z) a) m.
Proof. intros (bl & Hr & ->). exists bl. split; [by apply rep_counts|]. done. Qed.

Lemma holds_failed a m : heap_holds a m -> heap_holds (failed_allocation a) m.
Proof. intros Hh. unfold failed_allocation. destruct (hc_initialized _); [|done]. by apply (holds_counts a). Qed.

Lemma rep_same a a' bl : heap_rep a bl -> ar_heap a' = ar_heap a -> ar_mem a' = ar_mem a -> heap_rep a' bl.
Proof.
  intros [Hr Ha Hu Hl Hp] Eh Em. constructor; [|done|by rewrite Eh|by rewrite Eh|by rewrite Eh].
  eapply (hrep_frame a a' bl _ (fun _ => False)); [done|done| |done]. intros x _. by rewrite Em.
Qed.

Lemma holds_same a a' m : heap_holds a m -> ar_heap a' = ar_heap a -> ar_mem a' = ar_mem a -> heap_holds a' m.
Proof.
  intros (bl & Hr & ->) Eh Em. exists bl. split; [by eapply rep_same|]. symmetry. apply abs_kept; [by rewrite Eh|].
  intros o r x _ _. by rewrite Em.
Qed.

Lemma payload_range a bl o r : heap_rep a bl -> (o, r) ∈ useds 0 bl ->
  exists pre b post, bl = pre ++ b :: post /\ bk_used b = true /\ o = bsum pre /\ bk_req b = r /\
    0 < r <= bk_size b - 48 /\
    useds 0 bl = useds 0 pre ++ (bsum pre, bk_req b) :: useds (bsum pre + bk_size b) post.
Proof.
  intros Hrep (pv & b & Hpl & Hu & Hq)%(elem_of_useds _ 0).
  destruct (hrep_block _ _ _ _ _ _ (hp_rep _ _ Hrep) Hpl) as ((_ & _ & Hb) & _). rewrite Hu in Hb.
  apply place_split in Hpl as (pre & post & -> & -> & _). exists pre, b, post. split_and!; try done; try lia.
  by rewrite useds_app, useds_cons, Hu.
Qed.

(** Writing inside one allocation. *)
Lemma rep_payload a a' bl o r : heap_rep a bl -> (o, r) ∈ useds 0 bl -> ar_heap a' = ar_heap a ->
  only (fun x => ptr a o <= x < ptr a o + r) a a' ->
  heap_rep a' bl /\ heap_abs a' (useds 0 bl) = <[ptr a o := contents (ar_mem a') (ptr a o) r]> (heap_abs a (useds 0 bl)).
Proof.
  intros Hrep Hin Eh Ho. destruct (payload_range _ _ _ _ Hrep Hin) as (pre & b & post & E & Hu & Eo & Hq & Hb & Eu).
  pose proof (hp_rep _ _ Hrep) as Hr. subst o r. split.
  - destruct Hrep as [_ Ha Hus Hl Hp]. constructor; [|done|by rewrite Eh|by rewrite Eh|by rewrite Eh].
    eapply hrep_frame; [exact Hr|done|exact Ho|]. intros x Hx. rewrite E in *. eapply payload_not_header; [exact Hr|].
    unfold ptr, addr, BLOCK_BYTES in *. lia.
  - pose proof (useds_NoDup 0 _ (hr_ok _ _ _ Hr)) as Hn. pose proof Hin as Hin0. rewrite Eu in Hn |- *.
    assert (ptr a' (bsum pre) = ptr a (bsum pre)) as Ep by (unfold ptr, addr; by rewrite Eh).
    rewrite (proj1 (abs_insert a' _ _ _ _ Hn)), (proj1 (abs_insert a _ _ _ _ Hn)), insert_insert_eq, Ep. f_equal.
    apply abs_kept; [by rewrite Eh|]. intros o r x Hx Hxr. apply Ho. intros Hc.
    assert ((o, r) ∈ useds 0 bl) as Hx' by (rewrite Eu; set_solver).
    destruct (useds_sep _ _ _ _ _ _ _ Hr Hin0 Hx') as [[E1 _]|Hs]; [|unfold ptr, addr, BLOCK_BYTES in *; lia].
    rewrite fmap_app, fmap_cons in Hn. apply NoDup_app in Hn as (_ & Hn1 & [Hn2 _]%NoDup_cons). cbn [fst] in *.
    subst o. apply elem_of_app in Hx as [Hx|Hx]; apply (list_elem_of_fmap_2 fst) in Hx; cbn [fst] in Hx; set_solver.
Qed.

Lemma allocate_holds a m requested needed g : heap_holds a m -> 0 < requested <= needed - 48 -> 64 <= needed <= UINT64_MAX ->
  needed mod 16 = 0 ->
  let (a', p) := allocate a requested needed g in
  (p = 0 /\ heap_holds a' m /\ ar_heap a' = ar_heap a /\ ar_mem a' = ar_mem a) \/
  (p <> 0 /\ m !! p = None /\ hc_base (ar_heap a') = hc_base (ar_heap a) /\
   exists l, Z.of_nat (length l) = requested /\ heap_holds a' (<[p := l]> m) /\
    exists x k, ar_heap a' = usage_up requested (set_free_head x (set_mapped_size k (ar_heap a)))).
Proof.
  intros (bl & Hrep & ->) Hrq Hn H16. pose proof (allocate_spec a bl requested needed g Hrep Hrq Hn H16) as Hs.
  destruct (allocate a requested needed g) as [a' p]. destruct Hs as [(-> & Eh & Em & _)|(Hp & bl' & U1 & o & U2 & Hrep' & -> & Eu & Eu' & Hk & x & k & Eh)].
  { left. split_and!; [done| |done|done]. eapply holds_same; [by exists bl|done|done]. }
  right. assert (hc_base (ar_heap a') = hc_base (ar_heap a)) as Eb by by rewrite Eh, usage_up_base.
  assert (ptr a' o = addr a (o + BLOCK_BYTES)) as Ep by (unfold ptr, addr; by rewrite Eb).
  pose proof (useds_NoDup 0 _ (hr_ok _ _ _ (hp_rep _ _ Hrep'))) as Hnd. rewrite Eu' in Hnd.
  destruct (abs_insert a' _ _ _ _ Hnd) as [Ei Hnone]. rewrite Ep in Ei, Hnone. rewrite Eu.
  rewrite Eu in Hk. rewrite (abs_kept _ a a' Eb Hk) in Ei, Hnone.
  split_and!; [done|done|done|]. eexists. split_and!; [|exists bl'; split; [done|]; by rewrite Eu', Ei|by exists x, k].
  apply length_contents. lia.
Qed.

Lemma release_holds a bl o r : heap_rep a bl -> (o, r) ∈ useds 0 bl ->
  heap_holds (release a o) (delete (ptr a o) (heap_abs a (useds 0 bl))) /\
  exists x, ar_heap (release a o) = set_free_head x (usage_down r (ar_heap a)).
Proof.
  intros Hrep Hin. destruct (payload_range _ _ _ _ Hrep Hin) as (pre & b & post & -> & Hu & -> & Hq & _).
  destruct (release_rep a pre b post Hrep Hu) as (Eu & bl' & Hrep' & Eu' & Hk & x & Eh).
  pose proof (useds_NoDup 0 _ (hr_ok _ _ _ (hp_rep _ _ Hrep))) as Hnd. rewrite Eu in Hnd |- *.
  rewrite <-(abs_delete a _ _ _ _ Hnd). subst r. split; [|by exists x]. exists bl'. split; [done|]. rewrite Eu'. symmetry. apply abs_kept; [by rewrite Eh|done].
Qed.
End spec.

(** ** The kernel heap: the public operations against their specification *)

(** ** Specification *)

(** A new allocation of [n] bytes at [p] is aligned and overlaps no other. *)
Definition fresh (m : gmap Z (list Z)) (p n : Z) : Prop :=
  p <> 0 /\ p mod 16 = 0 /\ m !! p = None /\
  forall q l, m !! q = Some l -> p + n <= q \/ q + Z.of_nat (length l) <= p.

Definition alloc_result (m : gmap Z (list Z)) (size p : Z) (m' : gmap Z (list Z)) : Prop :=
  (p = 0 /\ m' = m) \/ (0 < size /\ fresh m p size /\ exists l, Z.of_nat (length l) = size /\ m' = <[p := l]> m).

Definition calloc_result (m : gmap Z (list Z)) (count size p : Z) (m' : gmap Z (list Z)) : Prop :=
  (p = 0 /\ m' = m) \/ (0 < count * size <= SIZE_MAX /\ fresh m p (count * size) /\
                        m' = <[p := replicate (Z.to_nat (count * size)) 0]> m).

(** [NULL] and live pointers are accepted, everything else is refused. *)
Definition free_result (m : gmap Z (list Z)) (p : Z) (ok : bool) (m' : gmap Z (list Z)) : Prop :=
  m' = delete p m /\ ok = (p =? 0) || bool_decide (is_Some (m !! p)).

(** The allocation moves or stays; the bytes both sizes have in common are kept. *)
Definition realloc_result (m : gmap Z (list Z)) (p size q : Z) (m' : gmap Z (list Z)) : Prop :=
  if p =? 0 then alloc_result m size q m'
  else if size =? 0 then q = 0 /\ m' = delete p m
  else (q = 0 /\ m' = m) \/
    exists l l', m !! p = Some l /\ fresh (delete p m) q size /\ Z.of_nat (length l') = size /\
      take (Nat.min (length l) (length l')) l' = take (Nat.min (length l) (length l')) l /\ m' = <[q := l']> (delete p m).

Section calls.
Context {C : Type} `{HeapOps C}.
Implicit Types a : arena C.
Implicit Types m : gmap Z (list Z).

Lemma holds_fresh a m p l : heap_holds a (<[p := l]> m) -> m !! p = None -> fresh m p (Z.of_nat (length l)).
Proof.
  intros Hh Hn. destruct (holds_layout a _ p l Hh (lookup_insert_eq _ _ _)) as (H16 & _ & Hb & _ & Hd).
  pose proof (holds_base _ _ Hh) as [Hb0 _]. split_and!; [lia|done|done|]. intros q l' Hq. apply Hd; [|intros ->; congruence].
  rewrite lookup_insert_ne; [done|]. intros ->. congruence.
Qed.

Lemma alloc_holds a m size : heap_holds a m -> u64_ok size ->
  let (a', p) := heap_core_alloc a size in exists m', alloc_result m size p m' /\ heap_holds a' m'.
Proof.
  intros Hh Hsz. unfold heap_core_alloc. destruct (Z.eqb_spec size 0) as [->|Hne]; [exists m; split; [by left|done]|].
  rewrite (holds_validate _ _ Hh). pose proof (required_size_spec size Hsz) as Hrq. destruct (required_size size) as [needed|]; cycle 1.
  { exists m. split; [by left|]. by apply holds_failed. }
  destruct Hrq as (Hrq & _ & Hn & H16). pose proof (allocate_holds a m size needed true Hh Hrq Hn H16) as Hal.
  destruct (allocate a size needed true) as [a' p]. destruct Hal as [(-> & Hh' & _)|(Hp & Hnone & _ & l & Hl & Hh' & _)].
  { exists m. split; [by left|]. by apply holds_failed. }
  rewrite (proj2 (Z.eqb_neq _ _) Hp). exists (<[p := l]> m). split; [right|done]. rewrite <-Hl at 2.
  split_and!; [lia|by eapply holds_fresh|by exists l].
Qed.

Lemma contents_fill mem p n v : 0 <= n -> contents (mem_fill mem p v n) p n = replicate (Z.to_nat n) v.
Proof.
  intros Hn. symmetry. apply replicate_as_elem_of. unfold contents. rewrite length_fmap, length_seqZ. split; [done|].
  intros x (y & -> & Hy)%list_elem_of_fmap. apply elem_of_seqZ in Hy. apply mem_fill_in. lia.
Qed.

Lemma holds_write a a' m p l : heap_holds a m -> m !! p = Some l -> ar_heap a' = ar_heap a ->
  only (fun x => p <= x < p + Z.of_nat (length l)) a a' ->
  heap_holds a' (<[p := contents (ar_mem a') p (Z.of_nat (length l))]> m).
Proof.
  intros (bl & Hrep & ->) (o & r & Hin & -> & ->)%(holds_lookup a bl _ _ Hrep) Eh Ho.
  pose proof (useds_range _ _ _ _ (hr_ok _ _ _ (hp_rep _ _ Hrep)) Hin) as Hrg. rewrite length_contents in * by lia.
  destruct (rep_payload a a' bl o r Hrep Hin Eh Ho) as [Hrep' <-]. by exists bl.
Qed.

Lemma calloc_holds a m count size : heap_holds a m -> u64_ok count -> u64_ok size ->
  let (a', p) := heap_core_calloc a count size in exists m', calloc_result m count size p m' /\ heap_holds a' m'.
Proof.
  intros Hh Hc Hs. unfold u64_ok in *. unfold heap_core_calloc.
  destruct (Z.eqb_spec count 0) as [->|Hc0]; [exists m; split; [by left|done]|].
  destruct (Z.eqb_spec size 0) as [->|Hs0]; [exists m; split; [by left|done]|]. cbn [orb].
  destruct (Z.ltb_spec (SIZE_MAX / size) count) as [Hov|Hfit]; [exists m; split; [by left|by apply holds_failed]|].
  assert (count * size <= SIZE_MAX) as Hle.
  { transitivity (SIZE_MAX / size * size); [nia|]. rewrite Z.mul_comm. apply Z.mul_div_le. lia. }
  unfold SIZE_MAX in Hle. rewrite u64_small by (unfold u64_ok; nia).
  pose proof (alloc_holds a m (count * size) Hh ltac:(unfold u64_ok; nia)) as Hal. destruct (heap_core_alloc a (count * size)) as [a1 p].
  destruct Hal as (m1 & [[-> ->]|(Hpos & Hfr & l & Hl & ->)] & Hh1); [exists m; split; [by left|done]|].
  pose proof Hfr as (Hp & _). rewrite (proj2 (Z.eqb_neq _ _) Hp). cbn [negb].
  eexists. split; [right; split_and!; [done|done|done|reflexivity]|].
  pose proof (holds_write a1 (with_mem (fun mem => mem_fill mem p 0 (count * size)) a1) _ p l Hh1 (lookup_insert_eq _ _ _) eq_refl) as Hw.
  rewrite insert_insert_eq, Hl in Hw. cbn [with_mem ar_mem] in Hw. rewrite contents_fill in Hw by lia. apply Hw.
  intros x Hx. apply mem_fill_other. lia.
Qed.

Lemma holds_invalid a m : heap_holds a m -> heap_holds (invalid_free a) m.
Proof. intros Hh. by apply (holds_counts a). Qed.

Lemma free_holds a m p : heap_holds a m -> u64_ok p ->
  let (a', ok) := heap_core_free a p in exists m', free_result m p ok m' /\ heap_holds a' m'.
Proof.
  intros Hh Hp. pose proof (holds_base _ _ Hh) as [Hb0 _]. unfold heap_core_free. destruct (Z.eqb_spec p 0) as [->|Hne].
  { exists m. split; [|done]. split; [|done]. symmetry. apply delete_id. apply eq_None_not_Some. intros (l & Hl).
    apply (holds_layout _ _ _ _ Hh) in Hl. lia. }
  rewrite (holds_validate _ _ Hh). cbn [negb]. destruct Hh as (bl & Hrep & ->).
  destruct (pointer_offset_spec a bl p Hrep Hp) as [[-> Hno]|(Ho & pre & b & post & -> & Hu & Eo & Ep)].
  - rewrite Z.eqb_refl. exists (heap_abs a (useds 0 bl)). split; [|apply holds_invalid; by exists bl].
    assert (heap_abs a (useds 0 bl) !! p = None) as Hnone.
    { apply eq_None_not_Some. intros (l & (o & r & Hin & E & _)%(holds_lookup a bl _ _ Hrep)). by eapply Hno. }
    split; [by rewrite delete_id|]. rewrite Hnone, (proj2 (Z.eqb_neq _ _) Hne). cbn [orb]. symmetry. apply bool_decide_eq_false. by intros [].
  - rewrite (proj2 (Z.eqb_neq _ _) Ho). rewrite Eo in *. assert ((bsum pre, bk_req b) ∈ useds 0 (pre ++ b :: post)) as Hin.
    { apply (elem_of_useds _ 0). eexists _, b. split; [apply mid_in|done]. }
    destruct (release_holds a _ _ _ Hrep Hin) as [Hh' _]. eexists. split; [|exact Hh']. split; [by rewrite Ep|].
    rewrite (proj2 (Z.eqb_neq _ _) Hne). cbn [orb]. symmetry. apply bool_decide_eq_true. eexists. apply (holds_lookup a _ _ _ Hrep). eauto.
Qed.
End calls.
