(* ===== verification/HeapStore.v ===== *)
(** * The kernel heap: realloc, initialisation and histories *)

From stdpp Require Import gmap.
From S2P Require Import Prelude Bytes HeapCore HeapInv HeapLinks HeapBlocks HeapAlloc HeapFree HeapSpec.
Open Scope Z_scope.

(** The bytes two lists have in common. *)
Definition same_prefix (l l' : list Z) : Prop :=
  take (Nat.min (length l) (length l')) l' = take (Nat.min (length l) (length l')) l.

Lemma contents_prefix mem mem' p q n n' : 0 <= n -> 0 <= n' ->
  (forall i, 0 <= i < Z.min n n' -> mem' (q + i) = mem (p + i)) -> same_prefix (contents mem p n) (contents mem' q n').
Proof.
  intros Hn Hn' Hx. unfold same_prefix. pose proof (length_contents mem p n Hn) as E1. pose proof (length_contents mem' q n' Hn') as E2.
  assert (Nat.min (length (contents mem p n)) (length (contents mem' q n')) = Z.to_nat (Z.min n n')) as -> by lia.
  rewrite !contents_take by lia. unfold contents, seqZ. rewrite <-!list_fmap_compose. apply list_fmap_ext. intros i k Hi. cbn.
  apply list_elem_of_lookup_2, elem_of_seq in Hi. rewrite (Z.add_comm (Z.of_nat k) q), (Z.add_comm (Z.of_nat k) p). apply Hx. lia.
Qed.

Section realloc.
Context {C : Type} `{HeapOps C}.
Implicit Types a : arena C.
Implicit Types m : gmap Z (list Z).

(** A successful reallocation of [p] to [q]. *)
Definition moved a' m (p size q : Z) : Prop :=
  exists l l', m !! p = Some l /\ delete p m !! q = None /\ Z.of_nat (length l') = size /\ same_prefix l l' /\
    heap_holds a' (<[q := l']> (delete p m)).

Lemma moved_result a' m p size q : p <> 0 -> size <> 0 -> moved a' m p size q ->
  exists m', realloc_result m p size q m' /\ heap_holds a' m'.
Proof.
  intros Hp Hs (l & l' & Hl & Hn & Hlen & Hsp & Hh). eexists. split; [|exact Hh]. unfold realloc_result.
  rewrite (proj2 (Z.eqb_neq _ _) Hp), (proj2 (Z.eqb_neq _ _) Hs). right. exists l, l'. split_and!; try done.
  rewrite <-Hlen. by eapply holds_fresh.
Qed.

Lemma resize_moved a pre b post size needed : heap_rep a (pre ++ b :: post) -> bk_used b = true -> 0 < size <= needed - 48 ->
  64 <= needed <= bk_size b -> needed mod 16 = 0 ->
  moved (resize_block a (bsum pre) size needed) (heap_abs a (useds 0 (pre ++ b :: post))) (ptr a (bsum pre)) size (ptr a (bsum pre)).
Proof.
  intros Hrep Hu Hsz Hn H16. destruct (resize_rep a pre b post size needed Hrep Hu Hsz Hn H16) as (Eu & bl' & Hrep' & Eu' & Hk & Hk1 & x & Eh).
  set (a' := resize_block a (bsum pre) size needed) in *. clearbody a'.
  assert (hc_base (ar_heap a') = hc_base (ar_heap a)) as Eb by (rewrite Eh; by rewrite (proj1 (peak_up_fields _))).
  pose proof (useds_NoDup 0 _ (hr_ok _ _ _ (hp_rep _ _ Hrep))) as Hnd. pose proof (useds_NoDup 0 _ (hr_ok _ _ _ (hp_rep _ _ Hrep'))) as Hnd'.
  rewrite Eu' in Hnd'. destruct (mid_facts _ _ _ _ _ (hp_rep _ _ Hrep)) as (_ & (_ & _ & Hq) & _). rewrite Hu in Hq. rewrite Eu in Hnd |- *.
  destruct (abs_insert a _ _ _ _ Hnd) as [E1 N1]. destruct (abs_insert a' _ _ _ _ Hnd') as [E2 N2].
  assert (ptr a' (bsum pre) = ptr a (bsum pre)) as Ep by (unfold ptr, addr; by rewrite Eb). rewrite Ep in E2, N2.
  rewrite (abs_kept _ a a' Eb Hk) in E2, N2. rewrite E1. eexists _, _. split; [apply lookup_insert_eq|].
  rewrite delete_insert_id by done. split_and!; [done| | |exists bl'; split; [done|]; rewrite Eu'; symmetry; exact E2].
  - apply length_contents. lia.
  - apply contents_prefix; [lia|lia|]. intros i Hi. apply (Hk1 (bsum pre) (Z.min (bk_req b) size)); [by left|].
    unfold ptr, addr, BLOCK_BYTES in *. lia.
Qed.

(** [move_block] after a successful allocation. *)
Lemma move_moved a1 m o p q l l1 size : heap_holds a1 (<[q := l1]> m) -> m !! q = None -> m !! p = Some l -> p = ptr a1 o -> q <> 0 ->
  Z.of_nat (length l1) = size ->
  let (a', r) := move_block a1 o p q size in r = q /\ moved a' m p size q.
Proof.
  intros Hh Hq Hp Ep Hq0 Hl1. assert (q <> p) as Hqp by (intros ->; congruence).
  pose proof (holds_layout _ _ q l1 Hh (lookup_insert_eq _ _ _)) as (_ & Hlen & _ & _ & Hsep).
  assert (<[q := l1]> m !! p = Some l) as Hp1 by (by rewrite lookup_insert_ne).
  pose proof (Hsep p l Hp1 ltac:(done)) as Hd. pose proof Hh as (bl & Hrep & Em).
  rewrite Em in Hp1. apply (holds_lookup a1 bl _ _ Hrep) in Hp1 as (o' & r & Hin & Ep' & El).
  assert (o' = o) as -> by (unfold ptr, addr in *; lia). pose proof (hp_rep _ _ Hrep) as Hr.
  pose proof (useds_range _ _ _ _ (hr_ok _ _ _ Hr) Hin) as Hrg. assert (Z.of_nat (length l) = r) as Hlr by (rewrite El; apply length_contents; lia).
  destruct (proj1 (elem_of_useds _ 0 _ _ _) Hin) as (pv & b & Hpl & Hu & Hbr).
  destruct (hrep_block _ _ _ _ _ _ Hr Hpl) as (_ & _ & _ & _ & _ & _ & _ & Erq & _). rewrite Hbr in Erq.
  unfold move_block. rewrite (proj2 (Z.eqb_neq _ _) Hq0), Erq. split; [done|].
  set (k := if r <? size then r else size). assert (k = Z.min r size) as Ek by (unfold k; destruct (Z.ltb_spec r size); lia). rewrite Ek. clear k Ek.
  set (a2 := with_mem _ a1). assert (ar_heap a2 = ar_heap a1) as Eh2 by reflexivity.
  pose proof (holds_write a1 a2 _ q l1 Hh (lookup_insert_eq _ _ _) Eh2) as Hw.
  rewrite insert_insert_eq, Hl1 in Hw.
  assert (heap_holds a2 (<[q := contents (ar_mem a2) q size]> m)) as (bl2 & Hrep2 & Em2).
  { apply Hw. intros x Hx. unfold a2. cbn [with_mem ar_mem]. apply mem_copy_other. lia. }
  assert (heap_abs a2 (useds 0 bl2) !! p = Some l) as Hp2 by (by rewrite <-Em2, lookup_insert_ne).
  apply (holds_lookup a2 bl2 _ _ Hrep2) in Hp2 as (o2 & r2 & Hin2 & Ep2 & _).
  assert (o2 = o) as -> by (unfold ptr, addr in *; rewrite Eh2 in Ep2; lia).
  destruct (release_holds a2 bl2 o r2 Hrep2 Hin2) as [Hrel _]. rewrite <-Ep2, <-Em2, delete_insert_ne in Hrel by done.
  eexists _, _. split_and!; [exact Hp|by rewrite lookup_delete_ne| | |exact Hrel]; [apply length_contents; lia|].
  rewrite El. apply contents_prefix; [lia|lia|]. intros i Hi. unfold a2. cbn [with_mem ar_mem]. rewrite mem_copy_in by lia. f_equal. lia.
Qed.

Lemma kept_hdrs a a' bl fl : hrep a bl fl -> only (hdrs a bl) a a' -> kept (useds 0 bl) a a'.
Proof.
  intros Hr Ho. apply (kept_segment a a' [] [] bl fl Hr). eapply only_weaken; [exact Ho|]. intros x Hx. by left.
Qed.

Lemma consume_moved a pre b post size needed : heap_rep a (pre ++ b :: post) -> bk_used b = true -> 0 < size <= needed - 48 ->
  bk_size b <= needed <= UINT64_MAX -> needed mod 16 = 0 ->
  let (a', ok) := consume_next a (bsum pre) needed in
  if ok then moved (resize_block a' (bsum pre) size needed) (heap_abs a (useds 0 (pre ++ b :: post))) (ptr a (bsum pre)) size (ptr a (bsum pre))
  else a' = a.
Proof.
  intros Hrep Hu Hsz Hn H16. pose proof (consume_spec a pre b post needed Hrep Hu Hn) as Hc.
  destruct (consume_next a (bsum pre) needed) as [a' [|]]; [|apply Hc].
  destruct Hc as (n & rest & -> & Hnf & Hle & Hrep' & Hk & Ho). pose proof (heap_like_base _ _ Hk) as Eb.
  destruct (mid_facts _ _ _ _ _ (hp_rep _ _ Hrep)) as (_ & (H64 & _) & _).
  pose proof (resize_moved a' pre _ rest size needed Hrep' eq_refl Hsz ltac:(cbn [bk_size]; lia) H16) as Hm.
  assert (ptr a' (bsum pre) = ptr a (bsum pre)) as Ep by (unfold ptr, addr; by rewrite Eb). rewrite Ep in Hm.
  assert (useds 0 (pre ++ MkBlk (bk_size b + bk_size n) true (bk_req b) :: rest) = useds 0 (pre ++ b :: n :: rest)) as Eu.
  { rewrite !useds_app, !useds_cons, Hu, Hnf. cbn [bk_used bk_req bk_size app]. by rewrite Z.add_assoc. }
  rewrite Eu, (abs_kept _ a a' Eb) in Hm by (by eapply kept_hdrs; [apply Hrep|]). exact Hm.
Qed.

Lemma grow_keeps a pre b post n : heap_rep a (pre ++ b :: post) -> bk_used b = true -> 0 < n <= UINT64_MAX ->
  let (a', ok) := grow_heap a n in
  exists post', heap_rep a' (pre ++ b :: post') /\ hc_base (ar_heap a') = hc_base (ar_heap a) /\
    heap_abs a' (useds 0 (pre ++ b :: post')) = heap_abs a (useds 0 (pre ++ b :: post)).
Proof.
  intros Hrep Hu Hn. destruct (last_split (pre ++ b :: post)) as (pre0 & t & E); [by destruct pre|].
  pose proof (hp_rep _ _ Hrep) as Hr. pose proof Hr as Hr0. pose proof Hrep as Hrep0. rewrite E in Hr0, Hrep0.
  pose proof (grow_spec a pre0 t n Hr0 Hn) as Hg. destruct (grow_heap a n) as [a' [|]]; cycle 1.
  { destruct Hg as [Eh Em]. exists post. split_and!; [by eapply rep_same|by rewrite Eh|]. apply abs_kept; [by rewrite Eh|].
    intros o r x _ _. by rewrite Em. }
  destruct Hg as [(-> & _)|(extra & Hg)]; [by exists post|].
  pose proof Hg as (_ & _ & _ & (x & Eh) & _).
  destruct (grown_rep a a' pre0 t _ extra Hrep0 Hg) as (pre' & b1 & Hrep' & _ & _ & Epre & Eu & Hk).
  assert (hc_base (ar_heap a') = hc_base (ar_heap a)) as Eb by by rewrite Eh.
  assert (exists post', pre' ++ [b1] = pre ++ b :: post') as (post' & E').
  { destruct post as [|t' post0 _] using rev_ind.
    - apply app_inj_tail in E as [-> ->]. rewrite Hu in Epre. subst pre'. exists [b1]. by rewrite <-app_assoc.
    - rewrite app_comm_cons, app_assoc in E. apply app_inj_tail in E as [<- ->]. destruct (bk_used t); subst pre'.
      + exists (post0 ++ [t; b1]). by rewrite <-!app_assoc.
      + exists (post0 ++ [b1]). by rewrite <-!app_assoc. }
  exists post'. rewrite <-E', E. split_and!; [done|done|]. rewrite Eu. by apply abs_kept.
Qed.

Lemma realloc_failed a m p size : heap_holds a m -> p <> 0 -> size <> 0 ->
  exists m', realloc_result m p size 0 m' /\ heap_holds (failed_allocation a) m'.
Proof.
  intros Hh Hp Hs. exists m. split; [|by apply holds_failed]. unfold realloc_result.
  rewrite (proj2 (Z.eqb_neq _ _) Hp), (proj2 (Z.eqb_neq _ _) Hs). by left.
Qed.

(** A fresh block is taken and the data moves there. *)
Lemma allocate_move a m o p l size needed g : heap_holds a m -> m !! p = Some l -> p = ptr a o -> p <> 0 ->
  0 < size <= needed - 48 -> 64 <= needed <= UINT64_MAX -> needed mod 16 = 0 ->
  let (a1, q) := allocate a size needed g in
  (q = 0 /\ ar_heap a1 = ar_heap a /\ ar_mem a1 = ar_mem a) \/
  (q <> 0 /\ let (a', r) := move_block a1 o p q size in exists m', realloc_result m p size r m' /\ heap_holds a' m').
Proof.
  intros Hh Hp Ep Hp0 Hsz Hn H16. pose proof (allocate_holds a m size needed g Hh Hsz Hn H16) as Hal.
  destruct (allocate a size needed g) as [a1 q]. destruct Hal as [(-> & _ & Eh & Em)|(Hq & Hnone & Eb & l1 & Hl1 & Hh1 & _)]; [by left|].
  right. split; [done|]. assert (p = ptr a1 o) as Ep1 by (unfold ptr, addr in *; by rewrite Eb).
  pose proof (move_moved a1 m o p q l l1 size Hh1 Hnone Hp Ep1 Hq Hl1) as Hm. destruct (move_block a1 o p q size) as [a' r].
  destruct Hm as [-> Hm]. apply (moved_result a' m p size q Hp0 ltac:(lia) Hm).
Qed.

Lemma heap_abs_same a a' U : ar_heap a' = ar_heap a -> ar_mem a' = ar_mem a -> heap_abs a' U = heap_abs a U.
Proof. intros Eh Em. apply abs_kept; [by rewrite Eh|]. intros o r x _ _. by rewrite Em. Qed.

(** The branch of [heap_core_realloc] that extends the arena behind the block. *)
Lemma realloc_grown a pre b post p size needed : heap_rep a (pre ++ b :: post) -> bk_used b = true -> 0 < size <= needed - 48 ->
  bk_size b < needed <= UINT64_MAX -> needed mod 16 = 0 -> p = ptr a (bsum pre) -> p <> 0 ->
  let (a', q) :=
    let (a, grown) := grow_heap a (needed - bk_size b) in
    let (a, consumed) := if grown then consume_next a (bsum pre) needed else (a, false) in
    if consumed then (resize_block a (bsum pre) size needed, p) else move_block a (bsum pre) p 0 size in
  exists m', realloc_result (heap_abs a (useds 0 (pre ++ b :: post))) p size q m' /\ heap_holds a' m'.
Proof.
  intros Hrep Hu Hrq Hn H16 Ep Hp0. destruct (mid_facts _ _ _ _ _ (hp_rep _ _ Hrep)) as (_ & (H64 & _) & _).
  pose proof (grow_keeps a pre b post (needed - bk_size b) Hrep Hu ltac:(lia)) as Hg.
  destruct (grow_heap a (needed - bk_size b)) as [a1 grown]. destruct Hg as (post' & Hrep1 & Eb & <-).
  assert (heap_holds a1 (heap_abs a1 (useds 0 (pre ++ b :: post')))) as Hh1 by (by eexists).
  destruct grown; [|apply realloc_failed; [done|done|lia]].
  pose proof (consume_moved a1 pre b post' size needed Hrep1 Hu Hrq ltac:(lia) H16) as Hc.
  destruct (consume_next a1 (bsum pre) needed) as [a2 [|]]; [|subst a2; apply realloc_failed; [done|done|lia]].
  assert (p = ptr a1 (bsum pre)) as Ep1 by (unfold ptr, addr in *; by rewrite Eb). rewrite <-Ep1 in Hc.
  apply moved_result; [done|lia|done].
Qed.

Lemma realloc_holds a m p size : heap_holds a m -> u64_ok p -> u64_ok size ->
  let (a', q) := heap_core_realloc a p size in exists m', realloc_result m p size q m' /\ heap_holds a' m'.
Proof.
  intros Hh Hp Hs. unfold heap_core_realloc. destruct (Z.eqb_spec p 0) as [->|Hp0].
  { pose proof (alloc_holds a m size Hh Hs) as Hal. by destruct (heap_core_alloc a size). }
  destruct (Z.eqb_spec size 0) as [->|Hs0].
  { pose proof (free_holds a m p Hh Hp) as Hf. destruct (heap_core_free a p) as [a' ok]. destruct Hf as (m' & [-> _] & Hh').
    eexists. split; [|exact Hh']. unfold realloc_result. by rewrite (proj2 (Z.eqb_neq _ _) Hp0). }
  rewrite (holds_validate _ _ Hh). pose proof (required_size_spec size Hs) as Hrq.
  destruct (required_size size) as [needed|]; [|by apply realloc_failed]. destruct Hrq as (Hrq & _ & Hn & H16).
  pose proof Hh as (bl & Hrep & Em). destruct (pointer_offset_spec a bl p Hrep Hp) as [[-> _]|(Ho & pre & b & post & -> & Hu & Eo & Ep)].
  { rewrite Z.eqb_refl. by apply realloc_failed. }
  rewrite (proj2 (Z.eqb_neq _ _) Ho). rewrite Eo in *. clear Ho Eo. pose proof (hp_rep _ _ Hrep) as Hr. fold (ptr a (bsum pre)) in Ep.
  destruct (hrep_block _ _ _ _ _ _ Hr (mid_in pre post b)) as ((H64 & _) & _ & _ & _ & Esz & _). rewrite Esz.
  destruct (Z.leb_spec needed (bk_size b)) as [Hle|Hgt].
  { rewrite Em. apply moved_result; [done|done|]. rewrite Ep. apply resize_moved; try done; lia. }
  pose proof (consume_moved a pre b post size needed Hrep Hu Hrq ltac:(lia) H16) as Hc.
  destruct (consume_next a (bsum pre) needed) as [a1 [|]].
  { rewrite Em. apply moved_result; [done|done|]. by rewrite Ep. }
  subst a1. assert (exists l, m !! p = Some l) as (l & Hl).
  { rewrite Em, Ep. eexists. apply (holds_lookup a _ _ _ Hrep). eexists _, _. split_and!; [|reflexivity|reflexivity].
    apply (elem_of_useds _ 0). eexists _, b. split; [apply mid_in|done]. }
  pose proof (allocate_move a m (bsum pre) p l size needed false Hh Hl Ep Hp0 Hrq Hn H16) as Hal.
  destruct (allocate a size needed false) as [a1 q]. destruct Hal as [(-> & Eh1 & Em1)|(Hq & Hm)]; cycle 1.
  { rewrite (proj2 (Z.eqb_neq _ _) Hq). cbn [negb]. exact Hm. }
  cbn [negb Z.eqb]. pose proof (holds_same a a1 m Hh Eh1 Em1) as Hh1. pose proof (rep_same a a1 _ Hrep Eh1 Em1) as Hrep1.
  assert (p = ptr a1 (bsum pre)) as Ep1 by (unfold ptr, addr in *; by rewrite Eh1).
  destruct (at_tail a1 _).
  - pose proof (hrep_bounds _ _ _ Hr) as (Hmn & _). rewrite (u64_small (needed - bk_size b)) by (unfold u64_ok; lia).
    pose proof (realloc_grown a1 pre b post p size needed Hrep1 Hu Hrq ltac:(lia) H16 Ep1 Hp0) as Hg.
    rewrite (heap_abs_same a a1 _ Eh1 Em1), <-Em in Hg. exact Hg.
  - pose proof (allocate_move a1 m (bsum pre) p l size needed true Hh1 Hl Ep1 Hp0 Hrq Hn H16) as Hal.
    destruct (allocate a1 size needed true) as [a2 q]. destruct Hal as [(-> & Eh2 & Em2)|(Hq & Hm)]; [|exact Hm].
    cbn [move_block Z.eqb]. apply realloc_failed; [|done|done]. by apply (holds_same a1).
Qed.
End realloc.

(** ** The kernel heap: initialisation and histories *)

(** What a kernel component does with the heap; [HWrite p i v] stores a byte
    at [p[i]]. *)
Inductive heap_call :=
  | HAlloc (size : Z)
  | HCalloc (count size : Z)
  | HFree (p : Z)
  | HRealloc (p size : Z)
  | HWrite (p i v : Z).

Definition call_ok (c : heap_call) : Prop :=
  match c with
  | HAlloc size => u64_ok size
  | HCalloc count size => u64_ok count /\ u64_ok size
  | HFree p => u64_ok p
  | HRealloc p size => u64_ok p /\ u64_ok size
  | HWrite p _ _ => u64_ok p
  end.

Section trace.
Context {C : Type} `{HeapOps C}.
Implicit Types a : arena C.
Implicit Types m : gmap Z (list Z).

(** A store through a pointer, by a client that stays inside its live
    allocations. *)
Definition client_store a (p i v : Z) : arena C :=
  let offset := pointer_offset a p in
  if negb (offset =? UTAMO_HEAP_NONE) && (0 <=? i) && (i <? hb_requested (block_at a offset))
  then with_mem (fun mem => mem_fill mem (p + i) v 1) a else a.

(** The result is the pointer, or 1 and 0 for the results of [free]. *)
Definition heap_apply a (c : heap_call) : arena C * Z :=
  match c with
  | HAlloc size => heap_core_alloc a size
  | HCalloc count size => heap_core_calloc a count size
  | HFree p => let (a, ok) := heap_core_free a p in (a, if ok then 1 else 0)
  | HRealloc p size => heap_core_realloc a p size
  | HWrite p i v => (client_store a p i v, 0)
  end.

Fixpoint heap_run a (calls : list heap_call) : arena C * list Z :=
  match calls with
  | [] => (a, [])
  | c :: calls =>
      let (a, r) := heap_apply a c in
      let (a, rs) := heap_run a calls in (a, r :: rs)
  end.

(** A store inside a live allocation. *)
Definition stored m (p i v : Z) : gmap Z (list Z) :=
  match m !! p with
  | Some l => if (0 <=? i) && (i <? Z.of_nat (length l)) then <[p := <[Z.to_nat i := v]> l]> m else m
  | None => m
  end.

(** The specification: how each call may change the map of allocations. *)
Definition heap_step m (c : heap_call) (r : Z) m' : Prop :=
  match c with
  | HAlloc size => alloc_result m size r m'
  | HCalloc count size => calloc_result m count size r m'
  | HFree p => free_result m p (r =? 1) m'
  | HRealloc p size => realloc_result m p size r m'
  | HWrite p i v => m' = stored m p i v
  end.

Fixpoint heap_steps m (calls : list heap_call) (rs : list Z) m' : Prop :=
  match calls, rs with
  | [], [] => m' = m
  | c :: calls, r :: rs => exists m1, heap_step m c r m1 /\ heap_steps m1 calls rs m'
  | _, _ => False
  end.

Lemma contents_store mem p n i v : 0 <= i < n -> contents (mem_fill mem (p + i) v 1) p n = <[Z.to_nat i := v]> (contents mem p n).
Proof.
  intros Hi. apply list_eq. intros k. destruct (decide (k < Z.to_nat n)%nat) as [Hk|Hk].
  - unfold contents. rewrite list_lookup_fmap, lookup_seqZ_lt by lia. cbn. destruct (decide (k = Z.to_nat i)) as [->|Hne].
    + rewrite list_lookup_insert_eq by (rewrite length_fmap, length_seqZ; lia). f_equal. apply mem_fill_in. lia.
    + rewrite list_lookup_insert_ne, list_lookup_fmap, lookup_seqZ_lt by lia. cbn. f_equal. apply mem_fill_other. lia.
  - rewrite !lookup_ge_None_2; [done|rewrite length_insert; unfold contents; rewrite length_fmap, length_seqZ; lia|
      unfold contents; rewrite length_fmap, length_seqZ; lia].
Qed.

Lemma store_holds a m p i v : heap_holds a m -> u64_ok p -> heap_holds (client_store a p i v) (stored m p i v).
Proof.
  intros Hh Hp. pose proof Hh as (bl & Hrep & Em). unfold client_store, stored.
  destruct (pointer_offset_spec a bl p Hrep Hp) as [[-> Hno]|(Ho & pre & b & post & -> & Hu & Eo & Ep)].
  - rewrite Z.eqb_refl. cbn [negb andb]. destruct (m !! p) as [l|] eqn:Hl; [|done]. exfalso.
    rewrite Em in Hl. apply (holds_lookup a bl _ _ Hrep) in Hl as (o & r & Hin & E & _). by eapply Hno.
  - rewrite (proj2 (Z.eqb_neq _ _) Ho), Eo. cbn [negb andb]. fold (ptr a (pointer_offset a p)) in Ep. rewrite Eo in Ep.
    destruct (hrep_block _ _ _ _ _ _ (hp_rep _ _ Hrep) (mid_in pre post b)) as ((_ & _ & Hq) & _ & _ & _ & _ & _ & _ & Erq & _). rewrite Hu in Hq.
    assert (m !! p = Some (contents (ar_mem a) p (bk_req b))) as Hl.
    { rewrite Em. apply (holds_lookup a _ _ _ Hrep). eexists _, _. split_and!; [|done|done].
      apply (elem_of_useds _ 0). eexists _, b. split; [apply mid_in|done]. }
    rewrite Hl, Erq, length_contents by lia. destruct (Z.leb_spec 0 i); cbn [andb]; [|done].
    destruct (Z.ltb_spec i (bk_req b)); [|done]. rewrite <-contents_store by lia.
    pose proof (holds_write a (with_mem (fun mem => mem_fill mem (p + i) v 1) a) m p _ Hh Hl eq_refl) as Hw.
    rewrite length_contents in Hw by lia. apply Hw. intros x Hx. apply mem_fill_other. lia.
Qed.

Lemma apply_holds a m c : heap_holds a m -> call_ok c ->
  let (a', r) := heap_apply a c in exists m', heap_step m c r m' /\ heap_holds a' m'.
Proof.
  intros Hh Hc. destruct c as [size|count size|p|p size|p i v]; cbn [heap_apply heap_step call_ok] in *.
  - by apply alloc_holds.
  - destruct Hc. by apply calloc_holds.
  - pose proof (free_holds a m p Hh Hc) as Hf. destruct (heap_core_free a p) as [a' [|]]; exact Hf.
  - destruct Hc. by apply realloc_holds.
  - eexists. split; [reflexivity|]. by apply store_holds.
Qed.

Lemma run_holds calls : forall a m, heap_holds a m -> Forall call_ok calls ->
  let (a', rs) := heap_run a calls in exists m', heap_steps m calls rs m' /\ heap_holds a' m'.
Proof.
  induction calls as [|c calls IH]; intros a m Hh Hok; cbn [heap_run]; [by exists m|].
  apply Forall_cons in Hok as [Hc Hok]. pose proof (apply_holds a m c Hh Hc) as Ha. destruct (heap_apply a c) as [a1 r].
  destruct Ha as (m1 & Hs & Hh1). pose proof (IH a1 m1 Hh1 Hok) as Hr. destruct (heap_run a1 calls) as [a' rs].
  destruct Hr as (m' & Hss & Hh'). exists m'. split; [by exists m1|done].
Qed.

(** ** Initialisation *)

Lemma init_guards a base initial max growth poison can : u64_ok base -> u64_ok initial -> u64_ok max -> u64_ok growth ->
  snd (heap_core_init a base initial max growth poison can) = true <->
  hc_initialized (ar_heap a) = false /\ ctx_ok (MkHeap base initial max growth 0 can 0 0 0 0 0 0 0 poison true).
Proof.
  intros Hb Hi Hm Hg. pose proof (context_valid_ok (MkHeap base initial max growth 0 can 0 0 0 0 0 0 0 poison true) ltac:(by split_and!)) as Hv.
  rewrite <-Hv. unfold heap_core_init, context_valid. cbn [hc_initialized hc_base hc_mapped_size hc_max_size hc_growth_size].
  rewrite !Z.ltb_antisym. destruct (hc_initialized (ar_heap a)), (base =? 0), (Z.land base _ =? 0), (UTAMO_HEAP_MIN_BLOCK <=? initial),
    (initial <=? max), (UTAMO_HEAP_MIN_BLOCK <=? growth), (Z.land _ _ =? 0), (max <=? _); cbn; intuition congruence.
Qed.

Lemma first_block a n : ctx_ok (ar_heap a) -> hc_mapped_size (ar_heap a) = n -> hc_free_head (ar_heap a) = 0 ->
  let a' := write_block a 0 n 0 0 false in hrep a' [free_blk n] [0] /\ ar_heap a' = ar_heap a.
Proof.
  intros Hc En Eh. pose proof Hc as []. split; [|done].
  assert (block_at (write_block a 0 n 0 0 false) 0 = MkBlock n 0 0 UTAMO_HEAP_NONE UTAMO_HEAP_NONE (block_cookie (ar_heap a) 0)) as E.
  { rewrite write_block_at; [f_equal; lia| | | | |]; try (unfold u64_ok; lia); [by rewrite <-En|]. apply cookie_ok; unfold u64_ok; lia. }
  constructor; try done.
  - cbn. lia.
  - apply Forall_singleton. unfold blk_ok. cbn. split_and!; [lia|by rewrite <-En|done].
  - intros e He%list_elem_of_singleton. subst e. unfold hdr. rewrite E. cbn. split_and!; try done. unfold flagged. cbn. lia.
  - exists 0. cbn [dseg]. rewrite E. by split_and!.
  - repeat constructor.
  - intros o Ho%list_elem_of_singleton. subst o. eexists _, _. by left.
  - intros o pv b Hin%list_elem_of_singleton Hno. simplify_eq. exfalso. apply Hno. by left.
Qed.

Lemma init_holds a base initial max growth poison can : u64_ok base -> u64_ok initial -> u64_ok max -> u64_ok growth ->
  let (a', ok) := heap_core_init a base initial max growth poison can in
  if ok then heap_holds a' ∅ /\ hc_mapped_size (ar_heap a') = initial else a' = a.
Proof.
  intros Hb Hi Hm Hg. pose proof (init_guards a base initial max growth poison can Hb Hi Hm Hg) as Hgd. unfold heap_core_init in *.
  destruct (_ || _ || _ || _ || _ || _ || _ || _); [done|]. destruct Hgd as [Hgd _]. destruct (Hgd eq_refl) as [_ Hc]. clear Hgd.
  set (h := MkHeap base initial max growth 0 can 0 0 0 0 0 0 0 poison true) in *.
  destruct (first_block (MkArena h (ar_mem a) (ar_ctx a)) initial Hc eq_refl eq_refl) as [Hr Eh].
  set (a1 := write_block _ _ _ _ _ _) in *. clearbody a1. cbn [ar_heap] in Eh.
  assert (forall a', hrep a' [free_blk initial] [0] -> ar_heap a' = h -> heap_holds a' ∅) as Hfin.
  { intros a' Hr' Eh'. exists [free_blk initial]. split; [|done]. by constructor; rewrite ?Eh'. }
  destruct poison; [|split; [by apply Hfin|by rewrite Eh]]. split; [|cbn; by rewrite Eh].
  pose proof Hc as []. cbn [h hc_mapped_size] in *. unfold u64_ok in *. rewrite u64_small by (unfold u64_ok, BLOCK_BYTES; lia).
  destruct (payload_fill a1 [] (free_blk initial) [] [0] 0xdd (addr a1 BLOCK_BYTES) (initial - BLOCK_BYTES) Hr) as [Hr2 _];
    [unfold addr, BLOCK_BYTES; cbn; lia|unfold addr, BLOCK_BYTES; cbn; lia|]. by apply Hfin.
Qed.
End trace.

(** ** The kernel heap keeps the promise of [ByteStore]

    [kmalloc] and [kfree] as the allocator callbacks of kernel/fs/storage.c. *)


(** [memcpy] of the bytes [v] to [p]. *)
Definition mem_put (mem : memory) (p : Z) (v : list Z) : memory :=
  fun x => if (p <=? x) && (x <? p + Z.of_nat (length v)) then arr_get v (x - p) else mem x.

Lemma contents_put mem p n i v : 0 <= i -> i + Z.of_nat (length v) <= n ->
  contents (mem_put mem (p + i) v) p n = splice (contents mem p n) i v.
Proof.
  intros Hi Hn. apply list_eq. intros k. unfold contents, splice. rewrite list_lookup_fmap.
  assert (length (mem <$> seqZ p n) = Z.to_nat n) as Hlen by (rewrite length_fmap, length_seqZ; done).
  destruct (decide (Z.of_nat k < n)) as [Hk|Hk]; cycle 1.
  { rewrite lookup_seqZ_ge by lia. symmetry. apply lookup_ge_None. rewrite !length_app, length_take, length_drop, Hlen. lia. }
  rewrite lookup_seqZ_lt by lia. cbn. unfold mem_put.
  destruct (decide (Z.of_nat k < i)) as [H1|H1].
  - destruct (Z.leb_spec (p + i) (p + Z.of_nat k)); [lia|]. cbn [andb].
    rewrite lookup_app_l by (rewrite length_take, Hlen; lia). rewrite lookup_take_lt by lia. rewrite list_lookup_fmap, lookup_seqZ_lt by lia. done.
  - rewrite lookup_app_r by (rewrite length_take, Hlen; lia). rewrite length_take, Hlen.
    destruct (Z.leb_spec (p + i) (p + Z.of_nat k)); [|lia]. cbn [andb].
    destruct (Z.ltb_spec (p + Z.of_nat k) (p + i + Z.of_nat (length v))).
    + rewrite lookup_app_l by lia. destruct (lookup_lt_is_Some_2 v (k - Z.to_nat i)%nat ltac:(lia)) as [x Hx].
      replace (k - Z.to_nat i `min` Z.to_nat n)%nat with (k - Z.to_nat i)%nat by lia. rewrite Hx. f_equal. unfold arr_get.
      replace (Z.to_nat (p + Z.of_nat k - (p + i))) with (k - Z.to_nat i)%nat by lia. by apply list_lookup_total_correct.
    + rewrite lookup_app_r by lia. rewrite lookup_drop, list_lookup_fmap, lookup_seqZ_lt by lia. cbn. repeat f_equal. lia.
Qed.

Section store.
Context {C : Type} `{HeapOps C}.

#[export] Instance heap_store : ByteStore (arena C) := {|
  st_alloc a n := heap_core_alloc a n;
  st_free a p := fst (heap_core_free a p);
  st_mem a := ar_mem a;
  st_write a p v := with_mem (fun mem => mem_put mem p v) a
|}.

Lemma heap_store_alloc (a : arena C) m n : heap_holds a m -> 0 < n <= UINT32_MAX ->
  let (a', p) := heap_core_alloc a n in
  (p = 0 /\ heap_holds a' m) \/ (p <> 0 /\ m !! p = None /\ exists l, Z.of_nat (length l) = n /\ heap_holds a' (<[p := l]> m)).
Proof.
  intros Hh Hn. pose proof (alloc_holds a m n Hh ltac:(unfold u64_ok, UINT64_MAX, UINT32_MAX in *; lia)) as Ha.
  destruct (heap_core_alloc a n) as [a' p]. destruct Ha as (m' & [[-> ->]|(_ & Hf & l & Hl & ->)] & Hh'); [by left|right].
  destruct Hf as (Hp & _ & Hnone & _). split_and!; [done|done|by exists l].
Qed.

Lemma heap_store_free (a : arena C) m p l : heap_holds a m -> m !! p = Some l -> heap_holds (fst (heap_core_free a p)) (delete p m).
Proof.
  intros Hh Hl. pose proof (holds_layout _ _ _ _ Hh Hl) as Hlay. pose proof Hh as (bl & Hrep & _). destruct (hr_ctx _ _ _ (hp_rep _ _ Hrep)).
  pose proof (free_holds a m p Hh ltac:(unfold u64_ok, UINT64_MAX in *; lia)) as Hf. destruct (heap_core_free a p) as [a' r]. cbn [fst].
  destruct Hf as (m' & [-> _] & Hh'). done.
Qed.

Lemma heap_store_read (a : arena C) m p l i x : heap_holds a m -> m !! p = Some l -> 0 <= i -> l !! Z.to_nat i = Some x -> ar_mem a (p + i) = x.
Proof.
  intros (bl & Hrep & ->) (o & r & _ & -> & ->)%(holds_lookup a bl _ _ Hrep) Hi Hx. unfold contents in Hx. rewrite list_lookup_fmap in Hx.
  destruct (seqZ _ _ !! Z.to_nat i) as [y|] eqn:Ey; [|done]. apply lookup_seqZ in Ey as [-> _]. cbn in Hx. injection Hx as <-. f_equal. lia.
Qed.

Lemma heap_store_write (a : arena C) m p l i v : heap_holds a m -> m !! p = Some l -> 0 <= i -> i + Z.of_nat (length v) <= Z.of_nat (length l) ->
  heap_holds (with_mem (fun mem => mem_put mem (p + i) v) a) (<[p := splice l i v]> m).
Proof.
  intros Hh Hl Hi Hn. pose proof (holds_write a (with_mem (fun mem => mem_put mem (p + i) v) a) m p l Hh Hl eq_refl) as Hw.
  cbn [with_mem ar_mem] in Hw. rewrite contents_put in Hw by done.
  assert (contents (ar_mem a) p (Z.of_nat (length l)) = l) as El.
  { apply list_eq. intros k. unfold contents. rewrite list_lookup_fmap. destruct (l !! k) as [x|] eqn:Ex.
    - pose proof (lookup_lt_Some _ _ _ Ex). rewrite lookup_seqZ_lt by lia. cbn. f_equal. eapply heap_store_read; [done|done|lia|by rewrite Nat2Z.id].
    - apply lookup_ge_None in Ex. rewrite lookup_seqZ_ge by lia. done. }
  rewrite El in Hw. apply Hw. intros x Hx. unfold mem_put. cbn [with_mem ar_mem].
  destruct (Z.leb_spec (p + i) x), (Z.ltb_spec x (p + i + Z.of_nat (length v))); try done. lia.
Qed.

#[export] Program Instance heap_store_laws : ByteStoreLaws (arena C) := {| st_holds := heap_holds |}.
Next Obligation. intros a m n. apply heap_store_alloc. Qed.
Next Obligation. intros a m p l. apply heap_store_free. Qed.
Next Obligation. intros a m p l i x. apply heap_store_read. Qed.
Next Obligation. intros a m p l i v. apply heap_store_write. Qed.
End store.
