(* ===== verification/HeapProps.v ===== *)
(** * The kernel heap: theorems

    The heap refines a map from pointers to bytes; validation decides the
    representation; allocation is complete; statistics are exact. *)

From stdpp Require Import gmap.
From S2P Require Import Prelude Bytes HeapCore HeapInv HeapLinks HeapBlocks HeapAlloc HeapFree HeapSpec HeapStore.
Open Scope Z_scope.

Section props.
Context {C : Type} `{HeapOps C}.
Implicit Types a : arena C.
Implicit Types m : gmap Z (list Z).

(** The bytes of memory are those of the map, at aligned addresses inside the
    arena that do not overlap. *)
Definition heap_owns a m : Prop := forall p l, m !! p = Some l ->
  contents (ar_mem a) p (Z.of_nat (length l)) = l /\
  p mod 16 = 0 /\ 0 < Z.of_nat (length l) /\ hc_base (ar_heap a) + 48 <= p /\
  p + Z.of_nat (length l) <= hc_base (ar_heap a) + hc_mapped_size (ar_heap a) /\
  forall q l', m !! q = Some l' -> q <> p -> p + Z.of_nat (length l) <= q \/ q + Z.of_nat (length l') <= p.

Lemma holds_owns a m : heap_holds a m -> heap_owns a m.
Proof.
  intros Hh p l Hl. pose proof (holds_layout _ _ _ _ Hh Hl) as Hlay. split; [|done].
  destruct Hh as (bl & Hrep & ->). pose proof (hr_ok _ _ _ (hp_rep _ _ Hrep)) as Hok.
  apply (holds_lookup a bl _ _ Hrep) in Hl as (o & r & Hin & -> & ->).
  apply useds_range in Hin; [|done]. by rewrite length_contents by lia.
Qed.

(** The free blocks of a heap. *)
Definition free_payload (bl : list blk) : list Z := omap (fun b => if bk_used b then None else Some (bk_size b - 48)) bl.
Definition sum_list_Z (l : list Z) : Z := foldr Z.add 0 l.
Definition max_list_Z (l : list Z) : Z := foldr Z.max 0 l.

Lemma stats_fold a bl : forall o pv f l, (forall e, e ∈ place o pv bl -> hdr a e) -> Forall blk_ok bl ->
  bsum bl <= UINT64_MAX -> 0 <= f -> 0 <= l -> f + bsum bl <= UINT64_MAX ->
  foldl (fun '(f, l) o => let bytes := block_size (block_at a o) -u BLOCK_BYTES in
           (f +u bytes, if l <? bytes then bytes else l)) (f, l) (free_offs o pv bl) =
  (f + sum_list_Z (free_payload bl), Z.max l (max_list_Z (free_payload bl))).
Proof.
  induction bl as [|b bl IH]; intros o pv f l Hh Hok Hm Hf Hl Hs.
  - cbn. f_equal; lia.
  - apply Forall_cons in Hok as [Hb Hok]. rewrite bsum_cons in *. pose proof (bsum_nonneg bl Hok). pose proof Hb as (H64 & _).
    rewrite free_offs_cons, foldl_app. cbn [free_payload omap list_omap].
    assert (block_size (block_at a o) = bk_size b) as Esz by (eapply hdr_size; [apply Hh; by left|done]).
    destruct (bk_used b); cbn [foldl].
    + apply IH; try done; try lia. intros e He. apply Hh. by right.
    + rewrite Esz. unfold BLOCK_BYTES. rewrite (u64_small (bk_size b - 48)), u64_small by (unfold u64_ok; lia).
      rewrite IH; try done; try lia.
      * cbn [sum_list_Z max_list_Z foldr]. fold (free_payload bl) (sum_list_Z (free_payload bl)) (max_list_Z (free_payload bl)).
        destruct (Z.ltb_spec l (bk_size b - 48)); f_equal; lia.
      * intros e He. apply Hh. by right.
      * destruct (_ <? _); lia.
Qed.

Lemma free_payload_bound bl : Forall blk_ok bl -> 0 <= sum_list_Z (free_payload bl) /\ req_sum bl + sum_list_Z (free_payload bl) <= bsum bl.
Proof.
  induction 1 as [|b bl (H64 & _ & Hb) _ IH]; [done|]. rewrite bsum_cons, req_sum_cons. cbn [free_payload omap list_omap].
  fold (free_payload bl). destruct (bk_used b); cbn [sum_list_Z foldr]; fold (sum_list_Z (free_payload bl)); lia.
Qed.

Lemma stats_spec a bl : heap_rep a bl ->
  heap_core_get_stats a = Some (MkStats (hc_mapped_size (ar_heap a)) (req_sum bl) (sum_list_Z (free_payload bl))
    (bsum bl - req_sum bl - sum_list_Z (free_payload bl)) (live_count bl) (hc_allocations (ar_heap a)) (hc_frees (ar_heap a))
    (hc_peak_usage (ar_heap a)) (hc_failed_allocations (ar_heap a)) (hc_invalid_frees (ar_heap a)) (max_list_Z (free_payload bl))).
Proof.
  intros Hrep. unfold heap_core_get_stats. rewrite (rep_validate _ _ Hrep). cbn [negb]. destruct Hrep as [Hr Ha Hu Hl Hp].
  destruct (hr_list _ _ _ Hr) as (lp & Hd). pose proof (hrep_bounds _ _ _ Hr) as (Hmn & _). unfold UTAMO_HEAP_NONE, SIZE_MAX in Hmn.
  pose proof (hr_ok _ _ _ Hr) as Hok. pose proof (free_payload_bound bl Hok) as Hb. pose proof (req_sum_bound bl Hok) as Hq.
  rewrite (free_stats_spec a _ lp _ UTAMO_HEAP_NONE _ 0 0 Hd); [|intros x Hx; pose proof (fl_not_none _ _ _ _ Hr (hr_in _ _ _ Hr _ Hx)); lia|pose proof (hrep_fl_length _ _ _ Hr); pose proof (hrep_length _ _ _ Hr); lia].
  pose proof (hr_size _ _ _ Hr) as Hz. rewrite (stats_fold a bl 0 0); try done; try lia; [|apply Hr].
  assert (0 <= max_list_Z (free_payload bl)) by (clear; unfold max_list_Z; induction (free_payload bl); cbn [foldr]; lia).
  rewrite Hu, Hl, <-Hz, Z.max_r, Z.add_0_l by lia. rewrite (u64_small (bsum bl - req_sum bl)), u64_small by (unfold u64_ok; lia). done.
Qed.

Lemma empty_block a bl : heap_rep a bl -> useds 0 bl = [] -> exists b, bl = [b] /\ bk_used b = false /\ bk_size b = hc_mapped_size (ar_heap a).
Proof.
  intros [Hr Ha _ _ _] Hu. pose proof (hr_size _ _ _ Hr) as Hz. pose proof (hrep_bounds _ _ _ Hr) as [Hm _].
  destruct bl as [|b [|c bl]]; [cbn in Hz; lia| |].
  - exists b. cbn in Hz, Hu. destruct (bk_used b); [done|]. split_and!; [done|done|lia].
  - exfalso. destruct Ha as [_ [Hc _]]. rewrite !useds_cons in Hu. destruct (bk_used b); [done|]. cbn in Hc.
    by rewrite (Hc eq_refl) in Hu.
Qed.

Lemma holds_empty a bl : heap_abs a (useds 0 bl) = ∅ -> useds 0 bl = [].
Proof.
  intros He. destruct (useds 0 bl) as [|e U]; [done|]. exfalso.
  exact (insert_non_empty (heap_abs a U) (entry a e).1 (entry a e).2 He).
Qed.

(** A request that fits a free block is granted; a refused one leaves the
    heap as it was, up to the counter of failures. *)
Lemma alloc_complete a bl size : heap_rep a bl -> u64_ok size ->
  let (a', p) := heap_core_alloc a size in
  (forall b, b ∈ bl -> bk_used b = false -> 0 < size -> size + 63 <= bk_size b -> p <> 0) /\
  (p = 0 -> ar_mem a' = ar_mem a /\ heap_rep a' bl).
Proof.
  intros Hrep Hsz. unfold heap_core_alloc. destruct (Z.eqb_spec size 0) as [->|Hne]; [split; [lia|done]|].
  rewrite (rep_validate _ _ Hrep). pose proof (required_size_spec size Hsz) as Hrq. pose proof (hrep_bounds _ _ _ (hp_rep _ _ Hrep)) as [Hm _].
  assert (forall a', ar_heap a' = ar_heap a -> ar_mem a' = ar_mem a -> ar_mem (failed_allocation a') = ar_mem a /\ heap_rep (failed_allocation a') bl) as Hfail.
  { intros a' Eh Em. pose proof (rep_same a a' bl Hrep Eh Em) as Hrep'. unfold failed_allocation. destruct (hc_initialized _); [|done].
    split; [done|]. by apply (rep_counts a'). }
  assert (forall b, b ∈ bl -> bk_size b < UTAMO_HEAP_NONE) as Hbd.
  { intros b (pre & post & ->)%list_elem_of_split. destruct (hrep_block _ _ _ _ _ _ (hp_rep _ _ Hrep) (mid_in pre post b)) as (_ & ? & _ & ? & _). lia. }
  unfold UTAMO_HEAP_NONE, SIZE_MAX in *. destruct (required_size size) as [needed|].
  - destruct Hrq as (Hrq & Htight & Hn & H16). pose proof (allocate_spec a bl size needed true Hrep Hrq Hn H16) as Hal.
    destruct (allocate a size needed true) as [a' p]. destruct Hal as [(-> & Eh & Em & Hno)|(Hp & _)].
    + split; [|intros _; by apply Hfail]. intros b Hb Hu _ Hfit. pose proof (Hno b Hb Hu). lia.
    + rewrite (proj2 (Z.eqb_neq _ _) Hp). done.
  - split; [|intros _; by apply Hfail]. intros b Hb Hu ? Hfit. pose proof (Hbd b Hb). lia.
Qed.

(** ** The theorems *)

(** C6. The heap is a map from pointers to byte strings.  After a successful
    initialisation and any sequence of alloc, calloc, free, realloc and client
    stores, every result is one the map specification allows: new allocations
    are 16-aligned and overlap no live one, calloc returns zeroes, free
    accepts exactly NULL and live pointers, realloc keeps the common prefix
    and a failed call changes nothing.  Memory holds exactly the bytes of the
    final map, and the heap passes its own validation. *)
Theorem heap_history_refines (a a0 : arena C) (base initial max growth : Z) (poison can : bool) (calls : list heap_call)
    (Hargs : u64_ok base /\ u64_ok initial /\ u64_ok max /\ u64_ok growth)
    (Hinit : heap_core_init a base initial max growth poison can = (a0, true)) (Hcalls : Forall call_ok calls) :
  let (a', rs) := heap_run a0 calls in
  exists m, heap_steps ∅ calls rs m /\ heap_owns a' m /\ heap_core_validate a' = true.
Proof.
  destruct Hargs as (Hb & Hi & Hm & Hg). pose proof (init_holds a base initial max growth poison can Hb Hi Hm Hg) as Hh.
  rewrite Hinit in Hh. destruct Hh as [Hh _]. pose proof (run_holds calls a0 ∅ Hh Hcalls) as Hr.
  destruct (heap_run a0 calls) as [a' rs]. destruct Hr as (m & Hs & Hh'). exists m.
  split_and!; [done|by apply holds_owns|by eapply holds_validate].
Qed.

(** C24. [heap_core_validate] decides the representation: it accepts exactly the
    heaps whose headers tile the mapped range with well-formed blocks, whose
    free list links all free blocks in address order, which have no two free
    neighbours and whose counters agree with the blocks. *)
Theorem heap_validate_decides (a : arena C) (Ht : heap_typed (ar_heap a)) :
  heap_core_validate a = true <-> exists bl, heap_rep a bl.
Proof. by apply heap_validate_rep. Qed.


(** No fragmentation survives: when the last allocation is freed, whatever
    the history, the heap is one block again, so any request up to the whole
    mapped size is granted. *)
Theorem heap_coalesces (a : arena C) (size : Z) (Hh : heap_holds a ∅) (Hsize : 0 < size) (Hfit : size + 63 <= hc_mapped_size (ar_heap a)) :
  snd (heap_core_alloc a size) <> 0.
Proof.
  destruct Hh as (bl & Hrep & He). destruct (empty_block a bl Hrep (holds_empty a bl (eq_sym He))) as (b & -> & Hu & Hs).
  pose proof (hrep_bounds _ _ _ (hp_rep _ _ Hrep)) as [Hm _]. unfold UTAMO_HEAP_NONE, SIZE_MAX in Hm.
  pose proof (alloc_complete a [b] size Hrep ltac:(unfold u64_ok; lia)) as Hal. destruct (heap_core_alloc a size) as [a' p].
  apply (proj1 Hal b); [by left|done|done|lia].
Qed.

(** The statistics are exact: used bytes and live allocations are those of the
    map, free bytes and the largest free block those of the free blocks, and
    used, free and overhead bytes add up to the mapped size without overflow. *)
Theorem heap_stats_exact (a : arena C) (bl : list blk) (Hrep : heap_rep a bl) :
  exists st, heap_core_get_stats a = Some st /\
    hs_used_bytes st = req_total (useds 0 bl) /\ hs_live_allocations st = Z.of_nat (size (heap_abs a (useds 0 bl))) /\
    hs_free_bytes st = sum_list_Z (free_payload bl) /\ hs_largest_free_bytes st = max_list_Z (free_payload bl) /\
    0 <= hs_overhead_bytes st /\
    hs_used_bytes st + hs_free_bytes st + hs_overhead_bytes st = hs_mapped_bytes st /\ hs_used_bytes st <= hs_peak_usage st.
Proof.
  eexists. split; [by apply stats_spec|]. cbn. pose proof (hp_rep _ _ Hrep) as Hr. pose proof (hr_ok _ _ _ Hr) as Hok.
  pose proof (free_payload_bound bl Hok) as Hb. pose proof (hr_size _ _ _ Hr) as Hz.
  pose proof (req_sum_useds 0 bl Hok) as Eq. fold (req_total (useds 0 bl)) in Eq. rewrite <-Eq.
  split_and!; try done; try lia; [|apply Hrep].
  unfold heap_abs. rewrite map_size_list_to_map by (apply entry_keys, useds_NoDup, Hok). rewrite length_fmap. apply live_count_useds.
Qed.
End props.

(** ** A concrete heap *)

(** Growth always succeeds and counts its calls. *)
#[local] Instance ex_ops : HeapOps Z := { op_grow c _ _ := (c + 1, true) }.

Definition ex_blank : arena Z := MkArena (MkHeap 0 0 0 0 0 false 0 0 0 0 0 0 0 false false) (fun _ => 0) 0.
Definition ex_heap : arena Z := fst (heap_core_init ex_blank 4096 256 1024 128 true true).
Definition ex_calls : list heap_call :=
  [HAlloc 10; HWrite 4144 3 7; HCalloc 2 20; HAlloc 100; HRealloc 4144 40; HFree 4144; HRealloc 4304 64; HFree 4464].

Lemma ex_init : heap_core_init ex_blank 4096 256 1024 128 true true = (ex_heap, true).
Proof. unfold ex_heap. rewrite (surjective_pairing (heap_core_init _ _ _ _ _ _ _)) at 1. f_equal. Qed.

Lemma ex_holds : heap_holds ex_heap ∅.
Proof.
  pose proof (init_holds ex_blank 4096 256 1024 128 true true) as Hi. rewrite ex_init in Hi.
  apply Hi; unfold u64_ok; vm_compute; split; discriminate.
Qed.

Lemma ex_heap_rep : heap_rep ex_heap [free_blk 256].
Proof.
  destruct ex_holds as (bl & Hrep & He). destruct (empty_block _ bl Hrep (holds_empty _ bl (eq_sym He))) as (b & -> & Hu & Hs).
  pose proof (hr_ok _ _ _ (hp_rep _ _ Hrep)) as (_ & _ & Hq)%Forall_singleton. rewrite Hu in Hq.
  assert (b = free_blk 256) as <-; [|done]. destruct b as [s u q]. cbn [bk_size bk_used bk_req] in *. subst u q s. reflexivity.
Qed.

Lemma heap_history_refines_witness :
  snd (heap_run ex_heap ex_calls) = [4144; 0; 4208; 4304; 4464; 0; 4304; 1] /\
  let (a', rs) := heap_run ex_heap ex_calls in
  exists m, heap_steps ∅ ex_calls rs m /\ heap_owns a' m /\ heap_core_validate a' = true.
Proof.
  split; [vm_compute; reflexivity|].
  apply (heap_history_refines ex_blank ex_heap 4096 256 1024 128 true true ex_calls); [|apply ex_init|].
  - unfold u64_ok. vm_compute. repeat split; discriminate.
  - unfold ex_calls. repeat constructor; vm_compute; discriminate.
Defined.

Lemma heap_validate_decides_witness :
  heap_typed (ar_heap ex_heap) /\ (heap_core_validate ex_heap = true <-> exists bl, heap_rep ex_heap bl).
Proof.
  assert (heap_typed (ar_heap ex_heap)) as Ht by (unfold heap_typed, u64_ok; vm_compute; repeat split; discriminate).
  split; [exact Ht|]. apply (heap_validate_decides ex_heap Ht).
Defined.


Lemma heap_coalesces_witness : snd (heap_core_alloc ex_heap 193) <> 0.
Proof. apply (heap_coalesces ex_heap 193); [apply ex_holds|reflexivity|vm_compute; discriminate]. Defined.

Lemma heap_stats_exact_witness :
  exists st, heap_core_get_stats ex_heap = Some st /\
    hs_used_bytes st = req_total (useds 0 [free_blk 256]) /\
    hs_live_allocations st = Z.of_nat (size (heap_abs ex_heap (useds 0 [free_blk 256]))) /\
    hs_free_bytes st = sum_list_Z (free_payload [free_blk 256]) /\ hs_largest_free_bytes st = max_list_Z (free_payload [free_blk 256]) /\
    0 <= hs_overhead_bytes st /\
    hs_used_bytes st + hs_free_bytes st + hs_overhead_bytes st = hs_mapped_bytes st /\ hs_used_bytes st <= hs_peak_usage st.
Proof. apply (heap_stats_exact ex_heap [free_blk 256]). apply ex_heap_rep. Defined.
