(* ===== verification/Elf.v ===== *)
(** * ELF images (kernel/core/elf.c)

    The validation of an executable image.  The image is a function from
    positions to bytes of which the first [size] belong to the file; that no
    other byte is read is part of what is proved. *)

From S2P Require Import Prelude MemoryHelpers.
Open Scope Z_scope.

(** user_vm.h and elf.h *)
Definition USER_VM_PAGE_LIMIT : Z := 128.
Definition USER_VM_MIN : Z := 0x10000.
Definition USER_VM_END : Z := 0x0000800000000000.
Definition USER_VM_WRITE : Z := 1.
Definition USER_VM_EXEC : Z := 2.
Definition UTAMO_ELF_SEGMENT_LIMIT : Z := 16.
Definition UTAMO_ELF_FILE_LIMIT : Z := 1024 * 1024.
Definition UTAMO_EXEC_STACK_TOP : Z := 0x70000000.
Definition UTAMO_EXEC_STACK_PAGES : Z := 16.
Definition UTAMO_EXEC_STACK_GUARD : Z := UTAMO_EXEC_STACK_TOP - (UTAMO_EXEC_STACK_PAGES + 1) * 4096.

Record elf_segment := MkSegment {
  es_address : Z;
  es_offset : Z;
  es_file_size : Z;
  es_memory_size : Z;
  es_page_start : Z;
  es_page_end : Z;
  es_access : Z
}.

(** [count] is the length of the list. *)
Record elf_plan := MkPlan {
  ep_segments : list elf_segment;
  ep_entry : Z;
  ep_pages : Z
}.

Definition little (data : Z -> Z) (p size : Z) : Z :=
  foldl (fun value i => Z.lor value (Z.shiftl (u8 (data (p + i))) (i * 8))) 0 (seqZ 0 size).

Definition byte (data : Z -> Z) (p : Z) : Z := u8 (data p).

(** The checks on the file header. *)
Definition header_ok (data : Z -> Z) (size : Z) : bool :=
  negb ((size <? 64) || (UTAMO_ELF_FILE_LIMIT <? size) ||
    negb ((byte data 0 =? 127) && (byte data 1 =? 69) && (byte data 2 =? 76) && (byte data 3 =? 70)) ||
    negb (byte data 4 =? 2) || negb (byte data 5 =? 1) || negb (byte data 6 =? 1) ||
    negb (byte data 7 =? 0) || negb (byte data 8 =? 0) ||
    negb (little data 16 2 =? 2) || negb (little data 18 2 =? 62) || negb (little data 20 4 =? 1) ||
    negb (little data 48 4 =? 0) || negb (little data 52 2 =? 64) || negb (little data 54 2 =? 56)).

(** The checks on the fields of a loadable segment. *)
Definition segment_ok (s : elf_segment) (size flags alignment : Z) : bool :=
  negb ((es_memory_size s =? 0) || (es_memory_size s <? es_file_size s) ||
    (size <? es_offset s) || (size -u es_offset s <? es_file_size s) ||
    (es_address s <? USER_VM_MIN) || (USER_VM_END <=? es_address s) ||
    (USER_VM_END -u es_address s <? es_memory_size s) ||
    negb (Z.land flags (not64 7) =? 0) || (Z.land flags 4 =? 0) ||
    (Z.land flags 3 =? 3) ||
    negb (Z.land (es_address s) 4095 =? Z.land (es_offset s) 4095) ||
    ((1 <? alignment) && (negb (Z.land alignment (alignment -u 1) =? 0) ||
      negb (Z.land (es_address s) (alignment -u 1) =? Z.land (es_offset s) (alignment -u 1))))).

Definition overlaps (s t : elf_segment) : bool :=
  (es_page_start s <? es_page_end t) && (es_page_start t <? es_page_end s).

(** The body of the loop for a loadable segment, with the program header at
    [p]; the boolean is [executable_entry]. *)
Definition load_segment (data : Z -> Z) (size p flags : Z) (plan : elf_plan) (executable_entry : bool)
    : option (elf_plan * bool) :=
  let address := little data (p + 16) 8 in
  let memory_size := little data (p + 40) 8 in
  let page_start := Z.land address (not64 4095) in
  let page_end := Z.land (address +u memory_size +u 4095) (not64 4095) in
  let access := if negb (Z.land flags 2 =? 0) then USER_VM_WRITE
                else if negb (Z.land flags 1 =? 0) then USER_VM_EXEC else 0 in
  let s := MkSegment address (little data (p + 8) 8) (little data (p + 32) 8) memory_size
             page_start page_end access in
  if negb (segment_ok s size flags (little data (p + 48) 8)) then None
  else if (page_start <? UTAMO_EXEC_STACK_TOP) && (UTAMO_EXEC_STACK_GUARD <? page_end) then None
  else
    let pages := (page_end -u page_start) / 4096 in
    if USER_VM_PAGE_LIMIT -u UTAMO_EXEC_STACK_PAGES -u ep_pages plan <? pages then None
    else if existsb (overlaps s) (ep_segments plan) then None
    else
      let executable_entry :=
        if negb (Z.land flags 1 =? 0) && (address <=? ep_entry plan) &&
           (ep_entry plan -u address <? es_file_size s)
        then true else executable_entry in
      Some (MkPlan (ep_segments plan ++ [s]) (ep_entry plan) (ep_pages plan +u pages), executable_entry).

(** The loop over the program headers; [rest] are still to come. *)
Fixpoint load_segments (data : Z -> Z) (size offset : Z) (rest : nat) (i : Z) (plan : elf_plan)
    (executable_entry : bool) : option (elf_plan * bool) :=
  match rest with
  | O => Some (plan, executable_entry)
  | S rest =>
      let p := offset +u i *u 56 in
      let type := little data p 4 in
      let flags := little data (p + 4) 4 in
      if (type =? 0) || (type =? 4) || (type =? 6) || (type =? 0x6474e551) then
        if (type =? 0x6474e551) && negb (Z.land flags 1 =? 0) then None
        else load_segments data size offset rest (i + 1) plan executable_entry
      else if negb (type =? 1) then None
      else match load_segment data size p flags plan executable_entry with
      | None => None
      | Some (plan, executable_entry) => load_segments data size offset rest (i + 1) plan executable_entry
      end
  end.

Definition elf_validate (data : Z -> Z) (size : Z) : option elf_plan :=
  if negb (header_ok data size) then None
  else
    let offset := little data 32 8 in
    let count := little data 56 2 in
    if (count =? 0) || (UTAMO_ELF_SEGMENT_LIMIT <? count) || (offset <? 64) || (size <? offset) ||
       ((size -u offset) / 56 <? count)
    then None
    else match load_segments data size offset (Z.to_nat count) 0 (MkPlan [] (little data 24 8) 0) false with
    | None => None
    | Some (plan, executable_entry) =>
        if negb executable_entry || bool_decide (ep_segments plan = []) then None else Some plan
    end.

(** ** Reading little-endian fields *)

Lemma little_ext data data' p n : (forall x, p <= x < p + n -> data' x = data x) -> little data' p n = little data p n.
Proof.
  intros Hx. unfold little. assert (forall l v, (forall i, i ∈ l -> 0 <= i < n) ->
    foldl (fun value i => Z.lor value (Z.shiftl (u8 (data' (p + i))) (i * 8))) v l =
    foldl (fun value i => Z.lor value (Z.shiftl (u8 (data (p + i))) (i * 8))) v l) as Hl.
  { induction l as [|i l IH]; intros v Hi; [done|]. cbn [foldl]. rewrite IH by (intros j Hj; apply Hi; by right).
    f_equal. f_equal. f_equal. f_equal. apply Hx. specialize (Hi i ltac:(by left)). lia. }
  apply Hl. intros i Hi%elem_of_seqZ. lia.
Qed.

Lemma little_range data p n : 0 <= n <= 8 -> u64_ok (little data p n).
Proof.
  intros Hn. unfold little. assert (forall l v, (forall i, i ∈ l -> 0 <= i < 8) -> u64_ok v ->
    u64_ok (foldl (fun value i => Z.lor value (Z.shiftl (u8 (data (p + i))) (i * 8))) v l)) as Hl.
  { induction l as [|i l IH]; intros v Hi Hv; [done|]. cbn [foldl]. apply IH; [intros j Hj; apply Hi; by right|].
    specialize (Hi i ltac:(by left)). assert (0 <= u8 (data (p + i)) < 256) as Hb by (unfold u8; dlia).
    assert (u64_ok (Z.shiftl (u8 (data (p + i))) (i * 8))) as Hs.
    { rewrite Z.shiftl_mul_pow2 by lia. unfold u64_ok. change UINT64_MAX with (2 ^ 64 - 1).
      assert (2 ^ (i * 8) <= 2 ^ 56) by (apply Z.pow_le_mono_r; lia). change (2 ^ 64) with (256 * 2 ^ 56). nia. }
    apply bits_u64; [apply Z.lor_nonneg; split; [apply Hv|apply Hs]|]. intros k Hk. by rewrite Z.lor_spec, !u64_bits. }
  apply Hl; [intros i Hi%elem_of_seqZ; lia|done].
Qed.

(** ** The plan *)

(** What the loader and the process need of a segment. *)
Record segment_wf (size : Z) (s : elf_segment) : Prop := {
  sw_file : 0 <= es_offset s /\ 0 <= es_file_size s /\ es_offset s + es_file_size s <= size;
  sw_memory : 0 < es_memory_size s /\ es_file_size s <= es_memory_size s;
  sw_pages : es_page_start s mod 4096 = 0 /\ es_page_end s mod 4096 = 0;
  sw_cover : es_page_start s <= es_address s /\ es_address s + es_memory_size s <= es_page_end s;
  sw_tight : es_address s < es_page_start s + 4096 /\ es_page_end s < es_address s + es_memory_size s + 4096;
  sw_user : USER_VM_MIN <= es_page_start s /\ es_page_end s <= USER_VM_END;
  sw_stack : es_page_end s <= UTAMO_EXEC_STACK_GUARD \/ UTAMO_EXEC_STACK_TOP <= es_page_start s;
  sw_access : es_access s = 0 \/ es_access s = USER_VM_WRITE \/ es_access s = USER_VM_EXEC
}.

Definition segment_pages (s : elf_segment) : Z := (es_page_end s - es_page_start s) / 4096.
Definition total_pages (segments : list elf_segment) : Z := foldr (fun s n => segment_pages s + n) 0 segments.
Definition pages_apart (s t : elf_segment) : Prop := es_page_end s <= es_page_start t \/ es_page_end t <= es_page_start s.

(** The entry point is file-backed code of an executable segment. *)
Definition entry_in (entry : Z) (segments : list elf_segment) : Prop :=
  exists s, s ∈ segments /\ es_access s = USER_VM_EXEC /\ es_address s <= entry < es_address s + es_file_size s.

Record plan_inv (size : Z) (plan : elf_plan) (executable_entry : bool) : Prop := {
  pi_wf : Forall (segment_wf size) (ep_segments plan);
  pi_apart : ForallOrdPairs pages_apart (ep_segments plan);
  pi_pages : ep_pages plan = total_pages (ep_segments plan);
  pi_limit : 0 <= ep_pages plan <= USER_VM_PAGE_LIMIT - UTAMO_EXEC_STACK_PAGES;
  pi_entry : executable_entry = true -> entry_in (ep_entry plan) (ep_segments plan);
  pi_entry_ok : u64_ok (ep_entry plan)
}.

Lemma page_down x : u64_ok x -> Z.land x (not64 4095) = x - x mod 4096.
Proof. intros Hx. rewrite land_not64 by done. change 4095 with (Z.ones 12). by rewrite ldiff_ones. Qed.

Lemma total_pages_app l1 l2 : total_pages (l1 ++ l2) = total_pages l1 + total_pages l2.
Proof. unfold total_pages. induction l1 as [|s l1 IH]; cbn [foldr app]; lia. Qed.

Lemma apart_snoc l s : ForallOrdPairs pages_apart l -> existsb (overlaps s) l = false -> ForallOrdPairs pages_apart (l ++ [s]).
Proof.
  intros Hl Ho. induction Hl as [|t l Ht Hl IH]; [repeat constructor|]. cbn [existsb] in Ho. apply orb_false_iff in Ho as [Ho1 Ho2].
  constructor; [|by apply IH]. apply Forall_app. split; [done|]. apply Forall_singleton. unfold overlaps in Ho1. unfold pages_apart. lia.
Qed.

(** The tests of [segment_ok] with the page range computed from the fields. *)
Lemma segment_ok_wf s size flags al : 0 <= size <= UTAMO_ELF_FILE_LIMIT -> u64_ok (es_address s) -> u64_ok (es_offset s) ->
  u64_ok (es_file_size s) -> u64_ok (es_memory_size s) -> segment_ok s size flags al = true ->
  es_page_start s = Z.land (es_address s) (not64 4095) ->
  es_page_end s = Z.land (es_address s +u es_memory_size s +u 4095) (not64 4095) ->
  (es_page_start s <? UTAMO_EXEC_STACK_TOP) && (UTAMO_EXEC_STACK_GUARD <? es_page_end s) = false ->
  (es_access s = 0 \/ es_access s = USER_VM_WRITE \/ es_access s = USER_VM_EXEC) ->
  segment_wf size s /\ Z.land flags 3 <> 3.
Proof.
  intros Hsz Ha Ho Hf Hm Hok Eps Epe Hst Hacc. unfold segment_ok in Hok. apply negb_true_iff in Hok.
  do 11 (apply orb_false_iff in Hok as [Hok ?]). unfold UTAMO_ELF_FILE_LIMIT, USER_VM_MIN, USER_VM_END, u64_ok, UINT64_MAX in *.
  rewrite (u64_small (size - _)) in * by (unfold u64_ok, UINT64_MAX; lia). rewrite (u64_small (_ - es_address s)) in * by (unfold u64_ok, UINT64_MAX; lia).
  rewrite (u64_small (es_address s + es_memory_size s)), u64_small in Epe by (unfold u64_ok, UINT64_MAX; lia).
  rewrite page_down in Eps, Epe by (unfold u64_ok, UINT64_MAX; lia).
  split; [|lia]. constructor; unfold USER_VM_MIN, USER_VM_END; try done; try lia; try dlia.
Qed.

Lemma flags_low flags : Z.land flags 1 <> 0 -> Z.land flags 2 <> 0 -> Z.land flags 3 = 3.
Proof.
  intros H1 H2. change 3 with (Z.lor 1 2). rewrite Z.land_lor_distr_r.
  pose proof (land_pow2_test flags 0 ltac:(lia)) as T0. pose proof (land_pow2_test flags 1 ltac:(lia)) as T1.
  change (Z.shiftl 1 0) with 1 in T0. change (Z.shiftl 1 1) with 2 in T1.
  rewrite (proj2 (Z.eqb_neq _ _) H1) in T0. rewrite (proj2 (Z.eqb_neq _ _) H2) in T1. cbn [negb] in *.
  f_equal; apply Z.bits_inj'; intros k Hk; rewrite Z.land_spec.
  - destruct (Z.eqb_spec k 0) as [->|]; [by rewrite <-T0|]. rewrite (testbit_high 1 1 k) by lia. apply andb_false_r.
  - destruct (Z.eqb_spec k 1) as [->|]; [by rewrite <-T1|]. destruct (Z.eqb_spec k 0) as [->|]; [apply andb_false_r|].
    rewrite (testbit_high 2 2 k) by lia. apply andb_false_r.
Qed.

Lemma load_segment_inv data size p flags plan ex plan' ex' : 0 <= size <= UTAMO_ELF_FILE_LIMIT -> plan_inv size plan ex ->
  load_segment data size p flags plan ex = Some (plan', ex') ->
  plan_inv size plan' ex' /\ ep_entry plan' = ep_entry plan /\ length (ep_segments plan') = S (length (ep_segments plan)).
Proof.
  intros Hsz [Hwf Hap Hpg Hlim Hen Heo] Hl. unfold load_segment in Hl.
  set (s := MkSegment _ _ _ _ _ _ _) in Hl. destruct (segment_ok s _ _ _) eqn:Hok; cbn [negb] in Hl; [|done].
  destruct (_ && (UTAMO_EXEC_STACK_GUARD <? _)) eqn:Hst; [done|].
  destruct (_ <? (_ / 4096)) eqn:Hpl; [done|]. destruct (existsb (overlaps s) _) eqn:Hov; [done|].
  assert (forall q, u64_ok (little data q 8)) as Hrg by (intros q; apply little_range; lia).
  destruct (segment_ok_wf s size flags _ Hsz (Hrg _) (Hrg _) (Hrg _) (Hrg _) Hok eq_refl eq_refl Hst) as [Hs Hwx].
  { unfold s. cbn [es_access]. destruct (negb _); [by right; left|]. destruct (negb _); [by right; right|by left]. }
  assert ((es_page_end s -u es_page_start s) / 4096 = segment_pages s /\ 0 <= segment_pages s) as [Eq Hnn].
  { destruct Hs as [? [] [] [] [] []]. unfold USER_VM_MIN, USER_VM_END in *. unfold segment_pages. rewrite u64_small by (unfold u64_ok, UINT64_MAX; lia).
    split; [done|]. apply Z.div_pos; lia. }
  change ((es_page_end s -u es_page_start s) / 4096) with
    ((Z.land (little data (p + 16) 8 +u little data (p + 40) 8 +u 4095) (not64 4095) -u Z.land (little data (p + 16) 8) (not64 4095)) / 4096) in Eq.
  rewrite Eq in Hl, Hpl.
  unfold USER_VM_PAGE_LIMIT, UTAMO_EXEC_STACK_PAGES in *. change (128 -u 16) with 112 in Hpl.
  rewrite (u64_small (112 - _)) in Hpl by (unfold u64_ok, UINT64_MAX; lia).
  rewrite (u64_small (ep_pages plan + _)) in Hl by (unfold u64_ok, UINT64_MAX; lia).
  injection Hl as <- <-. cbn [ep_entry ep_segments ep_pages]. rewrite length_app. cbn [length]. split; [|split; [done|lia]].
  constructor; cbn [ep_entry ep_segments ep_pages]; [|by apply apart_snoc| | | |done].
  - apply Forall_app. split; [done|]. by apply Forall_singleton.
  - rewrite total_pages_app, Hpg. change (total_pages [s]) with (segment_pages s + 0). lia.
  - unfold USER_VM_PAGE_LIMIT, UTAMO_EXEC_STACK_PAGES. lia.
  - assert (forall l, entry_in (ep_entry plan) l -> entry_in (ep_entry plan) (l ++ [s])) as Hmono.
    { intros l (t & Ht & ?). exists t. split; [set_solver|done]. }
    destruct (_ && _ && _) eqn:He; [|intros E; apply Hmono; by apply Hen]. intros _. exists s. apply andb_true_iff in He as [[H1 H2]%andb_true_iff H3].
    split; [set_solver|]. pose proof (sw_file _ _ Hs) as Hfl. pose proof (Hrg (p + 16)) as Ha. unfold u64_ok in *.
    rewrite u64_small in H3 by (unfold u64_ok; lia). unfold s. cbn [es_access es_address es_file_size] in *. split; [|lia].
    destruct (Z.eqb_spec (Z.land flags 2) 0) as [E2|E2]; cbn [negb]; [by rewrite H1|]. exfalso. apply Hwx.
    apply flags_low; [lia|done].
Qed.

Lemma load_segments_inv data size offset rest : forall i plan ex plan' ex', 0 <= size <= UTAMO_ELF_FILE_LIMIT -> plan_inv size plan ex ->
  load_segments data size offset rest i plan ex = Some (plan', ex') ->
  plan_inv size plan' ex' /\ ep_entry plan' = ep_entry plan /\ (length (ep_segments plan') <= length (ep_segments plan) + rest)%nat.
Proof.
  induction rest as [|rest IH]; intros i plan ex plan' ex' Hsz Hinv Hl; cbn [load_segments] in Hl.
  { injection Hl as <- <-. split_and!; [done|done|lia]. }
  destruct (_ || _ || _ || _).
  { destruct (_ && _); [done|]. destruct (IH _ _ _ _ _ Hsz Hinv Hl) as (? & ? & ?). split_and!; [done|done|lia]. }
  destruct (negb _); [done|]. destruct (load_segment _ _ _ _ _ _) as [[plan1 ex1]|] eqn:E; [|done].
  destruct (load_segment_inv _ _ _ _ _ _ _ _ Hsz Hinv E) as (Hinv1 & He1 & Hn1).
  destruct (IH _ _ _ _ _ Hsz Hinv1 Hl) as (? & ? & ?). split_and!; [done|congruence|lia].
Qed.

(** ** Only the file is read *)

Section local.
Context (data data' : Z -> Z) (size : Z).
Context (Hsame : forall x, 0 <= x < size -> data' x = data x).

Lemma little_local p n : 0 <= p -> p + n <= size -> little data' p n = little data p n.
Proof using Hsame. intros Hp Hn. apply little_ext. intros x Hx. apply Hsame. lia. Qed.

Lemma header_local : header_ok data' size = header_ok data size.
Proof using Hsame.
  unfold header_ok. destruct (Z.ltb_spec size 64); [done|]. unfold byte. rewrite !little_local by lia. by rewrite !Hsame by lia.
Qed.

Lemma load_segments_local offset rest : forall i plan ex, 0 <= offset -> 0 <= i -> offset + (i + Z.of_nat rest) * 56 <= size -> size <= UTAMO_ELF_FILE_LIMIT ->
  load_segments data' size offset rest i plan ex = load_segments data size offset rest i plan ex.
Proof using Hsame.
  induction rest as [|rest IH]; intros i plan ex Ho Hi Hb Hs; cbn [load_segments]; [done|]. unfold UTAMO_ELF_FILE_LIMIT in *.
  rewrite (u64_small (i * 56)), u64_small by (unfold u64_ok, UINT64_MAX; lia). rewrite !little_local by lia.
  assert (forall plan ex, load_segments data' size offset rest (i + 1) plan ex = load_segments data size offset rest (i + 1) plan ex) as IH'.
  { intros. apply IH; lia. }
  rewrite IH'. destruct (_ || _ || _ || _); [done|]. destruct (negb _); [done|].
  assert (forall flags, load_segment data' size (offset + i * 56) flags plan ex = load_segment data size (offset + i * 56) flags plan ex) as ->.
  { intros flags. unfold load_segment. by rewrite !little_local by lia. }
  destruct (load_segment _ _ _ _ _ _) as [[plan1 ex1]|]; [apply IH'|done].
Qed.

Lemma validate_local : elf_validate data' size = elf_validate data size.
Proof using Hsame.
  unfold elf_validate. rewrite header_local. destruct (header_ok data size) eqn:Hh; cbn [negb]; [|done].
  unfold header_ok in Hh. apply negb_true_iff in Hh. do 13 (apply orb_false_iff in Hh as [Hh ?]). unfold UTAMO_ELF_FILE_LIMIT in *.
  rewrite !little_local by lia. pose proof (little_range data 32 8 ltac:(lia)) as Ho. unfold u64_ok in Ho.
  destruct (_ || _ || _ || _ || _) eqn:Hg; [done|]. do 4 (apply orb_false_iff in Hg as [Hg ?]).
  rewrite (u64_small (size - _)) in * by (unfold u64_ok, UINT64_MAX; lia). rewrite load_segments_local; try lia; [done| |unfold UTAMO_ELF_FILE_LIMIT; lia].
  pose proof (little_range data 56 2 ltac:(lia)) as Hc. unfold u64_ok in Hc. dlia.
Qed.
End local.

Lemma validate_plan data size plan : 0 <= size -> elf_validate data size = Some plan ->
    size <= UTAMO_ELF_FILE_LIMIT /\ (1 <= length (ep_segments plan) <= 16)%nat /\
    Forall (segment_wf size) (ep_segments plan) /\ ForallOrdPairs pages_apart (ep_segments plan) /\
    ep_pages plan = total_pages (ep_segments plan) /\ ep_pages plan + UTAMO_EXEC_STACK_PAGES <= USER_VM_PAGE_LIMIT /\
    entry_in (ep_entry plan) (ep_segments plan).
Proof.
  intros Hsize. unfold elf_validate.
  destruct (header_ok data size) eqn:Hh; cbn [negb]; [|done].
  unfold header_ok in Hh. apply negb_true_iff in Hh. do 13 (apply orb_false_iff in Hh as [Hh ?]).
  destruct (_ || _ || _ || _ || _) eqn:Hg; [done|]. do 4 (apply orb_false_iff in Hg as [Hg ?]). unfold UTAMO_ELF_SEGMENT_LIMIT in *.
  destruct (load_segments _ _ _ _ _ _ _) as [[plan1 ex]|] eqn:El; [|done].
  assert (plan_inv size (MkPlan [] (little data 24 8) 0) false) as Hinv0.
  { constructor; cbn; try done; try constructor; try done; apply little_range; lia. }
  destruct (load_segments_inv data size _ _ _ _ _ _ _ ltac:(lia) Hinv0 El) as ([Hwf Hap Hpg Hlim Hen _] & _ & Hlen).
  destruct ex; cbn [negb orb]; [|done]. case_bool_decide as Hnil; [done|]. intros [= <-]. cbn in Hlen.
  unfold USER_VM_PAGE_LIMIT, UTAMO_EXEC_STACK_PAGES in *. split_and!; try done; try lia; [|by apply Hen].
  destruct (ep_segments plan1); [done|cbn; lia].
Qed.

(** C8. Validation is safe and what it accepts is loadable.  Only bytes of the
    file are read.  An accepted image has at most 16 segments; their file
    ranges lie in the file; their page ranges cover the segment tightly, are
    page-aligned, lie in user space, are pairwise disjoint and avoid the stack
    and its guard page; no segment is writable and executable; all pages and
    the stack fit the page ledger; and the entry point is file-backed code of
    an executable segment. *)
Theorem elf_validate_safe (data : Z -> Z) (size : Z) (Hsize : 0 <= size) :
  (forall data', (forall x, 0 <= x < size -> data' x = data x) -> elf_validate data' size = elf_validate data size) /\
  forall plan, elf_validate data size = Some plan ->
    size <= UTAMO_ELF_FILE_LIMIT /\ (1 <= length (ep_segments plan) <= 16)%nat /\
    Forall (segment_wf size) (ep_segments plan) /\ ForallOrdPairs pages_apart (ep_segments plan) /\
    ep_pages plan = total_pages (ep_segments plan) /\ ep_pages plan + UTAMO_EXEC_STACK_PAGES <= USER_VM_PAGE_LIMIT /\
    entry_in (ep_entry plan) (ep_segments plan).
Proof. split; [intros data' Hs; by apply validate_local|]. intros plan. by apply validate_plan. Qed.

(** An image with one executable segment at 0x10078. *)
Definition ex_elf : list Z :=
  [127; 69; 76; 70; 2; 1; 1; 0; 0; 0; 0; 0; 0; 0; 0; 0; 2; 0; 62; 0; 1; 0; 0; 0; 120; 0; 1; 0; 0; 0; 0; 0;
   64; 0; 0; 0; 0; 0; 0; 0; 0; 0; 0; 0; 0; 0; 0; 0; 0; 0; 0; 0; 64; 0; 56; 0; 1; 0; 0; 0; 0; 0; 0; 0;
   1; 0; 0; 0; 5; 0; 0; 0; 120; 0; 0; 0; 0; 0; 0; 0; 120; 0; 1; 0; 0; 0; 0; 0; 0; 0; 0; 0; 0; 0; 0; 0;
   2; 0; 0; 0; 0; 0; 0; 0; 2; 0; 0; 0; 0; 0; 0; 0; 0; 16; 0; 0; 0; 0; 0; 0; 235; 254].
Definition ex_image (i : Z) : Z := arr_get ex_elf i.

Lemma elf_validate_safe_witness :
  is_Some (elf_validate ex_image 122) /\
  (forall data', (forall x, 0 <= x < 122 -> data' x = ex_image x) -> elf_validate data' 122 = elf_validate ex_image 122).
Proof.
  split; [vm_compute; by eexists|]. apply (elf_validate_safe ex_image 122). lia.
Defined.
