(* ===== verification/Strings.v ===== *)
(** * Freestanding string routines (kernel/lib/string.c)

    Byte loops over one flat memory, and the proof that they compute the
    range operations [mem_copy] and [mem_fill] of Bytes.v and the usual
    comparisons.  Scans of NUL-terminated strings take a number of steps and
    return [None] when it does not suffice. *)

From S2P Require Import Prelude Bytes.
Open Scope Z_scope.

(** [output[index] = value] *)
Definition mem_store (mem : memory) (a v : Z) : memory := fun x => if x =? a then v else mem x.

(** ** The routines *)

Definition memcpy (mem : memory) (destination source count : Z) : memory :=
  foldl (fun mem index => mem_store mem (destination + index) (mem (source + index))) mem (seqZ 0 count).

Definition memmove (mem : memory) (destination source count : Z) : memory :=
  if (count =? 0) || (destination =? source) then mem
  else if (destination <? source) || (count <=? destination -u source) then
    foldl (fun mem index => mem_store mem (destination + index) (mem (source + index))) mem (seqZ 0 count)
  else
    foldl (fun mem index => mem_store mem (destination + index) (mem (source + index))) mem (rev (seqZ 0 count)).

Definition memset (mem : memory) (destination value count : Z) : memory :=
  foldl (fun mem index => mem_store mem (destination + index) (u8 value)) mem (seqZ 0 count).

(** The loops of the comparisons; [count] bytes are left. *)
Fixpoint memcmp_from (mem : memory) (left right : Z) (count : nat) : Z :=
  match count with
  | O => 0
  | S count =>
      if negb (u8 (mem left) =? u8 (mem right))
      then if u8 (mem left) <? u8 (mem right) then -1 else 1
      else memcmp_from mem (left + 1) (right + 1) count
  end.
Definition memcmp (mem : memory) (left right count : Z) : Z := memcmp_from mem left right (Z.to_nat count).

Fixpoint strlen_from (steps : nat) (mem : memory) (string length : Z) : option Z :=
  match steps with
  | O => None
  | S steps => if negb (u8 (mem (string + length)) =? 0) then strlen_from steps mem string (length + 1) else Some length
  end.
Definition strlen (steps : nat) (mem : memory) (string : Z) : option Z := strlen_from steps mem string 0.

Fixpoint strcmp (steps : nat) (mem : memory) (left right : Z) : option Z :=
  match steps with
  | O => None
  | S steps =>
      if negb (u8 (mem left) =? 0) && (u8 (mem left) =? u8 (mem right))
      then strcmp steps mem (left + 1) (right + 1)
      else Some (if u8 (mem left) <? u8 (mem right) then -1
                 else if u8 (mem right) <? u8 (mem left) then 1 else 0)
  end.

Fixpoint strncmp_from (mem : memory) (left right : Z) (count : nat) : Z :=
  match count with
  | O => 0
  | S count =>
      if negb (u8 (mem left) =? u8 (mem right))
      then if u8 (mem left) <? u8 (mem right) then -1 else 1
      else if u8 (mem left) =? 0 then 0
      else strncmp_from mem (left + 1) (right + 1) count
  end.
Definition strncmp (mem : memory) (left right count : Z) : Z := strncmp_from mem left right (Z.to_nat count).

(** ** Copies *)

Lemma seqZ_snoc n : seqZ 0 (Z.of_nat (S n)) = seqZ 0 (Z.of_nat n) ++ [Z.of_nat n].
Proof. replace (Z.of_nat (S n)) with (Z.of_nat n + 1) by lia. by rewrite seqZ_app by lia. Qed.

Lemma copy_up mem d s n : (d <= s \/ s + Z.of_nat n <= d) -> forall x,
  foldl (fun mem index => mem_store mem (d + index) (mem (s + index))) mem (seqZ 0 (Z.of_nat n)) x = mem_copy mem d s (Z.of_nat n) x.
Proof.
  induction n as [|n IH]; intros Hd x.
  - cbn. symmetry. apply mem_copy_other. lia.
  - rewrite seqZ_snoc, foldl_app. cbn [foldl]. unfold mem_store at 1. rewrite !IH by lia.
    destruct (Z.eqb_spec x (d + Z.of_nat n)) as [->|Hne].
    + rewrite (mem_copy_other _ _ _ _ (s + Z.of_nat n)) by lia. rewrite mem_copy_in by lia. f_equal. lia.
    + unfold mem_copy. destruct (Z.leb_spec d x), (Z.ltb_spec x (d + Z.of_nat n)), (Z.ltb_spec x (d + Z.of_nat (S n))); cbn [andb]; try done; lia.
Qed.

Lemma copy_down n : forall mem d s, s <= d -> forall x,
  foldl (fun mem index => mem_store mem (d + index) (mem (s + index))) mem (rev (seqZ 0 (Z.of_nat n))) x = mem_copy mem d s (Z.of_nat n) x.
Proof.
  induction n as [|n IH]; intros mem d s Hd x.
  - cbn. symmetry. apply mem_copy_other. lia.
  - rewrite seqZ_snoc, rev_app_distr. cbn [rev app foldl]. rewrite IH by done. unfold mem_copy, mem_store.
    destruct (Z.leb_spec d x), (Z.ltb_spec x (d + Z.of_nat n)), (Z.ltb_spec x (d + Z.of_nat (S n))); cbn [andb]; try lia.
    + by rewrite (proj2 (Z.eqb_neq _ _)) by lia.
    + rewrite (proj2 (Z.eqb_eq _ _)) by lia. f_equal. lia.
    + by rewrite (proj2 (Z.eqb_neq _ _)) by lia.
    + by rewrite (proj2 (Z.eqb_neq _ _)) by lia.
Qed.

Lemma fill_up mem d v n x :
  foldl (fun mem index => mem_store mem (d + index) v) mem (seqZ 0 (Z.of_nat n)) x = mem_fill mem d v (Z.of_nat n) x.
Proof.
  induction n as [|n IH].
  - cbn. symmetry. apply mem_fill_other. lia.
  - rewrite seqZ_snoc, foldl_app. cbn [foldl]. unfold mem_store at 1. rewrite IH. unfold mem_fill.
    destruct (Z.eqb_spec x (d + Z.of_nat n)), (Z.leb_spec d x), (Z.ltb_spec x (d + Z.of_nat n)), (Z.ltb_spec x (d + Z.of_nat (S n))); cbn [andb]; try done; lia.
Qed.

(** ** Comparisons *)

(** Three-way lexicographic comparison of byte strings. *)
Fixpoint lex (s t : list Z) : Z :=
  match s, t with
  | [], [] => 0
  | [], _ => -1
  | _, [] => 1
  | a :: s, b :: t => if a <? b then -1 else if b <? a then 1 else lex s t
  end.

(** The NUL-terminated string [s] is stored at [p]. *)
Fixpoint cstr (mem : memory) (p : Z) (s : list Z) : Prop :=
  match s with
  | [] => u8 (mem p) = 0
  | b :: s => u8 (mem p) = b /\ 0 < b /\ cstr mem (p + 1) s
  end.

Lemma u8_nonneg x : 0 <= u8 x < 256.
Proof. unfold u8. dlia. Qed.

Lemma lex_eq s : forall t, lex s t = 0 <-> s = t.
Proof.
  induction s as [|a s IH]; intros [|b t]; cbn [lex]; try done.
  destruct (Z.ltb_spec a b); [split; [done|intros [= -> ->]; lia]|]. destruct (Z.ltb_spec b a); [split; [done|intros [= -> ->]; lia]|].
  rewrite IH. assert (a = b) as -> by lia. split; [by intros ->|by intros [= ->]].
Qed.

Lemma strlen_spec mem s : forall p n steps, cstr mem (p + n) s -> (length s < steps)%nat ->
  strlen_from steps mem p n = Some (n + Z.of_nat (length s)).
Proof.
  induction s as [|b s IH]; intros p n [|steps] Hc Hl; cbn [cstr strlen_from length] in *; try lia.
  - rewrite Hc. cbn. f_equal. lia.
  - destruct Hc as (Hb & Hpos & Hc). rewrite Hb, (proj2 (Z.eqb_neq _ _)) by lia. cbn [negb]. rewrite <-Z.add_assoc in Hc.
    rewrite (IH p (n + 1) steps Hc) by lia. f_equal. lia.
Qed.

Lemma strcmp_spec mem s : forall t p q steps, cstr mem p s -> cstr mem q t -> (length s < steps)%nat ->
  strcmp steps mem p q = Some (lex s t).
Proof.
  induction s as [|a s IH]; intros t p q [|steps] Hs Ht Hl; cbn [length] in Hl; try lia; cbn [strcmp cstr] in *.
  - rewrite Hs. cbn [negb Z.eqb andb]. destruct t as [|b t]; cbn [cstr lex] in *; [by rewrite Ht|]. destruct Ht as (-> & Hb & _).
    by rewrite (proj2 (Z.ltb_lt _ _)) by lia.
  - destruct Hs as (-> & Ha & Hs). rewrite (proj2 (Z.eqb_neq a 0)) by lia. cbn [negb andb].
    destruct t as [|b t]; cbn [cstr lex] in *.
    + rewrite Ht, (proj2 (Z.eqb_neq a 0)) by lia. rewrite (proj2 (Z.ltb_ge a 0)), (proj2 (Z.ltb_lt 0 a)) by lia. done.
    + destruct Ht as (-> & Hb & Ht). destruct (Z.eqb_spec a b) as [->|Hne].
      * rewrite !Z.ltb_irrefl. apply IH; [done|done|lia].
      * destruct (Z.ltb_spec a b); [done|]. by rewrite (proj2 (Z.ltb_lt b a)) by lia.
Qed.

Lemma strncmp_spec mem s : forall t p q n, cstr mem p s -> cstr mem q t ->
  strncmp_from mem p q n = lex (take n s) (take n t).
Proof.
  induction s as [|a s IH]; intros t p q [|n] Hs Ht; cbn [strncmp_from cstr take] in *; try done.
  - rewrite Hs. destruct t as [|b t]; cbn [cstr take lex] in *; [by rewrite Ht|]. destruct Ht as (-> & Hb & _).
    rewrite (proj2 (Z.eqb_neq 0 b)), (proj2 (Z.ltb_lt 0 b)) by lia. done.
  - destruct Hs as (-> & Ha & Hs). destruct t as [|b t]; cbn [cstr take lex] in *.
    + rewrite Ht, (proj2 (Z.eqb_neq a 0)), (proj2 (Z.ltb_ge a 0)) by lia. done.
    + destruct Ht as (-> & Hb & Ht). destruct (Z.eqb_spec a b) as [->|Hne]; cbn [negb].
      * rewrite (proj2 (Z.eqb_neq b 0)), !Z.ltb_irrefl by lia. by apply IH.
      * destruct (Z.ltb_spec a b); [done|]. by rewrite (proj2 (Z.ltb_lt b a)) by lia.
Qed.

Lemma memcmp_spec mem n : forall p q,
  memcmp_from mem p q n = lex ((fun x => u8 (mem x)) <$> seqZ p (Z.of_nat n)) ((fun x => u8 (mem x)) <$> seqZ q (Z.of_nat n)).
Proof.
  induction n as [|n IH]; intros p q; [done|]. cbn [memcmp_from]. rewrite !(seqZ_cons _ (Z.of_nat (S n))) by lia. cbn [fmap list_fmap lex].
  replace (Z.pred (Z.of_nat (S n))) with (Z.of_nat n) by lia. rewrite !Z.add_1_r in *. unfold Z.succ. rewrite IH.
  destruct (Z.eqb_spec (u8 (mem p)) (u8 (mem q))) as [E|E]; cbn [negb].
  - by rewrite E, !Z.ltb_irrefl.
  - destruct (Z.ltb_spec (u8 (mem p)) (u8 (mem q))); [done|]. by rewrite (proj2 (Z.ltb_lt (u8 (mem q)) _)) by lia.
Qed.

(** The byte loops compute the range operations: [memcpy] of ranges that do
    not overlap, or overlap with the destination first, and [memmove] of any
    two ranges leave every destination byte equal to the source byte before
    the call, and every other byte as it was; [memset] writes the low byte of
    its argument to exactly its range. *)
Theorem string_copies_exact (mem : memory) (d s count v : Z) (Hd : 0 <= d) (Hs : 0 <= s) (Hcount : 0 <= count)
    (Hdtop : d + count <= UINT64_MAX + 1) (Hstop : s + count <= UINT64_MAX + 1) (x : Z) :
  (d <= s \/ s + count <= d -> memcpy mem d s count x = mem_copy mem d s count x) /\
  memmove mem d s count x = mem_copy mem d s count x /\
  memset mem d v count x = mem_fill mem d (u8 v) count x.
Proof.
  assert (count = Z.of_nat (Z.to_nat count)) as E by lia. split_and!.
  - intros Hov. unfold memcpy. rewrite E. rewrite E in Hov. by apply copy_up.
  - unfold memmove. destruct (Z.eqb_spec count 0) as [->|Hc]; [symmetry; apply mem_copy_other; lia|]. cbn [orb].
    destruct (Z.eqb_spec d s) as [->|Hne].
    { unfold mem_copy. destruct (_ && _); [f_equal; lia|done]. }
    destruct (Z.ltb_spec d s); cbn [orb]; [rewrite E; apply copy_up; lia|].
    rewrite u64_small by (unfold u64_ok; lia). destruct (Z.leb_spec count (d - s)); rewrite E; [apply copy_up; lia|apply copy_down; lia].
  - unfold memset. rewrite E. apply fill_up.
Qed.

Lemma string_copies_exact_witness : memmove (fun x => x) 102 100 8 105 = 103.
Proof.
  rewrite (proj1 (proj2 (string_copies_exact (fun x => x) 102 100 8 0 ltac:(lia) ltac:(lia) ltac:(lia)
    ltac:(unfold UINT64_MAX; lia) ltac:(unfold UINT64_MAX; lia) 105))). vm_compute. reflexivity.
Defined.

(** C39. On NUL-terminated strings the scans stop after at most one step more than
    the string is long, with the length and the lexicographic order;
    [strncmp] compares the first [n] bytes, [memcmp] byte ranges.  In
    particular [strcmp] is zero exactly on equal strings. *)
Theorem string_scans_terminate (mem : memory) (p q : Z) (s t : list Z) (n : nat) (Hs : cstr mem p s) (Ht : cstr mem q t) :
  (forall steps, (length s < steps)%nat -> strlen steps mem p = Some (Z.of_nat (length s)) /\ strcmp steps mem p q = Some (lex s t)) /\
  strncmp mem p q (Z.of_nat n) = lex (take n s) (take n t) /\
  memcmp mem p q (Z.of_nat n) = lex ((fun x => u8 (mem x)) <$> seqZ p (Z.of_nat n)) ((fun x => u8 (mem x)) <$> seqZ q (Z.of_nat n)) /\
  (lex s t = 0 <-> s = t).
Proof.
  split_and!.
  - intros steps Hl. split; [|by apply strcmp_spec]. unfold strlen. rewrite (strlen_spec mem s); [done| |done]. by rewrite Z.add_0_r.
  - unfold strncmp. rewrite Nat2Z.id. by apply strncmp_spec.
  - unfold memcmp. rewrite Nat2Z.id. apply memcmp_spec.
  - apply lex_eq.
Qed.

Lemma string_scans_terminate_witness :
  let mem := fun x => arr_get [97; 98; 0; 97; 99; 0] x in
  strlen 3 mem 0 = Some 2 /\ strcmp 3 mem 0 3 = Some (-1).
Proof.
  intros mem. destruct (string_scans_terminate mem 0 3 [97; 98] [97; 99] 2) as [Hx _]; [by vm_compute|by vm_compute|].
  apply (Hx 3%nat). cbn. lia.
Defined.
