(* ===== verification/Vfs.v ===== *)
(** * The read-only file system (kernel/fs/vfs.c, kernel/fs/initramfs.c): definitions

    A C string is the list of its bytes before the terminator, so
    [strcmp(a, b) == 0] is equality of lists, which Strings.v proves of the
    byte loops.  File contents are not copied: a node holds an address and a
    size, and reads go to memory.  Node arrays are the lists of their first
    [count] elements. *)

From S2P Require Import Prelude Bytes.
Open Scope Z_scope.

Definition UTAMO_VFS_PATH_MAX : Z := 128.
Definition UTAMO_VFS_NODE_LIMIT : Z := 128.
Definition UTAMO_INITRAMFS_LIMIT : Z := 4 * 1024 * 1024.
Definition UTAMO_VFS_FILE : Z := 1.
Definition UTAMO_VFS_DIRECTORY : Z := 2.
Definition SLASH : Z := 47.

Notation cstring := (list Z).
(** [s[i]]; the byte at the end is the terminator. *)
Definition str_get (s : cstring) (i : Z) : Z := default 0 (s !! Z.to_nat i).
Definition str_length (s : cstring) : Z := Z.of_nat (length s).

Record vfs_node := MkNode {
  nd_path : cstring;
  nd_data : Z;
  nd_size : Z;
  nd_type : Z;
  nd_mode : Z
}.

Record ramfs := MkRamfs { fs_nodes : list vfs_node; fs_ready : bool }.
Definition fs_count (fs : ramfs) : Z := Z.of_nat (length (fs_nodes fs)).

Record vfs_file := MkFile { vf_node : option vfs_node; vf_offset : Z }.

(** The static variables of vfs.c; [root != NULL] once the root is mounted. *)
Record vfs_state := MkVfs { vs_root : bool; vs_mounts : list ramfs }.
Definition mount_count (v : vfs_state) : Z := Z.of_nat (length (vs_mounts v)).

(** ** Paths *)

(** The loop of [vfs_path_valid] from [i], with [steps] bytes left. *)
Fixpoint path_scan (path : cstring) (steps : nat) (i start : Z) : bool :=
  match steps with
  | O => true
  | S steps =>
      let c := str_get path i in
      if negb (c =? 0) && ((c <? 32) || (126 <? c) || (c =? 92)) then false
      else if (c =? SLASH) || (c =? 0) then
        let part := i - start in
        if (part =? 0) || ((part =? 1) && (str_get path start =? 46)) ||
           ((part =? 2) && (str_get path start =? 46) && (str_get path (start + 1) =? 46))
        then false
        else path_scan path steps (i + 1) (i + 1)
      else path_scan path steps (i + 1) start
  end.

Definition vfs_path_valid (path : cstring) : bool :=
  if negb (str_get path 0 =? SLASH) then false
  else if UTAMO_VFS_PATH_MAX <=? str_length path then false
  else if str_length path =? 1 then true
  else path_scan path (length path) 1 1.

(** ** Lookup and mounting *)

Definition ramfs_lookup (fs : ramfs) (path : cstring) : option vfs_node :=
  if (UTAMO_VFS_NODE_LIMIT <? fs_count fs) || negb (vfs_path_valid path) then None
  else List.find (fun n => bool_decide (nd_path n = path)) (fs_nodes fs).

Fixpoint lookup_mounts (mounts : list ramfs) (path : cstring) : option vfs_node :=
  match mounts with
  | [] => None
  | fs :: mounts =>
      match ramfs_lookup fs path with
      | Some node => Some node
      | None => lookup_mounts mounts path
      end
  end.
Definition vfs_lookup (v : vfs_state) (path : cstring) : option vfs_node := lookup_mounts (vs_mounts v) path.

Definition vfs_mount_root (v : vfs_state) (fs : ramfs) : vfs_state * bool :=
  if vs_root v || negb (fs_ready fs) || (fs_count fs =? 0) || (UTAMO_VFS_NODE_LIMIT <? fs_count fs)
  then (v, false)
  else (MkVfs true (vs_mounts v ++ [fs]), true).

(** The position of the last slash at or before [e]; 0 when there is none. *)
Fixpoint last_slash (path : cstring) (e : nat) : nat :=
  match e with
  | O => O
  | S e' => if negb (str_get path (Z.of_nat e) =? SLASH) then last_slash path e' else e
  end.

(** The checks of [vfs_mount_subtree] on node [i]; [before] are the nodes
    before it, [base] the path of the first node. *)
Definition subtree_node_ok (v : vfs_state) (fs : ramfs) (base : cstring) (before : list vfs_node) (node : vfs_node) : bool :=
  let path := nd_path node in
  let first := bool_decide (before = []) in
  negb (negb (vfs_path_valid path) || bool_decide (is_Some (vfs_lookup v path)) ||
    (negb (nd_type node =? UTAMO_VFS_DIRECTORY) && negb (nd_type node =? UTAMO_VFS_FILE)) ||
    ((nd_type node =? UTAMO_VFS_FILE) && negb (nd_size node =? 0) && (nd_data node =? 0)) ||
    negb (bool_decide (take (length base) path = base)) ||
    (negb first && negb (str_get path (str_length base) =? SLASH))) &&
  negb (existsb (fun other => bool_decide (path = nd_path other)) before) &&
  (if first then true
   else match ramfs_lookup fs (take (last_slash path (length path)) path) with
   | None => false
   | Some dir => nd_type dir =? UTAMO_VFS_DIRECTORY
   end).

Fixpoint subtree_ok (v : vfs_state) (fs : ramfs) (base : cstring) (before rest : list vfs_node) : bool :=
  match rest with
  | [] => true
  | node :: rest => subtree_node_ok v fs base before node && subtree_ok v fs base (before ++ [node]) rest
  end.

Definition vfs_mount_subtree (v : vfs_state) (fs : ramfs) : vfs_state * bool :=
  match fs_nodes fs with
  | [] => (v, false)
  | node0 :: _ =>
      if negb (vs_root v) || negb (fs_ready fs) || (UTAMO_VFS_NODE_LIMIT <? fs_count fs) || (mount_count v =? 4) ||
         negb (nd_type node0 =? UTAMO_VFS_DIRECTORY) || negb (vfs_path_valid (nd_path node0)) ||
         (str_get (nd_path node0) 1 =? 0)
      then (v, false)
      else if existsb (fun c => c =? SLASH) (tail (nd_path node0)) then (v, false)
      else if subtree_ok v fs (nd_path node0) [] (fs_nodes fs)
      then (MkVfs (vs_root v) (vs_mounts v ++ [fs]), true)
      else (v, false)
  end.

(** ** Open files *)

Definition vfs_open (v : vfs_state) (path : cstring) (file : vfs_file) : vfs_file * bool :=
  match vf_node file with
  | Some _ => (file, false)
  | None =>
      match vfs_lookup v path with
      | None => (file, false)
      | Some node =>
          if negb (nd_type node =? UTAMO_VFS_FILE) then (file, false) else (MkFile (Some node) 0, true)
      end
  end.

(** The bytes that [memcpy] puts into the caller's buffer; their number is
    [*read]. *)
Definition vfs_read (mem : memory) (file : vfs_file) (bytes : Z) : option (vfs_file * list Z) :=
  match vf_node file with
  | None => None
  | Some node =>
      if nd_size node <? vf_offset file then None
      else
        let left := nd_size node -u vf_offset file in
        let count := if bytes <? left then bytes else left in
        Some (MkFile (Some node) (vf_offset file +u count), mem <$> seqZ (nd_data node + vf_offset file) count)
  end.

Definition vfs_seek (file : vfs_file) (offset : Z) : vfs_file * bool :=
  match vf_node file with
  | None => (file, false)
  | Some node => if nd_size node <? offset then (file, false) else (MkFile (Some node) offset, true)
  end.

Definition vfs_close (file : vfs_file) : vfs_file * bool :=
  match vf_node file with
  | None => (file, false)
  | Some _ => (MkFile None 0, true)
  end.

(** ** Directory listing *)

(** The scan [while (name[j] != 0 && name[j] != '/')]. *)
Fixpoint name_end (name : cstring) : nat :=
  match name with
  | [] => O
  | c :: name => if c =? SLASH then O else S (name_end name)
  end.

Definition is_child (directory path : cstring) : bool :=
  let prefix := str_length directory in
  if negb (bool_decide (take (length directory) path = directory)) ||
     (negb (prefix =? 1) && negb (str_get path prefix =? SLASH))
  then false
  else
    let name := drop (length directory + (if prefix =? 1 then 0 else 1)) path in
    if str_get name 0 =? 0 then false
    else str_get name (Z.of_nat (name_end name)) =? 0.

(** The two loops of [vfs_child]; [index] counts down over the children. *)
Fixpoint child_scan (directory : cstring) (nodes : list vfs_node) (index : nat) : vfs_node + nat :=
  match nodes with
  | [] => inr index
  | node :: nodes =>
      if is_child directory (nd_path node)
      then match index with O => inl node | S index => child_scan directory nodes index end
      else child_scan directory nodes index
  end.

Fixpoint child_mounts (directory : cstring) (mounts : list ramfs) (index : nat) : option vfs_node :=
  match mounts with
  | [] => None
  | fs :: mounts =>
      match child_scan directory (fs_nodes fs) index with
      | inl node => Some node
      | inr index => child_mounts directory mounts index
      end
  end.

Definition vfs_child (v : vfs_state) (directory : cstring) (index : Z) : option vfs_node :=
  match vfs_lookup v directory with
  | None => None
  | Some parent =>
      if negb (nd_type parent =? UTAMO_VFS_DIRECTORY) then None
      else child_mounts directory (vs_mounts v) (Z.to_nat index)
  end.

(** ** The initial RAM disk (kernel/fs/initramfs.c): definitions

    The cpio archive lies in memory at [image]; file data stays there. *)


Definition hex_digit (digit : Z) : option Z :=
  if (48 <=? digit) && (digit <=? 57) then Some (digit - 48)
  else if (97 <=? digit) && (digit <=? 102) then Some (digit - 97 + 10)
  else if (65 <=? digit) && (digit <=? 70) then Some (digit - 65 + 10)
  else None.

(** The loop of [hex8] with [n] digits left. *)
Fixpoint hex8_from (mem : memory) (text : Z) (n : nat) (value : Z) : option Z :=
  match n with
  | O => Some value
  | S n =>
      match hex_digit (u8 (mem text)) with
      | None => None
      | Some digit => hex8_from mem (text + 1) n (Z.lor (u32 (Z.shiftl value 4)) digit)
      end
  end.
Definition hex8 (mem : memory) (text : Z) : option Z := hex8_from mem text 8 0.

(** The loop over the 13 header fields. *)
Fixpoint read_fields (mem : memory) (text : Z) (n : nat) : option (list Z) :=
  match n with
  | O => Some []
  | S n =>
      match hex8 mem text with
      | None => None
      | Some field => match read_fields mem (text + 8) n with None => None | Some fields => Some (field :: fields) end
      end
  end.

Definition bytes_at (mem : memory) (p n : Z) : list Z := (fun x => u8 (mem x)) <$> seqZ p n.

(** "070701" and "TRAILER!!!" with its terminator. *)
Definition MAGIC : list Z := [48; 55; 48; 55; 48; 49].
Definition TRAILER : list Z := [84; 82; 65; 73; 76; 69; 82; 33; 33; 33; 0].

Definition align4 (x : Z) : Z := Z.land (x +u 3) (not64 3).

(** The path of the directory that has to exist for [path]:
    [parent[slash == 0 ? 1 : slash] = 0]. *)
Definition parent_path (path : cstring) (namesize : Z) : cstring :=
  let slash := last_slash path (Z.to_nat (namesize - 1)) in
  take (if (slash =? 0)%nat then 1 else slash) path.

(** The last part of the body of the loop: the new node, when it is accepted. *)
Definition new_node (nodes : list vfs_node) (image offset bytes mode nlink : Z) (name : list Z) (namesize : Z)
    : option vfs_node :=
  let type := Z.land mode 0xf000 in
  if (negb (type =? 0x8000) && negb (type =? 0x4000)) || ((type =? 0x4000) && negb (bytes =? 0)) ||
     (nlink =? 0) || ((type =? 0x8000) && negb (nlink =? 1)) ||
     (Z.of_nat (length nodes) =? UTAMO_VFS_NODE_LIMIT) || (str_get name 0 =? SLASH)
  then None
  else
    let path := SLASH :: name in
    let node := MkNode path (image + offset) bytes (if type =? 0x8000 then UTAMO_VFS_FILE else UTAMO_VFS_DIRECTORY)
                  (Z.land mode 0x1ff) in
    let fs := MkRamfs nodes false in
    if negb (vfs_path_valid path) || bool_decide (is_Some (ramfs_lookup fs path)) then None
    else match ramfs_lookup fs (parent_path path namesize) with
    | None => None
    | Some directory => if negb (nd_type directory =? UTAMO_VFS_DIRECTORY) then None else Some node
    end.

(** The outcome of the loop of [parse]: the nodes in front of the trailer, an
    archive that is refused, or a loop that the given steps do not end. *)
Inductive parsed :=
  | Parsed (nodes : list vfs_node)
  | Refused
  | OutOfSteps.

Fixpoint parse_from (steps : nat) (mem : memory) (image size offset : Z) (nodes : list vfs_node) : parsed :=
  match steps with
  | O => OutOfSteps
  | S steps =>
      if (size <? offset) || (size -u offset <? 110) then Refused
      else
      let header := image + offset in
      if negb (bool_decide (bytes_at mem header 6 = MAGIC)) then Refused
      else match read_fields mem (header + 6) 13 with
      | None => Refused
      | Some fields =>
          let field i := default 0 (fields !! (i : nat)) in
          let namesize := field 11%nat in
          let bytes := field 6%nat in
          let offset := offset +u 110 in
          if (namesize <? 2) || (UTAMO_VFS_PATH_MAX <=? namesize) || (size -u offset <? namesize) ||
             negb (field 12%nat =? 0)
          then Refused
          else
          let name := image + offset in
          if negb (u8 (mem (name + (namesize - 1))) =? 0) ||
             existsb (fun c => c =? 0) (bytes_at mem name (namesize - 1))
          then Refused
          else
          let offset := align4 (offset +u namesize) in
          if (size <? offset) || (size -u offset <? bytes) then Refused
          else if (namesize =? 11) && bool_decide (bytes_at mem name 11 = TRAILER) then
            if negb (bytes =? 0) then Refused
            else if forallb (fun c => c =? 0) (bytes_at mem (image + offset) (size - offset)) then Parsed nodes
            else Refused
          else match new_node nodes image offset bytes (field 1%nat) (field 4%nat) (bytes_at mem name (namesize - 1)) namesize with
          | None => Refused
          | Some node => parse_from steps mem image size (align4 (offset +u bytes)) (nodes ++ [node])
          end
      end
  end.

Definition root_node : vfs_node := MkNode [SLASH] 0 0 UTAMO_VFS_DIRECTORY 0x1ed.

(** Every entry takes at least 110 bytes. *)
Definition parse (mem : memory) (image size : Z) : parsed :=
  parse_from (S (Z.to_nat (size / 110))) mem image size 0 [root_node].

Definition ramfs_import (fs : ramfs) (mem : memory) (image size : Z) : ramfs * bool :=
  if fs_ready fs || negb (fs_count fs =? 0) then (fs, false)
  else if (image =? 0) || (UTAMO_INITRAMFS_LIMIT <? size) then (MkRamfs [] false, false)
  else match parse mem image size with
  | Parsed nodes => (MkRamfs nodes true, true)
  | Refused | OutOfSteps => (MkRamfs [] false, false)
  end.
