(* ===== verification/VfsTree.v ===== *)
(** * The name space: canonical paths, well-formed trees and listings

    [vfs_path_valid] accepts exactly the root and the joins of legal
    components; archives and all mounted trees together are well-formed trees;
    [vfs_list] enumerates the children of a directory. *)

From S2P Require Import Prelude Bytes Vfs.
Open Scope Z_scope.

(** Printable, no slash and no backslash. *)
Definition path_char (c : Z) : Prop := 32 <= c <= 126 /\ c <> 92 /\ c <> SLASH.
Definition component (c : cstring) : Prop := Forall path_char c /\ c <> [] /\ c <> [46] /\ c <> [46; 46].
Definition join (parts : list cstring) : cstring := mjoin ((fun c => SLASH :: c) <$> parts).

Definition component_b (c : cstring) : bool := negb (bool_decide (c = []) || bool_decide (c = [46]) || bool_decide (c = [46; 46])).

(** The scan on lists: [cur] is the current component, [rest] what follows. *)
Fixpoint components (cur rest : cstring) : bool :=
  match rest with
  | [] => component_b cur
  | c :: rest =>
      if (c <? 32) || (126 <? c) || (c =? 92) then false
      else if c =? SLASH then component_b cur && components [] rest
      else components (cur ++ [c]) rest
  end.

Lemma str_get_app l1 l2 i : str_get (l1 ++ l2) (str_length l1 + Z.of_nat i) = str_get l2 (Z.of_nat i).
Proof.
  unfold str_get, str_length. rewrite lookup_app_r by lia. do 2 f_equal. lia.
Qed.

Lemma part_test pre cur rest : Forall (fun c => c <> 0) (cur ++ rest) ->
  (str_length cur =? 0) || ((str_length cur =? 1) && (str_get (pre ++ cur ++ rest) (str_length pre) =? 46)) ||
  ((str_length cur =? 2) && (str_get (pre ++ cur ++ rest) (str_length pre) =? 46) &&
   (str_get (pre ++ cur ++ rest) (str_length pre + 1) =? 46)) = negb (component_b cur).
Proof.
  intros Hz. unfold component_b. rewrite negb_involutive.
  pose proof (str_get_app pre (cur ++ rest) 0) as E0. pose proof (str_get_app pre (cur ++ rest) 1) as E1.
  change (Z.of_nat 0) with 0 in E0. change (Z.of_nat 1) with 1 in E1. rewrite Z.add_0_r in E0. rewrite E0, E1.
  destruct cur as [|a [|b [|c cur]]]; unfold str_get, str_length; cbn [length app].
  - done.
  - change (Z.of_nat 1) with 1. change (Z.to_nat 0) with 0%nat. cbn [lookup list_lookup default from_option id Z.eqb Pos.eqb andb orb].
    rewrite orb_false_r. destruct (Z.eqb_spec a 46) as [->|Hn]; [done|]. by rewrite !bool_decide_eq_false_2 by congruence.
  - change (Z.of_nat 2) with 2. change (Z.to_nat 0) with 0%nat. change (Z.to_nat 1) with 1%nat.
    cbn [lookup list_lookup default from_option id Z.eqb Pos.eqb andb orb].
    rewrite (bool_decide_eq_false_2 ([a; b] = [])), (bool_decide_eq_false_2 ([a; b] = [46])) by done. cbn [orb].
    destruct (Z.eqb_spec a 46) as [->|Hn], (Z.eqb_spec b 46) as [->|Hm]; cbn [andb orb]; symmetry;
      [by apply bool_decide_eq_true_2|apply bool_decide_eq_false_2; congruence..].
  - rewrite (proj2 (Z.eqb_neq _ 0)), (proj2 (Z.eqb_neq _ 1)), (proj2 (Z.eqb_neq _ 2)) by lia. cbn [andb orb].
    rewrite (bool_decide_eq_false_2 (_ = [])), (bool_decide_eq_false_2 (_ = [46])), (bool_decide_eq_false_2 (_ = [46; 46])) by done. done.
Qed.

Lemma path_scan_components rest : forall pre cur, Forall (fun c => c <> 0) (cur ++ rest) ->
  path_scan (pre ++ cur ++ rest) (S (length rest)) (str_length (pre ++ cur)) (str_length pre) = components cur rest.
Proof.
  induction rest as [|c rest IH]; intros pre cur Hz; cbn [path_scan length components].
  - assert (str_get (pre ++ cur ++ []) (str_length (pre ++ cur)) = 0) as ->.
    { unfold str_get, str_length. rewrite app_nil_r, lookup_ge_None_2 by lia. done. }
    cbn [Z.eqb negb andb orb]. rewrite orb_true_r.
    assert (str_length (pre ++ cur) - str_length pre = str_length cur) as -> by (unfold str_length; rewrite length_app; lia).
    rewrite part_test by done. destruct (component_b cur); done.
  - assert (str_get (pre ++ cur ++ c :: rest) (str_length (pre ++ cur)) = c) as ->.
    { pose proof (str_get_app (pre ++ cur) (c :: rest) 0) as E. rewrite Z.add_0_r in E. by rewrite app_assoc, E. }
    assert (c <> 0) as Hc by (apply Forall_app in Hz as [_ Hz]; by apply Forall_cons in Hz as [? _]).
    rewrite (proj2 (Z.eqb_neq c 0) Hc). cbn [negb andb]. rewrite orb_false_r. destruct (_ || _ || _); [done|].
    assert (str_length (pre ++ cur) + 1 = str_length (pre ++ cur ++ [c])) as Elen by (unfold str_length; rewrite !length_app; cbn; lia).
    destruct (Z.eqb_spec c SLASH) as [->|Hs].
    + assert (str_length (pre ++ cur) - str_length pre = str_length cur) as -> by (unfold str_length; rewrite length_app; lia).
      rewrite part_test by done. destruct (component_b cur); cbn [negb andb]; [|done].
      rewrite Elen. specialize (IH (pre ++ cur ++ [SLASH]) []). cbn [app] in IH. rewrite app_nil_r in IH. rewrite <-IH.
      * f_equal. by rewrite <-!app_assoc.
      * apply Forall_app in Hz as [_ Hz]. by apply Forall_cons in Hz as [_ ?].
    + rewrite Elen. specialize (IH pre (cur ++ [c])). rewrite <-IH; [f_equal; by rewrite <-!app_assoc|]. by rewrite <-app_assoc.
Qed.

Lemma component_b_spec c : Forall path_char c -> component_b c = true <-> component c.
Proof.
  intros Hc. unfold component_b, component. rewrite negb_true_iff, !orb_false_iff, !bool_decide_eq_false. tauto.
Qed.

Lemma join_cons c parts : join (c :: parts) = SLASH :: c ++ join parts.
Proof. done. Qed.

Lemma components_spec rest : forall cur, Forall path_char cur ->
  components cur rest = true <->
  exists d parts, rest = d ++ join parts /\ component (cur ++ d) /\ Forall component parts.
Proof.
  induction rest as [|c rest IH]; intros cur Hc; cbn [components].
  - rewrite component_b_spec by done. split.
    + intros Hx. exists [], []. rewrite (app_nil_r cur). split; [done|split; [done|constructor]].
    + intros (d & parts & E & Hx & _). symmetry in E. apply app_eq_nil in E as [-> _]. by rewrite app_nil_r in Hx.
  - destruct ((c <? 32) || (126 <? c) || (c =? 92)) eqn:Hbad.
    { split; [done|]. intros (d & parts & E & [Hd _] & Hp). exfalso.
      assert (path_char c \/ c = SLASH) as [[Hx ?]| ->]; [|lia|by vm_compute in Hbad]. destruct d as [|x d].
      - destruct parts as [|x parts]; [done|]. rewrite join_cons in E. injection E as -> _. by right.
      - injection E as <- _. left. rewrite !Forall_app, Forall_cons in Hd. tauto. }
    assert (32 <= c <= 126 /\ c <> 92) as Hgood by lia. destruct (Z.eqb_spec c SLASH) as [->|Hs].
    + rewrite andb_true_iff, component_b_spec by done. rewrite IH by constructor. split.
      * intros [Hcur (d & parts & -> & Hd & Hp)]. exists [], (d :: parts). rewrite (app_nil_r cur), join_cons. split; [done|split; [done|by constructor]].
      * intros (d & parts & E & Hd & Hp). destruct d as [|x d].
        -- rewrite app_nil_r in Hd. destruct parts as [|e parts]; [done|]. rewrite join_cons in E. injection E as E.
           apply Forall_cons in Hp as [He Hp]. split; [done|]. exists e, parts. done.
        -- exfalso. injection E as <- _. destruct Hd as [Hd _]. rewrite !Forall_app, Forall_cons in Hd. destruct Hd as (_ & (_ & _ & ?) & _). done.
    + rewrite IH by (apply Forall_app; split; [done|]; apply Forall_singleton; unfold path_char; tauto). split.
      * intros (d & parts & -> & Hd & Hp). exists (c :: d), parts. rewrite <-app_assoc in Hd. done.
      * intros (d & parts & E & Hd & Hp). destruct d as [|x d].
        -- destruct parts as [|e parts]; [done|]. rewrite join_cons in E. injection E as -> _. done.
        -- injection E as <- ->. exists d, parts. rewrite <-app_assoc. done.
Qed.

Lemma path_valid_spec path : Forall (fun c => c <> 0) path ->
  vfs_path_valid path = true <->
  str_length path < UTAMO_VFS_PATH_MAX /\ (path = [SLASH] \/ exists parts, parts <> [] /\ Forall component parts /\ path = join parts).
Proof.
  intros Hz. unfold vfs_path_valid. destruct path as [|c rest].
  { split; [done|]. intros [_ [?|(parts & Hn & _ & E)]]; [done|]. by destruct parts. }
  change (str_get (c :: rest) 0) with c. destruct (Z.eqb_spec c SLASH) as [->|Hs]; cbn [negb]; cycle 1.
  { split; [done|]. intros [_ [E|(parts & Hn & _ & E)]]; [by injection E as ->|]. destruct parts; [done|]. by injection E as ->. }
  destruct (Z.leb_spec UTAMO_VFS_PATH_MAX (str_length (SLASH :: rest))) as [Hl|Hl]; [split; [done|lia]|].
  destruct (Z.eqb_spec (str_length (SLASH :: rest)) 1) as [H1|H1].
  { split; [|done]. intros _. split; [done|left]. destruct rest; [done|]. unfold str_length in H1. cbn [length] in H1. lia. }
  apply Forall_cons in Hz as [_ Hz]. pose proof (path_scan_components rest [SLASH] [] Hz) as E. cbn [app length] in E.
  change (str_length [SLASH]) with 1 in E. cbn [length]. rewrite E, components_spec by constructor. split.
  - intros (d & parts & -> & Hd & Hp). split; [done|right]. exists (d :: parts). split_and!; [done|by constructor|done].
  - intros [_ [E1|(parts & Hn & Hp & E1)]]; [injection E1 as ->; by unfold str_length in H1|].
    destruct parts as [|d parts]; [done|]. rewrite join_cons in E1. injection E1 as ->. apply Forall_cons in Hp as [Hd Hp]. by exists d, parts.
Qed.

(** ** The name space: uniqueness of paths and parents

    A set of nodes is a well-formed tree when paths are valid and unique, the
    root is a directory and every other node lies in a directory of the set.
    Archives that [ramfs_import] accepts and all mounted trees together are
    such sets. *)

(** The directory part of a path. *)
Definition dirname (path : cstring) : cstring :=
  let slash := last_slash path (length path - 1) in take (if (slash =? 0)%nat then 1 else slash) path.

Record tree_wf (nodes : list vfs_node) : Prop := {
  tw_nodup : NoDup (nd_path <$> nodes);
  tw_valid : forall n, n ∈ nodes -> vfs_path_valid (nd_path n) = true;
  tw_type : forall n, n ∈ nodes -> nd_type n = UTAMO_VFS_FILE \/ nd_type n = UTAMO_VFS_DIRECTORY;
  tw_root : exists r, r ∈ nodes /\ nd_path r = [SLASH] /\ nd_type r = UTAMO_VFS_DIRECTORY;
  tw_parent : forall n, n ∈ nodes -> nd_path n = [SLASH] \/
    exists d, d ∈ nodes /\ nd_path d = dirname (nd_path n) /\ nd_type d = UTAMO_VFS_DIRECTORY
}.

(** ** Lookup *)

Lemma find_path nodes path n : List.find (fun n => bool_decide (nd_path n = path)) nodes = Some n -> n ∈ nodes /\ nd_path n = path.
Proof. intros [Hin Hp]%List.find_some. apply bool_decide_eq_true in Hp. by rewrite list_elem_of_In. Qed.

Lemma find_path_none nodes path : List.find (fun n => bool_decide (nd_path n = path)) nodes = None -> path ∉ (nd_path <$> nodes).
Proof.
  intros Hn (n & -> & Hin)%list_elem_of_fmap. rewrite list_elem_of_In in Hin. pose proof (List.find_none _ _ Hn n Hin) as Hb. cbn beta in Hb.
  by apply bool_decide_eq_false in Hb.
Qed.

Lemma ramfs_lookup_some fs path n : ramfs_lookup fs path = Some n -> n ∈ fs_nodes fs /\ nd_path n = path.
Proof. unfold ramfs_lookup. destruct (_ || _); [done|]. apply find_path. Qed.

Lemma ramfs_lookup_none fs path : fs_count fs <= UTAMO_VFS_NODE_LIMIT -> vfs_path_valid path = true ->
  ramfs_lookup fs path = None -> path ∉ (nd_path <$> fs_nodes fs).
Proof.
  intros Hc Hv. unfold ramfs_lookup. rewrite (proj2 (Z.ltb_ge _ _) Hc), Hv. apply find_path_none.
Qed.

(** ** Parents *)

Lemma last_slash_ge path k e : str_get path (Z.of_nat k) = SLASH -> (1 <= k <= e)%nat -> (k <= last_slash path e)%nat.
Proof.
  intros Hk. induction e as [|e IH]; intros He; [lia|]. cbn [last_slash].
  destruct (Z.eqb_spec (str_get path (Z.of_nat (S e))) SLASH) as [_|Hn]; cbn [negb]; [lia|].
  apply IH. destruct (decide (k = S e)) as [->|]; [done|lia].
Qed.

Lemma last_slash_end path : last_slash path (length path) = last_slash path (length path - 1).
Proof.
  destruct (length path) as [|e] eqn:E; [done|]. cbn [last_slash]. replace (S e - 1)%nat with e by lia.
  assert (str_get path (Z.of_nat (S e)) = 0) as ->; [|done].
  unfold str_get. by rewrite lookup_ge_None_2 by lia.
Qed.

Lemma last_slash_none path e : (forall k, (1 <= k <= e)%nat -> str_get path (Z.of_nat k) <> SLASH) -> last_slash path e = O.
Proof.
  induction e as [|e IH]; intros Hk; [done|]. cbn [last_slash]. rewrite (proj2 (Z.eqb_neq _ _) (Hk (S e) ltac:(lia))). cbn [negb].
  apply IH. intros k ?. apply Hk. lia.
Qed.

Lemma parent_path_dirname path namesize : namesize = str_length path -> parent_path path namesize = dirname path.
Proof. intros ->. unfold parent_path, dirname, str_length. by replace (Z.to_nat (Z.of_nat (length path) - 1)) with (length path - 1)%nat by lia. Qed.

Lemma tree_snoc nodes n : tree_wf nodes -> vfs_path_valid (nd_path n) = true -> nd_path n ∉ (nd_path <$> nodes) ->
  (nd_type n = UTAMO_VFS_FILE \/ nd_type n = UTAMO_VFS_DIRECTORY) ->
  (exists d, d ∈ nodes /\ nd_path d = dirname (nd_path n) /\ nd_type d = UTAMO_VFS_DIRECTORY) -> tree_wf (nodes ++ [n]).
Proof.
  intros [Hnd Hv Ht (r & Hr & Hr') Hp] Hvn Hnn Htn (d & Hd & Hd'). constructor.
  - rewrite fmap_app. apply NoDup_app. split_and!; [done| |apply NoDup_singleton]. intros p Hin Hx. apply list_elem_of_singleton in Hx. by subst.
  - intros m [Hm|Hm%list_elem_of_singleton]%elem_of_app; [by apply Hv|by subst].
  - intros m [Hm|Hm%list_elem_of_singleton]%elem_of_app; [by apply Ht|by subst].
  - exists r. set_solver.
  - intros m [Hm|Hm%list_elem_of_singleton]%elem_of_app.
    + destruct (Hp m Hm) as [?|(e & He & ?)]; [by left|right; exists e; set_solver].
    + subst m. right. exists d. set_solver.
Qed.

(** ** The archive parser *)

Lemma hex8_nonneg mem n : forall text value r, 0 <= value -> hex8_from mem text n value = Some r -> 0 <= r.
Proof.
  induction n as [|n IH]; intros text value r Hv; cbn [hex8_from]; [by intros [= <-]|].
  destruct (hex_digit _) as [digit|] eqn:Ed; [|done]. apply IH. apply Z.lor_nonneg. split; [unfold u32; dlia|].
  unfold hex_digit in Ed. repeat case_match; simplify_eq; lia.
Qed.

Lemma fields_nonneg mem n : forall text fields i, read_fields mem text n = Some fields -> 0 <= default 0 (fields !! i).
Proof.
  induction n as [|n IH]; intros text fields i; cbn [read_fields]; [by intros [= <-]|].
  destruct (hex8 mem text) as [v|] eqn:Ev; [|done]. destruct (read_fields _ _ n) as [fs|] eqn:Ef; [|done]. intros [= <-].
  destruct i as [|i]; cbn; [eapply hex8_nonneg; [|exact Ev]; done|]. by eapply IH.
Qed.

(** A node's contents lie in the archive. *)
Definition data_inside (image size : Z) (n : vfs_node) : Prop :=
  nd_size n = 0 \/ (image <= nd_data n /\ 0 <= nd_size n /\ nd_data n + nd_size n <= image + size).

Lemma align4_eq x : 0 <= x <= UINT64_MAX - 3 -> align4 x = x + (- x) mod 4.
Proof.
  intros Hx. unfold align4. rewrite u64_small by (unfold u64_ok; lia). rewrite land_not64 by (unfold u64_ok; lia).
  change 3 with (Z.ones 2) at 2. rewrite ldiff_ones by lia. change (2 ^ 2) with 4. dlia.
Qed.

Lemma new_node_spec nodes image offset bytes mode nlink name namesize node size : tree_wf nodes ->
  Z.of_nat (length nodes) <= UTAMO_VFS_NODE_LIMIT -> str_length name = namesize - 1 -> 0 <= bytes -> 0 <= offset -> offset + bytes <= size ->
  new_node nodes image offset bytes mode nlink name namesize = Some node ->
  tree_wf (nodes ++ [node]) /\ Z.of_nat (length (nodes ++ [node])) <= UTAMO_VFS_NODE_LIMIT /\ data_inside image size node.
Proof.
  intros Hwf Hlen Hname Hb Ho Hsz. unfold new_node. destruct (_ || _ || _ || _ || _ || _) eqn:Hg; [done|].
  do 5 (apply orb_false_iff in Hg as [Hg ?]). set (node0 := MkNode _ _ _ _ _).
  destruct (negb (vfs_path_valid (SLASH :: name)) || _) eqn:Hv; [done|]. apply orb_false_iff in Hv as [Hv Hno].
  rewrite negb_false_iff in Hv. apply bool_decide_eq_false in Hno.
  rewrite parent_path_dirname by (unfold str_length in *; cbn [length]; lia).
  destruct (ramfs_lookup _ (dirname _)) as [dir|] eqn:Ed; [|done]. destruct (Z.eqb_spec (nd_type dir) UTAMO_VFS_DIRECTORY) as [Hdt|]; cbn [negb]; [|done].
  intros [= <-]. apply ramfs_lookup_some in Ed as [Hdin Hdp]. split_and!.
  - apply tree_snoc; [done|done| | |by exists dir].
    + apply (ramfs_lookup_none (MkRamfs nodes false)); [done|done|]. by apply eq_None_not_Some.
    + unfold node0. cbn [nd_type]. destruct (_ =? 0x8000); tauto.
  - rewrite length_app. cbn [length]. unfold UTAMO_VFS_NODE_LIMIT in *. lia.
  - right. unfold node0. cbn [nd_data nd_size]. lia.
Qed.

(** The facts one turn of the loop of [parse] establishes. *)
Lemma parse_spec mem image size : 0 <= size <= UTAMO_INITRAMFS_LIMIT -> forall steps offset nodes nodes',
  0 <= offset -> tree_wf nodes -> Z.of_nat (length nodes) <= UTAMO_VFS_NODE_LIMIT -> Forall (data_inside image size) nodes ->
  parse_from steps mem image size offset nodes = Parsed nodes' ->
  tree_wf nodes' /\ Z.of_nat (length nodes') <= UTAMO_VFS_NODE_LIMIT /\ Forall (data_inside image size) nodes'.
Proof.
  intros Hsz. unfold UTAMO_INITRAMFS_LIMIT in Hsz. induction steps as [|steps IH]; intros offset nodes nodes' Ho Hwf Hlen Hd; cbn [parse_from]; [done|].
  destruct (_ || _) eqn:G1; [done|]. apply orb_false_iff in G1 as [G1 G2]. apply Z.ltb_ge in G1.
  rewrite (u64_small (size - offset)) in G2 by (unfold u64_ok, UINT64_MAX; lia). destruct (negb _); [done|].
  destruct (read_fields _ _ _) as [fields|] eqn:Ef; [|done]. cbv zeta.
  set (namesize := default 0 (fields !! 11%nat)). set (bytes := default 0 (fields !! 6%nat)).
  assert (0 <= namesize /\ 0 <= bytes) as [Hn Hb] by (split; by eapply fields_nonneg).
  rewrite (u64_small (offset + 110)) by (unfold u64_ok, UINT64_MAX; lia). destruct (_ || _ || _ || _) eqn:G3; [done|].
  do 3 (apply orb_false_iff in G3 as [G3 ?]). rewrite (u64_small (size - _)) in * by (unfold u64_ok, UINT64_MAX; lia).
  unfold UTAMO_VFS_PATH_MAX in *. destruct (_ || _); [done|]. rewrite (u64_small (offset + 110 + namesize)) by (unfold u64_ok, UINT64_MAX; lia).
  rewrite align4_eq by (unfold UINT64_MAX; lia). set (off := offset + 110 + namesize + _). assert (0 <= off < offset + 110 + namesize + 4) as Hoff by (unfold off; dlia).
  destruct (Z.ltb_spec size off) as [|Hle]; [done|]. cbn [orb]. rewrite (u64_small (size - off)) by (unfold u64_ok, UINT64_MAX; lia).
  destruct (Z.ltb_spec (size - off) bytes) as [|Hfit]; [done|]. destruct (_ && _).
  { destruct (bytes =? 0); cbn [negb]; [|done]. destruct (forallb _ _); [|done]. by intros [= <-]. }
  destruct (new_node _ _ _ _ _ _ _ _) as [node|] eqn:En; [|done].
  apply (new_node_spec _ _ _ _ _ _ _ _ _ size) in En as (Hwf' & Hlen' & Hd'); try done; try lia;
    [|unfold str_length, bytes_at; rewrite length_fmap, length_seqZ; lia].
  rewrite (u64_small (off + bytes)) by (unfold u64_ok, UINT64_MAX; lia).
  apply IH; try done; [|by apply Forall_app; split; [|apply Forall_singleton]].
  rewrite align4_eq by (unfold UINT64_MAX; lia). dlia.
Qed.

Lemma root_tree : tree_wf [root_node].
Proof.
  constructor.
  - apply NoDup_singleton.
  - intros n Hn%list_elem_of_singleton. subst n. by vm_compute.
  - intros n Hn%list_elem_of_singleton. subst n. by right.
  - exists root_node. split; [by left|done].
  - intros n Hn%list_elem_of_singleton. subst n. by left.
Qed.

(** The number of steps of [parse] suffices: the loop ends, whether the archive is
    accepted or refused, and more steps do not change the result. *)
Lemma parse_fuel mem image size : 0 <= size <= UTAMO_INITRAMFS_LIMIT -> forall n k offset nodes,
  0 <= offset -> (Z.to_nat ((size - offset) / 110) < n)%nat -> (n <= k)%nat ->
  parse_from k mem image size offset nodes = parse_from n mem image size offset nodes /\ parse_from n mem image size offset nodes <> OutOfSteps.
Proof.
  intros Hsz. unfold UTAMO_INITRAMFS_LIMIT in Hsz. induction n as [|n IH]; intros [|k] offset nodes Ho Hn Hk; try lia. cbn [parse_from].
  destruct (_ || _) eqn:G1; [by split|]. apply orb_false_iff in G1 as [G1 G2]. apply Z.ltb_ge in G1.
  rewrite (u64_small (size - offset)) in G2 by (unfold u64_ok, UINT64_MAX; lia). destruct (negb _); [by split|].
  destruct (read_fields _ _ _) as [fields|] eqn:Ef; [|by split]. cbv zeta.
  set (namesize := default 0 (fields !! 11%nat)). set (bytes := default 0 (fields !! 6%nat)).
  assert (0 <= namesize /\ 0 <= bytes) as [Hn0 Hb] by (split; by eapply fields_nonneg).
  rewrite (u64_small (offset + 110)) by (unfold u64_ok, UINT64_MAX; lia). destruct (_ || _ || _ || _) eqn:G3; [by split|].
  do 3 (apply orb_false_iff in G3 as [G3 ?]). rewrite (u64_small (size - _)) in * by (unfold u64_ok, UINT64_MAX; lia).
  unfold UTAMO_VFS_PATH_MAX in *. destruct (_ || _); [by split|]. rewrite (u64_small (offset + 110 + namesize)) by (unfold u64_ok, UINT64_MAX; lia).
  rewrite align4_eq by (unfold UINT64_MAX; lia). set (off := offset + 110 + namesize + _).
  assert (offset + 110 + namesize <= off < offset + 110 + namesize + 4) as Hoff by (unfold off; dlia).
  destruct (Z.ltb_spec size off) as [|Hle]; [by split|]. cbn [orb]. rewrite (u64_small (size - off)) by (unfold u64_ok, UINT64_MAX; lia).
  destruct (Z.ltb_spec (size - off) bytes) as [|Hfit]; [by split|]. destruct (_ && _); [destruct (bytes =? 0); cbn [negb]; [|by split]; by destruct (forallb _ _)|].
  destruct (new_node _ _ _ _ _ _ _ _) as [node|]; [|by split]. rewrite (u64_small (off + bytes)) by (unfold u64_ok, UINT64_MAX; lia).
  rewrite align4_eq by (unfold UINT64_MAX; lia). set (next := off + bytes + _). assert (off + bytes <= next) as Hnx by (unfold next; dlia).
  destruct n as [|n']; [exfalso; assert (1 <= (size - offset) / 110) by (apply Z.div_le_lower_bound; lia); lia|].
  apply IH; [lia| |lia]. assert ((size - next) / 110 <= (size - offset) / 110 - 1) as Hdiv.
  { assert ((size - offset) / 110 - 1 = (size - offset + (-1) * 110) / 110) as -> by (rewrite Z.div_add; lia).
    apply Z.div_le_mono; lia. }
  lia.
Qed.

(** ** Directory listing: the children of a directory are the nodes in it *)

Lemma last_slash_eq path k e : str_get path (Z.of_nat k) = SLASH -> (1 <= k <= e)%nat ->
  (forall j, (k < j <= e)%nat -> str_get path (Z.of_nat j) <> SLASH) -> last_slash path e = k.
Proof.
  intros Hk. induction e as [|e IH]; intros He Hn; [lia|]. cbn [last_slash]. destruct (decide (k = S e)) as [->|Hne].
  - by rewrite Hk, Z.eqb_refl.
  - rewrite (proj2 (Z.eqb_neq _ _) (Hn (S e) ltac:(lia))). cbn [negb]. apply IH; [lia|]. intros j Hj. apply Hn. lia.
Qed.

Lemma no_slash_get c k : Forall path_char c -> str_get c (Z.of_nat k) <> SLASH.
Proof.
  intros Hc. unfold str_get. rewrite Nat2Z.id. destruct (c !! k) as [x|] eqn:E; cbn; [|done].
  by apply (Forall_lookup_1 _ _ _ _ Hc) in E as (_ & _ & ?).
Qed.

Lemma get_app_r l1 l2 j : (length l1 <= j)%nat -> str_get (l1 ++ l2) (Z.of_nat j) = str_get l2 (Z.of_nat (j - length l1)).
Proof. intros Hj. unfold str_get. rewrite !Nat2Z.id. by rewrite lookup_app_r. Qed.

(** The path of [c] in the directory with the path [join parts]. *)
Definition dir_of (parts : list cstring) : cstring := match parts with [] => [SLASH] | _ => join parts end.

Lemma join_snoc parts c : join (parts ++ [c]) = join parts ++ SLASH :: c.
Proof. unfold join. rewrite fmap_app, join_app. cbn. by rewrite app_nil_r. Qed.

Lemma join_length parts : Forall component parts -> parts <> [] -> (2 <= length (join parts))%nat.
Proof.
  intros Hp Hn. destruct parts as [|c parts]; [done|]. rewrite join_cons. apply Forall_cons in Hp as [(_ & Hc & _) _].
  destruct c; [done|]. cbn [length app]. lia.
Qed.

Lemma dirname_join parts c : component c -> Forall component parts -> dirname (join parts ++ SLASH :: c) = dir_of parts.
Proof.
  intros (Hc & _) Hp. unfold dirname. rewrite length_app. cbn [length]. destruct parts as [|x parts].
  - change (join [] ++ SLASH :: c) with (SLASH :: c). rewrite last_slash_none; [done|]. intros k Hk.
    pose proof (get_app_r [SLASH] c k ltac:(cbn; lia)) as E. cbn [app length] in E. rewrite E. by apply no_slash_get.
  - set (l := join (x :: parts)). pose proof (join_length (x :: parts) Hp ltac:(done)) as Hlen. fold l in Hlen.
    rewrite (last_slash_eq _ (length l)).
    + destruct (Nat.eqb_spec (length l) 0); [lia|]. by rewrite take_app_length.
    + rewrite get_app_r by done. by rewrite Nat.sub_diag.
    + lia.
    + intros j Hj. rewrite get_app_r by lia. pose proof (get_app_r [SLASH] c (j - length l) ltac:(change (length [SLASH]) with 1%nat; lia)) as E. cbn [app] in E. rewrite E.
      by apply no_slash_get.
Qed.

Lemma name_end_spec name : Forall (fun c => c <> 0) name ->
  str_get name (Z.of_nat (name_end name)) = 0 <-> SLASH ∉ name.
Proof.
  induction 1 as [|c name Hc Hn IH]; cbn [name_end].
  - split; [by intros _ ?%elem_of_nil|done].
  - destruct (Z.eqb_spec c SLASH) as [->|Hs]; [split; [done|set_solver]|].
    pose proof (get_app_r [c] name (S (name_end name)) ltac:(cbn; lia)) as E. cbn [app length] in E.
    replace (S (name_end name) - 1)%nat with (name_end name) in E by lia. rewrite E, IH. set_solver.
Qed.

Lemma last_slash_unique l1 l2 x y : l1 ++ SLASH :: x = l2 ++ SLASH :: y -> SLASH ∉ x -> SLASH ∉ y -> l1 = l2.
Proof.
  revert l2. induction l1 as [|a l1 IH]; intros [|b l2] E Hx Hy; cbn [app] in E; [done| | |].
  - injection E as _ ->. exfalso. apply Hx, elem_of_app. right. by left.
  - injection E as _ <-. exfalso. apply Hy, elem_of_app. right. by left.
  - injection E as -> E. f_equal. by apply IH.
Qed.

Lemma path_chars_no_slash c : Forall path_char c -> SLASH ∉ c.
Proof. intros Hc Hin. by apply (proj1 (Forall_forall _ _) Hc) in Hin as (_ & _ & ?). Qed.

(** [is_child] for a directory path other than the root. *)
Lemma child_deep d p : (2 <= length d)%nat -> Forall (fun c => c <> 0) p ->
  is_child d p = true <-> exists name, p = d ++ SLASH :: name /\ name <> [] /\ SLASH ∉ name.
Proof.
  intros Hd Hp. unfold is_child. rewrite (proj2 (Z.eqb_neq (str_length d) 1)) by (unfold str_length; lia). cbn [negb andb].
  split.
  - destruct (bool_decide_reflect (take (length d) p = d)) as [Ht|]; cbn [negb orb]; [|done].
    destruct (Z.eqb_spec (str_get p (str_length d)) SLASH) as [Hs|]; cbn [negb]; [|done].
    destruct (Z.eqb_spec (str_get (drop (length d + 1) p) 0) 0) as [|Hn]; [done|]. intros He%Z.eqb_eq.
    exists (drop (length d + 1) p). rewrite name_end_spec in He by (by apply Forall_drop). split_and!; [|by intros E; rewrite E in Hn|done].
    rewrite <-(take_drop (length d) p) at 1. rewrite Ht. f_equal. unfold str_get, str_length in Hs. rewrite Nat2Z.id in Hs.
    destruct (p !! length d) as [x|] eqn:E; [|done]. cbn in Hs. subst x. rewrite (drop_S p SLASH (length d)) by done. by rewrite Nat.add_1_r.
  - intros (name & -> & Hne & Hns). rewrite bool_decide_eq_true_2 by (by rewrite take_app_length). cbn [negb orb].
    unfold str_length. rewrite get_app_r by done. rewrite Nat.sub_diag. cbn [negb]. 
    assert (drop (length d + 1) (d ++ SLASH :: name) = name) as ->.
    { rewrite drop_app_ge by lia. by replace (length d + 1 - length d)%nat with 1%nat by lia. }
    apply Forall_app in Hp as [_ [_ Hz]%Forall_cons]. change (str_get (SLASH :: name) (Z.of_nat 0)) with SLASH. rewrite Z.eqb_refl. cbn [negb].
    destruct (Z.eqb_spec (str_get name 0) 0) as [E|_].
    { exfalso. destruct name as [|x name]; [done|]. apply Forall_cons in Hz as [? _]. done. }
    apply Z.eqb_eq. by apply name_end_spec.
Qed.

Lemma child_root p : Forall (fun c => c <> 0) p -> is_child [SLASH] (SLASH :: p) = true <-> p <> [] /\ SLASH ∉ p.
Proof.
  intros Hp. unfold is_child. change (str_length [SLASH]) with 1. cbn [Z.eqb Pos.eqb negb andb length take]. rewrite bool_decide_eq_true_2 by done.
  cbn [negb orb]. change (drop (1 + 0) (SLASH :: p)) with p. destruct (Z.eqb_spec (str_get p 0) 0) as [E|E].
  - split; [done|]. intros [Hn _]. exfalso. destruct p as [|x p]; [done|]. by apply Forall_cons in Hp as [? _].
  - rewrite Z.eqb_eq, name_end_spec by done. split; [intros ?; split; [by intros ->|done]|tauto].
Qed.

(** The children of [d] are the nodes whose directory is [d]. *)
Lemma is_child_dirname d p : Forall (fun c => c <> 0) d -> Forall (fun c => c <> 0) p ->
  vfs_path_valid d = true -> vfs_path_valid p = true -> p <> [SLASH] -> is_child d p = true <-> dirname p = d.
Proof.
  intros Hzd Hzp [_ Hd]%path_valid_spec [_ Hp]%path_valid_spec Hr; [|done..].
  destruct Hp as [?|(ps & Hn & Hps & ->)]; [done|]. destruct ps as [|c ps _] using rev_ind; [done|].
  apply Forall_app in Hps as [Hps Hc]. apply Forall_cons in Hc as [Hc _]. rewrite join_snoc in *. rewrite (dirname_join ps c Hc Hps).
  pose proof Hc as (Hcc & Hcn & _). pose proof (path_chars_no_slash c Hcc) as Hcs. destruct Hd as [->|(ds & Hdn & Hds & ->)].
  - destruct ps as [|x ps].
    + cbn [join fmap list_fmap mjoin list_join app dir_of]. apply Forall_cons in Hzp as [_ Hz]. rewrite child_root by done. tauto.
    + cbn [dir_of]. rewrite !join_cons in *. cbn [app] in *. apply Forall_cons in Hzp as [_ Hz]. rewrite child_root by done. split.
      * intros [_ Hs]. exfalso. set_solver.
      * intros E. exfalso. injection E as E. apply app_eq_nil in E as [-> _]. by apply Forall_cons in Hps as [(_ & Hx & _) _].
  - rewrite child_deep; [|by apply join_length|done]. split.
    + intros (name & E & Hne & Hns). apply last_slash_unique in E; [|done|done]. destruct ps as [|x ps]; [|done].
      exfalso. symmetry in E. pose proof (join_length ds Hds Hdn) as Hl. rewrite E in Hl. cbn in Hl. lia.
    + intros E. exists c. split_and!; [|done|done]. f_equal. destruct ps as [|x ps]; [|done].
      exfalso. pose proof (join_length ds Hds Hdn) as Hl. rewrite <-E in Hl. cbn in Hl. lia.
Qed.

Lemma child_scan_filter d nodes index :
  child_scan d nodes index =
  match filter (fun n => is_child d (nd_path n) = true) nodes !! index with
  | Some n => inl n
  | None => inr (index - length (filter (fun n => is_child d (nd_path n) = true) nodes))%nat
  end.
Proof.
  revert index. induction nodes as [|n nodes IH]; intros index; cbn [child_scan]; [rewrite filter_nil; cbn; f_equal; lia|].
  rewrite filter_cons. destruct (is_child d (nd_path n)) eqn:E.
  - rewrite decide_True by done. destruct index as [|index]; [done|]. rewrite IH. cbn [lookup list_lookup length].
    destruct (_ !! index); [done|]. done.
  - rewrite decide_False by done. apply IH.
Qed.

Lemma child_mounts_filter d mounts index : child_mounts d mounts index =
  filter (fun n => is_child d (nd_path n) = true) (mjoin (fs_nodes <$> mounts)) !! index.
Proof.
  revert index. induction mounts as [|fs mounts IH]; intros index; cbn [child_mounts fmap list_fmap mjoin list_join]; [by rewrite filter_nil|].
  rewrite child_scan_filter, filter_app. destruct (filter _ (fs_nodes fs) !! index) as [n|] eqn:E.
  - symmetry. by apply lookup_app_l_Some.
  - rewrite IH. apply lookup_ge_None in E. by rewrite lookup_app_r.
Qed.
