(* ===== verification/VfsProps.v ===== *)
(** * The read-only file system: theorems *)

From S2P Require Import Prelude Bytes Vfs VfsTree.
Open Scope Z_scope.

(** All nodes of all mounted trees, in the order of the mounts. *)
Definition all_nodes (v : vfs_state) : list vfs_node := mjoin (fs_nodes <$> vs_mounts v).

Record vfs_wf (v : vfs_state) : Prop := {
  vw_limits : Forall (fun fs => fs_count fs <= UTAMO_VFS_NODE_LIMIT) (vs_mounts v);
  vw_slots : mount_count v <= 4;
  vw_tree : if vs_root v then tree_wf (all_nodes v) else vs_mounts v = []
}.

Lemma nodup_key {A B} (f : A -> B) (l : list A) x y : NoDup (f <$> l) -> x ∈ l -> y ∈ l -> f x = f y -> x = y.
Proof.
  intros Hn [i Hi]%list_elem_of_lookup [j Hj]%list_elem_of_lookup E.
  assert (i = j) as ->; [|congruence]. eapply NoDup_lookup; [exact Hn| |]; rewrite list_lookup_fmap; [by rewrite Hi|by rewrite Hj, E].
Qed.

Lemma lookup_mounts_some mounts path n : lookup_mounts mounts path = Some n -> n ∈ mjoin (fs_nodes <$> mounts) /\ nd_path n = path.
Proof.
  induction mounts as [|fs mounts IH]; cbn [lookup_mounts fmap list_fmap mjoin list_join]; [done|].
  destruct (ramfs_lookup fs path) as [m|] eqn:E.
  - intros [= ->]. apply ramfs_lookup_some in E as [? ?]. set_solver.
  - intros [? ?]%IH. set_solver.
Qed.

Lemma lookup_mounts_none mounts path : Forall (fun fs => fs_count fs <= UTAMO_VFS_NODE_LIMIT) mounts -> vfs_path_valid path = true ->
  lookup_mounts mounts path = None -> path ∉ (nd_path <$> mjoin (fs_nodes <$> mounts)).
Proof.
  intros Hc Hv. induction Hc as [|fs mounts Hfs Hc IH]; cbn [lookup_mounts fmap list_fmap mjoin list_join]; [by intros _ ?%elem_of_nil|].
  destruct (ramfs_lookup fs path) as [m|] eqn:E; [done|]. intros Hn%IH. rewrite fmap_app, not_elem_of_app.
  split; [|done]. by apply ramfs_lookup_none.
Qed.

Lemma vfs_lookup_spec v path n : vfs_wf v -> vfs_path_valid path = true ->
  vfs_lookup v path = Some n <-> n ∈ all_nodes v /\ nd_path n = path.
Proof.
  intros [Hlim _ Hroot] Hv. unfold vfs_lookup, all_nodes in *. split; [apply lookup_mounts_some|]. intros [Hin Hp].
  destruct (lookup_mounts (vs_mounts v) path) as [m|] eqn:E.
  - destruct (vs_root v); [|by rewrite Hroot in E]. f_equal. apply lookup_mounts_some in E as [Hm Hmp].
    apply (nodup_key nd_path _ m n (tw_nodup _ Hroot)); [done|done|congruence].
  - exfalso. apply (lookup_mounts_none _ _ Hlim Hv) in E. apply E. subst path. by apply list_elem_of_fmap_2.
Qed.

(** ** Mounting *)

Lemma mount_root_wf v fs : vfs_wf v -> tree_wf (fs_nodes fs) -> vfs_wf (fst (vfs_mount_root v fs)).
Proof.
  intros Hwf Ht. unfold vfs_mount_root. destruct (_ || _) eqn:G; [done|]. do 3 (apply orb_false_iff in G as [G ?]).
  destruct Hwf as [_ _ Hroot]. rewrite G in Hroot. cbn [fst]. constructor; cbn [vs_mounts vs_root mount_count]; rewrite Hroot.
  - apply Forall_singleton. lia.
  - done.
  - unfold all_nodes. cbn [vs_mounts app fmap list_fmap mjoin list_join]. by rewrite app_nil_r.
Qed.

Lemma subtree_nodes v fs base rest : forall before, subtree_ok v fs base before rest = true ->
  forall i node, rest !! i = Some node -> subtree_node_ok v fs base (before ++ take i rest) node = true.
Proof.
  induction rest as [|n rest IH]; intros before; cbn [subtree_ok]; [done|]. intros [Hn Hr]%andb_true_iff [|i] node; cbn [lookup list_lookup take].
  - intros [= <-]. by rewrite app_nil_r.
  - intros Hi. specialize (IH _ Hr i node Hi). by rewrite <-app_assoc in IH.
Qed.

(** What the checks of [vfs_mount_subtree] say about one node. *)
Lemma subtree_node_facts v fs base before node : vfs_wf v -> (2 <= length base)%nat -> subtree_node_ok v fs base before node = true ->
  vfs_path_valid (nd_path node) = true /\ nd_path node ∉ (nd_path <$> all_nodes v) /\ nd_path node ∉ (nd_path <$> before) /\
  (nd_type node = UTAMO_VFS_FILE \/ nd_type node = UTAMO_VFS_DIRECTORY) /\
  (before <> [] -> exists d, d ∈ fs_nodes fs /\ nd_path d = dirname (nd_path node) /\ nd_type d = UTAMO_VFS_DIRECTORY).
Proof.
  intros Hwf Hb. unfold subtree_node_ok. intros [[G1 G2]%andb_true_iff G3]%andb_true_iff. rewrite negb_true_iff in G1, G2.
  do 5 (apply orb_false_iff in G1 as [G1 ?]). rewrite negb_false_iff in G1. split_and!; [done| | | |].
  - intros Hin. apply list_elem_of_fmap in Hin as (m & E & Hin). match goal with H : bool_decide (is_Some _) = false |- _ => apply bool_decide_eq_false in H; apply H end.
    exists m. by apply vfs_lookup_spec.
  - intros (m & E & Hin)%list_elem_of_fmap. rewrite list_elem_of_In in Hin.
    apply (proj2 (not_true_iff_false _) G2). apply existsb_exists. exists m. split; [done|]. by apply bool_decide_eq_true.
  - match goal with H : negb (_ =? UTAMO_VFS_DIRECTORY) && _ = false |- _ => apply andb_false_iff in H as [H|H]; rewrite negb_false_iff, Z.eqb_eq in H end; tauto.
  - intros Hne. rewrite (bool_decide_eq_false_2 (before = [])) in * by done. cbn [negb andb] in *.
    match goal with H : negb (_ =? SLASH) = false |- _ => rewrite negb_false_iff, Z.eqb_eq in H; rename H into Hs end.
    destruct (ramfs_lookup fs _) as [d|] eqn:Ed; [|done]. apply ramfs_lookup_some in Ed as [Hd Hdp]. exists d. split; [done|]. split; [|lia].
    assert (length base < length (nd_path node))%nat as Hlen.
    { destruct (decide (length base < length (nd_path node))%nat); [done|]. exfalso. unfold str_get, str_length in Hs.
      rewrite lookup_ge_None_2 in Hs by lia. done. }
    rewrite Hdp. unfold dirname. rewrite <-last_slash_end.
    pose proof (last_slash_ge (nd_path node) (length base) (length (nd_path node)) Hs ltac:(lia)) as Hge.
    destruct (Nat.eqb_spec (last_slash (nd_path node) (length (nd_path node))) 0); [lia|done].
Qed.

Lemma base_dirname base : vfs_path_valid base = true -> existsb (fun c => c =? SLASH) (tail base) = false -> dirname base = [SLASH].
Proof.
  intros Hv Hs. destruct base as [|c base]; [done|]. cbn [tail] in Hs.
  assert (c = SLASH) as ->. { unfold vfs_path_valid in Hv. change (str_get (c :: base) 0) with c in Hv. destruct (Z.eqb_spec c SLASH); [done|done]. }
  unfold dirname. rewrite last_slash_none; [done|]. intros k Hk Hc. apply (proj2 (not_true_iff_false _) Hs). apply existsb_exists.
  exists SLASH. split; [|apply Z.eqb_refl]. rewrite <-list_elem_of_In. unfold str_get in Hc. rewrite Nat2Z.id in Hc.
  destruct k as [|k]; [lia|]. cbn [lookup list_lookup] in Hc. destruct (base !! k) as [x|] eqn:E; [|done]. cbn in Hc. subst x.
  by eapply list_elem_of_lookup_2.
Qed.

Lemma mount_subtree_wf v fs : vfs_wf v -> vfs_wf (fst (vfs_mount_subtree v fs)).
Proof.
  intros Hwf. unfold vfs_mount_subtree. destruct (fs_nodes fs) as [|node0 rest] eqn:En; [done|].
  destruct (_ || _ || _ || _ || _ || _ || _) eqn:G; [done|]. do 6 (apply orb_false_iff in G as [G ?]). rewrite negb_false_iff in *.
  destruct (existsb _ _) eqn:Hsl; [done|]. destruct (subtree_ok _ _ _ _ _) eqn:Hok; [|done]. cbn [fst].
  assert (2 <= length (nd_path node0))%nat as Hb.
  { destruct (nd_path node0) as [|? [|? ?]]; cbn [length]; [done|done|lia]. }
  assert (forall i node, (node0 :: rest) !! i = Some node -> _) as Hf by (intros i node Hi;
    exact (subtree_node_facts v fs (nd_path node0) _ node Hwf Hb (subtree_nodes _ _ _ _ _ Hok i node Hi))). cbn [app] in Hf.
  destruct Hwf as [Hlim Hslots Hroot]. rewrite G in Hroot. destruct Hroot as [Hnd Hv Ht (r & Hr & Hrp & Hrt) Hp].
  assert (all_nodes (MkVfs (vs_root v) (vs_mounts v ++ [fs])) = all_nodes v ++ node0 :: rest) as Ea.
  { unfold all_nodes. cbn [vs_mounts]. rewrite fmap_app, join_app. cbn. by rewrite app_nil_r, En. }
  constructor; cbn [vs_root vs_mounts].
  - apply Forall_app. split; [done|]. apply Forall_singleton. unfold UTAMO_VFS_NODE_LIMIT in *. lia.
  - unfold mount_count in *. cbn [vs_mounts]. rewrite length_app. cbn [length]. lia.
  - rewrite Ea, G. constructor.
    + rewrite fmap_app. apply NoDup_app. split_and!; [done| |].
      * intros p Hin1 (n & -> & [i Hi]%list_elem_of_lookup)%list_elem_of_fmap. by destruct (Hf i n Hi) as (_ & ? & _).
      * apply NoDup_alt. intros i j p Hi Hj. rewrite list_lookup_fmap in Hi, Hj.
        destruct ((node0 :: rest) !! i) as [ni|] eqn:Ei; [|done]. destruct ((node0 :: rest) !! j) as [nj|] eqn:Ej; [|done]. cbn in Hi, Hj. injection Hi as <-. injection Hj as Hj.
        destruct (Nat.lt_trichotomy i j) as [Hlt|[?|Hlt]]; [|done|]; exfalso.
        -- destruct (Hf j nj Ej) as (_ & _ & Hn & _). apply Hn. rewrite Hj. apply list_elem_of_fmap_2.
           eapply list_elem_of_lookup_2. rewrite lookup_take_lt; [exact Ei|done].
        -- destruct (Hf i ni Ei) as (_ & _ & Hn & _). apply Hn. rewrite <-Hj. apply list_elem_of_fmap_2.
           eapply list_elem_of_lookup_2. rewrite lookup_take_lt; [exact Ej|done].
    + intros n [Hin|[i Hi]%list_elem_of_lookup]%elem_of_app; [by apply Hv|]. by destruct (Hf i n Hi) as (? & _).
    + intros n [Hin|[i Hi]%list_elem_of_lookup]%elem_of_app; [by apply Ht|]. by destruct (Hf i n Hi) as (_ & _ & _ & ? & _).
    + exists r. set_solver.
    + intros n [Hin|[[|i] Hi]%list_elem_of_lookup]%elem_of_app.
      * destruct (Hp n Hin) as [?|(d & Hd & ?)]; [by left|right; exists d; set_solver].
      * cbn in Hi. injection Hi as <-. right. exists r. split; [set_solver|]. by rewrite (base_dirname (nd_path node0)).
      * destruct (Hf (S i) n Hi) as (_ & _ & _ & _ & Hd). destruct (Hd ltac:(done)) as (d & Hdin & ?). right. exists d. rewrite En in Hdin. set_solver.
Qed.

Lemma mount_all_wf trees : forall v, vfs_wf v -> vfs_wf (foldl (fun v t => fst (vfs_mount_subtree v t)) v trees) /\
  vs_root (foldl (fun v t => fst (vfs_mount_subtree v t)) v trees) = vs_root v.
Proof.
  induction trees as [|t trees IH]; intros v Hwf; [done|]. cbn [foldl].
  destruct (IH (fst (vfs_mount_subtree v t)) (mount_subtree_wf v t Hwf)) as [Hw Hr]. split; [done|]. rewrite Hr.
  unfold vfs_mount_subtree. by repeat case_match.
Qed.

Lemma import_spec mem image size fs : 0 <= size -> ramfs_import (MkRamfs [] false) mem image size = (fs, true) ->
  image <> 0 /\ size <= UTAMO_INITRAMFS_LIMIT /\ fs_ready fs = true /\ parse mem image size = Parsed (fs_nodes fs) /\
  tree_wf (fs_nodes fs) /\ 0 < fs_count fs <= UTAMO_VFS_NODE_LIMIT /\ Forall (data_inside image size) (fs_nodes fs).
Proof.
  intros Hs. unfold ramfs_import. cbn [fs_ready fs_count fs_nodes length orb]. destruct (Z.eqb_spec image 0); [done|]. cbn [orb].
  destruct (Z.ltb_spec UTAMO_INITRAMFS_LIMIT size); [done|]. destruct (parse mem image size) as [nodes| |] eqn:E; [|done|done]. intros [= <-].
  cbn [fs_nodes fs_ready]. destruct (parse_spec mem image size ltac:(lia) (S (Z.to_nat (size / 110))) 0 [root_node] nodes ltac:(lia) root_tree) as (Hwf & Hlen & Hd);
    [by vm_compute|apply Forall_singleton; by left|exact E|]. split_and!; try done. destruct (tw_root _ Hwf) as (r & Hr & _).
  unfold fs_count. cbn [fs_nodes]. destruct nodes; [by apply elem_of_nil in Hr|]. cbn [length]. lia.
Qed.

Lemma import_refused mem image size fs : (size <= UTAMO_INITRAMFS_LIMIT -> parse mem image size <> OutOfSteps) ->
  ramfs_import (MkRamfs [] false) mem image size = (fs, false) ->
  fs = MkRamfs [] false /\ (image = 0 \/ UTAMO_INITRAMFS_LIMIT < size \/ parse mem image size = Refused).
Proof.
  intros Hend. unfold ramfs_import. cbn [fs_ready fs_count fs_nodes length orb]. destruct (Z.eqb_spec image 0); [intros [= <-]; auto|]. cbn [orb].
  destruct (Z.ltb_spec UTAMO_INITRAMFS_LIMIT size); [intros [= <-]; auto|]. destruct (parse mem image size); [done|intros [= <-]; auto|by destruct Hend].
Qed.

Lemma mounted_wf fs trees : fs_ready fs = true -> tree_wf (fs_nodes fs) -> 0 < fs_count fs <= UTAMO_VFS_NODE_LIMIT ->
  let v := foldl (fun v t => fst (vfs_mount_subtree v t)) (fst (vfs_mount_root (MkVfs false []) fs)) trees in vfs_wf v /\ vs_root v = true.
Proof.
  intros Hready Htree Hcount v. assert (vfs_wf (MkVfs false [])) as Hwf0 by (by constructor).
  destruct (mount_all_wf trees _ (mount_root_wf _ fs Hwf0 Htree)) as [Hwf Hr]. split; [done|]. unfold v. rewrite Hr.
  unfold vfs_mount_root. cbn [vs_root orb]. rewrite Hready. cbn [negb orb]. by rewrite (proj2 (Z.eqb_neq _ _)), (proj2 (Z.ltb_ge _ _)) by lia.
Qed.

(** ** Sequential reads *)

(** Reading a file with one call per element of [chunks]. *)
Fixpoint read_chunks (mem : memory) (file : vfs_file) (chunks : list Z) : option (vfs_file * list Z) :=
  match chunks with
  | [] => Some (file, [])
  | bytes :: chunks =>
      match vfs_read mem file bytes with
      | None => None
      | Some (file, data) =>
          match read_chunks mem file chunks with
          | None => None
          | Some (file, rest) => Some (file, data ++ rest)
          end
      end
  end.

Lemma read_chunks_spec mem node : u64_ok (nd_size node) -> forall chunks offset, Forall (fun b => u64_ok b) chunks -> 0 <= offset <= nd_size node ->
  let n := Z.min (foldr Z.add 0 chunks) (nd_size node - offset) in
  read_chunks mem (MkFile (Some node) offset) chunks = Some (MkFile (Some node) (offset + n), mem <$> seqZ (nd_data node + offset) n).
Proof.
  intros Hsz. unfold u64_ok in Hsz. induction chunks as [|b chunks IH]; intros offset Hc Ho; cbn [read_chunks foldr].
  - rewrite Z.min_l by lia. rewrite Z.add_0_r. by rewrite seqZ_nil by lia.
  - apply Forall_cons in Hc as [Hb Hc]. unfold u64_ok in Hb. unfold vfs_read. cbn [vf_node vf_offset].
    rewrite (proj2 (Z.ltb_ge _ _)) by lia. rewrite (u64_small (nd_size node - offset)) by (unfold u64_ok; lia).
    set (k := if b <? nd_size node - offset then b else nd_size node - offset).
    assert (k = Z.min b (nd_size node - offset)) as Ek by (unfold k; destruct (Z.ltb_spec b (nd_size node - offset)); lia). clearbody k.
    rewrite (u64_small (offset + k)) by (unfold u64_ok; lia). rewrite IH by (done || lia).
    assert (0 <= foldr Z.add 0 chunks) as Hnn by (clear -Hc; induction Hc as [|x l [Hx _] _ IH]; cbn [foldr]; lia).
    rewrite <-fmap_app. set (r := Z.min (foldr Z.add 0 chunks) (nd_size node - (offset + k))).
    assert (Z.min (b + foldr Z.add 0 chunks) (nd_size node - offset) = k + r) as -> by (unfold r; lia).
    rewrite (seqZ_app _ k r) by (unfold r; lia). do 3 f_equal; [lia|]. do 2 f_equal. lia.
Qed.

(** ** The theorems *)

(** [vfs_path_valid] accepts exactly the canonical absolute paths of at most
    127 bytes: the root, and the joins of non-empty components of printable
    characters without slash or backslash, none of them "." or "..". *)
Theorem vfs_path_valid_exact (path : list Z) (Hpath : Forall (fun c => c <> 0) path) :
  vfs_path_valid path = true <->
  str_length path < UTAMO_VFS_PATH_MAX /\ (path = [SLASH] \/ exists parts, parts <> [] /\ Forall component parts /\ path = join parts).
Proof. by apply path_valid_spec. Qed.

Lemma vfs_path_valid_exact_witness :
  Forall (fun c => c <> 0) [47; 98] /\
  (vfs_path_valid [47; 98] = true <->
   str_length [47; 98] < UTAMO_VFS_PATH_MAX /\ ([47; 98] = [SLASH] \/ exists parts, parts <> [] /\ Forall component parts /\ [47; 98] = join parts)).
Proof.
  assert (Forall (fun c => c <> 0) [47; 98]) as Hz by (repeat constructor; lia). split; [exact Hz|]. apply (vfs_path_valid_exact [47; 98] Hz).
Defined.

(** C27. The import of an archive ends, and the name space stays a tree.  For any
    bytes, the step bound of the parser's loop suffices: within it an archive is
    accepted or refused.  A refused one leaves no file system.  After an accepted
    one has been mounted as the root, and any trees have been offered as further
    mounts, all nodes together have valid and unique paths and a directory as
    parent; lookup finds exactly the node with the path; and the file data of
    the archive lies inside the archive. *)
Theorem vfs_namespace_consistent (mem : memory) (image size : Z) (trees : list ramfs) (Hsize : 0 <= size) :
  (size <= UTAMO_INITRAMFS_LIMIT -> parse mem image size <> OutOfSteps) /\
  let (fs, ok) := ramfs_import (MkRamfs [] false) mem image size in
  if ok then
    image <> 0 /\ size <= UTAMO_INITRAMFS_LIMIT /\ parse mem image size = Parsed (fs_nodes fs) /\
    let v := foldl (fun v t => fst (vfs_mount_subtree v t)) (fst (vfs_mount_root (MkVfs false []) fs)) trees in
    tree_wf (all_nodes v) /\ mount_count v <= 4 /\ Forall (data_inside image size) (fs_nodes fs) /\
    forall path n, vfs_path_valid path = true -> vfs_lookup v path = Some n <-> n ∈ all_nodes v /\ nd_path n = path
  else fs = MkRamfs [] false /\ (image = 0 \/ UTAMO_INITRAMFS_LIMIT < size \/ parse mem image size = Refused).
Proof.
  assert (size <= UTAMO_INITRAMFS_LIMIT -> parse mem image size <> OutOfSteps) as Hend.
  { intros Hlim. apply (parse_fuel mem image size ltac:(lia) (S (Z.to_nat (size / 110))) (S (Z.to_nat (size / 110)))); rewrite ?Z.sub_0_r; lia. }
  split; [done|]. pose proof (import_spec mem image size) as Hi. pose proof (import_refused mem image size) as Hr.
  destruct (ramfs_import (MkRamfs [] false) mem image size) as [fs [|]]; [|by apply Hr]. destruct (Hi fs Hsize eq_refl) as (Himg & Hlim & Hready & Hparse & Htree & Hcount & Hdata).
  split_and!; [done|done|done|]. intros v. pose proof (mounted_wf fs trees Hready Htree Hcount) as [Hwf Hroot]. fold v in Hwf, Hroot.
  pose proof (vw_tree _ Hwf) as Ht. rewrite Hroot in Ht. split_and!; [done|apply Hwf|done|by intros; apply vfs_lookup_spec].
Qed.

(** Listing is exact: counting up from zero, [vfs_child] returns every node
    whose directory is the given one, each exactly once, and no other. *)
Theorem vfs_listing_exact (v : vfs_state) (d : vfs_node) (Hwf : vfs_wf v) (Hd : d ∈ all_nodes v) (Hdir : nd_type d = UTAMO_VFS_DIRECTORY)
    (Hstr : Forall (fun n => Forall (fun c => c <> 0) (nd_path n)) (all_nodes v)) :
  (forall n, n ∈ all_nodes v -> nd_path n <> [SLASH] ->
     (exists i, 0 <= i /\ vfs_child v (nd_path d) i = Some n) <-> dirname (nd_path n) = nd_path d) /\
  (forall i j n, 0 <= i -> 0 <= j -> vfs_child v (nd_path d) i = Some n -> vfs_child v (nd_path d) j = Some n -> i = j).
Proof.
  assert (vs_root v = true) as Hr.
  { destruct (vs_root v) eqn:E; [done|]. pose proof (vw_tree _ Hwf) as Ht. rewrite E in Ht. unfold all_nodes in Hd. rewrite Ht in Hd. by apply elem_of_nil in Hd. }
  pose proof (vw_tree _ Hwf) as Ht. rewrite Hr in Ht. pose proof (tw_valid _ Ht d Hd) as Hvd.
  assert (forall i, vfs_child v (nd_path d) i = filter (fun n => is_child (nd_path d) (nd_path n) = true) (all_nodes v) !! Z.to_nat i) as Hc.
  { intros i. unfold vfs_child. rewrite (proj2 (vfs_lookup_spec v (nd_path d) d Hwf Hvd)) by done. rewrite Hdir. cbn [negb Z.eqb Pos.eqb].
    apply child_mounts_filter. }
  split.
  - intros n Hn Hnr. rewrite <-(is_child_dirname (nd_path d) (nd_path n)); [|by eapply Forall_forall in Hstr..|done|by apply (tw_valid _ Ht)|done].
    split.
    + intros (i & _ & E). rewrite Hc in E. by apply list_elem_of_lookup_2, list_elem_of_filter in E as [? _].
    + intros E. assert (n ∈ filter (fun n => is_child (nd_path d) (nd_path n) = true) (all_nodes v)) as [i Hi]%list_elem_of_lookup
        by (by apply list_elem_of_filter). exists (Z.of_nat i). split; [lia|]. by rewrite Hc, Nat2Z.id.
  - intros i j n Hi Hj Ei Ej. rewrite Hc in Ei, Ej. assert (NoDup (all_nodes v)) as Hnd by (eapply NoDup_fmap_1; apply Ht).
    pose proof (NoDup_lookup _ _ _ _ (NoDup_filter _ _ Hnd) Ei Ej). lia.
Qed.

(** Reads are sequential: a freshly opened file read with any sequence of
    buffer sizes yields consecutive pieces whose concatenation is the
    beginning of the file, all of it once the sizes add up to the file size. *)
Theorem vfs_read_sequential (mem : memory) (v : vfs_state) (path : list Z) (file : vfs_file) (chunks : list Z)
    (Hopen : vfs_open v path (MkFile None 0) = (file, true)) (Hchunks : Forall (fun b => u64_ok b) chunks)
    (Hsizes : Forall (fun n => u64_ok (nd_size n)) (all_nodes v)) :
  exists node, node ∈ all_nodes v /\ nd_path node = path /\ nd_type node = UTAMO_VFS_FILE /\
    let n := Z.min (foldr Z.add 0 chunks) (nd_size node) in
    read_chunks mem file chunks = Some (MkFile (Some node) n, mem <$> seqZ (nd_data node) n).
Proof.
  unfold vfs_open in Hopen. cbn [vf_node] in Hopen. destruct (vfs_lookup v path) as [node|] eqn:El; [|done].
  destruct (Z.eqb_spec (nd_type node) UTAMO_VFS_FILE) as [Ht|]; cbn [negb] in Hopen; [|done]. injection Hopen as <-.
  apply lookup_mounts_some in El as [Hin Hp]. exists node. split_and!; try done. cbv zeta.
  assert (u64_ok (nd_size node)) as Hs by (by eapply Forall_forall in Hsizes).
  rewrite (read_chunks_spec mem node Hs chunks 0 Hchunks) by (unfold u64_ok in Hs; lia). by rewrite Z.sub_0_r, Z.add_0_l, Z.add_0_r.
Qed.

(** ** A concrete archive and a second tree *)

Definition ex_hex (value : Z) : list Z :=
  (fun i => let d := Z.shiftr value (4 * (7 - i)) mod 16 in if d <? 10 then 48 + d else 87 + d) <$> seqZ 0 8.
Definition ex_pad (l : list Z) : list Z := l ++ replicate (Z.to_nat ((- Z.of_nat (length l)) mod 4)) 0.
Definition ex_entry (mode nlink : Z) (name data : list Z) : list Z :=
  ex_pad (ex_pad (MAGIC ++ mjoin (ex_hex <$> [0; mode; 0; 0; nlink; 0; Z.of_nat (length data); 0; 0; 0; 0; Z.of_nat (length name) + 1; 0])
    ++ name ++ [0]) ++ data).
Definition ex_archive : list Z :=
  ex_entry 0x41ed 2 [98] [] ++ ex_entry 0x81a4 1 [98; 47; 97] [104; 105; 33] ++ ex_entry 0 0 [84; 82; 65; 73; 76; 69; 82; 33; 33; 33] [].
Definition ex_archive_mem : memory := fun x => arr_get ex_archive (x - 4096).
Definition ex_archive_size : Z := Z.of_nat (length ex_archive).
Definition ex_ramfs : ramfs := fst (ramfs_import (MkRamfs [] false) ex_archive_mem 4096 ex_archive_size).
Definition ex_tree : ramfs :=
  MkRamfs [MkNode [47; 100] 0 0 UTAMO_VFS_DIRECTORY 0; MkNode [47; 100; 47; 102] 1 1 UTAMO_VFS_FILE 0] true.
Definition ex_vfs : vfs_state :=
  foldl (fun v t => fst (vfs_mount_subtree v t)) (fst (vfs_mount_root (MkVfs false []) ex_ramfs)) [ex_tree].

Lemma ex_import : ramfs_import (MkRamfs [] false) ex_archive_mem 4096 ex_archive_size = (ex_ramfs, true).
Proof. vm_compute. reflexivity. Qed.

Lemma ex_vfs_wf : vfs_wf ex_vfs.
Proof.
  destruct (import_spec ex_archive_mem 4096 ex_archive_size ex_ramfs ltac:(vm_compute; discriminate) ex_import) as (_ & _ & _ & _ & Ht & _).
  apply mount_all_wf, mount_root_wf; [by constructor|done].
Qed.

(** The archive is accepted, and refused when its trailer is cut off. *)
Lemma vfs_namespace_consistent_witness :
  length (all_nodes ex_vfs) = 5%nat /\ tree_wf (all_nodes ex_vfs) /\ Forall (data_inside 4096 ex_archive_size) (fs_nodes ex_ramfs) /\
  parse ex_archive_mem 4096 (ex_archive_size - 100) = Refused.
Proof.
  split; [vm_compute; reflexivity|].
  pose proof (vfs_namespace_consistent ex_archive_mem 4096 ex_archive_size [ex_tree] ltac:(vm_compute; discriminate)) as [_ H].
  rewrite ex_import in H. destruct H as (_ & _ & _ & Ht & _ & Hd & _). split; [exact Ht|split; [exact Hd|vm_compute; reflexivity]].
Defined.

Definition ex_dir : vfs_node := MkNode [47; 98] 4208 0 UTAMO_VFS_DIRECTORY 0x1ed.

Lemma vfs_listing_exact_witness :
  (nd_path <$> vfs_child ex_vfs (nd_path ex_dir) 0) = Some [47; 98; 47; 97] /\
  forall i j n, 0 <= i -> 0 <= j -> vfs_child ex_vfs (nd_path ex_dir) i = Some n -> vfs_child ex_vfs (nd_path ex_dir) j = Some n -> i = j.
Proof.
  split; [vm_compute; reflexivity|].
  refine (proj2 (vfs_listing_exact ex_vfs ex_dir ex_vfs_wf _ eq_refl _)).
  - apply list_elem_of_lookup. exists 1%nat. vm_compute. reflexivity.
  - vm_compute. repeat constructor; discriminate.
Defined.

Definition ex_file : vfs_file := fst (vfs_open ex_vfs [47; 98; 47; 97] (MkFile None 0)).

Lemma ex_open : vfs_open ex_vfs [47; 98; 47; 97] (MkFile None 0) = (ex_file, true).
Proof. vm_compute. reflexivity. Qed.

Lemma ex_sizes : Forall (fun n => u64_ok (nd_size n)) (all_nodes ex_vfs).
Proof.
  assert (forallb (fun n => (0 <=? nd_size n) && (nd_size n <=? 4096)) (all_nodes ex_vfs) = true) as Hb by (vm_compute; reflexivity).
  apply Forall_forall. intros n Hn%list_elem_of_In. pose proof (proj1 (forallb_forall _ _) Hb n Hn) as Hx. cbn beta in Hx.
  unfold u64_ok, UINT64_MAX. lia.
Qed.

Lemma vfs_read_sequential_witness :
  exists node, node ∈ all_nodes ex_vfs /\ nd_path node = [47; 98; 47; 97] /\ nd_type node = UTAMO_VFS_FILE /\
    let n := Z.min (foldr Z.add 0 [2; 9]) (nd_size node) in
    read_chunks ex_archive_mem ex_file [2; 9] = Some (MkFile (Some node) n, ex_archive_mem <$> seqZ (nd_data node) n).
Proof.
  refine (vfs_read_sequential ex_archive_mem ex_vfs [47; 98; 47; 97] ex_file [2; 9] ex_open _ ex_sizes).
  repeat constructor; vm_compute; discriminate.
Defined.
