(* ===== verification/Fat32.v ===== *)
(** * The FAT32 importer (kernel/fs/fat32.c, kernel/drivers/block.c): definitions

    The device and the allocator are callbacks: [bd_read] with a context of
    type [D], and a [ByteStore] for the buffers.  Operations return the state
    and [None] where the code returns [false]; the state is kept, since
    [fat32_discard] releases what was built so far.  A [struct vfs_node *] into
    the tree is an index. *)

From S2P Require Import Prelude Bytes Vfs.
Open Scope Z_scope.

Definition UTAMO_FAT32_CACHE_MAX : Z := 4 * 1024 * 1024.
Definition UTAMO_FAT32_FILE_MAX : Z := 1024 * 1024.
Definition UTAMO_FAT32_CLUSTER_MAX : Z := 1048576.

(** ** The structures *)

Record block_device (D : Type) := MkBlockDevice {
  bd_sectors : Z;
  bd_sector_size : Z;
  bd_read : D -> Z -> Z -> D * option (list Z)
}.
Arguments MkBlockDevice {D}.
Arguments bd_sectors {D}.
Arguments bd_sector_size {D}.
Arguments bd_read {D}.

Definition block_read {D} (device : block_device D) (context : D) (lba count : Z) : D * option (list Z) :=
  if negb (count =? 0) && negb (bd_sector_size device =? 0) && (count <=? SIZE_MAX / bd_sector_size device) &&
     (lba <? bd_sectors device) && (count <=? bd_sectors device - lba)
  then bd_read device context lba count
  else (context, None).

(** The fields of [struct fat32] that [fat32_import] reads from the boot sector. *)
Record fat_geometry := MkGeo {
  g_clusters : Z;
  g_fat_start : Z;
  g_fat_sectors : Z;
  g_data_start : Z;
  g_root_cluster : Z;
  g_sectors_per_cluster : Z;
  g_fats : Z;
  g_active_fat : Z;
  g_mirrored : bool
}.

(** [struct fat32]; [ft_device] and [ft_memory] say that the pointers are set. *)
Record fat32 := MkFat32 {
  ft_tree : ramfs;
  ft_device : bool;
  ft_memory : bool;
  ft_claimed : Z;
  ft_geo : fat_geometry;
  ft_cached_sector : Z;
  ft_visited : Z;
  ft_reads : Z;
  ft_cached_bytes : Z;
  ft_cache_valid : bool;
  ft_fat_cache : list Z
}.
Definition geo_zero : fat_geometry := MkGeo 0 0 0 0 0 0 0 0 false.
Definition fat32_zero : fat32 := MkFat32 (MkRamfs [] false) false false 0 geo_zero 0 0 0 0 false (replicate 512 0).

Definition set_nodes (nodes : list vfs_node) (fs : fat32) : fat32 :=
  MkFat32 (MkRamfs nodes (fs_ready (ft_tree fs))) (ft_device fs) (ft_memory fs) (ft_claimed fs) (ft_geo fs) (ft_cached_sector fs)
    (ft_visited fs) (ft_reads fs) (ft_cached_bytes fs) (ft_cache_valid fs) (ft_fat_cache fs).
Definition set_ready (fs : fat32) : fat32 :=
  MkFat32 (MkRamfs (fs_nodes (ft_tree fs)) true) (ft_device fs) (ft_memory fs) (ft_claimed fs) (ft_geo fs) (ft_cached_sector fs)
    (ft_visited fs) (ft_reads fs) (ft_cached_bytes fs) (ft_cache_valid fs) (ft_fat_cache fs).
Definition set_bound (fs : fat32) : fat32 :=
  MkFat32 (ft_tree fs) true true (ft_claimed fs) (ft_geo fs) (ft_cached_sector fs)
    (ft_visited fs) (ft_reads fs) (ft_cached_bytes fs) (ft_cache_valid fs) (ft_fat_cache fs).
Definition set_claimed (p : Z) (fs : fat32) : fat32 :=
  MkFat32 (ft_tree fs) (ft_device fs) (ft_memory fs) p (ft_geo fs) (ft_cached_sector fs)
    (ft_visited fs) (ft_reads fs) (ft_cached_bytes fs) (ft_cache_valid fs) (ft_fat_cache fs).
Definition set_geo (g : fat_geometry) (fs : fat32) : fat32 :=
  MkFat32 (ft_tree fs) (ft_device fs) (ft_memory fs) (ft_claimed fs) g (ft_cached_sector fs)
    (ft_visited fs) (ft_reads fs) (ft_cached_bytes fs) (ft_cache_valid fs) (ft_fat_cache fs).
Definition set_cache (data : list Z) (fs : fat32) : fat32 :=
  MkFat32 (ft_tree fs) (ft_device fs) (ft_memory fs) (ft_claimed fs) (ft_geo fs) (ft_cached_sector fs)
    (ft_visited fs) (ft_reads fs) (ft_cached_bytes fs) (ft_cache_valid fs) data.
Definition set_cached_sector (i : Z) (fs : fat32) : fat32 :=
  MkFat32 (ft_tree fs) (ft_device fs) (ft_memory fs) (ft_claimed fs) (ft_geo fs) i
    (ft_visited fs) (ft_reads fs) (ft_cached_bytes fs) true (ft_fat_cache fs).
Definition set_visited (n : Z) (fs : fat32) : fat32 :=
  MkFat32 (ft_tree fs) (ft_device fs) (ft_memory fs) (ft_claimed fs) (ft_geo fs) (ft_cached_sector fs)
    n (ft_reads fs) (ft_cached_bytes fs) (ft_cache_valid fs) (ft_fat_cache fs).
Definition set_reads (n : Z) (fs : fat32) : fat32 :=
  MkFat32 (ft_tree fs) (ft_device fs) (ft_memory fs) (ft_claimed fs) (ft_geo fs) (ft_cached_sector fs)
    (ft_visited fs) n (ft_cached_bytes fs) (ft_cache_valid fs) (ft_fat_cache fs).
Definition set_cached_bytes (n : Z) (fs : fat32) : fat32 :=
  MkFat32 (ft_tree fs) (ft_device fs) (ft_memory fs) (ft_claimed fs) (ft_geo fs) (ft_cached_sector fs)
    (ft_visited fs) (ft_reads fs) n (ft_cache_valid fs) (ft_fat_cache fs).

(** ** Pure helpers *)

Definition get16 (p : list Z) (i : Z) : Z := u16 (Z.lor (byte_of p i) (u16 (Z.shiftl (byte_of p (i + 1)) 8))).
Definition get32 (p : list Z) (i : Z) : Z := Z.lor (get16 p i) (u32 (Z.shiftl (get16 p (i + 2)) 16)).

Definition valid_cluster (g : fat_geometry) (cluster : Z) : bool := (2 <=? cluster) && (cluster - 2 <? g_clusters g).
Definition cluster_lba (g : fat_geometry) (cluster : Z) : Z :=
  g_data_start g +u (u32 (cluster - 2) *u g_sectors_per_cluster g).

(** The characters short names may not have. *)
Definition name_char_bad (c : Z) : bool :=
  (c <? 33) || (126 <? c) || existsb (Z.eqb c) [34; 42; 43; 44; 46; 47; 58; 59; 60; 61; 62; 63; 91; 92; 93; 124].

Fixpoint name_part (raw : list Z) (part : Z) (steps : nat) (i : Z) (padding wrote : bool) (out : cstring) : option (bool * cstring) :=
  match steps with
  | O => Some (wrote, out)
  | S steps =>
      let c := byte_of raw i in
      if c =? 32 then name_part raw part steps (i + 1) true wrote out
      else if padding || name_char_bad c then None
      else
        let out := if (part =? 1) && negb wrote then out ++ [46] else out in
        name_part raw part steps (i + 1) padding true (out ++ [if (97 <=? c) && (c <=? 122) then c - (97 - 65) else c])
  end.

Definition short_name (raw : list Z) : option cstring :=
  match name_part raw 0 8 0 false false [] with
  | None => None
  | Some (wrote, out) =>
      if negb wrote then None
      else match name_part raw 1 3 8 false false out with
      | None => None
      | Some (_, out) => Some out
      end
  end.

(** ** The importer *)

Record fstate (A D : Type) := MkFs { fx : fat32; fx_store : A; fx_dev : D }.
Arguments MkFs {A D}.
Arguments fx {A D}.
Arguments fx_store {A D}.
Arguments fx_dev {A D}.

Definition FatM (A D X : Type) : Type := fstate A D -> fstate A D * option X.
#[export] Instance fat_ret A D : MRet (FatM A D) := fun X x s => (s, Some x).
#[export] Instance fat_bind A D : MBind (FatM A D) := fun X Y k m s =>
  let (s', r) := m s in match r with Some x => k x s' | None => (s', None) end.
Definition fail {A D X} : FatM A D X := fun s => (s, None).
Definition get {A D} : FatM A D fat32 := fun s => (s, Some (fx s)).
Definition modify {A D} (f : fat32 -> fat32) : FatM A D unit := fun s => (MkFs (f (fx s)) (fx_store s) (fx_dev s), Some tt).
Definition check {A D} (b : bool) : FatM A D unit := if b then mret tt else fail.

Section fat32.
Context {A D : Type} `{ByteStore A} (device : block_device D).
Notation M := (FatM A D).

Definition alloc (bytes : Z) : M Z := fun s =>
  let (a, p) := st_alloc (fx_store s) bytes in (MkFs (fx s) a (fx_dev s), Some p).
Definition release (p : Z) : M unit := fun s => (MkFs (fx s) (st_free (fx_store s) p) (fx_dev s), Some tt).
Definition load (p : Z) : M Z := fun s => (s, Some (u8 (st_mem (fx_store s) p))).
Definition store (p : Z) (v : list Z) : M unit := fun s => (MkFs (fx s) (st_write (fx_store s) p v) (fx_dev s), Some tt).

Definition device_read (lba : Z) : M (list Z) := fun s =>
  let (d, r) := block_read device (fx_dev s) lba 1 in (MkFs (fx s) (fx_store s) d, r).

Definition sector (lba : Z) : M (list Z) :=
  fs ← get;
  let reads := u32 (ft_reads fs + 1) in
  modify (set_reads reads);;
  check (negb (65536 <? reads));;
  device_read lba.

(** The part of [entry] that fills the one-sector cache of the FAT. *)
Definition fill_cache (relative : Z) : M unit :=
  fs ← get;
  let g := ft_geo fs in
  if negb (ft_cache_valid fs) || negb (ft_cached_sector fs =? relative) then
    data ← sector (g_fat_start g +u (g_active_fat g *u g_fat_sectors g) +u relative);
    modify (set_cache data);;
    (if g_mirrored g && (g_fats g =? 2) then
       mirror ← sector (g_fat_start g +u g_fat_sectors g +u relative);
       check (bool_decide (mirror = data))
     else mret tt);;
    modify (set_cached_sector relative)
  else mret tt.

Definition entry (cluster : Z) : M Z :=
  fs ← get;
  let relative := cluster / 128 in
  check (negb (g_fat_sectors (ft_geo fs) <=? relative));;
  fill_cache relative;;
  fs ← get;
  mret (Z.land (get32 (ft_fat_cache fs) (cluster mod 128 * 4)) 0x0fffffff).

Definition claim (cluster : Z) : M unit :=
  fs ← get;
  check (valid_cluster (ft_geo fs) cluster);;
  let visited := u32 (ft_visited fs + 1) in
  modify (set_visited visited);;
  check (negb (16384 <? visited));;
  let index := cluster - 2 in
  let bit := u8 (Z.shiftl 1 (Z.land index 7)) in
  old ← load (ft_claimed fs + index / 8);
  check (Z.land old bit =? 0);;
  store (ft_claimed fs + index / 8) [Z.lor old bit].

(** The loop of [read_file] over the sectors of a cluster; returns [copied]. *)
Fixpoint file_sectors (steps : nat) (data size cluster i copied : Z) : M Z :=
  match steps with
  | O => mret copied
  | S steps =>
      if copied <? size then
        fs ← get;
        block ← sector (cluster_lba (ft_geo fs) cluster +u i);
        let left := size - copied in
        let bytes := if left <? 512 then left else 512 in
        store (data + copied) (take (Z.to_nat bytes) block);;
        file_sectors steps data size cluster (i + 1) (copied + bytes)
      else mret copied
  end.

Fixpoint file_clusters (n : nat) (data size cluster copied : Z) : M unit :=
  match n with
  | O => fail
  | S n =>
      claim cluster;;
      fs ← get;
      copied ← file_sectors (Z.to_nat (g_sectors_per_cluster (ft_geo fs))) data size cluster 0 copied;
      next ← entry cluster;
      if copied =? size then check (0x0ffffff8 <=? next)
      else check (valid_cluster (ft_geo fs) next);; file_clusters n data size next copied
  end.

Definition set_node_data (index : nat) (p : Z) (nodes : list vfs_node) : list vfs_node :=
  alter (fun n => MkNode (nd_path n) p (nd_size n) (nd_type n) (nd_mode n)) index nodes.

Definition read_file (n : nat) (index : nat) (size cluster : Z) : M unit :=
  if size =? 0 then check (cluster =? 0)
  else
    fs ← get;
    check (negb ((UTAMO_FAT32_FILE_MAX <? size) || (UTAMO_FAT32_CACHE_MAX -u ft_cached_bytes fs <? size)));;
    data ← alloc size;
    check (negb (data =? 0));;
    modify (fun fs => set_cached_bytes (ft_cached_bytes fs +u size) (set_nodes (set_node_data index data (fs_nodes (ft_tree fs))) fs));;
    file_clusters n data size cluster 0.

(** ** Directories

    [descend child parent path] stands for the recursive call of [directory]. *)

Definition child_of (e : list Z) : Z := Z.lor (get16 e 26) (u32 (Z.shiftl (get16 e 20) 16)).
Definition is_dir (e : list Z) : bool := negb (Z.land (byte_of e 11) 16 =? 0).
Definition DOT : list Z := 46 :: replicate 10 32.
Definition DOTDOT : list Z := 46 :: 46 :: replicate 9 32.
Definition name_bytes (e : list Z) : list Z := byte_of e <$> seqZ 0 11.

(** An entry that names a file or a directory. *)
Definition add_entry (n : nat) (descend : Z -> Z -> cstring -> M unit) (first : Z) (path : cstring) (e : list Z) : M unit :=
  let child := child_of e in
  let size := get32 e 28 in
  let dir := is_dir e in
  match short_name e with
  | None => fail
  | Some name =>
      fs ← get;
      let nodes := fs_nodes (ft_tree fs) in
      check (negb ((fs_count (ft_tree fs) =? UTAMO_VFS_NODE_LIMIT) || (dir && negb (size =? 0))));;
      check (negb (UTAMO_VFS_PATH_MAX <=? str_length path + 1 + str_length name));;
      let node_path := path ++ SLASH :: name in
      check (vfs_path_valid node_path && negb (bool_decide (is_Some (ramfs_lookup (ft_tree fs) node_path))));;
      let node := MkNode node_path 0 size (if dir then UTAMO_VFS_DIRECTORY else UTAMO_VFS_FILE) (if dir then 0x416d else 0x8124) in
      modify (set_nodes (nodes ++ [node]));;
      if dir then descend child (if first =? g_root_cluster (ft_geo fs) then 0 else first) node_path
      else read_file n (length nodes) size child
  end.

(** One turn of the loop over the entries; [true] at the end of the directory. *)
Definition dir_entry (n : nat) (descend : Z -> Z -> cstring -> M unit) (first parent : Z) (path : cstring) (e : list Z) : M bool :=
  let attr := byte_of e 11 in
  if byte_of e 0 =? 0 then mret true
  else if (byte_of e 0 =? 0xe5) || (attr =? 0x0f) then mret false
  else if negb (Z.land attr 0xc0 =? 0) then fail
  else if negb (Z.land attr 8 =? 0) then (if negb (Z.land attr 16 =? 0) then fail else mret false)
  else if byte_of e 0 =? 46 then
    let dot := bool_decide (name_bytes e = DOT) in
    let dotdot := bool_decide (name_bytes e = DOTDOT) in
    let expected := if dot then first else parent in
    check (negb ((negb dot && negb dotdot) || negb (is_dir e) || negb (get32 e 28 =? 0) || negb (child_of e =? expected)));;
    mret false
  else add_entry n descend first path e;; mret false.

Fixpoint dir_entries (n : nat) (descend : Z -> Z -> cstring -> M unit) (first parent : Z) (path : cstring) (entries : list (list Z)) : M bool :=
  match entries with
  | [] => mret false
  | e :: entries =>
      ended ← dir_entry n descend first parent path e;
      if (ended : bool) then mret true else dir_entries n descend first parent path entries
  end.

(** [data + i] for [i = 0, 32, ..., 480]. *)
Definition entries_of (data : list Z) : list (list Z) := (fun i => take 32 (drop (32 * i) data)) <$> seq 0 16.

Fixpoint dir_sectors (steps n : nat) (descend : Z -> Z -> cstring -> M unit) (first parent : Z) (path : cstring) (cluster s : Z)
    (ended : bool) : M bool :=
  match steps with
  | O => mret ended
  | S steps =>
      if ended then mret ended
      else
        fs ← get;
        data ← sector (cluster_lba (ft_geo fs) cluster +u s);
        ended ← dir_entries n descend first parent path (entries_of data);
        dir_sectors steps n descend first parent path cluster (s + 1) ended
  end.

(** [directory] from the check of [depth] on is [dir_clusters] at [cluster = first];
    every turn of its loop claims a cluster, which bounds the turns. *)
Fixpoint dir_clusters (n : nat) (depth first parent : Z) (path : cstring) (cluster : Z) (ended : bool) : M unit :=
  match n with
  | O => fail
  | S n =>
      let descend child parent path :=
        if 8 <? depth + 1 then fail else dir_clusters n (depth + 1) child parent path child false in
      claim cluster;;
      fs ← get;
      ended ← dir_sectors (Z.to_nat (g_sectors_per_cluster (ft_geo fs))) n descend first parent path cluster 0 ended;
      next ← entry cluster;
      if 0x0ffffff8 <=? next then mret tt
      else check (valid_cluster (ft_geo fs) next);; dir_clusters n depth first parent path next ended
  end.
Definition directory (n : nat) (cluster parent : Z) (path : cstring) (depth : Z) : M unit :=
  if 8 <? depth then fail else dir_clusters n depth cluster parent path cluster false.

(** ** Import and discard *)

Definition fat32_discard (s : fstate A D) : fstate A D :=
  let fs := fx s in
  let a :=
    if ft_memory fs then
      let a := foldl (fun a node => if negb (nd_data node =? 0) then st_free a (nd_data node) else a)
                 (fx_store s) (fs_nodes (ft_tree fs)) in
      if negb (ft_claimed fs =? 0) then st_free a (ft_claimed fs) else a
    else fx_store s in
  MkFs fat32_zero a (fx_dev s).

(** The boot sector: [None] when it is rejected. *)
Definition boot_geometry (boot : list Z) : option fat_geometry :=
  let reserved := get16 boot 14 in
  let flags := get16 boot 40 in
  let total := get32 boot 32 in
  let fat_size := get32 boot 36 in
  let spc := byte_of boot 13 in
  let fats := byte_of boot 16 in
  let overhead := reserved +u (fats *u fat_size) in
  if negb (byte_of boot 510 =? 0x55) || negb (byte_of boot 511 =? 0xaa) || negb (get16 boot 11 =? 512) ||
     (spc =? 0) || (128 <? spc) || negb (Z.land spc (spc - 1) =? 0) || (reserved =? 0) ||
     (negb (fats =? 1) && negb (fats =? 2)) || negb (get16 boot 17 =? 0) ||
     negb (get16 boot 19 =? 0) || negb (get16 boot 22 =? 0) || negb (get16 boot 42 =? 0) ||
     negb (get32 boot 28 =? 0) || (byte_of boot 21 <? 0xf0) || (fat_size =? 0) ||
     (total <=? overhead) || (bd_sectors device <? total) || negb (Z.land flags 0xff70 =? 0)
  then None
  else
    let clusters := u32 ((total - overhead) / spc) in
    if (clusters <? 65525) || (UTAMO_FAT32_CLUSTER_MAX <? clusters) || (fat_size * 128 <? clusters + 2) then None
    else
      let mirrored := Z.land flags 0x80 =? 0 in
      let active_fat := if mirrored then 0 else Z.land flags 15 in
      if fats <=? active_fat then None
      else Some (MkGeo clusters reserved fat_size (u32 overhead) (get32 boot 44) spc fats active_fat mirrored).

Definition disk_node : vfs_node := MkNode [47; 100; 105; 115; 107] 0 0 UTAMO_VFS_DIRECTORY 0x416d.

(** The body of [fat32_import] up to the label [fail]. *)
Definition import_body (n : nat) : M unit :=
  modify set_bound;;
  boot ← sector 0;
  match boot_geometry boot with
  | None => fail
  | Some g =>
      modify (set_geo g);;
      check (valid_cluster g (g_root_cluster g));;
      first ← entry 0;
      second ← entry 1;
      check ((first =? Z.lor 0x0fffff00 (byte_of boot 21)) && negb (second <? 0x0ffffff8));;
      let bitmap := (g_clusters g + 7) / 8 in
      claimed ← alloc bitmap;
      modify (set_claimed claimed);;
      check (negb (claimed =? 0));;
      store claimed (replicate (Z.to_nat bitmap) 0);;
      modify (set_nodes [disk_node]);;
      directory n (g_root_cluster g) 0 (nd_path disk_node) 0;;
      fs ← get;
      release (ft_claimed fs);;
      modify (set_claimed 0);;
      modify set_ready
  end.

(** A walk claims at most 16384 clusters. *)
Definition WALK_STEPS : nat := Z.to_nat 16385.

Definition fat32_import_with (n : nat) (s : fstate A D) : fstate A D * bool :=
  let fs := fx s in
  if negb (fs_count (ft_tree fs) =? 0) || fs_ready (ft_tree fs) || ft_device fs || negb (bd_sector_size device =? 512) then (s, false)
  else match import_body n s with
  | (s', Some _) => (s', true)
  | (s', None) => (fat32_discard s', false)
  end.
Definition fat32_import (s : fstate A D) : fstate A D * bool := fat32_import_with WALK_STEPS s.
End fat32.
