(* ===== verification/Fat32Read.v ===== *)
(** * FAT32: what a volume says, and the rules for reasoning about the importer

    [listing] reads a directory off a disk image: the entries of the chain of
    its clusters, in order, with files as the bytes of their chains and
    subdirectories in place.  It also collects the clusters that are used. *)

From stdpp Require Import gmap.
From S2P Require Import Prelude Bytes Vfs Fat32.
Open Scope Z_scope.

Record anode := MkAnode { an_path : cstring; an_dir : bool; an_size : Z; an_data : list Z }.

Section spec.
Context (g : fat_geometry) (disk : Z -> list Z).

Definition fat_sector (relative : Z) : list Z := disk (g_fat_start g + g_active_fat g * g_fat_sectors g + relative).
Definition fat_next (c : Z) : Z := Z.land (get32 (fat_sector (c / 128)) (c mod 128 * 4)) 0x0fffffff.
Definition cluster_sectors (c : Z) : list (list Z) :=
  (fun i => disk (g_data_start g + (c - 2) * g_sectors_per_cluster g + i)) <$> seqZ 0 (g_sectors_per_cluster g).
Definition cluster_data (c : Z) : list Z := mjoin (cluster_sectors c).
Definition cluster_entries (c : Z) : list (list Z) := cluster_sectors c ≫= entries_of.
Definition cluster_bytes : Z := g_sectors_per_cluster g * 512.

(** The clusters linked from [c], up to an end mark. *)
Inductive chain : Z -> list Z -> Prop :=
  | chain_last c : valid_cluster g c = true -> 0x0ffffff8 <= fat_next c -> chain c [c]
  | chain_next c cs : valid_cluster g c = true -> fat_next c < 0x0ffffff8 -> chain (fat_next c) cs -> chain c (c :: cs).

(** The contents of a file of [size] bytes that starts at [start]. *)
Definition file_data (start size : Z) (cs : list Z) (data : list Z) : Prop :=
  (size = 0 /\ start = 0 /\ cs = [] /\ data = []) \/
  (0 < size <= UTAMO_FAT32_FILE_MAX /\ chain start cs /\
   (Z.of_nat (length cs) - 1) * cluster_bytes < size <= Z.of_nat (length cs) * cluster_bytes /\
   data = take (Z.to_nat size) (cs ≫= cluster_data)).

(** Deleted entries, long names, the volume label and correct dot entries. *)
Definition skipped (first parent : Z) (e : list Z) : Prop :=
  byte_of e 0 <> 0 /\
  (byte_of e 0 = 0xe5 \/ byte_of e 11 = 0x0f \/ (Z.land (byte_of e 11) 0xc0 = 0 /\ Z.land (byte_of e 11) 8 <> 0 /\ is_dir e = false) \/
   (is_dir e = true /\ get32 e 28 = 0 /\
    ((name_bytes e = DOT /\ child_of e = first) \/ (name_bytes e = DOTDOT /\ child_of e = parent)))).

(** An entry for a file or directory called [name]. *)
Definition live (e : list Z) (name : cstring) : Prop :=
  byte_of e 0 <> 0 /\ byte_of e 0 <> 0xe5 /\ byte_of e 0 <> 46 /\ byte_of e 11 <> 0x0f /\
  Z.land (byte_of e 11) 0xc0 = 0 /\ Z.land (byte_of e 11) 8 = 0 /\ short_name e = Some name.

Inductive listing : Z -> Z -> cstring -> list (list Z) -> list anode -> list Z -> bool -> Prop :=
  | ls_nil first parent path : listing first parent path [] [] [] false
  | ls_end first parent path e es : byte_of e 0 = 0 -> listing first parent path (e :: es) [] [] true
  | ls_skip first parent path e es ns cl b : skipped first parent e ->
      listing first parent path es ns cl b -> listing first parent path (e :: es) ns cl b
  | ls_file first parent path e es name cs data ns cl b : live e name -> is_dir e = false ->
      file_data (child_of e) (get32 e 28) cs data -> listing first parent path es ns cl b ->
      listing first parent path (e :: es) (MkAnode (path ++ SLASH :: name) false (get32 e 28) data :: ns) (cs ++ cl) b
  | ls_dir first parent path e es name cs sub scl b' ns cl b : live e name -> is_dir e = true -> get32 e 28 = 0 ->
      chain (child_of e) cs ->
      listing (child_of e) (if first =? g_root_cluster g then 0 else first) (path ++ SLASH :: name) (cs ≫= cluster_entries) sub scl b' ->
      listing first parent path es ns cl b ->
      listing first parent path (e :: es) (MkAnode (path ++ SLASH :: name) true 0 [] :: sub ++ ns) (cs ++ scl ++ cl) b.

Lemma listing_app first parent path es1 es2 ns1 ns2 cl1 cl2 b : listing first parent path es1 ns1 cl1 false ->
  listing first parent path es2 ns2 cl2 b -> listing first parent path (es1 ++ es2) (ns1 ++ ns2) (cl1 ++ cl2) b.
Proof.
  intros Hl. remember false as f eqn:Ef. induction Hl; intros Hright; cbn [app].
  - done.
  - done.
  - apply ls_skip; [done|by apply IHHl].
  - rewrite <-app_assoc. eapply ls_file; [done..|by apply IHHl].
  - rewrite <-!app_assoc. eapply ls_dir; [done..|by apply IHHl2].
Qed.

Lemma listing_ended first parent path es1 es2 ns cl : listing first parent path es1 ns cl true ->
  listing first parent path (es1 ++ es2) ns cl true.
Proof.
  intros Hl. remember true as f eqn:Ef. induction Hl; cbn [app].
  - done.
  - by apply ls_end.
  - apply ls_skip; [done|by apply IHHl].
  - eapply ls_file; [done..|by apply IHHl].
  - eapply ls_dir; [done..|by apply IHHl2].
Qed.
End spec.

(** The device returns the sectors of [disk], or fails. *)
Record device_shows {D} (device : block_device D) (disk : Z -> list Z) : Prop := {
  ds_read : forall c lba c' data, bd_read device c lba 1 = (c', Some data) -> data = disk lba;
  ds_length : forall lba, length (disk lba) = 512%nat
}.

(** ** Rules *)

(** [ok Q E r]: [r] succeeded in a state with [Q], or failed in one with [E]. *)
Definition ok {A D X} (Q : X -> fstate A D -> Prop) (E : fstate A D -> Prop) (r : fstate A D * option X) : Prop :=
  match r with (s, Some x) => Q x s | (s, None) => E s end.

Section rules.
Context {A D : Type}.
Implicit Types s : fstate A D.
Implicit Types E : fstate A D -> Prop.

Lemma ok_bind {X Y} (m : FatM A D X) (k : X -> FatM A D Y) Q E s :
  ok (fun x s' => ok Q E (k x s')) E (m s) -> ok Q E ((m ≫= k) s).
Proof. unfold mbind, fat_bind. destruct (m s) as [s' [x|]]; done. Qed.

Lemma ok_weaken {X} (Q Q' : X -> fstate A D -> Prop) E E' r :
  ok Q E r -> (forall x s, Q x s -> Q' x s) -> (forall s, E s -> E' s) -> ok Q' E' r.
Proof. destruct r as [s [x|]]; cbn; auto. Qed.

Lemma ok_check b (Q : unit -> fstate A D -> Prop) E s : (b = true -> Q tt s) -> (b = false -> E s) -> ok Q E (check b s).
Proof. destruct b; cbn; auto. Qed.

Lemma ok_get (Q : fat32 -> fstate A D -> Prop) E s : Q (fx s) s -> ok Q E (get s).
Proof. done. Qed.

Lemma ok_modify f (Q : unit -> fstate A D -> Prop) E s : Q tt (MkFs (f (fx s)) (fx_store s) (fx_dev s)) -> ok Q E (modify f s).
Proof. done. Qed.
End rules.

(** One step of a monadic program. *)
Ltac fat_step :=
  match goal with
  | |- ok _ _ ((_ ≫= _) _) => apply ok_bind
  | |- ok _ _ (get _) => apply ok_get
  | |- ok _ _ (modify _ _) => apply ok_modify
  | |- ok _ _ (check _ _) => apply ok_check
  end; cbv beta.

(** ** FAT32: ownership of buffers and the invariant of the walk *)


Section inv.
Context {A D : Type} `{ByteStoreLaws A} (device : block_device D).
Implicit Types s : fstate A D.
Implicit Types m : gmap Z (list Z).

(** ** Ownership *)

(** The buffers that [fat32_discard] releases. *)
Definition nonnull (ps : list Z) : list Z := filter (fun p => p <> 0) ps.
Definition pointers (s : fstate A D) : list Z :=
  nonnull ((nd_data <$> fs_nodes (ft_tree (fx s))) ++ [ft_claimed (fx s)]).

(** [m] has the buffers of [m0] and those at [ps]. *)
Record owns (m0 : gmap Z (list Z)) (a : A) (m : gmap Z (list Z)) (ps : list Z) : Prop := {
  ow_holds : st_holds a m;
  ow_sub : m0 ⊆ m;
  ow_dom : dom m = dom m0 ∪ list_to_set ps;
  ow_nodup : NoDup ps;
  ow_fresh : forall p, p ∈ ps -> m0 !! p = None
}.
Definition own (m0 m : gmap Z (list Z)) (s : fstate A D) : Prop := owns m0 (fx_store s) m (pointers s).

(** The condition of a failed operation: discarding leads back to [m0]. *)
Definition failed (m0 : gmap Z (list Z)) (s : fstate A D) : Prop := ft_memory (fx s) = true /\ exists m, own m0 m s.

#[export] Instance owns_perm m0 a m : Proper ((≡ₚ) ==> iff) (owns m0 a m).
Proof.
  intros ps qs Hp. split; intros [Hh Hs Hd Hn Hf]; constructor; try done.
  - by rewrite Hd, Hp.
  - by rewrite <-Hp.
  - intros p. rewrite <-Hp. apply Hf.
  - by rewrite Hd, <-Hp.
  - by rewrite Hp.
  - intros p. rewrite Hp. apply Hf.
Qed.

Lemma owns_lookup m0 a m ps p : owns m0 a m ps -> p ∈ ps -> exists l, m !! p = Some l.
Proof. intros [Hh Hs Hd Hn Hf] Hp. apply elem_of_dom. rewrite Hd. set_solver. Qed.

Lemma owns_free m0 a m p ps : owns m0 a m (p :: ps) -> owns m0 (st_free a p) (delete p m) ps.
Proof.
  intros Ho. destruct (owns_lookup _ _ _ _ p Ho ltac:(set_solver)) as [l Hl]. destruct Ho as [Hh Hs Hd Hn Hf].
  apply NoDup_cons in Hn as [Hnp Hn]. assert (m0 !! p = None) as Hp0 by (apply Hf; set_solver). constructor.
  - by eapply law_free.
  - apply map_subseteq_spec. intros q l' Hq. rewrite lookup_delete_ne by congruence. by eapply lookup_weaken.
  - rewrite dom_delete_L, Hd. apply not_elem_of_dom in Hp0. cbn [list_to_set]. set_solver.
  - done.
  - intros q Hq. apply Hf. set_solver.
Qed.

Lemma owns_free_all m0 ps : forall a m, owns m0 a m ps -> st_holds (foldl st_free a ps) m0.
Proof.
  induction ps as [|p ps IH]; intros a m Ho; cbn [foldl].
  - destruct Ho as [Hh Hs Hd _ _]. enough (m = m0) as <- by done. symmetry. apply map_subseteq_size_eq; [done|].
    rewrite <-!size_dom, Hd. cbn. rewrite union_empty_r_L. lia.
  - eapply IH. by apply owns_free.
Qed.

Lemma owns_alloc m0 a m ps p l a' : owns m0 a m ps -> m !! p = None -> st_holds a' (<[p := l]> m) -> owns m0 a' (<[p := l]> m) (p :: ps).
Proof.
  intros [Hh Hs Hd Hn Hf] Hp Hh'. pose proof Hp as Hpd. rewrite <-not_elem_of_dom, Hd in Hpd. constructor.
  - done.
  - etrans; [exact Hs|]. by apply insert_subseteq.
  - rewrite dom_insert_L, Hd. cbn [list_to_set]. set_solver.
  - apply NoDup_cons. split; [set_solver|done].
  - intros q [->|Hq]%elem_of_cons; [|by apply Hf]. apply not_elem_of_dom. set_solver.
Qed.

Lemma owns_write m0 a m ps p l a' : owns m0 a m ps -> p ∈ ps -> st_holds a' (<[p := l]> m) -> owns m0 a' (<[p := l]> m) ps.
Proof.
  intros Ho Hp Hh'. pose proof (owns_lookup _ _ _ _ p Ho Hp) as [l0 Hl]. destruct Ho as [Hh Hs Hd Hn Hf]. constructor; try done.
  - apply map_subseteq_spec. intros q l' Hq. rewrite lookup_insert_ne; [by eapply lookup_weaken|]. intros ->. rewrite (Hf q Hp) in Hq. done.
  - rewrite dom_insert_L. apply elem_of_dom_2 in Hl. rewrite Hd in Hl |- *. set_solver.
Qed.

Lemma foldl_nonnull (nodes : list vfs_node) : forall a, foldl (fun a node => if negb (nd_data node =? 0) then st_free a (nd_data node) else a) a nodes =
  foldl st_free a (nonnull (nd_data <$> nodes)).
Proof.
  induction nodes as [|n nodes IH]; intros a; [done|]. unfold nonnull in *. cbn [foldl fmap list_fmap]. rewrite filter_cons.
  destruct (Z.eqb_spec (nd_data n) 0) as [E|E]; cbn [negb].
  - rewrite decide_False by lia. apply IH.
  - rewrite decide_True by lia. cbn [foldl]. apply IH.
Qed.

(** [fat32_discard] returns every buffer and leaves a zeroed structure. *)
Lemma discard_failed m0 s : failed m0 s ->
  fx (fat32_discard s) = fat32_zero /\ st_holds (fx_store (fat32_discard s)) m0.
Proof.
  intros [Hm [m Ho]]. unfold fat32_discard. rewrite Hm. split; [done|]. cbn [fx_store]. rewrite foldl_nonnull.
  assert ((if negb (ft_claimed (fx s) =? 0) then st_free (foldl st_free (fx_store s) (nonnull (nd_data <$> fs_nodes (ft_tree (fx s))))) (ft_claimed (fx s))
    else foldl st_free (fx_store s) (nonnull (nd_data <$> fs_nodes (ft_tree (fx s))))) = foldl st_free (fx_store s) (pointers s)) as ->.
  { unfold pointers, nonnull. rewrite filter_app, foldl_app, filter_cons, filter_nil.
    destruct (Z.eqb_spec (ft_claimed (fx s)) 0); cbn [negb]; [rewrite decide_False by lia|rewrite decide_True by lia]; done. }
  by eapply owns_free_all.
Qed.

(** ** Quiet steps: only the read counter, the device and the FAT cache change *)

Record quiet (s s' : fstate A D) : Prop := {
  qt_tree : ft_tree (fx s') = ft_tree (fx s);
  qt_memory : ft_memory (fx s') = ft_memory (fx s);
  qt_claimed : ft_claimed (fx s') = ft_claimed (fx s);
  qt_geo : ft_geo (fx s') = ft_geo (fx s);
  qt_visited : ft_visited (fx s') = ft_visited (fx s);
  qt_bytes : ft_cached_bytes (fx s') = ft_cached_bytes (fx s);
  qt_store : fx_store s' = fx_store s
}.

Lemma quiet_trans s1 s2 s3 : quiet s1 s2 -> quiet s2 s3 -> quiet s1 s3.
Proof. intros [] []. constructor; congruence. Qed.

Lemma failed_quiet m0 s s' : quiet s s' -> failed m0 s -> failed m0 s'.
Proof.
  intros [Ht Hm Hc _ _ _ Hs] [Hmem [m Ho]]. split; [congruence|]. exists m. unfold own, pointers in *. by rewrite Ht, Hc, Hs.
Qed.
End inv.

(** ** FAT32: the table of links, claims and file contents *)


(** What [fat32_import] has checked of the boot sector. *)
Record geo_ok (g : fat_geometry) : Prop := {
  go_clusters : 65525 <= g_clusters g <= UTAMO_FAT32_CLUSTER_MAX;
  go_spc : 1 <= g_sectors_per_cluster g <= 128;
  go_start : 0 <= g_fat_start g < 65536;
  go_sectors : 0 <= g_fat_sectors g <= UINT32_MAX;
  go_data : 0 <= g_data_start g <= UINT32_MAX;
  go_active : 0 <= g_active_fat g <= 15
}.

(** [bits] has a bit set for exactly the clusters of [V]. *)
Definition claimed_bits (g : fat_geometry) (bits V : list Z) : Prop :=
  Z.of_nat (length bits) = (g_clusters g + 7) / 8 /\
  forall i, 0 <= i < g_clusters g -> Z.testbit (u8 (arr_get bits (i / 8))) (i mod 8) = bool_decide (i + 2 ∈ V).

Definition cache_ok (g : fat_geometry) (disk : Z -> list Z) (fs : fat32) : Prop :=
  ft_cache_valid fs = true -> ft_fat_cache fs = fat_sector g disk (ft_cached_sector fs).

(** A node and what it stands for, when [m] has the buffers. *)
Definition node_rel (m : gmap Z (list Z)) (n : vfs_node) (a : anode) : Prop :=
  nd_path n = an_path a /\ nd_type n = (if an_dir a then UTAMO_VFS_DIRECTORY else UTAMO_VFS_FILE) /\
  nd_size n = an_size a /\ Z.of_nat (length (an_data a)) = an_size a /\ (an_dir a = true -> an_size a = 0) /\
  if an_size a =? 0 then nd_data n = 0 else nd_data n <> 0 /\ m !! nd_data n = Some (an_data a).

(** Paths and kinds of the nodes: a tree below "/disk", parents first. *)
Inductive tree_ok : list (cstring * bool) -> Prop :=
  | tree_disk : tree_ok [(nd_path disk_node, true)]
  | tree_add t dir name kind : tree_ok t -> (dir, true) ∈ t -> SLASH ∉ name -> vfs_path_valid (dir ++ SLASH :: name) = true ->
      dir ++ SLASH :: name ∉ t.*1 -> tree_ok (t ++ [(dir ++ SLASH :: name, kind)]).
Definition shape (a : anode) : cstring * bool := (an_path a, an_dir a).

Definition total_size (ab : list anode) : Z := foldr Z.add 0 (an_size <$> ab).

Lemma total_size_app l1 l2 : total_size (l1 ++ l2) = total_size l1 + total_size l2.
Proof. unfold total_size. rewrite fmap_app, foldr_app. induction l1; cbn in *; lia. Qed.

Lemma splice_one l i v : 0 <= i < Z.of_nat (length l) -> splice l i [v] = arr_set l i v.
Proof.
  intros Hi. unfold splice, arr_set. rewrite insert_take_drop by lia. cbn [length app]. by rewrite Nat.add_1_r.
Qed.

Lemma claimed_bits_add g bits V c : claimed_bits g bits V -> valid_cluster g c = true ->
  let i := (c - 2) / 8 in let old := u8 (arr_get bits i) in let bit := u8 (Z.shiftl 1 (Z.land (c - 2) 7)) in
  0 <= i < Z.of_nat (length bits) /\ (Z.land old bit =? 0) = negb (bool_decide (c ∈ V)) /\
  claimed_bits g (splice bits i [Z.lor old bit]) (V ++ [c]).
Proof.
  intros [Hl Hb] Hv. unfold valid_cluster in Hv. cbv zeta. set (i := (c - 2) / 8).
  assert (0 <= i < Z.of_nat (length bits)) as Hi by (unfold i; rewrite Hl; dlia).
  change 7 with (Z.ones 3). rewrite land_low_mask by lia. change (2 ^ 3) with 8.
  assert (0 <= (c - 2) mod 8 < 8) as Hm by (apply Z.mod_pos_bound; lia).
  assert (u8 (Z.shiftl 1 ((c - 2) mod 8)) = Z.shiftl 1 ((c - 2) mod 8)) as ->.
  { rewrite Z.shiftl_1_l. apply u8_small. split; [lia|]. change 256 with (2 ^ 8). apply Z.pow_lt_mono_r; lia. }
  split; [done|]. split.
  - pose proof (land_pow2_test (u8 (arr_get bits i)) ((c - 2) mod 8) ltac:(lia)) as Ht. unfold i in *. rewrite Hb in Ht by lia.
    replace (c - 2 + 2) with c in Ht by lia. rewrite <-Ht. by rewrite negb_involutive.
  - rewrite splice_one by done. split; [by rewrite length_arr_set|]. intros k Hk.
    assert (0 <= Z.lor (u8 (arr_get bits i)) (Z.shiftl 1 ((c - 2) mod 8)) < 256) as Hr.
    { assert (0 <= Z.lor (u8 (arr_get bits i)) (Z.shiftl 1 ((c - 2) mod 8))) as H0
        by (apply Z.lor_nonneg; split; [unfold u8; dlia|by apply Z.shiftl_nonneg]).
      split; [done|]. change 256 with (2 ^ 8). destruct (Z.eq_dec (Z.lor (u8 (arr_get bits i)) (Z.shiftl 1 ((c - 2) mod 8))) 0) as [->|Hnz]; [lia|].
      apply Z.log2_lt_pow2; [lia|]. rewrite Z.log2_lor by (try (unfold u8; dlia); try by apply Z.shiftl_nonneg).
      apply Z.max_lub_lt.
      - destruct (Z.eq_dec (u8 (arr_get bits i)) 0) as [->|?]; [done|]. apply Z.log2_lt_pow2; unfold u8 in *; dlia.
      - rewrite Z.shiftl_1_l, Z.log2_pow2 by lia. lia. }
    assert (bool_decide (k + 2 ∈ V ++ [c]) = bool_decide (k + 2 ∈ V) || (k =? c - 2)) as ->.
    { destruct (Z.eqb_spec k (c - 2)) as [->|Hne].
      - rewrite orb_true_r. apply bool_decide_eq_true_2. replace (c - 2 + 2) with c by lia. set_solver.
      - rewrite orb_false_r. apply bool_decide_ext. rewrite elem_of_app, list_elem_of_singleton. split; [intros [?|?]; [done|lia]|tauto]. }
    destruct (Z.eq_dec (k / 8) i) as [Ei|Ei].
    + rewrite Ei, arr_get_set_eq by done. rewrite u8_small by done. rewrite Z.lor_spec, <-Ei, Hb by lia. f_equal.
      rewrite Z.shiftl_1_l, Z.pow2_bits_eqb by lia. unfold i in Ei. destruct (Z.eqb_spec ((c - 2) mod 8) (k mod 8)), (Z.eqb_spec k (c - 2)); try done; exfalso; dlia.
    + rewrite arr_get_set_ne by (try lia; dlia). rewrite Hb by lia. unfold i in Ei. destruct (Z.eqb_spec k (c - 2)) as [->|]; [done|]. by rewrite orb_false_r.
Qed.

Section walk.
Context {A D : Type} `{ByteStoreLaws A} (device : block_device D) (disk : Z -> list Z) (Hdev : device_shows device disk).
Context (g : fat_geometry) (Hg : geo_ok g) (m0 : gmap Z (list Z)).
Implicit Types s : fstate A D.
Implicit Types m : gmap Z (list Z).

(** ** Sectors and the FAT *)

Lemma sector_ok lba (Q : list Z -> fstate A D -> Prop) E s :
  (forall r d, Q (disk lba) (MkFs (set_reads r (fx s)) (fx_store s) d)) ->
  (forall r d, E (MkFs (set_reads r (fx s)) (fx_store s) d)) -> ok Q E (sector device lba s).
Proof.
  intros HQ HE. unfold sector. repeat (fat_step; try intros _); [|apply HE]. unfold device_read, block_read. cbn [fx fx_store fx_dev].
  destruct (_ && _); [|apply HE]. destruct (bd_read _ _ _ _) as [d [data|]] eqn:Ed; cbn [ok]; [|apply HE].
  apply (ds_read _ _ Hdev) in Ed as ->. apply HQ.
Qed.

Lemma quiet_reads s r d : quiet s (MkFs (set_reads r (fx s)) (fx_store s) d).
Proof. by constructor. Qed.

Lemma fill_cache_ok s relative : ft_geo (fx s) = g -> cache_ok g disk (fx s) -> 0 <= relative <= UINT32_MAX ->
  ok (fun _ s' => quiet s s' /\ cache_ok g disk (fx s') /\ ft_fat_cache (fx s') = fat_sector g disk relative)
     (quiet s) (fill_cache device relative s).
Proof.
  intros Eg Hc Hr. unfold fill_cache. do 2 fat_step. rewrite Eg. destruct Hg as [_ _ ? ? _ ?]. unfold UINT32_MAX in *.
  destruct (ft_cache_valid (fx s)) eqn:Ev; cbn [negb orb]; [destruct (Z.eqb_spec (ft_cached_sector (fx s)) relative) as [Er|Er]; cbn [negb]|].
  { split; [by constructor|]. split; [done|]. rewrite <-Er. by apply Hc. }
  all: fat_step; apply sector_ok; [|intros; apply quiet_reads]; intros r d; do 3 fat_step; cbn [fx fx_store fx_dev].
  all: rewrite (u64_small (g_active_fat g * _)) by (unfold u64_ok, UINT64_MAX; nia);
    rewrite (u64_small (g_fat_start g + _)) by (unfold u64_ok, UINT64_MAX; nia); rewrite u64_small by (unfold u64_ok, UINT64_MAX; nia).
  all: destruct (g_mirrored g && (g_fats g =? 2));
    [fat_step; apply sector_ok; [|intros; by constructor]; intros r' d'; fat_step; [intros _; fat_step|intros _; by constructor]|cbn [ok mret fat_ret]; fat_step].
  all: cbn [fx fx_store fx_dev]; split; [by constructor|split; [intros _; done|done]].
Qed.

Lemma entry_ok s c : ft_geo (fx s) = g -> cache_ok g disk (fx s) -> 0 <= c ->
  ok (fun x s' => x = fat_next g disk c /\ quiet s s' /\ cache_ok g disk (fx s')) (quiet s) (entry device c s).
Proof.
  intros Eg Hc Hp. unfold entry. do 2 fat_step. rewrite Eg. fat_step. fat_step; [intros Hlt|intros _; by constructor].
  rewrite negb_true_iff, Z.leb_gt in Hlt. fat_step. eapply ok_weaken; [apply fill_cache_ok; [done|done|]| |done].
  { destruct Hg as [_ _ _ ? _ _]. split; [|lia]. apply Z.div_pos; lia. }
  intros _ s' (Hq & Hc' & Ec). cbv beta. do 2 fat_step. cbn [ok mret fat_ret]. by rewrite Ec.
Qed.
End walk.

(** ** FAT32: the invariant of the walk, claims and file contents *)

(** The first [copied] bytes of the buffer [l] are those of the stream [T]. *)
Record copy (size : Z) (T l : list Z) (copied : Z) : Prop := {
  cp_length : Z.of_nat (length l) = size;
  cp_copied : copied = Z.min size (Z.of_nat (length T));
  cp_bytes : take (Z.to_nat copied) l = take (Z.to_nat copied) T
}.

Lemma copy_done size T X l copied : size <= copied -> copy size T l copied -> copy size (T ++ X) l copied.
Proof.
  intros Hle [Hl Hc Hb]. constructor; [done|rewrite length_app; lia|]. rewrite Hb. rewrite take_app_le; [done|lia].
Qed.

Lemma copy_step size T l copied block bytes : copied < size -> length block = 512%nat -> bytes = Z.min (size - copied) 512 ->
  copy size T l copied -> copy size (T ++ block) (splice l copied (take (Z.to_nat bytes) block)) (copied + bytes).
Proof.
  intros Hlt Hbl -> [Hl Hc Hb]. assert (Z.of_nat (length T) = copied) as HT by lia.
  assert (length (take (Z.to_nat (Z.min (size - copied) 512)) block) = Z.to_nat (Z.min (size - copied) 512)) as Ht by (rewrite length_take; lia).
  constructor.
  - rewrite length_splice by lia. done.
  - rewrite length_app. lia.
  - unfold splice. rewrite Hb, (take_ge T) by lia. rewrite !app_assoc, (take_app_le (T ++ _)) by (rewrite length_app; lia).
    rewrite (take_app_ge T), (take_app_ge T) by lia. f_equal.
    rewrite take_take. f_equal. lia.
Qed.

Section files.
Context {A D : Type} `{ByteStoreLaws A} (disk : Z -> list Z) (g : fat_geometry) (m0 : gmap Z (list Z)).
Implicit Types s : fstate A D.
Implicit Types m : gmap Z (list Z).

(** The state of a walk that has claimed the clusters [V] and built the nodes
    [ab]; [m] has all live buffers. *)
Record walk (m : gmap Z (list Z)) (V : list Z) (ab : list anode) (s : fstate A D) : Prop := {
  wk_own : own m0 m s;
  wk_geo : ft_geo (fx s) = g;
  wk_memory : ft_memory (fx s) = true;
  wk_claimed : ft_claimed (fx s) <> 0;
  wk_bits : exists bits, m !! ft_claimed (fx s) = Some bits /\ claimed_bits g bits V;
  wk_nodup : NoDup V;
  wk_visited : ft_visited (fx s) = Z.of_nat (length V) /\ Z.of_nat (length V) <= 16384;
  wk_cache : cache_ok g disk (fx s);
  wk_nodes : Forall2 (node_rel m) (fs_nodes (ft_tree (fx s))) ab;
  wk_tree : tree_ok (shape <$> ab);
  wk_count : Z.of_nat (length ab) <= UTAMO_VFS_NODE_LIMIT;
  wk_bytes : ft_cached_bytes (fx s) = total_size ab /\ 0 <= total_size ab <= UTAMO_FAT32_CACHE_MAX
}.

Lemma walk_failed m V ab s : walk m V ab s -> failed m0 s.
Proof. intros Hw. split; [apply Hw|]. exists m. apply Hw. Qed.

Lemma walk_quiet m V ab s s' : quiet s s' -> cache_ok g disk (fx s') -> walk m V ab s -> walk m V ab s'.
Proof.
  intros [Ht Hm Hc Hge Hv Hb Hs] Hca []. constructor; rewrite ?Ht, ?Hm, ?Hc, ?Hge, ?Hv, ?Hb; try done.
  unfold own, pointers in *. by rewrite Ht, Hc, Hs.
Qed.

Lemma node_pointer m V ab s i n : walk m V ab s -> fs_nodes (ft_tree (fx s)) !! i = Some n -> nd_data n <> 0 ->
  nd_data n ∈ pointers s /\ nd_data n <> ft_claimed (fx s).
Proof.
  intros Hw Hi Hn. split.
  - unfold pointers, nonnull. apply list_elem_of_filter. split; [done|]. apply elem_of_app. left. apply list_elem_of_fmap. exists n.
    split; [done|]. by eapply list_elem_of_lookup_2.
  - intros E. pose proof (ow_nodup _ _ _ _ (wk_own _ _ _ _ Hw)) as Hnd. unfold pointers, nonnull in Hnd. rewrite filter_app in Hnd.
    apply NoDup_app in Hnd as (_ & Hnd & _). apply (Hnd (nd_data n)).
    + apply list_elem_of_filter. split; [done|]. apply list_elem_of_fmap. exists n. split; [done|]. by eapply list_elem_of_lookup_2.
    + apply list_elem_of_filter. split; [done|]. rewrite E. set_solver.
Qed.

Lemma node_rel_insert m n a p l : node_rel m n a -> (nd_data n <> 0 -> nd_data n <> p) -> node_rel (<[p := l]> m) n a.
Proof.
  intros (E1 & E2 & E3 & E4 & E5 & E6) Hne. unfold node_rel. destruct (an_size a =? 0); [by split_and!|].
  destruct E6 as [Hn Hm]. split_and!; try done. rewrite lookup_insert_ne; [done|]. intros ->. by apply Hne.
Qed.

Lemma nodes_insert m ns ab p l : Forall2 (node_rel m) ns ab -> (forall n, n ∈ ns -> nd_data n <> 0 -> nd_data n <> p) ->
  Forall2 (node_rel (<[p := l]> m)) ns ab.
Proof.
  induction 1 as [|n a ns ab Hr _ IH]; intros Hne; constructor; [|apply IH; intros; apply Hne; set_solver].
  apply node_rel_insert; [done|]. apply Hne. set_solver.
Qed.

Lemma claim_ok m V ab s c : walk m V ab s ->
  ok (fun _ s' => valid_cluster g c = true /\ c ∉ V /\ fs_nodes (ft_tree (fx s')) = fs_nodes (ft_tree (fx s)) /\
        exists m', walk m' (V ++ [c]) ab s')
     (failed m0) (claim c s).
Proof.
  intros Hw. pose proof (walk_failed _ _ _ _ Hw) as Hf. unfold claim. do 2 fat_step. rewrite (wk_geo _ _ _ _ Hw). fat_step. fat_step; [intros Hv|done].
  do 3 fat_step. cbn [fx fx_store fx_dev]. assert (forall n, failed m0 (MkFs (set_visited n (fx s)) (fx_store s) (fx_dev s))) as Hf' by done.
  fat_step; [intros Hle|done]. destruct (wk_visited _ _ _ _ Hw) as [Ev Hvl]. rewrite Ev in *. rewrite negb_true_iff, Z.ltb_ge, u32_small in Hle by (unfold UINT32_MAX; lia).
  apply ok_bind. cbn [load ok fx fx_store fx_dev]. destruct (wk_bits _ _ _ _ Hw) as (bits & Hbits & Hcb).
  pose proof (claimed_bits_add g bits V c Hcb Hv) as Hadd. cbv zeta in Hadd. destruct Hadd as (Hi & Hbit & Hcb').
  set (i := (c - 2) / 8) in *. set (q := ft_claimed (fx s)) in *.
  pose proof (wk_own _ _ _ _ Hw) as Ho. pose proof (ow_holds _ _ _ _ Ho) as Hh.
  destruct (lookup_lt_is_Some_2 bits (Z.to_nat i) ltac:(lia)) as [old Hold].
  rewrite (law_read (fx_store s) m q bits i old Hh Hbits ltac:(lia) Hold).
  assert (arr_get bits i = old) as Eold by (unfold arr_get; by apply list_lookup_total_correct). rewrite Eold in *.
  fat_step. fat_step; [intros Hfree|done]. rewrite Hbit, negb_true_iff, bool_decide_eq_false in Hfree. cbn [store ok fx fx_store fx_dev].
  pose proof (law_write (fx_store s) m q bits i [Z.lor (u8 old) (u8 (Z.shiftl 1 (Z.land (c - 2) 7)))] Hh Hbits ltac:(lia) ltac:(cbn [length]; lia)) as Hh'.
  split; [done|]. split; [done|]. split; [done|].
  exists (<[q := splice bits i [Z.lor (u8 old) (u8 (Z.shiftl 1 (Z.land (c - 2) 7)))]]> m).
  assert (q ∈ pointers s) as Hq. { unfold pointers, nonnull. apply list_elem_of_filter. split; [apply Hw|]. set_solver. }
  constructor; cbn [fx fx_store fx_dev]; try apply Hw.
  - by apply (owns_write m0 (fx_store s)).
  - exists (splice bits i [Z.lor (u8 old) (u8 (Z.shiftl 1 (Z.land (c - 2) 7)))]). split; [apply lookup_insert_eq|done].
  - apply NoDup_app. split_and!; [apply Hw| |apply NoDup_singleton]. intros x Hx ->%list_elem_of_singleton. done.
  - rewrite length_app. cbn [length]. cbn [ft_visited set_visited]. rewrite u32_small by (unfold UINT32_MAX; lia). lia.
  - cbn [ft_tree set_visited]. apply nodes_insert; [apply Hw|].
    intros n [k Hk]%list_elem_of_lookup Hne. by apply (node_pointer _ _ _ _ _ _ Hw Hk).
Qed.
(** ** The buffer of the last node *)

Definition last_data (s : fstate A D) (p : Z) : Prop := nd_data <$> last (fs_nodes (ft_tree (fx s))) = Some p.

Lemma walk_store m V ab s path size l p i v : walk m V (ab ++ [MkAnode path false size l]) s -> last_data s p ->
  0 < size -> 0 <= i -> i + Z.of_nat (length v) <= size ->
  exists m', walk m' V (ab ++ [MkAnode path false size (splice l i v)]) (MkFs (fx s) (st_write (fx_store s) (p + i) v) (fx_dev s)).
Proof.
  intros Hw Hp Hsz Hi Hl. pose proof (wk_nodes _ _ _ _ Hw) as Hn. apply Forall2_app_inv_r in Hn as (ns & nl & Hn & Hnl & E).
  apply Forall2_cons_inv_r in Hnl as (n & nl' & Hr & ->%Forall2_nil_inv_r & ->).
  unfold last_data in Hp. rewrite E, last_snoc in Hp. cbn in Hp. injection Hp as Hp.
  destruct Hr as (R1 & R2 & R3 & R4 & R5 & R6). cbn [an_path an_dir an_size an_data] in *. rewrite (proj2 (Z.eqb_neq _ _)) in R6 by lia.
  destruct R6 as [Hnz Hlk]. rewrite Hp in *. pose proof (wk_own _ _ _ _ Hw) as Ho.
  assert (fs_nodes (ft_tree (fx s)) !! length ns = Some n) as Hi0 by by rewrite E, list_lookup_middle.
  destruct (node_pointer _ _ _ _ _ _ Hw Hi0 ltac:(lia)) as [Hpp Hpc]. rewrite Hp in *.
  exists (<[p := splice l i v]> m). constructor; cbn [fx fx_store fx_dev]; try apply Hw.
  - apply (owns_write m0 (fx_store s)); [exact Ho|done|]. apply (law_write (fx_store s) m p l i v); [apply Ho|done|done|lia].
  - destruct (wk_bits _ _ _ _ Hw) as (bits & Hb & Hc). exists bits. by rewrite lookup_insert_ne.
  - rewrite E. apply Forall2_app.
    + apply nodes_insert; [done|]. intros n' Hin Hz Hpe. pose proof (ow_nodup _ _ _ _ Ho) as Hnd. unfold pointers, nonnull in Hnd.
      rewrite E, fmap_app in Hnd. cbn in Hnd. rewrite <-app_assoc, filter_app in Hnd. apply NoDup_app in Hnd as (_ & Hnd & _). apply (Hnd p).
      * apply list_elem_of_filter. split; [done|]. rewrite <-Hpe. by apply list_elem_of_fmap_2.
      * apply list_elem_of_filter. split; [done|]. rewrite Hp. set_solver.
    + constructor; [|constructor]. unfold node_rel. cbn [an_path an_dir an_size an_data]. rewrite (proj2 (Z.eqb_neq size 0)) by lia. rewrite Hp, lookup_insert_eq.
      split_and!; try done. rewrite length_splice; lia.
  - pose proof (wk_tree _ _ _ _ Hw) as Ht. rewrite fmap_app in *. exact Ht.
  - pose proof (wk_count _ _ _ _ Hw) as Ht. rewrite length_app in *. exact Ht.
  - pose proof (wk_bytes _ _ _ _ Hw) as Ht. rewrite total_size_app in *. exact Ht.
Qed.
End files.

(** ** FAT32: reading a file follows its chain of clusters *)

Section read.
Context {A D : Type} `{ByteStoreLaws A} (device : block_device D) (disk : Z -> list Z) (Hdev : device_shows device disk).
Context (g : fat_geometry) (Hg : geo_ok g) (m0 : gmap Z (list Z)).
Implicit Types s : fstate A D.
Implicit Types m : gmap Z (list Z).
Notation walk := (walk disk g m0).

Lemma walk_reads m V ab s r (d : D) : walk m V ab s -> walk m V ab (MkFs (set_reads r (fx s)) (fx_store s) d).
Proof. intros Hw. eapply walk_quiet; [apply quiet_reads|apply Hw|done]. Qed.

Lemma cluster_lba_eq c i : valid_cluster g c = true -> 0 <= i < 128 ->
  cluster_lba g c +u i = g_data_start g + (c - 2) * g_sectors_per_cluster g + i.
Proof.
  intros Hv Hi. unfold valid_cluster in Hv. destruct Hg as [? ? ? ? ? ?]. unfold UTAMO_FAT32_CLUSTER_MAX, UINT32_MAX in *.
  unfold cluster_lba. rewrite (u32_small (c - 2)) by (unfold UINT32_MAX; lia).
  rewrite (u64_small ((c - 2) * _)) by (unfold u64_ok, UINT64_MAX; nia). rewrite (u64_small (g_data_start g + _)) by (unfold u64_ok, UINT64_MAX; nia).
  rewrite u64_small; [done|unfold u64_ok, UINT64_MAX; nia].
Qed.

(** The sectors of cluster [c] from the [i]-th on. *)
Definition sectors_from (c i : Z) : list (list Z) :=
  (fun i => disk (g_data_start g + (c - 2) * g_sectors_per_cluster g + i)) <$> seqZ i (g_sectors_per_cluster g - i).

Lemma sectors_from_0 c : sectors_from c 0 = cluster_sectors g disk c.
Proof. unfold sectors_from. by rewrite Z.sub_0_r. Qed.

Lemma sectors_from_cons c i : i < g_sectors_per_cluster g ->
  sectors_from c i = disk (g_data_start g + (c - 2) * g_sectors_per_cluster g + i) :: sectors_from c (i + 1).
Proof.
  intros Hi. unfold sectors_from. rewrite seqZ_cons by lia. rewrite fmap_cons. f_equal. f_equal. f_equal; lia.
Qed.

Lemma sectors_from_nil c i : g_sectors_per_cluster g <= i -> sectors_from c i = [].
Proof. intros Hi. unfold sectors_from. rewrite seqZ_nil by lia. done. Qed.

Lemma file_sectors_ok steps : forall m V ab path size l p T c i copied s,
  walk m V (ab ++ [MkAnode path false size l]) s -> last_data s p -> 0 < size -> valid_cluster g c = true ->
  0 <= i -> Z.of_nat steps = g_sectors_per_cluster g - i -> copy size T l copied ->
  ok (fun copied' s' => exists m' l', copy size (T ++ mjoin (sectors_from c i)) l' copied' /\
        walk m' V (ab ++ [MkAnode path false size l']) s' /\ last_data s' p)
     (failed m0) (file_sectors device steps p size c i copied s).
Proof.
  induction steps as [|steps IH]; intros m V ab path size l p T c i copied s Hw Hp Hsz Hv Hi Hst Hc; cbn [file_sectors].
  - cbn [ok mret fat_ret]. rewrite sectors_from_nil by lia. rewrite app_nil_r. by exists m, l.
  - destruct (Z.ltb_spec copied size) as [Hlt|Hge]; cycle 1.
    { cbn [ok mret fat_ret]. exists m, l. split; [by apply copy_done|done]. }
    do 2 fat_step. rewrite (wk_geo _ _ _ _ _ _ _ Hw). pose proof (go_spc _ Hg) as Hspc. rewrite cluster_lba_eq by (done || lia).
    fat_step. apply (sector_ok device disk Hdev); [|intros; by eapply walk_failed, walk_reads].
    intros r d. fat_step. cbn [store ok fx fx_store fx_dev]. set (bytes := if size - copied <? 512 then _ else _).
    assert (bytes = Z.min (size - copied) 512) as Eb by (unfold bytes; destruct (Z.ltb_spec (size - copied) 512); lia).
    set (block := disk _). assert (length block = 512%nat) as Hbl by apply (ds_length _ _ Hdev).
    pose proof (cp_copied _ _ _ _ Hc) as Hcc.
    destruct (walk_store disk g m0 _ _ _ _ _ _ _ p copied (take (Z.to_nat bytes) block) (walk_reads _ _ _ _ r d Hw)) as [m' Hw'];
      [done|lia|lia|rewrite length_take; lia|]. cbn [fx fx_store fx_dev] in Hw'.
    eapply ok_weaken; [eapply (IH _ _ _ _ _ _ p (T ++ block) c (i + 1)); [exact Hw'|done|done|done|lia|lia|by apply copy_step]| |done].
    intros copied' s' (m2 & l2 & Hc2 & Hw2 & Hp2). exists m2, l2. split; [|done].
    rewrite sectors_from_cons by lia. cbn [mjoin list_join]. by rewrite app_assoc.
Qed.

Lemma length_cluster_data c : Z.of_nat (length (cluster_data g disk c)) = cluster_bytes g.
Proof.
  pose proof (go_spc _ Hg) as Hspc. unfold cluster_data, cluster_sectors, cluster_bytes.
  assert (forall n i, 0 <= n -> Z.of_nat (length (mjoin ((fun j => disk (g_data_start g + (c - 2) * g_sectors_per_cluster g + j)) <$> seqZ i n))) = n * 512) as Hx;
    [|rewrite Hx; lia].
  intros n i Hn. revert i. pattern n. apply natlike_ind; [intros i; by rewrite seqZ_nil by lia| |done]. intros k Hk IH i.
  rewrite seqZ_cons by lia. cbn [fmap list_fmap mjoin list_join]. rewrite length_app, (ds_length _ _ Hdev), Nat2Z.inj_add, Z.pred_succ, IH. lia.
Qed.

Lemma length_chain_data cs : Z.of_nat (length (cs ≫= cluster_data g disk)) = Z.of_nat (length cs) * cluster_bytes g.
Proof. induction cs as [|c cs IH]; [done|]. rewrite bind_cons, length_app, Nat2Z.inj_add, IH, length_cluster_data. cbn [length]. lia. Qed.

Lemma file_clusters_ok n : forall m V ab path size l p T c copied s,
  walk m V (ab ++ [MkAnode path false size l]) s -> last_data s p -> Z.of_nat (length T) < size -> copy size T l copied ->
  ok (fun _ s' => exists m' l' cs, chain g disk c cs /\ copy size (T ++ (cs ≫= cluster_data g disk)) l' size /\
        Z.of_nat (length T) + (Z.of_nat (length cs) - 1) * cluster_bytes g < size /\
        walk m' (V ++ cs) (ab ++ [MkAnode path false size l']) s')
     (failed m0) (file_clusters device n p size c copied s).
Proof.
  induction n as [|n IH]; intros m V ab path size l p T c copied s Hw Hp HT Hc; cbn [file_clusters]; [by eapply walk_failed|].
  apply ok_bind. eapply ok_weaken; [exact (claim_ok disk g m0 m V _ s c Hw)| |done]. intros _ s1 (Hv & Hcv & Hn1 & m1 & Hw1). cbv beta.
  do 2 fat_step. rewrite (wk_geo _ _ _ _ _ _ _ Hw1). pose proof (go_spc _ Hg) as Hspc. apply ok_bind.
  assert (last_data s1 p) as Hp1 by (unfold last_data; by rewrite Hn1).
  eapply ok_weaken; [eapply (file_sectors_ok _ _ _ _ _ _ _ p T c 0); [exact Hw1|done|lia|done|lia|lia|done]| |done].
  intros copied2 s2 (m2 & l2 & Hc2 & Hw2 & Hp2). cbv beta. rewrite sectors_from_0 in Hc2. apply ok_bind.
  assert (0 <= c) as Hc0 by (unfold valid_cluster in Hv; lia).
  eapply ok_weaken; [apply (entry_ok device disk Hdev g Hg); [apply Hw2|apply Hw2|done]| |intros s3 Hq; eapply failed_quiet; [done|by eapply walk_failed]].
  intros next s3 (-> & Hq & Hca). cbv beta. pose proof (walk_quiet _ _ _ _ _ _ _ _ Hq Hca Hw2) as Hw3.
  fold (cluster_data g disk c) in Hc2. pose proof (cp_copied _ _ _ _ Hc2) as Ec2. rewrite length_app in Ec2.
  destruct (Z.eqb_spec copied2 size) as [Es|Es].
  - fat_step; [|intros _; by eapply walk_failed]. intros Heoc. exists m2, l2, [c]. rewrite Es in Hc2. split_and!.
    + apply chain_last; [done|lia].
    + rewrite bind_cons. cbn [mbind list_bind]. by rewrite app_nil_r.
    + cbn [length]. lia.
    + done.
  - apply ok_bind. fat_step; [|intros _; by eapply walk_failed]. intros Hvn.
    assert (last_data s3 p) as Hp3 by (unfold last_data in *; by rewrite (qt_tree _ _ Hq)).
    eapply ok_weaken; [eapply (IH _ _ _ _ _ _ p (T ++ cluster_data g disk c)); [exact Hw3|done|rewrite length_app; lia|done]| |done].
    intros _ s4 (m4 & l4 & cs & Hch & Hc4 & Hlen & Hw4). exists m4, l4, (c :: cs). pose proof (length_cluster_data c) as Hcl. split_and!.
    + apply chain_next; [done| |done]. unfold valid_cluster in Hvn. pose proof (go_clusters _ Hg). unfold UTAMO_FAT32_CLUSTER_MAX in *. lia.
    + rewrite bind_cons. by rewrite app_assoc.
    + rewrite length_app in Hlen. cbn [length]. lia.
    + by rewrite <-app_assoc in Hw4.
Qed.
End read.
