(* ===== verification/Fat32Tree.v ===== *)
(** * FAT32: directories and the walk over the tree *)

From stdpp Require Import gmap.
From S2P Require Import Prelude Bytes Vfs VfsTree Fat32 Fat32Read.
Open Scope Z_scope.

(** ** Short names *)

Lemma name_part_no_slash raw part steps : forall i padding wrote out r, SLASH ∉ out ->
  name_part raw part steps i padding wrote out = Some r -> SLASH ∉ r.2.
Proof.
  unfold SLASH. induction steps as [|steps IH]; intros i padding wrote out r Hout; cbn [name_part]; [by intros [= <-]|].
  destruct (byte_of raw i =? 32); [by apply IH|]. destruct (padding || _) eqn:Hbad; [done|]. apply orb_false_iff in Hbad as [_ Hbad].
  apply IH. unfold name_char_bad in Hbad. cbn [existsb] in Hbad. apply not_elem_of_app. split.
  - destruct (_ && _); [|done]. apply not_elem_of_app. split; [done|]. intros Hx%list_elem_of_singleton. done.
  - intros Hx%list_elem_of_singleton. destruct (_ && _) eqn:Ec; lia.
Qed.

Lemma short_name_no_slash e name : short_name e = Some name -> SLASH ∉ name.
Proof.
  unfold short_name. destruct (name_part e 0 8 0 false false []) as [[w out]|] eqn:E1; [|done]. destruct (negb w); [done|].
  destruct (name_part e 1 3 8 false false out) as [[w2 out2]|] eqn:E2; [|done]. intros [= <-].
  apply (name_part_no_slash e 0 8 0 false false []) in E1; [|apply not_elem_of_nil]. by apply (name_part_no_slash e 1 3 8 false false out) in E2.
Qed.

Lemma get32_range p i : 0 <= get32 p i <= UINT32_MAX.
Proof.
  assert (forall j, 0 <= get16 p j < 2 ^ 16) as H16 by (intros j; unfold get16, u16; apply Z.mod_pos_bound; lia).
  unfold get32. assert (0 <= u32 (Z.shiftl (get16 p (i + 2)) 16) < 2 ^ 32) as H32 by (unfold u32; apply Z.mod_pos_bound; lia).
  rewrite Z.lor_comm, (lor_add _ _ 16); [|lia| |apply H16].
  - unfold UINT32_MAX. pose proof (H16 i). pose proof (H16 (i + 2)). rewrite u32_small in * by (rewrite Z.shiftl_mul_pow2 by lia; unfold UINT32_MAX; lia).
    rewrite Z.shiftl_mul_pow2 in * by lia. lia.
  - pose proof (H16 (i + 2)). rewrite u32_small by (rewrite Z.shiftl_mul_pow2 by lia; unfold UINT32_MAX; lia).
    rewrite Z.shiftl_mul_pow2 by lia. apply Z.mod_mul. lia.
Qed.

Section dir.
Context {A D : Type} `{ByteStoreLaws A} (device : block_device D) (disk : Z -> list Z) (Hdev : device_shows device disk).
Context (g : fat_geometry) (Hg : geo_ok g) (m0 : gmap Z (list Z)).
Implicit Types s : fstate A D.
Implicit Types m : gmap Z (list Z).
Notation walk := (walk disk g m0).

(** ** New nodes *)

Lemma walk_add m V ab s m' a' (d : D) n a : walk m V ab s -> m ⊆ m' ->
  owns m0 a' m' (nonnull ((nd_data <$> fs_nodes (ft_tree (fx s)) ++ [n]) ++ [ft_claimed (fx s)])) ->
  node_rel m' n a -> tree_ok (shape <$> ab ++ [a]) -> Z.of_nat (length ab) < UTAMO_VFS_NODE_LIMIT ->
  0 <= total_size (ab ++ [a]) <= UTAMO_FAT32_CACHE_MAX ->
  walk m' V (ab ++ [a]) (MkFs (set_cached_bytes (total_size (ab ++ [a])) (set_nodes (fs_nodes (ft_tree (fx s)) ++ [n]) (fx s))) a' d).
Proof.
  intros Hw Hsub Ho Hr Ht Hc Hb. constructor; cbn [fx fx_store]; try apply Hw; try done.
  - destruct (wk_bits _ _ _ _ _ _ _ Hw) as (bits & Hbits & Hcb). exists bits. split; [by eapply lookup_weaken|done].
  - cbn [ft_tree set_cached_bytes set_nodes fs_nodes]. apply Forall2_app; [|by constructor].
    eapply Forall2_impl; [apply Hw|]. intros n' b (E1 & E2 & E3 & E4 & E5 & E6). split_and!; try done.
    destruct (an_size b =? 0); [done|]. destruct E6 as [? Hl]. split; [done|]. by eapply lookup_weaken.
  - rewrite length_app. cbn [length]. lia.
Qed.

(** What the checks of [directory] say about the path of a new node. *)
Lemma tree_extend m V ab s dir name kind : walk m V ab s -> (dir, true) ∈ shape <$> ab -> SLASH ∉ name ->
  vfs_path_valid (dir ++ SLASH :: name) = true -> ramfs_lookup (ft_tree (fx s)) (dir ++ SLASH :: name) = None ->
  forall a, shape a = (dir ++ SLASH :: name, kind) -> tree_ok (shape <$> ab ++ [a]).
Proof.
  intros Hw Hd Hs Hv Hl a Ea. rewrite fmap_app. cbn [fmap list_fmap]. rewrite Ea. apply tree_add; [apply Hw|done..|].
  pose proof (wk_nodes _ _ _ _ _ _ _ Hw) as Hn. pose proof (wk_count _ _ _ _ _ _ _ Hw) as Hc.
  apply ramfs_lookup_none in Hl; [|unfold fs_count; by rewrite (Forall2_length _ _ _ Hn)|done].
  intros Hin. apply Hl. rewrite <-list_fmap_compose in Hin. apply list_elem_of_fmap in Hin as (b & Eb & [i Hi]%list_elem_of_lookup).
  destruct (Forall2_lookup_r _ _ _ _ _ Hn Hi) as (n & Hni & Hr & _). rewrite Eb. cbn. rewrite <-Hr. apply list_elem_of_fmap_2. by eapply list_elem_of_lookup_2.
Qed.

Lemma pointers_null s n : nd_data n = 0 ->
  nonnull ((nd_data <$> fs_nodes (ft_tree (fx s)) ++ [n]) ++ [ft_claimed (fx s)]) = pointers s.
Proof.
  intros E. unfold pointers, nonnull. rewrite fmap_app. cbn [fmap list_fmap]. rewrite !filter_app. f_equal.
  rewrite filter_cons, decide_False by lia. by rewrite filter_nil, app_nil_r.
Qed.

Lemma pointers_new s n : nd_data n <> 0 ->
  nonnull ((nd_data <$> fs_nodes (ft_tree (fx s)) ++ [n]) ++ [ft_claimed (fx s)]) ≡ₚ nd_data n :: pointers s.
Proof.
  intros E. unfold pointers, nonnull. rewrite fmap_app. cbn [fmap list_fmap]. rewrite !filter_app.
  rewrite (filter_cons _ (nd_data n)), decide_True by lia. rewrite filter_nil. rewrite <-app_assoc. cbn [app]. by rewrite Permutation_middle.
Qed.
Lemma failed_null m V ab s n : walk m V ab s -> nd_data n = 0 ->
  failed m0 (MkFs (set_nodes (fs_nodes (ft_tree (fx s)) ++ [n]) (fx s)) (fx_store s) (fx_dev s)).
Proof.
  intros Hw E. split; [apply Hw|]. exists m. unfold own, pointers at 1. cbn [fx fx_store ft_tree set_nodes fs_nodes ft_claimed].
  rewrite pointers_null by done. apply Hw.
Qed.

Lemma walk_null m V ab s n a : walk m V ab s -> nd_data n = 0 -> node_rel m n a -> an_size a = 0 ->
  tree_ok (shape <$> ab ++ [a]) -> Z.of_nat (length ab) < UTAMO_VFS_NODE_LIMIT ->
  walk m V (ab ++ [a]) (MkFs (set_nodes (fs_nodes (ft_tree (fx s)) ++ [n]) (fx s)) (fx_store s) (fx_dev s)).
Proof.
  intros Hw E Hr Hz Ht Hc. destruct (wk_bytes _ _ _ _ _ _ _ Hw) as [Eb Hb].
  assert (total_size (ab ++ [a]) = ft_cached_bytes (fx s)) as Et by (rewrite total_size_app; unfold total_size at 2; cbn; lia).
  pose proof (walk_add m V ab s m (fx_store s) (fx_dev s) n a Hw ltac:(done)) as Hx. rewrite pointers_null in Hx by done.
  rewrite Et in Hx. apply Hx; [apply Hw|done|done|done|lia].
Qed.

Lemma set_node_data_last nodes path p q size type mode :
  set_node_data (length nodes) p (nodes ++ [MkNode path q size type mode]) = nodes ++ [MkNode path p size type mode].
Proof. unfold set_node_data. rewrite <-(Nat.add_0_r (length nodes)). by rewrite alter_app_r. Qed.

(** A file: the node, its buffer and its contents. *)
Lemma read_file_ok n m V ab s path size child mode :
  walk m V ab s -> 0 <= size -> Z.of_nat (length ab) < UTAMO_VFS_NODE_LIMIT ->
  (forall a, shape a = (path, false) -> tree_ok (shape <$> ab ++ [a])) ->
  ok (fun _ s' => exists m' cs data, file_data g disk child size cs data /\ walk m' (V ++ cs) (ab ++ [MkAnode path false size data]) s')
     (failed m0) (read_file device n (length (fs_nodes (ft_tree (fx s)))) size child
       (MkFs (set_nodes (fs_nodes (ft_tree (fx s)) ++ [MkNode path 0 size UTAMO_VFS_FILE mode]) (fx s)) (fx_store s) (fx_dev s))).
Proof.
  intros Hw Hsz Hc Ht. unfold read_file. set (node := MkNode path 0 size UTAMO_VFS_FILE mode).
  pose proof (failed_null m V ab s node Hw eq_refl) as Hf. destruct (Z.eqb_spec size 0) as [Ez|Ez].
  - fat_step; [intros Hch|done]. exists m, [], []. split; [left; split_and!; try done; lia|]. rewrite app_nil_r. unfold node. rewrite Ez.
    apply walk_null; [done|done|by split_and!|done|by apply Ht|done].
  - do 2 fat_step. cbn [fx ft_cached_bytes set_nodes]. fat_step. fat_step; [intros Hlim|done]. apply negb_true_iff, orb_false_iff in Hlim as [L1 L2].
    apply Z.ltb_ge in L1, L2. destruct (wk_bytes _ _ _ _ _ _ _ Hw) as [Eb Hb]. unfold UTAMO_FAT32_CACHE_MAX, UTAMO_FAT32_FILE_MAX in *.
    rewrite Eb, u64_small in L2 by (unfold u64_ok, UINT64_MAX; lia). fat_step. unfold alloc. cbn [fx fx_store fx_dev].
    pose proof (law_alloc (fx_store s) m size (ow_holds _ _ _ _ (wk_own _ _ _ _ _ _ _ Hw)) ltac:(unfold UINT32_MAX; lia)) as Hal.
    destruct (st_alloc (fx_store s) size) as [a' p]. cbn [ok]. destruct Hal as [[-> Hh]|(Hp & Hnone & l & Hl & Hh)].
    { fat_step. cbn [Z.eqb negb check fail ok]. split; [apply Hw|]. exists m. unfold own, pointers. cbn [fx fx_store ft_tree set_nodes fs_nodes ft_claimed].
      rewrite pointers_null by done. destruct (wk_own _ _ _ _ _ _ _ Hw). by constructor. }
    fat_step. rewrite (proj2 (Z.eqb_neq p 0)) by done. cbn [negb check ok mret fat_ret]. do 2 fat_step. cbn [fx fx_store fx_dev ft_tree set_nodes fs_nodes fs_ready ft_cached_bytes].
    unfold node. rewrite set_node_data_last. set (node' := MkNode path p size UTAMO_VFS_FILE mode). set (a := MkAnode path false size l).
    assert (total_size (ab ++ [a]) = ft_cached_bytes (fx s) +u size) as Et
      by (rewrite Eb, u64_small by (unfold u64_ok, UINT64_MAX; lia); rewrite total_size_app; unfold total_size at 2; cbn; lia).
    assert (walk (<[p := l]> m) V (ab ++ [a]) (MkFs (set_cached_bytes (ft_cached_bytes (fx s) +u size)
      (set_nodes (fs_nodes (ft_tree (fx s)) ++ [node']) (fx s))) a' (fx_dev s))) as Hw'.
    { rewrite <-Et. apply (walk_add m); try done.
      - by apply insert_subseteq.
      - rewrite pointers_new by done. eapply owns_alloc; [apply Hw|done|done].
      - unfold node_rel, a, node'. cbn [an_size an_path an_dir an_data nd_path nd_type nd_size nd_data].
        rewrite (proj2 (Z.eqb_neq size 0)) by lia. rewrite lookup_insert_eq. by split_and!.
      - by apply Ht.
      - rewrite Et, Eb, u64_small by (unfold u64_ok, UINT64_MAX; lia). unfold UTAMO_FAT32_CACHE_MAX. lia. }
    eapply ok_weaken; [eapply (file_clusters_ok device disk Hdev g Hg m0 n _ V ab path size l p []); [exact Hw'| |cbn [length]; lia|]| |done].
    + unfold last_data. cbn [fx ft_tree set_cached_bytes set_nodes fs_nodes]. by rewrite last_snoc.
    + constructor; [done|cbn [length]; lia|done].
    + intros _ s' (m' & l' & cs & Hch & [_ Hcc Hcb] & Hlen & Hw2). exists m', cs, l'. split; [|done]. right.
      cbn [app length] in *. split_and!; try done; try lia.
      * rewrite (length_chain_data device disk Hdev g Hg) in Hcc. lia.
      * rewrite <-Hcb. rewrite take_ge; [done|]. pose proof (wk_nodes _ _ _ _ _ _ _ Hw2) as Hn2. apply Forall2_app_inv_r in Hn2 as (? & ? & _ & Hn2 & _).
        apply Forall2_cons_inv_r in Hn2 as (n2 & ? & Hr2 & _). destruct Hr2 as (_ & _ & _ & Hlen2 & _). cbn [an_data an_size] in Hlen2. lia.
Qed.
End dir.

(** ** FAT32: the walk over the directories *)

Section tree.
Context {A D : Type} `{ByteStoreLaws A} (device : block_device D) (disk : Z -> list Z) (Hdev : device_shows device disk).
Context (g : fat_geometry) (Hg : geo_ok g) (m0 : gmap Z (list Z)).
Implicit Types s : fstate A D.
Implicit Types m : gmap Z (list Z).
Notation walk := (walk disk g m0).
Notation listing := (listing g disk).

(** [s] comes from a walk with clusters [V] and nodes [ab] by adding nodes [ns]
    and clusters [cl] that satisfy [P]. *)
Definition reads (V : list Z) (ab : list anode) (P : list anode -> list Z -> Prop) (s : fstate A D) : Prop :=
  exists m V' ns cl, V' ≡ₚ V ++ cl /\ walk m V' (ab ++ ns) s /\ P ns cl.

Lemma reads_none m V ab (P : list anode -> list Z -> Prop) s : walk m V ab s -> P [] [] -> reads V ab P s.
Proof. intros Hw HP. exists m, V, [], []. rewrite !app_nil_r. done. Qed.

Lemma reads_failed V ab P s : reads V ab P s -> failed m0 s.
Proof. intros (m & V' & ns & cl & _ & Hw & _). by eapply walk_failed. Qed.

Definition descends (descend : Z -> Z -> cstring -> FatM A D unit) : Prop :=
  forall child parent path m V ab s, walk m V ab s -> (path, true) ∈ shape <$> ab ->
  ok (fun _ => reads V ab (fun ns cl => exists cs scl b, chain g disk child cs /\
        listing child parent path (cs ≫= cluster_entries g disk) ns scl b /\ cl = cs ++ scl))
     (failed m0) (descend child parent path s).

(** What entry [e] contributes to the listing of its directory. *)
Definition contributes (first parent : Z) (path : cstring) (e : list Z) (ns : list anode) (cl : list Z) : Prop :=
  forall es ns2 cl2 b, listing first parent path es ns2 cl2 b -> listing first parent path (e :: es) (ns ++ ns2) (cl ++ cl2) b.

Lemma add_entry_ok n descend first parent path e m V ab s : descends descend -> walk m V ab s -> (path, true) ∈ shape <$> ab ->
  (forall name, short_name e = Some name -> live e name) ->
  ok (fun _ => reads V ab (contributes first parent path e)) (failed m0) (add_entry device n descend first path e s).
Proof.
  intros Hdesc Hw Hp Hlive. pose proof (walk_failed _ _ _ _ _ _ _ Hw) as Hf. unfold add_entry.
  destruct (short_name e) as [name|] eqn:Hname; [|done]. specialize (Hlive name eq_refl). apply short_name_no_slash in Hname.
  do 2 fat_step. fat_step. fat_step; [intros G1|done]. apply negb_true_iff, orb_false_iff in G1 as [Gc Gd]. apply Z.eqb_neq in Gc.
  fat_step. fat_step; [intros _|done]. fat_step. fat_step; [intros G2|done]. apply andb_true_iff in G2 as [Gv Gl].
  apply negb_true_iff, bool_decide_eq_false, eq_None_not_Some in Gl. do 2 fat_step. rewrite (wk_geo _ _ _ _ _ _ _ Hw).
  assert (Z.of_nat (length ab) < UTAMO_VFS_NODE_LIMIT) as Hcount.
  { pose proof (Forall2_length _ _ _ (wk_nodes _ _ _ _ _ _ _ Hw)). pose proof (wk_count _ _ _ _ _ _ _ Hw). unfold fs_count in Gc. lia. }
  pose proof (tree_extend disk g m0 m V ab s path name (is_dir e) Hw Hp Hname Gv Gl) as Ht.
  destruct (is_dir e) eqn:Ed.
  - cbn [andb] in Gd. apply negb_false_iff, Z.eqb_eq in Gd. rewrite Gd. set (a := MkAnode (path ++ SLASH :: name) true 0 []).
    eapply ok_weaken; [apply (Hdesc _ _ _ m V (ab ++ [a])); [|rewrite fmap_app; set_solver]| |done].
    { apply walk_null; [done|done|by split_and!|done|by apply Ht|done]. }
    intros _ s' (m' & V' & ns & cl & Hv & Hw' & cs & scl & b & Hch & Hls & ->). exists m', V', (a :: ns), (cs ++ scl).
    rewrite <-app_assoc in Hw'. split; [done|]. split; [done|]. intros es ns2 cl2 b2 Hes. cbn [app]. rewrite <-app_assoc. by eapply ls_dir.
  - eapply ok_weaken; [eapply (read_file_ok device disk Hdev g Hg m0); [done|apply get32_range|done|exact Ht]| |done].
    intros _ s' (m' & cs & data & Hfd & Hw'). eexists m', _, _, cs. split; [done|]. split; [done|].
    intros es ns2 cl2 b2 Hes. by eapply ls_file.
Qed.

Lemma dir_entry_ok n descend first parent path e m V ab s : descends descend -> walk m V ab s -> (path, true) ∈ shape <$> ab ->
  ok (fun ended : bool => reads V ab (fun ns cl => if ended then byte_of e 0 = 0 /\ ns = [] /\ cl = [] else contributes first parent path e ns cl))
     (failed m0) (dir_entry device n descend first parent path e s).
Proof.
  intros Hdesc Hw Hp. pose proof (walk_failed _ _ _ _ _ _ _ Hw) as Hf. unfold dir_entry.
  assert (forall P : Prop, skipped first parent e -> P -> reads V ab (contributes first parent path e) s) as Hskip.
  { intros P Hs _. eapply reads_none; [done|]. intros es ns2 cl2 b Hl. by apply ls_skip. }
  destruct (Z.eqb_spec (byte_of e 0) 0) as [E0|E0]; [by eapply reads_none|].
  destruct (Z.eqb_spec (byte_of e 0) 0xe5) as [E1|E1]; cbn [orb]; [by eapply (Hskip True); [split; tauto|]|].
  destruct (Z.eqb_spec (byte_of e 11) 0x0f) as [E2|E2]; [by eapply (Hskip True); [split; tauto|]|].
  destruct (Z.eqb_spec (Z.land (byte_of e 11) 0xc0) 0) as [E3|E3]; cbn [negb]; [|done].
  destruct (Z.eqb_spec (Z.land (byte_of e 11) 8) 0) as [E4|E4]; cbn [negb]; cycle 1.
  { fold (is_dir e). destruct (is_dir e) eqn:Ed; [done|]. eapply (Hskip True); [split; tauto|done]. }
  destruct (Z.eqb_spec (byte_of e 0) 46) as [E5|E5].
  - fat_step. fat_step; [intros G|done]. apply negb_true_iff in G. do 3 (apply orb_false_iff in G as [G ?]). rewrite !negb_false_iff in *.
    cbn [ok mret fat_ret]. eapply (Hskip True); [|done]. split; [done|]. do 3 right. split; [done|]. split; [lia|].
    destruct (bool_decide_reflect (name_bytes e = DOT)) as [Ed|Ed]; [left; split; [done|lia]|].
    destruct (bool_decide_reflect (name_bytes e = DOTDOT)) as [Edd|Edd]; [right; split; [done|lia]|done].
  - fat_step. eapply ok_weaken; [eapply add_entry_ok; [done|exact Hw|done|intros name Hn; unfold live; by split_and!]|intros [] s' Hr; exact Hr|done].
Qed.

Lemma dir_entries_ok n descend first parent path es : forall m V ab s, descends descend -> walk m V ab s -> (path, true) ∈ shape <$> ab ->
  ok (fun ended => reads V ab (fun ns cl => listing first parent path es ns cl ended))
     (failed m0) (dir_entries device n descend first parent path es s).
Proof.
  induction es as [|e es IH]; intros m V ab s Hdesc Hw Hp; cbn [dir_entries]; [by eapply reads_none; [done|constructor]|].
  fat_step. eapply ok_weaken; [eapply dir_entry_ok; [done|exact Hw|done]| |done]. intros ended s1 (m1 & V1 & ns1 & cl1 & Hv1 & Hw1 & Hc). cbv beta.
  destruct ended; cbn [ok mret fat_ret].
  - destruct Hc as (E0 & -> & ->). exists m1, V1, [], []. split; [done|]. split; [done|]. by apply ls_end.
  - eapply ok_weaken; [eapply IH; [done|exact Hw1|rewrite fmap_app; set_solver]| |done].
    intros ended s2 (m2 & V2 & ns2 & cl2 & Hv2 & Hw2 & Hl). exists m2, V2, (ns1 ++ ns2), (cl1 ++ cl2). rewrite <-app_assoc in Hw2.
    split; [by rewrite Hv2, Hv1, app_assoc|]. split; [done|]. by apply Hc.
Qed.

Lemma dir_sectors_ok steps n descend first parent path c : forall m V ab s i (ended : bool), descends descend -> walk m V ab s ->
  (path, true) ∈ shape <$> ab -> valid_cluster g c = true -> 0 <= i -> Z.of_nat steps = g_sectors_per_cluster g - i ->
  ok (fun ended' => reads V ab (fun ns cl => if ended then ended' = true /\ ns = [] /\ cl = []
        else listing first parent path (sectors_from disk g c i ≫= entries_of) ns cl ended'))
     (failed m0) (dir_sectors device steps n descend first parent path c i ended s).
Proof.
  induction steps as [|steps IH]; intros m V ab s i ended Hdesc Hw Hp Hv Hi Hst; cbn [dir_sectors].
  { eapply reads_none; [done|]. destruct ended; [done|]. rewrite sectors_from_nil by lia. constructor. }
  destruct ended; [by eapply reads_none|]. do 2 fat_step. rewrite (wk_geo _ _ _ _ _ _ _ Hw). pose proof (go_spc _ Hg) as Hspc.
  rewrite (cluster_lba_eq g Hg) by (done || lia). fat_step. apply (sector_ok device disk Hdev); [|intros; by eapply walk_failed, walk_reads].
  intros r d. fat_step. eapply ok_weaken; [eapply dir_entries_ok; [done|by apply walk_reads|done]| |done].
  intros ended s1 (m1 & V1 & ns1 & cl1 & Hv1 & Hw1 & Hl1). cbv beta.
  eapply ok_weaken; [eapply IH; [done|exact Hw1|rewrite fmap_app; set_solver|done|lia|lia]| |done].
  intros ended2 s2 (m2 & V2 & ns2 & cl2 & Hv2 & Hw2 & Hl2). exists m2, V2, (ns1 ++ ns2), (cl1 ++ cl2). rewrite <-app_assoc in Hw2.
  split; [by rewrite Hv2, Hv1, app_assoc|]. split; [done|]. rewrite sectors_from_cons by lia. rewrite bind_cons.
  destruct ended; [|by apply listing_app]. destruct Hl2 as (-> & -> & ->). rewrite !app_nil_r. by apply listing_ended.
Qed.

Lemma dir_clusters_ok n : forall depth first parent path c ended m V ab s, walk m V ab s -> (path, true) ∈ shape <$> ab ->
  ok (fun _ => reads V ab (fun ns cl => exists cs scl b, chain g disk c cs /\
        (if ended : bool then ns = [] /\ scl = [] else listing first parent path (cs ≫= cluster_entries g disk) ns scl b) /\ cl = cs ++ scl))
     (failed m0) (dir_clusters device n depth first parent path c ended s).
Proof.
  induction n as [|n IH]; intros depth first parent path c ended m V ab s Hw Hp; cbn [dir_clusters]; [by eapply walk_failed|].
  set (descend := fun child parent path => _). assert (descends descend) as Hdesc.
  { intros child parent' path' m' V' ab' s' Hw' Hp'. unfold descend. destruct (8 <? depth + 1); [by eapply walk_failed|]. by eapply (IH _ _ _ _ _ false). }
  apply ok_bind. eapply ok_weaken; [exact (claim_ok disk g m0 m V ab s c Hw)| |done]. intros _ s1 (Hv & _ & _ & m1 & Hw1). cbv beta.
  do 2 fat_step. rewrite (wk_geo _ _ _ _ _ _ _ Hw1). pose proof (go_spc _ Hg) as Hspc. fat_step.
  eapply ok_weaken; [eapply dir_sectors_ok; [done|exact Hw1|done|done|lia|lia]| |done].
  intros ended2 s2 (m2 & V2 & ns2 & cl2 & Hv2 & Hw2 & Hl2). cbv beta. fat_step. rewrite sectors_from_0 in Hl2. fold (cluster_entries g disk c) in Hl2.
  assert (0 <= c) as Hc0 by (unfold valid_cluster in Hv; lia).
  eapply ok_weaken; [apply (entry_ok device disk Hdev g Hg); [apply Hw2|apply Hw2|done]| |intros s3 Hq; eapply failed_quiet; [done|by eapply walk_failed]].
  intros next s3 (-> & Hq & Hca). cbv beta. pose proof (walk_quiet _ _ _ _ _ _ _ _ Hq Hca Hw2) as Hw3.
  destruct (Z.leb_spec 0x0ffffff8 (fat_next g disk c)) as [Heoc|Hne].
  - cbn [ok mret fat_ret]. exists m2, V2, ns2, (c :: cl2). split; [by rewrite Hv2, <-app_assoc|]. split; [done|].
    exists [c], cl2, ended2. split; [by apply chain_last|]. rewrite bind_cons, app_nil_r. split; [|done].
    destruct ended; [by destruct Hl2 as (_ & -> & ->)|done].
  - fat_step. fat_step; [intros Hvn|intros _; by eapply walk_failed].
    eapply ok_weaken; [apply (IH depth first parent path _ ended2 m2 V2 (ab ++ ns2) s3 Hw3); rewrite fmap_app; set_solver| |done].
    intros _ s4 (m4 & V4 & ns4 & cl4 & Hv4 & Hw4 & cs & scl & b & Hch & Hl4 & ->). exists m4, V4, (ns2 ++ ns4), (c :: cs ++ cl2 ++ scl).
    rewrite <-app_assoc in Hw4. split; [rewrite Hv4, Hv2; solve_Permutation|]. split; [done|]. exists (c :: cs), (cl2 ++ scl), (ended2 || b).
    split; [by apply chain_next|]. rewrite bind_cons. split; [|done].
    destruct ended; [destruct Hl2 as (-> & -> & ->); by destruct Hl4 as [-> ->]|].
    destruct ended2; [destruct Hl4 as [-> ->]; rewrite !app_nil_r; by apply listing_ended|by apply listing_app].
Qed.
End tree.

(** ** FAT32: the walk ends, and its step bound is never reached

    Every turn of the loops over clusters claims a cluster, and at most 16384
    claims succeed, so a walk with more steps than remaining claims behaves
    the same for any larger number of steps. *)


Section fuel.
Context {A D : Type} `{ByteStore A} (device : block_device D).
Implicit Types s : fstate A D.
Notation visited s := (ft_visited (fx s)).
Notation M := (FatM A D).

(** Successful operations never give claims back. *)
Definition mono {X} (f : M X) : Prop := forall s, visited s <= 16384 -> 0 <= visited s ->
  ok (fun _ s' => visited s <= visited s' <= 16384) (fun _ => True) (f s).
(** Equal from [v] claims on. *)
Definition agree {X} (v : Z) (f f' : M X) : Prop := forall s, v <= visited s <= 16384 -> f s = f' s.

Lemma mono_bind {X Y} (f : M X) (k : X -> M Y) : mono f -> (forall x, mono (k x)) -> mono (f ≫= k).
Proof.
  intros Hf Hk s Hv H0. apply ok_bind. eapply ok_weaken; [by apply Hf| |done]. cbv beta. intros x s1 H1.
  eapply ok_weaken; [apply Hk; lia| |done]. cbv beta. intros; lia.
Qed.

Lemma mono_ret {X} (x : X) : mono (mret x).
Proof. intros s ? ?. cbn. lia. Qed.
Lemma mono_fail {X} : mono (fail : M X).
Proof. by intros s ? ?. Qed.
Lemma mono_get : mono get.
Proof. intros s ? ?. cbn. lia. Qed.
Lemma mono_check b : mono (check b).
Proof. destruct b; [apply mono_ret|apply mono_fail]. Qed.
Lemma mono_modify f : (forall fs, ft_visited (f fs) = ft_visited fs) -> mono (modify f).
Proof. intros E s ? ?. cbn. rewrite E. lia. Qed.
Lemma mono_alloc n : mono (alloc n).
Proof. intros s ? ?. unfold alloc. destruct (st_alloc _ _). cbn. lia. Qed.
Lemma mono_store p v : mono (store p v).
Proof. intros s ? ?. cbn. lia. Qed.
Lemma mono_device lba : mono (device_read device lba).
Proof. intros s ? ?. unfold device_read. destruct (block_read _ _ _ _) as [d [x|]]; cbn; [lia|done]. Qed.

Create HintDb fat_mono.
#[local] Hint Resolve mono_ret mono_fail mono_get mono_check mono_alloc mono_store mono_device : fat_mono.

Ltac mono_solve := repeat first
  [ solve [auto with fat_mono]
  | match goal with |- mono (_ ≫= _) => apply mono_bind; [|intros ?] end
  | apply mono_modify; solve [done]
  | match goal with |- mono (if ?b then _ else _) => destruct b end
  | match goal with |- mono (match ?x with Some _ => _ | None => _ end) => destruct x end ].

Lemma mono_sector lba : mono (sector device lba).
Proof. unfold sector. mono_solve. Qed.
#[local] Hint Resolve mono_sector : fat_mono.

Lemma mono_entry c : mono (entry device c).
Proof. unfold entry, fill_cache. mono_solve. Qed.
#[local] Hint Resolve mono_entry : fat_mono.

Lemma claim_visited c s : visited s <= 16384 -> 0 <= visited s ->
  ok (fun _ s' => visited s' = visited s + 1 /\ visited s' <= 16384) (fun _ => True) (claim c s).
Proof.
  intros Hv H0. unfold claim. do 2 fat_step. fat_step. fat_step; [intros _|done]. do 2 fat_step. fat_step. fat_step; [intros Hle|done].
  rewrite negb_true_iff, Z.ltb_ge, u32_small in Hle by (unfold UINT32_MAX; lia).
  apply ok_bind. cbn [load ok]. fat_step. fat_step; [intros _|done]. cbn [store ok fx ft_visited set_visited].
  rewrite u32_small by (unfold UINT32_MAX; lia). lia.
Qed.

Lemma mono_claim c : mono (claim c).
Proof. intros s Hv H0. eapply ok_weaken; [by apply claim_visited| |done]. cbv beta. intros _ s' ?. lia. Qed.
#[local] Hint Resolve mono_claim : fat_mono.

Lemma mono_file_sectors steps : forall p size c i copied, mono (file_sectors device steps p size c i copied).
Proof. induction steps as [|steps IH]; intros; cbn [file_sectors]; mono_solve; apply IH. Qed.
#[local] Hint Resolve mono_file_sectors : fat_mono.

Lemma mono_file_clusters n : forall p size c copied, mono (file_clusters device n p size c copied).
Proof. induction n as [|n IH]; intros; cbn [file_clusters]; mono_solve; apply IH. Qed.
#[local] Hint Resolve mono_file_clusters : fat_mono.

Lemma mono_add_entry n descend first path e : (forall c p q, mono (descend c p q)) -> mono (add_entry device n descend first path e).
Proof. intros Hd. unfold add_entry, read_file. destruct (short_name e); mono_solve; apply Hd. Qed.

Lemma mono_dir_entry n descend first parent path e : (forall c p q, mono (descend c p q)) -> mono (dir_entry device n descend first parent path e).
Proof. intros Hd. unfold dir_entry. mono_solve. by apply mono_add_entry. Qed.

Lemma mono_dir_entries n descend first parent path es : (forall c p q, mono (descend c p q)) -> mono (dir_entries device n descend first parent path es).
Proof. intros Hd. induction es as [|e es IH]; cbn [dir_entries]; mono_solve; first [by apply mono_dir_entry|apply IH]. Qed.

Lemma mono_dir_sectors steps n descend first parent path c : (forall c p q, mono (descend c p q)) ->
  forall i ended, mono (dir_sectors device steps n descend first parent path c i ended).
Proof. intros Hd. induction steps as [|steps IH]; intros i ended; cbn [dir_sectors]; mono_solve; first [by apply mono_dir_entries|apply IH]. Qed.

Lemma mono_dir_clusters n : forall depth first parent path c ended, mono (dir_clusters device n depth first parent path c ended).
Proof.
  induction n as [|n IH]; intros; cbn [dir_clusters]; mono_solve. apply mono_dir_sectors. intros. destruct (_ <? _); mono_solve.
Qed.

(** ** Agreement *)

Lemma agree_bind {X Y} v (f f' : M X) (k k' : X -> M Y) : 0 <= v -> mono f -> agree v f f' -> (forall x, agree v (k x) (k' x)) ->
  agree v (f ≫= k) (f' ≫= k').
Proof.
  intros H0 Hm Hf Hk s Hs. unfold mbind, fat_bind. rewrite <-(Hf s Hs). pose proof (Hm s ltac:(lia) ltac:(lia)) as Hok.
  destruct (f s) as [s' [x|]]; [|done]. apply Hk. cbn in Hok. lia.
Qed.

Lemma agree_same {X Y} v (f : M X) (k k' : X -> M Y) : 0 <= v -> mono f -> (forall x, agree v (k x) (k' x)) -> agree v (f ≫= k) (f ≫= k').
Proof. intros. by apply agree_bind. Qed.

Lemma agree_claim {Y} v c (k k' : unit -> M Y) : 0 <= v -> (forall x, agree (v + 1) (k x) (k' x)) -> agree v (claim c ≫= k) (claim c ≫= k').
Proof.
  intros H0 Hk s Hs. unfold mbind, fat_bind. pose proof (claim_visited c s ltac:(lia) ltac:(lia)) as Hok.
  destruct (claim c s) as [s' [x|]]; [|done]. apply Hk. cbn in Hok. lia.
Qed.

Lemma agree_file_clusters n : forall k v p size c copied, 0 <= v -> 16384 < Z.of_nat n + v -> (n <= k)%nat ->
  agree v (file_clusters device k p size c copied) (file_clusters device n p size c copied).
Proof.
  induction n as [|n IH]; intros k v p size c copied H0 Hn Hk; [intros s Hs; lia|]. destruct k as [|k]; [lia|]. cbn [file_clusters].
  apply agree_claim; [done|]. intros _. apply agree_same; [lia|mono_solve|]. intros fs. apply agree_same; [lia|mono_solve|]. intros copied'.
  apply agree_same; [lia|mono_solve|]. intros next. destruct (copied' =? size); [done|]. apply agree_same; [lia|mono_solve|]. intros _. apply IH; lia.
Qed.

Lemma agree_dir_entries n k v descend descend' first parent path es : 0 <= v -> 16384 < Z.of_nat n + v -> (n <= k)%nat ->
  (forall c p q, mono (descend c p q)) -> (forall c p q, mono (descend' c p q)) -> (forall c p q, agree v (descend' c p q) (descend c p q)) ->
  agree v (dir_entries device k descend' first parent path es) (dir_entries device n descend first parent path es).
Proof.
  intros H0 Hn Hk Hm Hm' Hd. induction es as [|e es IH]; [done|]. cbn [dir_entries]. apply agree_bind; [done|by apply mono_dir_entry| |].
  - unfold dir_entry. repeat (match goal with |- agree _ (if ?b then _ else _) _ => destruct b end; [done|]).
    apply agree_bind; [done|by apply mono_add_entry| |done].
    unfold add_entry. destruct (short_name e) as [name|]; [|done]. do 5 (apply agree_same; [done|mono_solve|]; intros ?).
    destruct (is_dir e); [apply Hd|]. unfold read_file. destruct (get32 e 28 =? 0); [done|].
    do 5 (apply agree_same; [done|mono_solve|]; intros ?). by apply agree_file_clusters.
  - intros [|]; [done|apply IH].
Qed.

Lemma agree_dir_sectors steps n k v descend descend' first parent path c : 0 <= v -> 16384 < Z.of_nat n + v -> (n <= k)%nat ->
  (forall c p q, mono (descend c p q)) -> (forall c p q, mono (descend' c p q)) -> (forall c p q, agree v (descend' c p q) (descend c p q)) ->
  forall i ended, agree v (dir_sectors device steps k descend' first parent path c i ended) (dir_sectors device steps n descend first parent path c i ended).
Proof.
  intros H0 Hn Hk Hm Hm' Hd. induction steps as [|steps IH]; intros i ended; [done|]. cbn [dir_sectors]. destruct ended; [done|].
  apply agree_same; [lia|mono_solve|]. intros fs'. apply agree_same; [lia|mono_solve|]. intros data.
  apply agree_bind; [lia|by apply mono_dir_entries|by apply agree_dir_entries|intros e; apply IH].
Qed.

Lemma agree_dir_clusters n : forall k v depth first parent path c ended, 0 <= v -> 16384 < Z.of_nat n + v -> (n <= k)%nat ->
  agree v (dir_clusters device k depth first parent path c ended) (dir_clusters device n depth first parent path c ended).
Proof.
  induction n as [|n IH]; intros k v depth first parent path c ended H0 Hn Hk; [intros s Hs; lia|]. destruct k as [|k]; [lia|]. cbn [dir_clusters].
  apply agree_claim; [done|]. intros _. apply agree_same; [lia|mono_solve|]. intros fs.
  assert (forall n c p (q : cstring), mono (if 8 <? depth + 1 then fail else dir_clusters device n (depth + 1) c p q c false)) as Hmono
    by (intros; destruct (_ <? _); mono_solve; apply mono_dir_clusters).
  apply agree_bind; [lia|by apply mono_dir_sectors| |].
  - apply agree_dir_sectors; try lia; [apply Hmono|apply Hmono|]. intros c' p' q'. destruct (8 <? depth + 1); [done|]. apply IH; lia.
  - intros e. apply agree_same; [lia|mono_solve|]. intros next. destruct (_ <=? _); [done|].
    apply agree_same; [lia|mono_solve|]. intros _. apply IH; lia.
Qed.
End fuel.
