(* ===== verification/Fat32Import.v ===== *)
(** * FAT32: [fat32_import] as a whole, and mounting what it yields *)

From stdpp Require Import gmap.
From S2P Require Import Prelude Bytes Vfs VfsTree VfsProps Fat32 Fat32Read Fat32Tree.
Open Scope Z_scope.

Lemma get16_range p i : 0 <= get16 p i < 65536.
Proof. unfold get16, u16. apply Z.mod_pos_bound. lia. Qed.

Lemma land_15 x : 0 <= Z.land x 15 <= 15.
Proof. change 15 with (Z.ones 4) at 1 2. rewrite land_low_mask by lia. change (2 ^ 4) with 16. dlia. Qed.

Lemma boot_geometry_ok {D} (device : block_device D) boot g : boot_geometry device boot = Some g -> geo_ok g.
Proof.
  unfold boot_geometry. pose proof (get16_range boot 14). pose proof (get32_range boot 32). pose proof (get32_range boot 36).
  pose proof (byte_of_range boot 13). pose proof (byte_of_range boot 16). unfold UINT32_MAX in *.
  set (overhead := u64 (get16 boot 14 + u64 (byte_of boot 16 * get32 boot 36))). assert (0 <= overhead) as Ho by (unfold overhead, u64; apply Z.mod_pos_bound; lia).
  destruct (_ || _) eqn:G; [done|]. do 17 (apply orb_false_iff in G as [G ?]). repeat match goal with H : (_ <=? _) = false |- _ => apply Z.leb_gt in H end.
  destruct (_ || _ || _) eqn:G2; [done|]. do 2 (apply orb_false_iff in G2 as [G2 ?]).
  set (active := if Z.land (get16 boot 40) 128 =? 0 then 0 else Z.land (get16 boot 40) 15). assert (0 <= active <= 15) as Ha by (unfold active; destruct (Z.land (get16 boot 40) 128 =? 0); [lia|apply land_15]).
  destruct (byte_of boot 16 <=? active); [done|]. intros [= <-].
  constructor; cbn [g_clusters g_sectors_per_cluster g_fat_start g_fat_sectors g_data_start g_active_fat]; unfold UINT32_MAX in *; try lia.
  rewrite u32_small by (unfold UINT32_MAX; lia). lia.
Qed.

Lemma claimed_bits_empty g : 0 <= g_clusters g -> claimed_bits g (replicate (Z.to_nat ((g_clusters g + 7) / 8)) 0) [].
Proof.
  intros Hg. split; [rewrite length_replicate; dlia|]. intros i Hi. rewrite bool_decide_eq_false_2 by apply not_elem_of_nil.
  unfold arr_get. rewrite lookup_total_replicate_2 by dlia. apply Z.testbit_0_l.
Qed.

Section import.
Context {A D : Type} `{ByteStoreLaws A} (device : block_device D) (disk : Z -> list Z) (Hdev : device_shows device disk).
Implicit Types s : fstate A D.
Implicit Types m : gmap Z (list Z).

Definition disk_anode : anode := MkAnode (nd_path disk_node) true 0 [].

(** The tree is the listing of the volume, [m] has its buffers, and no
    cluster was used twice. *)
Record imported (m0 m : gmap Z (list Z)) (g : fat_geometry) (cs cl : list Z) (ns : list anode) (s : fstate A D) : Prop := {
  im_geo : boot_geometry device (disk 0) = Some g;
  im_chain : chain g disk (g_root_cluster g) cs;
  im_listing : exists b, listing g disk (g_root_cluster g) 0 (nd_path disk_node) (cs ≫= cluster_entries g disk) ns cl b;
  im_clusters : NoDup (cs ++ cl) /\ Z.of_nat (length (cs ++ cl)) <= 16384;
  im_ready : fs_ready (ft_tree (fx s)) = true;
  im_nodes : Forall2 (node_rel m) (fs_nodes (ft_tree (fx s))) (disk_anode :: ns);
  im_tree : tree_ok (shape <$> disk_anode :: ns);
  im_count : fs_count (ft_tree (fx s)) <= UTAMO_VFS_NODE_LIMIT;
  im_bytes : total_size ns <= UTAMO_FAT32_CACHE_MAX;
  im_owns : owns m0 (fx_store s) m (nonnull (nd_data <$> fs_nodes (ft_tree (fx s))))
}.

Lemma owns_none m0 a : st_holds a m0 -> owns m0 a m0 [].
Proof. intros Hh. constructor; try done; [cbn; set_solver|constructor|]. intros p Hp. by apply elem_of_nil in Hp. Qed.

(** The walk starts with an empty bitmap and the node "/disk". *)
Lemma walk_start g m0 p l s (a0 a : A) (d : D) : geo_ok g -> ft_geo (fx s) = g -> ft_memory (fx s) = true -> ft_visited (fx s) = 0 ->
  ft_cached_bytes (fx s) = 0 -> cache_ok g disk (fx s) -> p <> 0 -> st_holds a0 m0 -> m0 !! p = None ->
  Z.of_nat (length l) = (g_clusters g + 7) / 8 -> st_holds a (<[p := l]> m0) ->
  walk disk g m0 (<[p := replicate (Z.to_nat ((g_clusters g + 7) / 8)) 0]> m0) [] [disk_anode]
    (MkFs (set_nodes [disk_node] (set_claimed p (fx s))) (st_write a p (replicate (Z.to_nat ((g_clusters g + 7) / 8)) 0)) d).
Proof.
  intros Hg Eg Em Ev Eb Hc Hp H00 Hn Hl Hh. pose proof (go_clusters _ Hg) as Hcl.
  pose proof (law_write a (<[p := l]> m0) p l 0 (replicate (Z.to_nat ((g_clusters g + 7) / 8)) 0) Hh (lookup_insert_eq _ _ _) ltac:(lia)) as Hw.
  rewrite length_replicate in Hw. specialize (Hw ltac:(dlia)). rewrite insert_insert_eq, Z.add_0_r in Hw. unfold splice in Hw. cbn [Z.to_nat take app] in Hw.
  rewrite length_replicate, drop_ge, app_nil_r in Hw by dlia.
  constructor; cbn [fx fx_store ft_tree ft_geo ft_memory ft_claimed ft_visited ft_cached_bytes set_nodes set_claimed fs_nodes]; try done.
  - unfold own, pointers. cbn [fx ft_tree ft_claimed set_nodes set_claimed fs_nodes fx_store].
    assert (nonnull ((nd_data <$> [disk_node]) ++ [p]) = [p]) as ->.
    { unfold nonnull. cbn [fmap list_fmap app disk_node nd_data]. rewrite filter_cons_False by lia. rewrite filter_cons_True by done. done. }
    apply (owns_alloc m0 a0); [by apply owns_none|done|done].
  - eexists. split; [apply lookup_insert_eq|]. apply claimed_bits_empty. lia.
  - constructor.
  - constructor; [|constructor]. by split_and!.
  - constructor.
Qed.
(** Releasing the bitmap ends a successful walk. *)
Lemma walk_finish g m0 m V cs scl ns b s : boot_geometry device (disk 0) = Some g -> V ≡ₚ cs ++ scl ->
  chain g disk (g_root_cluster g) cs ->
  listing g disk (g_root_cluster g) 0 (nd_path disk_node) (cs ≫= cluster_entries g disk) ns scl b ->
  walk disk g m0 m V (disk_anode :: ns) s ->
  imported m0 (delete (ft_claimed (fx s)) m) g cs scl ns
    (MkFs (set_ready (set_claimed 0 (fx s))) (st_free (fx_store s) (ft_claimed (fx s))) (fx_dev s)).
Proof.
  intros Eg HV Hch Hls Hw. pose proof (wk_own _ _ _ _ _ _ _ Hw) as Ho. unfold own, pointers, nonnull in Ho. rewrite filter_app in Ho.
  pose proof (wk_claimed _ _ _ _ _ _ _ Hw) as Hc. rewrite (filter_cons_True _ (ft_claimed (fx s))), filter_nil in Ho by done.
  rewrite Permutation_app_comm in Ho. cbn [app] in Ho.
  constructor; cbn [fx fx_store ft_tree set_ready set_claimed fs_ready fs_nodes]; try done.
  - by exists b.
  - rewrite <-HV. split; apply Hw.
  - pose proof (wk_nodes _ _ _ _ _ _ _ Hw) as Hn. apply Forall2_same_length_lookup_2; [by eapply Forall2_length|]. intros i n a Hi Ha.
    destruct (Forall2_lookup_lr _ _ _ _ _ _ Hn Hi Ha) as (R1 & R2 & R3 & R4 & R5 & R6). split_and!; try done.
    destruct (an_size a =? 0); [done|]. destruct R6 as [Hnz Hl]. split; [done|].
    rewrite lookup_delete_ne; [done|]. intros E. by apply (node_pointer disk g m0 _ _ _ _ _ _ Hw Hi Hnz).
  - apply Hw.
  - unfold fs_count. cbn [fs_nodes]. rewrite (Forall2_length _ _ _ (wk_nodes _ _ _ _ _ _ _ Hw)). apply Hw.
  - destruct (wk_bytes _ _ _ _ _ _ _ Hw) as [_ Hb]. unfold total_size in *. cbn in Hb. unfold total_size. lia.
  - by apply owns_free.
Qed.

Lemma import_body_ok n m0 s : fx s = fat32_zero -> st_holds (fx_store s) m0 ->
  ok (fun _ s' => exists m g cs cl ns, imported m0 m g cs cl ns s') (failed m0) (import_body device n s).
Proof.
  intros Ez Hh. unfold import_body. do 2 fat_step. rewrite Ez.
  assert (forall s', ft_memory (fx s') = true -> fs_nodes (ft_tree (fx s')) = [] -> ft_claimed (fx s') = 0 -> st_holds (fx_store s') m0 -> failed m0 s') as Hfail.
  { intros s' Em En Ec Hs'. split; [done|]. exists m0. unfold own, pointers. rewrite En, Ec. cbn. by apply owns_none. }
  fat_step. apply (sector_ok device disk Hdev); [|intros; by apply Hfail]. intros r d. cbn [fx fx_store].
  destruct (boot_geometry device (disk 0)) as [g|] eqn:Eg; [|by apply Hfail]. pose proof (boot_geometry_ok _ _ _ Eg) as Hg.
  do 2 fat_step. fat_step. fat_step; [intros Hroot|intros _; by apply Hfail]. fat_step. cbn [fx fx_store fx_dev].
  eapply ok_weaken; [apply (entry_ok device disk Hdev g Hg); [done|done|lia]| |].
  2: { intros s1 Hq1. eapply failed_quiet; [exact Hq1|by apply Hfail]. }
  intros first s1 (_ & Hq1 & Hc1). cbv beta. fat_step.
  eapply ok_weaken; [apply (entry_ok device disk Hdev g Hg); [by rewrite (qt_geo _ _ Hq1)|done|lia]| |].
  2: { intros s2 Hq2. eapply failed_quiet; [exact (quiet_trans _ _ _ Hq1 Hq2)|by apply Hfail]. }
  intros second s2 (_ & Hq2 & Hc2). cbv beta. pose proof (quiet_trans _ _ _ Hq1 Hq2) as [Q1 Q2 Q3 Q4 Q5 Q6 Q7]. cbn [fx fx_store] in *. clear Hq1 Hq2 Hc1 s1.
  fat_step. fat_step; [intros _|intros _; apply Hfail; [done|by rewrite Q1|done|by rewrite Q7]]. fat_step. unfold alloc. pose proof (go_clusters _ Hg) as Hcl. unfold UTAMO_FAT32_CLUSTER_MAX in Hcl.
  pose proof (law_alloc (fx_store s2) m0 ((g_clusters g + 7) / 8) ltac:(by rewrite Q7) ltac:(unfold UINT32_MAX; dlia)) as Hal.
  destruct (st_alloc (fx_store s2) _) as [a' p]. cbn [ok]. do 2 fat_step. cbn [fx fx_store fx_dev]. fat_step.
  destruct Hal as [[-> Hh']|(Hp & Hnone & l & Hl & Hh')].
  { fat_step; [done|]. intros _. apply Hfail; [done|by cbn; rewrite Q1|done|done]. }
  rewrite (proj2 (Z.eqb_neq p 0)) by done. cbn [negb check ok mret fat_ret]. apply ok_bind. cbn [store ok fx fx_store fx_dev]. do 2 fat_step. cbn [fx fx_store fx_dev].
  pose proof (walk_start g m0 p l s2 (fx_store s2) a' (fx_dev s2) Hg Q4 Q2 Q5 Q6 Hc2 Hp ltac:(by rewrite Q7) Hnone Hl Hh') as Hw.
  unfold directory. cbn [Z.ltb Z.compare]. fat_step.
  eapply ok_weaken; [eapply (dir_clusters_ok device disk Hdev g Hg m0 n 0); [exact Hw|left]| |done].
  intros _ s4 (m4 & V4 & ns & cl & Hv4 & Hw4 & cs & scl & b & Hch & Hls & ->). cbn [app] in Hv4. cbv beta.
  do 3 fat_step. cbn [release ok]. do 3 fat_step. exists (delete (ft_claimed (fx s4)) m4), g, cs, scl, ns.
  exact (walk_finish g m0 m4 V4 cs scl ns b s4 Eg Hv4 Hch Hls Hw4).
Qed.
End import.

(** ** FAT32: an imported volume is a tree that can be mounted *)

Lemma last_slash_le path j e : (forall k, (j < k <= e)%nat -> str_get path (Z.of_nat k) <> SLASH) -> (last_slash path e <= j)%nat.
Proof.
  induction e as [|e IH]; intros Hk; cbn [last_slash]; [lia|]. destruct (Z.eqb_spec (str_get path (Z.of_nat (S e))) SLASH) as [E|_]; cbn [negb].
  - destruct (decide (j < S e)%nat); [|lia]. exfalso. apply (Hk (S e)); [lia|done].
  - apply IH. intros k ?. apply Hk. lia.
Qed.

Lemma last_slash_app dir name : dir <> [] -> SLASH ∉ name -> last_slash (dir ++ SLASH :: name) (length (dir ++ SLASH :: name)) = length dir.
Proof.
  intros Hd Hn. apply Nat.le_antisymm.
  - apply last_slash_le. intros k Hk Hc. apply Hn. unfold str_get in Hc. rewrite Nat2Z.id, lookup_app_r in Hc by lia.
    destruct (k - length dir)%nat as [|i] eqn:E; [lia|]. cbn [lookup list_lookup] in Hc. destruct (name !! i) as [x|] eqn:Ex; [|done]. cbn in Hc. subst x.
    by eapply list_elem_of_lookup_2.
  - apply last_slash_ge; [|rewrite length_app; destruct dir; [done|cbn [length]; lia]]. unfold str_get. rewrite Nat2Z.id, list_lookup_middle; done.
Qed.

Lemma tree_ok_facts t : tree_ok t -> forall i p k, t !! i = Some (p, k) ->
  vfs_path_valid p = true /\ p ∉ (take i t).*1 /\ take 5 p = nd_path disk_node /\
  if decide (i = 0%nat) then p = nd_path disk_node /\ k = true
  else str_get p 5 = SLASH /\ exists dir name, (dir, true) ∈ t /\ p = dir ++ SLASH :: name /\ SLASH ∉ name /\ dir <> [].
Proof.
  induction 1 as [|t dir name kind Ht IH Hd Hs Hv Hn]; intros i p k Hi.
  - destruct i as [|i]; [|done]. cbn in Hi. injection Hi as <- <-. split_and!; [by vm_compute|by intros ?%elem_of_nil|done..].
  - apply lookup_app_Some in Hi as [Hi|[Hge Hi]].
    + destruct (IH i p k Hi) as (F1 & F2 & F3 & F4). rewrite take_app_le by (apply lookup_lt_Some in Hi; lia). split_and!; try done.
      destruct (decide (i = 0%nat)); [done|]. destruct F4 as (F4 & d & nm & F5 & F6). split; [done|]. exists d, nm. split; [set_solver|done].
    + destruct (i - length t)%nat as [|j] eqn:Ej; [|done]. cbn in Hi. injection Hi as <- <-. assert (i = length t) as -> by lia. rewrite take_app_length.
      apply list_elem_of_lookup in Hd as [j Hj]. destruct (IH j dir true Hj) as (_ & _ & Hpre & Hrest).
      assert (length t <> 0%nat) as Hlen by (apply lookup_lt_Some in Hj; lia). rewrite decide_False by done.
      assert (5 <= length dir)%nat as Hld by (apply (f_equal length) in Hpre; rewrite length_take in Hpre; change (length (nd_path disk_node)) with 5%nat in Hpre; lia).
      split_and!; [done|done|by rewrite take_app_le by lia| |].
      * destruct (decide (j = 0%nat)); [destruct Hrest as [-> _]; done|]. destruct Hrest as [Hsl _]. unfold str_get in *.
        destruct (dir !! Z.to_nat 5) as [x|] eqn:Ex; [|done]. by rewrite (lookup_app_l_Some _ _ _ _ Ex).
      * exists dir, name. split_and!; try done; [|by intros ->]. apply elem_of_app. left. by eapply list_elem_of_lookup_2.
Qed.

Lemma total_size_elem m l ns i a : Forall2 (node_rel m) l ns -> ns !! i = Some a -> an_size a <= total_size ns.
Proof.
  intros Hn. revert i. induction Hn as [|n b l ns (_ & _ & _ & Hb & _) Hn IH]; intros i Hi; [done|]. unfold total_size in *. cbn [fmap list_fmap foldr].
  assert (0 <= foldr Z.add 0 (an_size <$> ns)) as H0.
  { clear -Hn. induction Hn as [|n b l ns (_ & _ & _ & Hb & _) Hn IH]; cbn [fmap list_fmap foldr]; lia. }
  destruct i as [|i]; cbn in Hi; [injection Hi as ->; lia|]. specialize (IH i Hi). lia.
Qed.

Section mount.
Context {A D : Type} `{ByteStoreLaws A} (device : block_device D) (disk : Z -> list Z).
Context (m0 m : gmap Z (list Z)) (g : fat_geometry) (cs cl : list Z) (ns : list anode) (s : fstate A D).
Context (Him : imported device disk m0 m g cs cl ns s).
Notation nodes := (fs_nodes (ft_tree (fx s))).
Notation t := (shape <$> disk_anode :: ns).

Lemma im_shape i n : nodes !! i = Some n -> exists a, (disk_anode :: ns) !! i = Some a /\ node_rel m n a /\ t !! i = Some (nd_path n, an_dir a).
Proof.
  intros Hi. destruct (Forall2_lookup_l _ _ _ _ _ (im_nodes _ _ _ _ _ _ _ _ _ Him) Hi) as (a & Ha & Hr). exists a. split; [done|]. split; [done|].
  rewrite list_lookup_fmap, Ha. cbn. destruct Hr as (-> & _). done.
Qed.

Lemma im_paths : nd_path <$> nodes = t.*1.
Proof.
  pose proof (im_nodes _ _ _ _ _ _ _ _ _ Him) as Hn. induction Hn as [|n a l k (E & _) _ IH]; [done|]. cbn [fmap list_fmap]. f_equal; [done|exact IH].
Qed.

(** The directory of a node is found, and is a directory. *)
Lemma lookup_dir dir : (dir, true) ∈ t -> exists d, ramfs_lookup (ft_tree (fx s)) dir = Some d /\ nd_type d = UTAMO_VFS_DIRECTORY.
Proof.
  intros [j Hj]%list_elem_of_lookup. destruct (tree_ok_facts _ (im_tree _ _ _ _ _ _ _ _ _ Him) j dir true Hj) as (Hv & Hn & _).
  rewrite list_lookup_fmap in Hj. destruct ((disk_anode :: ns) !! j) as [a|] eqn:Ea; [|done]. cbn in Hj. injection Hj as Hp Hk.
  destruct (Forall2_lookup_r _ _ _ _ _ (im_nodes _ _ _ _ _ _ _ _ _ Him) Ea) as (n & Hni & Hr). pose proof Hr as (Hnp & Hty & _). rewrite Hk in Hty.
  destruct (ramfs_lookup (ft_tree (fx s)) dir) as [d|] eqn:El; cycle 1.
  { apply ramfs_lookup_none in El; [|apply Him|done]. exfalso. apply El. rewrite <-Hp, <-Hnp. apply list_elem_of_fmap_2. by eapply list_elem_of_lookup_2. }
  exists d. split; [done|]. apply ramfs_lookup_some in El as [[i Hi]%list_elem_of_lookup Hdp].
  destruct (im_shape i d Hi) as (b & Hb & Hrb & Ht). destruct (tree_ok_facts _ (im_tree _ _ _ _ _ _ _ _ _ Him) i _ _ Ht) as (_ & Hnb & _).
  assert (i = j) as ->; [|congruence]. assert (t !! j = Some (dir, true)) as Htj by (rewrite list_lookup_fmap, Ea; cbn; unfold shape; by rewrite Hp, Hk).
  destruct (Nat.lt_trichotomy i j) as [Hlt|[?|Hlt]]; [|done|]; exfalso.
  - apply Hn. apply list_elem_of_fmap. exists (nd_path d, an_dir b). split; [by cbn|]. eapply list_elem_of_lookup_2. rewrite lookup_take_lt; [exact Ht|done].
  - apply Hnb. apply list_elem_of_fmap. exists (dir, true). split; [by cbn|]. eapply list_elem_of_lookup_2. rewrite lookup_take_lt; [exact Htj|done].
Qed.

Lemma subtree_ok_intro v base rest : forall before, (forall i n, rest !! i = Some n -> subtree_node_ok v (ft_tree (fx s)) base (before ++ take i rest) n = true) ->
  subtree_ok v (ft_tree (fx s)) base before rest = true.
Proof.
  induction rest as [|n rest IH]; intros before Hall; [done|]. cbn [subtree_ok]. apply andb_true_iff. split.
  - specialize (Hall 0%nat n eq_refl). cbn [take] in Hall. by rewrite app_nil_r in Hall.
  - apply IH. intros i n' Hi. rewrite <-app_assoc. apply (Hall (S i) n' Hi).
Qed.
Lemma import_node_ok v i n : vfs_wf v -> (forall x, x ∈ all_nodes v -> take 5 (nd_path x) <> nd_path disk_node) ->
  nodes !! i = Some n -> subtree_node_ok v (ft_tree (fx s)) (nd_path disk_node) (take i nodes) n = true.
Proof.
  intros Hwf Hfree Hi. destruct (im_shape i n Hi) as (a & Ha & (R1 & R2 & R3 & R4 & R5 & R6) & Ht).
  destruct (tree_ok_facts _ (im_tree _ _ _ _ _ _ _ _ _ Him) i _ _ Ht) as (Hv & Hn & Hpre & Hrest).
  assert (vfs_lookup v (nd_path n) = None) as Hnone.
  { destruct (vfs_lookup v (nd_path n)) as [x|] eqn:E; [|done]. apply vfs_lookup_spec in E as [Hx Hxp]; [|done|done]. exfalso. apply (Hfree x Hx). by rewrite Hxp. }
  assert (existsb (fun other => bool_decide (nd_path n = nd_path other)) (take i nodes) = false) as Hdup.
  { apply not_true_iff_false. intros (x & Hx & E%bool_decide_eq_true)%existsb_exists. apply Hn. rewrite fmap_take, <-im_paths, <-fmap_take.
    rewrite E. apply list_elem_of_fmap_2. by apply list_elem_of_In. }
  unfold subtree_node_ok. rewrite Hv, Hnone, Hdup. change (length (nd_path disk_node)) with 5%nat. rewrite Hpre, (bool_decide_eq_true_2 (nd_path disk_node = nd_path disk_node)) by done.
  rewrite (bool_decide_eq_false_2 (is_Some None)) by (by intros []). cbn [negb orb].
  assert (negb (nd_type n =? UTAMO_VFS_DIRECTORY) && negb (nd_type n =? UTAMO_VFS_FILE) = false) as -> by (rewrite R2; destruct (an_dir a); done).
  assert ((nd_type n =? UTAMO_VFS_FILE) && negb (nd_size n =? 0) && (nd_data n =? 0) = false) as ->.
  { rewrite R3. destruct (an_size a =? 0); [by rewrite andb_false_r|]. destruct R6 as [Hnz _]. rewrite (proj2 (Z.eqb_neq _ _) Hnz). apply andb_false_r. }
  cbn [orb]. destruct (decide (i = 0%nat)) as [->|Hi0]; [done|]. destruct Hrest as (Hsl & dir & name & Hd & Hp & Hs & Hne).
  assert (take i nodes <> []) as Hnil. { apply lookup_lt_Some in Hi. destruct i; [done|]. destruct nodes; [cbn in Hi; lia|done]. }
  rewrite (bool_decide_eq_false_2 _ Hnil). cbn [negb]. change (str_length (nd_path disk_node)) with 5. rewrite Hsl. cbn [negb andb].
  rewrite Z.eqb_refl. cbn [negb andb]. rewrite Hp, last_slash_app by done. rewrite take_app_length. destruct (lookup_dir dir Hd) as (d & -> & ->). done.
Qed.

Lemma import_mounts v : vfs_wf v -> vs_root v = true -> mount_count v < 4 ->
  (forall x, x ∈ all_nodes v -> take 5 (nd_path x) <> nd_path disk_node) ->
  vfs_mount_subtree v (ft_tree (fx s)) = (MkVfs true (vs_mounts v ++ [ft_tree (fx s)]), true).
Proof.
  intros Hwf Hr Hc Hfree. pose proof (im_nodes _ _ _ _ _ _ _ _ _ Him) as Hn. pose proof (im_count _ _ _ _ _ _ _ _ _ Him) as Hcnt.
  assert (subtree_ok v (ft_tree (fx s)) (nd_path disk_node) [] nodes = true) as Hok by (apply subtree_ok_intro; intros; by apply import_node_ok).
  unfold vfs_mount_subtree. rewrite Hr, (im_ready _ _ _ _ _ _ _ _ _ Him). rewrite (proj2 (Z.ltb_ge _ _) Hcnt), (proj2 (Z.eqb_neq (mount_count v) 4)) by lia.
  destruct nodes as [|n l]; [by apply Forall2_nil_inv_l in Hn|]. apply Forall2_cons_inv_l in Hn as (a & k & (R1 & R2 & _) & _ & [= <- _]).
  rewrite R1, R2. cbn [negb orb disk_anode an_path an_dir]. rewrite Z.eqb_refl. change (vfs_path_valid (nd_path disk_node)) with true.
  change (str_get (nd_path disk_node) 1 =? 0) with false. cbn [negb orb]. change (existsb _ (tail (nd_path disk_node))) with false. by rewrite Hok.
Qed.

(** A file of the mounted volume reads as its bytes on the disk. *)
Lemma import_reads v a : vfs_wf (MkVfs true (vs_mounts v ++ [ft_tree (fx s)])) -> a ∈ ns -> an_dir a = false ->
  exists n, vfs_open (MkVfs true (vs_mounts v ++ [ft_tree (fx s)])) (an_path a) (MkFile None 0) = (MkFile (Some n) 0, true) /\
    vfs_read (st_mem (fx_store s)) (MkFile (Some n) 0) (an_size a) = Some (MkFile (Some n) (an_size a), an_data a).
Proof.
  intros Hwf [i Hi]%list_elem_of_lookup Hd. pose proof (im_nodes _ _ _ _ _ _ _ _ _ Him) as Hn.
  destruct (Forall2_lookup_r _ _ _ (S i) a Hn Hi) as (n & Hni & R1 & R2 & R3 & R4 & R5 & R6). exists n.
  destruct (im_shape _ n Hni) as (b & _ & _ & Ht). destruct (tree_ok_facts _ (im_tree _ _ _ _ _ _ _ _ _ Him) _ _ _ Ht) as (Hv & _).
  assert (vfs_lookup (MkVfs true (vs_mounts v ++ [ft_tree (fx s)])) (an_path a) = Some n) as Hl.
  { rewrite <-R1. apply vfs_lookup_spec; [done|done|]. split; [|done]. unfold all_nodes. cbn [vs_mounts]. rewrite fmap_app, join_app.
    apply elem_of_app. right. cbn. rewrite app_nil_r. by eapply list_elem_of_lookup_2. }
  unfold vfs_open. cbn [vf_node]. rewrite Hl, R2, Hd. split; [done|]. unfold vfs_read. cbn [vf_node vf_offset]. rewrite R3.
  assert (an_size a <= UTAMO_FAT32_CACHE_MAX) as Hmax.
  { etrans; [|apply (im_bytes _ _ _ _ _ _ _ _ _ Him)]. apply Forall2_cons_inv_r in Hn as (n0 & l0 & _ & Hn & _). by eapply total_size_elem. }
  rewrite (proj2 (Z.ltb_ge (an_size a) 0)) by lia. unfold UTAMO_FAT32_CACHE_MAX in *. rewrite (u64_small (an_size a - 0)) by (unfold u64_ok, UINT64_MAX; lia).
  rewrite Z.sub_0_r, Z.ltb_irrefl. rewrite u64_small by (unfold u64_ok, UINT64_MAX; lia). rewrite Z.add_0_l, Z.add_0_r. f_equal. f_equal.
  destruct (Z.eqb_spec (an_size a) 0) as [Ez|Ez]; [rewrite Ez; cbn; destruct (an_data a); [done|cbn [length] in *; lia]|]. destruct R6 as [Hnz Hm].
  apply list_eq. intros j. rewrite list_lookup_fmap. destruct (decide (j < length (an_data a))%nat) as [Hj|Hj].
  - rewrite lookup_seqZ_lt by lia. destruct (lookup_lt_is_Some_2 _ _ Hj) as [x Hx]. rewrite Hx. cbn. f_equal.
    apply (law_read (fx_store s) m (nd_data n) (an_data a)); [apply Him|done|lia|by rewrite Nat2Z.id].
  - rewrite lookup_seqZ_ge, (lookup_ge_None_2 (an_data a)) by lia. done.
Qed.
End mount.
