(* ===== verification/Fat32Props.v ===== *)
(** * FAT32: theorems *)

From stdpp Require Import gmap.
From S2P Require Import Prelude Bytes HeapCore HeapSpec HeapStore Vfs VfsTree VfsProps Fat32 Fat32Read Fat32Tree Fat32Import.
Open Scope Z_scope.

Ltac agree_skip := apply agree_same;
  [lia|first [apply mono_modify; done|apply mono_sector|apply mono_check|apply mono_entry|apply mono_alloc|apply mono_store]|intros ?].

Section props.
Context {A D : Type} `{ByteStoreLaws A}.

(** The step bound of the import is never reached. *)
Lemma import_fuel (device : block_device D) (s : fstate A D) k : fx s = fat32_zero -> (WALK_STEPS <= k)%nat ->
  fat32_import_with device k s = fat32_import device s.
Proof.
  intros Ez Hk. unfold fat32_import, fat32_import_with. destruct (_ || _); [done|].
  enough (agree 0 (import_body device k) (import_body device WALK_STEPS)) as Hag by (rewrite Hag; [done|by rewrite Ez]).
  unfold import_body, directory. cbn [Z.ltb Z.compare]. do 2 agree_skip. destruct (boot_geometry device _) as [g|]; [|done]. do 10 agree_skip.
  apply agree_bind; [lia|apply mono_dir_clusters| |done]. apply agree_dir_clusters; [lia| |done]. unfold WALK_STEPS. lia.
Qed.

(** C15. [fat32_import] reads exactly what the disk says, or nothing: on success
    the tree is the listing of the volume (every live entry of every directory
    in order, with the bytes of its cluster chain), no cluster is used twice,
    the limits hold and the heap has one buffer per nonempty file and nothing
    else of the import; on failure every buffer has been returned and the
    structure is zero again.  The loops end before their step bound. *)
Theorem fat32_import_exact (device : block_device D) (disk : Z -> list Z) (s : fstate A D) (m0 : gmap Z (list Z))
    (Hdev : device_shows device disk) (Hzero : fx s = fat32_zero) (Hheap : st_holds (fx_store s) m0) :
  let (s', r) := fat32_import device s in
  (if r then exists m g cs cl ns, imported device disk m0 m g cs cl ns s'
   else fx s' = fat32_zero /\ st_holds (fx_store s') m0) /\
  forall k, (WALK_STEPS <= k)%nat -> fat32_import_with device k s = (s', r).
Proof.
  destruct (fat32_import device s) as [s' r] eqn:E. split; [|intros k Hk; by rewrite import_fuel].
  unfold fat32_import, fat32_import_with in E. destruct (_ || _); [by simplify_eq|].
  pose proof (import_body_ok device disk Hdev WALK_STEPS m0 s Hzero Hheap) as Hok. destruct (import_body device WALK_STEPS s) as [s1 [u|]]; simplify_eq; [done|].
  by apply discard_failed.
Qed.

(** C28. A volume that [fat32_import] accepted can be mounted whenever the root is
    mounted, a slot is free and nothing lies below "/disk"; the name space
    stays well formed, and opening and reading a file of the volume returns
    the bytes of its cluster chain on the disk. *)
Theorem fat32_mounted_reads (device : block_device D) (disk : Z -> list Z) (s s' : fstate A D) (m0 : gmap Z (list Z)) (v : vfs_state)
    (Hdev : device_shows device disk) (Hzero : fx s = fat32_zero) (Hheap : st_holds (fx_store s) m0)
    (Himport : fat32_import device s = (s', true)) (Hwf : vfs_wf v) (Hroot : vs_root v = true) (Hslot : mount_count v < 4)
    (Hfree : forall x, x ∈ all_nodes v -> take 5 (nd_path x) <> nd_path disk_node) :
  exists g cs cl ns b, boot_geometry device (disk 0) = Some g /\
    listing g disk (g_root_cluster g) 0 (nd_path disk_node) (cs ≫= cluster_entries g disk) ns cl b /\
    let (v', ok) := vfs_mount_subtree v (ft_tree (fx s')) in ok = true /\ vfs_wf v' /\
    forall a, a ∈ ns -> an_dir a = false -> exists n, vfs_open v' (an_path a) (MkFile None 0) = (MkFile (Some n) 0, true) /\
      vfs_read (st_mem (fx_store s')) (MkFile (Some n) 0) (an_size a) = Some (MkFile (Some n) (an_size a), an_data a).
Proof.
  unfold fat32_import, fat32_import_with in Himport. destruct (_ || _); [done|].
  pose proof (import_body_ok device disk Hdev WALK_STEPS m0 s Hzero Hheap) as Hok.
  destruct (import_body device WALK_STEPS s) as [s1 [u|]]; simplify_eq. destruct Hok as (m & g & cs & cl & ns & Him).
  destruct (im_listing _ _ _ _ _ _ _ _ _ Him) as [b Hls]. exists g, cs, cl, ns, b. split; [apply Him|]. split; [done|].
  pose proof (mount_subtree_wf v (ft_tree (fx s')) Hwf) as Hwf'.
  rewrite (import_mounts _ _ _ _ _ _ _ _ _ Him v Hwf Hroot Hslot Hfree) in *. cbn [fst] in Hwf'. split_and!; [done|done|].
  intros a Ha Hd. by eapply import_reads.
Qed.
End props.

(** ** A concrete volume: one file "A.TXT" of three bytes *)

Definition ex_sector (l : list (Z * Z)) : list Z :=
  (fun i => default 0 (snd <$> List.find (fun e => fst e =? i) l)) <$> seqZ 0 512.
Definition ex_boot : list Z := ex_sector
  [(11, 0); (12, 2); (13, 1); (14, 1); (16, 1); (21, 0xf8); (32, 0xf6); (33, 0x01); (34, 1); (36, 0); (37, 2); (44, 2); (510, 0x55); (511, 0xaa)].
Definition ex_fat : list Z := ex_sector
  [(0, 0xf8); (1, 0xff); (2, 0xff); (3, 0x0f); (4, 0xff); (5, 0xff); (6, 0xff); (7, 0x0f);
   (8, 0xff); (9, 0xff); (10, 0xff); (11, 0x0f); (12, 0xff); (13, 0xff); (14, 0xff); (15, 0x0f)].
Definition ex_root : list Z := ex_sector
  [(0, 65); (1, 32); (2, 32); (3, 32); (4, 32); (5, 32); (6, 32); (7, 32); (8, 84); (9, 88); (10, 84); (26, 3); (28, 3)].
Definition ex_text : list Z := ex_sector [(0, 97); (1, 98); (2, 99)].
Definition ex_disk (lba : Z) : list Z :=
  if lba =? 0 then ex_boot else if lba =? 1 then ex_fat else if lba =? 513 then ex_root else if lba =? 514 then ex_text
  else replicate 512 0.
Definition ex_device : block_device unit := MkBlockDevice 70000 512 (fun _ lba _ => (tt, Some (ex_disk lba))).

#[local] Instance ex_grow : HeapOps unit := { op_grow c _ _ := (c, true) }.
Definition ex_arena : arena unit :=
  fst (heap_core_init (MkArena (MkHeap 0 0 0 0 0 false 0 0 0 0 0 0 0 false false) (fun _ => 0) tt) 4096 16384 65536 4096 false true).
Definition ex_state : fstate (arena unit) unit := MkFs fat32_zero ex_arena tt.
Definition ex_after : fstate (arena unit) unit := fst (fat32_import ex_device ex_state).
Definition ex_names : vfs_state := MkVfs true [MkRamfs [root_node] true].

Lemma ex_shows : device_shows ex_device ex_disk.
Proof.
  constructor; [by intros c lba c' data [= _ <-]|]. intros lba. unfold ex_disk. repeat case_match; vm_compute; reflexivity.
Qed.

Lemma ex_arena_holds : st_holds ex_arena ∅.
Proof.
  pose proof (init_holds (MkArena (MkHeap 0 0 0 0 0 false 0 0 0 0 0 0 0 false false) (fun _ => 0) tt) 4096 16384 65536 4096 false true) as Hi.
  assert (snd (heap_core_init (MkArena (MkHeap 0 0 0 0 0 false 0 0 0 0 0 0 0 false false) (fun _ => 0) tt) 4096 16384 65536 4096 false true) = true) as Hr
    by (vm_compute; reflexivity).
  unfold ex_arena. destruct (heap_core_init _ _ _ _ _ _ _) as [a r]. cbn [snd fst] in *. subst r.
  apply Hi; unfold u64_ok, UINT64_MAX; lia.
Qed.

Lemma ex_fat_import : fat32_import ex_device ex_state = (ex_after, true).
Proof.
  assert (snd (fat32_import ex_device ex_state) = true) as Hr by (vm_compute; reflexivity).
  unfold ex_after. destruct (fat32_import ex_device ex_state) as [s r]. cbn [fst snd] in *. by subst r.
Qed.

Lemma fat32_import_exact_witness :
  (nd_path <$> fs_nodes (ft_tree (fx ex_after))) = [[47; 100; 105; 115; 107]; [47; 100; 105; 115; 107; 47; 65; 46; 84; 88; 84]] /\
  exists m g cs cl ns, imported ex_device ex_disk ∅ m g cs cl ns ex_after.
Proof.
  split; [vm_compute; reflexivity|].
  pose proof (fat32_import_exact ex_device ex_disk ex_state ∅ ex_shows eq_refl ex_arena_holds) as Hx. rewrite ex_fat_import in Hx. exact (proj1 Hx).
Defined.

Lemma fat32_mounted_reads_witness :
  exists g cs cl ns b, boot_geometry ex_device (ex_disk 0) = Some g /\
    listing g ex_disk (g_root_cluster g) 0 (nd_path disk_node) (cs ≫= cluster_entries g ex_disk) ns cl b /\
    let (v', ok) := vfs_mount_subtree ex_names (ft_tree (fx ex_after)) in ok = true /\ vfs_wf v' /\
    forall a, a ∈ ns -> an_dir a = false -> exists n, vfs_open v' (an_path a) (MkFile None 0) = (MkFile (Some n) 0, true) /\
      vfs_read (st_mem (fx_store ex_after)) (MkFile (Some n) 0) (an_size a) = Some (MkFile (Some n) (an_size a), an_data a).
Proof.
  refine (fat32_mounted_reads ex_device ex_disk ex_state ex_after ∅ ex_names ex_shows eq_refl ex_arena_holds ex_fat_import _ eq_refl eq_refl _).
  - constructor; [apply Forall_singleton; vm_compute; discriminate|vm_compute; discriminate|apply root_tree].
  - intros x Hx%list_elem_of_singleton. subst x. discriminate.
Defined.
