(* ===== verification/NetCodec.v ===== *)
(** * Network packets (kernel/net/{ethernet,arp,ipv4,icmp,udp}.c,
    kernel/include/utamo/net_packet.h): definitions

    A buffer is the list of its bytes; its length is the argument [bytes].
    Builders return the bytes they write, or [None] where they leave the
    output alone and return [false].  A pointer into a received frame is the
    list of the bytes it may be read at. *)

From S2P Require Import Prelude Bytes.
Open Scope Z_scope.

Definition UTAMO_NET_FRAME_MAX : Z := 1514.
Definition size_of (p : list Z) : Z := Z.of_nat (length p).
(** [p + offset], for [bytes] bytes. *)
Definition slice (p : list Z) (offset bytes : Z) : list Z := take (Z.to_nat bytes) (drop (Z.to_nat offset) p).

(** ** Byte order *)

Definition net_get16 (p : list Z) (i : Z) : Z := u16 (Z.lor (u16 (Z.shiftl (byte_of p i) 8)) (byte_of p (i + 1))).
Definition net_get32 (p : list Z) (i : Z) : Z := Z.lor (u32 (Z.shiftl (net_get16 p i) 16)) (net_get16 p (i + 2)).
Definition net_put16 (value : Z) : list Z := [u8 (Z.shiftr value 8); u8 value].
Definition net_put32 (value : Z) : list Z := net_put16 (u16 (Z.shiftr value 16)) ++ net_put16 (u16 value).

(** ** Addresses *)

(** [mac] has six bytes. *)
Definition net_mac_unicast (mac : list Z) : bool :=
  if negb (Z.land (byte_of mac 0) 1 =? 0) then false
  else negb (foldl (fun bits i => Z.lor bits (byte_of mac i)) 0 (seqZ 0 6) =? 0).

Definition net_ip_unicast (ip : Z) : bool :=
  let first := Z.shiftr ip 24 in negb (first =? 0) && negb (first =? 127) && (first <? 224).

(** [~x] of a [uint32_t]. *)
Definition not32 (x : Z) : Z := Z.ldiff UINT32_MAX x.

Definition net_mask_valid (mask : Z) : bool :=
  let inverse := not32 mask in negb (mask =? 0) && (3 <=? inverse) && (Z.land inverse (u32 (inverse + 1)) =? 0).

(** The digits of one part of an address: the value, their number and the rest. *)
Fixpoint parse_octet (text : list Z) (digits octet : Z) : option (Z * Z * list Z) :=
  match text with
  | [] => Some (digits, octet, [])
  | c :: text' =>
      if (48 <=? c) && (c <=? 57) then
        if 3 <? digits + 1 then None
        else
          let octet := octet * 10 + (c - 48) in
          if 255 <? octet then None else parse_octet text' (digits + 1) octet
      else Some (digits, octet, text)
  end.

Fixpoint parse_parts (parts : nat) (text : list Z) (value : Z) : option Z :=
  match parts with
  | O => Some value
  | S rest =>
      match parse_octet text 0 0 with
      | None => None
      | Some (digits, octet, text) =>
          let c := default 0 (head text) in
          if (digits =? 0) || (negb (bool_decide (rest = O)) && negb (c =? 46)) || (bool_decide (rest = O) && negb (c =? 0)) then None
          else
            let value := Z.lor (u32 (Z.shiftl value 8)) octet in
            parse_parts rest (if bool_decide (rest = O) then text else tail text) value
      end
  end.
Definition net_ip_parse (text : list Z) : option Z := parse_parts 4 text 0.

(** ** The Internet checksum *)

Fixpoint sum_words (p : list Z) (sum : Z) : Z :=
  match p with
  | x :: y :: p =>
      let sum := u32 (sum + net_get16 [x; y] 0) in
      sum_words p (u32 (Z.land sum 0xffff + Z.shiftr sum 16))
  | [x] => u32 (sum + u32 (Z.shiftl (u8 x) 8))
  | [] => sum
  end.
(** [while (sum >> 16)] *)
Fixpoint fold_sum (steps : nat) (sum : Z) : Z :=
  match steps with
  | O => sum
  | S steps => if negb (Z.shiftr sum 16 =? 0) then fold_sum steps (u32 (Z.land sum 0xffff + Z.shiftr sum 16)) else sum
  end.
Definition net_checksum (p : list Z) : Z := u16 (Z.lnot (fold_sum 32 (sum_words p 0))).

(** ** Ethernet *)

Record ethernet_packet := MkEthernet { eth_destination : list Z; eth_source : list Z; eth_type : Z; eth_payload : list Z }.

Definition ethernet_decode (p : list Z) : option ethernet_packet :=
  if (size_of p <? 14) || (UTAMO_NET_FRAME_MAX <? size_of p) then None
  else if negb (net_mac_unicast (slice p 6 6)) then None
  else Some (MkEthernet (slice p 0 6) (slice p 6 6) (net_get16 p 12) (slice p 14 (size_of p - 14))).

Definition ethernet_build (capacity : Z) (source destination : list Z) (type : Z) (payload : list Z) : option (list Z) :=
  let bytes := size_of payload in
  if negb (net_mac_unicast source) || (1500 <? bytes) || (capacity <? bytes + 14) then None
  else Some (destination ++ source ++ net_put16 type ++ payload).

(** ** ARP *)

Record arp_packet := MkArp { arp_operation : Z; arp_sender_mac : list Z; arp_target_mac : list Z; arp_sender_ip : Z; arp_target_ip : Z }.

Definition arp_decode (p : list Z) : option arp_packet :=
  if size_of p <? 28 then None
  else
    let operation := net_get16 p 6 in
    let sender := net_get32 p 14 in
    let target := net_get32 p 24 in
    if negb (net_get16 p 0 =? 1) || negb (net_get16 p 2 =? 0x800) || negb (byte_of p 4 =? 6) || negb (byte_of p 5 =? 4) ||
       (negb (operation =? 1) && negb (operation =? 2)) || negb (net_mac_unicast (slice p 8 6)) ||
       (negb (sender =? 0) && negb (net_ip_unicast sender)) || negb (net_ip_unicast target)
    then None
    else Some (MkArp operation (slice p 8 6) (slice p 18 6) sender target).

Definition arp_build (capacity : Z) (packet : arp_packet) : option (list Z) :=
  if (capacity <? 28) || (negb (arp_operation packet =? 1) && negb (arp_operation packet =? 2)) ||
     negb (net_mac_unicast (arp_sender_mac packet)) ||
     (negb (arp_sender_ip packet =? 0) && negb (net_ip_unicast (arp_sender_ip packet))) || negb (net_ip_unicast (arp_target_ip packet))
  then None
  else Some (net_put16 1 ++ net_put16 0x800 ++ [6; 4] ++ net_put16 (arp_operation packet) ++
             arp_sender_mac packet ++ net_put32 (arp_sender_ip packet) ++ arp_target_mac packet ++ net_put32 (arp_target_ip packet)).

(** ** IPv4 *)

Record ipv4_packet := MkIp { ip_source : Z; ip_destination : Z; ip_protocol : Z; ip_payload : list Z }.

Definition ipv4_decode (p : list Z) : option ipv4_packet :=
  let bytes := size_of p in
  if bytes <? 20 then None
  else
    let header := Z.land (byte_of p 0) 15 * 4 in
    let total := net_get16 p 2 in
    if negb (Z.shiftr (byte_of p 0) 4 =? 4) || negb (header =? 20) || (bytes <? header) || (total <? header) ||
       (bytes <? total) || (1500 <? total) || (byte_of p 8 =? 0) ||
       negb (Z.land (net_get16 p 6) 0xbfff =? 0) || negb (net_checksum (slice p 0 header) =? 0)
    then None
    else Some (MkIp (net_get32 p 12) (net_get32 p 16) (byte_of p 9) (slice p header (total - header))).

(** The 20 bytes of the header, with [sum] in the checksum field. *)
Definition ipv4_header (source destination protocol id bytes sum : Z) : list Z :=
  [0x45; 0] ++ net_put16 (u16 (20 + bytes)) ++ net_put16 id ++ net_put16 0x4000 ++ [64; u8 protocol] ++
  net_put16 sum ++ net_put32 source ++ net_put32 destination.

Definition ipv4_build (capacity source destination protocol id : Z) (payload : list Z) : option (list Z) :=
  let bytes := size_of payload in
  if (1480 <? bytes) || (capacity <? 20 + bytes) || (negb (source =? 0) && negb (net_ip_unicast source)) ||
     (negb (net_ip_unicast destination) && negb (destination =? UINT32_MAX))
  then None
  else
    let sum := net_checksum (ipv4_header source destination protocol id bytes 0) in
    Some (ipv4_header source destination protocol id bytes sum ++ payload).

(** ** UDP *)

Record udp_packet := MkUdp { udp_source : Z; udp_destination : Z; udp_payload : list Z }.

Definition udp_checksum (source destination : Z) (data : list Z) : Z :=
  net_checksum (net_put32 source ++ net_put32 destination ++ [0; 17] ++ net_put16 (u16 (size_of data)) ++ data).

Definition udp_decode (ip : ipv4_packet) : option udp_packet :=
  let p := ip_payload ip in
  if negb (ip_protocol ip =? 17) || (size_of p <? 8) || (1480 <? size_of p) then None
  else
    let bytes := net_get16 p 4 in
    if negb (bytes =? size_of p) || (net_get16 p 0 =? 0) || (net_get16 p 2 =? 0) ||
       (negb (net_get16 p 6 =? 0) && negb (udp_checksum (ip_source ip) (ip_destination ip) (slice p 0 bytes) =? 0))
    then None
    else Some (MkUdp (net_get16 p 0) (net_get16 p 2) (slice p 8 (bytes - 8))).

(** The packet, with [sum] in the checksum field. *)
Definition udp_bytes (source destination sum : Z) (payload : list Z) : list Z :=
  net_put16 source ++ net_put16 destination ++ net_put16 (u16 (size_of payload + 8)) ++ net_put16 sum ++ payload.

Definition udp_build (capacity source_ip destination_ip source destination : Z) (payload : list Z) : option (list Z) :=
  let bytes := size_of payload in
  if (1472 <? bytes) || (capacity <? bytes + 8) || (source =? 0) || (destination =? 0) then None
  else
    let sum := udp_checksum source_ip destination_ip (udp_bytes source destination 0 payload) in
    Some (udp_bytes source destination (if sum =? 0 then 0xffff else sum) payload).

(** ** ICMP echo: whether it is a reply, the identifier and the sequence number *)

Definition icmp_echo_decode (p : list Z) : option (bool * Z * Z) :=
  if (size_of p <? 8) || (1480 <? size_of p) then None
  else if (negb (byte_of p 0 =? 0) && negb (byte_of p 0 =? 8)) || negb (byte_of p 1 =? 0) || negb (net_checksum p =? 0) then None
  else Some (byte_of p 0 =? 0, net_get16 p 4, net_get16 p 6).

(** ** Packets: what is built decodes to the same values *)


(** ** Words *)

Lemma put16_word v : 0 <= v < 65536 -> 256 * u8 (u8 (Z.shiftr v 8)) + u8 (u8 v) = v.
Proof. intros Hv. rewrite Z.shiftr_div_pow2 by lia. change (2 ^ 8) with 256. unfold u8. dlia. Qed.

Lemma word16 a b : 0 <= a < 256 -> 0 <= b < 256 -> u16 (Z.lor (u16 (Z.shiftl a 8)) b) = 256 * a + b.
Proof.
  intros Ha Hb. rewrite Z.shiftl_mul_pow2 by lia. rewrite (u16_small (a * 2 ^ 8)) by lia.
  rewrite (lor_add _ _ 8); [|lia|apply Z.mod_mul; lia|lia]. rewrite u16_small; lia.
Qed.

Lemma u8_idem x : u8 (u8 x) = u8 x.
Proof. unfold u8. apply Z.mod_mod. lia. Qed.

Lemma u8_range x : 0 <= u8 x < 256.
Proof. unfold u8. apply Z.mod_pos_bound. lia. Qed.

Lemma get16_spec p i : net_get16 p i = 256 * byte_of p i + byte_of p (i + 1).
Proof. unfold net_get16. apply word16; apply byte_of_range. Qed.

Lemma net_get16_range p i : 0 <= net_get16 p i < 65536.
Proof. rewrite get16_spec. pose proof (byte_of_range p i). pose proof (byte_of_range p (i + 1)). lia. Qed.

Lemma get32_spec p i : net_get32 p i = 65536 * net_get16 p i + net_get16 p (i + 2).
Proof.
  unfold net_get32. pose proof (net_get16_range p i). pose proof (net_get16_range p (i + 2)). rewrite Z.shiftl_mul_pow2 by lia.
  rewrite u32_small by (unfold UINT32_MAX; lia). rewrite (lor_add _ _ 16); [lia|lia|apply Z.mod_mul; lia|lia].
Qed.

Lemma net_get32_range p i : 0 <= net_get32 p i <= UINT32_MAX.
Proof. rewrite get32_spec. pose proof (net_get16_range p i). pose proof (net_get16_range p (i + 2)). unfold UINT32_MAX. lia. Qed.

(** Reading the two bytes that [net_put16] wrote. *)
Lemma get16_put p i v : 0 <= v < 65536 -> arr_get p i = u8 (Z.shiftr v 8) -> arr_get p (i + 1) = u8 v -> net_get16 p i = v.
Proof. intros Hv E1 E2. rewrite get16_spec. unfold byte_of. rewrite E1, E2. by apply put16_word. Qed.

Lemma get32_put p i v : 0 <= v <= UINT32_MAX ->
  arr_get p i = u8 (Z.shiftr (u16 (Z.shiftr v 16)) 8) -> arr_get p (i + 1) = u8 (u16 (Z.shiftr v 16)) ->
  arr_get p (i + 2) = u8 (Z.shiftr (u16 v) 8) -> arr_get p (i + 2 + 1) = u8 (u16 v) -> net_get32 p i = v.
Proof.
  intros Hv E1 E2 E3 E4. unfold UINT32_MAX in Hv. assert (0 <= u16 (Z.shiftr v 16) < 65536 /\ 0 <= u16 v < 65536) as [R1 R2] by (unfold u16; split; apply Z.mod_pos_bound; lia).
  rewrite get32_spec, (get16_put p i _ R1 E1 E2), (get16_put p (i + 2) _ R2 E3 E4). rewrite Z.shiftr_div_pow2 by lia. change (2 ^ 16) with 65536. unfold u16. dlia.
Qed.

(** Six bytes. *)
Lemma six_bytes (mac : list Z) : length mac = 6%nat -> exists a b c d e f, mac = [a; b; c; d; e; f].
Proof. intros H. do 6 (destruct mac as [|? mac]; [done|]). destruct mac; [|done]. by eexists _, _, _, _, _, _. Qed.

Lemma slice_tail pre p n : n = size_of p -> slice (pre ++ p) (Z.of_nat (length pre)) n = p.
Proof. intros ->. unfold slice, size_of. rewrite !Nat2Z.id, drop_app_length. by apply take_ge. Qed.

(** ** The checksum *)

(** The sum of the 16-bit words. *)
Fixpoint wsum (p : list Z) : Z :=
  match p with
  | x :: y :: p => 256 * u8 x + u8 y + wsum p
  | [x] => 256 * u8 x
  | [] => 0
  end.

Fixpoint pairs_ind (P : list Z -> Prop) (H0 : P []) (H1 : forall x, P [x]) (H2 : forall x y p, P p -> P (x :: y :: p)) (p : list Z) : P p :=
  match p with
  | [] => H0
  | [x] => H1 x
  | x :: y :: p => H2 x y p (pairs_ind P H0 H1 H2 p)
  end.

Lemma wsum_nonneg p : 0 <= wsum p.
Proof. induction p as [|x|x y p IH] using pairs_ind; cbn [wsum]; [lia|pose proof (u8_range x); lia|]. pose proof (u8_range x). pose proof (u8_range y). lia. Qed.

(** [y] is [x] modulo 65535, and zero exactly when [x] is. *)
Definition ones_eq (x y : Z) : Prop := exists k, y = x - 65535 * k /\ 0 <= y /\ (y = 0 <-> x = 0).

Lemma ones_fold x : 0 <= x <= UINT32_MAX -> ones_eq x (u32 (Z.land x 0xffff + Z.shiftr x 16)) /\ u32 (Z.land x 0xffff + Z.shiftr x 16) = x mod 65536 + x / 65536.
Proof.
  intros Hx. change 0xffff with (Z.ones 16). rewrite land_low_mask by lia. rewrite Z.shiftr_div_pow2 by lia. change (2 ^ 16) with 65536. unfold UINT32_MAX in Hx.
  rewrite u32_small by (unfold UINT32_MAX; dlia). split; [|done]. exists (x / 65536). dlia.
Qed.

Lemma ones_trans x y z : ones_eq x y -> ones_eq y z -> ones_eq x z.
Proof. intros (k & E1 & H1 & Z1) (j & E2 & H2 & Z2). exists (k + j). split; [lia|]. split; [done|]. tauto. Qed.

Lemma ones_add x y w : 0 <= w -> 0 <= x -> ones_eq x y -> ones_eq (x + w) (y + w).
Proof. intros Hw Hx (k & E & Hy & Hz). exists k. lia. Qed.

Lemma sum_words_spec p : forall s, 0 <= s <= 65536 -> ones_eq (s + wsum p) (sum_words p s) /\ sum_words p s <= 131071.
Proof.
  induction p as [|x|x y p IH] using pairs_ind; intros s Hs; cbn [sum_words wsum].
  - split; [exists 0; lia|lia].
  - pose proof (u8_range x). rewrite (Z.shiftl_mul_pow2 _ 8) by lia. rewrite (u32_small (u8 x * _)) by (unfold UINT32_MAX; lia).
    rewrite u32_small by (unfold UINT32_MAX; lia). split; [exists 0; lia|lia].
  - pose proof (u8_range x). pose proof (u8_range y). assert (net_get16 [x; y] 0 = 256 * u8 x + u8 y) as -> by apply get16_spec.
    rewrite (u32_small (s + _)) by (unfold UINT32_MAX; lia). destruct (ones_fold (s + (256 * u8 x + u8 y)) ltac:(unfold UINT32_MAX; lia)) as [Hf Ef].
    destruct (IH (u32 (Z.land (s + (256 * u8 x + u8 y)) 0xffff + Z.shiftr (s + (256 * u8 x + u8 y)) 16))) as [Ho Hle]; [rewrite Ef; dlia|]. split; [|done].
    eapply ones_trans; [|exact Ho]. rewrite Z.add_assoc. apply ones_add; [apply wsum_nonneg|lia|done].
Qed.

Lemma fold_sum_spec x : 0 <= x <= 131071 -> ones_eq x (fold_sum 32 x) /\ fold_sum 32 x <= 65535.
Proof.
  intros Hx. assert (forall n y, 0 <= y <= 65535 -> fold_sum n y = y) as Hstop.
  { intros [|n] y Hy; cbn [fold_sum]; [done|]. rewrite Z.shiftr_div_pow2 by lia. rewrite Z.div_small by lia. done. }
  assert (forall n y, 65536 <= y <= 131071 -> fold_sum (S n) y = fold_sum n (u32 (Z.land y 0xffff + Z.shiftr y 16))) as Hstep.
  { intros n y Hy. cbn [fold_sum]. rewrite Z.shiftr_div_pow2 by lia. destruct (Z.eqb_spec (y / 2 ^ 16) 0); [exfalso; dlia|done]. }
  destruct (decide (x <= 65535)); [rewrite Hstop by lia; split; [exists 0; lia|lia]|]. rewrite (Hstep 31%nat) by lia.
  destruct (ones_fold x ltac:(unfold UINT32_MAX; lia)) as [Ho Ef]. set (y := u32 _) in *. assert (y <= 65536) as Hy by (rewrite Ef; dlia).
  destruct (decide (y <= 65535)); [rewrite Hstop by (destruct Ho as (? & _ & ? & _); lia); done|]. assert (y = 65536) as -> by lia. split; [|done].
  eapply ones_trans; [exact Ho|]. exists 1. vm_compute. repeat split; discriminate.
Qed.

Lemma checksum_spec p : exists r, ones_eq (wsum p) r /\ r <= 65535 /\ net_checksum p = 65535 - r.
Proof.
  destruct (sum_words_spec p 0 ltac:(lia)) as [Ho Hle]. destruct (fold_sum_spec (sum_words p 0)) as [Hf Hb]; [destruct Ho as (? & _ & ? & _); lia|].
  unfold net_checksum. generalize dependent (fold_sum 32 (sum_words p 0)). intros r Hf Hb. exists r. split; [by eapply ones_trans|]. split; [done|].
  unfold Z.lnot, u16. destruct Hf as (_ & _ & H0 & _). dlia.
Qed.

Lemma checksum_range p : 0 <= net_checksum p < 65536.
Proof. unfold net_checksum, u16. apply Z.mod_pos_bound. lia. Qed.

(** A packet is accepted once its checksum is in place. *)
Lemma checksum_accepts p q c : net_checksum p = c \/ (net_checksum p = 0 /\ c = 65535) -> wsum q = wsum p + c -> net_checksum q = 0.
Proof.
  intros Hc Hq. pose proof (wsum_nonneg p). destruct (checksum_spec p) as (r & (k & Er & Hr & Hz) & Hrb & Ep). destruct (checksum_spec q) as (t & (j & Et & Ht & Htz) & Htb & ->). lia.
Qed.

(** Conversion unfolds the checksum last: its folding loop is long. *)
#[local] Strategy 100 [net_checksum].

(** ** Round trips *)

Lemma ethernet_roundtrip capacity source destination type payload frame : length source = 6%nat -> length destination = 6%nat -> 0 <= type < 65536 ->
  ethernet_build capacity source destination type payload = Some frame ->
  ethernet_decode frame = Some (MkEthernet destination source type payload) /\ size_of frame = 14 + size_of payload /\ size_of frame <= capacity.
Proof.
  intros (s0 & s1 & s2 & s3 & s4 & s5 & ->)%six_bytes (d0 & d1 & d2 & d3 & d4 & d5 & ->)%six_bytes Ht. unfold ethernet_build, ethernet_decode.
  destruct (net_mac_unicast _) eqn:Hm; [|done]. cbn [negb orb]. destruct (Z.ltb_spec 1500 (size_of payload)); [done|].
  destruct (Z.ltb_spec capacity (size_of payload + 14)); [done|]. intros [= <-]. cbn [app].
  set (frame := _ :: _). assert (size_of frame = 14 + size_of payload) as Es by (unfold size_of, frame; cbn [length]; lia).
  split; [|lia]. rewrite Es. destruct (Z.ltb_spec (14 + size_of payload) 14); [unfold size_of in *; lia|].
  destruct (Z.ltb_spec UTAMO_NET_FRAME_MAX (14 + size_of payload)); [unfold UTAMO_NET_FRAME_MAX in *; lia|]. cbn [orb].
  change (slice frame 6 6) with [s0; s1; s2; s3; s4; s5]. change (slice frame 0 6) with [d0; d1; d2; d3; d4; d5]. rewrite Hm. cbn [negb].
  rewrite (get16_put frame 12 type Ht eq_refl eq_refl). do 2 f_equal.
  apply (slice_tail [d0; d1; d2; d3; d4; d5; s0; s1; s2; s3; s4; s5; u8 (Z.shiftr type 8); u8 type] payload). lia.
Qed.

Definition arp_typed (packet : arp_packet) : Prop :=
  length (arp_sender_mac packet) = 6%nat /\ length (arp_target_mac packet) = 6%nat /\
  0 <= arp_sender_ip packet <= UINT32_MAX /\ 0 <= arp_target_ip packet <= UINT32_MAX.

Lemma arp_roundtrip capacity packet p pad : arp_typed packet -> arp_build capacity packet = Some p -> arp_decode (p ++ pad) = Some packet.
Proof.
  destruct packet as [op smac tmac sip tip]. intros (Hs & Ht & Hsip & Htip). cbn [arp_sender_mac arp_target_mac arp_sender_ip arp_target_ip arp_operation] in *.
  apply six_bytes in Hs as (s0 & s1 & s2 & s3 & s4 & s5 & ->). apply six_bytes in Ht as (t0 & t1 & t2 & t3 & t4 & t5 & ->).
  unfold arp_build, arp_decode. cbn [arp_sender_mac arp_target_mac arp_sender_ip arp_target_ip arp_operation].
  destruct (_ || _) eqn:G; [done|]. do 4 (apply orb_false_iff in G as [G ?]). intros [= <-].
  unfold net_put32, net_put16. cbn [app]. set (q := _ :: _). assert (0 <= op < 65536) as Hop.
  { match goal with H : negb (op =? 1) && negb (op =? 2) = false |- _ => apply andb_false_iff in H as [H|H]; rewrite negb_false_iff, Z.eqb_eq in H; lia end. }
  destruct (Z.ltb_spec (size_of q) 28) as [Hl|_]; [exfalso; unfold size_of, q in Hl; cbn [length] in Hl; lia|].
  rewrite (get16_put q 6 op Hop eq_refl eq_refl), (get32_put q 14 sip Hsip eq_refl eq_refl eq_refl eq_refl), (get32_put q 24 tip Htip eq_refl eq_refl eq_refl eq_refl).
  change (slice q 8 6) with [s0; s1; s2; s3; s4; s5]. change (slice q 18 6) with [t0; t1; t2; t3; t4; t5].
  change (net_get16 q 0 =? 1) with true. change (net_get16 q 2 =? 0x800) with true. change (byte_of q 4 =? 6) with true. change (byte_of q 5 =? 4) with true.
  cbn [negb orb]. repeat match goal with H : _ = false |- _ => rewrite H end. done.
Qed.

Lemma wsum_put16 v p : 0 <= v < 65536 -> wsum (net_put16 v ++ p) = v + wsum p.
Proof. intros Hv. cbn [net_put16 app wsum]. pose proof (put16_word v Hv) as Hw. rewrite !u8_idem in *. lia. Qed.

Lemma wsum_put32 v p : wsum (net_put32 v ++ p) = u16 (Z.shiftr v 16) + u16 v + wsum p.
Proof. unfold net_put32. rewrite <-app_assoc. rewrite !wsum_put16 by (unfold u16; apply Z.mod_pos_bound; lia). lia. Qed.

Lemma header_sum source destination protocol id bytes sum : 0 <= sum < 65536 ->
  wsum (ipv4_header source destination protocol id bytes sum) = wsum (ipv4_header source destination protocol id bytes 0) + sum.
Proof.
  intros Hs. unfold ipv4_header. cbn [app wsum net_put16 net_put32]. pose proof (put16_word sum Hs). rewrite !u8_idem in *. change (u8 0x45) with 0x45.
  change (u8 (Z.shiftr 0 8)) with 0. change (u8 0) with 0. lia.
Qed.

Lemma ipv4_roundtrip capacity source destination protocol id payload p pad :
  0 <= source <= UINT32_MAX -> 0 <= destination <= UINT32_MAX -> 0 <= protocol < 256 ->
  ipv4_build capacity source destination protocol id payload = Some p ->
  ipv4_decode (p ++ pad) = Some (MkIp source destination protocol payload) /\ size_of p = 20 + size_of payload /\ size_of p <= 1500.
Proof.
  intros Hs Hd Hp. unfold ipv4_build. destruct (_ || _) eqn:G; [done|]. do 3 (apply orb_false_iff in G as [G ?]). apply Z.ltb_ge in G. intros E. apply (inj Some) in E. subst p.
  set (sum := net_checksum _). set (bytes := size_of payload) in *. assert (0 <= bytes) by (unfold bytes, size_of; lia).
  set (header := ipv4_header source destination protocol id bytes sum). rewrite <-app_assoc.
  assert (net_checksum header = 0) as Hsum.
  { pose proof (header_sum source destination protocol id bytes sum (checksum_range _)) as E. eapply checksum_accepts; [left; reflexivity|exact E]. }
  clearbody sum. unfold ipv4_decode. set (q := header ++ payload ++ pad).
  assert (size_of q = 20 + bytes + size_of pad) as Eq by (unfold q, size_of, bytes, size_of; rewrite !length_app; change (length header) with 20%nat; lia).
  assert (0 <= size_of pad) by (unfold size_of; lia).
  assert (net_get16 q 2 = 20 + bytes) as Et.
  { rewrite (get16_put q 2 (u16 (20 + bytes))); [apply u16_small; lia|unfold u16; apply Z.mod_pos_bound; lia|reflexivity|reflexivity]. }
  rewrite Eq, Et. change (byte_of q 0) with 0x45. change (Z.land 0x45 15 * 4) with 20. change (slice q 0 20) with header. rewrite Hsum.
  destruct (Z.ltb_spec (20 + bytes + size_of pad) 20); [lia|]. destruct (Z.ltb_spec (20 + bytes) 20); [lia|].
  destruct (Z.ltb_spec (20 + bytes + size_of pad) (20 + bytes)); [lia|]. destruct (Z.ltb_spec 1500 (20 + bytes)); [lia|].
  change (byte_of q 8 =? 0) with false. change (Z.land (net_get16 q 6) 0xbfff =? 0) with true.
  rewrite (get32_put q 12 source Hs eq_refl eq_refl eq_refl eq_refl), (get32_put q 16 destination Hd eq_refl eq_refl eq_refl eq_refl).
  change (byte_of q 9) with (u8 (u8 protocol)). rewrite u8_idem, u8_small by done. split; [|unfold size_of; rewrite length_app; change (length header) with 20%nat; unfold bytes, size_of in *; lia].
  cbn [negb orb Z.eqb Z.shiftr Pos.eqb Z.shiftl Pos.iter Z.div2 Pos.div2]. do 2 f_equal. unfold slice, q. rewrite drop_app_length' by done.
  rewrite take_app_le by (unfold bytes, size_of; lia). apply take_ge. unfold bytes, size_of. lia.
Qed.

Lemma length_put16 v : length (net_put16 v) = 2%nat.
Proof. done. Qed.

Lemma wsum_app_even l1 l2 : Nat.even (length l1) = true -> wsum (l1 ++ l2) = wsum l1 + wsum l2.
Proof.
  induction l1 as [|x|x y l1 IH] using pairs_ind; intros He; [done|done|]. cbn [app wsum length Nat.even] in *. rewrite IH by done. lia.
Qed.

Lemma udp_sum source_ip destination_ip source destination sum payload : 0 <= sum < 65536 -> size_of payload <= 1472 ->
  let pseudo s := net_put32 source_ip ++ net_put32 destination_ip ++ [0; 17] ++ net_put16 (u16 (size_of (udp_bytes source destination s payload))) ++
                  udp_bytes source destination s payload in
  wsum (pseudo sum) = wsum (pseudo 0) + sum.
Proof.
  intros Hs Hl pseudo. assert (forall s, size_of (udp_bytes source destination s payload) = 8 + size_of payload) as Es.
  { intros s. unfold size_of, udp_bytes. rewrite !length_app, ?length_put16. lia. }
  assert (forall s, 0 <= s < 65536 -> wsum (pseudo s) = wsum (net_put32 source_ip) + (wsum (net_put32 destination_ip) + (17 + (wsum (net_put16 (u16 (8 + size_of payload))) +
    (wsum (net_put16 source) + (wsum (net_put16 destination) + (wsum (net_put16 (u16 (size_of payload + 8))) + (s + wsum payload)))))))) as Hw.
  { intros s Hsr. unfold pseudo. rewrite Es. unfold udp_bytes. rewrite !wsum_app_even by done. rewrite <-(app_nil_r (net_put16 s)), (wsum_put16 s []) by done.
    change (wsum [0; 17]) with 17. cbn [wsum]. lia. }
  rewrite !Hw by lia. lia.
Qed.

Lemma udp_checksum_accepts source_ip destination_ip source destination sum payload : size_of payload <= 1472 -> 0 <= sum < 65536 ->
  udp_checksum source_ip destination_ip (udp_bytes source destination 0 payload) = sum \/
  (udp_checksum source_ip destination_ip (udp_bytes source destination 0 payload) = 0 /\ sum = 65535) ->
  udp_checksum source_ip destination_ip (udp_bytes source destination sum payload) = 0.
Proof.
  intros Hl Hsum Hcs. pose proof (udp_sum source_ip destination_ip source destination sum payload Hsum Hl) as Ew. cbv zeta in Ew.
  unfold udp_checksum in *. revert Hcs Ew. generalize (udp_bytes source destination 0 payload), (udp_bytes source destination sum payload).
  intros p0 p1 Hcs Ew. eapply checksum_accepts; [exact Hcs|exact Ew].
Qed.

Lemma udp_fields source destination sum payload : 0 <= source < 65536 -> 0 <= destination < 65536 -> 0 <= sum < 65536 -> size_of payload <= 1472 ->
  let p := udp_bytes source destination sum payload in
  net_get16 p 0 = source /\ net_get16 p 2 = destination /\ net_get16 p 4 = 8 + size_of payload /\ net_get16 p 6 = sum /\
  slice p 8 (size_of payload) = payload /\ size_of p = 8 + size_of payload.
Proof.
  intros Hs Hd Hc Hl p. assert (0 <= size_of payload) by (unfold size_of; lia). split_and!.
  - by apply get16_put.
  - by apply get16_put.
  - rewrite (get16_put p 4 (u16 (size_of payload + 8))); [rewrite u16_small; lia|unfold u16; apply Z.mod_pos_bound; lia|reflexivity|reflexivity].
  - by apply get16_put.
  - unfold slice. change (drop (Z.to_nat 8) p) with payload. apply take_ge. unfold size_of. lia.
  - unfold size_of, p, udp_bytes. rewrite !length_app, !length_put16. lia.
Qed.

Lemma udp_roundtrip capacity source_ip destination_ip source destination payload p : 0 <= source < 65536 -> 0 <= destination < 65536 ->
  udp_build capacity source_ip destination_ip source destination payload = Some p ->
  udp_decode (MkIp source_ip destination_ip 17 p) = Some (MkUdp source destination payload) /\ size_of p = 8 + size_of payload /\ size_of p <= 1480.
Proof.
  intros Hs Hd. unfold udp_build. destruct (_ || _) eqn:G; [done|]. do 3 (apply orb_false_iff in G as [G ?]). apply Z.ltb_ge in G.
  pose proof (fun sum => udp_checksum_accepts source_ip destination_ip source destination sum payload G) as Hok.
  pose proof (checksum_range (net_put32 source_ip ++ net_put32 destination_ip ++ [0; 17] ++ net_put16 (u16 (size_of (udp_bytes source destination 0 payload))) ++
    udp_bytes source destination 0 payload)) as Hc.
  change (net_checksum _) with (udp_checksum source_ip destination_ip (udp_bytes source destination 0 payload)) in Hc.
  generalize dependent (udp_checksum source_ip destination_ip (udp_bytes source destination 0 payload)). intros c Hok Hc.
  set (sum := if c =? 0 then 0xffff else c) in *. assert (0 <= sum < 65536) as Hsum by (unfold sum; destruct (Z.eqb_spec c 0); lia).
  specialize (Hok sum Hsum ltac:(unfold sum; destruct (Z.eqb_spec c 0); tauto)). clearbody sum.
  destruct (udp_fields source destination sum payload Hs Hd Hsum G) as (E0 & E2 & E4 & E6 & E8 & Es). intros E. apply (inj Some) in E.
  rewrite E in *. clear E. unfold udp_decode. cbn [ip_payload ip_protocol ip_source ip_destination]. rewrite E0, E2, E4, E6, Es.
  assert (0 <= size_of payload) by (unfold size_of; lia).
  assert (slice p 0 (8 + size_of payload) = p) as -> by (unfold slice; apply take_ge; unfold size_of in *; cbn [Z.to_nat drop]; lia).
  rewrite Hok. destruct (Z.ltb_spec (8 + size_of payload) 8); [lia|]. destruct (Z.ltb_spec 1480 (8 + size_of payload)); [lia|].
  rewrite !Z.eqb_refl. rewrite (proj2 (Z.eqb_neq source 0)), (proj2 (Z.eqb_neq destination 0)) by lia. rewrite andb_false_r. cbn [negb orb].
  replace (8 + size_of payload - 8) with (size_of payload) by lia. rewrite E8. split; [done|lia].
Qed.

(** An echo message with its checksum in place is accepted. *)
Lemma icmp_accepts b0 rest : b0 = 0 \/ b0 = 8 -> 4 <= size_of rest <= 1476 ->
  let sum := net_checksum (b0 :: 0 :: 0 :: 0 :: rest) in
  let p := [b0; 0] ++ net_put16 sum ++ rest in
  icmp_echo_decode p = Some (b0 =? 0, net_get16 p 4, net_get16 p 6).
Proof.
  intros Hb Hl sum p. unfold icmp_echo_decode. assert (size_of p = 4 + size_of rest) as Es by (unfold size_of, p; rewrite !length_app, ?length_put16; cbn [length]; lia).
  assert (net_checksum p = 0) as Hsum.
  { apply (checksum_accepts (b0 :: 0 :: 0 :: 0 :: rest) p sum); [by left|]. unfold p. rewrite (wsum_app_even [b0; 0]) by done.
    rewrite wsum_put16 by apply checksum_range. cbn [wsum]. change (u8 0) with 0. lia. }
  rewrite Es, Hsum. destruct (Z.ltb_spec (4 + size_of rest) 8); [lia|]. destruct (Z.ltb_spec 1480 (4 + size_of rest)); [lia|]. cbn [orb].
  change (byte_of p 0) with (u8 b0). change (byte_of p 1) with 0. by destruct Hb as [-> | ->].
Qed.
