(* ===== verification/NetServices.v ===== *)
(** * DHCP and DNS messages (kernel/net/dhcp.c, kernel/net/dns.c,
    kernel/include/utamo/net_services.h): definitions *)

From S2P Require Import Prelude Bytes NetCodec.
Open Scope Z_scope.

Definition UTAMO_DNS_NAME_MAX : Z := 254.
Definition UTAMO_DNS_MESSAGE_MAX : Z := 512.

(** ** DHCP *)

Record dhcp_offer := MkOffer {
  of_address : Z;
  of_mask : Z;
  of_gateway : Z;
  of_dns : Z;
  of_server : Z;
  of_lease_seconds : Z;
  of_type : Z
}.

(** One option: the bit it sets in [seen] and the changed offer. *)
Definition dhcp_option (p : list Z) (code length offset : Z) (o : dhcp_offer) : option (Z * dhcp_offer) :=
  let word := net_get32 p offset in
  let list_ok := negb ((length <? 4) || negb (Z.land length 3 =? 0)) in
  if code =? 1 then (if negb (length =? 4) then None else
    Some (1, MkOffer (of_address o) word (of_gateway o) (of_dns o) (of_server o) (of_lease_seconds o) (of_type o)))
  else if code =? 3 then (if negb list_ok then None else
    Some (2, MkOffer (of_address o) (of_mask o) word (of_dns o) (of_server o) (of_lease_seconds o) (of_type o)))
  else if code =? 6 then (if negb list_ok then None else
    Some (4, MkOffer (of_address o) (of_mask o) (of_gateway o) word (of_server o) (of_lease_seconds o) (of_type o)))
  else if code =? 51 then (if negb (length =? 4) then None else
    Some (8, MkOffer (of_address o) (of_mask o) (of_gateway o) (of_dns o) (of_server o) word (of_type o)))
  else if code =? 53 then (if negb (length =? 1) then None else
    Some (16, MkOffer (of_address o) (of_mask o) (of_gateway o) (of_dns o) (of_server o) (of_lease_seconds o) (byte_of p offset)))
  else if code =? 54 then (if negb (length =? 4) then None else
    Some (32, MkOffer (of_address o) (of_mask o) (of_gateway o) (of_dns o) word (of_lease_seconds o) (of_type o)))
  else if code =? 52 then None
  else Some (0, o).

(** The loop over the options: [ended], [seen] and the offer. *)
Fixpoint dhcp_options (steps : nat) (p : list Z) (offset seen : Z) (o : dhcp_offer) : option (bool * Z * dhcp_offer) :=
  match steps with
  | O => None
  | S steps =>
      if negb (offset <? size_of p) then Some (false, seen, o)
      else
        let code := byte_of p offset in
        let offset := offset + 1 in
        if code =? 0 then dhcp_options steps p offset seen o
        else if code =? 255 then Some (true, seen, o)
        else if offset =? size_of p then None
        else
          let length := byte_of p offset in
          let offset := offset + 1 in
          if size_of p - offset <? length then None
          else match dhcp_option p code length offset o with
          | None => None
          | Some (bit, o) =>
              if negb (bit =? 0) && negb (Z.land seen bit =? 0) then None
              else dhcp_options steps p (offset + length) (Z.lor seen bit) o
          end
  end.

(** The host part is neither the network nor the broadcast address. *)
Definition edge_address (ip mask : Z) : bool := (Z.land ip (not32 mask) =? 0) || (Z.land ip (not32 mask) =? not32 mask).

Definition offer_valid (o : dhcp_offer) : bool :=
  negb ((negb (of_type o =? 2) && negb (of_type o =? 5)) ||
    negb (net_ip_unicast (of_address o)) || negb (net_mask_valid (of_mask o)) ||
    negb (net_ip_unicast (of_gateway o)) || negb (net_ip_unicast (of_dns o)) ||
    negb (net_ip_unicast (of_server o)) || (of_lease_seconds o =? 0) ||
    negb (Z.land (of_address o) (of_mask o) =? Z.land (of_gateway o) (of_mask o)) ||
    edge_address (of_address o) (of_mask o) || edge_address (of_gateway o) (of_mask o) ||
    (of_address o =? of_gateway o) || (of_address o =? of_server o) || (of_address o =? of_dns o)) &&
  forallb (fun e => negb ((Z.land e (of_mask o) =? Z.land (of_address o) (of_mask o)) && edge_address e (of_mask o)))
    [of_dns o; of_server o].

Definition dhcp_decode (p : list Z) (xid : Z) (mac : list Z) : option dhcp_offer :=
  if (size_of p <? 240) || (1472 <? size_of p) then None
  else if negb (byte_of p 0 =? 2) || negb (byte_of p 1 =? 1) || negb (byte_of p 2 =? 6) || negb (byte_of p 3 =? 0) ||
     negb (net_get32 p 4 =? xid) || negb (bool_decide (slice p 28 6 = mac)) || negb (net_get32 p 12 =? 0) ||
     negb (net_get32 p 24 =? 0) || negb (net_get32 p 236 =? 0x63825363)
  then None
  else match dhcp_options (length p) p 240 0 (MkOffer (net_get32 p 16) 0 0 0 0 0 0) with
  | None => None
  | Some (ended, seen, offer) =>
      if negb ended || negb (seen =? 63) || negb (offer_valid offer) then None else Some offer
  end.

(** [offer] is the argument for a request; 300 bytes are written. *)
Definition dhcp_build (capacity type xid : Z) (mac : list Z) (offer : option dhcp_offer) : option (list Z) :=
  if negb (net_mac_unicast mac) || (capacity <? 300) || (negb (type =? 1) && negb (type =? 3)) ||
     ((type =? 3) && match offer with
                     | None => true
                     | Some o => negb (net_ip_unicast (of_address o)) || negb (net_ip_unicast (of_server o))
                     end)
  then None
  else
    let fixed := [1; 1; 6; 0] ++ net_put32 xid ++ [0; 0] ++ net_put16 0x8000 ++ replicate 16 0 ++ mac ++ replicate 202 0 ++
      net_put32 0x63825363 in
    let options := [53; 1; type] ++ [61; 7; 1] ++ mac ++ [55; 5; 1; 3; 6; 51; 54] ++ [57; 2] ++ net_put16 576 ++
      (if type =? 3 then match offer with
         | None => []
         | Some o => [50; 4] ++ net_put32 (of_address o) ++ [54; 4] ++ net_put32 (of_server o)
         end else []) ++ [255] in
    Some (fixed ++ options ++ replicate (60 - length options) 0).

(** ** DNS *)

Definition character (c : Z) : bool :=
  ((97 <=? c) && (c <=? 122)) || ((65 <=? c) && (c <=? 90)) || ((48 <=? c) && (c <=? 57)) || (c =? 45) || (c =? 95).
Definition lower (c : Z) : Z := if (65 <=? c) && (c <=? 90) then c + (97 - 65) else c.

Definition char_at (name : list Z) (i : Z) : Z := u8 (default 0 (name !! Z.to_nat i)).

(** The loop of [dns_name_valid] with [steps] turns left. *)
Fixpoint name_valid_from (steps : nat) (name : list Z) (i label : Z) : bool :=
  match steps with
  | O => false
  | S steps =>
      let c := char_at name i in
      if c =? 0 then negb (i =? 0) && negb (label =? 0)
      else if c =? 46 then (if label =? 0 then false else name_valid_from steps name (i + 1) 0)
      else if negb (character c) || (63 <? label + 1) then false
      else name_valid_from steps name (i + 1) (label + 1)
  end.
Definition dns_name_valid (name : list Z) : bool := name_valid_from (Z.to_nat UTAMO_DNS_NAME_MAX) name 0 0.

(** The loop of [dns_decode_name]: the name and the number of bytes consumed. *)
Fixpoint decode_name_from (hops : nat) (p : list Z) (position : Z) (result : list Z) (encoded : Z) (jumped : bool)
    : option (list Z * Z) :=
  match hops with
  | O => None
  | S hops =>
      if size_of p <=? position then None
      else
        let length := byte_of p position in
        if Z.land length 0xc0 =? 0xc0 then
          if size_of p <=? position + 1 then None
          else
            let target := Z.lor (Z.shiftl (Z.land length 63) 8) (byte_of p (position + 1)) in
            if (target <? 12) || (position <=? target) then None
            else decode_name_from hops p target result (if jumped then encoded else encoded + 2) true
        else if negb (Z.land length 0xc0 =? 0) then None
        else
          let position := position + 1 in
          let encoded := if jumped then encoded else encoded + 1 in
          let used := size_of result in
          if length =? 0 then Some (result, encoded)
          else if (size_of p - position <? length) || (UTAMO_DNS_NAME_MAX <=? used + (if negb (used =? 0) then 1 else 0) + length) then None
          else
            let result := if negb (used =? 0) then result ++ [46] else result in
            let label := slice p position length in
            if negb (forallb (fun c => character (u8 c)) label) then None
            else decode_name_from hops p (position + length) (result ++ ((fun c => lower (u8 c)) <$> label))
                   (if jumped then encoded else encoded + length) jumped
  end.
Definition dns_decode_name (p : list Z) (offset : Z) : option (list Z * Z) :=
  if (UTAMO_DNS_MESSAGE_MAX <? size_of p) || (size_of p <=? offset) then None
  else decode_name_from 128 p offset [] 0 false.

(** The labels of [name]; [label] has the characters since [begin]. *)
Fixpoint query_labels (name label : list Z) : list Z :=
  match name with
  | [] => u8 (size_of label) :: ((fun c => lower (u8 c)) <$> label)
  | c :: name =>
      if c =? 46 then u8 (size_of label) :: ((fun c => lower (u8 c)) <$> label) ++ query_labels name []
      else query_labels name (label ++ [c])
  end.

Definition dns_build_query (capacity : Z) (name : list Z) (id : Z) : option (list Z) :=
  if negb (dns_name_valid name) then None
  else
    let needed := size_of name + 18 in
    if (capacity <? needed) || (UTAMO_DNS_MESSAGE_MAX <? needed) then None
    else Some (net_put16 id ++ net_put16 0x100 ++ net_put16 1 ++ replicate 6 0 ++ query_labels name [] ++ [0] ++ net_put16 1 ++ net_put16 1).

Record dns_record := MkRecord { dr_owner : list Z; dr_target : list Z; dr_type : Z; dr_address : Z }.
Definition record_zero : dns_record := MkRecord [] [] 0 0.

(** The entry of an answer of class 1, with its data at [offset]. *)
Definition answer_record (p owner : list Z) (type offset length : Z) : option dns_record :=
  if type =? 1 then (if negb (length =? 4) then None else Some (MkRecord owner [] type (net_get32 p offset)))
  else if type =? 5 then
    match dns_decode_name p offset with
    | None => None
    | Some (target, used) => if negb (used =? length) || bool_decide (target = []) then None else Some (MkRecord owner target type 0)
    end
  else Some (MkRecord owner [] type 0).

(** The loop over the records from the [i]-th on: the end and the answers. *)
Fixpoint reply_records (records : nat) (i answers : Z) (p : list Z) (offset : Z) (answer : list dns_record) : option (Z * list dns_record) :=
  match records with
  | O => Some (offset, answer)
  | S records =>
      match dns_decode_name p offset with
      | None => None
      | Some (decoded, used) =>
          if size_of p - offset <? used then None
          else
            let offset := offset + used in
            if size_of p - offset <? 10 then None
            else
              let type := net_get16 p offset in
              let cls := net_get16 p (offset + 2) in
              let length := net_get16 p (offset + 8) in
              let offset := offset + 10 in
              if size_of p - offset <? length then None
              else if (i <? answers) && (cls =? 1) then
                match answer_record p decoded type offset length with
                | None => None
                | Some r => reply_records records (i + 1) answers p (offset + length) (answer ++ [r])
                end
              else reply_records records (i + 1) answers p (offset + length) (if i <? answers then answer ++ [record_zero] else answer)
      end
  end.

(** The search for an address through aliases. *)
Fixpoint follow_aliases (hops : nat) (answer : list dns_record) (expected : list Z) : option Z :=
  match hops with
  | O => None
  | S hops =>
      match List.find (fun r => (dr_type r =? 1) && bool_decide (dr_owner r = expected)) answer with
      | Some r => Some (dr_address r)
      | None =>
          match List.find (fun r => (dr_type r =? 5) && bool_decide (dr_owner r = expected)) answer with
          | Some r => follow_aliases hops answer (dr_target r)
          | None => None
          end
      end
  end.

Definition dns_decode_reply (p name : list Z) (id : Z) : option Z :=
  if (size_of p <? 12) || (UTAMO_DNS_MESSAGE_MAX <? size_of p) || negb (dns_name_valid name) then None
  else
    let flags := net_get16 p 2 in
    let answers := net_get16 p 6 in
    let records := answers + net_get16 p 8 + net_get16 p 10 in
    if negb (net_get16 p 0 =? id) || (Z.land flags 0x8000 =? 0) || negb (Z.land flags 0x7a4f =? 0) || negb (net_get16 p 4 =? 1) ||
       (answers =? 0) || (16 <? answers) || (32 <? records)
    then None
    else
      let expected := (fun c => lower (u8 c)) <$> name in
      match dns_decode_name p 12 with
      | None => None
      | Some (decoded, used) =>
          if negb (bool_decide (decoded = expected)) || (size_of p - 12 <? used) || (size_of p - 12 - used <? 4) ||
             negb (net_get16 p (12 + used) =? 1) || negb (net_get16 p (14 + used) =? 1)
          then None
          else match reply_records (Z.to_nat records) 0 answers p (16 + used) [] with
          | None => None
          | Some (offset, answer) =>
              if negb (offset =? size_of p) then None else follow_aliases (Z.to_nat (answers + 1)) answer expected
          end
      end.
