(* ===== verification/NetDns.v ===== *)
(** * DNS names: a query encodes its name, and decoding gives it back *)

From S2P Require Import Prelude Bytes NetCodec NetServices.
Open Scope Z_scope.

Definition lowered (l : list Z) : list Z := (fun c => lower (u8 c)) <$> l.
Definition enc (l : list Z) : list Z := u8 (size_of l) :: lowered l.

(** The labels of a name; [label] has the characters of the first one so far. *)
Fixpoint split_name (name label : list Z) : list (list Z) :=
  match name with
  | [] => [label]
  | c :: name => if c =? 46 then label :: split_name name [] else split_name name (label ++ [c])
  end.

Definition label_ok (l : list Z) : Prop := l <> [] /\ size_of l <= 63 /\ Forall (fun c => character (u8 c) = true) l.

Lemma query_labels_split name : forall label, query_labels name label = mjoin (enc <$> split_name name label).
Proof.
  induction name as [|c name IH]; intros label; cbn [query_labels split_name fmap list_fmap mjoin list_join]; [by rewrite app_nil_r|].
  destruct (c =? 46); [|apply IH]. cbn [fmap list_fmap mjoin list_join]. unfold enc at 1. cbn [app]. by rewrite <-IH.
Qed.

(** A valid name has legal labels and fewer characters than turns of the loop. *)
Lemma name_valid_labels rest : forall steps pre label, Forall (fun c => 0 < c < 256) rest ->
  Forall (fun c => character (u8 c) = true) label -> size_of label <= 63 ->
  name_valid_from steps (pre ++ rest) (size_of pre) (size_of label) = true ->
  Forall label_ok (split_name rest label) /\ (length rest < steps)%nat.
Proof.
  induction rest as [|c rest IH]; intros steps pre label Hb Hl Hs; (destruct steps as [|steps]; cbn [name_valid_from]; [done|]).
  - unfold char_at. rewrite (lookup_ge_None_2 (pre ++ [])) by (unfold size_of; rewrite length_app; cbn [length]; lia). cbn [default]. change (u8 0 =? 0) with true. intros [_ Hne]%andb_true_iff. split; [|cbn [length]; lia].
    apply Forall_singleton. split; [intros ->; done|done].
  - apply Forall_cons in Hb as [Hc Hb]. assert (char_at (pre ++ c :: rest) (size_of pre) = c) as ->.
    { unfold char_at. rewrite list_lookup_middle by (unfold size_of; lia). apply u8_small. lia. } rewrite (proj2 (Z.eqb_neq c 0)) by lia.
    assert (pre ++ c :: rest = (pre ++ [c]) ++ rest) as E by by rewrite <-app_assoc. assert (size_of pre + 1 = size_of (pre ++ [c])) as Es
      by (unfold size_of; rewrite length_app; cbn [length]; lia). cbn [split_name length].
    destruct (Z.eqb_spec c 46) as [->|Hd].
    + destruct (Z.eqb_spec (size_of label) 0) as [|Hne]; [done|]. rewrite E, Es. intros Hv. destruct (IH steps (pre ++ [46]) [] Hb ltac:(constructor) ltac:(done) Hv) as [Hok Hlt].
      split; [|lia]. constructor; [|done]. split; [intros ->; done|done].
    + destruct (negb (character c) || _) eqn:G; [done|]. apply orb_false_iff in G as [G1 G2]. rewrite negb_false_iff in G1. rewrite E, Es.
      assert (size_of label + 1 = size_of (label ++ [c])) as -> by (unfold size_of; rewrite length_app; cbn [length]; lia). intros Hv.
      destruct (IH steps (pre ++ [c]) (label ++ [c]) Hb) as [Hok Hlt]; [|unfold size_of in *; rewrite length_app; cbn [length]; lia|done|split; [done|lia]].
      apply Forall_app. split; [done|]. apply Forall_singleton. rewrite u8_small by lia. done.
Qed.

(** Appending a label to a decoded name. *)
Definition add_label (r l : list Z) : list Z := (if bool_decide (r = []) then [] else r ++ [46]) ++ lowered l.

Lemma add_labels_split name : forall label r, Forall label_ok (split_name name label) ->
  foldl add_label r (split_name name label) = (if bool_decide (r = []) then [] else r ++ [46]) ++ lowered (label ++ name).
Proof.
  assert (lower (u8 46) = 46) as E46 by done.
  induction name as [|c name IH]; intros label r Hok; cbn [split_name] in *; [cbn [foldl]; by rewrite app_nil_r|]. destruct (Z.eqb_spec c 46) as [->|Hc].
  - apply Forall_cons in Hok as [(Hne & _) Hok]. cbn [foldl]. rewrite IH by done. unfold add_label at 1 2.
    assert ((if bool_decide (r = []) then [] else r ++ [46]) ++ lowered label <> []) as Hn.
    { intros [_ E]%app_eq_nil. apply Hne. by apply fmap_nil_inv in E. }
    rewrite (bool_decide_eq_false_2 _ Hn). unfold add_label, lowered. cbn [app]. rewrite (fmap_app _ label), fmap_cons, E46. by rewrite <-!app_assoc.
  - rewrite IH by done. by rewrite <-app_assoc.
Qed.

Lemma character_lower c : 0 <= c < 256 -> character c = true -> character (lower c) = true /\ lower (u8 (lower c)) = lower c /\ 0 <= lower c < 256.
Proof.
  intros Hc Hch. unfold lower, character in *. destruct ((65 <=? c) && (c <=? 90)) eqn:E; [|rewrite (u8_small c) by done; rewrite E; done].
  assert (65 <= c <= 90) as Hr by lia. rewrite u8_small by lia.
  destruct (Z.leb_spec 65 (c + (97 - 65))), (Z.leb_spec (c + (97 - 65)) 90); cbn [andb]; lia.
Qed.

(** The step of [dns_decode_name] for one label. *)
Lemma decode_label hops p pos res encoded jumped l post : label_ok l -> 0 <= pos -> drop (Z.to_nat pos) p = enc l ++ post ->
  size_of res + (if negb (size_of res =? 0) then 1 else 0) + size_of l < UTAMO_DNS_NAME_MAX ->
  decode_name_from (S hops) p pos res encoded jumped =
  decode_name_from hops p (pos + 1 + size_of l) (add_label res l) (if jumped then encoded else encoded + 1 + size_of l) jumped.
Proof.
  intros (Hne & Hle & Hch) Hp Hd Hmax. cbn [decode_name_from].
  assert (size_of p = pos + 1 + size_of l + size_of post) as Esz.
  { apply (f_equal length) in Hd. rewrite length_drop, length_app in Hd. unfold enc, lowered in Hd. cbn [length] in Hd. rewrite length_fmap in Hd. unfold size_of. lia. }
  assert (0 <= size_of post /\ 0 < size_of l) as [Hpost Hl0] by (unfold size_of; destruct l; [done|]; cbn [length]; lia).
  destruct (Z.leb_spec (size_of p) pos); [lia|].
  assert (byte_of p pos = size_of l) as ->.
  { unfold byte_of, arr_get. assert (p !! Z.to_nat pos = Some (u8 (size_of l))) as Hx.
    { rewrite <-(Nat.add_0_r (Z.to_nat pos)), <-lookup_drop, Hd. done. }
    rewrite (list_lookup_total_correct _ _ _ Hx), u8_idem. apply u8_small. lia. }
  assert (Z.land (size_of l) 0xc0 = 0) as ->.
  { apply Z.bits_inj'. intros n Hn. rewrite Z.land_spec, Z.bits_0. change 0xc0 with (Z.shiftl 3 6). rewrite Z.shiftl_spec by done.
    destruct (decide (n < 6)); [rewrite (Z.testbit_neg_r 3) by lia; apply andb_false_r|]. rewrite (testbit_high (size_of l) 6 n) by lia. done. }
  cbn [Z.eqb Pos.eqb negb]. rewrite (proj2 (Z.eqb_neq (size_of l) 0)) by lia. destruct (Z.ltb_spec (size_of p - (pos + 1)) (size_of l)); [lia|].
  destruct (Z.leb_spec UTAMO_DNS_NAME_MAX (size_of res + (if negb (size_of res =? 0) then 1 else 0) + size_of l)); [lia|]. cbn [orb].
  assert (slice p (pos + 1) (size_of l) = lowered l) as Hsl.
  { unfold slice. replace (Z.to_nat (pos + 1)) with (Z.to_nat pos + 1)%nat by lia. rewrite <-drop_drop, Hd. unfold enc. cbn [app]. rewrite skipn_cons, drop_0.
    rewrite take_app_le by (unfold lowered, size_of; rewrite length_fmap; lia).
    apply take_ge. unfold lowered, size_of. rewrite length_fmap. lia. }
  rewrite Hsl. assert (forallb (fun c => character (u8 c)) (lowered l) = true /\ ((fun c => lower (u8 c)) <$> lowered l) = lowered l) as [-> ->].
  { clear -Hch. induction Hch as [|c l Hc _ [IH1 IH2]]; [done|]. unfold lowered in *. cbn [fmap list_fmap forallb].
    destruct (character_lower (u8 c) (u8_range c) Hc) as (Hl1 & Hl2 & Hl3). rewrite IH1, IH2. rewrite (u8_small (lower (u8 c))) in * by done. by rewrite Hl1, Hl2. }
  cbn [negb]. f_equal; [|by destruct jumped]. unfold add_label. destruct (bool_decide_reflect (res = [])) as [->|Hr]; [done|].
  rewrite (proj2 (Z.eqb_neq (size_of res) 0)); [done|]. unfold size_of. destruct res; [done|cbn [length]; lia].
Qed.

Lemma length_add_label r l : size_of (add_label r l) = size_of r + (if negb (size_of r =? 0) then 1 else 0) + size_of l.
Proof.
  unfold add_label, size_of, lowered. destruct (bool_decide_reflect (r = [])) as [->|Hr]; rewrite ?length_app, length_fmap; cbn [length]; [done|].
  destruct (Z.eqb_spec (Z.of_nat (length r)) 0); [destruct r; [done|cbn [length] in *; lia]|cbn [negb]; lia].
Qed.

Lemma add_labels_grow ls : forall r, size_of r <= size_of (foldl add_label r ls).
Proof.
  induction ls as [|l ls IH]; intros r; cbn [foldl]; [done|]. etrans; [|apply IH]. rewrite length_add_label. unfold size_of. destruct (negb _); lia.
Qed.

Lemma decode_labels p post jumped ls : forall hops pos res encoded, Forall label_ok ls -> 0 <= pos -> (length ls < hops)%nat ->
  drop (Z.to_nat pos) p = mjoin (enc <$> ls) ++ 0 :: post -> size_of (foldl add_label res ls) < UTAMO_DNS_NAME_MAX ->
  decode_name_from hops p pos res encoded jumped =
  Some (foldl add_label res ls, if jumped then encoded else encoded + size_of (mjoin (enc <$> ls)) + 1).
Proof.
  induction ls as [|l ls IH]; intros hops pos res encoded Hok Hp Hh Hd Hmax; (destruct hops as [|hops]; [cbn [length] in Hh; lia|]).
  - cbn [fmap list_fmap mjoin list_join app] in Hd. cbn [decode_name_from foldl]. pose proof (f_equal length Hd) as Hlen. rewrite length_drop in Hlen. cbn [length] in Hlen.
    destruct (Z.leb_spec (size_of p) pos) as [Hx|_]; [unfold size_of in Hx; lia|].
    assert (byte_of p pos = 0) as ->.
    { unfold byte_of, arr_get. assert (p !! Z.to_nat pos = Some 0) as Hx by (rewrite <-(Nat.add_0_r (Z.to_nat pos)), <-lookup_drop, Hd; done).
      by rewrite (list_lookup_total_correct _ _ _ Hx). }
    rewrite !Z.land_0_l. cbn [Z.eqb negb]. change (size_of (mjoin (enc <$> []))) with 0. by rewrite Z.add_0_r.
  - apply Forall_cons in Hok as [Hl Hok]. cbn [fmap list_fmap mjoin list_join] in Hd. rewrite <-app_assoc in Hd. cbn [foldl] in Hmax.
    pose proof (add_labels_grow ls (add_label res l)) as Hg. rewrite length_add_label in Hg. pose proof Hl as (Hne & Hle & _).
    rewrite (decode_label hops p pos res encoded jumped l (mjoin (enc <$> ls) ++ 0 :: post) Hl Hp Hd) by lia. cbn [length] in Hh.
    assert (size_of (enc l) = 1 + size_of l) as Ee by (unfold size_of, enc, lowered; cbn [length]; rewrite length_fmap; lia).
    assert (0 <= size_of l) as Hl0 by (unfold size_of; lia).
    rewrite IH; [| |lia|lia| |].
    + assert (size_of (mjoin (enc <$> l :: ls)) = size_of (enc l) + size_of (mjoin (enc <$> ls))) as ->
        by (unfold size_of; rewrite <-Nat2Z.inj_add, <-length_app; done).
      rewrite Ee. cbn [foldl]. destruct jumped; [done|]. do 2 f_equal. lia.
    + done.
    + replace (Z.to_nat (pos + 1 + size_of l)) with (Z.to_nat pos + length (enc l))%nat by (unfold size_of in *; lia).
      rewrite <-drop_drop, Hd, drop_app_length. done.
    + done.
Qed.

(** ** The query *)

Lemma split_labels_bound name : forall label, Forall label_ok (split_name name label) ->
  (2 * length (split_name name label) <= length label + length name + 1)%nat.
Proof.
  induction name as [|c name IH]; intros label Hok; cbn [split_name length] in *.
  - apply Forall_singleton in Hok as (Hne & _). destruct label; [done|cbn [length]; lia].
  - destruct (c =? 46); [|specialize (IH _ Hok); rewrite length_app in IH; cbn [length] in IH; lia].
    apply Forall_cons in Hok as [(Hne & _) Hok]. specialize (IH _ Hok). cbn [length] in *. destruct label; [done|cbn [length]; lia].
Qed.

Lemma query_labels_length name : forall label, size_of (query_labels name label) = size_of label + size_of name + 1.
Proof.
  induction name as [|c name IH]; intros label; cbn [query_labels].
  - unfold size_of. cbn [length]. rewrite length_fmap. lia.
  - destruct (c =? 46).
    + specialize (IH []). unfold size_of in *. rewrite length_cons, length_app, length_fmap. cbn [length] in *. lia.
    + rewrite IH. unfold size_of. rewrite length_app. cbn [length]. lia.
Qed.

Lemma valid_name name : Forall (fun c => 0 < c < 256) name -> dns_name_valid name = true ->
  Forall label_ok (split_name name []) /\ (length name < 254)%nat.
Proof.
  intros Hb Hv. apply (name_valid_labels name (Z.to_nat UTAMO_DNS_NAME_MAX) [] []); [done|constructor|done|exact Hv].
Qed.

Lemma query_shape capacity name id q : dns_build_query capacity name id = Some q ->
  dns_name_valid name = true /\ size_of name + 18 <= capacity /\
  q = (net_put16 id ++ net_put16 0x100 ++ net_put16 1 ++ replicate 6 0) ++ query_labels name [] ++ 0 :: net_put16 1 ++ net_put16 1.
Proof.
  unfold dns_build_query. destruct (dns_name_valid name); [|done]. cbn [negb]. destruct (Z.ltb_spec capacity (size_of name + 18)); [done|].
  cbn [orb]. destruct (_ <? _); [done|]. intros E. apply (inj Some) in E. split_and!; [done|lia|by rewrite <-E].
Qed.

(** The question after a 12-byte header decodes to the name in lower case; a name
    of 253 one-character labels and dots takes all 128 turns. *)
Lemma question_decodes header name rest hops encoded jumped : length header = 12%nat -> Forall (fun c => 0 < c < 256) name ->
  dns_name_valid name = true -> (length name + 1 < 2 * hops)%nat ->
  decode_name_from hops (header ++ query_labels name [] ++ 0 :: rest) 12 [] encoded jumped =
  Some (lowered name, if jumped then encoded else encoded + size_of name + 2).
Proof.
  intros Hh Hb Hv Hhops. destruct (valid_name name Hb Hv) as [Hok Hlen]. pose proof (query_labels_length name []) as Hql.
  rewrite query_labels_split in *. rewrite (decode_labels _ rest jumped (split_name name [])); [|done|done| | |].
  - rewrite add_labels_split by done. rewrite bool_decide_eq_true_2 by done. cbn [app]. rewrite Hql.
    destruct jumped; [done|]. do 2 f_equal. unfold size_of. cbn [length]. lia.
  - pose proof (split_labels_bound name [] Hok) as Hs. cbn [length] in Hs. lia.
  - by rewrite drop_app_length' by done.
  - rewrite add_labels_split by done. rewrite bool_decide_eq_true_2 by done. unfold size_of, lowered, UTAMO_DNS_NAME_MAX. cbn [app]. rewrite length_fmap. lia.
Qed.

Lemma question_name header name rest : length header = 12%nat -> Forall (fun c => 0 < c < 256) name -> dns_name_valid name = true ->
  size_of (header ++ query_labels name [] ++ 0 :: rest) <= UTAMO_DNS_MESSAGE_MAX ->
  dns_decode_name (header ++ query_labels name [] ++ 0 :: rest) 12 = Some (lowered name, size_of name + 2).
Proof.
  intros Hh Hb Hv Hmax. destruct (valid_name name Hb Hv) as [_ Hlen]. unfold dns_decode_name. rewrite (proj2 (Z.ltb_ge _ _)) by exact Hmax.
  rewrite (proj2 (Z.leb_gt _ _)) by (unfold size_of; rewrite !length_app; cbn [length]; lia). cbn [orb]. apply question_decodes; [done..|lia].
Qed.

(** ** The answer *)

(** The reply of a server that has one address for the name: the query's
    question, and an answer that refers to its name by a compression pointer. *)
Definition reply_header (id : Z) : list Z := net_put16 id ++ net_put16 0x8180 ++ net_put16 1 ++ net_put16 1 ++ replicate 4 0.
Definition answer_bytes (ttl address : Z) : list Z :=
  [0xc0; 12] ++ net_put16 1 ++ net_put16 1 ++ net_put32 ttl ++ net_put16 4 ++ net_put32 address.
Definition server_reply (query : list Z) (id ttl address : Z) : list Z := reply_header id ++ drop 12 query ++ answer_bytes ttl address.

Lemma byte_tail pre p i : 0 <= i -> byte_of (pre ++ p) (size_of pre + i) = byte_of p i.
Proof.
  intros Hi. unfold byte_of, arr_get, size_of. f_equal. rewrite (Z2Nat.inj_add (Z.of_nat _)), Nat2Z.id by lia. by rewrite lookup_total_app_r, Nat.add_sub' by lia.
Qed.

Lemma get16_tail pre p i : 0 <= i -> net_get16 (pre ++ p) (size_of pre + i) = net_get16 p i.
Proof. intros Hi. rewrite !get16_spec, <-Z.add_assoc, !byte_tail by lia. done. Qed.

Lemma get32_tail pre p i : 0 <= i -> net_get32 (pre ++ p) (size_of pre + i) = net_get32 p i.
Proof. intros Hi. rewrite !get32_spec, <-Z.add_assoc, !get16_tail by lia. done. Qed.

Section answer.
Context (name : list Z) (id ttl address : Z).
Context (Hb : Forall (fun c => 0 < c < 256) name) (Hv : dns_name_valid name = true) (Hshort : size_of name <= 252).
Context (Hid : 0 <= id < 65536) (Haddr : 0 <= address <= UINT32_MAX).

Let question := reply_header id ++ query_labels name [] ++ [0].
Let head := question ++ net_put16 1 ++ net_put16 1.
Let r := head ++ answer_bytes ttl address.

Lemma reply_shape : r = reply_header id ++ query_labels name [] ++ 0 :: net_put16 1 ++ net_put16 1 ++ answer_bytes ttl address.
Proof using Type. unfold r, head, question. by rewrite <-!app_assoc. Qed.

Lemma reply_sizes : size_of question = size_of name + 14 /\ size_of head = size_of name + 18 /\ size_of r = size_of name + 34.
Proof using Type.
  pose proof (query_labels_length name []) as Hl. unfold r, head, question, size_of in *. rewrite !length_app.
  change (length (reply_header id)) with 12%nat. change (length (answer_bytes ttl address)) with 16%nat. cbn [length] in *. rewrite !length_put16. lia.
Qed.

Lemma reply_pointer_from hops : (length name + 1 < 2 * hops)%nat ->
  decode_name_from (S hops) r (size_of name + 18) [] 0 false = Some (lowered name, 2).
Proof using Hb Hv.
  intros Hhops. destruct reply_sizes as (Hq & Hh & Hr). assert (0 <= size_of name) as Hn by (unfold size_of; lia).
  assert (byte_of r (size_of name + 18) = 0xc0) as E0 by (rewrite <-Hh, <-(Z.add_0_r (size_of head)); by apply byte_tail).
  assert (byte_of r (size_of name + 18 + 1) = 12) as E1 by (rewrite <-Hh; by apply byte_tail).
  cbn [decode_name_from]. rewrite Hr, E0, E1.
  rewrite (proj2 (Z.leb_gt _ _)), (proj2 (Z.leb_gt _ _)) by lia. change (Z.land 0xc0 0xc0 =? 0xc0) with true. cbv iota.
  change (Z.lor (Z.shiftl (Z.land 0xc0 63) 8) 12) with 12. change (12 <? 12) with false. rewrite (proj2 (Z.leb_gt _ _)) by lia.
  cbn [orb]. rewrite reply_shape. by rewrite question_decodes.
Qed.

Lemma reply_pointer : dns_decode_name r (size_of name + 18) = Some (lowered name, 2).
Proof using Hb Hv Hshort.
  destruct reply_sizes as (Hq & Hh & Hr). unfold dns_decode_name, UTAMO_DNS_MESSAGE_MAX.
  rewrite Hr, (proj2 (Z.ltb_ge _ _)), (proj2 (Z.leb_gt _ _)) by lia. cbn [orb].
  apply reply_pointer_from. unfold size_of in Hshort. lia.
Qed.

Lemma reply_record : reply_records 1 0 1 r (size_of name + 18) [] = Some (size_of name + 34, [MkRecord (lowered name) [] 1 address]).
Proof using Hb Hv Hshort Haddr.
  destruct reply_sizes as (Hq & Hh & Hr). assert (0 <= size_of name) as Hn by (unfold size_of; lia).
  assert (forall i, 0 <= i -> net_get16 r (size_of name + 18 + i) = net_get16 (answer_bytes ttl address) i) as Hg by (intros i Hi; rewrite <-Hh; by apply get16_tail).
  assert (net_get32 r (size_of name + 18 + 12) = address) as Ha.
  { rewrite <-Hh. etrans; [by apply get32_tail|]. by apply get32_put. }
  cbn [reply_records]. rewrite reply_pointer, Hr. rewrite (proj2 (Z.ltb_ge _ 2)), (proj2 (Z.ltb_ge _ 10)) by lia.
  replace (size_of name + 18 + 2 + 10) with (size_of name + 18 + 12) by lia. replace (size_of name + 18 + 2 + 8) with (size_of name + 18 + 10) by lia.
  replace (size_of name + 18 + 2 + 2) with (size_of name + 18 + 4) by lia. rewrite !Hg by done.
  change (net_get16 (answer_bytes ttl address) 2) with 1. change (net_get16 (answer_bytes ttl address) 4 =? 1) with true.
  change (net_get16 (answer_bytes ttl address) 10) with 4. rewrite (proj2 (Z.ltb_ge _ 4)) by lia.
  change (0 <? 1) with true. cbn [andb answer_record Z.eqb Pos.eqb negb]. unfold answer_record. cbn [Z.eqb Pos.eqb negb]. rewrite Ha.
  do 2 f_equal. lia.
Qed.

Lemma reply_answers : dns_decode_reply r name id = Some address.
Proof using Hb Hv Hshort Hid Haddr.
  destruct reply_sizes as (Hq & Hh & Hr). assert (0 <= size_of name) as Hn by (unfold size_of; lia).
  unfold dns_decode_reply, UTAMO_DNS_MESSAGE_MAX. rewrite Hr, Hv, (proj2 (Z.ltb_ge _ _)), (proj2 (Z.ltb_ge _ _)) by lia. cbn [orb negb].
  rewrite (get16_put r 0 id Hid eq_refl eq_refl), Z.eqb_refl. change (net_get16 r 2) with 0x8180. change (net_get16 r 4) with 1.
  change (net_get16 r 6) with 1. change (net_get16 r 8) with 0. change (net_get16 r 10) with 0.
  change (Z.land 0x8180 0x8000 =? 0) with false. change (Z.land 0x8180 0x7a4f =? 0) with true. change (1 =? 1) with true.
  change (1 =? 0) with false. change (16 <? 1) with false. change (32 <? 1 + 0 + 0) with false. cbn [negb orb].
  assert (dns_decode_name r 12 = Some (lowered name, size_of name + 2)) as ->.
  { rewrite reply_shape. apply question_name; [done..|]. rewrite <-reply_shape, Hr. unfold UTAMO_DNS_MESSAGE_MAX. lia. }
  rewrite bool_decide_eq_true_2 by done. rewrite (proj2 (Z.ltb_ge _ _)), (proj2 (Z.ltb_ge _ _)) by lia.
  assert (forall i, 0 <= i -> net_get16 r (size_of name + 14 + i) = net_get16 (net_put16 1 ++ net_put16 1 ++ answer_bytes ttl address) i) as Hqs.
  { intros i Hi. rewrite <-Hq. unfold r, head. rewrite <-app_assoc. by apply get16_tail. }
  replace (12 + (size_of name + 2)) with (size_of name + 14 + 0) by lia. replace (14 + (size_of name + 2)) with (size_of name + 14 + 2) by lia.
  rewrite !Hqs by lia. change (net_get16 (net_put16 1 ++ net_put16 1 ++ answer_bytes ttl address) 0 =? 1) with true.
  change (net_get16 (net_put16 1 ++ net_put16 1 ++ answer_bytes ttl address) 2 =? 1) with true. cbn [negb orb].
  replace (16 + (size_of name + 2)) with (size_of name + 18) by lia. change (Z.to_nat (1 + 0 + 0)) with 1%nat. rewrite reply_record, Z.eqb_refl.
  change (Z.to_nat (1 + 1)) with 2%nat. cbn [negb follow_aliases List.find dr_type dr_owner Z.eqb Pos.eqb andb]. by rewrite bool_decide_eq_true_2 by done.
Qed.
End answer.

(** ** Theorems *)

(** C37. The query [dns_build_query] writes for a valid name fits the buffer, and its
    question decodes to the name in lower case; the reply of a server that
    answers that question with one address record, its owner compressed to a
    pointer, is accepted under the query's identifier and gives the address,
    for names of up to 252 characters. *)
Theorem dns_exchange (capacity : Z) (name : list Z) (id ttl address : Z) (query : list Z)
    (Hname : Forall (fun c => 0 < c < 256) name) (Hid : 0 <= id < 65536) (Haddress : 0 <= address <= UINT32_MAX)
    (Hquery : dns_build_query capacity name id = Some query) :
  size_of query <= capacity /\ net_get16 query 0 = id /\
  dns_decode_name query 12 = Some ((fun c => lower (u8 c)) <$> name, size_of query - 16) /\
  (size_of name <= 252 -> dns_decode_reply (server_reply query id ttl address) name id = Some address).
Proof.
  destruct (query_shape capacity name id query Hquery) as (Hv & Hcap & ->). destruct (valid_name name Hname Hv) as [_ Hlen].
  pose proof (query_labels_length name []) as Hl. set (header := net_put16 id ++ _). assert (length header = 12%nat) as Hh by done.
  assert (size_of (header ++ query_labels name [] ++ 0 :: net_put16 1 ++ net_put16 1) = size_of name + 18) as Hs.
  { unfold size_of in *. rewrite !length_app, Hh. change (length (0 :: net_put16 1 ++ net_put16 1)) with 5%nat. cbn [length] in *. lia. }
  rewrite Hs. split_and!; [done|by apply get16_put| |].
  - rewrite question_name; [do 2 f_equal; lia|done..|]. rewrite Hs. unfold UTAMO_DNS_MESSAGE_MAX, size_of. lia.
  - intros Hshort. unfold server_reply. rewrite drop_app_length' by done. rewrite <-(reply_answers name id ttl address) by done.
    f_equal. unfold reply_header. rewrite <-!app_assoc. done.
Qed.

Lemma dns_exchange_witness :
  dns_build_query 512 [102; 73; 120; 46; 116] 0x4567 = Some ([0x45; 0x67; 1; 0; 0; 1; 0; 0; 0; 0; 0; 0; 3; 102; 105; 120; 1; 116; 0; 0; 1; 0; 1]) /\
  dns_decode_reply (server_reply [0x45; 0x67; 1; 0; 0; 1; 0; 0; 0; 0; 0; 0; 3; 102; 105; 120; 1; 116; 0; 0; 1; 0; 1] 0x4567 60 0xc000027b)
    [102; 73; 120; 46; 116] 0x4567 = Some 0xc000027b.
Proof.
  assert (dns_build_query 512 [102; 73; 120; 46; 116] 0x4567 = Some ([0x45; 0x67; 1; 0; 0; 1; 0; 0; 0; 0; 0; 0; 3; 102; 105; 120; 1; 116; 0; 0; 1; 0; 1])) as E
    by (vm_compute; reflexivity).
  split; [exact E|]. apply (dns_exchange 512 [102; 73; 120; 46; 116] 0x4567 60 0xc000027b _); [by repeat constructor|done|done|exact E|done].
Defined.

(** The bound of 252 characters is needed: for a valid name of 127 labels of
    one character, the pointer in the answer takes one of the 128 turns and the
    reply is refused. *)
Example longest_name_refused :
  let name := 97 :: mjoin (replicate 126 [46; 97]) in
  dns_name_valid name = true /\
  match dns_build_query 512 name 7 with
  | Some query => dns_decode_reply (server_reply query 7 60 0xc000027b) name 7 = None
  | None => False
  end.
Proof. split; vm_compute; reflexivity. Qed.
