(* ===== verification/NetStack.v ===== *)
(** * The network stack (kernel/net/stack.c, kernel/include/utamo/net.h): definitions

    The network card and the clock are callbacks on a world [W]; a call may
    change the world.  The stack's functions thread the pair of the stack and
    the world; [a && b] of calls is [andM]. *)

From S2P Require Import Prelude Bytes NetCodec NetServices.
Open Scope Z_scope.

Record nic_device (W : Type) := MkNic {
  nic_mac : list Z;
  nic_mtu : Z;
  nic_transmit : W -> list Z -> W * bool;
  nic_receive : W -> W * list Z;
  nic_link : W -> W * bool
}.
Arguments nic_mac {W}.
Arguments nic_mtu {W}.
Arguments nic_transmit {W}.
Arguments nic_receive {W}.
Arguments nic_link {W}.

Record net_clock (W : Type) := MkClock { ck_milliseconds : W -> W * Z; ck_sleep : W -> Z -> W * bool }.
Arguments ck_milliseconds {W}.
Arguments ck_sleep {W}.

Record net_arp_entry := MkEntry { ae_ip : Z; ae_mac : list Z; ae_expires : Z }.
Definition entry_zero : net_arp_entry := MkEntry 0 (replicate 6 0) 0.
Definition offer_zero : dhcp_offer := MkOffer 0 0 0 0 0 0 0.

Record net_counters := MkCounters {
  ct_frames : Z; ct_malformed : Z; ct_ignored : Z; ct_arp : Z; ct_ipv4 : Z;
  ct_icmp : Z; ct_udp : Z; ct_dhcp : Z; ct_dns : Z; ct_echo_replies : Z
}.
Inductive counter := Frames | Malformed | Ignored | Arp | Ipv4 | Icmp | Udp | Dhcp | Dns | EchoReplies.
(** [++counters.<c>] *)
Definition count_up (c : counter) (t : net_counters) : net_counters :=
  let bump d x := match c, d with
    | Frames, Frames | Malformed, Malformed | Ignored, Ignored | Arp, Arp | Ipv4, Ipv4
    | Icmp, Icmp | Udp, Udp | Dhcp, Dhcp | Dns, Dns | EchoReplies, EchoReplies => x +u 1
    | _, _ => x end in
  MkCounters (bump Frames (ct_frames t)) (bump Malformed (ct_malformed t)) (bump Ignored (ct_ignored t)) (bump Arp (ct_arp t))
    (bump Ipv4 (ct_ipv4 t)) (bump Icmp (ct_icmp t)) (bump Udp (ct_udp t)) (bump Dhcp (ct_dhcp t)) (bump Dns (ct_dns t))
    (bump EchoReplies (ct_echo_replies t)).

(** [struct net_stack]; [ns_udp_data] has the [udp_bytes] bytes received last. *)
Record net_stack := MkStack {
  ns_configuration : dhcp_offer;
  ns_offered : dhcp_offer;
  ns_arp_cache : list net_arp_entry;
  ns_counters : net_counters;
  ns_lease_expires : Z;
  ns_random : Z;
  ns_xid : Z;
  ns_arp_waiting : Z;
  ns_echo_peer : Z;
  ns_udp_peer : Z;
  ns_ip_id : Z;
  ns_echo_sequence : Z;
  ns_udp_port : Z;
  ns_udp_remote_port : Z;
  ns_dns_id : Z;
  ns_dhcp_state : Z;
  ns_initialized : bool;
  ns_configured : bool;
  ns_busy : bool;
  ns_polling : bool;
  ns_offered_ready : bool;
  ns_ack_ready : bool;
  ns_echo_ready : bool;
  ns_udp_ready : bool;
  ns_echo_data : list Z;
  ns_udp_data : list Z
}.

Definition stack_eta (s : net_stack) : net_stack :=
  MkStack (ns_configuration s) (ns_offered s) (ns_arp_cache s) (ns_counters s) (ns_lease_expires s) (ns_random s) (ns_xid s)
    (ns_arp_waiting s) (ns_echo_peer s) (ns_udp_peer s) (ns_ip_id s) (ns_echo_sequence s) (ns_udp_port s) (ns_udp_remote_port s)
    (ns_dns_id s) (ns_dhcp_state s) (ns_initialized s) (ns_configured s) (ns_busy s) (ns_polling s) (ns_offered_ready s)
    (ns_ack_ready s) (ns_echo_ready s) (ns_udp_ready s) (ns_echo_data s) (ns_udp_data s).
Definition set_configuration : dhcp_offer -> net_stack -> net_stack := ltac:(field_setter stack_eta ns_configuration).
Definition set_offered : dhcp_offer -> net_stack -> net_stack := ltac:(field_setter stack_eta ns_offered).
Definition set_arp_cache : list net_arp_entry -> net_stack -> net_stack := ltac:(field_setter stack_eta ns_arp_cache).
Definition set_counters : net_counters -> net_stack -> net_stack := ltac:(field_setter stack_eta ns_counters).
Definition set_lease_expires : Z -> net_stack -> net_stack := ltac:(field_setter stack_eta ns_lease_expires).
Definition set_random : Z -> net_stack -> net_stack := ltac:(field_setter stack_eta ns_random).
Definition set_xid : Z -> net_stack -> net_stack := ltac:(field_setter stack_eta ns_xid).
Definition set_arp_waiting : Z -> net_stack -> net_stack := ltac:(field_setter stack_eta ns_arp_waiting).
Definition set_echo_peer : Z -> net_stack -> net_stack := ltac:(field_setter stack_eta ns_echo_peer).
Definition set_udp_peer : Z -> net_stack -> net_stack := ltac:(field_setter stack_eta ns_udp_peer).
Definition set_ip_id : Z -> net_stack -> net_stack := ltac:(field_setter stack_eta ns_ip_id).
Definition set_echo_sequence : Z -> net_stack -> net_stack := ltac:(field_setter stack_eta ns_echo_sequence).
Definition set_udp_port : Z -> net_stack -> net_stack := ltac:(field_setter stack_eta ns_udp_port).
Definition set_udp_remote_port : Z -> net_stack -> net_stack := ltac:(field_setter stack_eta ns_udp_remote_port).
Definition set_dns_id : Z -> net_stack -> net_stack := ltac:(field_setter stack_eta ns_dns_id).
Definition set_dhcp_state : Z -> net_stack -> net_stack := ltac:(field_setter stack_eta ns_dhcp_state).
Definition set_initialized : bool -> net_stack -> net_stack := ltac:(field_setter stack_eta ns_initialized).
Definition set_configured : bool -> net_stack -> net_stack := ltac:(field_setter stack_eta ns_configured).
Definition set_busy : bool -> net_stack -> net_stack := ltac:(field_setter stack_eta ns_busy).
Definition set_polling : bool -> net_stack -> net_stack := ltac:(field_setter stack_eta ns_polling).
Definition set_offered_ready : bool -> net_stack -> net_stack := ltac:(field_setter stack_eta ns_offered_ready).
Definition set_ack_ready : bool -> net_stack -> net_stack := ltac:(field_setter stack_eta ns_ack_ready).
Definition set_echo_ready : bool -> net_stack -> net_stack := ltac:(field_setter stack_eta ns_echo_ready).
Definition set_udp_ready : bool -> net_stack -> net_stack := ltac:(field_setter stack_eta ns_udp_ready).
Definition set_echo_data : list Z -> net_stack -> net_stack := ltac:(field_setter stack_eta ns_echo_data).
Definition set_udp_data : list Z -> net_stack -> net_stack := ltac:(field_setter stack_eta ns_udp_data).

(** The structure after [memset]. *)
Definition stack_zero : net_stack :=
  MkStack offer_zero offer_zero (replicate 8 entry_zero) (MkCounters 0 0 0 0 0 0 0 0 0 0) 0 0 0 0 0 0 0 0 0 0 0 0
    false false false false false false false false (replicate 16 0) [].

(** ** Pure helpers *)

Definition broadcast : list Z := replicate 6 255.
Definition deadline (current duration : Z) : Z := if UINT64_MAX - current <? duration then UINT64_MAX else current + duration.

(** The loop of [arp_remember] from entry [i]: the chosen position. *)
Fixpoint arp_choose (cache rest : list net_arp_entry) (i chosen : nat) (ip : Z) : nat :=
  match rest with
  | [] => chosen
  | e :: rest =>
      if ae_ip e =? ip then i
      else arp_choose cache rest (S i)
        (if ae_expires e <? default 0 (ae_expires <$> cache !! chosen) then i else chosen) ip
  end.

Definition local_peer (conf : dhcp_offer) (ip : Z) : bool :=
  let mask := of_mask conf in
  let host := Z.land ip (not32 mask) in
  net_ip_unicast ip && negb (ip =? of_address conf) && (Z.land ip mask =? Z.land (of_address conf) mask) &&
  negb (host =? 0) && negb (host =? not32 mask).

(** ** The monad *)

Definition NetM (W X : Type) : Type := net_stack * W -> (net_stack * W) * X.
#[export] Instance net_ret W : MRet (NetM W) := fun X x s => (s, x).
#[export] Instance net_bind W : MBind (NetM W) := fun X Y k m s => let (s', x) := m s in k x s'.
Definition nget {W} : NetM W net_stack := fun s => (s, fst s).
Definition nmodify {W} (f : net_stack -> net_stack) : NetM W unit := fun s => ((f (fst s), snd s), tt).
Definition world {W X} (f : W -> W * X) : NetM W X := fun s => let (w, x) := f (snd s) in ((fst s, w), x).
Definition andM {W} (a b : NetM W bool) : NetM W bool := x ← a; if (x : bool) then b else mret false.
Definition count {W} (c : counter) : NetM W unit := nmodify (fun s => set_counters (count_up c (ns_counters s)) s).

Section stack.
Context {W : Type} (nic : nic_device W) (clock : net_clock W).
Notation M := (NetM W).

Definition now : M Z := world (ck_milliseconds clock).
Definition sleep (milliseconds : Z) : M bool := world (fun w => ck_sleep clock w milliseconds).
Definition link : M bool := world (nic_link nic).
Definition transmit (frame : list Z) : M bool := world (fun w => nic_transmit nic w frame).
Definition receive : M (list Z) := world (nic_receive nic).

Definition random_value : M Z :=
  s ← nget;
  let r := u32 (ns_random s * 1664525 + 1013904223) in
  nmodify (set_random r);; mret r.

(** ** Sending *)

Definition send_ethernet (mac : list Z) (type : Z) (payload : list Z) : M bool :=
  match ethernet_build UTAMO_NET_FRAME_MAX (nic_mac nic) mac type payload with
  | None => mret false
  | Some frame => transmit frame
  end.

Definition send_ip (mac : list Z) (source destination protocol : Z) (payload : list Z) : M bool :=
  nmodify (fun s => set_ip_id (u16 (ns_ip_id s + 1)) s);;
  s ← nget;
  match ipv4_build 1500 source destination protocol (ns_ip_id s) payload with
  | None => mret false
  | Some packet => send_ethernet mac 0x800 packet
  end.

Definition send_udp (mac : list Z) (source destination local remote : Z) (payload : list Z) : M bool :=
  match udp_build 1480 source destination local remote payload with
  | None => mret false
  | Some packet => send_ip mac source destination 17 packet
  end.

(** ** ARP *)

Definition arp_lookup (ip : Z) : M (option (list Z)) :=
  current ← now;
  s ← nget;
  mret (ae_mac <$> List.find (fun e => (ae_ip e =? ip) && (current <? ae_expires e)) (ns_arp_cache s)).

Definition arp_remember (ip : Z) (mac : list Z) : M unit :=
  current ← now;
  nmodify (fun s =>
    let chosen := arp_choose (ns_arp_cache s) (ns_arp_cache s) 0 0 ip in
    set_arp_cache (<[chosen := MkEntry ip mac (deadline current 60000)]> (ns_arp_cache s)) s).

Definition handle_arp (eth : ethernet_packet) : M unit :=
  match arp_decode (eth_payload eth) with
  | None => count Malformed
  | Some arp =>
      if negb (bool_decide (eth_source eth = arp_sender_mac arp)) then count Malformed
      else
        count Arp;;
        s ← nget;
        if negb (ns_configured s) || negb (arp_target_ip arp =? of_address (ns_configuration s)) ||
           negb (local_peer (ns_configuration s) (arp_sender_ip arp))
        then mret tt
        else
          accept ← (if arp_operation arp =? 1 then mret true
                    else if negb (bool_decide (arp_target_mac arp = nic_mac nic)) then mret false
                    else if ns_arp_waiting s =? arp_sender_ip arp then mret true
                    else existing ← arp_lookup (arp_sender_ip arp); mret (bool_decide (is_Some existing)));
          (if (accept : bool) then arp_remember (arp_sender_ip arp) (arp_sender_mac arp) else mret tt);;
          if arp_operation arp =? 1 then
            match arp_build 28 (MkArp 2 (nic_mac nic) (arp_sender_mac arp) (of_address (ns_configuration s)) (arp_sender_ip arp)) with
            | None => mret tt
            | Some packet => send_ethernet (arp_sender_mac arp) 0x806 packet;; mret tt
            end
          else mret tt
  end.

(** ** Received UDP and IP packets *)

Definition handle_dhcp (ip : ipv4_packet) (udp : udp_packet) : M unit :=
  s ← nget;
  match dhcp_decode (udp_payload udp) (ns_xid s) (nic_mac nic) with
  | None => count Malformed
  | Some offer =>
      if negb (of_server offer =? ip_source ip) ||
         (negb (ip_destination ip =? UINT32_MAX) && negb (ip_destination ip =? of_address offer))
      then count Malformed
      else
        count Dhcp;;
        if (ns_dhcp_state s =? 1) && (of_type offer =? 2) && negb (ns_offered_ready s) then
          nmodify (fun s => set_offered_ready true (set_offered offer s))
        else if (ns_dhcp_state s =? 2) && (of_type offer =? 5) && (of_server offer =? of_server (ns_offered s)) &&
                (of_address offer =? of_address (ns_offered s)) then
          nmodify (fun s => set_ack_ready true (set_offered offer s))
        else mret tt
  end.

Definition handle_udp (ip : ipv4_packet) : M unit :=
  match udp_decode ip with
  | None => count Malformed
  | Some udp =>
      count Udp;;
      s ← nget;
      if negb (ns_dhcp_state s =? 0) && (udp_source udp =? 67) && (udp_destination udp =? 68) then handle_dhcp ip udp
      else if ns_configured s && (ip_destination ip =? of_address (ns_configuration s)) && negb (ns_udp_port s =? 0) &&
              (udp_destination udp =? ns_udp_port s) && (udp_source udp =? ns_udp_remote_port s) && (ip_source ip =? ns_udp_peer s) &&
              (size_of (udp_payload udp) <=? 1472) && negb (ns_udp_ready s) then
        nmodify (fun s => set_udp_ready true (set_udp_data (udp_payload udp) s))
      else mret tt
  end.

(** The ICMP message with its type cleared and its checksum recomputed. *)
Definition echo_response (payload : list Z) : list Z :=
  let cleared := [0; byte_of payload 1; 0; 0] ++ drop 4 payload in
  [0; byte_of payload 1] ++ net_put16 (net_checksum cleared) ++ drop 4 payload.

Definition handle_icmp (eth : ethernet_packet) (ip : ipv4_packet) : M unit :=
  match icmp_echo_decode (ip_payload ip) with
  | None => count Malformed
  | Some (reply, id, sequence) =>
      count Icmp;;
      s ← nget;
      if (reply : bool) then
        if (ns_echo_peer s =? ip_source ip) && (id =? 0x5554) && (sequence =? ns_echo_sequence s) && (size_of (ip_payload ip) =? 24) &&
           bool_decide (slice (ip_payload ip) 8 16 = ns_echo_data s)
        then nmodify (set_echo_ready true)
        else mret tt
      else
        sent ← send_ip (eth_source eth) (of_address (ns_configuration s)) (ip_source ip) 1 (echo_response (ip_payload ip));
        if (sent : bool) then count EchoReplies else mret tt
  end.

Definition handle_ip (eth : ethernet_packet) : M unit :=
  match ipv4_decode (eth_payload eth) with
  | None => count Malformed
  | Some ip =>
      if negb (net_ip_unicast (ip_source ip)) then count Malformed
      else
        s ← nget;
        let conf := ns_configuration s in
        if ns_configured s && (Z.land (ip_source ip) (of_mask conf) =? Z.land (of_address conf) (of_mask conf)) &&
           negb (local_peer conf (ip_source ip))
        then count Malformed
        else
          count Ipv4;;
          let dhcp := negb (ns_dhcp_state s =? 0) && (ip_protocol ip =? 17) in
          let mine := ns_configured s && (ip_destination ip =? of_address conf) in
          if negb dhcp && negb mine then count Ignored
          else if ip_protocol ip =? 17 then handle_udp ip
          else if negb (ip_protocol ip =? 1) || negb mine then count Ignored
          else handle_icmp eth ip
  end.

(** ** Polling *)

Definition handle_frame (frame : list Z) : M unit :=
  count Frames;;
  match ethernet_decode frame with
  | None => count Malformed
  | Some eth =>
      if negb (bool_decide (eth_destination eth = nic_mac nic)) && negb (bool_decide (eth_destination eth = broadcast)) then count Ignored
      else if eth_type eth =? 0x806 then handle_arp eth
      else if eth_type eth =? 0x800 then handle_ip eth
      else count Ignored
  end.

Fixpoint poll_frames (steps : nat) : M unit :=
  match steps with
  | O => mret tt
  | S steps =>
      frame ← receive;
      if size_of frame =? 0 then mret tt else handle_frame frame;; poll_frames steps
  end.

(** The configuration and the ARP cache are forgotten. *)
Definition clear_configuration (s : net_stack) : net_stack :=
  set_arp_cache (replicate 8 entry_zero) (set_configuration offer_zero (set_configured false s)).

Definition net_poll : M unit :=
  s ← nget;
  if negb (ns_initialized s) || ns_polling s then mret tt
  else
    nmodify (set_polling true);;
    (if ns_configured s then
       current ← now;
       if ns_lease_expires s <=? current then nmodify clear_configuration else mret tt
     else mret tt);;
    poll_frames 32;;
    nmodify (set_polling false).

Fixpoint wait_steps (steps : nat) (flag : net_stack -> bool) (start milliseconds : Z) : M bool :=
  match steps with
  | O => mret false
  | S steps =>
      net_poll;;
      s ← nget;
      if flag s then mret true
      else
        current ← now;
        if milliseconds <=? current -u start then mret false
        else
          up ← link;
          if negb up then mret false
          else
            slept ← sleep 10;
            if negb slept then mret false else wait_steps steps flag start milliseconds
  end.
Definition wait_flag (flag : net_stack -> bool) (milliseconds : Z) : M bool :=
  start ← now; wait_steps 401 flag start milliseconds.

(** ** Routing *)

(** The inner loop of [route]: [good] and the address that was found. *)
Fixpoint await_arp (steps : nat) (next start : Z) : M (bool * option (list Z)) :=
  match steps with
  | O => mret (true, None)
  | S steps =>
      net_poll;;
      found ← arp_lookup next;
      match (found : option (list Z)) with
      | Some mac => mret (true, Some mac)
      | None =>
          current ← now;
          if 500 <=? current -u start then mret (true, None)
          else
            s ← nget;
            if negb (ns_configured s) then mret (true, None)
            else
              up ← link;
              if negb up then mret (true, None)
              else
                slept ← sleep 10;
                if (slept : bool) then await_arp steps next start else mret (false, None)
      end
  end.

Fixpoint route_attempts (attempts : nat) (packet : list Z) (next : Z) : M (option (list Z)) :=
  match attempts with
  | O => mret None
  | S attempts =>
      sent ← send_ethernet broadcast 0x806 packet;
      start ← now;
      if negb sent then mret None
      else
        r ← await_arp 101 next start;
        match (r : bool * option (list Z)) with
        | (false, _) => mret None
        | (true, Some mac) => mret (Some mac)
        | (true, None) => route_attempts attempts packet next
        end
  end.

Definition route (destination : Z) : M (option (list Z)) :=
  net_poll;;
  s ← nget;
  let conf := ns_configuration s in
  if negb (ns_configured s) || negb (net_ip_unicast destination) || (destination =? of_address conf) then mret None
  else
    let mask := of_mask conf in
    let next := if Z.land destination mask =? Z.land (of_address conf) mask then destination else of_gateway conf in
    if edge_address next mask then mret None
    else
      known ← arp_lookup next;
      match (known : option (list Z)) with
      | Some mac => mret (Some mac)
      | None =>
          nmodify (set_arp_waiting next);;
          found ← match arp_build 28 (MkArp 1 (nic_mac nic) (replicate 6 0) (of_address conf) next) with
                  | None => mret None
                  | Some packet => route_attempts 2 packet next
                  end;
          nmodify (set_arp_waiting 0);;
          mret found
      end.

(** ** Operations *)

Definition net_stack_init : M bool :=
  s ← nget;
  if ns_initialized s || negb (net_mac_unicast (nic_mac nic)) || negb (nic_mtu nic =? 1500) then mret false
  else
    nmodify (fun _ => set_initialized true stack_zero);;
    current ← now;
    nmodify (set_random (Z.lxor (Z.lxor (u32 current) (net_get32 (nic_mac nic) 2)) 0x41535452));;
    mret true.

(** The loop that waits for the link, from turn [step] on. *)
Fixpoint await_link (steps : nat) (start : Z) : M bool :=
  up ← link;
  if (up : bool) then mret true
  else match steps with
  | O => mret false
  | S steps =>
      current ← now;
      if 2000 <=? current -u start then mret false
      else
        slept ← sleep 10;
        if (slept : bool) then await_link steps start else mret false
  end.

Definition send_dhcp (type : Z) (offer : option dhcp_offer) : M bool :=
  s ← nget;
  match dhcp_build 300 type (ns_xid s) (nic_mac nic) offer with
  | None => mret false
  | Some packet => send_udp broadcast 0 UINT32_MAX 68 67 packet
  end.

Definition bind_configuration : M unit :=
  nmodify (fun s => set_configuration (ns_offered s) s);;
  current ← now;
  nmodify (fun s => set_configured true (set_lease_expires (deadline current (of_lease_seconds (ns_configuration s) *u 1000)) s)).

Definition dhcp_attempt : M bool :=
  xid ← random_value;
  nmodify (fun s => set_dhcp_state 1 (set_ack_ready false (set_offered_ready false (set_xid xid s))));;
  offered ← andM (send_dhcp 1 None) (wait_flag ns_offered_ready 1000);
  if negb offered then mret false
  else
    nmodify (set_dhcp_state 2);;
    s ← nget;
    acked ← andM (send_dhcp 3 (Some (ns_offered s))) (wait_flag ns_ack_ready 1000);
    if negb acked then mret false else bind_configuration;; mret true.

Fixpoint dhcp_attempts (attempts : nat) : M bool :=
  match attempts with
  | O => mret false
  | S attempts =>
      success ← dhcp_attempt;
      if (success : bool) then mret true else dhcp_attempts attempts
  end.

Definition net_dhcp : M bool :=
  s ← nget;
  if negb (ns_initialized s) || ns_busy s then mret false
  else
    nmodify (fun s => clear_configuration (set_lease_expires 0 (set_busy true s)));;
    start ← now;
    up ← await_link 201 start;
    success ← (if (up : bool) then dhcp_attempts 3 else mret false);
    nmodify (fun s => set_busy false (set_dhcp_state 0 s));;
    mret success.

(** The echo request with its checksum. *)
Definition echo_request (sequence : Z) (data : list Z) : list Z :=
  let rest := net_put16 0x5554 ++ net_put16 sequence ++ data in
  [8; 0] ++ net_put16 (net_checksum ([8; 0; 0; 0] ++ rest)) ++ rest.

(** The round-trip time, when a reply came. *)
Definition net_ping (destination : Z) : M (option Z) :=
  s ← nget;
  if negb (ns_initialized s) || ns_busy s then mret None
  else
    nmodify (set_busy true);;
    target ← route destination;
    r ← match (target : option (list Z)) with
        | None => mret None
        | Some mac =>
            nmodify (fun s => set_echo_sequence (u16 (ns_echo_sequence s + 1)) s);;
            nmodify (fun s => set_echo_data ((fun i => u8 (i * 17 + ns_echo_sequence s)) <$> seqZ 0 16) s);;
            nmodify (fun s => set_echo_ready false (set_echo_peer destination s));;
            start ← now;
            s ← nget;
            good ← andM (send_ip mac (of_address (ns_configuration s)) destination 1 (echo_request (ns_echo_sequence s) (ns_echo_data s)))
                        (wait_flag ns_echo_ready 1000);
            if (good : bool) then current ← now; mret (Some (current -u start)) else mret None
        end;
    nmodify (fun s => set_busy false (set_echo_peer 0 s));;
    mret r.

(** The reply, at most [capacity] bytes. *)
Definition net_udp_request (destination port : Z) (data : list Z) (capacity : Z) : M (option (list Z)) :=
  s ← nget;
  if negb (ns_initialized s) || ns_busy s || (1472 <? size_of data) || (port =? 0) then mret None
  else
    nmodify (set_busy true);;
    target ← route destination;
    r ← match (target : option (list Z)) with
        | None => mret None
        | Some mac =>
            value ← random_value;
            nmodify (fun s => set_udp_data [] (set_udp_ready false (set_udp_peer destination
              (set_udp_remote_port port (set_udp_port (u16 (49152 + Z.land value 16383)) s)))));;
            s ← nget;
            good ← andM (send_udp mac (of_address (ns_configuration s)) destination (ns_udp_port s) port data)
                        (wait_flag ns_udp_ready 1000);
            s ← nget;
            mret (if good && (size_of (ns_udp_data s) <=? capacity) then Some (ns_udp_data s) else None)
        end;
    nmodify (fun s => set_busy false (set_udp_peer 0 (set_udp_port 0 s)));;
    mret r.

Definition net_resolve (name : list Z) (server port : Z) : M (option Z) :=
  s ← nget;
  if negb (ns_initialized s) || ns_busy s then mret None
  else
    value ← random_value;
    nmodify (set_dns_id (u16 value));;
    s ← nget;
    match dns_build_query UTAMO_DNS_MESSAGE_MAX name (ns_dns_id s) with
    | None => mret None
    | Some query =>
        response ← net_udp_request server port query UTAMO_DNS_MESSAGE_MAX;
        s ← nget;
        match (response : option (list Z)) with
        | None => mret None
        | Some bytes =>
            match dns_decode_reply bytes name (ns_dns_id s) with
            | None => mret None
            | Some address => count Dns;; mret (Some address)
            end
        end
    end.
End stack.
