(* ===== verification/NetInv.v ===== *)
(** * The network stack: its invariant, and that every step preserves it *)

From S2P Require Import Prelude Bytes NetCodec NetServices NetStack.
Open Scope Z_scope.

(** ** The invariant *)

Definition u32_ok (x : Z) : Prop := 0 <= x <= UINT32_MAX.
Definition u16_ok (x : Z) : Prop := 0 <= x < 65536.

Definition offer_typed (o : dhcp_offer) : Prop :=
  u32_ok (of_address o) /\ u32_ok (of_mask o) /\ u32_ok (of_gateway o) /\ u32_ok (of_dns o) /\ u32_ok (of_server o) /\
  u32_ok (of_lease_seconds o) /\ 0 <= of_type o < 256.

(** An entry of the ARP cache is empty or names a neighbour. *)
Definition entry_ok (conf : option dhcp_offer) (e : net_arp_entry) : Prop :=
  length (ae_mac e) = 6%nat /\ u64_ok (ae_expires e) /\
  (e = entry_zero \/ exists o, conf = Some o /\ local_peer o (ae_ip e) = true /\ net_mac_unicast (ae_mac e) = true).

Definition counters_typed (t : net_counters) : Prop :=
  u64_ok (ct_frames t) /\ u64_ok (ct_malformed t) /\ u64_ok (ct_ignored t) /\ u64_ok (ct_arp t) /\ u64_ok (ct_ipv4 t) /\
  u64_ok (ct_icmp t) /\ u64_ok (ct_udp t) /\ u64_ok (ct_dhcp t) /\ u64_ok (ct_dns t) /\ u64_ok (ct_echo_replies t).

(** The configuration in force. *)
Definition current (s : net_stack) : option dhcp_offer := if ns_configured s then Some (ns_configuration s) else None.

Record stack_wf (s : net_stack) : Prop := {
  sw_types : offer_typed (ns_configuration s) /\ offer_typed (ns_offered s) /\ counters_typed (ns_counters s);
  sw_words : u64_ok (ns_lease_expires s) /\ u32_ok (ns_random s) /\ u32_ok (ns_xid s) /\ u32_ok (ns_arp_waiting s) /\
    u32_ok (ns_echo_peer s) /\ u32_ok (ns_udp_peer s) /\ u16_ok (ns_ip_id s) /\ u16_ok (ns_echo_sequence s) /\ u16_ok (ns_udp_port s) /\
    u16_ok (ns_udp_remote_port s) /\ u16_ok (ns_dns_id s) /\ 0 <= ns_dhcp_state s <= 2;
  sw_buffers : length (ns_echo_data s) = 16%nat /\ size_of (ns_udp_data s) <= 1472;
  sw_cache : length (ns_arp_cache s) = 8%nat /\ Forall (entry_ok (current s)) (ns_arp_cache s);
  sw_configured : ns_configured s = true -> offer_valid (ns_configuration s) = true /\ of_type (ns_configuration s) = 5;
  sw_offered : ns_offered_ready s = true \/ ns_ack_ready s = true -> offer_valid (ns_offered s) = true;
  sw_acked : ns_ack_ready s = true -> of_type (ns_offered s) = 5 /\ ns_dhcp_state s <> 1
}.

(** ** Rules

    [wp m Q s]: from stack [s] and any world, [m] ends with [Q]. *)

Definition wp {W X} (m : NetM W X) (Q : X -> net_stack -> Prop) (s : net_stack) : Prop :=
  forall w, Q (snd (m (s, w))) (fst (fst (m (s, w)))).

Section rules.
Context {W : Type}.

Lemma wp_bind {X Y} (m : NetM W X) (k : X -> NetM W Y) Q s : wp m (fun x s' => wp (k x) Q s') s -> wp (m ≫= k) Q s.
Proof.
  intros Hm w. unfold mbind, net_bind. specialize (Hm w). destruct (m (s, w)) as [[s' w'] x]. cbn [fst snd] in Hm. apply Hm.
Qed.

Lemma wp_mono {X} (m : NetM W X) (Q Q' : X -> net_stack -> Prop) s : wp m Q s -> (forall x s', Q x s' -> Q' x s') -> wp m Q' s.
Proof. intros Hm HQ w. apply HQ, Hm. Qed.

Lemma wp_ret {X} (x : X) (Q : X -> net_stack -> Prop) s : Q x s -> wp (mret x : NetM W X) Q s.
Proof. intros HQ w. done. Qed.

Lemma wp_get (Q : net_stack -> net_stack -> Prop) s : Q s s -> wp (nget : NetM W net_stack) Q s.
Proof. intros HQ w. done. Qed.

Lemma wp_modify f (Q : unit -> net_stack -> Prop) s : Q tt (f s) -> wp (nmodify f : NetM W unit) Q s.
Proof. intros HQ w. done. Qed.

Lemma wp_world {X} (f : W -> W * X) (Q : X -> net_stack -> Prop) s : (forall w, Q (snd (f w)) s) -> wp (world f) Q s.
Proof. intros HQ w. unfold world. cbn [snd fst]. specialize (HQ w). by destruct (f w). Qed.

Lemma wp_andM (a b : NetM W bool) (Q : bool -> net_stack -> Prop) s :
  wp a (fun x s' => if x then wp b Q s' else Q false s') s -> wp (andM a b) Q s.
Proof. intros Ha. unfold andM. apply wp_bind. eapply wp_mono; [exact Ha|]. intros [|] s' Hs; [done|by apply wp_ret]. Qed.
End rules.

(** One step of a program of the stack. *)
Ltac net_step :=
  match goal with
  | |- wp (_ ≫= _) _ _ => apply wp_bind
  | |- wp (mret _) _ _ => apply wp_ret
  | |- wp nget _ _ => apply wp_get
  | |- wp (nmodify _) _ _ => apply wp_modify
  | |- wp (count _) _ _ => apply wp_modify
  end; cbv beta.

(** The setters unfolded, so that projections of updated stacks reduce. *)
Ltac net_fields :=
  cbn [set_configuration set_offered set_arp_cache set_counters set_lease_expires set_random set_xid set_arp_waiting set_echo_peer set_udp_peer set_ip_id
       set_echo_sequence set_udp_port set_udp_remote_port set_dns_id set_dhcp_state set_initialized set_configured set_busy set_polling set_offered_ready
       set_ack_ready set_echo_ready set_udp_ready set_echo_data set_udp_data clear_configuration current
       ns_configuration ns_offered ns_arp_cache ns_counters ns_lease_expires ns_random ns_xid ns_arp_waiting ns_echo_peer ns_udp_peer ns_ip_id
       ns_echo_sequence ns_udp_port ns_udp_remote_port ns_dns_id ns_dhcp_state ns_initialized ns_configured ns_busy ns_polling ns_offered_ready
       ns_ack_ready ns_echo_ready ns_udp_ready ns_echo_data ns_udp_data] in *.

Lemma count_up_typed c t : counters_typed t -> counters_typed (count_up c t).
Proof.
  unfold counters_typed. intros (? & ? & ? & ? & ? & ? & ? & ? & ? & ?). destruct c; cbn -[u64_ok]; split_and!; done || apply u64_range.
Qed.

(** ** Offers *)

Lemma offer_zero_typed : offer_typed offer_zero.
Proof. unfold offer_typed, u32_ok, UINT32_MAX. cbn. lia. Qed.

Lemma dhcp_option_typed p code length offset o bit o' : offer_typed o -> dhcp_option p code length offset o = Some (bit, o') -> offer_typed o'.
Proof.
  intros Ho. pose proof (net_get32_range p offset) as Hw. pose proof (byte_of_range p offset) as Hb. destruct Ho as (? & ? & ? & ? & ? & ? & ?). unfold dhcp_option.
  intros E. repeat case_match; simplify_eq; unfold offer_typed, u32_ok in *; cbn [of_address of_mask of_gateway of_dns of_server of_lease_seconds of_type]; split_and!; lia.
Qed.

Lemma dhcp_options_typed p steps : forall offset seen o ended seen' o', offer_typed o -> dhcp_options steps p offset seen o = Some (ended, seen', o') -> offer_typed o'.
Proof.
  induction steps as [|steps IH]; intros offset seen o ended seen' o' Ho; cbn [dhcp_options]; [done|]. destruct (negb _); [by intros [= <- <- <-]|].
  destruct (_ =? 0); [by apply IH|]. destruct (_ =? 255); [by intros [= <- <- <-]|]. destruct (_ =? size_of p); [done|]. destruct (_ <? _); [done|].
  destruct (dhcp_option _ _ _ _ _) as [[bit o2]|] eqn:E; [|done]. destruct (_ && _); [done|]. apply IH. by eapply dhcp_option_typed.
Qed.

Lemma dhcp_decode_ok p xid mac o : dhcp_decode p xid mac = Some o -> offer_typed o /\ offer_valid o = true.
Proof.
  unfold dhcp_decode. destruct (_ || _); [done|]. destruct (_ || _ || _ || _ || _ || _ || _ || _ || _); [done|].
  destruct (dhcp_options _ _ _ _ _) as [[[ended seen] offer]|] eqn:E; [|done]. destruct (_ || _ || _) eqn:G; [done|]. intros [= <-].
  do 2 (apply orb_false_iff in G as [G ?]). split; [|by apply negb_false_iff].
  eapply dhcp_options_typed; [|exact E]. pose proof (net_get32_range p 16). unfold offer_typed, u32_ok, UINT32_MAX in *. cbn. lia.
Qed.

(** ** The network stack: received frames preserve the invariant *)


(** The invariant with the flags; [k = false]: no configuration is in force. *)
Definition inv (busy polling k : bool) (s : net_stack) : Prop :=
  stack_wf s /\ ns_busy s = busy /\ ns_polling s = polling /\ ns_initialized s = true /\ (ns_configured s = true -> k = true).

(** The invariant of a stack with some fields replaced. *)
Ltac inv_solve :=
  lazymatch goal with
  | H : inv _ _ _ ?s |- inv _ _ _ _ =>
      let W := fresh "Hwf" in
      destruct H as (W & ? & ? & ? & ?); destruct W as [(? & ? & ?) (? & ? & ? & ? & ? & ? & ? & ? & ? & ? & ? & ?) [? ?] [? ?] ? ? ?];
      split; [constructor; net_fields; split_and?; try solve [done | lia] | net_fields; done]
  end.

Lemma u16_ok_u16 x : u16_ok (u16 x).
Proof. unfold u16_ok, u16. apply Z.mod_pos_bound. lia. Qed.

Lemma inv_count b p k c s : inv b p k s -> inv b p k (set_counters (count_up c (ns_counters s)) s).
Proof. intros H. inv_solve. by apply count_up_typed. Qed.

Lemma inv_ip_id b p k x s : inv b p k s -> inv b p k (set_ip_id (u16 x) s).
Proof. intros H. inv_solve. apply u16_ok_u16. Qed.

Lemma inv_cache b p k cache s : inv b p k s -> length cache = 8%nat -> Forall (entry_ok (current s)) cache -> inv b p k (set_arp_cache cache s).
Proof. intros H Hl Hc. inv_solve. Qed.

Lemma inv_clear b p k s : inv b p k s -> inv b p k (clear_configuration s).
Proof.
  intros H. inv_solve. apply Forall_replicate. split; [done|]. split; [unfold u64_ok, UINT64_MAX; cbn; lia|by left].
Qed.

Lemma deadline_ok x d : u64_ok x -> 0 <= d -> u64_ok (deadline x d).
Proof. unfold u64_ok, deadline. intros Hx Hd. destruct (Z.ltb_spec (UINT64_MAX - x) d); lia. Qed.

Lemma slice_length p i n : 0 <= i -> 0 <= n -> i + n <= size_of p -> length (slice p i n) = Z.to_nat n.
Proof. intros Hi Hn Hs. unfold slice, size_of in *. rewrite length_take, length_drop. lia. Qed.

Lemma arp_decode_ok p arp : arp_decode p = Some arp -> length (arp_sender_mac arp) = 6%nat /\ net_mac_unicast (arp_sender_mac arp) = true.
Proof.
  unfold arp_decode. destruct (Z.ltb_spec (size_of p) 28); [done|]. destruct (_ || _) eqn:G; [done|]. intros [= <-]. cbn [arp_sender_mac].
  do 7 (apply orb_false_iff in G as [G ?]). split; [by rewrite slice_length by lia|by apply negb_false_iff].
Qed.

Section steps.
Context {W : Type} (nic : nic_device W) (clock : net_clock W).
Context (Hclock : forall w, u64_ok (snd (ck_milliseconds clock w))).
Notation M := (NetM W).

Lemma wp_now (Q : Z -> net_stack -> Prop) s : (forall x, u64_ok x -> Q x s) -> wp (now clock) Q s.
Proof. intros HQ. apply wp_world. intros w. apply HQ, Hclock. Qed.

Lemma wp_link (Q : bool -> net_stack -> Prop) s : (forall x, Q x s) -> wp (link nic) Q s.
Proof. intros HQ. apply wp_world. intros w. apply HQ. Qed.

Lemma wp_sleep ms (Q : bool -> net_stack -> Prop) s : (forall x, Q x s) -> wp (sleep clock ms) Q s.
Proof. intros HQ. apply wp_world. intros w. apply HQ. Qed.

Lemma wp_send_ethernet mac type payload (Q : bool -> net_stack -> Prop) s : (forall x, Q x s) -> wp (send_ethernet nic mac type payload) Q s.
Proof. intros HQ. unfold send_ethernet. destruct (ethernet_build _ _ _ _ _); [apply wp_world; intros w; apply HQ|apply wp_ret, HQ]. Qed.

Lemma wp_send_ip mac source destination protocol payload (Q : bool -> net_stack -> Prop) s :
  (forall x, Q x (set_ip_id (u16 (ns_ip_id s + 1)) s)) -> wp (send_ip nic mac source destination protocol payload) Q s.
Proof.
  intros HQ. unfold send_ip. do 4 net_step. destruct (ipv4_build _ _ _ _ _ _); [by apply wp_send_ethernet|apply wp_ret, HQ].
Qed.

Lemma wp_send_udp mac source destination local remote payload (Q : bool -> net_stack -> Prop) s :
  (forall x, Q x s) -> (forall x, Q x (set_ip_id (u16 (ns_ip_id s + 1)) s)) -> wp (send_udp nic mac source destination local remote payload) Q s.
Proof. intros H1 H2. unfold send_udp. destruct (udp_build _ _ _ _ _ _); [by apply wp_send_ip|apply wp_ret, H1]. Qed.

(** A frame from the cache is a neighbour's address. *)
Lemma wp_arp_lookup ip (Q : option (list Z) -> net_stack -> Prop) s : (forall x, Q x s) -> wp (arp_lookup clock ip) Q s.
Proof. intros HQ. unfold arp_lookup. net_step. apply wp_now. intros current _. do 2 net_step. apply wp_ret, HQ. Qed.

Lemma wp_arp_remember b p k ip mac s : inv b p k s -> ns_configured s = true -> local_peer (ns_configuration s) ip = true -> length mac = 6%nat ->
  net_mac_unicast mac = true -> wp (arp_remember clock ip mac) (fun _ => inv b p k) s.
Proof.
  intros Hi Hc Hp Hl Hm. unfold arp_remember. net_step. apply wp_now. intros x Hx. net_step. destruct (sw_cache _ (proj1 Hi)) as [Hlen Hall].
  apply inv_cache; [done|by rewrite length_insert|]. apply Forall_insert; [done|]. split; [done|]. split; [by apply deadline_ok|].
  right. exists (ns_configuration s). unfold current. by rewrite Hc.
Qed.

Lemma wp_handle_arp b p k eth s : inv b p k s -> wp (handle_arp nic clock eth) (fun _ => inv b p k) s.
Proof.
  intros Hi. unfold handle_arp. destruct (arp_decode _) as [arp|] eqn:Ea; [|net_step; by apply inv_count]. apply arp_decode_ok in Ea as [Hl Hm].
  destruct (negb (bool_decide _)); [net_step; by apply inv_count|]. do 4 net_step. apply (inv_count _ _ _ Arp) in Hi. set (s1 := set_counters _ s) in *.
  clearbody s1. destruct (_ || _ || _) eqn:G; [by net_step|]. do 2 (apply orb_false_iff in G as [G ?]). rewrite !negb_false_iff in *.
  assert (forall Q : bool -> net_stack -> Prop, (forall x, Q x s1) -> wp (if arp_operation arp =? 1 then mret true
    else if negb (bool_decide (arp_target_mac arp = nic_mac nic)) then mret false
    else if ns_arp_waiting s1 =? arp_sender_ip arp then mret true
    else existing ← arp_lookup clock (arp_sender_ip arp); mret (bool_decide (is_Some existing)) : M bool) Q s1) as Hacc.
  { intros Q HQ. repeat case_match; try by apply wp_ret. net_step. apply wp_arp_lookup. intros x. by apply wp_ret. }
  net_step. apply Hacc. intros accept. net_step.
  assert (wp (if accept then arp_remember clock (arp_sender_ip arp) (arp_sender_mac arp) else mret tt) (fun _ => inv b p k) s1) as Hrem
    by (destruct accept; [by apply wp_arp_remember|by apply wp_ret]).
  eapply wp_mono; [exact Hrem|]. intros [] s2 Hi2. cbv beta. destruct (arp_operation arp =? 1); [|by apply wp_ret].
  destruct (arp_build _ _); [|by apply wp_ret]. net_step. apply wp_send_ethernet. intros _. by apply wp_ret.
Qed.

Lemma wp_handle_udp b p k ip s : inv b p k s -> wp (handle_udp nic ip) (fun _ => inv b p k) s.
Proof.
  intros Hi. unfold handle_udp. destruct (udp_decode ip) as [udp|]; [|net_step; by apply inv_count]. do 4 net_step. apply (inv_count _ _ _ Udp) in Hi.
  set (s1 := set_counters _ s) in *. clearbody s1. destruct (_ && _ && _).
  - unfold handle_dhcp. do 2 net_step. destruct (dhcp_decode _ _ _) as [o|] eqn:Eo; [|net_step; by apply inv_count]. apply dhcp_decode_ok in Eo as [Hty Hval].
    destruct (_ || _); [net_step; by apply inv_count|]. do 2 net_step. apply (inv_count _ _ _ Dhcp) in Hi. set (s2 := set_counters _ s1) in *.
    destruct (_ && _ && _) eqn:G1; [|destruct (_ && _ && _ && _) eqn:G2]; net_step; [| |done].
    + apply andb_true_iff in G1 as [[G1 G2]%andb_true_iff G3]. assert (ns_dhcp_state s2 = 1) as Hst by (unfold s2; net_fields; lia).
      assert (ns_ack_ready s2 = false) as Hack. { destruct (ns_ack_ready s2) eqn:E; [|done]. destruct Hi as [Hw _]. apply (sw_acked _ Hw) in E. lia. }
      clearbody s2. inv_solve. rewrite Hack. discriminate.
    + do 3 (apply andb_true_iff in G2 as [G2 ?]). assert (ns_dhcp_state s2 = 2) as Hst by (unfold s2; net_fields; lia). clearbody s2. inv_solve.
  - destruct (_ && _) eqn:G; net_step; [|done]. do 7 (apply andb_true_iff in G as [G ?]). inv_solve.
Qed.

Lemma wp_handle_frame b p k frame s : inv b p k s -> wp (handle_frame nic clock frame) (fun _ => inv b p k) s.
Proof.
  intros Hi. unfold handle_frame. do 2 net_step. apply (inv_count _ _ _ Frames) in Hi. set (s1 := set_counters _ s) in *. clearbody s1.
  destruct (ethernet_decode frame) as [eth|]; [|net_step; by apply inv_count]. destruct (_ && _); [net_step; by apply inv_count|].
  destruct (eth_type eth =? 0x806); [by apply wp_handle_arp|]. destruct (eth_type eth =? 0x800); [|net_step; by apply inv_count].
  unfold handle_ip. destruct (ipv4_decode _) as [ip|]; [|net_step; by apply inv_count]. destruct (negb _); [net_step; by apply inv_count|].
  do 2 net_step. destruct (_ && _); [net_step; by apply inv_count|]. do 2 net_step. apply (inv_count _ _ _ Ipv4) in Hi. set (s2 := set_counters _ s1) in *. clearbody s2.
  destruct (negb _ && _); [net_step; by apply inv_count|]. destruct (_ =? 17); [by apply wp_handle_udp|]. destruct (_ || _); [net_step; by apply inv_count|].
  unfold handle_icmp. destruct (icmp_echo_decode _) as [[[reply id] sequence]|]; [|net_step; by apply inv_count]. do 4 net_step.
  apply (inv_count _ _ _ Icmp) in Hi. set (s3 := set_counters _ s2) in *. clearbody s3. destruct reply.
  - destruct (_ && _); net_step; [|done]. inv_solve.
  - net_step. apply wp_send_ip. intros sent. apply (inv_ip_id _ _ _ (ns_ip_id s3 + 1)) in Hi. set (s4 := set_ip_id _ s3) in *. clearbody s4.
    destruct sent; net_step; [by apply inv_count|done].
Qed.
End steps.

(** ** The network stack: every operation preserves the invariant *)


Lemma lxor_u32 x y : u32_ok x -> u32_ok y -> u32_ok (Z.lxor x y).
Proof.
  unfold u32_ok, UINT32_MAX. intros Hx Hy. assert (0 <= Z.lxor x y) as H0 by (apply Z.lxor_nonneg; lia). split; [done|].
  destruct (Z.eq_dec (Z.lxor x y) 0) as [->|Hnz]; [lia|]. assert (Z.log2 (Z.lxor x y) < 32) as Hl.
  { destruct (decide (Z.log2 (Z.lxor x y) < 32)); [done|]. pose proof (Z.bit_log2 (Z.lxor x y) ltac:(lia)) as Hb.
    rewrite Z.lxor_spec, (testbit_high x 32), (testbit_high y 32) in Hb by lia. done. }
  apply Z.log2_lt_pow2 in Hl; lia.
Qed.

Section ops.
Context {W : Type} (nic : nic_device W) (clock : net_clock W).
Context (Hclock : forall w, u64_ok (snd (ck_milliseconds clock w))).
Notation M := (NetM W).

Lemma wp_poll_frames steps : forall b p k s, inv b p k s -> wp (poll_frames nic clock steps) (fun _ => inv b p k) s.
Proof.
  induction steps as [|steps IH]; intros b p k s Hi; cbn [poll_frames]; [by net_step|]. net_step. apply wp_world. intros w.
  destruct (_ =? 0); [by net_step|]. net_step. eapply wp_mono; [by apply wp_handle_frame|]. cbv beta. intros _ s' Hi'. by apply IH.
Qed.

Lemma inv_polling b p k q s : inv b p k s -> inv b q k (set_polling q s).
Proof. intros H. inv_solve. Qed.

Lemma wp_net_poll b k s : inv b false k s -> wp (net_poll nic clock) (fun _ => inv b false k) s.
Proof.
  intros Hi. unfold net_poll. do 2 net_step. pose proof Hi as (_ & _ & Hp & Hin & _). rewrite Hp, Hin. cbn [negb orb]. do 3 net_step.
  apply (inv_polling _ _ _ true) in Hi. set (s1 := set_polling true s) in *. clearbody s1.
  assert (wp (if ns_configured s then current ← now clock; if ns_lease_expires s <=? current then nmodify clear_configuration else mret tt else mret tt : M unit)
    (fun _ => inv b true k) s1) as Hexp.
  { destruct (ns_configured s); [|by net_step]. net_step. apply (wp_now clock Hclock). intros x _. destruct (_ <=? _); net_step; [by apply inv_clear|done]. }
  eapply wp_mono; [exact Hexp|]. cbv beta. intros _ s2 Hi2. cbv beta. net_step. eapply wp_mono; [by apply wp_poll_frames|]. cbv beta. intros _ s3 Hi3. cbv beta. net_step.
  by eapply inv_polling.
Qed.

Lemma wp_wait_flag flag ms b k s : inv b false k s ->
  wp (wait_flag nic clock flag ms) (fun x s' => inv b false k s' /\ (x = true -> flag s' = true)) s.
Proof.
  intros Hi. unfold wait_flag. net_step. apply (wp_now clock Hclock). intros start _. generalize 401%nat as steps. intros steps. revert s Hi.
  induction steps as [|steps IH]; intros s Hi; cbn [wait_steps]; [by net_step|]. net_step. eapply wp_mono; [by apply wp_net_poll|].
  cbv beta. intros _ s1 Hi1. cbv beta. do 2 net_step. destruct (flag s1) eqn:Ef; [by net_step|]. net_step. apply (wp_now clock Hclock). intros x _.
  destruct (_ <=? _); [by net_step|]. net_step. apply wp_link. intros up. destruct (negb up); [by net_step|]. net_step. apply wp_sleep. intros slept.
  destruct (negb slept); [by net_step|by apply IH].
Qed.

Lemma wp_await_arp next start b k steps : forall s, inv b false k s -> wp (await_arp nic clock steps next start) (fun _ => inv b false k) s.
Proof.
  induction steps as [|steps IH]; intros s Hi; cbn [await_arp]; [by net_step|]. net_step. eapply wp_mono; [by apply wp_net_poll|]. cbv beta. intros _ s1 Hi1. cbv beta.
  net_step. apply (wp_arp_lookup clock Hclock). intros [mac|]; [by net_step|]. net_step. apply (wp_now clock Hclock). intros x _. destruct (_ <=? _); [by net_step|].
  do 2 net_step. destruct (negb _); [by net_step|]. net_step. apply wp_link. intros up. destruct (negb up); [by net_step|].
  net_step. apply wp_sleep. intros [|]; [by apply IH|by net_step].
Qed.

Lemma wp_route_attempts packet next b k n : forall s, inv b false k s -> wp (route_attempts nic clock n packet next) (fun _ => inv b false k) s.
Proof.
  induction n as [|n IH]; intros s Hi; cbn [route_attempts]; [by net_step|]. net_step. apply wp_send_ethernet. intros sent. net_step.
  apply (wp_now clock Hclock). intros start _. destruct (negb sent); [by net_step|]. net_step. eapply wp_mono; [by apply wp_await_arp|].
  intros [[|] [mac|]] s1 Hi1; cbv beta; try by net_step. by apply IH.
Qed.

Lemma inv_waiting b p k x s : inv b p k s -> u32_ok x -> inv b p k (set_arp_waiting x s).
Proof. intros H Hx. inv_solve. Qed.

Lemma wp_route destination b k s : inv b false k s -> u32_ok destination -> wp (route nic clock destination) (fun _ => inv b false k) s.
Proof.
  intros Hi Hd. unfold route. net_step. eapply wp_mono; [by apply wp_net_poll|]. cbv beta. intros _ s1 Hi1. cbv beta. do 2 net_step. destruct (_ || _); [by net_step|].
  set (next := if Z.land destination (of_mask (ns_configuration s1)) =? Z.land (of_address (ns_configuration s1)) (of_mask (ns_configuration s1))
    then destination else of_gateway (ns_configuration s1)). assert (u32_ok next) as Hn.
  { unfold next. destruct (_ =? _); [done|]. destruct Hi1 as [[[(_ & _ & Hg & _) _] _ _ _ _ _ _] _]. done. }
  destruct (edge_address _ _); [by net_step|]. net_step. apply (wp_arp_lookup clock Hclock). intros [mac|]; [by net_step|]. do 2 net_step.
  apply (inv_waiting _ _ _ next) in Hi1; [|done]. set (s2 := set_arp_waiting next s1) in *. clearbody s2. net_step.
  assert (wp (match arp_build 28 (MkArp 1 (nic_mac nic) (replicate 6 0) (of_address (ns_configuration s1)) next) with
    None => mret None | Some packet => route_attempts nic clock 2 packet next end : M (option (list Z))) (fun _ => inv b false k) s2) as Hatt
    by (destruct (arp_build _ _); [by apply wp_route_attempts|by net_step]).
  eapply wp_mono; [exact Hatt|]. intros found s3 Hi3. cbv beta. do 2 net_step. apply wp_ret. apply inv_waiting; [done|unfold u32_ok, UINT32_MAX; lia].
Qed.

Lemma wp_random b p k s (Q : Z -> net_stack -> Prop) : inv b p k s -> (forall x s', u32_ok x -> inv b p k s' -> Q x s') -> wp (random_value : M Z) Q s.
Proof.
  intros Hi HQ. unfold random_value. do 4 net_step. set (r := u32 _). assert (u32_ok r) as Hr by (unfold r, u32_ok, u32, UINT32_MAX; dlia).
  apply wp_ret, HQ; [done|]. clearbody r. inv_solve.
Qed.

(** ** DHCP *)

Lemma wp_send_dhcp type offer b p k s : inv b p k s -> wp (send_dhcp nic type offer) (fun _ => inv b p k) s.
Proof.
  intros Hi. unfold send_dhcp. do 2 net_step. destruct (dhcp_build _ _ _ _ _); [|by net_step].
  apply wp_send_udp; [done|]. intros _. by apply inv_ip_id.
Qed.

Lemma u64_mul_ok x y : 0 <= x *u y.
Proof. apply u64_range. Qed.

(** Without a configuration in force the ARP cache is empty, so it fits the new one. *)
Lemma wp_bind_configuration b s : inv b false false s -> ns_ack_ready s = true -> wp (bind_configuration clock) (fun _ => inv b false true) s.
Proof.
  intros Hi Hack. unfold bind_configuration. do 2 net_step. net_step. apply (wp_now clock Hclock). intros x Hx. net_step.
  destruct Hi as ([(Hc & Ho & Ht) (L & W1 & W2 & W3 & W4 & W5 & W6 & W7 & W8 & W9 & W10 & W11) [E1 E2] [C1 C2] S1 S2 S3] & Hb & Hp & Hin & Hk).
  assert (ns_configured s = false) as Hnc by (destruct (ns_configured s); [by specialize (Hk eq_refl)|done]).
  split; [|net_fields; done]. constructor; net_fields; split_and?; try solve [done | lia].
  - apply deadline_ok; [done|apply u64_mul_ok].
  - eapply Forall_impl; [exact C2|]. intros e (H1 & H2 & H3). split_and!; [done|done|]. left. destruct H3 as [H3|(o & H3 & _)]; [done|].
    unfold current in H3. by rewrite Hnc in H3.
  - intros _. split; [apply S2; by right|by apply S3].
Qed.

Lemma wp_dhcp_attempt b s : inv b false false s -> wp (dhcp_attempt nic clock) (fun r => inv b false r) s.
Proof.
  intros Hi. unfold dhcp_attempt. net_step. eapply wp_random; [exact Hi|]. intros xid s1 Hx Hi1. cbv beta. do 2 net_step. net_step.
  assert (inv b false false (set_dhcp_state 1 (set_ack_ready false (set_offered_ready false (set_xid xid s1))))) as Hi2 by inv_solve.
  set (s2 := set_dhcp_state 1 _) in *. clearbody s2. apply wp_andM. eapply wp_mono; [by apply wp_send_dhcp|]. cbv beta. intros [|] s3 Hi3; [|cbn [negb]; by net_step].
  eapply wp_mono; [by apply wp_wait_flag|]. cbv beta. intros [|] s4 [Hi4 Hf4]; cbn [negb]; [|by net_step]. specialize (Hf4 eq_refl). do 2 net_step. do 2 net_step.
  assert (inv b false false (set_dhcp_state 2 s4)) as Hi5 by (inv_solve; intros E; split; [by apply sw_acked|lia]). set (s5 := set_dhcp_state 2 s4) in *. clearbody s5.
  net_step. apply wp_andM. eapply wp_mono; [by apply wp_send_dhcp|]. cbv beta. intros [|] s6 Hi6; [|cbn [negb]; by net_step].
  eapply wp_mono; [by apply wp_wait_flag|]. cbv beta. intros [|] s7 [Hi7 Hf7]; cbn [negb]; [|by net_step].
  net_step. eapply wp_mono; [by apply wp_bind_configuration; [|apply Hf7]|]. cbv beta. intros _ s8 Hi8. by net_step.
Qed.

Lemma wp_dhcp_attempts n : forall b s, inv b false false s -> wp (dhcp_attempts nic clock n) (fun r => inv b false r) s.
Proof.
  induction n as [|n IH]; intros b s Hi; cbn [dhcp_attempts]; [by net_step|]. net_step. eapply wp_mono; [by apply wp_dhcp_attempt|]. cbv beta.
  intros [|] s1 Hi1; [by net_step|by apply IH].
Qed.

Lemma wp_await_link start b p k n : forall s, inv b p k s -> wp (await_link nic clock n start) (fun _ => inv b p k) s.
Proof.
  induction n as [|n IH]; intros s Hi; cbn [await_link]; net_step; apply wp_link; intros [|]; try by net_step.
  net_step. apply (wp_now clock Hclock). intros x _. destruct (_ <=? _); [by net_step|]. net_step. apply wp_sleep. intros [|]; [by apply IH|by net_step].
Qed.

Lemma inv_weaken b p k s : inv b p k s -> inv b p true s.
Proof. intros (Hw & Hb & Hp & Hin & Hk). by split_and!. Qed.

Lemma wp_net_dhcp s : inv false false true s -> wp (net_dhcp nic clock) (fun r s' => inv false false true s' /\ (r = false -> ns_configured s' = false)) s.
Proof.
  intros Hi. unfold net_dhcp. do 2 net_step. pose proof Hi as (_ & Hb & _ & Hin & _). rewrite Hb, Hin. cbn [negb orb]. do 2 net_step.
  assert (inv true false false (clear_configuration (set_lease_expires 0 (set_busy true s)))) as Hi1.
  { inv_solve. apply Forall_replicate. split; [done|]. split; [unfold u64_ok, UINT64_MAX; cbn; lia|by left]. }
  set (s1 := clear_configuration _) in *. clearbody s1. net_step. apply (wp_now clock Hclock). intros start _. net_step.
  eapply wp_mono; [by apply wp_await_link|]. cbv beta. intros up s2 Hi2. net_step.
  assert (wp (if up then dhcp_attempts nic clock 3 else mret false) (fun r => inv true false r) s2) as Hatt
    by (destruct up; [by apply wp_dhcp_attempts|by net_step]).
  eapply wp_mono; [exact Hatt|]. cbv beta. intros r s3 Hi3. do 2 net_step. apply wp_ret.
  assert (inv false false r (set_busy false (set_dhcp_state 0 s3))) as Hi4 by (inv_solve; intros E; split; [by apply sw_acked|lia]).
  split; [by eapply inv_weaken|]. intros ->. destruct Hi4 as (_ & _ & _ & _ & Hk). destruct (ns_configured _); [by specialize (Hk eq_refl)|done].
Qed.

(** ** Requests *)

Lemma inv_busy b p k q s : inv b p k s -> inv q p k (set_busy q s).
Proof. intros H. inv_solve. Qed.

Lemma wp_net_ping destination s : inv false false true s -> u32_ok destination -> wp (net_ping nic clock destination) (fun _ => inv false false true) s.
Proof.
  intros Hi Hd. unfold net_ping. do 2 net_step. pose proof Hi as (_ & Hb & _ & Hin & _). rewrite Hb, Hin. cbn [negb orb]. do 2 net_step.
  apply (inv_busy _ _ _ true) in Hi. net_step. eapply wp_mono; [by apply wp_route|]. cbv beta. intros target s1 Hi1. net_step.
  assert (forall r : option Z, forall s2, inv true false true s2 -> wp (nmodify (fun s => set_busy false (set_echo_peer 0 s));; mret r : M (option Z)) (fun _ => inv false false true) s2) as Hend.
  { intros r s2 Hi2. do 2 net_step. apply wp_ret. inv_solve. }
  destruct target as [mac|]; [|apply wp_ret; by apply Hend]. do 6 net_step.
  match goal with |- wp _ _ ?x => assert (inv true false true x) as Hi2 end.
  { inv_solve; apply u16_ok_u16. }
  match goal with |- wp _ _ ?x => set (s2 := x) in *; clearbody s2 end.
  net_step. apply (wp_now clock Hclock). intros start _. do 3 net_step. apply wp_andM. apply wp_send_ip. intros sent. apply (inv_ip_id _ _ _ (ns_ip_id s2 + 1)) in Hi2.
  set (s3 := set_ip_id _ s2) in *. clearbody s3. destruct sent; cbv iota; [|apply wp_ret; by apply Hend].
  eapply wp_mono; [by apply wp_wait_flag|]. cbv beta. intros [|] s4 [Hi4 _]; [|apply wp_ret; by apply Hend].
  net_step. apply (wp_now clock Hclock). intros x _. apply wp_ret. by apply Hend.
Qed.

Lemma wp_net_udp_request destination port data capacity s : inv false false true s -> u32_ok destination -> u16_ok port ->
  wp (net_udp_request nic clock destination port data capacity) (fun _ => inv false false true) s.
Proof.
  intros Hi Hd Hpt. unfold net_udp_request. do 2 net_step. pose proof Hi as (_ & Hb & _ & Hin & _). rewrite Hb, Hin. cbn [negb orb].
  destruct (_ || _); [by net_step|]. do 2 net_step. apply (inv_busy _ _ _ true) in Hi. net_step. eapply wp_mono; [by apply wp_route|]. cbv beta.
  intros target s1 Hi1. net_step.
  assert (forall r : option (list Z), forall s2, inv true false true s2 ->
    wp (nmodify (fun s => set_busy false (set_udp_peer 0 (set_udp_port 0 s)));; mret r : M (option (list Z))) (fun _ => inv false false true) s2) as Hend.
  { intros r s2 Hi2. do 2 net_step. apply wp_ret. inv_solve. }
  destruct target as [mac|]; [|apply wp_ret; by apply Hend]. net_step. eapply wp_random; [exact Hi1|]. intros value s2 Hv Hi2. cbv beta. do 2 net_step.
  match goal with |- wp _ _ ?x => assert (inv true false true x) as Hi3 end.
  { inv_solve. apply u16_ok_u16. }
  match goal with |- wp _ _ ?x => set (s3 := x) in *; clearbody s3 end. do 2 net_step. net_step. apply wp_andM.
  assert (forall good s4, inv true false true s4 -> wp (s ← nget; mret (if good && (size_of (ns_udp_data s) <=? capacity) then Some (ns_udp_data s) else None) : M (option (list Z)))
    (fun x s' => wp (nmodify (fun s => set_busy false (set_udp_peer 0 (set_udp_port 0 s)));; mret x : M (option (list Z))) (fun _ => inv false false true) s') s4) as Hfin
    by (intros good s4 Hi4; do 2 net_step; apply wp_ret; by apply Hend).
  assert (forall s4, inv true false true s4 -> wp (wait_flag nic clock ns_udp_ready 1000)
    (fun good s' => wp (s ← nget; mret (if good && (size_of (ns_udp_data s) <=? capacity) then Some (ns_udp_data s) else None) : M (option (list Z)))
    (fun x s' => wp (nmodify (fun s => set_busy false (set_udp_peer 0 (set_udp_port 0 s)));; mret x : M (option (list Z))) (fun _ => inv false false true) s') s') s4) as Hwait
    by (intros s4 Hi4; eapply wp_mono; [by apply wp_wait_flag|]; cbv beta; intros good s5 [Hi5 _]; by apply Hfin).
  apply wp_send_udp; intros x; [|apply (inv_ip_id _ _ _ (ns_ip_id s3 + 1)) in Hi3]; destruct x; [by apply Hwait|by apply (Hfin false)|by apply Hwait|by apply (Hfin false)].
Qed.

Lemma wp_net_resolve name server port s : inv false false true s -> u32_ok server -> u16_ok port ->
  wp (net_resolve nic clock name server port) (fun _ => inv false false true) s.
Proof.
  intros Hi Hd Hpt. unfold net_resolve. do 2 net_step. pose proof Hi as (_ & Hb & _ & Hin & _). rewrite Hb, Hin. cbn [negb orb]. net_step.
  eapply wp_random; [exact Hi|]. intros value s1 Hv Hi1. cbv beta. do 4 net_step.
  assert (inv false false true (set_dns_id (u16 value) s1)) as Hi2 by (inv_solve; apply u16_ok_u16). set (s2 := set_dns_id _ s1) in *. clearbody s2.
  destruct (dns_build_query _ _ _) as [query|]; [|by net_step]. net_step. eapply wp_mono; [by apply wp_net_udp_request|]. cbv beta.
  intros response s3 Hi3. do 2 net_step. destruct response as [bytes|]; [|by net_step]. destruct (dns_decode_reply _ _ _); [|by net_step].
  do 2 net_step. apply wp_ret. by apply inv_count.
Qed.

Lemma init_inv s : ns_initialized s = false -> wp (net_stack_init nic clock) (fun r s' => r = true -> inv false false true s') s.
Proof.
  intros Hin. unfold net_stack_init. do 2 net_step. rewrite Hin. cbn [orb]. destruct (_ || _); [by net_step|]. do 2 net_step. net_step.
  apply (wp_now clock Hclock). intros x Hx. do 2 net_step. apply wp_ret. intros _. set (r := Z.lxor _ _).
  assert (u32_ok r) as Hr.
  { unfold r. apply lxor_u32; [apply lxor_u32; [unfold u32_ok, u32, UINT32_MAX; dlia|apply net_get32_range]|unfold u32_ok, UINT32_MAX; lia]. }
  clearbody r.
  split; [|done]. constructor; net_fields; split_and?; try solve [done | lia].
  - apply (Forall_replicate _ 8). split; [done|]. split; [unfold u64_ok, UINT64_MAX; cbn; lia|by left].
  - cbn. by intros [?|?].
Qed.
End ops.
