(* ===== verification/NetProps.v ===== *)
(** * The network stack: theorems *)

From S2P Require Import Prelude Bytes NetCodec NetServices NetStack NetInv.
Open Scope Z_scope.

(** ** Sequences of operations *)

Inductive net_call :=
  | CPoll
  | CDhcp
  | CPing (destination : Z)
  | CUdp (destination port : Z) (data : list Z) (capacity : Z)
  | CResolve (name : list Z) (server port : Z).

(** The arguments have the types of the C functions. *)
Definition call_typed (c : net_call) : Prop :=
  match c with
  | CPoll | CDhcp => True
  | CPing destination => u32_ok destination
  | CUdp destination port _ _ => u32_ok destination /\ u16_ok port
  | CResolve _ server port => u32_ok server /\ u16_ok port
  end.

Definition net_do {W} (nic : nic_device W) (clock : net_clock W) (c : net_call) : NetM W unit :=
  match c with
  | CPoll => net_poll nic clock
  | CDhcp => net_dhcp nic clock;; mret tt
  | CPing destination => net_ping nic clock destination;; mret tt
  | CUdp destination port data capacity => net_udp_request nic clock destination port data capacity;; mret tt
  | CResolve name server port => net_resolve nic clock name server port;; mret tt
  end.
Fixpoint net_run {W} (nic : nic_device W) (clock : net_clock W) (calls : list net_call) : NetM W unit :=
  match calls with
  | [] => mret tt
  | c :: calls => net_do nic clock c;; net_run nic clock calls
  end.

Lemma run_inv {W} (nic : nic_device W) (clock : net_clock W) calls : (forall w, u64_ok (snd (ck_milliseconds clock w))) -> Forall call_typed calls ->
  forall s, inv false false true s -> wp (net_run nic clock calls) (fun _ => inv false false true) s.
Proof.
  intros Hclock. induction 1 as [|c calls Hc Hcs IH]; intros s Hi; cbn [net_run]; [by net_step|]. net_step.
  enough (wp (net_do nic clock c) (fun _ => inv false false true) s) as Hdo by (eapply wp_mono; [exact Hdo|]; cbv beta; intros _ s' Hi'; by apply IH).
  destruct c as [| |d|d p data cap|name srv p]; cbn [net_do call_typed] in *.
  - by apply wp_net_poll.
  - net_step. eapply wp_mono; [by apply wp_net_dhcp|]. cbv beta. intros r s' [Hi' _]. by net_step.
  - net_step. eapply wp_mono; [by apply wp_net_ping|]. cbv beta. intros r s' Hi'. by net_step.
  - destruct Hc. net_step. eapply wp_mono; [by apply wp_net_udp_request|]. cbv beta. intros r s' Hi'. by net_step.
  - destruct Hc. net_step. eapply wp_mono; [by apply wp_net_resolve|]. cbv beta. intros r s' Hi'. by net_step.
Qed.

(** C17. After a successful [net_stack_init], whatever frames arrive and whatever
    operations are called, every field of the stack keeps its type, a
    configuration in force is a valid acknowledged offer, the ARP cache has
    eight entries that are empty or name neighbours with unicast addresses,
    and no operation leaves the stack busy or polling. *)
Theorem net_stack_typed {W : Type} (nic : nic_device W) (clock : net_clock W) (s0 s s' : net_stack) (w0 w w' : W) (calls : list net_call)
    (Hclock : forall w, u64_ok (snd (ck_milliseconds clock w))) (Hfresh : ns_initialized s0 = false) (Hcalls : Forall call_typed calls)
    (Hinit : net_stack_init nic clock (s0, w0) = ((s, w), true)) (Hrun : net_run nic clock calls (s, w) = ((s', w'), tt)) :
  stack_wf s' /\ ns_busy s' = false /\ ns_polling s' = false /\ ns_initialized s' = true.
Proof.
  pose proof (init_inv nic clock Hclock s0 Hfresh w0) as Hi. rewrite Hinit in Hi. cbn [fst snd] in Hi. specialize (Hi eq_refl).
  pose proof (run_inv nic clock calls Hclock Hcalls s Hi w) as Hr. rewrite Hrun in Hr. cbn [fst snd] in Hr. destruct Hr as (Hw & Hb & Hp & Hin & _). done.
Qed.

(** ** The frames that are sent *)

(** C29. The wire form of a datagram is the one the decoders of the receiver read:
    [send_udp] hands exactly one frame to the card, numbered by the stack's
    identification counter, and that frame decodes through Ethernet, IPv4 and UDP,
    the checksums included, to the addresses, ports and payload of the call. *)
Theorem send_udp_decodes {W : Type} (nic : nic_device W) (s : net_stack) (w : W) (mac : list Z) (source destination local remote : Z) (payload : list Z)
    (Hnic : length (nic_mac nic) = 6%nat /\ net_mac_unicast (nic_mac nic) = true) (Hmac : length mac = 6%nat)
    (Hsource : u32_ok source /\ (source = 0 \/ net_ip_unicast source = true))
    (Hdestination : u32_ok destination /\ (net_ip_unicast destination = true \/ destination = UINT32_MAX))
    (Hports : 0 < local < 65536 /\ 0 < remote < 65536) (Hpayload : size_of payload <= 1472) :
  exists frame packet datagram, size_of frame = size_of payload + 42 /\
    send_udp nic mac source destination local remote payload (s, w) =
      (let (w', sent) := nic_transmit nic w frame in ((set_ip_id (u16 (ns_ip_id s + 1)) s, w'), sent)) /\
    ethernet_decode frame = Some (MkEthernet mac (nic_mac nic) 0x800 packet) /\
    ipv4_decode packet = Some (MkIp source destination 17 datagram) /\
    udp_decode (MkIp source destination 17 datagram) = Some (MkUdp local remote payload).
Proof.
  destruct Hnic as [Hn Hnu], Hsource as [Hs Hsu], Hdestination as [Hd Hdu]. unfold u32_ok in *.
  destruct (udp_build 1480 source destination local remote payload) as [datagram|] eqn:Eu.
  2:{ unfold udp_build in Eu. rewrite (proj2 (Z.ltb_ge 1472 _)), (proj2 (Z.ltb_ge 1480 _)), (proj2 (Z.eqb_neq local 0)), (proj2 (Z.eqb_neq remote 0)) in Eu by lia. done. }
  destruct (udp_roundtrip 1480 source destination local remote payload datagram ltac:(lia) ltac:(lia) Eu) as (Du & Su & Lu).
  assert (0 <= size_of payload) by (unfold size_of; lia).
  destruct (ipv4_build 1500 source destination 17 (u16 (ns_ip_id s + 1)) datagram) as [packet|] eqn:Ei.
  2:{ unfold ipv4_build in Ei. rewrite (proj2 (Z.ltb_ge 1480 (size_of datagram))), (proj2 (Z.ltb_ge 1500 (20 + size_of datagram))) in Ei by lia. cbn [orb] in Ei.
      assert (negb (source =? 0) && negb (net_ip_unicast source) = false) as Es by (destruct Hsu as [-> | ->]; [done|apply andb_false_r]).
      assert (negb (net_ip_unicast destination) && negb (destination =? UINT32_MAX) = false) as Ed by (destruct Hdu as [-> | ->]; [done|apply andb_false_r]).
      rewrite Es, Ed in Ei. done. }
  destruct (ipv4_roundtrip 1500 source destination 17 _ datagram packet [] Hs Hd ltac:(lia) Ei) as (Di & Si & Li). rewrite app_nil_r in Di.
  destruct (ethernet_build UTAMO_NET_FRAME_MAX (nic_mac nic) mac 0x800 packet) as [frame|] eqn:Ee.
  2:{ unfold ethernet_build in Ee. rewrite Hnu, (proj2 (Z.ltb_ge 1500 _)), (proj2 (Z.ltb_ge UTAMO_NET_FRAME_MAX _)) in Ee by (unfold UTAMO_NET_FRAME_MAX; lia). done. }
  destruct (ethernet_roundtrip UTAMO_NET_FRAME_MAX (nic_mac nic) mac 0x800 packet frame Hn Hmac ltac:(lia) Ee) as (De & Se & Le).
  exists frame, packet, datagram. split_and!; [lia| |done|done|done].
  unfold send_udp. rewrite Eu. unfold send_ip, send_ethernet, transmit, world, nmodify, nget, mbind, net_bind. cbn [fst snd].
  change (ns_ip_id (set_ip_id (u16 (ns_ip_id s + 1)) s)) with (u16 (ns_ip_id s + 1)). rewrite Ei, Ee. done.
Qed.

(** The echo request of [net_ping] decodes as a request with its sequence number;
    the reply that [handle_icmp] builds for it on the other side is the one the
    pinging stack waits for: handling it marks the echo as answered, and changes
    nothing else but the packet counter. *)
Theorem echo_exchange {W : Type} (nic : nic_device W) (s : net_stack) (w : W) (eth : ethernet_packet) (destination : Z)
    (Hdata : length (ns_echo_data s) = 16%nat) (Hsequence : u16_ok (ns_echo_sequence s)) :
  let request := echo_request (ns_echo_sequence s) (ns_echo_data s) in
  icmp_echo_decode request = Some (false, 0x5554, ns_echo_sequence s) /\
  handle_icmp nic eth (MkIp (ns_echo_peer s) destination 1 (echo_response request)) (s, w) =
    ((set_echo_ready true (set_counters (count_up Icmp (ns_counters s)) s), w), tt).
Proof.
  intros request. assert (0 <= ns_echo_sequence s < 65536) as Hs by exact Hsequence.
  set (rest := net_put16 0x5554 ++ net_put16 (ns_echo_sequence s) ++ ns_echo_data s). assert (size_of rest = 20) as Hr.
  { unfold size_of, rest. rewrite !length_app, !length_put16, Hdata. done. }
  assert (forall a b c d, net_get16 (a :: b :: c :: d :: rest) 4 = 0x5554 /\ net_get16 (a :: b :: c :: d :: rest) 6 = ns_echo_sequence s) as Hg.
  { intros a b c d. split; apply get16_put; done. }
  assert (forall b, b = 0 \/ b = 8 -> icmp_echo_decode ([b; 0] ++ net_put16 (net_checksum (b :: 0 :: 0 :: 0 :: rest)) ++ rest) = Some (b =? 0, 0x5554, ns_echo_sequence s)) as Hdec.
  { intros b Hb. rewrite (icmp_accepts b rest) by (done || lia). cbn [app net_put16]. by destruct (Hg b 0 (u8 (Z.shiftr (net_checksum (b :: 0 :: 0 :: 0 :: rest)) 8)) (u8 (net_checksum (b :: 0 :: 0 :: 0 :: rest)))) as [-> ->]. }
  split; [exact (Hdec 8 (or_intror eq_refl))|].
  assert (icmp_echo_decode (echo_response request) = Some (true, 0x5554, ns_echo_sequence s)) as He by exact (Hdec 0 (or_introl eq_refl)).
  assert (size_of (echo_response request) = 24) as Hz. { change (Z.of_nat (4 + length rest) = 24). unfold size_of in Hr. lia. }
  assert (slice (echo_response request) 8 16 = ns_echo_data s) as Hsl.
  { change (take 16 (ns_echo_data s) = ns_echo_data s). apply take_ge. lia. }
  unfold handle_icmp. cbn [ip_payload ip_source]. rewrite He. unfold count, nmodify, nget, mbind, net_bind. cbn [fst snd].
  change (ns_echo_peer (set_counters (count_up Icmp (ns_counters s)) s)) with (ns_echo_peer s).
  change (ns_echo_sequence (set_counters (count_up Icmp (ns_counters s)) s)) with (ns_echo_sequence s).
  change (ns_echo_data (set_counters (count_up Icmp (ns_counters s)) s)) with (ns_echo_data s).
  rewrite Hz, Hsl, !Z.eqb_refl, bool_decide_eq_true_2 by done. done.
Qed.

(** ** A concrete network

    The world is the queue of frames to receive and the clock; the peer answers
    DHCP messages as a server, and pings. *)

Module Lan.

Definition own : list Z := [2; 0; 0; 0; 0; 1].
Definition peer : list Z := [2; 0; 0; 0; 0; 9].
Definition world : Type := list (list Z) * Z.

Definition wrap_ip (protocol : Z) (source destination : Z) (payload : list Z) : list Z :=
  default [] (packet ← ipv4_build 1500 source destination protocol 7 payload; ethernet_build 1514 peer own 0x800 packet).

(** An offer (or, for a request, an acknowledgement) of 10.0.0.5/24. *)
Definition dhcp_answer (p : list Z) : list Z :=
  [2; 1; 6; 0] ++ slice p 4 4 ++ [0; 0; 0x80; 0] ++ replicate 4 0 ++ [10; 0; 0; 5] ++ replicate 8 0 ++ own ++ replicate 202 0 ++ net_put32 0x63825363 ++
  [53; 1; if byte_of p 242 =? 1 then 2 else 5; 1; 4; 255; 255; 255; 0; 3; 4; 10; 0; 0; 1; 6; 4; 10; 0; 0; 1; 51; 4; 0; 0; 14; 16; 54; 4; 10; 0; 0; 1; 255].

Definition answer (frame : list Z) : list (list Z) :=
  match ethernet_decode frame with
  | None => []
  | Some eth =>
      if eth_type eth =? 0x806 then
        match arp_build 28 (MkArp 2 peer own 0x0a000001 0x0a000005) with
        | Some p => option_list (ethernet_build 1514 peer own 0x806 p)
        | None => []
        end
      else match ipv4_decode (eth_payload eth) with
      | None => []
      | Some ip =>
          if ip_protocol ip =? 1 then [wrap_ip 1 0x0a000001 0x0a000005 (echo_response (ip_payload ip))]
          else match udp_decode ip with
          | Some u => option_list ((fun d => wrap_ip 17 0x0a000001 UINT32_MAX d) <$> udp_build 1480 0x0a000001 UINT32_MAX 67 68 (dhcp_answer (udp_payload u)))
          | None => []
          end
      end
  end.

Definition card : nic_device world := {|
  nic_mac := own;
  nic_mtu := 1500;
  nic_transmit := fun w frame => ((fst w ++ answer frame, snd w), true);
  nic_receive := fun w => match fst w with [] => (w, []) | f :: q => ((q, snd w), f) end;
  nic_link := fun w => (w, true)
|}.
Definition ticks : net_clock world := {| ck_milliseconds := fun w => (w, u64 (snd w)); ck_sleep := fun w n => ((fst w, snd w + n), true) |}.

Definition idle : world := ([], 0).
Definition calls : list net_call := [CDhcp; CPing 0x0a000001; CPoll].
Definition started := net_stack_init card ticks (stack_zero, ([], 1000)).
Definition finished := net_run card ticks calls (fst started).

End Lan.

Lemma net_stack_typed_witness :
  ns_configured (fst (fst Lan.finished)) = true /\ ct_icmp (ns_counters (fst (fst Lan.finished))) = 1 /\ stack_wf (fst (fst Lan.finished)).
Proof.
  split; [vm_compute; reflexivity|]. split; [vm_compute; reflexivity|].
  apply (net_stack_typed Lan.card Lan.ticks stack_zero (fst (fst Lan.started)) (fst (fst Lan.finished)) ([], 1000) (snd (fst Lan.started))
    (snd (fst Lan.finished)) Lan.calls).
  - intros w. apply u64_range.
  - reflexivity.
  - repeat constructor; vm_compute; discriminate.
  - vm_compute. reflexivity.
  - vm_compute. reflexivity.
Defined.

Lemma send_udp_decodes_witness : size_of [104; 105] = 2 /\ exists frame packet datagram, size_of frame = 44 /\
  snd (fst (send_udp Lan.card Lan.peer 0x0a000005 0x0a000001 1024 53 [104; 105] (stack_zero, Lan.idle))) = (Lan.answer frame, 0) /\
  ethernet_decode frame = Some (MkEthernet Lan.peer Lan.own 0x800 packet) /\
  ipv4_decode packet = Some (MkIp 0x0a000005 0x0a000001 17 datagram).
Proof.
  split; [reflexivity|].
  destruct (send_udp_decodes Lan.card stack_zero Lan.idle Lan.peer 0x0a000005 0x0a000001 1024 53 [104; 105]) as (frame & packet & datagram & Hs & Hrun & He & Hi & _).
  - done.
  - done.
  - split; [done|by right].
  - split; [done|by left].
  - done.
  - done.
  - exists frame, packet, datagram. split; [exact Hs|]. split; [rewrite Hrun; reflexivity|]. split; [exact He|exact Hi].
Defined.

Lemma echo_exchange_witness : ns_echo_ready (set_echo_ready false (fst (fst Lan.finished))) = false /\
  let s := set_echo_ready false (fst (fst Lan.finished)) in
  ns_echo_ready (fst (fst (handle_icmp Lan.card (MkEthernet [] [] 0 [])
    (MkIp (ns_echo_peer s) 0 1 (echo_response (echo_request (ns_echo_sequence s) (ns_echo_data s)))) (s, Lan.idle)))) = true.
Proof.
  split; [reflexivity|]. cbv zeta.
  destruct (echo_exchange Lan.card (set_echo_ready false (fst (fst Lan.finished))) Lan.idle (MkEthernet [] [] 0 []) 0) as [_ E].
  - vm_compute. reflexivity.
  - vm_compute. split; [discriminate|reflexivity].
  - rewrite E. reflexivity.
Defined.
