(* ===== verification/Frames.v ===== *)
(** * Page frames: what the physical memory code promises

    The interface between the physical page allocator with its direct map and
    the code that builds address spaces on them.  [PageFrames] has the calls of
    pmm.c and vmm.c that the clients make, [PageFramesLaws] what the clients may
    rely on. *)

From S2P Require Import Prelude MemoryMap.
Open Scope Z_scope.

Class PageFrames (P : Type) := {
  pmm_alloc_page : P -> P * option Z;
  pmm_free_page : P -> Z -> P * bool;
  pmm_pin_page : P -> Z -> P * bool;
  pmm_is_allocated_page : P -> Z -> bool;
  physical_region : P -> Z -> Z -> option memory_region;
  memory_phys_to_virt : P -> Z -> Z -> option Z;   (** the address of the alias *)
  kernel_table : P -> Z -> bool;                   (** [table_access] of vmm.c is not [NULL] *)
  pmm_get_free : P -> option Z                     (** [free_frames] of [pmm_get_stats] *)
}.

Class PageFramesLaws (P : Type) `{PageFrames P} := {
  pf_wf : P -> Prop;
  (** Frames that are allocated or may become so have the alias [pf_offset + phys]. *)
  pf_offset : P -> Z;
  pf_alloc : forall c c' r, pf_wf c -> pmm_alloc_page c = (c', r) ->
    pf_wf c' /\ pf_offset c' = pf_offset c /\
    (forall f, r = Some f -> u64_ok f /\ f mod 4096 = 0 /\ pmm_is_allocated_page c f = false) /\
    (forall g, u64_ok g -> pmm_is_allocated_page c' g = pmm_is_allocated_page c g || bool_decide (r = Some g)) /\
    (forall g, kernel_table c' g = kernel_table c g);
  pf_free : forall c f, pf_wf c -> u64_ok f ->
    let (c', ok) := pmm_free_page c f in
    pf_wf c' /\ pf_offset c' = pf_offset c /\ ok = pmm_is_allocated_page c f /\
    (forall g, u64_ok g -> pmm_is_allocated_page c' g = pmm_is_allocated_page c g && negb (g =? f)) /\
    (forall g, kernel_table c' g = kernel_table c g);
  pf_aligned : forall c f, pf_wf c -> u64_ok f -> pmm_is_allocated_page c f = true -> f mod 4096 = 0 /\ f + 4096 <= UINT64_MAX;
  (** Frames that are not free: allocated ones, pinned ones and those that never were the allocator's. *)
  pf_used : P -> Z -> Prop;
  pf_used_allocated : forall c f, pf_wf c -> u64_ok f -> pmm_is_allocated_page c f = true -> pf_used c f;
  pf_alloc_used : forall c c' r, pf_wf c -> pmm_alloc_page c = (c', r) ->
    forall g, (r = Some g -> ~ pf_used c g) /\ (pf_used c' g <-> pf_used c g \/ r = Some g);
  pf_free_used : forall c f, pf_wf c -> u64_ok f -> pmm_is_allocated_page c f = true ->
    forall g, pf_used (fst (pmm_free_page c f)) g <-> pf_used c g /\ g <> f;
  pf_free_refused : forall c f, snd (pmm_free_page c f) = false -> fst (pmm_free_page c f) = c;
  pf_pin : forall c f, pf_wf c -> u64_ok f ->
    let (c', ok) := pmm_pin_page c f in
    pf_wf c' /\ pf_offset c' = pf_offset c /\ ok = pmm_is_allocated_page c f /\
    (forall g, u64_ok g -> pmm_is_allocated_page c' g = pmm_is_allocated_page c g && negb (g =? f)) /\
    (forall g, kernel_table c' g = kernel_table c g) /\ forall g, pf_used c' g <-> pf_used c g;
  pf_low : forall c f, pf_wf c -> u64_ok f -> pmm_is_allocated_page c f = true -> f + 4096 <= 2 ^ 47;
  pf_usable : forall c f, pf_wf c -> u64_ok f -> pmm_is_allocated_page c f = true ->
    exists r, physical_region c f 4096 = Some r /\ mr_type r = UTAMO_MEMORY_USABLE;
  pf_direct : forall c f a n, pf_wf c -> u64_ok f -> pmm_is_allocated_page c f = true ->
    f <= a -> 0 < n -> a + n <= f + 4096 -> memory_phys_to_virt c a n = Some (pf_offset c + a)
}.
