(* ===== verification/PmmFrames.v ===== *)
(** * The page frames of the machine (kernel/memory/pmm.c, vmm.c)

    The allocator of PmmCore.v and the direct map of Hhdm.v are the frames that
    the address spaces ask for: the calls of pmm.c for single pages, and
    [memory_phys_to_virt] and [table_access] of vmm.c.  [machine_laws] discharges
    the interface of Frames.v. *)

From S2P Require Import Prelude MemoryHelpers MemoryMap Hhdm PmmCore PmmProps PmmInit PmmTrace Frames.
Open Scope Z_scope.

(** The static objects [allocator] of pmm.c and [direct_map] of vmm.c. *)
Record machine := MkMachine { mc_allocator : pmm_state; mc_direct_map : hhdm_context }.

Definition alloc_page (c : machine) : machine * option Z :=
  let (st, r) := pmm_core_alloc_pages (mc_allocator c) 1 in (MkMachine st (mc_direct_map c), r).
Definition free_page (c : machine) (phys : Z) : machine * bool :=
  let (st, r) := pmm_core_free_pages (mc_allocator c) phys 1 in (MkMachine st (mc_direct_map c), r).
Definition is_allocated_page (c : machine) (phys : Z) : bool := pmm_core_is_allocated_page (mc_allocator c) phys.
Definition pin_page (c : machine) (phys : Z) : machine * bool :=
  let (st, r) := pmm_core_pin_page (mc_allocator c) phys in (MkMachine st (mc_direct_map c), r).
Definition region_at (c : machine) (phys bytes : Z) : option memory_region := hhdm_region (mc_direct_map c) phys bytes.
Definition phys_to_virt (c : machine) (phys bytes : Z) : option Z := hhdm_translate (mc_direct_map c) phys bytes.

(** [table_access] of vmm.c: whether it is not [NULL]. *)
Definition vmm_table_access (c : machine) (phys : Z) : bool :=
  memory_is_page_aligned phys &&
  match hhdm_region (mc_direct_map c) phys MEMORY_PAGE_SIZE with
  | None => false
  | Some region => ((mr_type region =? UTAMO_MEMORY_BOOTLOADER_RECLAIMABLE) || (mr_type region =? UTAMO_MEMORY_USABLE)) &&
                   bool_decide (is_Some (phys_to_virt c phys MEMORY_PAGE_SIZE))
  end.

#[export] Instance machine_frames : PageFrames machine := {|
  pmm_alloc_page := alloc_page;
  pmm_free_page := free_page;
  pmm_pin_page := pin_page;
  pmm_is_allocated_page := is_allocated_page;
  physical_region := region_at;
  memory_phys_to_virt := phys_to_virt;
  kernel_table := vmm_table_access;
  pmm_get_free := fun c => ps_free_frames <$> pmm_core_get_stats (mc_allocator c)
|}.

(** The allocator is in service, the direct map was built from the memory map,
    and the frames of the allocator are usable memory of that map. *)
Record machine_wf (c : machine) : Prop := {
  mw_pmm : pmm_wf (mc_allocator c);
  mw_direct : exists context0 bits, u64_ok (hh_offset (mc_direct_map c)) /\ map_wf (hh_map (mc_direct_map c)) /\
    hhdm_init context0 (hh_map (mc_direct_map c)) (hh_offset (mc_direct_map c)) bits = Some (mc_direct_map c);
  mw_usable : forall f, f ∈ fr_free (pmm_abs (mc_allocator c)) ∪ fr_allocated (pmm_abs (mc_allocator c)) ->
    covers (mm_regions (hh_map (mc_direct_map c))) f = true
}.

Lemma one_frame f g : f ∈ run g 1 <-> f = g.
Proof. rewrite elem_of_run. lia. Qed.

Lemma allocated_iff c phys : machine_wf c -> u64_ok phys ->
  is_allocated_page c phys = true <-> phys mod 4096 = 0 /\ phys / 4096 ∈ fr_allocated (pmm_abs (mc_allocator c)).
Proof. intros Hc Hp. by apply is_allocated_spec; [apply Hc|]. Qed.

Lemma machine_alloc c c' r : machine_wf c -> alloc_page c = (c', r) ->
  machine_wf c' /\ mc_direct_map c' = mc_direct_map c /\
  (forall f, r = Some f -> u64_ok f /\ f mod 4096 = 0 /\ is_allocated_page c f = false) /\
  forall g, u64_ok g -> is_allocated_page c' g = is_allocated_page c g || bool_decide (r = Some g).
Proof.
  intros Hc. unfold alloc_page. pose proof (alloc_pages_spec (mc_allocator c) 1 (mw_pmm c Hc)) as Ha. destruct (pmm_core_alloc_pages (mc_allocator c) 1) as [st q].
  destruct Ha as [Hst Hq]; [done|]. intros [= <- <-]. destruct q as [phys|]; cycle 1.
  { destruct Hq as [-> _]. split_and!; [by destruct c|done|done|]. intros g _. rewrite bool_decide_eq_false_2 by done. by rewrite orb_false_r; destruct c. }
  destruct Hq as (first & -> & Hpos & _ & Hfree & Habs & _).
  assert (first ∈ fr_free (pmm_abs (mc_allocator c))) as Hin by (apply Hfree, one_frame; done).
  assert (u64_ok (first * 4096)) as Hu.
  { pose proof Hin as [Hr _]%elem_of_free. pose proof (lay_addr _ (wf_layout _ (mw_pmm c Hc))). unfold u64_ok. lia. }
  assert (machine_wf (MkMachine st (mc_direct_map c))) as Hc'.
  { constructor; cbn; [done|apply Hc|]. intros f Hf. apply (mw_usable c Hc). rewrite Habs in Hf. cbn in Hf. set_solver. }
  split_and!; [done|done| |].
  - intros f [= <-]. split_and!; [done|by apply Z_mod_mult|]. apply not_true_iff_false. rewrite allocated_iff by done.
    rewrite Z.div_mul by done. rewrite elem_of_allocated. apply elem_of_free in Hin as [_ Ho]. intros (_ & _ & ? & ?). congruence.
  - intros g Hg. apply eq_true_iff_eq. rewrite (allocated_iff _ g Hc' Hg), orb_true_iff, (allocated_iff c g Hc Hg), bool_decide_eq_true. cbn. rewrite Habs. cbn.
    rewrite elem_of_union, one_frame. split.
    + intros [Hm [|E]]; [by left|right]. f_equal. pose proof (Z.div_mod g 4096). lia.
    + intros [[? ?]|[= <-]]; [auto|]. rewrite Z.div_mul by done. split; [by apply Z_mod_mult|by right].
Qed.

Lemma machine_free c f : machine_wf c -> u64_ok f ->
  let (c', ok) := free_page c f in
  machine_wf c' /\ mc_direct_map c' = mc_direct_map c /\ ok = is_allocated_page c f /\
  forall g, u64_ok g -> is_allocated_page c' g = is_allocated_page c g && negb (g =? f).
Proof.
  intros Hc Hf. unfold free_page. pose proof (free_pages_spec (mc_allocator c) f 1 (mw_pmm c Hc) Hf) as Ha. destruct (pmm_core_free_pages (mc_allocator c) f 1) as [st ok].
  destruct Ha as [Hst Hq]; [done|]. destruct ok.
  - destruct Hq as (_ & Hm & Hin & Habs & _). assert (f / 4096 ∈ fr_allocated (pmm_abs (mc_allocator c))) as Hfa by (apply Hin, one_frame; done).
    assert (machine_wf (MkMachine st (mc_direct_map c))) as Hc'.
    { constructor; cbn; [done|apply Hc|]. intros x Hx. apply (mw_usable c Hc). rewrite Habs in Hx. cbn in Hx. set_solver. }
    split_and!; [done|done|symmetry; by apply allocated_iff|]. intros g Hg. apply eq_true_iff_eq.
    rewrite (allocated_iff _ g Hc' Hg), andb_true_iff, (allocated_iff c g Hc Hg), negb_true_iff, Z.eqb_neq. cbn. rewrite Habs. cbn. rewrite elem_of_difference, one_frame.
    split; [intros (? & ? & Hne); split_and!; try done; congruence|]. intros [[Hgm Hga] Hne]. split_and!; [done|done|]. intros E. apply Hne.
    pose proof (Z.div_mod g 4096). pose proof (Z.div_mod f 4096). lia.
  - destruct Hq as [-> Hno]. assert (is_allocated_page c f = false) as Hn.
    { apply not_true_iff_false. rewrite allocated_iff by done. intros [Hm Hin]. destruct Hno as [?|[?|Hno]]; [done|done|]. apply Hno. by intros x ->%one_frame. }
    split_and!; [by destruct c|done|done|]. intros g Hg. assert (MkMachine (mc_allocator c) (mc_direct_map c) = c) as -> by by destruct c.
    destruct (Z.eqb_spec g f) as [->|]; [by rewrite Hn|by rewrite andb_true_r].
Qed.

(** A frame that is allocated lies in a usable region. *)
Lemma machine_region c f a n : machine_wf c -> u64_ok f -> is_allocated_page c f = true -> f <= a -> 0 < n -> a + n <= f + 4096 ->
  u64_ok a /\ n <= UINT64_MAX /\ exists r, region_at c a n = Some r /\ mr_type r = UTAMO_MEMORY_USABLE.
Proof.
  intros Hc Hf [Hm Hin]%allocated_iff Ha Hn Hb; [|done|done]. destruct (mw_direct c Hc) as (c0 & bits & Ho & Hmap & Hinit).
  pose proof (mw_usable c Hc (f / 4096)) as Hcov. unfold covers in Hcov. rewrite existsb_exists in Hcov. destruct Hcov as (r & Hr & Hcr); [set_solver|].
  apply list_elem_of_In in Hr. unfold region_covers in Hcr. rewrite !andb_true_iff, Z.leb_le, Z.ltb_lt in Hcr. destruct Hcr as [[Hus Hlo] Hhi].
  pose proof (proj1 (Forall_forall _ _) (map_wf_regions _ Hmap) r Hr) as Hrok. unfold is_usable in Hus. apply Z.eqb_eq in Hus.
  destruct Hrok as (_ & _ & _ & _ & Hal). destruct Hal as [Hal _]; [by rewrite Hus|]. pose proof (Z.div_mod (mr_base r) 4096). pose proof (Z.div_mod (region_end r) 4096).
  pose proof (Z.mod_pos_bound (region_end r) 4096). apply elem_of_allocated in Hin as [[_ Hsp] _].
  pose proof (lay_addr _ (wf_layout _ (mw_pmm c Hc))). pose proof (Z.div_mod f 4096). unfold u64_ok in *.
  split_and!; [lia|lia|unfold UINT64_MAX; lia|]. exists r. split; [|done].
  apply (region_usable c0 (mc_direct_map c) _ _ bits Hmap Ho Hinit); [unfold u64_ok; lia|unfold UINT64_MAX; lia|done|by rewrite Hus|lia|lia].
Qed.

(** The direct map ends with the address space, so its frames are low. *)
Lemma machine_low c f : machine_wf c -> u64_ok f -> is_allocated_page c f = true -> f + 4096 <= 2 ^ 47.
Proof.
  intros Hc Hf Hal. destruct (machine_region c f f 4096 Hc Hf Hal) as (Hu & Hn & r & Hr & Ht); [lia..|].
  destruct (mw_direct c Hc) as (c0 & bits & Ho & Hmap & Hinit). destruct (init_fields c0 (mc_direct_map c) _ _ bits Hinit) as (_ & _ & _ & Hlow).
  apply (region_spec c0 (mc_direct_map c) _ _ bits Hmap Ho Hinit) in Hr as (Hin & _ & Hend); [|done|lia].
  pose proof (Hhdm.init_region c0 (mc_direct_map c) _ _ bits Hmap Ho Hinit r Hin ltac:(by rewrite Ht)). unfold UINT64_MAX in *. lia.
Qed.

Lemma machine_direct c f a n : machine_wf c -> u64_ok f -> is_allocated_page c f = true -> f <= a -> 0 < n -> a + n <= f + 4096 ->
  phys_to_virt c a n = Some (hh_offset (mc_direct_map c) + a).
Proof.
  intros Hc Hf Hal Ha Hn Hb. destruct (machine_region c f a n Hc Hf Hal Ha Hn Hb) as (Hu & Hn' & r & Hr & Ht).
  destruct (mw_direct c Hc) as (c0 & bits & Ho & Hmap & Hinit). apply (translate_spec c0 (mc_direct_map c) _ _ bits Hmap Ho Hinit); [done|lia|].
  split; [|done]. exists r. by rewrite Ht.
Qed.

(** A frame of the machine is free when the allocator has it to give. *)
Definition frame_used (c : machine) (g : Z) : Prop := ~ (g mod 4096 = 0 /\ g / 4096 ∈ fr_free (pmm_abs (mc_allocator c))).

Lemma frame_eq f g : f mod 4096 = 0 -> g mod 4096 = 0 -> f / 4096 = g / 4096 -> f = g.
Proof. intros. pose proof (Z.div_mod f 4096). pose proof (Z.div_mod g 4096). lia. Qed.

Lemma machine_used_allocated c f : machine_wf c -> u64_ok f -> is_allocated_page c f = true -> frame_used c f.
Proof.
  intros Hc Hf [_ Ha]%allocated_iff [_ Hb]; [|done|done]. apply elem_of_free in Hb as [_ ?]. apply elem_of_allocated in Ha as (_ & ? & ?). congruence.
Qed.

Lemma machine_alloc_used c c' r g : machine_wf c -> alloc_page c = (c', r) ->
  (r = Some g -> ~ frame_used c g) /\ (frame_used c' g <-> frame_used c g \/ r = Some g).
Proof.
  intros Hc. unfold alloc_page, frame_used. pose proof (alloc_pages_spec (mc_allocator c) 1 (mw_pmm c Hc)) as Ha. destruct (pmm_core_alloc_pages (mc_allocator c) 1) as [st q].
  destruct Ha as [Hst Hq]; [done|]. intros [= <- <-]. cbn [mc_allocator]. destruct q as [phys|]; cycle 1.
  { destruct Hq as [-> _]. split; [done|]. split; [by left|by intros [|]]. }
  destruct Hq as (first & -> & Hpos & _ & Hfree & Habs & _). assert (first ∈ fr_free (pmm_abs (mc_allocator c))) as Hin by (apply Hfree, one_frame; done).
  assert (first * 4096 mod 4096 = 0) as Hm by by apply Z_mod_mult. assert (first * 4096 / 4096 = first) as Hd by by apply Z.div_mul.
  split; [intros [= <-] Hn; apply Hn; by rewrite Hd|]. rewrite Habs. cbn. rewrite elem_of_difference, one_frame. destruct (decide (g = first * 4096)) as [-> |Hne].
  - rewrite Hd. split; [by right|]. intros _ (_ & _ & Hx). done.
  - split; [intros Hn; left; intros [Hgm Hg]; apply Hn; split_and!; [done|done|]; intros E; apply Hne, frame_eq; by rewrite ?Hd|].
    intros [Hn|[= ?]]; [|by subst]. intros (? & ? & _). by apply Hn.
Qed.

Lemma machine_free_used c f g : machine_wf c -> u64_ok f -> is_allocated_page c f = true ->
  frame_used (fst (free_page c f)) g <-> frame_used c g /\ g <> f.
Proof.
  intros Hc Hf Hal. pose proof (machine_free c f Hc Hf) as Hm. unfold free_page, frame_used in *.
  pose proof (free_pages_spec (mc_allocator c) f 1 (mw_pmm c Hc) Hf) as Ha. destruct (pmm_core_free_pages (mc_allocator c) f 1) as [st ok].
  destruct Hm as (_ & _ & -> & _). rewrite Hal in Ha. destruct Ha as [Hst Hq]; [done|]. destruct Hq as (_ & Hfm & Hin & Habs & _). cbn [fst mc_allocator]. rewrite Habs. cbn.
  rewrite elem_of_union, one_frame. destruct (decide (g = f)) as [-> |Hne]; [split; [|by intros [_ ?]]; intros Hn; destruct Hn; by auto|].
  split; [intros Hn; split; [|done]; intros [? ?]; apply Hn; by auto|]. intros [Hn _] [Hgm [?|E]]; [by apply Hn|]. by apply Hne, frame_eq.
Qed.

Lemma machine_pin c f : machine_wf c -> u64_ok f ->
  let (c', ok) := pin_page c f in
  machine_wf c' /\ mc_direct_map c' = mc_direct_map c /\ ok = is_allocated_page c f /\
  (forall g, u64_ok g -> is_allocated_page c' g = is_allocated_page c g && negb (g =? f)) /\
  fr_free (pmm_abs (mc_allocator c')) = fr_free (pmm_abs (mc_allocator c)).
Proof.
  intros Hc Hf. unfold pin_page. pose proof (pin_page_spec (mc_allocator c) f (mw_pmm c Hc) Hf) as Ha. destruct (pmm_core_pin_page (mc_allocator c) f) as [st ok].
  destruct Ha as (Hst & _ & Hfr & Hq). destruct ok.
  - destruct Hq as (Hm & Hin & Habs).
    assert (machine_wf (MkMachine st (mc_direct_map c))) as Hc'.
    { constructor; cbn; [done|apply Hc|]. intros x Hx. apply (mw_usable c Hc). rewrite Habs, Hfr in Hx. set_solver. }
    split_and!; [done|done|symmetry; by apply allocated_iff| |done]. intros g Hg. apply eq_true_iff_eq.
    rewrite (allocated_iff _ g Hc' Hg), andb_true_iff, (allocated_iff c g Hc Hg), negb_true_iff, Z.eqb_neq. cbn. rewrite Habs, elem_of_difference, elem_of_singleton.
    split; [intros (? & ? & Hne); split_and!; try done; congruence|]. intros [[Hgm Hga] Hne]. split_and!; [done|done|]. intros E. by apply Hne, frame_eq.
  - destruct Hq as [-> Hno]. assert (is_allocated_page c f = false) as Hn.
    { apply not_true_iff_false. rewrite allocated_iff by done. intros [Hm Hin]. by apply Hno. }
    assert (MkMachine (mc_allocator c) (mc_direct_map c) = c) as -> by by destruct c. split_and!; [done|done|done| |done]. intros g Hg.
    destruct (Z.eqb_spec g f) as [->|]; [by rewrite Hn|by rewrite andb_true_r].
Qed.

#[export] Program Instance machine_laws : PageFramesLaws machine := {|
  pf_wf := machine_wf;
  pf_offset := fun c => hh_offset (mc_direct_map c);
  pf_used := frame_used
|}.
Next Obligation.
  intros c c' r Hc E. destruct (machine_alloc c c' r Hc E) as (Hc' & Ed & Hf & Hg). split_and!; [done|by rewrite Ed|done|done|].
  intros g. cbn. unfold vmm_table_access, phys_to_virt. by rewrite Ed.
Qed.
Next Obligation.
  intros c f Hc Hf. cbn. pose proof (machine_free c f Hc Hf) as Hx. destruct (free_page c f) as [c' ok]. destruct Hx as (Hc' & Ed & Hok & Hg).
  split_and!; [done|by rewrite Ed|done|done|]. intros g. unfold vmm_table_access, phys_to_virt. by rewrite Ed.
Qed.
Next Obligation.
  intros c f Hc Hf [Hm Hin]%allocated_iff; [|done|done]. split; [done|]. apply elem_of_allocated in Hin as [[_ Hsp] _].
  pose proof (lay_addr _ (wf_layout _ (mw_pmm c Hc))). pose proof (Z.div_mod f 4096). lia.
Qed.
Next Obligation. apply machine_used_allocated. Qed.
Next Obligation. intros c c' r Hc E g. by apply machine_alloc_used. Qed.
Next Obligation. intros c f Hc Hf Ha g. by apply machine_free_used. Qed.
Next Obligation. intros [st d] f. cbn. unfold free_page, pmm_core_free_pages. cbn [mc_allocator mc_direct_map]. destruct (range_frames st f 1) as [[]|]; [destruct (existsb _ _)|]; done. Qed.
Next Obligation.
  intros c f Hc Hf. cbn. pose proof (machine_pin c f Hc Hf) as Hx. destruct (pin_page c f) as [c' ok]. destruct Hx as (Hc' & Ed & Hok & Hg & Hfr).
  split_and!; [done|by rewrite Ed|done|done| |].
  - intros g. unfold vmm_table_access, phys_to_virt. by rewrite Ed.
  - intros g. unfold frame_used. by rewrite Hfr.
Qed.
Next Obligation. apply machine_low. Qed.
Next Obligation. intros c f Hc Hf Ha. apply (machine_region c f f 4096 Hc Hf Ha); lia. Qed.
Next Obligation. intros c f a n. apply machine_direct. Qed.

(** The machine after the memory set-up of the boot: the map of the boot loader
    is well formed, and both the direct map and the allocator are built from it. *)
Lemma boot_machine map plan st0 storage st c0 offset bits direct :
  map_wf map -> pmm_plan map = Some plan -> pmm_initialized st0 = false -> pl_storage_bytes plan <= Z.of_nat (length storage) ->
  pmm_core_init st0 map plan storage = (st, true) -> u64_ok offset -> hhdm_init c0 map offset bits = Some direct ->
  machine_wf (MkMachine st direct) /\ forall phys, u64_ok phys -> is_allocated_page (MkMachine st direct) phys = false.
Proof.
  intros Hmap Hplan Hst Hlen Ei Ho Hd. pose proof (pmm_init_spec st0 map plan storage Hmap Hplan Hst Hlen) as Hi. rewrite Ei in Hi. destruct Hi as (_ & Hwf & Habs & _).
  destruct (init_fields c0 direct map offset bits Hd) as (Em & Eo & _ & _).
  assert (machine_wf (MkMachine st direct)) as Hm.
  { constructor; cbn; [done| |].
    - exists c0, bits. by rewrite Em, Eo.
    - intros f Hf. rewrite Em. rewrite Habs in Hf. cbn in Hf. assert (f ∈ usable_frames map (pl_span_frames plan)) as Hu by set_solver. by apply elem_of_frame_set in Hu as [_ Hu]. }
  split; [done|]. intros phys Hp. apply not_true_iff_false. rewrite allocated_iff by done. cbn. rewrite Habs. cbn. intros [_ Hin]. by apply elem_of_empty in Hin.
Qed.

(** ** A machine with sixty-four usable frames *)

Module SixtyFour.
Definition map : memory_map := MkMap [MkRegion 0 262144 UTAMO_MEMORY_USABLE] 262144 0.
Definition plan : pmm_plan_t := Eval vm_compute in default (PmmCore.MkPlan 0 0 0 0) (pmm_plan map).
Definition frames : pmm_state :=
  Eval vm_compute in let st := fst (pmm_core_init ex_blank map plan (replicate 4096 7)) in with_mem st (take 16 (pmm_mem st)).
Definition boot : machine := MkMachine frames (MkHhdm map 0xffff800000000000 0xfffffff000 true).

Lemma map_wf_64 : map_wf map.
Proof.
  constructor; simpl; try done.
  - by repeat constructor.
  - intros [|i] [|j] r s Hij Hi Hj; simplify_eq/=; lia.
  - intros [|i] [|j] r s Hij Hi Hj; simplify_eq/=.
Qed.

Lemma boot_wf_64 : machine_wf boot.
Proof.
  constructor; cbn.
  - apply pmm_wf_b_sound. by vm_compute.
  - exists (MkHhdm (MkMap [] 0 0) 0 0 false), 40. split_and!; [unfold u64_ok, UINT64_MAX; lia|apply map_wf_64|by vm_compute].
  - intros f [[Hf _]%elem_of_free|[Hf _]%elem_of_allocated]%elem_of_union; change (pmm_span frames) with 64 in Hf;
      change ((true && (0 <=? f) && (f <? 64)) || false = true); lia.
Qed.
End SixtyFour.
