(* ===== verification/KernelVm.v ===== *)
(** * The kernel's own address space (kernel/memory/vmm.c)

    The calls of vmm.c that run after [memory_init]: the callbacks of the
    page-table code, and mapping, unmapping, protecting and querying a page of
    the dynamic region, the only part of the kernel's half that changes.  New
    tables are pinned, so they can never be freed.  The state is the [vm] of
    VmmCore.v with the static objects of vmm.c as context; [vm_mem] has the
    words of all physical frames.  The interrupt flag is saved and restored
    around every call and is left out.  [PANIC] sets [ks_panic]. *)

From S2P Require Import Prelude MemoryHelpers MemoryMap VmmCore Frames.
Open Scope Z_scope.

Definition VMM_DYNAMIC_BASE : Z := 0xffffc00000000000.
Definition VMM_DYNAMIC_SIZE : Z := Z.shiftl 1 39.
Definition UTAMO_MMIO_BASE : Z := 0xffffc00080000000.
Definition UTAMO_MMIO_SIZE : Z := 0x400000.

(** [struct vmm_info], the static [information]. *)
Record vmm_info := MkInfo {
  vinf_root_phys : Z; vinf_hhdm_offset : Z; vinf_kernel_base : Z; vinf_table_pages : Z;
  vinf_physical_bits : Z; vinf_nx_supported : bool; vinf_nx_enabled : bool; vinf_sections_protected : bool
}.
Definition count_table (i : vmm_info) : vmm_info :=
  MkInfo (vinf_root_phys i) (vinf_hhdm_offset i) (vinf_kernel_base i) (vinf_table_pages i +u 1)
         (vinf_physical_bits i) (vinf_nx_supported i) (vinf_nx_enabled i) (vinf_sections_protected i).

(** The statics [ready] and [information]. *)
Record kernel_vmm := MkKernel { kv_ready : bool; kv_information : vmm_info }.
Definition vmm_get_info (k : kernel_vmm) : option vmm_info := if kv_ready k then Some (kv_information k) else None.

(** The context: [kernel_space], the other statics, the frames and what was flushed. *)
Record kstate (P : Type) := MkKState {
  ks_space : vmm_space;
  ks_vmm : kernel_vmm;
  ks_frames : P;
  ks_flushed : list Z;
  ks_panic : bool
}.
Arguments MkKState {P}.
Arguments ks_space {P}.
Arguments ks_vmm {P}.
Arguments ks_frames {P}.
Arguments ks_flushed {P}.
Arguments ks_panic {P}.

Definition dynamic_address (virt : Z) : bool :=
  (VMM_DYNAMIC_BASE <=? virt) && (virt -u VMM_DYNAMIC_BASE <? VMM_DYNAMIC_SIZE) &&
  negb ((UTAMO_MMIO_BASE <=? virt) && (virt -u UTAMO_MMIO_BASE <? UTAMO_MMIO_SIZE)).

Section kernel_vm.
Context {P : Type} `{PageFrames P}.
Notation S := (kstate P).

Definition with_kframes (p : P) (c : S) : S := MkKState (ks_space c) (ks_vmm c) p (ks_flushed c) (ks_panic c).
Definition vmm_panic (c : S) : S := MkKState (ks_space c) (ks_vmm c) (ks_frames c) (ks_flushed c) true.

(** ** The callbacks *)

Definition vmm_table_allocate (c : S) : S * option Z :=
  let (p, r) := pmm_alloc_page (ks_frames c) in (with_kframes p c, r).

Definition vmm_table_release (c : S) (phys : Z) : S :=
  let (p, ok) := pmm_free_page (ks_frames c) phys in
  if negb ok then vmm_panic (with_kframes p c) else with_kframes p c.

Definition vmm_table_commit (c : S) (phys : Z) : S :=
  let (p, ok) := pmm_pin_page (ks_frames c) phys in
  let c := with_kframes p c in
  let c := if negb ok then vmm_panic c else c in
  MkKState (ks_space c) (MkKernel (kv_ready (ks_vmm c)) (count_table (kv_information (ks_vmm c)))) (ks_frames c) (ks_flushed c) (ks_panic c).

Definition vmm_invalidate (c : S) (virt : Z) : S :=
  MkKState (ks_space c) (ks_vmm c) (ks_frames c) (ks_flushed c ++ [virt]) (ks_panic c).

#[export] Instance kernel_ops : VmmOps S := {|
  op_table := fun c => kernel_table (ks_frames c);
  op_alloc := vmm_table_allocate;
  op_free := vmm_table_release;
  op_commit := vmm_table_commit;
  op_invalidate := vmm_invalidate
|}.

Notation M := (vm S).
Definition kspace (m : M) : vmm_space := ks_space (vm_ctx m).
Definition kready (m : M) : bool := kv_ready (ks_vmm (vm_ctx m)).
Definition kframes (m : M) : P := ks_frames (vm_ctx m).

(** ** Pages of the dynamic region *)

Definition VMM_FOREIGN_FLAGS : Z := Z.lor VMM_USER (Z.lor VMM_CACHE_DISABLE VMM_WRITE_THROUGH).

Definition vmm_map_page (m : M) (virt phys flags : Z) : M * bool :=
  if kready m && dynamic_address virt &&
     match physical_region (kframes m) phys MEMORY_PAGE_SIZE with
     | Some region => mr_type region =? UTAMO_MEMORY_USABLE
     | None => false
     end &&
     pmm_is_allocated_page (kframes m) phys && (Z.land flags VMM_FOREIGN_FLAGS =? 0)
  then vmm_space_map (kspace m) m virt phys flags
  else (m, false).

Definition vmm_unmap_page (m : M) (virt : Z) : M * bool :=
  if kready m && dynamic_address virt then vmm_space_unmap (kspace m) m virt else (m, false).

Definition vmm_protect_page (m : M) (virt flags : Z) : M * bool :=
  if kready m && dynamic_address virt && (Z.land flags VMM_FOREIGN_FLAGS =? 0)
  then vmm_space_protect (kspace m) m virt flags
  else (m, false).

Definition vmm_query_page (m : M) (virt : Z) : option vmm_mapping :=
  if kready m then vmm_space_query (kspace m) m virt else None.
End kernel_vm.
