(* ===== verification/HeapPages.v ===== *)
(** * Page-backed intervals (kernel/memory/heap_pages.c)

    A caller owns an interval of the dynamic region and lets it grow page by
    page.  The code works on callbacks; [PageOps] has them and [PageOpsLaws] is
    the contract of heap_pages.h.  [heap_pages_grow] is a transaction: the
    theorem at the end says that it adds exactly the requested pages, zeroed and
    in frames of its own, or changes nothing that anybody can see, and that an
    interval is never found corrupted. *)

From S2P Require Import Prelude MemoryHelpers VmmCore VmmMap VmmSpec KernelVm.
Open Scope Z_scope.

Definition VMM_TEST_SIZE : Z := 4 * 1024 * 1024.

Class PageOps (C : Type) := {
  pg_alloc : C -> C * option Z;
  pg_free : C -> Z -> C * bool;
  pg_zero : C -> Z -> C * bool;
  pg_map : C -> Z -> Z -> Z -> C * bool;
  pg_query : C -> Z -> option vmm_mapping;
  pg_unmap : C -> Z -> C * bool
}.

Record heap_pages := MkPages {
  hp_base : Z;
  hp_capacity_bytes : Z;
  hp_mapped_bytes : Z;
  hp_nx : bool;
  hp_initialized : bool;
  hp_corrupted : bool
}.
Definition heap_pages_zero : heap_pages := MkPages 0 0 0 false false false.
Definition corrupt (st : heap_pages) : heap_pages :=
  MkPages (hp_base st) (hp_capacity_bytes st) (hp_mapped_bytes st) (hp_nx st) (hp_initialized st) true.
Definition set_mapped (n : Z) (st : heap_pages) : heap_pages :=
  MkPages (hp_base st) (hp_capacity_bytes st) n (hp_nx st) (hp_initialized st) (hp_corrupted st).

Definition valid_interval (base capacity : Z) : bool :=
  let first := VMM_DYNAMIC_BASE +u VMM_TEST_SIZE in
  let arena_end := VMM_DYNAMIC_BASE +u VMM_DYNAMIC_SIZE in
  negb (capacity =? 0) && memory_is_page_aligned base && memory_is_page_aligned capacity &&
  (first <=? base) && (base <? arena_end) && (capacity <=? arena_end -u base) &&
  memory_is_canonical base && memory_is_canonical (base +u capacity -u 1).

Definition heap_pages_init (st : heap_pages) (base capacity_bytes : Z) (nx : bool) : heap_pages * bool :=
  if hp_initialized st || negb (valid_interval base capacity_bytes) then (st, false)
  else (MkPages base capacity_bytes 0 nx true false, true).

(** The number of rounds of a loop that goes from [a] to [b] in steps of a page. *)
Definition rounds (a b : Z) : nat := Z.to_nat ((b - a) / MEMORY_PAGE_SIZE).

Section pages.
Context {C : Type} `{PageOps C}.

Definition release_page (st : heap_pages) (c : C) (phys : Z) : heap_pages * C :=
  let (c, ok) := pg_free c phys in (if negb ok then corrupt st else st, c).

(** One round of the loop of [rollback], at the page of offset [end_]. *)
Definition rollback_page (st : heap_pages) (c : C) (end_ : Z) : heap_pages * C :=
  let virt := hp_base st +u end_ in
  match pg_query c virt with
  | None => (corrupt st, c)
  | Some mapping =>
      if negb (vp_mapped mapping) || negb (vp_page_size mapping =? MEMORY_PAGE_SIZE) ||
         negb (memory_is_page_aligned (vp_physical mapping))
      then (corrupt st, c)
      else
        let phys := vp_physical mapping in
        match pg_unmap c virt with
        | (c, false) => (corrupt st, c)
        | (c, true) =>
            match pg_query c virt with
            | None => (corrupt st, c)
            | Some mapping => if vp_mapped mapping then (corrupt st, c) else release_page st c phys
            end
        end
  end.

Fixpoint rollback_from (fuel : nat) (st : heap_pages) (c : C) (old_mapped end_ : Z) : heap_pages * C :=
  if negb (old_mapped <? end_) then (st, c)
  else match fuel with
  | O => (st, c)
  | S fuel =>
      let end_ := end_ -u MEMORY_PAGE_SIZE in
      let (st, c) := rollback_page st c end_ in
      rollback_from fuel st c old_mapped end_
  end.
Definition rollback (st : heap_pages) (c : C) (old_mapped end_ : Z) : heap_pages * C :=
  rollback_from (rounds old_mapped end_) st c old_mapped end_.

(** The first loop of [heap_pages_grow]: no page of the new range is mapped. *)
Fixpoint range_unmapped (fuel : nat) (st : heap_pages) (c : C) (offset new_mapped : Z) : bool :=
  if negb (offset <? new_mapped) then true
  else match fuel with
  | O => false
  | S fuel =>
      match pg_query c (hp_base st +u offset) with
      | None => false
      | Some mapping => negb (vp_mapped mapping) && range_unmapped fuel st c (offset +u MEMORY_PAGE_SIZE) new_mapped
      end
  end.

(** The second loop. *)
Fixpoint grow_from (fuel : nat) (st : heap_pages) (c : C) (old_mapped offset new_mapped flags : Z) : heap_pages * C * bool :=
  if negb (offset <? new_mapped) then (set_mapped new_mapped st, c, true)
  else match fuel with
  | O => (st, c, false)
  | S fuel =>
      match pg_alloc c with
      | (c, None) => (rollback st c old_mapped offset, false)
      | (c, Some phys) =>
          if negb (memory_is_page_aligned phys) || negb (Z.land phys (not64 VMM_ADDRESS_MASK) =? 0) then
            let (st, c) := release_page (corrupt st) c phys in (rollback st c old_mapped offset, false)
          else match pg_zero c phys with
          | (c, false) => let (st, c) := release_page st c phys in (rollback st c old_mapped offset, false)
          | (c, true) =>
              match pg_map c (hp_base st +u offset) phys flags with
              | (c, false) => let (st, c) := release_page st c phys in (rollback st c old_mapped offset, false)
              | (c, true) => grow_from fuel st c old_mapped (offset +u MEMORY_PAGE_SIZE) new_mapped flags
              end
          end
      end
  end.

Definition page_flags (nx : bool) : Z := Z.lor (Z.lor VMM_PRESENT VMM_WRITABLE) (if nx then VMM_NX else 0).

Definition heap_pages_grow (st : heap_pages) (c : C) (old_mapped new_mapped : Z) : heap_pages * C * bool :=
  if negb (hp_initialized st) || hp_corrupted st || negb (valid_interval (hp_base st) (hp_capacity_bytes st)) ||
     negb (old_mapped =? hp_mapped_bytes st) || (new_mapped <? old_mapped) || (hp_capacity_bytes st <? new_mapped) ||
     negb (memory_is_page_aligned old_mapped) || negb (memory_is_page_aligned new_mapped)
  then (st, c, false)
  else if negb (range_unmapped (rounds old_mapped new_mapped) st c old_mapped new_mapped) then (st, c, false)
  else grow_from (rounds old_mapped new_mapped) st c old_mapped old_mapped new_mapped (page_flags (hp_nx st)).
End pages.

(** ** The contract of the callbacks *)

Class PageOpsLaws (C : Type) `{PageOps C} := {
  pg_wf : C -> Prop;
  pg_held : C -> Z -> Prop;             (** frames that [alloc] gave and [free] did not take back *)
  pg_word : C -> Z -> Z -> Z;           (** the words of a frame *)
  pg_serves : Z -> Prop;                (** addresses that [map] and [unmap] accept *)
  pg_law_alloc : forall c c' r, pg_wf c -> pg_alloc c = (c', r) ->
    pg_wf c' /\ (forall a, u64_ok a -> pg_query c' a = pg_query c a) /\
    (forall f, r = Some f -> u64_ok f /\ f mod 4096 = 0 /\ f < 2 ^ 52 /\ ~ pg_held c f) /\
    (forall g, pg_held c' g <-> pg_held c g \/ r = Some g) /\
    forall g i, pg_held c g -> pg_word c' g i = pg_word c g i;
  pg_law_free : forall c c' f ok, pg_wf c -> pg_held c f -> pg_free c f = (c', ok) ->
    ok = true /\ pg_wf c' /\ (forall a, u64_ok a -> pg_query c' a = pg_query c a) /\
    (forall g, pg_held c' g <-> pg_held c g /\ g <> f) /\
    forall g i, pg_held c g -> g <> f -> pg_word c' g i = pg_word c g i;
  pg_law_zero : forall c c' f ok, pg_wf c -> pg_held c f -> pg_zero c f = (c', ok) ->
    pg_wf c' /\ (forall a, u64_ok a -> pg_query c' a = pg_query c a) /\ (forall g, pg_held c' g <-> pg_held c g) /\
    forall g i, pg_held c g -> pg_word c' g i = if ok && (g =? f) then 0 else pg_word c g i;
  pg_law_map : forall c c' virt phys flags ok, pg_wf c -> pg_held c phys -> u64_ok virt -> u64_ok flags ->
    pg_map c virt phys flags = (c', ok) ->
    pg_wf c' /\ (forall g, pg_held c' g <-> pg_held c g) /\ (forall g i, pg_held c g -> pg_word c' g i = pg_word c g i) /\
    if ok then
      pg_serves virt /\ (forall a, u64_ok a -> a / 4096 = virt / 4096 -> pg_query c a = Some unmapped) /\
      forall a, u64_ok a -> pg_query c' a =
        if a / 4096 =? virt / 4096 then Some (MkMapping true (phys + a mod 4096) flags 4096) else pg_query c a
    else forall a, u64_ok a -> pg_query c' a = pg_query c a;
  pg_law_unmap : forall c c' virt mp ok, pg_wf c -> pg_serves virt -> u64_ok virt -> virt mod 4096 = 0 ->
    pg_query c virt = Some mp -> vp_mapped mp = true -> vp_page_size mp = 4096 -> pg_unmap c virt = (c', ok) ->
    ok = true /\ pg_wf c' /\ (forall g, pg_held c' g <-> pg_held c g) /\ (forall g i, pg_held c g -> pg_word c' g i = pg_word c g i) /\
    forall a, u64_ok a -> pg_query c' a = if a / 4096 =? virt / 4096 then Some unmapped else pg_query c a
}.

Lemma frame_in_mask f : u64_ok f -> f mod 4096 = 0 -> f < 2 ^ 52 -> Z.land f (not64 VMM_ADDRESS_MASK) =? 0 = true.
Proof.
  intros Hu Hm Hb. apply Z.eqb_eq, Z.bits_inj'. intros n Hn. rewrite Z.land_spec, Z.bits_0. destruct (decide (n < 64)); cycle 1.
  { by rewrite not64_testbit_high, andb_false_r by lia. }
  rewrite not64_testbit, address_mask_bits by lia. destruct (Z.leb_spec 12 n), (Z.ltb_spec n 52); cbn [andb negb]; [by rewrite andb_false_r| | |].
  - rewrite Z.bits_above_log2; [done|unfold u64_ok in *; lia|]. destruct (decide (f = 0)) as [-> |]; [cbn; lia|]. apply Z.log2_lt_pow2; [unfold u64_ok in *; lia|].
    apply Z.lt_le_trans with (2 ^ 52); [done|]. apply Z.pow_le_mono_r; lia.
  - pose proof (Z.mod_pow2_bits_low f 12 n) as E. change (2 ^ 12) with 4096 in E. rewrite Hm, Z.bits_0 in E. by rewrite <- E by lia.
  - lia.
Qed.

Section laws.
Context {C : Type} `{PageOpsLaws C}.

(** What [c'] shows of [c]: the same translations, the same frames in the same
    hands with the same contents. *)
Record pg_same (c c' : C) : Prop := {
  ps_wf : pg_wf c';
  ps_query : forall a, u64_ok a -> pg_query c' a = pg_query c a;
  ps_held : forall g, pg_held c' g <-> pg_held c g;
  ps_word : forall g i, pg_held c g -> pg_word c' g i = pg_word c g i
}.

(** [c'] has the pages of the offsets [base + 4096 k] on top of [c], one for
    each of the frames [fs], all zero. *)
Record pg_grown (c c' : C) (base flags : Z) (fs : list Z) : Prop := {
  gr_wf : pg_wf c';
  gr_fresh : NoDup fs /\ forall f, f ∈ fs -> u64_ok f /\ f mod 4096 = 0 /\ ~ pg_held c f;
  gr_serves : forall k : nat, (k < length fs)%nat -> pg_serves (base + 4096 * Z.of_nat k);
  gr_query : forall a, u64_ok a -> pg_query c' a =
    match fs !! Z.to_nat ((a - base) / 4096) with
    | Some f => if base <=? a then Some (MkMapping true (f + a mod 4096) flags 4096) else pg_query c a
    | None => pg_query c a
    end;
  gr_held : forall g, pg_held c' g <-> pg_held c g \/ g ∈ fs;
  gr_word : forall g i, pg_held c g -> pg_word c' g i = pg_word c g i;
  gr_zero : forall f i, f ∈ fs -> pg_word c' f i = 0;
  gr_before : forall a, u64_ok a -> base <= a < base + 4096 * Z.of_nat (length fs) -> pg_query c a = Some unmapped
}.

Lemma pg_same_refl c : pg_wf c -> pg_same c c.
Proof. by constructor. Qed.

Lemma pg_same_trans c1 c2 c3 : pg_same c1 c2 -> pg_same c2 c3 -> pg_same c1 c3.
Proof.
  intros [W1 Q1 H1 M1] [W2 Q2 H2 M2]. constructor; [done| | |].
  - intros a Ha. by rewrite Q2, Q1.
  - intros g. by rewrite H2, H1.
  - intros g i Hg. rewrite M2 by by apply H1. by apply M1.
Qed.

Lemma grown_nil c base flags : pg_wf c -> pg_grown c c base flags [].
Proof.
  intros Hc. constructor; try done; cbn; try (intros; lia).
  - split; [constructor|by intros ? ?%elem_of_nil].
  - intros g. rewrite elem_of_nil. tauto.
  - by intros ? ? ?%elem_of_nil.
Qed.

Lemma grown_none c c' base flags : pg_grown c c' base flags [] -> pg_same c c'.
Proof.
  intros G. constructor; [apply G| | |].
  - intros a Ha. rewrite (gr_query _ _ _ _ _ G) by done. done.
  - intros g. rewrite (gr_held _ _ _ _ _ G), elem_of_nil. tauto.
  - apply (gr_word _ _ _ _ _ G).
Qed.

Lemma grown_same c c1 c2 base flags fs : pg_grown c c1 base flags fs -> pg_same c1 c2 -> pg_grown c c2 base flags fs.
Proof.
  intros G S. constructor; [apply S|apply G|apply G| | | | |apply G].
  - intros a Ha. rewrite (ps_query _ _ S) by done. by apply (gr_query _ _ _ _ _ G).
  - intros g. rewrite (ps_held _ _ S). apply G.
  - intros g i Hg. rewrite (ps_word _ _ S) by (apply G; by left). by apply (gr_word _ _ _ _ _ G).
  - intros f i Hf. rewrite (ps_word _ _ S) by (apply G; by right). by apply (gr_zero _ _ _ _ _ G).
Qed.

(** A frame taken and given back leaves nothing. *)
Lemma take_back c c1 c2 c3 f ok : pg_wf c -> pg_alloc c = (c1, Some f) -> pg_wf c2 ->
  (forall a, u64_ok a -> pg_query c2 a = pg_query c1 a) -> (forall g, pg_held c2 g <-> pg_held c1 g) ->
  (forall g i, pg_held c1 g -> g <> f -> pg_word c2 g i = pg_word c1 g i) -> pg_free c2 f = (c3, ok) -> ok = true /\ pg_same c c3.
Proof.
  intros Hc Ea Hc2 Q2 H2 M2 Ef. destruct (pg_law_alloc c c1 _ Hc Ea) as (W1 & Q1 & Hf & H1 & M1). destruct (Hf f eq_refl) as (_ & _ & _ & Hnf).
  destruct (pg_law_free c2 c3 f ok Hc2) as (Hok & W3 & Q3 & H3 & M3); [apply H2, H1; by right|done|]. split; [done|]. constructor; [done| | |].
  - intros a Ha. by rewrite Q3, Q2, Q1.
  - intros g. rewrite H3, H2, H1. split; [intros [[|[= ->]] ?]; done|]. intros Hg. split; [by left|]. by intros ->.
  - intros g i Hg. assert (g <> f) by by intros ->. rewrite M3, M2, M1; try done; [by apply H1; left|apply H2, H1; by left].
Qed.

Section interval.
Context (base flags : Z) (Hba : base mod 4096 = 0) (Hb : VMM_DYNAMIC_BASE <= base) (Hfl : u64_ok flags).

Definition page_at (n : nat) : Z := base + 4096 * Z.of_nat n.

Lemma page_at_u64 n : page_at n <= VMM_DYNAMIC_BASE + VMM_DYNAMIC_SIZE -> u64_ok (page_at n) /\ page_at n mod 4096 = 0.
Proof using Hba Hb.
  unfold page_at, u64_ok, UINT64_MAX, VMM_DYNAMIC_BASE, VMM_DYNAMIC_SIZE in *. change (Z.shiftl 1 39) with (2 ^ 39). intros. split; [lia|dlia].
Qed.

(** The page of [a] counted from [base]. *)
Lemma interval_index a n : base <= a -> (a / 4096 = page_at n / 4096 <-> Z.to_nat ((a - base) / 4096) = n).
Proof using Hba.
  clear Hb. unfold page_at. intros Ha. assert (base = 4096 * (base / 4096)) as E by (pose proof (Z.div_mod base 4096); lia). set (q := base / 4096) in *. clearbody q. subst base.
  replace (4096 * q + 4096 * Z.of_nat n) with ((q + Z.of_nat n) * 4096) by lia. rewrite Z.div_mul by done.
  replace (a - 4096 * q) with (a + (- q) * 4096) by lia. rewrite Z.div_add by done. pose proof (Z.div_mod a 4096). pose proof (Z.mod_pos_bound a 4096). lia.
Qed.

Lemma page_index_below a n : a / 4096 = page_at n / 4096 -> base <= a.
Proof using Hba. unfold page_at. intros E. dlia. Qed.

Lemma same_page_snoc (fs : list Z) f a : (fs ++ [f]) !! Z.to_nat ((a - base) / 4096) =
  if (a / 4096 =? page_at (length fs) / 4096) then Some f else if base <=? a then fs !! Z.to_nat ((a - base) / 4096) else (fs ++ [f]) !! Z.to_nat ((a - base) / 4096).
Proof using Hba.
  destruct (Z.eqb_spec (a / 4096) (page_at (length fs) / 4096)) as [E|E].
  - pose proof (page_index_below _ _ E). apply interval_index in E; [|done]. by rewrite E, lookup_app_r, Nat.sub_diag by lia.
  - destruct (Z.leb_spec base a); [|done]. assert (Z.to_nat ((a - base) / 4096) <> length fs) as Hne by by rewrite <- interval_index.
    destruct (decide (Z.to_nat ((a - base) / 4096) < length fs)%nat); [by rewrite lookup_app_l|].
    rewrite lookup_app_r, lookup_cons_ne_0, !lookup_ge_None_2 by (cbn; lia). done.
Qed.

Lemma grown_query c c' (fs : list Z) n f : pg_grown c c' base flags fs -> page_at n <= VMM_DYNAMIC_BASE + VMM_DYNAMIC_SIZE ->
  fs !! n = Some f -> pg_query c' (page_at n) = Some (MkMapping true f flags 4096).
Proof using Hba Hb.
  intros G Hn Hf. destruct (page_at_u64 n Hn) as [Hu Hm]. rewrite (gr_query _ _ _ _ _ G) by done.
  assert (base <= page_at n) by (unfold page_at; lia). destruct (interval_index (page_at n) n) as [E _]; [done|]. rewrite E by done. rewrite Hf.
  assert (base <=? page_at n = true) as -> by lia. by rewrite Hm, Z.add_0_r.
Qed.

Lemma grown_snoc c c1 c2 c3 c4 (fs : list Z) f : pg_wf c -> pg_grown c c1 base flags fs -> page_at (length fs) <= VMM_DYNAMIC_BASE + VMM_DYNAMIC_SIZE ->
  pg_alloc c1 = (c2, Some f) -> pg_zero c2 f = (c3, true) -> pg_map c3 (page_at (length fs)) f flags = (c4, true) ->
  pg_grown c c4 base flags (fs ++ [f]).
Proof using Hba Hb Hfl.
  intros Hc G Hn Ea Ez Em. destruct (page_at_u64 _ Hn) as [Hu Hm].
  destruct (pg_law_alloc _ _ _ (gr_wf _ _ _ _ _ G) Ea) as (W2 & Q2 & Hf & H2 & M2). destruct (Hf f eq_refl) as (Hfu & Hfm & _ & Hnf).
  destruct (pg_law_zero c2 c3 f true W2) as (W3 & Q3 & H3 & M3); [apply H2; by right|done|].
  destruct (pg_law_map c3 c4 (page_at (length fs)) f flags true W3) as (W4 & H4 & M4 & Hs & Hun & Q4); [apply H3, H2; by right|done|done|done|].
  destruct (gr_fresh _ _ _ _ _ G) as [Hnd Hfr]. assert (~ pg_held c f /\ f ∉ fs) as [Hnc Hnfs].
  { split; intros Hx; apply Hnf, G; by auto. }
  constructor; [done| | | | | | |].
  - split; [by apply NoDup_app; split_and!; [|set_solver|apply NoDup_singleton]|]. intros g [Hg|Hg%list_elem_of_singleton]%elem_of_app; [by apply Hfr|by subst].
  - intros k. rewrite length_app. cbn. intros Hk. destruct (decide (k = length fs)) as [-> |]; [done|]. apply (gr_serves _ _ _ _ _ G). lia.
  - intros a Ha. rewrite Q4 by done. rewrite same_page_snoc. destruct (Z.eqb_spec (a / 4096) (page_at (length fs) / 4096)) as [E|E].
    + pose proof (page_index_below _ _ E). by assert (base <=? a = true) as -> by lia.
    + rewrite Q3, Q2, (gr_query _ _ _ _ _ G) by done. destruct (base <=? a); [done|]. by repeat case_match.
  - intros g. rewrite H4, H3, H2, (gr_held _ _ _ _ _ G), elem_of_app, list_elem_of_singleton. split; [intros [[]|[= ->]]; auto|]. intros [|[| ->]]; auto.
  - intros g i Hg. assert (g <> f) by by intros ->. assert (pg_held c1 g) by (apply G; by left). assert (pg_held c2 g) by (apply H2; by left).
    rewrite M4 by by apply H3. rewrite M3 by done. assert (g =? f = false) as -> by lia. cbn [andb]. rewrite M2 by done. by apply (gr_word _ _ _ _ _ G).
  - intros g i [Hg|Hg%list_elem_of_singleton]%elem_of_app.
    + assert (g <> f) by by intros ->. assert (pg_held c1 g) by (apply G; by right). assert (pg_held c2 g) by (apply H2; by left).
      rewrite M4 by by apply H3. rewrite M3 by done. assert (g =? f = false) as -> by lia. cbn [andb]. rewrite M2 by done. by apply (gr_zero _ _ _ _ _ G).
    + subst g. rewrite M4 by (apply H3, H2; by right). rewrite M3 by (apply H2; by right). by rewrite Z.eqb_refl.
  - intros a Ha. rewrite length_app. cbn. intros Hr. destruct (Z.eqb_spec (a / 4096) (page_at (length fs) / 4096)) as [E|E].
    + specialize (Hun a Ha E). rewrite Q3, Q2, (gr_query _ _ _ _ _ G) in Hun by done. apply interval_index in E; [|lia]. by rewrite E, lookup_ge_None_2 in Hun.
    + apply (gr_before _ _ _ _ _ G); [done|]. unfold page_at in E. dlia.
Qed.

Lemma rollback_page_spec st c c1 (fs : list Z) f o : pg_wf c -> pg_grown c c1 base flags (fs ++ [f]) ->
  page_at (length fs) <= VMM_DYNAMIC_BASE + VMM_DYNAMIC_SIZE -> hp_base st +u o = page_at (length fs) ->
  exists c2, rollback_page st c1 o = (st, c2) /\ pg_grown c c2 base flags fs.
Proof using Hba Hb Hfl.
  intros Hc G Hn Ho. destruct (page_at_u64 _ Hn) as [Hu Hm]. destruct (gr_fresh _ _ _ _ _ G) as [Hnd Hfr].
  assert (f ∈ fs ++ [f]) as Hin by (apply elem_of_app; right; by apply list_elem_of_singleton). destruct (Hfr f Hin) as (Hfu & Hfm & Hnf).
  apply NoDup_app in Hnd as (Hnd & Hdis & _). assert (f ∉ fs) as Hnfs by (intros Hx; apply (Hdis f Hx); by apply list_elem_of_singleton).
  assert (pg_query c1 (page_at (length fs)) = Some (MkMapping true f flags 4096)) as Q.
  { apply (grown_query c c1 (fs ++ [f])); [done|done|]. by rewrite lookup_app_r, Nat.sub_diag. }
  unfold rollback_page. rewrite Ho, Q. cbn [vp_mapped vp_page_size vp_physical negb orb]. change (4096 =? MEMORY_PAGE_SIZE) with true. cbn [negb orb].
  rewrite page_aligned_mod, Hfm. cbn [Z.eqb negb]. destruct (pg_unmap c1 (page_at (length fs))) as [c2 ok] eqn:Eu.
  assert (pg_serves (page_at (length fs))) as Hsv by (apply (gr_serves _ _ _ _ _ G); rewrite length_app; cbn; lia).
  destruct (pg_law_unmap c1 c2 _ _ ok (gr_wf _ _ _ _ _ G) Hsv Hu Hm Q eq_refl eq_refl Eu) as (-> & W2 & H2 & M2 & Q2).
  rewrite Q2, Z.eqb_refl by done. cbn [unmapped vp_mapped]. unfold release_page. destruct (pg_free c2 f) as [c3 ok] eqn:Ef.
  destruct (pg_law_free c2 c3 f ok W2) as (-> & W3 & Q3 & H3 & M3); [apply H2, G; by right|done|]. cbn [negb]. exists c3. split; [done|].
  assert (forall g, g ∈ fs ++ [f] <-> g ∈ fs \/ g = f) as Hm2 by (intros g; by rewrite elem_of_app, list_elem_of_singleton).
  constructor; [done| | | | | | |].
  - split; [done|]. intros g Hg. apply Hfr, Hm2. by left.
  - intros k Hk. apply (gr_serves _ _ _ _ _ G). rewrite length_app. lia.
  - intros a Ha. rewrite Q3, Q2 by done. destruct (Z.eqb_spec (a / 4096) (page_at (length fs) / 4096)) as [E|E].
    + pose proof (page_index_below _ _ E) as Hlo. assert (base <=? a = true) as -> by lia. pose proof (proj1 (interval_index a (length fs) Hlo) E) as ->. rewrite lookup_ge_None_2 by done.
      symmetry. apply (gr_before _ _ _ _ _ G); [done|]. rewrite length_app. cbn. unfold page_at in E. dlia.
    + rewrite (gr_query _ _ _ _ _ G) by done. rewrite same_page_snoc. destruct (Z.eqb_spec (a / 4096) (page_at (length fs) / 4096)); [done|]. destruct (base <=? a); [done|].
      by repeat case_match.
  - intros g. rewrite H3, H2, (gr_held _ _ _ _ _ G), Hm2. split; [intros [[|[]] ?]; auto; done|]. intros [Hg|Hg]; (split; [by auto|by intros ->]).
  - intros g i Hg. assert (g <> f) by by intros ->. assert (pg_held c1 g) by (apply G; by left). rewrite M3 by (done || by apply H2). rewrite M2 by done. by apply (gr_word _ _ _ _ _ G).
  - intros g i Hg. assert (g <> f) by by intros ->. assert (pg_held c1 g) by (apply G; right; apply Hm2; by left). rewrite M3 by (done || by apply H2). rewrite M2 by done.
    apply (gr_zero _ _ _ _ _ G), Hm2. by left.
  - intros a Ha Hr. apply (gr_before _ _ _ _ _ G); [done|]. rewrite length_app. cbn. lia.
Qed.
End interval.

(** ** The loops *)

Lemma rounds_spec a n : rounds a (a + 4096 * Z.of_nat n) = n.
Proof. unfold rounds, MEMORY_PAGE_SIZE. replace (a + 4096 * Z.of_nat n - a) with (Z.of_nat n * 4096) by lia. rewrite Z.div_mul by done. lia. Qed.

Section grow.
Context (st : heap_pages) (old flags : Z) (Hold : 0 <= old) (Hba : hp_base st mod 4096 = 0) (Hoa : old mod 4096 = 0).
Context (Hb : VMM_DYNAMIC_BASE <= hp_base st) (Hfl : u64_ok flags).
Notation base := (hp_base st + old).
Notation offset n := (old + 4096 * Z.of_nat n).
Notation inside n := (hp_base st + offset n <= VMM_DYNAMIC_BASE + VMM_DYNAMIC_SIZE).

Lemma inside_small n : inside n -> u64_ok (offset n) /\ u64_ok (hp_base st + offset n) /\ hp_base st +u offset n = page_at base n.
Proof using Hb Hold.
  unfold page_at, u64_ok, UINT64_MAX, VMM_DYNAMIC_BASE, VMM_DYNAMIC_SIZE in *. change (Z.shiftl 1 39) with (2 ^ 39). intros Hn.
  split_and!; try lia. rewrite u64_small by (unfold u64_ok, UINT64_MAX; lia). lia.
Qed.

Lemma base_aligned : base mod 4096 = 0 /\ VMM_DYNAMIC_BASE <= base.
Proof using Hba Hoa Hb Hold. split; [dlia|lia]. Qed.

Lemma rollback_spec c : pg_wf c -> forall (fs : list Z) c1, pg_grown c c1 base flags fs -> inside (length fs) ->
  exists c2, rollback st c1 old (offset (length fs)) = (st, c2) /\ pg_same c c2.
Proof using Hba Hoa Hb Hold Hfl.
  intros Hc fs. unfold rollback. rewrite rounds_spec. destruct base_aligned as [Hal Hlo].
  induction fs as [|f fs IH] using rev_ind; intros c1 G Hi.
  - exists c1. cbn. rewrite Z.add_0_r, Z.ltb_irrefl. split; [done|by eapply grown_none].
  - rewrite length_app in *. cbn [length] in *. replace (length fs + 1)%nat with (S (length fs)) in * by lia. cbn [rollback_from].
    rewrite (proj2 (Z.ltb_lt old (offset (S (length fs))))) by lia. cbn [negb].
    assert (inside (length fs)) as Hi' by lia. destruct (inside_small _ Hi') as (Ho & _ & Ev). destruct (inside_small _ Hi) as (Ho' & _ & _).
    assert (offset (S (length fs)) -u MEMORY_PAGE_SIZE = offset (length fs)) as ->.
    { unfold MEMORY_PAGE_SIZE. rewrite u64_small; [lia|]. unfold u64_ok in *. lia. }
    destruct (rollback_page_spec base flags Hal Hlo Hfl st c c1 fs f (offset (length fs)) Hc G) as (c2 & -> & G2); [unfold page_at; lia|done|]. by apply IH.
Qed.

(** A call that [pg_alloc], [pg_zero] or [pg_map] refused at the page [virt]. *)
Definition callback_refused (c : C) (virt : Z) : Prop :=
  match pg_alloc c with
  | (_, None) => True
  | (c, Some f) => match pg_zero c f with (_, false) => True | (c, true) => snd (pg_map c virt f flags) = false end
  end.

Lemma refused_back c c1 (fs : list Z) c2 : pg_wf c -> pg_grown c c1 base flags fs -> pg_same c1 c2 -> inside (length fs) ->
  exists c3, rollback st c2 old (offset (length fs)) = (st, c3) /\ pg_same c c3.
Proof using Hba Hoa Hb Hold Hfl. intros Hc G S Hi. apply rollback_spec; [done| |done]. by eapply grown_same. Qed.

Lemma grow_from_spec c : pg_wf c -> forall n (fs : list Z) c1, pg_grown c c1 base flags fs -> inside (length fs + n) ->
  let '(st', c', ok) := grow_from n st c1 old (offset (length fs)) (offset (length fs + n)) flags in
  if ok then st' = set_mapped (offset (length fs + n)) st /\ exists fs', length fs' = (length fs + n)%nat /\ pg_grown c c' base flags fs'
  else st' = st /\ pg_same c c' /\ exists fs' c2, (length fs' < length fs + n)%nat /\ pg_grown c c2 base flags fs' /\ callback_refused c2 (page_at base (length fs')).
Proof using Hba Hoa Hb Hold Hfl.
  intros Hc. destruct base_aligned as [Hal Hlo]. induction n as [|n IH]; intros fs c1 G Hi; cbn [grow_from].
  { rewrite Nat.add_0_r, Z.ltb_irrefl. cbn [negb]. split; [done|]. by exists fs. }
  rewrite (proj2 (Z.ltb_lt (offset (length fs)) (offset (length fs + S n)))) by lia. cbn [negb].
  assert (inside (length fs)) as Hi' by lia. destruct (inside_small _ Hi') as (Ho & _ & Ev). pose proof (gr_wf _ _ _ _ _ G) as W1.
  assert (callback_refused c1 (page_at base (length fs)) -> exists (fs' : list Z) c2,
    (length fs' < length fs + S n)%nat /\ pg_grown c c2 base flags fs' /\ callback_refused c2 (page_at base (length fs'))) as Hre.
  { intros Hr. exists fs, c1. split_and!; [lia|done|done]. }
  unfold callback_refused at 1 in Hre. destruct (pg_alloc c1) as [c2 [f|]] eqn:Ea; cycle 1.
  { destruct (pg_law_alloc _ _ _ W1 Ea) as (W2 & Q2 & _ & H2 & M2). destruct (refused_back c c1 fs c2 Hc G) as (c3 & -> & S3); [|done|by auto].
    constructor; [done|done| |done]. intros g. rewrite H2. split; [by intros [|]|by left]. }
  destruct (pg_law_alloc _ _ _ W1 Ea) as (W2 & Q2 & Hf & H2 & M2). destruct (Hf f eq_refl) as (Hfu & Hfm & Hf52 & _).
  rewrite page_aligned_mod, Hfm. cbn [Z.eqb negb orb]. rewrite frame_in_mask by done. cbn [negb].
  assert (pg_held c2 f) as Hh2 by (apply H2; by right). destruct (pg_zero c2 f) as [c3 oz] eqn:Ez. destruct (pg_law_zero _ _ _ _ W2 Hh2 Ez) as (W3 & Q3 & H3 & M3).
  assert (forall g i, pg_held c2 g -> g <> f -> pg_word c3 g i = pg_word c2 g i) as M3'.
  { intros g i Hg Hne. rewrite M3 by done. assert (g =? f = false) as -> by lia. by rewrite andb_false_r. }
  destruct oz; cycle 1.
  { unfold release_page. destruct (pg_free c3 f) as [c4 ok] eqn:Ef. destruct (take_back c1 c2 c3 c4 f ok) as [-> S4]; try done. cbn [negb].
    destruct (refused_back c c1 fs c4 Hc G S4 Hi') as (c5 & -> & S5). by auto. }
  rewrite Ev. destruct (pg_map c3 (page_at base (length fs)) f flags) as [c4 om] eqn:Em.
  destruct om; cycle 1.
  { destruct (pg_law_map c3 c4 (page_at base (length fs)) f flags false W3) as (W4 & H4 & M4 & Q4); [by apply H3|by apply page_at_u64; [| |unfold page_at; lia]|done|done|].
    unfold release_page. destruct (pg_free c4 f) as [c5 ok] eqn:Ef. destruct (take_back c1 c2 c4 c5 f ok) as [-> S5]; try done.
    - intros a Ha. by rewrite Q4, Q3.
    - intros g. by rewrite H4, H3.
    - intros g i Hg Hne. rewrite M4 by by apply H3. by apply M3'.
    - cbn [negb]. destruct (refused_back c c1 fs c5 Hc G S5 Hi') as (c6 & -> & S6). by auto. }
  pose proof (grown_snoc base flags Hal Hlo Hfl c c1 c2 c3 c4 fs f Hc G ltac:(unfold page_at; lia) Ea Ez Em) as G4.
  specialize (IH (fs ++ [f]) c4 G4). rewrite length_app in IH. cbn [length] in IH. replace (length fs + 1 + n)%nat with (length fs + S n)%nat in IH by lia.
  specialize (IH Hi). replace (offset (length fs) +u MEMORY_PAGE_SIZE) with (offset (length fs + 1)); [done|].
  unfold MEMORY_PAGE_SIZE. destruct (inside_small (length fs + S n) Hi) as (Hs & _). rewrite u64_small; [lia|]. unfold u64_ok in *. lia.
Qed.
End grow.

Lemma valid_interval_spec base capacity : u64_ok base -> u64_ok capacity -> valid_interval base capacity = true ->
  0 < capacity /\ base mod 4096 = 0 /\ capacity mod 4096 = 0 /\ VMM_DYNAMIC_BASE + VMM_TEST_SIZE <= base /\
  base + capacity <= VMM_DYNAMIC_BASE + VMM_DYNAMIC_SIZE.
Proof.
  unfold valid_interval. intros Hb Hc. rewrite !andb_true_iff, negb_true_iff, !page_aligned_mod, Z.eqb_neq, !Z.eqb_eq, !Z.leb_le, Z.ltb_lt.
  change (VMM_DYNAMIC_BASE +u VMM_TEST_SIZE) with (VMM_DYNAMIC_BASE + VMM_TEST_SIZE). change (VMM_DYNAMIC_BASE +u VMM_DYNAMIC_SIZE) with (VMM_DYNAMIC_BASE + VMM_DYNAMIC_SIZE).
  intros [[[[[[[Hz Hba] Hca] Hlo] Hhi] Hle] _] _]. rewrite u64_small in Hle; [unfold u64_ok in *; lia|].
  unfold u64_ok, VMM_DYNAMIC_BASE, VMM_DYNAMIC_SIZE, VMM_TEST_SIZE, UINT64_MAX in *. change (Z.shiftl 1 39) with (2 ^ 39) in *. lia.
Qed.

(** The page at [a] is not there. *)
Definition page_absent (c : C) (a : Z) : bool := match pg_query c a with Some mapping => negb (vp_mapped mapping) | None => false end.

Lemma range_unmapped_spec st c old n : forall k, u64_ok (hp_base st + old + 4096 * Z.of_nat (k + n)) -> u64_ok (old + 4096 * Z.of_nat (k + n)) -> 0 <= old -> 0 <= hp_base st ->
  range_unmapped n st c (old + 4096 * Z.of_nat k) (old + 4096 * Z.of_nat (k + n)) =
  forallb (fun j => page_absent c (hp_base st + old + 4096 * Z.of_nat j)) (seq k n).
Proof.
  induction n as [|n IH]; intros k Hu Hv Ho Hb; cbn [range_unmapped seq forallb].
  { by rewrite Nat.add_0_r, Z.ltb_irrefl. }
  rewrite (proj2 (Z.ltb_lt _ _)) by lia. cbn [negb]. unfold page_absent at 1. unfold u64_ok in *.
  rewrite (u64_small (hp_base st + _)) by (unfold u64_ok; lia). rewrite Z.add_assoc. destruct (pg_query c _) as [mp|]; [|done]. f_equal.
  replace (k + S n)%nat with (S k + n)%nat by lia. rewrite u64_small by (unfold u64_ok, MEMORY_PAGE_SIZE; lia).
  replace (old + 4096 * Z.of_nat k + MEMORY_PAGE_SIZE) with (old + 4096 * Z.of_nat (S k)) by (unfold MEMORY_PAGE_SIZE; lia). apply IH; unfold u64_ok; lia.
Qed.

(** What [heap_pages_grow] accepts. *)
Definition growth_valid (st : heap_pages) (old_mapped new_mapped : Z) : bool :=
  hp_initialized st && negb (hp_corrupted st) && valid_interval (hp_base st) (hp_capacity_bytes st) && (old_mapped =? hp_mapped_bytes st) &&
  (old_mapped <=? new_mapped) && (new_mapped <=? hp_capacity_bytes st) && (old_mapped mod 4096 =? 0) && (new_mapped mod 4096 =? 0).

Definition growth_pages (st : heap_pages) (old_mapped new_mapped : Z) : list Z :=
  (fun k => hp_base st + old_mapped + 4096 * Z.of_nat k) <$> seq 0 (rounds old_mapped new_mapped).

(** Why a growth that was asked for correctly did not happen: a page of the range
    was mapped already, or a callback refused while the pages were added. *)
Definition growth_refused (st : heap_pages) (c : C) (old_mapped new_mapped : Z) : Prop :=
  (exists a, a ∈ growth_pages st old_mapped new_mapped /\ page_absent c a = false) \/
  exists fs c2, (length fs < rounds old_mapped new_mapped)%nat /\ pg_grown c c2 (hp_base st + old_mapped) (page_flags (hp_nx st)) fs /\
    callback_refused (page_flags (hp_nx st)) c2 (hp_base st + old_mapped + 4096 * Z.of_nat (length fs)).

Lemma guard_valid st old new : 
  negb (hp_initialized st) || hp_corrupted st || negb (valid_interval (hp_base st) (hp_capacity_bytes st)) || negb (old =? hp_mapped_bytes st) || (new <? old) ||
  (hp_capacity_bytes st <? new) || negb (memory_is_page_aligned old) || negb (memory_is_page_aligned new) = negb (growth_valid st old new).
Proof.
  unfold growth_valid. rewrite !page_aligned_mod, !negb_andb, negb_involutive. rewrite (Z.leb_antisym new old), (Z.leb_antisym (hp_capacity_bytes st) new). by rewrite !negb_involutive.
Qed.

Lemma pages_grow_spec st c old new : pg_wf c -> u64_ok (hp_base st) -> u64_ok (hp_capacity_bytes st) -> u64_ok old -> u64_ok new ->
  let '(st', c', ok) := heap_pages_grow st c old new in
  if ok then growth_valid st old new = true /\ st' = set_mapped new st /\
    exists fs, length fs = rounds old new /\ pg_grown c c' (hp_base st + old) (page_flags (hp_nx st)) fs
  else st' = st /\ pg_same c c' /\ (growth_valid st old new = true -> growth_refused st c old new).
Proof.
  intros Hc Hb Hcap Ho Hn. unfold heap_pages_grow. rewrite guard_valid. destruct (growth_valid st old new) eqn:Ev; cbn [negb]; cycle 1.
  { split_and!; [done|by apply pg_same_refl|done]. }
  pose proof Ev as Ev'. unfold growth_valid in Ev'. rewrite !andb_true_iff, !Z.eqb_eq, !Z.leb_le in Ev'. destruct Ev' as [[[[[[[_ _] Hv] _] Hle] Hcp] Hoa] Hna].
  apply valid_interval_spec in Hv as (_ & Hba & _ & Hlo & Hhi); [|done|done].
  assert (new = old + 4096 * Z.of_nat (rounds old new)) as En by (unfold rounds, MEMORY_PAGE_SIZE; dlia). set (n := rounds old new) in *.
  assert (VMM_DYNAMIC_BASE <= hp_base st) as Hlo' by (unfold VMM_TEST_SIZE in Hlo; lia).
  assert (hp_base st + old + 4096 * Z.of_nat n <= VMM_DYNAMIC_BASE + VMM_DYNAMIC_SIZE) as Hin by lia.
  pose proof (range_unmapped_spec st c old n 0) as Hr. cbn [Nat.add Z.of_nat] in Hr. rewrite Z.mul_0_r, Z.add_0_r, <- En in Hr.
  rewrite Hr; [|unfold u64_ok, VMM_DYNAMIC_BASE, VMM_DYNAMIC_SIZE, UINT64_MAX in *; change (Z.shiftl 1 39) with (2 ^ 39) in *; lia|done|apply Ho|apply Hb].
  assert (u64_ok (page_flags (hp_nx st))) as Hfl by (unfold page_flags; destruct (hp_nx st); vm_compute; split; discriminate).
  destruct (forallb _ _) eqn:Ef; cbn [negb].
  - pose proof (grow_from_spec st old (page_flags (hp_nx st)) (proj1 Ho) Hba Hoa Hlo' Hfl c Hc n [] c (grown_nil _ _ _ Hc)) as Hg. cbn [length Nat.add Z.of_nat] in Hg.
    rewrite Z.mul_0_r, Z.add_0_r, <- En in Hg. specialize (Hg ltac:(lia)). destruct (grow_from _ _ _ _ _ _ _) as [[st' c'] [|]]; [by destruct Hg|].
    destruct Hg as (? & ? & Hg). split_and!; [done|done|]. intros _. by right.
  - split_and!; [done|by apply pg_same_refl|]. intros _. left. apply not_true_iff_false in Ef. rewrite forallb_forall in Ef.
    destruct (existsb (fun j => negb (page_absent c (hp_base st + old + 4096 * Z.of_nat j))) (seq 0 n)) eqn:Ex.
    + apply existsb_exists in Ex as (j & Hj & Hx%negb_true_iff). eexists. split; [|done]. apply list_elem_of_fmap. exists j. split; [done|by apply list_elem_of_In].
    + destruct Ef. intros j Hj. apply not_true_iff_false in Ex. rewrite existsb_exists in Ex. destruct (page_absent _ _) eqn:E; [done|]. destruct Ex. exists j. by rewrite E.
Qed.
End laws.
