(* ===== verification/KernelPages.v ===== *)
(** * The kernel's address space: laws

    The callbacks of vmm.c meet the contract of the page-table code, so an
    invariant of the kernel's tree is kept by every call, and the calls of
    vmm.c and pmm.c meet the contract of heap_pages.h: the callbacks of heap.c
    and thread_stack.c are an instance of it. *)

From S2P Require Import Prelude MemoryHelpers MemoryMap VmmCore VmmMap VmmSpec Frames KernelVm HeapPages.
Open Scope Z_scope.

Section pages.
Context {P : Type} `{PageFrames P}.
Notation M := (vm (kstate P)).

(** ** The callbacks of heap.c and thread_stack.c *)

Definition set_kframes (p : P) (m : M) : M := MkVm (with_kframes p (vm_ctx m)) (vm_mem m).

Definition allocate_page (m : M) : M * option Z := let (p, r) := pmm_alloc_page (kframes m) in (set_kframes p m, r).
Definition release_frame_page (m : M) (phys : Z) : M * bool := let (p, ok) := pmm_free_page (kframes m) phys in (set_kframes p m, ok).
Definition zero_page (m : M) (phys : Z) : M * bool :=
  match memory_phys_to_virt (kframes m) phys MEMORY_PAGE_SIZE with
  | None => (m, false)
  | Some _ => (MkVm (vm_ctx m) (mem_clear (vm_mem m) phys), true)
  end.

#[export] Instance kernel_pages : PageOps M := {|
  pg_alloc := allocate_page;
  pg_free := release_frame_page;
  pg_zero := zero_page;
  pg_map := vmm_map_page;
  pg_query := vmm_query_page;
  pg_unmap := vmm_unmap_page
|}.
End pages.

Section laws.
Context {P : Type} `{PageFramesLaws P}.
Notation M := (vm (kstate P)).

Definition kloose (c : kstate P) (g : Z) : Prop := u64_ok g /\ pmm_is_allocated_page (ks_frames c) g = true.

#[export] Program Instance kernel_laws : VmmOpsLaws (kstate P) := {|
  op_wf := fun c => pf_wf (ks_frames c) /\ ks_panic c = false;
  op_owned := fun c => pf_used (ks_frames c);
  op_loose := kloose
|}.
Next Obligation. intros c f [Hc _] [Hf Ha]. by apply pf_used_allocated. Qed.
Next Obligation.
  intros c c' r [Hc Hp]. cbn. unfold vmm_table_allocate. destruct (pmm_alloc_page (ks_frames c)) as [p q] eqn:E. intros [= <- <-].
  destruct (pf_alloc _ _ _ Hc E) as (Hc' & _ & Hf & Ha & Ht). pose proof (pf_alloc_used _ _ _ Hc E) as Hu. split_and!; [done|done| |].
  - intros f Eq. destruct (Hf f Eq) as (Hfu & _). split; [done|]. by apply Hu.
  - intros g. destruct (Hu g) as [_ Hg]. cbn. split_and!; [done| |by intros; apply Ht]. unfold kloose. cbn. split.
    + intros [Hgu Hg']. rewrite Ha, orb_true_iff, bool_decide_eq_true in Hg' by done. by destruct Hg'; [left|right].
    + intros [[Hgu Hg']| ->]; [by rewrite Ha, Hg' by done|]. destruct (Hf g eq_refl) as (Hgu & _). by rewrite Ha, bool_decide_eq_true_2, orb_true_r by done.
Qed.
Next Obligation.
  intros c f [Hc Hp] [Hf Ha]. cbn. unfold vmm_table_release. pose proof (pf_free _ _ Hc Hf) as Hx. pose proof (pf_free_used _ _ Hc Hf Ha) as Hu.
  destruct (pmm_free_page (ks_frames c) f) as [p ok]. destruct Hx as (Hc' & _ & -> & Hal & Ht). rewrite Ha. cbn in *. split_and!; [done|done|].
  intros g. split_and!; [apply Hu| |by intros; apply Ht]. unfold kloose. cbn. split.
  - intros [Hgu Hg']. rewrite Hal, andb_true_iff, negb_true_iff, Z.eqb_neq in Hg' by done. tauto.
  - intros [[Hgu Hg'] Hne]. rewrite Hal, Hg' by done. split; [done|]. cbn. lia.
Qed.
Next Obligation.
  intros c f [Hc Hp] [Hf Ha]. cbn. unfold vmm_table_commit. pose proof (pf_pin _ _ Hc Hf) as Hx.
  destruct (pmm_pin_page (ks_frames c) f) as [p ok]. destruct Hx as (Hc' & _ & -> & Hal & Ht & Hu). rewrite Ha. cbn in *. split_and!; [done|done|].
  intros g. split_and!; [apply Hu| |apply Ht]. unfold kloose. cbn. split.
  - intros [Hgu Hg']. rewrite Hal, andb_true_iff, negb_true_iff, Z.eqb_neq in Hg' by done. tauto.
  - intros [[Hgu Hg'] Hne]. rewrite Hal, Hg' by done. split; [done|]. cbn. lia.
Qed.
Next Obligation. intros c v [Hc Hp]. cbn. split_and!; try done. Qed.

(** ** The invariant: a tree whose tables nobody can free *)

Record kinv (m : M) : Prop := {
  ki_vm : vm_inv (kspace m) m;
  ki_ready : kready m = true;
  ki_tables : forall l p pre, reach (vs_physical_mask (kspace m)) (vs_root_phys (kspace m)) (vm_mem m) l p pre -> ~ kloose (vm_ctx m) p
}.

(** What stays of the statics of vmm.c: everything but the frames, the number of
    tables and what was flushed. *)
Definition kstatic (c c' : kstate P) : Prop := ks_space c' = ks_space c /\ kv_ready (ks_vmm c') = kv_ready (ks_vmm c).

Lemma kmap_static s (m : M) virt phys flags : kstatic (vm_ctx m) (vm_ctx (fst (vmm_space_map s m virt phys flags))).
Proof.
  apply map_related.
  - done.
  - intros a b c [E1 E2] [E3 E4]. split; congruence.
  - intros c. cbn. unfold vmm_table_allocate. by destruct (pmm_alloc_page _).
  - intros c f. cbn. unfold vmm_table_release. destruct (pmm_free_page _ _) as [? ok]. by destruct ok.
  - intros c f. cbn. unfold vmm_table_commit. destruct (pmm_pin_page _ _) as [? ok]. by destruct ok.
  - done.
Qed.

Lemma kunmap_static s (m : M) virt : kstatic (vm_ctx m) (vm_ctx (fst (vmm_space_unmap s m virt))).
Proof. by apply unmap_related. Qed.
Lemma kprotect_static s (m : M) virt flags : kstatic (vm_ctx m) (vm_ctx (fst (vmm_space_protect s m virt flags))).
Proof. by apply protect_related. Qed.

(** A step that keeps the tree and its tables' owners. *)
Lemma kinv_kept m m' : kinv m -> kstatic (vm_ctx m) (vm_ctx m') -> op_wf (vm_ctx m') ->
  (forall l p pre, reach (vs_physical_mask (kspace m)) (vs_root_phys (kspace m)) (vm_mem m) l p pre ->
     op_table (vm_ctx m') p = true /\ op_owned (vm_ctx m') p /\ (kloose (vm_ctx m') p -> kloose (vm_ctx m) p) /\ forall i, vm_mem m' p i = vm_mem m p i) ->
  kinv m' /\ forall a, vmm_query_page m' a = vmm_query_page m a.
Proof.
  intros K [Es Er] Hwf Hk. pose proof (ki_ready _ K) as Hrd. unfold vmm_query_page, kready, kspace in *. assert (forall l p pre, reach (vs_physical_mask (kspace m)) (vs_root_phys (kspace m)) (vm_mem m) l p pre ->
    op_table (vm_ctx m') p = true /\ op_owned (vm_ctx m') p /\ forall i, vm_mem m' p i = vm_mem m p i) as Hk' by (intros l p pre Hr; by destruct (Hk l p pre Hr) as (? & ? & _ & ?)).
  split; [|intros a; rewrite Es, Er, Hrd; apply (frame_query _ m (ki_vm _ K) m' Hwf Hk')]. constructor; unfold kspace, kready in *.
  - rewrite Es. apply (frame_inv _ m (ki_vm _ K) m' Hwf Hk').
  - rewrite Er. apply K.
  - rewrite Es. intros l p pre Hr%(frame_reach _ m (ki_vm _ K) m' Hwf Hk') Hl. destruct (Hk _ _ _ Hr) as (_ & _ & Hb & _). by apply (ki_tables _ K _ _ _ Hr), Hb.
Qed.

(** A frame in somebody's hands that is not a table of the kernel. *)
Definition kdata (m : M) (g : Z) : Prop :=
  pf_used (kframes m) g /\ forall l pre, ~ reach (vs_physical_mask (kspace m)) (vs_root_phys (kspace m)) (vm_mem m) l g pre.

Lemma loose_data m g : kinv m -> kloose (vm_ctx m) g -> kdata m g.
Proof.
  intros K Hg. split; [|by intros l pre Hr; apply (ki_tables _ K _ _ _ Hr)]. destruct (vi_ctx _ _ (ki_vm _ K)) as [Hw _]. destruct Hg. by apply pf_used_allocated.
Qed.

(** What a call leaves: the frames of other people, and what they hold. *)
Record kstep (m m' : M) : Prop := {
  kt_inv : kinv m';
  kt_static : kstatic (vm_ctx m) (vm_ctx m');
  kt_loose : forall g, kloose (vm_ctx m') g <-> kloose (vm_ctx m) g;
  kt_data : forall g, kdata m g -> kdata m' g /\ forall i, vm_mem m' g i = vm_mem m g i
}.

Lemma kstep_refl m : kinv m -> kstep m m.
Proof. by constructor. Qed.

Lemma ready_query m a : kinv m -> vmm_query_page m a = vmm_space_query (kspace m) m a.
Proof. intros K. unfold vmm_query_page. by rewrite (ki_ready _ K). Qed.

Lemma static_query m m' a : kinv m -> kstatic (vm_ctx m) (vm_ctx m') -> vmm_query_page m' a = vmm_space_query (kspace m) m' a.
Proof.
  intros K [Es Er]. unfold vmm_query_page, kready. rewrite Er. fold (kready m). rewrite (ki_ready _ K). unfold kspace. by rewrite Es.
Qed.

Lemma kept_step m m' : kinv m -> kstatic (vm_ctx m) (vm_ctx m') -> vm_inv (kspace m) m' ->
  (forall g, (pf_used (kframes m) g -> pf_used (kframes m') g) /\ (kloose (vm_ctx m') g <-> kloose (vm_ctx m) g)) ->
  data_kept (kspace m) m m' /\ tables_kept (kspace m) m m' -> kstep m m'.
Proof.
  intros K St Hi Hs [Hd Hre]. pose proof St as [Es Er]. constructor; [|done|apply Hs|].
  - constructor; unfold kspace, kready.
    + by rewrite Es.
    + rewrite Er. apply K.
    + rewrite Es. intros l p pre Hr Hl%Hs. destruct (Hre _ _ _ Hr) as [Hr'|Hn]; [by apply (ki_tables _ K _ _ _ Hr')|]. apply Hn, law_loose; [apply K|done].
  - intros g [Hu Hn]. split; [|intros i; by apply Hd]. split; [by apply Hs|]. unfold kspace. rewrite Es. intros l pre Hr. by destruct (Hre _ _ _ Hr) as [?%Hn|?].
Qed.

(** A page whose first byte is not mapped is not mapped at all. *)
Lemma page_unmapped m virt a : kinv m -> u64_ok a -> a / 4096 = virt / 4096 ->
  vmm_space_query (kspace m) m virt = Some unmapped -> vmm_space_query (kspace m) m a = Some unmapped.
Proof.
  intros K Ha E. pose proof (ki_vm _ K) as Hi. destruct (memory_is_canonical virt) eqn:Hc; cycle 1.
  { unfold vmm_space_query, walk. by rewrite Hc, orb_true_r. }
  destruct (walk_facts _ m Hi virt Hc) as (t & l & v & w & u & nx & Hw & Hp & Hl & _). rewrite !query_canonical, Hc, (canonical_page virt a) by done.
  rewrite (pure_walk_same _ (vm_mem m) a virt), Hp; [|lia|rewrite Hp; cbn; lia|].
  - unfold mapping_of. cbn [wr_missing wr_level wr_value]. by destruct (present v).
  - rewrite Hp. cbn [wr_level]. unfold vprefix. by rewrite (vpn_same _ _ E).
Qed.

Lemma kmap_spec m virt phys flags : kinv m -> u64_ok virt -> u64_ok phys -> u64_ok flags ->
  let r := vmm_map_page m virt phys flags in
  kstep m (fst r) /\
  if snd r then
    dynamic_address virt = true /\ virt mod 4096 = 0 /\ kloose (vm_ctx m) phys /\ Z.land flags VMM_FOREIGN_FLAGS = 0 /\
    (forall a, u64_ok a -> a / 4096 = virt / 4096 -> vmm_query_page m a = Some unmapped) /\
    forall a, u64_ok a -> vmm_query_page (fst r) a =
      if a / 4096 =? virt / 4096 then Some (MkMapping true (phys + a mod 4096) flags 4096) else vmm_query_page m a
  else forall a, vmm_query_page (fst r) a = vmm_query_page m a.
Proof.
  intros K Hv Hp Hf r. unfold r, vmm_map_page. destruct (kready m && _ && _ && _ && _) eqn:Eg; cbn [fst snd]; cycle 1.
  { split; [by apply kstep_refl|done]. }
  rewrite !andb_true_iff, Z.eqb_eq in Eg. destruct Eg as [[[[_ Hdy] _] Hal] Hfo].
  pose proof (ki_vm _ K) as Hi. destruct (map_spec _ m Hi virt phys flags Hv Hp Hf) as [Hyes Hno]. pose proof (kmap_static (kspace m) m virt phys flags) as St.
  set (q := vmm_space_map (kspace m) m virt phys flags) in *. destruct (snd q) eqn:E.
  - destruct (Hyes eq_refl) as (_ & _ & Hm & Hun & fs & Hi' & _ & Hq & Hd & _ & _ & _ & Hg). split.
    + apply kept_step; try done. intros g. destruct (Hg g) as (Ho & Hl & _). split; [intros; apply Ho; by left|done].
    + split_and!; try done.
      * intros a Ha Ea. rewrite ready_query by done. by apply (page_unmapped m virt).
      * intros a Ha. rewrite (static_query m), (ready_query m) by done. by apply Hq.
  - destruct (Hno eq_refl) as (Hw & Hs & Hmem). pose proof (kept_frame _ m Hi (fst q) Hs Hmem) as Hk. split.
    + apply kept_step; try done.
      * by apply (frame_inv _ m Hi).
      * intros g. destruct (Hs g) as (Ho & Hl & _). split; [apply Ho|done].
      * split; [intros p i Ho _; by apply Hmem|]. intros l p pre Hr. left. by apply (frame_reach _ m Hi (fst q) Hw Hk).
    + intros a. rewrite (static_query m), (ready_query m) by done. by apply (frame_query _ m Hi).
Qed.

Lemma kunmap_spec m virt : kinv m -> u64_ok virt ->
  let r := vmm_unmap_page m virt in
  snd r = dynamic_address virt && (virt mod 4096 =? 0) && page_mapped (kspace m) m virt /\ kstep m (fst r) /\
  forall a, u64_ok a -> vmm_query_page (fst r) a = if snd r && (a / 4096 =? virt / 4096) then Some unmapped else vmm_query_page m a.
Proof.
  intros K Hv r. unfold r, vmm_unmap_page. rewrite (ki_ready _ K). cbn [andb]. destruct (dynamic_address virt); cbn [andb fst snd]; cycle 1.
  { split_and!; [done|by apply kstep_refl|done]. }
  pose proof (ki_vm _ K) as Hi. destruct (unmap_spec _ m Hi virt Hv) as (Hok & Hno & Hyes). pose proof (kunmap_static (kspace m) m virt) as St.
  set (q := vmm_space_unmap (kspace m) m virt) in *. split; [done|]. destruct (snd q) eqn:E; cbn [andb].
  - destruct (Hyes eq_refl) as (Hi' & _ & Hs & Hd & Hq). split.
    + apply kept_step; try done. intros g. destruct (Hs g) as (Ho & Hl & _). split; [apply Ho|done].
    + intros a Ha. rewrite (static_query m), (ready_query m) by done. by apply Hq.
  - rewrite (Hno eq_refl). split; [by apply kstep_refl|done].
Qed.

Lemma kprotect_spec m virt flags : kinv m -> u64_ok virt -> u64_ok flags ->
  let r := vmm_protect_page m virt flags in
  kstep m (fst r) /\
  (snd r = true -> dynamic_address virt = true /\ Z.land flags VMM_FOREIGN_FLAGS = 0 /\ page_mapped (kspace m) m virt = true) /\
  forall a, u64_ok a -> vmm_query_page (fst r) a =
    if snd r && (a / 4096 =? virt / 4096) then
      (fun mp => MkMapping true (vp_physical mp) (protected (vp_flags mp) flags) 4096) <$> vmm_query_page m a
    else vmm_query_page m a.
Proof.
  intros K Hv Hf r. unfold r, vmm_protect_page. rewrite (ki_ready _ K). cbn [andb]. destruct (dynamic_address virt && _) eqn:Eg; cbn [fst snd]; cycle 1.
  { split_and!; [by apply kstep_refl|done|done]. }
  rewrite andb_true_iff, Z.eqb_eq in Eg. destruct Eg as [Hdy Hfo].
  pose proof (ki_vm _ K) as Hi. destruct (protect_spec _ m Hi virt flags Hv Hf) as (Hok & Hno & Hyes). pose proof (kprotect_static (kspace m) m virt flags) as St.
  set (q := vmm_space_protect (kspace m) m virt flags) in *. destruct (snd q) eqn:E; cbn [andb].
  - destruct (Hyes eq_refl) as (Hi' & _ & Hs & Hd & Hq). split_and!.
    + apply kept_step; try done. intros g. destruct (Hs g) as (Ho & Hl & _). split; [apply Ho|done].
    + intros _. symmetry in Hok. rewrite !andb_true_iff in Hok. tauto.
    + intros a Ha. rewrite (static_query m), (ready_query m) by done. by apply Hq.
  - rewrite (Hno eq_refl). split_and!; [by apply kstep_refl|done|done].
Qed.

(** ** Frames *)

Lemma kalloc_spec m m' r : kinv m -> allocate_page m = (m', r) ->
  kinv m' /\ (forall a, vmm_query_page m' a = vmm_query_page m a) /\
  (forall f, r = Some f -> u64_ok f /\ f mod 4096 = 0 /\ f < 2 ^ 52 /\ ~ kloose (vm_ctx m) f) /\
  (forall g, kloose (vm_ctx m') g <-> kloose (vm_ctx m) g \/ r = Some g) /\ vm_mem m' = vm_mem m.
Proof.
  intros K. unfold allocate_page. destruct (pmm_alloc_page (kframes m)) as [p q] eqn:E. intros [= <- <-]. destruct (vi_ctx _ _ (ki_vm _ K)) as [Hc Hp].
  destruct (law_alloc (vm_ctx m) (with_kframes p (vm_ctx m)) q (vi_ctx _ _ (ki_vm _ K))) as (Hw & Hf & Hg); [cbn; unfold vmm_table_allocate; fold (kframes m); by rewrite E|].
  destruct (kinv_kept m (set_kframes p m) K) as [K' Q']; [done|done| |].
  { intros l t pre Hr. destruct (vi_table _ _ (ki_vm _ K) _ _ _ Hr) as [Ht Ho]. destruct (Hg t) as (Ho' & Hl' & Ht'). cbn [set_kframes vm_ctx vm_mem].
    rewrite Ht' by done. split_and!; [done|apply Ho'; by left| |done]. intros [|Eq]%Hl'; [done|]. by destruct (Hf t Eq) as [_ []]. }
  split_and!; [done|done| |intros g; apply (Hg g)|done]. intros f Eq. destruct (pf_alloc _ _ _ Hc E) as (Hc' & _ & Hff & Ha & _).
  destruct (Hff f Eq) as (Hfu & Hfm & Hna). split_and!; [done|done| |].
  - pose proof (pf_low p f Hc' Hfu). rewrite Ha, bool_decide_eq_true_2, orb_true_r in H1 by done. specialize (H1 eq_refl). lia.
  - intros [_ Hb]. unfold kframes in Hna. congruence.
Qed.

Lemma kfree_spec m m' f ok : kinv m -> kloose (vm_ctx m) f -> release_frame_page m f = (m', ok) ->
  ok = true /\ kinv m' /\ (forall a, vmm_query_page m' a = vmm_query_page m a) /\
  (forall g, kloose (vm_ctx m') g <-> kloose (vm_ctx m) g /\ g <> f) /\ vm_mem m' = vm_mem m.
Proof.
  intros K Hl. unfold release_frame_page. destruct (pmm_free_page (kframes m) f) as [p q] eqn:E. intros [= <- <-].
  destruct (law_free (vm_ctx m) f (vi_ctx _ _ (ki_vm _ K)) Hl) as [Hw Hg]. cbn in Hw, Hg. unfold vmm_table_release in Hw, Hg. fold (kframes m) in Hw, Hg. rewrite E in Hw, Hg.
  destruct Hl as [Hfu Hfa]. destruct (vi_ctx _ _ (ki_vm _ K)) as [Hc Hp]. pose proof (pf_free _ _ Hc Hfu) as Hx. fold (kframes m) in Hx. rewrite E in Hx.
  destruct Hx as (_ & _ & -> & _). unfold kframes in Hw, Hg. rewrite Hfa in Hw, Hg. cbn [negb] in Hw, Hg. split; [done|].
  destruct (kinv_kept m (set_kframes p m) K) as [K' Q']; [done|done| |].
  { intros l t pre Hr. destruct (vi_table _ _ (ki_vm _ K) _ _ _ Hr) as [Ht Ho]. destruct (Hg t) as (Ho' & Hl' & Ht'). cbn [set_kframes vm_ctx vm_mem].
    assert (t <> f) by (intros ->; by apply (ki_tables _ K _ _ _ Hr)). cbn in Ht'. split_and!; [by rewrite <- Ht; apply Ht'|by apply Ho'|by intros [? _]%Hl'|done]. }
  split_and!; [done|done|intros g; apply (Hg g)|done].
Qed.

Lemma kzero_spec m m' f ok : kinv m -> kloose (vm_ctx m) f -> zero_page m f = (m', ok) ->
  ok = true /\ kinv m' /\ (forall a, vmm_query_page m' a = vmm_query_page m a) /\ vm_ctx m' = vm_ctx m /\ vm_mem m' = mem_clear (vm_mem m) f.
Proof.
  intros K Hl. pose proof (vi_ctx _ _ (ki_vm _ K)) as Hw. destruct Hw as [Hc Hp]. pose proof Hl as [Hfu Hfa]. unfold zero_page, kframes.
  rewrite (pf_direct _ f f MEMORY_PAGE_SIZE Hc Hfu Hfa) by (unfold MEMORY_PAGE_SIZE; lia). intros [= <- <-]. split; [done|].
  destruct (kinv_kept m (MkVm (vm_ctx m) (mem_clear (vm_mem m) f)) K) as [K' Q']; [done|done| |done].
  intros l t pre Hr. destruct (vi_table _ _ (ki_vm _ K) _ _ _ Hr) as [Ht Ho]. split_and!; [done|done|done|]. intros i. cbn [vm_mem]. unfold mem_clear.
  destruct (Z.eqb_spec t f) as [-> |]; [|done]. by destruct (ki_tables _ K _ _ _ Hr).
Qed.

#[export] Program Instance kernel_page_laws : PageOpsLaws M := {|
  pg_wf := kinv;
  pg_held := fun m => kloose (vm_ctx m);
  pg_word := vm_mem;
  pg_serves := fun virt => dynamic_address virt = true
|}.
Next Obligation.
  intros m m' r K E. destruct (kalloc_spec m m' r K E) as (K' & Q & Hf & Hg & Hm). split_and!; try done; [intros a _; apply Q|]. intros g i _. cbn. by rewrite Hm.
Qed.
Next Obligation.
  intros m m' f ok K Hl E. destruct (kfree_spec m m' f ok K Hl E) as (Hok & K' & Q & Hg & Hm). split_and!; try done; [intros a _; apply Q|]. intros g i _ _. cbn. by rewrite Hm.
Qed.
Next Obligation.
  intros m m' f ok K Hl E. destruct (kzero_spec m m' f ok K Hl E) as (-> & K' & Q & Hg & Hm). rewrite Hg. split_and!; try done; [intros a _; apply Q|]. intros g i _. cbn. by rewrite Hm.
Qed.
Next Obligation.
  intros m m' virt phys flags ok K [Hpu Ha] Hv Hf E. pose proof (kmap_spec m virt phys flags K Hv Hpu Hf) as Hs. cbn in E. rewrite E in Hs. destruct Hs as [S Hs]. cbn [fst snd] in *.
  split_and!; [apply S|apply S| |].
  - intros g i Hg. by apply (kt_data _ _ S), loose_data.
  - destruct ok; [|intros a _; apply Hs]. destruct Hs as (? & _ & _ & _ & ? & ?). by split_and!.
Qed.
Next Obligation.
  intros m m' virt mp ok K Hs Hv Hal Hq Hmp Hsz E. pose proof (kunmap_spec m virt K Hv) as Hx. cbn in E. rewrite E in Hx. destruct Hx as (Hok & S & Q). cbn [fst snd] in *.
  cbn in Hq. rewrite ready_query in Hq by done. assert (ok = true) as Ho.
  { rewrite Hok, Hs, Hal. unfold page_mapped. rewrite Hq, Hmp, Hsz. done. }
  rewrite Ho in *. split_and!; [done|apply S|apply S| |done]. intros g i Hg. by apply (kt_data _ _ S), loose_data.
Qed.
End laws.
