(* ===== verification/KernelVmProps.v ===== *)
(** * The kernel's address space: properties

    Calls of vmm.c stay within the dynamic region, for any arguments and in any
    order, and growing a page-backed interval is a transaction.  The instances
    are a machine of sixty-four frames whose kernel tree is empty. *)

From S2P Require Import Prelude MemoryHelpers MemoryMap Hhdm PmmCore PmmProps VmmCore VmmMap VmmSpec VmmTrace.
From S2P Require Import Frames KernelVm HeapPages KernelPages PmmFrames.
Open Scope Z_scope.

(** The calls that change the kernel's half. *)
Inductive kernel_op :=
  | KMap (virt phys flags : Z)
  | KUnmap (virt : Z)
  | KProtect (virt flags : Z).
Definition kernel_args (op : kernel_op) : Prop :=
  match op with
  | KMap v p f => u64_ok v /\ u64_ok p /\ u64_ok f
  | KUnmap v => u64_ok v
  | KProtect v f => u64_ok v /\ u64_ok f
  end.

Section props.
Context {P : Type} `{PageFramesLaws P}.
Notation M := (vm (kstate P)).

Definition kernel_apply (m : M) (op : kernel_op) : M * bool :=
  match op with
  | KMap v p f => vmm_map_page m v p f
  | KUnmap v => vmm_unmap_page m v
  | KProtect v f => vmm_protect_page m v f
  end.
Definition kernel_run (m : M) (ops : list kernel_op) : M := foldl (fun m op => fst (kernel_apply m op)) m ops.

Lemma dynamic_same a virt : u64_ok a -> u64_ok virt -> a / 4096 = virt / 4096 -> dynamic_address a = dynamic_address virt.
Proof.
  unfold dynamic_address, VMM_DYNAMIC_BASE, VMM_DYNAMIC_SIZE, UTAMO_MMIO_BASE, UTAMO_MMIO_SIZE. change (Z.shiftl 1 39) with (2 ^ 39). intros Ha Hv E.
  assert (forall b n x, 0 <= b -> b < 2 ^ 64 -> u64_ok x -> (b <=? x) && (x -u b <? n) = (b <=? x) && (x - b <? n)) as Hw.
  { intros b n x Hb Hb' Hx. destruct (Z.leb_spec b x); [|done]. by rewrite u64_small by (unfold u64_ok in *; lia). }
  rewrite !Hw by (done || lia). unfold u64_ok in *.
  assert (forall b n, b mod 4096 = 0 -> n mod 4096 = 0 -> (b <=? a) && (a - b <? n) = (b <=? virt) && (virt - b <? n)) as Hs.
  { intros b n Hb Hn. apply eq_true_iff_eq. rewrite !andb_true_iff, !Z.leb_le, !Z.ltb_lt. split; intros []; dlia. }
  by rewrite !Hs.
Qed.

(** A page of the dynamic region as the calls leave it: for the kernel alone, and
    cached as memory is. *)
Definition supervisor_page (mp : vmm_mapping) : Prop :=
  vp_mapped mp = true /\ vp_page_size mp = 4096 /\ Z.land (vp_flags mp) VMM_FOREIGN_FLAGS = 0.

(** What a translation may become. *)
Definition query_step (a : Z) (q q' : option vmm_mapping) : Prop :=
  q' = q \/ (dynamic_address a = true /\ (q' = Some unmapped \/ exists mp, q' = Some mp /\ supervisor_page mp)).

Lemma foreign_protected v f : Z.land f VMM_FOREIGN_FLAGS = 0 -> Z.land (protected v f) VMM_FOREIGN_FLAGS = 0.
Proof.
  intros Hf. unfold protected. rewrite Z.land_lor_distr_l, Hf, Z.lor_0_r, <- Z.land_assoc. change (Z.land (not64 VMM_PERMISSION_MASK) VMM_FOREIGN_FLAGS) with 0. apply Z.land_0_r.
Qed.

Lemma apply_spec m op : kinv m -> kernel_args op ->
  kstep m (fst (kernel_apply m op)) /\ forall a, u64_ok a -> query_step a (vmm_query_page m a) (vmm_query_page (fst (kernel_apply m op)) a).
Proof.
  intros K. destruct op as [v p f|v|v f]; cbn [kernel_apply kernel_args].
  - intros (Hv & Hp & Hf). destruct (kmap_spec m v p f K Hv Hp Hf) as [S Hq]. split; [done|]. intros a Ha. destruct (snd (vmm_map_page m v p f)); [|left; apply Hq].
    destruct Hq as (Hd & _ & _ & Hfl & _ & Hq). rewrite Hq by done. destruct (Z.eqb_spec (a / 4096) (v / 4096)) as [E|]; [right|by left]. split; [by rewrite (dynamic_same a v)|].
    right. eexists. split; [done|]. by split_and!.
  - intros Hv. destruct (kunmap_spec m v K Hv) as (Hok & S & Hq). split; [done|]. intros a Ha. rewrite Hq by done. destruct (snd _) eqn:E; cbn [andb]; [|by left].
    symmetry in Hok. rewrite !andb_true_iff in Hok. destruct Hok as [[Hd _] _]. destruct (Z.eqb_spec (a / 4096) (v / 4096)); [right|by left]. split; [by rewrite (dynamic_same a v)|by left].
  - intros (Hv & Hf). destruct (kprotect_spec m v f K Hv Hf) as (S & Hok & Hq). split; [done|]. intros a Ha. rewrite Hq by done. destruct (snd _) eqn:E; cbn [andb]; [|by left].
    destruct (Hok eq_refl) as (Hd & Hfl & _). destruct (Z.eqb_spec (a / 4096) (v / 4096)); [|by left]. destruct (vmm_query_page m a) as [mp|]; [|by left]. right. split; [by rewrite (dynamic_same a v)|].
    right. eexists. split; [done|]. split_and!; [done|done|by apply foreign_protected].
Qed.

Lemma kstep_trans m1 m2 m3 : kstep m1 m2 -> kstep m2 m3 -> kstep m1 m3.
Proof.
  intros S1 S2. constructor; [apply S2| | |].
  - destruct (kt_static _ _ S1), (kt_static _ _ S2). split; congruence.
  - intros g. by rewrite (kt_loose _ _ S2), (kt_loose _ _ S1).
  - intros g Hg. destruct (kt_data _ _ S1 g Hg) as [H1 E1]. destruct (kt_data _ _ S2 g H1) as [H2 E2]. split; [done|]. intros i. by rewrite E2, E1.
Qed.

Lemma query_step_trans a q1 q2 q3 : query_step a q1 q2 -> query_step a q2 q3 -> query_step a q1 q3.
Proof. intros H1 [-> |H2]; [done|by right]. Qed.

Lemma run_spec ops : forall m, kinv m -> Forall kernel_args ops ->
  kstep m (kernel_run m ops) /\ forall a, u64_ok a -> query_step a (vmm_query_page m a) (vmm_query_page (kernel_run m ops) a).
Proof.
  induction ops as [|op ops IH]; intros m K Ho; cbn [kernel_run foldl].
  { split; [by apply kstep_refl|by left]. }
  apply Forall_cons in Ho as [Ho1 Ho]. destruct (apply_spec m op K Ho1) as [S1 Q1]. destruct (IH _ (kt_inv _ _ S1) Ho) as [S2 Q2]. split; [by eapply kstep_trans|].
  intros a Ha. by eapply query_step_trans; [apply Q1|apply Q2].
Qed.

(** C14. The kernel's mappings are confined.  Whatever pages are mapped, unmapped or
    protected through vmm.c, with whatever arguments: no address outside the
    dynamic region, and none in the window of the devices, translates
    differently; what does change is either gone or a page of the kernel alone
    with ordinary caching; no frame that is not a page table is written, none
    changes hands, and no page table can ever be freed or allocated again. *)
Theorem kernel_vm_confined (m : M) (ops : list kernel_op) : kinv m -> Forall kernel_args ops ->
  let m' := kernel_run m ops in
  kinv m' /\ ks_panic (vm_ctx m') = false /\
  (forall a, u64_ok a -> dynamic_address a = false -> vmm_query_page m' a = vmm_query_page m a) /\
  (forall a mp, u64_ok a -> vmm_query_page m' a = Some mp -> vmm_query_page m a = Some mp \/ mp = unmapped \/ supervisor_page mp) /\
  (forall g, kloose (vm_ctx m') g <-> kloose (vm_ctx m) g) /\
  (forall g i, kdata m g -> vm_mem m' g i = vm_mem m g i) /\
  (forall l p pre, reach (vs_physical_mask (kspace m')) (vs_root_phys (kspace m')) (vm_mem m') l p pre -> ~ kloose (vm_ctx m') p /\ pf_used (kframes m') p).
Proof.
  intros K Ho m'. destruct (run_spec ops m K Ho) as [S Q]. fold m' in S, Q. pose proof (kt_inv _ _ S) as K'. split_and!; [done|apply (vi_ctx _ _ (ki_vm _ K'))| | |apply S| |].
  - intros a Ha Hd. destruct (Q a Ha) as [|[Hd' _]]; congruence.
  - intros a mp Ha Eq. destruct (Q a Ha) as [E|(_ & [E|(mp' & E & Hs)])]; [left|right; left|right; right]; congruence.
  - intros g i Hg. by apply (kt_data _ _ S).
  - intros l p pre Hr. split; [by apply (ki_tables _ K' _ _ _ Hr)|]. by apply (vi_table _ _ (ki_vm _ K') _ _ _ Hr).
Qed.
End props.

Section pages.
Context {C : Type} `{PageOpsLaws C}.

(** C13. The growth of an interval is a transaction.  When it succeeds the request was
    within the capacity and exactly the pages between the old and the new size
    appear, zeroed, writable and not executable when the CPU can do that, each
    in a fresh frame that no other page has; nothing else is mapped, unmapped or
    written.  When it fails, what the callbacks show is as before: every page
    mapped on the way is unmapped and every frame returned; and it fails only
    on an invalid request, a page that was there already, or a callback that
    refused.  The interval is never marked corrupted. *)
Theorem heap_pages_transaction (st : heap_pages) (c : C) (old new : Z) :
  pg_wf c -> u64_ok (hp_base st) -> u64_ok (hp_capacity_bytes st) -> u64_ok old -> u64_ok new ->
  let '(st', c', ok) := heap_pages_grow st c old new in
  hp_corrupted st' = hp_corrupted st /\
  if ok then growth_valid st old new = true /\ st' = set_mapped new st /\
    exists fs, length fs = rounds old new /\ pg_grown c c' (hp_base st + old) (page_flags (hp_nx st)) fs
  else st' = st /\ pg_same c c' /\ (growth_valid st old new = true -> growth_refused st c old new).
Proof.
  intros Hc Hb Hcap Ho Hn. pose proof (pages_grow_spec st c old new Hc Hb Hcap Ho Hn) as Hg.
  destruct (heap_pages_grow st c old new) as [[st' c'] [|]]; (split; [destruct Hg as (? & ? & _); by subst st'|done]).
Qed.
End pages.

(** ** A kernel with an empty tree *)

(** A frame taken and pinned: nobody can free it or get it again. *)
Lemma pinned_root c c1 f : machine_wf c -> alloc_page c = (c1, Some f) ->
  let c2 := fst (pin_page c1 f) in machine_wf c2 /\ frame_used c2 f /\ is_allocated_page c2 f = false.
Proof.
  intros Hc E. destruct (machine_alloc c c1 _ Hc E) as (Hc1 & _ & Hf & Ha). destruct (Hf f eq_refl) as (Hu & _ & _). destruct (machine_alloc_used c c1 _ f Hc E) as [_ Hus].
  pose proof (machine_pin c1 f Hc1 Hu) as Hp. destruct (pin_page c1 f) as [c2 ok]. destruct Hp as (Hc2 & _ & _ & Hal & Hfr). cbn [fst]. split_and!; [done| |].
  - unfold frame_used. rewrite Hfr. apply Hus. by right.
  - by rewrite Hal, Z.eqb_refl, andb_false_r.
Qed.

(** The kernel of a machine whose first free frame is the third. *)
Definition bare_kernel (b : machine) : vm (kstate machine) :=
  MkVm (MkKState (MkSpace 8192 0xfffffff000 true true) (MkKernel true (MkInfo 8192 0xffff800000000000 0xffffffff80000000 0 40 true true true)) (fst (pin_page (fst (alloc_page b)) 8192)) [] false)
       (fun p _ => if p =? 8192 then 0 else 77).

Lemma bare_kinv b : machine_wf b -> snd (alloc_page b) = Some 8192 -> vmm_space_init (bare_kernel b) 8192 40 true = Some (kspace (bare_kernel b)) -> kinv (bare_kernel b).
Proof.
  intros Hb Hs Hm. destruct (pinned_root b (fst (alloc_page b)) 8192 Hb) as (Hw & Hu & Ha); [by rewrite <- Hs; destruct (alloc_page b)|].
  assert (vmm_rep (kspace (bare_kernel b)) (bare_kernel b) ∅) as Hrep.
  { apply (init_rep (bare_kernel b) 8192 40 true); [unfold u64_ok, UINT64_MAX; lia|done|by split|exact Hu|exact Hm]. }
  constructor; [apply Hrep|done|]. intros l p pre (_ & -> & _)%empty_reach [_ Hl]; [|done]. cbn in Hl. congruence.
Qed.

Module EmptyKernel.
Definition start : vm (kstate machine) := bare_kernel SixtyFour.boot.

Lemma start_kinv : kinv start.
Proof. apply bare_kinv; [apply SixtyFour.boot_wf_64|by vm_compute|by vm_compute]. Qed.

(** Two pages, one of them protected, a page that is taken away, and calls that are
    refused: outside the region, for a frame nobody has, for user code. *)
Definition frame_of (n : nat) (m : vm (kstate machine)) : vm (kstate machine) := Nat.iter n (fun m => fst (allocate_page m)) m.
Definition calls : list kernel_op :=
  [KMap 0xffffc00000400000 12288 (page_flags true); KMap 0xffffc00000401000 16384 (page_flags true); KProtect 0xffffc00000401000 VMM_PRESENT;
   KUnmap 0xffffc00000400000; KMap 0xffffffff80000000 12288 (page_flags true); KMap 0xffffc00000402000 40960 (page_flags true); KMap 0xffffc00000403000 12288 7].
End EmptyKernel.

Lemma kernel_vm_confined_witness :
  let m := EmptyKernel.frame_of 2 EmptyKernel.start in let m' := kernel_run m EmptyKernel.calls in
  vmm_query_page m' 0xffffc00000401008 = Some (MkMapping true 16392 1 4096) /\ vmm_query_page m' 0xffffc00000400000 = Some unmapped /\
  vmm_query_page m' 0xffffffff80000000 = vmm_query_page m 0xffffffff80000000 /\ ks_panic (vm_ctx m') = false.
Proof.
  assert (kinv (EmptyKernel.frame_of 2 EmptyKernel.start)) as K.
  { assert (forall m : vm (kstate machine), kinv m -> kinv (fst (allocate_page m))) as Hs.
    { intros m K. destruct (allocate_page m) as [m' r] eqn:E. by destruct (kalloc_spec m m' r K E). }
    apply Hs, Hs, EmptyKernel.start_kinv. }
  assert (Forall kernel_args EmptyKernel.calls) as Ha by (repeat constructor; by vm_compute).
  destruct (kernel_vm_confined (EmptyKernel.frame_of 2 EmptyKernel.start) EmptyKernel.calls K Ha) as (_ & Hp & Ho & _).
  split_and!; [by vm_compute|by vm_compute|apply Ho; [unfold u64_ok, UINT64_MAX; lia|by vm_compute]|exact Hp].
Defined.

Lemma heap_pages_transaction_witness :
  let st := MkPages 0xffffc00000400000 0x100000 0 true true false in
  let grown := heap_pages_grow st EmptyKernel.start 0 12288 in
  snd grown = true /\ hp_mapped_bytes (fst (fst grown)) = 12288 /\
  (exists fs, length fs = 3%nat /\ pg_grown EmptyKernel.start (snd (fst grown)) (0xffffc00000400000 + 0) (page_flags true) fs) /\
  let full := heap_pages_grow st EmptyKernel.start 0 0x100000 in
  snd full = false /\ fst (fst full) = st /\ pg_same EmptyKernel.start (snd (fst full)).
Proof.
  set (st := MkPages 0xffffc00000400000 0x100000 0 true true false). assert (forall n, 0 <= n <= UINT64_MAX -> u64_ok n) as Hu by done.
  assert (u64_ok (hp_base st) /\ u64_ok (hp_capacity_bytes st) /\ u64_ok 0 /\ u64_ok 12288 /\ u64_ok 0x100000) as (H1 & H2 & H3 & H4 & H5) by (unfold u64_ok, UINT64_MAX; cbn; lia).
  assert (snd (heap_pages_grow st EmptyKernel.start 0 12288) = true) as Ea by (vm_cast_no_check (eq_refl true)).
  assert (snd (heap_pages_grow st EmptyKernel.start 0 0x100000) = false) as Eb by (vm_cast_no_check (eq_refl false)).
  pose proof (heap_pages_transaction st EmptyKernel.start 0 12288 EmptyKernel.start_kinv H1 H2 H3 H4) as A.
  pose proof (heap_pages_transaction st EmptyKernel.start 0 0x100000 EmptyKernel.start_kinv H1 H2 H3 H5) as B.
  cbv zeta.
  destruct (heap_pages_grow st EmptyKernel.start 0 12288) as [[sa ma] oa]. destruct (heap_pages_grow st EmptyKernel.start 0 0x100000) as [[sb mb] ob].
  cbn [fst snd] in *. subst oa ob. destruct A as (_ & _ & -> & fs & Hl & G). destruct B as (_ & -> & S & _). split_and!; try done. by exists fs.
Defined.
