(* ===== verification/KernelHeap.v ===== *)
(** * The kernel heap (kernel/memory/heap.c)

    heap.c joins three components: the blocks of heap_core.c, the interval of
    heap_pages.c under them, and the pages of vmm.c and frames of pmm.c under
    that.  The growth callback of the heap is [grow_backing] ([grow_heap] of
    heap.c); the callbacks of the interval are those of KernelPages.v.  The
    static [ready] and the objects are the state.  Interrupts are disabled around
    every call, so calls do not overlap. *)

From stdpp Require Import gmap.
From S2P Require Import Prelude MemoryHelpers Bytes VmmCore VmmMap VmmSpec Frames KernelVm HeapPages KernelPages HeapCore HeapInv HeapSpec HeapStore HeapProps PmmFrames KernelVmProps.
Open Scope Z_scope.

Definition UTAMO_HEAP_BASE : Z := 0xffffc00001000000.
Definition UTAMO_HEAP_INITIAL_SIZE : Z := 65536.
Definition UTAMO_HEAP_GROWTH_SIZE : Z := 65536.
Definition UTAMO_HEAP_MAX_SIZE : Z := 67108864.

(** The static [backing] and the machine below it. *)
Record backing (P : Type) := MkBacking { bk_pages : heap_pages; bk_vm : vm (kstate P) }.
Arguments MkBacking {P}.
Arguments bk_pages {P}.
Arguments bk_vm {P}.

Section heap.
Context {P : Type} `{PageFrames P}.
Notation M := (vm (kstate P)).

Definition grow_backing (b : backing P) (old_size new_size : Z) : backing P * bool :=
  let '(pages, m, result) := heap_pages_grow (bk_pages b) (bk_vm b) old_size new_size in
  let m := if hp_corrupted pages then MkVm (vmm_panic (vm_ctx m)) (vm_mem m) else m in
  (MkBacking pages m, result).

#[export] Instance backing_ops : HeapOps (backing P) := {| op_grow := grow_backing |}.

(** [kernel_heap], the memory it manages, [backing], and [ready]. *)
Record kernel_heap := MkKernelHeap { kh_arena : arena (backing P); kh_ready : bool }.

(** The loop of [heap_init] that finds the whole range unmapped. *)
Fixpoint range_clear (fuel : nat) (m : M) (offset : Z) : bool :=
  if negb (offset <? UTAMO_HEAP_MAX_SIZE) then true
  else match fuel with
  | O => false
  | S fuel =>
      match vmm_query_page m (UTAMO_HEAP_BASE +u offset) with
      | None => false
      | Some mapping => negb (vp_mapped mapping) && range_clear fuel m (offset +u MEMORY_PAGE_SIZE)
      end
  end.
Definition range_fuel : nat := Z.to_nat (UTAMO_HEAP_MAX_SIZE / MEMORY_PAGE_SIZE).

Definition with_backing (b : backing P) (a : arena (backing P)) : arena (backing P) := MkArena (ar_heap a) (ar_mem a) b.

Definition heap_init (h : kernel_heap) : kernel_heap * bool :=
  let a := kh_arena h in
  let m := bk_vm (ar_ctx a) in
  match (if kh_ready h then None else vmm_get_info (ks_vmm (vm_ctx m))) with
  | None => (h, false)
  | Some info =>
      if negb (range_clear range_fuel m 0) then (h, false)
      else match heap_pages_init (bk_pages (ar_ctx a)) UTAMO_HEAP_BASE UTAMO_HEAP_MAX_SIZE (vinf_nx_enabled info) with
      | (pages, false) => (MkKernelHeap (with_backing (MkBacking pages m) a) (kh_ready h), false)
      | (pages, true) =>
          match grow_backing (MkBacking pages m) 0 UTAMO_HEAP_INITIAL_SIZE with
          | (b, false) => (MkKernelHeap (with_backing b a) (kh_ready h), false)
          | (b, true) =>
              match heap_core_init (with_backing b a) UTAMO_HEAP_BASE UTAMO_HEAP_INITIAL_SIZE UTAMO_HEAP_MAX_SIZE UTAMO_HEAP_GROWTH_SIZE true true with
              | (a, false) => (MkKernelHeap (with_backing (MkBacking (bk_pages b) (MkVm (vmm_panic (vm_ctx (bk_vm b))) (vm_mem (bk_vm b)))) a) (kh_ready h), false)
              | (a, true) => (MkKernelHeap a true, true)
              end
          end
      end
  end.

(** A call of heap_core.c when the heap is ready; the results are addresses, 0 for [NULL]. *)
Definition when_ready (h : kernel_heap) (f : arena (backing P) -> arena (backing P) * Z) : kernel_heap * Z :=
  if kh_ready h then let (a, r) := f (kh_arena h) in (MkKernelHeap a (kh_ready h), r) else (h, 0).
Definition kmalloc (h : kernel_heap) (bytes : Z) : kernel_heap * Z := when_ready h (fun a => heap_core_alloc a bytes).
Definition kcalloc (h : kernel_heap) (count bytes : Z) : kernel_heap * Z := when_ready h (fun a => heap_core_calloc a count bytes).
Definition krealloc (h : kernel_heap) (pointer bytes : Z) : kernel_heap * Z := when_ready h (fun a => heap_core_realloc a pointer bytes).
Definition kfree (h : kernel_heap) (pointer : Z) : kernel_heap * bool :=
  if pointer =? 0 then (h, true)
  else if kh_ready h then let (a, r) := heap_core_free (kh_arena h) pointer in (MkKernelHeap a (kh_ready h), r) else (h, false).
Definition heap_get_stats (h : kernel_heap) : option heap_stats := if kh_ready h then heap_core_get_stats (kh_arena h) else None.
Definition heap_validate (h : kernel_heap) : bool :=
  match heap_get_stats h with
  | None => false
  | Some stats => hp_mapped_bytes (bk_pages (ar_ctx (kh_arena h))) =? hs_mapped_bytes stats
  end.
End heap.

(** ** What the blocks do to the callback's state

    A property of that state and the mapped size survives every call of
    heap_core.c if the growth callback preserves it. *)

Section carried.
Context {C : Type} `{HeapOps C} (base : Z) (I : C -> Z -> Prop).
Hypothesis Hgrow : forall c n new, I c n -> u64_ok new -> I (fst (op_grow c n new)) (if snd (op_grow c n new) then new else n).
Implicit Types a : arena C.

Definition carried a : Prop := I (ar_ctx a) (hc_mapped_size (ar_heap a)) /\ hc_base (ar_heap a) = base.
(** Steps that neither grow nor touch the callback. *)
Definition quiet a a' : Prop := ar_ctx a' = ar_ctx a /\ hc_mapped_size (ar_heap a') = hc_mapped_size (ar_heap a) /\ hc_base (ar_heap a') = hc_base (ar_heap a).

Lemma quiet_carried a a' : quiet a a' -> carried a -> carried a'.
Proof. unfold carried. by intros (-> & -> & ->). Qed.

Lemma still_trans a a1 a2 : quiet a a1 -> quiet a1 a2 -> quiet a a2.
Proof. intros (E1 & E2 & E3) (E4 & E5 & E6). split_and!; congruence. Qed.

Lemma quiet_store f o v a a1 : quiet a a1 -> quiet a (store f o v a1).
Proof. done. Qed.

Lemma quiet_remove a o : quiet a (remove_free a o).
Proof. unfold remove_free. by do 2 case_match. Qed.
Lemma quiet_insert a o : quiet a (insert_free a o).
Proof. unfold insert_free. by repeat case_match. Qed.
Lemma quiet_following a o n : quiet a (following_previous a o n).
Proof. unfold following_previous. by case_match. Qed.
Lemma quiet_poison a o : quiet a (poison_free a o).
Proof. unfold poison_free. by case_match. Qed.
Lemma quiet_write a o n p r u : quiet a (write_block a o n p r u).
Proof. done. Qed.

Lemma quiet_trim a o n : quiet a (trim_block a o n).
Proof.
  unfold trim_block. case_match; [done|]. eapply still_trans; [|apply quiet_poison]. eapply still_trans; [|apply quiet_insert]. eapply still_trans; [|apply quiet_following].
  eapply still_trans; [|apply quiet_write]. apply quiet_store. case_match; [apply quiet_remove|done].
Qed.

Lemma quiet_release a o : quiet a (release a o).
Proof.
  unfold release. set (a1 := with_heap _ (with_heap _ a)). assert (quiet a a1) as H1 by done. clearbody a1. set (b := negb _ && negb _). clearbody b.
  set (a2 := if b then remove_free a1 _ else a1). assert (quiet a a2) as H2 by (unfold a2; destruct b; [eapply still_trans; [done|apply quiet_remove]|done]). clearbody a2.
  destruct (if b then _ else _) as [[size off] previous]. eapply still_trans; [|apply quiet_poison]. eapply still_trans; [|apply quiet_insert]. eapply still_trans; [|apply quiet_following].
  eapply still_trans; [|apply quiet_write]. case_match; [|done]. eapply still_trans; [done|apply quiet_remove].
Qed.

Lemma quiet_failed a : quiet a (failed_allocation a).
Proof. unfold failed_allocation. by case_match. Qed.

Lemma quiet_finish a o q s : quiet a (resize_finish a o q s).
Proof.
  unfold resize_finish. set (a1 := if _ <? _ then with_heap _ a else a). assert (quiet a a1) as H1 by (unfold a1; by destruct (_ <? _)). clearbody a1.
  destruct (hc_debug_poison _); [|done]. cbv zeta. set (a2 := if _ <? _ then with_mem _ a1 else a1). assert (quiet a1 a2) as H2 by (unfold a2; by destruct (_ <? _)). clearbody a2.
  eapply still_trans; [exact H1|]. eapply still_trans; [exact H2|done].
Qed.

Lemma quiet_resize a o s n : quiet a (resize_block a o s n).
Proof.
  unfold resize_block. eapply still_trans with (resize_mark a o s); [done|]. eapply still_trans; [apply quiet_trim|apply quiet_finish].
Qed.

Lemma quiet_consume a o n : quiet a (fst (consume_next a o n)).
Proof.
  unfold consume_next. case_match; [done|]. cbn [fst]. eapply still_trans; [|apply quiet_following]. apply quiet_store, quiet_remove.
Qed.

Lemma quiet_move a o p r s : quiet a (fst (move_block a o p r s)).
Proof. unfold move_block. case_match; [apply quiet_failed|]. cbn [fst]. eapply still_trans; [|apply quiet_release]. done. Qed.

Lemma grow_carried a n : carried a -> carried (fst (HeapCore.grow_heap a n)).
Proof using Hgrow.
  intros Hc. unfold HeapCore.grow_heap. case_match; [done|]. cbv zeta.
  match goal with |- context [if ?b then (a, true) else _] => destruct b; [done|] end. match goal with |- context [if ?b then (a, false) else _] => destruct b; [done|] end.
  set (new := hc_mapped_size (ar_heap a) +u _). pose proof (Hgrow (ar_ctx a) (hc_mapped_size (ar_heap a)) new (proj1 Hc) (u64_range _)) as Hn. destruct Hc as [_ Hb].
  destruct (op_grow _ _ new) as [c [|]]; cbn [fst snd] in *; [|done].
  set (a1 := MkArena (set_mapped_size new (ar_heap a)) (ar_mem a) c). assert (carried a1) as H1 by done. clearbody a1.
  case_match; cbn [fst]; (eapply quiet_carried; [|exact H1]); (eapply still_trans; [|apply quiet_poison]); (eapply still_trans; [|apply quiet_insert]); [|apply quiet_write].
  eapply still_trans; [apply quiet_remove|apply quiet_write].
Qed.

(** The block is taken, and the counters follow. *)
Lemma taken_carried a o v r n : carried a -> carried (trim_block (set_requested o r (set_size_flags o v (remove_free a o))) o n).
Proof. apply quiet_carried. eapply still_trans; [|apply quiet_trim]. apply quiet_store, quiet_store, quiet_remove. Qed.

Lemma counted_carried a (f g : heap_core -> heap_core) : (forall h, hc_mapped_size (f h) = hc_mapped_size h /\ hc_base (f h) = hc_base h) -> (forall h, hc_mapped_size (g h) = hc_mapped_size h /\ hc_base (g h) = hc_base h) ->
  carried a -> carried (with_heap g (with_heap f a)).
Proof. intros Hf Hg. unfold carried. cbn. by rewrite !(proj1 (Hg _)), !(proj2 (Hg _)), !(proj1 (Hf _)), !(proj2 (Hf _)). Qed.

Lemma peak_carried a (b : bool) p : carried a -> carried (if b then with_heap (fun h => set_peak (p h) h) a else a).
Proof. by destruct b. Qed.

Lemma fill_carried a (b : bool) f : carried a -> carried (if b then with_mem f a else a).
Proof. by destruct b. Qed.

Lemma allocate_carried a r n g : carried a -> carried (fst (allocate a r n g)).
Proof using Hgrow.
  intros Hc. unfold allocate. destruct (_ && g).
  - pose proof (grow_carried a n Hc) as Hg. destruct (HeapCore.grow_heap a n) as [a1 ok]. cbn [fst] in Hg. destruct (_ =? UTAMO_HEAP_NONE); [done|]. cbv zeta. cbn [fst].
    apply fill_carried, peak_carried, counted_carried; [done|done|]. by apply taken_carried.
  - destruct (_ =? UTAMO_HEAP_NONE); [done|]. cbv zeta. cbn [fst]. apply fill_carried, peak_carried, counted_carried; [done|done|]. by apply taken_carried.
Qed.

Lemma alloc_carried a n : carried a -> carried (fst (heap_core_alloc a n)).
Proof using Hgrow.
  intros Hc. unfold heap_core_alloc. case_match; [done|]. destruct (if heap_core_validate a then _ else _) as [needed|]; [|by eapply quiet_carried; [apply quiet_failed|]].
  pose proof (allocate_carried a n needed true Hc) as H1. destruct (allocate a n needed true) as [a1 p]. cbn [fst] in *. case_match; [|done]. by eapply quiet_carried; [apply quiet_failed|].
Qed.

Lemma calloc_carried a c n : carried a -> carried (fst (heap_core_calloc a c n)).
Proof using Hgrow.
  intros Hc. unfold heap_core_calloc. case_match; [done|]. case_match; [by eapply quiet_carried; [apply quiet_failed|]|].
  pose proof (alloc_carried a (c *u n) Hc) as Ha. destruct (heap_core_alloc a _) as [a1 p]. cbn [fst] in *. by case_match.
Qed.

Lemma free_carried a p : carried a -> carried (fst (heap_core_free a p)).
Proof.
  intros Hc. unfold heap_core_free. case_match; [done|]. case_match; [by case_match|]. case_match; [done|]. by eapply quiet_carried; [apply quiet_release|].
Qed.

Lemma realloc_carried a p n : carried a -> carried (fst (heap_core_realloc a p n)).
Proof using Hgrow.
  intros Hc. unfold heap_core_realloc. case_match; [by apply alloc_carried|]. case_match; [by apply free_carried|].
  destruct (if heap_core_validate a then _ else _) as [needed|]; [|by eapply quiet_carried; [apply quiet_failed|]].
  case_match; [by eapply quiet_carried; [apply quiet_failed|]|]. cbv zeta. set (o := pointer_offset a p). set (x := if needed <=? _ then _ else _).
  assert (carried (fst x)) as Hx by (unfold x; case_match; [done|]; by eapply quiet_carried; [apply quiet_consume|]). destruct x as [a1 [|]]; cbn [fst] in *; [by eapply quiet_carried; [apply quiet_resize|]|].
  pose proof (allocate_carried a1 n needed false Hx) as Hb2. destruct (allocate a1 n needed false) as [a2 r]. cbn [fst] in Hb2. case_match; [by eapply quiet_carried; [apply quiet_move|]|].
  case_match.
  - set (d := needed -u _). pose proof (grow_carried a2 d Hb2) as Hb3. destruct (HeapCore.grow_heap a2 d) as [a3 g]. cbn [fst] in Hb3. set (y := if g then _ else _).
    assert (carried (fst y)) as Hy by (unfold y; destruct g; [by eapply quiet_carried; [apply quiet_consume|]|done]). destruct y as [a4 [|]]; cbn [fst] in *; [by eapply quiet_carried; [apply quiet_resize|]|].
    by eapply quiet_carried; [apply quiet_move|].
  - pose proof (allocate_carried a2 n needed true Hb2) as Hb3. destruct (allocate a2 n needed true) as [a3 q]. by eapply quiet_carried; [apply quiet_move|].
Qed.

Lemma apply_carried a c : carried a -> carried (fst (heap_apply a c)).
Proof using Hgrow.
  intros Hc. destruct c as [n|k n|p|p n|p i v]; cbn [heap_apply].
  - by apply alloc_carried.
  - by apply calloc_carried.
  - pose proof (free_carried a p Hc) as Hf. by destruct (heap_core_free a p).
  - by apply realloc_carried.
  - cbn [fst]. unfold client_store. by case_match.
Qed.
End carried.

(** ** The pages under the heap *)

Section grown.
Context {C : Type} `{PageOpsLaws C}.

(** Two growths of neighbouring intervals are one. *)
Lemma grown_app c c1 c2 base flags (fs gs : list Z) : base mod 4096 = 0 -> pg_grown c c1 base flags fs ->
  pg_grown c1 c2 (base + 4096 * Z.of_nat (length fs)) flags gs -> pg_grown c c2 base flags (fs ++ gs).
Proof.
  intros Hba G1 G2. destruct (gr_fresh _ _ _ _ _ G1) as [Hn1 Hf1], (gr_fresh _ _ _ _ _ G2) as [Hn2 Hf2]. constructor; [apply G2| | | | | | |].
  - split; [apply NoDup_app; split_and!; [done| |done]|].
    + intros f Hx Hy. destruct (Hf2 f Hy) as (_ & _ & Hno). apply Hno, (gr_held _ _ _ _ _ G1). by right.
    + intros f [Hf|Hf]%elem_of_app; [by apply Hf1|]. destruct (Hf2 f Hf) as (? & ? & Hno). split_and!; [done|done|]. intros Hh. apply Hno, (gr_held _ _ _ _ _ G1). by left.
  - intros k. rewrite length_app. intros Hk. destruct (decide (k < length fs)%nat); [by apply (gr_serves _ _ _ _ _ G1)|].
    replace (base + 4096 * Z.of_nat k) with (base + 4096 * Z.of_nat (length fs) + 4096 * Z.of_nat (k - length fs)) by lia. apply (gr_serves _ _ _ _ _ G2). lia.
  - intros a Ha. rewrite (gr_query _ _ _ _ _ G2), (gr_query _ _ _ _ _ G1) by done. set (n := Z.of_nat (length fs)).
    assert ((a - (base + 4096 * n)) / 4096 = (a - base) / 4096 - n) as -> by (replace (a - (base + 4096 * n)) with (a - base + (- n) * 4096) by lia; rewrite Z.div_add by done; lia).
    destruct (Z.leb_spec base a) as [Hb|Hb]; cycle 1.
    { assert (base + 4096 * n <=? a = false) as -> by lia. by repeat case_match. }
    assert (0 <= (a - base) / 4096) by dlia. destruct (Z.leb_spec (base + 4096 * n) a) as [Hb2|Hb2].
    + assert (n <= (a - base) / 4096) by dlia. rewrite lookup_app_r, (lookup_ge_None_2 fs) by lia. replace (Z.to_nat ((a - base) / 4096 - n)) with (Z.to_nat ((a - base) / 4096) - length fs)%nat by lia.
      by case_match.
    + assert ((a - base) / 4096 < n) by dlia. rewrite lookup_app_l by lia. by case_match.
  - intros g. rewrite (gr_held _ _ _ _ _ G2), (gr_held _ _ _ _ _ G1), elem_of_app. tauto.
  - intros g i Hg. rewrite (gr_word _ _ _ _ _ G2) by (apply G1; by left). by apply (gr_word _ _ _ _ _ G1).
  - intros f i [Hf|Hf]%elem_of_app; [|by apply (gr_zero _ _ _ _ _ G2)]. rewrite (gr_word _ _ _ _ _ G2) by (apply G1; by right). by apply (gr_zero _ _ _ _ _ G1).
  - intros a Ha. rewrite length_app. intros Hr. destruct (decide (a < base + 4096 * Z.of_nat (length fs))); [apply (gr_before _ _ _ _ _ G1); [done|lia]|].
    rewrite <- (gr_before _ _ _ _ _ G2 a Ha) by lia. rewrite (gr_query _ _ _ _ _ G1) by done. rewrite lookup_ge_None_2; [done|]. dlia.
Qed.

Lemma same_grown c c' base flags : pg_same c c' -> pg_grown c c' base flags [].
Proof.
  intros S. constructor; try apply S; cbn; try (intros; lia).
  - split; [constructor|by intros ? ?%elem_of_nil].
  - intros g. rewrite elem_of_nil, (ps_held _ _ S). tauto.
  - by intros ? ? ?%elem_of_nil.
Qed.
End grown.

Section backed.
Context {P : Type} `{PageFramesLaws P}.
Notation M := (vm (kstate P)).
Notation heap_state := (@kernel_heap P).

(** The heap's pages: those below the size in frames of their own, none above. *)
Record backed (b : backing P) (nx : bool) (fs : list Z) : Prop := {
  bd_pages : bk_pages b = MkPages UTAMO_HEAP_BASE UTAMO_HEAP_MAX_SIZE (4096 * Z.of_nat (length fs)) nx true false;
  bd_inv : kinv (bk_vm b);
  bd_room : 4096 * Z.of_nat (length fs) <= UTAMO_HEAP_MAX_SIZE;
  bd_frames : NoDup fs /\ forall f, f ∈ fs -> kloose (vm_ctx (bk_vm b)) f;
  bd_query : forall a, u64_ok a -> UTAMO_HEAP_BASE <= a < UTAMO_HEAP_BASE + UTAMO_HEAP_MAX_SIZE -> vmm_query_page (bk_vm b) a =
    match fs !! Z.to_nat ((a - UTAMO_HEAP_BASE) / 4096) with
    | Some f => Some (MkMapping true (f + a mod 4096) (page_flags nx) 4096)
    | None => Some unmapped
    end
}.

Lemma backed_grown (b : backing P) nx (fs gs : list Z) m : backed b nx fs ->
  pg_grown (bk_vm b) m (UTAMO_HEAP_BASE + 4096 * Z.of_nat (length fs)) (page_flags nx) gs -> 4096 * Z.of_nat (length (fs ++ gs)) <= UTAMO_HEAP_MAX_SIZE ->
  backed (MkBacking (set_mapped (4096 * Z.of_nat (length (fs ++ gs))) (bk_pages b)) m) nx (fs ++ gs).
Proof.
  intros B G Hr. destruct (bd_frames _ _ _ B) as [Hnd Hf], (gr_fresh _ _ _ _ _ G) as [Hn2 Hf2]. constructor; cbn [bk_pages bk_vm].
  - by rewrite (bd_pages _ _ _ B).
  - apply (gr_wf _ _ _ _ _ G).
  - done.
  - split; [apply NoDup_app; split_and!; [done| |done]|].
    + intros f Hx Hy. destruct (Hf2 f Hy) as (_ & _ & Hno). by apply Hno, Hf.
    + intros f [Hx|Hx]%elem_of_app; apply (gr_held _ _ _ _ _ G); [left; by apply Hf|by right].
  - intros a Ha Hb. pose proof (gr_query _ _ _ _ _ G a Ha) as Q. cbn in Q. rewrite Q, (bd_query _ _ _ B a Ha Hb). clear Q. set (n := Z.of_nat (length fs)).
    assert ((a - (UTAMO_HEAP_BASE + 4096 * n)) / 4096 = (a - UTAMO_HEAP_BASE) / 4096 - n) as ->.
    { replace (a - (UTAMO_HEAP_BASE + 4096 * n)) with (a - UTAMO_HEAP_BASE + (- n) * 4096) by lia. rewrite Z.div_add by done. lia. }
    assert (0 <= (a - UTAMO_HEAP_BASE) / 4096) by dlia. destruct (Z.leb_spec (UTAMO_HEAP_BASE + 4096 * n) a) as [Hb2|Hb2].
    + assert (n <= (a - UTAMO_HEAP_BASE) / 4096) by dlia. rewrite lookup_app_r, (lookup_ge_None_2 fs) by lia.
      replace (Z.to_nat ((a - UTAMO_HEAP_BASE) / 4096 - n)) with (Z.to_nat ((a - UTAMO_HEAP_BASE) / 4096) - length fs)%nat by lia. by case_match.
    + assert ((a - UTAMO_HEAP_BASE) / 4096 < n) by dlia. rewrite lookup_app_l by lia. by case_match.
Qed.

Lemma backed_same (b : backing P) nx fs m : backed b nx fs -> pg_same (bk_vm b) m -> backed (MkBacking (bk_pages b) m) nx fs.
Proof.
  intros B S. pose proof (backed_grown b nx fs [] m B (same_grown _ _ _ _ S)) as Hg. rewrite app_nil_r in Hg. specialize (Hg (bd_room _ _ _ B)). by rewrite (bd_pages _ _ _ B) in Hg |- *.
Qed.

(** The growth callback keeps the pages, and what it adds is fresh. *)
Lemma grow_backing_spec b nx fs new : backed b nx fs -> u64_ok new ->
  let (b', ok) := grow_backing b (4096 * Z.of_nat (length fs)) new in exists gs,
  backed b' nx (fs ++ gs) /\ pg_grown (bk_vm b) (bk_vm b') (UTAMO_HEAP_BASE + 4096 * Z.of_nat (length fs)) (page_flags nx) gs /\
  (if ok then new = 4096 * Z.of_nat (length (fs ++ gs)) else gs = []).
Proof.
  intros B Hn. unfold grow_backing. set (n := 4096 * Z.of_nat (length fs)). pose proof (bd_room _ _ _ B) as Hr. unfold UTAMO_HEAP_MAX_SIZE in Hr.
  pose proof (pages_grow_spec (bk_pages b) (bk_vm b) n new (bd_inv _ _ _ B)) as Hg. pose proof (bd_pages _ _ _ B) as Ep.
  assert (hp_base (bk_pages b) = UTAMO_HEAP_BASE /\ hp_capacity_bytes (bk_pages b) = UTAMO_HEAP_MAX_SIZE /\ hp_nx (bk_pages b) = nx /\ hp_corrupted (bk_pages b) = false) as (E1 & E2 & E3 & E4) by by rewrite Ep.
  rewrite E1, E2, E3 in Hg. specialize (Hg ltac:(by vm_compute) ltac:(by vm_compute) ltac:(unfold u64_ok, UINT64_MAX; lia) Hn).
  destruct (heap_pages_grow (bk_pages b) (bk_vm b) n new) as [[st m] [|]].
  - destruct Hg as (Hv & -> & gs & Hl & G). cbn [set_mapped hp_corrupted]. rewrite E4. exists gs. assert (new = 4096 * Z.of_nat (length (fs ++ gs)) /\ new <= UTAMO_HEAP_MAX_SIZE) as [En Hm].
    { unfold growth_valid in Hv. rewrite !andb_true_iff, !Z.eqb_eq, !Z.leb_le, E2 in Hv. destruct Hv as [[[[[_ _] Hle] Hcp] _] Hna].
      split; [|done]. rewrite length_app, Hl. unfold rounds, MEMORY_PAGE_SIZE. assert (n mod 4096 = 0) by (unfold n; rewrite Z.mul_comm; apply Z.mod_mul; done). dlia. }
    split_and!; [|done|done]. rewrite En. apply backed_grown; [done|done|lia].
  - destruct Hg as (-> & S & _). rewrite E4. exists []. split_and!; [rewrite app_nil_r; by apply backed_same|by apply same_grown|done].
Qed.
End backed.

(** ** The heap as a whole *)

Section kernel.
Context {P : Type} `{PageFramesLaws P}.
Notation M := (vm (kstate P)).
Notation heap_state := (@kernel_heap P).
Notation machine_of h := (bk_vm (ar_ctx (kh_arena h))).

Record heap_ok (h : heap_state) (nx : bool) (fs : list Z) (m : gmap Z (list Z)) : Prop := {
  ho_ready : kh_ready h = true;
  ho_holds : heap_holds (kh_arena h) m;
  ho_size : hc_mapped_size (ar_heap (kh_arena h)) = 4096 * Z.of_nat (length fs);
  ho_backed : backed (ar_ctx (kh_arena h)) nx fs;
  ho_base : hc_base (ar_heap (kh_arena h)) = UTAMO_HEAP_BASE
}.

(** The calls of heap.c; a client's store is one of heap_core.c. *)
Definition kheap_apply (h : heap_state) (c : heap_call) : heap_state * Z :=
  match c with
  | HAlloc size => kmalloc h size
  | HCalloc count size => kcalloc h count size
  | HFree p => let (h, ok) := kfree h p in (h, if ok then 1 else 0)
  | HRealloc p size => krealloc h p size
  | HWrite p i v => (MkKernelHeap (client_store (kh_arena h) p i v) (kh_ready h), 0)
  end.
Fixpoint kheap_run (h : heap_state) (calls : list heap_call) : heap_state * list Z :=
  match calls with
  | [] => (h, [])
  | c :: calls => let (h, r) := kheap_apply h c in let (h, rs) := kheap_run h calls in (h, r :: rs)
  end.

Lemma kheap_apply_ready (h : heap_state) c : kh_ready h = true ->
  kheap_apply h c = (MkKernelHeap (fst (heap_apply (kh_arena h) c)) true, snd (heap_apply (kh_arena h) c)).
Proof.
  destruct h as [a rd]. cbn [kh_ready kh_arena]. intros ->. destruct c as [n|k n|p|p n|p i v]; cbn [kheap_apply heap_apply]; unfold kmalloc, kcalloc, krealloc, when_ready; cbn [kh_ready kh_arena].
  - by destruct (heap_core_alloc a n).
  - by destruct (heap_core_calloc a k n).
  - unfold kfree. cbn [kh_ready kh_arena]. destruct (Z.eqb_spec p 0) as [-> |]; [|by destruct (heap_core_free a p)]. unfold heap_core_free. by rewrite Z.eqb_refl.
  - by destruct (heap_core_realloc a p n).
  - done.
Qed.

Definition heap_grew (m : M) (nx : bool) (fs : list Z) (c : backing P) (n : Z) : Prop := exists gs,
  backed c nx (fs ++ gs) /\ n = 4096 * Z.of_nat (length (fs ++ gs)) /\ pg_grown m (bk_vm c) (UTAMO_HEAP_BASE + 4096 * Z.of_nat (length fs)) (page_flags nx) gs.

Lemma heap_grew_step m nx fs c n new : heap_grew m nx fs c n -> u64_ok new ->
  heap_grew m nx fs (fst (op_grow c n new)) (if snd (op_grow c n new) then new else n).
Proof.
  intros (gs & B & -> & G) Hn. pose proof (grow_backing_spec c nx (fs ++ gs) new B Hn) as Hg. cbn [op_grow backing_ops] in *.
  destruct (grow_backing c _ new) as [c' ok]. destruct Hg as (hs & B' & G' & Hok). cbn [fst snd]. exists (gs ++ hs). rewrite app_assoc. split_and!; [done| |].
  - destruct ok; [done|]. by rewrite Hok, app_nil_r.
  - eapply grown_app; [|done|].
    + rewrite <- Zplus_mod_idemp_r. by rewrite (Z.mul_comm 4096), Z.mod_mul.
    + rewrite length_app, Nat2Z.inj_add, Z.mul_add_distr_l, Z.add_assoc in G'. done.
Qed.

Lemma kheap_apply_ok h nx fs m c : heap_ok h nx fs m -> call_ok c ->
  let (h', r) := kheap_apply h c in exists gs m',
  heap_ok h' nx (fs ++ gs) m' /\ heap_step m c r m' /\ pg_grown (machine_of h) (machine_of h') (UTAMO_HEAP_BASE + 4096 * Z.of_nat (length fs)) (page_flags nx) gs.
Proof.
  intros [Hr Hh Hs B Hb] Hc. rewrite (kheap_apply_ready _ _ Hr). pose proof (apply_holds (kh_arena h) m c Hh Hc) as Ha.
  pose proof (apply_carried UTAMO_HEAP_BASE (heap_grew (machine_of h) nx fs) (heap_grew_step _ _ _) (kh_arena h) c) as Hi. unfold carried in Hi. destruct Hi as [(gs & B' & Hs' & G) Hb'].
  { split; [|done]. exists []. rewrite app_nil_r. split_and!; [done|done|]. apply same_grown, pg_same_refl, (bd_inv _ _ _ B). }
  destruct (heap_apply (kh_arena h) c) as [a' r]. cbn [fst snd] in *. destruct Ha as (m' & Hst & Hh'). exists gs, m'. by split_and!; [constructor| |].
Qed.

Lemma kheap_run_ok calls : forall h nx fs m, heap_ok h nx fs m -> Forall call_ok calls ->
  let (h', rs) := kheap_run h calls in exists gs m',
  heap_ok h' nx (fs ++ gs) m' /\ heap_steps m calls rs m' /\ pg_grown (machine_of h) (machine_of h') (UTAMO_HEAP_BASE + 4096 * Z.of_nat (length fs)) (page_flags nx) gs.
Proof.
  induction calls as [|c calls IH]; intros h nx fs m Ho Hc; cbn [kheap_run].
  { exists [], m. rewrite app_nil_r. split_and!; [done|done|]. apply same_grown, pg_same_refl, (bd_inv _ _ _ (ho_backed _ _ _ _ Ho)). }
  apply Forall_cons in Hc as [Hc1 Hc]. pose proof (kheap_apply_ok h nx fs m c Ho Hc1) as Ha. destruct (kheap_apply h c) as [h1 r]. destruct Ha as (gs & m1 & Ho1 & Hs1 & G1).
  specialize (IH h1 nx (fs ++ gs) m1 Ho1 Hc). destruct (kheap_run h1 calls) as [h2 rs]. destruct IH as (hs & m2 & Ho2 & Hs2 & G2).
  exists (gs ++ hs), m2. rewrite app_assoc. split_and!; [done|by exists m1|]. eapply grown_app; [|done|].
  - rewrite <- Zplus_mod_idemp_r. by rewrite (Z.mul_comm 4096), Z.mod_mul.
  - rewrite length_app, Nat2Z.inj_add, Z.mul_add_distr_l, Z.add_assoc in G2. done.
Qed.

Lemma heap_ok_validate h nx fs m : heap_ok h nx fs m -> heap_validate h = true.
Proof.
  intros [Hr Hh Hs B _]. unfold heap_validate, heap_get_stats. rewrite Hr. destruct Hh as (bl & Hrep & _). rewrite (stats_spec _ _ Hrep). cbn [hs_mapped_bytes].
  rewrite (bd_pages _ _ _ B), Hs. cbn. lia.
Qed.

(** ** Initialisation *)

Lemma range_clear_spec m fuel : forall off, kinv m -> 0 <= off -> off mod 4096 = 0 -> range_clear fuel m off = true ->
  forall a, u64_ok a -> UTAMO_HEAP_BASE + off <= a < UTAMO_HEAP_BASE + UTAMO_HEAP_MAX_SIZE -> vmm_query_page m a = Some unmapped.
Proof.
  induction fuel as [|fuel IH]; intros off K Ho Hm Hc a Ha Hr; cbn [range_clear] in Hc.
  { destruct (Z.ltb_spec off UTAMO_HEAP_MAX_SIZE); [done|lia]. }
  destruct (Z.ltb_spec off UTAMO_HEAP_MAX_SIZE) as [Hl|]; cbn [negb] in Hc; [|lia]. unfold UTAMO_HEAP_BASE, UTAMO_HEAP_MAX_SIZE in *.
  rewrite (u64_small (_ + off)), (u64_small (off + _)) in Hc by (unfold u64_ok, UINT64_MAX, MEMORY_PAGE_SIZE; lia). unfold MEMORY_PAGE_SIZE in Hc.
  destruct (vmm_query_page m _) as [mp|] eqn:Eq; [|done]. apply andb_true_iff in Hc as [Hu%negb_true_iff Hc].
  destruct (decide (a < 0xffffc00001000000 + (off + 4096))); [|apply (IH (off + 4096)); [done|lia|dlia|done|done|lia]].
  rewrite ready_query in * by done. apply (page_unmapped m (0xffffc00001000000 + off)); [done|done|dlia|]. rewrite Eq. f_equal.
  unfold vmm_space_query in Eq. destruct (walk _ _ _) as [w|]; [|done]. destruct (wr_missing w); injection Eq as <-; [done|]. done.
Qed.

Definition heap_blank (h : heap_state) : Prop := kh_ready h = false /\ bk_pages (ar_ctx (kh_arena h)) = heap_pages_zero /\ hc_initialized (ar_heap (kh_arena h)) = false.

Lemma heap_init_ok h : heap_blank h -> kinv (machine_of h) ->
  let (h', ok) := heap_init h in
  if ok then exists nx fs, heap_ok h' nx fs ∅ /\ pg_grown (machine_of h) (machine_of h') UTAMO_HEAP_BASE (page_flags nx) fs
  else pg_same (machine_of h) (machine_of h') /\ kh_ready h' = false.
Proof.
  intros (Hr & Hp & Hi) K. unfold heap_init. rewrite Hr, Hp. pose proof (pg_same_refl _ K) as Hsame. destruct (vmm_get_info _) as [info|]; [|done].
  destruct (range_clear range_fuel (machine_of h) 0) eqn:Ec; cbn [negb]; [|done]. set (nx := vinf_nx_enabled info).
  assert (heap_pages_init heap_pages_zero UTAMO_HEAP_BASE UTAMO_HEAP_MAX_SIZE nx = (MkPages UTAMO_HEAP_BASE UTAMO_HEAP_MAX_SIZE 0 nx true false, true)) as -> by done.
  set (b0 := MkBacking _ (machine_of h)). assert (backed b0 nx []) as B0.
  { constructor; [done|done|done|split; [constructor|by intros ? ?%elem_of_nil]|]. intros a Ha Hb. rewrite lookup_nil. by apply (range_clear_spec _ range_fuel 0 K). }
  pose proof (grow_backing_spec b0 nx [] UTAMO_HEAP_INITIAL_SIZE B0) as Hg. cbn [length Z.of_nat] in Hg. rewrite Z.mul_0_r, Z.add_0_r in Hg. specialize (Hg ltac:(by vm_compute)).
  destruct (grow_backing b0 0 UTAMO_HEAP_INITIAL_SIZE) as [b ok]. destruct Hg as (gs & B & G & Hok). cbn [app] in *. destruct ok; cbn [ar_ctx kh_arena with_backing kh_ready].
  - pose proof (init_holds (with_backing b (kh_arena h)) UTAMO_HEAP_BASE UTAMO_HEAP_INITIAL_SIZE UTAMO_HEAP_MAX_SIZE UTAMO_HEAP_GROWTH_SIZE true true) as Hh.
    specialize (Hh ltac:(by vm_compute) ltac:(by vm_compute) ltac:(by vm_compute) ltac:(by vm_compute)).
    pose proof (init_guards (with_backing b (kh_arena h)) UTAMO_HEAP_BASE UTAMO_HEAP_INITIAL_SIZE UTAMO_HEAP_MAX_SIZE UTAMO_HEAP_GROWTH_SIZE true true) as Hgd.
    assert (ar_ctx (fst (heap_core_init (with_backing b (kh_arena h)) UTAMO_HEAP_BASE UTAMO_HEAP_INITIAL_SIZE UTAMO_HEAP_MAX_SIZE UTAMO_HEAP_GROWTH_SIZE true true)) = b) as Ectx.
    { unfold heap_core_init. by destruct (_ || _ || _ || _ || _ || _ || _ || _). }
    assert (forall ar : arena (backing P), snd (heap_core_init ar UTAMO_HEAP_BASE UTAMO_HEAP_INITIAL_SIZE UTAMO_HEAP_MAX_SIZE UTAMO_HEAP_GROWTH_SIZE true true) = true ->
      hc_base (ar_heap (fst (heap_core_init ar UTAMO_HEAP_BASE UTAMO_HEAP_INITIAL_SIZE UTAMO_HEAP_MAX_SIZE UTAMO_HEAP_GROWTH_SIZE true true))) = UTAMO_HEAP_BASE) as Hba.
    { intros ar. unfold heap_core_init. by destruct (_ || _ || _ || _ || _ || _ || _ || _). }
    specialize (Hba (with_backing b (kh_arena h))).
    destruct Hgd as [_ Hgd]; [by vm_compute..|]. destruct (heap_core_init _ _ _ _ _ _ _) as [a' ok']. cbn [fst snd] in *. assert (ok' = true) as -> by (apply Hgd; split; [done|by constructor]).
    destruct Hh as [Hh Hs]. exists nx, gs. cbn [kh_arena]. rewrite Ectx. split; [|done]. constructor; [done|done|by rewrite <- Hok|cbn [kh_arena]; by rewrite Ectx|by apply Hba].
  - subst gs. split; [|done]. by eapply grown_none.
Qed.

(** C11. The kernel heap stands on its own pages.  When [heap_init] succeeds, any
    sequence of [kmalloc], [kcalloc], [krealloc], [kfree] and client stores
    answers as the map of allocations does; the heap's pages are exactly those
    below its size, writable and not executable where the CPU can, each in a
    frame that nobody had before; [heap_validate] holds and nothing panics; and
    of the rest of the machine no translation, no frame's owner and no word of a
    frame in use changes.  When it fails the machine is as before. *)
Theorem kernel_heap_backed (h : heap_state) (calls : list heap_call) :
  heap_blank h -> kinv (machine_of h) -> Forall call_ok calls ->
  match heap_init h with
  | (h0, true) => let (h', rs) := kheap_run h0 calls in exists nx fs m,
      heap_steps ∅ calls rs m /\ heap_owns (kh_arena h') m /\ heap_validate h' = true /\ ks_panic (vm_ctx (machine_of h')) = false /\
      hc_mapped_size (ar_heap (kh_arena h')) = 4096 * Z.of_nat (length fs) /\ 4096 * Z.of_nat (length fs) <= UTAMO_HEAP_MAX_SIZE /\
      pg_grown (machine_of h) (machine_of h') UTAMO_HEAP_BASE (page_flags nx) fs
  | (h0, false) => pg_same (machine_of h) (machine_of h0) /\ fst (kmalloc h0 1) = h0
  end.
Proof.
  intros Hb K Hc. pose proof (heap_init_ok h Hb K) as Hi. destruct (heap_init h) as [h0 [|]]; cycle 1.
  { destruct Hi as [S Hr]. split; [done|]. unfold kmalloc, when_ready. by rewrite Hr. }
  destruct Hi as (nx & fs & Ho & G). pose proof (kheap_run_ok calls h0 nx fs ∅ Ho Hc) as Hr. destruct (kheap_run h0 calls) as [h' rs].
  destruct Hr as (gs & m & Ho' & Hs & G'). exists nx, (fs ++ gs), m. pose proof (ho_backed _ _ _ _ Ho') as B. split_and!; [done|apply holds_owns, Ho'|by eapply heap_ok_validate| |apply Ho'|apply B|].
  - apply (vi_ctx _ _ (ki_vm _ (bd_inv _ _ _ B))).
  - by eapply grown_app.
Qed.
End kernel.

(** ** A heap on a kernel with an empty tree *)

Section bare.
Context (b : machine).

Definition blank_heap : @kernel_heap machine :=
  MkKernelHeap (MkArena (MkHeap 0 0 0 0 0 false 0 0 0 0 0 0 0 false false) (fun _ => 0) (MkBacking heap_pages_zero (bare_kernel b))) false.
Definition fresh_pages : heap_pages := MkPages UTAMO_HEAP_BASE UTAMO_HEAP_MAX_SIZE 0 true true false.
Definition grown_pages := grow_backing (MkBacking fresh_pages (bare_kernel b)) 0 UTAMO_HEAP_INITIAL_SIZE.
Definition first_core := heap_core_init (with_backing (fst grown_pages) (kh_arena blank_heap)) UTAMO_HEAP_BASE UTAMO_HEAP_INITIAL_SIZE UTAMO_HEAP_MAX_SIZE UTAMO_HEAP_GROWTH_SIZE true true.
Definition first_heap : @kernel_heap machine := MkKernelHeap (fst first_core) true.

Hypothesis Htable : op_table (vm_ctx (bare_kernel b)) 8192 = true.

Lemma bare_query a : u64_ok a -> 0xffff800000000000 <= a -> vmm_query_page (bare_kernel b) a = Some unmapped.
Proof using Htable.
  intros Hu Ha. change (vmm_query_page (bare_kernel b) a) with (vmm_space_query (kspace (bare_kernel b)) (bare_kernel b) a). unfold vmm_space_query, walk.
  assert (memory_is_canonical a = true) as -> by (unfold memory_is_canonical; unfold u64_ok, UINT64_MAX in Hu; lia). change (vs_root_phys (kspace (bare_kernel b))) with 8192. change (vs_initialized (kspace (bare_kernel b))) with true. cbn [negb orb]. cbn [walk_from existsb].
  by rewrite (Htable : op_table _ 8192 = true).
Qed.

Lemma bare_clear fuel : forall off, 0 <= off -> UTAMO_HEAP_MAX_SIZE <= off + 4096 * Z.of_nat fuel -> range_clear fuel (bare_kernel b) off = true.
Proof using Htable.
  unfold UTAMO_HEAP_MAX_SIZE. induction fuel as [|fuel IH]; intros off Ho Hf; cbn [range_clear]; unfold UTAMO_HEAP_MAX_SIZE; destruct (Z.ltb_spec off 67108864); cbn [negb]; try done; [lia|].
  unfold UTAMO_HEAP_BASE, MEMORY_PAGE_SIZE. rewrite !u64_small by (unfold u64_ok, UINT64_MAX; lia). rewrite bare_query by (unfold u64_ok, UINT64_MAX; lia). cbn [unmapped vp_mapped negb andb]. apply IH; lia.
Qed.

Lemma bare_init : snd grown_pages = true -> snd first_core = true -> heap_init blank_heap = (first_heap, true).
Proof using Htable.
  intros Eg Ec. unfold heap_init. cbn [blank_heap kh_arena kh_ready ar_ctx bk_vm bk_pages]. change (vmm_get_info _) with (Some (kv_information (ks_vmm (vm_ctx (bare_kernel b))))). cbv iota.
  rewrite bare_clear; [|done|by vm_compute]. cbn [negb]. change (heap_pages_init _ _ _ _) with (fresh_pages, true). cbv iota. unfold first_heap, first_core in *. revert Eg Ec. unfold grown_pages. generalize (grow_backing (MkBacking fresh_pages (bare_kernel b)) 0 UTAMO_HEAP_INITIAL_SIZE). intros [bk ok]. cbn [fst snd].
  intros ->. cbn [blank_heap kh_arena]. match goal with |- context [heap_core_init ?x _ _ _ _ _ _] => generalize (heap_core_init x UTAMO_HEAP_BASE UTAMO_HEAP_INITIAL_SIZE UTAMO_HEAP_MAX_SIZE UTAMO_HEAP_GROWTH_SIZE true true) end.
  intros [a ok]. cbn [fst snd]. by intros ->.
Qed.
End bare.

Module SmallHeap.
Definition blank : @kernel_heap machine := blank_heap SixtyFour.boot.
(** Allocations inside the first sixteen pages, one that makes the heap grow, one
    for which there are no frames, and a double free. *)
Definition calls : list heap_call :=
  [HAlloc 100; HCalloc 2 24; HAlloc 70000; HAlloc 1000000; HFree 0xffffc00001000030; HFree 0xffffc00001000030].
Definition ready : @kernel_heap machine := first_heap SixtyFour.boot.

Lemma init_runs : heap_init blank = (ready, true).
Proof. apply bare_init; vm_cast_no_check (eq_refl true). Qed.
Lemma calls_run : snd (kheap_run ready calls) = [0xffffc00001000030; 0xffffc000010000d0; 0xffffc00001000130; 0; 1; 0].
Proof. vm_cast_no_check (eq_refl [0xffffc00001000030; 0xffffc000010000d0; 0xffffc00001000130; 0; 1; 0]). Qed.
End SmallHeap.

Lemma kernel_heap_backed_witness :
  snd (kheap_run SmallHeap.ready SmallHeap.calls) = [0xffffc00001000030; 0xffffc000010000d0; 0xffffc00001000130; 0; 1; 0] /\ heap_validate (fst (kheap_run SmallHeap.ready SmallHeap.calls)) = true /\
  exists nx fs, pg_grown EmptyKernel.start (bk_vm (ar_ctx (kh_arena (fst (kheap_run SmallHeap.ready SmallHeap.calls))))) UTAMO_HEAP_BASE (page_flags nx) fs.
Proof.
  pose proof (kernel_heap_backed SmallHeap.blank SmallHeap.calls ltac:(by split_and!) EmptyKernel.start_kinv ltac:(repeat constructor; by vm_compute)) as Hk.
  rewrite SmallHeap.init_runs in Hk. pose proof SmallHeap.calls_run as Er. revert Hk Er. generalize (kheap_run SmallHeap.ready SmallHeap.calls). intros [h' rs]. cbn [fst snd].
  intros (nx & fs & m & _ & _ & Hv & _ & _ & _ & G) Er. split; [exact Er|]. split; [exact Hv|]. exists nx, fs. exact G.
Defined.
