(* ===== verification/ThreadStack.v ===== *)
(** * Kernel thread stacks (kernel/core/thread_stack.c): definitions

    Sixty-four slots of the dynamic region, each a guard page that stays unmapped
    and sixteen pages above it.  The statics [occupied] and [generations] are a
    record; the kernel's address space and the page allocator are the state of
    KernelVm.v.  A call of [PANIC] does not return; it sets [sk_panic] and ends
    the operation.  The address of the automatic variable by which
    [thread_stack_free] finds out on which stack it runs is the argument
    [anchor]. *)

From S2P Require Import Prelude MemoryHelpers VmmCore Frames KernelVm HeapPages KernelPages.
Open Scope Z_scope.

Definition UTAMO_THREAD_STACK_REGION : Z := VMM_DYNAMIC_BASE + 0x40000000.
Definition UTAMO_THREAD_STACK_SIZE : Z := 65536.
Definition UTAMO_THREAD_STACK_SLOTS : Z := 64.
Definition UTAMO_THREAD_STACK_STRIDE : Z := 69632.

Record thread_stack := MkStack {
  ts_guard : Z;
  ts_base : Z;
  ts_top : Z;
  ts_slot : Z;
  ts_generation : Z;
  ts_active : bool
}.
Definition thread_stack_zero : thread_stack := MkStack 0 0 0 0 0 false.
#[export] Instance thread_stack_eq_dec : EqDecision thread_stack.
Proof. solve_decision. Defined.

Record stacks := MkStacks { sk_occupied : Z; sk_generations : list Z; sk_panic : bool }.
Definition stacks_boot : stacks := MkStacks 0 (replicate 64 0) false.
Definition with_occupied (o : Z) (s : stacks) : stacks := MkStacks o (sk_generations s) (sk_panic s).
Definition stack_panic (s : stacks) : stacks := MkStacks (sk_occupied s) (sk_generations s) true.

Definition slot_taken (s : stacks) (slot : Z) : bool := negb (Z.land (sk_occupied s) (Z.shiftl 1 slot) =? 0).
Definition slot_guard (slot : Z) : Z := UTAMO_THREAD_STACK_REGION +u slot *u UTAMO_THREAD_STACK_STRIDE.

Definition descriptor_valid (s : stacks) (stack : thread_stack) : bool :=
  if negb (ts_active stack) || (UTAMO_THREAD_STACK_SLOTS <=? ts_slot stack) || (ts_generation stack =? 0) ||
     negb (arr_get (sk_generations s) (ts_slot stack) =? ts_generation stack) || negb (slot_taken s (ts_slot stack))
  then false
  else
    let guard := slot_guard (ts_slot stack) in
    (ts_guard stack =? guard) && (ts_base stack =? guard +u MEMORY_PAGE_SIZE) &&
    (ts_top stack =? ts_base stack +u UTAMO_THREAD_STACK_SIZE).

(** [struct interrupt_frame] of interrupts.h, and its words in memory. *)
Record interrupt_frame := MkFrame {
  if_r15 : Z; if_r14 : Z; if_r13 : Z; if_r12 : Z; if_r11 : Z; if_r10 : Z; if_r9 : Z; if_r8 : Z;
  if_rbp : Z; if_rdi : Z; if_rsi : Z; if_rdx : Z; if_rcx : Z; if_rbx : Z; if_rax : Z;
  if_vector : Z; if_error_code : Z;
  if_rip : Z; if_cs : Z; if_rflags : Z; if_rsp : Z; if_ss : Z
}.
Definition frame_words (f : interrupt_frame) : list Z :=
  [if_r15 f; if_r14 f; if_r13 f; if_r12 f; if_r11 f; if_r10 f; if_r9 f; if_r8 f;
   if_rbp f; if_rdi f; if_rsi f; if_rdx f; if_rcx f; if_rbx f; if_rax f;
   if_vector f; if_error_code f; if_rip f; if_cs f; if_rflags f; if_rsp f; if_ss f].
Definition FRAME_BYTES : Z := 176.

(** [memcpy] of aligned words to the words of a frame. *)
Fixpoint store_words (mem : Z -> Z -> Z) (phys index : Z) (ws : list Z) : Z -> Z -> Z :=
  match ws with
  | [] => mem
  | w :: ws => store_words (mem_set mem phys index w) phys (index + 1) ws
  end.

Section stacks.
Context {P : Type} `{PageFrames P}.
Notation M := (vm (kstate P)).

(** The first slot that is free and whose epoch can advance. *)
Definition free_slot (s : stacks) : option Z :=
  List.find (fun slot => negb (slot_taken s slot) && negb (arr_get (sk_generations s) slot =? UINT64_MAX)) (seqZ 0 UTAMO_THREAD_STACK_SLOTS).

Definition thread_stack_alloc (s : stacks) (m : M) : stacks * M * option thread_stack :=
  match vmm_get_info (ks_vmm (vm_ctx m)) with
  | None => (s, m, None)
  | Some info =>
      match free_slot s with
      | None => (s, m, None)
      | Some slot =>
          let guard := slot_guard slot in
          match vmm_query_page m guard with
          | None => (s, m, None)
          | Some mapping =>
              if vp_mapped mapping then (s, m, None)
              else
                let s := with_occupied (Z.lor (sk_occupied s) (Z.shiftl 1 slot)) s in
                let '(backing, m, good) :=
                  match heap_pages_init heap_pages_zero (guard +u MEMORY_PAGE_SIZE) UTAMO_THREAD_STACK_SIZE (vinf_nx_enabled info) with
                  | (backing, false) => (backing, m, false)
                  | (backing, true) => heap_pages_grow backing m 0 UTAMO_THREAD_STACK_SIZE
                  end in
                if negb good then
                  if hp_corrupted backing then (stack_panic s, m, None)
                  else (with_occupied (Z.land (sk_occupied s) (not64 (Z.shiftl 1 slot))) s, m, None)
                else
                  let generation := arr_get (sk_generations s) slot +u 1 in
                  (MkStacks (sk_occupied s) (arr_set (sk_generations s) slot generation) (sk_panic s), m,
                   Some (MkStack guard (guard +u MEMORY_PAGE_SIZE) (guard +u MEMORY_PAGE_SIZE +u UTAMO_THREAD_STACK_SIZE) slot generation true))
          end
      end
  end.

(** The first loop of [thread_stack_free]: every page is a mapped frame of the allocator. *)
Definition stack_page_ok (m : M) (virt : Z) : bool :=
  match vmm_query_page m virt with
  | None => false
  | Some mapping =>
      vp_mapped mapping && (vp_page_size mapping =? MEMORY_PAGE_SIZE) && memory_is_page_aligned (vp_physical mapping) &&
      pmm_is_allocated_page (kframes m) (vp_physical mapping)
  end.

Definition stack_pages (stack : thread_stack) : list Z :=
  (fun k => ts_base stack +u 4096 * k) <$> seqZ 0 ((ts_top stack - ts_base stack + 4095) / 4096).

(** The second loop; [None] is a [PANIC]. *)
Fixpoint release_stack (m : M) (pages : list Z) : M * bool :=
  match pages with
  | [] => (m, true)
  | virt :: pages =>
      match vmm_query_page m virt with
      | None => (m, false)
      | Some mapping =>
          if negb (vp_mapped mapping) then (m, false)
          else match vmm_unmap_page m virt with
          | (m, false) => (m, false)
          | (m, true) =>
              match vmm_query_page m virt with
              | None => (m, false)
              | Some after =>
                  if vp_mapped after then (m, false)
                  else match release_frame_page m (vp_physical mapping) with
                  | (m, false) => (m, false)
                  | (m, true) => release_stack m pages
                  end
              end
          end
      end
  end.

Definition thread_stack_free (s : stacks) (m : M) (stack : thread_stack) (anchor : Z) : stacks * M * thread_stack * bool :=
  if negb (descriptor_valid s stack) || ((ts_base stack <=? anchor) && (anchor <? ts_top stack)) then (s, m, stack, false)
  else match vmm_query_page m (ts_guard stack) with
  | None => (stack_panic s, m, stack, false)
  | Some mapping =>
      if vp_mapped mapping then (stack_panic s, m, stack, false)
      else if negb (forallb (stack_page_ok m) (stack_pages stack)) then (stack_panic s, m, stack, false)
      else match release_stack m (stack_pages stack) with
      | (m, false) => (stack_panic s, m, stack, false)
      | (m, true) =>
          (with_occupied (Z.land (sk_occupied s) (not64 (Z.shiftl 1 (ts_slot stack)))) s, m, thread_stack_zero, true)
      end
  end.

Definition thread_frame_init (s : stacks) (m : M) (stack : thread_stack) (entry return_sentinel : Z) : M * option Z :=
  if (entry =? 0) || (return_sentinel =? 0) || negb (memory_is_canonical entry) || negb (memory_is_canonical return_sentinel) ||
     negb (descriptor_valid s stack)
  then (m, None)
  else
    let page := ts_top stack -u MEMORY_PAGE_SIZE in
    let rsp := ts_top stack -u 8 in
    let address := Z.land (rsp -u FRAME_BYTES) (not64 15) in
    match vmm_query_page m page with
    | None => (m, None)
    | Some mapping =>
        if negb (vp_mapped mapping) || negb (vp_page_size mapping =? MEMORY_PAGE_SIZE) ||
           negb (Z.land (vp_flags mapping) (Z.lor VMM_PRESENT (Z.lor VMM_WRITABLE VMM_USER)) =? Z.lor VMM_PRESENT VMM_WRITABLE) ||
           negb (memory_is_page_aligned (vp_physical mapping)) ||
           negb (bool_decide (is_Some (memory_phys_to_virt (kframes m) (vp_physical mapping) MEMORY_PAGE_SIZE)))
        then (m, None)
        else
          let frame := MkFrame 0 0 0 0 0 0 0 0 0 0 0 0 0 0 0 0 0 entry 8 0x202 rsp 16 in
          let mem := store_words (vm_mem m) (vp_physical mapping) ((address -u page) / 8) (frame_words frame) in
          let mem := store_words mem (vp_physical mapping) ((rsp -u page) / 8) [return_sentinel] in
          (MkVm (vm_ctx m) mem, Some address)
    end.
End stacks.
