(* ===== verification/ThreadStackProps.v ===== *)
(** * Kernel thread stacks: properties

    The invariant ties the occupied slots to the pages that are mapped there:
    sixteen frames of its own for every stack, an unmapped guard below them, and
    no frame in two stacks.  The theorems say exactly what allocation, release
    and the first frame of a thread do, and that over any sequence of calls a
    descriptor is accepted just as long as its stack is live. *)

From stdpp Require Import gmap.
From S2P Require Import Prelude MemoryHelpers VmmCore VmmMap VmmSpec Frames PmmFrames KernelVm HeapPages KernelPages KernelVmProps ThreadStack.
Open Scope Z_scope.

(** ** The mask of occupied slots *)

Lemma shiftl_bit k j : 0 <= k -> 0 <= j -> Z.testbit (Z.shiftl 1 k) j = (j =? k).
Proof.
  intros Hk Hj. rewrite Z.shiftl_1_l. destruct (Z.eqb_spec j k) as [-> |]; [by apply Z.pow2_bits_true|by apply Z.pow2_bits_false].
Qed.

Lemma taken_bit s k : 0 <= k < 64 -> slot_taken s k = Z.testbit (sk_occupied s) k.
Proof.
  intros Hk. unfold slot_taken. rewrite Z.shiftl_1_l. apply eq_true_iff_eq. rewrite negb_true_iff, Z.eqb_neq. split.
  - intros Hn. destruct (Z.testbit (sk_occupied s) k) eqn:E; [done|]. destruct Hn. apply Z.bits_inj'. intros n Hn. rewrite Z.land_spec, Z.bits_0, Z.pow2_bits_eqb by lia.
    destruct (Z.eqb_spec k n) as [<- |]; [by rewrite E|by rewrite andb_false_r].
  - intros Ht Hz. apply (f_equal (fun x => Z.testbit x k)) in Hz. by rewrite Z.land_spec, Ht, Z.pow2_bits_true, Z.bits_0 in Hz by lia.
Qed.

Lemma take_bit o k j : 0 <= k -> 0 <= j -> Z.testbit (Z.lor o (Z.shiftl 1 k)) j = Z.testbit o j || (j =? k).
Proof. intros. by rewrite Z.lor_spec, shiftl_bit. Qed.

Lemma drop_bit o k j : u64_ok o -> 0 <= k -> 0 <= j -> Z.testbit (Z.land o (not64 (Z.shiftl 1 k))) j = Z.testbit o j && negb (j =? k).
Proof.
  intros Ho Hk Hj. rewrite Z.land_spec. destruct (decide (j < 64)); [by rewrite not64_testbit, shiftl_bit by lia|].
  by rewrite (u64_bits o j) by (done || lia).
Qed.

Lemma bit_u64 k : 0 <= k < 64 -> u64_ok (Z.shiftl 1 k).
Proof. intros Hk. rewrite Z.shiftl_1_l. unfold u64_ok, UINT64_MAX. assert (2 ^ k < 2 ^ 64) by (apply Z.pow_lt_mono_r; lia). lia. Qed.

Lemma take_drop o k : u64_ok o -> 0 <= k < 64 -> Z.testbit o k = false -> Z.land (Z.lor o (Z.shiftl 1 k)) (not64 (Z.shiftl 1 k)) = o.
Proof.
  intros Ho Hk Hf. apply Z.bits_inj'. intros n Hn. rewrite drop_bit, take_bit by (lia || (apply lor_u64; [done|by apply bit_u64])).
  destruct (Z.eqb_spec n k) as [-> |]; [by rewrite Hf|]. by rewrite orb_false_r, andb_true_r.
Qed.

(** ** The slots *)

Definition guard_at (k : Z) : Z := UTAMO_THREAD_STACK_REGION + k * UTAMO_THREAD_STACK_STRIDE.
Definition descriptor (k g : Z) : thread_stack := MkStack (guard_at k) (guard_at k + 4096) (guard_at k + 69632) k g true.

Lemma guard_facts k : 0 <= k < 64 ->
  slot_guard k = guard_at k /\ guard_at k mod 4096 = 0 /\ VMM_DYNAMIC_BASE + 0x40000000 <= guard_at k /\ guard_at k + 69632 <= VMM_DYNAMIC_BASE + 0x40440000.
Proof.
  intros Hk. unfold slot_guard, guard_at, UTAMO_THREAD_STACK_REGION, UTAMO_THREAD_STACK_STRIDE, VMM_DYNAMIC_BASE. split_and!; [|dlia|lia|lia].
  rewrite (u64_small (k * _)) by (unfold u64_ok, UINT64_MAX; lia). by rewrite u64_small by (unfold u64_ok, UINT64_MAX; lia).
Qed.

Lemma stack_interval k : 0 <= k < 64 -> valid_interval (guard_at k + 4096) UTAMO_THREAD_STACK_SIZE = true.
Proof.
  intros Hk. assert (forallb (fun k => valid_interval (guard_at k + 4096) UTAMO_THREAD_STACK_SIZE) (seqZ 0 64) = true) as Hall by by vm_compute.
  rewrite forallb_seqZ in Hall. apply Hall. lia.
Qed.

Lemma stack_dynamic k a : 0 <= k < 64 -> guard_at k <= a < guard_at k + 69632 -> dynamic_address a = true /\ u64_ok a.
Proof.
  intros Hk Ha. destruct (guard_facts k Hk) as (_ & _ & Hlo & Hhi). unfold dynamic_address, u64_ok, VMM_DYNAMIC_BASE, VMM_DYNAMIC_SIZE, UTAMO_MMIO_BASE, UTAMO_MMIO_SIZE, UINT64_MAX in *.
  change (Z.shiftl 1 39) with (2 ^ 39). rewrite u64_small by (unfold u64_ok, UINT64_MAX; lia). split; [|lia].
  assert (0xffffc00080000000 <=? a = false) as -> by lia. cbn [andb negb]. rewrite andb_true_r, andb_true_iff, Z.leb_le, Z.ltb_lt. lia.
Qed.

Lemma descriptor_exact s t : 0 <= ts_slot t -> length (sk_generations s) = 64%nat ->
  descriptor_valid s t = true <-> 
  let k := ts_slot t in k < 64 /\ Z.testbit (sk_occupied s) k = true /\ arr_get (sk_generations s) k <> 0 /\ t = descriptor k (arr_get (sk_generations s) k).
Proof.
  intros Hk Hlen. unfold descriptor_valid, UTAMO_THREAD_STACK_SLOTS. destruct t as [g b tp k gen act]. cbn [ts_active ts_slot ts_generation ts_guard ts_base ts_top] in *.
  destruct (Z.leb_spec 64 k); [rewrite orb_true_r; cbn; split; [done|lia]|]. destruct (guard_facts k) as (Eg & _ & Hlo & Hhi); [lia|].
  rewrite taken_bit, Eg by lia. unfold UTAMO_THREAD_STACK_SIZE, MEMORY_PAGE_SIZE, descriptor, VMM_DYNAMIC_BASE in *. rewrite (u64_small (guard_at k + 4096)) by (unfold u64_ok, UINT64_MAX; lia).
  destruct act; cbn [negb orb]; [|split; [done|by intros (_ & _ & _ & [=])]].
  destruct (Z.eqb_spec gen 0) as [-> |Hg]; cbn [orb]; [split; [done|]; by intros (_ & _ & Hn & [= _ _ _ E])|].
  destruct (Z.eqb_spec (arr_get (sk_generations s) k) gen) as [<- |Hne]; cbn [negb orb]; [|split; [done|]; by intros (_ & _ & Hn & [= _ _ _ E])].
  destruct (Z.testbit (sk_occupied s) k); cbn [negb]; [|split; [done|by intros (_ & ? & _)]].
  rewrite !andb_true_iff, !Z.eqb_eq. split.
  - intros [[-> ->] ->]. rewrite u64_small by (unfold u64_ok, UINT64_MAX; lia). split_and!; try done. f_equal. lia.
  - intros (_ & _ & _ & [= -> -> ->]). rewrite u64_small by (unfold u64_ok, UINT64_MAX; lia). split_and!; [done|done|lia].
Qed.

(** ** The invariant *)

Section stacks.
Context {P : Type} `{PageFramesLaws P}.
Notation M := (vm (kstate P)).

(** The stack of slot [k]: its frames, from the lowest page up. *)
Record stack_at (m : M) (k : Z) (fs : list Z) : Prop := {
  sa_length : length fs = 16%nat;
  sa_nodup : NoDup fs;
  sa_held : forall f, f ∈ fs -> kloose (vm_ctx m) f;
  sa_guard : page_absent m (guard_at k) = true;
  sa_pages : exists nx, forall j f, fs !! j = Some f ->
    vmm_query_page m (guard_at k + 4096 + 4096 * Z.of_nat j) = Some (MkMapping true f (page_flags nx) 4096)
}.

Record stack_inv (s : stacks) (m : M) (L : gmap Z (list Z)) : Prop := {
  si_kernel : kinv m;
  si_panic : sk_panic s = false;
  si_occupied : u64_ok (sk_occupied s);
  si_length : length (sk_generations s) = 64%nat;
  si_generation : forall k, 0 <= k < 64 -> u64_ok (arr_get (sk_generations s) k);
  si_slots : forall k, 0 <= k < 64 -> Z.testbit (sk_occupied s) k = true <-> is_Some (L !! k);
  si_stack : forall k fs, L !! k = Some fs -> 0 <= k < 64 /\ 0 < arr_get (sk_generations s) k /\ stack_at m k fs;
  si_disjoint : forall k k' fs fs' f, L !! k = Some fs -> L !! k' = Some fs' -> f ∈ fs -> f ∈ fs' -> k = k'
}.

(** The stack of a slot is not touched by what leaves its range of addresses and
    its frames alone. *)
Lemma stack_at_frame m m' k fs : 0 <= k < 64 -> stack_at m k fs ->
  (forall a, guard_at k <= a < guard_at k + 69632 -> vmm_query_page m' a = vmm_query_page m a) ->
  (forall f, f ∈ fs -> kloose (vm_ctx m') f) -> stack_at m' k fs.
Proof.
  intros Hk S Hq Hl. destruct (sa_pages _ _ _ S) as [nx Hp]. constructor; [apply S|apply S|done| |].
  - unfold page_absent. cbn. rewrite Hq by lia. apply S.
  - exists nx. intros j f Hj. pose proof (lookup_lt_Some _ _ _ Hj). rewrite (sa_length _ _ _ S) in *. rewrite Hq by lia. by apply Hp.
Qed.

Lemma stack_at_unique m k fs gs : stack_at m k fs -> stack_at m k gs -> fs = gs.
Proof.
  intros A B. destruct (sa_pages _ _ _ A) as [n Ha], (sa_pages _ _ _ B) as [n' Hb]. apply list_eq. intros j. destruct (decide (j < 16)%nat) as [Hj|].
  - destruct (lookup_lt_is_Some_2 fs j) as [f Hf]; [rewrite (sa_length _ _ _ A); lia|]. destruct (lookup_lt_is_Some_2 gs j) as [g Hg]; [rewrite (sa_length _ _ _ B); lia|].
    specialize (Ha j f Hf). specialize (Hb j g Hg). congruence.
  - by rewrite !lookup_ge_None_2 by (rewrite ?(sa_length _ _ _ A), ?(sa_length _ _ _ B); lia).
Qed.

Lemma slots_apart k k' : 0 <= k < 64 -> 0 <= k' < 64 -> k <> k' -> guard_at k + 69632 <= guard_at k' \/ guard_at k' + 69632 <= guard_at k.
Proof. unfold guard_at, UTAMO_THREAD_STACK_STRIDE. lia. Qed.

Lemma stacks_same s m m' L : stack_inv s m L -> pg_same m m' -> stack_inv s m' L.
Proof.
  intros I S. constructor; [apply (ps_wf _ _ S)|apply I..| |apply I]. intros k fs Hk. destruct (si_stack _ _ _ I k fs Hk) as (Hr & Hg & Ha). split; [done|]. split; [done|].
  apply (stack_at_frame m); try done.
  - intros a Hin. apply (ps_query _ _ S). by apply (stack_dynamic k).
  - intros f Hf. apply (ps_held _ _ S). by apply (sa_held _ _ _ Ha).
Qed.

Lemma grown_outside (m m' : M) base flags fs a : base mod 4096 = 0 -> pg_grown m m' base flags fs -> u64_ok a ->
  a < base \/ base + 4096 * Z.of_nat (length fs) <= a -> vmm_query_page m' a = vmm_query_page m a.
Proof.
  intros Hb G Ha Ho. pose proof (gr_query _ _ _ _ _ G a Ha) as Q. cbn in Q. rewrite Q. destruct (Z.leb_spec base a); [|by case_match].
  rewrite lookup_ge_None_2; [done|]. dlia.
Qed.

(** ** Allocation *)

Lemma free_slot_spec s m L : stack_inv s m L ->
  match free_slot s with
  | Some k => 0 <= k < 64 /\ L !! k = None /\ arr_get (sk_generations s) k < UINT64_MAX
  | None => forall k, 0 <= k < 64 -> is_Some (L !! k) \/ arr_get (sk_generations s) k = UINT64_MAX
  end.
Proof.
  intros I. unfold free_slot. destruct (List.find _ _) as [k|] eqn:E.
  - apply List.find_some in E as [Hk%list_elem_of_In%elem_of_seqZ [Ht Hg]%andb_true_iff]. unfold UTAMO_THREAD_STACK_SLOTS in Hk. assert (0 <= k < 64) as Hr by lia.
    rewrite taken_bit, negb_true_iff in Ht by lia. rewrite negb_true_iff, Z.eqb_neq in Hg. pose proof (si_generation _ _ _ I k Hr) as Hu. split_and!; [lia|lia| |unfold u64_ok in Hu; lia].
    destruct (L !! k) eqn:El; [|done]. pose proof (proj2 (si_slots _ _ _ I k Hr) ltac:(by rewrite El)). congruence.
  - intros k Hk. pose proof (List.find_none _ _ E k) as Hn. rewrite <- list_elem_of_In, elem_of_seqZ in Hn. unfold UTAMO_THREAD_STACK_SLOTS in Hn. specialize (Hn ltac:(lia)).
    apply andb_false_iff in Hn as [Hn|Hn]; rewrite negb_false_iff in Hn; [left|right; lia]. rewrite taken_bit in Hn by lia. by apply (si_slots _ _ _ I).
Qed.

Lemma grown_stack m m' k flags fs nx : 0 <= k < 64 -> flags = page_flags nx -> page_absent m (guard_at k) = true -> length fs = 16%nat ->
  pg_grown m m' (guard_at k + 4096) flags fs -> stack_at m' k fs.
Proof.
  intros Hk -> Hg Hl G. destruct (guard_facts k Hk) as (_ & Hm & Hlo & Hhi). assert ((guard_at k + 4096) mod 4096 = 0) as Hm' by dlia.
  constructor; [done|apply (gr_fresh _ _ _ _ _ G)| | |].
  - intros f Hf. apply (gr_held _ _ _ _ _ G). by right.
  - unfold page_absent in *. cbn in *. rewrite (grown_outside m m' (guard_at k + 4096) (page_flags nx) fs); [done|done|done| |lia]. apply (stack_dynamic k); lia.
  - exists nx. intros j f Hj. pose proof (lookup_lt_Some _ _ _ Hj). pose proof (grown_query (guard_at k + 4096) (page_flags nx) Hm' ltac:(lia) m m' fs j f G) as Q.
    unfold page_at, VMM_DYNAMIC_SIZE in Q. change (Z.shiftl 1 39) with (2 ^ 39) in Q. apply Q; [lia|done].
Qed.

Lemma inv_grown s m m' L k flags fs nx : stack_inv s m L -> 0 <= k < 64 -> L !! k = None -> flags = page_flags nx -> page_absent m (guard_at k) = true ->
  length fs = 16%nat -> pg_grown m m' (guard_at k + 4096) flags fs -> arr_get (sk_generations s) k < UINT64_MAX ->
  stack_inv (MkStacks (Z.lor (sk_occupied s) (Z.shiftl 1 k)) (arr_set (sk_generations s) k (arr_get (sk_generations s) k + 1)) (sk_panic s)) m' (<[k := fs]> L).
Proof.
  intros I Hk Hn Hfl Hg Hl G Hmax. destruct (guard_facts k Hk) as (_ & Hm & _ & _). assert ((guard_at k + 4096) mod 4096 = 0) as Hm' by dlia.
  pose proof (si_length _ _ _ I) as Hlen. assert (forall j, 0 <= j < 64 -> arr_get (arr_set (sk_generations s) k (arr_get (sk_generations s) k + 1)) j =
    if j =? k then arr_get (sk_generations s) k + 1 else arr_get (sk_generations s) j) as Hgen.
  { intros j Hj. destruct (Z.eqb_spec j k) as [-> |]; [by rewrite arr_get_set_eq by lia|by rewrite arr_get_set_ne by lia]. }
  constructor; cbn [sk_panic sk_occupied sk_generations].
  - apply (gr_wf _ _ _ _ _ G).
  - apply I.
  - apply lor_u64; [apply I|by apply bit_u64].
  - unfold arr_set. by rewrite length_insert.
  - intros j Hj. rewrite Hgen by done. pose proof (si_generation _ _ _ I k Hk). destruct (_ =? _); [unfold u64_ok in *; lia|by apply (si_generation _ _ _ I)].
  - intros j Hj. rewrite take_bit, orb_true_iff, Z.eqb_eq, (si_slots _ _ _ I j Hj) by lia. destruct (decide (j = k)) as [-> |Hne].
    + rewrite lookup_insert_eq. split; [by intros _|by right].
    + rewrite lookup_insert_ne by done. split; [by intros [|]|by left].
  - intros j gs Hj. destruct (decide (j = k)) as [-> |Hne].
    + rewrite lookup_insert_eq in Hj. injection Hj as <-. split_and!; [lia|lia| |by eapply grown_stack]. rewrite Hgen, Z.eqb_refl by done. pose proof (si_generation _ _ _ I k Hk) as []. lia.
    + rewrite lookup_insert_ne in Hj by done. destruct (si_stack _ _ _ I j gs Hj) as (Hr & Hgn & Ha). rewrite Hgen by done. assert (j =? k = false) as -> by lia. split_and!; try lia.
      apply (stack_at_frame m); [done|done| |].
      * intros a Hin. apply (grown_outside m m' (guard_at k + 4096) flags fs); [done|done|by apply (stack_dynamic j)|]. destruct (slots_apart j k); lia.
      * intros f Hf. apply (gr_held _ _ _ _ _ G). left. by apply (sa_held _ _ _ Ha).
  - assert (forall j gs f, L !! j = Some gs -> f ∈ gs -> f ∈ fs -> False) as Hdis.
    { intros j gs f Hj Hf1 Hf2. destruct (si_stack _ _ _ I j gs Hj) as (_ & _ & Ha). destruct (gr_fresh _ _ _ _ _ G) as [_ Hfr]. destruct (Hfr f Hf2) as (_ & _ & Hnh).
      by apply Hnh, (sa_held _ _ _ Ha). }
    intros j j' gs gs' f [[<- <-]|[? Hj]]%lookup_insert_Some [[<- <-]|[? Hj']]%lookup_insert_Some Hf Hf'; [done| | |].
    + by destruct (Hdis j' gs' f).
    + by destruct (Hdis j gs f).
    + by apply (si_disjoint _ _ _ I j j' gs gs' f).
Qed.

(** The interval that backs the stack of slot [k]. *)
Definition backing (k : Z) (nx : bool) : heap_pages := MkPages (guard_at k + 4096) UTAMO_THREAD_STACK_SIZE 0 nx true false.

(** What an allocation does: [k] and [fs] are the slot and the frames it took. *)
Definition allocated_at (s s' : stacks) (m m' : M) (L : gmap Z (list Z)) (t : thread_stack) (k : Z) (fs : list Z) : Prop :=
  L !! k = None /\ t = descriptor k (arr_get (sk_generations s) k + 1) /\
  sk_generations s' = arr_set (sk_generations s) k (arr_get (sk_generations s) k + 1) /\
  stack_inv s' m' (<[k := fs]> L) /\
  pg_grown m m' (guard_at k + 4096) (page_flags (vinf_nx_enabled (kv_information (ks_vmm (vm_ctx m))))) fs.

(** Why there is none: no slot, a mapped guard, or no memory. *)
Definition no_stack (s : stacks) (m : M) (L : gmap Z (list Z)) : Prop :=
  (forall k, 0 <= k < 64 -> is_Some (L !! k) \/ arr_get (sk_generations s) k = UINT64_MAX) \/
  exists k, 0 <= k < 64 /\ L !! k = None /\
    (page_absent m (guard_at k) = false \/
     growth_refused (backing k (vinf_nx_enabled (kv_information (ks_vmm (vm_ctx m))))) m 0 UTAMO_THREAD_STACK_SIZE).

Lemma alloc_spec s m L : stack_inv s m L ->
  let '(s', m', r) := thread_stack_alloc s m in
  match r with
  | Some t => exists k fs, allocated_at s s' m m' L t k fs
  | None => s' = s /\ pg_same m m' /\ no_stack s m L
  end.
Proof.
  intros I. unfold thread_stack_alloc, vmm_get_info. pose proof (si_kernel _ _ _ I) as K. pose proof (ki_ready _ K) as Hrd. unfold kready in Hrd. rewrite Hrd.
  pose proof (free_slot_spec s m L I) as Hs. destruct (free_slot s) as [k|]; [|split_and!; [done|by apply (pg_same_refl (C := M))|by left]].
  destruct Hs as (Hk & Hn & Hmax). destruct (guard_facts k Hk) as (-> & Hm & Hlo & Hhi). set (nx := vinf_nx_enabled _).
  assert (u64_ok (guard_at k) /\ u64_ok (guard_at k + 4096) /\ u64_ok (guard_at k + 69632)) as (Hu1 & Hu2 & Hu3).
  { unfold u64_ok, UINT64_MAX, VMM_DYNAMIC_BASE in *. lia. }
  assert (page_absent m (guard_at k) = false -> no_stack s m L) as Hwhy by (intros Ha; right; exists k; by auto).
  unfold page_absent in Hwhy. cbn [pg_query kernel_pages] in Hwhy. destruct (vmm_query_page m (guard_at k)) as [mp|] eqn:Eq; [|split_and!; [done|by apply (pg_same_refl (C := M))|by auto]].
  destruct (vp_mapped mp) eqn:Emp; [split_and!; [done|by apply (pg_same_refl (C := M))|by auto]|].
  unfold heap_pages_init. cbn [hp_initialized heap_pages_zero orb]. rewrite (u64_small (guard_at k + MEMORY_PAGE_SIZE)) by done. unfold MEMORY_PAGE_SIZE. rewrite stack_interval by done. cbn [negb].
  fold (backing k nx). pose proof (pages_grow_spec (backing k nx) m 0 UTAMO_THREAD_STACK_SIZE K Hu2) as Hg. cbn [hp_capacity_bytes backing hp_base hp_nx] in Hg. unfold UTAMO_THREAD_STACK_SIZE, u64_ok, UINT64_MAX in Hg.
  specialize (Hg ltac:(lia) ltac:(lia) ltac:(lia)). fold UTAMO_THREAD_STACK_SIZE in *. rewrite Z.add_0_r in Hg.
  destruct (heap_pages_grow (backing k nx) m 0 _) as [[bk m'] [|]]; cbn [negb]; cycle 1.
  - destruct Hg as (-> & S & Hre). cbn [backing hp_corrupted]. split_and!; [|done|].
    + unfold with_occupied. cbn [sk_occupied sk_generations sk_panic]. rewrite take_drop; [by destruct s|apply I|done|]. apply not_true_iff_false. rewrite (si_slots _ _ _ I k Hk), Hn. by intros [? ?].
    + right. exists k. split_and!; [lia|lia|done|]. right. apply Hre. unfold growth_valid, backing. cbn [hp_initialized hp_corrupted hp_base hp_capacity_bytes hp_mapped_bytes]. by rewrite stack_interval.
  - destruct Hg as (_ & _ & fs & Hl & G). change (rounds 0 UTAMO_THREAD_STACK_SIZE) with 16%nat in Hl. exists k, fs. cbn [with_occupied sk_generations sk_occupied sk_panic].
    pose proof (si_generation _ _ _ I k Hk) as Hgu. rewrite (u64_small (arr_get _ _ + 1)) by (unfold u64_ok in *; lia). unfold UTAMO_THREAD_STACK_SIZE.
    rewrite (u64_small (guard_at k + 4096 + 65536)) by (replace (guard_at k + 4096 + 65536) with (guard_at k + 69632) by lia; done).
    unfold allocated_at. split_and!; [done|unfold descriptor; f_equal; lia|done| |done].
    apply (inv_grown s m m' L k (page_flags nx) fs nx); try done. unfold page_absent. cbn. by rewrite Eq, Emp.
Qed.

(** C31. Allocation is exact.  A stack takes the first free slot and a new epoch of
    it; its sixteen frames are nobody else's, zeroed and mapped writable just
    above a guard page that is not mapped, and nothing else changes.  Without a
    stack nothing is changed at all, and the reason is that all slots are in use,
    that something is mapped at the guard, or that memory ran out. *)
Theorem thread_stack_alloc_exact (s : stacks) (m : M) (L : gmap Z (list Z)) : stack_inv s m L ->
  let '(s', m', r) := thread_stack_alloc s m in
  match r with
  | Some t => exists k fs, allocated_at s s' m m' L t k fs /\ descriptor_valid s' t = true /\ 0 <= k < 64 /\ length fs = 16%nat
  | None => s' = s /\ pg_same m m' /\ stack_inv s' m' L /\ no_stack s m L
  end.
Proof.
  intros I. pose proof (alloc_spec s m L I) as Ha. destruct (thread_stack_alloc s m) as [[s' m'] [t|]].
  - destruct Ha as (k & fs & Ha). exists k, fs. split; [done|]. destruct Ha as (Hn & -> & Hgen & I' & G).
    destruct (si_stack _ _ _ I' k fs (lookup_insert_eq _ _ _)) as (Hk & Hpos & Hst). split_and!; [|lia|lia|apply Hst].
    apply descriptor_exact; [cbn; lia|apply I'|]. cbn [ts_slot descriptor]. pose proof (si_length _ _ _ I) as Hlen. rewrite Hgen, arr_get_set_eq in * by lia.
    split_and!; [lia| |lia|done]. apply (si_slots _ _ _ I' k Hk). by rewrite lookup_insert_eq.
  - destruct Ha as (-> & S & Hw). split_and!; [done|done|by eapply stacks_same|done].
Qed.

(** ** Release *)

(** [m'] is [m] without the pages [ps], whose frames [fs] went back. *)
Record released (m m' : M) (ps fs : list Z) : Prop := {
  rl_inv : kinv m';
  rl_query : forall a, u64_ok a -> vmm_query_page m' a = if existsb (fun p => a / 4096 =? p / 4096) ps then Some unmapped else vmm_query_page m a;
  rl_held : forall g, kloose (vm_ctx m') g <-> kloose (vm_ctx m) g /\ g ∉ fs;
  rl_word : forall g i, kloose (vm_ctx m') g -> vm_mem m' g i = vm_mem m g i
}.

Definition page_frame (m : M) (p f : Z) : Prop :=
  (exists flags, vmm_query_page m p = Some (MkMapping true f flags 4096)) /\ u64_ok p /\ p mod 4096 = 0 /\ dynamic_address p = true.

Lemma release_page_spec m p f : kinv m -> page_frame m p f -> kloose (vm_ctx m) f ->
  exists m', (forall ps, release_stack m (p :: ps) = release_stack m' ps) /\ released m m' [p] [f].
Proof.
  intros K ((fl & Q) & Hu & Hm & Hd) Hl. cbn [release_stack]. rewrite Q. cbn [vp_mapped negb vp_physical].
  destruct (vmm_unmap_page m p) as [m1 ok] eqn:Eu. destruct (@pg_law_unmap _ _ kernel_page_laws m m1 p _ ok K Hd Hu Hm Q eq_refl eq_refl Eu) as (-> & K1 & H1 & M1 & Q1). cbn in K1, H1, M1, Q1.
  rewrite Q1, Z.eqb_refl by done. cbn [unmapped vp_mapped]. destruct (release_frame_page m1 f) as [m2 ok] eqn:Ef.
  destruct (kfree_spec m1 m2 f ok K1 (proj2 (H1 f) Hl) Ef) as (-> & K2 & Q2 & H2 & M2). exists m2. split; [done|]. constructor; [done| | |].
  - intros a Ha. cbn [existsb]. by rewrite Q2, Q1, orb_false_r by done.
  - intros g. rewrite H2, H1, list_elem_of_singleton. done.
  - intros g i [Hg _]%H2. rewrite M2. apply M1. by apply H1.
Qed.

Lemma released_trans m m1 m2 p f ps fs : released m m1 [p] [f] -> released m1 m2 ps fs -> released m m2 (p :: ps) (f :: fs).
Proof.
  intros R1 R2. constructor; [apply R2| | |].
  - intros a Ha. rewrite (rl_query _ _ _ _ R2), (rl_query _ _ _ _ R1) by done. cbn [existsb]. rewrite orb_false_r. destruct (_ =? _), (existsb _ ps); done.
  - intros g. rewrite (rl_held _ _ _ _ R2), (rl_held _ _ _ _ R1), !not_elem_of_cons. pose proof (not_elem_of_nil g). tauto.
  - intros g i Hg. rewrite (rl_word _ _ _ _ R2) by done. apply (rl_word _ _ _ _ R1). by apply (rl_held _ _ _ _ R2).
Qed.

Lemma release_stack_spec ps fs : forall m, kinv m -> Forall2 (page_frame m) ps fs -> NoDup ps -> NoDup fs -> (forall f, f ∈ fs -> kloose (vm_ctx m) f) ->
  exists m', release_stack m ps = (m', true) /\ released m m' ps fs.
Proof.
  revert fs. induction ps as [|p ps IH]; intros fs m K F Hnp Hnf Hl.
  { apply Forall2_nil_inv_l in F as ->. exists m. split; [done|]. constructor; [done|done| |done]. intros g. pose proof (not_elem_of_nil g). tauto. }
  apply Forall2_cons_inv_l in F as (f & fs' & Hpf & F & ->). apply NoDup_cons in Hnp as [Hp Hnp]. apply NoDup_cons in Hnf as [Hf Hnf].
  destruct (release_page_spec m p f K Hpf (Hl f ltac:(by left))) as (m1 & Er & R1). destruct Hpf as (_ & Hu & Hm & _).
  destruct (IH fs' m1 (rl_inv _ _ _ _ R1)) as (m2 & E2 & R2); [|done|done| |].
  - eapply Forall2_impl; [|intros ? ? Hx; exact Hx]. revert F Hp. clear -R1 Hm. induction 1 as [|q g qs gs Hq F IH]; intros Hp; constructor.
    + destruct Hq as ((fl & Q) & Hqu & Hqm & Hqd). split; [|done]. exists fl. rewrite (rl_query _ _ _ _ R1) by done. cbn [existsb]. rewrite orb_false_r.
      destruct (Z.eqb_spec (q / 4096) (p / 4096)) as [E|]; [|done]. destruct Hp. assert (p = q) as -> by (pose proof (Z.div_mod q 4096); pose proof (Z.div_mod p 4096); lia). by left.
    + apply IH. intros Hx. apply Hp. by right.
  - intros g Hg. apply (rl_held _ _ _ _ R1). split; [apply Hl; by right|]. rewrite list_elem_of_singleton. by intros ->.
  - exists m2. rewrite Er. split; [done|by eapply released_trans].
Qed.

Lemma descriptor_pages k g : 0 <= k < 64 -> stack_pages (descriptor k g) = (fun j => guard_at k + 4096 + 4096 * Z.of_nat j) <$> seq 0 16.
Proof.
  intros Hk. destruct (guard_facts k Hk) as (_ & _ & Hlo & Hhi). unfold stack_pages, descriptor. cbn [ts_top ts_base]. replace (guard_at k + 69632 - (guard_at k + 4096) + 4095) with 69631 by lia.
  change (69631 / 4096) with 16. change (seqZ 0 16) with (Z.of_nat <$> seq 0 16). rewrite <- list_fmap_compose. apply list_fmap_ext. intros i j [-> Hi]%lookup_seq. unfold compose.
  rewrite u64_small; [done|]. unfold u64_ok, UINT64_MAX, VMM_DYNAMIC_BASE in *. lia.
Qed.

Lemma stack_page_frames m k fs g : 0 <= k < 64 -> stack_at m k fs -> kinv m ->
  Forall2 (page_frame m) (stack_pages (descriptor k g)) fs /\ NoDup (stack_pages (descriptor k g)) /\ forallb (stack_page_ok m) (stack_pages (descriptor k g)) = true.
Proof.
  intros Hk S K. rewrite descriptor_pages by done. destruct (guard_facts k Hk) as (_ & Hm & Hlo & Hhi). destruct (sa_pages _ _ _ S) as [nx Hp].
  assert (forall j, (j < 16)%nat -> exists f, fs !! j = Some f /\ vmm_query_page m (guard_at k + 4096 + 4096 * Z.of_nat j) = Some (MkMapping true f (page_flags nx) 4096)) as Hj.
  { intros j Hj. destruct (lookup_lt_is_Some_2 fs j) as [f Hf]; [rewrite (sa_length _ _ _ S); lia|]. exists f. split; [done|by apply Hp]. }
  split_and!.
  - apply Forall2_same_length_lookup. rewrite length_fmap, length_seq. split; [by rewrite (sa_length _ _ _ S)|]. intros j p f Hpj Hf. apply list_lookup_fmap_Some in Hpj as (i & -> & [-> Hi]%lookup_seq).
    destruct (Hj j Hi) as (f' & Hf' & Q). assert (f' = f) as -> by congruence. split; [by exists (page_flags nx)|]. destruct (stack_dynamic k (guard_at k + 4096 + 4096 * Z.of_nat (0 + j))); [done|lia|].
    split_and!; [done|dlia|done].
  - apply NoDup_fmap_2; [intros x y; lia|apply NoDup_seq].
  - apply forallb_forall. intros p Hpi%list_elem_of_In. apply list_elem_of_fmap in Hpi as (j & -> & Hin%elem_of_seq). destruct (Hj j) as (f & Hf & Q); [lia|].
    unfold stack_page_ok. rewrite Q. cbn [vp_mapped vp_page_size vp_physical andb]. change (4096 =? MEMORY_PAGE_SIZE) with true. destruct (sa_held _ _ _ S f) as [Hfu Ha]; [by eapply list_elem_of_lookup_2|].
    destruct (vi_ctx _ _ (ki_vm _ K)) as [Hw _]. destruct (pf_aligned _ f Hw Hfu Ha) as [Hfm _]. rewrite page_aligned_mod, Hfm. by unfold kframes.
Qed.

Lemma inv_released s m m' L k fs g : stack_inv s m L -> L !! k = Some fs -> released m m' (stack_pages (descriptor k g)) fs ->
  stack_inv (with_occupied (Z.land (sk_occupied s) (not64 (Z.shiftl 1 k))) s) m' (delete k L).
Proof.
  intros I Hk R. destruct (si_stack _ _ _ I k fs Hk) as (Hr & _ & _). destruct (guard_facts k Hr) as (_ & Hm & _).
  constructor; cbn [with_occupied sk_panic sk_occupied sk_generations]; [apply R|apply I|apply land_u64, I|apply I|apply I| | |].
  - intros j Hj. rewrite drop_bit, andb_true_iff, (si_slots _ _ _ I j Hj), negb_true_iff, Z.eqb_neq by (apply I || lia). destruct (decide (j = k)) as [-> |].
    + rewrite lookup_delete_eq. split; [by intros [_ ?]|by intros [? ?]].
    + rewrite lookup_delete_ne by done. split; [by intros [? _]|done].
  - intros j gs [Hne Hj]%lookup_delete_Some. destruct (si_stack _ _ _ I j gs Hj) as (Hjr & Hgn & Ha). split; [done|]. split; [done|]. apply (stack_at_frame m); [done|done| |].
    + intros a Hin. rewrite (rl_query _ _ _ _ R) by by apply (stack_dynamic j). destruct (existsb _ _) eqn:E; [|done]. exfalso. apply existsb_exists in E as (p & Hp%list_elem_of_In & Ep%Z.eqb_eq).
      rewrite descriptor_pages in Hp by done. apply list_elem_of_fmap in Hp as (i & -> & Hi%elem_of_seq). destruct (guard_facts j Hjr) as (_ & Hmj & _). destruct (slots_apart j k) as [?|?]; try done; dlia.
    + intros f Hf. apply (rl_held _ _ _ _ R). split; [by apply (sa_held _ _ _ Ha)|]. intros Hf'. by destruct Hne; apply (si_disjoint _ _ _ I k j fs gs f).
  - intros j j' gs gs' f [_ Hj]%lookup_delete_Some [_ Hj']%lookup_delete_Some. by apply (si_disjoint _ _ _ I).
Qed.

(** Whether the caller runs on the stack. *)
Definition runs_on (t : thread_stack) (anchor : Z) : bool := (ts_base t <=? anchor) && (anchor <? ts_top t).

Lemma live_descriptor s m L t : stack_inv s m L -> 0 <= ts_slot t -> descriptor_valid s t = true ->
  exists fs, L !! ts_slot t = Some fs /\ 0 <= ts_slot t < 64 /\ t = descriptor (ts_slot t) (arr_get (sk_generations s) (ts_slot t)) /\ stack_at m (ts_slot t) fs.
Proof.
  intros I Hs Hv. apply descriptor_exact in Hv as (Hk & Hb & _ & Et); [|done|apply I]. apply (si_slots _ _ _ I) in Hb as [fs Hfs]; [|lia]. exists fs.
  destruct (si_stack _ _ _ I _ _ Hfs) as (Hr & _ & Ha). by split_and!.
Qed.

Lemma free_spec s m L t anchor : stack_inv s m L -> 0 <= ts_slot t ->
  let '(s', m', t', ok) := thread_stack_free s m t anchor in
  ok = descriptor_valid s t && negb (runs_on t anchor) /\
  if ok then exists fs, L !! ts_slot t = Some fs /\ t' = thread_stack_zero /\ sk_generations s' = sk_generations s /\
    released m m' (stack_pages t) fs /\ stack_inv s' m' (delete (ts_slot t) L)
  else s' = s /\ m' = m /\ t' = t.
Proof.
  intros I Hs. unfold thread_stack_free. fold (runs_on t anchor). destruct (descriptor_valid s t) eqn:Hv; cbn [negb orb andb]; [|done].
  destruct (runs_on t anchor); cbn [negb]; [done|]. destruct (live_descriptor s m L t I Hs Hv) as (fs & Hfs & Hk & Et & Ha). set (k := ts_slot t) in *. set (g := arr_get _ k) in Et. clearbody k g. subst t.
  destruct (stack_page_frames m k fs g Hk Ha (si_kernel _ _ _ I)) as (F & Hnd & Hall). pose proof (sa_guard _ _ _ Ha) as Hg. unfold page_absent in Hg. cbn in Hg. cbn [ts_guard descriptor].
  destruct (vmm_query_page m (guard_at k)) as [mp|]; [|done]. destruct (vp_mapped mp); [done|]. fold (descriptor k g). rewrite Hall. cbn [negb].
  destruct (release_stack_spec _ fs m (si_kernel _ _ _ I) F Hnd (sa_nodup _ _ _ Ha) (sa_held _ _ _ Ha)) as (m' & -> & R). split; [done|]. exists fs. split_and!; try done.
  by apply (inv_released s m m' L k fs g).
Qed.

(** C32. Release is exact.  It succeeds just for a descriptor that [descriptor_valid]
    accepts, which is the one given out last for its slot
    (the histories below), and not from the stack itself; it never panics.  Then the
    sixteen pages are unmapped, their frames go back, nothing else changes, and
    neither the cleared descriptor nor a copy of the old one is accepted again.
    Any other descriptor is refused and nothing changes. *)
Theorem thread_stack_free_exact (s : stacks) (m : M) (L : gmap Z (list Z)) (t : thread_stack) (anchor : Z) : stack_inv s m L -> 0 <= ts_slot t ->
  let '(s', m', t', ok) := thread_stack_free s m t anchor in
  ok = descriptor_valid s t && negb (runs_on t anchor) /\
  if ok then exists fs, L !! ts_slot t = Some fs /\ t' = thread_stack_zero /\ released m m' (stack_pages t) fs /\
    stack_inv s' m' (delete (ts_slot t) L) /\ descriptor_valid s' t' = false /\ descriptor_valid s' t = false
  else s' = s /\ m' = m /\ t' = t.
Proof.
  intros I Hs. pose proof (free_spec s m L t anchor I Hs) as Hf. destruct (thread_stack_free s m t anchor) as [[[s' m'] t'] [|]]; [|done].
  destruct Hf as (Hok & fs & Hfs & -> & _ & R & I'). split; [done|]. exists fs. split_and!; try done. apply not_true_iff_false. rewrite descriptor_exact; [|done|apply I']. cbv zeta.
  intros (Hk & Hb & _). apply (si_slots _ _ _ I') in Hb; [|lia]. rewrite lookup_delete_eq in Hb. by destruct Hb.
Qed.

(** ** The first frame of a thread *)

Lemma store_words_spec ws : forall mem p index g i, store_words mem p index ws g i =
  if (g =? p) && (index <=? i) && (i <? index + Z.of_nat (length ws)) then arr_get ws (i - index) else mem g i.
Proof.
  induction ws as [|w ws IH]; intros mem p index g i; cbn [store_words length].
  { destruct (Z.leb_spec index i), (Z.ltb_spec i (index + Z.of_nat 0)); rewrite ?andb_false_r; try done. lia. }
  rewrite IH. unfold mem_set. destruct (Z.eqb_spec g p) as [-> |]; cbn [andb]; [|done].
  destruct (Z.leb_spec (index + 1) i), (Z.leb_spec index i), (Z.ltb_spec i (index + 1 + Z.of_nat (length ws))), (Z.ltb_spec i (index + Z.of_nat (S (length ws)))); cbn [andb]; try lia.
  - unfold arr_get. replace (Z.to_nat (i - index)) with (S (Z.to_nat (i - (index + 1)))) by lia. done.
  - assert (i =? index = false) as -> by lia. done.
  - assert (i = index) as -> by lia. rewrite Z.eqb_refl. unfold arr_get. by rewrite Z.sub_diag.
  - assert (i =? index = false) as -> by lia. done.
Qed.

(** The words that [thread_frame_init] leaves on the last page of a stack. *)
Definition first_frame (top entry : Z) : interrupt_frame := MkFrame 0 0 0 0 0 0 0 0 0 0 0 0 0 0 0 0 0 entry 8 0x202 (top - 8) 16.
Definition first_words (mem : Z -> Z -> Z) (f top entry sentinel : Z) (g i : Z) : Z :=
  if negb (g =? f) then mem g i
  else if i =? 511 then sentinel
  else if (488 <=? i) && (i <? 510) then arr_get (frame_words (first_frame top entry)) (i - 488)
  else mem g i.

Lemma frame_spec s m L t entry sentinel : stack_inv s m L -> 0 <= ts_slot t -> 
  let '(m', r) := thread_frame_init s m t entry sentinel in
  if negb (entry =? 0) && negb (sentinel =? 0) && memory_is_canonical entry && memory_is_canonical sentinel && descriptor_valid s t then
    r = Some (ts_top t - 192) /\ vm_ctx m' = vm_ctx m /\ exists fs f, L !! ts_slot t = Some fs /\ fs !! 15%nat = Some f /\
      forall g i, vm_mem m' g i = first_words (vm_mem m) f (ts_top t) entry sentinel g i
  else r = None /\ m' = m.
Proof.
  intros I Hs. unfold thread_frame_init. destruct (entry =? 0); cbn [orb negb andb]; [done|]. destruct (sentinel =? 0); cbn [orb negb andb]; [done|].
  destruct (memory_is_canonical entry); cbn [orb negb andb]; [|done]. destruct (memory_is_canonical sentinel); cbn [orb negb andb]; [|done].
  destruct (descriptor_valid s t) eqn:Hv; cbn [negb]; [|done]. destruct (live_descriptor s m L t I Hs Hv) as (fs & Hfs & Hk & Et & Ha). set (k := ts_slot t) in *. set (gn := arr_get _ k) in Et. clearbody k gn. subst t.
  destruct (guard_facts k Hk) as (_ & Hm & Hlo & Hhi). destruct (sa_pages _ _ _ Ha) as [nx Hp]. destruct (lookup_lt_is_Some_2 fs 15) as [f Hf]; [rewrite (sa_length _ _ _ Ha); lia|].
  specialize (Hp 15%nat f Hf). cbn [ts_top descriptor]. unfold FRAME_BYTES, VMM_DYNAMIC_BASE in *.
  rewrite (u64_small (guard_at k + 69632 - MEMORY_PAGE_SIZE)) by (unfold u64_ok, UINT64_MAX, MEMORY_PAGE_SIZE; lia). rewrite (u64_small (guard_at k + 69632 - 8)) by (unfold u64_ok, UINT64_MAX; lia).
  rewrite (u64_small (guard_at k + 69632 - 8 - 176)) by (unfold u64_ok, UINT64_MAX; lia).
  assert (Z.land (guard_at k + 69632 - 8 - 176) (not64 15) = guard_at k + 69632 - 192) as ->.
  { rewrite land_not64 by (unfold u64_ok, UINT64_MAX; lia). change 15 with (Z.ones 4). rewrite ldiff_ones by (unfold u64_ok, UINT64_MAX; lia). change (2 ^ 4) with 16. dlia. }
  replace (guard_at k + 69632 - MEMORY_PAGE_SIZE) with (guard_at k + 4096 + 4096 * Z.of_nat 15) by (unfold MEMORY_PAGE_SIZE; lia). rewrite Hp. cbn [vp_mapped vp_page_size vp_flags vp_physical negb orb].
  change (4096 =? MEMORY_PAGE_SIZE) with true. destruct (sa_held _ _ _ Ha f ltac:(by eapply list_elem_of_lookup_2)) as [Hfu Hfa]. destruct (vi_ctx _ _ (ki_vm _ (si_kernel _ _ _ I))) as [Hw _].
  destruct (pf_aligned _ f Hw Hfu Hfa) as [Hfm _]. rewrite page_aligned_mod, Hfm. unfold kframes. rewrite (pf_direct _ f f MEMORY_PAGE_SIZE Hw Hfu Hfa) by (unfold MEMORY_PAGE_SIZE; lia).
  assert (Z.land (page_flags nx) (Z.lor VMM_PRESENT (Z.lor VMM_WRITABLE VMM_USER)) =? Z.lor VMM_PRESENT VMM_WRITABLE = true) as -> by (destruct nx; by vm_compute). cbn [negb orb Z.eqb].
  rewrite bool_decide_eq_true_2 by done. cbn [negb]. rewrite !u64_small by (unfold u64_ok, UINT64_MAX; lia).
  replace (guard_at k + 69632 - 192 - (guard_at k + 4096 + 4096 * Z.of_nat 15)) with 3904 by lia. replace (guard_at k + 69632 - 8 - (guard_at k + 4096 + 4096 * Z.of_nat 15)) with 4088 by lia.
  change (3904 / 8) with 488. change (4088 / 8) with 511. split_and!; [done|done|]. exists fs, f. split_and!; [done|done|]. intros g i. cbn [vm_mem]. rewrite !store_words_spec.
  cbn [length]. unfold first_words, first_frame. destruct (Z.eqb_spec g f) as [-> |]; cbn [negb andb]; [|done].
  destruct (Z.eqb_spec i 511) as [-> |]; [done|]. destruct (Z.leb_spec 511 i), (Z.ltb_spec i (511 + Z.of_nat 1)); cbn [andb]; try lia; done.
Qed.

Lemma frame_kernel m f mem : kinv m -> kloose (vm_ctx m) f -> (forall g i, g <> f -> mem g i = vm_mem m g i) ->
  kinv (MkVm (vm_ctx m) mem) /\ forall a, vmm_query_page (MkVm (vm_ctx m) mem) a = vmm_query_page m a.
Proof.
  intros K Hl Hm. apply (kinv_kept m); [done|done|apply K|]. intros l p pre Hr. destruct (vi_table _ _ (ki_vm _ K) _ _ _ Hr) as [Ht Ho]. split_and!; [done|done|done|].
  intros i. cbn [vm_mem]. apply Hm. intros ->. by apply (ki_tables _ K _ _ _ Hr).
Qed.

Lemma frame_inv_kept s m L t entry sentinel : stack_inv s m L -> 0 <= ts_slot t -> stack_inv s (fst (thread_frame_init s m t entry sentinel)) L.
Proof.
  intros I Hs. pose proof (frame_spec s m L t entry sentinel I Hs) as Hf. destruct (thread_frame_init s m t entry sentinel) as [m' r]. cbn [fst].
  destruct (_ && _) eqn:Eg; [|by destruct Hf as [-> ->]]. destruct Hf as (-> & Ec & fs & f & Hfs & Hl & Hm).
  destruct (si_stack _ _ _ I _ _ Hfs) as (_ & _ & Ha). destruct (frame_kernel m f (vm_mem m') (si_kernel _ _ _ I)) as [K' Q'].
  - apply (sa_held _ _ _ Ha). by eapply list_elem_of_lookup_2.
  - intros g i Hne. rewrite Hm. unfold first_words. by assert (g =? f = false) as -> by lia.
  - assert (MkVm (vm_ctx m) (vm_mem m') = m') as E by (rewrite <- Ec; by destruct m'). rewrite E in K', Q'.
    constructor; [done|apply I..| |apply I]. intros k gs Hgs. destruct (si_stack _ _ _ I k gs Hgs) as (Hkr & Hgn & Hak). split; [done|]. split; [done|].
    apply (stack_at_frame m); [done|done|done|]. rewrite Ec. apply Hak.
Qed.

(** The first frame of a thread.  For a live stack and canonical addresses it
    always succeeds, sixteen-byte aligned and below the sentinel at the top of
    the stack, from where the new thread returns; it enters [entry] in ring 0
    with interrupts enabled.  Only the last page of this stack is written. *)
Theorem thread_frame_exact (s : stacks) (m : M) (L : gmap Z (list Z)) (t : thread_stack) (entry sentinel : Z) : stack_inv s m L -> 0 <= ts_slot t ->
  let '(m', r) := thread_frame_init s m t entry sentinel in
  stack_inv s m' L /\
  if negb (entry =? 0) && negb (sentinel =? 0) && memory_is_canonical entry && memory_is_canonical sentinel && descriptor_valid s t then
    r = Some (ts_top t - 192) /\ (ts_top t - 192) mod 16 = 0 /\ vm_ctx m' = vm_ctx m /\ exists fs f, L !! ts_slot t = Some fs /\ fs !! 15%nat = Some f /\
      forall g i, vm_mem m' g i = first_words (vm_mem m) f (ts_top t) entry sentinel g i
  else r = None /\ m' = m.
Proof.
  intros I Hs. pose proof (frame_spec s m L t entry sentinel I Hs) as Hf. pose proof (frame_inv_kept s m L t entry sentinel I Hs) as I'.
  destruct (thread_frame_init s m t entry sentinel) as [m' r]. split; [done|]. destruct (_ && _) eqn:Eg; [|done].
  destruct Hf as (-> & Ec & fs & f & Hfs & Hl & Hm). apply andb_true_iff in Eg as [_ Hv]. destruct (live_descriptor s m L t I Hs Hv) as (_ & _ & Hk & Et & _).
  destruct (guard_facts _ Hk) as (_ & Hgm & _). split_and!; [done| |done|by exists fs, f]. rewrite Et. cbn [ts_top descriptor ts_slot]. dlia.
Qed.

(** ** Sequences of calls *)

(** What other code may do between the calls: anything that leaves the address
    ranges of the live stacks alone and does not free their frames. *)
Definition others (s : stacks) (m m' : M) : Prop :=
  kinv m' /\ forall k a, 0 <= k < 64 -> Z.testbit (sk_occupied s) k = true -> guard_at k <= a < guard_at k + 69632 ->
    vmm_query_page m' a = vmm_query_page m a /\
    forall mp, vmm_query_page m a = Some mp -> vp_mapped mp = true -> kloose (vm_ctx m) (vp_physical mp) -> kloose (vm_ctx m') (vp_physical mp).

(** The states that calls from the boot reach, with the descriptors that are in
    their callers' hands and those that were given back. *)
Inductive stacks_reach (m0 : M) : stacks -> M -> list thread_stack -> list thread_stack -> Prop :=
  | reach_boot : stacks_reach m0 stacks_boot m0 [] []
  | reach_others s m live dead m' : stacks_reach m0 s m live dead -> others s m m' -> stacks_reach m0 s m' live dead
  | reach_alloc s m live dead s' m' t : stacks_reach m0 s m live dead -> thread_stack_alloc s m = (s', m', Some t) -> stacks_reach m0 s' m' (t :: live) dead
  | reach_no_alloc s m live dead s' m' : stacks_reach m0 s m live dead -> thread_stack_alloc s m = (s', m', None) -> stacks_reach m0 s' m' live dead
  | reach_free s m live dead t anchor s' m' t' : stacks_reach m0 s m live dead -> 0 <= ts_slot t -> thread_stack_free s m t anchor = (s', m', t', true) ->
      stacks_reach m0 s' m' (filter (.≠ t) live) (t :: dead)
  | reach_no_free s m live dead t anchor s' m' t' : stacks_reach m0 s m live dead -> 0 <= ts_slot t -> thread_stack_free s m t anchor = (s', m', t', false) ->
      stacks_reach m0 s' m' live dead
  | reach_frame s m live dead t entry sentinel m' r : stacks_reach m0 s m live dead -> 0 <= ts_slot t -> thread_frame_init s m t entry sentinel = (m', r) ->
      stacks_reach m0 s m' live dead.

(** The descriptors in the callers' hands are those of the live slots; an epoch
    given back is over. *)
Record handed_out (s : stacks) (L : gmap Z (list Z)) (live dead : list thread_stack) : Prop := {
  ho_live : forall t, t ∈ live <-> exists k, is_Some (L !! k) /\ t = descriptor k (arr_get (sk_generations s) k);
  ho_dead : forall t, t ∈ dead -> 0 <= ts_slot t < 64 /\ ts_generation t <= arr_get (sk_generations s) (ts_slot t) /\
    (is_Some (L !! ts_slot t) -> ts_generation t < arr_get (sk_generations s) (ts_slot t))
}.

Lemma others_inv s m m' L : stack_inv s m L -> others s m m' -> stack_inv s m' L.
Proof.
  intros I [K Ho]. constructor; [done|apply I..| |apply I]. intros k fs Hk. destruct (si_stack _ _ _ I k fs Hk) as (Hr & Hg & Ha). split; [done|]. split; [done|].
  assert (Z.testbit (sk_occupied s) k = true) as Hb by (apply (si_slots _ _ _ I k Hr); by rewrite Hk). destruct (sa_pages _ _ _ Ha) as [nx Hp]. apply (stack_at_frame m); [done|done| |].
  - intros a Hin. by apply (Ho k a Hr Hb Hin).
  - intros f Hf. pose proof (sa_held _ _ _ Ha f Hf) as Hl. apply list_elem_of_lookup in Hf as [j Hj]. pose proof (lookup_lt_Some _ _ _ Hj) as Hlt. rewrite (sa_length _ _ _ Ha) in Hlt.
    destruct (Ho k (guard_at k + 4096 + 4096 * Z.of_nat j) Hr Hb ltac:(lia)) as [_ Hx]. by apply (Hx _ (Hp j f Hj)).
Qed.

Lemma boot_inv m : kinv m -> stack_inv stacks_boot m ∅.
Proof.
  intros K. constructor; [done|done|unfold u64_ok, UINT64_MAX; cbn; lia|done| | | |].
  - intros k Hk. unfold arr_get, stacks_boot, sk_generations. rewrite lookup_total_replicate_2 by lia. unfold u64_ok, UINT64_MAX. lia.
  - intros k Hk. cbn [stacks_boot sk_occupied]. rewrite Z.bits_0, lookup_empty. split; [done|by intros [? ?]].
  - intros k fs Hk. by rewrite lookup_empty in Hk.
  - intros k k' fs fs' f Hk. by rewrite lookup_empty in Hk.
Qed.

Lemma handed_alloc s s' m m' L t k fs live dead : stack_inv s m L -> handed_out s L live dead -> allocated_at s s' m m' L t k fs ->
  handed_out s' (<[k := fs]> L) (t :: live) dead.
Proof.
  intros I Ho (Hn & -> & Hgen & I' & _). destruct (si_stack _ _ _ I' k fs (lookup_insert_eq _ _ _)) as (Hk & _). pose proof (si_length _ _ _ I) as Hlen.
  assert (forall j, 0 <= j < 64 -> arr_get (sk_generations s') j = if j =? k then arr_get (sk_generations s) k + 1 else arr_get (sk_generations s) j) as Hg.
  { intros j Hj. rewrite Hgen. destruct (Z.eqb_spec j k) as [-> |]; [by rewrite arr_get_set_eq by lia|by rewrite arr_get_set_ne by lia]. }
  constructor.
  - intros t. rewrite elem_of_cons, (ho_live _ _ _ _ Ho). split.
    + intros [-> |(j & Hj & ->)]; [exists k; rewrite lookup_insert_eq, Hg, Z.eqb_refl by done; done|]. exists j. assert (j <> k) by (intros ->; rewrite Hn in Hj; by destruct Hj).
      destruct (L !! j) as [gs|] eqn:El; [|by destruct Hj]. destruct (si_stack _ _ _ I j gs El) as (Hjr & _). rewrite lookup_insert_ne, El, Hg by done. assert (j =? k = false) as -> by lia. done.
    + intros (j & Hj & ->). destruct (decide (j = k)) as [-> |]; [left; by rewrite Hg, Z.eqb_refl by done|right]. rewrite lookup_insert_ne in Hj by done. exists j. split; [done|].
      destruct (L !! j) as [gs|] eqn:El; [|by destruct Hj]. destruct (si_stack _ _ _ I j gs El) as (Hjr & _). rewrite Hg by done. by assert (j =? k = false) as -> by lia.
  - intros t Ht. destruct (ho_dead _ _ _ _ Ho t Ht) as (Hr & Hle & Hlt). rewrite Hg by done. destruct (Z.eqb_spec (ts_slot t) k) as [E|].
    + rewrite E in *. split_and!; lia.
    + rewrite lookup_insert_ne by done. split_and!; (lia || done).
Qed.

Lemma handed_free s s' m m' L t fs live dead : stack_inv s m L -> handed_out s L live dead -> L !! ts_slot t = Some fs -> sk_generations s' = sk_generations s ->
  t = descriptor (ts_slot t) (arr_get (sk_generations s) (ts_slot t)) -> stack_inv s' m' (delete (ts_slot t) L) ->
  handed_out s' (delete (ts_slot t) L) (filter (.≠ t) live) (t :: dead).
Proof.
  intros I Ho Hfs Hg Et I'. set (k := ts_slot t) in *. destruct (si_stack _ _ _ I k fs Hfs) as (Hk & _). constructor; rewrite Hg.
  - intros u. rewrite list_elem_of_filter, (ho_live _ _ _ _ Ho). split.
    + intros (Hne & j & Hj & ->). exists j. split; [|done]. rewrite lookup_delete_ne; [done|]. intros <-. by apply Hne.
    + intros (j & Hj & ->). destruct (decide (k = j)) as [<- |Hne]; [rewrite lookup_delete_eq in Hj; by destruct Hj|]. rewrite lookup_delete_ne in Hj by done. split; [|by exists j].
      intros E. apply Hne. unfold k. by rewrite <- E.
  - intros u [-> |Hu]%elem_of_cons.
    + fold k. rewrite lookup_delete_eq. assert (ts_generation t = arr_get (sk_generations s) k) as -> by by rewrite Et. split_and!; [lia|lia|lia|by intros [? ?]].
    + destruct (ho_dead _ _ _ _ Ho u Hu) as (Hr & Hle & Hlt). split_and!; [lia|lia|done|]. intros [gs Hgs]. apply lookup_delete_Some in Hgs as [_ Hgs]. apply Hlt. by rewrite Hgs.
Qed.

Lemma reach_inv m0 s m live dead : kinv m0 -> stacks_reach m0 s m live dead -> exists L, stack_inv s m L /\ handed_out s L live dead.
Proof.
  intros K. induction 1 as [|s m live dead m' _ (L & I & Ho) Hm|s m live dead s' m' t _ (L & I & Ho) E|s m live dead s' m' _ (L & I & Ho) E
    |s m live dead t anchor s' m' t' _ (L & I & Ho) Hs E|s m live dead t anchor s' m' t' _ (L & I & Ho) Hs E|s m live dead t entry sentinel m' r _ (L & I & Ho) Hs E].
  - exists ∅. split; [by apply boot_inv|]. constructor; [|by intros t ?%elem_of_nil]. intros t. rewrite elem_of_nil. split; [done|]. intros (k & Hk & _). rewrite lookup_empty in Hk. by destruct Hk.
  - exists L. split; [by eapply others_inv|done].
  - pose proof (alloc_spec s m L I) as Ha. rewrite E in Ha. destruct Ha as (k & fs & Ha). exists (<[k := fs]> L). split; [apply Ha|by eapply handed_alloc].
  - pose proof (alloc_spec s m L I) as Ha. rewrite E in Ha. destruct Ha as (-> & S & _). exists L. split; [by eapply stacks_same|done].
  - pose proof (free_spec s m L t anchor I Hs) as Hf. rewrite E in Hf. destruct Hf as (Hok & fs & Hfs & _ & Hg & _ & I'). symmetry in Hok. apply andb_true_iff in Hok as [Hv _].
    destruct (live_descriptor s m L t I Hs Hv) as (_ & _ & _ & Et & _). exists (delete (ts_slot t) L). split; [done|by eapply handed_free].
  - pose proof (free_spec s m L t anchor I Hs) as Hf. rewrite E in Hf. destruct Hf as (_ & -> & -> & _). by exists L.
  - pose proof (frame_inv_kept s m L t entry sentinel I Hs) as I'. rewrite E in I'. by exists L.
Qed.

(** C12. Over every sequence of calls, with anything in between that leaves the stacks
    alone: nothing panics; a descriptor is accepted just while it is in its
    owner's hands, whatever copies of it exist and however often its slot was
    used again; each live stack has sixteen frames of its own below its top and
    an unmapped guard; and two live stacks share neither addresses nor frames. *)
Theorem thread_stacks_safe (m0 : M) (s : stacks) (m : M) (live dead : list thread_stack) : kinv m0 -> stacks_reach m0 s m live dead ->
  sk_panic s = false /\
  (forall t, 0 <= ts_slot t -> descriptor_valid s t = true <-> t ∈ live) /\
  (forall t, t ∈ dead -> t ∉ live) /\
  (forall t, t ∈ live -> exists fs, stack_at m (ts_slot t) fs) /\
  forall t u fs gs, t ∈ live -> u ∈ live -> t <> u -> stack_at m (ts_slot t) fs -> stack_at m (ts_slot u) gs ->
    (ts_top t <= ts_guard u \/ ts_top u <= ts_guard t) /\ forall f, f ∈ fs -> f ∉ gs.
Proof.
  intros K Hr. destruct (reach_inv m0 s m live dead K Hr) as (L & I & Ho).
  assert (forall t, t ∈ live -> exists fs, L !! ts_slot t = Some fs /\ 0 <= ts_slot t < 64 /\ stack_at m (ts_slot t) fs /\
    t = descriptor (ts_slot t) (arr_get (sk_generations s) (ts_slot t)) /\ 0 < arr_get (sk_generations s) (ts_slot t)) as Hlive.
  { intros t (k & [fs Hk] & ->)%(ho_live _ _ _ _ Ho). cbn [ts_slot descriptor]. destruct (si_stack _ _ _ I k fs Hk) as (? & ? & ?). exists fs. split_and!; (lia || done). }
  split_and!; [apply I| | | |].
  - intros t Hs. split.
    + intros Hv. destruct (live_descriptor s m L t I Hs Hv) as (fs & Hfs & _ & Et & _). apply (ho_live _ _ _ _ Ho). exists (ts_slot t). by rewrite Hfs.
    + intros (fs & Hfs & Hk & _ & Et & Hg)%Hlive. apply descriptor_exact; [done|apply I|]. cbv zeta. split_and!; [lia| |lia|done]. apply (si_slots _ _ _ I _ Hk). by rewrite Hfs.
  - intros t Hd Hl. destruct (Hlive t Hl) as (fs & Hfs & _ & _ & Et & _). destruct (ho_dead _ _ _ _ Ho t Hd) as (_ & _ & Hlt). rewrite Hfs in Hlt. specialize (Hlt ltac:(done)).
    rewrite Et in Hlt at 1. cbn [ts_generation descriptor] in Hlt. lia.
  - intros t (fs & _ & _ & Ha & _)%Hlive. by exists fs.
  - intros t u fs gs Ht Hu Hne Ha Hb. destruct (Hlive t Ht) as (fs' & Hfs & Hk & Ha' & Et & _), (Hlive u Hu) as (gs' & Hgs & Hj & Hb' & Eu & _).
    assert (ts_slot t <> ts_slot u) as Hns by (intros E; apply Hne; rewrite Et, Eu, E; done). split.
    + rewrite Et, Eu. cbn [ts_top ts_guard descriptor]. destruct (slots_apart (ts_slot t) (ts_slot u) Hk Hj Hns); auto.
    + rewrite (stack_at_unique m _ fs fs' Ha Ha'), (stack_at_unique m _ gs gs' Hb Hb'). intros f Hf Hf'. by apply Hns, (si_disjoint _ _ _ I _ _ fs' gs' f).
Qed.
End stacks.

(** ** Stacks on a machine of sixty-four frames *)

Lemma alloc_next {P} `{PageFramesLaws P} (m0 : vm (kstate P)) s m live dead t : stacks_reach m0 s m live dead -> snd (thread_stack_alloc s m) = Some t ->
  stacks_reach m0 (fst (fst (thread_stack_alloc s m))) (snd (fst (thread_stack_alloc s m))) (t :: live) dead.
Proof. intros Hr E. apply (reach_alloc m0 s m live dead); [done|]. by destruct (thread_stack_alloc s m) as [[? ?] ?]; cbn in *; subst. Qed.

Lemma free_next {P} `{PageFramesLaws P} (m0 : vm (kstate P)) s m live dead t anchor : stacks_reach m0 s m live dead -> 0 <= ts_slot t -> snd (thread_stack_free s m t anchor) = true ->
  stacks_reach m0 (fst (fst (fst (thread_stack_free s m t anchor)))) (snd (fst (fst (thread_stack_free s m t anchor)))) (filter (.≠ t) live) (t :: dead).
Proof.
  intros Hr Hs E. apply (reach_free m0 s m live dead t anchor _ _ (snd (fst (thread_stack_free s m t anchor)))); [done|done|].
  by destruct (thread_stack_free s m t anchor) as [[[? ?] ?] ?]; cbn in *; subst.
Qed.

Module TwoStacks.
Notation M := (vm (kstate machine)).
Definition one : stacks * M := fst (thread_stack_alloc stacks_boot EmptyKernel.start).
Definition two : stacks * M := fst (thread_stack_alloc (fst one) (snd one)).
Definition first : thread_stack := descriptor 0 1.
Definition freed : stacks * M := fst (fst (thread_stack_free (fst two) (snd two) first 0)).
Definition three : stacks * M := fst (thread_stack_alloc (fst freed) (snd freed)).

Lemma starved_kinv n : kinv (EmptyKernel.frame_of n EmptyKernel.start).
Proof.
  induction n as [|n IH]; [apply EmptyKernel.start_kinv|]. cbn. destruct (allocate_page _) as [m' r] eqn:E. by destruct (kalloc_spec _ m' r IH E).
Qed.
End TwoStacks.

Lemma thread_stack_alloc_exact_witness :
  snd (thread_stack_alloc stacks_boot EmptyKernel.start) = Some TwoStacks.first /\
  (exists k fs, allocated_at stacks_boot (fst TwoStacks.one) EmptyKernel.start (snd TwoStacks.one) ∅ TwoStacks.first k fs) /\
  let m := EmptyKernel.frame_of 50 EmptyKernel.start in snd (thread_stack_alloc stacks_boot m) = None /\ no_stack stacks_boot m ∅.
Proof.
  pose proof (thread_stack_alloc_exact stacks_boot EmptyKernel.start ∅ (boot_inv _ EmptyKernel.start_kinv)) as A.
  pose proof (thread_stack_alloc_exact stacks_boot (EmptyKernel.frame_of 50 EmptyKernel.start) ∅ (boot_inv _ (TwoStacks.starved_kinv 50))) as B.
  assert (snd (thread_stack_alloc stacks_boot EmptyKernel.start) = Some TwoStacks.first) as Ea by (vm_cast_no_check (eq_refl (Some TwoStacks.first))).
  assert (snd (thread_stack_alloc stacks_boot (EmptyKernel.frame_of 50 EmptyKernel.start)) = None) as Eb by (vm_cast_no_check (eq_refl (@None thread_stack))).
  unfold TwoStacks.one. cbv zeta. destruct (thread_stack_alloc stacks_boot EmptyKernel.start) as [[s1 m1] r1].
  destruct (thread_stack_alloc stacks_boot (EmptyKernel.frame_of 50 EmptyKernel.start)) as [[s2 m2] r2]. cbn [fst snd] in *. subst r1 r2.
  destruct A as (k & fs & A & _). destruct B as (_ & _ & _ & B). split_and!; [done|by exists k, fs|done|done].
Defined.

Lemma thread_stacks_safe_witness :
  let s := fst TwoStacks.three in
  descriptor_valid s (descriptor 0 2) = true /\ descriptor_valid s (descriptor 1 1) = true /\ descriptor_valid s TwoStacks.first = false /\ sk_panic s = false.
Proof.
  assert (stacks_reach EmptyKernel.start (fst TwoStacks.three) (snd TwoStacks.three) [descriptor 0 2; descriptor 1 1] [TwoStacks.first]) as Hr.
  { unfold TwoStacks.three. apply alloc_next; [|vm_cast_no_check (eq_refl (Some (descriptor 0 2)))].
    unfold TwoStacks.freed. change [descriptor 1 1] with (filter (.≠ TwoStacks.first) [descriptor 1 1; TwoStacks.first]). apply free_next; [|done|vm_cast_no_check (eq_refl true)].
    unfold TwoStacks.two. apply alloc_next; [|vm_cast_no_check (eq_refl (Some (descriptor 1 1)))].
    unfold TwoStacks.one. apply alloc_next; [constructor|vm_cast_no_check (eq_refl (Some TwoStacks.first))]. }
  destruct (thread_stacks_safe EmptyKernel.start _ _ _ _ EmptyKernel.start_kinv Hr) as (Hp & Hv & _). split_and!.
  - apply Hv; [done|by left].
  - apply Hv; [done|right; by left].
  - apply not_true_iff_false. rewrite Hv by done. by intros [[=]|[[=]|?%elem_of_nil]%elem_of_cons]%elem_of_cons.
  - exact Hp.
Defined.

Lemma one_inv : exists fs, stack_inv (fst TwoStacks.one) (snd TwoStacks.one) {[0 := fs]}.
Proof.
  pose proof (alloc_spec stacks_boot EmptyKernel.start ∅ (boot_inv _ EmptyKernel.start_kinv)) as A. unfold TwoStacks.one.
  assert (snd (thread_stack_alloc stacks_boot EmptyKernel.start) = Some TwoStacks.first) as Ea by (vm_cast_no_check (eq_refl (Some TwoStacks.first))).
  destruct (thread_stack_alloc stacks_boot EmptyKernel.start) as [[s1 m1] r1]. cbn [fst snd] in *. subst r1. destruct A as (k & fs & _ & Et & _ & I & _).
  assert (k = 0) as -> by (apply (f_equal ts_slot) in Et; cbn in Et; congruence). exists fs. by rewrite insert_empty in I.
Qed.

Lemma thread_stack_free_exact_witness :
  let s := fst TwoStacks.one in let m := snd TwoStacks.one in
  snd (thread_stack_free s m TwoStacks.first 0) = true /\ descriptor_valid (fst (fst (fst (thread_stack_free s m TwoStacks.first 0)))) TwoStacks.first = false /\
  snd (thread_stack_free s m TwoStacks.first (ts_base TwoStacks.first)) = false /\ snd (thread_stack_free s m (descriptor 0 7) 0) = false.
Proof.
  destruct one_inv as [fs I]. cbv zeta. set (s := fst TwoStacks.one) in *. set (m := snd TwoStacks.one) in *.
  assert (descriptor_valid s TwoStacks.first = true) as Hv by (vm_cast_no_check (eq_refl true)).
  assert (descriptor_valid s (descriptor 0 7) = false) as Hn by (vm_cast_no_check (eq_refl false)). clearbody s m.
  pose proof (thread_stack_free_exact s m _ TwoStacks.first 0 I (Z.le_refl 0)) as A. pose proof (thread_stack_free_exact s m _ TwoStacks.first (ts_base TwoStacks.first) I (Z.le_refl 0)) as B.
  pose proof (thread_stack_free_exact s m _ (descriptor 0 7) 0 I (Z.le_refl 0)) as C. rewrite Hv in A, B. rewrite Hn in C.
  destruct (thread_stack_free s m TwoStacks.first 0) as [[[s1 m1] t1] o1]. destruct (thread_stack_free s m TwoStacks.first _) as [[[s2 m2] t2] o2]. destruct (thread_stack_free s m (descriptor 0 7) 0) as [[[s3 m3] t3] o3].
  cbn [fst snd]. destruct A as [-> A], B as [-> _], C as [-> _]. change (runs_on TwoStacks.first 0) with false in *. cbn [andb negb] in *.
  destruct A as (gs & _ & _ & _ & _ & _ & A). split_and!; [done|exact A|by vm_compute|done].
Defined.

Lemma thread_frame_exact_witness :
  let r := thread_frame_init (fst TwoStacks.one) (snd TwoStacks.one) TwoStacks.first 0xffffffff80001000 0xffffffff80002000 in
  snd r = Some (ts_top TwoStacks.first - 192) /\ exists f, vm_mem (fst r) f 505 = 0xffffffff80001000 /\ vm_mem (fst r) f 511 = 0xffffffff80002000.
Proof.
  destruct one_inv as [fs I]. cbv zeta. set (s := fst TwoStacks.one) in *. set (m := snd TwoStacks.one) in *.
  assert (descriptor_valid s TwoStacks.first = true) as Hv by (vm_cast_no_check (eq_refl true)). clearbody s m.
  pose proof (thread_frame_exact s m _ TwoStacks.first 0xffffffff80001000 0xffffffff80002000 I (Z.le_refl 0)) as A. rewrite Hv in A. destruct (thread_frame_init _ _ _ _ _) as [m' r]. cbn [fst snd].
  change (_ && true) with true in A. destruct A as (_ & -> & _ & _ & gs & f & _ & _ & Hm). split; [done|]. exists f. rewrite !Hm. unfold first_words. by rewrite Z.eqb_refl.
Defined.
