(* ===== verification/UserVm.v ===== *)
(** * User address spaces (kernel/memory/user_vm.c): definitions

    A [struct user_vm] is the context of the callbacks that its page-table code
    calls back, so the state of this component is the [vm] of VmmCore.v with the
    object itself, the frame allocator and the registers of the CPU as context.
    [vm_mem] has the 64-bit words of all physical frames, tables and data alike;
    an alias of the direct map is named by the physical address it shows.  The
    interrupt flag is saved and restored around every call and is left out.
    [PANIC] sets [us_panic]. *)

From S2P Require Import Prelude MemoryHelpers VmmCore Frames KernelVm.
Open Scope Z_scope.

Definition USER_VM_PAGE_LIMIT : nat := 128.
Definition USER_VM_TABLE_LIMIT : nat := 64.
Definition USER_VM_MIN : Z := 0x10000.
Definition USER_VM_END : Z := 0x0000800000000000.
Definition USER_VM_COPY_LIMIT : Z := 65536.
Definition USER_VM_WRITE : Z := 1.
Definition USER_VM_EXEC : Z := 2.
Definition USER_VM_COPY_CHUNKS : nat := Z.to_nat (USER_VM_COPY_LIMIT / MEMORY_PAGE_SIZE + 1).

Definition VMM_ACCESSED : Z := 32.
Definition VMM_DIRTY : Z := 64.
Definition USER_VM_LEAF_FLAGS : Z :=
  Z.lor VMM_PRESENT (Z.lor VMM_WRITABLE (Z.lor VMM_USER (Z.lor VMM_ACCESSED (Z.lor VMM_DIRTY VMM_NX)))).
Definition UTAMO_CR4_LA57 : Z := Z.shiftl 1 12.
Definition UTAMO_CR4_PCIDE : Z := Z.shiftl 1 17.

Record user_vm_page := MkUPage { up_virt : Z; up_phys : Z; up_allocated : bool }.
Record user_vm_table := MkUTable { ut_phys : Z; ut_allocated : bool; ut_published : bool }.
Record user_vm := MkUserVm {
  uv_space : vmm_space;
  uv_pages : list user_vm_page;
  uv_tables : list user_vm_table;
  uv_page_count : Z;
  uv_table_count : Z;
  uv_initialized : bool
}.
Definition page_zero : user_vm_page := MkUPage 0 0 false.
Definition table_zero : user_vm_table := MkUTable 0 false false.
Definition user_vm_zero : user_vm :=
  MkUserVm (MkSpace 0 0 false false) (replicate USER_VM_PAGE_LIMIT page_zero) (replicate USER_VM_TABLE_LIMIT table_zero) 0 0 false.

#[export] Instance user_vm_page_inhabited : Inhabited user_vm_page := populate page_zero.
#[export] Instance user_vm_table_inhabited : Inhabited user_vm_table := populate table_zero.

(** The context: the object, the frames, CR3 and CR4, and what was flushed. *)
Record ustate (P : Type) := MkUState {
  us_vm : user_vm;
  us_frames : P;
  us_cr3 : Z;
  us_cr4 : Z;
  us_flushed : list Z;
  us_panic : bool
}.
Arguments MkUState {P}.
Arguments us_vm {P}.
Arguments us_frames {P}.
Arguments us_cr3 {P}.
Arguments us_cr4 {P}.
Arguments us_flushed {P}.
Arguments us_panic {P}.

(** The position of the first element with [p], or the length. *)
Fixpoint first_index {A} (p : A -> bool) (l : list A) : nat :=
  match l with
  | [] => O
  | x :: l => if p x then O else S (first_index p l)
  end.

Definition valid_address (virt : Z) : bool := (USER_VM_MIN <=? virt) && (virt <? USER_VM_END).
Definition valid_access (access : Z) : bool :=
  (Z.land access (Z.ldiff UINT32_MAX (Z.lor USER_VM_WRITE USER_VM_EXEC)) =? 0) && negb (access =? Z.lor USER_VM_WRITE USER_VM_EXEC).
Definition access_flags (access : Z) : Z :=
  Z.lor (Z.lor (Z.lor VMM_PRESENT VMM_USER) (if has access USER_VM_WRITE then VMM_WRITABLE else 0))
        (if negb (has access USER_VM_EXEC) then VMM_NX else 0).

Definition ready (u : user_vm) : bool :=
  uv_initialized u && vs_initialized (uv_space u) && vs_nx_enabled (uv_space u) &&
  (uv_page_count u <=? Z.of_nat USER_VM_PAGE_LIMIT) &&
  negb (uv_table_count u =? 0) && (uv_table_count u <=? Z.of_nat USER_VM_TABLE_LIMIT) &&
  ut_allocated (uv_tables u !!! 0%nat) && ut_published (uv_tables u !!! 0%nat) &&
  (ut_phys (uv_tables u !!! 0%nat) =? vs_root_phys (uv_space u)).

Definition page_slot (u : user_vm) (virt : Z) : nat :=
  let page := memory_align_down virt in
  first_index (fun p => up_allocated p && (up_virt p =? page)) (uv_pages u).
Definition table_slot (u : user_vm) (phys : Z) : nat :=
  first_index (fun t => ut_allocated t && (ut_phys t =? phys)) (uv_tables u).

Definition set_tables (ts : list user_vm_table) (n : Z) (u : user_vm) : user_vm :=
  MkUserVm (uv_space u) (uv_pages u) ts (uv_page_count u) n (uv_initialized u).
Definition set_pages (ps : list user_vm_page) (n : Z) (u : user_vm) : user_vm :=
  MkUserVm (uv_space u) ps (uv_tables u) n (uv_table_count u) (uv_initialized u).
Definition set_space (s : vmm_space) (b : bool) (u : user_vm) : user_vm :=
  MkUserVm s (uv_pages u) (uv_tables u) (uv_page_count u) (uv_table_count u) b.

Section user_vm.
Context {P : Type} `{PageFrames P}.
Notation S := (ustate P).

Definition with_vm (f : user_vm -> user_vm) (c : S) : S :=
  MkUState (f (us_vm c)) (us_frames c) (us_cr3 c) (us_cr4 c) (us_flushed c) (us_panic c).
Definition with_frames (p : P) (c : S) : S := MkUState (us_vm c) p (us_cr3 c) (us_cr4 c) (us_flushed c) (us_panic c).
Definition panic (c : S) : S := MkUState (us_vm c) (us_frames c) (us_cr3 c) (us_cr4 c) (us_flushed c) true.

(** ** The callbacks *)

Definition table_access (c : S) (phys : Z) : bool :=
  negb (bool_decide (table_slot (us_vm c) phys = USER_VM_TABLE_LIMIT)) &&
  pmm_is_allocated_page (us_frames c) phys && bool_decide (is_Some (memory_phys_to_virt (us_frames c) phys MEMORY_PAGE_SIZE)).

Definition table_allocate (c : S) : S * option Z :=
  let u := us_vm c in
  if Z.of_nat USER_VM_TABLE_LIMIT <=? uv_table_count u then (c, None)
  else
    let slot := Datatypes.S (first_index (fun t => negb (ut_allocated t)) (tail (uv_tables u))) in
    if bool_decide (slot = USER_VM_TABLE_LIMIT) then (c, None)
    else match pmm_alloc_page (us_frames c) with
    | (p, None) => (with_frames p c, None)
    | (p, Some phys) =>
        (with_vm (set_tables (<[slot := MkUTable phys true false]> (uv_tables u)) (uv_table_count u +u 1)) (with_frames p c), Some phys)
    end.

Definition release_frame (c : S) (phys : Z) : S :=
  let (p, ok) := pmm_free_page (us_frames c) phys in
  if negb ok then panic (with_frames p c) else with_frames p c.

Definition table_release (c : S) (phys : Z) : S :=
  let slot := table_slot (us_vm c) phys in
  if bool_decide (slot = O) || bool_decide (slot = USER_VM_TABLE_LIMIT) || ut_published (uv_tables (us_vm c) !!! slot) then panic c
  else
    let c := release_frame c phys in
    with_vm (set_tables (<[slot := table_zero]> (uv_tables (us_vm c))) (uv_table_count (us_vm c) -u 1)) c.

Definition table_commit (c : S) (phys : Z) : S :=
  let slot := table_slot (us_vm c) phys in
  let t := uv_tables (us_vm c) !!! slot in
  if bool_decide (slot = O) || bool_decide (slot = USER_VM_TABLE_LIMIT) || ut_published t then panic c
  else with_vm (set_tables (<[slot := MkUTable (ut_phys t) (ut_allocated t) true]> (uv_tables (us_vm c))) (uv_table_count (us_vm c))) c.

Definition invalidate (c : S) (virt : Z) : S :=
  let space := uv_space (us_vm c) in
  if Z.land (us_cr3 c) (vs_physical_mask space) =? vs_root_phys space
  then MkUState (us_vm c) (us_frames c) (us_cr3 c) (us_cr4 c) (us_flushed c ++ [virt]) (us_panic c)
  else c.

#[export] Instance user_vm_ops : VmmOps S := {|
  op_table := table_access;
  op_alloc := table_allocate;
  op_free := table_release;
  op_commit := table_commit;
  op_invalidate := invalidate
|}.

Notation M := (vm S).
Definition obj (m : M) : user_vm := us_vm (vm_ctx m).
Definition in_ctx (f : S -> S) (m : M) : M := MkVm (f (vm_ctx m)) (vm_mem m).
Definition in_mem (f : (Z -> Z -> Z) -> Z -> Z -> Z) (m : M) : M := MkVm (vm_ctx m) (f (vm_mem m)).

(** ** Creation *)

(** Entries 256 to 511 of the kernel's root, without [VMM_USER]. *)
Definition vmm_copy_kernel_half (k : kernel_vmm) (m : M) : option (list Z) :=
  let root := vinf_root_phys (kv_information k) in
  if negb (kv_ready k && kernel_table (us_frames (vm_ctx m)) root) then None
  else if Z.land (vm_mem m root (memory_page_index VMM_DYNAMIC_BASE 4)) VMM_PRESENT =? 0 then None
  else Some ((fun i => Z.land (vm_mem m root (256 + i)) (not64 VMM_USER)) <$> seqZ 0 256).

Definition store_upper (mem : Z -> Z -> Z) (root : Z) (upper : list Z) : Z -> Z -> Z :=
  foldl (fun mem i => mem_set mem root (256 + i) (Z.land (arr_get upper i) (not64 VMM_USER))) mem (seqZ 0 256).

Definition user_vm_create (k : kernel_vmm) (m : M) : M * bool :=
  let u := obj m in
  if uv_initialized u || vs_initialized (uv_space u) || negb (uv_page_count u =? 0) || negb (uv_table_count u =? 0) then (m, false)
  else match vmm_get_info k with
  | None => (m, false)
  | Some info =>
      if negb (vinf_nx_enabled info) || negb (Z.land (us_cr4 (vm_ctx m)) (Z.lor UTAMO_CR4_LA57 UTAMO_CR4_PCIDE) =? 0) then (m, false)
      else match vmm_copy_kernel_half k m with
      | None => (m, false)
      | Some upper =>
          match pmm_alloc_page (us_frames (vm_ctx m)) with
          | (p, None) => (in_ctx (with_frames p) m, false)
          | (p, Some phys) =>
              let m := in_ctx (with_frames p) m in
              let m := in_ctx (with_vm (fun u => set_tables (<[0%nat := MkUTable phys true true]> (uv_tables u)) 1 u)) m in
              if negb (table_access (vm_ctx m) phys) then
                (in_ctx (with_vm (fun _ => user_vm_zero)) (in_ctx (fun c => release_frame c phys) m), false)
              else
                let m := in_mem (fun mem => store_upper (mem_clear mem phys) phys upper) m in
                match vmm_space_init m phys (vinf_physical_bits info) true with
                | None => (in_ctx (with_vm (fun _ => user_vm_zero)) (in_ctx (fun c => release_frame c phys) m), false)
                | Some space => (in_ctx (with_vm (set_space space true)) m, true)
                end
          end
      end
  end.

(** ** Pages *)

Definition query_locked (m : M) (virt : Z) : option vmm_mapping :=
  let u := obj m in
  if negb (ready u) || negb (valid_address virt) then None
  else match vmm_space_query (uv_space u) m virt with
  | None => None
  | Some mapping =>
      let slot := page_slot u virt in
      let absent := bool_decide (slot = USER_VM_PAGE_LIMIT) in
      if negb (vp_mapped mapping) then (if negb absent then None else Some mapping)
      else if absent || negb (vp_page_size mapping =? MEMORY_PAGE_SIZE) ||
              negb (memory_align_down (vp_physical mapping) =? up_phys (uv_pages u !!! slot)) ||
              negb (pmm_is_allocated_page (us_frames (vm_ctx m)) (up_phys (uv_pages u !!! slot))) ||
              negb (Z.land (vp_flags mapping) (Z.lor VMM_PRESENT VMM_USER) =? Z.lor VMM_PRESENT VMM_USER) ||
              negb (Z.land (vp_flags mapping) (not64 USER_VM_LEAF_FLAGS) =? 0) ||
              (has (vp_flags mapping) VMM_WRITABLE && (Z.land (vp_flags mapping) VMM_NX =? 0))
      then None
      else Some mapping
  end.
Definition user_vm_query := query_locked.

Definition user_vm_alloc_page (m : M) (virt access : Z) : M * bool :=
  let u := obj m in
  if negb (ready u) || negb (memory_is_page_aligned virt) || negb (valid_access access) ||
     (uv_page_count u =? Z.of_nat USER_VM_PAGE_LIMIT) then (m, false)
  else match query_locked m virt with
  | None => (m, false)
  | Some mapping =>
      if vp_mapped mapping then (m, false)
      else
        let slot := first_index (fun p => negb (up_allocated p)) (uv_pages u) in
        if bool_decide (slot = USER_VM_PAGE_LIMIT) then (m, false)
        else match pmm_alloc_page (us_frames (vm_ctx m)) with
        | (p, None) => (in_ctx (with_frames p) m, false)
        | (p, Some phys) =>
            let m := in_ctx (with_frames p) m in
            match memory_phys_to_virt p phys MEMORY_PAGE_SIZE with
            | None => (in_ctx (fun c => release_frame c phys) m, false)
            | Some _ =>
                let m := in_mem (fun mem => mem_clear mem phys) m in
                match vmm_space_map (uv_space u) m virt phys (access_flags access) with
                | (m, false) => (in_ctx (fun c => release_frame c phys) m, false)
                | (m, true) =>
                    (in_ctx (with_vm (fun u => set_pages (<[slot := MkUPage virt phys true]> (uv_pages u)) (uv_page_count u +u 1) u)) m, true)
                end
            end
        end
  end.

Definition user_vm_unmap_page (m : M) (virt : Z) : M * bool :=
  if negb (memory_is_page_aligned virt) then (m, false)
  else match query_locked m virt with
  | None => (m, false)
  | Some mapping =>
      if negb (vp_mapped mapping) then (m, false)
      else match vmm_space_unmap (uv_space (obj m)) m virt with
      | (m, false) => (m, false)
      | (m, true) =>
          let slot := page_slot (obj m) virt in
          let m := in_ctx (fun c => release_frame c (up_phys (uv_pages (us_vm c) !!! slot))) m in
          (in_ctx (with_vm (fun u => set_pages (<[slot := page_zero]> (uv_pages u)) (uv_page_count u -u 1) u)) m, true)
      end
  end.

Definition user_vm_protect_page (m : M) (virt access : Z) : M * bool :=
  if negb (memory_is_page_aligned virt) || negb (valid_access access) then (m, false)
  else match query_locked m virt with
  | None => (m, false)
  | Some mapping =>
      if negb (vp_mapped mapping) then (m, false)
      else vmm_space_protect (uv_space (obj m)) m virt (access_flags access)
  end.

(** ** Copies *)

(** The byte at a physical address, little endian within its word. *)
Definition phys_byte (mem : Z -> Z -> Z) (a : Z) : Z :=
  u8 (Z.shiftr (mem (memory_align_down a) (a mod 4096 / 8)) (8 * (a mod 8))).
Definition store_byte (mem : Z -> Z -> Z) (a v : Z) : Z -> Z -> Z :=
  let page := memory_align_down a in
  let word := mem page (a mod 4096 / 8) in
  mem_set mem page (a mod 4096 / 8)
    (Z.lor (Z.ldiff word (Z.shiftl 255 (8 * (a mod 8)))) (Z.shiftl (u8 v) (8 * (a mod 8)))).
Definition phys_read (mem : Z -> Z -> Z) (a n : Z) : list Z := (fun i => phys_byte mem (a + i)) <$> seqZ 0 n.
Fixpoint phys_write (mem : Z -> Z -> Z) (a : Z) (data : list Z) : Z -> Z -> Z :=
  match data with
  | [] => mem
  | v :: data => phys_write (store_byte mem a v) (a + 1) data
  end.

(** [struct copy_chunk]: where the bytes are and how many. *)
Record copy_chunk := MkChunk { cc_alias : Z; cc_bytes : Z }.

(** The loop of [copy_preflight] with [n] chunks left. *)
Fixpoint preflight_from (n : nat) (m : M) (virt remaining : Z) (write : bool) : option (list copy_chunk) :=
  if remaining =? 0 then Some []
  else match n with
  | O => None
  | Datatypes.S n =>
      match query_locked m virt with
      | None => None
      | Some mapping =>
          if negb (vp_mapped mapping) || (write && (Z.land (vp_flags mapping) VMM_WRITABLE =? 0)) then None
          else
            let chunk := MEMORY_PAGE_SIZE - Z.land virt (MEMORY_PAGE_SIZE - 1) in
            let chunk := if remaining <? chunk then remaining else chunk in
            match memory_phys_to_virt (us_frames (vm_ctx m)) (vp_physical mapping) chunk with
            | None => None
            | Some _ =>
                match preflight_from n m (virt +u chunk) (remaining - chunk) write with
                | None => None
                | Some chunks => Some (MkChunk (vp_physical mapping) chunk :: chunks)
                end
            end
      end
  end.

Definition copy_preflight (m : M) (virt bytes : Z) (write : bool) : option (list copy_chunk) :=
  if negb (ready (obj m)) || (USER_VM_COPY_LIMIT <? bytes) then None
  else if bytes =? 0 then Some []
  else if negb (valid_address virt) || (USER_VM_END -u virt <? bytes) then None
  else preflight_from USER_VM_COPY_CHUNKS m virt bytes write.

Definition user_vm_copy_from (m : M) (user_src bytes : Z) : option (list Z) :=
  match copy_preflight m user_src bytes false with
  | None => None
  | Some chunks => Some (mjoin ((fun c => phys_read (vm_mem m) (cc_alias c) (cc_bytes c)) <$> chunks))
  end.

(** The chunks take the bytes of [source] one after the other. *)
Fixpoint copy_chunks (mem : Z -> Z -> Z) (chunks : list copy_chunk) (source : list Z) : Z -> Z -> Z :=
  match chunks with
  | [] => mem
  | c :: chunks =>
      copy_chunks (phys_write mem (cc_alias c) (take (Z.to_nat (cc_bytes c)) source)) chunks (drop (Z.to_nat (cc_bytes c)) source)
  end.

Definition user_vm_copy_to (m : M) (user_dst : Z) (source : list Z) : M * bool :=
  match copy_preflight m user_dst (Z.of_nat (length source)) true with
  | None => (m, false)
  | Some chunks => (in_mem (fun mem => copy_chunks mem chunks source) m, true)
  end.

(** ** Destruction *)

Definition table_entry_ok (c : S) (ts : list user_vm_table) (i : nat) : bool :=
  let t := ts !!! i in
  negb (ut_allocated t) ||
  (ut_published t && pmm_is_allocated_page (us_frames c) (ut_phys t) &&
   forallb (fun s => negb (ut_allocated s && (ut_phys s =? ut_phys t))) (take i ts)).

Definition page_entry_ok (m : M) (ps : list user_vm_page) (i : nat) : bool :=
  let p := ps !!! i in
  negb (up_allocated p) ||
  (memory_is_page_aligned (up_virt p) && bool_decide (table_slot (obj m) (up_phys p) = USER_VM_TABLE_LIMIT) &&
   match query_locked m (up_virt p) with
   | Some mapping => vp_mapped mapping && (vp_physical mapping =? up_phys p)
   | None => false
   end &&
   forallb (fun q => negb (up_allocated q && ((up_phys q =? up_phys p) || (up_virt q =? up_virt p)))) (take i ps)).

Definition ownership_valid (m : M) : bool :=
  let u := obj m in
  forallb (table_entry_ok (vm_ctx m) (uv_tables u)) (seq 0 USER_VM_TABLE_LIMIT) &&
  forallb (page_entry_ok m (uv_pages u)) (seq 0 USER_VM_PAGE_LIMIT) &&
  (count_if ut_allocated (uv_tables u) =? uv_table_count u) && (count_if up_allocated (uv_pages u) =? uv_page_count u).

Definition release_page_entry (c : S) (p : user_vm_page) : S := if up_allocated p then release_frame c (up_phys p) else c.
Definition release_table_entry (c : S) (t : user_vm_table) : S := if ut_allocated t then release_frame c (ut_phys t) else c.

Definition user_vm_destroy (m : M) : M * bool :=
  let u := obj m in
  if negb (ready u) || (Z.land (us_cr3 (vm_ctx m)) (vs_physical_mask (uv_space u)) =? vs_root_phys (uv_space u)) ||
     negb (ownership_valid m) then (m, false)
  else
    let c := foldl release_page_entry (vm_ctx m) (uv_pages u) in
    let c := foldl release_table_entry c (rev (tail (uv_tables u))) in
    let c := release_frame c (ut_phys (uv_tables u !!! 0%nat)) in
    (MkVm (with_vm (fun _ => user_vm_zero) c) (vm_mem m), true).
End user_vm.
