(* ===== verification/UserVmTree.v ===== *)
(** * User address spaces: the ledger of tables

    The callbacks of user_vm.c keep the promises that the page-table code asks
    of its caller: [user_laws] is the instance of [VmmOpsLaws].  [D] is the set
    of data frames, which the callbacks must not touch. *)

From S2P Require Import Prelude MemoryHelpers VmmCore VmmMap VmmSpec VmmTrace Frames KernelVm UserVm.
Open Scope Z_scope.

(** ** First positions *)

Lemma first_index_le {A} (p : A -> bool) l : (first_index p l <= length l)%nat.
Proof. induction l as [|x l IH]; cbn; [done|]. destruct (p x); lia. Qed.

Lemma first_index_found {A} (p : A -> bool) l : (first_index p l < length l)%nat ->
  exists x, l !! first_index p l = Some x /\ p x = true.
Proof.
  induction l as [|x l IH]; cbn; [lia|]. destruct (p x) eqn:E; [by exists x|]. intros Hlt. apply IH. lia.
Qed.

Lemma first_index_none {A} (p : A -> bool) l : first_index p l = length l <-> forall i x, l !! i = Some x -> p x = false.
Proof.
  induction l as [|x l IH]; cbn; [done|]. destruct (p x) eqn:E.
  - split; [done|]. intros Hn. specialize (Hn O x eq_refl). congruence.
  - split.
    + intros [= Hl]. intros [|i] y Hy; cbn in Hy; [by injection Hy as <-|]. by apply (proj1 IH Hl i).
    + intros Hn. f_equal. apply IH. intros i y Hy. by apply (Hn (S i)).
Qed.

Lemma first_index_unique {A} (p : A -> bool) l i x : l !! i = Some x -> p x = true ->
  (forall j y, l !! j = Some y -> p y = true -> j = i) -> first_index p l = i.
Proof.
  intros Hi Hp Hu. assert (first_index p l < length l)%nat as Hlt.
  { pose proof (first_index_le p l). destruct (decide (first_index p l = length l)) as [E|]; [|lia].
    apply first_index_none with (i := i) (x := x) in E; congruence. }
  destruct (first_index_found p l Hlt) as (y & Hy & Hpy). by eapply Hu.
Qed.

Lemma count_if_insert {A} (p : A -> bool) l i x y : l !! i = Some x ->
  count_if p (<[i := y]> l) = count_if p l - (if p x then 1 else 0) + (if p y then 1 else 0).
Proof.
  intros Hi. rewrite <-(take_drop_middle l i x Hi) at 2. rewrite insert_take_drop by (by eapply lookup_lt_Some).
  rewrite !count_if_app. cbn [count_if]. lia.
Qed.

Lemma count_if_full {A} (p : A -> bool) l : count_if p l = Z.of_nat (length l) -> forall i x, l !! i = Some x -> p x = true.
Proof.
  induction l as [|z l IH]; [done|]. cbn [count_if length]. pose proof (count_if_bounds p l). intros Hc [|i] x; cbn.
  - intros [= ->]. destruct (p x); [done|lia].
  - apply IH. destruct (p z); lia.
Qed.

Section laws.
Context {P : Type} `{PageFramesLaws P}.
Notation S := (ustate P).
Notation tables c := (uv_tables (us_vm c)).

Definition allocated (c : S) (g : Z) : Prop := u64_ok g /\ pmm_is_allocated_page (us_frames c) g = true.
Definition in_tables (c : S) (g : Z) : Prop :=
  exists i t, tables c !! i = Some t /\ ut_allocated t = true /\ ut_phys t = g.
Definition loose (c : S) (g : Z) : Prop :=
  exists i t, tables c !! i = Some t /\ ut_allocated t = true /\ ut_published t = false /\ ut_phys t = g.

Record ledger_ok (D : gset Z) (c : S) : Prop := {
  lo_frames : pf_wf (us_frames c);
  lo_panic : us_panic c = false;
  lo_length : length (tables c) = USER_VM_TABLE_LIMIT;
  lo_alloc : forall g, in_tables c g -> allocated c g /\ g ∉ D;
  lo_unique : forall i j t s, tables c !! i = Some t -> tables c !! j = Some s ->
    ut_allocated t = true -> ut_allocated s = true -> ut_phys t = ut_phys s -> i = j;
  lo_root : exists t, tables c !! 0%nat = Some t /\ ut_allocated t = true /\ ut_published t = true;
  lo_count : uv_table_count (us_vm c) = count_if ut_allocated (tables c);
  lo_data : forall g, g ∈ D -> allocated c g
}.

Lemma table_slot_at D c i t : ledger_ok D c -> tables c !! i = Some t -> ut_allocated t = true ->
  table_slot (us_vm c) (ut_phys t) = i.
Proof.
  intros Hok Hi Ha. unfold table_slot. apply (first_index_unique _ _ i t Hi).
  - by rewrite Ha, Z.eqb_refl.
  - intros j s Hj [Hs E%Z.eqb_eq]%andb_true_iff. by eapply (lo_unique D c Hok).
Qed.

Lemma table_slot_in D c g : ledger_ok D c -> table_slot (us_vm c) g <> USER_VM_TABLE_LIMIT <-> in_tables c g.
Proof.
  intros Hok. rewrite <-(lo_length D c Hok). split.
  - intros Hne. unfold table_slot in *. destruct (first_index_found (fun t => ut_allocated t && (ut_phys t =? g)) (tables c)) as (t & Ht & [Ha E%Z.eqb_eq]%andb_true_iff).
    + pose proof (first_index_le (fun t => ut_allocated t && (ut_phys t =? g)) (tables c)). lia.
    + by exists (table_slot (us_vm c) g), t.
  - intros (i & t & Hi & Ha & <-). rewrite (table_slot_at D c i t Hok Hi Ha). apply lookup_lt_Some in Hi. lia.
Qed.

(** A frame of the ledger is accessible as a table. *)
Lemma table_access_in D c g : ledger_ok D c -> table_access c g = true <-> in_tables c g.
Proof.
  intros Hok. unfold table_access. rewrite !andb_true_iff, negb_true_iff, bool_decide_eq_false, bool_decide_eq_true, (table_slot_in D c g Hok).
  split; [tauto|]. intros Hg. destruct (lo_alloc D c Hok g Hg) as [[Hu Ha] _]. split_and!; [done|done|].
  rewrite (pf_direct (us_frames c) g g MEMORY_PAGE_SIZE (lo_frames D c Hok) Hu Ha); [by eexists|done|done|done].
Qed.

(** The slot of a frame that is not published. *)
Lemma loose_slot D c g : ledger_ok D c -> loose c g -> exists t, tables c !! table_slot (us_vm c) g = Some t /\
  table_slot (us_vm c) g <> 0%nat /\ table_slot (us_vm c) g <> USER_VM_TABLE_LIMIT /\ ut_allocated t = true /\ ut_published t = false /\ ut_phys t = g.
Proof.
  intros Hok (i & t & Hi & Ha & Hp & <-). rewrite (table_slot_at D c i t Hok Hi Ha). exists t. split_and!; try done.
  - intros ->. destruct (lo_root D c Hok) as (t0 & E & _ & Hp0). congruence.
  - rewrite <-(lo_length D c Hok). apply lookup_lt_Some in Hi. lia.
Qed.

Lemma ledger_frames D c p : ledger_ok D c -> pf_wf p ->
  (forall g, in_tables c g \/ g ∈ D -> pmm_is_allocated_page p g = true) -> ledger_ok D (with_frames p c).
Proof.
  intros Hok Hp Hg. constructor; cbn; try apply Hok; [done| |].
  - intros g Hi. destruct (lo_alloc D c Hok g Hi) as [[Hu _] Hd]. split; [split; [done|]|done]. apply Hg. by left.
  - intros g Hd. destruct (lo_data D c Hok g Hd) as [Hu _]. split; [done|]. apply Hg. by right.
Qed.

Lemma ledger_insert D c i t t' n : ledger_ok D c -> tables c !! i = Some t ->
  (ut_allocated t' = true -> allocated c (ut_phys t') /\ ut_phys t' ∉ D /\
     forall j s, tables c !! j = Some s -> ut_allocated s = true -> ut_phys s = ut_phys t' -> j = i) ->
  (i = 0%nat -> ut_allocated t' = true /\ ut_published t' = true) ->
  n = count_if ut_allocated (tables c) - (if ut_allocated t then 1 else 0) + (if ut_allocated t' then 1 else 0) ->
  ledger_ok D (with_vm (set_tables (<[i := t']> (tables c)) n) c).
Proof.
  intros Hok Hi Ht' Hz ->. pose proof (lookup_lt_Some _ _ _ Hi) as Hlt. constructor; cbn; try apply Hok.
  - rewrite length_insert. apply Hok.
  - intros g (j & s & Hj & Ha & <-). cbn in Hj. apply list_lookup_insert_Some in Hj as [(<- & <- & _)|[_ Hj]].
    + destruct (Ht' Ha) as (? & ? & _). done.
    + apply (lo_alloc D c Hok). by exists j, s.
  - intros j k s r Hj Hk Hs Hr E. apply list_lookup_insert_Some in Hj as [(<- & <- & _)|[Hij Hj]], Hk as [(<- & <- & _)|[Hik Hk]]; [done| | |].
    + destruct (Ht' Hs) as (_ & _ & Hu). symmetry. by eapply Hu.
    + destruct (Ht' Hr) as (_ & _ & Hu). by eapply Hu.
    + by eapply (lo_unique D c Hok).
  - destruct (decide (i = 0%nat)) as [->|Hne].
    + exists t'. rewrite list_lookup_insert_eq by done. destruct (Hz eq_refl). done.
    + destruct (lo_root D c Hok) as (t0 & E0 & ? & ?). exists t0. rewrite list_lookup_insert_ne by done. done.
  - by rewrite (count_if_insert _ _ _ t).
Qed.

(** The tables after a change of one slot. *)
Lemma in_tables_insert c i t t' n g : tables c !! i = Some t ->
  in_tables (with_vm (set_tables (<[i := t']> (tables c)) n) c) g <->
  (ut_allocated t' = true /\ ut_phys t' = g) \/ exists j s, j <> i /\ tables c !! j = Some s /\ ut_allocated s = true /\ ut_phys s = g.
Proof.
  intros Hi. apply lookup_lt_Some in Hi as Hlt. unfold in_tables. cbn. split.
  - intros (j & s & Hj & Ha & E). apply list_lookup_insert_Some in Hj as [(<- & <- & _)|[Hij Hj]]; [by left|]. right. exists j, s. done.
  - intros [[Ha E]|(j & s & Hne & Hj & Ha & E)].
    + exists i, t'. by rewrite list_lookup_insert_eq.
    + exists j, s. by rewrite list_lookup_insert_ne.
Qed.

Lemma loose_insert c i t t' n g : tables c !! i = Some t ->
  loose (with_vm (set_tables (<[i := t']> (tables c)) n) c) g <->
  (ut_allocated t' = true /\ ut_published t' = false /\ ut_phys t' = g) \/
  exists j s, j <> i /\ tables c !! j = Some s /\ ut_allocated s = true /\ ut_published s = false /\ ut_phys s = g.
Proof.
  intros Hi. apply lookup_lt_Some in Hi as Hlt. unfold loose. cbn. split.
  - intros (j & s & Hj & Ha & E). apply list_lookup_insert_Some in Hj as [(<- & <- & _)|[Hij Hj]]; [by left|]. right. exists j, s. done.
  - intros [[Ha E]|(j & s & Hne & Hj & Ha & E)].
    + exists i, t'. by rewrite list_lookup_insert_eq.
    + exists j, s. by rewrite list_lookup_insert_ne.
Qed.

Lemma access_eq D c c' g : ledger_ok D c -> ledger_ok D c' -> (in_tables c' g <-> in_tables c g) -> table_access c' g = table_access c g.
Proof. intros Hc Hc' E. apply eq_true_iff_eq. by rewrite (table_access_in D c'), (table_access_in D c). Qed.

(** What [alloc] of the page-table code may do to the caller's state. *)
Definition allocates (D : gset Z) (c c' : S) (r : option Z) : Prop :=
  ledger_ok D c' /\ (forall f, r = Some f -> u64_ok f /\ ~ allocated c f) /\
  forall g, (allocated c' g <-> allocated c g \/ r = Some g) /\ (loose c' g <-> loose c g \/ r = Some g) /\
            (allocated c g -> table_access c' g = table_access c g).

Lemma allocates_none D c : ledger_ok D c -> allocates D c c None.
Proof. intros Hok. split_and!; [done|done|]. intros g. split_and!; intuition congruence. Qed.

(** The frames change as an allocation changes them. *)
Lemma frames_allocated D c p q : ledger_ok D c -> pmm_alloc_page (us_frames c) = (p, q) ->
  ledger_ok D (with_frames p c) /\ (forall f, q = Some f -> u64_ok f /\ f mod 4096 = 0 /\ ~ allocated c f) /\
  forall g, allocated (with_frames p c) g <-> allocated c g \/ (q = Some g).
Proof.
  intros Hok Ep. destruct (pf_alloc _ _ _ (lo_frames D c Hok) Ep) as (Hp & _ & Hf & Hg & _). split_and!.
  - apply ledger_frames; [done|done|]. intros g Hin. assert (allocated c g) as [Hu Ha] by (destruct Hin as [Hi|Hd]; [by apply (lo_alloc D c Hok)|by apply (lo_data D c Hok)]).
    by rewrite Hg, Ha by done.
  - intros f E. destruct (Hf f E) as (Hu & Hal & Hn). split_and!; [done|done|]. intros [_ Ha]. congruence.
  - intros g. unfold allocated. cbn. split.
    + intros [Hu Ha]. rewrite Hg in Ha by done. apply orb_true_iff in Ha as [Ha|Ha%bool_decide_eq_true]; [by left|by right].
    + intros [[Hu Ha]|E].
      * rewrite Hg, Ha by done. done.
      * destruct (Hf g E) as (Hu & _). rewrite Hg by done. rewrite bool_decide_eq_true_2 by done. by rewrite orb_true_r.
Qed.

(** The slot that [table_allocate] takes. *)
Lemma free_slot D c : ledger_ok D c ->
  let i := Datatypes.S (first_index (fun t => negb (ut_allocated t)) (tail (tables c))) in
  i <> USER_VM_TABLE_LIMIT -> exists t, tables c !! i = Some t /\ ut_allocated t = false.
Proof.
  intros Hok i Hne. pose proof (lo_length D c Hok) as Hlen. unfold USER_VM_TABLE_LIMIT in *. destruct (tables c) as [|t0 ts] eqn:E; [done|].
  cbn in Hlen. unfold i in *. cbn [tail lookup list_lookup] in *. destruct (first_index_found (fun t => negb (ut_allocated t)) ts) as (t & Ht & Hf%negb_true_iff).
  - pose proof (first_index_le (fun t => negb (ut_allocated t)) ts). lia.
  - by exists t.
Qed.

Lemma allocate_law D c c' r : ledger_ok D c -> table_allocate c = (c', r) -> allocates D c c' r.
Proof.
  intros Hok. unfold table_allocate. destruct (_ <=? _) eqn:Hc; [intros [= <- <-]; by apply allocates_none|].
  destruct (bool_decide_reflect (Datatypes.S (first_index (fun t => negb (ut_allocated t)) (tail (tables c))) = USER_VM_TABLE_LIMIT)) as [|Hslot];
    [intros [= <- <-]; by apply allocates_none|].
  destruct (free_slot D c Hok Hslot) as (t & Ht & Ha). set (i := Datatypes.S _) in *.
  destruct (pmm_alloc_page (us_frames c)) as [p q] eqn:Ep. destruct (frames_allocated D c p q Hok Ep) as (Hokp & Hf & Hg).
  destruct q as [phys|]; intros [= <- <-]; cycle 1.
  { split_and!; [done|done|]. intros g. split_and!; [apply Hg|unfold loose; cbn; intuition congruence|]. intros _. by apply (access_eq D). }
  destruct (Hf phys eq_refl) as (Hu & _ & Hna).
  assert (forall j s, tables c !! j = Some s -> ut_allocated s = true -> ut_phys s <> phys) as Hfresh.
  { intros j s Hj Hs <-. apply Hna. apply (lo_alloc D c Hok). by exists j, s. }
  change (set_tables _ _) with (set_tables (<[i := MkUTable phys true false]> (tables (with_frames p c))) (uv_table_count (us_vm c) +u 1)).
  assert (uv_table_count (us_vm c) +u 1 = count_if ut_allocated (tables c) + 1) as Hn.
  { rewrite (lo_count D c Hok) in *. pose proof (count_if_bounds ut_allocated (tables c)). apply Z.leb_gt in Hc. change (Z.of_nat USER_VM_TABLE_LIMIT) with 64 in Hc. apply u64_small. unfold u64_ok, UINT64_MAX. lia. }
  assert (ledger_ok D (with_vm (set_tables (<[i := MkUTable phys true false]> (tables (with_frames p c))) (uv_table_count (us_vm c) +u 1)) (with_frames p c))) as Hok'.
  { apply (ledger_insert D (with_frames p c) i t); cbn; [done|done| |done|rewrite Ha, Hn; lia]. intros _. split_and!.
    - apply Hg. by right.
    - intros Hd. apply Hna. by apply (lo_data D c Hok).
    - intros j s Hj Hs E. by destruct (Hfresh j s Hj Hs). }
  split_and!; [done|intros f [= <-]; by split|]. intros g. split_and!.
  - exact (Hg g).
  - rewrite (loose_insert (with_frames p c) i t) by done. cbn. unfold loose. split.
    + intros [(_ & _ & ->)|(j & s & _ & Hx)]; [by right|left; by exists j, s].
    + intros [(j & s & Hj & Hs & Hx)|[= ->]]; [right|by left]. exists j, s. split_and!; try done; [|tauto..]. intros ->. congruence.
  - intros Hgc. apply (access_eq D); [done|done|]. rewrite (in_tables_insert (with_frames p c) i t) by done. cbn. split.
    + intros [[_ ->]|(j & s & _ & Hx)]; [done|by exists j, s].
    + intros (j & s & Hj & Hs & E). right. exists j, s. split_and!; try done. intros ->. congruence.
Qed.

(** A frame that is given back was allocated, so there is no panic. *)
Lemma release_frame_eq c g : pf_wf (us_frames c) -> allocated c g -> exists p,
  release_frame c g = with_frames p c /\ pf_wf p /\ pf_offset p = pf_offset (us_frames c) /\
  forall x, allocated (with_frames p c) x <-> allocated c x /\ x <> g.
Proof.
  intros Hwf [Hu Ha]. unfold release_frame. pose proof (pf_free _ g Hwf Hu) as Hf.
  destruct (pmm_free_page (us_frames c) g) as [p ok]. destruct Hf as (Hp & Ho & -> & Hg & _). rewrite Ha. exists p. split_and!; try done.
  intros x. unfold allocated. cbn. split.
  - intros [Hx E]. rewrite Hg in E by done. apply andb_true_iff in E as [E Hne%negb_true_iff%Z.eqb_neq]. done.
  - intros [[Hx E] Hne]. split; [done|]. rewrite Hg, E by done. by apply negb_true_iff, Z.eqb_neq.
Qed.

Lemma release_law D c f : ledger_ok D c -> loose c f ->
  ledger_ok D (table_release c f) /\
  forall g, (allocated (table_release c f) g <-> allocated c g /\ g <> f) /\ (loose (table_release c f) g <-> loose c g /\ g <> f) /\
            (allocated c g -> g <> f -> table_access (table_release c f) g = table_access c g).
Proof.
  intros Hok Hl. destruct (loose_slot D c f Hok Hl) as (t & Ht & Hn0 & Hnl & Ha & Hp & E). unfold table_release.
  rewrite !bool_decide_eq_false_2 by done. rewrite (list_lookup_total_correct _ _ _ Ht), Hp. cbn [orb]. set (i := table_slot (us_vm c) f) in *.
  assert (in_tables c f) as Hin by (by exists i, t). destruct (lo_alloc D c Hok f Hin) as [Haf Hfd].
  destruct (release_frame_eq c f (lo_frames D c Hok) Haf) as (p & -> & Hwf & _ & Hg).
  set (n := uv_table_count (us_vm (with_frames p c)) -u 1).
  change (with_vm _ (with_frames p c)) with (with_frames p (with_vm (set_tables (<[i := table_zero]> (tables c)) n) c)).
  assert (n = count_if ut_allocated (tables c) - 1) as Hn.
  { unfold n. cbn. rewrite (lo_count D c Hok). pose proof (count_if_bounds ut_allocated (tables c)). rewrite (lo_length D c Hok) in *. change (Z.of_nat USER_VM_TABLE_LIMIT) with 64 in *.
    apply u64_small. enough (0 < count_if ut_allocated (tables c)) by (unfold u64_ok, UINT64_MAX; lia).
    rewrite <-(take_drop_middle _ _ _ Ht), count_if_app. cbn [count_if]. rewrite Ha.
    pose proof (count_if_bounds ut_allocated (take i (tables c))). pose proof (count_if_bounds ut_allocated (drop (Datatypes.S i) (tables c))). lia. }
  assert (ledger_ok D (with_vm (set_tables (<[i := table_zero]> (tables c)) n) c)) as Hok1.
  { apply (ledger_insert D c i t); [done|done|done|done|rewrite Ha, Hn; cbn; lia]. }
  assert (forall g, in_tables (with_vm (set_tables (<[i := table_zero]> (tables c)) n) c) g <-> in_tables c g /\ g <> f) as Hit.
  { intros g. rewrite (in_tables_insert c i t) by done. split.
    - intros [[? _]|(j & s & Hne & Hj & Hs & <-)]; [done|]. split; [by exists j, s|]. intros Ex. apply Hne. apply (lo_unique D c Hok j i s t Hj Ht Hs Ha). congruence.
    - intros [(j & s & Hj & Hs & <-) Hne]. right. exists j, s. split_and!; try done. intros ->. congruence. }
  assert (ledger_ok D (with_frames p (with_vm (set_tables (<[i := table_zero]> (tables c)) n) c))) as Hok2.
  { apply ledger_frames; [done|done|]. intros g Hgi. enough (allocated (with_frames p c) g) as [_ ?] by done. apply Hg. destruct Hgi as [[Hi Hne]%Hit|Hd].
    - split; [by apply (lo_alloc D c Hok)|done].
    - split; [by apply (lo_data D c Hok)|congruence]. }
  split; [done|]. intros g. split_and!.
  - apply Hg.
  - change (loose (with_frames p (with_vm (set_tables (<[i := table_zero]> (tables c)) n) c)) g) with (loose (with_vm (set_tables (<[i := table_zero]> (tables c)) n) c) g).
    rewrite (loose_insert c i t) by done. split.
    + intros [[? _]|(j & s & Hne & Hj & Hs & Hps & <-)]; [done|]. split; [by exists j, s|]. intros Ex. apply Hne. apply (lo_unique D c Hok j i s t Hj Ht Hs Ha). congruence.
    + intros [(j & s & Hj & Hs & Hps & <-) Hne]. right. exists j, s. split_and!; try done. intros ->. congruence.
  - intros _ Hne. apply (access_eq D); [done|done|]. change (in_tables (with_frames p (with_vm (set_tables (<[i := table_zero]> (tables c)) n) c)) g) with (in_tables (with_vm (set_tables (<[i := table_zero]> (tables c)) n) c) g).
    rewrite Hit. tauto.
Qed.

Lemma commit_law D c f : ledger_ok D c -> loose c f ->
  ledger_ok D (table_commit c f) /\
  forall g, (allocated (table_commit c f) g <-> allocated c g) /\ (loose (table_commit c f) g <-> loose c g /\ g <> f) /\
            table_access (table_commit c f) g = table_access c g.
Proof.
  intros Hok Hl. destruct (loose_slot D c f Hok Hl) as (t & Ht & Hn0 & Hnl & Ha & Hp & E). unfold table_commit.
  rewrite !bool_decide_eq_false_2 by done. rewrite (list_lookup_total_correct _ _ _ Ht), Hp. cbn [orb]. set (i := table_slot (us_vm c) f) in *.
  set (t' := MkUTable _ _ true). set (n := uv_table_count (us_vm c)).
  assert (ledger_ok D (with_vm (set_tables (<[i := t']> (tables c)) n) c)) as Hok'.
  { apply (ledger_insert D c i t); [done|done| |by intros ->|unfold n; rewrite (lo_count D c Hok), Ha; cbn; rewrite Ha; lia]. intros _.
    destruct (lo_alloc D c Hok (ut_phys t)) as [? ?]; [by exists i, t|]. split_and!; [done|done|]. intros j s Hj Hs Ex. by apply (lo_unique D c Hok j i s t). }
  split; [done|]. intros g. split_and!; [done| |].
  - rewrite (loose_insert c i t) by done. split.
    + intros [(_ & ? & _)|(j & s & Hne & Hj & Hs & Hps & <-)]; [done|]. split; [by exists j, s|]. intros Ex. apply Hne. apply (lo_unique D c Hok j i s t Hj Ht Hs Ha). congruence.
    + intros [(j & s & Hj & Hs & Hps & <-) Hne]. right. exists j, s. split_and!; try done. intros ->. congruence.
  - apply (access_eq D); [done|done|]. rewrite (in_tables_insert c i t) by done. cbn. split.
    + intros [[_ <-]|(j & s & _ & Hx)]; [by exists i, t|by exists j, s].
    + intros (j & s & Hj & Hs & <-). destruct (decide (j = i)) as [->|Hne]; [left; split; [done|congruence]|right; by exists j, s].
Qed.

Lemma invalidate_eq (c : S) v : invalidate c v = MkUState (us_vm c) (us_frames c) (us_cr3 c) (us_cr4 c) (us_flushed (invalidate c v)) (us_panic c).
Proof. unfold invalidate. by destruct (_ =? _); destruct c. Qed.

Lemma invalidate_law D c v : ledger_ok D c -> ledger_ok D (invalidate c v) /\
  forall g, (allocated (invalidate c v) g <-> allocated c g) /\ (loose (invalidate c v) g <-> loose c g) /\ table_access (invalidate c v) g = table_access c g.
Proof. intros Hok. rewrite invalidate_eq. split; [by destruct Hok; constructor|done]. Qed.

Program Definition user_laws (D : gset Z) : VmmOpsLaws S := {|
  op_wf := ledger_ok D;
  op_owned := allocated;
  op_loose := loose
|}.
Next Obligation. intros D c f Hok (i & t & Hi & Ha & _ & <-). apply (lo_alloc D c Hok). by exists i, t. Qed.
Next Obligation. intros D c c' r. apply allocate_law. Qed.
Next Obligation. intros D c f. apply release_law. Qed.
Next Obligation. intros D c f. apply commit_law. Qed.
Next Obligation. intros D c v. apply invalidate_law. Qed.
End laws.

(** ** User address spaces: the page tables below the object

    [tree] relates the page tables of a user space, seen without the kernel's
    half of the root, to the abstract map of VmmTrace.v, and [tree_step] says what
    the calls of the page-table code may change: no frame but the tables, no entry
    of the kernel's half, and no field of the object but its table ledger. *)


Section tree.
Context {P : Type} `{PageFramesLaws P}.
Notation S := (ustate P).
Notation M := (vm S).

Definition tree (D : gset Z) (space : vmm_space) (m : M) (A : aspace) : Prop :=
  exists low, low_view (vs_root_phys space) (vm_mem m) low /\ @vmm_rep S user_vm_ops (user_laws D) space (MkVm (vm_ctx m) low) A.

(** Frames in use that are not tables of this object. *)
Definition private (c : S) (g : Z) : Prop := allocated c g /\ ~ in_tables c g.

(** The parts of the context that the callbacks leave alone. *)
Record same_object (c c' : S) : Prop := {
  so_space : uv_space (us_vm c') = uv_space (us_vm c);
  so_pages : uv_pages (us_vm c') = uv_pages (us_vm c);
  so_count : uv_page_count (us_vm c') = uv_page_count (us_vm c);
  so_init : uv_initialized (us_vm c') = uv_initialized (us_vm c);
  so_root : uv_tables (us_vm c') !! 0%nat = uv_tables (us_vm c) !! 0%nat;
  so_cr3 : us_cr3 c' = us_cr3 c;
  so_cr4 : us_cr4 c' = us_cr4 c
}.

Lemma same_object_refl c : same_object c c.
Proof. done. Qed.

Lemma same_object_trans a b c : same_object a b -> same_object b c -> same_object a c.
Proof. intros [] []. constructor; congruence. Qed.

Lemma same_object_frames p c c' : same_object c c' -> same_object c (with_frames p c').
Proof. intros []. by constructor. Qed.

Lemma allocate_object c : same_object c (fst (table_allocate c)).
Proof. unfold table_allocate. destruct (_ <=? _); [done|]. case_bool_decide; [done|]. destruct (pmm_alloc_page _) as [p [phys|]]; constructor; try done. cbn. by rewrite list_lookup_insert_ne. Qed.

Lemma release_object c f : same_object c (table_release c f).
Proof.
  unfold table_release. destruct (bool_decide_reflect (table_slot (us_vm c) f = 0%nat)) as [|Hne]; [constructor; done|]. cbn [orb].
  destruct (_ || _); [constructor; done|]. unfold release_frame. destruct (pmm_free_page _ _) as [p []]; constructor; try done; cbn; by rewrite list_lookup_insert_ne.
Qed.

Lemma commit_object c f : same_object c (table_commit c f).
Proof.
  unfold table_commit. destruct (bool_decide_reflect (table_slot (us_vm c) f = 0%nat)) as [|Hne]; [constructor; done|]. cbn [orb].
  destruct (_ || _); [constructor; done|]. constructor; try done; cbn; by rewrite list_lookup_insert_ne.
Qed.

Lemma invalidate_object c v : same_object c (invalidate c v).
Proof. rewrite invalidate_eq. constructor; done. Qed.

Lemma unmap_object space (m : M) v : same_object (vm_ctx m) (vm_ctx (fst (vmm_space_unmap space m v))).
Proof. apply (unmap_related space same_object same_object_refl). apply invalidate_object. Qed.

Lemma protect_object space (m : M) v f : same_object (vm_ctx m) (vm_ctx (fst (vmm_space_protect space m v f))).
Proof. apply (protect_related space same_object same_object_refl). apply invalidate_object. Qed.

Lemma map_object space (m : M) v p f : same_object (vm_ctx m) (vm_ctx (fst (vmm_space_map space m v p f))).
Proof.
  apply (map_related space same_object same_object_refl same_object_trans); intros;
    [apply allocate_object|apply release_object|apply commit_object|apply invalidate_object].
Qed.

(** What a call for one page may do. *)
Record tree_step (space : vmm_space) (m m' : M) : Prop := {
  ts_private : forall g, private (vm_ctx m') g <-> private (vm_ctx m) g;
  ts_loose : forall g, loose (vm_ctx m') g <-> loose (vm_ctx m) g;
  ts_owned : forall g, allocated (vm_ctx m) g -> allocated (vm_ctx m') g;
  ts_kept : forall g i, private (vm_ctx m) g -> vm_mem m' g i = vm_mem m g i;
  ts_high : forall i, 256 <= i -> vm_mem m' (vs_root_phys space) i = vm_mem m (vs_root_phys space) i;
  ts_object : same_object (vm_ctx m) (vm_ctx m')
}.

Lemma tree_ledger D space m A : tree D space m A -> ledger_ok D (vm_ctx m).
Proof. intros (low & _ & Hr). exact (@vi_ctx _ _ (user_laws D) _ _ (@vr_inv _ _ (user_laws D) _ _ _ Hr)). Qed.

Lemma tree_root D space m A : tree D space m A -> in_tables (vm_ctx m) (vs_root_phys space).
Proof.
  intros Ht. pose proof (tree_ledger _ _ _ _ Ht) as Hok. destruct Ht as (low & _ & Hr).
  apply (table_access_in D _ _ Hok). exact (proj1 (@vi_table _ _ (user_laws D) _ _ (@vr_inv _ _ (user_laws D) _ _ _ Hr) _ _ _ (reach_root _ _ _))).
Qed.

(** The set of data frames only matters to the ledger. *)
Lemma tree_data D D' space m A : tree D space m A -> ledger_ok D' (vm_ctx m) -> tree D' space m A.
Proof.
  intros (low & Hl & Hr) Hok. exists low. split; [done|]. destruct Hr as [[] Hp Hq Hf]. constructor; [|exact Hp|exact Hq|exact Hf]. constructor; done.
Qed.

Lemma tree_frame D space m m' A : tree D space m A -> ledger_ok D (vm_ctx m') ->
  (forall g, in_tables (vm_ctx m) g -> in_tables (vm_ctx m') g /\ forall i, vm_mem m' g i = vm_mem m g i) -> tree D space m' A.
Proof.
  intros Ht Hok' Hkeep. pose proof (tree_ledger _ _ _ _ Ht) as Hok. destruct Ht as (low & Hl & Hr).
  pose proof (@vr_inv _ _ (user_laws D) _ _ _ Hr) as Hinv.
  set (low' := fun p i => if (p =? vs_root_phys space) && (256 <=? i) then 0 else vm_mem m' p i). exists low'. split; [by intros p i|].
  assert (forall l p pre, reach (vs_physical_mask space) (vs_root_phys space) low l p pre ->
    table_access (vm_ctx m') p = true /\ allocated (vm_ctx m') p /\ forall i, low' p i = low p i) as Hk.
  { intros l p pre Hp. pose proof (proj1 (@vi_table _ _ (user_laws D) _ _ Hinv l p pre Hp)) as Hin.
    apply (table_access_in D _ _ Hok) in Hin. destruct (Hkeep p Hin) as [Hin' Hm]. split_and!.
    - by apply (table_access_in D _ _ Hok').
    - by apply (lo_alloc D _ Hok').
    - intros i. unfold low'. by rewrite Hl, Hm. }
  constructor.
  - exact (@frame_inv _ _ (user_laws D) space _ Hinv (MkVm (vm_ctx m') low') Hok' Hk).
  - exact (@frame_plain _ _ (user_laws D) space _ Hinv (MkVm (vm_ctx m') low') Hok' Hk (@vr_plain _ _ (user_laws D) _ _ _ Hr)).
  - intros v Hv. rewrite <-(@vr_query _ _ (user_laws D) _ _ _ Hr v Hv). exact (@frame_query _ _ (user_laws D) space _ Hinv (MkVm (vm_ctx m') low') Hok' Hk v).
  - exact (@vr_flags _ _ (user_laws D) _ _ _ Hr).
Qed.

Lemma lower_u64 v : lower_half v -> u64_ok v.
Proof. unfold lower_half, u64_ok, UINT64_MAX. change (2 ^ 47) with 140737488355328. lia. Qed.

Lemma tree_query D space m A v : tree D space m A -> lower_half v -> vmm_space_query space m v = aspace_query A v.
Proof.
  intros (low & Hl & Hr) Hv. destruct m as [c mem]. rewrite (@query_low _ _ space c mem low v Hl Hv).
  exact (@vr_query _ _ (user_laws D) _ _ _ Hr v (lower_u64 v Hv)).
Qed.

Section step.
Context (D : gset Z) (space : vmm_space) (m : M) (low : Z -> Z -> Z) (A : aspace).
Context (Hl : low_view (vs_root_phys space) (vm_mem m) low) (Hr : @vmm_rep S user_vm_ops (user_laws D) space (MkVm (vm_ctx m) low) A).
Local Instance laws : VmmOpsLaws S := user_laws D.

(** From the call on the lower half to the call on the whole root. *)
Lemma step_low r r' (fs : list Z) : @same_low _ space (vm_mem m) r r' -> vm_inv space (fst r') -> data_kept space (MkVm (vm_ctx m) low) (fst r') ->
  same_object (vm_ctx m) (vm_ctx (fst r')) ->
  (forall f, f ∈ fs -> ~ allocated (vm_ctx m) f /\ exists l pre, reach (vs_physical_mask space) (vs_root_phys space) (vm_mem (fst r')) l f pre) ->
  (forall g, (allocated (vm_ctx (fst r')) g <-> allocated (vm_ctx m) g \/ g ∈ fs) /\ (loose (vm_ctx (fst r')) g <-> loose (vm_ctx m) g) /\
             (allocated (vm_ctx m) g -> table_access (vm_ctx (fst r')) g = table_access (vm_ctx m) g)) ->
  tree_step space m (fst r).
Proof using Hl Hr.
  intros (_ & Ec & Hlow & Hhigh) Hinv' Hdk Hso Hfs Hg. pose proof (vr_inv _ _ _ Hr) as Hinv. pose proof (vi_ctx _ _ Hinv) as Hok. pose proof (vi_ctx _ _ Hinv') as Hok'.
  cbn [op_wf laws user_laws vm_ctx] in Hok, Hok'. rewrite <-Ec in *.
  assert (forall g, allocated (vm_ctx m) g -> in_tables (vm_ctx (fst r)) g <-> in_tables (vm_ctx m) g) as Hin.
  { intros g Ha. rewrite <-(table_access_in D _ _ Hok), <-(table_access_in D _ _ Hok'). by rewrite (proj2 (proj2 (Hg g)) Ha). }
  constructor.
  - intros g. split.
    + intros [Ha Hn]. apply Hg in Ha as [Ha|Hf]; [split; [done|by rewrite <-Hin]|]. destruct Hn.
      destruct (Hfs g Hf) as (_ & l & pre & Hre). pose proof (proj1 (vi_table _ _ Hinv' _ _ _ Hre)) as Ht. rewrite <-Ec in Ht. by apply (table_access_in D _ _ Hok').
    + intros [Ha Hn]. split; [apply Hg; by left|by rewrite Hin].
  - intros g. apply Hg.
  - intros g Ha. apply Hg. by left.
  - intros g i [Ha Hn].
    assert (forall l pre, ~ reach (vs_physical_mask space) (vs_root_phys space) low l g pre) as Hnr.
    { intros l pre Hre. apply Hn. apply (table_access_in D _ _ Hok). exact (proj1 (vi_table _ _ Hinv _ _ _ Hre)). }
    pose proof (Hdk g i Ha Hnr) as E. cbn [vm_mem] in E. rewrite Hlow, Hl in E. destruct (Z.eqb_spec g (vs_root_phys space)) as [->|]; [|exact E].
    destruct (Hnr 4 0). constructor.
  - done.
  - done.
Qed.

(** The case without new tables. *)
Lemma step_same r r' : @same_low _ space (vm_mem m) r r' -> vm_inv space (fst r') -> data_kept space (MkVm (vm_ctx m) low) (fst r') ->
  same_object (vm_ctx m) (vm_ctx (fst r')) -> same_owner (MkVm (vm_ctx m) low) (fst r') -> tree_step space m (fst r).
Proof using Hl Hr.
  intros Hs Hi Hd Hso Hg. apply (step_low r r' []); try done; [by intros f ?%elem_of_nil|]. intros g. destruct (Hg g) as (H1 & H2 & H3).
  pose proof (not_elem_of_nil g). cbn [op_owned op_loose op_table laws user_laws user_vm_ops vm_ctx] in *. tauto.
Qed.
End step.

Lemma low_tree D space mem r r' A : @same_low S space mem r r' -> @vmm_rep S user_vm_ops (user_laws D) space (fst r') A -> tree D space (fst r) A.
Proof.
  intros (_ & Ec & Hlow & _) Hr. exists (vm_mem (fst r')). split; [done|]. rewrite Ec. by destruct (fst r').
Qed.

Section calls.
Context (D : gset Z) (space : vmm_space) (m : M) (A : aspace) (Ht : tree D space m A) (virt : Z) (Hv : lower_half virt).

Lemma tree_unmap : let r := vmm_space_unmap space m virt in
  snd r = aspace_ok space A (OpUnmap virt) /\ tree D space (fst r) (if snd r then delete (virt / 4096) A else A) /\ tree_step space m (fst r) /\
  forall g, allocated (vm_ctx (fst r)) g <-> allocated (vm_ctx m) g.
Proof using Ht Hv.
  destruct m as [c mem]. destruct Ht as (low & Hl & Hr). pose proof (@vr_inv _ _ (user_laws D) _ _ _ Hr) as Hinv. cbn [vm_ctx vm_mem] in *.
  pose proof (@unmap_low _ _ (user_laws D) space c mem low Hl Hinv virt Hv) as Hs.
  destruct (@rep_unmap _ _ (user_laws D) space _ A Hr virt (lower_u64 virt Hv)) as [Hok Hrep].
  destruct (@unmap_spec _ _ (user_laws D) space _ Hinv virt (lower_u64 virt Hv)) as (_ & Hno & Hyes).
  pose proof (unmap_object space (MkVm c low) virt) as Hso.
  set (r' := vmm_space_unmap space (MkVm c low) virt) in *. set (r := vmm_space_unmap space (MkVm c mem) virt) in *.
  cbv zeta. rewrite (proj1 Hs). split; [done|]. split; [exact (low_tree D space mem r r' _ Hs Hrep)|]. rewrite (proj1 (proj2 Hs)). destruct (snd r') eqn:E.
  - destruct (Hyes eq_refl) as (Hi & _ & Hg & [Hd _] & _). split; [|intros g; apply (Hg g)]. exact (step_same D space (MkVm c mem) low A Hl Hr r r' Hs Hi Hd Hso Hg).
  - split; [|by rewrite (Hno eq_refl)]. apply (step_same D space (MkVm c mem) low A Hl Hr r r' Hs); rewrite (Hno eq_refl); done.
Qed.

Lemma tree_protect flags : u64_ok flags -> let r := vmm_space_protect space m virt flags in
  snd r = aspace_ok space A (OpProtect virt flags) /\
  tree D space (fst r) (if snd r then alter (fun e => (fst e, flags)) (virt / 4096) A else A) /\ tree_step space m (fst r) /\
  forall g, allocated (vm_ctx (fst r)) g <-> allocated (vm_ctx m) g.
Proof using Ht Hv.
  intros Hf. destruct m as [c mem]. destruct Ht as (low & Hl & Hr). pose proof (@vr_inv _ _ (user_laws D) _ _ _ Hr) as Hinv. cbn [vm_ctx vm_mem] in *.
  pose proof (@protect_low _ _ (user_laws D) space c mem low Hl Hinv virt Hv flags) as Hs.
  destruct (@rep_protect _ _ (user_laws D) space _ A Hr virt flags (lower_u64 virt Hv) Hf) as [Hok Hrep].
  destruct (@protect_spec _ _ (user_laws D) space _ Hinv virt flags (lower_u64 virt Hv) Hf) as (_ & Hno & Hyes).
  pose proof (protect_object space (MkVm c low) virt flags) as Hso.
  set (r' := vmm_space_protect space (MkVm c low) virt flags) in *. set (r := vmm_space_protect space (MkVm c mem) virt flags) in *.
  cbv zeta. rewrite (proj1 Hs). split; [done|]. split; [exact (low_tree D space mem r r' _ Hs Hrep)|]. rewrite (proj1 (proj2 Hs)). destruct (snd r') eqn:E.
  - destruct (Hyes eq_refl) as (Hi & _ & Hg & [Hd _] & _). split; [|intros g; apply (Hg g)]. exact (step_same D space (MkVm c mem) low A Hl Hr r r' Hs Hi Hd Hso Hg).
  - split; [|by rewrite (Hno eq_refl)]. apply (step_same D space (MkVm c mem) low A Hl Hr r r' Hs); rewrite (Hno eq_refl); done.
Qed.

Lemma tree_map phys flags : u64_ok phys -> u64_ok flags -> let r := vmm_space_map space m virt phys flags in
  (snd r = true -> aspace_ok space A (OpMap virt phys flags) = true) /\
  tree D space (fst r) (if snd r then <[virt / 4096 := (phys, flags)]> A else A) /\ tree_step space m (fst r) /\
  (snd r = false -> (forall g, allocated (vm_ctx (fst r)) g <-> allocated (vm_ctx m) g) /\
                    (aspace_ok space A (OpMap virt phys flags) = false \/ out_of_tables space m)).
Proof using Ht Hv.
  intros Hp Hf. destruct m as [c mem]. destruct Ht as (low & Hl & Hr). pose proof (@vr_inv _ _ (user_laws D) _ _ _ Hr) as Hinv. cbn [vm_ctx vm_mem] in *.
  pose proof (@map_low _ _ (user_laws D) space c mem low Hl Hinv virt Hv phys flags) as Hs.
  destruct (@rep_map _ _ (user_laws D) space _ A Hr virt phys flags (lower_u64 virt Hv) Hp Hf) as (Hok & Hwhy & Hrep).
  destruct (@map_spec _ _ (user_laws D) space _ Hinv virt phys flags (lower_u64 virt Hv) Hp Hf) as (Hyes & Hno).
  pose proof (map_object space (MkVm c low) virt phys flags) as Hso.
  set (r' := vmm_space_map space (MkVm c low) virt phys flags) in *. set (r := vmm_space_map space (MkVm c mem) virt phys flags) in *.
  cbv zeta. rewrite (proj1 Hs). split_and!; [done|exact (low_tree D space mem r r' _ Hs Hrep)| |].
  - pose proof (@vr_inv _ _ (user_laws D) _ _ _ Hrep) as Hinv'. destruct (snd r') eqn:E.
    + destruct (Hyes eq_refl) as (_ & _ & _ & _ & fs & Hi & _ & _ & [Hd _] & _ & _ & Hfs & Hg).
      exact (step_low D space (MkVm c mem) low A Hl Hr r r' fs Hs Hi Hd Hso Hfs Hg).
    + destruct (Hno eq_refl) as (_ & Hg & Hm). apply (step_same D space (MkVm c mem) low A Hl Hr r r' Hs); [done| |done|done]. intros p i Ho _. by apply Hm.
  - intros E. split; [intros g; destruct (Hno E) as (_ & Hg & _); rewrite (proj1 (proj2 Hs)); apply (Hg g)|].
    destruct (Hwhy E) as [|(n & Hn & Ha)]; [by left|right]. exists n. split; [done|]. by rewrite (proj1 (acquire_low space n c mem low [] Hl)).
Qed.
End calls.
End tree.
