(* ===== verification/UserVmOps.v ===== *)
(** * User address spaces: the invariant and the queries

    [uvm_inv m A] relates a live object to the map [A] from its pages to frames
    and permissions: the page ledger and the page tables both say [A]. *)

From S2P Require Import Prelude MemoryHelpers VmmCore VmmMap VmmSpec VmmTrace Frames KernelVm UserVm UserVmTree.
Open Scope Z_scope.

(** ** The page ledger *)

Definition user_flags (f : Z) : Prop := f = access_flags 0 \/ f = access_flags 1 \/ f = access_flags 2.

Lemma valid_access_cases a : 0 <= a <= UINT32_MAX -> valid_access a = true <-> a = 0 \/ a = 1 \/ a = 2.
Proof.
  intros Ha. unfold valid_access. rewrite andb_true_iff, Z.eqb_eq, negb_true_iff, Z.eqb_neq. split.
  - intros [Hm Hne]. change (Z.ldiff UINT32_MAX (Z.lor USER_VM_WRITE USER_VM_EXEC)) with (Z.shiftl (Z.ones 30) 2) in Hm.
    change (Z.lor USER_VM_WRITE USER_VM_EXEC) with 3 in Hne. enough (a / 4 = 0) as H0 by (unfold UINT32_MAX in Ha; dlia).
    apply (f_equal (fun x => Z.shiftr x 2)) in Hm. rewrite Z.shiftr_land, Z.shiftr_shiftl_l in Hm by lia. cbn [Z.sub Z.opp] in Hm.
    change (Z.shiftl (Z.ones 30) (2 - 2)) with (Z.ones 30) in Hm. rewrite Z.land_ones, Z.shiftr_div_pow2 in Hm by lia.
    change (2 ^ 2) with 4 in Hm. change (Z.shiftr 0 2) with 0 in Hm. rewrite Z.mod_small in Hm; [done|].
    unfold UINT32_MAX in Ha. change (2 ^ 30) with 1073741824. dlia.
  - intros [-> | [-> | ->]]; done.
Qed.

Lemma access_user_flags a : 0 <= a <= UINT32_MAX -> valid_access a = true -> user_flags (access_flags a).
Proof. intros Ha. rewrite valid_access_cases by done. unfold user_flags. intros [-> | [-> | ->]]; auto. Qed.

Lemma user_flags_u64 f : user_flags f -> u64_ok f.
Proof. intros [-> | [-> | ->]]; vm_compute; split; congruence. Qed.

Lemma valid_lower v : valid_address v = true -> lower_half v.
Proof. unfold valid_address, lower_half, USER_VM_MIN, USER_VM_END. change (2 ^ 47) with 140737488355328. lia. Qed.

Definition data (ps : list user_vm_page) : gset Z := list_to_set (up_phys <$> filter (fun p => up_allocated p = true) ps).

Lemma elem_of_data ps g : g ∈ data ps <-> exists i p, ps !! i = Some p /\ up_allocated p = true /\ up_phys p = g.
Proof.
  unfold data. rewrite elem_of_list_to_set, list_elem_of_fmap. split.
  - intros (p & -> & [Ha [i Hi]%list_elem_of_lookup]%list_elem_of_filter). by exists i, p.
  - intros (i & p & Hi & Ha & <-). exists p. split; [done|]. apply list_elem_of_filter. split; [done|]. by eapply list_elem_of_lookup_2.
Qed.

Record pages_ok (ps : list user_vm_page) (A : aspace) : Prop := {
  po_length : length ps = USER_VM_PAGE_LIMIT;
  po_page : forall i p, ps !! i = Some p -> up_allocated p = true ->
    up_virt p mod 4096 = 0 /\ valid_address (up_virt p) = true /\
    exists f, user_flags f /\ A !! (up_virt p / 4096) = Some (up_phys p, f);
  po_map : forall k g f, A !! k = Some (g, f) ->
    exists i p, ps !! i = Some p /\ up_allocated p = true /\ up_virt p = k * 4096 /\ up_phys p = g;
  po_unique : forall i j p q, ps !! i = Some p -> ps !! j = Some q -> up_allocated p = true -> up_allocated q = true ->
    up_virt p = up_virt q \/ up_phys p = up_phys q -> i = j
}.

Lemma po_flags ps A k g f : pages_ok ps A -> A !! k = Some (g, f) -> user_flags f.
Proof.
  intros Hok HA. destruct (po_map ps A Hok k g f HA) as (i & p & Hi & Ha & Ev & _). destruct (po_page ps A Hok i p Hi Ha) as (_ & _ & f' & Hf & E).
  rewrite Ev, Z.div_mul in E by done. by simplify_eq.
Qed.

Lemma pages_insert ps A i p v g f : pages_ok ps A -> ps !! i = Some p -> up_allocated p = false ->
  v mod 4096 = 0 -> valid_address v = true -> A !! (v / 4096) = None -> g ∉ data ps -> user_flags f ->
  pages_ok (<[i := MkUPage v g true]> ps) (<[v / 4096 := (g, f)]> A) /\ data (<[i := MkUPage v g true]> ps) = {[g]} ∪ data ps.
Proof.
  intros Hok Hi Hfree Hv Hva HA Hg Hf. apply lookup_lt_Some in Hi as Hlt.
  assert (forall j q, ps !! j = Some q -> up_allocated q = true -> up_virt q <> v /\ up_phys q <> g) as Hfresh.
  { intros j q Hj Hq. split.
    - intros <-. destruct (po_page ps A Hok j q Hj Hq) as (_ & _ & f' & _ & E). congruence.
    - intros <-. apply Hg, elem_of_data. by exists j, q. }
  split; [constructor|].
  - rewrite length_insert. apply Hok.
  - intros j q Hj Hq. apply list_lookup_insert_Some in Hj as [(<- & <- & _)|[_ Hj]]; cbn.
    + split_and!; [done|done|]. exists f. by rewrite lookup_insert_eq.
    + destruct (po_page ps A Hok j q Hj Hq) as (Hm & Hvq & f' & Hf' & E). split_and!; [done|done|]. exists f'. split; [done|]. by rewrite lookup_insert_ne by congruence.
  - intros k g' f'. rewrite lookup_insert_Some. intros [[<- [= <- <-]]|[Hne E]].
    + exists i, (MkUPage v g true). rewrite list_lookup_insert_eq by done. cbn. split_and!; try done. pose proof (Z.div_mod v 4096). lia.
    + destruct (po_map ps A Hok k g' f' E) as (j & q & Hj & Hq & Hx). exists j, q. split_and!; try tauto. rewrite list_lookup_insert_ne; [done|]. congruence.
  - intros j k q r Hj Hk Hq Hr E. apply list_lookup_insert_Some in Hj as [(<- & <- & _)|[_ Hj]], Hk as [(<- & <- & _)|[_ Hk]]; [done| | |]; cbn in *.
    + destruct (Hfresh k r Hk Hr), E; congruence.
    + destruct (Hfresh j q Hj Hq), E; congruence.
    + by eapply (po_unique ps A Hok).
  - apply set_eq. intros x. rewrite elem_of_union, elem_of_singleton, !elem_of_data. split.
    + intros (j & q & Hj & Hq & <-). apply list_lookup_insert_Some in Hj as [(<- & <- & _)|[_ Hj]]; [by left|right; by exists j, q].
    + intros [->|(j & q & Hj & Hq & E)]; [exists i, (MkUPage v g true); by rewrite list_lookup_insert_eq|].
      exists j, q. rewrite list_lookup_insert_ne; [done|]. congruence.
Qed.

Lemma pages_remove ps A i p : pages_ok ps A -> ps !! i = Some p -> up_allocated p = true ->
  pages_ok (<[i := page_zero]> ps) (delete (up_virt p / 4096) A) /\ data (<[i := page_zero]> ps) = data ps ∖ {[up_phys p]}.
Proof.
  intros Hok Hi Ha. apply lookup_lt_Some in Hi as Hlt.
  assert (forall j q, ps !! j = Some q -> up_allocated q = true -> i <> j -> up_virt q <> up_virt p /\ up_phys q <> up_phys p) as Hother.
  { intros j q Hj Hq Hne. split; intros E; apply Hne; apply (po_unique ps A Hok i j p q Hi Hj Ha Hq); auto. }
  split; [constructor|].
  - rewrite length_insert. apply Hok.
  - intros j q Hj Hq. apply list_lookup_insert_Some in Hj as [(<- & <- & _)|[Hne Hj]]; [done|].
    destruct (po_page ps A Hok j q Hj Hq) as (Hm & Hvq & f' & Hf' & E), (po_page ps A Hok i p Hi Ha) as (Hmp & _). split_and!; [done|done|]. exists f'. split; [done|].
    rewrite lookup_delete_ne; [done|]. destruct (Hother j q Hj Hq Hne) as [Hn _]. intros Ek. apply Hn. rewrite (Z.div_mod (up_virt q) 4096), (Z.div_mod (up_virt p) 4096) by done. lia.
  - intros k g f. rewrite lookup_delete_Some. intros [Hne E]. destruct (po_map ps A Hok k g f E) as (j & q & Hj & Hq & Ev & Eg). exists j, q. split_and!; try done.
    rewrite list_lookup_insert_ne; [done|]. intros <-. apply Hne. simplify_eq. by rewrite Ev, Z.div_mul.
  - intros j k q r Hj Hk Hq Hr E. apply list_lookup_insert_Some in Hj as [(<- & <- & _)|[_ Hj]], Hk as [(<- & <- & _)|[_ Hk]]; try done. by eapply (po_unique ps A Hok).
  - apply set_eq. intros x. rewrite elem_of_difference, elem_of_singleton, !elem_of_data. split.
    + intros (j & q & Hj & Hq & <-). apply list_lookup_insert_Some in Hj as [(<- & <- & _)|[Hne Hj]]; [done|]. split; [by exists j, q|]. exact (proj2 (Hother j q Hj Hq Hne)).
    + intros [(j & q & Hj & Hq & <-) Hne]. exists j, q. rewrite list_lookup_insert_ne; [done|]. congruence.
Qed.

Lemma pages_protect ps A k f : pages_ok ps A -> user_flags f -> pages_ok ps (alter (fun e => (fst e, f)) k A).
Proof.
  intros Hok Hf. constructor; try apply Hok.
  - intros i p Hi Ha. destruct (po_page ps A Hok i p Hi Ha) as (? & ? & f' & Hf' & E). split_and!; [done|done|]. rewrite lookup_alter. case_decide as Ek.
    + subst k. rewrite E. by exists f.
    + by exists f'.
  - intros k' g f'. rewrite lookup_alter. case_decide as Ek; [|apply Hok]. subst k'. destruct (A !! k) as [[g0 f0]|] eqn:E; [|done].
    cbn. intros [= <- <-]. by apply (po_map ps A Hok) in E.
Qed.

(** ** The invariant of a live object *)

Section inv.
Context {P : Type} `{PageFramesLaws P}.
Notation S := (ustate P).
Notation M := (vm S).

Record uvm_inv (m : M) (A : aspace) : Prop := {
  ui_init : uv_initialized (obj m) = true;
  ui_nx : vs_nx_enabled (uv_space (obj m)) = true;
  ui_root : exists t, uv_tables (obj m) !! 0%nat = Some t /\ ut_phys t = vs_root_phys (uv_space (obj m));
  ui_pages : pages_ok (uv_pages (obj m)) A;
  ui_count : uv_page_count (obj m) = count_if up_allocated (uv_pages (obj m));
  ui_quiet : forall g, ~ loose (vm_ctx m) g;
  ui_tree : tree (data (uv_pages (obj m))) (uv_space (obj m)) m A
}.

Lemma inv_ledger m A : uvm_inv m A -> ledger_ok (data (uv_pages (obj m))) (vm_ctx m).
Proof. intros Hi. eapply tree_ledger, Hi. Qed.

Lemma count_if_pos {T} (p : T -> bool) l i x : l !! i = Some x -> p x = true -> 0 < count_if p l.
Proof.
  intros Hi Hp. rewrite <-(take_drop_middle l i x Hi), count_if_app. cbn [count_if]. rewrite Hp.
  pose proof (count_if_bounds p (take i l)). pose proof (count_if_bounds p (drop (Datatypes.S i) l)). lia.
Qed.

Lemma inv_ready m A : uvm_inv m A -> ready (obj m) = true.
Proof.
  intros Hi. pose proof (inv_ledger m A Hi) as Hok. destruct (ui_tree m A Hi) as (low & _ & Hr).
  pose proof (@vi_init _ _ (user_laws _) _ _ (@vr_inv _ _ (user_laws _) _ _ _ Hr)) as Hsp.
  destruct (lo_root _ _ Hok) as (t & Ht & Hta & Htp), (ui_root m A Hi) as (t' & Ht' & Hroot).
  assert (t' = t) as -> by (unfold obj in Ht'; congruence). unfold ready. rewrite (ui_init m A Hi), (ui_nx m A Hi), Hsp, (list_lookup_total_correct _ _ _ Ht'), Hta, Htp, Hroot, Z.eqb_refl. cbn [andb].
  rewrite (ui_count m A Hi). unfold obj. rewrite (lo_count _ _ Hok). pose proof (count_if_pos ut_allocated _ _ _ Ht Hta).
  pose proof (count_if_bounds ut_allocated (uv_tables (us_vm (vm_ctx m)))). pose proof (count_if_bounds up_allocated (uv_pages (us_vm (vm_ctx m)))).
  rewrite (lo_length _ _ Hok) in *. pose proof (po_length _ _ (ui_pages m A Hi)) as Hpl. unfold obj in Hpl. rewrite Hpl in *.
  rewrite !andb_true_iff, negb_true_iff, Z.eqb_neq, !Z.leb_le. repeat split; lia.
Qed.

Lemma page_base v : u64_ok v -> memory_align_down v = v / 4096 * 4096.
Proof. intros Hv. rewrite align_down_eq by done. pose proof (Z.div_mod v 4096). lia. Qed.

Lemma frame_base g o : g mod 4096 = 0 -> 0 <= o < 4096 -> u64_ok (g + o) -> memory_align_down (g + o) = g.
Proof. intros Hg Ho Hu. rewrite page_base by done. pose proof (Z.div_mod g 4096). rewrite <-(Z.div_unique (g + o) 4096 (g / 4096) o); lia. Qed.

(** The slot of an address is the one whose page the map has. *)
Lemma page_slot_spec m A v : uvm_inv m A -> u64_ok v ->
  match A !! (v / 4096) with
  | Some (g, f) => exists p, uv_pages (obj m) !! page_slot (obj m) v = Some p /\ up_allocated p = true /\ up_virt p = v / 4096 * 4096 /\ up_phys p = g
  | None => page_slot (obj m) v = USER_VM_PAGE_LIMIT
  end.
Proof.
  intros Hi Hv. pose proof (ui_pages m A Hi) as Hok. unfold page_slot. rewrite page_base by done. destruct (A !! (v / 4096)) as [[g f]|] eqn:E.
  - destruct (po_map _ _ Hok _ _ _ E) as (i & p & Hp & Ha & Ev & Eg). rewrite (first_index_unique _ _ i p Hp); [by exists p|by rewrite Ha, Ev, Z.eqb_refl|].
    intros j q Hj [Hq Eq%Z.eqb_eq]%andb_true_iff. apply (po_unique _ _ Hok j i q p Hj Hp Hq Ha). left. congruence.
  - rewrite <-(po_length _ _ Hok). apply first_index_none. intros i p Hp. apply andb_false_iff. destruct (up_allocated p) eqn:Ha; [right|by left].
    apply Z.eqb_neq. intros Ev. destruct (po_page _ _ Hok i p Hp Ha) as (_ & _ & f & _ & E'). rewrite Ev, Z.div_mul in E' by done. congruence.
Qed.

Lemma slot_in_range m i (p : user_vm_page) A : uvm_inv m A -> uv_pages (obj m) !! i = Some p -> i <> USER_VM_PAGE_LIMIT.
Proof. intros Hi Hp. rewrite <-(po_length _ _ (ui_pages m A Hi)). apply lookup_lt_Some in Hp. lia. Qed.

(** A data frame is allocated, aligned and not a table. *)
Lemma data_frame m A k g f : uvm_inv m A -> A !! k = Some (g, f) ->
  allocated (vm_ctx m) g /\ g mod 4096 = 0 /\ g + 4096 <= UINT64_MAX /\ g ∈ data (uv_pages (obj m)) /\ ~ in_tables (vm_ctx m) g.
Proof.
  intros Hi HA. pose proof (inv_ledger m A Hi) as Hok. destruct (po_map _ _ (ui_pages m A Hi) _ _ _ HA) as (i & p & Hp & Ha & _ & <-).
  assert (up_phys p ∈ data (uv_pages (obj m))) as Hd by (apply elem_of_data; by exists i, p). pose proof (lo_data _ _ Hok _ Hd) as [Hu Hal].
  destruct (pf_aligned _ _ (lo_frames _ _ Hok) Hu Hal). split_and!; try done. intros Hin. by destruct (lo_alloc _ _ Hok _ Hin).
Qed.

Definition uspace_query (A : aspace) (v : Z) : option vmm_mapping :=
  if valid_address v then
    Some (match A !! (v / 4096) with
          | Some (g, f) => MkMapping true (g + v mod 4096) f 4096
          | None => unmapped
          end)
  else None.

Lemma query_spec m A v : uvm_inv m A -> query_locked m v = uspace_query A v.
Proof.
  intros Hi. unfold query_locked, uspace_query. rewrite (inv_ready m A Hi). cbn [negb orb]. destruct (valid_address v) eqn:Hv; cbn [negb]; [|done].
  pose proof (valid_lower v Hv) as Hl. rewrite (tree_query _ _ _ _ v (ui_tree m A Hi) Hl). unfold aspace_query. rewrite (lower_canonical v Hl).
  pose proof (page_slot_spec m A v Hi (lower_u64 v Hl)) as Hs. destruct (A !! (v / 4096)) as [[g f]|] eqn:E; cbn [vp_mapped negb unmapped]; cycle 1.
  { rewrite Hs, bool_decide_eq_true_2 by done. done. }
  destruct Hs as (p & Hp & Ha & Ev & Eg). rewrite bool_decide_eq_false_2 by (by eapply slot_in_range). rewrite (list_lookup_total_correct _ _ _ Hp), Eg.
  destruct (data_frame m A _ _ _ Hi E) as ([Hu Hal] & Hm & Hb & _). rewrite Hal. cbn [vp_page_size vp_physical vp_flags orb negb].
  assert (memory_align_down (g + v mod 4096) = g) as ->.
  { pose proof (Z.mod_pos_bound v 4096). apply frame_base; [done|lia|unfold u64_ok in *; lia]. }
  rewrite (Z.eqb_refl g). cbn [negb orb]. destruct (po_flags _ _ _ _ _ (ui_pages m A Hi) E) as [-> | [-> | ->]]; reflexivity.
Qed.
End inv.

(** ** User address spaces: pages come and go

    [user_vm_alloc_page], [user_vm_unmap_page] and [user_vm_protect_page] keep the
    invariant and update the map of pages; the frames of everybody else, their
    contents and the kernel's half of the root stay as they are. *)


Section ops.
Context {P : Type} `{PageFramesLaws P}.
Notation S := (ustate P).
Notation M := (vm S).

(** Frames in use that this object has nothing to do with. *)
Definition outside (m : M) (g : Z) : Prop := private (vm_ctx m) g /\ g ∉ data (uv_pages (obj m)).

Record page_step (m m' : M) : Prop := {
  ps_outside : forall g, outside m' g <-> outside m g;
  ps_kept : forall g i, private (vm_ctx m) g -> vm_mem m' g i = vm_mem m g i;
  ps_high : forall i, 256 <= i -> vm_mem m' (vs_root_phys (uv_space (obj m))) i = vm_mem m (vs_root_phys (uv_space (obj m))) i;
  ps_space : uv_space (obj m') = uv_space (obj m);
  ps_cr3 : us_cr3 (vm_ctx m') = us_cr3 (vm_ctx m);
  ps_cr4 : us_cr4 (vm_ctx m') = us_cr4 (vm_ctx m)
}.

Lemma page_step_refl m : page_step m m.
Proof. done. Qed.

(** ** Ledgers with one data frame more or less *)

Lemma ledger_add D c g : ledger_ok D c -> allocated c g -> ~ in_tables c g -> ledger_ok ({[g]} ∪ D) c.
Proof.
  intros Hok Ha Hn. constructor; try apply Hok.
  - intros x Hx. destruct (lo_alloc D c Hok x Hx). split; [done|]. rewrite elem_of_union, elem_of_singleton. intros [->|]; done.
  - intros x. rewrite elem_of_union, elem_of_singleton. intros [->|Hx]; [done|]. by apply (lo_data D c Hok).
Qed.

Lemma ledger_weaken D D' c : ledger_ok D c -> D' ⊆ D -> ledger_ok D' c.
Proof.
  intros Hok Hs. constructor; try apply Hok.
  - intros x Hx. destruct (lo_alloc D c Hok x Hx). split; [done|]. intros Hd. by apply Hs in Hd.
  - intros x Hx. by apply (lo_data D c Hok), Hs.
Qed.

Lemma tree_release D space m A g : tree D space m A -> g ∈ D -> exists p,
  release_frame (vm_ctx m) g = with_frames p (vm_ctx m) /\ tree (D ∖ {[g]}) space (in_ctx (with_frames p) m) A /\
  forall x, allocated (with_frames p (vm_ctx m)) x <-> allocated (vm_ctx m) x /\ x <> g.
Proof.
  intros Ht Hg. pose proof (tree_ledger _ _ _ _ Ht) as Hok.
  destruct (release_frame_eq (vm_ctx m) g (lo_frames D _ Hok) (lo_data D _ Hok g Hg)) as (p & Ep & Hwf & _ & Ha). exists p. split_and!; [done| |done].
  assert (ledger_ok (D ∖ {[g]}) (vm_ctx m)) as Hok1 by (eapply ledger_weaken; [done|set_solver]).
  apply (tree_frame _ _ m); [by apply (tree_data D)| |done]. apply ledger_frames; [done|done|]. intros x Hx.
  enough (allocated (with_frames p (vm_ctx m)) x) as [_ ?] by done. apply Ha. destruct Hx as [Hx|Hx].
  - destruct (lo_alloc D _ Hok x Hx). split; [done|]. congruence.
  - split; [by apply (lo_data _ _ Hok1)|set_solver].
Qed.

(** The data frame of a new page: taken, cleared, and not a table. *)
Lemma tree_take D space m A p g : tree D space m A -> pmm_alloc_page (us_frames (vm_ctx m)) = (p, Some g) ->
  let m1 := in_mem (fun mem => mem_clear mem g) (in_ctx (with_frames p) m) in
  tree ({[g]} ∪ D) space m1 A /\ u64_ok g /\ ~ allocated (vm_ctx m) g /\ g ∉ D /\
  is_Some (memory_phys_to_virt p g MEMORY_PAGE_SIZE) /\
  (forall x, allocated (vm_ctx m1) x <-> allocated (vm_ctx m) x \/ x = g) /\
  (forall x i, allocated (vm_ctx m) x -> vm_mem m1 x i = vm_mem m x i) /\ forall i, vm_mem m1 g i = 0.
Proof.
  intros Ht Ep m1. pose proof (tree_ledger _ _ _ _ Ht) as Hok. destruct (frames_allocated D _ _ _ Hok Ep) as (Hok1 & Hf & Ha).
  destruct (Hf g eq_refl) as (Hu & _ & Hna). assert (allocated (vm_ctx m1) g) as Hg by (apply Ha; by right).
  assert (forall x i, allocated (vm_ctx m) x -> vm_mem m1 x i = vm_mem m x i) as Hm.
  { intros x i Hx. unfold m1, in_mem, mem_clear. cbn [vm_mem in_ctx]. destruct (Z.eqb_spec x g) as [->|]; done. }
  split_and!; [|done|done| | | |done|].
  - apply (tree_frame _ _ (in_ctx (with_frames p) m)).
    + apply (tree_data D); [by apply (tree_frame D _ m)|]. apply ledger_add; [done|done|]. intros Hin. apply Hna. by apply (lo_alloc D _ Hok).
    + apply ledger_add; [done|done|]. intros Hin. apply Hna. by apply (lo_alloc D _ Hok).
    + intros x Hx. split; [done|]. intros i. apply Hm. by apply (lo_alloc D _ Hok).
  - intros Hd. apply Hna. by apply (lo_data D _ Hok).
  - rewrite (pf_direct p g g MEMORY_PAGE_SIZE (lo_frames D _ Hok1) Hu (proj2 Hg)); [by eexists|done|done|done].
  - intros x. cbn. rewrite (Ha x). intuition congruence.
  - intros i. unfold m1, in_mem, mem_clear. cbn [vm_mem]. by rewrite Z.eqb_refl.
Qed.

(** ** Rebuilding the invariant *)

Lemma inv_object m A m' A' ps : uvm_inv m A -> same_object (vm_ctx m) (vm_ctx m') -> (forall g, loose (vm_ctx m') g <-> loose (vm_ctx m) g) ->
  pages_ok ps A' -> tree (data ps) (uv_space (obj m)) m' A' ->
  uvm_inv (in_ctx (with_vm (set_pages ps (count_if up_allocated ps))) m') A'.
Proof.
  intros Hi Hso Hl Hp Ht. destruct Hso as [Hsp _ _ Hin Hro _ _]. constructor; cbn; unfold obj in *; rewrite ?Hsp, ?Hin, ?Hro; try apply Hi; try done.
  - intros g Hg. apply (ui_quiet m A Hi g). apply Hl. exact Hg.
  - apply (tree_frame _ _ m'); [done| |done]. pose proof (tree_ledger _ _ _ _ Ht) as []. constructor; done.
Qed.

Lemma same_pages m A (m' : M) : uvm_inv m A -> same_object (vm_ctx m) (vm_ctx m') ->
  m' = in_ctx (with_vm (set_pages (uv_pages (obj m)) (count_if up_allocated (uv_pages (obj m))))) m'.
Proof.
  intros Hi Hso. destruct m' as [[[] ? ? ? ? ?] ?], Hso as [_ Hps Hc _ _ _ _]. cbn in *. unfold in_ctx, with_vm, set_pages. cbn.
  rewrite <-(ui_count m A Hi). unfold obj. congruence.
Qed.

(** The invariant when the page ledger stays. *)
Lemma inv_same m A m' A' : uvm_inv m A -> same_object (vm_ctx m) (vm_ctx m') -> (forall g, loose (vm_ctx m') g <-> loose (vm_ctx m) g) ->
  pages_ok (uv_pages (obj m)) A' -> tree (data (uv_pages (obj m))) (uv_space (obj m)) m' A' -> uvm_inv m' A'.
Proof. intros Hi Hso Hl Hp Ht. rewrite (same_pages m A m' Hi Hso). by apply (inv_object m A). Qed.

(** ** The operations *)

Lemma aligned_div v : v mod 4096 = 0 -> v / 4096 * 4096 = v.
Proof. intros Hv. pose proof (Z.div_mod v 4096). lia. Qed.

Lemma page_removed m A i p : uvm_inv m A -> uv_pages (obj m) !! i = Some p -> up_allocated p = true ->
  uv_page_count (obj m) -u 1 = count_if up_allocated (<[i := page_zero]> (uv_pages (obj m))).
Proof.
  intros Hi Hp Ha. rewrite (count_if_insert _ _ _ p) by done. rewrite (ui_count m A Hi), Ha. cbn [up_allocated page_zero]. rewrite Z.add_0_r.
  pose proof (count_if_pos up_allocated _ _ _ Hp Ha). pose proof (count_if_bounds up_allocated (uv_pages (obj m))). rewrite (po_length _ _ (ui_pages m A Hi)) in *.
  change (Z.of_nat USER_VM_PAGE_LIMIT) with 128 in *. apply u64_small. unfold u64_ok, UINT64_MAX. lia.
Qed.

(** A page goes: its frame is free again, and nothing else is. *)
Lemma unmap_page_spec m A virt : uvm_inv m A -> u64_ok virt -> let r := user_vm_unmap_page m virt in
  snd r = (virt mod 4096 =? 0) && valid_address virt && bool_decide (is_Some (A !! (virt / 4096))) /\
  uvm_inv (fst r) (if snd r then delete (virt / 4096) A else A) /\ page_step m (fst r) /\
  (if snd r then exists g f, A !! (virt / 4096) = Some (g, f) /\ forall x, allocated (vm_ctx (fst r)) x <-> allocated (vm_ctx m) x /\ x <> g
   else fst r = m).
Proof.
  intros Hi Hu. unfold user_vm_unmap_page. rewrite page_aligned_mod, (query_spec m A virt Hi). unfold uspace_query.
  destruct (Z.eqb_spec (virt mod 4096) 0) as [Hal|]; cbn [negb andb]; [|by split_and!; auto using page_step_refl].
  destruct (valid_address virt) eqn:Hv; cbn [andb]; [|by split_and!; auto using page_step_refl].
  pose proof (page_slot_spec m A virt Hi Hu) as Hs.
  destruct (A !! (virt / 4096)) as [[g f]|] eqn:E; cbn [vp_mapped negb unmapped]; [|by split_and!; auto using page_step_refl].
  rewrite bool_decide_eq_true_2 by done.
  destruct (tree_unmap _ _ m A (ui_tree m A Hi) virt (valid_lower virt Hv)) as (Eok & Ht & Hstep & Hsame). cbn [aspace_ok] in Eok.
  rewrite Hal, Z.eqb_refl, (lower_canonical virt (valid_lower virt Hv)), E, bool_decide_eq_true_2 in Eok by done. cbn [andb] in Eok.
  destruct (vmm_space_unmap _ m virt) as [m1 ok]. cbn [fst snd] in *. subst ok.
  destruct Hs as (p & Hp & Ha & Ev & Eg). rewrite aligned_div in Ev by done. destruct (ts_object _ _ _ Hstep) as [Hsp Hps Hct Hini Hrt Hc3 Hc4].
  assert (page_slot (obj m1) virt = page_slot (obj m) virt) as Eslot by (unfold page_slot, obj; by rewrite Hps). rewrite Eslot. set (i := page_slot (obj m) virt) in *.
  destruct (pages_remove _ A i p (ui_pages m A Hi) Hp Ha) as [Hpo Hd]. rewrite Ev in Hpo.
  destruct (data_frame m A _ _ _ Hi E) as (Hga & _ & _ & Hgd & Hgt).
  destruct (tree_release _ _ m1 _ g Ht Hgd) as (q & Eq & Htq & Haq). rewrite <-Eg, <-Hd in Htq.
  assert (in_ctx (fun c => release_frame c (up_phys (uv_pages (us_vm c) !!! i))) m1 = in_ctx (with_frames q) m1) as ->.
  { unfold in_ctx. cbn beta. rewrite Hps. fold (obj m). by rewrite (list_lookup_total_correct _ _ _ Hp), Eg, Eq. }
  assert (in_ctx (with_vm (fun u => set_pages (<[i := page_zero]> (uv_pages u)) (uv_page_count u -u 1) u)) (in_ctx (with_frames q) m1) =
    in_ctx (with_vm (set_pages (<[i := page_zero]> (uv_pages (obj m))) (count_if up_allocated (<[i := page_zero]> (uv_pages (obj m)))))) (in_ctx (with_frames q) m1)) as ->.
  { unfold in_ctx, with_vm, with_frames. cbn. rewrite Hps, Hct. fold (obj m). by rewrite (page_removed m A i p Hi Hp Ha). }
  split_and!; [done| | |].
  - exact (inv_object m A (in_ctx (with_frames q) m1) _ _ Hi (same_object_frames q _ _ (ts_object _ _ _ Hstep)) (ts_loose _ _ _ Hstep) Hpo Htq).
  - constructor; try done; cbn.
    + intros x. unfold outside. cbn [obj vm_ctx in_ctx with_vm us_vm set_pages uv_pages with_frames]. rewrite Hd, Eg. pose proof (ts_private _ _ _ Hstep x) as Hpr.
      change (private (with_vm _ (with_frames q (vm_ctx m1))) x) with (allocated (with_frames q (vm_ctx m1)) x /\ ~ in_tables (vm_ctx m1) x).
      rewrite Haq, elem_of_difference, elem_of_singleton. unfold private in Hpr |- *. clear -Hpr Hgd. destruct (decide (x = g)) as [->|]; tauto.
    + apply Hstep.
    + apply Hstep.
  - exists g, f. split; [done|]. intros x. etrans; [exact (Haq x)|]. by rewrite Hsame.
Qed.

Lemma user_flags_valid m A f : uvm_inv m A -> user_flags f -> flags_valid (uv_space (obj m)) f = true.
Proof.
  intros Hi Hf. destruct (ui_tree m A Hi) as (low & _ & Hr). pose proof (@vi_init _ _ (user_laws _) _ _ (@vr_inv _ _ (user_laws _) _ _ _ Hr)) as Hsp.
  unfold flags_valid. rewrite Hsp, (ui_nx m A Hi). by destruct Hf as [-> | [-> | ->]].
Qed.

(** The permissions of a page change, and nothing else. *)
Lemma protect_page_spec m A virt access : uvm_inv m A -> u64_ok virt -> 0 <= access <= UINT32_MAX -> let r := user_vm_protect_page m virt access in
  snd r = (virt mod 4096 =? 0) && valid_access access && valid_address virt && bool_decide (is_Some (A !! (virt / 4096))) /\
  uvm_inv (fst r) (if snd r then alter (fun e => (fst e, access_flags access)) (virt / 4096) A else A) /\ page_step m (fst r) /\
  (forall g, allocated (vm_ctx (fst r)) g <-> allocated (vm_ctx m) g) /\ (snd r = false -> fst r = m).
Proof.
  intros Hi Hu Hacc. unfold user_vm_protect_page. rewrite page_aligned_mod, (query_spec m A virt Hi). unfold uspace_query.
  destruct (Z.eqb_spec (virt mod 4096) 0) as [Hal|]; cbn [negb orb andb]; [|by split_and!; auto using page_step_refl].
  destruct (valid_access access) eqn:Hva; cbn [negb andb]; [|by split_and!; auto using page_step_refl].
  destruct (valid_address virt) eqn:Hv; cbn [andb]; [|by split_and!; auto using page_step_refl].
  destruct (A !! (virt / 4096)) as [[g f]|] eqn:E; cbn [vp_mapped negb unmapped]; [|by split_and!; auto using page_step_refl].
  rewrite bool_decide_eq_true_2 by done. pose proof (access_user_flags access Hacc Hva) as Hf.
  destruct (tree_protect _ _ m A (ui_tree m A Hi) virt (valid_lower virt Hv) _ (user_flags_u64 _ Hf)) as (Eok & Ht & Hstep & Hsame). cbn [aspace_ok] in Eok.
  rewrite Hal, Z.eqb_refl, (lower_canonical virt (valid_lower virt Hv)), (user_flags_valid m A _ Hi Hf), E, bool_decide_eq_true_2 in Eok by done. cbn [andb] in Eok.
  destruct (vmm_space_protect _ m virt _) as [m1 ok]. cbn [fst snd] in *. subst ok. pose proof (ts_object _ _ _ Hstep) as Hso. split_and!; try done.
  - apply (inv_same m A m1); [done|done|apply Hstep|by apply pages_protect, Hf; apply Hi|done].
  - constructor; [|apply Hstep|apply Hstep|apply Hso|apply Hso|apply Hso]. intros x. unfold outside, obj. by rewrite (ts_private _ _ _ Hstep), (so_pages _ _ Hso).
Qed.

(** When the frames do not suffice for a new page. *)
Definition starved (m : M) : Prop :=
  match pmm_alloc_page (us_frames (vm_ctx m)) with
  | (_, None) => True
  | (p, Some g) => physical_valid (uv_space (obj m)) g = false \/
      out_of_tables (uv_space (obj m)) (in_mem (fun mem => mem_clear mem g) (in_ctx (with_frames p) m))
  end.

Definition alloc_legal (m : M) (A : aspace) (virt access : Z) : bool :=
  (virt mod 4096 =? 0) && valid_access access && valid_address virt && bool_decide (A !! (virt / 4096) = None) &&
  negb (uv_page_count (obj m) =? Z.of_nat USER_VM_PAGE_LIMIT).

(** A refused call leaves everything as it was. *)
Definition alloc_refused (m m' : M) (A : aspace) : Prop :=
  uvm_inv m' A /\ page_step m m' /\ forall g, allocated (vm_ctx m') g <-> allocated (vm_ctx m) g.

Lemma alloc_refused_refl m A : uvm_inv m A -> alloc_refused m m A.
Proof. done. Qed.

(** An attempt that got no frame. *)
Lemma alloc_none m A p : uvm_inv m A -> pmm_alloc_page (us_frames (vm_ctx m)) = (p, None) -> alloc_refused m (in_ctx (with_frames p) m) A.
Proof.
  intros Hi Ep. destruct (frames_allocated _ _ _ _ (inv_ledger m A Hi) Ep) as (Hok & _ & Ha).
  assert (forall g, allocated (with_frames p (vm_ctx m)) g <-> allocated (vm_ctx m) g) as Hsame by (intros g; rewrite Ha; intuition congruence).
  split_and!; [|constructor; try done|done].
  - apply (inv_same m A); [done|by apply same_object_frames|done|apply Hi|]. by apply (tree_frame _ _ m); [apply Hi| |].
  - intros g. unfold outside, private. cbn. by rewrite Hsame.
Qed.

(** A frame that could not be mapped goes back. *)
Lemma alloc_undone m A p g m2 : uvm_inv m A -> pmm_alloc_page (us_frames (vm_ctx m)) = (p, Some g) ->
  let m1 := in_mem (fun mem => mem_clear mem g) (in_ctx (with_frames p) m) in
  tree ({[g]} ∪ data (uv_pages (obj m))) (uv_space (obj m)) m2 A -> tree_step (uv_space (obj m)) m1 m2 ->
  (forall x, allocated (vm_ctx m2) x <-> allocated (vm_ctx m1) x) ->
  alloc_refused m (in_ctx (fun c => release_frame c g) m2) A.
Proof.
  intros Hi Ep m1 Ht2 Hstep Hsame. destruct (tree_take _ _ m A p g (ui_tree m A Hi) Ep) as (_ & Hu & Hna & Hgd & _ & Ha1 & Hkept & _). fold m1 in Ha1, Hkept.
  destruct (tree_release _ _ m2 A g Ht2) as (q & Eq & Htq & Haq); [set_solver|]. replace (_ ∖ {[g]}) with (data (uv_pages (obj m))) in Htq by set_solver.
  assert (in_ctx (fun c => release_frame c g) m2 = in_ctx (with_frames q) m2) as -> by (unfold in_ctx; by rewrite Eq).
  assert (same_object (vm_ctx m) (vm_ctx m2)) as Hso by (destruct (ts_object _ _ _ Hstep); by constructor).
  assert (forall x, allocated (with_frames q (vm_ctx m2)) x <-> allocated (vm_ctx m) x) as Hback.
  { intros x. rewrite Haq, Hsame, Ha1. split; [tauto|]. intros Hx. split; [by left|]. congruence. }
  split_and!; [|constructor|exact Hback].
  - apply (inv_same m A); [done|by apply same_object_frames|apply Hstep|apply Hi|done].
  - intros x. unfold outside, obj. cbn [vm_ctx in_ctx with_frames us_vm]. rewrite (so_pages _ _ Hso).
    enough (private (with_frames q (vm_ctx m2)) x <-> private (vm_ctx m) x) by tauto. unfold private at 1.
    rewrite Hback. pose proof (ts_private _ _ _ Hstep x) as Hp. unfold private in *. rewrite Hsame, !Ha1 in Hp. change (in_tables (with_frames q (vm_ctx m2)) x) with (in_tables (vm_ctx m2) x).
    change (in_tables (vm_ctx m1) x) with (in_tables (vm_ctx m) x) in Hp. tauto.
  - intros x i [Hx Hn]. cbn [in_ctx vm_mem]. rewrite (ts_kept _ _ _ Hstep), Hkept by (done || (split; [apply Ha1; by left|done])). done.
  - intros i Hlt. cbn [in_ctx vm_mem]. rewrite (ts_high _ _ _ Hstep), Hkept; [done| |done]. apply (lo_alloc _ _ (inv_ledger m A Hi)), (tree_root _ _ _ _ (ui_tree m A Hi)).
  - apply Hso.
  - apply Hso.
  - apply Hso.
Qed.

Lemma page_added m A i p v g : uvm_inv m A -> uv_pages (obj m) !! i = Some p -> up_allocated p = false ->
  uv_page_count (obj m) +u 1 = count_if up_allocated (<[i := MkUPage v g true]> (uv_pages (obj m))).
Proof.
  intros Hi Hp Ha. rewrite (count_if_insert _ _ _ p) by done. rewrite (ui_count m A Hi), Ha. cbn [up_allocated]. rewrite Z.sub_0_r.
  pose proof (count_if_bounds up_allocated (uv_pages (obj m))). rewrite (po_length _ _ (ui_pages m A Hi)) in *.
  change (Z.of_nat USER_VM_PAGE_LIMIT) with 128 in *. apply u64_small. unfold u64_ok, UINT64_MAX. lia.
Qed.

Definition alloc_granted (m m' : M) (A : aspace) (virt access : Z) : Prop :=
  exists g, ~ allocated (vm_ctx m) g /\ uvm_inv m' (<[virt / 4096 := (g, access_flags access)]> A) /\ page_step m m' /\
            (forall x, allocated (vm_ctx m) x -> allocated (vm_ctx m') x) /\ forall i, vm_mem m' g i = 0.

Lemma alloc_done m A p g m2 virt access i e : uvm_inv m A -> pmm_alloc_page (us_frames (vm_ctx m)) = (p, Some g) ->
  let m1 := in_mem (fun mem => mem_clear mem g) (in_ctx (with_frames p) m) in
  virt mod 4096 = 0 -> valid_address virt = true -> A !! (virt / 4096) = None -> user_flags (access_flags access) ->
  uv_pages (obj m) !! i = Some e -> up_allocated e = false ->
  tree ({[g]} ∪ data (uv_pages (obj m))) (uv_space (obj m)) m2 (<[virt / 4096 := (g, access_flags access)]> A) -> tree_step (uv_space (obj m)) m1 m2 ->
  alloc_granted m (in_ctx (with_vm (fun u => set_pages (<[i := MkUPage virt g true]> (uv_pages u)) (uv_page_count u +u 1) u)) m2) A virt access.
Proof.
  intros Hi Ep m1 Hal Hv HA Hf Hp He Ht2 Hstep. destruct (tree_take _ _ m A p g (ui_tree m A Hi) Ep) as (_ & Hu & Hna & Hgd & _ & Ha1 & Hkept & Hzero). fold m1 in Ha1, Hkept, Hzero.
  destruct (pages_insert _ A i e virt g _ (ui_pages m A Hi) Hp He Hal Hv HA Hgd Hf) as [Hpo Hd].
  assert (same_object (vm_ctx m) (vm_ctx m2)) as Hso by (destruct (ts_object _ _ _ Hstep); by constructor).
  assert (in_ctx (with_vm (fun u => set_pages (<[i := MkUPage virt g true]> (uv_pages u)) (uv_page_count u +u 1) u)) m2 =
    in_ctx (with_vm (set_pages (<[i := MkUPage virt g true]> (uv_pages (obj m))) (count_if up_allocated (<[i := MkUPage virt g true]> (uv_pages (obj m)))))) m2) as ->.
  { unfold in_ctx, with_vm. rewrite (so_pages _ _ Hso), (so_count _ _ Hso). fold (obj m). by rewrite (page_added m A i e virt g Hi Hp He). }
  assert (~ in_tables (vm_ctx m) g) as Hgt by (intros Hin; apply Hna; by apply (lo_alloc _ _ (inv_ledger m A Hi))).
  exists g. split_and!; [done| |constructor; cbn [in_ctx vm_mem]| |].
  - apply (inv_object m A m2); [done|done|apply Hstep|done|]. by rewrite Hd.
  - intros x. unfold outside, obj. cbn [vm_ctx in_ctx with_vm us_vm set_pages uv_pages]. fold (obj m). rewrite Hd, elem_of_union, elem_of_singleton.
    pose proof (ts_private _ _ _ Hstep x) as Hx. unfold private in *. rewrite Ha1 in Hx. change (in_tables (vm_ctx m1) x) with (in_tables (vm_ctx m) x) in Hx.
    change (in_tables (with_vm _ (vm_ctx m2)) x) with (in_tables (vm_ctx m2) x). change (allocated (with_vm _ (vm_ctx m2)) x) with (allocated (vm_ctx m2) x).
    clear -Hx Hna. destruct (decide (x = g)) as [->|]; tauto.
  - intros x j [Hx Hn]. rewrite (ts_kept _ _ _ Hstep), Hkept by (done || (split; [apply Ha1; by left|done])). done.
  - intros j Hlt. rewrite (ts_high _ _ _ Hstep), Hkept; [done| |done]. apply (lo_alloc _ _ (inv_ledger m A Hi)), (tree_root _ _ _ _ (ui_tree m A Hi)).
  - apply Hso.
  - apply Hso.
  - apply Hso.
  - intros x Hx. apply (ts_owned _ _ _ Hstep x). apply Ha1. by left.
  - intros j. cbn [in_ctx vm_mem]. rewrite (ts_kept _ _ _ Hstep); [apply Hzero|]. split; [apply Ha1; by right|done].
Qed.

(** A new page is a fresh zeroed frame; a refused call takes nothing. *)
Lemma alloc_page_spec m A virt access : uvm_inv m A -> u64_ok virt -> 0 <= access <= UINT32_MAX -> let r := user_vm_alloc_page m virt access in
  (snd r = true -> alloc_legal m A virt access = true /\ alloc_granted m (fst r) A virt access) /\
  (snd r = false -> alloc_refused m (fst r) A /\ (alloc_legal m A virt access = false \/ starved m)).
Proof.
  intros Hi Hu Hacc. unfold user_vm_alloc_page, alloc_legal, starved. rewrite (inv_ready m A Hi), page_aligned_mod, (query_spec m A virt Hi). unfold uspace_query.
  pose proof (alloc_refused_refl m A Hi) as Hsame.
  destruct (Z.eqb_spec (virt mod 4096) 0) as [Hal|]; cbn [negb orb andb]; [|split; [done|]; by auto].
  destruct (valid_access access) eqn:Hva; cbn [negb andb orb]; [|split; [done|]; by auto].
  destruct (uv_page_count (obj m) =? _) eqn:Hcnt; cbn [negb]; [rewrite andb_false_r; split; [done|]; by auto|]. rewrite andb_true_r.
  destruct (valid_address virt) eqn:Hv; cbn [andb]; [|split; [done|]; by auto].
  destruct (A !! (virt / 4096)) as [[? ?]|] eqn:E; cbn [vp_mapped unmapped]; [split; [done|]; rewrite bool_decide_eq_false_2 by done; by auto|]. rewrite (bool_decide_eq_true_2 (@None (Z * Z) = None)) by done.
  pose proof (first_index_le (fun p => negb (up_allocated p)) (uv_pages (obj m))) as Hle.
  pose proof (po_length _ _ (ui_pages m A Hi)) as Hlen. case_bool_decide as Hslot.
  { exfalso. rewrite <-Hlen in Hslot. apply Z.eqb_neq in Hcnt. apply Hcnt. rewrite (ui_count m A Hi), <-Hlen. apply count_if_all.
    intros x [j Hj]%list_elem_of_lookup. apply negb_false_iff. by eapply first_index_none in Hslot. }
  assert (first_index (fun p => negb (up_allocated p)) (uv_pages (obj m)) < length (uv_pages (obj m)))%nat as Hlt by lia.
  destruct (first_index_found _ _ Hlt) as (e & He & Hfree%negb_true_iff).
  destruct (pmm_alloc_page (us_frames (vm_ctx m))) as [p [g|]] eqn:Ep; [|split; [done|]; intros _; split; [by apply alloc_none|by right]].
  pose proof (access_user_flags access Hacc Hva) as Hf.
  destruct (tree_take _ _ m A p g (ui_tree m A Hi) Ep) as (Ht & Hgu & _ & _ & [alias ->] & _).
  destruct (tree_map _ _ _ A Ht virt (valid_lower virt Hv) g _ Hgu (user_flags_u64 _ Hf)) as (_ & Ht2 & Hstep & Hno).
  destruct (vmm_space_map _ _ virt g _) as [m2 []]; cbn [fst snd] in *; ((split; [|done]) || (split; [done|])); intros _.
  - split; [done|]. by apply (alloc_done m A p g m2 virt access _ e).
  - destruct (Hno eq_refl) as [Hsm Hwhy]. split; [by eapply alloc_undone|]. destruct Hwhy as [Hwhy|]; [|auto]. right. left. cbn [aspace_ok] in Hwhy.
    by rewrite (user_flags_valid m A _ Hi Hf), Hal, Z.eqb_refl, (lower_canonical virt (valid_lower virt Hv)), E, bool_decide_eq_true_2, !andb_true_r in Hwhy.
Qed.
End ops.
