(* ===== verification/UserVmLife.v ===== *)
(** * User address spaces: creation and destruction

    A new object owns one table, and [user_vm_destroy] of a live object always
    passes its own audit and gives back exactly the frames the object has. *)

From S2P Require Import Prelude MemoryHelpers VmmCore VmmMap VmmSpec VmmTrace Frames KernelVm UserVm UserVmTree UserVmOps.
Open Scope Z_scope.

Lemma NoDup_filter_fmap {A} (f : A -> Z) (p : A -> bool) l :
  (forall i j x y, l !! i = Some x -> l !! j = Some y -> p x = true -> p y = true -> f x = f y -> i = j) ->
  NoDup (f <$> filter (fun x => p x = true) l).
Proof.
  induction l as [|x l IH]; intros Hu; [constructor|]. assert (NoDup (f <$> filter (fun x => p x = true) l)) as Hnd.
  { apply IH. intros i j y z Hi Hj Hy Hz E. enough (S i = S j) by lia. by apply (Hu (S i) (S j) y z). }
  rewrite filter_cons. case_decide as Hx; [|done]. cbn. constructor; [|done]. rewrite list_elem_of_fmap.
  intros (y & E & [Hy [j Hj]%list_elem_of_lookup]%list_elem_of_filter). by specialize (Hu O (S j) x y eq_refl Hj Hx Hy E).
Qed.

Section life.
Context {P : Type} `{PageFramesLaws P}.
Notation S := (ustate P).
Notation M := (vm S).

(** ** The audit *)

Lemma tables_published m A i t : uvm_inv m A -> uv_tables (obj m) !! i = Some t -> ut_allocated t = true -> ut_published t = true.
Proof. intros Hi Ht Ha. destruct (ut_published t) eqn:E; [done|]. destruct (ui_quiet m A Hi (ut_phys t)). by exists i, t. Qed.

Lemma table_audit m A i : uvm_inv m A -> (i < USER_VM_TABLE_LIMIT)%nat -> table_entry_ok (vm_ctx m) (uv_tables (obj m)) i = true.
Proof.
  intros Hi Hlt. pose proof (inv_ledger m A Hi) as Hok. pose proof (lo_length _ _ Hok) as Hlen. fold (obj m) in Hlen. rewrite <-Hlen in Hlt.
  apply lookup_lt_is_Some_2 in Hlt as [t Ht]. unfold table_entry_ok. rewrite (list_lookup_total_correct _ _ _ Ht).
  destruct (ut_allocated t) eqn:Ha; cbn [negb orb]; [|done]. rewrite (tables_published m A i t) by done.
  destruct (lo_alloc _ _ Hok (ut_phys t)) as [[_ ->] _]; [by exists i, t|]. cbn [andb]. apply forallb_forall.
  intros s [j Hj]%list_elem_of_In%list_elem_of_lookup. apply negb_true_iff, not_true_iff_false. intros [Hs E%Z.eqb_eq]%andb_true_iff.
  apply lookup_take_Some in Hj as [Hj Hji]. pose proof (lo_unique _ _ Hok j i s t Hj Ht Hs Ha E). lia.
Qed.

Lemma page_audit m A i : uvm_inv m A -> (i < USER_VM_PAGE_LIMIT)%nat -> page_entry_ok m (uv_pages (obj m)) i = true.
Proof.
  intros Hi Hlt. pose proof (ui_pages m A Hi) as Hok. rewrite <-(po_length _ _ Hok) in Hlt. apply lookup_lt_is_Some_2 in Hlt as [p Hp].
  unfold page_entry_ok. rewrite (list_lookup_total_correct _ _ _ Hp), page_aligned_mod, (query_spec m A _ Hi). destruct (up_allocated p) eqn:Ha; cbn [negb orb]; [|done].
  destruct (po_page _ _ Hok i p Hp Ha) as (Hal & Hv & f & _ & E). unfold uspace_query. rewrite Hv, E, Hal, Z.add_0_r. cbn [vp_mapped vp_physical]. rewrite !Z.eqb_refl.
  destruct (data_frame m A _ _ _ Hi E) as (_ & _ & _ & _ & Hnt). rewrite bool_decide_eq_true_2; cycle 1.
  { destruct (decide (table_slot (obj m) (up_phys p) = USER_VM_TABLE_LIMIT)) as [|Hne]; [done|]. by apply (table_slot_in _ _ _ (inv_ledger m A Hi)) in Hne. }
  cbn [andb]. apply forallb_forall. intros q [j Hj]%list_elem_of_In%list_elem_of_lookup. apply negb_true_iff, not_true_iff_false.
  intros [Hq Heq]%andb_true_iff. apply lookup_take_Some in Hj as [Hj Hji]. rewrite orb_true_iff, !Z.eqb_eq in Heq.
  pose proof (po_unique _ _ Hok j i q p Hj Hp Hq Ha). lia.
Qed.

Lemma ownership_holds m A : uvm_inv m A -> ownership_valid m = true.
Proof.
  intros Hi. unfold ownership_valid. rewrite !andb_true_iff, !forallb_forall, !Z.eqb_eq. split_and!.
  - intros i Hin%in_seq. apply (table_audit m A); [done|lia].
  - intros i Hin%in_seq. apply (page_audit m A); [done|lia].
  - symmetry. apply (lo_count _ _ (inv_ledger m A Hi)).
  - symmetry. apply (ui_count m A Hi).
Qed.

(** ** Giving back *)

Lemma release_all fs : forall c : S, pf_wf (us_frames c) -> NoDup fs -> (forall f, f ∈ fs -> allocated c f) -> exists p,
  foldl release_frame c fs = with_frames p c /\ pf_wf p /\ forall x, allocated (with_frames p c) x <-> allocated c x /\ x ∉ fs.
Proof.
  induction fs as [|f fs IH]; intros c Hwf Hnd Ha; cbn [foldl].
  - exists (us_frames c). split_and!; [by destruct c|done|]. intros x. pose proof (not_elem_of_nil x). destruct c. unfold allocated. cbn. tauto.
  - apply NoDup_cons in Hnd as [Hf Hnd]. destruct (release_frame_eq c f Hwf) as (p & -> & Hp & _ & Hx); [apply Ha; by left|].
    destruct (IH (with_frames p c) Hp Hnd) as (q & -> & Hq & Hy).
    { intros g Hg. apply Hx. split; [apply Ha; by right|]. congruence. }
    exists q. split_and!; [done|done|]. intros x. rewrite not_elem_of_cons. etrans; [apply Hy|]. rewrite Hx. tauto.
Qed.

Lemma release_pages ps : forall c : S, foldl release_page_entry c ps = foldl release_frame c (up_phys <$> filter (fun p => up_allocated p = true) ps).
Proof.
  induction ps as [|p ps IH]; intros c; cbn [foldl]; [done|]. rewrite filter_cons. unfold release_page_entry at 2. case_decide as Ha; [by rewrite Ha, IH|].
  apply not_true_iff_false in Ha. by rewrite Ha, IH.
Qed.

Lemma release_tables ts : forall c : S, foldl release_table_entry c ts = foldl release_frame c (ut_phys <$> filter (fun t => ut_allocated t = true) ts).
Proof.
  induction ts as [|t ts IH]; intros c; cbn [foldl]; [done|]. rewrite filter_cons. unfold release_table_entry at 2. case_decide as Ha; [by rewrite Ha, IH|].
  apply not_true_iff_false in Ha. by rewrite Ha, IH.
Qed.

(** All frames of the object, in the order of [user_vm_destroy]. *)
Definition frames_of (u : user_vm) : list Z :=
  (up_phys <$> filter (fun p => up_allocated p = true) (uv_pages u)) ++
  (ut_phys <$> filter (fun t => ut_allocated t = true) (rev (tail (uv_tables u)))) ++ [ut_phys (uv_tables u !!! 0%nat)].

Lemma tables_of m A : uvm_inv m A -> (ut_phys <$> filter (fun t => ut_allocated t = true) (rev (tail (uv_tables (obj m))))) ++ [ut_phys (uv_tables (obj m) !!! 0%nat)] ≡ₚ
  ut_phys <$> filter (fun t => ut_allocated t = true) (uv_tables (obj m)).
Proof.
  intros Hi. destruct (lo_root _ _ (inv_ledger m A Hi)) as (t & Ht & Ha & _). fold (obj m) in Ht. destruct (uv_tables (obj m)) as [|t0 ts]; [done|]. cbn in Ht. injection Ht as ->.
  cbn [tail lookup_total list_lookup_total]. rewrite filter_cons, decide_True by done. cbn. rewrite <-Permutation_rev. by rewrite Permutation_app_comm.
Qed.

Lemma frames_of_in m A g : uvm_inv m A -> g ∈ frames_of (obj m) <-> g ∈ data (uv_pages (obj m)) \/ in_tables (vm_ctx m) g.
Proof.
  intros Hi. unfold frames_of. rewrite elem_of_app, (tables_of m A Hi). unfold data at 1. rewrite elem_of_list_to_set.
  apply or_iff_compat_l. rewrite list_elem_of_fmap. unfold in_tables. split.
  - intros (t & -> & [Ha [i Ht]%list_elem_of_lookup]%list_elem_of_filter). by exists i, t.
  - intros (i & t & Ht & Ha & <-). exists t. split; [done|]. apply list_elem_of_filter. split; [done|]. by eapply list_elem_of_lookup_2.
Qed.

Lemma frames_of_nodup m A : uvm_inv m A -> NoDup (frames_of (obj m)).
Proof.
  intros Hi. pose proof (inv_ledger m A Hi) as Hok. unfold frames_of. rewrite (tables_of m A Hi). apply NoDup_app. split_and!.
  - apply NoDup_filter_fmap. intros i j p q Hp Hq Ha Hb E. by apply (po_unique _ _ (ui_pages m A Hi) i j p q); auto.
  - intros g Hg Ht. assert (g ∈ data (uv_pages (obj m))) as Hd by (by apply elem_of_list_to_set).
    apply list_elem_of_fmap in Ht as (t & -> & [Ha [i Ht]%list_elem_of_lookup]%list_elem_of_filter).
    destruct (lo_alloc _ _ Hok (ut_phys t)) as [_ Hn]; [by exists i, t|]. done.
  - apply NoDup_filter_fmap. intros i j p q Hp Hq Ha Hb E. by apply (lo_unique _ _ Hok i j p q).
Qed.

(** An object before its creation and after its destruction. *)
Record uvm_fresh (m : M) : Prop := {
  uf_obj : obj m = user_vm_zero;
  uf_frames : pf_wf (us_frames (vm_ctx m));
  uf_panic : us_panic (vm_ctx m) = false
}.

Definition loaded (m : M) : bool :=
  Z.land (us_cr3 (vm_ctx m)) (vs_physical_mask (uv_space (obj m))) =? vs_root_phys (uv_space (obj m)).

Lemma destroy_spec m A : uvm_inv m A -> let r := user_vm_destroy m in
  snd r = negb (loaded m) /\ (snd r = false -> fst r = m) /\
  (snd r = true -> uvm_fresh (fst r) /\ vm_mem (fst r) = vm_mem m /\ us_cr3 (vm_ctx (fst r)) = us_cr3 (vm_ctx m) /\ us_cr4 (vm_ctx (fst r)) = us_cr4 (vm_ctx m) /\
     forall g, allocated (vm_ctx (fst r)) g <-> outside m g).
Proof.
  intros Hi. unfold user_vm_destroy. rewrite (inv_ready m A Hi), (ownership_holds m A Hi). cbn [negb orb]. rewrite orb_false_r. fold (loaded m).
  destruct (loaded m); [done|]. cbn [negb]. pose proof (inv_ledger m A Hi) as Hok. rewrite release_pages, release_tables.
  assert (forall c : S, release_frame (foldl release_frame (foldl release_frame c (up_phys <$> filter (fun p => up_allocated p = true) (uv_pages (obj m))))
    (ut_phys <$> filter (fun t => ut_allocated t = true) (rev (tail (uv_tables (obj m)))))) (ut_phys (uv_tables (obj m) !!! 0%nat)) =
    foldl release_frame c (frames_of (obj m))) as -> by (intros c; unfold frames_of; by rewrite !foldl_app).
  destruct (release_all (frames_of (obj m)) (vm_ctx m) (lo_frames _ _ Hok) (frames_of_nodup m A Hi)) as (p & -> & Hwf & Ha).
  { intros f [Hd|Ht]%(frames_of_in m A f Hi); [by apply (lo_data _ _ Hok)|by apply (lo_alloc _ _ Hok)]. }
  split_and!; [done|done|]. intros _. split_and!; [|done|done|done|].
  - constructor; [done|done|]. cbn. apply (lo_panic _ _ Hok).
  - intros g. etrans; [exact (Ha g)|]. rewrite (frames_of_in m A g Hi). unfold outside, private. tauto.
Qed.

(** ** Creation *)

Lemma seqZ_store (mem : Z -> Z -> Z) root (f : Z -> Z) n : 0 <= n -> forall p j,
  foldl (fun mem i => mem_set mem root (256 + i) (f i)) mem (seqZ 0 n) p j =
  if (p =? root) && (256 <=? j) && (j <? 256 + n) then f (j - 256) else mem p j.
Proof.
  intros Hn. rewrite <-(Z2Nat.id n) by lia. induction (Z.to_nat n) as [|k IH]; intros p j.
  - change (seqZ 0 (Z.of_nat 0)) with (@nil Z). cbn [foldl]. destruct (Z.leb_spec 256 j), (Z.ltb_spec j (256 + Z.of_nat 0)); try lia; by rewrite ?andb_false_r.
  - rewrite seqZ_S, foldl_app. cbn [foldl]. unfold mem_set at 1. rewrite IH. destruct (Z.eqb_spec p root) as [->|]; cbn [andb]; [|done].
    destruct (Z.eqb_spec j (256 + (0 + Z.of_nat k))) as [->|].
    + destruct (Z.leb_spec 256 (256 + (0 + Z.of_nat k))), (Z.ltb_spec (256 + (0 + Z.of_nat k)) (256 + Z.of_nat (Datatypes.S k))); try lia. cbn [andb]. f_equal. lia.
    + destruct (Z.leb_spec 256 j), (Z.ltb_spec j (256 + Z.of_nat k)), (Z.ltb_spec j (256 + Z.of_nat (Datatypes.S k))); try lia; done.
Qed.

Lemma upper_entry (v : Z) : Z.land (Z.land v (not64 VMM_USER)) (not64 VMM_USER) = Z.land v (not64 VMM_USER).
Proof. by rewrite <-Z.land_assoc, Z.land_diag. Qed.

(** The root after [store_upper]: the kernel's entries above, nothing below. *)
Lemma store_upper_spec mem root f : let upper := (fun i => Z.land (f (256 + i)) (not64 VMM_USER)) <$> seqZ 0 256 in
  forall p j, store_upper (mem_clear mem root) root upper p j =
    if p =? root then if (256 <=? j) && (j <? 512) then Z.land (f j) (not64 VMM_USER) else 0 else mem p j.
Proof.
  intros upper p j. unfold store_upper. rewrite (seqZ_store _ root (fun i => Z.land (arr_get upper i) (not64 VMM_USER)) 256) by lia. change (256 + 256) with 512.
  unfold mem_clear. destruct (Z.eqb_spec p root) as [->|]; cbn [andb]; [|done]. destruct (Z.leb_spec 256 j), (Z.ltb_spec j 512); cbn [andb]; try done.
  assert (arr_get upper (j - 256) = Z.land (f j) (not64 VMM_USER)) as ->; [|apply upper_entry].
  unfold arr_get. apply list_lookup_total_correct. unfold upper. rewrite list_lookup_fmap, lookup_seqZ_lt by lia. cbn [fmap option_fmap option_map].
  do 3 f_equal. lia.
Qed.

Lemma data_zero : data (uv_pages user_vm_zero) = ∅.
Proof. apply set_eq. intros g. rewrite elem_of_data. split; [|done]. intros (i & p & [-> _]%lookup_replicate & Ha & _). done. Qed.

Lemma pages_zero : pages_ok (uv_pages user_vm_zero) ∅.
Proof.
  constructor; [done| | |].
  - intros i p [-> _]%lookup_replicate Ha. done.
  - intros k g f Hk. by rewrite lookup_empty in Hk.
  - intros i j p q [-> _]%lookup_replicate _ Ha. done.
Qed.

(** The object with its first table. *)
Definition first_table (g : Z) (u : user_vm) : user_vm := set_tables (<[0%nat := MkUTable g true true]> (uv_tables u)) 1 u.

Lemma first_tables (c : S) g x : us_vm c = user_vm_zero -> in_tables (with_vm (first_table g) c) x <-> x = g.
Proof.
  intros E. unfold in_tables. cbn. rewrite E. split.
  - intros (i & t & Ht & Ha & <-). apply list_lookup_insert_Some in Ht as [(_ & <- & _)|[_ [-> _]%lookup_replicate]]; done.
  - intros ->. by exists 0%nat, (MkUTable g true true).
Qed.

Lemma first_ledger (c : S) g : us_vm c = user_vm_zero -> pf_wf (us_frames c) -> us_panic c = false -> allocated c g -> ledger_ok ∅ (with_vm (first_table g) c).
Proof.
  intros E Hwf Hp Ha. constructor; cbn; rewrite ?E; try done.
  - intros x ->%first_tables; [|done]. by split; [|set_solver].
  - intros i j t s Ht Hs Hta Hsa _. apply list_lookup_insert_Some in Ht as [(<- & _)|[_ [-> _]%lookup_replicate]]; [|done].
    by apply list_lookup_insert_Some in Hs as [(<- & _)|[_ [-> _]%lookup_replicate]].
  - by exists (MkUTable g true true).
Qed.

Definition created (k : kernel_vmm) (m m' : M) : Prop :=
  let root := vs_root_phys (uv_space (obj m')) in
  ~ allocated (vm_ctx m) root /\ uvm_inv m' ∅ /\ (forall g, outside m' g <-> allocated (vm_ctx m) g) /\
  (forall g i, allocated (vm_ctx m) g -> vm_mem m' g i = vm_mem m g i) /\
  (forall i, 256 <= i < 512 -> vm_mem m' root i = Z.land (vm_mem m (vinf_root_phys (kv_information k)) i) (not64 VMM_USER)) /\
  us_cr3 (vm_ctx m') = us_cr3 (vm_ctx m) /\ us_cr4 (vm_ctx m') = us_cr4 (vm_ctx m).

Definition not_created (m m' : M) : Prop :=
  uvm_fresh m' /\ (forall g, allocated (vm_ctx m') g <-> allocated (vm_ctx m) g) /\
  (forall g i, allocated (vm_ctx m) g -> vm_mem m' g i = vm_mem m g i) /\
  us_cr3 (vm_ctx m') = us_cr3 (vm_ctx m) /\ us_cr4 (vm_ctx m') = us_cr4 (vm_ctx m).

(** The root frame goes back when the page tables cannot start with it. *)
Lemma create_undone m (m1 : M) p g : uvm_fresh m -> pmm_alloc_page (us_frames (vm_ctx m)) = (p, Some g) ->
  us_frames (vm_ctx m1) = p -> us_panic (vm_ctx m1) = false -> us_cr3 (vm_ctx m1) = us_cr3 (vm_ctx m) -> us_cr4 (vm_ctx m1) = us_cr4 (vm_ctx m) ->
  (forall x i, x <> g -> vm_mem m1 x i = vm_mem m x i) ->
  not_created m (in_ctx (with_vm (fun _ => user_vm_zero)) (in_ctx (fun c => release_frame c g) m1)).
Proof.
  intros Hf Ep Efr Hpan Hc3 Hc4 Hm. destruct (pf_alloc _ _ _ (uf_frames m Hf) Ep) as (Hwf & _ & Hg & Hx & _). destruct (Hg g eq_refl) as (Hu & _ & Hna).
  assert (allocated (vm_ctx m1) g) as Ha by (split; [done|]; rewrite Efr, Hx, bool_decide_eq_true_2, orb_true_r by done; done).
  destruct (release_frame_eq (vm_ctx m1) g) as (q & Eq & Hq & _ & Hb); [by rewrite Efr|done|].
  assert (in_ctx (fun c => release_frame c g) m1 = in_ctx (with_frames q) m1) as -> by (unfold in_ctx; by rewrite Eq).
  split_and!; [by constructor| | |done|done].
  - intros x. etrans; [exact (Hb x)|]. unfold allocated. rewrite Efr. split.
    + intros [[Hxu E] Hne]. split; [done|]. rewrite Hx in E by done. apply orb_true_iff in E as [|E%bool_decide_eq_true]; [done|congruence].
    + intros [Hxu E]. split; [|congruence]. by rewrite Hx, E.
  - intros x i [_ E]. apply Hm. congruence.
Qed.

Lemma init_space (m : M) g bits nx space : vmm_space_init m g bits nx = Some space ->
  vs_root_phys space = g /\ vs_nx_enabled space = nx /\ vs_initialized space = true.
Proof. unfold vmm_space_init. destruct (memory_physical_mask bits); [|done]. destruct (_ || _); [done|]. by intros [= <-]. Qed.

Lemma create_done k m p g bits space mem2 : uvm_fresh m -> pmm_alloc_page (us_frames (vm_ctx m)) = (p, Some g) ->
  (forall x j, mem2 x j = if x =? g then if (256 <=? j) && (j <? 512) then Z.land (vm_mem m (vinf_root_phys (kv_information k)) j) (not64 VMM_USER) else 0 else vm_mem m x j) ->
  let m2 := MkVm (with_vm (first_table g) (with_frames p (vm_ctx m))) mem2 in
  vmm_space_init m2 g bits true = Some space -> created k m (in_ctx (with_vm (set_space space true)) m2).
Proof.
  intros Hf Ep Hm m2 Es. destruct (pf_alloc _ _ _ (uf_frames m Hf) Ep) as (Hwf & _ & Hg & Hx & _). destruct (Hg g eq_refl) as (Hu & _ & Hna).
  destruct (init_space m2 g bits true space Es) as (Hroot & Hnx & Hini). pose proof (uf_obj m Hf) as Eo.
  assert (forall x, allocated (with_frames p (vm_ctx m)) x <-> allocated (vm_ctx m) x \/ x = g) as Ha.
  { intros x. unfold allocated. cbn. split.
    - intros [Hxu E]. rewrite Hx in E by done. apply orb_true_iff in E as [|E%bool_decide_eq_true]; [by left|right; congruence].
    - intros [[Hxu E] | ->]; (split; [done|]); rewrite Hx by done; [by rewrite E|by rewrite bool_decide_eq_true_2, orb_true_r]. }
  assert (ledger_ok ∅ (vm_ctx m2)) as Hok by (apply first_ledger; [done|done|apply Hf|apply Ha; by right]).
  assert (tree ∅ space m2 ∅) as Ht.
  { exists (fun x i => if (x =? vs_root_phys space) && (256 <=? i) then 0 else vm_mem m2 x i). split; [by intros x i|].
    apply (@init_rep _ _ (user_laws ∅) (MkVm (vm_ctx m2) _) g bits true); [exact Hu| |exact Hok|apply Ha; by right|exact Es].
    intros i Hi. cbn [vm_mem m2]. rewrite Hm, Hroot, Z.eqb_refl. cbn [andb]. by destruct (256 <=? i). }
  assert (~ allocated (vm_ctx m) g) as Hfresh by (intros [_ E]; congruence).
  unfold created, obj. cbn [in_ctx with_vm vm_ctx vm_mem us_vm set_space uv_space uv_pages first_table set_tables with_frames us_cr3 us_cr4]. fold (obj m). rewrite Hroot. split_and!; [done| | | | |done|done].
  - constructor; cbn; fold (obj m); rewrite ?Eo; try done.
    + exists (MkUTable g true true). split; [done|]. cbn. by rewrite Hroot.
    + apply pages_zero.
    + intros x (i & t & Hti & Hta & Htp & _). cbn in Hti. fold (obj m) in Hti. rewrite Eo in Hti.
      apply list_lookup_insert_Some in Hti as [(_ & <- & _)|[_ [-> _]%lookup_replicate]]; done.
    + change (tree (data (uv_pages user_vm_zero)) space (in_ctx (with_vm (set_space space true)) m2) ∅). rewrite data_zero. apply (tree_frame _ _ m2); [done| |done]. destruct Hok; by constructor.
  - intros x. unfold outside, private. change (uv_pages (obj (in_ctx (with_vm (set_space space true)) m2))) with (uv_pages (obj m)). rewrite Eo, data_zero. cbn [in_ctx vm_ctx].
    change (in_tables (with_vm (set_space space true) (vm_ctx m2)) x) with (in_tables (with_vm (first_table g) (with_frames p (vm_ctx m))) x). rewrite first_tables by done.
    change (allocated (with_vm (set_space space true) (vm_ctx m2)) x) with (allocated (with_frames p (vm_ctx m)) x). rewrite Ha.
    split; [tauto|]. intros Hxa. split_and!; [by left|congruence|set_solver].
  - intros x i Hxa. rewrite Hm. destruct (Z.eqb_spec x g) as [->|]; done.
  - intros i Hi. rewrite Hm, Z.eqb_refl. destruct (Z.leb_spec 256 i), (Z.ltb_spec i 512); try lia. done.
Qed.

Lemma create_spec k m : uvm_fresh m -> let r := user_vm_create k m in
  (snd r = true -> created k m (fst r)) /\ (snd r = false -> not_created m (fst r)).
Proof.
  intros Hf. unfold user_vm_create. rewrite (uf_obj m Hf). cbn [user_vm_zero uv_initialized uv_space vs_initialized uv_page_count uv_table_count orb negb Z.eqb].
  assert (not_created m m) as Hsame by (by split_and!).
  destruct (vmm_get_info k) as [info|]; [|done]. destruct (_ || _); [done|]. unfold vmm_copy_kernel_half. destruct (negb _); [done|]. destruct (Z.land _ VMM_PRESENT =? 0); [done|].
  destruct (pmm_alloc_page (us_frames (vm_ctx m))) as [p [g|]] eqn:Ep; cycle 1.
  { split; [done|]. intros _. destruct (pf_alloc _ _ _ (uf_frames m Hf) Ep) as (Hwf & _ & _ & Hx & _). split_and!; try done.
    - constructor; [apply Hf|done|apply Hf].
    - intros x. unfold allocated. cbn. split; intros [Hu E]; (split; [done|]); rewrite Hx in * by done; rewrite bool_decide_eq_false_2, orb_false_r in * by done; done. }
  destruct (pf_alloc _ _ _ (uf_frames m Hf) Ep) as (Hwf & _ & Hg & Hx & _). destruct (Hg g eq_refl) as (Hu & _ & Hna).
  assert (ledger_ok ∅ (with_vm (first_table g) (with_frames p (vm_ctx m)))) as Hok.
  { apply first_ledger; [apply Hf|done|apply Hf|]. split; [done|]. cbn. by rewrite Hx, bool_decide_eq_true_2, orb_true_r. }
  assert (table_access (with_vm (first_table g) (with_frames p (vm_ctx m))) g = true) as Hacc by (apply (table_access_in ∅); [done|apply first_tables; [apply Hf|done]]).
  cbn [in_ctx vm_ctx vm_mem]. unfold first_table in Hacc at 1. rewrite Hacc. cbn [negb]. destruct (vmm_space_init _ _ _ _) as [space|] eqn:Es; ((split; [|done]) || (split; [done|])); intros _.
  - apply (create_done k m p g (vinf_physical_bits info) space); [done|done|apply store_upper_spec|exact Es].
  - eapply create_undone; [done|done|done|apply Hf|done|done|]. intros x i Hne. cbn [in_mem in_ctx vm_mem]. rewrite store_upper_spec. by rewrite (proj2 (Z.eqb_neq x g) Hne).
Qed.

(** Every address space has the mask of the machine. *)
Definition space_mask (k : kernel_vmm) (u : user_vm) : Prop :=
  memory_physical_mask (vinf_physical_bits (kv_information k)) = Some (vs_physical_mask (uv_space u)).

Lemma create_mask k m : snd (user_vm_create k m) = true -> space_mask k (obj (fst (user_vm_create k m))).
Proof.
  unfold user_vm_create. destruct (_ || _ || _ || _); [done|]. unfold vmm_get_info. destruct (kv_ready k); [|done]. destruct (_ || _); [done|]. destruct (vmm_copy_kernel_half k m); [|done].
  destruct (pmm_alloc_page _) as [p [g|]]; [|done]. destruct (negb (table_access _ _)); [done|]. destruct (vmm_space_init _ g _ true) as [space|] eqn:Es; [|done]. intros _. unfold space_mask. cbn.
  unfold vmm_space_init in Es. destruct (memory_physical_mask _); [|done]. destruct (_ || _); [done|]. by injection Es as <-.
Qed.
End life.
