(* ===== verification/UserVmSpec.v ===== *)
(** * User address spaces: copies

    [ubyte m A v] is the byte that a program sees at its address [v].  A copy is
    refused as a whole or moves exactly the bytes of its range: [user_vm_copy_from]
    reads them, [user_vm_copy_to] stores them and leaves every other byte. *)

From S2P Require Import Prelude MemoryHelpers VmmCore VmmMap VmmSpec VmmTrace Frames KernelVm UserVm UserVmTree UserVmOps UserVmLife.
Open Scope Z_scope.

(** ** Bytes of physical memory *)

Lemma u8_ones x : u8 x = Z.land x (Z.ones 8).
Proof. unfold u8. by rewrite Z.land_ones by lia. Qed.

Lemma byte_hit w v s : 0 <= s -> u8 (Z.shiftr (Z.lor (Z.ldiff w (Z.shiftl 255 s)) (Z.shiftl (u8 v) s)) s) = u8 v.
Proof.
  intros Hs. rewrite !u8_ones. apply Z.bits_inj'. intros n Hn. rewrite Z.land_spec, Z.shiftr_spec, Z.lor_spec, Z.ldiff_spec by lia.
  change 255 with (Z.ones 8). rewrite !Z.shiftl_spec by lia. replace (n + s - s) with n by lia. rewrite !Z.land_spec.
  destruct (Z.testbit (Z.ones 8) n); by rewrite ?andb_false_r, ?orb_false_r, ?andb_true_r.
Qed.

Lemma byte_miss w v s t : 0 <= s -> 0 <= t -> t + 8 <= s \/ s + 8 <= t ->
  u8 (Z.shiftr (Z.lor (Z.ldiff w (Z.shiftl 255 s)) (Z.shiftl (u8 v) s)) t) = u8 (Z.shiftr w t).
Proof.
  intros Hs Ht Hd. rewrite !u8_ones. apply Z.bits_inj'. intros n Hn. rewrite !Z.land_spec, !Z.shiftr_spec, Z.lor_spec, Z.ldiff_spec by lia.
  change 255 with (Z.ones 8). rewrite !Z.shiftl_spec, Z.land_spec by lia. destruct (Z.ltb_spec n 8) as [Hlt|]; [|by rewrite (Z.ones_spec_high 8 n), !andb_false_r by lia].
  assert (Z.testbit (Z.ones 8) (n + t - s) = false) as ->; [|by rewrite andb_true_r, andb_false_r, orb_false_r].
  destruct Hd; [apply Z.testbit_neg_r; lia|apply Z.ones_spec_high; lia].
Qed.

Lemma store_byte_spec mem a b v : u64_ok a -> u64_ok b -> phys_byte (store_byte mem a v) b = if a =? b then u8 v else phys_byte mem b.
Proof.
  intros Ha Hb. unfold phys_byte, store_byte, mem_set. pose proof (Z.mod_pos_bound a 8 ltac:(lia)). pose proof (Z.mod_pos_bound b 8 ltac:(lia)).
  destruct (Z.eqb_spec (memory_align_down b) (memory_align_down a)) as [Ep|Ep]; cbn [andb]; [|destruct (Z.eqb_spec a b) as [->|]; done].
  destruct (Z.eqb_spec (b mod 4096 / 8) (a mod 4096 / 8)) as [Ew|Ew]; [|destruct (Z.eqb_spec a b) as [->|]; done].
  destruct (Z.eqb_spec a b) as [->|Hne]; [apply byte_hit; lia|]. rewrite Ep, Ew. apply byte_miss; [lia|lia|].
  enough (a mod 8 <> b mod 8) by lia. intros Em. apply Hne. rewrite !align_down_eq in Ep by done. dlia.
Qed.

Lemma store_byte_other mem a v p i : p <> memory_align_down a -> store_byte mem a v p i = mem p i.
Proof. intros Hp. unfold store_byte, mem_set. by rewrite (proj2 (Z.eqb_neq _ _) Hp). Qed.

Lemma phys_write_spec data : forall mem a b, 0 <= a -> a + Z.of_nat (length data) <= UINT64_MAX -> u64_ok b ->
  phys_byte (phys_write mem a data) b = if (a <=? b) && (b <? a + Z.of_nat (length data)) then u8 (arr_get data (b - a)) else phys_byte mem b.
Proof.
  induction data as [|v data IH]; intros mem a b Ha Hb Hu; cbn [phys_write length].
  { destruct (Z.leb_spec a b), (Z.ltb_spec b (a + Z.of_nat 0)); try lia; done. }
  cbn [length] in Hb. rewrite IH by (done || lia). rewrite store_byte_spec by (unfold u64_ok in *; lia).
  destruct (Z.leb_spec (a + 1) b), (Z.ltb_spec b (a + 1 + Z.of_nat (length data))), (Z.leb_spec a b), (Z.ltb_spec b (a + Z.of_nat (S (length data)))); cbn [andb]; try lia.
  - unfold arr_get. replace (Z.to_nat (b - a)) with (S (Z.to_nat (b - (a + 1)))) by lia. done.
  - destruct (Z.eqb_spec a b); [lia|done].
  - replace b with a by lia. rewrite Z.eqb_refl. by rewrite Z.sub_diag.
  - destruct (Z.eqb_spec a b); [lia|done].
Qed.

(** A write within a frame changes no other frame. *)
Lemma phys_write_other data p i g : g mod 4096 = 0 -> g + 4096 <= UINT64_MAX -> p <> g -> forall mem a, 0 <= g <= a -> a + Z.of_nat (length data) <= g + 4096 ->
  phys_write mem a data p i = mem p i.
Proof.
  intros Hg Hb Hp. induction data as [|v data IH]; intros mem a Ha Hl; cbn [phys_write length] in *; [done|]. rewrite IH by lia.
  apply store_byte_other. replace a with (g + (a - g)) by lia. rewrite frame_base; [done|done|lia|unfold u64_ok; lia].
Qed.

(** ** The bytes of a user space *)

Section bytes.
Context {P : Type} `{PageFramesLaws P}.
Notation S := (ustate P).
Notation M := (vm S).

Definition ubyte (m : M) (A : aspace) (v : Z) : option Z :=
  match A !! (v / 4096) with
  | Some (g, _) => Some (phys_byte (vm_mem m) (g + v mod 4096))
  | None => None
  end.

(** All bytes of the range are mapped, for a store also writable. *)
Definition range_mapped (A : aspace) (write : bool) (virt n : Z) : Prop :=
  forall v, virt <= v < virt + n -> exists g f, A !! (v / 4096) = Some (g, f) /\ (write = true -> has f VMM_WRITABLE = true).

(** The chunks of [copy_preflight] are the frames of the range, page by page. *)
Fixpoint chunks_ok (A : aspace) (virt n : Z) (cs : list copy_chunk) : Prop :=
  match cs with
  | [] => n = 0
  | c :: cs =>
      0 < cc_bytes c <= n /\ virt mod 4096 + cc_bytes c <= 4096 /\
      (exists g f, A !! (virt / 4096) = Some (g, f) /\ cc_alias c = g + virt mod 4096) /\
      chunks_ok A (virt + cc_bytes c) (n - cc_bytes c) cs
  end.

Definition pages_spanned (virt n : Z) : Z := if n =? 0 then 0 else (virt + n - 1) / 4096 - virt / 4096 + 1.

(** Addresses of one page. *)
Lemma same_page v i : 0 <= i -> v mod 4096 + i < 4096 -> (v + i) / 4096 = v / 4096 /\ (v + i) mod 4096 = v mod 4096 + i.
Proof.
  intros Hi Hlt. pose proof (Z.div_mod v 4096). pose proof (Z.mod_pos_bound v 4096). split.
  - symmetry. apply (Z.div_unique (v + i) 4096 (v / 4096) (v mod 4096 + i)); lia.
  - symmetry. apply (Z.mod_unique (v + i) 4096 (v / 4096) (v mod 4096 + i)); lia.
Qed.

Lemma pages_spanned_step v n c : 0 < n -> c = Z.min n (4096 - v mod 4096) -> pages_spanned (v + c) (n - c) = pages_spanned v n - 1.
Proof.
  intros Hn ->. unfold pages_spanned. pose proof (Z.mod_pos_bound v 4096). destruct (Z.eqb_spec n 0); [lia|].
  destruct (Z.min_spec n (4096 - v mod 4096)) as [[Hlt ->]|[Hle ->]].
  - rewrite Z.sub_diag, Z.eqb_refl. replace (v + n - 1) with (v + (n - 1)) by lia. destruct (same_page v (n - 1)) as [-> _]; lia.
  - replace (v + (4096 - v mod 4096)) with ((v / 4096 + 1) * 4096) by (pose proof (Z.div_mod v 4096); lia). rewrite Z.div_mul by lia. destruct (Z.eqb_spec (n - (4096 - v mod 4096)) 0) as [E|].
    + replace (v + n - 1) with (v + (n - 1)) by lia. destruct (same_page v (n - 1)) as [-> _]; lia.
    + replace ((v / 4096 + 1) * 4096 + (n - (4096 - v mod 4096)) - 1) with (v + n - 1) by (pose proof (Z.div_mod v 4096); lia). lia.
Qed.

Lemma address_offset v : Z.land v (MEMORY_PAGE_SIZE - 1) = v mod 4096.
Proof. change (MEMORY_PAGE_SIZE - 1) with (Z.ones 12). by rewrite Z.land_ones by lia. Qed.

Lemma preflight_spec m A write : uvm_inv m A -> forall n virt rem, 0 <= rem -> (rem <> 0 -> valid_address virt = true) -> virt + rem <= USER_VM_END ->
  pages_spanned virt rem <= Z.of_nat n ->
  match preflight_from n m virt rem write with
  | Some cs => range_mapped A write virt rem /\ chunks_ok A virt rem cs
  | None => ~ range_mapped A write virt rem
  end.
Proof.
  intros Hi. induction n as [|n IH]; intros virt rem Hr Hv Hend Hp; cbn [preflight_from]; (destruct (Z.eqb_spec rem 0) as [->|Hne]; [split; [intros v Hx; lia|done]|]).
  { exfalso. unfold pages_spanned in Hp. rewrite (proj2 (Z.eqb_neq rem 0) Hne) in Hp. assert (virt / 4096 <= (virt + rem - 1) / 4096) by (apply Z.div_le_mono; lia). lia. }
  specialize (Hv Hne). rewrite (query_spec m A virt Hi), address_offset. unfold uspace_query. rewrite Hv.
  assert (0 <= virt) as Hv0 by (pose proof (valid_lower virt Hv); unfold lower_half in *; lia). pose proof (Z.mod_pos_bound virt 4096) as Hmod.
  destruct (A !! (virt / 4096)) as [[g f]|] eqn:E; cbn [vp_mapped unmapped negb orb vp_flags vp_physical]; [|intros Hm; destruct (Hm virt) as (? & ? & ? & _); [lia|congruence]].
  destruct (write && (Z.land f VMM_WRITABLE =? 0)) eqn:Ew.
  { intros Hm. destruct (Hm virt) as (g' & f' & E' & Hf); [lia|]. simplify_eq. apply andb_true_iff in Ew as [-> Ew%Z.eqb_eq]. specialize (Hf eq_refl). unfold has in Hf. by rewrite Ew in Hf. }
  change MEMORY_PAGE_SIZE with 4096. set (c := if rem <? 4096 - virt mod 4096 then rem else 4096 - virt mod 4096).
  assert (c = Z.min rem (4096 - virt mod 4096)) as Hc by (unfold c; destruct (Z.ltb_spec rem (4096 - virt mod 4096)); lia).
  destruct (data_frame m A _ _ _ Hi E) as ([Hu Ha] & Hgm & Hgb & _). unfold u64_ok in Hu.
  rewrite (pf_direct _ g (g + virt mod 4096) c (lo_frames _ _ (inv_ledger m A Hi)) Hu Ha) by lia.
  unfold USER_VM_END in Hend. rewrite (u64_small (virt + c)) by (unfold u64_ok, UINT64_MAX; lia).
  specialize (IH (virt + c) (rem - c)). destruct (preflight_from n m (virt + c) (rem - c) write) as [cs|].
  - destruct IH as [Hm Hcs]; [lia| |unfold USER_VM_END; lia|rewrite pages_spanned_step by lia; lia|].
    + intros Hne'. unfold valid_address, USER_VM_MIN, USER_VM_END in *. lia.
    + split; [|split_and!; [cbn; lia|cbn; lia|cbn; lia|by exists g, f|done]]. intros v Hx. destruct (decide (v < virt + c)) as [Hlt|]; [|apply Hm; lia].
      destruct (same_page virt (v - virt)) as [Ep _]; [lia|lia|]. replace (virt + (v - virt)) with v in Ep by lia. exists g, f. rewrite Ep. split; [done|]. intros ->.
      cbn [andb] in Ew. unfold has. by rewrite Ew.
  - intros Hm. apply IH; [lia| |unfold USER_VM_END; lia|rewrite pages_spanned_step by lia; lia|].
    + intros Hne'. unfold valid_address, USER_VM_MIN, USER_VM_END in *. lia.
    + intros v Hx. apply Hm. lia.
Qed.

(** When a copy of [n] bytes at [virt] is granted. *)
Definition copy_legal (A : aspace) (write : bool) (virt n : Z) : Prop :=
  n <= USER_VM_COPY_LIMIT /\ (n = 0 \/ valid_address virt = true /\ virt + n <= USER_VM_END /\ range_mapped A write virt n).

Lemma preflight_legal m A virt n write : uvm_inv m A -> u64_ok virt -> u64_ok n ->
  match copy_preflight m virt n write with
  | Some cs => copy_legal A write virt n /\ chunks_ok A virt n cs
  | None => ~ copy_legal A write virt n
  end.
Proof.
  intros Hi Hu Hn. unfold copy_preflight, copy_legal. rewrite (inv_ready m A Hi). cbn [negb orb]. destruct (Z.ltb_spec USER_VM_COPY_LIMIT n); [lia|].
  destruct (Z.eqb_spec n 0) as [->|Hne]; [split; [split; [done|by left]|done]|]. destruct (valid_address virt) eqn:Hv; cbn [negb orb]; [|intuition congruence].
  pose proof (valid_lower virt Hv) as Hl. unfold lower_half in Hl. change (2 ^ 47) with USER_VM_END in Hl. unfold u64_ok in *.
  rewrite (u64_small (USER_VM_END - virt)) by (unfold u64_ok, USER_VM_END, UINT64_MAX in *; lia). destruct (Z.ltb_spec (USER_VM_END - virt) n); [intuition lia|].
  pose proof (preflight_spec m A write Hi USER_VM_COPY_CHUNKS virt n ltac:(lia) (fun _ => Hv) ltac:(lia)) as Hp.
  destruct (preflight_from _ m virt n write) as [cs|].
  - destruct Hp as [Hm Hc]; [|split; [split; [lia|right; split_and!; [done|lia|done]]|done]].
    unfold pages_spanned. change (Z.of_nat USER_VM_COPY_CHUNKS) with 17. unfold USER_VM_COPY_LIMIT in *. destruct (n =? 0); [lia|]. clear -H1 Hne Hl. dlia.
  - intros [_ [?|(_ & _ & Hm)]]; [done|]. revert Hm. apply Hp.
    unfold pages_spanned. change (Z.of_nat USER_VM_COPY_CHUNKS) with 17. unfold USER_VM_COPY_LIMIT in *. destruct (n =? 0); [lia|]. clear -H1 Hne Hl. dlia.
Qed.

(** The chunks, one after the other, are the bytes of the range. *)
Lemma chunks_read m A cs : forall virt n, 0 <= n -> chunks_ok A virt n cs ->
  Some <$> mjoin ((fun c => phys_read (vm_mem m) (cc_alias c) (cc_bytes c)) <$> cs) = ubyte m A <$> seqZ virt n.
Proof.
  induction cs as [|c cs IH]; intros virt n Hn; cbn [chunks_ok]; [by intros ->|]. intros (Hb & Hp & (g & f & E & Ea) & Hc).
  etrans; [exact (fmap_app Some (phys_read (vm_mem m) (cc_alias c) (cc_bytes c)) (mjoin ((fun c => phys_read (vm_mem m) (cc_alias c) (cc_bytes c)) <$> cs)))|].
  replace (seqZ virt n) with (seqZ virt (cc_bytes c) ++ seqZ (virt + cc_bytes c) (n - cc_bytes c)) by (rewrite <-seqZ_app by lia; f_equal; lia).
  rewrite fmap_app. apply (f_equal2 app); [|apply IH; (done || lia)]. unfold phys_read. rewrite <-list_fmap_compose.
  replace (seqZ virt (cc_bytes c)) with (Z.add virt <$> seqZ 0 (cc_bytes c)) by (rewrite fmap_add_seqZ; f_equal; lia). rewrite <-list_fmap_compose.
  apply list_fmap_ext. intros k i Hi. apply lookup_seqZ in Hi as [-> Hk]. unfold compose. pose proof (Z.mod_pos_bound virt 4096).
  unfold ubyte. destruct (same_page virt (0 + Z.of_nat k)) as [-> ->]; [lia|lia|]. rewrite E, Ea. do 2 f_equal. lia.
Qed.

(** [user_vm_copy_from] is refused or returns the bytes the program sees. *)
Lemma copy_from_spec m A virt n : uvm_inv m A -> u64_ok virt -> u64_ok n ->
  match user_vm_copy_from m virt n with
  | Some bs => copy_legal A false virt n /\ Some <$> bs = ubyte m A <$> seqZ virt n
  | None => ~ copy_legal A false virt n
  end.
Proof.
  intros Hi Hu Hn. unfold user_vm_copy_from. pose proof (preflight_legal m A virt n false Hi Hu Hn) as Hp. destruct (copy_preflight m virt n false) as [cs|]; [|done].
  destruct Hp as [Hl Hc]. split; [done|]. unfold u64_ok in Hn. apply chunks_read; [lia|done].
Qed.

Lemma frame_page m A k k' g f f' : uvm_inv m A -> A !! k = Some (g, f) -> A !! k' = Some (g, f') -> k = k'.
Proof.
  intros Hi Hk Hk'. pose proof (ui_pages m A Hi) as Hok. destruct (po_map _ _ Hok _ _ _ Hk) as (i & p & Hp & Ha & Ev & Eg), (po_map _ _ Hok _ _ _ Hk') as (j & q & Hq & Hb & Ev' & Eg').
  assert (i = j) as -> by (apply (po_unique _ _ Hok i j p q); auto; right; congruence). simplify_eq. lia.
Qed.

(** One chunk: the bytes of its page that it covers. *)
Lemma chunk_write m A mem virt src k0 g0 f0 k g f o : uvm_inv m A -> A !! k0 = Some (g0, f0) -> A !! k = Some (g, f) -> k0 = virt / 4096 ->
  virt mod 4096 + Z.of_nat (length src) <= 4096 -> 0 <= o < 4096 ->
  phys_byte (phys_write mem (g0 + virt mod 4096) src) (g + o) =
    if (virt <=? k * 4096 + o) && (k * 4096 + o <? virt + Z.of_nat (length src)) then u8 (arr_get src (k * 4096 + o - virt)) else phys_byte mem (g + o).
Proof.
  intros Hi E0 E Hk Hlen Ho. destruct (data_frame m A _ _ _ Hi E0) as ([Hu0 _] & Hm0 & Hb0 & _), (data_frame m A _ _ _ Hi E) as ([Hu _] & Hm & Hb & _).
  unfold u64_ok in Hu, Hu0. pose proof (Z.mod_pos_bound virt 4096). pose proof (Z.div_mod virt 4096) as Hdm. rewrite phys_write_spec by (unfold u64_ok; lia).
  destruct (decide (k = k0)) as [Ek|Ek].
  - rewrite Ek in E. rewrite E0 in E. injection E as <- <-. rewrite Ek, Hk.
    replace (g0 + virt mod 4096 <=? g0 + o) with (virt <=? virt / 4096 * 4096 + o) by (destruct (Z.leb_spec virt (virt / 4096 * 4096 + o)), (Z.leb_spec (g0 + virt mod 4096) (g0 + o)); lia).
    replace (g0 + o <? g0 + virt mod 4096 + Z.of_nat (length src)) with (virt / 4096 * 4096 + o <? virt + Z.of_nat (length src)) by
      (destruct (Z.ltb_spec (virt / 4096 * 4096 + o) (virt + Z.of_nat (length src))), (Z.ltb_spec (g0 + o) (g0 + virt mod 4096 + Z.of_nat (length src))); lia).
    by replace (g0 + o - (g0 + virt mod 4096)) with (virt / 4096 * 4096 + o - virt) by lia.
  - assert (g <> g0) as Hg by (intros ->; apply Ek; by apply (frame_page m A k k0 g0 f f0)). pose proof (Z.div_mod g 4096). pose proof (Z.div_mod g0 4096).
    destruct (Z.leb_spec (g0 + virt mod 4096) (g + o)), (Z.ltb_spec (g + o) (g0 + virt mod 4096 + Z.of_nat (length src))),
      (Z.leb_spec virt (k * 4096 + o)), (Z.ltb_spec (k * 4096 + o) (virt + Z.of_nat (length src))); cbn [andb]; try lia; done.
Qed.

Lemma arr_get_drop (l : list Z) n i : 0 <= n -> 0 <= i -> arr_get (drop (Z.to_nat n) l) i = arr_get l (n + i).
Proof. intros Hn Hi. unfold arr_get. rewrite lookup_total_drop. f_equal. lia. Qed.

Lemma arr_get_take (l : list Z) n i : 0 <= i < n -> arr_get (take (Z.to_nat n) l) i = arr_get l i.
Proof. intros Hi. unfold arr_get. rewrite lookup_total_take, decide_True by lia. done. Qed.

Lemma chunks_write m A : uvm_inv m A -> forall cs virt src mem, chunks_ok A virt (Z.of_nat (length src)) cs ->
  (forall p i, p ∉ data (uv_pages (obj m)) -> copy_chunks mem cs src p i = mem p i) /\
  forall k g f o, A !! k = Some (g, f) -> 0 <= o < 4096 -> phys_byte (copy_chunks mem cs src) (g + o) =
    if (virt <=? k * 4096 + o) && (k * 4096 + o <? virt + Z.of_nat (length src)) then u8 (arr_get src (k * 4096 + o - virt)) else phys_byte mem (g + o).
Proof.
  intros Hi. induction cs as [|c cs IH]; intros virt src mem; cbn [chunks_ok copy_chunks].
  { intros Hz. split; [done|]. intros k g f o E Ho. destruct (Z.leb_spec virt (k * 4096 + o)), (Z.ltb_spec (k * 4096 + o) (virt + Z.of_nat (length src))); try lia; done. }
  intros (Hb & Hp & (g0 & f0 & E0 & Ea) & Hc). set (n := cc_bytes c) in *. rewrite Ea.
  assert (length (take (Z.to_nat n) src) = Z.to_nat n) as Ht by (rewrite length_take; lia). assert (Z.of_nat (length (drop (Z.to_nat n) src)) = Z.of_nat (length src) - n) as Hd by (rewrite length_drop; lia).
  destruct (IH (virt + n) (drop (Z.to_nat n) src) (phys_write mem (g0 + virt mod 4096) (take (Z.to_nat n) src))) as [Hother Hbyte]; [by rewrite Hd|].
  destruct (data_frame m A _ _ _ Hi E0) as ([Hu0 _] & Hm0 & Hb0 & Hg0 & _). pose proof (Z.mod_pos_bound virt 4096). split.
  - intros p i Hpd. rewrite Hother by done. unfold u64_ok in Hu0. apply (phys_write_other _ p i g0); [done|done|congruence|lia|rewrite Ht; lia].
  - intros k g f o E Ho. rewrite (Hbyte k g f o E Ho), Hd, (chunk_write m A mem virt _ _ g0 f0 k g f o Hi E0 E eq_refl), Ht by (rewrite ?Ht; lia). rewrite Z2Nat.id by lia.
    destruct (Z.leb_spec (virt + n) (k * 4096 + o)), (Z.ltb_spec (k * 4096 + o) (virt + n + (Z.of_nat (length src) - n))), (Z.leb_spec virt (k * 4096 + o)),
      (Z.ltb_spec (k * 4096 + o) (virt + n)), (Z.ltb_spec (k * 4096 + o) (virt + Z.of_nat (length src))); cbn [andb]; try lia; try done.
    + rewrite arr_get_drop by lia. do 2 f_equal. lia.
    + by rewrite arr_get_take by lia.
Qed.

(** Memory outside the tables does not enter the invariant. *)
Lemma inv_memory m A mem : uvm_inv m A -> (forall g i, g ∉ data (uv_pages (obj m)) -> mem g i = vm_mem m g i) -> uvm_inv (MkVm (vm_ctx m) mem) A.
Proof.
  intros Hi Hm. apply (inv_same m A); [done|apply same_object_refl|done|apply Hi|]. apply (tree_frame _ _ m); [apply Hi|apply (inv_ledger m A Hi)|].
  intros g Hg. split; [done|]. intros i. apply Hm. by apply (lo_alloc _ _ (inv_ledger m A Hi)).
Qed.

(** [user_vm_copy_to] is refused or stores exactly the bytes of its range. *)
Lemma copy_to_spec m A virt src : uvm_inv m A -> u64_ok virt -> u64_ok (Z.of_nat (length src)) -> let r := user_vm_copy_to m virt src in
  (snd r = true <-> copy_legal A true virt (Z.of_nat (length src))) /\ uvm_inv (fst r) A /\ vm_ctx (fst r) = vm_ctx m /\
  (forall g i, g ∉ data (uv_pages (obj m)) -> vm_mem (fst r) g i = vm_mem m g i) /\ (snd r = false -> fst r = m) /\
  (snd r = true -> forall v, u64_ok v -> ubyte (fst r) A v =
     if (virt <=? v) && (v <? virt + Z.of_nat (length src)) then Some (u8 (arr_get src (v - virt))) else ubyte m A v).
Proof.
  intros Hi Hu Hn. unfold user_vm_copy_to. pose proof (preflight_legal m A virt _ true Hi Hu Hn) as Hp. destruct (copy_preflight m virt _ true) as [cs|]; [|by split_and!].
  destruct Hp as [Hl Hc]. destruct (chunks_write m A Hi cs virt src (vm_mem m) Hc) as [Ho Hb]. cbn [fst snd in_mem vm_ctx vm_mem]. split_and!; try done; [by apply inv_memory|].
  intros _ v Hv. unfold ubyte at 1. pose proof (Z.div_mod v 4096). pose proof (Z.mod_pos_bound v 4096). destruct (A !! (v / 4096)) as [[g f]|] eqn:E.
  - cbn [in_mem vm_mem]. rewrite (Hb _ g f (v mod 4096) E) by lia. replace (v / 4096 * 4096 + v mod 4096) with v by lia. unfold ubyte. rewrite E. by destruct (_ && _).
  - destruct (Z.leb_spec virt v), (Z.ltb_spec v (virt + Z.of_nat (length src))); cbn [andb]; try (unfold ubyte; by rewrite E).
    destruct Hl as [_ [Hz|(_ & _ & Hm)]]; [lia|]. destruct (Hm v) as (g & f & E' & _); [lia|congruence].
Qed.
End bytes.

(** ** User address spaces: the abstract memory of a program

    To a program its memory is a map from pages to permissions and bytes.
    [uspec] says what each call does to it and what it answers; the frames and
    page tables behind it do not show.  [user_step] is the simulation. *)


Notation uspace := (gmap Z (Z * (Z -> Z))).

Inductive user_op :=
  | UAlloc (virt access : Z)
  | UUnmap (virt : Z)
  | UProtect (virt access : Z)
  | UQuery (virt : Z)
  | URead (virt bytes : Z)
  | UWrite (virt : Z) (source : list Z).

Inductive user_answer :=
  | AOk (ok : bool)
  | AMapping (q : option (bool * Z))
  | ABytes (bs : option (list Z)).

Definition user_args (op : user_op) : Prop :=
  match op with
  | UAlloc v a | UProtect v a => u64_ok v /\ 0 <= a <= UINT32_MAX
  | UUnmap v | UQuery v => u64_ok v
  | URead v n => u64_ok v /\ u64_ok n
  | UWrite v src => u64_ok v /\ u64_ok (Z.of_nat (length src))
  end.

(** ** What the calls promise *)

Definition upage (U : uspace) (v : Z) : bool :=
  (v mod 4096 =? 0) && valid_address v && bool_decide (is_Some (U !! (v / 4096))).

Definition ualloc_ok (U : uspace) (v a : Z) : bool :=
  (v mod 4096 =? 0) && valid_access a && valid_address v && bool_decide (U !! (v / 4096) = None) && negb (Z.of_nat (size U) =? Z.of_nat USER_VM_PAGE_LIMIT).

Definition upage_grants (U : uspace) (write : bool) (k : Z) : bool :=
  match U !! k with
  | Some (f, _) => negb write || has f VMM_WRITABLE
  | None => false
  end.

Definition uspan_ok (U : uspace) (write : bool) (v n : Z) : bool :=
  (n <=? USER_VM_COPY_LIMIT) &&
  ((n =? 0) || (valid_address v && (v + n <=? USER_VM_END) && forallb (upage_grants U write) (seqZ (v / 4096) (pages_spanned v n)))).

Definition ubyte_at (U : uspace) (v : Z) : Z :=
  match U !! (v / 4096) with
  | Some (_, c) => c (v mod 4096)
  | None => 0
  end.

(** The bytes of [src] go to [v], [v + 1], ... *)
Definition ustore (v : Z) (src : list Z) (k : Z) (e : Z * (Z -> Z)) : Z * (Z -> Z) :=
  (fst e, fun o => let a := k * 4096 + o in if (v <=? a) && (a <? v + Z.of_nat (length src)) then u8 (arr_get src (a - v)) else snd e o).

Definition uwrite (U : uspace) (v : Z) (src : list Z) : uspace := map_imap (fun k e => Some (ustore v src k e)) U.

(** [short] is whether the frames ran out, the one reason to refuse a legal call. *)
Definition uspec (short : Prop) (U : uspace) (op : user_op) (ans : user_answer) (U' : uspace) : Prop :=
  match op, ans with
  | UAlloc v a, AOk true => ualloc_ok U v a = true /\ U' = <[v / 4096 := (access_flags a, fun _ => 0)]> U
  | UAlloc v a, AOk false => (ualloc_ok U v a = false \/ short) /\ U' = U
  | UUnmap v, AOk ok => ok = upage U v /\ U' = if ok then delete (v / 4096) U else U
  | UProtect v a, AOk ok => ok = valid_access a && upage U v /\ U' = if ok then alter (fun e => (access_flags a, snd e)) (v / 4096) U else U
  | UQuery v, AMapping q => q = (if valid_address v then Some (match U !! (v / 4096) with Some (f, _) => (true, f) | None => (false, 0) end) else None) /\ U' = U
  | URead v n, ABytes bs => bs = (if uspan_ok U false v n then Some (ubyte_at U <$> seqZ v n) else None) /\ U' = U
  | UWrite v src, AOk ok => ok = uspan_ok U true v (Z.of_nat (length src)) /\ U' = if ok then uwrite U v src else U
  | _, _ => False
  end.

Section spec.
Context {P : Type} `{PageFramesLaws P}.
Notation S := (ustate P).
Notation M := (vm S).

Definition user_apply (m : M) (op : user_op) : M * user_answer :=
  match op with
  | UAlloc v a => let (m, ok) := user_vm_alloc_page m v a in (m, AOk ok)
  | UUnmap v => let (m, ok) := user_vm_unmap_page m v in (m, AOk ok)
  | UProtect v a => let (m, ok) := user_vm_protect_page m v a in (m, AOk ok)
  | UQuery v => (m, AMapping ((fun q => (vp_mapped q, vp_flags q)) <$> user_vm_query m v))
  | URead v n => (m, ABytes (user_vm_copy_from m v n))
  | UWrite v src => let (m, ok) := user_vm_copy_to m v src in (m, AOk ok)
  end.

(** The calls of a history follow the abstract memory from [U] to [U']. *)
Fixpoint follows (m : M) (U : uspace) (ops : list user_op) (U' : uspace) : Prop :=
  match ops with
  | [] => U' = U
  | op :: ops => exists U1, uspec (starved m) U op (snd (user_apply m op)) U1 /\ follows (fst (user_apply m op)) U1 ops U'
  end.

Definition user_run (m : M) (ops : list user_op) : M := foldl (fun m op => fst (user_apply m op)) m ops.

(** ** The relation *)

Definition upage_rep (m : M) (e : option (Z * Z)) (u : option (Z * (Z -> Z))) : Prop :=
  match e, u with
  | Some (g, f), Some (f', c) => f = f' /\ forall o, 0 <= o < 4096 -> phys_byte (vm_mem m) (g + o) = c o
  | None, None => True
  | _, _ => False
  end.

Definition urep (m : M) (A : aspace) (U : uspace) : Prop := forall k, upage_rep m (A !! k) (U !! k).

(** What no call may change. *)
Record user_frame (m m' : M) : Prop := {
  uf_outside : forall g, outside m' g <-> outside m g;
  uf_kept : forall g i, outside m g -> vm_mem m' g i = vm_mem m g i;
  uf_high : forall i, 256 <= i -> vm_mem m' (vs_root_phys (uv_space (obj m))) i = vm_mem m (vs_root_phys (uv_space (obj m))) i;
  uf_space : uv_space (obj m') = uv_space (obj m);
  uf_cr3 : us_cr3 (vm_ctx m') = us_cr3 (vm_ctx m);
  uf_cr4 : us_cr4 (vm_ctx m') = us_cr4 (vm_ctx m)
}.

Lemma page_step_frame m m' : page_step m m' -> user_frame m m'.
Proof. intros []. constructor; try done. intros g i [Hp _]. auto. Qed.

Lemma user_frame_refl m : user_frame m m.
Proof. done. Qed.

Lemma user_frame_trans a b c : user_frame a b -> user_frame b c -> user_frame a c.
Proof.
  intros [Ho1 Hk1 Hh1 Hs1 H31 H41] [Ho2 Hk2 Hh2 Hs2 H32 H42]. constructor; try congruence.
  - intros g. by rewrite Ho2.
  - intros g i Hg. rewrite Hk2 by (by apply Ho1). by apply Hk1.
  - intros i Hi. rewrite Hs1 in Hh2. rewrite Hh2 by done. by apply Hh1.
Qed.

(** ** Reading the relation *)

Section rep.
Context (m : M) (A : aspace) (U : uspace) (Hi : uvm_inv m A) (Hu : urep m A U).

Lemma urep_some k : is_Some (U !! k) <-> is_Some (A !! k).
Proof using Hu. specialize (Hu k). destruct (A !! k) as [[]|], (U !! k) as [[]|]; cbn in Hu; split; intros [? ?]; done || tauto || eauto. Qed.

Lemma urep_none k : U !! k = None <-> A !! k = None.
Proof using Hu. rewrite !eq_None_not_Some. by rewrite urep_some. Qed.

Lemma urep_size : Z.of_nat (size U) = uv_page_count (obj m).
Proof using Hi Hu.
  pose proof (ui_pages m A Hi) as Hok. rewrite (ui_count m A Hi), <-size_dom.
  assert (dom U = list_to_set ((fun p => up_virt p / 4096) <$> filter (fun p => up_allocated p = true) (uv_pages (obj m)))) as ->.
  { apply set_eq. intros k. rewrite elem_of_dom, urep_some, elem_of_list_to_set, list_elem_of_fmap. split.
    - intros [[g f] HA]. destruct (po_map _ _ Hok k g f HA) as (i & p & Hp & Ha & Ev & _). exists p. rewrite Ev, Z.div_mul by done. split; [done|].
      apply list_elem_of_filter. split; [done|]. by eapply list_elem_of_lookup_2.
    - intros (p & -> & [Ha [i Hp]%list_elem_of_lookup]%list_elem_of_filter). destruct (po_page _ _ Hok i p Hp Ha) as (_ & _ & f & _ & ->). by eexists. }
  rewrite size_list_to_set, length_fmap.
  - clear. induction (uv_pages (obj m)) as [|p ps IH]; [done|]. rewrite filter_cons. cbn [count_if]. case_decide as Ha; [rewrite Ha|apply not_true_iff_false in Ha; rewrite Ha]; cbn [length]; lia.
  - apply (NoDup_filter_fmap (fun p => up_virt p / 4096)). intros i j p q Hp Hq Ha Hb E. apply (po_unique _ _ Hok i j p q Hp Hq Ha Hb). left.
    destruct (po_page _ _ Hok i p Hp Ha) as (Hm & _), (po_page _ _ Hok j q Hq Hb) as (Hm' & _). pose proof (Z.div_mod (up_virt p) 4096). pose proof (Z.div_mod (up_virt q) 4096). lia.
Qed.

Lemma upage_eq v : upage U v = (v mod 4096 =? 0) && valid_address v && bool_decide (is_Some (A !! (v / 4096))).
Proof using Hu. unfold upage. f_equal. apply bool_decide_ext, urep_some. Qed.

Lemma ualloc_eq v a : ualloc_ok U v a = alloc_legal m A v a.
Proof using Hi Hu. unfold ualloc_ok, alloc_legal. rewrite urep_size. do 2 f_equal. apply bool_decide_ext, urep_none. Qed.

Lemma ugrants write k : upage_grants U write k = true <-> exists g f, A !! k = Some (g, f) /\ (write = true -> has f VMM_WRITABLE = true).
Proof using Hu.
  unfold upage_grants. specialize (Hu k). destruct (A !! k) as [[g f]|], (U !! k) as [[f' c]|]; cbn in Hu; try tauto.
  - destruct Hu as [<- _]. rewrite orb_true_iff, negb_true_iff. split.
    + intros Hw. exists g, f. split; [done|]. intros ->. by destruct Hw.
    + intros (g' & f' & [= <- <-] & Hw). destruct write; auto.
  - split; [done|]. by intros (? & ? & ? & _).
Qed.

Lemma ucopy_legal write v n : 0 <= v -> 0 <= n -> uspan_ok U write v n = true <-> copy_legal A write v n.
Proof using Hu.
  intros Hv Hn. unfold uspan_ok, copy_legal. rewrite andb_true_iff, orb_true_iff, !andb_true_iff, !Z.leb_le, Z.eqb_eq, forallb_forall.
  apply and_iff_compat_l. destruct (decide (n = 0)) as [->|Hne]; [tauto|]. apply or_iff_compat_l. etrans; [apply Logic.and_assoc|]. do 2 apply and_iff_compat_l.
  unfold pages_spanned. rewrite (proj2 (Z.eqb_neq n 0) Hne). unfold range_mapped. split.
  - intros Hall a Ha. apply ugrants, Hall, list_elem_of_In, elem_of_seqZ.
    assert (v / 4096 <= a / 4096 <= (v + n - 1) / 4096) by (split; apply Z.div_le_mono; lia). lia.
  - intros Hall k Hk%list_elem_of_In%elem_of_seqZ. apply ugrants.
    destruct (Hall (Z.max v (k * 4096))) as (g & f & HA & Hw).
    + assert (k * 4096 <= v + n - 1) by (pose proof (Z.mul_div_le (v + n - 1) 4096); nia). lia.
    + assert (Z.max v (k * 4096) / 4096 = k) as E by (destruct (Z.max_spec v (k * 4096)) as [[? ->]|[? ->]]; dlia). rewrite E in HA. eauto.
Qed.

Lemma urep_byte v : ubyte m A v = if bool_decide (is_Some (U !! (v / 4096))) then Some (ubyte_at U v) else None.
Proof using Hu.
  unfold ubyte, ubyte_at. specialize (Hu (v / 4096)). destruct (A !! (v / 4096)) as [[g f]|], (U !! (v / 4096)) as [[f' c]|]; cbn in Hu; try tauto.
  destruct Hu as [_ Hc]. rewrite bool_decide_eq_true_2 by done. f_equal. apply Hc. apply Z.mod_pos_bound. lia.
Qed.

(** The same bytes in other circumstances. *)
Lemma urep_mem (m' : M) : (forall g i, g ∈ data (uv_pages (obj m)) -> vm_mem m' g i = vm_mem m g i) -> urep m' A U.
Proof using Hi Hu.
  intros Hm k. specialize (Hu k). destruct (A !! k) as [[g f]|] eqn:E, (U !! k) as [[f' c]|]; cbn in *; try done. destruct Hu as [-> Hc]. split; [done|]. intros o Ho.
  rewrite <-Hc by done. destruct (data_frame m A _ _ _ Hi E) as ([Hgu _] & Hgm & Hgb & Hgd & _). unfold u64_ok in Hgu. unfold phys_byte. rewrite frame_base by (done || unfold u64_ok; lia). by rewrite Hm.
Qed.
End rep.

(** ** The simulation *)

Definition simulated (m : M) (U : uspace) (op : user_op) : Prop :=
  exists A' U', uvm_inv (fst (user_apply m op)) A' /\ urep (fst (user_apply m op)) A' U' /\
    uspec (starved m) U op (snd (user_apply m op)) U' /\ user_frame m (fst (user_apply m op)).

Section step.
Context (m : M) (A : aspace) (U : uspace) (Hi : uvm_inv m A) (Hu : urep m A U).

Lemma data_private g : g ∈ data (uv_pages (obj m)) -> private (vm_ctx m) g.
Proof using Hi.
  intros Hg. pose proof (inv_ledger m A Hi) as Hok. split; [by apply (lo_data _ _ Hok)|]. intros Hin. by destruct (lo_alloc _ _ Hok _ Hin).
Qed.

Lemma urep_step m' : page_step m m' -> urep m' A U.
Proof using Hi Hu. intros Hs. apply (urep_mem m A U Hi Hu). intros g i Hg. by apply (ps_kept _ _ Hs), data_private. Qed.

Lemma zero_byte m' A' k g f o : uvm_inv m' A' -> A' !! k = Some (g, f) -> (forall i, vm_mem m' g i = 0) -> 0 <= o < 4096 -> phys_byte (vm_mem m') (g + o) = 0.
Proof using Type.
  intros Hi' E Hz Ho. destruct (data_frame m' A' _ _ _ Hi' E) as ([Hgu _] & Hgm & Hgb & _). unfold u64_ok in Hgu. unfold phys_byte.
  rewrite frame_base by (done || unfold u64_ok; lia). by rewrite Hz, Z.shiftr_0_l.
Qed.

Lemma sim_alloc v a : u64_ok v -> 0 <= a <= UINT32_MAX -> simulated m U (UAlloc v a).
Proof using Hi Hu.
  intros Hv Ha. destruct (alloc_page_spec m A v a Hi Hv Ha) as [Hyes Hno]. unfold simulated. cbn [user_apply]. destruct (user_vm_alloc_page m v a) as [m' []]; cbn [fst snd] in *.
  - destruct (Hyes eq_refl) as (Hl & g & Hna & Hi' & Hs & _ & Hz). eexists _, (<[v / 4096 := (access_flags a, fun _ => 0)]> U). split_and!; [done| | |by apply page_step_frame].
    + intros k. destruct (decide (k = v / 4096)) as [->|Hne]; [|rewrite !lookup_insert_ne by done; by apply urep_step].
      rewrite !lookup_insert_eq. split; [done|]. intros o Ho. eapply (zero_byte m' _ (v / 4096) g); [done|by rewrite lookup_insert_eq|done|done].
    + cbn. by rewrite (ualloc_eq m A U Hi Hu).
  - destruct (Hno eq_refl) as ((Hi' & Hs & _) & Hwhy). exists A, U. split_and!; [done|by apply urep_step| |by apply page_step_frame]. cbn. by rewrite (ualloc_eq m A U Hi Hu).
Qed.

Lemma sim_unmap v : u64_ok v -> simulated m U (UUnmap v).
Proof using Hi Hu.
  intros Hv. destruct (unmap_page_spec m A v Hi Hv) as (Hok & Hi' & Hs & _). unfold simulated. cbn [user_apply]. destruct (user_vm_unmap_page m v) as [m' ok]; cbn [fst snd] in *.
  rewrite <-(upage_eq m A U Hu) in Hok. exists (if ok then delete (v / 4096) A else A), (if ok then delete (v / 4096) U else U). split_and!; [done| |done|by apply page_step_frame].
  destruct ok; [|by apply urep_step]. intros k. destruct (decide (k = v / 4096)) as [->|Hne]; [by rewrite !lookup_delete_eq|]. rewrite !lookup_delete_ne by done. by apply urep_step.
Qed.

Lemma sim_protect v a : u64_ok v -> 0 <= a <= UINT32_MAX -> simulated m U (UProtect v a).
Proof using Hi Hu.
  intros Hv Ha. destruct (protect_page_spec m A v a Hi Hv Ha) as (Hok & Hi' & Hs & _). unfold simulated. cbn [user_apply]. destruct (user_vm_protect_page m v a) as [m' ok]; cbn [fst snd] in *.
  assert (ok = valid_access a && upage U v) as Hok' by (rewrite Hok, (upage_eq m A U Hu); by destruct (v mod 4096 =? 0), (valid_access a)).
  exists (if ok then alter (fun e => (fst e, access_flags a)) (v / 4096) A else A), (if ok then alter (fun e => (access_flags a, snd e)) (v / 4096) U else U).
  split_and!; [done| |done|by apply page_step_frame]. destruct ok; [|by apply urep_step]. intros k. pose proof (urep_step m' Hs k) as Hk. rewrite !lookup_alter. case_decide; [subst k|done].
  destruct (A !! (v / 4096)) as [[g f]|], (U !! (v / 4096)) as [[f' c]|]; cbn in *; tauto.
Qed.

Lemma sim_query v : simulated m U (UQuery v).
Proof using Hi Hu.
  exists A, U. cbn [user_apply fst snd]. split_and!; [done|done| |apply user_frame_refl]. cbn. split; [|done]. unfold user_vm_query. rewrite (query_spec m A v Hi). unfold uspace_query.
  destruct (valid_address v); [|done]. cbn. specialize (Hu (v / 4096)). destruct (A !! (v / 4096)) as [[g f]|], (U !! (v / 4096)) as [[f' c]|]; cbn in *; try done. by destruct Hu as [-> _].
Qed.

Lemma sim_read v n : u64_ok v -> u64_ok n -> simulated m U (URead v n).
Proof using Hi Hu.
  intros Hv Hn. exists A, U. cbn [user_apply fst snd]. split_and!; [done|done| |apply user_frame_refl]. cbn. split; [|done].
  pose proof (copy_from_spec m A v n Hi Hv Hn) as Hc. unfold u64_ok in Hv, Hn. destruct (user_vm_copy_from m v n) as [bs|].
  - destruct Hc as [Hl Hb]. rewrite (proj2 (ucopy_legal m A U Hu false v n ltac:(lia) ltac:(lia)) Hl). f_equal. apply (list_fmap_eq_inj Some); [intros ? ? [= ->]; done|]. rewrite Hb, <-list_fmap_compose.
    apply list_fmap_ext. intros i a Hia. apply lookup_seqZ in Hia as [-> Hlt]. unfold compose. rewrite (urep_byte m A U Hu). rewrite bool_decide_eq_true_2; [done|].
    apply (urep_some m A U Hu). destruct Hl as [_ [Hz|(_ & _ & Hm)]]; [lia|]. destruct (Hm (v + Z.of_nat i)) as (g & f & -> & _); [lia|by eexists].
  - destruct (uspan_ok U false v n) eqn:E; [|done]. destruct Hc. apply (ucopy_legal m A U Hu); [lia|lia|done].
Qed.

Lemma sim_write v src : u64_ok v -> u64_ok (Z.of_nat (length src)) -> simulated m U (UWrite v src).
Proof using Hi Hu.
  intros Hv Hn. destruct (copy_to_spec m A v src Hi Hv Hn) as (Hok & Hi' & Hctx & Hout & Hno & Hb). unfold simulated. cbn [user_apply]. destruct (user_vm_copy_to m v src) as [m' ok]; cbn [fst snd] in *.
  assert (ok = uspan_ok U true v (Z.of_nat (length src))) as Hok' by (unfold u64_ok in *; apply eq_true_iff_eq; by rewrite Hok, (ucopy_legal m A U Hu) by lia).
  exists A, (if ok then uwrite U v src else U). split_and!; [done| |done|].
  - destruct ok; [|by rewrite Hno]. intros k. unfold uwrite. rewrite map_lookup_imap. pose proof (Hu k) as Hk. destruct (A !! k) as [[g f]|] eqn:EA, (U !! k) as [[f' c]|] eqn:EU; cbn in *; try done.
    destruct Hk as [<- Hc]. split; [done|]. intros o Ho. specialize (Hb eq_refl (k * 4096 + o)). unfold ubyte in Hb. destruct (same_page (k * 4096) o) as [Ed Em]; [lia|rewrite Z_mod_mult; lia|].
    rewrite Z.div_mul in Ed by done. rewrite Z_mod_mult, Z.add_0_l in Em. rewrite Ed, Em, EA in Hb. destruct (po_map _ _ (ui_pages m A Hi) _ _ _ EA) as (i & p & Hp & Ha & Ev & _).
    destruct (po_page _ _ (ui_pages m A Hi) i p Hp Ha) as (_ & Hva & _). rewrite Ev in Hva. pose proof (valid_lower _ Hva) as Hlow. unfold lower_half in Hlow. change (2 ^ 47) with 140737488355328 in Hlow.
    specialize (Hb ltac:(unfold u64_ok, UINT64_MAX; lia)). destruct (_ && _); injection Hb as ->; [done|by apply Hc].
  - unfold outside, obj. constructor; try (unfold obj; by rewrite Hctx).
    + intros g. unfold outside, obj. by rewrite Hctx.
    + intros g i [_ Hg]. by apply Hout.
    + intros i Hlt. apply Hout. destruct (lo_alloc _ _ (inv_ledger m A Hi) (vs_root_phys (uv_space (obj m)))) as [_ Hd]; [apply (tree_root _ _ _ _ (ui_tree m A Hi))|done].
Qed.

Lemma user_step op : user_args op -> simulated m U op.
Proof using Hi Hu.
  destruct op; cbn [user_args]; intros Hargs; [apply sim_alloc|apply sim_unmap|apply sim_protect|apply sim_query|apply sim_read|apply sim_write]; tauto.
Qed.
End step.

Lemma user_run_follows ops : forall m A U, uvm_inv m A -> urep m A U -> Forall user_args ops ->
  exists A' U', uvm_inv (user_run m ops) A' /\ urep (user_run m ops) A' U' /\ follows m U ops U' /\ user_frame m (user_run m ops).
Proof.
  induction ops as [|op ops IH]; intros m A U Hi Hu Hargs; [by exists A, U|]. inversion Hargs as [|? ? Ha Hargs']; subst. cbn [user_run follows foldl].
  destruct (user_step m A U Hi Hu op Ha) as (A1 & U1 & Hi1 & Hu1 & Hs1 & Hf1). destruct (IH _ A1 U1 Hi1 Hu1 Hargs') as (A2 & U2 & Hi2 & Hu2 & Hs2 & Hf2).
  exists A2, U2. split_and!; [done|done|by exists U1|by eapply user_frame_trans].
Qed.
End spec.
