(* ===== verification/UserVmFrame.v ===== *)
(** * User address spaces: the frames nobody can allocate

    The tables of the kernel are used but not allocated: they were pinned, or
    never were the allocator's.  No call on a user address space changes such a
    frame, whatever state the address space is in, because every write of
    user_vm.c is to a frame that the allocator says is allocated. *)

From S2P Require Import Prelude MemoryHelpers VmmCore VmmMap VmmSpec Frames KernelVm UserVm UserVmTree UserVmOps UserVmLife UserVmSpec.
Open Scope Z_scope.

(** ** Writes of the page-table code *)

Section guard.
Context {C : Type} `{VmmOps C} (W : C -> Z -> Prop).
Hypothesis Htable : forall c g t, W c g -> op_table c t = true -> t <> g.
Hypothesis Halloc : forall c c' r g, W c g -> op_alloc c = (c', r) -> W c' g /\ r <> Some g.
Hypothesis Hfree : forall c f g, W c g -> W (op_free c f) g.
Hypothesis Hcommit : forall c f g, W c g -> W (op_commit c f) g.
Hypothesis Hinval : forall c v g, W c g -> W (op_invalidate c v) g.
Context (space : vmm_space) (g : Z).

(** [g] is out of reach before and after, and holds the same. *)
Definition guarded (m m' : vm C) : Prop := W (vm_ctx m) g -> W (vm_ctx m') g /\ forall i, vm_mem m' g i = vm_mem m g i.

Lemma guarded_refl m : guarded m m.
Proof. done. Qed.

Lemma guarded_trans m1 m2 m3 : guarded m1 m2 -> guarded m2 m3 -> guarded m1 m3.
Proof. intros H1 H2 Hw. destruct (H1 Hw) as [Hw2 E1]. destruct (H2 Hw2) as [Hw3 E2]. split; [done|]. intros i. by rewrite E2, E1. Qed.

Lemma walk_table m virt level : forall phys anc w u nx r, walk_from space m virt level phys anc w u nx = Some r -> op_table (vm_ctx m) (wr_table r) = true.
Proof.
  induction level as [|level IH]; intros phys anc w u nx r; cbn [walk_from]; [done|]. destruct (existsb _ anc); [done|]. destruct (op_table (vm_ctx m) phys) eqn:E; cbn [negb]; [|done].
  destruct (negb _ && _); [done|]. destruct (_ || _ || _); [by intros [= <-]|apply IH].
Qed.

Lemma walk_guard m virt r : walk space m virt = Some r -> W (vm_ctx m) g -> wr_table r <> g.
Proof using Htable. unfold walk. destruct (_ || _); [done|]. intros E Hw. eapply Htable; [done|]. by eapply walk_table. Qed.

Lemma set_other (mem : Z -> Z -> Z) t i v j : t <> g -> mem_set mem t i v g j = mem g j.
Proof. unfold mem_set. intros Ht. by assert (g =? t = false) as -> by lia. Qed.

Lemma fold_guard (f : C -> Z -> C) l : (forall c x, W c g -> W (f c x) g) -> forall c, W c g -> W (foldl f c l) g.
Proof. intros Hf. induction l as [|x l IH]; intros c Hc; cbn; [done|]. by apply IH, Hf. Qed.

Lemma rollback_guard c fs : W c g -> W (rollback c fs) g.
Proof using Hfree. apply fold_guard. intros; by apply Hfree. Qed.

Lemma acquire_guard n : forall m fs, W (vm_ctx m) g -> g ∉ fs -> let (m', r) := acquire space n m fs in
  W (vm_ctx m') g /\ (forall i, vm_mem m' g i = vm_mem m g i) /\ forall l, r = Some l -> g ∉ l.
Proof using Halloc Hfree.
  induction n as [|n IH]; intros m fs Hw Hg; cbn [acquire]; [split_and!; [done|done|by intros l [= <-]]|].
  destruct (op_alloc (vm_ctx m)) as [c [f|]] eqn:E; destruct (Halloc _ _ _ g Hw E) as [Hc Hr].
  - assert (g ∉ fs ++ [f]) as Hg' by (rewrite elem_of_app, list_elem_of_singleton; intros [|]; congruence).
    destruct (negb (physical_valid space f)); [split_and!; [by apply rollback_guard|done|done]|]. destruct (negb (op_table c f)); [split_and!; [by apply rollback_guard|done|done]|].
    specialize (IH (MkVm c (mem_clear (vm_mem m) f)) (fs ++ [f]) Hc Hg'). destruct (acquire space n _ _) as [m' r]. destruct IH as (H1 & H2 & H3). split_and!; [done| |done].
    intros i. rewrite H2. cbn [vm_mem]. unfold mem_clear. by assert (g =? f = false) as -> by (apply Z.eqb_neq; congruence).
  - split_and!; [by apply rollback_guard|done|done].
Qed.

Lemma link_guard fs : forall mem virt phys flags level i, g ∉ fs -> link_tables mem virt phys flags level fs g i = mem g i.
Proof.
  induction fs as [|f fs IH]; intros mem virt phys flags level i Hg; cbn [link_tables]; [done|]. rewrite not_elem_of_cons in Hg. destruct Hg. rewrite IH by done. by apply set_other.
Qed.

Lemma map_guard m virt phys flags : guarded m (fst (vmm_space_map space m virt phys flags)).
Proof using Htable Halloc Hfree Hcommit Hinval.
  intros Hw. unfold vmm_space_map. destruct (_ || _); [done|]. destruct (walk space m virt) as [r|] eqn:E; [|done]. pose proof (walk_guard m virt r E Hw) as Ht. destruct (_ || _); [done|].
  destruct (_ =? 1); cbn [fst vm_ctx vm_mem]. { split; [by apply Hinval|]. intros i. by apply set_other. }
  pose proof (acquire_guard (Z.to_nat (wr_level r - 1)) m [] Hw ltac:(by apply not_elem_of_nil)) as Ha. destruct (acquire space _ m []) as [m1 [fs|]]; destruct Ha as (H1 & H2 & H3); [|done].
  cbn [fst vm_ctx vm_mem]. split; [apply Hinval, fold_guard; [by intros; apply Hcommit|done]|]. intros i. rewrite set_other by done. rewrite link_guard by by apply H3. apply H2.
Qed.

Lemma unmap_guard m virt : guarded m (fst (vmm_space_unmap space m virt)).
Proof using Htable Hinval.
  intros Hw. unfold vmm_space_unmap. destruct (negb _); [done|]. destruct (walk space m virt) as [r|] eqn:E; [|done]. pose proof (walk_guard m virt r E Hw) as Ht. destruct (_ || _); [done|].
  split; [by apply Hinval|]. intros i. by apply set_other.
Qed.

Lemma protect_guard m virt flags : guarded m (fst (vmm_space_protect space m virt flags)).
Proof using Htable Hinval.
  intros Hw. unfold vmm_space_protect. destruct (_ || _); [done|]. destruct (walk space m virt) as [r|] eqn:E; [|done]. pose proof (walk_guard m virt r E Hw) as Ht. destruct (_ || _); [done|].
  split; [by apply Hinval|]. intros i. by apply set_other.
Qed.
End guard.

(** ** Pinned frames and the calls of user_vm.c *)

Section user.
Context {P : Type} `{PageFramesLaws P}.
Notation S := (ustate P).
Notation M := (vm S).

Definition pinned (p : P) (g : Z) : Prop := u64_ok g /\ pf_used p g /\ pmm_is_allocated_page p g = false.

(** What a step does to them: they stay, hold the same words, and are tables of
    the kernel if they were. *)
Definition pins_kept (m m' : M) : Prop := forall g, pinned (us_frames (vm_ctx m)) g ->
  pinned (us_frames (vm_ctx m')) g /\ (forall i, vm_mem m' g i = vm_mem m g i) /\ forall t, kernel_table (us_frames (vm_ctx m')) t = kernel_table (us_frames (vm_ctx m)) t.

Lemma pins_refl m : pins_kept m m.
Proof. done. Qed.

Lemma pins_trans m1 m2 m3 : pins_kept m1 m2 -> pins_kept m2 m3 -> pins_kept m1 m3.
Proof.
  intros H1 H2 g Hg. destruct (H1 g Hg) as (Hg2 & E1 & T1). destruct (H2 g Hg2) as (Hg3 & E2 & T2). split_and!; [done| |].
  - intros i. by rewrite E2, E1.
  - intros t. by rewrite T2, T1.
Qed.

(** The frame numbers in use in the ledger are 64-bit. *)
Definition ledger_typed (c : S) : Prop :=
  length (uv_tables (us_vm c)) = USER_VM_TABLE_LIMIT /\
  (forall i t, uv_tables (us_vm c) !! i = Some t -> ut_allocated t = true -> u64_ok (ut_phys t)) /\
  (forall i p, uv_pages (us_vm c) !! i = Some p -> up_allocated p = true -> u64_ok (up_phys p)).

Lemma inv_typed m A : uvm_inv m A -> ledger_typed (vm_ctx m) /\ pf_wf (us_frames (vm_ctx m)).
Proof.
  intros Hi. pose proof (inv_ledger m A Hi) as L. split; [|apply L]. split_and!.
  - apply L.
  - intros i t Ht Ha. destruct (lo_alloc _ _ L (ut_phys t)) as [[? _] _]; [|done]. by exists i, t.
  - intros i p Hp Ha. destruct (lo_data _ _ L (up_phys p)) as [? _]; [|done]. apply elem_of_data. by exists i, p.
Qed.

Section tables.
Context (K : Z -> bool).
Definition walled (c : S) (g : Z) : Prop := pf_wf (us_frames c) /\ ledger_typed c /\ pinned (us_frames c) g /\ forall t, kernel_table (us_frames c) t = K t.

Lemma walled_table c g t : walled c g -> table_access c t = true -> t <> g.
Proof. unfold table_access. intros (_ & _ & (_ & _ & Hn) & _). rewrite !andb_true_iff. intros [[_ Ha] _] ->. congruence. Qed.

Lemma frames_alloc p p' r g : pf_wf p -> pinned p g -> pmm_alloc_page p = (p', r) ->
  pf_wf p' /\ pinned p' g /\ r <> Some g /\ (forall f, r = Some f -> u64_ok f) /\ forall t, kernel_table p' t = kernel_table p t.
Proof.
  intros Hw (Hu & Hus & Hn) E. destruct (pf_alloc _ _ _ Hw E) as (Hw' & _ & Hf & Ha & Ht). destruct (pf_alloc_used _ _ _ Hw E g) as [Hx Hy].
  assert (r <> Some g) as Hr by (intros Er; by apply Hx). split_and!; [done| |done|intros f Ef; by apply Hf|done]. split_and!; [done|apply Hy; by left|]. rewrite Ha, Hn by done. by rewrite bool_decide_eq_false_2.
Qed.

Lemma frames_free p f g : pf_wf p -> u64_ok f -> pinned p g -> let p' := fst (pmm_free_page p f) in
  pf_wf p' /\ pinned p' g /\ forall t, kernel_table p' t = kernel_table p t.
Proof.
  intros Hw Hf (Hu & Hus & Hn) p'. pose proof (pf_free _ _ Hw Hf) as Hx. pose proof (pf_free_refused p f) as Hr. pose proof (pf_free_used p f Hw Hf) as Hy. fold p' in Hr, Hy.
  destruct (pmm_free_page p f) as [q ok]. cbn [fst snd] in *. subst p'. destruct Hx as (Hw' & _ & Hok & Ha & Ht). split_and!; [done| |done]. destruct ok; [|by rewrite Hr].
  split_and!; [done| |by rewrite Ha, Hn by done]. apply (Hy (eq_sym Hok)). split; [done|]. intros ->. congruence.
Qed.

Lemma walled_frames c p g : walled c g -> pf_wf p -> pinned p g -> (forall t, kernel_table p t = kernel_table (us_frames c) t) -> walled (with_frames p c) g.
Proof. intros (_ & Hl & _ & Hk) Hw Hg Ht. split_and!; [done|done|done|]. intros t. cbn. by rewrite Ht, Hk. Qed.

Lemma walled_panic c g : walled c g -> walled (panic c) g.
Proof. done. Qed.

Lemma walled_release c f g : walled c g -> u64_ok f -> walled (release_frame c f) g.
Proof.
  intros Hc Hf. pose proof Hc as (Hw & _ & Hg & _). pose proof (frames_free _ f g Hw Hf Hg) as (H1 & H2 & H3). unfold release_frame. destruct (pmm_free_page _ f) as [p ok]. cbn [fst] in *.
  pose proof (walled_frames c p g Hc H1 H2 H3). by destruct ok.
Qed.

Lemma walled_tables c ts n g : walled c g -> length ts = USER_VM_TABLE_LIMIT -> (forall i t, ts !! i = Some t -> ut_allocated t = true -> u64_ok (ut_phys t)) -> walled (with_vm (set_tables ts n) c) g.
Proof. intros (Hw & (_ & _ & Hp) & Hg & Hk) Hlen Hts. by split_and!. Qed.

Lemma insert_typed (ts : list user_vm_table) i x : (forall j t, ts !! j = Some t -> ut_allocated t = true -> u64_ok (ut_phys t)) ->
  (ut_allocated x = true -> u64_ok (ut_phys x)) -> forall j t, <[i := x]> ts !! j = Some t -> ut_allocated t = true -> u64_ok (ut_phys t).
Proof. intros Ht Hx j t [(_ & -> & _)|[_ Hj]]%list_lookup_insert_Some Ha; [by apply Hx|by eapply Ht]. Qed.

Lemma walled_allocate c c' r g : walled c g -> table_allocate c = (c', r) -> walled c' g /\ r <> Some g.
Proof.
  intros Hc. unfold table_allocate. destruct (_ <=? _); [by intros [= <- <-]|]. destruct (bool_decide _); [by intros [= <- <-]|].
  destruct (pmm_alloc_page (us_frames c)) as [p q] eqn:E. pose proof Hc as (Hw & (Hlen & Hl & _) & Hg & _). destruct (frames_alloc _ _ _ g Hw Hg E) as (H1 & H2 & H3 & H4 & H5).
  pose proof (walled_frames c p g Hc H1 H2 H5) as Hc1. destruct q as [f|]; intros [= <- <-]; [|done]. split; [|done]. apply walled_tables; [done|by rewrite length_insert|]. apply insert_typed; [done|]. intros _. by apply H4.
Qed.

Lemma slot_typed c f : ledger_typed c -> table_slot (us_vm c) f <> USER_VM_TABLE_LIMIT -> exists t, uv_tables (us_vm c) !! table_slot (us_vm c) f = Some t /\ ut_allocated t = true /\ ut_phys t = f /\ u64_ok f.
Proof.
  intros (Hlen & Hl & _) Hs. unfold table_slot in *. set (q := fun t => ut_allocated t && (ut_phys t =? f)) in *. pose proof (first_index_le q (uv_tables (us_vm c))).
  assert (first_index q (uv_tables (us_vm c)) < length (uv_tables (us_vm c)))%nat as Hlt by lia. destruct (first_index_found _ _ Hlt) as (t & Ht & Hp). apply andb_true_iff in Hp as [Ha <-%Z.eqb_eq]. exists t. split_and!; try done. by eapply Hl.
Qed.

Lemma walled_table_release c f g : walled c g -> walled (table_release c f) g.
Proof.
  intros Hc. unfold table_release. destruct (bool_decide_reflect (table_slot (us_vm c) f = USER_VM_TABLE_LIMIT)) as [|Hs]; [rewrite orb_true_r; done|]. destruct (_ || _ || _); [done|].
  destruct (slot_typed c f ltac:(apply Hc) Hs) as (t & Ht & _ & _ & Hf). pose proof (walled_release c f g Hc Hf) as Hr. destruct (walled_release c f g Hc Hf) as (_ & (Hlen & Hl & _) & _).
  apply walled_tables; [done|by rewrite length_insert|]. by apply insert_typed.
Qed.

Lemma walled_commit c f g : walled c g -> walled (table_commit c f) g.
Proof.
  intros Hc. unfold table_commit. destruct (bool_decide_reflect (table_slot (us_vm c) f = USER_VM_TABLE_LIMIT)) as [|Hs]; [rewrite orb_true_r; done|]. destruct (_ || _ || _); [done|].
  pose proof Hc as (_ & Hty & _). pose proof Hty as (Hlen & Hl & _). destruct (slot_typed c f Hty Hs) as (t & Ht & Ha & Ep & Hf). apply walled_tables; [done|by rewrite length_insert|].
  apply insert_typed; [done|]. rewrite (list_lookup_total_correct _ _ _ Ht). cbn. by rewrite Ep.
Qed.

Lemma walled_invalidate c v g : walled c g -> walled (invalidate c v) g.
Proof. unfold invalidate. by destruct (_ =? _). Qed.

Definition user_guarded (g : Z) (m m' : M) : Prop := guarded walled g m m'.

Lemma umap_guard space g m virt phys flags : user_guarded g m (fst (vmm_space_map space m virt phys flags)).
Proof.
  apply map_guard; [apply walled_table|apply walled_allocate|intros; by apply walled_table_release|intros; by apply walled_commit|intros; by apply walled_invalidate].
Qed.

Lemma uunmap_guard space g m virt : user_guarded g m (fst (vmm_space_unmap space m virt)).
Proof. apply unmap_guard; [apply walled_table|intros; by apply walled_invalidate]. Qed.

Lemma uprotect_guard space g m virt flags : user_guarded g m (fst (vmm_space_protect space m virt flags)).
Proof. apply protect_guard; [apply walled_table|intros; by apply walled_invalidate]. Qed.

Lemma release_guard g m f : u64_ok f -> user_guarded g m (in_ctx (fun c => release_frame c f) m).
Proof. intros Hf Hw. split; [by apply walled_release|done]. Qed.

Lemma pages_guard g m i x n : (up_allocated x = true -> u64_ok (up_phys x)) -> user_guarded g m (in_ctx (with_vm (fun u => set_pages (<[i := x]> (uv_pages u)) (n u) u)) m).
Proof.
  intros Hx (Hw & (Hlen & Hl & Hp) & Hg & Hk). split; [|done]. split_and!; try done. split_and!; [done|done|]. cbn. intros j p [(_ & -> & _)|[_ Hj]]%list_lookup_insert_Some Ha; [by apply Hx|by eapply Hp].
Qed.

Lemma alloc_guard g m virt access : user_guarded g m (fst (user_vm_alloc_page m virt access)).
Proof.
  unfold user_vm_alloc_page. destruct (_ || _ || _ || _); [apply guarded_refl|]. destruct (query_locked m virt) as [mp|]; [|apply guarded_refl]. destruct (vp_mapped mp); [apply guarded_refl|].
  destruct (bool_decide _); [apply guarded_refl|]. intros Hc. pose proof Hc as (Hw & _ & Hg & _). destruct (pmm_alloc_page (us_frames (vm_ctx m))) as [p q] eqn:E.
  destruct (frames_alloc _ _ _ g Hw Hg E) as (H1 & H2 & H3 & H4 & H5). pose proof (walled_frames _ p g Hc H1 H2 H5) as Hc1. destruct q as [f|]; [|done].
  assert (u64_ok f) as Hf by by apply H4. destruct (memory_phys_to_virt p f _); cbn [fst]; [|by apply (release_guard g (in_ctx (with_frames p) m) f)].
  set (m1 := in_mem _ (in_ctx _ m)). assert (forall i, vm_mem m1 g i = vm_mem m g i) as E1 by (intros i; cbn; unfold mem_clear; by assert (g =? f = false) as -> by (apply Z.eqb_neq; congruence)).
  pose proof (umap_guard (uv_space (obj m)) g m1 virt f (access_flags access) Hc1) as [Hc2 E2]. destruct (vmm_space_map _ m1 virt f _) as [m2 [|]]; cbn [fst] in *.
  - destruct (pages_guard g m2 (first_index (fun p => negb (up_allocated p)) (uv_pages (obj m))) (MkUPage virt f true) (fun u => uv_page_count u +u 1) ltac:(done) Hc2) as [Hc3 E3].
    split; [done|]. intros i. by rewrite E3, E2, E1.
  - destruct (release_guard g m2 f Hf Hc2) as [Hc3 E3]. split; [done|]. intros i. by rewrite E3, E2, E1.
Qed.

Lemma protect_page_guard g m virt access : user_guarded g m (fst (user_vm_protect_page m virt access)).
Proof.
  unfold user_vm_protect_page. destruct (_ || _); [apply guarded_refl|]. destruct (query_locked m virt) as [mp|]; [|apply guarded_refl]. destruct (negb _); [apply guarded_refl|]. apply uprotect_guard.
Qed.

Lemma unmap_page_guard g m A virt : uvm_inv m A -> u64_ok virt -> user_guarded g m (fst (user_vm_unmap_page m virt)).
Proof.
  intros Hi Hv. unfold user_vm_unmap_page. destruct (negb _); [apply guarded_refl|]. destruct (query_locked m virt) as [mp|] eqn:Eq; [|apply guarded_refl]. destruct (vp_mapped mp) eqn:Emp; cbn [negb]; [|apply guarded_refl].
  intros Hc. pose proof (uunmap_guard (uv_space (obj m)) g m virt Hc) as [Hc2 E2]. pose proof (unmap_object (uv_space (obj m)) m virt) as So.
  destruct (vmm_space_unmap _ m virt) as [m2 [|]]; cbn [fst] in *; [|done]. set (slot := page_slot (obj m2) virt).
  assert (u64_ok (up_phys (uv_pages (obj m2) !!! slot))) as Hf.
  { destruct (decide (slot < length (uv_pages (obj m2)))%nat) as [Hl|Hl].
    - unfold slot, page_slot in *. destruct (first_index_found _ _ Hl) as (x & Hx & Hp). rewrite (list_lookup_total_correct _ _ _ Hx). apply andb_true_iff in Hp as [Ha _].
      destruct Hc2 as (_ & (_ & _ & Hp) & _). by eapply Hp.
    - rewrite list_lookup_total_alt, lookup_ge_None_2 by lia. done. }
  destruct (release_guard g m2 _ Hf Hc2) as [Hc3 E3]. destruct (pages_guard g _ slot page_zero (fun u => uv_page_count u -u 1) ltac:(done) Hc3) as [Hc4 E4]. split; [done|]. intros i. by rewrite E4, E3, E2.
Qed.
End tables.

Lemma guard_pins m m' : pf_wf (us_frames (vm_ctx m)) -> ledger_typed (vm_ctx m) -> (forall K g, user_guarded K g m m') -> pins_kept m m'.
Proof.
  intros Hw Hl Hu g Hg. destruct (Hu (kernel_table (us_frames (vm_ctx m))) g) as [(_ & _ & Hg' & Hk) E]; [by split_and!|]. by split_and!.
Qed.

(** Every call on a live address space. *)
Lemma apply_pins m A op : uvm_inv m A -> user_args op -> pins_kept m (fst (user_apply m op)).
Proof.
  intros Hi Ha. destruct (inv_typed m A Hi) as [Hl Hw]. destruct op as [v a|v|v a|v|v n|v src]; cbn [user_apply user_args] in *; try apply pins_refl.
  - pose proof (fun K g => alloc_guard K g m v a) as Hg. destruct (user_vm_alloc_page m v a) as [m' ok]. by apply guard_pins.
  - pose proof (fun K g => unmap_page_guard K g m A v Hi Ha) as Hg. destruct (user_vm_unmap_page m v) as [m' ok]. by apply guard_pins.
  - pose proof (fun K g => protect_page_guard K g m v a) as Hg. destruct (user_vm_protect_page m v a) as [m' ok]. by apply guard_pins.
  - destruct Ha as [Hv Hn]. pose proof (copy_to_spec m A v src Hi Hv Hn) as Hc. cbn zeta in Hc. destruct (user_vm_copy_to m v src) as [m' ok]. cbn [fst snd] in *.
    destruct Hc as (_ & _ & Ec & Hm & _). intros g Hg. rewrite Ec. split_and!; [done| |done]. intros i. apply Hm. intros Hd. destruct (lo_data _ _ (inv_ledger m A Hi) g Hd) as [_ Hal].
    destruct Hg as (_ & _ & Hng). congruence.
Qed.

(** Creation and destruction. *)
Lemma zero_typed (c : S) : us_vm c = user_vm_zero -> ledger_typed c.
Proof. intros E. unfold ledger_typed. rewrite E. split_and!; [done| |]; intros i x [-> _]%lookup_replicate; done. Qed.

Lemma walled_zero K (c : S) g : walled K c g -> walled K (with_vm (fun _ => user_vm_zero) c) g.
Proof. intros (Hw & _ & Hg & Hk). split_and!; [done|by apply zero_typed|done|done]. Qed.

Lemma create_guard K g k m : obj m = user_vm_zero -> user_guarded K g m (fst (user_vm_create k m)).
Proof.
  intros Eo Hc. unfold user_vm_create. destruct (_ || _ || _ || _); [done|]. destruct (vmm_get_info k) as [info|]; [|done]. destruct (_ || _); [done|]. unfold vmm_copy_kernel_half.
  destruct (negb _); [done|]. destruct (Z.land _ VMM_PRESENT =? 0); [done|]. destruct (pmm_alloc_page (us_frames (vm_ctx m))) as [p q] eqn:E. pose proof Hc as (Hw & _ & Hg & _).
  destruct (frames_alloc _ _ _ g Hw Hg E) as (H1 & H2 & H3 & H4 & H5). pose proof (walled_frames K _ p g Hc H1 H2 H5) as Hc1. destruct q as [f|]; [|done].
  assert (u64_ok f) as Hf by by apply H4. set (m1 := in_ctx (with_vm _) (in_ctx (with_frames p) m)). assert (walled K (vm_ctx m1) g) as Hc2.
  { unfold m1. cbn [in_ctx vm_ctx]. change (walled K (with_vm (set_tables (<[0%nat := MkUTable f true true]> (uv_tables (obj m))) 1) (with_frames p (vm_ctx m))) g). rewrite Eo.
    apply walled_tables; [done|done|]. apply insert_typed; [|done]. intros j t [-> _]%lookup_replicate. done. }
  set (upper := (fun i => Z.land _ _) <$> seqZ 0 256).
  assert (forall x, x <> f -> forall i, store_upper (mem_clear (vm_mem m1) f) f upper x i = vm_mem m x i) as Eu.
  { intros x Hx i. unfold upper. rewrite (store_upper_spec (vm_mem m1) f (vm_mem m (vinf_root_phys (kv_information k)))). by rewrite (proj2 (Z.eqb_neq x f) Hx). }
  assert (g <> f) as Hgf by congruence.
  assert (forall m2, walled K (vm_ctx m2) g -> (forall i, vm_mem m2 g i = vm_mem m g i) ->
    let m3 := in_ctx (with_vm (fun _ => user_vm_zero)) (in_ctx (fun c => release_frame c f) m2) in walled K (vm_ctx m3) g /\ (forall i, vm_mem m3 g i = vm_mem m g i)) as Hback.
  { intros m2 Hw2 Em2. split; [|done]. by apply walled_zero, walled_release. }
  destruct (negb (table_access (vm_ctx m1) f)); [by apply (Hback m1)|]. destruct (vmm_space_init _ f _ true) as [space|]; cbn [fst].
  - split; [done|]. intros i. cbn [in_ctx in_mem vm_mem]. by apply Eu.
  - eapply Hback; [done|]. intros i. cbn [in_mem vm_mem]. by apply Eu.
Qed.

Lemma create_pins k m : uvm_fresh m -> pins_kept m (fst (user_vm_create k m)).
Proof. intros Hf. apply guard_pins; [apply Hf|apply zero_typed, Hf|]. intros K g. apply create_guard, Hf. Qed.

Lemma release_all_guard K g fs : (forall f, f ∈ fs -> u64_ok f) -> forall c : S, walled K c g -> walled K (foldl release_frame c fs) g.
Proof. induction fs as [|f fs IH]; intros Hf c Hc; cbn [foldl]; [done|]. apply IH; [set_solver|]. apply walled_release; [done|set_solver]. Qed.

Lemma destroy_pins m A : uvm_inv m A -> pins_kept m (fst (user_vm_destroy m)).
Proof.
  intros Hi. destruct (inv_typed m A Hi) as [Hl Hw]. apply guard_pins; [done|done|]. intros K g Hc. unfold user_vm_destroy. destruct (_ || _ || _); [done|]. cbn [fst vm_ctx vm_mem]. split; [|done].
  apply walled_zero. rewrite release_pages, release_tables. destruct Hl as (Hlen & Ht & Hp). apply walled_release; [|].
  - apply release_all_guard; [|apply release_all_guard; [|done]].
    + intros f (t & -> & [Ha Hin]%list_elem_of_filter)%list_elem_of_fmap. apply list_elem_of_In, in_rev, list_elem_of_In in Hin. apply list_elem_of_lookup in Hin as [j Hj]. rewrite lookup_tail in Hj. by eapply Ht.
    + intros f (x & -> & [Ha [j Hj]%list_elem_of_lookup]%list_elem_of_filter)%list_elem_of_fmap. by eapply Hp.
  - destruct (lo_root _ _ (inv_ledger m A Hi)) as (t & Ht0 & Ha & _). rewrite (list_lookup_total_correct _ _ _ Ht0). by eapply Ht.
Qed.
End user.
