(* ===== verification/UserVmProps.v ===== *)
(** * User address spaces: the theorems

    From creation on, through every sequence of calls, to destruction.  Module
    [Sixteen] is the machine with sixteen frames of PmmTrace.v. *)

From S2P Require Import Prelude MemoryHelpers MemoryMap Hhdm PmmCore PmmProps PmmInit PmmTrace VmmCore VmmMap VmmSpec VmmTrace.
From S2P Require Import Frames KernelVm PmmFrames UserVm UserVmTree UserVmOps UserVmLife UserVmSpec.
Open Scope Z_scope.

Section props.
Context {P : Type} `{PageFramesLaws P}.
Notation S := (ustate P).
Notation M := (vm S).

Lemma urep_empty (m : M) : urep m ∅ ∅.
Proof. intros k. by rewrite !lookup_empty. Qed.

(** Everything about a state that [ops] lead to. *)
Lemma reached k (m m1 : M) ops : uvm_fresh m -> user_vm_create k m = (m1, true) -> Forall user_args ops ->
  exists A U, created k m m1 /\ uvm_inv (user_run m1 ops) A /\ follows m1 ∅ ops U /\ user_frame m1 (user_run m1 ops).
Proof.
  intros Hf Ec Hargs. destruct (create_spec k m Hf) as [Hyes _]. rewrite Ec in Hyes. specialize (Hyes eq_refl). cbn [fst] in Hyes. pose proof Hyes as (_ & Hi & _).
  destruct (user_run_follows ops m1 ∅ ∅ Hi (urep_empty m1) Hargs) as (A & U & ? & _ & ? & ?). by exists A, U.
Qed.

(** C7. A new address space and any calls on it behave like a map from pages to
    permissions and bytes: every answer, every byte read and every refusal is
    the one the map gives, and a legal request for a page is refused only when
    memory runs short: there is no frame for the page, or not the three page
    tables that a new page may need, for want of frames or by the limit of
    sixty-four tables. *)
Theorem user_vm_refines k (m m1 : M) ops :
  uvm_fresh m -> user_vm_create k m = (m1, true) -> Forall user_args ops -> exists U, follows m1 ∅ ops U.
Proof. intros Hf Ec Hargs. destruct (reached k m m1 ops Hf Ec Hargs) as (A & U & _ & _ & ? & _). by exists U. Qed.

(** C9. After any calls the object passes its own audit and nothing has panicked;
    every frame that the page allocator had given out before is still so with the
    same contents, and the upper half of the root is the kernel's without user access. *)
Theorem user_vm_isolated k (m m1 : M) ops :
  uvm_fresh m -> user_vm_create k m = (m1, true) -> Forall user_args ops ->
  let m2 := user_run m1 ops in
  us_panic (vm_ctx m2) = false /\ ownership_valid m2 = true /\
  (forall g i, allocated (vm_ctx m) g -> allocated (vm_ctx m2) g /\ vm_mem m2 g i = vm_mem m g i) /\
  forall i, 256 <= i < 512 -> vm_mem m2 (vs_root_phys (uv_space (obj m2))) i =
    Z.land (vm_mem m (vinf_root_phys (kv_information k)) i) (not64 VMM_USER).
Proof.
  intros Hf Ec Hargs m2. destruct (reached k m m1 ops Hf Ec Hargs) as (A & U & (_ & _ & Hout & Hkept & Hhigh & _) & Hi & _ & Hfr). fold m2 in Hi, Hfr. split_and!.
  - apply (lo_panic _ _ (inv_ledger m2 A Hi)).
  - by apply (ownership_holds m2 A).
  - intros g i Hg. assert (outside m1 g) as Ho by (by apply Hout). split; [by apply (uf_outside _ _ Hfr) in Ho as [[? _] _]|]. by rewrite (uf_kept _ _ Hfr), Hkept.
  - intros i Hlt. rewrite (uf_space _ _ Hfr), (uf_high _ _ Hfr) by lia. by apply Hhigh.
Qed.

(** C18. [user_vm_destroy] is refused exactly while the space is loaded, and gives
    back all and only the frames the object took: the frames in use are then
    those before the creation, with their contents. *)
Theorem user_vm_no_leak k (m m1 : M) ops :
  uvm_fresh m -> user_vm_create k m = (m1, true) -> Forall user_args ops ->
  let m2 := user_run m1 ops in let r := user_vm_destroy m2 in
  snd r = negb (loaded m2) /\ (snd r = false -> fst r = m2) /\
  (snd r = true -> uvm_fresh (fst r) /\ (forall g, allocated (vm_ctx (fst r)) g <-> allocated (vm_ctx m) g) /\
     forall g i, allocated (vm_ctx m) g -> vm_mem (fst r) g i = vm_mem m g i).
Proof.
  intros Hf Ec Hargs m2 r. destruct (reached k m m1 ops Hf Ec Hargs) as (A & U & (_ & _ & Hout & Hkept & _) & Hi & _ & Hfr). fold m2 in Hi, Hfr.
  destruct (destroy_spec m2 A Hi) as (Hok & Hno & Hyes). fold r in Hok, Hno, Hyes. split_and!; [done|done|]. intros Er. destruct (Hyes Er) as (Hfresh & Hmem & _ & _ & Ha).
  split_and!; [done| |].
  - intros g. by rewrite Ha, (uf_outside _ _ Hfr), Hout.
  - intros g i Hg. rewrite Hmem, (uf_kept _ _ Hfr) by (by apply Hout). by apply Hkept.
Qed.

(** C19. What [user_vm_query] grants at any time: a user page of the lower half that
    is never both writable and executable, in a frame that was free before the
    creation, holds no page table, and backs no second page. *)
Theorem user_vm_protected k (m m1 : M) ops v q :
  uvm_fresh m -> user_vm_create k m = (m1, true) -> Forall user_args ops ->
  let m2 := user_run m1 ops in
  user_vm_query m2 v = Some q -> vp_mapped q = true ->
  valid_address v = true /\ has (vp_flags q) VMM_USER = true /\ ~ (has (vp_flags q) VMM_WRITABLE = true /\ has (vp_flags q) VMM_NX = false) /\
  let g := memory_align_down (vp_physical q) in
  ~ allocated (vm_ctx m) g /\ allocated (vm_ctx m2) g /\ ~ in_tables (vm_ctx m2) g /\
  forall w q', user_vm_query m2 w = Some q' -> vp_mapped q' = true -> memory_align_down (vp_physical q') = g -> w / 4096 = v / 4096.
Proof.
  intros Hf Ec Hargs m2. destruct (reached k m m1 ops Hf Ec Hargs) as (A & U & (_ & _ & Hout & _) & Hi & _ & Hfr). fold m2 in Hi, Hfr.
  assert (forall w q', user_vm_query m2 w = Some q' -> vp_mapped q' = true -> valid_address w = true /\ exists f, user_flags f /\ vp_flags q' = f /\
    A !! (w / 4096) = Some (memory_align_down (vp_physical q'), f)) as Hq.
  { intros w q'. unfold user_vm_query. rewrite (query_spec m2 A w Hi). unfold uspace_query. destruct (valid_address w); [|done]. intros [= <-] Hm. split; [done|].
    destruct (A !! (w / 4096)) as [[g f]|] eqn:E; [|done]. exists f. split_and!; [by apply (po_flags _ _ _ _ _ (ui_pages m2 A Hi) E)|done|]. cbn.
    destruct (data_frame m2 A _ _ _ Hi E) as ([Hgu _] & Hgm & Hgb & _). unfold u64_ok in Hgu. pose proof (Z.mod_pos_bound w 4096). by rewrite frame_base by (done || unfold u64_ok; lia). }
  intros E Hm. destruct (Hq v q E Hm) as (Hv & f & Huf & -> & HA). split_and!; [done|by destruct Huf as [-> | [-> | ->]]|by destruct Huf as [-> | [-> | ->]]; intros []|].
  intros g. fold g in HA. destruct (data_frame m2 A _ _ _ Hi HA) as (Hga & _ & _ & Hgd & Hgt). split_and!; [|done|done|].
  - intros Hg. apply Hout, (uf_outside _ _ Hfr) in Hg as [_ Hg]. done.
  - intros w q' E' Hm' Eg. destruct (Hq w q' E' Hm') as (_ & f' & _ & _ & HA'). rewrite Eg in HA'. by apply (frame_page m2 A _ _ g f' f Hi).
Qed.

(** A refused creation leaves the object blank, all frames as they were, and
    the memory in use untouched. *)
Theorem user_vm_create_refused k (m : M) :
  uvm_fresh m -> snd (user_vm_create k m) = false -> not_created m (fst (user_vm_create k m)).
Proof. intros Hf. exact (proj2 (create_spec k m Hf)). Qed.
End props.

(** ** The machine with sixteen frames *)

Module Sixteen.
Definition direct : hhdm_context := MkHhdm ex_map 0xffff800000000000 (0xfffffff000) true.
Definition boot : machine := MkMachine ex_state direct.

Lemma boot_wf : machine_wf boot.
Proof.
  constructor; cbn.
  - apply ex_wf.
  - exists (MkHhdm (MkMap [] 0 0) 0 0 false), 40. split_and!; [unfold u64_ok, UINT64_MAX; lia|apply ex_map_wf|by vm_compute].
  - intros f [[Hf _]%elem_of_free|[Hf _]%elem_of_allocated]%elem_of_union; change (pmm_span ex_state) with 16 in Hf;
      change ((true && (0 <=? f) && (f <? 16)) || false = true); lia.
Qed.

(** The kernel's root is in a frame of its own. *)
Definition kernel : kernel_vmm := MkKernel true (MkInfo 8192 0xffff800000000000 0xffffffff80000000 1 40 true true true).
Definition start : vm (ustate machine) :=
  MkVm (MkUState user_vm_zero (fst (alloc_page boot)) 8192 0 [] false)
       (fun p i => if (p =? 8192) && ((i =? 384) || (i =? 511)) then 12291 else 0).

Lemma start_fresh : uvm_fresh start.
Proof. constructor; [done| |done]. cbn. by destruct (machine_alloc boot (fst (alloc_page boot)) (snd (alloc_page boot)) boot_wf (surjective_pairing _)) as (? & _). Qed.

Definition created1 : vm (ustate machine) := fst (user_vm_create kernel start).
Lemma start_created : user_vm_create kernel start = (created1, true).
Proof. apply injective_projections; [done|by vm_compute]. Qed.

(** Two pages, a store across their border, and a page that becomes read-only. *)
Definition calls : list user_op :=
  [UAlloc 0x400000 1; UAlloc 0x401000 1; UWrite 0x400ffe [1; 2; 3; 4]; URead 0x400fff 2;
   UProtect 0x401000 0; UWrite 0x400ffe [9; 9; 9; 9]; UUnmap 0x400000; URead 0x401000 2; UAlloc 0x500000 3].

Lemma calls_args : Forall user_args calls.
Proof. repeat constructor; cbn; unfold u64_ok, UINT64_MAX, UINT32_MAX; lia. Qed.

Definition answers (m : vm (ustate machine)) (ops : list user_op) : list user_answer :=
  snd (foldl (fun s op => let r := user_apply (fst s) op in (fst r, snd s ++ [snd r])) (m, []) ops).
End Sixteen.
Import Sixteen.

Lemma user_vm_refines_witness :
  answers created1 calls = [AOk true; AOk true; AOk true; ABytes (Some [2; 3]); AOk true; AOk false; AOk true; ABytes (Some [3; 4]); AOk false] /\
  exists U, follows created1 ∅ calls U.
Proof.
  split; [by vm_compute|]. apply (user_vm_refines kernel start created1 calls); [apply start_fresh|apply start_created|apply calls_args].
Defined.

Lemma user_vm_isolated_witness :
  let m2 := user_run created1 calls in
  ownership_valid m2 = true /\ vm_mem m2 8192 384 = 12291 /\ vm_mem m2 (vs_root_phys (uv_space (obj m2))) 511 = 12291.
Proof.
  destruct (user_vm_isolated kernel start created1 calls start_fresh start_created calls_args) as (_ & H1 & H2 & H3). split_and!.
  - exact H1.
  - destruct (H2 8192 384) as [_ H4]; [|exact H4]. split; [unfold u64_ok, UINT64_MAX; lia|by vm_compute].
  - etrans; [apply (H3 511); lia|]. by vm_compute.
Defined.

Lemma user_vm_no_leak_witness :
  let r := user_vm_destroy (user_run created1 calls) in
  snd r = true /\ uvm_fresh (fst r) /\ is_allocated_page (us_frames (vm_ctx (user_run created1 calls))) 12288 = true /\
  is_allocated_page (us_frames (vm_ctx (fst r))) 12288 = false.
Proof.
  destruct (user_vm_no_leak kernel start created1 calls start_fresh start_created calls_args) as (_ & _ & H3).
  assert (snd (user_vm_destroy (user_run created1 calls)) = true) as E by (by vm_compute).
  destruct (H3 E) as (H4 & H5 & _). split_and!; [exact E|exact H4|by vm_compute|].
  apply not_true_iff_false. intros Ha. assert (u64_ok 12288) as Hu by (unfold u64_ok, UINT64_MAX; lia).
  destruct (proj1 (H5 12288) (conj Hu Ha)) as [_ Hb]. by vm_compute in Hb.
Defined.

Lemma user_vm_protected_witness :
  exists q, user_vm_query (user_run created1 calls) 0x401004 = Some q /\ vp_mapped q = true /\
    ~ allocated (vm_ctx start) (memory_align_down (vp_physical q)).
Proof.
  destruct (user_vm_query (user_run created1 calls) 0x401004) as [q|] eqn:E; [|by vm_compute in E].
  assert (vp_mapped q = true) as Hm by (assert (vp_mapped <$> user_vm_query (user_run created1 calls) 0x401004 = Some true) as E' by (by vm_compute); rewrite E in E'; by injection E').
  exists q. split_and!; [done|done|].
  apply (user_vm_protected kernel start created1 calls 0x401004 q start_fresh start_created calls_args E Hm).
Defined.

Lemma user_vm_create_refused_witness :
  let k := MkKernel false (kv_information kernel) in
  snd (user_vm_create k start) = false /\ not_created start (fst (user_vm_create k start)).
Proof. split; [by vm_compute|]. apply user_vm_create_refused; [apply start_fresh|by vm_compute]. Defined.
