(* ===== verification/ElfLoad.v ===== *)
(** * Loading an executable (kernel/core/elf_load.c)

    [elf_load] validates an image (Elf.v), creates an address space (UserVm.v),
    fills it page by page and destroys it again when anything fails.  The image
    is a function from positions to bytes, as in Elf.v; the argument is the
    memory behind the pointer, of which a zero ends the string. *)

From S2P Require Import Prelude MemoryHelpers Elf VmmCore VmmMap VmmSpec VmmTrace Frames KernelVm UserVm UserVmTree UserVmOps UserVmLife UserVmSpec.
Open Scope Z_scope.

Definition UTAMO_EXEC_ARG_MAX : nat := 256.

(** The bytes of a file from [p] on. *)
Definition slice (image : Z -> Z) (p n : Z) : list Z := (fun i => image (p + i)) <$> seqZ 0 n.

(** The length of the argument, at most [UTAMO_EXEC_ARG_MAX]. *)
Fixpoint argument_length (argument : Z -> Z) (n : nat) (i : Z) : Z :=
  match n with
  | O => i
  | S n => if argument i =? 0 then i else argument_length argument n (i + 1)
  end.

Section load.
Context {P : Type} `{PageFrames P}.
Notation M := (vm (ustate P)).

(** [for (va = first; good && va < last; va += 4096)], [fuel] pages at most. *)
Fixpoint for_pages (fuel : nat) (f : M -> Z -> M * bool) (m : M) (va last : Z) : M * bool :=
  match fuel with
  | O => (m, true)
  | S fuel =>
      if va <? last then
        match f m va with
        | (m, true) => for_pages fuel f m (va +u 4096) last
        | (m, false) => (m, false)
        end
      else (m, true)
  end.

(** The loop that copies the file part of a segment. *)
Fixpoint copy_file (fuel : nat) (image : Z -> Z) (s : elf_segment) (m : M) (copied : Z) : M * bool :=
  match fuel with
  | O => (m, true)
  | S fuel =>
      if copied <? es_file_size s then
        let left := es_file_size s -u copied in
        let bytes := if left <? USER_VM_COPY_LIMIT then left else USER_VM_COPY_LIMIT in
        match user_vm_copy_to m (es_address s +u copied) (slice image (es_offset s +u copied) bytes) with
        | (m, true) => copy_file fuel image s m (copied +u bytes)
        | (m, false) => (m, false)
        end
      else (m, true)
  end.

(** Pages of the ledger, and chunks of a file of the largest size. *)
Definition page_fuel : nat := UserVm.USER_VM_PAGE_LIMIT.
Definition file_fuel : nat := Z.to_nat (UTAMO_ELF_FILE_LIMIT / USER_VM_COPY_LIMIT).

(** One segment. *)
Definition map_segment (image : Z -> Z) (m : M) (s : elf_segment) : M * bool :=
  match for_pages page_fuel (fun m va => user_vm_alloc_page m va UserVm.USER_VM_WRITE) m (es_page_start s) (es_page_end s) with
  | (m, false) => (m, false)
  | (m, true) =>
      match copy_file file_fuel image s m 0 with
      | (m, false) => (m, false)
      | (m, true) => for_pages page_fuel (fun m va => user_vm_protect_page m va (es_access s)) m (es_page_start s) (es_page_end s)
      end
  end.

Fixpoint map_segments (image : Z -> Z) (m : M) (segments : list elf_segment) : M * bool :=
  match segments with
  | [] => (m, true)
  | s :: segments =>
      match map_segment image m s with
      | (m, true) => map_segments image m segments
      | (m, false) => (m, false)
      end
  end.

(** The stack, from its top page down. *)
Fixpoint map_stack (n : nat) (m : M) (i : Z) : M * bool :=
  match n with
  | O => (m, true)
  | S n =>
      match user_vm_alloc_page m (UTAMO_EXEC_STACK_TOP -u (i +u 1) *u 4096) UserVm.USER_VM_WRITE with
      | (m, true) => map_stack n m (i + 1)
      | (m, false) => (m, false)
      end
  end.

(** Everything between the creation and the answer. *)
Definition map_program (plan : elf_plan) (image : Z -> Z) (argument : Z -> Z) (length : Z) (m : M) : M * bool :=
  match map_segments image m (ep_segments plan) with
  | (m, false) => (m, false)
  | (m, true) =>
      match map_stack (Z.to_nat UTAMO_EXEC_STACK_PAGES) m 0 with
      | (m, false) => (m, false)
      | (m, true) => user_vm_copy_to m (UTAMO_EXEC_STACK_TOP -u Z.of_nat UTAMO_EXEC_ARG_MAX) (slice argument 0 (length + 1))
      end
  end.

(** The entry point, the stack pointer and the address of the argument. *)
Record loaded_program := MkLoaded { lp_entry : Z; lp_rsp : Z; lp_argument : Z }.

Definition elf_load (k : kernel_vmm) (m : M) (image : Z -> Z) (size : Z) (argument : Z -> Z) : M * option loaded_program :=
  if uv_initialized (obj m) then (m, None)
  else match elf_validate image size with
  | None => (m, None)
  | Some plan =>
      let length := argument_length argument UTAMO_EXEC_ARG_MAX 0 in
      if length =? Z.of_nat UTAMO_EXEC_ARG_MAX then (m, None)
      else match user_vm_create k m with
      | (m, false) => (m, None)
      | (m, true) =>
          match map_program plan image argument length m with
          | (m, false) =>
              match user_vm_destroy m with
              | (m, true) => (m, None)
              | (m, false) => (in_ctx panic m, None)
              end
          | (m, true) =>
              let arg := UTAMO_EXEC_STACK_TOP -u Z.of_nat UTAMO_EXEC_ARG_MAX in
              (m, Some (MkLoaded (ep_entry plan) (arg -u 16) arg))
          end
      end
  end.
End load.

(** ** The memory of the program, as the image describes it *)

Definition in_pages (s : elf_segment) (k : Z) : bool := (es_page_start s <=? k * 4096) && (k * 4096 <? es_page_end s).

Definition segment_byte (image : Z -> Z) (s : elf_segment) (a : Z) : Z :=
  if (es_address s <=? a) && (a <? es_address s + es_file_size s) then u8 (image (es_offset s + (a - es_address s))) else 0.

Definition stack_byte (argument : Z -> Z) (length a : Z) : Z :=
  let arg := UTAMO_EXEC_STACK_TOP - Z.of_nat UTAMO_EXEC_ARG_MAX in
  if (arg <=? a) && (a <? arg + length + 1) then u8 (argument (a - arg)) else 0.

Definition program_page (plan : elf_plan) (image argument : Z -> Z) (length k : Z) : option (Z * (Z -> Z)) :=
  match List.find (fun s => in_pages s k) (ep_segments plan) with
  | Some s => Some (access_flags (es_access s), fun o => segment_byte image s (k * 4096 + o))
  | None =>
      if (UTAMO_EXEC_STACK_TOP - UTAMO_EXEC_STACK_PAGES * 4096 <=? k * 4096) && (k * 4096 <? UTAMO_EXEC_STACK_TOP)
      then Some (access_flags UserVm.USER_VM_WRITE, fun o => stack_byte argument length (k * 4096 + o))
      else None
  end.
