(* ===== verification/ElfLoadProps.v ===== *)
(** * Loading an executable: what the program finds in its memory

    [shows m E]: the live space of [m] has exactly the pages [E], with their
    permissions and bytes.  The loops of [elf_load] build the pages that the
    image describes; a failure on the way gives everything back. *)

From S2P Require Import Prelude MemoryHelpers MemoryMap Hhdm PmmCore PmmProps PmmTrace Elf VmmCore VmmMap VmmSpec VmmTrace Frames KernelVm PmmFrames.
From S2P Require Import UserVm UserVmTree UserVmOps UserVmLife UserVmSpec UserVmFrame UserVmProps ElfLoad.
Open Scope Z_scope.

Notation pages := (Z -> option (Z * (Z -> Z))).

Section shows.
Context {P : Type} `{PageFramesLaws P}.
Notation M := (vm (ustate P)).

Definition shows (m : M) (E : pages) : Prop := exists A, uvm_inv m A /\ forall k, upage_rep m (A !! k) (E k).

(** The same pages, byte for byte. *)
Definition same_page_at (e e' : option (Z * (Z -> Z))) : Prop :=
  match e, e' with
  | Some (f, c), Some (f', c') => f = f' /\ forall o, 0 <= o < 4096 -> c o = c' o
  | None, None => True
  | _, _ => False
  end.

Lemma shows_ext m E E' : shows m E -> (forall k, same_page_at (E k) (E' k)) -> shows m E'.
Proof.
  intros (A & Hi & Hr) Hs. exists A. split; [done|]. intros k. specialize (Hr k). specialize (Hs k). destruct (A !! k) as [[g f]|], (E k) as [[f1 c1]|], (E' k) as [[f2 c2]|]; cbn in *; try done.
  destruct Hr as [-> Hc], Hs as [-> Hd]. split; [done|]. intros o Ho. by rewrite Hc, Hd.
Qed.

Lemma shows_rep m E : shows m E -> exists A U, uvm_inv m A /\ urep m A U /\ forall k, U !! k = E k.
Proof.
  intros (A & Hi & Hr). exists A, (map_imap (fun k _ => E k) A). assert (forall k, map_imap (fun k _ => E k) A !! k = E k) as HU.
  { intros k. rewrite map_lookup_imap. specialize (Hr k). by destruct (A !! k) as [[]|], (E k) as [[]|]. }
  split_and!; [done| |done]. intros k. by rewrite HU.
Qed.

Lemma shows_of m A (U : uspace) E : uvm_inv m A -> urep m A U -> (forall k, same_page_at (U !! k) (E k)) -> shows m E.
Proof. intros Hi Hu Hs. apply (shows_ext m (fun k => U !! k)); [|done]. by exists A. Qed.

Lemma same_page_refl e : same_page_at e e.
Proof. by destruct e as [[]|]. Qed.

(** Any call leaves a live space behind. *)
Definition alive (m0 m : M) : Prop := (exists E, shows m E) /\ user_frame m0 m /\ pins_kept m0 m.

Lemma alive_refl m E : shows m E -> alive m m.
Proof. intros Hs. split_and!; [by exists E|apply user_frame_refl|apply pins_refl]. Qed.

Lemma alive_trans m0 m1 m2 : alive m0 m1 -> alive m1 m2 -> alive m0 m2.
Proof. intros (_ & H1 & P1) (H2 & H3 & P2). split_and!; [done|by eapply user_frame_trans|by eapply pins_trans]. Qed.

(** One call, through the simulation. *)
Lemma call_alive m E op : shows m E -> user_args op -> alive m (fst (user_apply m op)) /\
  exists A U A' U', (forall k, U !! k = E k) /\ uvm_inv m A /\ uvm_inv (fst (user_apply m op)) A' /\ urep (fst (user_apply m op)) A' U' /\ uspec (starved m) U op (snd (user_apply m op)) U'.
Proof.
  intros Hs Ha. destruct (shows_rep m E Hs) as (A & U & Hi & Hu & HU). destruct (user_step m A U Hi Hu op Ha) as (A' & U' & Hi' & Hu' & Hsp & Hfr).
  split; [split_and!; [exists (fun k => U' !! k); by exists A'|done|by apply (apply_pins m A)]|]. by exists A, U, A', U'.
Qed.

Lemma shows_alloc m E v a m' ok : shows m E -> u64_ok v -> 0 <= a <= UINT32_MAX -> user_vm_alloc_page m v a = (m', ok) ->
  alive m m' /\ (ok = true -> shows m' (fun k => if k =? v / 4096 then Some (access_flags a, fun _ => 0) else E k)).
Proof.
  intros Hs Hv Ha Ec. destruct (call_alive m E (UAlloc v a) Hs (conj Hv Ha)) as (Hal & A & U & A' & U' & HU & Hi & Hi' & Hu' & Hsp). cbn [user_apply] in *. rewrite Ec in *. cbn [fst snd] in *.
  split; [done|]. intros ->. destruct Hsp as [_ ->]. apply (shows_of m' A' _ _ Hi' Hu'). intros k. destruct (Z.eqb_spec k (v / 4096)) as [->|Hne].
  - rewrite lookup_insert_eq. by cbn.
  - rewrite lookup_insert_ne, HU by done. apply same_page_refl.
Qed.

Lemma shows_write m E v src m' ok : shows m E -> u64_ok v -> u64_ok (Z.of_nat (length src)) -> user_vm_copy_to m v src = (m', ok) ->
  alive m m' /\ (ok = true -> shows m' (fun k => ustore v src k <$> E k)).
Proof.
  intros Hs Hv Hn Ec. destruct (call_alive m E (UWrite v src) Hs (conj Hv Hn)) as (Hal & A & U & A' & U' & HU & Hi & Hi' & Hu' & Hsp). cbn [user_apply] in *. rewrite Ec in *. cbn [fst snd] in *.
  split; [done|]. intros ->. destruct Hsp as [_ ->]. apply (shows_of m' A' _ _ Hi' Hu'). intros k. unfold uwrite. rewrite map_lookup_imap, HU.
  destruct (E k); [|done]. apply same_page_refl.
Qed.

Lemma shows_protect m E v a m' ok : shows m E -> u64_ok v -> 0 <= a <= UINT32_MAX -> user_vm_protect_page m v a = (m', ok) ->
  alive m m' /\ (ok = true -> shows m' (fun k => if k =? v / 4096 then (fun e => (access_flags a, snd e)) <$> E k else E k)).
Proof.
  intros Hs Hv Ha Ec. destruct (call_alive m E (UProtect v a) Hs (conj Hv Ha)) as (Hal & A & U & A' & U' & HU & Hi & Hi' & Hu' & Hsp). cbn [user_apply] in *. rewrite Ec in *. cbn [fst snd] in *.
  split; [done|]. intros ->. destruct Hsp as [_ ->]. apply (shows_of m' A' _ _ Hi' Hu'). intros k. rewrite lookup_alter, !HU.
  destruct (Z.eqb_spec k (v / 4096)) as [->|]; [rewrite decide_True by done|rewrite decide_False by congruence]; apply same_page_refl.
Qed.

(** ** The loops *)

Lemma loop_pages (f : M -> Z -> M * bool) (tr : option (Z * (Z -> Z)) -> option (Z * (Z -> Z))) :
  (forall m E v m' ok, shows m E -> u64_ok v -> f m v = (m', ok) -> alive m m' /\ (ok = true -> shows m' (fun k => if k =? v / 4096 then tr (E k) else E k))) ->
  forall fuel m E va last m' ok, shows m E -> va mod 4096 = 0 -> last mod 4096 = 0 -> 0 <= va -> last <= USER_VM_END -> last - va <= Z.of_nat fuel * 4096 ->
  for_pages fuel f m va last = (m', ok) ->
  alive m m' /\ (ok = true -> shows m' (fun k => if (va <=? k * 4096) && (k * 4096 <? last) then tr (E k) else E k)).
Proof.
  intros Hf. induction fuel as [|fuel IH]; intros m E va last m' ok Hs Hva Hla Hpos Hl Hn; cbn [for_pages].
  { intros [= <- <-]. split; [by eapply alive_refl|]. intros _. apply (shows_ext m E _ Hs). intros k. destruct (Z.leb_spec va (k * 4096)), (Z.ltb_spec (k * 4096) last); try lia; apply same_page_refl. }
  destruct (Z.ltb_spec va last) as [Hlt|Hge]; cycle 1.
  { intros [= <- <-]. split; [by eapply alive_refl|]. intros _. apply (shows_ext m E _ Hs). intros k. destruct (Z.leb_spec va (k * 4096)), (Z.ltb_spec (k * 4096) last); try lia; apply same_page_refl. }
  unfold USER_VM_END in Hl. destruct (f m va) as [m1 ok1] eqn:Ef. destruct (Hf m E va m1 ok1 Hs) as [Hal1 Hs1]; [unfold u64_ok, UINT64_MAX; lia|done|].
  destruct ok1; [|by intros [= <- <-]]. specialize (Hs1 eq_refl). rewrite u64_small by (unfold u64_ok, UINT64_MAX; lia). intros El.
  destruct (IH m1 _ (va + 4096) last m' ok Hs1) as [Hal2 Hs2]; [dlia|done|lia|unfold USER_VM_END; lia|lia|done|]. split; [by eapply alive_trans|]. intros ->.
  apply (shows_ext m' _ _ (Hs2 eq_refl)). intros k. pose proof (Z.div_mod va 4096).
  destruct (Z.leb_spec (va + 4096) (k * 4096)), (Z.leb_spec va (k * 4096)), (Z.ltb_spec (k * 4096) last), (Z.eqb_spec k (va / 4096)); cbn [andb]; try lia; apply same_page_refl.
Qed.

Lemma alloc_loop fuel m E va last m' ok : shows m E -> va mod 4096 = 0 -> last mod 4096 = 0 -> 0 <= va -> last <= USER_VM_END -> last - va <= Z.of_nat fuel * 4096 ->
  for_pages fuel (fun m va => user_vm_alloc_page m va UserVm.USER_VM_WRITE) m va last = (m', ok) ->
  alive m m' /\ (ok = true -> shows m' (fun k => if (va <=? k * 4096) && (k * 4096 <? last) then Some (access_flags UserVm.USER_VM_WRITE, fun _ => 0) else E k)).
Proof.
  apply (loop_pages _ (fun _ => Some (access_flags UserVm.USER_VM_WRITE, fun _ => 0))). clear. intros m E v m' ok Hs Hv. by apply shows_alloc.
Qed.

Lemma protect_loop fuel a m E va last m' ok : 0 <= a <= UINT32_MAX -> shows m E -> va mod 4096 = 0 -> last mod 4096 = 0 -> 0 <= va -> last <= USER_VM_END -> last - va <= Z.of_nat fuel * 4096 ->
  for_pages fuel (fun m va => user_vm_protect_page m va a) m va last = (m', ok) ->
  alive m m' /\ (ok = true -> shows m' (fun k => if (va <=? k * 4096) && (k * 4096 <? last) then (fun e => (access_flags a, snd e)) <$> E k else E k)).
Proof.
  intros Ha. apply (loop_pages _ (fmap (fun e => (access_flags a, snd e)))). intros m0 E0 v m1 ok1 Hs Hv. by apply shows_protect.
Qed.

(** A page with the bytes of the file from [copied] on. *)
Definition filled (image : Z -> Z) (s : elf_segment) (copied k : Z) (e : Z * (Z -> Z)) : Z * (Z -> Z) :=
  (fst e, fun o => let a := k * 4096 + o in
     if (es_address s + copied <=? a) && (a <? es_address s + es_file_size s) then u8 (image (es_offset s + (a - es_address s))) else snd e o).

Lemma slice_get image p n i : 0 <= i < n -> arr_get (slice image p n) i = image (p + i).
Proof. intros Hi. unfold arr_get, slice. apply list_lookup_total_correct. rewrite list_lookup_fmap, lookup_seqZ_lt by lia. cbn. do 2 f_equal. lia. Qed.

Lemma slice_size image p n : 0 <= n -> Z.of_nat (length (slice image p n)) = n.
Proof. intros Hn. unfold slice. rewrite length_fmap, length_seqZ. lia. Qed.

Lemma filled_nothing image s copied k (e : option (Z * (Z -> Z))) : es_file_size s <= copied -> same_page_at e (filled image s copied k <$> e).
Proof.
  intros Hc. destruct e as [[f c]|]; [|done]. split; [done|]. intros o Ho. cbn.
  destruct (Z.leb_spec (es_address s + copied) (k * 4096 + o)), (Z.ltb_spec (k * 4096 + o) (es_address s + es_file_size s)); try lia; done.
Qed.

Lemma file_loop image s size : segment_wf size s -> size <= UTAMO_ELF_FILE_LIMIT -> forall fuel m E copied m' ok, shows m E -> 0 <= copied -> es_file_size s - copied <= Z.of_nat fuel * USER_VM_COPY_LIMIT ->
  copy_file fuel image s m copied = (m', ok) -> alive m m' /\ (ok = true -> shows m' (fun k => filled image s copied k <$> E k)).
Proof.
  intros Hw Hsz. destruct (sw_file _ _ Hw) as (Ho & Hfs & Hof), (sw_memory _ _ Hw) as [_ Hmm], (sw_cover _ _ Hw) as [Hc1 Hc2], (sw_user _ _ Hw) as [Hu1 Hu2].
  unfold UTAMO_ELF_FILE_LIMIT, Elf.USER_VM_MIN, Elf.USER_VM_END, USER_VM_COPY_LIMIT in *. induction fuel as [|fuel IH]; intros m E copied m' ok Hs Hpos Hn; cbn [copy_file].
  { intros [= <- <-]. split; [by eapply alive_refl|]. intros _. apply (shows_ext m E _ Hs). intros k. apply filled_nothing. lia. }
  destruct (Z.ltb_spec copied (es_file_size s)) as [Hlt|Hge]; [|intros [= <- <-]; split; [by eapply alive_refl|]; intros _; apply (shows_ext m E _ Hs); intros k; by apply filled_nothing].
  rewrite (u64_small (es_file_size s - copied)) by (unfold u64_ok, UINT64_MAX; lia). set (n := if _ <? _ then _ else _).
  assert (0 < n <= 65536 /\ copied + n <= es_file_size s /\ (n = es_file_size s - copied \/ n = 65536)) as (Hn1 & Hn2 & Hn3).
  { unfold n, USER_VM_COPY_LIMIT. destruct (Z.ltb_spec (es_file_size s - copied) 65536); lia. }
  rewrite (u64_small (es_address s + copied)), (u64_small (es_offset s + copied)), (u64_small (copied + n)) by (unfold u64_ok, UINT64_MAX; lia).
  destruct (user_vm_copy_to m _ _) as [m1 ok1] eqn:Ef.
  destruct (shows_write m E (es_address s + copied) (slice image (es_offset s + copied) n) m1 ok1 Hs ltac:(unfold u64_ok, UINT64_MAX; lia) ltac:(rewrite slice_size by lia; unfold u64_ok, UINT64_MAX; lia) Ef) as [Hal1 Hs1].
  destruct ok1; [|by intros [= <- <-]]. specialize (Hs1 eq_refl). intros El.
  destruct (IH m1 _ (copied + n) m' ok Hs1 ltac:(lia) ltac:(lia) El) as [Hal2 Hs2]. split; [by eapply alive_trans|]. intros ->.
  apply (shows_ext m' _ _ (Hs2 eq_refl)). intros k. destruct (E k) as [[f c]|]; [|done]. split; [done|]. intros o Hoo. cbn. rewrite slice_size by lia.
  destruct (Z.leb_spec (es_address s + (copied + n)) (k * 4096 + o)), (Z.ltb_spec (k * 4096 + o) (es_address s + es_file_size s)), (Z.leb_spec (es_address s + copied) (k * 4096 + o)),
    (Z.ltb_spec (k * 4096 + o) (es_address s + copied + n)); cbn [andb]; try lia; try done.
  rewrite slice_get by lia. do 2 f_equal. lia.
Qed.

Definition segment_page (image : Z -> Z) (s : elf_segment) (k : Z) : Z * (Z -> Z) :=
  (access_flags (es_access s), fun o => segment_byte image s (k * 4096 + o)).

(** A segment: its pages, the bytes of the file and zeros. *)
Lemma segment_mapped image s size m E m' ok : segment_wf size s -> size <= UTAMO_ELF_FILE_LIMIT -> segment_pages s <= 112 -> shows m E ->
  map_segment image m s = (m', ok) -> alive m m' /\ (ok = true -> shows m' (fun k => if in_pages s k then Some (segment_page image s k) else E k)).
Proof.
  intros Hw Hsz Hpg Hs. destruct (sw_pages _ _ Hw) as [Hp1 Hp2], (sw_user _ _ Hw) as [Hu1 Hu2], (sw_file _ _ Hw) as (Ho & Hfs & Hof), (sw_cover _ _ Hw) as [Hc1 Hc2], (sw_memory _ _ Hw) as [Hm1 Hm2].
  assert (es_page_end s - es_page_start s <= Z.of_nat page_fuel * 4096) as Hfuel.
  { unfold segment_pages in Hpg. change (Z.of_nat page_fuel) with 128. dlia. }
  assert (0 <= es_access s <= UINT32_MAX) as Hacc by (destruct (sw_access _ _ Hw) as [-> | [-> | ->]]; unfold UINT32_MAX, Elf.USER_VM_WRITE, Elf.USER_VM_EXEC; lia).
  unfold Elf.USER_VM_MIN, Elf.USER_VM_END in *. unfold map_segment. destruct (for_pages _ _ m _ _) as [m1 ok1] eqn:E1.
  destruct (alloc_loop page_fuel m E _ _ m1 ok1 Hs Hp1 Hp2 ltac:(lia) Hu2 Hfuel E1) as [Hal1 Hs1]. destruct ok1; [|by intros [= <- <-]]. specialize (Hs1 eq_refl).
  destruct (copy_file _ image s m1 0) as [m2 ok2] eqn:E2.
  destruct (file_loop image s size Hw Hsz file_fuel m1 _ 0 m2 ok2 Hs1) as [Hal2 Hs2]; [lia| |done|].
  { change (Z.of_nat file_fuel) with 16. unfold UTAMO_ELF_FILE_LIMIT, USER_VM_COPY_LIMIT in *. lia. }
  destruct ok2; [|intros [= <- <-]; split; [by eapply alive_trans|done]]. specialize (Hs2 eq_refl). intros E3.
  destruct (protect_loop page_fuel _ m2 _ _ _ m' ok Hacc Hs2 Hp1 Hp2 ltac:(lia) Hu2 Hfuel E3) as [Hal3 Hs3]. split; [by eapply alive_trans, alive_trans|].
  intros ->. apply (shows_ext m' _ _ (Hs3 eq_refl)). intros k. unfold in_pages. destruct ((es_page_start s <=? k * 4096) && (k * 4096 <? es_page_end s)) eqn:Ek.
  - cbn. split; [done|]. intros o Hoo. unfold segment_byte. by rewrite Z.add_0_r.
  - destruct (E k) as [[f c]|]; [|done]. cbn. split; [done|]. intros o Hoo. rewrite Z.add_0_r.
    destruct (Z.leb_spec (es_address s) (k * 4096 + o)), (Z.ltb_spec (k * 4096 + o) (es_address s + es_file_size s)); cbn [andb]; try done.
    exfalso. dlia.
Qed.

Lemma total_pages_bound s segments : Forall (fun s => 0 <= segment_pages s) segments -> s ∈ segments -> segment_pages s <= total_pages segments.
Proof.
  unfold total_pages. induction segments as [|t l IH]; intros Hf Hin; [by apply elem_of_nil in Hin|]. inversion Hf as [|? ? Ht Hl]; subst. cbn [foldr].
  assert (0 <= foldr (fun s n => segment_pages s + n) 0 l) by (clear -Hl; induction Hl; cbn [foldr]; lia). apply elem_of_cons in Hin as [->|Hin]; [lia|]. specialize (IH Hl Hin). lia.
Qed.

Lemma segments_mapped image size segments : size <= UTAMO_ELF_FILE_LIMIT -> forall m E m' ok, Forall (segment_wf size) segments -> Forall (fun s => segment_pages s <= 112) segments ->
  ForallOrdPairs pages_apart segments -> shows m E -> map_segments image m segments = (m', ok) ->
  alive m m' /\ (ok = true -> shows m' (fun k => match List.find (fun s => in_pages s k) segments with Some s => Some (segment_page image s k) | None => E k end)).
Proof.
  intros Hsz. induction segments as [|s l IH]; intros m E m' ok Hw Hpg Hap Hs; cbn [map_segments].
  { intros [= <- <-]. split; [by eapply alive_refl|done]. }
  inversion Hw as [|? ? Hw1 Hw2]; inversion Hpg as [|? ? Hp1 Hp2]; inversion Hap as [|? ? Ha1 Ha2]; subst. destruct (map_segment image m s) as [m1 ok1] eqn:E1.
  destruct (segment_mapped image s size m E m1 ok1 Hw1 Hsz Hp1 Hs E1) as [Hal1 Hs1]. destruct ok1; [|by intros [= <- <-]]. intros E2.
  destruct (IH m1 _ m' ok Hw2 Hp2 Ha2 (Hs1 eq_refl) E2) as [Hal2 Hs2]. split; [by eapply alive_trans|]. intros ->. apply (shows_ext m' _ _ (Hs2 eq_refl)).
  intros k. cbn [List.find]. destruct (in_pages s k) eqn:Ek; [|apply same_page_refl]. destruct (List.find _ l) as [t|] eqn:Ef; [|apply same_page_refl]. exfalso.
  apply List.find_some in Ef as [Ht Hk]. rewrite Forall_forall in Ha1. apply list_elem_of_In in Ht. specialize (Ha1 t Ht). unfold pages_apart, in_pages in *. lia.
Qed.

Lemma stack_mapped n : forall m E i m' ok, shows m E -> 0 <= i -> i + Z.of_nat n <= 16 -> map_stack n m i = (m', ok) ->
  alive m m' /\ (ok = true -> shows m' (fun k =>
    if (UTAMO_EXEC_STACK_TOP - (i + Z.of_nat n) * 4096 <=? k * 4096) && (k * 4096 <? UTAMO_EXEC_STACK_TOP - i * 4096) then Some (access_flags UserVm.USER_VM_WRITE, fun _ => 0) else E k)).
Proof.
  unfold UTAMO_EXEC_STACK_TOP. induction n as [|n IH]; intros m E i m' ok Hs Hi Hn; cbn [map_stack].
  { intros [= <- <-]. split; [by eapply alive_refl|]. intros _. apply (shows_ext m E _ Hs). intros k. destruct (Z.leb_spec (0x70000000 - (i + Z.of_nat 0) * 4096) (k * 4096)), (Z.ltb_spec (k * 4096) (0x70000000 - i * 4096)); try lia; apply same_page_refl. }
  rewrite (u64_small (i + 1)), (u64_small ((i + 1) * 4096)), (u64_small (_ - _)) by (unfold u64_ok, UINT64_MAX, UTAMO_EXEC_STACK_TOP; lia). unfold UTAMO_EXEC_STACK_TOP.
  destruct (user_vm_alloc_page m _ _) as [m1 ok1] eqn:E1.
  destruct (shows_alloc m E (0x70000000 - (i + 1) * 4096) UserVm.USER_VM_WRITE m1 ok1 Hs ltac:(unfold u64_ok, UINT64_MAX; lia) ltac:(unfold UserVm.USER_VM_WRITE, UINT32_MAX; lia) E1) as [Hal1 Hs1].
  destruct ok1; [|by intros [= <- <-]]. intros E2. destruct (IH m1 _ (i + 1) m' ok (Hs1 eq_refl) ltac:(lia) ltac:(lia) E2) as [Hal2 Hs2]. split; [by eapply alive_trans|]. intros ->.
  apply (shows_ext m' _ _ (Hs2 eq_refl)). intros k. replace (0x70000000 - (i + 1) * 4096) with ((0x70000 - (i + 1)) * 4096) by lia. rewrite Z.div_mul by done.
  destruct (Z.leb_spec (0x70000000 - (i + 1 + Z.of_nat n) * 4096) (k * 4096)), (Z.leb_spec (0x70000000 - (i + Z.of_nat (Datatypes.S n)) * 4096) (k * 4096)), (Z.eqb_spec k (0x70000 - (i + 1))),
    (Z.ltb_spec (k * 4096) ((0x70000 - (i + 1)) * 4096)), (Z.ltb_spec (k * 4096) (0x70000000 - i * 4096)); cbn [andb]; try lia; apply same_page_refl.
Qed.

Lemma argument_length_spec argument n : forall i, 0 <= i -> i <= argument_length argument n i <= i + Z.of_nat n.
Proof. induction n as [|n IH]; intros i Hi; cbn [argument_length]; [lia|]. destruct (_ =? 0); [lia|]. specialize (IH (i + 1)). lia. Qed.

(** Everything [elf_load] puts into a new space. *)
Lemma program_mapped plan image argument len size m m' ok : 0 <= size -> elf_validate image size = Some plan -> 0 <= len < 256 -> shows m (fun _ => None) ->
  map_program plan image argument len m = (m', ok) -> alive m m' /\ (ok = true -> shows m' (program_page plan image argument len)).
Proof.
  intros Hsz Hv Hlen Hs. destruct (validate_plan image size plan Hsz Hv) as (Hlim & _ & Hw & Hap & Htot & Hpg & _).
  assert (Forall (fun s => segment_pages s <= 112) (ep_segments plan)) as Hp.
  { rewrite Forall_forall. intros s Hin. etrans; [apply (total_pages_bound s (ep_segments plan)); [|done]|unfold Elf.USER_VM_PAGE_LIMIT, UTAMO_EXEC_STACK_PAGES in *; lia].
    rewrite Forall_forall. intros t Ht. rewrite Forall_forall in Hw. destruct (sw_cover _ _ (Hw t Ht)), (sw_memory _ _ (Hw t Ht)). unfold segment_pages. apply Z.div_pos; lia. }
  unfold map_program. destruct (map_segments image m (ep_segments plan)) as [m1 ok1] eqn:E1.
  destruct (segments_mapped image size _ Hlim m _ m1 ok1 Hw Hp Hap Hs E1) as [Hal1 Hs1]. destruct ok1; [|by intros [= <- <-]]. specialize (Hs1 eq_refl).
  destruct (map_stack _ m1 0) as [m2 ok2] eqn:E2. destruct (stack_mapped (Z.to_nat UTAMO_EXEC_STACK_PAGES) m1 _ 0 m2 ok2 Hs1 ltac:(lia) ltac:(unfold UTAMO_EXEC_STACK_PAGES; lia) E2) as [Hal2 Hs2].
  destruct ok2; [|intros [= <- <-]; split; [by eapply alive_trans|done]]. specialize (Hs2 eq_refl). change (UTAMO_EXEC_STACK_TOP -u Z.of_nat UTAMO_EXEC_ARG_MAX) with 0x6fffff00. intros E3.
  destruct (shows_write m2 _ 0x6fffff00 (slice argument 0 (len + 1)) m' ok Hs2 ltac:(unfold u64_ok, UINT64_MAX; lia) ltac:(rewrite slice_size by lia; unfold u64_ok, UINT64_MAX; lia) E3) as [Hal3 Hs3].
  split; [by eapply alive_trans, alive_trans|]. intros ->. apply (shows_ext m' _ _ (Hs3 eq_refl)). intros k. unfold program_page.
  change (UTAMO_EXEC_STACK_TOP - (0 + Z.of_nat (Z.to_nat UTAMO_EXEC_STACK_PAGES)) * 4096) with 0x6fff0000. change (UTAMO_EXEC_STACK_TOP - 0 * 4096) with 0x70000000.
  change (UTAMO_EXEC_STACK_TOP - UTAMO_EXEC_STACK_PAGES * 4096) with 0x6fff0000. change UTAMO_EXEC_STACK_TOP with 0x70000000.
  destruct (List.find _ (ep_segments plan)) as [s|] eqn:Ef.
  - apply List.find_some in Ef as [Hin Hk]. apply list_elem_of_In in Hin. rewrite Forall_forall in Hw. specialize (Hw s Hin). unfold in_pages in Hk.
    pose proof (sw_stack _ _ Hw) as Hst. change UTAMO_EXEC_STACK_TOP with 0x70000000 in Hst. change UTAMO_EXEC_STACK_GUARD with 0x6ffef000 in Hst. destruct (sw_pages _ _ Hw) as [Hm1 Hm2].
    assert ((0x6fff0000 <=? k * 4096) && (k * 4096 <? 0x70000000) = false) as -> by lia. split; [done|]. intros o Ho. cbn. rewrite slice_size by lia.
    destruct (Z.leb_spec 0x6fffff00 (k * 4096 + o)), (Z.ltb_spec (k * 4096 + o) (0x6fffff00 + (len + 1))); cbn [andb]; try done. exfalso. dlia.
  - destruct ((0x6fff0000 <=? k * 4096) && (k * 4096 <? 0x70000000)) eqn:Ek; [|done]. split; [done|]. intros o Ho. cbn. rewrite slice_size by lia. unfold stack_byte.
    change (UTAMO_EXEC_STACK_TOP - Z.of_nat UTAMO_EXEC_ARG_MAX) with 0x6fffff00.
    destruct (Z.leb_spec 0x6fffff00 (k * 4096 + o)), (Z.ltb_spec (k * 4096 + o) (0x6fffff00 + (len + 1))), (Z.ltb_spec (k * 4096 + o) (0x6fffff00 + len + 1)); cbn [andb]; try lia; try done.
    by rewrite slice_get by lia.
Qed.

(** What the calls of the space say about the pages [E]. *)
Definition sees (m : M) (E : pages) : Prop := forall v, valid_address v = true ->
  (fun q => (vp_mapped q, vp_flags q)) <$> user_vm_query m v = Some (match E (v / 4096) with Some (f, _) => (true, f) | None => (false, 0) end) /\
  user_vm_copy_from m v 1 = (match E (v / 4096) with Some (_, c) => Some [c (v mod 4096)] | None => None end).

Lemma seqZ_one x : seqZ x 1 = [x].
Proof. change (seqZ x 1) with [Z.of_nat 0 + x]. f_equal. Qed.

Lemma shows_sees m E : shows m E -> sees m E.
Proof.
  intros Hs v Hv. destruct (shows_rep m E Hs) as (A & U & Hi & Hu & HU). pose proof (valid_lower v Hv) as Hl. pose proof (lower_u64 v Hl) as Hu64. unfold lower_half in Hl. change (2 ^ 47) with USER_VM_END in Hl.
  destruct (sim_query m A U Hi Hu v) as (A1 & U1 & _ & _ & Hq & _), (sim_read m A U Hi Hu v 1 Hu64 ltac:(by split)) as (A2 & U2 & _ & _ & Hr & _). cbn [user_apply snd uspec] in Hq, Hr.
  destruct Hq as [Hq _], Hr as [Hr _]. rewrite Hq, Hr, Hv, HU. split; [done|]. unfold uspan_ok, pages_spanned. rewrite Hv, !seqZ_one. cbn [Z.eqb].
  replace (v + 1 - 1) with v by lia. replace (v / 4096 - v / 4096 + 1) with 1 by lia. rewrite seqZ_one.
  assert ((1 <=? USER_VM_COPY_LIMIT) = true) as -> by done. assert ((v + 1 <=? USER_VM_END) = true) as -> by lia. cbn [andb orb forallb]. unfold upage_grants.
  rewrite HU. destruct (E (v / 4096)) as [[f c]|] eqn:Ev; cbn [negb orb andb]; [|done]. cbn. unfold ubyte_at. by rewrite HU, Ev.
Qed.

Lemma find_apart segments s k : ForallOrdPairs pages_apart segments -> s ∈ segments -> in_pages s k = true -> List.find (fun s => in_pages s k) segments = Some s.
Proof.
  intros Hap Hin Hk. induction Hap as [|t l Ht Hap IH]; [by apply elem_of_nil in Hin|]. cbn [List.find]. apply elem_of_cons in Hin as [->|Hin]; [by rewrite Hk|].
  destruct (in_pages t k) eqn:Et; [|by apply IH]. rewrite Forall_forall in Ht. specialize (Ht s Hin). unfold pages_apart, in_pages in *. lia.
Qed.

Lemma entry_page plan image argument len size : 0 <= size -> elf_validate image size = Some plan ->
  fst <$> program_page plan image argument len (ep_entry plan / 4096) = Some (access_flags UserVm.USER_VM_EXEC).
Proof.
  intros Hsz Hv. destruct (validate_plan image size plan Hsz Hv) as (_ & _ & Hw & Hap & _ & _ & s & Hin & Hacc & Hen). rewrite Forall_forall in Hw.
  destruct (sw_cover _ _ (Hw s Hin)), (sw_memory _ _ (Hw s Hin)), (sw_pages _ _ (Hw s Hin)). unfold program_page.
  rewrite (find_apart _ s) by (done || unfold in_pages; apply andb_true_iff; rewrite Z.leb_le, Z.ltb_lt; dlia). cbn. by rewrite Hacc.
Qed.

(** What [elf_load] does to the space and to the frames of others. *)
Lemma elf_load_spec k (m : M) image size argument : uvm_fresh m -> 0 <= size -> (snd (user_vm_create k m) = true -> loaded (fst (user_vm_create k m)) = false) ->
  pins_kept m (fst (elf_load k m image size argument)) /\
  match elf_load k m image size argument with
  | (m', Some r) => exists plan, elf_validate image size = Some plan /\
      let len := argument_length argument UTAMO_EXEC_ARG_MAX 0 in
      len < 256 /\ r = MkLoaded (ep_entry plan) (UTAMO_EXEC_STACK_TOP - 272) (UTAMO_EXEC_STACK_TOP - 256) /\
      shows m' (program_page plan image argument len) /\ (forall g, outside m' g <-> allocated (vm_ctx m) g) /\
      (forall g i, allocated (vm_ctx m) g -> vm_mem m' g i = vm_mem m g i) /\ us_cr3 (vm_ctx m') = us_cr3 (vm_ctx m) /\ us_cr4 (vm_ctx m') = us_cr4 (vm_ctx m) /\
      space_mask k (obj m')
  | (m', None) => not_created m m'
  end.
Proof.
  intros Hf Hsz Hload. unfold elf_load. rewrite (uf_obj m Hf). cbn [user_vm_zero uv_initialized]. assert (not_created m m) as Hsame by (by split_and!). pose proof (pins_refl m) as Hp0.
  destruct (elf_validate image size) as [plan|] eqn:Hv; [|done]. destruct (Z.eqb_spec (argument_length argument UTAMO_EXEC_ARG_MAX 0) (Z.of_nat UTAMO_EXEC_ARG_MAX)) as [|Hlen]; [done|].
  pose proof (argument_length_spec argument UTAMO_EXEC_ARG_MAX 0 ltac:(lia)) as Hal. set (len := argument_length _ _ _) in *. change (Z.of_nat UTAMO_EXEC_ARG_MAX) with 256 in Hlen, Hal.
  pose proof (create_spec k m Hf) as Hc. pose proof (create_pins k m Hf) as Hpc. pose proof (create_mask k m) as Hmk. destruct (user_vm_create k m) as [m1 []]; cbn [fst snd] in *; [|split; [done|by apply Hc]]. specialize (Hmk eq_refl). specialize (Hload eq_refl). destruct Hc as [Hc _].
  destruct (Hc eq_refl) as (_ & Hi1 & Hout & Hkept & _ & Hcr3 & Hcr4). assert (shows m1 (fun _ => None)) as Hs1 by (exists ∅; split; [done|]; intros q; by rewrite lookup_empty).
  destruct (map_program plan image argument len m1) as [m2 ok] eqn:Em. destruct (program_mapped plan image argument len size m1 m2 ok Hsz Hv ltac:(lia) Hs1 Em) as [([E (A & Hi & _)] & Hfr & Hpm) Hyes].
  assert (forall g, outside m2 g <-> allocated (vm_ctx m) g) as Ho by (intros g; by rewrite (uf_outside _ _ Hfr), Hout). destruct ok.
  - split; [by eapply pins_trans|]. exists plan. split; [done|]. split_and!; [lia|done|by apply Hyes|done| |by rewrite (uf_cr3 _ _ Hfr)|by rewrite (uf_cr4 _ _ Hfr)|unfold space_mask; by rewrite (uf_space _ _ Hfr)].
    intros g i Hg. assert (outside m1 g) by (by apply Hout). by rewrite (uf_kept _ _ Hfr), Hkept.
  - destruct (destroy_spec m2 A Hi) as (Hok & _ & Hd). pose proof (destroy_pins m2 A Hi) as Hpd. unfold loaded in Hok, Hload. rewrite (uf_space _ _ Hfr), (uf_cr3 _ _ Hfr), Hload in Hok. cbn [negb] in Hok.
    destruct (user_vm_destroy m2) as [m3 ok]. cbn [fst snd] in *. subst ok. destruct (Hd eq_refl) as (Hfresh & Hmem & H3 & H4 & Ha). split; [by eapply pins_trans, pins_trans|]. split_and!; [done| | | |].
    + intros g. by rewrite Ha.
    + intros g i Hg. rewrite Hmem, (uf_kept _ _ Hfr) by (by apply Hout). by apply Hkept.
    + by rewrite H3, (uf_cr3 _ _ Hfr).
    + by rewrite H4, (uf_cr4 _ _ Hfr).
Qed.

(** C10. What a loaded program starts with: every page and byte of its memory is the
    one the validated image describes, with its argument on the stack; the entry
    point is executable; and nothing that was in use has changed.  A failure at
    any step leaves no frame behind, and the rollback does not panic. *)
Theorem elf_load_exact k (m : M) image size argument :
  uvm_fresh m -> 0 <= size -> (snd (user_vm_create k m) = true -> loaded (fst (user_vm_create k m)) = false) ->
  match elf_load k m image size argument with
  | (m', Some r) => exists plan, elf_validate image size = Some plan /\
      let len := argument_length argument UTAMO_EXEC_ARG_MAX 0 in
      len < 256 /\ r = MkLoaded (ep_entry plan) (UTAMO_EXEC_STACK_TOP - 272) (UTAMO_EXEC_STACK_TOP - 256) /\
      sees m' (program_page plan image argument len) /\
      fst <$> program_page plan image argument len (lp_entry r / 4096) = Some (access_flags UserVm.USER_VM_EXEC) /\
      ownership_valid m' = true /\ us_panic (vm_ctx m') = false /\
      forall g i, allocated (vm_ctx m) g -> allocated (vm_ctx m') g /\ vm_mem m' g i = vm_mem m g i
  | (m', None) => not_created m m'
  end.
Proof.
  intros Hf Hsz Hload. destruct (elf_load_spec k m image size argument Hf Hsz Hload) as [_ Hs]. destruct (elf_load k m image size argument) as [m' [r|]]; [|done].
  destruct Hs as (plan & Hv & Hlen & Hr & Hsh & Ho & Hm & _). pose proof Hsh as (A & Hi & _). exists plan.
  split; [done|]. split_and!; [done|done|by apply shows_sees|subst r; by apply (entry_page _ _ _ _ size)|by apply (ownership_holds m' A)|apply (lo_panic _ _ (inv_ledger m' A Hi))|].
  intros g i Hg. split; [by apply Ho in Hg as [[? _] _]|by apply Hm].
Qed.
End shows.

(** ** A machine with sixty-four frames *)

Module Loading.
(** The kernel's root is frame 2, and what the memory holds elsewhere is rubbish. *)
Definition start (n : nat) : vm (ustate machine) :=
  MkVm (MkUState user_vm_zero (Nat.iter n (fun c => fst (alloc_page c)) SixtyFour.boot) 8192 0 [] false) (fun p i => if (p =? 8192) && (i =? 384) then 12291 else 77).

Lemma start_wf n : uvm_fresh (start n).
Proof.
  constructor; [done| |done]. cbn. induction n as [|n IH]; [apply SixtyFour.boot_wf_64|]. cbn.
  by destruct (machine_alloc _ (fst (alloc_page (Nat.iter n (fun c => fst (alloc_page c)) SixtyFour.boot))) _ IH (surjective_pairing _)) as (? & _).
Qed.

Definition argument (i : Z) : Z := arr_get [104; 105; 0] i.
End Loading.

Lemma elf_load_exact_witness :
  (exists m', elf_load Sixteen.kernel (Loading.start 1) ex_image 122 Loading.argument = (m', Some (MkLoaded 0x10078 0x6ffffef0 0x6fffff00)) /\
     user_vm_copy_from m' 0x10078 1 = Some [235] /\ user_vm_copy_from m' 0x6fffff01 1 = Some [105]) /\
  snd (elf_load Sixteen.kernel (Loading.start 60) ex_image 122 Loading.argument) = None /\
  not_created (Loading.start 60) (fst (elf_load Sixteen.kernel (Loading.start 60) ex_image 122 Loading.argument)).
Proof.
  split.
  - pose proof (elf_load_exact Sixteen.kernel (Loading.start 1) ex_image 122 Loading.argument (Loading.start_wf 1) ltac:(lia) ltac:(intros _; by vm_compute)) as Hx.
    assert (snd (elf_load Sixteen.kernel (Loading.start 1) ex_image 122 Loading.argument) = Some (MkLoaded 0x10078 0x6ffffef0 0x6fffff00)) as E by (by vm_compute).
    destruct (elf_load Sixteen.kernel (Loading.start 1) ex_image 122 Loading.argument) as [m' r]. cbn [snd] in E. subst r.
    exists m'. split; [done|]. destruct Hx as (plan & Hv & _ & _ & Hsee & _). assert (elf_validate ex_image 122 = Some plan) as Hv' by done. vm_compute in Hv'. injection Hv' as <-.
    split; [exact (proj2 (Hsee 0x10078 eq_refl))|exact (proj2 (Hsee 0x6fffff01 eq_refl))].
  - pose proof (elf_load_exact Sixteen.kernel (Loading.start 60) ex_image 122 Loading.argument (Loading.start_wf 60) ltac:(lia) ltac:(intros _; by vm_compute)) as Hx.
    assert (snd (elf_load Sixteen.kernel (Loading.start 60) ex_image 122 Loading.argument) = None) as E by (by vm_compute).
    destruct (elf_load Sixteen.kernel (Loading.start 60) ex_image 122 Loading.argument) as [m' r]. cbn [snd] in E. subst r. by split.
Defined.
