(* ===== verification/World.v ===== *)
(** * The machine that the kernel's components share

    The page allocator, the physical memory and the kernel's address space under
    the heap, the thread stacks and the user address spaces are the same objects.
    [world] has them once; the views below are the states on which the models of
    the components work, and the lifts run a call of a component on its view.
    The memory that the heap manages is the field [w_bytes], by virtual address:
    its frames are the heap's alone (KernelHeap.v).  The interrupt flag is not
    part of the state; functions that read it have an argument [iflag]. *)

From S2P Require Import Prelude MemoryHelpers Bytes VmmCore Frames KernelVm HeapPages KernelPages HeapCore KernelHeap ThreadStack UserVm.
Open Scope Z_scope.

Record world (P : Type) := MkWorld {
  w_kernel : vm (kstate P);
  w_heap : heap_core;
  w_bytes : memory;
  w_backing : heap_pages;
  w_heap_ready : bool;
  w_stacks : stacks;
  w_cr3 : Z;
  w_cr4 : Z
}.
Arguments MkWorld {P}.
Arguments w_kernel {P}.
Arguments w_heap {P}.
Arguments w_bytes {P}.
Arguments w_backing {P}.
Arguments w_heap_ready {P}.
Arguments w_stacks {P}.
Arguments w_cr3 {P}.
Arguments w_cr4 {P}.

Section world.
Context {P : Type} `{PageFrames P}.
Implicit Types w : world P.

Definition w_frames w : P := kframes (w_kernel w).
Definition w_mem w : Z -> Z -> Z := vm_mem (w_kernel w).
(** A [PANIC] below. *)
Definition w_panic w : bool := ks_panic (vm_ctx (w_kernel w)) || sk_panic (w_stacks w).

Definition with_kernel (m : vm (kstate P)) w : world P :=
  MkWorld m (w_heap w) (w_bytes w) (w_backing w) (w_heap_ready w) (w_stacks w) (w_cr3 w) (w_cr4 w).
Definition with_stacks (s : stacks) w : world P :=
  MkWorld (w_kernel w) (w_heap w) (w_bytes w) (w_backing w) (w_heap_ready w) s (w_cr3 w) (w_cr4 w).
Definition with_cr3 (v : Z) w : world P :=
  MkWorld (w_kernel w) (w_heap w) (w_bytes w) (w_backing w) (w_heap_ready w) (w_stacks w) v (w_cr4 w).

(** ** The heap *)

Definition heap_view w : @kernel_heap P :=
  MkKernelHeap (MkArena (w_heap w) (w_bytes w) (MkBacking (w_backing w) (w_kernel w))) (w_heap_ready w).
Definition from_heap (h : @kernel_heap P) w : world P :=
  let a := kh_arena h in
  MkWorld (bk_vm (ar_ctx a)) (ar_heap a) (ar_mem a) (bk_pages (ar_ctx a)) (kh_ready h) (w_stacks w) (w_cr3 w) (w_cr4 w).
Definition on_heap {A} (f : @kernel_heap P -> @kernel_heap P * A) w : world P * A :=
  let (h, r) := f (heap_view w) in (from_heap h w, r).

(** ** The stacks *)

Definition stack_alloc w : world P * option thread_stack :=
  let '(s, m, r) := thread_stack_alloc (w_stacks w) (w_kernel w) in (with_stacks s (with_kernel m w), r).
Definition stack_free (t : thread_stack) (anchor : Z) w : world P * (thread_stack * bool) :=
  let '(s, m, t', ok) := thread_stack_free (w_stacks w) (w_kernel w) t anchor in (with_stacks s (with_kernel m w), (t', ok)).
Definition stack_frame (t : thread_stack) (entry sentinel : Z) w : world P * option Z :=
  let (m, r) := thread_frame_init (w_stacks w) (w_kernel w) t entry sentinel in (with_kernel m w, r).

(** ** The address space of the object [u] *)

Definition user_view w (u : user_vm) : vm (ustate P) :=
  let c := vm_ctx (w_kernel w) in
  MkVm (MkUState u (ks_frames c) (w_cr3 w) (w_cr4 w) (ks_flushed c) (ks_panic c)) (w_mem w).
Definition from_user (m : vm (ustate P)) w : world P :=
  let c := vm_ctx (w_kernel w) in
  let c' := vm_ctx m in
  with_kernel (MkVm (MkKState (ks_space c) (ks_vmm c) (us_frames c') (us_flushed c') (us_panic c')) (vm_mem m)) w.
Definition on_user {A} (f : vm (ustate P) -> vm (ustate P) * A) (u : user_vm) w : world P * (user_vm * A) :=
  let (m, r) := f (user_view w u) in (from_user m w, (obj m, r)).
End world.
