(* ===== verification/WorldInv.v ===== *)
(** * The machine shared: who owns which frame

    Every frame that the allocator gave out belongs to the heap, to the stack of
    one slot, to one user address space, or to nobody here ([base]).  [world_inv]
    has the invariants of all components at once, and the lemmas say that a call
    of one component keeps those of all others, and what they hold. *)

From stdpp Require Import gmap.
From S2P Require Import Prelude MemoryHelpers Bytes VmmCore VmmMap VmmSpec VmmTrace Frames KernelVm HeapPages KernelPages HeapCore HeapInv HeapSpec HeapStore KernelHeap ThreadStack ThreadStackProps UserVm UserVmTree UserVmOps UserVmLife UserVmSpec UserVmFrame ElfLoad ElfLoadProps World.
Open Scope Z_scope.

(** ** What a call does to one address space *)

Section vm.
Context {P : Type} `{PageFramesLaws P}.
Notation M := (vm (ustate P)).

Definition vm_frames (u : user_vm) : list Z := if uv_initialized u then frames_of u else [].

(** An address space is live, or as before its creation. *)
Inductive vm_state (m : M) : Prop :=
  | vm_live A : uvm_inv m A -> vm_state m
  | vm_none : uvm_fresh m -> vm_state m.

Definition elsewhere (m : M) (g : Z) : Prop := allocated (vm_ctx m) g /\ g ∉ vm_frames (obj m).

Record vm_step (m m' : M) : Prop := {
  vp_state : vm_state m';
  vp_pins : pins_kept m m';
  vp_keep : forall g, elsewhere m' g <-> elsewhere m g;
  vp_word : forall g i, elsewhere m g -> vm_mem m' g i = vm_mem m g i;
  vp_cr3 : us_cr3 (vm_ctx m') = us_cr3 (vm_ctx m);
  vp_cr4 : us_cr4 (vm_ctx m') = us_cr4 (vm_ctx m)
}.

Lemma live_frames m A : uvm_inv m A -> vm_frames (obj m) = frames_of (obj m).
Proof. intros Hi. unfold vm_frames. by rewrite (ui_init _ _ Hi). Qed.

Lemma live_elsewhere m A g : uvm_inv m A -> elsewhere m g <-> outside m g.
Proof. intros Hi. unfold elsewhere, outside, private. rewrite (live_frames m A Hi), (frames_of_in m A g Hi). tauto. Qed.

Lemma fresh_elsewhere m g : uvm_fresh m -> elsewhere m g <-> allocated (vm_ctx m) g.
Proof. intros Hf. unfold elsewhere, vm_frames. rewrite (uf_obj _ Hf). cbn. split; [tauto|]. intros Ha. split; [done|]. apply not_elem_of_nil. Qed.

Lemma state_wf m : vm_state m -> pf_wf (us_frames (vm_ctx m)) /\ us_panic (vm_ctx m) = false.
Proof. intros [A Hi|Hf]; [|split; apply Hf]. pose proof (inv_ledger _ _ Hi) as L. split; apply L. Qed.

Lemma state_frames m g : vm_state m -> g ∈ vm_frames (obj m) -> allocated (vm_ctx m) g.
Proof.
  intros [A Hi|Hf].
  - rewrite (live_frames m A Hi), (frames_of_in m A g Hi). pose proof (inv_ledger m A Hi) as L. intros [Hd|Ht]; [by apply (lo_data _ _ L)|by apply (lo_alloc _ _ L)].
  - unfold vm_frames. rewrite (uf_obj _ Hf). by intros ?%elem_of_nil.
Qed.

Lemma step_refl m : vm_state m -> vm_step m m.
Proof. intros Hs. by constructor. Qed.

Lemma step_trans m1 m2 m3 : vm_step m1 m2 -> vm_step m2 m3 -> vm_step m1 m3.
Proof.
  intros S1 S2. constructor; [apply S2|by eapply pins_trans; [apply S1|apply S2]| | |by rewrite (vp_cr3 _ _ S2), (vp_cr3 _ _ S1)|by rewrite (vp_cr4 _ _ S2), (vp_cr4 _ _ S1)].
  - intros g. by rewrite (vp_keep _ _ S2), (vp_keep _ _ S1).
  - intros g i Hg. rewrite (vp_word _ _ S2), (vp_word _ _ S1); [done|done|]. by apply (vp_keep _ _ S1).
Qed.

Lemma urep_exists (m : M) A : exists U, urep m A U.
Proof.
  exists ((fun e => (snd e, fun o => phys_byte (vm_mem m) (fst e + o))) <$> A). intros k. rewrite lookup_fmap. by destruct (A !! k) as [[g f]|].
Qed.

Lemma apply_step m A op : uvm_inv m A -> user_args op -> vm_step m (fst (user_apply m op)) /\ uv_space (obj (fst (user_apply m op))) = uv_space (obj m) /\ exists A', uvm_inv (fst (user_apply m op)) A'.
Proof.
  intros Hi Ha. destruct (urep_exists m A) as [U Hu]. destruct (user_step m A U Hi Hu op Ha) as (A' & U' & Hi' & _ & _ & F). split_and!; [|apply F|by exists A']. constructor; [by eapply vm_live|by eapply apply_pins| | |apply F|apply F].
  - intros g. rewrite (live_elsewhere _ A'), (live_elsewhere m A) by done. apply F.
  - intros g i Hg. apply F. by apply (live_elsewhere m A).
Qed.

Lemma fresh_step m m' A : uvm_fresh m -> uvm_inv m' A -> pins_kept m m' -> (forall g, outside m' g <-> allocated (vm_ctx m) g) ->
  (forall g i, allocated (vm_ctx m) g -> vm_mem m' g i = vm_mem m g i) -> us_cr3 (vm_ctx m') = us_cr3 (vm_ctx m) -> us_cr4 (vm_ctx m') = us_cr4 (vm_ctx m) -> vm_step m m'.
Proof.
  intros Hf Hi Hp Ho Hm E3 E4. constructor; [by eapply vm_live|done| | |done|done].
  - intros g. rewrite (live_elsewhere m' A), (fresh_elsewhere m) by done. apply Ho.
  - intros g i Hg. apply Hm. apply (fresh_elsewhere m g Hf), Hg.
Qed.

Lemma not_created_step m m' : uvm_fresh m -> not_created m m' -> pins_kept m m' -> vm_step m m'.
Proof.
  intros Hf (Hf' & Ha & Hm & E3 & E4) Hp. constructor; [by apply vm_none|done| | |done|done].
  - intros g. rewrite !fresh_elsewhere by done. apply Ha.
  - intros g i Hg. apply Hm. apply (fresh_elsewhere m g Hf), Hg.
Qed.

Lemma create_step k m : uvm_fresh m -> vm_step m (fst (user_vm_create k m)) /\
  if snd (user_vm_create k m) then (exists A, uvm_inv (fst (user_vm_create k m)) A) /\ space_mask k (obj (fst (user_vm_create k m))) else uvm_fresh (fst (user_vm_create k m)).
Proof.
  intros Hf. pose proof (create_spec k m Hf) as Hc. pose proof (create_pins k m Hf) as Hp. pose proof (create_mask k m) as Hk. destruct (user_vm_create k m) as [m' []]; cbn [fst snd] in *; destruct Hc as [H1 H2].
  - destruct (H1 eq_refl) as (_ & Hi & Ho & Hm & _ & E3 & E4). split; [by eapply fresh_step|]. split; [by exists ∅|by apply Hk].
  - specialize (H2 eq_refl). split; [by apply not_created_step|apply H2].
Qed.

Lemma destroy_step m A : uvm_inv m A -> loaded m = false ->
  snd (user_vm_destroy m) = true /\ uvm_fresh (fst (user_vm_destroy m)) /\ vm_step m (fst (user_vm_destroy m)).
Proof.
  intros Hi Hl. pose proof (destroy_spec m A Hi) as Hd. pose proof (destroy_pins m A Hi) as Hp. cbn zeta in Hd. rewrite Hl in Hd. destruct (user_vm_destroy m) as [m' ok]. cbn [fst snd] in *.
  destruct Hd as (-> & _ & Hd). destruct (Hd eq_refl) as (Hf & Em & E3 & E4 & Ha). split_and!; [done|done|]. constructor; [by apply vm_none|done| | |done|done].
  - intros g. rewrite fresh_elsewhere, (live_elsewhere m A) by done. apply Ha.
  - intros g i _. by rewrite Em.
Qed.

Lemma load_step k m image size argument : uvm_fresh m -> 0 <= size -> (snd (user_vm_create k m) = true -> loaded (fst (user_vm_create k m)) = false) ->
  let (m', r) := elf_load k m image size argument in vm_step m m' /\
  if r then (exists A, uvm_inv m' A) /\ space_mask k (obj m') else uvm_fresh m'.
Proof.
  intros Hf Hs Hl. destruct (elf_load_spec k m image size argument Hf Hs Hl) as [Hp Hr]. destruct (elf_load k m image size argument) as [m' [r|]]; cbn [fst] in *.
  - destruct Hr as (plan & _ & _ & _ & (A & Hi & _) & Ho & Hm & E3 & E4 & Hk). split; [by eapply fresh_step|]. split; [by exists A|done].
  - split; [by apply not_created_step|apply Hr].
Qed.

(** An address space is not touched by what leaves its frames alone. *)
Lemma inv_stable m m' A : uvm_inv m A -> obj m' = obj m -> pf_wf (us_frames (vm_ctx m')) -> us_panic (vm_ctx m') = false ->
  (forall g, g ∈ frames_of (obj m) -> allocated (vm_ctx m') g /\ forall i, vm_mem m' g i = vm_mem m g i) -> uvm_inv m' A.
Proof.
  intros Hi Eo Hw Hp Hk. pose proof (inv_ledger m A Hi) as L. assert (forall g, in_tables (vm_ctx m') g <-> in_tables (vm_ctx m) g) as Ht by (intros g; unfold in_tables; fold (obj m') (obj m); by rewrite Eo).
  assert (ledger_ok (data (uv_pages (obj m))) (vm_ctx m')) as L'.
  { constructor; try done; fold (obj m'); rewrite ?Eo; try apply L.
    - intros g Hg%Ht. split; [|by apply (lo_alloc _ _ L)]. apply Hk, (frames_of_in m A g Hi). by right.
    - intros g Hg. apply Hk, (frames_of_in m A g Hi). by left. }
  constructor; rewrite ?Eo; try apply Hi.
  - intros g (i & t & Hx). apply (ui_quiet m A Hi g). exists i, t. fold (obj m') in Hx. rewrite Eo in Hx. done.
  - apply (tree_frame _ _ m); [apply Hi|done|]. intros g Hg. split; [by apply Ht|]. apply Hk, (frames_of_in m A g Hi). by right.
Qed.

Lemma state_stable m m' : vm_state m -> obj m' = obj m -> pf_wf (us_frames (vm_ctx m')) -> us_panic (vm_ctx m') = false ->
  (forall g, g ∈ vm_frames (obj m) -> allocated (vm_ctx m') g /\ forall i, vm_mem m' g i = vm_mem m g i) -> vm_state m'.
Proof.
  intros [A Hi|Hf] Eo Hw Hp Hk.
  - apply (vm_live _ A). apply (inv_stable m); try done. by rewrite <- (live_frames m A Hi).
  - apply vm_none. constructor; [by rewrite Eo; apply Hf|done|done].
Qed.

Lemma shows_stable m m' E : shows m E -> obj m' = obj m -> pf_wf (us_frames (vm_ctx m')) -> us_panic (vm_ctx m') = false ->
  (forall g, g ∈ vm_frames (obj m) -> allocated (vm_ctx m') g /\ forall i, vm_mem m' g i = vm_mem m g i) -> shows m' E.
Proof.
  intros (A & Hi & Hr) Eo Hw Hp Hk. rewrite (live_frames m A Hi) in Hk. exists A. split; [by apply (inv_stable m)|]. intros k. specialize (Hr k).
  destruct (A !! k) as [[g f]|] eqn:Ek, (E k) as [[f' c]|]; cbn in *; try done. destruct Hr as [-> Hc]. split; [done|]. intros o Ho. rewrite <- Hc by done.
  destruct (data_frame m A k g f' Hi Ek) as ([Hgu _] & Hgm & Hgl & Hd & _). destruct (Hk g) as [_ Hmem]; [apply (frames_of_in m A g Hi); by left|]. unfold phys_byte.
  rewrite frame_base by (done || (unfold u64_ok in *; lia)). by rewrite Hmem.
Qed.
End vm.

(** ** The statics of vmm.c

    A property that no callback of heap_pages.c can change is not changed by its
    users either. *)

Section unchanged.
Context {C : Type} `{PageOps C} (Q : C -> Prop).
Hypothesis Halloc : forall c, Q c -> Q (fst (pg_alloc c)).
Hypothesis Hfree : forall c f, Q c -> Q (fst (pg_free c f)).
Hypothesis Hzero : forall c f, Q c -> Q (fst (pg_zero c f)).
Hypothesis Hmap : forall c v f flags, Q c -> Q (fst (pg_map c v f flags)).
Hypothesis Hunmap : forall c v, Q c -> Q (fst (pg_unmap c v)).

Lemma release_unchanged st c f : Q c -> Q (snd (release_page st c f)).
Proof using Hfree. intros Hc. unfold release_page. pose proof (Hfree c f Hc). by destruct (pg_free c f). Qed.

Lemma rollback_unchanged fuel : forall st c o e, Q c -> Q (snd (rollback_from fuel st c o e)).
Proof using Hfree Hunmap.
  assert (forall st c e, Q c -> Q (snd (rollback_page st c e))) as Hp.
  { intros st c e Hc. unfold rollback_page. destruct (pg_query c _) as [mp|]; [|done]. destruct (_ || _); [done|]. pose proof (Hunmap c (hp_base st +u e) Hc) as Hu.
    destruct (pg_unmap c _) as [c1 [|]]; [|done]. destruct (pg_query c1 _) as [mp'|]; [|done]. destruct (vp_mapped mp'); [done|]. by apply release_unchanged. }
  induction fuel as [|fuel IH]; intros st c o e Hc; cbn [rollback_from]; [by destruct (negb _)|]. destruct (negb _); [done|].
  pose proof (Hp st c (e -u MEMORY_PAGE_SIZE) Hc) as Hr. destruct (rollback_page st c _) as [st1 c1]. by apply IH.
Qed.

Lemma grow_unchanged st c o n : Q c -> Q (snd (fst (heap_pages_grow st c o n))).
Proof using All.
  intros Hc. unfold heap_pages_grow. destruct (_ || _ || _ || _ || _ || _ || _ || _); [done|]. destruct (negb (range_unmapped _ _ _ _ _)); [done|].
  assert (forall fuel off c, Q c -> Q (snd (fst (grow_from fuel st c o off n (page_flags (hp_nx st)))))) as Hg; [|by apply Hg].
  clear c Hc. induction fuel as [|fuel IH]; intros off c Hc; cbn [grow_from]; [by destruct (negb _)|]. destruct (negb (off <? n)); [done|]. pose proof (Halloc c Hc) as H1. destruct (pg_alloc c) as [c1 [f|]]; cbn [fst snd] in *; [|by apply rollback_unchanged].
  assert (forall st' c', Q c' -> Q (snd (fst (let (st, c) := release_page st' c' f in (rollback st c o off, false))))) as Hback.
  { intros st' c' Hc'. pose proof (release_unchanged st' c' f Hc') as Hr. destruct (release_page st' c' f) as [st1 c2]. by apply rollback_unchanged. }
  destruct (_ || _); [by apply Hback|]. pose proof (Hzero c1 f H1) as H2. destruct (pg_zero c1 f) as [c2 [|]]; [|by apply Hback].
  pose proof (Hmap c2 (hp_base st +u off) f (page_flags (hp_nx st)) H2) as H3. destruct (pg_map c2 _ _ _) as [c3 [|]]; [|by apply Hback]. by apply IH.
Qed.
End unchanged.

Section statics.
Context {P : Type} `{PageFrames P}.
Notation M := (vm (kstate P)).

(** All of them but the number of tables. *)
Definition fixed_info (i : vmm_info) : vmm_info :=
  MkInfo (vinf_root_phys i) (vinf_hhdm_offset i) (vinf_kernel_base i) 0 (vinf_physical_bits i) (vinf_nx_supported i) (vinf_nx_enabled i) (vinf_sections_protected i).
Definition fixed (c : kstate P) : vmm_space * bool * vmm_info := (ks_space c, kv_ready (ks_vmm c), fixed_info (kv_information (ks_vmm c))).
Definition same_fixed (c c' : kstate P) : Prop := fixed c' = fixed c.

Lemma grow_fixed st (m : M) o n : same_fixed (vm_ctx m) (vm_ctx (snd (fst (heap_pages_grow st m o n)))).
Proof.
  apply (grow_unchanged (fun m' => same_fixed (vm_ctx m) (vm_ctx m'))); unfold same_fixed; cbn [pg_alloc pg_free pg_zero pg_map pg_unmap kernel_pages]; try done.
  - intros c <-. unfold allocate_page. by destruct (pmm_alloc_page _).
  - intros c f <-. unfold release_frame_page. by destruct (pmm_free_page _ _).
  - intros c f <-. unfold zero_page. by destruct (memory_phys_to_virt _ _ _).
  - intros c v f flags <-. unfold vmm_map_page. destruct (_ && _ && _ && _ && _); [|done]. change (same_fixed (vm_ctx c) (vm_ctx (fst (vmm_space_map (kspace c) c v f flags)))). apply map_related; unfold same_fixed; [done|congruence| | | |done].
    + intros x. cbn. unfold vmm_table_allocate. by destruct (pmm_alloc_page _).
    + intros x g. cbn. unfold vmm_table_release. destruct (pmm_free_page _ _) as [? ok]. by destruct ok.
    + intros x g. cbn. unfold vmm_table_commit. destruct (pmm_pin_page _ _) as [? ok]. by destruct ok.
  - intros c v <-. unfold vmm_unmap_page. destruct (_ && _); [|done]. change (same_fixed (vm_ctx c) (vm_ctx (fst (vmm_space_unmap (kspace c) c v)))). by apply unmap_related.
Qed.

Lemma backing_fixed (b : KernelHeap.backing P) o n : same_fixed (vm_ctx (bk_vm b)) (vm_ctx (bk_vm (fst (grow_backing b o n)))).
Proof.
  unfold grow_backing. pose proof (grow_fixed (bk_pages b) (bk_vm b) o n) as Hg. destruct (heap_pages_grow _ _ o n) as [[st m] r]. cbn [fst snd bk_vm] in *. by destruct (hp_corrupted st).
Qed.

Lemma heap_fixed (h : @kernel_heap P) c : kh_ready h = true ->
  same_fixed (vm_ctx (bk_vm (ar_ctx (kh_arena h)))) (vm_ctx (bk_vm (ar_ctx (kh_arena (fst (kheap_apply h c)))))).
Proof.
  intros Hr. rewrite (kheap_apply_ready h c Hr). set (s := vm_ctx (bk_vm (ar_ctx (kh_arena h)))).
  apply (apply_carried (hc_base (ar_heap (kh_arena h))) (fun (b : KernelHeap.backing P) (_ : Z) => same_fixed s (vm_ctx (bk_vm b)))); [|done]. intros b n new Hb _. unfold same_fixed in *. rewrite <- Hb. apply (backing_fixed b n new).
Qed.

Lemma alloc_fixed s (m : M) : same_fixed (vm_ctx m) (vm_ctx (snd (fst (thread_stack_alloc s m)))).
Proof.
  unfold thread_stack_alloc. destruct (vmm_get_info _) as [info|]; [|done]. destruct (ThreadStack.free_slot s) as [k|]; [|done]. cbv zeta. destruct (vmm_query_page m _) as [mp|]; [|done]. destruct (vp_mapped mp); [done|].
  destruct (heap_pages_init _ _ _ _) as [b [|]]; [|by destruct (hp_corrupted b)]. pose proof (grow_fixed b m 0 UTAMO_THREAD_STACK_SIZE) as Hg. destruct (heap_pages_grow b m 0 _) as [[b' m'] [|]]; cbn [fst snd negb] in *; [done|]. by destruct (hp_corrupted b').
Qed.

Lemma release_fixed ps : forall m : M, same_fixed (vm_ctx m) (vm_ctx (fst (release_stack m ps))).
Proof.
  induction ps as [|p ps IH]; intros m; cbn [release_stack]; [done|]. destruct (vmm_query_page m p) as [mp|]; [|done]. destruct (negb _); [done|].
  assert (same_fixed (vm_ctx m) (vm_ctx (fst (vmm_unmap_page m p)))) as H1.
  { unfold vmm_unmap_page. destruct (_ && _); [|done]. change (same_fixed (vm_ctx m) (vm_ctx (fst (vmm_space_unmap (kspace m) m p)))). by apply unmap_related. }
  destruct (vmm_unmap_page m p) as [m1 [|]]; [|done]. destruct (vmm_query_page m1 p) as [mp'|]; [|done]. destruct (vp_mapped mp'); [done|]. unfold release_frame_page. destruct (pmm_free_page _ _) as [q [|]]; [|done].
  unfold same_fixed in *. rewrite (IH (set_kframes q m1)). done.
Qed.

Lemma free_fixed s (m : M) t anchor : same_fixed (vm_ctx m) (vm_ctx (snd (fst (fst (thread_stack_free s m t anchor))))).
Proof.
  unfold thread_stack_free. destruct (_ || _); [done|]. destruct (vmm_query_page m _) as [mp|]; [|done]. destruct (vp_mapped mp); [done|]. destruct (negb _); [done|].
  pose proof (release_fixed (stack_pages t) m) as Hr. by destruct (release_stack m _) as [m' [|]].
Qed.
End statics.

(** ** Owners *)

Inductive owner := OBase | OHeap | OStack (k : Z) | OVm (p : Z).
#[export] Instance owner_eq_dec : EqDecision owner.
Proof. solve_decision. Defined.

Definition unique_owner (f : owner -> Z -> Prop) : Prop := forall o o' g, f o g -> f o' g -> o = o'.

(** One owner's frames change, and only by frames that nobody had. *)
Lemma owners_update (f f' : owner -> Z -> Prop) (hd hd' : Z -> Prop) o0 :
  (forall g, hd g <-> exists o, f o g) -> unique_owner f -> (forall o g, o <> o0 -> f' o g <-> f o g) ->
  (forall g, hd' g <-> (hd g /\ ~ f o0 g) \/ f' o0 g) -> (forall g, f' o0 g -> hd g -> f o0 g) ->
  (forall g, hd' g <-> exists o, f' o g) /\ unique_owner f'.
Proof.
  intros Hh Hu Hs Hd Hn. split.
  - intros g. rewrite Hd. split.
    + intros [[Hg Hno]|Hg]; [|by exists o0]. apply Hh in Hg as [o Ho]. exists o. apply Hs; [|done]. by intros ->.
    + intros [o Ho]. destruct (decide (o = o0)) as [-> |Hne]; [by right|]. apply Hs in Ho; [|done]. left. split; [apply Hh; by exists o|]. intros Hx. by apply Hne, (Hu o o0 g).
  - intros o o' g Ho Ho'. destruct (decide (o = o0)) as [-> |Hne], (decide (o' = o0)) as [-> |Hne']; [done| | |].
    + apply Hs in Ho'; [|done]. symmetry. apply (Hu o' o0 g); [done|]. apply Hn; [done|]. apply Hh. by exists o'.
    + apply Hs in Ho; [|done]. apply (Hu o o0 g); [done|]. apply Hn; [done|]. apply Hh. by exists o.
    + apply Hs in Ho, Ho'; try done. by apply (Hu o o' g).
Qed.

Section world.
Context {P : Type} `{PageFramesLaws P}.
Implicit Types w : world P.
Notation held w := (kloose (vm_ctx (w_kernel w))).
Notation info_of w := (ks_vmm (vm_ctx (w_kernel w))).

(** What a step may change: frames of [X] and translations of [R]. *)
Record effect w w' (X R : Z -> Prop) : Prop := {
  ef_kernel : kinv (w_kernel w');
  ef_fixed : same_fixed (vm_ctx (w_kernel w)) (vm_ctx (w_kernel w'));
  ef_held : forall g, held w g -> ~ X g -> held w' g;
  ef_word : forall g i, held w g -> ~ X g -> w_mem w' g i = w_mem w g i;
  ef_query : forall a, u64_ok a -> ~ R a -> vmm_query_page (w_kernel w') a = vmm_query_page (w_kernel w) a
}.

Lemma kinv_ctx w : kinv (w_kernel w) -> pf_wf (w_frames w) /\ ks_panic (vm_ctx (w_kernel w)) = false.
Proof. intros K. apply (vi_ctx _ _ (ki_vm _ K)). Qed.

Lemma effect_user w w' X R u : effect w w' X R -> (forall g, g ∈ vm_frames u -> held w g /\ ~ X g) ->
  forall g, g ∈ vm_frames u -> allocated (vm_ctx (user_view w' u)) g /\ forall i, vm_mem (user_view w' u) g i = vm_mem (user_view w u) g i.
Proof. intros E Hx g Hg. destruct (Hx g Hg) as [Hh Hn]. split; [by apply (ef_held _ _ _ _ E)|]. intros i. by apply (ef_word _ _ _ _ E). Qed.

Lemma user_stable w w' X R u : effect w w' X R -> vm_state (user_view w u) -> (forall g, g ∈ vm_frames u -> ~ X g) -> vm_state (user_view w' u).
Proof.
  intros E Hs Hx. destruct (kinv_ctx w' (ef_kernel _ _ _ _ E)) as [Hw Hp]. apply (state_stable (user_view w u)); [done|done|done|done|]. apply (effect_user _ _ X R); [done|].
  intros g Hg. split; [by apply (state_frames _ g Hs)|by apply Hx].
Qed.

Lemma user_shows w w' X R u F : effect w w' X R -> shows (user_view w u) F -> (forall g, g ∈ vm_frames u -> ~ X g) -> shows (user_view w' u) F.
Proof.
  intros E Hs Hx. destruct (kinv_ctx w' (ef_kernel _ _ _ _ E)) as [Hw Hp]. apply (shows_stable (user_view w u)); [done|done|done|done|]. apply (effect_user _ _ X R); [done|].
  intros g Hg. split; [|by apply Hx]. destruct Hs as (A & Hi & _). by apply (state_frames _ g (vm_live _ A Hi)).
Qed.

(** The heap and the stacks stay as they are. *)
Lemma dseg_ctx {C D} (h : heap_core) mem (c : C) (d : D) fl : forall prior cur lastp last,
  dseg (MkArena h mem c) prior cur fl lastp last -> dseg (MkArena h mem d) prior cur fl lastp last.
Proof. induction fl as [|o fl IH]; intros prior cur lastp last; cbn [dseg]; [done|]. intros (E1 & E2 & Hs). split_and!; [done|done|by apply IH]. Qed.

Lemma holds_ctx {C D} (h : heap_core) mem (c : C) (d : D) m : heap_holds (MkArena h mem c) m -> heap_holds (MkArena h mem d) m.
Proof. intros (bl & [[] Ha Hu Hl Hp] & ->). exists bl. split; [|done]. constructor; [constructor|..]; try done. destruct hr_list as [lp Hd]. exists lp. by eapply dseg_ctx. Qed.

Definition same_heap w w' : Prop := w_heap w' = w_heap w /\ w_bytes w' = w_bytes w /\ w_backing w' = w_backing w /\ w_heap_ready w' = w_heap_ready w.

Lemma heap_stable w w' X R nx fs hm : effect w w' X R -> same_heap w w' -> heap_ok (heap_view w) nx fs hm -> (forall g, g ∈ fs -> ~ X g) ->
  (forall a, UTAMO_HEAP_BASE <= a < UTAMO_HEAP_BASE + UTAMO_HEAP_MAX_SIZE -> ~ R a) -> heap_ok (heap_view w') nx fs hm.
Proof.
  intros E (E1 & E2 & E3 & E4) [Hr Hh Hs B Hbase] Hx Hn. unfold heap_view in *. cbn in *. constructor; cbn; rewrite ?E1, ?E2, ?E3, ?E4; [done|by eapply holds_ctx|done| |done].
  destruct B as [B1 B2 B3 [B4 B5] B6]. cbn in *. constructor; cbn; [done|apply E|done| |].
  - split; [done|]. intros f Hf. apply (ef_held _ _ _ _ E); [by apply B5|by apply Hx].
  - intros a Ha Hb. rewrite (ef_query _ _ _ _ E a Ha) by (by apply Hn). by apply B6.
Qed.

Lemma stacks_stable w w' X R L : effect w w' X R -> w_stacks w' = w_stacks w -> stack_inv (w_stacks w) (w_kernel w) L ->
  (forall k gs g, L !! k = Some gs -> g ∈ gs -> ~ X g) -> (forall k a, is_Some (L !! k) -> guard_at k <= a < guard_at k + 69632 -> ~ R a) ->
  stack_inv (w_stacks w') (w_kernel w') L.
Proof.
  intros E -> I Hx Hn. constructor; [apply E|apply I..| |apply I]. intros k gs Hk. destruct (si_stack _ _ _ I k gs Hk) as (Hr & Hg & Ha). split_and!; [lia|lia|done|]. apply (stack_at_frame (w_kernel w)); [done|done| |].
  - intros a Hin. apply (ef_query _ _ _ _ E); [|by eapply Hn]. destruct (guard_facts k Hr) as (_ & _ & Hlo & Hhi). unfold u64_ok, UINT64_MAX, VMM_DYNAMIC_BASE in *. lia.
  - intros f Hf. apply (ef_held _ _ _ _ E); [by apply (sa_held _ _ _ Ha)|by eapply Hx].
Qed.

(** ** The invariant *)

Section owners.
Context (base : Z -> Prop).

Definition owns (fs : list Z) (L : gmap Z (list Z)) (us : gmap Z user_vm) (o : owner) (g : Z) : Prop :=
  match o with
  | OBase => base g
  | OHeap => g ∈ fs
  | OStack k => exists gs, L !! k = Some gs /\ g ∈ gs
  | OVm p => exists u, us !! p = Some u /\ g ∈ vm_frames u
  end.

Record world_inv w (nx : bool) (fs : list Z) (hm L : gmap Z (list Z)) (us : gmap Z user_vm) : Prop := {
  wi_heap : heap_ok (heap_view w) nx fs hm;
  wi_stacks : stack_inv (w_stacks w) (w_kernel w) L;
  wi_vms : forall p u, us !! p = Some u -> vm_state (user_view w u);
  wi_masks : forall p u, us !! p = Some u -> uv_initialized u = true -> space_mask (info_of w) u;
  wi_held : forall g, held w g <-> exists o, owns fs L us o g;
  wi_unique : unique_owner (owns fs L us)
}.

Lemma wi_kernel w nx fs hm L us : world_inv w nx fs hm L us -> kinv (w_kernel w).
Proof. intros I. apply (wi_stacks _ _ _ _ _ _ I). Qed.

Lemma wi_panic w nx fs hm L us : world_inv w nx fs hm L us -> w_panic w = false.
Proof. intros I. unfold w_panic. destruct (kinv_ctx w (wi_kernel _ _ _ _ _ _ I)) as [_ ->]. apply (wi_stacks _ _ _ _ _ _ I). Qed.

Lemma owner_apart w nx fs hm L us o o' g : world_inv w nx fs hm L us -> o <> o' -> owns fs L us o g -> ~ owns fs L us o' g.
Proof. intros I Hne Ho Ho'. by apply Hne, (wi_unique _ _ _ _ _ _ I o o' g). Qed.

Lemma mask_fixed w w' u : same_fixed (vm_ctx (w_kernel w)) (vm_ctx (w_kernel w')) -> space_mask (info_of w) u -> space_mask (info_of w') u.
Proof. unfold same_fixed, space_mask, fixed, fixed_info. by intros [= _ _ _ _ _ <- _ _ _]. Qed.

(** ** Calls on an address space *)

Lemma reach_u64 (m : vm (kstate P)) l p pre : kinv m -> reach (vs_physical_mask (kspace m)) (vs_root_phys (kspace m)) (vm_mem m) l p pre -> u64_ok p.
Proof.
  intros K Hr. pose proof (ki_vm _ K) as V. inversion Hr as [|l' p' pre' i Hr' Hl Hi Hp Hh]; subst; [apply (vi_root _ _ V)|]. apply land_u64. by apply (vi_entry _ _ V (l + 1) p' pre' i).
Qed.

Lemma table_pinned (m : vm (kstate P)) l p pre : kinv m -> reach (vs_physical_mask (kspace m)) (vs_root_phys (kspace m)) (vm_mem m) l p pre -> pinned (kframes m) p.
Proof.
  intros K Hr. pose proof (reach_u64 m l p pre K Hr) as Hu. destruct (vi_table _ _ (ki_vm _ K) l p pre Hr) as [_ Ho]. split_and!; [done|done|].
  apply not_true_iff_false. intros Ha. by apply (ki_tables _ K l p pre Hr).
Qed.

Lemma user_effect w u m' : kinv (w_kernel w) -> vm_step (user_view w u) m' ->
  effect w (from_user m' w) (fun g => g ∈ vm_frames u) (fun _ => False).
Proof.
  intros K S. destruct (state_wf m' (vp_state _ _ S)) as [Hw Hp]. assert (kinv (w_kernel (from_user m' w)) /\ forall a, vmm_query_page (w_kernel (from_user m' w)) a = vmm_query_page (w_kernel w) a) as [K' Q'].
  { apply (kinv_kept (w_kernel w)); [done|done|done|]. intros l p pre Hr. destruct (vi_table _ _ (ki_vm _ K) l p pre Hr) as [Ht _]. pose proof (table_pinned _ l p pre K Hr) as Hpin.
    destruct (vp_pins _ _ S p Hpin) as ((_ & Hus & Hna) & Em & Ek). cbn in Ek. split_and!; [cbn; rewrite Ek; exact Ht|done| |exact Em]. intros [_ Ha]. cbn in Ha. congruence. }
  constructor; [done|done| | |intros a _ _; apply Q'].
  - intros g Hg Hn. by destruct (proj2 (vp_keep _ _ S g) (conj Hg Hn)).
  - intros g i Hg Hn. by apply (vp_word _ _ S).
Qed.

Lemma from_user_view w u m' : vm_step (user_view w u) m' -> user_view (from_user m' w) (obj m') = m'.
Proof.
  intros S. pose proof (vp_cr3 _ _ S) as E3. pose proof (vp_cr4 _ _ S) as E4. cbn in E3, E4. destruct m' as [[u' fr c3 c4 fl pa] mem]. unfold user_view, from_user, with_kernel, w_mem, obj. cbn in *. by subst.
Qed.

Lemma world_user w nx fs hm L us p u m' : world_inv w nx fs hm L us -> us !! p = Some u -> vm_step (user_view w u) m' ->
  (uv_initialized (obj m') = true -> space_mask (info_of w) (obj m')) ->
  world_inv (from_user m' w) nx fs hm L (<[p := obj m']> us) /\ effect w (from_user m' w) (fun g => g ∈ vm_frames u) (fun _ => False).
Proof.
  intros I Hp S Hm. pose proof (user_effect w u m' (wi_kernel _ _ _ _ _ _ I) S) as E. split; [|done].
  assert (forall o g, o <> OVm p -> owns fs L us o g -> ~ g ∈ vm_frames u) as Hx.
  { intros o g Hne Ho Hg. apply (owner_apart _ _ _ _ _ _ o (OVm p) g I Hne Ho). by exists u. }
  assert (forall g, allocated (vm_ctx m') g <-> (held w g /\ ~ g ∈ vm_frames u) \/ g ∈ vm_frames (obj m')) as Ha.
  { intros g. split.
    - intros Hg. destruct (decide (g ∈ vm_frames (obj m'))); [by right|left]. apply (vp_keep _ _ S). by split.
    - intros [Hg|Hg]; [by apply (vp_keep _ _ S)|by apply (state_frames m' g (vp_state _ _ S))]. }
  destruct (owners_update (owns fs L us) (owns fs L (<[p := obj m']> us)) (fun g => held w g) (fun g => held (from_user m' w) g) (OVm p)) as [Hh Hu]; [apply I|apply I| | | |].
  - intros o g Hne. destruct o as [| |k|q]; cbn; [done..|]. by rewrite lookup_insert_ne by congruence.
  - intros g. etrans; [exact (Ha g)|]. cbn. rewrite lookup_insert_eq. split.
    + intros [[Hg Hn]|Hg]; [left; split; [done|]; intros (u' & E' & Hx'); by simplify_eq|right; by exists (obj m')].
    + intros [[Hg Hn]|(u' & [= <-] & Hg)]; [left; split; [done|]; intros Hx'; apply Hn; by exists u|by right].
  - intros g. cbn. rewrite lookup_insert_eq. intros (u' & [= <-] & Hg) Hh. exists u. split; [done|]. destruct (decide (g ∈ vm_frames u)) as [|Hn]; [done|]. by destruct (proj2 (vp_keep _ _ S g) (conj Hh Hn)).
  - constructor; [| | | |exact Hh|exact Hu].
    + apply (heap_stable w _ _ _ _ _ _ E); [done|apply I| |by intros ? ? []]. intros g Hg. by apply (Hx OHeap).
    + apply (stacks_stable w _ _ _ _ E); [done|apply I| |by intros ? ? ? ? []]. intros k gs g Hk Hg. apply (Hx (OStack k)); [done|]. by exists gs.
    + intros q v [(-> & <-)|(Hne & Hq)]%lookup_insert_Some; [rewrite (from_user_view w u m' S); apply S|]. apply (user_stable w _ _ _ _ E); [by apply (wi_vms _ _ _ _ _ _ I q)|]. intros g Hg. apply (Hx (OVm q)); [congruence|]. by exists v.
    + intros q v [(-> & <-)|(Hne & Hq)]%lookup_insert_Some Hi; [by apply Hm|]. by apply (wi_masks _ _ _ _ _ _ I q).
Qed.

(** ** Calls on the kernel's own memory *)

Lemma grown_effect w w' b flags gs : pg_grown (w_kernel w) (w_kernel w') b flags gs -> same_fixed (vm_ctx (w_kernel w)) (vm_ctx (w_kernel w')) ->
  effect w w' (fun _ => False) (fun a => b <= a < b + 4096 * Z.of_nat (length gs)).
Proof.
  intros G F. constructor; [apply G|done| | |].
  - intros g Hg _. apply (gr_held _ _ _ _ _ G). by left.
  - intros g i Hg _. by apply (gr_word _ _ _ _ _ G).
  - intros a Ha Hn. pose proof (gr_query _ _ _ _ _ G a Ha) as Q. cbn in Q. rewrite Q. destruct (gs !! _) eqn:El; [|done]. destruct (Z.leb_spec b a); [|done]. apply lookup_lt_Some in El. destruct Hn. split; [done|]. dlia.
Qed.

Lemma effect_weaken w w' X R (X' R' : Z -> Prop) : effect w w' X R -> (forall g, X g -> X' g) -> (forall a, R a -> R' a) -> effect w w' X' R'.
Proof.
  intros E HX HR. constructor; [apply E|apply E| | |].
  - intros g Hg Hn. apply (ef_held _ _ _ _ E); [done|]. by intros ?%HX.
  - intros g i Hg Hn. apply (ef_word _ _ _ _ E); [done|]. by intros ?%HX.
  - intros a Ha Hn. apply (ef_query _ _ _ _ E); [done|]. by intros ?%HR.
Qed.

(** The user spaces do not notice a step that changes what [o] has. *)
Lemma kernel_vms w w' nx fs hm L us o R : world_inv w nx fs hm L us -> effect w w' (owns fs L us o) R -> (forall p, o <> OVm p) ->
  (forall p u, us !! p = Some u -> vm_state (user_view w' u)) /\ (forall p u, us !! p = Some u -> uv_initialized u = true -> space_mask (info_of w') u).
Proof.
  intros I E Ho. split.
  - intros p u Hp. apply (user_stable w _ _ _ _ E); [by apply (wi_vms _ _ _ _ _ _ I p)|]. intros g Hg. apply (owner_apart _ _ _ _ _ _ (OVm p) o g I); [by apply not_eq_sym|by exists u].
  - intros p u Hp Hi. apply (mask_fixed w); [apply E|]. by apply (wi_masks _ _ _ _ _ _ I p).
Qed.

Definition heap_range (a : Z) : Prop := UTAMO_HEAP_BASE <= a < UTAMO_HEAP_BASE + UTAMO_HEAP_MAX_SIZE.
Definition stack_range (k a : Z) : Prop := guard_at k <= a < guard_at k + 69632.

Lemma ranges_apart k a : 0 <= k -> heap_range a -> ~ stack_range k a.
Proof. unfold heap_range, stack_range, guard_at, UTAMO_THREAD_STACK_REGION, UTAMO_THREAD_STACK_STRIDE, UTAMO_HEAP_BASE, UTAMO_HEAP_MAX_SIZE, VMM_DYNAMIC_BASE. lia. Qed.

Lemma world_heap w nx fs hm L us c : world_inv w nx fs hm L us -> call_ok c ->
  let (w', r) := on_heap (fun h => kheap_apply h c) w in exists fs' hm',
  world_inv w' nx fs' hm' L us /\ heap_step hm c r hm' /\ effect w w' (fun _ => False) heap_range.
Proof.
  intros I Hc. unfold on_heap. pose proof (kheap_apply_ok (heap_view w) nx fs hm c (wi_heap _ _ _ _ _ _ I) Hc) as Ha. pose proof (heap_fixed (heap_view w) c (ho_ready _ _ _ _ (wi_heap _ _ _ _ _ _ I))) as F.
  destruct (kheap_apply (heap_view w) c) as [h r]. cbn [fst] in F. destruct Ha as (gs & hm' & Ho & Hs & G). set (w' := from_heap h w).
  assert (heap_view w' = h) as Ev by (by destruct h as [[hp mem [bp bm]] rd]). pose proof (grown_effect w w' _ _ _ G F) as E0.
  assert (effect w w' (fun _ => False) heap_range) as E.
  { apply (effect_weaken _ _ _ _ _ _ E0); [done|]. intros a Ha. pose proof (bd_room _ _ _ (ho_backed _ _ _ _ Ho)) as Hroom. rewrite length_app in Hroom. unfold heap_range. lia. }
  exists (fs ++ gs), hm'. split_and!; [|done|done]. destruct (kernel_vms w w' nx fs hm L us OHeap heap_range I) as [Hv Hm]; [by apply (effect_weaken _ _ _ _ _ _ E)|done|].
  destruct (owners_update (owns fs L us) (owns (fs ++ gs) L us) (fun g => held w g) (fun g => held w' g) OHeap) as [Hh Hu]; [apply I|apply I| | | |].
  - by intros [| |k|q] g Hne.
  - intros g. cbn. pose proof (gr_held _ _ _ _ _ G g) as Hg. cbn in Hg. etrans; [exact Hg|]. rewrite elem_of_app. destruct (decide (g ∈ fs)) as [Hin|]; [|tauto]. split; [tauto|]. intros _. left.
    apply (wi_held _ _ _ _ _ _ I). by exists OHeap.
  - intros g. cbn. rewrite elem_of_app. intros [|Hg] Hx; [done|]. destruct (gr_fresh _ _ _ _ _ G) as [_ Hf]. by destruct (Hf g Hg) as (_ & _ & []).
  - constructor; [by rewrite Ev| |done|done|exact Hh|exact Hu]. apply (stacks_stable w _ _ _ _ E); [done|apply I|by intros ? ? ? ? ? []|]. intros k a [gs' Hk] Hr Hx.
    destruct (si_stack _ _ _ (wi_stacks _ _ _ _ _ _ I) k gs' Hk) as ([? _] & _). by apply (ranges_apart k a).
Qed.

Lemma world_stack_alloc w nx fs hm L us : world_inv w nx fs hm L us ->
  let (w', r) := stack_alloc w in
  match r with
  | Some t => exists k gs, 0 <= k < 64 /\ L !! k = None /\ t = descriptor k (arr_get (sk_generations (w_stacks w)) k + 1) /\
      sk_generations (w_stacks w') = arr_set (sk_generations (w_stacks w)) k (arr_get (sk_generations (w_stacks w)) k + 1) /\
      world_inv w' nx fs hm (<[k := gs]> L) us /\ effect w w' (fun _ => False) (stack_range k)
  | None => world_inv w' nx fs hm L us /\ effect w w' (fun _ => False) (fun _ => False) /\ w_stacks w' = w_stacks w
  end.
Proof.
  intros I. unfold stack_alloc. pose proof (alloc_spec (w_stacks w) (w_kernel w) L (wi_stacks _ _ _ _ _ _ I)) as Ha. pose proof (alloc_fixed (w_stacks w) (w_kernel w)) as F.
  destruct (thread_stack_alloc (w_stacks w) (w_kernel w)) as [[s m] [t|]]; cbn [fst snd] in F.
  - destruct Ha as (k & gs & Hk & Et & Eg & Hi & G). set (w' := with_stacks s (with_kernel m w)). exists k, gs.
    destruct (si_stack _ _ _ Hi k gs (lookup_insert_eq _ _ _)) as (Hr & _ & Hst). pose proof (grown_effect w w' _ _ _ G F) as E0. rewrite (sa_length _ _ _ Hst) in E0.
    assert (effect w w' (fun _ => False) (stack_range k)) as E by (apply (effect_weaken _ _ _ _ _ _ E0); [done|]; unfold stack_range; lia). split_and!; [lia|lia|done|done|done| |done].
    destruct (kernel_vms w w' nx fs hm L us (OStack k) (stack_range k) I) as [Hv Hm]; [by apply (effect_weaken _ _ _ _ _ _ E)|done|].
    destruct (owners_update (owns fs L us) (owns fs (<[k := gs]> L) us) (fun g => held w g) (fun g => held w' g) (OStack k)) as [Hh Hu]; [apply I|apply I| | | |].
    + intros [| |k'|q] g Hne; cbn; try done. by rewrite lookup_insert_ne by congruence.
    + intros g. cbn. pose proof (gr_held _ _ _ _ _ G g) as Hg. cbn in Hg. etrans; [exact Hg|]. rewrite lookup_insert_eq. split.
      * intros [|]; [left; split; [done|]; intros (gs' & E' & _); congruence|right; by exists gs].
      * intros [[? _]|(gs' & [= <-] & ?)]; auto.
    + intros g. cbn. rewrite lookup_insert_eq. intros (gs' & [= <-] & Hg) Hx. destruct (gr_fresh _ _ _ _ _ G) as [_ Hf]. by destruct (Hf g Hg) as (_ & _ & []).
    + constructor; [|exact Hi|done|done|exact Hh|exact Hu]. apply (heap_stable w _ _ _ _ _ _ E); [done|apply I|by intros ? ? []|]. intros a Hx. apply ranges_apart; [lia|done].
  - destruct Ha as (-> & S & _). set (w' := with_stacks (w_stacks w) (with_kernel m w)). pose proof (grown_effect w w' 0 0 [] (same_grown _ _ _ _ S) F) as E0.
    assert (effect w w' (fun _ => False) (fun _ => False)) as E by (apply (effect_weaken _ _ _ _ _ _ E0); [done|]; cbn; lia).
    destruct (kernel_vms w w' nx fs hm L us OBase (fun _ => False) I) as [Hv Hm]; [by apply (effect_weaken _ _ _ _ _ _ E)|done|]. split_and!; [|done|done].
    constructor; [|apply (stacks_stable w _ _ _ _ E); [done|apply I|by intros ? ? ? ? ? []|by intros ? ? ? ? []]|done|done| |apply I].
    + apply (heap_stable w _ _ _ _ _ _ E); [done|apply I|by intros ? ? []|by intros ? ? []].
    + intros g. pose proof (ps_held _ _ S g) as Hg. cbn in Hg. etrans; [exact Hg|]. apply I.
Qed.

Lemma pages_outside k g a : 0 <= k < 64 -> ~ stack_range k a -> existsb (fun p => a / 4096 =? p / 4096) (stack_pages (descriptor k g)) = false.
Proof.
  intros Hk Hn. apply not_true_iff_false. intros (p & Hp & E%Z.eqb_eq)%existsb_exists. rewrite descriptor_pages in Hp by done. apply list_elem_of_In, list_elem_of_fmap in Hp as (j & -> & Hj%elem_of_seq).
  destruct (guard_facts k Hk) as (_ & Hm & _). apply Hn. unfold stack_range. dlia.
Qed.

Lemma world_stack_free w nx fs hm L us t anchor : world_inv w nx fs hm L us -> 0 <= ts_slot t -> descriptor_valid (w_stacks w) t = true -> runs_on t anchor = false ->
  let (w', r) := stack_free t anchor w in r = (thread_stack_zero, true) /\ sk_generations (w_stacks w') = sk_generations (w_stacks w) /\
  world_inv w' nx fs hm (delete (ts_slot t) L) us /\ effect w w' (owns fs L us (OStack (ts_slot t))) (stack_range (ts_slot t)).
Proof.
  intros I Hs Hv Hr. unfold stack_free. pose proof (free_spec (w_stacks w) (w_kernel w) L t anchor (wi_stacks _ _ _ _ _ _ I) Hs) as Hf. pose proof (free_fixed (w_stacks w) (w_kernel w) t anchor) as F.
  destruct (live_descriptor (w_stacks w) (w_kernel w) L t (wi_stacks _ _ _ _ _ _ I) Hs Hv) as (gs & Hgs & Hk & Et & Hst). rewrite Hv, Hr in Hf. cbn [andb negb] in Hf.
  destruct (thread_stack_free _ _ t anchor) as [[[s m] t'] ok]. cbn [fst snd] in F. destruct Hf as (-> & gs' & Hgs' & -> & Eg & Rl & Hi). set (w' := with_stacks s (with_kernel m w)). assert (gs' = gs) as -> by congruence. clear Hgs'. set (k := ts_slot t) in *.
  assert (effect w w' (owns fs L us (OStack k)) (stack_range k)) as E.
  { constructor; [apply Rl|exact F| | |].
    - intros g Hg Hn. apply (rl_held _ _ _ _ Rl). split; [done|]. intros Hx. apply Hn. by exists gs.
    - intros g i Hg Hn. apply (rl_word _ _ _ _ Rl). apply (rl_held _ _ _ _ Rl). split; [done|]. intros Hx. apply Hn. by exists gs.
    - intros a Ha Hn. pose proof (rl_query _ _ _ _ Rl a Ha) as Q. rewrite Et in Q. rewrite (pages_outside k _ a Hk Hn) in Q. exact Q. }
  split_and!; [done|done| |done]. destruct (kernel_vms w w' nx fs hm L us (OStack k) (stack_range k) I E) as [Hvm Hm]; [done|].
  destruct (owners_update (owns fs L us) (owns fs (delete k L) us) (fun g => held w g) (fun g => held w' g) (OStack k)) as [Hh Hu]; [apply I|apply I| | | |].
  - intros [| |k'|q] g Hne; cbn; try done. by rewrite lookup_delete_ne by congruence.
  - intros g. cbn. pose proof (rl_held _ _ _ _ Rl g) as Hg. etrans; [exact Hg|]. rewrite lookup_delete_eq. split.
    + intros [Ha Hn]. left. split; [done|]. intros (gs' & E' & Hx). by simplify_eq.
    + intros [[Ha Hn]|(gs' & ? & _)]; [|done]. split; [done|]. intros Hx. apply Hn. by exists gs.
  - intros g. cbn. rewrite lookup_delete_eq. by intros (gs' & ? & _).
  - constructor; [|exact Hi|done|done|exact Hh|exact Hu]. apply (heap_stable w _ _ _ _ _ _ E); [done|apply I| |intros a Hx; apply ranges_apart; [lia|done]].
    intros g Hg. by apply (owner_apart _ _ _ _ _ _ OHeap (OStack k) g I).
Qed.

Lemma world_stack_frame w nx fs hm L us t entry sentinel : world_inv w nx fs hm L us -> 0 <= ts_slot t -> descriptor_valid (w_stacks w) t = true ->
  memory_is_canonical entry = true -> entry <> 0 -> memory_is_canonical sentinel = true -> sentinel <> 0 ->
  let (w', r) := stack_frame t entry sentinel w in r = Some (ts_top t - 192) /\ w_stacks w' = w_stacks w /\
  world_inv w' nx fs hm L us /\ effect w w' (owns fs L us (OStack (ts_slot t))) (fun _ => False) /\
  exists f flags, vmm_query_page (w_kernel w') (ts_top t - 4096) = Some (MkMapping true f flags 4096) /\
    forall i, w_mem w' f i = first_words (w_mem w) f (ts_top t) entry sentinel f i.
Proof.
  intros I Hs Hv He1 He2 Hn1 Hn2. unfold stack_frame. pose proof (frame_spec (w_stacks w) (w_kernel w) L t entry sentinel (wi_stacks _ _ _ _ _ _ I) Hs) as Hf.
  pose proof (frame_inv_kept (w_stacks w) (w_kernel w) L t entry sentinel (wi_stacks _ _ _ _ _ _ I) Hs) as Hi. destruct (live_descriptor (w_stacks w) (w_kernel w) L t (wi_stacks _ _ _ _ _ _ I) Hs Hv) as (gs & Hgs & Hk & Et & Hst).
  rewrite He1, Hn1, Hv, (proj2 (Z.eqb_neq _ _) He2), (proj2 (Z.eqb_neq _ _) Hn2) in Hf. cbn [andb negb] in Hf. destruct (thread_frame_init _ _ t entry sentinel) as [m r]. cbn [fst] in Hi.
  destruct Hf as (-> & Ec & gs' & f & Hgs' & Hf & Hm). assert (gs' = gs) as -> by congruence. clear Hgs'. set (w' := with_kernel m w). set (k := ts_slot t) in *.
  assert (f ∈ gs) as Hin by (by eapply list_elem_of_lookup_2). assert (effect w w' (owns fs L us (OStack k)) (fun _ => False)) as E.
  { destruct (frame_kernel (w_kernel w) f (vm_mem m) (wi_kernel _ _ _ _ _ _ I)) as [K' Q']; [by apply (sa_held _ _ _ Hst)| |].
    - intros g i Hne. rewrite Hm. unfold first_words. by assert (g =? f = false) as -> by lia.
    - constructor; [apply Hi|cbn; by rewrite Ec| | |].
      + intros g Hg _. cbn. by rewrite Ec.
      + intros g i Hg Hn. unfold w_mem. cbn. rewrite Hm. unfold first_words. destruct (Z.eqb_spec g f) as [-> |]; [|done]. destruct Hn. by exists gs.
      + intros a _ _. rewrite <- Q'. cbn. f_equal. rewrite <- Ec. by destruct m. }
  destruct (kernel_vms w w' nx fs hm L us (OStack k) (fun _ => False) I E) as [Hvm Hmk]; [done|]. split_and!; [done|done| |done|].
  - constructor; [|exact Hi|done|done| |apply I].
    + apply (heap_stable w _ _ _ _ _ _ E); [done|apply I| |by intros ? ? []]. intros g Hg. by apply (owner_apart _ _ _ _ _ _ OHeap (OStack k) g I).
    + intros g. cbn. rewrite Ec. apply I.
  - destruct (si_stack _ _ _ Hi k gs Hgs) as (_ & _ & Hst'). destruct (sa_pages _ _ _ Hst') as [nx' Hp]. exists f, (page_flags nx'). split; [|intros i; unfold w_mem; by rewrite <- Hm].
    specialize (Hp 15%nat f Hf). rewrite Et. cbn [ts_top descriptor]. replace (guard_at k + 69632 - 4096) with (guard_at k + 4096 + 4096 * Z.of_nat 15) by lia. exact Hp.
Qed.

(** ** Objects come and go; the address space changes *)

Lemma world_new w nx fs hm L us p : world_inv w nx fs hm L us -> us !! p = None -> world_inv w nx fs hm L (<[p := user_vm_zero]> us).
Proof.
  intros I Hp. assert (forall o g, owns fs L (<[p := user_vm_zero]> us) o g <-> owns fs L us o g) as Ho.
  { intros [| |k|q] g; cbn; try done. split.
    - intros (u & [(-> & <-)|(_ & Hq)]%lookup_insert_Some & Hg); [by apply elem_of_nil in Hg|by exists u].
    - intros (u & Hq & Hg). exists u. split; [|done]. rewrite lookup_insert_ne; [done|congruence]. }
  constructor; [apply I|apply I| | | |].
  - intros q u [(-> & <-)|(_ & Hq)]%lookup_insert_Some; [|by apply (wi_vms _ _ _ _ _ _ I q)]. apply vm_none. destruct (kinv_ctx w (wi_kernel _ _ _ _ _ _ I)). by constructor.
  - intros q u [(-> & <-)|(_ & Hq)]%lookup_insert_Some Hi; [done|by apply (wi_masks _ _ _ _ _ _ I q)].
  - intros g. rewrite (wi_held _ _ _ _ _ _ I). split; intros [o Hg]; exists o; by apply Ho.
  - intros o o' g Hg Hg'. by apply (wi_unique _ _ _ _ _ _ I o o' g); apply Ho.
Qed.

Lemma world_delete w nx fs hm L us p u : world_inv w nx fs hm L us -> us !! p = Some u -> uv_initialized u = false -> world_inv w nx fs hm L (delete p us).
Proof.
  intros I Hp Hu. assert (forall o g, owns fs L (delete p us) o g <-> owns fs L us o g) as Ho.
  { intros [| |k|q] g; cbn; try done. split.
    - intros (v & [_ Hq]%lookup_delete_Some & Hg). by exists v.
    - intros (v & Hq & Hg). exists v. split; [|done]. apply lookup_delete_Some. split; [|done]. intros <-. assert (v = u) as -> by congruence. unfold vm_frames in Hg. rewrite Hu in Hg. by apply elem_of_nil in Hg. }
  constructor; [apply I|apply I| | | |].
  - intros q v [_ Hq]%lookup_delete_Some. by apply (wi_vms _ _ _ _ _ _ I q).
  - intros q v [_ Hq]%lookup_delete_Some. by apply (wi_masks _ _ _ _ _ _ I q).
  - intros g. rewrite (wi_held _ _ _ _ _ _ I). split; intros [o Hg]; exists o; by apply Ho.
  - intros o o' g Hg Hg'. by apply (wi_unique _ _ _ _ _ _ I o o' g); apply Ho.
Qed.

Lemma cr3_effect w v X R : kinv (w_kernel w) -> effect w (with_cr3 v w) X R.
Proof. intros K. by constructor. Qed.

Lemma world_cr3 w nx fs hm L us v : world_inv w nx fs hm L us -> world_inv (with_cr3 v w) nx fs hm L us.
Proof.
  intros I. constructor; try apply I. intros p u Hp. apply (user_stable w _ (fun _ => False) (fun _ => False)); [by apply cr3_effect, (wi_kernel _ _ _ _ _ _ I)|by apply (wi_vms _ _ _ _ _ _ I p)|by intros ? ? []].
Qed.
End owners.
End world.
