(* ===== verification/Devices.v ===== *)
(** * Interrupt lines: controller, clock and keyboard
    (kernel/arch/x86_64/pic.c, kernel/drivers/timer/pit.c, pit_time.c,
    kernel/drivers/input/keyboard.c, kernel/input/input.c, kernel/interrupts/irq.c)

    The static variables of these files are the record [devices].  The devices
    themselves are behind I/O ports: what a port answers is an arbitrary
    sequence, and all accesses are recorded in their order.  The interrupt flag
    is saved and restored around the accesses and is left out. *)

From stdpp Require Import strings.
From S2P Require Import Prelude.
Open Scope Z_scope.

(** ** Ports *)

Inductive io_access := IoIn (port value : Z) | IoOut (port value : Z).
Record ports := MkPorts {
  po_answers : nat -> Z;        (** the values that reads return, in their order *)
  po_reads : nat;               (** the number of reads so far *)
  po_log : list io_access
}.

(** ** input.c: the ring of raw bytes *)

Definition UTAMO_INPUT_RING_CAPACITY : Z := 128.
Record input_ring := MkRing { ri_bytes : list Z; ri_head : Z; ri_tail : Z; ri_reset_pending : bool }.

Definition input_ring_init : input_ring := MkRing (replicate (Z.to_nat UTAMO_INPUT_RING_CAPACITY) 0) 0 0 false.
Definition input_ring_discard (ring : input_ring) : input_ring := MkRing (ri_bytes ring) (ri_head ring) (ri_head ring) true.
Definition input_ring_push (ring : input_ring) (byte : Z) : input_ring * bool :=
  let next := (ri_head ring +u 1) mod UTAMO_INPUT_RING_CAPACITY in
  if next =? ri_tail ring then (input_ring_discard ring, false)
  else (MkRing (arr_set (ri_bytes ring) (ri_head ring) byte) next (ri_tail ring) (ri_reset_pending ring), true).

(** The answers are [*reset], and [*byte] when the call returns [true]. *)
Definition input_ring_pop (ring : input_ring) : input_ring * (bool * option Z) :=
  let reset := ri_reset_pending ring in
  let ring := MkRing (ri_bytes ring) (ri_head ring) (ri_tail ring) false in
  if ri_head ring =? ri_tail ring then (ring, (reset, None))
  else (MkRing (ri_bytes ring) (ri_head ring) ((ri_tail ring +u 1) mod UTAMO_INPUT_RING_CAPACITY) false,
        (reset, Some (arr_get (ri_bytes ring) (ri_tail ring)))).
Definition input_ring_has_pending (ring : input_ring) : bool := negb (ri_head ring =? ri_tail ring) || ri_reset_pending ring.

(** ** input.c: scan codes of set 1 *)

Record input_decoder := MkDecoder {
  de_left_shift : bool; de_right_shift : bool; de_caps_lock : bool; de_caps_down : bool; de_extended : bool;
  de_pause_remaining : Z
}.
Definition input_decoder_init : input_decoder := MkDecoder false false false false false 0.

(** A run of entries of a table, from the code [first] on. *)
Definition entries (first : Z) (text : string) : list (Z * Z) :=
  zip (seqZ first (Z.of_nat (String.length text))) ((fun c => Z.of_N (Ascii.N_of_ascii c)) <$> String.list_ascii_of_string text).
Definition table_get (table : list (Z * Z)) (code : Z) : Z := from_option snd 0 (head (filter (fun e => e.1 = code) table)).

Definition plain : list (Z * Z) :=
  entries 0x02 "1234567890-=" ++ [(0x0e, 8); (0x0f, 9)] ++ entries 0x10 "qwertyuiop[]" ++ [(0x1c, 10)] ++
  entries 0x1e "asdfghjkl;'`" ++ entries 0x2b "\" ++ entries 0x2c "zxcvbnm,./" ++ entries 0x37 "*" ++ entries 0x39 " ".
Definition shifted : list (Z * Z) :=
  entries 0x02 "!@#$%^&*()_+" ++ entries 0x1a "{}" ++ entries 0x27 ":" ++ [(0x28, 34)] ++ entries 0x29 "~" ++
  entries 0x2b "|" ++ entries 0x33 "<>?".

Definition with_pause (n : Z) (d : input_decoder) : input_decoder :=
  MkDecoder (de_left_shift d) (de_right_shift d) (de_caps_lock d) (de_caps_down d) (de_extended d) n.
Definition with_extended (b : bool) (d : input_decoder) : input_decoder :=
  MkDecoder (de_left_shift d) (de_right_shift d) (de_caps_lock d) (de_caps_down d) b (de_pause_remaining d).

Definition input_decode_set1 (d : input_decoder) (byte : Z) : input_decoder * option Z :=
  if negb (de_pause_remaining d =? 0) then (with_pause (u8 (de_pause_remaining d - 1)) d, None)
  else if byte =? 0xe1 then (with_extended false (with_pause 5 d), None)
  else if byte =? 0xe0 then (with_extended true d, None)
  else
    let released := negb (Z.land byte 0x80 =? 0) in
    let code := Z.land byte 0x7f in
    if de_extended d then
      (with_extended false d,
       if negb released && ((code =? 0x1c) || (code =? 0x35)) then Some (if code =? 0x1c then 10 else 47) else None)
    else if (code =? 0x2a) || (code =? 0x36) then
      ((if code =? 0x2a then MkDecoder (negb released) (de_right_shift d) else MkDecoder (de_left_shift d) (negb released))
         (de_caps_lock d) (de_caps_down d) (de_extended d) (de_pause_remaining d), None)
    else if code =? 0x3a then
      (MkDecoder (de_left_shift d) (de_right_shift d)
         (if negb released && negb (de_caps_down d) then negb (de_caps_lock d) else de_caps_lock d)
         (negb released) (de_extended d) (de_pause_remaining d), None)
    else if released || (table_get plain code =? 0) then (d, None)
    else
      let shift := de_left_shift d || de_right_shift d in
      let result := table_get plain code in
      (d, Some (if (97 <=? result) && (result <=? 122) then
                  (if negb (eqb shift (de_caps_lock d)) then result - 97 + 65 else result)
                else if shift && negb (table_get shifted code =? 0) then table_get shifted code
                else result)).

(** ** The state of the devices *)

Record devices := MkDevices {
  dv_ports : ports;
  dv_master_mask : Z; dv_slave_mask : Z;      (** pic.c *)
  dv_ticks : Z;                               (** pit.c *)
  dv_raw_input : input_ring; dv_decoder : input_decoder; dv_initialized : bool   (** keyboard.c *)
}.
Definition with_ports (p : ports) (d : devices) : devices :=
  MkDevices p (dv_master_mask d) (dv_slave_mask d) (dv_ticks d) (dv_raw_input d) (dv_decoder d) (dv_initialized d).
Definition with_masks (m s : Z) (d : devices) : devices :=
  MkDevices (dv_ports d) m s (dv_ticks d) (dv_raw_input d) (dv_decoder d) (dv_initialized d).
Definition with_ticks (t : Z) (d : devices) : devices :=
  MkDevices (dv_ports d) (dv_master_mask d) (dv_slave_mask d) t (dv_raw_input d) (dv_decoder d) (dv_initialized d).
Definition with_keyboard (r : input_ring) (e : input_decoder) (i : bool) (d : devices) : devices :=
  MkDevices (dv_ports d) (dv_master_mask d) (dv_slave_mask d) (dv_ticks d) r e i.
Definition with_ring (r : input_ring) (d : devices) : devices := with_keyboard r (dv_decoder d) (dv_initialized d) d.
Definition with_decoder (e : input_decoder) (d : devices) : devices := with_keyboard (dv_raw_input d) e (dv_initialized d) d.

Definition Dev (A : Type) : Type := devices -> devices * A.
#[export] Instance dev_ret : MRet Dev := fun A x d => (d, x).
#[export] Instance dev_bind : MBind Dev := fun A B k f d => let (d, x) := f d in k x d.
Definition dgets {A} (f : devices -> A) : Dev A := fun d => (d, f d).
Definition dmodify (f : devices -> devices) : Dev unit := fun d => (f d, tt).
(** [a && b] of two calls. *)
Definition and_also (a b : Dev bool) : Dev bool := ok ← a; if ok : bool then b else mret false.

Definition io_in8 (port : Z) : Dev Z := fun d =>
  let p := dv_ports d in
  let value := u8 (po_answers p (po_reads p)) in
  (with_ports (MkPorts (po_answers p) (S (po_reads p)) (po_log p ++ [IoIn port value])) d, value).
Definition io_out8 (port value : Z) : Dev unit := fun d =>
  let p := dv_ports d in (with_ports (MkPorts (po_answers p) (po_reads p) (po_log p ++ [IoOut port value])) d, tt).

(** ** pic.c *)

Definition UTAMO_PIC_MASTER : Z := 0x20.
Definition UTAMO_PIC_SLAVE : Z := 0xa0.
Definition UTAMO_PIC_IRQ_COUNT : Z := 16.

Definition pic_write (port value : Z) : Dev unit := _ ← io_out8 port value; io_out8 0x80 0.

Definition pic_remap : Dev unit :=
  _ ← pic_write (UTAMO_PIC_MASTER + 1) 0xff;
  _ ← pic_write (UTAMO_PIC_SLAVE + 1) 0xff;
  _ ← pic_write UTAMO_PIC_MASTER 0x11;
  _ ← pic_write UTAMO_PIC_SLAVE 0x11;
  _ ← pic_write (UTAMO_PIC_MASTER + 1) 0x20;
  _ ← pic_write (UTAMO_PIC_SLAVE + 1) 0x28;
  _ ← pic_write (UTAMO_PIC_MASTER + 1) 0x04;
  _ ← pic_write (UTAMO_PIC_SLAVE + 1) 0x02;
  _ ← pic_write (UTAMO_PIC_MASTER + 1) 0x01;
  _ ← pic_write (UTAMO_PIC_SLAVE + 1) 0x01;
  _ ← dmodify (with_masks 0xff 0xff);
  _ ← pic_write (UTAMO_PIC_MASTER + 1) 0xff;
  pic_write (UTAMO_PIC_SLAVE + 1) 0xff.
Definition pic_init : Dev unit := pic_remap.

Definition set_master (m : Z) : Dev unit := dmodify (fun d => with_masks m (dv_slave_mask d) d).
Definition set_slave (s : Z) : Dev unit := dmodify (fun d => with_masks (dv_master_mask d) s d).

Definition pic_mask (irq : Z) : Dev unit :=
  if UTAMO_PIC_IRQ_COUNT <=? irq then mret tt
  else
    m ← dgets dv_master_mask;
    s ← dgets dv_slave_mask;
    _ ← (if irq <? 8 then set_master (Z.lor m (u8 (Z.shiftl 1 irq)))
         else
           let s := Z.lor s (u8 (Z.shiftl 1 (irq - 8))) in
           _ ← set_slave s;
           _ ← io_out8 (UTAMO_PIC_SLAVE + 1) s;
           if s =? 0xff then set_master (Z.lor m 0x04) else mret tt);
    m ← dgets dv_master_mask;
    io_out8 (UTAMO_PIC_MASTER + 1) m.

Definition pic_unmask (irq : Z) : Dev unit :=
  if UTAMO_PIC_IRQ_COUNT <=? irq then mret tt
  else
    m ← dgets dv_master_mask;
    s ← dgets dv_slave_mask;
    _ ← (if irq <? 8 then set_master (Z.land m (Z.ldiff 0xff (Z.shiftl 1 irq)))
         else
           let s := Z.land s (Z.ldiff 0xff (Z.shiftl 1 (irq - 8))) in
           _ ← set_slave s;
           _ ← set_master (Z.land m (Z.ldiff 0xff 0x04));
           io_out8 (UTAMO_PIC_SLAVE + 1) s);
    m ← dgets dv_master_mask;
    io_out8 (UTAMO_PIC_MASTER + 1) m.

Definition pic_begin_irq (irq : Z) : Dev bool :=
  if UTAMO_PIC_IRQ_COUNT <=? irq then mret false
  else if irq =? 7 then
    _ ← io_out8 UTAMO_PIC_MASTER 0x0b;
    v ← io_in8 UTAMO_PIC_MASTER;
    mret (negb (Z.land v 0x80 =? 0))
  else if irq =? 15 then
    _ ← io_out8 UTAMO_PIC_SLAVE 0x0b;
    v ← io_in8 UTAMO_PIC_SLAVE;
    if Z.land v 0x80 =? 0 then _ ← io_out8 UTAMO_PIC_MASTER 0x20; mret false
    else mret true
  else mret true.

Definition pic_send_eoi (irq : Z) : Dev unit :=
  if UTAMO_PIC_IRQ_COUNT <=? irq then mret tt
  else
    _ ← (if 8 <=? irq then io_out8 UTAMO_PIC_SLAVE 0x20 else mret tt);
    io_out8 UTAMO_PIC_MASTER 0x20.

(** ** pit.c and pit_time.c *)

Definition UTAMO_PIT_HZ : Z := 100.
Definition UTAMO_PIT_DIVISOR : Z := 11932.

Definition pit_init : Dev unit :=
  _ ← dmodify (with_ticks 0);
  _ ← io_out8 0x43 0x34;
  _ ← io_out8 0x40 (u8 (Z.land UTAMO_PIT_DIVISOR 0xff));
  io_out8 0x40 (u8 (Z.shiftr UTAMO_PIT_DIVISOR 8)).
Definition pit_on_irq : Dev unit := dmodify (fun d => if negb (dv_ticks d =? UINT64_MAX) then with_ticks (dv_ticks d +u 1) d else d).
Definition pit_get_ticks : Dev Z := dgets dv_ticks.
Definition pit_ticks_to_seconds (ticks : Z) : Z := ticks / UTAMO_PIT_HZ.
Definition pit_ticks_to_milliseconds (ticks : Z) : Z := if UINT64_MAX / 10 <? ticks then UINT64_MAX else ticks *u 10.

(** ** keyboard.c *)

Definition UTAMO_PS2_DATA : Z := 0x60.
Definition UTAMO_PS2_STATUS : Z := 0x64.
Definition UTAMO_PS2_COMMAND : Z := 0x64.
Definition UTAMO_PS2_POLL_LIMIT : Z := 100000.
Definition UTAMO_PS2_DRAIN_LIMIT : Z := 256.

(** The loops count down what is left of their limit. *)
Fixpoint write_polls (n : nat) : Dev bool :=
  match n with
  | O => mret false
  | S n => status ← io_in8 UTAMO_PS2_STATUS; if Z.land status 0x02 =? 0 then mret true else write_polls n
  end.
Definition wait_to_write : Dev bool := write_polls (Z.to_nat UTAMO_PS2_POLL_LIMIT).

Definition controller_command (command : Z) : Dev bool :=
  ok ← wait_to_write;
  if negb ok then mret false else _ ← io_out8 UTAMO_PS2_COMMAND command; mret true.
Definition write_data (value : Z) : Dev bool :=
  ok ← wait_to_write;
  if negb ok then mret false else _ ← io_out8 UTAMO_PS2_DATA value; mret true.

Fixpoint read_polls (n : nat) : Dev (option Z) :=
  match n with
  | O => mret None
  | S n =>
      status ← io_in8 UTAMO_PS2_STATUS;
      if negb (Z.land status 0x01 =? 0) then
        value ← io_in8 UTAMO_PS2_DATA;
        if negb (Z.land status 0xc0 =? 0) then mret None
        else if Z.land status 0x20 =? 0 then mret (Some value)
        else read_polls n
      else read_polls n
  end.
Definition read_response : Dev (option Z) := read_polls (Z.to_nat UTAMO_PS2_POLL_LIMIT).

Fixpoint command_attempts (n : nat) (command : Z) : Dev bool :=
  match n with
  | O => mret false
  | S n =>
      sent ← write_data command;
      if negb sent then mret false
      else
        response ← read_response;
        match response with
        | None => mret false
        | Some r => if r =? 0xfa then mret true else if negb (r =? 0xfe) then mret false else command_attempts n command
        end
  end.
Definition keyboard_command (command : Z) : Dev bool := command_attempts 3 command.
Definition write_configuration (configuration : Z) : Dev bool := and_also (controller_command 0x60) (write_data configuration).

(** Whether the controller's buffer is empty before the limit. *)
Fixpoint drain (n : nat) : Dev bool :=
  match n with
  | O => mret false
  | S n =>
      status ← io_in8 UTAMO_PS2_STATUS;
      if negb (Z.land status 0x01 =? 0) then
        _ ← io_in8 UTAMO_PS2_DATA;
        match n with O => mret false | S _ => drain n end
      else mret true
  end.

(** A response is read, and it is [expected]. *)
Definition responds (expected : Z) : Dev bool := r ← read_response; mret (bool_decide (r = Some expected)).

Definition keyboard_init : Dev bool :=
  _ ← dmodify (with_keyboard input_ring_init input_decoder_init false);
  ok ← and_also (controller_command 0xad) (controller_command 0xa7);
  if negb ok then mret false
  else
    empty ← drain (Z.to_nat UTAMO_PS2_DRAIN_LIMIT);
    if negb empty then mret false
    else
      asked ← controller_command 0x20;
      if negb asked then mret false
      else
        answer ← read_response;
        match answer with
        | None => mret false
        | Some configuration =>
            let configuration := u8 (Z.lor (Z.land configuration 0xbc) 0x20) in
            ok ← write_configuration configuration;
            if negb ok then mret false
            else
              ok ← and_also (controller_command 0xab) (and_also (responds 0x00) (controller_command 0xae));
              if negb ok then mret false
              else
                ok ← and_also (keyboard_command 0xf5) (and_also (keyboard_command 0xf0) (and_also (keyboard_command 0x01)
                       (and_also (keyboard_command 0xf0) (and_also (keyboard_command 0x00) (and_also (responds 0x01) (keyboard_command 0xf4))))));
                if negb ok then mret false
                else
                  let configuration := u8 (Z.lor (Z.land configuration 0xaf) 0x01) in
                  ok ← write_configuration configuration;
                  if negb ok then mret false
                  else
                    _ ← dmodify (fun d => with_keyboard (dv_raw_input d) (dv_decoder d) true d);
                    mret true
        end.

Definition keyboard_on_irq : Dev unit :=
  status ← io_in8 UTAMO_PS2_STATUS;
  if Z.land status 0x01 =? 0 then mret tt
  else
    byte ← io_in8 UTAMO_PS2_DATA;
    ready ← dgets dv_initialized;
    if negb ready || negb (Z.land status 0x20 =? 0) then mret tt
    else if negb (Z.land status 0xc0 =? 0) then dmodify (fun d => with_ring (input_ring_discard (dv_raw_input d)) d)
    else dmodify (fun d => with_ring (fst (input_ring_push (dv_raw_input d) byte)) d).

Fixpoint read_chars (n : nat) : Dev (option Z) :=
  match n with
  | O => mret None
  | S n =>
      r ← (fun d => let (ring, r) := input_ring_pop (dv_raw_input d) in (with_ring ring d, r));
      _ ← (if fst r : bool then dmodify (with_decoder input_decoder_init) else mret tt);
      match snd r with
      | None => mret None
      | Some byte =>
          c ← (fun d => let (e, c) := input_decode_set1 (dv_decoder d) byte in (with_decoder e d, c));
          match c with Some c => mret (Some c) | None => read_chars n end
      end
  end.
Definition keyboard_read_char : Dev (option Z) := read_chars (Z.to_nat UTAMO_INPUT_RING_CAPACITY).
Definition keyboard_has_pending : Dev bool := dgets (fun d => input_ring_has_pending (dv_raw_input d)).

(** ** irq.c *)

Definition irq_dispatch (irq : Z) : Dev unit :=
  real ← pic_begin_irq irq;
  if negb real then mret tt
  else
    _ ← (if irq =? 0 then pit_on_irq else if irq =? 1 then keyboard_on_irq else pic_mask irq);
    pic_send_eoi irq.

(** ** The ring is a queue of 127 bytes *)

Record ring_wf (r : input_ring) : Prop := {
  rw_length : length (ri_bytes r) = 128%nat;
  rw_head : 0 <= ri_head r < 128;
  rw_tail : 0 <= ri_tail r < 128
}.
Definition ring_queue (r : input_ring) : list Z :=
  (fun i => arr_get (ri_bytes r) ((ri_tail r + i) mod 128)) <$> seqZ 0 ((ri_head r - ri_tail r) mod 128).

Lemma ring_length r : Z.of_nat (length (ring_queue r)) = (ri_head r - ri_tail r) mod 128.
Proof. unfold ring_queue. rewrite length_fmap, length_seqZ. dlia. Qed.

Lemma queue_empty r : ring_wf r -> ring_queue r = [] <-> ri_head r = ri_tail r.
Proof.
  intros [_ Hh Ht]. pose proof (ring_length r) as Hl. split.
  - intros E. rewrite E in Hl. cbn in Hl. dlia.
  - intros E. apply nil_length_inv. rewrite E, Z.sub_diag in Hl. change (0 mod 128) with 0 in Hl. lia.
Qed.

Lemma discard_spec r : ring_wf r -> ring_wf (input_ring_discard r) /\ ring_queue (input_ring_discard r) = [].
Proof. intros W. pose proof W as [Hl Hh Ht]. split; [by constructor|]. unfold ring_queue, input_ring_discard. cbn. by rewrite Z.sub_diag. Qed.

(** A full ring loses everything and says so at the next read; otherwise the byte
    is the last of the queue. *)
Lemma push_spec r b : ring_wf r -> let (r', ok) := input_ring_push r b in ring_wf r' /\ ok = (length (ring_queue r) <? 127)%nat /\
  if ok then ring_queue r' = ring_queue r ++ [b] /\ ri_reset_pending r' = ri_reset_pending r else r' = input_ring_discard r.
Proof.
  intros W. pose proof W as [Hl Hh Ht]. pose proof (ring_length r) as Hq. unfold input_ring_push. rewrite u64_small by (unfold u64_ok, UINT64_MAX; lia). unfold UTAMO_INPUT_RING_CAPACITY.
  destruct (Z.eqb_spec ((ri_head r + 1) mod 128) (ri_tail r)) as [E|E].
  - split; [by apply discard_spec|]. split; [|done]. symmetry. apply Nat.ltb_ge. dlia.
  - split; [constructor; cbn; [by rewrite length_arr_set|dlia|lia]|]. split; [symmetry; apply Nat.ltb_lt; dlia|]. split; [|done].
    unfold ring_queue. cbn [ri_bytes ri_head ri_tail]. assert (((ri_head r + 1) mod 128 - ri_tail r) mod 128 = (ri_head r - ri_tail r) mod 128 + 1) as -> by dlia.
    set (n := (ri_head r - ri_tail r) mod 128) in *. assert (0 <= n < 128) as Hn by (unfold n; dlia). rewrite seqZ_app by lia. rewrite fmap_app. change (seqZ (0 + n) 1) with [0 + n]. cbn [fmap list_fmap].
    assert ((ri_tail r + (0 + n)) mod 128 = ri_head r) as -> by (unfold n; dlia). rewrite arr_get_set_eq by lia. f_equal. apply list_fmap_ext. intros i x Hx. apply list_elem_of_lookup_2, elem_of_seqZ in Hx.
    apply arr_get_set_ne; [dlia|dlia|]. unfold n in Hx. dlia.
Qed.

Lemma pop_spec r : ring_wf r -> let '(r', (reset, byte)) := input_ring_pop r in ring_wf r' /\ reset = ri_reset_pending r /\ ri_reset_pending r' = false /\
  byte = head (ring_queue r) /\ ring_queue r' = tail (ring_queue r).
Proof.
  intros W. pose proof W as [Hl Hh Ht]. pose proof (queue_empty r W) as He. unfold input_ring_pop. cbn [ri_head ri_tail ri_bytes]. rewrite u64_small by (unfold u64_ok, UINT64_MAX; lia). unfold UTAMO_INPUT_RING_CAPACITY.
  destruct (Z.eqb_spec (ri_head r) (ri_tail r)) as [E|E].
  - rewrite (proj2 He E). split_and!; [by constructor|done|done|done|]. unfold ring_queue. cbn. by rewrite E, Z.sub_diag.
  - split; [constructor; cbn; [done|done|dlia]|]. split; [done|]. split; [done|]. unfold ring_queue. cbn [ri_head ri_tail ri_bytes].
    assert ((ri_head r - (ri_tail r + 1) mod 128) mod 128 = (ri_head r - ri_tail r) mod 128 - 1) as -> by dlia. set (n := (ri_head r - ri_tail r) mod 128). assert (0 < n < 128) as Hn by (unfold n; dlia).
    rewrite (seqZ_cons 0 n) by lia. cbn [fmap list_fmap head tail]. split; [f_equal; f_equal; dlia|]. change (Z.succ 0) with 1. replace (Z.pred n) with (n - 1) by lia.
    rewrite <- (fmap_add_seqZ 1 0). rewrite <- list_fmap_compose. apply list_fmap_ext. intros i x _. cbn. f_equal. rewrite Zplus_mod_idemp_l. f_equal. lia.
Qed.

(** ** What the keyboard delivers *)

Definition kb_queue (d : devices) : list Z := ring_queue (dv_raw_input d).

(** The first character that scan codes produce, with what is left of them. *)
Fixpoint scan (e : input_decoder) (codes : list Z) : input_decoder * list Z * option Z :=
  match codes with
  | [] => (e, [], None)
  | byte :: codes =>
      match input_decode_set1 e byte with
      | (e, Some c) => (e, codes, Some c)
      | (e, None) => scan e codes
      end
  end.

Lemma read_chars_spec n : forall d, ring_wf (dv_raw_input d) -> (length (kb_queue d) < n)%nat ->
  let e := if ri_reset_pending (dv_raw_input d) then input_decoder_init else dv_decoder d in
  let '(d', c) := read_chars n d in
  ring_wf (dv_raw_input d') /\ scan e (kb_queue d) = (dv_decoder d', kb_queue d', c) /\
  ri_reset_pending (dv_raw_input d') = false /\ d' = with_keyboard (dv_raw_input d') (dv_decoder d') (dv_initialized d) d.
Proof.
  induction n as [|n IH]; intros d W Hn; [lia|]. intros e. cbn [read_chars]. unfold mbind, dev_bind. pose proof (pop_spec _ W) as Hp. destruct (input_ring_pop (dv_raw_input d)) as [r [reset byte]]. destruct Hp as (W' & -> & Hr & Hb & Hq). cbn [fst snd].
  set (d1 := with_ring r d). assert (exists d2, (if ri_reset_pending (dv_raw_input d) then dmodify (with_decoder input_decoder_init) else mret tt) d1 = (d2, tt) /\ d2 = with_keyboard r e (dv_initialized d) d) as (d2 & -> & ->).
  { unfold e. destruct (ri_reset_pending _); eexists; split; reflexivity. }
  unfold kb_queue in *. destruct (ring_queue (dv_raw_input d)) as [|b q] eqn:Eq; cbn [head tail] in *; subst byte.
  { cbn. by rewrite Hq. }
  cbn [scan dv_decoder dv_raw_input with_keyboard]. destruct (input_decode_set1 e b) as [e' [c|]]; cbn; [by rewrite Hq|].
  specialize (IH (with_keyboard r e' (dv_initialized d) d)). cbn in IH. rewrite Hr, Hq in IH. change (with_decoder e' (with_keyboard r e (dv_initialized d) d)) with (with_keyboard r e' (dv_initialized d) d).
  destruct (read_chars n _) as [d' c]. apply IH; [done|cbn in Hn; lia].
Qed.

(** The limit on the loop never cuts a sequence short: one call of
    [keyboard_read_char] decodes what is queued up to its first character. *)
Lemma read_char_spec d : ring_wf (dv_raw_input d) ->
  let e := if ri_reset_pending (dv_raw_input d) then input_decoder_init else dv_decoder d in
  let '(d', c) := keyboard_read_char d in
  ring_wf (dv_raw_input d') /\ scan e (kb_queue d) = (dv_decoder d', kb_queue d', c) /\
  ri_reset_pending (dv_raw_input d') = false /\ d' = with_keyboard (dv_raw_input d') (dv_decoder d') (dv_initialized d) d.
Proof. intros W. apply (read_chars_spec _ d W). pose proof (ring_length (dv_raw_input d)). unfold kb_queue. change (Z.to_nat UTAMO_INPUT_RING_CAPACITY) with 128%nat. dlia. Qed.

Lemma read_char_ticks d : dv_ticks (fst (keyboard_read_char d)) = dv_ticks d.
Proof.
  unfold keyboard_read_char. generalize (Z.to_nat UTAMO_INPUT_RING_CAPACITY). intros n. revert d. induction n as [|n IH]; intros d; [done|]. cbn [read_chars]. unfold mbind, dev_bind. destruct (input_ring_pop _) as [r [reset [b|]]]; cbn [fst snd].
  - assert (forall d1, dv_ticks d1 = dv_ticks d -> dv_ticks (fst (let (d, c) := let (e, c) := input_decode_set1 (dv_decoder d1) b in (with_decoder e d1, c) in match c with Some c => mret (Some c) | None => read_chars n end d)) = dv_ticks d) as Hd.
    { intros d1 E. destruct (input_decode_set1 _ _) as [e [c|]]; cbn; [exact E|]. by rewrite IH. }
    destruct reset; cbn [dmodify mret dev_ret]; by apply Hd.
  - by destruct reset.
Qed.

(** ** The interrupt controller *)

(** The accesses of a call: what it appends to the record. *)
Definition does (l : list io_access) (d d' : devices) : Prop := po_log (dv_ports d') = po_log (dv_ports d) ++ l.
Definition count_io (x : io_access) (l : list io_access) : Z := count_if (fun y => match x, y with IoOut p v, IoOut q w => (p =? q) && (v =? w) | _, _ => false end) l.
Definition master_eoi : io_access := IoOut UTAMO_PIC_MASTER 0x20.
Definition slave_eoi : io_access := IoOut UTAMO_PIC_SLAVE 0x20.

(** A request that the controller stands by: lines 7 and 15 are asked for. *)
Definition genuine (irq : Z) (d : devices) : bool :=
  if (irq =? 7) || (irq =? 15) then negb (Z.land (u8 (po_answers (dv_ports d) (po_reads (dv_ports d)))) 0x80 =? 0) else true.

(** What a handler may do: read ports, and write none of the two commands. *)
Definition handles (d d' : devices) : Prop := exists l, does l d d' /\ count_io master_eoi l = 0 /\ count_io slave_eoi l = 0.

Lemma handles_refl d : handles d d.
Proof. exists []. split; [|done]. unfold does. by rewrite app_nil_r. Qed.
Lemma handles_in port d : handles d (fst (io_in8 port d)).
Proof. eexists [_]. by split. Qed.
Lemma handles_out port value d : port <> UTAMO_PIC_MASTER -> port <> UTAMO_PIC_SLAVE -> handles d (fst (io_out8 port value d)).
Proof. intros H1 H2. eexists [_]. split; [done|]. unfold count_io, master_eoi, slave_eoi. cbn [count_if]. by rewrite (proj2 (Z.eqb_neq UTAMO_PIC_MASTER port)), (proj2 (Z.eqb_neq UTAMO_PIC_SLAVE port)). Qed.
Lemma handles_trans d1 d2 d3 : handles d1 d2 -> handles d2 d3 -> handles d1 d3.
Proof.
  intros (l & E & H1 & H2) (l' & E' & H1' & H2'). exists (l ++ l'). unfold does, count_io in *. rewrite E', E, app_assoc, !count_if_app. split_and!; [done|lia|lia].
Qed.
Lemma handles_ports d d' : dv_ports d' = dv_ports d -> handles d d'.
Proof. intros E. exists []. split; [|done]. unfold does. by rewrite E, app_nil_r. Qed.

Lemma mask_handles irq d : handles d (fst (pic_mask irq d)).
Proof.
  unfold pic_mask. destruct (_ <=? irq); [apply handles_refl|]. unfold mbind, dev_bind, dgets. destruct (irq <? 8).
  - cbn [set_master dmodify]. eapply handles_trans; [|by apply handles_out]. by apply handles_ports.
  - cbn [set_slave set_master dmodify]. set (s := Z.lor _ _). set (d1 := with_masks _ s d). pose proof (handles_out (UTAMO_PIC_SLAVE + 1) s d1 ltac:(done) ltac:(done)) as H1. destruct (io_out8 _ s d1) as [d2 []]. cbn [fst] in H1.
    assert (handles d d2) as H2 by (eapply handles_trans; [|exact H1]; by apply handles_ports). destruct (s =? 0xff); cbn [dmodify mret dev_ret]; (eapply handles_trans; [exact H2|]).
    + eapply handles_trans; [|by apply handles_out]. by apply handles_ports.
    + by apply handles_out.
Qed.

Lemma keyboard_handles d : handles d (fst (keyboard_on_irq d)).
Proof.
  unfold keyboard_on_irq, mbind, dev_bind. pose proof (handles_in UTAMO_PS2_STATUS d) as H1. destruct (io_in8 UTAMO_PS2_STATUS d) as [d1 status]. cbn [fst] in H1. destruct (_ =? 0); [exact H1|].
  pose proof (handles_in UTAMO_PS2_DATA d1) as H2. destruct (io_in8 UTAMO_PS2_DATA d1) as [d2 byte]. cbn [fst] in H2. pose proof (handles_trans _ _ _ H1 H2) as H3. unfold dgets. destruct (_ || _); [exact H3|].
  destruct (negb _); (eapply handles_trans; [exact H3|]); by apply handles_ports.
Qed.

Lemma begin_spec irq d : 0 <= irq < 16 -> exists d1 l, pic_begin_irq irq d = (d1, genuine irq d) /\ d1 = with_ports (dv_ports d1) d /\ does l d d1 /\
  count_io slave_eoi l = 0 /\ count_io master_eoi l = (if (irq =? 15) && negb (genuine irq d) then 1 else 0).
Proof.
  intros Hirq. unfold pic_begin_irq, genuine. rewrite (proj2 (Z.leb_gt UTAMO_PIC_IRQ_COUNT irq)) by (unfold UTAMO_PIC_IRQ_COUNT; lia). unfold mbind, dev_bind.
  destruct (Z.eqb_spec irq 7) as [-> |]; [|destruct (Z.eqb_spec irq 15) as [-> |]]; cbn [orb].
  - eexists _, [_; _]. split; [reflexivity|]. split_and!; [done|unfold does; cbn; by rewrite <- app_assoc|done|done].
  - cbn. destruct (_ =? 0); cbn.
    + eexists _, [_; _; _]. split; [reflexivity|]. split_and!; [done|unfold does; cbn; by rewrite <- !app_assoc|done|done].
    + eexists _, [_; _]. split; [reflexivity|]. split_and!; [done|unfold does; cbn; by rewrite <- app_assoc|done|done].
  - exists d, []. split_and!; [done|by destruct d|unfold does; by rewrite app_nil_r|done|done].
Qed.

Lemma eoi_spec irq d : 0 <= irq < 16 -> let d' := fst (pic_send_eoi irq d) in d' = with_ports (dv_ports d') d /\ does ((if 8 <=? irq then [slave_eoi] else []) ++ [master_eoi]) d d'.
Proof.
  intros Hirq. unfold pic_send_eoi, mbind, dev_bind, does. rewrite (proj2 (Z.leb_gt UTAMO_PIC_IRQ_COUNT irq)) by (unfold UTAMO_PIC_IRQ_COUNT; lia). destruct (8 <=? irq); cbn; [by rewrite <- app_assoc|done].
Qed.

(** Every interrupt is acknowledged as the controllers ask: a genuine one once at the
    master, and once at the slave when it came from there, after its handler and
    with nothing after it; of the spurious ones, line 7 not at all and line 15 at
    the master only. *)
Lemma irq_acknowledged irq d : 0 <= irq < 16 -> exists l,
  does l d (fst (irq_dispatch irq d)) /\
  count_io master_eoi l = (if genuine irq d || (irq =? 15) then 1 else 0) /\
  count_io slave_eoi l = (if genuine irq d && (8 <=? irq) then 1 else 0) /\
  (genuine irq d = true -> last l = Some master_eoi).
Proof.
  intros Hirq. destruct (begin_spec irq d Hirq) as (d1 & l1 & E & _ & D1 & S1 & M1). unfold irq_dispatch. unfold mbind at 1, dev_bind at 1. rewrite E. destruct (genuine irq d); cbn [negb orb andb] in *; cycle 1.
  { exists l1. rewrite andb_true_r in M1. by split_and!. }
  rewrite andb_false_r in M1. assert (handles d1 (fst ((if irq =? 0 then pit_on_irq else if irq =? 1 then keyboard_on_irq else pic_mask irq) d1))) as (l2 & D2 & M2 & S2).
  { destruct (irq =? 0); [|destruct (irq =? 1)]; [|apply keyboard_handles|apply mask_handles]. apply handles_ports. cbn. by destruct (negb _). }
  unfold mbind, dev_bind. destruct ((if irq =? 0 then pit_on_irq else if irq =? 1 then keyboard_on_irq else pic_mask irq) d1) as [d2 []]. cbn [fst] in D2. destruct (eoi_spec irq d2 Hirq) as [_ D3]. exists ((l1 ++ l2 ++ (if 8 <=? irq then [slave_eoi] else [])) ++ [master_eoi]).
  unfold does, count_io in *. rewrite !count_if_app, M1, M2, S1, S2, last_snoc, D3, D2, D1. split_and!; [by rewrite <- !app_assoc| | |done]; by destruct (8 <=? irq).
Qed.

(** The clock never goes back, and moves only on line 0. *)
Lemma irq_ticks irq d : u64_ok (dv_ticks d) -> 0 <= irq < 16 ->
  dv_ticks (fst (irq_dispatch irq d)) = (if irq =? 0 then Z.min (dv_ticks d + 1) UINT64_MAX else dv_ticks d).
Proof.
  intros Hu Hirq. destruct (begin_spec irq d Hirq) as (d1 & l1 & E & E1 & _). assert (dv_ticks d1 = dv_ticks d) as Et by (by rewrite E1). unfold irq_dispatch. unfold mbind at 1, dev_bind at 1. rewrite E. destruct (genuine irq d) eqn:G; cbn [negb]; cycle 1.
  { destruct (Z.eqb_spec irq 0) as [-> |]; [done|exact Et]. }
  assert (dv_ticks (fst ((if irq =? 0 then pit_on_irq else if irq =? 1 then keyboard_on_irq else pic_mask irq) d1)) = if irq =? 0 then Z.min (dv_ticks d + 1) UINT64_MAX else dv_ticks d) as Hh.
  { rewrite <- Et. destruct (irq =? 0); [|destruct (irq =? 1)].
    - cbn. rewrite <- Et in Hu. unfold u64_ok in Hu. destruct (Z.eqb_spec (dv_ticks d1) UINT64_MAX); cbn; [lia|]. rewrite u64_small by (unfold u64_ok; lia). lia.
    - unfold keyboard_on_irq, mbind, dev_bind. cbn. destruct (_ =? 0); [done|]. cbn. destruct (_ || _); [done|]. by destruct (negb _).
    - unfold pic_mask, mbind, dev_bind. destruct (_ <=? irq); [done|]. destruct (irq <? 8); cbn; [done|]. by destruct (_ =? 255). }
  unfold mbind, dev_bind. destruct ((if irq =? 0 then pit_on_irq else if irq =? 1 then keyboard_on_irq else pic_mask irq) d1) as [d2 []]. cbn [fst] in Hh. destruct (eoi_spec irq d2 Hirq) as [-> _]. exact Hh.
Qed.

(** ** The keyboard's line *)

(** A byte from the keyboard, reported without an error, goes to the end of the queue. *)
Lemma key_queued d : ring_wf (dv_raw_input d) -> dv_initialized d = true -> let status := u8 (po_answers (dv_ports d) (po_reads (dv_ports d))) in
  Z.land status 0x01 <> 0 -> Z.land status 0x20 = 0 -> Z.land status 0xc0 = 0 -> (length (kb_queue d) < 127)%nat ->
  let d' := fst (irq_dispatch 1 d) in ring_wf (dv_raw_input d') /\ kb_queue d' = kb_queue d ++ [u8 (po_answers (dv_ports d) (S (po_reads (dv_ports d))))].
Proof.
  intros W Hi status H1 H2 H3 Hn. pose proof (push_spec (dv_raw_input d) (u8 (po_answers (dv_ports d) (S (po_reads (dv_ports d))))) W) as Hp. unfold kb_queue in *.
  assert (exists p, fst (keyboard_on_irq d) = with_ports p (with_ring (fst (input_ring_push (dv_raw_input d) (u8 (po_answers (dv_ports d) (S (po_reads (dv_ports d))))))) d)) as [p Ek].
  { unfold keyboard_on_irq, mbind, dev_bind, io_in8, dgets, dmodify. cbv beta iota zeta. fold status. rewrite (proj2 (Z.eqb_neq _ _) H1). cbv beta iota zeta. cbn [with_ports dv_initialized]. rewrite Hi, H2, H3. cbn [negb orb Z.eqb fst]. eexists. reflexivity. }
  change (irq_dispatch 1 d) with (let (d1, _) := keyboard_on_irq d in pic_send_eoi 1 d1). destruct (keyboard_on_irq d) as [d1 []]. cbn [fst] in Ek. subst d1. destruct (eoi_spec 1 (with_ports p (with_ring (fst (input_ring_push (dv_raw_input d) (u8 (po_answers (dv_ports d) (S (po_reads (dv_ports d))))))) d)) ltac:(lia)) as [-> _].
  cbn. destruct (input_ring_push _ _) as [r ok]. destruct Hp as (W' & -> & Hq). apply Nat.ltb_lt in Hn. rewrite Hn in Hq. by destruct Hq.
Qed.

(** The decoder and the ring on the keys of a test: left shift with a letter, caps
    lock with a letter and with a digit, the keypad's enter. *)
Definition typed (codes : list Z) : list Z :=
  (fix go (n : nat) (d : devices) := match n with O => [] | S n => match keyboard_read_char d with (d, Some c) => c :: go n d | (_, None) => [] end end) (length codes)
  (foldl (fun d code => fst (irq_dispatch 1 (with_ports (MkPorts (fun n => match n with O => 1 | _ => code end) 0 []) d)))
     (MkDevices (MkPorts (fun _ => 0) 0 []) 0xff 0xff 0 input_ring_init input_decoder_init true) codes).

Example typed_keys : typed [0x2a; 0x1e; 0x9e; 0xaa; 0x3a; 0xba; 0x30; 0x03; 0xe0; 0x1c; 0x28; 0x36; 0x28] = [65; 66; 50; 10; 39; 34].
Proof. vm_compute. reflexivity. Qed.
