(* ===== verification/System.v ===== *)
(** * Threads and processes (kernel/core/scheduler.c, process.c): state

    [system] is the state of scheduler.c and process.c: their static variables,
    the objects they keep in the heap, and the machine of World.v.  The contents
    of a heap object are the entry at its address in a store of its type
    ([y_threads], [y_procs], and the task nodes in [s_mem (y_sched y)]);
    [kcalloc] makes a zeroed entry and [kfree] removes it.  A [struct
    kernel_thread] starts with its task, so both have the same address.  Saved
    interrupt frames are entries of [y_saved] at their address on a stack.
    [NULL] is address 0.

    The code runs in the monad [Sys]; [None] is a [PANIC], which does not return,
    also one below.  Functions that read the interrupt flag take it as the
    argument [iflag].  The addresses that the linker chooses are [layout]. *)

From stdpp Require Import gmap.
From S2P Require Import Prelude MemoryHelpers Bytes VmmCore Frames KernelVm HeapCore KernelHeap ThreadStack UserVm SchedCore Vfs ElfLoad World Devices.
Open Scope Z_scope.

Definition UTAMO_PROCESS_FD_LIMIT : Z := 16.
Definition UTAMO_PROCESS_LIMIT : Z := 16.
Definition UTAMO_PROCESS_NAME_SIZE : Z := 24.
Definition UTAMO_PROCESS_HISTORY : Z := 64.
Definition UTAMO_THREAD_NAME_SIZE : nat := 24.
Definition UTAMO_SCHEDULE_VECTOR : Z := 240.
Definition UTAMO_SYSCALL_VECTOR : Z := 128.
Definition UTAMO_GDT_USER_CODE_SELECTOR : Z := 0x1b.
Definition UTAMO_GDT_USER_DATA_SELECTOR : Z := 0x23.
Definition INT64_MAX : Z := 9223372036854775807.
(** [sizeof(struct process)] and [sizeof(struct kernel_thread)] on this machine. *)
Definition PROCESS_BYTES : Z := 4552.
Definition THREAD_BYTES : Z := 168.

(** ** Objects *)

Inductive process_state := UTAMO_PROCESS_READY | UTAMO_PROCESS_EXITED.
#[export] Instance process_state_eq_dec : EqDecision process_state.
Proof. solve_decision. Defined.

Record process := MkProcess {
  pr_vm : user_vm;
  pr_pid : Z; pr_tid : Z; pr_syscalls : Z; pr_parent_pid : Z;
  pr_files : list vfs_file;
  pr_state : process_state;
  pr_name : cstring;
  pr_exit_code : Z;
  pr_fault_vector : Z; pr_fault_error : Z; pr_fault_address : Z;
  pr_faulted : bool
}.
Definition process_zero : process :=
  MkProcess user_vm_zero 0 0 0 0 (replicate (Z.to_nat UTAMO_PROCESS_FD_LIMIT) (MkFile None 0)) UTAMO_PROCESS_READY [] 0 0 0 0 false.
#[export] Instance process_inhabited : Inhabited process := populate process_zero.
#[export] Instance vfs_file_inhabited : Inhabited vfs_file := populate (MkFile None 0).

Record process_result := MkResult {
  rs_pid : Z; rs_parent_pid : Z;
  rs_collected : bool;
  rs_exit_code : Z;
  rs_fault_vector : Z; rs_fault_error : Z; rs_fault_address : Z; rs_syscalls : Z;
  rs_faulted : bool
}.
Definition result_zero : process_result := MkResult 0 0 false 0 0 0 0 0 false.
#[export] Instance process_result_inhabited : Inhabited process_result := populate result_zero.

Inductive arch_user_status :=
  | UTAMO_USER_UNINITIALIZED | UTAMO_USER_READY | UTAMO_USER_NO_NX | UTAMO_USER_UNSUPPORTED_CPU
  | UTAMO_USER_UNSUPPORTED_PAGING | UTAMO_USER_BAD_CONTEXT | UTAMO_USER_SETUP_FAILED.
#[export] Instance arch_user_status_eq_dec : EqDecision arch_user_status.
Proof. solve_decision. Defined.

Record process_stats := MkPStats {
  ps_created : Z; ps_exited : Z; ps_reaped : Z; ps_user_faults : Z; ps_syscalls : Z;
  ps_active : Z;
  ps_status : arch_user_status
}.

(** The fields of [struct kernel_thread] after [task]. *)
Record kernel_thread := MkThread {
  th_stack : thread_stack;
  th_frame : Z;
  th_entry : Z;
  th_argument : Z;
  th_name : cstring;
  th_dynamic : bool;
  th_process : Z
}.
Definition thread_zero : kernel_thread := MkThread thread_stack_zero 0 0 0 [] false 0.
#[export] Instance kernel_thread_inhabited : Inhabited kernel_thread := populate thread_zero.

Definition frame_zero : interrupt_frame := MkFrame 0 0 0 0 0 0 0 0 0 0 0 0 0 0 0 0 0 0 0 0 0 0.
#[export] Instance interrupt_frame_inhabited : Inhabited interrupt_frame := populate frame_zero.
Definition set_rax (v : Z) (f : interrupt_frame) : interrupt_frame :=
  MkFrame (if_r15 f) (if_r14 f) (if_r13 f) (if_r12 f) (if_r11 f) (if_r10 f) (if_r9 f) (if_r8 f)
    (if_rbp f) (if_rdi f) (if_rsi f) (if_rdx f) (if_rcx f) (if_rbx f) v
    (if_vector f) (if_error_code f) (if_rip f) (if_cs f) (if_rflags f) (if_rsp f) (if_ss f).
(** The frame whose words are at [index] of a page. *)
Definition frame_at (mem : Z -> Z -> Z) (phys index : Z) : interrupt_frame :=
  let w i := mem phys (index + i) in
  MkFrame (w 0) (w 1) (w 2) (w 3) (w 4) (w 5) (w 6) (w 7) (w 8) (w 9) (w 10) (w 11) (w 12) (w 13) (w 14)
    (w 15) (w 16) (w 17) (w 18) (w 19) (w 20) (w 21).

(** ** The static variables *)

(** Of scheduler.c, but for [scheduler] and the two static threads. *)
Record sched_statics := MkStatics {
  sx_ready : bool;
  sx_timer_preemptions : Z; sx_created : Z; sx_exited : Z; sx_reaped : Z;
  sx_kernel_cr3 : Z; sx_user_timer_preemptions : Z; sx_switches : Z
}.
(** Of process.c. *)
Record process_table := MkTable {
  pt_registry : list Z;
  pt_history : list process_result;
  pt_cursor : Z;
  pt_next_pid : Z;
  pt_stats : process_stats;
  pt_initialized : bool
}.
(** Of gdt.c and arch_user.c: [initialized], [tss.rsp[0]], [status]; and the devices
    of Devices.v. *)
Record cpu_statics := MkCpu { cp_gdt : bool; cp_rsp0 : Z; cp_status : arch_user_status; cp_devices : devices }.
Definition cp_ticks (c : cpu_statics) : Z := dv_ticks (cp_devices c).

(** Addresses of static objects and of code. *)
Record layout := MkLayout {
  ly_scheduler : Z;
  ly_idle : Z; ly_bootstrap : Z;
  ly_stack_bottom : Z; ly_stack_top : Z;
  ly_thread_bootstrap : Z; ly_idle_main : Z; ly_cpu_halt : Z;
  ly_probe : list Z          (** the bytes from [user_probe_start] to [user_probe_end] *)
}.

Record system (P : Type) := MkSystem {
  y_world : world P;
  y_sched : sched;
  y_threads : gmap Z kernel_thread;
  y_procs : gmap Z process;
  y_saved : gmap Z interrupt_frame;
  y_statics : sched_statics;
  y_table : process_table;
  y_cpu : cpu_statics;
  y_vfs : vfs_state;
  y_files : memory;          (** the contents of the mounted files, by address *)
  y_log : list Z             (** the bytes given to [log_write] *)
}.
Arguments MkSystem {P}.
Arguments y_world {P}.
Arguments y_sched {P}.
Arguments y_threads {P}.
Arguments y_procs {P}.
Arguments y_saved {P}.
Arguments y_statics {P}.
Arguments y_table {P}.
Arguments y_cpu {P}.
Arguments y_vfs {P}.
Arguments y_files {P}.
Arguments y_log {P}.

(** ** The monad *)

Definition Sys (P A : Type) : Type := system P -> system P * option A.
#[export] Instance sys_ret P : MRet (Sys P) := fun A x y => (y, Some x).
#[export] Instance sys_bind P : MBind (Sys P) := fun A B k f y =>
  let (y', r) := f y in match r with Some x => k x y' | None => (y', None) end.

Section state.
Context {P : Type} `{PageFrames P}.
Notation S := (system P).
Implicit Types y : S.

Definition with_world (w : world P) y : S :=
  MkSystem w (y_sched y) (y_threads y) (y_procs y) (y_saved y) (y_statics y) (y_table y) (y_cpu y) (y_vfs y) (y_files y) (y_log y).
Definition with_sched (s : sched) y : S :=
  MkSystem (y_world y) s (y_threads y) (y_procs y) (y_saved y) (y_statics y) (y_table y) (y_cpu y) (y_vfs y) (y_files y) (y_log y).
Definition with_threads (t : gmap Z kernel_thread) y : S :=
  MkSystem (y_world y) (y_sched y) t (y_procs y) (y_saved y) (y_statics y) (y_table y) (y_cpu y) (y_vfs y) (y_files y) (y_log y).
Definition with_procs (p : gmap Z process) y : S :=
  MkSystem (y_world y) (y_sched y) (y_threads y) p (y_saved y) (y_statics y) (y_table y) (y_cpu y) (y_vfs y) (y_files y) (y_log y).
Definition with_saved (f : gmap Z interrupt_frame) y : S :=
  MkSystem (y_world y) (y_sched y) (y_threads y) (y_procs y) f (y_statics y) (y_table y) (y_cpu y) (y_vfs y) (y_files y) (y_log y).
Definition with_statics (x : sched_statics) y : S :=
  MkSystem (y_world y) (y_sched y) (y_threads y) (y_procs y) (y_saved y) x (y_table y) (y_cpu y) (y_vfs y) (y_files y) (y_log y).
Definition with_table (t : process_table) y : S :=
  MkSystem (y_world y) (y_sched y) (y_threads y) (y_procs y) (y_saved y) (y_statics y) t (y_cpu y) (y_vfs y) (y_files y) (y_log y).
Definition with_cpu (c : cpu_statics) y : S :=
  MkSystem (y_world y) (y_sched y) (y_threads y) (y_procs y) (y_saved y) (y_statics y) (y_table y) c (y_vfs y) (y_files y) (y_log y).
Definition with_log (l : list Z) y : S :=
  MkSystem (y_world y) (y_sched y) (y_threads y) (y_procs y) (y_saved y) (y_statics y) (y_table y) (y_cpu y) (y_vfs y) (y_files y) l.

Definition PANIC {A} : Sys P A := fun y => (y, None).
Definition require (b : bool) : Sys P unit := if b then mret tt else PANIC.
Definition gets {A} (f : S -> A) : Sys P A := fun y => (y, Some (f y)).
Definition modify (f : S -> S) : Sys P unit := fun y => (f y, Some tt).

(** A call of a component: a [PANIC] of it ends everything. *)
Definition machine {A} (f : world P -> world P * A) : Sys P A := fun y =>
  let (w, r) := f (y_world y) in (with_world w y, if w_panic w then None else Some r).
Definition scheduler {A} (f : sched -> sched * A) : Sys P A := fun y =>
  let (s, r) := f (y_sched y) in (with_sched s y, Some r).
Definition set_devices (d : devices) (c : cpu_statics) : cpu_statics := MkCpu (cp_gdt c) (cp_rsp0 c) (cp_status c) d.
Definition device {A} (f : Dev A) : Sys P A := fun y =>
  let (d, r) := f (cp_devices (y_cpu y)) in (with_cpu (set_devices d (y_cpu y)) y, Some r).

(** ** Objects *)

Definition proc y (p : Z) : process := y_procs y !!! p.
Definition thread y (t : Z) : kernel_thread := y_threads y !!! t.
Definition saved y (a : Z) : interrupt_frame := y_saved y !!! a.
Definition current y : Z := sc_current (s_core (y_sched y)).
Definition set_proc (p : Z) (f : process -> process) : Sys P unit :=
  modify (fun y => with_procs (<[p := f (proc y p)]> (y_procs y)) y).
Definition set_thread (t : Z) (f : kernel_thread -> kernel_thread) : Sys P unit :=
  modify (fun y => with_threads (<[t := f (thread y t)]> (y_threads y)) y).
Definition set_saved (a : Z) (f : interrupt_frame -> interrupt_frame) : Sys P unit :=
  modify (fun y => with_saved (<[a := f (saved y a)]> (y_saved y)) y).

(** [kcalloc(1, sizeof(struct process))] and [kfree]. *)
Definition new_process : Sys P Z :=
  p ← machine (on_heap (fun h => kcalloc h 1 PROCESS_BYTES));
  _ ← (if p =? NULL then mret tt else modify (fun y => with_procs (<[p := process_zero]> (y_procs y)) y));
  mret p.
Definition free_process (p : Z) : Sys P bool :=
  ok ← machine (on_heap (fun h => kfree h p));
  _ ← (if ok : bool then modify (fun y => with_procs (delete p (y_procs y)) y) else mret tt);
  mret ok.
Definition new_thread : Sys P Z :=
  t ← machine (on_heap (fun h => kcalloc h 1 THREAD_BYTES));
  _ ← (if t =? NULL then mret tt
       else modify (fun y => with_threads (<[t := thread_zero]> (y_threads y))
                               (with_sched (MkSched (s_core (y_sched y)) (<[t := task_zero]> (s_mem (y_sched y)))) y)));
  mret t.
Definition free_thread (t : Z) : Sys P bool :=
  ok ← machine (on_heap (fun h => kfree h t));
  _ ← (if ok : bool then modify (fun y => with_threads (delete t (y_threads y))
                               (with_sched (MkSched (s_core (y_sched y)) (delete t (s_mem (y_sched y)))) y)) else mret tt);
  mret ok.

(** A call of user_vm.c or elf_load.c on the address space of [p]. *)
Definition set_vm (u : user_vm) (p : process) : process :=
  MkProcess u (pr_pid p) (pr_tid p) (pr_syscalls p) (pr_parent_pid p) (pr_files p) (pr_state p) (pr_name p)
    (pr_exit_code p) (pr_fault_vector p) (pr_fault_error p) (pr_fault_address p) (pr_faulted p).
Definition on_vm {A} (p : Z) (f : vm (ustate P) -> vm (ustate P) * A) : Sys P A :=
  u ← gets (fun y => pr_vm (proc y p));
  r ← machine (on_user f u);
  _ ← set_proc p (set_vm (fst r));
  mret (snd r).
Definition read_vm {A} (p : Z) (f : vm (ustate P) -> A) : Sys P A :=
  gets (fun y => f (user_view (y_world y) (pr_vm (proc y p)))).
End state.
