(* ===== verification/Scheduler.v ===== *)
(** * Threads (kernel/core/scheduler.c) and the end of a process (process.c)

    The functions of scheduler.c in the order in which they call each other; with
    them the functions of process.c that the scheduler calls, and what they ask
    of gdt.c and arch_user.c.  Diagnostics that are only printed are left out.
    [thread_yield_trap] raises interrupt 240, after which the thread runs on when
    it is selected again; a function that ends with the trap has it as an answer
    [true].  The argument [anchor] is the address of the automatic variable in
    [thread_stack_free].  What runs on the CPU registers only
    ([clear_thread_segments], CR0) is left out. *)

From stdpp Require Import gmap.
From S2P Require Import Prelude MemoryHelpers Bytes VmmCore Frames KernelVm HeapCore KernelHeap ThreadStack UserVm SchedCore Vfs World Devices System.
Open Scope Z_scope.

(** [(int64_t)x]. *)
Definition i64 (x : Z) : Z := if x <=? INT64_MAX then x else x - 18446744073709551616.

Definition set_threads_frame (a : Z) (t : kernel_thread) : kernel_thread :=
  MkThread (th_stack t) a (th_entry t) (th_argument t) (th_name t) (th_dynamic t) (th_process t).
Definition set_stack (s : thread_stack) (t : kernel_thread) : kernel_thread :=
  MkThread s (th_frame t) (th_entry t) (th_argument t) (th_name t) (th_dynamic t) (th_process t).

Definition process_user_return_valid (f : interrupt_frame) : bool :=
  let forbidden := Z.lor (Z.lor (Z.lor (Z.lor (Z.shiftl 3 12) (Z.shiftl 1 14)) (Z.shiftl 1 17)) (Z.shiftl 1 19)) (Z.shiftl 1 20) in
  (if_cs f =? UTAMO_GDT_USER_CODE_SELECTOR) && (if_ss f =? UTAMO_GDT_USER_DATA_SELECTOR) &&
  (Z.land (if_rflags f) 0x202 =? 0x202) && (Z.land (if_rflags f) forbidden =? 0) &&
  (USER_VM_MIN <=? if_rip f) && (if_rip f <? USER_VM_END) && (USER_VM_MIN <=? if_rsp f) && (if_rsp f <? USER_VM_END) &&
  memory_is_canonical (if_rip f) && memory_is_canonical (if_rsp f).

Definition valid_name (name : cstring) : bool :=
  negb (str_get name 0 =? 0) &&
  (fix scan (n : nat) (i : Z) : bool :=
     match n with
     | O => false
     | S n => if str_get name i =? 0 then true
              else if (str_get name i <? 32) || (126 <? str_get name i) then false else scan n (i + 1)
     end) UTAMO_THREAD_NAME_SIZE 0.

Section scheduler.
Context {P : Type} `{PageFrames P} (ly : layout).
Notation S := (system P).
Notation M := (Sys P).
Notation self := (ly_scheduler ly).

(** ** gdt.c and arch_user.c *)

Definition arch_user_ready (y : S) : bool := bool_decide (cp_status (y_cpu y) = UTAMO_USER_READY).
Definition gdt_set_rsp0 (iflag : bool) (stack_top : Z) : M bool :=
  c ← gets y_cpu;
  let valid := cp_gdt c && negb iflag && memory_is_canonical stack_top && (0xffff800000000000 <? stack_top) && (Z.land stack_top 15 =? 0) in
  _ ← (if valid then modify (with_cpu (MkCpu (cp_gdt c) stack_top (cp_status c) (cp_devices c))) else mret tt);
  mret valid.
Definition arch_user_prepare_return (iflag : bool) (kernel_stack_top : Z) : M bool :=
  ready ← gets arch_user_ready;
  if iflag || negb ready then mret false else gdt_set_rsp0 false kernel_stack_top.

(** ** Frames *)

Definition stack_bottom (y : S) (t : Z) : Z := if t =? ly_bootstrap ly then ly_stack_bottom ly else ts_base (th_stack (thread y t)).
Definition stack_top (y : S) (t : Z) : Z := if t =? ly_bootstrap ly then ly_stack_top ly else ts_top (th_stack (thread y t)).

Definition frame_owned (y : S) (t frame : Z) : bool :=
  let bottom := stack_bottom y t in
  let top := stack_top y t in
  negb ((frame =? NULL) || (top <=? bottom) || (frame <? bottom) || (top -u FRAME_BYTES <? frame) || negb (Z.land frame 7 =? 0)).

Definition valid_frame (y : S) (t frame : Z) : bool :=
  if negb (frame_owned y t frame) then false
  else
    let f := saved y frame in
    if negb (th_process (thread y t) =? NULL) then process_user_return_valid f
    else
      (if_cs f =? 8) && (if_ss f =? 16) && negb (Z.land (if_rflags f) 2 =? 0) && (Z.land (if_rflags f) 0x7000 =? 0) &&
      (stack_bottom y t <=? if_rsp f) && (if_rsp f <=? stack_top y t) && memory_is_canonical (if_rip f) &&
      (0xffff800000000000 <=? if_rip f).

Definition count_preemption (user : bool) (x : sched_statics) : sched_statics :=
  MkStatics (sx_ready x) (increment (sx_timer_preemptions x)) (sx_created x) (sx_exited x) (sx_reaped x) (sx_kernel_cr3 x)
    (if user then increment (sx_user_timer_preemptions x) else sx_user_timer_preemptions x) (sx_switches x).
Definition count_switch (x : sched_statics) : sched_statics :=
  MkStatics (sx_ready x) (sx_timer_preemptions x) (sx_created x) (sx_exited x) (sx_reaped x) (sx_kernel_cr3 x)
    (sx_user_timer_preemptions x) (increment (sx_switches x)).
Definition count_created (x : sched_statics) : sched_statics :=
  MkStatics (sx_ready x) (sx_timer_preemptions x) (increment (sx_created x)) (sx_exited x) (sx_reaped x) (sx_kernel_cr3 x)
    (sx_user_timer_preemptions x) (sx_switches x).
Definition count_exited (x : sched_statics) : sched_statics :=
  MkStatics (sx_ready x) (sx_timer_preemptions x) (sx_created x) (increment (sx_exited x)) (sx_reaped x) (sx_kernel_cr3 x)
    (sx_user_timer_preemptions x) (sx_switches x).
Definition count_reaped (x : sched_statics) : sched_statics :=
  MkStatics (sx_ready x) (sx_timer_preemptions x) (sx_created x) (sx_exited x) (increment (sx_reaped x)) (sx_kernel_cr3 x)
    (sx_user_timer_preemptions x) (sx_switches x).
Definition statics (f : sched_statics -> sched_statics) : M unit := modify (fun y => with_statics (f (y_statics y)) y).

(** ** Selection *)

Definition select_frame (force : bool) (vector : Z) : M Z :=
  old ← gets current;
  next ← scheduler (fun s => sched_core_select self s force);
  _ ← require (negb (next =? NULL));
  valid ← gets (fun y => valid_frame y next (th_frame (thread y next)));
  _ ← require valid;
  user ← gets (fun y => negb (th_process (thread y old) =? NULL));
  _ ← (if negb (old =? next) && negb (old =? ly_idle ly) && (vector =? 32) then statics (count_preemption user) else mret tt);
  process ← gets (fun y => th_process (thread y next));
  target_cr3 ← gets (fun y => if process =? NULL then sx_kernel_cr3 (y_statics y) else vs_root_phys (uv_space (pr_vm (proc y process))));
  top ← gets (fun y => stack_top y next);
  ready ← gets arch_user_ready;
  _ ← (if ready : bool then
         prepared ← (if process =? NULL then gdt_set_rsp0 false top else arch_user_prepare_return false top);
         require prepared
       else mret tt);
  cr3 ← gets (fun y => w_cr3 (y_world y));
  _ ← (if negb (cr3 =? target_cr3) then
         _ ← modify (fun y => with_world (with_cr3 target_cr3 (y_world y)) y);
         statics count_switch
       else mret tt);
  gets (fun y => th_frame (thread y next)).

Definition scheduler_current_process (y : S) : Z := if sx_ready (y_statics y) then th_process (thread y (current y)) else NULL.

Definition scheduler_user_frame_safe (frame : Z) : M bool :=
  owned ← gets (fun y => sx_ready (y_statics y) && negb (scheduler_current_process y =? NULL) && frame_owned y (current y) frame);
  _ ← require owned;
  gets (fun y => process_user_return_valid (saved y frame)).

Definition set_current_frame (frame : Z) : M unit :=
  t ← gets current;
  set_thread t (set_threads_frame frame).

Definition scheduler_exit_user (frame : Z) : M Z :=
  process ← gets scheduler_current_process;
  fit ← gets (fun y => negb (process =? NULL) && bool_decide (pr_state (proc y process) = UTAMO_PROCESS_EXITED) && frame_owned y (current y) frame);
  _ ← require fit;
  ok ← scheduler (sched_core_exit_current self);
  _ ← require ok;
  _ ← set_current_frame frame;
  _ ← statics count_exited;
  vector ← gets (fun y => if_vector (saved y frame));
  select_frame true vector.

(** ** process.c: the end of a process *)

Definition set_stats (f : process_stats -> process_stats) (t : process_table) : process_table :=
  MkTable (pt_registry t) (pt_history t) (pt_cursor t) (pt_next_pid t) (f (pt_stats t)) (pt_initialized t).
Definition stat_exited (faulted : bool) (s : process_stats) : process_stats :=
  MkPStats (ps_created s) (increment (ps_exited s)) (ps_reaped s) (if faulted then increment (ps_user_faults s) else ps_user_faults s)
    (ps_syscalls s) (ps_active s) (ps_status s).
Definition stat_syscall (s : process_stats) : process_stats :=
  MkPStats (ps_created s) (ps_exited s) (ps_reaped s) (ps_user_faults s) (increment (ps_syscalls s)) (ps_active s) (ps_status s).
Definition process_table_set (f : process_table -> process_table) : M unit := modify (fun y => with_table (f (y_table y)) y).

Definition set_exit (code : Z) (faulted : bool) (vector error address : Z) (p : process) : process :=
  MkProcess (pr_vm p) (pr_pid p) (pr_tid p) (pr_syscalls p) (pr_parent_pid p) (pr_files p) UTAMO_PROCESS_EXITED (pr_name p)
    code vector error address faulted.
Definition process_mark_exit (process code : Z) (faulted : bool) (vector error address : Z) : M unit :=
  live ← gets (fun y => negb (process =? NULL) && bool_decide (pr_state (proc y process) = UTAMO_PROCESS_READY));
  _ ← require live;
  _ ← set_proc process (set_exit code faulted vector error address);
  process_table_set (set_stats (stat_exited faulted)).

Definition process_on_fault (frame vector error address : Z) : M Z :=
  process ← gets scheduler_current_process;
  user ← gets (fun y => negb (process =? NULL) && (Z.land (if_cs (saved y frame)) 3 =? 3));
  _ ← require user;
  _ ← process_mark_exit process (- i64 (128 +u vector)) true vector error address;
  scheduler_exit_user frame.

(** [for (slot = 0; slot < LIMIT && registry[slot] != process; ++slot)] *)
Definition registry_slot (t : process_table) (process : Z) : Z := slot_from (pt_registry t) process.

Definition process_reap (process : Z) : M unit :=
  t ← gets y_table;
  let slot := registry_slot t process in
  fit ← gets (fun y => negb (process =? NULL) && negb (slot =? UTAMO_PROCESS_LIMIT) &&
                       bool_decide (pr_state (proc y process) = UTAMO_PROCESS_EXITED) && negb (ps_active (pt_stats t) =? 0));
  _ ← require fit;
  destroyed ← on_vm process user_vm_destroy;
  _ ← require destroyed;
  p ← gets (fun y => proc y process);
  let result := MkResult (pr_pid p) (pr_parent_pid p) false (pr_exit_code p) (pr_fault_vector p) (pr_fault_error p)
                  (pr_fault_address p) (pr_syscalls p) (pr_faulted p) in
  let s := pt_stats t in
  _ ← process_table_set (fun _ => MkTable (arr_set (pt_registry t) slot NULL) (arr_set (pt_history t) (pt_cursor t) result)
        ((pt_cursor t +u 1) mod UTAMO_PROCESS_HISTORY) (pt_next_pid t)
        (MkPStats (ps_created s) (ps_exited s) (increment (ps_reaped s)) (ps_user_faults s) (ps_syscalls s) (ps_active s -u 1) (ps_status s))
        (pt_initialized t));
  freed ← free_process process;
  require freed.

(** ** Returning to user mode *)

Definition scheduler_resume_user (frame : Z) : M Z :=
  safe ← scheduler_user_frame_safe frame;
  if negb safe then process_on_fault frame 13 0 0
  else
    _ ← set_current_frame frame;
    vector ← gets (fun y => if_vector (saved y frame));
    select_frame false vector.

Definition UTAMO_SYS_EINVAL : Z := -1.

Definition scheduler_yield_user (frame milliseconds : Z) : M Z :=
  safe ← scheduler_user_frame_safe frame;
  if negb safe then process_on_fault frame 13 0 0
  else
    asleep ← (if milliseconds =? 0 then mret true
              else scheduler (fun s => sched_core_sleep_current self s (sched_ms_to_ticks milliseconds)));
    if negb asleep then
      _ ← set_saved frame (set_rax (u64 UTAMO_SYS_EINVAL));
      scheduler_resume_user frame
    else
      _ ← set_current_frame frame;
      vector ← gets (fun y => if_vector (saved y frame));
      select_frame true vector.

(** ** Interrupts *)

(** [keyboard_has_pending()]. *)
Definition input_pending (y : S) : bool := snd (keyboard_has_pending (cp_devices (y_cpu y))).

Definition scheduler_on_interrupt (frame : Z) : M Z :=
  ready ← gets (fun y => sx_ready (y_statics y));
  if negb ready then mret frame
  else
    old ← gets current;
    owned ← gets (fun y => frame_owned y old frame);
    _ ← require owned;
    _ ← set_thread old (set_threads_frame frame);
    vector ← gets (fun y => if_vector (saved y frame));
    _ ← (if vector =? 32 then
           ticks ← gets (fun y => cp_ticks (y_cpu y));
           ok ← scheduler (fun s => sched_core_tick self s ticks);
           require ok
         else if vector =? 33 then
           blocked ← gets (fun y => state_eqb (st_state (node (y_sched y) (ly_bootstrap ly))) UTAMO_SCHED_BLOCKED);
           pending ← gets input_pending;
           if blocked && pending then
             ok ← scheduler (fun s => sched_core_wake self s (ly_bootstrap ly));
             require ok
           else mret tt
         else mret tt);
    valid ← gets (fun y => valid_frame y old frame);
    if negb valid then
      user ← gets (fun y => negb (th_process (thread y old) =? NULL) && (Z.land (if_cs (saved y frame)) 3 =? 3));
      if user : bool then process_on_fault frame 13 0 0 else PANIC
    else select_frame (vector =? UTAMO_SCHEDULE_VECTOR) vector.
End scheduler.
