(* ===== verification/Process.v ===== *)
(** * Threads, processes and system calls: creation and entry

    The rest of scheduler.c, process.c, process_files.c and process_syscall.c,
    and the dispatcher of exceptions.c that calls them.  A spawn is one step: it
    runs with preemption disabled, so no other thread can see it unfinished. *)

From stdpp Require Import gmap.
From S2P Require Import Prelude MemoryHelpers Bytes VmmCore Frames KernelVm HeapCore KernelHeap ThreadStack UserVm SchedCore Vfs ElfLoad World Devices System Scheduler.
Open Scope Z_scope.

Definition UTAMO_PROBE_COUNT : Z := 15.
Definition UTAMO_USER_CODE : Z := 0x400000.
Definition UTAMO_USER_DATA : Z := 0x600000.
Definition UTAMO_USER_STACK_TOP : Z := 0x70000000.
Definition UTAMO_USER_STACK_PAGES : Z := 16.

Definition UTAMO_SYS_WRITE : Z := 1.
Definition UTAMO_SYS_EXIT : Z := 2.
Definition UTAMO_SYS_GETPID : Z := 3.
Definition UTAMO_SYS_YIELD : Z := 4.
Definition UTAMO_SYS_SLEEP : Z := 5.
Definition UTAMO_SYS_OPEN : Z := 6.
Definition UTAMO_SYS_READ : Z := 7.
Definition UTAMO_SYS_CLOSE : Z := 8.
Definition UTAMO_SYS_SEEK : Z := 9.
Definition UTAMO_SYS_FSTAT : Z := 10.
Definition UTAMO_SYS_SPAWN : Z := 11.
Definition UTAMO_SYS_WAIT : Z := 12.
Definition UTAMO_SYS_INFO : Z := 13.
Definition UTAMO_SYS_EFAULT : Z := -2.
Definition UTAMO_SYS_ENOSYS : Z := -3.
Definition UTAMO_SYS_EBADF : Z := -4.
Definition UTAMO_SYS_ENOENT : Z := -5.
Definition UTAMO_SYS_EMFILE : Z := -6.
Definition UTAMO_SYS_EIO : Z := -7.
Definition UTAMO_SYS_EAGAIN : Z := -8.
Definition UTAMO_SYS_EEXEC : Z := -9.
Definition UTAMO_SYS_WRITE_LIMIT : Z := 1024.
Definition SYSTEM_INFO_BYTES : Z := 32.

(** The bytes of a 64-bit integer in memory. *)
Definition le64 (v : Z) : list Z := (fun k => u8 (Z.shiftr v (8 * k))) <$> seqZ 0 8.

Section process.
Context {P : Type} `{PageFrames P} (ly : layout).
Notation S := (system P).
Notation M := (Sys P).
Notation self := (ly_scheduler ly).

(** ** New threads *)

Definition publish_thread (name : cstring) (entry argument process : Z) (r : kernel_thread) : kernel_thread :=
  MkThread (th_stack r) (th_frame r) entry argument name true process.

(** The frame that [thread_frame_init] wrote at the top of a stack, as an object. *)
Definition first_frame_at (y : S) (s : thread_stack) (frame : Z) : interrupt_frame :=
  match vmm_query_page (w_kernel (y_world y)) (ts_top s -u MEMORY_PAGE_SIZE) with
  | Some mapping => frame_at (w_mem (y_world y)) (vp_physical mapping) ((frame -u (ts_top s -u MEMORY_PAGE_SIZE)) / 8)
  | None => frame_zero
  end.

(** What [scheduler_create_user] and [thread_create] do alike once a thread has a
    stack with a first frame: publication, or the rollback. *)
Definition add_thread (anchor t : Z) : M (option Z) :=
  added ← scheduler (fun s => sched_core_add self s t);
  if negb added then
    s ← gets (fun y => th_stack (thread y t));
    freed ← machine (stack_free s anchor);
    _ ← require (snd freed);
    _ ← set_thread t (set_stack (fst freed));
    ok ← free_thread t;
    _ ← require ok;
    mret None
  else
    id ← gets (fun y => st_id (node (y_sched y) t));
    _ ← statics count_created;
    mret (Some id).

Definition scheduler_create_user (iflag : bool) (anchor : Z) (name : cstring) (owner entry rsp argument : Z) : M (option Z) :=
  fit ← gets (fun y => negb iflag && sx_ready (y_statics y) && arch_user_ready y && valid_name name && negb (owner =? NULL) &&
                       uv_initialized (pr_vm (proc y owner)) && negb (sc_task_count (s_core (y_sched y)) =? UTAMO_SCHED_MAX_TASKS));
  if negb fit then mret None
  else
    let initial := MkFrame 0 0 0 0 0 0 0 0 0 argument 0 0 0 0 0 0 0 entry UTAMO_GDT_USER_CODE_SELECTOR 0x202 rsp UTAMO_GDT_USER_DATA_SELECTOR in
    if negb (process_user_return_valid initial) then mret None
    else
      t ← new_thread;
      if t =? NULL then mret None
      else
        stack ← machine stack_alloc;
        match stack with
        | None => ok ← free_thread t; _ ← require ok; mret None
        | Some s =>
            _ ← set_thread t (set_stack s);
            frame ← machine (stack_frame s entry (ly_cpu_halt ly));
            match frame with
            | None => PANIC
            | Some a =>
                _ ← set_thread t (set_threads_frame a);
                _ ← set_saved a (fun _ => initial);
                _ ← set_thread t (publish_thread name 0 0 owner);
                add_thread anchor t
            end
        end.

Definition thread_create (iflag : bool) (anchor : Z) (name : cstring) (entry argument : Z) : M (option Z) :=
  fit ← gets (fun y => valid_name name && negb (entry =? NULL) && sx_ready (y_statics y) && iflag &&
                       negb (sc_task_count (s_core (y_sched y)) =? UTAMO_SCHED_MAX_TASKS));
  if negb fit then mret None
  else
    t ← new_thread;
    if t =? NULL then mret None
    else
      stack ← machine stack_alloc;
      match stack with
      | None => ok ← free_thread t; _ ← require ok; mret None
      | Some s =>
          _ ← set_thread t (set_stack s);
          frame ← machine (stack_frame s (ly_thread_bootstrap ly) (ly_cpu_halt ly));
          match frame with
          | None => PANIC
          | Some a =>
              _ ← set_thread t (set_threads_frame a);
              _ ← modify (fun y => with_saved (<[a := first_frame_at y s a]> (y_saved y)) y);
              _ ← set_thread t (publish_thread name entry argument NULL);
              add_thread anchor t
          end
      end.

(** ** Start *)

Definition set_entry (entry : Z) (name : cstring) (t : kernel_thread) : kernel_thread :=
  MkThread (th_stack t) (th_frame t) entry (th_argument t) name (th_dynamic t) (th_process t).
Definition set_ready (cr3 : Z) (x : sched_statics) : sched_statics :=
  MkStatics true (sx_timer_preemptions x) (sx_created x) (sx_exited x) (sx_reaped x) cr3 (sx_user_timer_preemptions x) (sx_switches x).
Definition idle_name : cstring := [105; 100; 108; 101].            (** "idle" *)
Definition shell_name : cstring := [115; 104; 101; 108; 108].      (** "shell" *)

Definition scheduler_init (iflag : bool) : M bool :=
  ready ← gets (fun y => sx_ready (y_statics y));
  if ready || iflag then mret false
  else
    stack ← machine stack_alloc;
    match stack with
    | None => mret false
    | Some s =>
        _ ← set_thread (ly_idle ly) (set_stack s);
        frame ← machine (stack_frame s (ly_thread_bootstrap ly) (ly_cpu_halt ly));
        match frame with
        | None => PANIC
        | Some a =>
            _ ← set_thread (ly_idle ly) (set_threads_frame a);
            _ ← modify (fun y => with_saved (<[a := first_frame_at y s a]> (y_saved y)) y);
            _ ← set_thread (ly_idle ly) (set_entry (ly_idle_main ly) idle_name);
            _ ← set_thread (ly_bootstrap ly) (fun t => set_entry (th_entry t) shell_name t);
            ticks ← gets (fun y => cp_ticks (y_cpu y));
            ok ← scheduler (fun s => sched_core_init self s (ly_idle ly) (ly_bootstrap ly) 2 ticks);
            _ ← require ok;
            _ ← modify (fun y => with_statics (set_ready (w_cr3 (y_world y)) (y_statics y)) y);
            mret true
        end
    end.

(** ** Calls of running threads *)

Definition can_block (iflag : bool) (y : S) : bool :=
  sx_ready (y_statics y) && iflag && negb (current y =? sc_idle (s_core (y_sched y))) && (st_preempt_depth (node (y_sched y) (current y)) =? 0).

(** [None]: refused; otherwise the trap follows. *)
Definition thread_yield (iflag : bool) : M bool := gets (can_block iflag).

Definition thread_sleep_ms (iflag : bool) (milliseconds : Z) : M bool :=
  if milliseconds =? 0 then thread_yield iflag
  else
    block ← gets (can_block iflag);
    if negb block then mret false
    else scheduler (fun s => sched_core_sleep_current self s (sched_ms_to_ticks milliseconds)).

(** The trap follows and the thread is never selected again. *)
Definition thread_exit (iflag : bool) : M unit :=
  fit ← gets (fun y => can_block iflag y && negb (current y =? ly_bootstrap ly));
  _ ← require fit;
  ok ← scheduler (sched_core_exit_current self);
  _ ← require ok;
  statics count_exited.

Definition scheduler_wait_input (iflag : bool) : M bool :=
  fit ← gets (fun y => can_block iflag y && (current y =? ly_bootstrap ly));
  pending ← gets input_pending;
  if negb fit || pending then mret false
  else
    ok ← scheduler (sched_core_block_current self);
    _ ← require ok;
    mret true.

Definition preempt_disable : M unit :=
  ready ← gets (fun y => sx_ready (y_statics y));
  if ready : bool then ok ← scheduler (sched_core_preempt_disable self); require ok else mret tt.

Definition preempt_enable (iflag : bool) : M bool :=
  ready ← gets (fun y => sx_ready (y_statics y));
  if negb ready then mret false
  else
    ok ← scheduler (sched_core_preempt_enable self);
    _ ← require ok;
    gets (fun y => iflag && sched_core_reschedule_pending self (y_sched y)).

(** ** The reaper *)

Definition reap_slot (anchor : Z) (i : Z) : M unit :=
  t ← gets (fun y => arr_get (sc_tasks (s_core (y_sched y))) i);
  skip ← gets (fun y => (t =? NULL) || (t =? current y) || negb (state_eqb (st_state (node (y_sched y) t)) UTAMO_SCHED_ZOMBIE));
  if skip : bool then mret tt
  else
    dynamic ← gets (fun y => th_dynamic (thread y t));
    _ ← require dynamic;
    removed ← scheduler (fun s => sched_core_remove_zombie self s t);
    _ ← require removed;
    s ← gets (fun y => th_stack (thread y t));
    freed ← machine (stack_free s anchor);
    _ ← require (snd freed);
    _ ← set_thread t (set_stack (fst freed));
    process ← gets (fun y => th_process (thread y t));
    _ ← (if negb (process =? NULL) then process_reap process else mret tt);
    ok ← free_thread t;
    _ ← require ok;
    statics count_reaped.

Fixpoint reap_slots (anchor : Z) (slots : list Z) : M unit :=
  match slots with
  | [] => mret tt
  | i :: slots => _ ← reap_slot anchor i; reap_slots anchor slots
  end.

Definition thread_reap (iflag : bool) (anchor : Z) : M unit :=
  ready ← gets (fun y => sx_ready (y_statics y));
  if negb ready || negb iflag then mret tt else reap_slots anchor (seqZ 0 UTAMO_SCHED_MAX_TASKS).

(** ** process.c *)

Definition process_init (iflag : bool) (status : arch_user_status) : M bool :=
  t ← gets y_table;
  if pt_initialized t || iflag then mret false
  else
    let s := pt_stats t in
    _ ← modify (fun y => with_cpu (MkCpu (cp_gdt (y_cpu y)) (cp_rsp0 (y_cpu y)) status (cp_devices (y_cpu y))) y);
    _ ← process_table_set (fun _ => MkTable (pt_registry t) (pt_history t) (pt_cursor t) (pt_next_pid t)
          (MkPStats (ps_created s) (ps_exited s) (ps_reaped s) (ps_user_faults s) (ps_syscalls s) (ps_active s) status) true);
    mret true.

Definition process_available (y : S) : bool :=
  pt_initialized (y_table y) && bool_decide (ps_status (pt_stats (y_table y)) = UTAMO_USER_READY).

Definition set_identity (pid parent : Z) (name : cstring) (p : process) : process :=
  MkProcess (pr_vm p) pid (pr_tid p) (pr_syscalls p) parent (pr_files p) UTAMO_PROCESS_READY name
    (pr_exit_code p) (pr_fault_vector p) (pr_fault_error p) (pr_fault_address p) (pr_faulted p).
Definition set_tid (tid : Z) (p : process) : process :=
  MkProcess (pr_vm p) (pr_pid p) tid (pr_syscalls p) (pr_parent_pid p) (pr_files p) (pr_state p) (pr_name p)
    (pr_exit_code p) (pr_fault_vector p) (pr_fault_error p) (pr_fault_address p) (pr_faulted p).
Definition stat_created (s : process_stats) : process_stats :=
  MkPStats (increment (ps_created s)) (ps_exited s) (ps_reaped s) (ps_user_faults s) (ps_syscalls s) (ps_active s +u 1) (ps_status s).

(** The end of both ways to spawn: the process enters the registry, or all that it
    has goes back. *)
Definition publish_process (slot p : Z) (tid : option Z) : M (option Z) :=
  match tid with
  | Some tid =>
      _ ← set_proc p (set_tid tid);
      _ ← process_table_set (fun t => MkTable (arr_set (pt_registry t) slot p) (pt_history t) (pt_cursor t) (pt_next_pid t +u 1)
            (stat_created (pt_stats t)) (pt_initialized t));
      pid ← gets (fun y => pr_pid (proc y p));
      mret (Some pid)
  | None =>
      live ← gets (fun y => uv_initialized (pr_vm (proc y p)));
      destroyed ← (if live : bool then on_vm p user_vm_destroy else mret true);
      _ ← require destroyed;
      freed ← free_process p;
      _ ← require freed;
      mret None
  end.

(** A call on an address space after calls that succeeded. *)
Definition and_then (p : Z) (good : bool) (f : vm (ustate P) -> vm (ustate P) * bool) : M bool :=
  if good then on_vm p f else mret false.
Fixpoint probe_stack (p : Z) (good : bool) (pages : list Z) : M bool :=
  match pages with
  | [] => mret good
  | i :: pages =>
      good ← and_then p good (fun m => user_vm_alloc_page m (UTAMO_USER_STACK_TOP -u (i +u 1) *u MEMORY_PAGE_SIZE) USER_VM_WRITE);
      probe_stack p good pages
  end.

Definition kernel_vmm_of (y : S) : kernel_vmm := ks_vmm (vm_ctx (w_kernel (y_world y))).
Definition probe_name : cstring := [117; 115; 101; 114; 45; 112; 114; 111; 98; 101].   (** "user-probe" *)

Definition process_spawn_probe (iflag : bool) (anchor probe : Z) : M (option Z * bool) :=
  fit ← gets (fun y => process_available y && (probe <? UTAMO_PROBE_COUNT) && iflag && (pt_next_pid (y_table y) <=? INT64_MAX));
  if negb fit then mret (None, false)
  else
    _ ← preempt_disable;
    slot ← gets (fun y => registry_slot (y_table y) NULL);
    p ← (if slot =? UTAMO_PROCESS_LIMIT then mret NULL else new_process);
    if p =? NULL then trap ← preempt_enable iflag; mret (None, trap)
    else
      k ← gets kernel_vmm_of;
      let image := ly_probe ly in
      good ← and_then p (negb (Z.of_nat (length image) =? 0) && (Z.of_nat (length image) <=? MEMORY_PAGE_SIZE)) (user_vm_create k);
      good ← and_then p good (fun m => user_vm_alloc_page m UTAMO_USER_CODE USER_VM_WRITE);
      good ← and_then p good (fun m => user_vm_copy_to m UTAMO_USER_CODE image);
      good ← and_then p good (fun m => user_vm_protect_page m UTAMO_USER_CODE USER_VM_EXEC);
      good ← and_then p good (fun m => user_vm_alloc_page m UTAMO_USER_DATA USER_VM_WRITE);
      good ← probe_stack p good (seqZ 0 UTAMO_USER_STACK_PAGES);
      pid ← gets (fun y => pt_next_pid (y_table y));
      _ ← set_proc p (set_identity pid 0 probe_name);
      tid ← (if good : bool then scheduler_create_user false anchor probe_name p UTAMO_USER_CODE (UTAMO_USER_STACK_TOP -u 8) probe
             else mret None);
      r ← publish_process slot p tid;
      trap ← preempt_enable iflag;
      mret (r, trap).

Definition process_spawn_elf (iflag : bool) (anchor : Z) (path argument : cstring) (parent_pid : Z) : M (option Z * bool) :=
  available ← gets process_available;
  if negb available then mret (None, false)
  else
    _ ← preempt_disable;
    slot ← gets (fun y => registry_slot (y_table y) NULL);
    node ← gets (fun y => vfs_lookup (y_vfs y) path);
    pid ← gets (fun y => pt_next_pid (y_table y));
    match (if (slot =? UTAMO_PROCESS_LIMIT) || (INT64_MAX <? pid) then None else node) with
    | None => trap ← preempt_enable iflag; mret (None, trap)
    | Some node =>
        if negb (nd_type node =? UTAMO_VFS_FILE) || (Z.land (nd_mode node) 73 =? 0) then trap ← preempt_enable iflag; mret (None, trap)
        else
          p ← new_process;
          if p =? NULL then trap ← preempt_enable iflag; mret (None, trap)
          else
            k ← gets kernel_vmm_of;
            files ← gets y_files;
            loaded ← on_vm p (fun m => elf_load k m (fun i => files (nd_data node + i)) (nd_size node) (str_get argument));
            let name := take (Z.to_nat (UTAMO_PROCESS_NAME_SIZE - 1)) path in
            _ ← set_proc p (set_identity pid parent_pid name);
            tid ← match loaded with
                  | Some l => scheduler_create_user false anchor name p (lp_entry l) (lp_rsp l) (lp_argument l)
                  | None => mret None
                  end;
            r ← publish_process slot p tid;
            trap ← preempt_enable iflag;
            mret (r, trap)
    end.

Definition process_get_stats (y : S) : option process_stats := if pt_initialized (y_table y) then Some (pt_stats (y_table y)) else None.

Definition process_get_result (y : S) (pid : Z) : option process_result :=
  if pid =? 0 then None else List.find (fun r => rs_pid r =? pid) (pt_history (y_table y)).

Definition process_query (y : S) (pid virt : Z) : option vmm_mapping :=
  match List.find (fun p => negb (p =? NULL) && (pr_pid (proc y p) =? pid) && bool_decide (pr_state (proc y p) = UTAMO_PROCESS_READY))
          (pt_registry (y_table y)) with
  | Some p => user_vm_query (user_view (y_world y) (pr_vm (proc y p))) virt
  | None => None
  end.

Definition set_syscalls (p : process) : process :=
  MkProcess (pr_vm p) (pr_pid p) (pr_tid p) (increment (pr_syscalls p)) (pr_parent_pid p) (pr_files p) (pr_state p) (pr_name p)
    (pr_exit_code p) (pr_fault_vector p) (pr_fault_error p) (pr_fault_address p) (pr_faulted p).
Definition process_record_syscall (process : Z) : M unit :=
  live ← gets (fun y => negb (process =? NULL) && bool_decide (pr_state (proc y process) = UTAMO_PROCESS_READY));
  _ ← require live;
  _ ← set_proc process set_syscalls;
  process_table_set (set_stats stat_syscall).

Definition set_collected (r : process_result) : process_result :=
  MkResult (rs_pid r) (rs_parent_pid r) true (rs_exit_code r) (rs_fault_vector r) (rs_fault_error r) (rs_fault_address r) (rs_syscalls r) (rs_faulted r).

Definition process_collect_child (parent child_pid status_address : Z) : M Z :=
  parent_pid ← gets (fun y => if negb (parent =? NULL) then pr_pid (proc y parent) else 0);
  if (parent_pid =? 0) || (child_pid =? 0) then mret UTAMO_SYS_ENOENT
  else
    running ← gets (fun y => existsb (fun p => negb (p =? NULL) && (pr_pid (proc y p) =? child_pid) && (pr_parent_pid (proc y p) =? parent_pid))
                               (pt_registry (y_table y)));
    t ← gets y_table;
    let i := first_index (fun r => (rs_pid r =? child_pid) && (rs_parent_pid r =? parent_pid) && negb (rs_collected r)) (pt_history t) in
    match pt_history t !! i with
    | None => mret (if running : bool then UTAMO_SYS_EAGAIN else UTAMO_SYS_ENOENT)
    | Some result =>
        copied ← on_vm parent (fun m => user_vm_copy_to m status_address (le64 (rs_exit_code result)));
        if negb copied then mret UTAMO_SYS_EFAULT
        else
          _ ← process_table_set (fun t => MkTable (pt_registry t) (<[i := set_collected result]> (pt_history t)) (pt_cursor t)
                (pt_next_pid t) (pt_stats t) (pt_initialized t));
          mret 0
    end.

(** ** process_files.c *)

Definition path_copy (process address length : Z) : M (option cstring) :=
  if (length =? 0) || (UTAMO_VFS_PATH_MAX <=? length) then mret None
  else
    bytes ← read_vm process (fun m => user_vm_copy_from m address length);
    mret (match bytes with
          | Some path => if existsb (fun c => c =? 0) path then None else if vfs_path_valid path then Some path else None
          | None => None
          end).

(** The loop from byte [i]; [n] bytes are left. *)
Fixpoint argument_bytes (m : vm (ustate P)) (address : Z) (n : nat) (i : Z) : option cstring :=
  match n with
  | O => None
  | Datatypes.S n =>
      if UINT64_MAX -u i <? address then None
      else match user_vm_copy_from m (address +u i) 1 with
      | Some [c] => if c =? 0 then Some [] else (fun l => c :: l) <$> argument_bytes m address n (i + 1)
      | _ => None
      end
  end.
Definition argument_copy (process address : Z) : M (option cstring) :=
  if address =? 0 then mret (Some []) else read_vm process (fun m => argument_bytes m address UTAMO_EXEC_ARG_MAX 0).

Definition set_file (fd : Z) (f : vfs_file) (p : process) : process :=
  MkProcess (pr_vm p) (pr_pid p) (pr_tid p) (pr_syscalls p) (pr_parent_pid p) (arr_set (pr_files p) fd f) (pr_state p) (pr_name p)
    (pr_exit_code p) (pr_fault_vector p) (pr_fault_error p) (pr_fault_address p) (pr_faulted p).
Definition file_of (y : S) (process fd : Z) : vfs_file := arr_get (pr_files (proc y process)) fd.
Definition fd_bad (fd : Z) : bool := (fd <? 3) || (UTAMO_PROCESS_FD_LIMIT <=? fd).

(** The loop of [UTAMO_SYS_OPEN]: the first descriptor from 3 on without a node. *)
Definition free_descriptor (p : process) : option Z :=
  List.find (fun fd => bool_decide (vf_node (arr_get (pr_files p) fd) = None)) (seqZ 3 (UTAMO_PROCESS_FD_LIMIT - 3)).

Definition sys_open (process a b c : Z) : M Z :=
  path ← path_copy process a b;
  match path with
  | None => mret UTAMO_SYS_EFAULT
  | Some path =>
      if negb (c =? 0) then mret UTAMO_SYS_EINVAL
      else
        fd ← gets (fun y => free_descriptor (proc y process));
        match fd with
        | None => mret UTAMO_SYS_EMFILE
        | Some fd =>
            r ← gets (fun y => vfs_open (y_vfs y) path (file_of y process fd));
            _ ← set_proc process (set_file fd (fst r));
            mret (if (snd r : bool) then fd else UTAMO_SYS_ENOENT)
        end
  end.

Definition sys_read (process a b c : Z) : M Z :=
  file ← gets (fun y => file_of y process a);
  if fd_bad a || bool_decide (vf_node file = None) then mret UTAMO_SYS_EBADF
  else if UTAMO_SYS_WRITE_LIMIT <? c then mret UTAMO_SYS_EINVAL
  else
    r ← gets (fun y => vfs_read (y_files y) file c);
    match r with
    | None => mret UTAMO_SYS_EIO
    | Some (tentative, bytes) =>
        copied ← on_vm process (fun m => user_vm_copy_to m b bytes);
        if negb copied then mret UTAMO_SYS_EFAULT
        else
          _ ← set_proc process (set_file a tentative);
          mret (Z.of_nat (length bytes))
    end.

Definition sys_close (process a : Z) : M Z :=
  if fd_bad a then mret UTAMO_SYS_EBADF
  else
    r ← gets (fun y => vfs_close (file_of y process a));
    _ ← set_proc process (set_file a (fst r));
    mret (if (snd r : bool) then 0 else UTAMO_SYS_EBADF).

Definition sys_seek (process a b c : Z) : M Z :=
  file ← gets (fun y => file_of y process a);
  if fd_bad a || bool_decide (vf_node file = None) then mret UTAMO_SYS_EBADF
  else if negb (c =? 0) then mret UTAMO_SYS_EINVAL
  else
    let r := vfs_seek file b in
    _ ← set_proc process (set_file a (fst r));
    mret (if (snd r : bool) then i64 b else UTAMO_SYS_EINVAL).

Definition sys_fstat (process a : Z) : M Z :=
  file ← gets (fun y => file_of y process a);
  mret (if fd_bad a then UTAMO_SYS_EBADF else match vf_node file with None => UTAMO_SYS_EBADF | Some node => i64 (nd_size node) end).

Definition sys_spawn (anchor process a b c : Z) : M Z :=
  path ← path_copy process a b;
  match path with
  | None => mret UTAMO_SYS_EFAULT
  | Some path =>
      argument ← argument_copy process c;
      match argument with
      | None => mret UTAMO_SYS_EFAULT
      | Some argument =>
          parent ← gets (fun y => pr_pid (proc y process));
          r ← process_spawn_elf false anchor path argument parent;
          mret (match fst r with Some pid => i64 pid | None => UTAMO_SYS_EEXEC end)
      end
  end.

Definition sys_info (process a b : Z) : M Z :=
  free ← gets (fun y => pmm_get_free (w_frames (y_world y)));
  match (if negb (b =? SYSTEM_INFO_BYTES) then None else free) with
  | None => mret UTAMO_SYS_EINVAL
  | Some free =>
      info ← gets (fun y => le64 (pr_pid (proc y process)) ++ le64 (cp_ticks (y_cpu y)) ++ le64 free ++ le64 4096);
      copied ← on_vm process (fun m => user_vm_copy_to m a info);
      mret (if copied : bool then 0 else UTAMO_SYS_EFAULT)
  end.

Definition process_file_syscall (anchor process number a b c : Z) : M Z :=
  if number =? UTAMO_SYS_OPEN then sys_open process a b c
  else if number =? UTAMO_SYS_READ then sys_read process a b c
  else if number =? UTAMO_SYS_CLOSE then sys_close process a
  else if number =? UTAMO_SYS_SEEK then sys_seek process a b c
  else if number =? UTAMO_SYS_FSTAT then sys_fstat process a
  else if number =? UTAMO_SYS_SPAWN then sys_spawn anchor process a b c
  else if number =? UTAMO_SYS_WAIT then process_collect_child process a b
  else if number =? UTAMO_SYS_INFO then sys_info process a b
  else mret UTAMO_SYS_ENOSYS.

(** ** process_syscall.c and exceptions.c *)

Definition set_result (frame v : Z) : M unit := set_saved frame (set_rax (u64 v)).

Definition sys_write (process frame : Z) (f : interrupt_frame) : M unit :=
  if negb (if_rdi f =? 1) && negb (if_rdi f =? 2) then set_result frame UTAMO_SYS_EBADF
  else if UTAMO_SYS_WRITE_LIMIT <? if_rdx f then set_result frame UTAMO_SYS_EINVAL
  else
    bytes ← read_vm process (fun m => user_vm_copy_from m (if_rsi f) (if_rdx f));
    match (bytes : option (list Z)) with
    | None => set_result frame UTAMO_SYS_EFAULT
    | Some bytes =>
        _ ← modify (fun y => with_log (y_log y ++ bytes) y);
        set_saved frame (set_rax (if_rdx f))
    end.

Definition process_on_syscall (anchor frame : Z) : M Z :=
  process ← gets scheduler_current_process;
  f ← gets (fun y => saved y frame);
  _ ← require (negb (process =? NULL) && (Z.land (if_cs f) 3 =? 3));
  _ ← process_record_syscall process;
  if if_rax f =? UTAMO_SYS_EXIT then
    _ ← process_mark_exit process (i64 (if_rdi f)) false 0 0 0;
    scheduler_exit_user ly frame
  else if if_rax f =? UTAMO_SYS_YIELD then
    _ ← set_result frame 0; scheduler_yield_user ly frame 0
  else if if_rax f =? UTAMO_SYS_SLEEP then
    _ ← set_result frame 0; scheduler_yield_user ly frame (if_rdi f)
  else
    _ ← (if if_rax f =? UTAMO_SYS_WRITE then sys_write process frame f
         else if if_rax f =? UTAMO_SYS_GETPID then
           pid ← gets (fun y => pr_pid (proc y process)); set_saved frame (set_rax pid)
         else
           r ← process_file_syscall anchor process (if_rax f) (if_rdi f) (if_rsi f) (if_rdx f);
           set_result frame r);
    scheduler_resume_user ly frame.

(** The last branch, a fault in the kernel or a critical exception, halts. *)
Definition interrupt_dispatch (anchor cr2 : Z) (frame : Z) : M Z :=
  f ← gets (fun y => saved y frame);
  let user := Z.land (if_cs f) 3 =? 3 in
  let critical := (if_vector f =? 2) || (if_vector f =? 8) || (if_vector f =? 18) in
  if (32 <=? if_vector f) && (if_vector f <? 32 + 16) then
    _ ← device (irq_dispatch (if_vector f - 32));
    scheduler_on_interrupt ly frame
  else
    safe ← (if user && negb critical then scheduler_user_frame_safe ly frame else mret true);
    if negb safe then process_on_fault ly frame 13 0 0
    else if user && (if_vector f =? UTAMO_SYSCALL_VECTOR) then process_on_syscall anchor frame
    else if if_vector f =? UTAMO_SCHEDULE_VECTOR then scheduler_on_interrupt ly frame
    else if user && negb critical then process_on_fault ly frame (if_vector f) (if_error_code f) (if if_vector f =? 14 then cr2 else 0)
    else PANIC.
End process.
