(* ===== verification/SystemInv.v ===== *)
(** * Threads and processes: the invariant

    [sys_inv] relates the objects of scheduler.c and process.c to the scheduler
    policy and to the machine under them: which threads have which stacks, address
    spaces and heap objects, and that nothing else is in use.  [pending] names the
    thread, stack slot and process that a creation or a removal has taken apart
    from the rest.  [rest] says what a step of the running thread leaves alone:
    everything that belongs to the other threads. *)

From stdpp Require Import gmap.
From S2P Require Import Prelude MemoryHelpers Bytes VmmCore VmmMap Frames KernelVm KernelPages HeapCore HeapSpec HeapStore KernelHeap ThreadStack ThreadStackProps UserVm UserVmTree UserVmOps UserVmLife UserVmSpec ElfLoad ElfLoadProps SchedCore SchedInv SchedMoves Vfs World WorldInv Devices System Scheduler Process.
Open Scope Z_scope.

(** ** Total correctness

    [wp f Q y]: from [y] the code returns, without a [PANIC], and [Q] holds. *)

Section wp.
Context {P : Type}.

Definition wp {A} (f : Sys P A) (Q : A -> system P -> Prop) (y : system P) : Prop :=
  match f y with (y', Some x) => Q x y' | (_, None) => False end.

Lemma sys_wp_bind {A B} (f : Sys P A) (k : A -> Sys P B) Q y : wp f (fun x => wp (k x) Q) y -> wp (f ≫= k) Q y.
Proof. unfold wp, mbind, sys_bind. by destruct (f y) as [y' [x|]]. Qed.

Lemma sys_wp_mono {A} (f : Sys P A) (Q R : A -> system P -> Prop) y : wp f Q y -> (forall x y', Q x y' -> R x y') -> wp f R y.
Proof. unfold wp. destruct (f y) as [y' [x|]]; auto. Qed.

Lemma wp_require b Q y : b = true -> Q tt y -> wp (require (P := P) b) Q y.
Proof. by intros ->. Qed.
End wp.

(** The next call of a sequence. *)
Ltac step := apply sys_wp_bind; cbn [wp gets modify mret sys_ret].

(** ** What the linker provides *)

Record layout_ok (ly : layout) : Prop := {
  lo_self : ly_scheduler ly <> NULL;
  lo_static : ly_idle ly <> ly_bootstrap ly /\ ~ heap_range (ly_idle ly) /\ ~ heap_range (ly_bootstrap ly);
  lo_stack : memory_is_canonical (ly_stack_top ly) = true /\ 0xffff800000000000 < ly_stack_top ly /\ Z.land (ly_stack_top ly) 15 = 0 /\
    0 < ly_stack_bottom ly /\ ly_stack_bottom ly + 192 <= ly_stack_top ly <= UINT64_MAX;
  lo_apart : forall k a, 0 <= k < 64 -> ly_stack_bottom ly <= a < ly_stack_top ly -> ~ stack_range k a;
  lo_entry : memory_is_canonical (ly_thread_bootstrap ly) = true /\ 0xffff800000000000 <= ly_thread_bootstrap ly;
  lo_halt : memory_is_canonical (ly_cpu_halt ly) = true /\ ly_cpu_halt ly <> 0
}.

Record pending := MkPending { pd_thread : option Z; pd_slot : option Z; pd_process : option Z }.
Definition none : pending := MkPending None None None.

Section inv.
Context {P : Type} `{PageFramesLaws P} (ly : layout).
Notation S := (system P).
Notation self := (ly_scheduler ly).
Implicit Types y : S.

Definition generation y (k : Z) : Z := arr_get (sk_generations (w_stacks (y_world y))) k.
Definition slot_of y (t : Z) : Z := ts_slot (th_stack (thread y t)).
Definition dead y (t : Z) : Prop := zombie (y_sched y) t.
Definition tasks y : list Z := reg (y_sched y).
Definition process_at y (t : Z) : Z := th_process (thread y t).
(** CR3 while the thread runs. *)
Definition space_root y (t : Z) : Z :=
  if process_at y t =? NULL then sx_kernel_cr3 (y_statics y) else vs_root_phys (uv_space (pr_vm (proc y (process_at y t)))).

Record thread_ok y (L : gmap Z (list Z)) (t : Z) : Prop := {
  to_stack : t <> ly_bootstrap ly -> 0 <= slot_of y t < 64 /\ is_Some (L !! slot_of y t) /\ th_stack (thread y t) = descriptor (slot_of y t) (generation y (slot_of y t));
  to_static : t = ly_idle ly \/ t = ly_bootstrap ly -> process_at y t = NULL;
  to_dynamic : t <> ly_idle ly -> t <> ly_bootstrap ly -> th_dynamic (thread y t) = true
}.

(** ** The geometry of the stacks *)

Section geometry.
Context (Hly : layout_ok ly).

Definition on_stack y (t a : Z) : Prop := stack_bottom ly y t <= a < stack_top ly y t.

Lemma descriptor_bounds k g : 0 <= k < 64 -> let s := descriptor k g in 0 < ts_base s /\ ts_base s + 192 <= ts_top s <= UINT64_MAX /\
  memory_is_canonical (ts_top s) = true /\ 0xffff800000000000 < ts_top s /\ Z.land (ts_top s) 15 = 0.
Proof.
  intros Hk. cbn [descriptor ts_base ts_top]. destruct (guard_facts k Hk) as (_ & Hm & Hlo & Hhi). unfold VMM_DYNAMIC_BASE in *. split_and!; [lia|lia|unfold UINT64_MAX; lia| |lia|].
  - unfold memory_is_canonical. destruct (Z.leb_spec (guard_at k + 69632) 0x7fffffffffff); [lia|]. cbn. destruct (Z.leb_spec 0xffff800000000000 (guard_at k + 69632)); [done|lia].
  - change 15 with (Z.ones 4). rewrite Z.land_ones by lia. change (2 ^ 4) with 16. dlia.
Qed.

Lemma stack_of y L t : thread_ok y L t -> t <> ly_bootstrap ly -> 0 <= slot_of y t < 64 /\
  stack_bottom ly y t = guard_at (slot_of y t) + 4096 /\ stack_top ly y t = guard_at (slot_of y t) + 69632.
Proof.
  intros T Hb. destruct (to_stack _ _ _ T Hb) as (Hk & _ & E). unfold stack_bottom, stack_top. rewrite (proj2 (Z.eqb_neq _ _) Hb). split; [done|]. rewrite E. done.
Qed.

Lemma stack_bounds y L t : thread_ok y L t -> 0 < stack_bottom ly y t /\ stack_bottom ly y t + 192 <= stack_top ly y t <= UINT64_MAX /\
  memory_is_canonical (stack_top ly y t) = true /\ 0xffff800000000000 < stack_top ly y t /\ Z.land (stack_top ly y t) 15 = 0.
Proof.
  intros T. destruct (decide (t = ly_bootstrap ly)) as [-> |Hb].
  - unfold stack_bottom, stack_top. rewrite Z.eqb_refl. destruct (lo_stack _ Hly) as (? & ? & ? & ? & ?). split_and!; first [done|lia].
  - destruct (stack_of y L t T Hb) as (Hk & -> & ->). by apply (descriptor_bounds _ 0).
Qed.

Lemma slot_of_address k k' a : stack_range k a -> stack_range k' a -> k = k'.
Proof. unfold stack_range, guard_at, UTAMO_THREAD_STACK_STRIDE, UTAMO_THREAD_STACK_REGION. lia. Qed.

Lemma stack_inside y L t a : thread_ok y L t -> t <> ly_bootstrap ly -> on_stack y t a -> stack_range (slot_of y t) a.
Proof. intros T Hb. unfold on_stack, stack_range. destruct (stack_of y L t T Hb) as (_ & -> & ->). lia. Qed.

Lemma boot_outside y a : on_stack y (ly_bootstrap ly) a -> ly_stack_bottom ly <= a < ly_stack_top ly.
Proof. unfold on_stack, stack_bottom, stack_top. by rewrite Z.eqb_refl. Qed.

(** Two threads whose slots differ share no address. *)
Lemma stacks_apart y L t t' a : thread_ok y L t -> thread_ok y L t' -> t <> t' -> (t <> ly_bootstrap ly -> t' <> ly_bootstrap ly -> slot_of y t <> slot_of y t') ->
  on_stack y t a -> ~ on_stack y t' a.
Proof.
  intros T T' Hne Hs Ha Ha'. destruct (decide (t = ly_bootstrap ly)) as [-> |Hb], (decide (t' = ly_bootstrap ly)) as [-> |Hb']; [done| | |].
  - apply boot_outside in Ha. destruct (stack_of y L t' T' Hb') as (Hk & _). by apply (lo_apart _ Hly _ a Hk Ha), (stack_inside y L).
  - apply boot_outside in Ha'. destruct (stack_of y L t T Hb) as (Hk & _). by apply (lo_apart _ Hly _ a Hk Ha'), (stack_inside y L).
  - apply (Hs Hb Hb'). by apply (slot_of_address _ _ a); eapply stack_inside.
Qed.

Lemma owned_on y L t a : thread_ok y L t -> frame_owned ly y t a = true <-> on_stack y t a /\ a <= stack_top ly y t - 176 /\ Z.land a 7 = 0.
Proof.
  intros T. destruct (stack_bounds y L t T) as (H1 & H2 & _). unfold frame_owned, on_stack, NULL. change FRAME_BYTES with 176. rewrite (u64_small (stack_top ly y t - 176)) by (unfold u64_ok; lia). lia.
Qed.
End geometry.

(** ** The invariant *)

Context (base : Z -> Prop) (nx : bool) (K : gset Z).

Record owner_ok y (pd : pending) (t : Z) : Prop := {
  oo_live : exists x, y_procs y !! process_at y t = Some x /\ uv_initialized (pr_vm x) = true;
  oo_registry : process_at y t ∈ pt_registry (y_table y) \/ pd_process pd = Some (process_at y t);
  oo_zombie : dead y t -> pr_state (proc y (process_at y t)) = UTAMO_PROCESS_EXITED;
  oo_exited : t <> current y -> pr_state (proc y (process_at y t)) = UTAMO_PROCESS_EXITED -> dead y t;
  oo_cpu : arch_user_ready y = true
}.

Record registry_ok (t : process_table) : Prop := {
  ro_length : length (pt_registry t) = Z.to_nat UTAMO_PROCESS_LIMIT;
  ro_unique : forall i j p, p <> NULL -> pt_registry t !! i = Some p -> pt_registry t !! j = Some p -> i = j;
  ro_active : ps_active (pt_stats t) = count_if (fun p => negb (p =? NULL)) (pt_registry t)
}.

Record core_inv y (fs : list Z) (hm L : gmap Z (list Z)) (pd : pending) : Prop := {
  ci_world : world_inv base (y_world y) nx fs hm L (pr_vm <$> y_procs y);
  ci_sched : sched_ok self (y_sched y);
  ci_idle : sc_idle (s_core (y_sched y)) = ly_idle ly;
  ci_boot : ly_bootstrap ly ∈ tasks y /\ ~ dead y (ly_bootstrap ly);
  ci_ready : sx_ready (y_statics y) = true;
  ci_clock : sc_now (s_core (y_sched y)) <= cp_ticks (y_cpu y) /\ u64_ok (cp_ticks (y_cpu y));
  ci_gdt : cp_gdt (y_cpu y) = true;
  ci_kernel : let m := w_kernel (y_world y) in let mask := vs_physical_mask (kspace m) in
    Z.land (sx_kernel_cr3 (y_statics y)) mask = vs_root_phys (kspace m) /\
    memory_physical_mask (vinf_physical_bits (kv_information (ks_vmm (vm_ctx m)))) = Some mask;
  ci_threads : forall t, t ∈ tasks y -> thread_ok y L t;
  ci_slots : forall t t', t ∈ tasks y -> t' ∈ tasks y -> t <> ly_bootstrap ly -> t' <> ly_bootstrap ly -> slot_of y t = slot_of y t' -> t = t';
  ci_owners : forall t, t ∈ tasks y -> process_at y t <> NULL -> owner_ok y pd t;
  ci_single : forall t t', t ∈ tasks y -> t' ∈ tasks y -> process_at y t <> NULL -> process_at y t = process_at y t' -> t = t';
  ci_frames : forall t, t ∈ tasks y -> t <> current y -> ~ dead y t -> valid_frame ly y t (th_frame (thread y t)) = true;
  ci_cr3 : w_cr3 (y_world y) = space_root y (current y);
  (** what exists *)
  ci_objects : forall t, is_Some (y_threads y !! t) <-> t ∈ tasks y \/ pd_thread pd = Some t;
  ci_stacks : forall k, is_Some (L !! k) <-> (exists t, t ∈ tasks y /\ t <> ly_bootstrap ly /\ slot_of y t = k) \/ pd_slot pd = Some k;
  ci_procs : forall p, is_Some (y_procs y !! p) <-> (p <> NULL /\ p ∈ pt_registry (y_table y)) \/ pd_process pd = Some p;
  ci_run : forall p, p <> NULL -> p ∈ pt_registry (y_table y) -> pd_process pd = Some p \/ exists t, t ∈ tasks y /\ process_at y t = p;
  ci_heap : forall p, is_Some (hm !! p) <-> p ∈ K \/ (p <> ly_idle ly /\ p <> ly_bootstrap ly /\ is_Some (y_threads y !! p)) \/ is_Some (y_procs y !! p);
  ci_apart : forall p, is_Some (y_procs y !! p) -> y_threads y !! p = None /\ p ∉ K;
  ci_others : forall t, is_Some (y_threads y !! t) -> t ∉ K;
  ci_pend : (forall t, pd_thread pd = Some t -> t ∉ tasks y) /\ (forall k t, pd_slot pd = Some k -> t ∈ tasks y -> t <> ly_bootstrap ly -> slot_of y t <> k);
  ci_registry : registry_ok (y_table y);
  ci_files : forall path node, vfs_lookup (y_vfs y) path = Some node -> 0 <= nd_size node
}.
Definition sys_inv y (pd : pending) : Prop := exists fs hm L, core_inv y fs hm L pd.

(** What a step of thread [c] leaves alone. *)
Record rest (c : Z) y y' : Prop := {
  rs_thread : forall t, t ∈ tasks y -> t <> c -> ~ dead y t -> t ∈ tasks y' /\ ~ dead y' t /\ thread y' t = thread y t /\
    saved y' (th_frame (thread y t)) = saved y (th_frame (thread y t));
  rs_process : forall t x, t ∈ tasks y -> t <> c -> ~ dead y t -> process_at y t <> NULL -> y_procs y !! process_at y t = Some x ->
    y_procs y' !! process_at y t = Some x /\ forall F, shows (user_view (y_world y) (pr_vm x)) F -> shows (user_view (y_world y') (pr_vm x)) F
}.

Lemma rest_refl c y : rest c y y.
Proof. by constructor. Qed.

Lemma rest_trans c y1 y2 y3 : rest c y1 y2 -> rest c y2 y3 -> rest c y1 y3.
Proof.
  intros R1 R2. constructor.
  - intros t Ht Hc Hz. destruct (rs_thread _ _ _ R1 t Ht Hc Hz) as (H1 & H2 & E1 & E2). destruct (rs_thread _ _ _ R2 t H1 Hc H2) as (H3 & H4 & E3 & E4).
    rewrite E1 in *. split_and!; [done|done|done|]. by rewrite E4, E2.
  - intros t x Ht Hc Hz Hp Hx. destruct (rs_thread _ _ _ R1 t Ht Hc Hz) as (H1 & H2 & E1 & E2). destruct (rs_process _ _ _ R1 t x Ht Hc Hz Hp Hx) as [H3 H4].
    assert (process_at y2 t = process_at y1 t) as Ep by (unfold process_at; by rewrite E1). rewrite <- Ep in *. destruct (rs_process _ _ _ R2 t x H1 Hc H2 Hp H3) as [H5 H6]. split; [done|]. intros F HF. by apply H6, H4.
Qed.

End inv.
