(* ===== verification/SystemSteps.v ===== *)
(** * Threads and processes: the invariant under each kind of change

    One lemma for each way in which scheduler.c and process.c change the state:
    a move of the scheduler, a field of an object, an object that is made or
    freed, a stack, an address space. *)

From stdpp Require Import gmap.
From S2P Require Import Prelude MemoryHelpers Bytes VmmCore VmmMap Frames KernelVm KernelPages HeapCore HeapSpec HeapStore KernelHeap ThreadStack ThreadStackProps UserVm UserVmTree UserVmOps UserVmLife UserVmSpec ElfLoad ElfLoadProps SchedCore SchedInv SchedMoves Vfs World WorldInv Devices System Scheduler Process SystemInv.
Open Scope Z_scope.

Section steps.
Context {P : Type} `{PageFramesLaws P} (ly : layout) (Hly : layout_ok ly) (base : Z -> Prop) (nx : bool) (K : gset Z).
Notation S := (system P).
Notation self := (ly_scheduler ly).
Notation inv := (core_inv ly base nx K).
Implicit Types y : S.

(** ** Moves of the scheduler *)

Lemma inv_moved y s' fs hm L pd c : inv y fs hm L pd -> moved self (y_sched y) s' -> sc_current (s_core s') = current y ->
  sc_now (s_core s') <= cp_ticks (y_cpu y) -> inv (with_sched s' y) fs hm L pd /\ rest c y (with_sched s' y).
Proof.
  intros I M Hc Hn. set (y' := with_sched s' y). assert (tasks y' = tasks y) as Er by apply (moved_reg _ _ _ M). assert (current y' = current y) as Ec by exact Hc.
  assert (forall t, t ∈ tasks y -> dead y' t <-> dead y t) as Hd by (intros t Ht; by apply (mv_zombie _ _ _ M)).
  split; [|constructor; [intros t Ht Hne Hz; rewrite Er; split_and!; [done|by rewrite Hd|done|done]|done]].
  destruct I. constructor; rewrite ?Er; try assumption.
  - apply M.
  - etrans; [apply M|done].
  - destruct ci_boot. split; [done|]. by rewrite Hd.
  - by split; [|apply ci_clock].
  - intros t Ht. by destruct (ci_threads t Ht); constructor.
  - intros t Ht Hp. destruct (ci_owners t Ht Hp). constructor; rewrite ?Ec, ?Hd by done; done.
  - intros t Ht. rewrite Ec, Hd by done. by apply ci_frames.
  - etrans; [exact ci_cr3|]. unfold space_root. by rewrite Ec.
Qed.

Lemma inv_current y fs hm L pd : inv y fs hm L pd -> current y ∈ tasks y.
Proof. intros I. by apply (ok_current self), I. Qed.

(** The running thread, which has no process or one that has ended, ends. *)
Lemma inv_retired y fs hm L pd : inv y fs hm L pd -> sched_ok self (retired UTAMO_SCHED_ZOMBIE (y_sched y)) -> current y <> ly_bootstrap ly ->
  (process_at y (current y) <> NULL -> pr_state (proc y (process_at y (current y))) = UTAMO_PROCESS_EXITED) ->
  let y' := with_sched (retired UTAMO_SCHED_ZOMBIE (y_sched y)) y in inv y' fs hm L pd /\ rest (current y) y y'.
Proof.
  intros I Hok Hb Hp y'. assert (tasks y' = tasks y) as Er by done. assert (current y' = current y) as Ec by done.
  assert (forall t, t <> current y -> dead y' t <-> dead y t) as Hd by (intros t Ht; unfold dead, zombie; cbn; rewrite retired_node; by rewrite decide_False).
  split; [|constructor; [intros t Ht Hne Hz; split_and!; [done|by rewrite Hd|done|done]|done]].
  destruct I. constructor; rewrite ?Er; try assumption.
  - destruct ci_boot. split; [done|]. rewrite Hd by done. done.
  - intros t Ht. by destruct (ci_threads t Ht); constructor.
  - intros t Ht Hp'. destruct (ci_owners t Ht Hp'). constructor; try done.
    + destruct (decide (t = current y)) as [-> |Hne]; [by intros _; apply Hp|rewrite Hd by done; done].
    + intros Hne. rewrite Hd by done. by apply oo_exited.
  - intros t Ht Hne. rewrite Hd by done. by apply ci_frames.
Qed.

(** ** Fields of objects *)

Lemma thread_insert y t r q : thread (with_threads (<[t := r]> (y_threads y)) y) q = if decide (q = t) then r else thread y q.
Proof. unfold thread. cbn. case_decide; [subst; by rewrite lookup_total_insert_eq|by rewrite lookup_total_insert_ne]. Qed.

Definition same_identity (r r' : kernel_thread) : Prop := th_stack r' = th_stack r /\ th_process r' = th_process r /\ th_dynamic r' = th_dynamic r.

Lemma inv_thread y fs hm L pd r : inv y fs hm L pd -> same_identity (thread y (current y)) r ->
  let y' := with_threads (<[current y := r]> (y_threads y)) y in inv y' fs hm L pd /\ rest (current y) y y'.
Proof.
  intros I (E1 & E2 & E3) y'. set (c := current y) in *. assert (forall q, thread y' q = if decide (q = c) then r else thread y q) as Ht by apply thread_insert.
  assert (forall q, th_stack (thread y' q) = th_stack (thread y q) /\ process_at y' q = process_at y q /\ th_dynamic (thread y' q) = th_dynamic (thread y q)) as Hsame
    by (intros q; unfold process_at; rewrite Ht; case_decide; by subst).
  assert (forall q, slot_of y' q = slot_of y q) as Hsl by (intros q; unfold slot_of; by rewrite (proj1 (Hsame q))).
  assert (forall q, process_at y' q = process_at y q) as Hpr by apply Hsame.
  assert (forall q, is_Some (y_threads y' !! q) <-> is_Some (y_threads y !! q)) as Hdom.
  { intros q. cbn. destruct (decide (q = c)) as [-> |]; [|by rewrite lookup_insert_ne]. rewrite lookup_insert_eq. split; [|done]. intros _. apply I. left. by apply (inv_current y fs hm L pd). }
  split; [|constructor; [|done]; intros t H1 H2 H3; split_and!; [done|done|by rewrite Ht, decide_False|done]].
  destruct I. constructor; try assumption.
  - intros t Hin. destruct (ci_threads t Hin). constructor; rewrite ?Hsl, ?Hpr; [|done|]; [|by rewrite (proj2 (proj2 (Hsame t)))]. by rewrite (proj1 (Hsame t)).
  - intros t t' ? ? ? ?. rewrite !Hsl. by apply ci_slots.
  - intros t Hin. rewrite Hpr. intros Hp. destruct (ci_owners t Hin Hp). constructor; rewrite ?Hpr; done.
  - intros t t' ? ?. rewrite !Hpr. by apply ci_single.
  - intros t Hin Hne Hz. change (current y') with c in Hne. rewrite Ht, decide_False by done. rewrite <- (ci_frames t Hin Hne Hz). unfold valid_frame, frame_owned, stack_bottom, stack_top.
    by rewrite Ht, decide_False by done.
  - etrans; [exact ci_cr3|]. unfold space_root. rewrite Hpr. done.
  - intros t. rewrite Hdom. apply ci_objects.
  - intros k. rewrite ci_stacks. split; (intros [(t & ? & ? & ?)|]; [left; exists t|by right]); [by rewrite Hsl|by rewrite <- Hsl].
  - intros p Hn Hp. destruct (ci_run p Hn Hp) as [|(t & ? & ?)]; [by left|right; exists t]. by rewrite Hpr.
  - intros p. rewrite Hdom. apply ci_heap.
  - intros p Hp. destruct (ci_apart p Hp) as [Hn Hk]. split; [|done]. apply eq_None_not_Some. rewrite Hdom. by rewrite Hn.
  - intros t. rewrite Hdom. apply ci_others.
  - destruct ci_pend as [Hp1 Hp2]. split; [done|]. intros k t. rewrite Hsl. apply Hp2.
Qed.

Lemma saved_insert y a f b : saved (with_saved (<[a := f]> (y_saved y)) y) b = if decide (b = a) then f else saved y b.
Proof. unfold saved. cbn. case_decide; [subst; by rewrite lookup_total_insert_eq|by rewrite lookup_total_insert_ne]. Qed.

Lemma valid_owned y t a : valid_frame ly y t a = true -> frame_owned ly y t a = true.
Proof. unfold valid_frame. by destruct (frame_owned ly y t a). Qed.

(** A saved frame that is on no other thread's stack. *)
Lemma inv_saved y fs hm L pd a f : inv y fs hm L pd -> (forall t, t ∈ tasks y -> t <> current y -> ~ on_stack ly y t a) ->
  let y' := with_saved (<[a := f]> (y_saved y)) y in inv y' fs hm L pd /\ rest (current y) y y'.
Proof using Hly.
  intros I Ha y'. assert (forall t, t ∈ tasks y -> t <> current y -> ~ dead y t -> saved y' (th_frame (thread y t)) = saved y (th_frame (thread y t))) as Hs.
  { intros t Hin Hne Hz. unfold y'. rewrite saved_insert, decide_False; [done|]. intros E. apply (Ha t Hin Hne). rewrite <- E.
    apply (owned_on ly Hly y L t); [by apply I|]. by apply valid_owned, I. }
  split; [|constructor; [|done]; intros t H1 H2 H3; split_and!; [done|done|done|by apply Hs]].
  destruct I. constructor; try assumption.
  - intros t Hin. by destruct (ci_threads t Hin); constructor.
  - intros t Hin Hp. by destruct (ci_owners t Hin Hp); constructor.
  - intros t Hin Hne Hz. rewrite <- (ci_frames t Hin Hne Hz). unfold valid_frame. change (thread y' t) with (thread y t). by rewrite (Hs t Hin Hne Hz).
Qed.

Lemma proc_insert y p x q : proc (with_procs (<[p := x]> (y_procs y)) y) q = if decide (q = p) then x else proc y q.
Proof. unfold proc. cbn. case_decide; [subst; by rewrite lookup_total_insert_eq|by rewrite lookup_total_insert_ne]. Qed.

Lemma proc_lookup y p x : y_procs y !! p = Some x -> proc y p = x.
Proof. unfold proc. by apply lookup_total_correct. Qed.

(** The process of [c], or one that has no thread yet.  Only the running process
    ends, and it does not come back. *)
Lemma inv_proc y fs hm L pd c p x x' : inv y fs hm L pd -> y_procs y !! p = Some x -> pr_vm x' = pr_vm x ->
  pr_state x' = pr_state x \/ (pr_state x' = UTAMO_PROCESS_EXITED /\ process_at y (current y) = p) ->
  (forall t, t ∈ tasks y -> t <> c -> process_at y t <> p) ->
  let y' := with_procs (<[p := x']> (y_procs y)) y in inv y' fs hm L pd /\ rest c y y'.
Proof.
  intros I Hx Hv Hs Hother y'. assert (forall q, proc y' q = if decide (q = p) then x' else proc y q) as Hq by apply proc_insert. pose proof (proc_lookup y p x Hx) as Ex.
  assert (pr_vm <$> y_procs y' = pr_vm <$> y_procs y) as Em.
  { cbn. rewrite fmap_insert, Hv. apply insert_id. by rewrite lookup_fmap, Hx. }
  assert (forall q, is_Some (y_procs y' !! q) <-> is_Some (y_procs y !! q)) as Hdom.
  { intros q. cbn. destruct (decide (q = p)) as [-> |]; [|by rewrite lookup_insert_ne]. rewrite lookup_insert_eq, Hx. done. }
  assert (forall t, t ∈ tasks y -> process_at y t = p -> pr_state x = UTAMO_PROCESS_EXITED -> pr_state x' = UTAMO_PROCESS_EXITED) as Hkeep by (intros t _ _ E; destruct Hs as [->|[-> _]]; done).
  split; [|constructor; [by intros; split_and!|]; intros t z Ht Hne Hz Hp E; split; [|done]; cbn; rewrite lookup_insert_ne; [done|]; by apply not_eq_sym, Hother].
  destruct I. constructor; try assumption.
  - by rewrite Em.
  - intros t Hin. by destruct (ci_threads t Hin); constructor.
  - intros t Hin Hp. destruct (ci_owners t Hin Hp) as [(z & Hz & Hi) ? Hzo Hex ?]. change (process_at y' t) with (process_at y t) in *. constructor; change (process_at y' t) with (process_at y t); rewrite ?Hq; try done.
    + destruct (decide (process_at y t = p)) as [E|E]; cbn.
      * exists x'. rewrite E, lookup_insert_eq. split; [done|]. rewrite Hv. rewrite E in Hz. by simplify_eq.
      * exists z. by rewrite lookup_insert_ne by done.
    + intros Hd. destruct (decide (process_at y t = p)) as [E|E]; [|by apply Hzo]. apply (Hkeep t Hin E). rewrite <- Ex, <- E. by apply Hzo.
    + intros Hne. destruct (decide (process_at y t = p)) as [E|E]; [|by apply Hex]. intros E'. destruct Hs as [Es|[_ Ecur]].
      * apply Hex; [done|]. by rewrite E, Ex, <- Es.
      * destruct Hne. symmetry. apply (ci_single (current y) t); [by apply (ok_current self)|done|congruence|congruence].
  - etrans; [exact ci_cr3|]. unfold space_root. change (process_at y' (current y')) with (process_at y (current y)). rewrite Hq. destruct (_ =? NULL); [done|]. case_decide as E; [|done]. by rewrite E, Ex, Hv.
  - intros q. rewrite Hdom. apply ci_procs.
  - intros q. rewrite Hdom. apply ci_heap.
  - intros q. rewrite Hdom. apply ci_apart.
Qed.

(** ** Statics *)

Lemma inv_table y fs hm L pd t c : inv y fs hm L pd -> pt_registry t = pt_registry (y_table y) -> ps_active (pt_stats t) = ps_active (pt_stats (y_table y)) ->
  let y' := with_table t y in inv y' fs hm L pd /\ rest c y y'.
Proof.
  intros I E1 E2 y'. split; [|by constructor]. assert (pt_registry (y_table y') = pt_registry (y_table y)) as Er by done. destruct I. constructor; rewrite ?Er; try assumption.
  - intros q Hin. by destruct (ci_threads q Hin); constructor.
  - intros q Hin Hp. destruct (ci_owners q Hin Hp). constructor; rewrite ?Er; done.
  - destruct ci_registry. constructor; cbn; rewrite ?E1, ?E2; done.
Qed.

Lemma inv_cpu y fs hm L pd k c : inv y fs hm L pd -> cp_gdt k = cp_gdt (y_cpu y) -> cp_status k = cp_status (y_cpu y) -> cp_ticks (y_cpu y) <= cp_ticks k -> u64_ok (cp_ticks k) ->
  let y' := with_cpu k y in inv y' fs hm L pd /\ rest c y y'.
Proof.
  intros I E1 E2 H1 H2 y'. split; [|by constructor]. destruct I. constructor; try assumption.
  - cbn. destruct ci_clock. split; [lia|done].
  - cbn. by rewrite E1.
  - intros q Hin. by destruct (ci_threads q Hin); constructor.
  - intros q Hin Hp. destruct (ci_owners q Hin Hp). constructor; try done. unfold arch_user_ready in *. cbn. by rewrite E2.
Qed.

Lemma inv_statics y fs hm L pd x c : inv y fs hm L pd -> sx_ready x = sx_ready (y_statics y) -> sx_kernel_cr3 x = sx_kernel_cr3 (y_statics y) ->
  let y' := with_statics x y in inv y' fs hm L pd /\ rest c y y'.
Proof.
  intros I E1 E2 y'. split; [|by constructor]. destruct I. constructor; try assumption.
  - cbn. by rewrite E1.
  - cbn. by rewrite E2.
  - intros q Hin. by destruct (ci_threads q Hin); constructor.
  - intros q Hin Hp. by destruct (ci_owners q Hin Hp); constructor.
  - etrans; [exact ci_cr3|]. unfold space_root. cbn. by rewrite E2.
Qed.

Lemma inv_log y fs hm L pd l c : inv y fs hm L pd -> let y' := with_log l y in inv y' fs hm L pd /\ rest c y y'.
Proof.
  intros I y'. split; [|by constructor]. destruct I. constructor; try assumption.
  - intros q Hin. by destruct (ci_threads q Hin); constructor.
  - intros q Hin Hp. by destruct (ci_owners q Hin Hp); constructor.
Qed.

(** ** The machine *)

Lemma wp_machine {A} (f : world P -> world P * A) Q y : (let (w, r) := f (y_world y) in w_panic w = false /\ Q r (with_world w y)) -> wp (machine f) Q y.
Proof. unfold wp, machine. destruct (f (y_world y)) as [w r]. by intros [-> HQ]. Qed.

(** What the kernel does to its own memory leaves the user's alone. *)
Lemma world_rest y w' X R c : effect (y_world y) w' X R -> (forall p x g, y_procs y !! p = Some x -> g ∈ vm_frames (pr_vm x) -> ~ X g) -> rest c y (with_world w' y).
Proof.
  intros E Hx. constructor; [done|]. intros t x Ht Hc Hz Hp Hpx. split; [done|]. intros F HF. apply (user_shows (y_world y) w' X R); [done|done|]. intros g. by apply (Hx _ x g Hpx).
Qed.

Lemma kernel_fixed (w w' : world P) cr3 : same_fixed (vm_ctx (w_kernel w)) (vm_ctx (w_kernel w')) ->
  (let m := w_kernel w in let mask := vs_physical_mask (kspace m) in Z.land cr3 mask = vs_root_phys (kspace m) /\ memory_physical_mask (vinf_physical_bits (kv_information (ks_vmm (vm_ctx m)))) = Some mask) ->
  let m := w_kernel w' in let mask := vs_physical_mask (kspace m) in Z.land cr3 mask = vs_root_phys (kspace m) /\ memory_physical_mask (vinf_physical_bits (kv_information (ks_vmm (vm_ctx m)))) = Some mask.
Proof. unfold same_fixed, fixed, fixed_info, kspace. intros [= E1 E2 E3 E4 E5 E6 E7 E8 E9]. cbn. by rewrite E1, E6. Qed.

Lemma inv_world y w' fs hm L pd fs' hm' L' k' X R c : inv y fs hm L pd -> world_inv base w' nx fs' hm' L' (pr_vm <$> y_procs y) -> effect (y_world y) w' X R ->
  (forall p x g, y_procs y !! p = Some x -> g ∈ vm_frames (pr_vm x) -> ~ X g) -> w_cr3 w' = w_cr3 (y_world y) ->
  (forall t, t ∈ tasks y -> t <> ly_bootstrap ly -> arr_get (sk_generations (w_stacks w')) (slot_of y t) = generation y (slot_of y t) /\ k' <> Some (slot_of y t)) ->
  (forall k, is_Some (L' !! k) <-> (exists t, t ∈ tasks y /\ t <> ly_bootstrap ly /\ slot_of y t = k) \/ k' = Some k) ->
  (forall p, is_Some (hm' !! p) <-> is_Some (hm !! p)) ->
  inv (with_world w' y) fs' hm' L' (MkPending (pd_thread pd) k' (pd_process pd)) /\ rest c y (with_world w' y).
Proof.
  intros I W E Hx E3 Hg HL Hh. split; [|by eapply world_rest]. destruct I. constructor; try assumption.
  - apply (kernel_fixed (y_world y)); [apply E|done].
  - intros t Ht. destruct (ci_threads t Ht). constructor; [|done..]. intros Hb. destruct (to_stack Hb) as (Hk & _ & Es). split_and!; [apply Hk|apply Hk|apply HL; left; by exists t|]. etrans; [exact Es|]. f_equal. symmetry. by apply (Hg t).
  - intros t Ht Hp. by destruct (ci_owners t Ht Hp); constructor.
  - etrans; [exact E3|]. exact ci_cr3.
  - intros p. rewrite Hh. apply ci_heap.
  - destruct ci_pend as [Hp1 Hp2]. split; [done|]. cbn. intros k t -> Ht Hb Hk. apply (proj2 (Hg t Ht Hb)). f_equal. symmetry. exact Hk.
Qed.

Lemma stacks_apart_vms y fs hm L pd k p x g : inv y fs hm L pd -> y_procs y !! p = Some x -> g ∈ vm_frames (pr_vm x) -> ~ owns base fs L (pr_vm <$> y_procs y) (OStack k) g.
Proof.
  intros I Hx Hg. apply (owner_apart base _ _ _ _ _ _ (OVm p) _ g (ci_world _ _ _ _ _ _ _ _ _ I)); [done|]. exists (pr_vm x). by rewrite lookup_fmap, Hx.
Qed.

Lemma alloc_cr3 (w : world P) : w_cr3 (fst (stack_alloc w)) = w_cr3 w.
Proof. unfold stack_alloc. by destruct (thread_stack_alloc _ _) as [[s m] r]. Qed.
Lemma free_cr3 (w : world P) t anchor : w_cr3 (fst (stack_free t anchor w)) = w_cr3 w.
Proof. unfold stack_free. by destruct (thread_stack_free _ _ _ _) as [[[s m] t'] ok]. Qed.
Lemma frame_cr3 (w : world P) t entry sentinel : w_cr3 (fst (stack_frame t entry sentinel w)) = w_cr3 w.
Proof. unfold stack_frame. by destruct (thread_frame_init _ _ _ _ _) as [m r]. Qed.
Lemma heap_cr3 {A} (f : @kernel_heap P -> @kernel_heap P * A) (w : world P) : w_cr3 (fst (on_heap f w)) = w_cr3 w /\ w_stacks (fst (on_heap f w)) = w_stacks w.
Proof. unfold on_heap. by destruct (f _) as [h r]. Qed.

Lemma wp_stack_alloc y fs hm L pd c (Q : option thread_stack -> S -> Prop) : inv y fs hm L pd -> pd_slot pd = None ->
  (forall w', let y' := with_world w' y in inv y' fs hm L pd -> rest c y y' -> Q None y') ->
  (forall w' k gs, let y' := with_world w' y in inv y' fs hm (<[k := gs]> L) (MkPending (pd_thread pd) (Some k) (pd_process pd)) -> rest c y y' ->
     0 <= k < 64 -> Q (Some (descriptor k (generation y' k))) y') ->
  wp (machine stack_alloc) Q y.
Proof.
  intros I Hpd HN HS. pose proof (ci_world _ _ _ _ _ _ _ _ _ I) as W. apply wp_machine. pose proof (world_stack_alloc base (y_world y) nx fs hm L _ W) as Ha. pose proof (alloc_cr3 (y_world y)) as E3.
  destruct (stack_alloc (y_world y)) as [w' [t|]]; cbn [fst] in E3.
  - destruct Ha as (k & gs & Hk & Hn & -> & Eg & W' & E). split; [by apply (wi_panic base _ _ _ _ _ _ W')|].
    assert (forall t, t ∈ tasks y -> t <> ly_bootstrap ly -> k <> slot_of y t /\ 0 <= slot_of y t) as Hs.
    { intros t Ht Hb. destruct (to_stack _ _ _ _ (ci_threads _ _ _ _ _ _ _ _ _ I t Ht) Hb) as (? & [? ?] & _). split; [congruence|lia]. }
    destruct (inv_world y w' fs hm L pd fs hm (<[k := gs]> L) (Some k) (fun _ => False) (stack_range k) c I W' E) as [I' R']; [by intros ? ? ? ? ? []|done| | |done|].
    + intros t Ht Hb. destruct (Hs t Ht Hb). rewrite Eg. split; [|congruence]. unfold arr_get, arr_set. rewrite list_lookup_total_insert_ne by lia. done.
    + intros k'. destruct (decide (k' = k)) as [-> |Hne]; [rewrite lookup_insert_eq; split; [by right|done]|]. rewrite lookup_insert_ne by done. rewrite (ci_stacks _ _ _ _ _ _ _ _ _ I), Hpd. split; (intros [|]; [by left|congruence]).
    + assert (arr_get (sk_generations (w_stacks (y_world y))) k + 1 = generation (with_world w' y) k) as ->; [|by apply (HS w' k gs)]. unfold generation. cbn. rewrite Eg. unfold arr_get, arr_set. rewrite list_lookup_total_insert_eq; [done|].
      pose proof (si_length _ _ _ (wi_stacks _ _ _ _ _ _ _ W)). lia.
  - destruct Ha as (W' & E & Es). split; [by apply (wi_panic base _ _ _ _ _ _ W')|]. destruct pd as [a b d]. cbn in Hpd. subst b.
    destruct (inv_world y w' fs hm L (MkPending a None d) fs hm L None (fun _ => False) (fun _ => False) c I W' E) as [I' R']; [by intros ? ? ? ? ? []|done| |apply I|done|by apply HN].
    intros t Ht Hb. by rewrite Es.
Qed.

(** A descriptor of the slot that is pending is genuine, and no running thread uses it. *)
Lemma pending_descriptor y fs hm L pd k : inv y fs hm L pd -> pd_slot pd = Some k -> 0 <= k < 64 /\ is_Some (L !! k) /\ descriptor_valid (w_stacks (y_world y)) (descriptor k (generation y k)) = true.
Proof.
  intros I Hk. pose proof (wi_stacks _ _ _ _ _ _ _ (ci_world _ _ _ _ _ _ _ _ _ I)) as SI. assert (is_Some (L !! k)) as [gs Hgs] by (apply (ci_stacks _ _ _ _ _ _ _ _ _ I); by right).
  destruct (si_stack _ _ _ SI k gs Hgs) as (Hr & Hg & _). split_and!; [lia|lia|by exists gs|]. apply (descriptor_exact (w_stacks (y_world y))); cbn [ts_slot descriptor]; [lia|apply SI|]. split_and!; [lia|apply (si_slots _ _ _ SI); [lia|by exists gs]|lia|done].
Qed.

Lemma anchor_apart y fs hm L pd k anchor : inv y fs hm L pd -> pd_slot pd = Some k -> on_stack ly y (current y) anchor -> runs_on (descriptor k (generation y k)) anchor = false.
Proof using Hly.
  intros I Hk Ha. apply not_true_iff_false. unfold runs_on. cbn [descriptor ts_base ts_top]. intros [H1 H2]%andb_true_iff. apply Z.leb_le in H1. apply Z.ltb_lt in H2.
  assert (stack_range k anchor) as Hr by (unfold stack_range; lia). pose proof (ci_threads _ _ _ _ _ _ _ _ _ I _ (inv_current _ _ _ _ _ I)) as T. destruct (pending_descriptor y fs hm L pd k I Hk) as (Hk' & _).
  destruct (decide (current y = ly_bootstrap ly)) as [E|Hb].
  - rewrite E in Ha. apply boot_outside in Ha. by apply (lo_apart _ Hly k anchor).
  - apply (proj2 (ci_pend _ _ _ _ _ _ _ _ _ I) k (current y) Hk); [by apply (inv_current _ _ _ _ _ I)|done|]. apply (slot_of_address _ _ anchor); [by eapply stack_inside|done].
Qed.

Lemma wp_stack_free y fs hm L pd c k anchor (Q : thread_stack * bool -> S -> Prop) : inv y fs hm L pd -> pd_slot pd = Some k -> on_stack ly y (current y) anchor ->
  (forall w', let y' := with_world w' y in inv y' fs hm (delete k L) (MkPending (pd_thread pd) None (pd_process pd)) -> rest c y y' -> Q (thread_stack_zero, true) y') ->
  wp (machine (stack_free (descriptor k (generation y k)) anchor)) Q y.
Proof using Hly.
  intros I Hk Ha HQ. pose proof (ci_world _ _ _ _ _ _ _ _ _ I) as W. apply wp_machine. destruct (pending_descriptor y fs hm L pd k I Hk) as (Hr & Hl & Hv). pose proof (anchor_apart y fs hm L pd k anchor I Hk Ha) as Hrun.
  pose proof (world_stack_free base (y_world y) nx fs hm L _ (descriptor k (generation y k)) anchor W ltac:(cbn; lia) Hv Hrun) as Hf. pose proof (free_cr3 (y_world y) (descriptor k (generation y k)) anchor) as E3.
  destruct (stack_free _ anchor (y_world y)) as [w' r]. cbn [fst] in E3. destruct Hf as (-> & Eg & W' & E). cbn [ts_slot descriptor] in W', E. split; [by apply (wi_panic base _ _ _ _ _ _ W')|].
  destruct (inv_world y w' fs hm L pd fs hm (delete k L) None _ _ c I W' E) as [I' R']; [|done| | |done|by apply (HQ w')].
  - intros p x g Hx Hg. by apply (stacks_apart_vms y fs hm L pd k p x g I).
  - intros t Ht Hb. by rewrite Eg.
  - intros k'. pose proof (proj2 (ci_pend _ _ _ _ _ _ _ _ _ I) k) as Hp. destruct (decide (k' = k)) as [-> |Hne].
    + rewrite lookup_delete_eq. split; [by intros []|]. intros [(t & Ht & Hb & Hs)|]; [|done]. by destruct (Hp t Hk Ht Hb).
    + rewrite lookup_delete_ne by done. rewrite (ci_stacks _ _ _ _ _ _ _ _ _ I), Hk. split; (intros [|]; [by left|congruence]).
Qed.

Lemma wp_stack_frame y fs hm L pd c k entry sentinel (Q : option Z -> S -> Prop) : inv y fs hm L pd -> pd_slot pd = Some k ->
  memory_is_canonical entry = true -> entry <> 0 -> memory_is_canonical sentinel = true -> sentinel <> 0 ->
  (forall w' f flags, let y' := with_world w' y in inv y' fs hm L pd -> rest c y y' -> w_stacks w' = w_stacks (y_world y) -> vmm_query_page (w_kernel w') (guard_at k + 69632 - 4096) = Some (MkMapping true f flags 4096) ->
     (forall i, w_mem w' f i = first_words (w_mem (y_world y)) f (guard_at k + 69632) entry sentinel f i) -> Q (Some (guard_at k + 69632 - 192)) y') ->
  wp (machine (stack_frame (descriptor k (generation y k)) entry sentinel)) Q y.
Proof.
  intros I Hk H1 H2 H3 H4 HQ. pose proof (ci_world _ _ _ _ _ _ _ _ _ I) as W. apply wp_machine. destruct (pending_descriptor y fs hm L pd k I Hk) as (Hr & Hl & Hv).
  pose proof (world_stack_frame base (y_world y) nx fs hm L _ (descriptor k (generation y k)) entry sentinel W ltac:(cbn; lia) Hv H1 H2 H3 H4) as Hf. pose proof (frame_cr3 (y_world y) (descriptor k (generation y k)) entry sentinel) as E3.
  destruct (stack_frame _ entry sentinel (y_world y)) as [w' r]. cbn [fst] in E3. destruct Hf as (-> & Es & W' & E & f & flags & Hq & Hm). cbn [ts_slot ts_top descriptor] in *. split; [by apply (wi_panic base _ _ _ _ _ _ W')|].
  destruct pd as [a b d]. cbn in Hk. subst b. destruct (inv_world y w' fs hm L (MkPending a (Some k) d) fs hm L (Some k) _ _ c I W' E) as [I' R']; [|done| |apply I|done|by apply (HQ w' f flags)].
  - intros p x g Hx Hg. by apply (stacks_apart_vms y fs hm L _ k p x g I).
  - intros t Ht Hb. rewrite Es. split; [done|]. intros E'. injection E' as E'. by apply (proj2 (ci_pend _ _ _ _ _ _ _ _ _ I) k t eq_refl Ht Hb).
Qed.

(** ** Objects in the heap *)

Lemma in_heap (w : world P) fs hm L us p : world_inv base w nx fs hm L us -> is_Some (hm !! p) -> heap_range p /\ p <> NULL /\ u64_ok p.
Proof.
  intros W [l Hl]. pose proof (wi_heap _ _ _ _ _ _ _ W) as Ho. destruct (holds_layout _ _ p l (ho_holds _ _ _ _ Ho) Hl) as (_ & Hlen & Hlo & Hhi & _). rewrite (ho_base _ _ _ _ Ho), (ho_size _ _ _ _ Ho) in *.
  pose proof (bd_room _ _ _ (ho_backed _ _ _ _ Ho)) as Hr. unfold heap_range, u64_ok, NULL, UINT64_MAX, UTAMO_HEAP_BASE, UTAMO_HEAP_MAX_SIZE in *. lia.
Qed.

(** What a heap call does to the machine. *)
Definition heap_moved y w' fs' hm' L : Prop :=
  world_inv base w' nx fs' hm' L (pr_vm <$> y_procs y) /\ effect (y_world y) w' (fun _ => False) heap_range /\ w_cr3 w' = w_cr3 (y_world y) /\ w_stacks w' = w_stacks (y_world y).

Lemma wp_calloc y fs hm L pd size (Q : Z -> S -> Prop) : inv y fs hm L pd -> u64_ok size ->
  (forall w' fs', heap_moved y w' fs' hm L -> Q NULL (with_world w' y)) ->
  (forall w' fs' p l, heap_moved y w' fs' (<[p := l]> hm) L -> hm !! p = None -> Q p (with_world w' y)) -> wp (machine (on_heap (fun h => kcalloc h 1 size))) Q y.
Proof.
  intros I Hs HN HS. pose proof (ci_world _ _ _ _ _ _ _ _ _ I) as W. apply wp_machine. pose proof (world_heap base (y_world y) nx fs hm L _ (HCalloc 1 size) W ltac:(by split)) as Hh. cbn [kheap_apply] in Hh.
  destruct (heap_cr3 (fun h => kcalloc h 1 size) (y_world y)) as [E3 Es]. destruct (on_heap _ (y_world y)) as [w' p]. cbn [fst] in *. destruct Hh as (fs' & hm' & W' & Hst & E). split; [by apply (wi_panic base _ _ _ _ _ _ W')|].
  destruct Hst as [[-> ->]|(_ & (_ & _ & Hn & _) & ->)]; [by apply (HN w' fs')|]. by eapply (HS w' fs').
Qed.

Lemma wp_free y fs hm L pd p (Q : bool -> S -> Prop) : inv y fs hm L pd -> is_Some (hm !! p) ->
  (forall w' fs', heap_moved y w' fs' (delete p hm) L -> Q true (with_world w' y)) -> wp (machine (on_heap (fun h => kfree h p))) Q y.
Proof.
  intros I Hp HQ. pose proof (ci_world _ _ _ _ _ _ _ _ _ I) as W. apply wp_machine. destruct (in_heap _ _ _ _ _ p W Hp) as (_ & _ & Hu). pose proof (world_heap base (y_world y) nx fs hm L _ (HFree p) W Hu) as Hh. cbn [kheap_apply] in Hh.
  destruct (heap_cr3 (fun h => kfree h p) (y_world y)) as [E3 Es]. revert Hh E3 Es. unfold on_heap. destruct (kfree (heap_view (y_world y)) p) as [h ok]. cbn [fst]. intros (fs' & hm' & W' & Hst & E) E3 Es.
  split; [by apply (wi_panic base _ _ _ _ _ _ W')|]. destruct Hst as [-> Hok]. rewrite (bool_decide_eq_true_2 _ Hp), orb_true_r in Hok. destruct ok; [|done]. by apply (HQ _ fs').
Qed.

Lemma fresh_object y fs hm L pd w' fs' p l : inv y fs hm L pd -> heap_moved y w' fs' (<[p := l]> hm) L -> hm !! p = None ->
  p <> NULL /\ p <> ly_idle ly /\ p <> ly_bootstrap ly /\ y_threads y !! p = None /\ y_procs y !! p = None /\ p ∉ K /\ p ∉ tasks y.
Proof using Hly.
  intros I (W' & _) Hn. destruct (in_heap _ _ _ _ _ p W') as (Hr & H0' & _); [by rewrite lookup_insert_eq|]. destruct (lo_static _ Hly) as (_ & Hi & Hb).
  assert (p <> ly_idle ly /\ p <> ly_bootstrap ly) as [H1 H2] by (split; intros ->; done).
  assert (forall A, (is_Some (hm !! p) <-> A) -> ~ A) as Hx by (intros A Ha Hy; apply Ha in Hy; rewrite Hn in Hy; by destruct Hy). pose proof (Hx _ (ci_heap _ _ _ _ _ _ _ _ _ I p)) as Ho.
  assert (y_threads y !! p = None) as Ht by (apply eq_None_not_Some; tauto). split_and!; [done|done|done|done|apply eq_None_not_Some; tauto|tauto|]. intros Hin. assert (is_Some (y_threads y !! p)) as [? ?] by (apply I; by left). congruence.
Qed.

(** Threads that are not registered come and go. *)
Lemma inv_objects y fs hm L pd th mem w' fs' hm' t' c : inv y fs hm L pd -> heap_moved y w' fs' hm' L ->
  (forall t, t ∈ tasks y -> th !!! t = thread y t /\ mem !!! t = node (y_sched y) t) -> (forall t, task_typed (mem !!! t)) ->
  (forall t, is_Some (th !! t) <-> t ∈ tasks y \/ t' = Some t) -> (forall t, t' = Some t -> t ∉ tasks y /\ t ∉ K /\ y_procs y !! t = None) ->
  (forall p, is_Some (hm' !! p) <-> p ∈ K \/ (p <> ly_idle ly /\ p <> ly_bootstrap ly /\ is_Some (th !! p)) \/ is_Some (y_procs y !! p)) ->
  let y' := with_threads th (with_sched (MkSched (s_core (y_sched y)) mem) (with_world w' y)) in inv y' fs' hm' L (MkPending t' (pd_slot pd) (pd_process pd)) /\ rest c y y'.
Proof.
  intros I (W' & E & E3 & Es) Hth Hty Hdom Hfresh Hh y'. assert (tasks y' = tasks y) as Er by done.
  assert (forall t, t ∈ tasks y -> thread y' t = thread y t) as Ht by (intros t Hin; by apply Hth). assert (forall t, t ∈ tasks y -> node (y_sched y') t = node (y_sched y) t) as Hn by (intros t Hin; by apply Hth).
  assert (forall t, t ∈ tasks y -> dead y' t <-> dead y t) as Hd by (intros t Hin; unfold dead, zombie; by rewrite Hn).
  assert (forall t, t ∈ tasks y -> slot_of y' t = slot_of y t /\ process_at y' t = process_at y t) as Hsp by (intros t Hin; unfold slot_of, process_at; by rewrite Ht).
  pose proof (inv_current _ _ _ _ _ I) as Hcur. split; cycle 1.
  { constructor; [intros t Hin Hne Hz; split_and!; [done|by rewrite Hd|by apply Ht|done]|]. apply (rs_process _ _ _ (world_rest y w' _ _ c E ltac:(by intros ? ? ? ? ? []))). }
  destruct I. constructor; try assumption.
  - apply ok_outside; [|done|done]. intros p Hp. by apply Hth.
  - destruct ci_boot. split; [done|]. by rewrite Hd.
  - apply (kernel_fixed (y_world y)); [apply E|done].
  - intros t Hin. destruct (ci_threads t Hin). destruct (Hsp t Hin) as [E1 E2]. constructor; rewrite ?E1, ?E2, ?(Ht t Hin); try done. unfold generation. by replace (w_stacks (y_world y')) with (w_stacks (y_world y)).
  - intros a b Ha Hb H1 H2. rewrite (proj1 (Hsp a Ha)), (proj1 (Hsp b Hb)). by apply ci_slots.
  - intros t Hin Hp. destruct (Hsp t Hin) as [E1 E2]. rewrite E2 in Hp. destruct (ci_owners t Hin Hp). constructor; rewrite ?E2, ?(Hd t Hin); done.
  - intros a b Ha Hb. rewrite (proj2 (Hsp a Ha)), (proj2 (Hsp b Hb)). by apply ci_single.
  - intros t Hin Hne Hz. rewrite Hd in Hz by done. rewrite <- (ci_frames t Hin Hne Hz). unfold valid_frame, frame_owned, stack_bottom, stack_top. by rewrite (Ht t Hin).
  - etrans; [exact E3|]. rewrite ci_cr3. unfold space_root. change (current y') with (current y). by rewrite (proj2 (Hsp _ Hcur)).
  - intros k. rewrite ci_stacks. split; (intros [(t & Hin & ? & Hk)|]; [left; exists t; by rewrite (proj1 (Hsp t Hin)) in *|by right]).
  - intros p H1 H2. destruct (ci_run p H1 H2) as [|(t & Hin & Ep)]; [by left|right; exists t]. by rewrite (proj2 (Hsp t Hin)).
  - intros p Hp. destruct (ci_apart p Hp) as [Hx Hk]. split; [|done]. apply eq_None_not_Some. change (y_threads y') with th. rewrite Hdom. intros [Hin|Hin].
    + assert (is_Some (y_threads y !! p)) as [? ?] by (apply ci_objects; by left). congruence.
    + destruct (Hfresh p Hin) as (_ & _ & Hx'). change (y_procs y') with (y_procs y) in Hp. rewrite Hx' in Hp. by destruct Hp.
  - intros t Hx. change (y_threads y') with th in Hx. apply Hdom in Hx as [Hin|Hin]; [apply ci_others, ci_objects; by left|by apply (Hfresh t)].
  - destruct ci_pend as [Hp1 Hp2]. split; [intros t Hx; by apply (Hfresh t)|]. cbn. intros k t Hk Hin Hb. rewrite (proj1 (Hsp t Hin)). by apply (Hp2 k t).
Qed.

Definition with_thread_pd (t : option Z) (pd : pending) : pending := MkPending t (pd_slot pd) (pd_process pd).
Definition with_slot_pd (k : option Z) (pd : pending) : pending := MkPending (pd_thread pd) k (pd_process pd).
Definition with_process_pd (p : option Z) (pd : pending) : pending := MkPending (pd_thread pd) (pd_slot pd) p.

Lemma heap_unchanged y fs hm L pd w' fs' c : inv y fs hm L pd -> heap_moved y w' fs' hm L -> inv (with_world w' y) fs' hm L pd /\ rest c y (with_world w' y).
Proof.
  intros I (W' & E & E3 & Es). destruct pd as [a b d]. apply (inv_world y w' fs hm L (MkPending a b d) fs' hm L b (fun _ => False) heap_range c I W' E); [by intros ? ? ? ? ? []|done| |apply I|done].
  intros t Ht Hb. rewrite Es. split; [done|]. intros ->. by apply (proj2 (ci_pend _ _ _ _ _ _ _ _ _ I) _ t eq_refl Ht Hb).
Qed.

Lemma nodes_typed y fs hm L pd : inv y fs hm L pd -> forall t, task_typed (node (y_sched y) t).
Proof. intros I. apply (ty_nodes _ (proj1 (ci_sched _ _ _ _ _ _ _ _ _ I))). Qed.

Lemma task_zero_typed : task_typed task_zero.
Proof. by constructor. Qed.

(** The state with a new thread object. *)
Definition born (w' : world P) (t : Z) y : S :=
  with_threads (<[t := thread_zero]> (y_threads y)) (with_sched (MkSched (s_core (y_sched y)) (<[t := task_zero]> (s_mem (y_sched y)))) (with_world w' y)).

Lemma wp_new_thread y fs hm L pd c (Q : Z -> S -> Prop) : inv y fs hm L pd -> pd_thread pd = None ->
  (forall w' fs', inv (with_world w' y) fs' hm L pd -> rest c y (with_world w' y) -> Q NULL (with_world w' y)) ->
  (forall w' fs' hm' t, inv (born w' t y) fs' hm' L (with_thread_pd (Some t) pd) -> rest c y (born w' t y) -> t <> NULL -> t ∉ tasks y -> w_stacks w' = w_stacks (y_world y) -> Q t (born w' t y)) -> wp new_thread Q y.
Proof using Hly.
  intros I Hpd HN HS. unfold new_thread. step. apply (wp_calloc y fs hm L pd THREAD_BYTES); [done|by vm_compute| |].
  - intros w' fs' M. destruct (heap_unchanged y fs hm L pd w' fs' c I M) as [I' R']. cbn. by apply (HN w' fs').
  - intros w' fs' t l M Hn. destruct (fresh_object y fs hm L pd w' fs' t l I M Hn) as (H0' & Hi & Hb & Ht & Hp & HK & Hin). rewrite (proj2 (Z.eqb_neq _ _) H0'). cbn. fold (born w' t y).
    pose proof M as (_ & _ & _ & Es).
    destruct (inv_objects y fs hm L pd (<[t := thread_zero]> (y_threads y)) (<[t := task_zero]> (s_mem (y_sched y))) w' fs' (<[t := l]> hm) (Some t) c I M) as [I' R'].
    + intros q Hq. assert (t <> q) by congruence. by rewrite !lookup_total_insert_ne.
    + intros q. destruct (decide (q = t)) as [-> |]; [rewrite lookup_total_insert_eq; apply task_zero_typed|rewrite lookup_total_insert_ne by done; by apply (nodes_typed y fs hm L pd)].
    + intros q. destruct (decide (q = t)) as [-> |]; [rewrite lookup_insert_eq; split; [by right|done]|]. rewrite lookup_insert_ne by done. rewrite (ci_objects _ _ _ _ _ _ _ _ _ I), Hpd. split; (intros [|]; [by left|congruence]).
    + by intros q [= <-].
    + intros q. destruct (decide (q = t)) as [-> |]; [rewrite !lookup_insert_eq; split; [intros _; right; left; by split_and!|done]|]. rewrite !lookup_insert_ne by done. apply I.
    + by apply (HS w' fs' (<[t := l]> hm) t).
Qed.

Definition buried (w' : world P) (t : Z) y : S :=
  with_threads (delete t (y_threads y)) (with_sched (MkSched (s_core (y_sched y)) (delete t (s_mem (y_sched y)))) (with_world w' y)).

Lemma pending_static y fs hm L pd t : inv y fs hm L pd -> pd_thread pd = Some t -> t ∉ tasks y /\ t <> ly_idle ly /\ t <> ly_bootstrap ly /\ is_Some (hm !! t).
Proof.
  intros I Ht. pose proof (proj1 (ci_pend _ _ _ _ _ _ _ _ _ I) t Ht) as Hn. assert (t <> ly_idle ly) as Hi.
  { intros ->. apply Hn. rewrite <- (ci_idle _ _ _ _ _ _ _ _ _ I). by apply (ok_current self), I. }
  assert (t <> ly_bootstrap ly) as Hb by (intros ->; apply Hn, I). split_and!; [done|done|done|]. apply I. right. left. split_and!; [done|done|]. apply I. by right.
Qed.

Lemma wp_free_thread y fs hm L pd t c (Q : bool -> S -> Prop) : inv y fs hm L pd -> pd_thread pd = Some t ->
  (forall w' fs', inv (buried w' t y) fs' (delete t hm) L (with_thread_pd None pd) -> rest c y (buried w' t y) -> w_stacks w' = w_stacks (y_world y) -> Q true (buried w' t y)) -> wp (free_thread t) Q y.
Proof.
  intros I Ht HQ. destruct (pending_static y fs hm L pd t I Ht) as (Hin & Hi & Hb & Hh). unfold free_thread. step. apply (wp_free y fs hm L pd t); [done|done|]. intros w' fs' M. cbn. fold (buried w' t y). pose proof M as (_ & _ & _ & Es).
  assert (y_procs y !! t = None) as Hp. { apply eq_None_not_Some. intros Hp. destruct (ci_apart _ _ _ _ _ _ _ _ _ I t Hp) as [Hx _]. assert (is_Some (y_threads y !! t)) as [? ?] by (apply I; by right). congruence. }
  assert (t ∉ K) as HK by (apply (ci_others _ _ _ _ _ _ _ _ _ I), I; by right).
  destruct (inv_objects y fs hm L pd (delete t (y_threads y)) (delete t (s_mem (y_sched y))) w' fs' (delete t hm) None c I M) as [I' R'].
  - intros q Hq. assert (t <> q) by congruence. by rewrite !lookup_total_delete_ne.
  - intros q. destruct (decide (q = t)) as [-> |]; [rewrite lookup_total_delete_eq; apply task_zero_typed|rewrite lookup_total_delete_ne by done; by apply (nodes_typed y fs hm L pd)].
  - intros q. destruct (decide (q = t)) as [-> |]; [rewrite lookup_delete_eq; split; [by intros []|by intros [|]]|]. rewrite lookup_delete_ne by done. rewrite (ci_objects _ _ _ _ _ _ _ _ _ I), Ht. split; (intros [|]; [by left|congruence]).
  - done.
  - intros q. destruct (decide (q = t)) as [-> |]; [rewrite !lookup_delete_eq, Hp; split; [by intros []|]; intros [|[(_ & _ & [? ?])|[? ?]]]; done|]. rewrite !lookup_delete_ne by done. apply I.
  - by apply (HQ w' fs').
Qed.

(** Processes without a thread come and go. *)
Lemma inv_processes y fs hm L pd pm w' fs' hm' p' c : inv y fs hm L pd -> world_inv base w' nx fs' hm' L (pr_vm <$> pm) ->
  effect (y_world y) w' (fun _ => False) heap_range -> w_cr3 w' = w_cr3 (y_world y) -> w_stacks w' = w_stacks (y_world y) ->
  (forall t, t ∈ tasks y -> process_at y t <> NULL -> pm !! process_at y t = y_procs y !! process_at y t) ->
  (forall q, is_Some (pm !! q) <-> (q <> NULL /\ q ∈ pt_registry (y_table y)) \/ p' = Some q) ->
  (forall t, t ∈ tasks y -> process_at y t <> NULL -> pd_process pd = Some (process_at y t) -> p' = Some (process_at y t)) ->
  (forall q, q <> NULL -> q ∈ pt_registry (y_table y) -> pd_process pd = Some q -> p' = Some q) ->
  (forall q, is_Some (hm' !! q) <-> q ∈ K \/ (q <> ly_idle ly /\ q <> ly_bootstrap ly /\ is_Some (y_threads y !! q)) \/ is_Some (pm !! q)) ->
  (forall q, is_Some (pm !! q) -> y_threads y !! q = None /\ q ∉ K) ->
  let y' := with_procs pm (with_world w' y) in inv y' fs' hm' L (with_process_pd p' pd) /\ rest c y y'.
Proof.
  intros I W' E E3 Es Hpm Hdom Hpend Hreg Hh Hap y'.
  assert (forall t, t ∈ tasks y -> process_at y t <> NULL -> proc y' (process_at y t) = proc y (process_at y t)) as Hpr by (intros t Hin Hp; unfold proc; cbn; rewrite !lookup_total_alt; by rewrite (Hpm t)).
  split; cycle 1.
  { constructor; [done|]. intros t x Hin Hne Hz Hp Hx. split; [cbn; by rewrite (Hpm t)|]. by apply (rs_process _ _ _ (world_rest y w' _ _ c E ltac:(by intros ? ? ? ? ? [])) t x). }
  destruct I. constructor; try assumption.
  - apply (kernel_fixed (y_world y)); [apply E|done].
  - intros t Hin. destruct (ci_threads t Hin). constructor; try done. unfold generation. by replace (w_stacks (y_world y')) with (w_stacks (y_world y)).
  - intros t Hin Hp. change (process_at y' t) with (process_at y t) in Hp. destruct (ci_owners t Hin Hp) as [(x & Hx & Hi) [Hr|Hr] ? ? ?]; (constructor; change (process_at y' t) with (process_at y t); rewrite ?Hpr by done; try done);
      first [exists x; split; [cbn; by rewrite (Hpm t)|done]|by left|right; by apply (Hpend t)].
  - etrans; [exact E3|]. rewrite ci_cr3. unfold space_root. change (process_at y' (current y')) with (process_at y (current y)). destruct (Z.eqb_spec (process_at y (current y)) NULL); [done|]. rewrite Hpr; [done| |done]. by apply (ok_current self).
  - intros q Hq Hin. destruct (ci_run q Hq Hin) as [Hx|]; [left; by apply (Hreg q)|by right].
Qed.

Definition adopted (w' : world P) (p : Z) y : S := with_procs (<[p := process_zero]> (y_procs y)) (with_world w' y).

Lemma wp_new_process y fs hm L pd c (Q : Z -> S -> Prop) : inv y fs hm L pd -> pd_process pd = None ->
  (forall w' fs', inv (with_world w' y) fs' hm L pd -> rest c y (with_world w' y) -> Q NULL (with_world w' y)) ->
  (forall w' fs' hm' p, inv (adopted w' p y) fs' hm' L (with_process_pd (Some p) pd) -> rest c y (adopted w' p y) -> p <> NULL -> p ∉ pt_registry (y_table y) -> y_procs y !! p = None -> Q p (adopted w' p y)) -> wp new_process Q y.
Proof using Hly.
  intros I Hpd HN HS. unfold new_process. step. apply (wp_calloc y fs hm L pd PROCESS_BYTES); [done|by vm_compute| |].
  - intros w' fs' M. destruct (heap_unchanged y fs hm L pd w' fs' c I M) as [I' R']. cbn. by apply (HN w' fs').
  - intros w' fs' p l M Hn. destruct (fresh_object y fs hm L pd w' fs' p l I M Hn) as (H0' & Hi & Hb & Ht & Hp & HK & Hin). rewrite (proj2 (Z.eqb_neq _ _) H0'). cbn. fold (adopted w' p y). destruct M as (W' & E & E3 & Es).
    assert (p ∉ pt_registry (y_table y)) as Hnr. { intros Hr. assert (is_Some (y_procs y !! p)) as [? ?] by (apply I; by left). congruence. }
    assert (forall t, t ∈ tasks y -> process_at y t <> NULL -> p <> process_at y t) as Hno. { intros t Hit Hpt ->. destruct (oo_live _ _ _ (ci_owners _ _ _ _ _ _ _ _ _ I t Hit Hpt)) as (x & Hx & _). congruence. }
    destruct (inv_processes y fs hm L pd (<[p := process_zero]> (y_procs y)) w' fs' (<[p := l]> hm) (Some p) c I) as [I' R'];
      [|done|done|done| | | | | | |by apply (HS w' fs' (<[p := l]> hm) p)].
    + rewrite fmap_insert. apply world_new; [done|]. by rewrite lookup_fmap, Hp.
    + intros t Hit Hpt. by rewrite lookup_insert_ne by (by apply Hno).
    + intros q. destruct (decide (q = p)) as [-> |]; [rewrite lookup_insert_eq; split; [by right|done]|]. rewrite lookup_insert_ne by done. rewrite (ci_procs _ _ _ _ _ _ _ _ _ I), Hpd. split; (intros [|]; [by left|congruence]).
    + intros t _ _. by rewrite Hpd.
    + intros q _ _. by rewrite Hpd.
    + intros q. destruct (decide (q = p)) as [-> |]; [rewrite !lookup_insert_eq; split; [intros _; by right; right|done]|]. rewrite !lookup_insert_ne by done. apply I.
    + intros q. destruct (decide (q = p)) as [-> |]; [done|]. rewrite lookup_insert_ne by done. apply I.
Qed.

Definition orphaned (w' : world P) (p : Z) y : S := with_procs (delete p (y_procs y)) (with_world w' y).

Lemma wp_free_process y fs hm L pd p x c (Q : bool -> S -> Prop) : inv y fs hm L pd -> pd_process pd = Some p -> y_procs y !! p = Some x -> uv_initialized (pr_vm x) = false ->
  p ∉ pt_registry (y_table y) ->
  (forall w' fs', inv (orphaned w' p y) fs' (delete p hm) L (with_process_pd None pd) -> rest c y (orphaned w' p y) -> w_stacks w' = w_stacks (y_world y) -> Q true (orphaned w' p y)) -> wp (free_process p) Q y.
Proof.
  intros I Hpd Hx Hu Hnr HQ. assert (is_Some (hm !! p)) as Hh by (apply I; by right; right; exists x). unfold free_process. step. apply (wp_free y fs hm L pd p); [done|done|]. intros w' fs' (W' & E & E3 & Es). cbn. fold (orphaned w' p y).
  destruct (ci_apart _ _ _ _ _ _ _ _ _ I p ltac:(by exists x)) as [Ht HK].
  assert (forall t, t ∈ tasks y -> process_at y t <> NULL -> p <> process_at y t) as Hno. { intros t Hit Hpt ->. destruct (oo_live _ _ _ (ci_owners _ _ _ _ _ _ _ _ _ I t Hit Hpt)) as (z & Hz & Hi). congruence. }
  destruct (inv_processes y fs hm L pd (delete p (y_procs y)) w' fs' (delete p hm) None c I) as [I' R']; [|done|done|done| | | | | | |by apply (HQ w' fs')].
  - rewrite fmap_delete. apply (world_delete base w' nx fs' _ L _ p (pr_vm x)); [done|by rewrite lookup_fmap, Hx|done].
  - intros t Hit Hpt. by rewrite lookup_delete_ne by (by apply Hno).
  - intros q. destruct (decide (q = p)) as [-> |]; [rewrite lookup_delete_eq; split; [by intros []|by intros [[_ ?]|]]|]. rewrite lookup_delete_ne by done. rewrite (ci_procs _ _ _ _ _ _ _ _ _ I), Hpd. split; (intros [|]; [by left|congruence]).
  - intros t Hit Hpt E'. destruct (Hno t Hit Hpt). congruence.
  - intros q _ Hq E'. destruct Hnr. congruence.
  - intros q. destruct (decide (q = p)) as [-> |]; [rewrite !lookup_delete_eq, Ht; split; [by intros []|]; intros [|[(_ & _ & [? ?])|[? ?]]]; done|]. rewrite !lookup_delete_ne by done. apply I.
  - intros q [? Hq]%lookup_delete_is_Some. by apply I.
Qed.

(** ** Address spaces *)

(** The process of [c], or one that has no thread. *)
Lemma inv_vm y fs hm L pd p x m' c : inv y fs hm L pd -> y_procs y !! p = Some x -> vm_step (user_view (y_world y) (pr_vm x)) m' ->
  (uv_initialized (obj m') = true -> space_mask (kernel_vmm_of y) (obj m')) ->
  (forall t, t ∈ tasks y -> t <> c -> process_at y t <> p) ->
  (forall t, t ∈ tasks y -> process_at y t = p -> uv_initialized (obj m') = true /\ uv_space (obj m') = uv_space (pr_vm x)) ->
  let y' := with_procs (<[p := set_vm (obj m') x]> (y_procs y)) (with_world (from_user m' (y_world y)) y) in inv y' fs hm L pd /\ rest c y y'.
Proof.
  intros I Hx St Hm Hother Hlive y'. set (w := y_world y) in *. assert ((pr_vm <$> y_procs y) !! p = Some (pr_vm x)) as Hu by (by rewrite lookup_fmap, Hx).
  destruct (world_user base w nx fs hm L _ p (pr_vm x) m' (ci_world _ _ _ _ _ _ _ _ _ I) Hu St Hm) as [W' E]. pose proof (proc_lookup y p x Hx) as Ex.
  assert (forall q, proc y' q = if decide (q = p) then set_vm (obj m') x else proc y q) as Hq by (intros q; unfold proc; cbn; case_decide; [subst; by rewrite lookup_total_insert_eq|by rewrite lookup_total_insert_ne]).
  assert (forall q, pr_state (proc y' q) = pr_state (proc y q)) as Hst by (intros q; rewrite Hq; case_decide; subst; done).
  assert (forall q, is_Some (y_procs y' !! q) <-> is_Some (y_procs y !! q)) as Hdom.
  { intros q. cbn. destruct (decide (q = p)) as [-> |]; [rewrite lookup_insert_eq, Hx; done|by rewrite lookup_insert_ne]. }
  split; cycle 1.
  { constructor; [done|]. intros t z Hin Hne Hz Hp Hzx. pose proof (Hother t Hin Hne) as Hnp. split; [cbn; by rewrite lookup_insert_ne|]. intros F HF. apply (user_shows w _ _ _ _ _ E HF). intros g Hg Hx'.
    apply (owner_apart base _ _ _ _ _ _ (OVm (process_at y t)) (OVm p) g (ci_world _ _ _ _ _ _ _ _ _ I)); [congruence| |by exists (pr_vm x)]. exists (pr_vm z). by rewrite lookup_fmap, Hzx. }
  destruct I. constructor; try assumption.
  - cbn. rewrite fmap_insert. exact W'.
  - intros t Hin. by destruct (ci_threads t Hin); constructor.
  - intros t Hin Hp. change (process_at y' t) with (process_at y t) in Hp. destruct (ci_owners t Hin Hp) as [(z & Hz & Hi) ? ? ? ?]. constructor; change (process_at y' t) with (process_at y t); rewrite ?Hst; try done.
    destruct (decide (process_at y t = p)) as [Ep|Ep]; cbn; [|exists z; by rewrite lookup_insert_ne]. exists (set_vm (obj m') x). rewrite Ep, lookup_insert_eq. split; [done|]. by apply (Hlive t).
  - etrans; [exact ci_cr3|]. unfold space_root. change (process_at y' (current y')) with (process_at y (current y)). destruct (_ =? NULL); [done|]. rewrite Hq. case_decide as Ep; [|done].
    rewrite Ep, Ex. cbn. rewrite (proj2 (Hlive (current y) ltac:(by apply (ok_current self)) Ep)). done.
  - intros q. rewrite Hdom. apply ci_procs.
  - intros q. rewrite Hdom. apply ci_heap.
  - intros q. rewrite Hdom. apply ci_apart.
Qed.

Lemma view_state y fs hm L pd p x : inv y fs hm L pd -> y_procs y !! p = Some x -> vm_state (user_view (y_world y) (pr_vm x)).
Proof. intros I Hx. apply (wi_vms base _ _ _ _ _ _ (ci_world _ _ _ _ _ _ _ _ _ I) p). by rewrite lookup_fmap, Hx. Qed.

Lemma live_view y fs hm L pd p x : inv y fs hm L pd -> y_procs y !! p = Some x -> uv_initialized (pr_vm x) = true -> exists A, uvm_inv (user_view (y_world y) (pr_vm x)) A.
Proof. intros I Hx Hi. destruct (view_state y fs hm L pd p x I Hx) as [A Ha|Hf]; [by exists A|]. pose proof (uf_obj _ Hf) as E. cbn in E. by rewrite E in Hi. Qed.

Lemma fresh_view y fs hm L pd p x : inv y fs hm L pd -> y_procs y !! p = Some x -> uv_initialized (pr_vm x) = false -> uvm_fresh (user_view (y_world y) (pr_vm x)).
Proof. intros I Hx Hi. destruct (view_state y fs hm L pd p x I Hx) as [A Ha|Hf]; [|done]. pose proof (ui_init _ _ Ha) as E. cbn in E. congruence. Qed.

Lemma wp_on_vm {A} (f : vm (ustate P) -> vm (ustate P) * A) y fs hm L pd p x c (Q : A -> S -> Prop) : inv y fs hm L pd -> y_procs y !! p = Some x ->
  vm_step (user_view (y_world y) (pr_vm x)) (fst (f (user_view (y_world y) (pr_vm x)))) ->
  let m' := fst (f (user_view (y_world y) (pr_vm x))) in
  (uv_initialized (obj m') = true -> space_mask (kernel_vmm_of y) (obj m')) ->
  (forall t, t ∈ tasks y -> t <> c -> process_at y t <> p) ->
  (forall t, t ∈ tasks y -> process_at y t = p -> uv_initialized (obj m') = true /\ uv_space (obj m') = uv_space (pr_vm x)) ->
  (let y' := with_procs (<[p := set_vm (obj m') x]> (y_procs y)) (with_world (from_user m' (y_world y)) y) in
   inv y' fs hm L pd -> rest c y y' -> Q (snd (f (user_view (y_world y) (pr_vm x)))) y') -> wp (on_vm p f) Q y.
Proof.
  intros I Hx St m' Hm Hother Hlive HQ. destruct (inv_vm y fs hm L pd p x m' c I Hx St Hm Hother Hlive) as [I' R']. specialize (HQ I' R'). unfold on_vm. step. rewrite (proc_lookup y p x Hx). step. apply wp_machine.
  unfold on_user. unfold m' in *. destruct (f _) as [m r]. cbn [fst snd] in *. split; [by apply (wi_panic base _ _ _ _ _ _ (ci_world _ _ _ _ _ _ _ _ _ I'))|]. step. cbn. change (proc (with_world _ y) p) with (proc y p). by rewrite (proc_lookup y p x Hx).
Qed.

(** ** The registries *)

Lemma inv_registry y fs hm L pd t p' c : inv y fs hm L pd -> registry_ok t ->
  (forall q, ((q <> NULL /\ q ∈ pt_registry t) \/ p' = Some q) <-> ((q <> NULL /\ q ∈ pt_registry (y_table y)) \/ pd_process pd = Some q)) ->
  (forall q, q <> NULL -> q ∈ pt_registry t -> p' = Some q \/ exists a, a ∈ tasks y /\ process_at y a = q) ->
  inv (with_table t y) fs hm L (with_process_pd p' pd) /\ rest c y (with_table t y).
Proof.
  intros I Hr Hdom Hrun. split; [|by constructor]. destruct I. constructor; try assumption.
  - intros a Ha. by destruct (ci_threads a Ha); constructor.
  - intros a Ha Hp. destruct (ci_owners a Ha Hp). constructor; try done. destruct (proj2 (Hdom (process_at y a))) as [[_ Hx]|Hx]; [|by left|by right]. apply ci_procs. destruct oo_live as (x & Hx & _). by exists x.
  - intros q. rewrite ci_procs. symmetry. apply Hdom.
Qed.

Lemma inv_add y fs hm L pd t k s' c : inv y fs hm L pd -> pd_thread pd = Some t -> pd_slot pd = Some k ->
  th_stack (thread y t) = descriptor k (generation y k) -> th_dynamic (thread y t) = true -> valid_frame ly y t (th_frame (thread y t)) = true ->
  (process_at y t <> NULL -> pd_process pd = Some (process_at y t) /\ uv_initialized (pr_vm (proc y (process_at y t))) = true /\
     pr_state (proc y (process_at y t)) = UTAMO_PROCESS_READY /\ arch_user_ready y = true /\ forall a, a ∈ tasks y -> process_at y a <> process_at y t) ->
  sched_ok self s' -> reg s' ≡ₚ t :: tasks y -> sc_idle (s_core s') = sc_idle (s_core (y_sched y)) -> sc_current (s_core s') = current y -> sc_now (s_core s') = sc_now (s_core (y_sched y)) ->
  ~ zombie s' t -> (forall a, a ∈ tasks y -> st_state (node s' a) = st_state (node (y_sched y) a)) ->
  inv (with_sched s' y) fs hm L (MkPending None None (pd_process pd)) /\ rest c y (with_sched s' y).
Proof.
  intros I Ht Hk Hst Hdyn Hval Hproc Hok Hreg Hidle Hcur Hnow Hz Hstate. set (y' := with_sched s' y). destruct (pending_static y fs hm L pd t I Ht) as (Hnt & Hti & Htb & _). destruct (pending_descriptor y fs hm L pd k I Hk) as (Hkr & HLk & _).
  assert (forall a, a ∈ tasks y' <-> a = t \/ a ∈ tasks y) as Hin by (intros a; unfold tasks, y'; cbn; rewrite Hreg; apply elem_of_cons).
  assert (forall a, a ∈ tasks y -> dead y' a <-> dead y a) as Hd by (intros a Ha; unfold dead, zombie; cbn; by rewrite Hstate).
  assert (slot_of y t = k) as Hsl by (unfold slot_of; by rewrite Hst). assert (current y' = current y) as Ec by exact Hcur. pose proof (inv_current _ _ _ _ _ I) as Hc0.
  split; [|constructor; [intros a Ha Hne Hza; split_and!; [apply Hin; by right|by rewrite Hd|done|done]|done]].
  pose proof (fun a Ha Hb => proj2 (ci_pend _ _ _ _ _ _ _ _ _ I) k a Hk Ha Hb) as Hks. pose proof (ci_procs _ _ _ _ _ _ _ _ _ I) as Hprocs. destruct I. constructor; try assumption.
  - etrans; [exact Hidle|done].
  - destruct ci_boot. split; [apply Hin; by right|by rewrite Hd].
  - destruct ci_clock. split; [cbn; lia|done].
  - intros a [-> |Ha]%Hin; [|by destruct (ci_threads a Ha); constructor]. constructor; [intros _; change (slot_of y' t) with (slot_of y t); rewrite Hsl; split_and!; [lia|lia|done|exact Hst]|by intros [|]|done].
  - intros a b [-> |Ha]%Hin [-> |Hb]%Hin Ha' Hb' E; [done| | |by apply ci_slots].
    + destruct (Hks b Hb Hb'). transitivity (slot_of y t); [by symmetry|done].
    + destruct (Hks a Ha Ha'). transitivity (slot_of y t); done.
  - intros a [-> |Ha]%Hin Hp; change (process_at y' t) with (process_at y t) in *.
    + destruct (Hproc Hp) as (Hpd & Hi & Hr & Hcpu & _). constructor; change (process_at y' t) with (process_at y t); [|by right|done| |done].
      * assert (is_Some (y_procs y !! process_at y t)) as [x Hx] by (apply Hprocs; by right). exists x. split; [done|]. by rewrite (proc_lookup y _ x Hx) in Hi.
      * intros _ E. change (proc y' (process_at y t)) with (proc y (process_at y t)) in E. congruence.
    + destruct (ci_owners a Ha Hp). constructor; rewrite ?Ec, ?Hd by done; done.
  - intros a b [-> |Ha]%Hin [-> |Hb]%Hin Hp E; [done| | |by apply ci_single].
    + destruct (Hproc Hp) as (_ & _ & _ & _ & Hno). by destruct (Hno b Hb).
    + assert (process_at y t <> NULL) as Hp' by (change (process_at y' t) with (process_at y t) in E; rewrite <- E; done). destruct (Hproc Hp') as (_ & _ & _ & _ & Hno). by destruct (Hno a Ha).
  - intros a [-> |Ha]%Hin Hne Hza; [done|]. rewrite Ec in Hne. rewrite Hd in Hza by done. by apply ci_frames.
  - etrans; [exact ci_cr3|]. by rewrite <- Ec.
  - intros a. etrans; [exact (ci_objects a)|]. rewrite Ht, Hin. cbn. split; [intros [|[= ->]]; auto|intros [[-> |]|]; [by right|by left|done]].
  - intros j. rewrite ci_stacks, Hk. split.
    + intros [(a & Ha & ? & ?)|[= ->]]; left; [exists a; split_and!; [apply Hin; by right|done|done]|exists t; split_and!; [apply Hin; by left|done|done]].
    + intros [(a & [-> |Ha]%Hin & ? & E)|]; [right; f_equal; transitivity (slot_of y t); done|left; by exists a|done].
  - intros q H1 H2. destruct (ci_run q H1 H2) as [|(a & Ha & E)]; [by left|right; exists a; split; [apply Hin; by right|done]].
  - done.
Qed.

Definition taken_pd y (t : Z) : pending := MkPending (Some t) (Some (slot_of y t)) (if process_at y t =? NULL then None else Some (process_at y t)).

Lemma inv_remove y fs hm L t s' c : inv y fs hm L none -> t ∈ tasks y -> dead y t -> t <> current y ->
  sched_ok self s' -> tasks y ≡ₚ t :: reg s' -> t ∉ reg s' -> sc_idle (s_core s') = sc_idle (s_core (y_sched y)) -> sc_current (s_core s') = current y -> sc_now (s_core s') = sc_now (s_core (y_sched y)) ->
  (forall a, a <> t -> node s' a = node (y_sched y) a) ->
  inv (with_sched s' y) fs hm L (taken_pd y t) /\ rest c y (with_sched s' y).
Proof.
  intros I Ht Hdt Htc Hok Hreg Hnt Hidle Hcur Hnow Hnode. set (y' := with_sched s' y). assert (forall a, a ∈ tasks y <-> a = t \/ a ∈ tasks y') as Hin by (intros a; rewrite Hreg; apply elem_of_cons).
  assert (forall a, a ∈ tasks y' -> a <> t /\ a ∈ tasks y /\ (dead y' a <-> dead y a)) as Hk.
  { intros a Ha. assert (a <> t) as Hne by (by intros ->). split_and!; [done|apply Hin; by right|]. unfold dead, zombie. cbn. by rewrite Hnode. }
  assert (forall a, a ∈ tasks y -> a <> t -> a ∈ tasks y') as Hstay by (intros a Ha Hne; apply Hin in Ha as [|]; [done|done]). assert (current y' = current y) as Ec by exact Hcur.
  assert (t <> ly_bootstrap ly) as Htb by (intros ->; by apply (ci_boot _ _ _ _ _ _ _ _ _ I)).
  split; cycle 1. { constructor; [|done]. intros a Ha Hne Hza. assert (a <> t) as Hat by (by intros ->). pose proof (Hstay a Ha Hat) as Ha'. split_and!; [done|by rewrite (proj2 (proj2 (Hk a Ha')))|done|done]. }
  destruct I. constructor; try assumption.
  - etrans; [exact Hidle|done].
  - destruct ci_boot as [Hb Hbz]. pose proof (Hstay _ Hb (not_eq_sym Htb)) as Hb'. split; [done|]. by rewrite (proj2 (proj2 (Hk _ Hb'))).
  - destruct ci_clock. split; [cbn; lia|done].
  - intros a Ha. destruct (ci_threads a (proj1 (proj2 (Hk a Ha)))). by constructor.
  - intros a b Ha Hb. apply ci_slots; by apply Hk.
  - intros a Ha Hp. destruct (Hk a Ha) as (Hat & Ha' & Hda). destruct (ci_owners a Ha' Hp). constructor; rewrite ?Ec, ?Hda; try done. left. by destruct oo_registry.
  - intros a b Ha Hb. apply ci_single; by apply Hk.
  - intros a Ha. destruct (Hk a Ha) as (Hat & Ha' & Hda). rewrite Ec, Hda. by apply ci_frames.
  - etrans; [exact ci_cr3|]. by rewrite <- Ec.
  - intros a. etrans; [exact (ci_objects a)|]. rewrite Hin. cbn. split; [intros [[-> |]|]; auto; done|intros [|[= ->]]; auto].
  - intros j. rewrite ci_stacks. cbn. split.
    + intros [(a & Ha & ? & E)|]; [|done]. destruct (decide (a = t)) as [-> |Hne]; [right; by rewrite E|left; exists a; split_and!; [by apply Hstay|done|done]].
    + intros [(a & Ha & ? & ?)|[= <-]]; left; [exists a; split_and!; [by apply Hk|done|done]|by exists t].
  - intros q. etrans; [exact (ci_procs q)|]. cbn. split; [intros [|]; [by left|done]|]. intros [|E]; [by left|]. left. destruct (Z.eqb_spec (process_at y t) NULL) as [|Hp]; [done|]. injection E as <-. split; [done|]. by destruct (oo_registry _ _ _ (ci_owners t Ht Hp)).
  - intros q H1 H2. destruct (ci_run q H1 H2) as [|(a & Ha & E)]; [done|]. destruct (decide (a = t)) as [-> |Hne]; [left; cbn|right; exists a; split; [by apply Hstay|done]]. rewrite E. by rewrite (proj2 (Z.eqb_neq _ _) H1).
  - split; [by intros a [= <-]|]. intros k a [= <-] Ha Hb E. destruct (Hk a Ha) as (Hat & Ha' & _). apply Hat. by apply ci_slots.
Qed.
End steps.
