(* ===== verification/SystemEvents.v ===== *)
(** * Threads and processes: the operations

    Each function of Scheduler.v and Process.v returns without a [PANIC] from a
    state that satisfies the invariant, and keeps it. *)

From stdpp Require Import gmap.
From S2P Require Import Prelude MemoryHelpers Bytes VmmCore VmmMap Frames KernelVm KernelPages HeapCore HeapSpec HeapStore KernelHeap ThreadStack ThreadStackProps UserVm UserVmTree UserVmOps UserVmLife UserVmSpec ElfLoad ElfLoadProps SchedCore SchedInv SchedMoves Vfs World WorldInv Devices System Scheduler Process SystemInv SystemSteps.
Open Scope Z_scope.

Section events.
Context {P : Type} `{PageFramesLaws P} (ly : layout) (Hly : layout_ok ly) (base : Z -> Prop) (nx : bool) (K : gset Z).
Notation S := (system P).
Notation self := (ly_scheduler ly).
Notation inv := (core_inv ly base nx K).
Implicit Types y : S.

Definition running y : Prop := is_running (y_sched y) (current y) = true.
Definition level y : Z := depth (y_sched y).
Definition mine y : Z := process_at y (current y).
Definition state_of y (p : Z) : process_state := pr_state (proc y p).

(** A process runs with preemption enabled, and enters the kernel on its stack. *)
Definition settled y : Prop := mine y <> NULL ->
  running y /\ level y = 0 /\ state_of y (mine y) = UTAMO_PROCESS_READY /\ cp_rsp0 (y_cpu y) = stack_top ly y (current y).

(** ** Selection *)

(** The state after the selection of [next]. *)
Definition selected (s' : sched) (next rsp0 : Z) (x : sched_statics) y : S :=
  let k := y_cpu y in
  with_statics x (with_cpu (MkCpu (cp_gdt k) rsp0 (cp_status k) (cp_devices k)) (with_world (with_cr3 (space_root y next) (y_world y)) (with_sched s' y))).

Lemma inv_selected y fs hm L pd s' next rsp0 x : inv y fs hm L pd -> moved self (y_sched y) s' -> sc_current (s_core s') = next -> next ∈ tasks y -> ~ dead y next ->
  sc_now (s_core s') = sc_now (s_core (y_sched y)) -> sx_ready x = sx_ready (y_statics y) -> sx_kernel_cr3 x = sx_kernel_cr3 (y_statics y) ->
  (~ dead y (current y) -> valid_frame ly y (current y) (th_frame (thread y (current y))) = true) ->
  (mine y <> NULL -> dead y (current y) \/ state_of y (mine y) = UTAMO_PROCESS_READY) ->
  inv (selected s' next rsp0 x y) fs hm L pd /\ rest (current y) y (selected s' next rsp0 x y).
Proof.
  intros I M Hc Hn Hz Hnow E1 E2 Hval Hst. set (y' := selected s' next rsp0 x y). assert (tasks y' = tasks y) as Er by apply (moved_reg _ _ _ M). assert (current y' = next) as Ec by exact Hc.
  assert (forall t, t ∈ tasks y -> dead y' t <-> dead y t) as Hd by (intros t Ht; by apply (mv_zombie _ _ _ M)). assert (forall t, space_root y' t = space_root y t) as Hroot by (intros t; unfold space_root; by rewrite <- E2).
  assert (effect (y_world y) (y_world y') (fun _ => False) (fun _ => False)) as Ef by apply cr3_effect, (wi_kernel _ _ _ _ _ _ _ (ci_world _ _ _ _ _ _ _ _ _ I)).
  split; cycle 1. { constructor; [intros t Ht Hne Hzt; rewrite Er; split_and!; [done|by rewrite Hd|done|done]|]. intros t z Ht Hne Hzt Hp Hx. split; [done|]. intros F HF. apply (user_shows (y_world y) _ (fun _ => False) (fun _ => False)); [done|done|by intros ? ? []]. }
  destruct I. constructor; rewrite ?Er; try assumption.
  - by apply world_cr3.
  - apply M.
  - etrans; [apply M|done].
  - destruct ci_boot. split; [done|]. by rewrite Hd.
  - etrans; [exact E1|done].
  - destruct ci_clock. split; [change (sc_now (s_core s') <= cp_ticks (y_cpu y)); lia|done].
  - cbn. rewrite E2. exact ci_kernel.
  - intros t Ht. by destruct (ci_threads t Ht); constructor.
  - intros t Ht Hp. destruct (ci_owners t Ht Hp). constructor; rewrite ?Ec, ?Hd by done; try done. intros Hne E. destruct (decide (t = current y)) as [-> |Hnc]; [|by apply oo_exited].
    destruct (Hst Hp) as [|E']; [done|]. unfold state_of, mine in E'. change (proc y' (process_at y' (current y))) with (proc y (process_at y (current y))) in E. congruence.
  - intros t Ht. rewrite Ec, Hd by done. intros Hne Hzt. destruct (decide (t = current y)) as [-> |Hnc]; [by apply Hval|by apply ci_frames].
  - rewrite Hroot, Ec. done.
Qed.

Lemma with_cr3_same (w : world P) : with_cr3 (w_cr3 w) w = w.
Proof. by destruct w. Qed.
Lemma with_statics_same y : with_statics (y_statics y) y = y.
Proof. by destruct y. Qed.
Lemma with_cpu_same y : with_cpu (MkCpu (cp_gdt (y_cpu y)) (cp_rsp0 (y_cpu y)) (cp_status (y_cpu y)) (cp_devices (y_cpu y))) y = y.
Proof. destruct y as [? ? ? ? ? ? ? [? ? ? ?] ? ? ?]. done. Qed.
Lemma with_world_same y : with_world (y_world y) y = y.
Proof. by destruct y. Qed.

Lemma wp_scheduler {A} (f : sched -> sched * A) Q y s' r : f (y_sched y) = (s', r) -> Q r (with_sched s' y) -> wp (scheduler f) Q y.
Proof. intros E HQ. unfold wp, scheduler. by rewrite E. Qed.

Definition stat_when (b : bool) (f : sched_statics -> sched_statics) y : S := with_statics (if b then f (y_statics y) else y_statics y) y.

Lemma wp_statics_if (b : bool) f Q y : Q tt (stat_when b f y) -> wp (if b then statics f else mret tt) Q y.
Proof. unfold stat_when. destruct b; [done|]. by rewrite with_statics_same. Qed.

(** The CPU's stack for the next entry from user mode. *)
Definition set_rsp0 (ready : bool) (top : Z) y : S :=
  let k := y_cpu y in with_cpu (MkCpu (cp_gdt k) (if ready then top else cp_rsp0 k) (cp_status k) (cp_devices k)) y.

Lemma wp_prepare (process top : Z) Q y : cp_gdt (y_cpu y) = true -> memory_is_canonical top = true -> 0xffff800000000000 < top -> Z.land top 15 = 0 -> Q tt (set_rsp0 (arch_user_ready y) top y) ->
  wp (if arch_user_ready y then prepared ← (if process =? NULL then gdt_set_rsp0 false top else arch_user_prepare_return false top); require prepared else mret tt) Q y.
Proof.
  intros Hg H1 H2 H3 HQ. unfold set_rsp0 in HQ. destruct (arch_user_ready y) eqn:Er; [|by rewrite with_cpu_same in HQ]. step.
  assert (forall R : bool -> S -> Prop, R true (with_cpu (MkCpu (cp_gdt (y_cpu y)) top (cp_status (y_cpu y)) (cp_devices (y_cpu y))) y) -> wp (gdt_set_rsp0 false top) R y) as Hset.
  { intros R HR. rewrite Hg in HR. unfold gdt_set_rsp0. step. rewrite Hg, H1, H3, (proj2 (Z.ltb_lt _ _) H2). exact HR. }
  destruct (process =? NULL); [by apply Hset|]. unfold arch_user_prepare_return. step. rewrite Er. cbn. by apply Hset.
Qed.

Lemma wp_cr3 (target : Z) Q y : (forall x, sx_ready x = sx_ready (y_statics y) -> sx_kernel_cr3 x = sx_kernel_cr3 (y_statics y) -> Q tt (with_statics x (with_world (with_cr3 target (y_world y)) y))) ->
  wp (if negb (w_cr3 (y_world y) =? target) then _ ← modify (fun y => with_world (with_cr3 target (y_world y)) y); statics count_switch else mret tt) Q y.
Proof.
  intros HQ. destruct (Z.eqb_spec (w_cr3 (y_world y)) target) as [E|E]; cbn [negb].
  - specialize (HQ (y_statics y) eq_refl eq_refl). rewrite <- E, with_cr3_same, with_world_same, with_statics_same in HQ. done.
  - step. by apply (HQ (count_switch (y_statics y))).
Qed.

(** What a return from the kernel promises. *)
Definition returns y : Prop := ~ dead y (current y) /\ valid_frame ly y (current y) (th_frame (thread y (current y))) = true /\ settled y.

Lemma wp_select y fs hm L pd force vector (Q : Z -> S -> Prop) : inv y fs hm L pd ->
  (~ dead y (current y) -> valid_frame ly y (current y) (th_frame (thread y (current y))) = true) -> ~ dead y (current y) \/ (force = true /\ level y = 0) ->
  (mine y <> NULL -> level y = 0 /\ (force = true \/ running y) /\ (dead y (current y) \/ state_of y (mine y) = UTAMO_PROCESS_READY)) ->
  (forall s' next rsp0 x, let y' := selected s' next rsp0 x y in inv y' fs hm L pd -> rest (current y) y y' -> returns y' -> Q (th_frame (thread y' (current y'))) y') ->
  wp (select_frame ly force vector) Q y.
Proof using Hly.
  intros I Hv Hz Hm HQ. destruct (select_moved self (y_sched y) force (ci_sched _ _ _ _ _ _ _ _ _ I) Hz) as (s' & next & Es & M & Hc & Hn & Hnz & Hnow & Hcase).
  assert (valid_frame ly y next (th_frame (thread y next)) = true) as Hvn by (destruct (decide (next = current y)) as [-> |]; [by apply Hv|by apply I]).
  pose proof (stack_bounds ly Hly y L next (ci_threads _ _ _ _ _ _ _ _ _ I next Hn)) as (_ & _ & Ht1 & Ht2 & Ht3).
  unfold select_frame. step. step. apply (wp_scheduler _ _ _ s' next Es). step. apply wp_require; [apply negb_true_iff, Z.eqb_neq; by apply elem_of_reg in Hn as [? _]|]. step. step. apply wp_require; [exact Hvn|].
  step. step. apply wp_statics_if. set (y1 := stat_when _ _ _). assert (sx_ready (y_statics y1) = sx_ready (y_statics y) /\ sx_kernel_cr3 (y_statics y1) = sx_kernel_cr3 (y_statics y)) as [Ex1 Ex2] by (unfold y1, stat_when; by destruct (_ && _)).
  step. step. step. step. step. apply wp_prepare; [apply I|done|done|done|]. step. step. apply wp_cr3. intros x Ex3 Ex4. cbn [wp gets].
  set (rsp0 := if arch_user_ready y1 then stack_top ly y next else cp_rsp0 (y_cpu y)).
  assert (sx_ready x = sx_ready (y_statics y) /\ sx_kernel_cr3 x = sx_kernel_cr3 (y_statics y)) as [Ex5 Ex6] by (split; [by etrans; [exact Ex3|]|by etrans; [exact Ex4|]]). specialize (HQ s' next rsp0 x).
  destruct (inv_selected y fs hm L pd s' next rsp0 x I M Hc Hn Hnz Hnow Ex5 Ex6 Hv) as [I' R']; [intros Hp; by apply Hm|]. specialize (HQ I' R'). set (y' := selected s' next rsp0 x y) in *. assert (current y' = next) as Ec by exact Hc.
  assert (returns y') as Hret; [|specialize (HQ Hret); rewrite Ec in HQ; rewrite Ex2; exact HQ]. unfold returns. rewrite Ec. split_and!; [intros Hx; apply Hnz; by apply (mv_zombie _ _ _ M)|exact Hvn|].
  unfold settled, mine, running, level, depth. rewrite Ec. intros Hp. change (process_at y' next) with (process_at y next) in *.
  assert (is_running s' next = true /\ st_preempt_depth (node s' next) = 0) as [Hr1 Hr2].
  { destruct Hcase as [(-> & -> & Hno)|]; [|done]. destruct (Hm Hp) as (Hl & [-> |Hr] & _); [by destruct Hno|done]. }
  assert (arch_user_ready y = true) as Hcpu by (by apply (ci_owners _ _ _ _ _ _ _ _ _ I next Hn Hp)).
  split_and!; [done|cbn; rewrite Hc; done| |].
  - change (state_of y' (process_at y next)) with (state_of y (process_at y next)). destruct (decide (next = current y)) as [E|Hne].
    + destruct (Hm ltac:(unfold mine; by rewrite <- E)) as (_ & _ & [Hd|Hr]); [by rewrite E in Hnz|]. rewrite E. exact Hr.
    + destruct (state_of y (process_at y next)) eqn:Est; [done|]. destruct Hnz. by apply (oo_exited _ _ _ (ci_owners _ _ _ _ _ _ _ _ _ I next Hn Hp)).
  - unfold y', selected. cbn. unfold rsp0. change (arch_user_ready y1) with (arch_user_ready y). by rewrite Hcpu.
Qed.

(** ** The way back to user mode *)

(** The continuation of code that returns to a thread. *)
Definition resumes y0 fs hm L pd (Q : Z -> S -> Prop) : Prop :=
  forall y', inv y' fs hm L pd -> rest (current y0) y0 y' -> returns y' -> Q (th_frame (thread y' (current y'))) y'.

Lemma resumes_step y0 y1 fs hm L pd Q : resumes y0 fs hm L pd Q -> current y1 = current y0 -> rest (current y0) y0 y1 -> resumes y1 fs hm L pd Q.
Proof. intros HQ E R y' I' R' Hr. apply HQ; [done| |done]. rewrite E in R'. by eapply rest_trans. Qed.

Lemma current_process y fs hm L pd : inv y fs hm L pd -> scheduler_current_process y = mine y.
Proof. intros I. unfold scheduler_current_process. by rewrite (ci_ready _ _ _ _ _ _ _ _ _ I). Qed.

Lemma wp_current_frame y fs hm L pd a (Q : unit -> S -> Prop) : inv y fs hm L pd ->
  (let y' := with_threads (<[current y := set_threads_frame a (thread y (current y))]> (y_threads y)) y in inv y' fs hm L pd -> rest (current y) y y' ->
     th_frame (thread y' (current y)) = a -> Q tt y') -> wp (set_current_frame a) Q y.
Proof.
  intros I HQ. unfold set_current_frame. step. destruct (inv_thread ly base nx K y fs hm L pd (set_threads_frame a (thread y (current y))) I) as [I' R']; [done|]. apply HQ; [done|done|]. by rewrite thread_insert, decide_True.
Qed.

(** The frame is stored; the rest of the running thread is as before. *)
Lemma valid_insert y t a b r : same_identity (thread y t) r -> valid_frame ly (with_threads (<[t := r]> (y_threads y)) y) b a = valid_frame ly y b a.
Proof.
  intros (E1 & E2 & E3). unfold valid_frame, frame_owned, stack_bottom, stack_top. rewrite thread_insert. case_decide; [subst|done]. by rewrite E1, E2.
Qed.

Lemma wp_exit_user y fs hm L pd a Q : inv y fs hm L pd -> mine y <> NULL -> running y -> level y = 0 -> state_of y (mine y) = UTAMO_PROCESS_EXITED -> frame_owned ly y (current y) a = true ->
  resumes y fs hm L pd Q -> wp (scheduler_exit_user ly a) Q y.
Proof using Hly.
  intros I Hp Hr Hl Hst Ho HQ. unfold scheduler_exit_user. step. rewrite (current_process y fs hm L pd I). step. step. apply wp_require.
  { unfold state_of in Hst. rewrite (proj2 (Z.eqb_neq _ _) Hp), Hst, Ho. done. }
  assert (current y <> ly_idle ly /\ current y <> ly_bootstrap ly) as [Hi Hb] by (split; intros E; apply Hp; apply (to_static _ _ _ _ (ci_threads _ _ _ _ _ _ _ _ _ I _ (inv_current _ _ _ _ _ _ _ _ _ I))); auto).
  destruct (exit_moved self (y_sched y) (ci_sched _ _ _ _ _ _ _ _ _ I)) as [Ex Hok]; [by rewrite (ci_idle _ _ _ _ _ _ _ _ _ I)|done|done|].
  destruct (inv_retired ly base nx K y fs hm L pd I Hok Hb) as [I1 R1]; [by intros _|]. step. apply (wp_scheduler _ _ _ _ _ Ex). set (y1 := with_sched _ y) in *. step. apply wp_require; [done|].
  step. apply (wp_current_frame y1 fs hm L pd a); [done|]. intros y2 I2 R2 Ea. destruct (inv_statics ly base nx K y2 fs hm L pd (count_exited (y_statics y2)) (current y) I2 eq_refl eq_refl) as [I3 R3]. step. step.
  set (y3 := with_statics _ y2) in *. assert (dead y3 (current y3)) as Hd by (unfold dead, zombie; change (node _ _) with (node (retired UTAMO_SCHED_ZOMBIE (y_sched y)) (current y)); rewrite retired_node, decide_True by done; done).
  assert (level y3 = 0) as Hl3. { unfold level, depth. change (node _ _) with (node (retired UTAMO_SCHED_ZOMBIE (y_sched y)) (current y)). rewrite retired_node, decide_True by done. exact Hl. }
  apply (wp_select y3 fs hm L pd); [done|done|by right|intros _; by split_and!; [|left|left]|]. intros s' next rsp0 x y4 I4 R4 Hret. apply HQ; [done| |done]. eapply rest_trans; [exact R1|]. eapply rest_trans; [exact R2|]. eapply rest_trans; [exact R3|exact R4].
Qed.

(** A process has entered the kernel with its frame at [a]. *)
Record entered y (a : Z) : Prop := {
  en_mine : mine y <> NULL;
  en_running : running y;
  en_level : level y = 0;
  en_state : state_of y (mine y) = UTAMO_PROCESS_READY;
  en_owned : frame_owned ly y (current y) a = true;
  en_mode : Z.land (if_cs (saved y a)) 3 = 3
}.

Lemma mine_live y fs hm L pd : inv y fs hm L pd -> mine y <> NULL -> exists x, y_procs y !! mine y = Some x /\ uv_initialized (pr_vm x) = true.
Proof. intros I Hp. apply (ci_owners _ _ _ _ _ _ _ _ _ I); [by eapply inv_current|done]. Qed.

Lemma mine_single y fs hm L pd t : inv y fs hm L pd -> mine y <> NULL -> t ∈ tasks y -> t <> current y -> process_at y t <> mine y.
Proof. intros I Hp Ht Hne E. apply Hne. symmetry. apply (ci_single _ _ _ _ _ _ _ _ _ I); [by eapply inv_current|done|done|by symmetry]. Qed.

(** A change of the object of the running process. *)
Lemma wp_set_mine y fs hm L pd f (Q : unit -> S -> Prop) : inv y fs hm L pd -> mine y <> NULL -> pr_vm (f (proc y (mine y))) = pr_vm (proc y (mine y)) ->
  pr_state (f (proc y (mine y))) = pr_state (proc y (mine y)) \/ pr_state (f (proc y (mine y))) = UTAMO_PROCESS_EXITED ->
  (let y' := with_procs (<[mine y := f (proc y (mine y))]> (y_procs y)) y in inv y' fs hm L pd -> rest (current y) y y' -> proc y' (mine y) = f (proc y (mine y)) -> Q tt y') -> wp (set_proc (mine y) f) Q y.
Proof.
  intros I Hp Hv Hs HQ. destruct (mine_live y fs hm L pd I Hp) as (x & Hx & _). rewrite (proc_lookup y _ x Hx) in *.
  destruct (inv_proc ly base nx K y fs hm L pd (current y) (mine y) x (f x) I Hx Hv) as [I' R']; [tauto|intros t Ht Hne; by eapply mine_single|]. unfold set_proc. cbn [wp modify]. rewrite (proc_lookup y _ x Hx). apply HQ; [done|done|]. by rewrite proc_insert, decide_True.
Qed.

Lemma wp_mark_exit y fs hm L pd a code faulted vector error address (Q : unit -> S -> Prop) : inv y fs hm L pd -> entered y a ->
  (forall y', inv y' fs hm L pd -> rest (current y) y y' -> current y' = current y -> mine y' = mine y -> running y' -> level y' = 0 -> state_of y' (mine y') = UTAMO_PROCESS_EXITED -> frame_owned ly y' (current y') a = true -> Q tt y') ->
  wp (process_mark_exit (mine y) code faulted vector error address) Q y.
Proof.
  intros I En HQ. pose proof (en_mine _ _ En) as Hp. unfold process_mark_exit. step. step. apply wp_require. { pose proof (en_state _ _ En) as Es. unfold state_of in Es. rewrite (proj2 (Z.eqb_neq _ _) Hp), Es. done. }
  step. apply (wp_set_mine y fs hm L pd); [done|done|done|by right|]. intros y1 I1 R1 E1. unfold process_table_set. cbn [wp modify]. destruct (inv_table ly base nx K y1 fs hm L pd (set_stats (stat_exited faulted) (y_table y1)) (current y) I1 eq_refl eq_refl) as [I2 R2].
  apply HQ; [done|by eapply rest_trans|done|done|apply En|apply En| |apply En]. unfold state_of. change (proc _ _) with (proc y1 (mine y)). by rewrite E1.
Qed.

Lemma wp_on_fault y fs hm L pd a vector error address Q : inv y fs hm L pd -> entered y a -> resumes y fs hm L pd Q -> wp (process_on_fault ly a vector error address) Q y.
Proof using Hly.
  intros I En HQ. unfold process_on_fault. step. rewrite (current_process y fs hm L pd I). step. step. apply wp_require. { rewrite (proj2 (Z.eqb_neq _ _) (en_mine _ _ En)), (en_mode _ _ En). done. }
  step. apply (wp_mark_exit y fs hm L pd a); [done|done|]. intros y1 I1 R1 Ec Em Hr Hl Hs Ho. apply (wp_exit_user y1 fs hm L pd); [done|rewrite Em; apply En|done|done|done|done|]. by apply (resumes_step y).
Qed.

Lemma wp_frame_safe y fs hm L pd a (Q : bool -> S -> Prop) : inv y fs hm L pd -> mine y <> NULL -> frame_owned ly y (current y) a = true -> Q (process_user_return_valid (saved y a)) y -> wp (scheduler_user_frame_safe ly a) Q y.
Proof.
  intros I Hp Ho HQ. unfold scheduler_user_frame_safe. step. step. apply wp_require; [|done]. rewrite (ci_ready _ _ _ _ _ _ _ _ _ I), (current_process y fs hm L pd I), Ho. by rewrite (proj2 (Z.eqb_neq _ _) Hp).
Qed.

Lemma user_frame y a : mine y <> NULL -> frame_owned ly y (current y) a = true -> valid_frame ly y (current y) a = process_user_return_valid (saved y a).
Proof. intros Hp Ho. unfold valid_frame. rewrite Ho. cbn [negb]. unfold mine, process_at in Hp. by rewrite (proj2 (Z.eqb_neq _ _) Hp). Qed.

(** The frame of the running thread is stored and a thread is selected. *)
Lemma wp_store_select y fs hm L pd a force Q : inv y fs hm L pd -> valid_frame ly y (current y) a = true -> ~ dead y (current y) ->
  (mine y <> NULL -> level y = 0 /\ (force = true \/ running y) /\ state_of y (mine y) = UTAMO_PROCESS_READY) -> resumes y fs hm L pd Q ->
  wp (_ ← set_current_frame a; vector ← gets (fun y => if_vector (saved y a)); select_frame ly force vector) Q y.
Proof using Hly.
  intros I Hv Hz Hm HQ. step. apply (wp_current_frame y fs hm L pd a); [done|]. intros y1 I1 R1 Ea. assert (process_at y1 (current y1) = mine y) as Em by (unfold process_at; change (current y1) with (current y); unfold y1; rewrite thread_insert, decide_True by done; done).
  step. apply (wp_select y1 fs hm L pd); [done| |by left| |].
  - intros _. change (current y1) with (current y). rewrite Ea. unfold y1. by rewrite valid_insert.
  - unfold mine. rewrite Em. intros Hp. destruct (Hm Hp) as (? & ? & ?). split_and!; [done|done|by right].
  - intros s' next rsp0 x y2 I2 R2 Hret. apply HQ; [done| |done]. by eapply rest_trans.
Qed.

Lemma wp_resume_user y fs hm L pd a Q : inv y fs hm L pd -> entered y a -> resumes y fs hm L pd Q -> wp (scheduler_resume_user ly a) Q y.
Proof using Hly.
  intros I En HQ. unfold scheduler_resume_user. step. apply (wp_frame_safe y fs hm L pd); [done|apply En|apply En|]. destruct (process_user_return_valid (saved y a)) eqn:Ev; cbn [negb]; [|by apply (wp_on_fault y fs hm L pd)].
  apply (wp_store_select y fs hm L pd); [done|rewrite user_frame; [done|apply En|apply En]|apply running_not_zombie, En| |done]. intros _. destruct En. split_and!; [done|by right|done].
Qed.

Lemma saved_rax y a v : saved (with_saved (<[a := set_rax v (saved y a)]> (y_saved y)) y) a = set_rax v (saved y a).
Proof. by rewrite saved_insert, decide_True. Qed.

(** The running thread writes a frame on its own stack. *)
Lemma inv_own_saved y fs hm L pd a f : inv y fs hm L pd -> frame_owned ly y (current y) a = true -> let y' := with_saved (<[a := f]> (y_saved y)) y in inv y' fs hm L pd /\ rest (current y) y y'.
Proof using Hly.
  intros I Ho. apply (inv_saved ly Hly base nx K y fs hm L pd a f I). intros t Ht Hne. pose proof (ci_threads _ _ _ _ _ _ _ _ _ I) as T. pose proof (inv_current _ _ _ _ _ _ _ _ _ I) as Hc. apply (stacks_apart ly Hly y L (current y) t a); [by apply T|by apply T|done| |].
  - intros H1 H2 E. apply Hne. symmetry. by apply (ci_slots _ _ _ _ _ _ _ _ _ I).
  - by apply (owned_on ly Hly y L (current y) a (T _ Hc)).
Qed.

(** The result register of the running process is written. *)
Lemma wp_set_rax y fs hm L pd a v (Q : unit -> S -> Prop) : inv y fs hm L pd -> entered y a ->
  (let y' := with_saved (<[a := set_rax v (saved y a)]> (y_saved y)) y in inv y' fs hm L pd -> rest (current y) y y' -> entered y' a -> Q tt y') -> wp (set_saved a (set_rax v)) Q y.
Proof using Hly.
  intros I En HQ. unfold set_saved. cbn [wp modify]. destruct (inv_own_saved y fs hm L pd a (set_rax v (saved y a)) I (en_owned _ _ En)) as [I' R']. apply HQ; [done|done|]. destruct En. constructor; try assumption. rewrite saved_rax. done.
Qed.

Lemma ticks_u64 ms : u64_ok (sched_ms_to_ticks ms).
Proof. apply u64_range. Qed.

Lemma wp_yield_user y fs hm L pd a ms Q : inv y fs hm L pd -> entered y a -> resumes y fs hm L pd Q -> wp (scheduler_yield_user ly a ms) Q y.
Proof using Hly.
  intros I En HQ. unfold scheduler_yield_user. step. apply (wp_frame_safe y fs hm L pd); [done|apply En|apply En|]. destruct (process_user_return_valid (saved y a)) eqn:Ev; cbn [negb]; [|by apply (wp_on_fault y fs hm L pd)].
  assert (valid_frame ly y (current y) a = true) as Hv by (rewrite user_frame; [done|apply En|apply En]). step. destruct (Z.eqb_spec ms 0).
  - cbn. apply (wp_store_select y fs hm L pd); [done|done|apply running_not_zombie, En| |done]. intros _. destruct En. split_and!; [done|by left|done].
  - destruct (sleep_moved self (y_sched y) (sched_ms_to_ticks ms) (ci_sched _ _ _ _ _ _ _ _ _ I)) as (s' & b & Es & M & Hc & Hn & Hf & Ht); [apply ticks_u64|].
    apply (wp_scheduler _ _ _ _ _ Es). destruct (inv_moved ly base nx K y s' fs hm L pd (current y) I M Hc) as [I1 R1]; [rewrite Hn; apply I|]. set (y1 := with_sched s' y) in *. destruct b; cbn [negb].
    + destruct (Ht eq_refl) as (_ & Hz & Hl). assert (current y1 = current y) as Ec by exact Hc. apply (wp_store_select y1 fs hm L pd); [done|rewrite Ec; exact Hv|rewrite Ec; exact Hz| |by apply (resumes_step y)].
      intros _. split_and!; [unfold level, depth; cbn; rewrite Hc; exact Hl|by left|]. unfold mine. rewrite Ec. apply En.
    + rewrite (Hf eq_refl) in *. assert (y1 = y) as -> by (unfold y1; rewrite (Hf eq_refl); by destruct y). step. apply (wp_set_rax y fs hm L pd); [done|done|]. intros y2 I2 R2 En2. apply (wp_resume_user y2 fs hm L pd); [done|done|]. by apply (resumes_step y).
Qed.

(** ** Interrupts *)

(** An interrupt has stored the registers of the running thread at [a]: a process
    entered the kernel, or a kernel thread was interrupted.  A thread that has
    ended only raises [UTAMO_SCHEDULE_VECTOR]. *)
Definition interrupted y (a : Z) : Prop :=
  if decide (mine y = NULL) then valid_frame ly y (current y) a = true /\ (dead y (current y) -> if_vector (saved y a) = UTAMO_SCHEDULE_VECTOR) else entered y a.

Lemma interrupted_owned y a : interrupted y a -> frame_owned ly y (current y) a = true.
Proof. unfold interrupted. case_decide; [intros [Hv _]; by apply valid_owned|intros En; apply En]. Qed.

(** The scheduler's part of a tick or of a key. *)
Definition clocked y s' (a : Z) : Prop := moved self (y_sched y) s' /\ sc_current (s_core s') = current y /\ sc_now (s_core s') <= cp_ticks (y_cpu y) /\
  (entered y a -> is_running s' (current y) = true /\ st_preempt_depth (node s' (current y)) = 0).

Lemma clocked_entered y s' a : clocked y s' a -> entered y a -> entered (with_sched s' y) a.
Proof.
  intros (M & Hc & _ & Hk) En. destruct (Hk En) as [Hr Hl]. assert (current (with_sched s' y) = current y) as Ec by exact Hc. destruct En. constructor; unfold mine, running, level, depth; rewrite ?Ec; try assumption. cbn. by rewrite Hc.
Qed.

Lemma wp_clock y fs hm L pd a vector (Q : unit -> S -> Prop) : inv y fs hm L pd ->
  (forall s', clocked y s' a -> (vector = UTAMO_SCHEDULE_VECTOR -> s' = y_sched y) -> Q tt (with_sched s' y)) ->
  wp (if vector =? 32 then ticks ← gets (fun y => cp_ticks (y_cpu y)); ok ← scheduler (fun s => sched_core_tick self s ticks); require ok
      else if vector =? 33 then
        blocked ← gets (fun y => state_eqb (st_state (node (y_sched y) (ly_bootstrap ly))) UTAMO_SCHED_BLOCKED);
        pending ← gets input_pending;
        if blocked && pending then ok ← scheduler (fun s => sched_core_wake self s (ly_bootstrap ly)); require ok else mret tt
      else mret tt) Q y.
Proof.
  intros I HQ. pose proof (ci_sched _ _ _ _ _ _ _ _ _ I) as Hok. destruct (ci_clock _ _ _ _ _ _ _ _ _ I) as [Hle Hu]. assert (clocked y (y_sched y) a) as Hsame by (split_and!; [by apply moved_refl|done|done|intros En; split; apply En]).
  assert (with_sched (y_sched y) y = y) as Ey by by destruct y. destruct (Z.eqb_spec vector 32) as [-> |].
  - step. destruct (tick_moved self (y_sched y) (cp_ticks (y_cpu y)) Hok Hu Hle) as (s' & Es & M & Hc & Hn & Hr). step. apply (wp_scheduler _ _ _ _ _ Es). cbn. apply HQ; [|done]. split_and!; [done|done|lia|]. intros En. destruct (Hr (en_running _ _ En)) as [H1 H2]. split; [done|]. etrans; [exact H2|]. apply En.
  - destruct (Z.eqb_spec vector 33) as [-> |]; [|rewrite <- Ey; by apply HQ]. step. step. destruct (state_eqb _ _) eqn:Eb; cbn [andb]; [|rewrite <- Ey; by apply HQ]. destruct (input_pending y); [|rewrite <- Ey; by apply HQ].
    apply state_eqb_true in Eb. destruct (wake_moved self (y_sched y) (ly_bootstrap ly) Hok) as (s' & Es & M & Hc & Hn & Hr); [apply I|done|]. step. apply (wp_scheduler _ _ _ _ _ Es). cbn. apply HQ; [|done]. split_and!; [done|done|lia|].
    intros En. destruct (Hr (current y)) as [H1 H2]; [by eapply inv_current| |]. { intros E. apply (en_mine _ _ En). apply (to_static _ _ _ _ (ci_threads _ _ _ _ _ _ _ _ _ I _ (inv_current _ _ _ _ _ _ _ _ _ I))). by right. }
    unfold is_running. rewrite H1, H2. split; apply En.
Qed.

Lemma wp_on_interrupt y fs hm L pd a Q : inv y fs hm L pd -> interrupted y a -> resumes y fs hm L pd Q -> wp (scheduler_on_interrupt ly a) Q y.
Proof using Hly.
  intros I Hi HQ. pose proof (interrupted_owned y a Hi) as Ho. pose proof (inv_current _ _ _ _ _ _ _ _ _ I) as Hcur. unfold scheduler_on_interrupt. step. rewrite (ci_ready _ _ _ _ _ _ _ _ _ I). cbn [negb]. step. step. step. apply wp_require; [exact Ho|]. step. 
  set (r := set_threads_frame a (thread y (current y))). destruct (inv_thread ly base nx K y fs hm L pd r I) as [I1 R1]; [done|]. set (y1 := with_threads _ y) in *.
  assert (forall b q, valid_frame ly y1 q b = valid_frame ly y q b) as Hval by (intros b q; by apply valid_insert).
  assert (thread y1 (current y) = r) as Er by (unfold y1; by rewrite thread_insert, decide_True). assert (mine y1 = mine y) as Em by (unfold mine, process_at; change (current y1) with (current y); by rewrite Er).
  assert (frame_owned ly y1 (current y) a = true) as Ho1 by (unfold frame_owned, stack_bottom, stack_top; rewrite Er; exact Ho).
  assert (interrupted y1 a) as Hi1. { unfold interrupted in *. rewrite Em. case_decide; [by rewrite Hval|]. destruct Hi. constructor; rewrite ?Em; done. }
  step. step. apply (wp_clock y1 fs hm L pd a); [done|]. intros s' Hcl Hsame. pose proof Hcl as (M & Hc & Hn & _). destruct (inv_moved ly base nx K y1 s' fs hm L pd (current y) I1 M Hc Hn) as [I2 R2]. set (y2 := with_sched s' y1) in *.
  assert (current y2 = current y) as Ec by exact Hc. assert (mine y2 = mine y) as Em2 by (unfold mine in *; rewrite Ec; exact Em). assert (resumes y2 fs hm L pd Q) as HQ2 by (apply (resumes_step y); [done|done|by eapply rest_trans]). step.
  change (valid_frame ly y2 (current y) a) with (valid_frame ly y1 (current y) a). destruct (valid_frame ly y1 (current y) a) eqn:Ev; cbn [negb].
  - apply (wp_select y2 fs hm L pd); [done| | | |intros s1 n1 r1 x1; by apply HQ2].
    + intros _. rewrite Ec. change (thread y2 (current y)) with (thread y1 (current y)). rewrite Er. exact Ev.
    + rewrite Ec. destruct (decide (mine y1 = NULL)) as [E0'|E0'].
      * destruct (decide (st_state (node (y_sched y1) (current y)) = UTAMO_SCHED_ZOMBIE)) as [Hz|Hz]; [right|left; intros Hx; apply Hz; apply (mv_zombie _ _ _ M); [exact Hcur|done]]. unfold interrupted in Hi1. rewrite decide_True in Hi1 by done. destruct Hi1 as [_ Hv]. specialize (Hv Hz).
        split; [apply Z.eqb_eq; exact Hv|]. unfold level, depth. cbn. rewrite Hc. rewrite (Hsame Hv). apply (zombie_depth self); [apply I|exact Hcur|done].
      * unfold interrupted in Hi1. rewrite decide_False in Hi1 by done. left. rewrite <- Ec. apply running_not_zombie. by apply (clocked_entered y1 s' a Hcl Hi1).
    + intros Hp. unfold interrupted in Hi1. rewrite decide_False in Hi1 by (rewrite Em, <- Em2; exact Hp). pose proof (clocked_entered y1 s' a Hcl Hi1) as [? ? ? ? ? ?]. split_and!; [done|by right|by right].
  - unfold interrupted in Hi1. case_decide as E0'; [destruct Hi1 as [Hx _]; change (current y1) with (current y) in Hx; congruence|]. pose proof (clocked_entered y1 s' a Hcl Hi1) as En2. step.
    assert (negb (th_process (thread y2 (current y)) =? NULL) && (Z.land (if_cs (saved y2 a)) 3 =? 3) = true) as ->; [|by apply (wp_on_fault y2 fs hm L pd)].
    apply andb_true_iff. split; [|apply Z.eqb_eq; exact (en_mode _ _ En2)]. apply negb_true_iff, Z.eqb_neq. rewrite <- Ec. exact (en_mine _ _ En2).
Qed.
End events.
