(* ===== verification/SystemSpawn.v ===== *)
(** * Threads and processes: creation and removal *)

From stdpp Require Import gmap.
From S2P Require Import Prelude MemoryHelpers Bytes VmmCore VmmMap VmmSpec VmmTrace Frames KernelVm KernelPages HeapCore HeapSpec HeapStore KernelHeap ThreadStack ThreadStackProps UserVm UserVmTree UserVmOps UserVmLife UserVmSpec UserVmFrame ElfLoad ElfLoadProps SchedCore SchedInv SchedMoves Vfs World WorldInv Devices System Scheduler Process SystemInv SystemSteps SystemEvents.
Open Scope Z_scope.

(** ** The registry of the processes *)

Lemma slot_found (t : process_table) p : registry_ok t -> registry_slot t p <> UTAMO_PROCESS_LIMIT -> pt_registry t !! Z.to_nat (registry_slot t p) = Some p.
Proof.
  intros Hr Hs. apply slot_from_lookup, slot_from_found. unfold registry_slot, UTAMO_PROCESS_LIMIT in Hs. pose proof (slot_from_bound (pt_registry t) p). rewrite (ro_length _ Hr) in *. unfold UTAMO_PROCESS_LIMIT in *. lia.
Qed.

(** An entry of the registry changes from [a] to [b]. *)
Lemma registry_change (t t' : process_table) i a b : registry_ok t -> pt_registry t !! i = Some a -> pt_registry t' = <[i := b]> (pt_registry t) ->
  (b <> NULL -> b ∉ pt_registry t) -> (a <> NULL \/ b <> NULL) -> a = NULL \/ b = NULL ->
  ps_active (pt_stats t') = u64 (ps_active (pt_stats t) + (if b =? NULL then -1 else 1)) -> registry_ok t' /\
  forall q, q <> NULL -> q ∈ pt_registry t' <-> q = b \/ (q ∈ pt_registry t /\ q <> a).
Proof.
  intros Hr Hi E Hb Hab Hor Hact. pose proof (lookup_lt_Some _ _ _ Hi) as Hlen. assert (forall j q, pt_registry t' !! j = Some q <-> (j = i /\ q = b) \/ (j <> i /\ pt_registry t !! j = Some q)) as Hj.
  { intros j q. rewrite E. destruct (decide (j = i)) as [-> |Hne]; [rewrite list_lookup_insert_eq by done|rewrite list_lookup_insert_ne by done]; [|tauto]. split; [intros [= <-]; by left|intros [[_ ->]|[]]; done]. }
  split; [constructor|].
  - by rewrite E, length_insert, (ro_length _ Hr).
  - intros j j' q Hq H1 H2. apply Hj in H1 as [[-> ->]|[N1 H1]]; apply Hj in H2 as [[-> E2]|[N2 H2']]; [done| | |by apply (ro_unique _ Hr _ _ q)].
    + destruct (Hb Hq). by eapply list_elem_of_lookup_2.
    + subst q. destruct (Hb Hq). by eapply list_elem_of_lookup_2.
  - rewrite Hact, E, (count_if_insert _ _ i a b Hi), (ro_active _ Hr). pose proof (count_if_bounds (fun p => negb (p =? NULL)) (pt_registry t)) as Hc. rewrite (ro_length _ Hr) in Hc. unfold UTAMO_PROCESS_LIMIT in Hc.
    assert (a <> NULL -> 0 < count_if (fun p => negb (p =? NULL)) (pt_registry t)) as Hpos.
    { intros Ha. apply (count_if_pos _ _ i a Hi). by rewrite (proj2 (Z.eqb_neq _ _) Ha). }
    destruct (Z.eqb_spec a NULL), (Z.eqb_spec b NULL); cbn [negb]; try (exfalso; tauto); rewrite u64_small by (unfold u64_ok, UINT64_MAX; lia); lia.
  - intros q Hq. rewrite !list_elem_of_lookup. split.
    + intros [j [[_ ->]|[Hne H1]]%Hj]; [by left|right]. split; [by exists j|]. intros ->. apply Hne. by apply (ro_unique _ Hr _ _ a).
    + intros [-> |[[j H1] Hne]]; [exists i; apply Hj; by left|exists j; apply Hj; right; split; [|done]]. intros ->. congruence.
Qed.

(** ** Creation *)

Section spawn.
Context {P : Type} `{PageFramesLaws P} (ly : layout) (Hly : layout_ok ly) (base : Z -> Prop) (nx : bool) (K : gset Z).
Notation S := (system P).
Notation self := (ly_scheduler ly).
Notation inv := (core_inv ly base nx K).
Implicit Types y : S.

(** The running thread and what it was doing are as before. *)
Record steady y y' : Prop := {
  sd_current : current y' = current y;
  sd_thread : thread y' (current y) = thread y (current y);
  sd_running : is_running (y_sched y') (current y) = is_running (y_sched y) (current y);
  sd_depth : st_preempt_depth (node (y_sched y') (current y)) = st_preempt_depth (node (y_sched y) (current y));
  sd_state : mine y <> NULL -> state_of y' (mine y) = state_of y (mine y);
  sd_saved : forall a, on_stack ly y (current y) a -> saved y' a = saved y a;
  sd_cpu : y_cpu y' = y_cpu y
}.

Lemma steady_refl y : steady y y.
Proof. by constructor. Qed.

Lemma steady_mine y y' : steady y y' -> mine y' = mine y.
Proof. intros St. unfold mine, process_at. by rewrite (sd_current _ _ St), (sd_thread _ _ St). Qed.

Lemma steady_stack y y' a : steady y y' -> on_stack ly y' (current y') a <-> on_stack ly y (current y) a.
Proof. intros St. unfold on_stack, stack_bottom, stack_top. by rewrite (sd_current _ _ St), (sd_thread _ _ St). Qed.

Lemma steady_trans y1 y2 y3 : steady y1 y2 -> steady y2 y3 -> steady y1 y3.
Proof.
  intros S1 S2. pose proof (sd_current _ _ S1) as Ec. pose proof (steady_mine _ _ S1) as Em. pose proof (fun a => steady_stack _ _ a S1) as Es. destruct S1, S2. rewrite Ec, ?Em in *. constructor; try congruence.
  - intros Hp. rewrite sd_state1 by done. by apply sd_state0.
  - intros a Ha. rewrite sd_saved1; [by apply sd_saved0|by apply Es].
Qed.

Lemma steady_entered y y' a L : thread_ok ly y L (current y) -> steady y y' -> entered ly y a -> entered ly y' a.
Proof using Hly.
  intros T St En. pose proof (steady_mine _ _ St) as Em. pose proof (proj1 (owned_on ly Hly y L (current y) a T) (en_owned _ _ _ En)) as [Ho _]. destruct En. destruct St. constructor; rewrite ?Em; try done.
  - unfold running. by rewrite sd_current0, sd_running0.
  - unfold level, depth. fold (current y'). rewrite sd_current0, sd_depth0. done.
  - by rewrite sd_state0.
  - rewrite sd_current0. unfold frame_owned, stack_bottom, stack_top. rewrite sd_thread0. done.
  - by rewrite sd_saved0.
Qed.

(** ** New threads *)

(** A field of the thread that is under construction. *)
Lemma inv_unborn y fs hm L pd t r c : inv y fs hm L pd -> pd_thread pd = Some t -> let y' := with_threads (<[t := r]> (y_threads y)) y in inv y' fs hm L pd /\ rest c y y' /\ steady y y'.
Proof.
  intros I Ht y'. pose proof (proj1 (ci_pend _ _ _ _ _ _ _ _ _ I) t Ht) as Hn. pose proof (inv_current _ _ _ _ _ _ _ _ _ I) as Hcur.
  assert (forall q, q ∈ tasks y -> thread y' q = thread y q) as Hth by (intros q Hq; unfold y'; rewrite thread_insert, decide_False; [done|congruence]).
  assert (forall q, is_Some (y_threads y' !! q) <-> is_Some (y_threads y !! q)) as Hdom.
  { intros q. cbn. destruct (decide (q = t)) as [-> |]; [|by rewrite lookup_insert_ne]. rewrite lookup_insert_eq. split; [|done]. intros _. apply I. by right. }
  assert (forall q, q ∈ tasks y -> slot_of y' q = slot_of y q /\ process_at y' q = process_at y q) as Hsp by (intros q Hq; unfold slot_of, process_at; by rewrite Hth).
  split_and!; [|constructor; [|done]; intros q H1 H2 H3; split_and!; [done|done|by apply Hth|done]|constructor; try done; by apply Hth].
  destruct I. constructor; try assumption.
  - intros q Hq. destruct (ci_threads q Hq). destruct (Hsp q Hq) as [E1 E2]. constructor; rewrite ?E1, ?E2, ?(Hth q Hq); done.
  - intros a b Ha Hb H1 H2. rewrite (proj1 (Hsp a Ha)), (proj1 (Hsp b Hb)). by apply ci_slots.
  - intros q Hq Hp. destruct (Hsp q Hq) as [E1 E2]. rewrite E2 in Hp. destruct (ci_owners q Hq Hp). constructor; rewrite ?E2; done.
  - intros a b Ha Hb. rewrite (proj2 (Hsp a Ha)), (proj2 (Hsp b Hb)). by apply ci_single.
  - intros q Hq Hne Hz. rewrite <- (ci_frames q Hq Hne Hz). unfold valid_frame, frame_owned, stack_bottom, stack_top. by rewrite (Hth q Hq).
  - etrans; [exact ci_cr3|]. unfold space_root. change (current y') with (current y). by rewrite (proj2 (Hsp _ Hcur)).
  - intros q. rewrite Hdom. apply ci_objects.
  - intros k. rewrite ci_stacks. split; (intros [(q & Hq & ? & Hk)|]; [left; exists q; by rewrite (proj1 (Hsp q Hq)) in *|by right]).
  - intros q H1 H2. destruct (ci_run q H1 H2) as [|(a & Ha & Ep)]; [by left|right; exists a]. by rewrite (proj2 (Hsp a Ha)).
  - intros q. rewrite Hdom. apply ci_heap.
  - intros q Hq. destruct (ci_apart q Hq) as [Hx Hk]. split; [|done]. apply eq_None_not_Some. rewrite Hdom, Hx. by intros [].
  - intros q. rewrite Hdom. apply ci_others.
  - destruct ci_pend as [Hp1 Hp2]. split; [done|]. intros k q Hk Hq Hb. rewrite (proj1 (Hsp q Hq)). by apply (Hp2 k q).
Qed.

Lemma wp_unborn y fs hm L pd t f c (Q : unit -> S -> Prop) : inv y fs hm L pd -> pd_thread pd = Some t ->
  (let y' := with_threads (<[t := f (thread y t)]> (y_threads y)) y in inv y' fs hm L pd -> rest c y y' -> steady y y' -> thread y' t = f (thread y t) -> Q tt y') -> wp (set_thread t f) Q y.
Proof.
  intros I Ht HQ. destruct (inv_unborn y fs hm L pd t (f (thread y t)) c I Ht) as (I' & R' & S'). unfold set_thread. cbn [wp modify]. apply HQ; [done|done|done|]. by rewrite thread_insert, decide_True.
Qed.

(** The other threads, the running one, and the processes. *)
Definition same_procs y y' : Prop := y_procs y' = y_procs y /\ y_table y' = y_table y /\ y_vfs y' = y_vfs y /\ y_files y' = y_files y.
Definition kept y y' : Prop := rest (current y) y y' /\ steady y y' /\ same_procs y y'.

Lemma kept_self y : kept y y.
Proof. split_and!; [apply rest_refl|apply steady_refl|by split_and!]. Qed.

Lemma kept_then y1 y2 y3 : kept y1 y2 -> kept y2 y3 -> kept y1 y3.
Proof.
  intros (R1 & S1 & E1 & E2 & E3 & E4) (R2 & S2 & F1 & F2 & F3 & F4). rewrite (sd_current _ _ S1) in R2. split_and!; [by eapply rest_trans|by eapply steady_trans|]. split_and!; congruence.
Qed.

Lemma kept_world y w' : rest (current y) y (with_world w' y) -> kept y (with_world w' y).
Proof. intros R. split_and!; [done|by constructor|by split_and!]. Qed.

Lemma zero_delete {V} `{Inhabited V} (m : gmap Z V) a b : a <> b -> delete b m !!! a = m !!! a.
Proof. intros Hne. by rewrite lookup_total_delete_ne. Qed.

Lemma kept_buried y w' t : t <> current y -> rest (current y) y (buried w' t y) -> kept y (buried w' t y).
Proof.
  intros Ht R. split_and!; [done| |by split_and!]. constructor; try done.
  - unfold thread. cbn. by apply zero_delete, not_eq_sym.
  - unfold is_running, node. cbn. by rewrite zero_delete by (by apply not_eq_sym).
  - unfold node. cbn. by rewrite zero_delete by (by apply not_eq_sym).
Qed.

Lemma kept_born y w' t : t <> current y -> rest (current y) y (born w' t y) -> kept y (born w' t y).
Proof.
  intros Ht R. split_and!; [done| |by split_and!]. constructor; try done.
  - unfold thread. cbn. by rewrite lookup_total_insert_ne.
  - unfold is_running, node. cbn. by rewrite lookup_total_insert_ne.
  - unfold node. cbn. by rewrite lookup_total_insert_ne.
Qed.

(** The answer of both ways to make a thread. *)
Definition made y pd (owner : Z) (r : option Z) y' : Prop := kept y y' /\ sys_inv ly base nx K y' pd /\ (forall a, a ∈ tasks y -> thread y' a = thread y a) /\
  match r with None => tasks y' = tasks y | Some _ => exists t, tasks y' ≡ₚ t :: tasks y /\ t ∉ tasks y /\ process_at y' t = owner end.

Lemma wp_add_thread y fs hm L pd t k anchor (Q : option Z -> S -> Prop) : inv y fs hm L (MkPending (Some t) (Some k) pd) -> t <> NULL -> node (y_sched y) t = task_zero -> on_stack ly y (current y) anchor ->
  th_stack (thread y t) = descriptor k (generation y k) -> th_dynamic (thread y t) = true -> valid_frame ly y t (th_frame (thread y t)) = true ->
  (process_at y t <> NULL -> pd = Some (process_at y t) /\ uv_initialized (pr_vm (proc y (process_at y t))) = true /\
     pr_state (proc y (process_at y t)) = UTAMO_PROCESS_READY /\ arch_user_ready y = true /\ forall a, a ∈ tasks y -> process_at y a <> process_at y t) ->
  (forall r y', made y (MkPending None None pd) (process_at y t) r y' -> Q r y') -> wp (add_thread ly anchor t) Q y.
Proof using Hly.
  intros I Ht0 Hz Ha Hst Hdyn Hval Hproc HQ. unfold add_thread. set (pd0 := MkPending (Some t) (Some k) pd) in *. destruct (pending_static ly base nx K y fs hm L pd0 t I eq_refl) as (Hnt & _). pose proof (inv_current _ _ _ _ _ _ _ _ _ I) as Hcur. assert (t <> current y) as Htc by congruence.
  destruct (add_moved self (lo_self _ Hly) (y_sched y) t (ci_sched _ _ _ _ _ _ _ _ _ I) Ht0 Hz) as (s' & b & Es & Hf & Htrue). step. apply (wp_scheduler _ _ _ _ _ Es). destruct b; cbn [negb].
  - destruct (Htrue eq_refl) as (Hok & _ & Hreg & Hi & Hc & Hn & Hzt & Hsame & _). destruct (inv_add ly base nx K y fs hm L pd0 t k s' (current y) I eq_refl eq_refl Hst Hdyn Hval Hproc Hok Hreg Hi Hc Hn Hzt) as [I' R']; [intros a Hin; by apply Hsame|].
    set (y1 := with_sched s' y) in *. step. step. destruct (inv_statics ly base nx K y1 fs hm L (MkPending None None pd) (count_created (y_statics y1)) (current y) I' eq_refl eq_refl) as [I2 R2]. apply HQ. destruct (Hsame _ Hcur) as [Hs1 Hs2]. split_and!.
    + split_and!; [by eapply rest_trans| |by split_and!]. constructor; try done. cbn. unfold is_running. by rewrite Hs1.
    + by exists fs, hm, L.
    + done.
    + exists t. by split_and!.
  - rewrite (Hf eq_refl) in *. assert (with_sched (y_sched y) y = y) as -> by (by destruct y). step. rewrite Hst. step. apply (wp_stack_free ly Hly base nx K y fs hm L pd0 (current y) k anchor); [done|done|done|]. intros w' y1 I1 R1. step. apply wp_require; [done|]. step.
    apply (wp_unborn y1 fs hm (delete k L) (MkPending (Some t) None pd) t (set_stack thread_stack_zero) (current y)); [done|done|]. intros y2 I2 R2 S2 E2. step. apply (wp_free_thread ly base nx K y2 fs hm (delete k L) (MkPending (Some t) None pd) t (current y)); [done|done|]. intros w2 fs2 I3 R3 _. step. apply wp_require; [done|]. cbn. apply HQ.
    split_and!; [|by exists fs2, (delete t hm), (delete k L)| |done]; cycle 1. { intros b Hb. assert (t <> b) by congruence. unfold thread. cbn. by rewrite lookup_total_delete_ne, lookup_total_insert_ne. }
    apply (kept_then y y1); [by apply kept_world|]. apply (kept_then y1 y2); [by split_and!|]. by apply kept_buried.
Qed.

(** A thread object with a stack and a first frame, not yet registered. *)
Record stacked y y' (pd : option Z) (t k entry : Z) : Prop := {
  sk_kept : kept y y';
  sk_inv : sys_inv ly base nx K y' (MkPending (Some t) (Some k) pd);
  sk_null : t <> NULL;
  sk_new : t ∉ tasks y;
  sk_thread : thread y' t = set_threads_frame (guard_at k + 69632 - 192) (set_stack (descriptor k (generation y' k)) thread_zero);
  sk_task : node (y_sched y') t = task_zero;
  sk_tasks : tasks y' = tasks y;
  sk_others : forall a, a ∈ tasks y -> thread y' a = thread y a;
  sk_frame : first_frame_at y' (descriptor k (generation y' k)) (guard_at k + 69632 - 192) = first_frame (guard_at k + 69632) entry
}.

Lemma first_frame_words (mem : Z -> Z -> Z) (m0 : Z -> Z -> Z) f top entry sentinel : (forall i, mem f i = first_words m0 f top entry sentinel f i) -> frame_at mem f 488 = first_frame top entry.
Proof. intros Hm. unfold frame_at. rewrite !Hm. unfold first_words. rewrite Z.eqb_refl. done. Qed.

(** The frame in the memory of the stack, read as an object. *)
Lemma frame_found y k g f flags (m0 : Z -> Z -> Z) entry : 0 <= k < 64 -> vmm_query_page (w_kernel (y_world y)) (guard_at k + 69632 - 4096) = Some (MkMapping true f flags 4096) ->
  (forall i, w_mem (y_world y) f i = first_words m0 f (guard_at k + 69632) entry (ly_cpu_halt ly) f i) -> first_frame_at y (descriptor k g) (guard_at k + 69632 - 192) = first_frame (guard_at k + 69632) entry.
Proof.
  intros Hk Hq Hm. unfold first_frame_at. cbn [ts_top descriptor]. destruct (guard_facts k Hk) as (_ & _ & Hlo & Hhi). unfold VMM_DYNAMIC_BASE, MEMORY_PAGE_SIZE in *. rewrite !u64_small by (unfold u64_ok, UINT64_MAX; lia || (rewrite u64_small by (unfold u64_ok, UINT64_MAX; lia); lia)).
  rewrite Hq. cbn [vp_physical]. replace ((guard_at k + 69632 - 192 - (guard_at k + 69632 - 4096)) / 8) with 488 by (replace (guard_at k + 69632 - 192 - (guard_at k + 69632 - 4096)) with 3904 by lia; done). by apply (first_frame_words _ m0 _ _ _ (ly_cpu_halt ly)).
Qed.

Lemma wp_stacked y fs hm L pd (entry : Z) (kont : Z -> thread_stack -> Z -> Sys P (option Z)) (Q : option Z -> S -> Prop) : inv y fs hm L (MkPending None None pd) ->
  memory_is_canonical entry = true -> entry <> 0 -> (forall y' owner, made y (MkPending None None pd) owner None y' -> Q None y') ->
  (forall y' t k, stacked y y' pd t k entry -> wp (kont t (descriptor k (generation y' k)) (guard_at k + 69632 - 192)) Q y') ->
  wp (t ← new_thread;
      if t =? NULL then mret None
      else
        stack ← machine stack_alloc;
        match stack with
        | None => ok ← free_thread t; _ ← require ok; mret None
        | Some s =>
            _ ← set_thread t (set_stack s);
            frame ← machine (stack_frame s entry (ly_cpu_halt ly));
            match frame with
            | None => PANIC
            | Some a => _ ← set_thread t (set_threads_frame a); kont t s a
            end
        end) Q y.
Proof using Hly.
  intros I He1 He2 HN HS. destruct (lo_halt _ Hly) as [Hh1 Hh2]. pose proof (inv_current _ _ _ _ _ _ _ _ _ I) as Hcur. step. apply (wp_new_thread ly Hly base nx K y fs hm L _ (current y) _ I eq_refl).
  { intros w' fs' I' R'. cbn. apply (HN _ 0). split_and!; [by apply kept_world|by exists fs', hm, L|done|done]. }
  intros w1 fs1 hm1 t I1 R1 Ht0 Hnt Es1. rewrite (proj2 (Z.eqb_neq _ _) Ht0). set (y1 := born w1 t y) in *. assert (t <> current y) as Htc by congruence. pose proof (kept_born y w1 t Htc R1) as Kp1. fold y1 in Kp1.
  step. apply (wp_stack_alloc ly base nx K y1 fs1 hm1 L _ (current y) _ I1 eq_refl).
  { intros w2 y2 I2 R2. step. apply (wp_free_thread ly base nx K y2 fs1 hm1 L _ t (current y) _ I2 eq_refl). intros w3 fs3 I3 R3 _. step. apply wp_require; [done|]. cbn. apply (HN _ 0).
    split_and!; [|by exists fs3, (delete t hm1), L| |done]; cycle 1. { intros b Hb. assert (t <> b) by congruence. unfold thread. cbn. by rewrite lookup_total_delete_ne, lookup_total_insert_ne. }
    apply (kept_then y y1); [done|]. apply (kept_then y1 y2); [by apply kept_world|]. by apply kept_buried. }
  intros w2 k gs y2 I2 R2 Hk. assert (kept y y2) as Kp2 by (apply (kept_then y y1); [done|by apply kept_world]). step.
  apply (wp_unborn y2 fs1 hm1 _ _ t (set_stack (descriptor k (generation y2 k))) (current y) _ I2 eq_refl). intros y3 I3 R3 S3 E3. assert (kept y y3) as Kp3 by (apply (kept_then y y2); [done|by split_and!]).
  step. apply (wp_stack_frame ly base nx K y3 fs1 hm1 _ _ (current y) k entry (ly_cpu_halt ly) _ I3 eq_refl He1 He2 Hh1 Hh2). intros w4 f flags y4 I4 R4 Es4 Hq Hm. assert (kept y y4) as Kp4 by (apply (kept_then y y3); [done|apply kept_world; by rewrite (sd_current _ _ (proj1 (proj2 Kp3)))]).
  step. apply (wp_unborn y4 fs1 hm1 _ _ t (set_threads_frame (guard_at k + 69632 - 192)) (current y) _ I4 eq_refl). intros y5 I5 R5 S5 E5. assert (generation y5 k = generation y2 k) as Eg by (unfold generation; cbn; rewrite Es4; done).
  rewrite <- Eg. apply HS. constructor.
  - apply (kept_then y y4); [done|]. split_and!; [by rewrite (sd_current _ _ (proj1 (proj2 Kp4)))|done|by split_and!].
  - by exists fs1, hm1, (<[k := gs]> L).
  - done.
  - done.
  - rewrite E5. change (thread y4 t) with (thread y3 t). rewrite E3, Eg. f_equal. f_equal. unfold thread, y2, y1. cbn. by rewrite lookup_total_insert_eq.
  - unfold node. cbn. by rewrite lookup_total_insert_eq.
  - done.
  - intros b Hb. assert (t <> b) by congruence. unfold thread. cbn. by rewrite !lookup_total_insert_ne.
  - by apply (frame_found y5 k _ f flags (w_mem (y_world y3)) entry Hk).
Qed.

(** The stack of the pending slot is nobody's. *)
Lemma pending_apart y fs hm L pd k t a : inv y fs hm L pd -> pd_slot pd = Some k -> stack_range k a -> t ∈ tasks y -> ~ on_stack ly y t a.
Proof using Hly.
  intros I Hk Hr Ht Ha. destruct (pending_descriptor ly base nx K y fs hm L pd k I Hk) as (Hk' & _). pose proof (ci_threads _ _ _ _ _ _ _ _ _ I t Ht) as T. destruct (decide (t = ly_bootstrap ly)) as [-> |Hb].
  - apply boot_outside in Ha. by apply (lo_apart _ Hly k a).
  - apply (proj2 (ci_pend _ _ _ _ _ _ _ _ _ I) k t Hk Ht Hb). apply (slot_of_address _ _ a); [by eapply stack_inside|done].
Qed.

Lemma first_frame_place k : 0 <= k < 64 -> let a := guard_at k + 69632 - 192 in stack_range k a /\ guard_at k + 4096 <= a <= guard_at k + 69632 - 176 /\ Z.land a 7 = 0 /\ a <> 0 /\ u64_ok (guard_at k + 69632 - 176).
Proof.
  clear base.
  intros Hk. destruct (guard_facts k Hk) as (_ & Hm & Hlo & Hhi). unfold stack_range, VMM_DYNAMIC_BASE, u64_ok, UINT64_MAX in *. cbv zeta. split_and!; try lia.
  change 7 with (Z.ones 3). rewrite Z.land_ones by lia. change (2 ^ 3) with 8. dlia.
Qed.

(** The first frame of a thread that is not registered yet. *)
Lemma wp_first_frame y fs hm L pd k a f (Q : unit -> S -> Prop) : inv y fs hm L pd -> pd_slot pd = Some k -> stack_range k a ->
  (let y' := with_saved (<[a := f]> (y_saved y)) y in inv y' fs hm L pd -> kept y y' -> saved y' a = f -> Q tt y') -> wp (modify (fun y => with_saved (<[a := f]> (y_saved y)) y)) Q y.
Proof using Hly.
  intros I Hk Hr HQ. destruct (inv_saved ly Hly base nx K y fs hm L pd a f I) as [I' R']; [intros t Ht _; by eapply pending_apart|]. cbn [wp modify]. apply HQ; [done| |by rewrite saved_insert, decide_True].
  split_and!; [done| |by split_and!]. constructor; try done. intros b Hb. rewrite saved_insert, decide_False; [done|]. intros ->. apply (pending_apart y fs hm L pd k (current y) a I Hk Hr); [by eapply inv_current|done].
Qed.

(** The first frame is one that the scheduler takes. *)
Lemma first_valid y t k g : 0 <= k < 64 -> t <> ly_bootstrap ly -> th_stack (thread y t) = descriptor k g -> let f := saved y (guard_at k + 69632 - 192) in
  (if th_process (thread y t) =? NULL then (if_cs f =? 8) && (if_ss f =? 16) && negb (Z.land (if_rflags f) 2 =? 0) && (Z.land (if_rflags f) 0x7000 =? 0) &&
     (guard_at k + 4096 <=? if_rsp f) && (if_rsp f <=? guard_at k + 69632) && memory_is_canonical (if_rip f) && (0xffff800000000000 <=? if_rip f) else process_user_return_valid f) = true ->
  valid_frame ly y t (guard_at k + 69632 - 192) = true.
Proof.
  clear base.
  intros Hk Hb E f Hf. destruct (first_frame_place k Hk) as (Hr & Hbd & H7 & Hn & Hu). unfold valid_frame, frame_owned, stack_bottom, stack_top. rewrite (proj2 (Z.eqb_neq _ _) Hb), E. cbn [th_stack ts_base ts_top descriptor]. unfold FRAME_BYTES. rewrite (u64_small (guard_at k + 69632 - 176)) by done.
  fold f. rewrite H7. assert (negb ((guard_at k + 69632 - 192 =? NULL) || (guard_at k + 69632 <=? guard_at k + 4096) || (guard_at k + 69632 - 192 <? guard_at k + 4096) || (guard_at k + 69632 - 176 <? guard_at k + 69632 - 192) || negb (0 =? 0)) = true) as -> by (unfold NULL in *; lia).
  cbn [negb]. by destruct (th_process _ =? NULL).
Qed.

Lemma kernel_first y t k g entry : 0 <= k < 64 -> t <> ly_bootstrap ly -> th_stack (thread y t) = descriptor k g -> th_process (thread y t) = NULL -> memory_is_canonical entry = true -> 0xffff800000000000 <= entry ->
  saved y (guard_at k + 69632 - 192) = first_frame (guard_at k + 69632) entry -> valid_frame ly y t (guard_at k + 69632 - 192) = true.
Proof.
  clear base.
  intros Hk Hb E Hp H1 H2 Es. apply (first_valid y t k g Hk Hb E). rewrite Hp, Es, Z.eqb_refl. cbn [first_frame if_cs if_ss if_rflags if_rsp if_rip]. rewrite H1, !andb_true_iff, !Z.leb_le. split_and!; try done; lia.
Qed.

Lemma made_kept y y1 pd owner r y' : kept y y1 -> tasks y1 = tasks y -> (forall a, a ∈ tasks y -> thread y1 a = thread y a) -> made y1 pd owner r y' -> made y pd owner r y'.
Proof.
  intros Kp Et Hth (K2 & I2 & H2 & Hr). split_and!; [by eapply kept_then|done| |by rewrite <- Et]. intros a Ha. rewrite <- Hth by done. apply H2. by rewrite Et.
Qed.

(** From the first frame to the registry. *)
Lemma wp_publish y y1 pd t k entry h f g r anchor (Q : option Z -> S -> Prop) : stacked y y1 pd t k entry -> on_stack ly y (current y) anchor ->
  h y1 = with_saved (<[guard_at k + 69632 - 192 := f]> (y_saved y1)) y1 -> g (thread y1 t) = r ->
  same_identity (MkThread (descriptor k (generation y1 k)) 0 0 0 [] true (th_process r)) r -> th_frame r = guard_at k + 69632 - 192 ->
  (if th_process r =? NULL then (if_cs f =? 8) && (if_ss f =? 16) && negb (Z.land (if_rflags f) 2 =? 0) && (Z.land (if_rflags f) 0x7000 =? 0) &&
     (guard_at k + 4096 <=? if_rsp f) && (if_rsp f <=? guard_at k + 69632) && memory_is_canonical (if_rip f) && (0xffff800000000000 <=? if_rip f) else process_user_return_valid f) = true ->
  (th_process r <> NULL -> pd = Some (th_process r) /\ uv_initialized (pr_vm (proc y (th_process r))) = true /\
     pr_state (proc y (th_process r)) = UTAMO_PROCESS_READY /\ arch_user_ready y = true /\ forall a, a ∈ tasks y -> process_at y a <> th_process r) ->
  (forall i y', made y (MkPending None None pd) (th_process r) i y' -> Q i y') ->
  wp (_ ← modify h; _ ← set_thread t g; add_thread ly anchor t) Q y1.
Proof using Hly.
  intros [Kp (fs & hm & L & I) H0' Hnew Ht Hz Htk Hth _] Ha Eh Eg (E1 & E2 & E3) Ef Hf Hp HQ. destruct (pending_descriptor ly base nx K y1 fs hm L _ k I eq_refl) as (Hk & _). destruct (first_frame_place k Hk) as (Hr & Hb & H7 & Hn & Hu).
  apply sys_wp_bind. change (wp (_ ← set_thread t g; add_thread ly anchor t) Q (h y1)). rewrite Eh. refine (wp_first_frame y1 fs hm L _ k _ f (fun _ => wp (_ ← set_thread t g; add_thread ly anchor t) Q) I eq_refl Hr _). intros y2 I2 K2 E. step. apply (wp_unborn y2 fs hm L _ t g (current y2) _ I2 eq_refl). change (thread y2 t) with (thread y1 t). rewrite Eg. intros y3 I3 R3 S3 E4. assert (kept y1 y3) as K3 by (apply (kept_then y1 y2); [done|by split_and!]).
  assert (kept y y3) as K4 by (by eapply kept_then). pose proof K4 as (R4 & S4 & Ep & _ & _ & _). assert (t <> ly_bootstrap ly) as Hbt by (apply (pending_static ly base nx K y1 fs hm L _ t I eq_refl)).
  assert (process_at y3 t = th_process r) as Et by (unfold process_at; by rewrite E4).
  apply (wp_add_thread y3 fs hm L pd t k anchor); [done|done|exact Hz|by apply (steady_stack y)|rewrite E4; done|rewrite E4; done| | |].
  - rewrite E4, Ef. apply (first_valid y3 t k (generation y1 k)); [done|done|by rewrite E4|]. rewrite E4. change (saved y3 (guard_at k + 69632 - 192)) with (saved y2 (guard_at k + 69632 - 192)). rewrite E. exact Hf.
  - rewrite Et. intros Hne. destruct (Hp Hne) as (H1 & H2 & H3 & H4 & H5). unfold proc in *. rewrite Ep. split_and!; [done|done|done|unfold arch_user_ready in *; by rewrite (sd_cpu _ _ S4)|]. intros a Hin. change (tasks y3) with (tasks y1) in Hin. rewrite Htk in Hin.
    unfold process_at, y3. rewrite thread_insert, decide_False by congruence. change (thread y2 a) with (thread y1 a). rewrite Hth by done. by apply H5.
  - rewrite Et. intros i y' Hm. apply HQ. apply (made_kept y y3); [done|done| |done]. intros a Hin. unfold y3. rewrite thread_insert, decide_False by congruence. by apply Hth.
Qed.

Lemma made_self y fs hm L pd owner : inv y fs hm L pd -> made y pd owner None y.
Proof. intros I. split_and!; [apply kept_self|by exists fs, hm, L|done|done]. Qed.

Lemma wp_create_user y fs hm L p iflag anchor name entry rsp argument (Q : option Z -> S -> Prop) : inv y fs hm L (MkPending None None (Some p)) -> on_stack ly y (current y) anchor ->
  state_of y p = UTAMO_PROCESS_READY -> (forall a, a ∈ tasks y -> process_at y a <> p) ->
  (forall r y', made y (MkPending None None (Some p)) p r y' -> Q r y') -> wp (scheduler_create_user ly iflag anchor name p entry rsp argument) Q y.
Proof using Hly.
  intros I Ha Hs Hno HQ. unfold scheduler_create_user. step. match goal with |- context [negb ?b] => destruct b eqn:Eb end; cbn [negb]; [|apply HQ; by eapply made_self]. assert (arch_user_ready y = true /\ negb (p =? NULL) = true /\ uv_initialized (pr_vm (proc y p)) = true) as (Hcpu & Hp0 & Hi) by (revert Eb; rewrite !andb_true_iff; tauto).
  set (initial := MkFrame 0 0 0 0 0 0 0 0 0 argument 0 0 0 0 0 0 0 entry UTAMO_GDT_USER_CODE_SELECTOR 0x202 rsp UTAMO_GDT_USER_DATA_SELECTOR). destruct (process_user_return_valid initial) eqn:Ev; cbn [negb]; [|apply HQ; by eapply made_self].
  assert (memory_is_canonical entry = true /\ (USER_VM_MIN <=? entry) = true) as [He1 He2] by (revert Ev; unfold process_user_return_valid; cbn [if_rip if_rsp initial]; rewrite !andb_true_iff; tauto).
  assert (entry <> 0) as He3 by (intros ->; done).
  apply (wp_stacked y fs hm L (Some p) entry (fun t s a => _ ← set_saved a (fun _ => initial); _ ← set_thread t (publish_thread name 0 0 p); add_thread ly anchor t) Q I He1 He3).
  - intros y' owner Hm. by apply HQ.
  - intros y1 t k Hst. apply (wp_publish y y1 (Some p) t k entry _ initial (publish_thread name 0 0 p) (publish_thread name 0 0 p (thread y1 t)) anchor Q Hst Ha); [done|done|by rewrite (sk_thread _ _ _ _ _ _ Hst)|by rewrite (sk_thread _ _ _ _ _ _ Hst)| | |exact HQ].
    + cbn [th_process publish_thread]. apply negb_true_iff in Hp0. rewrite Hp0. done.
    + intros _. by split_and!.
Qed.

Lemma wp_thread_create y fs hm L iflag anchor name entry argument (Q : option Z -> S -> Prop) : inv y fs hm L none -> on_stack ly y (current y) anchor ->
  (forall r y', made y none NULL r y' -> Q r y') -> wp (thread_create ly iflag anchor name entry argument) Q y.
Proof using Hly.
  intros I Ha HQ. unfold thread_create. step. match goal with |- context [negb ?b] => destruct b eqn:Eb end; cbn [negb]; [|apply HQ; by eapply made_self]. destruct (lo_entry _ Hly) as [He1 He2].
  apply (wp_stacked y fs hm L None (ly_thread_bootstrap ly) (fun t s a => _ ← modify (fun y => with_saved (<[a := first_frame_at y s a]> (y_saved y)) y); _ ← set_thread t (publish_thread name entry argument NULL); add_thread ly anchor t) Q I He1); [lia| |].
  - intros y' owner Hm. by apply HQ.
  - intros y1 t k Hst. apply (wp_publish y y1 None t k (ly_thread_bootstrap ly) _ (first_frame (guard_at k + 69632) (ly_thread_bootstrap ly)) (publish_thread name entry argument NULL) (publish_thread name entry argument NULL (thread y1 t)) anchor Q Hst Ha);
      [by rewrite (sk_frame _ _ _ _ _ _ Hst)|done|by rewrite (sk_thread _ _ _ _ _ _ Hst)|by rewrite (sk_thread _ _ _ _ _ _ Hst)| |done|exact HQ].
    cbn [th_process publish_thread]. rewrite Z.eqb_refl. cbn [first_frame if_cs if_ss if_rflags if_rsp if_rip]. rewrite He1, !andb_true_iff, !Z.leb_le. split_and!; try done; lia.
Qed.

(** ** Address spaces that are not loaded *)

Lemma root_frame (m : vm (ustate P)) A : uvm_inv m A -> vs_root_phys (uv_space (obj m)) ∈ vm_frames (obj m) /\ Z.land (vs_root_phys (uv_space (obj m))) (vs_physical_mask (uv_space (obj m))) = vs_root_phys (uv_space (obj m)).
Proof.
  intros Hi. pose proof (ui_tree _ _ Hi) as Ht. split.
  - rewrite (live_frames m A Hi), (frames_of_in m A _ Hi). right. by eapply tree_root.
  - destruct Ht as (low & _ & Hr). exact (proj2 (@vi_root _ _ (user_laws (data (uv_pages (obj m)))) _ _ (@vr_inv _ _ (user_laws (data (uv_pages (obj m)))) _ _ _ Hr))).
Qed.

Lemma owned_root y fs hm L pd p x : inv y fs hm L pd -> y_procs y !! p = Some x -> uv_initialized (pr_vm x) = true ->
  let r := vs_root_phys (uv_space (pr_vm x)) in owns base fs L (pr_vm <$> y_procs y) (OVm p) r /\ Z.land r (vs_physical_mask (uv_space (pr_vm x))) = r /\
  vs_physical_mask (uv_space (pr_vm x)) = vs_physical_mask (kspace (w_kernel (y_world y))).
Proof.
  intros I Hx Hi r. destruct (live_view ly base nx K y fs hm L pd p x I Hx Hi) as [A Ha]. destruct (root_frame _ A Ha) as [H1 H2]. cbn in H1, H2. assert ((pr_vm <$> y_procs y) !! p = Some (pr_vm x)) as Hu by (by rewrite lookup_fmap, Hx).
  split_and!; [by exists (pr_vm x)|done|]. pose proof (wi_masks _ _ _ _ _ _ _ (ci_world _ _ _ _ _ _ _ _ _ I) p _ Hu Hi) as Hm. destruct (ci_kernel _ _ _ _ _ _ _ _ _ I) as [_ Hk]. unfold space_mask in Hm. rewrite Hk in Hm. by injection Hm.
Qed.

(** CR3 holds the kernel's tables or those of the running process. *)
Lemma cr3_root y fs hm L pd : inv y fs hm L pd -> let c := Z.land (w_cr3 (y_world y)) (vs_physical_mask (kspace (w_kernel (y_world y)))) in
  pinned (w_frames (y_world y)) c \/ (mine y <> NULL /\ owns base fs L (pr_vm <$> y_procs y) (OVm (mine y)) c).
Proof.
  intros I. cbv zeta. rewrite (ci_cr3 _ _ _ _ _ _ _ _ _ I). unfold space_root. fold (mine y). destruct (Z.eqb_spec (mine y) NULL) as [E|E].
  - left. destruct (ci_kernel _ _ _ _ _ _ _ _ _ I) as [Hr _]. rewrite Hr. pose proof (wi_kernel _ _ _ _ _ _ _ (ci_world _ _ _ _ _ _ _ _ _ I)) as Kv. apply (table_pinned _ 4 _ 0 Kv). apply reach_root.
  - right. split; [done|]. destruct (mine_live ly base nx K y fs hm L pd I E) as (x & Hx & Hi). rewrite (proc_lookup y _ x Hx). destruct (owned_root y fs hm L pd (mine y) x I Hx Hi) as (Ho & Hl & Em). by rewrite <- Em, Hl.
Qed.

Lemma not_loaded y fs hm L pd p x : inv y fs hm L pd -> y_procs y !! p = Some x -> uv_initialized (pr_vm x) = true -> mine y <> p -> loaded (user_view (y_world y) (pr_vm x)) = false.
Proof.
  intros I Hx Hi Hp. unfold loaded. cbn. apply Z.eqb_neq. destruct (owned_root y fs hm L pd p x I Hx Hi) as (Ho & Hl & Em). rewrite Em. pose proof (ci_world _ _ _ _ _ _ _ _ _ I) as W. intros E. destruct (cr3_root y fs hm L pd I) as [Hn|[Hm Hq]].
  - assert (kloose (vm_ctx (w_kernel (y_world y))) (vs_root_phys (uv_space (pr_vm x)))) as [_ Hl'] by (apply (wi_held _ _ _ _ _ _ _ W); by exists (OVm p)). rewrite E in Hn. destruct Hn as (_ & _ & Hn). unfold w_frames, kframes in Hn. congruence.
  - rewrite E in Hq. apply (owner_apart base _ _ _ _ _ _ (OVm (mine y)) (OVm p) _ W) in Hq; [done|congruence].
Qed.

(** A new space does not use the tables that are loaded. *)
Lemma create_not_loaded y fs hm L pd p x : inv y fs hm L pd -> y_procs y !! p = Some x -> uv_initialized (pr_vm x) = false ->
  let r := user_vm_create (kernel_vmm_of y) (user_view (y_world y) (pr_vm x)) in snd r = true -> loaded (fst r) = false.
Proof.
  intros I Hx Hi r Hr. pose proof (fresh_view ly base nx K y fs hm L pd p x I Hx Hi) as Hf. destruct (create_step (kernel_vmm_of y) _ Hf) as [St Hc]. fold r in St, Hc. rewrite Hr in Hc. destruct Hc as [[A Ha] Hm].
  destruct (root_frame _ A Ha) as [Hin _]. destruct (ci_kernel _ _ _ _ _ _ _ _ _ I) as [_ Hk]. unfold space_mask, kernel_vmm_of in Hm. rewrite Hk in Hm. injection Hm as Em. unfold loaded. apply Z.eqb_neq. rewrite (vp_cr3 _ _ St), <- Em. cbn [user_view vm_ctx us_cr3]. intros E.
  set (m := user_view (y_world y) (pr_vm x)) in *. pose proof (state_frames _ _ (vp_state _ _ St) Hin) as [_ Hal]. destruct (cr3_root y fs hm L pd I) as [Hn|[_ Ho]]; rewrite E in *.
  - destruct (vp_pins _ _ St _ Hn) as ((_ & _ & Hna) & _). congruence.
  - assert (allocated (vm_ctx m) (vs_root_phys (uv_space (obj (fst r))))) as Hb by (apply (wi_held _ _ _ _ _ _ _ (ci_world _ _ _ _ _ _ _ _ _ I)); by eexists).
    apply (fresh_elsewhere m _ Hf) in Hb. by apply (vp_keep _ _ St) in Hb as [_ Hb].
Qed.

(** ** Preemption around a creation *)

(** [y1] is [y] with preemption disabled once more. *)
Record disabled y y1 : Prop := {
  db_state : exists s', y1 = with_sched s' y /\ moved self (y_sched y) s' /\ sc_current (s_core s') = current y;
  db_running : running y1;
  db_level : level y1 = level y + 1;
  db_rest : rest (current y) y y1
}.

Lemma wp_disable y fs hm L pd (Q : unit -> S -> Prop) : inv y fs hm L pd -> running y -> level y < UINT32_MAX ->
  (forall y1, inv y1 fs hm L pd -> disabled y y1 -> Q tt y1) -> wp (preempt_disable ly) Q y.
Proof.
  intros I Hr Hl HQ. unfold preempt_disable. step. rewrite (ci_ready _ _ _ _ _ _ _ _ _ I). destruct (disable_moved self (y_sched y) (ci_sched _ _ _ _ _ _ _ _ _ I) Hr Hl) as (s' & Es & M & Hc & Hn & Hr' & Hd). step. apply (wp_scheduler _ _ _ _ _ Es). apply wp_require; [done|].
  destruct (inv_moved ly base nx K y s' fs hm L pd (current y) I M Hc) as [I' R']; [rewrite Hn; apply I|]. apply HQ; [done|]. constructor; [by exists s'| |done|done]. unfold running. change (current (with_sched s' y)) with (sc_current (s_core s')). rewrite Hc. exact Hr'.
Qed.

Lemma wp_enable y fs hm L pd iflag (Q : bool -> S -> Prop) : inv y fs hm L pd -> running y -> level y <> 0 ->
  (forall s' b, let y1 := with_sched s' y in inv y1 fs hm L pd -> rest (current y) y y1 -> current y1 = current y -> running y1 -> level y1 = level y - 1 -> Q b y1) -> wp (preempt_enable ly iflag) Q y.
Proof.
  intros I Hr Hl HQ. unfold preempt_enable. step. rewrite (ci_ready _ _ _ _ _ _ _ _ _ I). cbn [negb]. destruct (enable_moved self (y_sched y) (ci_sched _ _ _ _ _ _ _ _ _ I) Hr Hl) as (s' & Es & M & Hc & Hn & Hr' & Hd). step. apply (wp_scheduler _ _ _ _ _ Es). step. apply wp_require; [done|]. cbn [wp gets].
  destruct (inv_moved ly base nx K y s' fs hm L pd (current y) I M Hc) as [I' R']; [rewrite Hn; apply I|]. apply HQ; [done|done|done| |done]. unfold running. change (current (with_sched s' y)) with (sc_current (s_core s')). rewrite Hc. exact Hr'.
Qed.

Definition spawned y y' : Prop := sys_inv ly base nx K y' none /\ rest (current y) y y' /\ steady y y'.

Lemma disabled_mine y y1 : disabled y y1 -> current y1 = current y /\ mine y1 = mine y /\ forall t, thread y1 t = thread y t.
Proof. intros [(s' & -> & _ & Hc) _ _ _]. assert (current (with_sched s' y) = current y) as Ec by exact Hc. split_and!; [done|unfold mine; by rewrite Ec|done]. Qed.

(** The end: preemption is as it was. *)
Lemma wp_spawn_end {A} y y1 y2 iflag (r : A) (Q : A * bool -> S -> Prop) : running y -> disabled y y1 -> 0 <= level y -> sys_inv ly base nx K y2 none -> rest (current y) y1 y2 -> steady y1 y2 ->
  (forall b y', spawned y y' -> Q (r, b) y') -> wp (trap ← preempt_enable ly iflag; mret (r, trap)) Q y2.
Proof.
  intros Hrun D H0' (fs & hm & L & I) R St HQ. destruct (disabled_mine y y1 D) as (Ec1 & Em1 & Eth). pose proof D as [(s1 & E1 & M1 & Hc1) Hr1 Hl1 R1]. pose proof (sd_current _ _ St) as Ec2. assert (running y2) as Hr2 by (unfold running; rewrite Ec2, (sd_running _ _ St); exact Hr1).
  assert (level y2 = level y + 1) as Hl2 by (rewrite <- Hl1; unfold level, depth; fold (current y2) (current y1); rewrite Ec2; apply (sd_depth _ _ St)). apply sys_wp_bind. apply (wp_enable y2 fs hm L none); [done|done|lia|]. intros s' b y3 I3 R3 Ec3 Hr3 Hl3. cbn. apply HQ.
  split_and!; [by exists fs, hm, L|eapply rest_trans; [exact R1|]; eapply rest_trans; [exact R|]; rewrite <- Ec1, <- Ec2; exact R3|]. unfold running in *. constructor.
  - by rewrite Ec3, Ec2.
  - change (thread y3 (current y)) with (thread y2 (current y)). rewrite <- Ec1, (sd_thread _ _ St). apply Eth.
  - rewrite Hrun. by rewrite <- Ec1, <- Ec2, <- Ec3.
  - unfold level, depth in *. fold (current y3) (current y2) (current y) in *. rewrite Ec3, Ec2, Ec1 in *. lia.
  - intros Hp. change (state_of y3 (mine y)) with (state_of y2 (mine y)). rewrite <- Em1, (sd_state _ _ St) by (by rewrite Em1). by rewrite E1.
  - intros a Ha. change (saved y3 a) with (saved y2 a). rewrite (sd_saved _ _ St); [by rewrite E1|]. unfold on_stack, stack_bottom, stack_top in *. by rewrite Ec1, Eth.
  - change (y_cpu y3) with (y_cpu y2). rewrite (sd_cpu _ _ St). by rewrite E1.
Qed.

(** ** A process under construction *)

Record forming y1 y (p : Z) : Prop := {
  fm_inv : sys_inv ly base nx K y (MkPending None None (Some p));
  fm_rest : rest (current y1) y1 y;
  fm_steady : steady y1 y;
  fm_table : y_table y = y_table y1;
  fm_tasks : tasks y = tasks y1;
  fm_null : p <> NULL;
  fm_unlisted : p ∉ pt_registry (y_table y);
  fm_alone : forall a, a ∈ tasks y -> process_at y a <> p;
  fm_ready : state_of y p = UTAMO_PROCESS_READY
}.

Lemma forming_object y1 y p : forming y1 y p -> exists x, y_procs y !! p = Some x.
Proof. intros Fm. pose proof (fm_inv _ _ _ Fm) as (fs & hm & L & I). assert (is_Some (y_procs y !! p)) as [x Hx] by (apply I; by right). by exists x. Qed.

Lemma forming_mine y1 y p : forming y1 y p -> mine y <> p.
Proof. intros Fm. destruct (fm_inv _ _ _ Fm) as (fs & hm & L & I). apply (fm_alone _ _ _ Fm). by eapply inv_current. Qed.

(** A step of the construction that only changes the object of [p] and the machine. *)
Lemma forming_step y1 y y' p : forming y1 y p -> sys_inv ly base nx K y' (MkPending None None (Some p)) -> rest (current y1) y y' -> y_sched y' = y_sched y -> y_threads y' = y_threads y -> y_saved y' = y_saved y ->
  y_table y' = y_table y -> y_cpu y' = y_cpu y -> (forall q, state_of y' q = state_of y q) -> forming y1 y' p.
Proof.
  intros Fm I' R' E1 E2 E3 E4 E5 Hst. pose proof (forming_mine y1 y p Fm) as Hm. destruct Fm. assert (forall t, thread y' t = thread y t) as Eth by (intros t; unfold thread; by rewrite E2). assert (current y' = current y) as Ec by (unfold current; by rewrite E1).
  constructor; try done; [by eapply rest_trans| |by rewrite E4|unfold tasks; by rewrite E1|by rewrite E4| |].
  - eapply steady_trans; [done|]. constructor; [done|by rewrite Eth|by rewrite E1|by rewrite E1|intros _; by apply Hst| |done]. intros a _. unfold saved. by rewrite E3.
  - intros a. unfold tasks, process_at. rewrite E1, Eth. apply fm_alone0.
  - by rewrite Hst.
Qed.

Lemma wp_form_set y1 y p f (Q : unit -> S -> Prop) : forming y1 y p -> pr_vm (f (proc y p)) = pr_vm (proc y p) -> pr_state (f (proc y p)) = pr_state (proc y p) ->
  (forall y', forming y1 y' p -> proc y' p = f (proc y p) -> y' = with_procs (<[p := f (proc y p)]> (y_procs y)) y -> Q tt y') -> wp (set_proc p f) Q y.
Proof.
  intros Fm Hv Hs HQ. destruct (forming_object y1 y p Fm) as [x Hx]. pose proof (fm_inv _ _ _ Fm) as (fs & hm & L & I). rewrite (proc_lookup y p x Hx) in *.
  destruct (inv_proc ly base nx K y fs hm L _ (current y1) p x (f x) I Hx Hv) as [I' R']; [by left|intros t Ht _; by apply (fm_alone _ _ _ Fm)|]. unfold set_proc. cbn [wp modify]. rewrite (proc_lookup y p x Hx). apply HQ; [|by rewrite proc_insert, decide_True|done].
  apply (forming_step y1 y); try done; [by exists fs, hm, L|]. intros q. unfold state_of. rewrite proc_insert. case_decide; [|done]. subst q. by rewrite (proc_lookup y p x Hx).
Qed.

(** Calls on its address space. *)
Lemma wp_form_vm {A} (f : vm (ustate P) -> vm (ustate P) * A) y1 y p (Q : A -> S -> Prop) : forming y1 y p ->
  (let m := user_view (y_world y) (pr_vm (proc y p)) in vm_step m (fst (f m)) /\ (uv_initialized (obj (fst (f m))) = true -> space_mask (kernel_vmm_of y) (obj (fst (f m))))) ->
  (forall y', forming y1 y' p -> let m := user_view (y_world y) (pr_vm (proc y p)) in proc y' p = set_vm (obj (fst (f m))) (proc y p) -> user_view (y_world y') (obj (fst (f m))) = fst (f m) -> kernel_vmm_of y' = kernel_vmm_of y -> Q (snd (f m)) y') -> wp (on_vm p f) Q y.
Proof.
  intros Fm Hst HQ. destruct (forming_object y1 y p Fm) as [x Hx]. pose proof (fm_inv _ _ _ Fm) as (fs & hm & L & I). rewrite (proc_lookup y p x Hx) in *. destruct Hst as [Hst Hm].
  apply (wp_on_vm ly base nx K f y fs hm L _ p x (current y1) Q I Hx Hst Hm); [intros t Ht _; by apply (fm_alone _ _ _ Fm)|intros t Ht E; by apply (fm_alone _ _ _ Fm) in E|]. intros y' I' R'. apply HQ; [|unfold proc, y'; cbn; by rewrite lookup_total_insert_eq|exact (from_user_view _ _ _ Hst)|done].
  apply (forming_step y1 y); try done; [by exists fs, hm, L|]. intros q. unfold state_of. destruct (decide (q = p)) as [-> |]; [rewrite (proc_lookup y p x Hx)|]; unfold proc, y'; cbn; [by rewrite lookup_total_insert_eq|by rewrite lookup_total_insert_ne].
Qed.

Lemma rest_new c t y1 y2 y3 : rest c y1 y2 -> rest t y2 y3 -> t ∉ tasks y1 -> rest c y1 y3.
Proof.
  intros R1 R2 Hn. assert (rest c y1 y2 /\ forall a, a ∈ tasks y1 -> a <> c -> ~ dead y1 a -> a <> t) as [_ Hne] by (split; [done|congruence]). constructor.
  - intros a Ha Hc Hz. destruct (rs_thread _ _ _ R1 a Ha Hc Hz) as (H1 & H2 & E1 & E2). destruct (rs_thread _ _ _ R2 a H1 (Hne a Ha Hc Hz) H2) as (H3 & H4 & E3 & E4). rewrite E1 in *. split_and!; [done|done|done|by rewrite E4].
  - intros a x Ha Hc Hz Hp Hx. destruct (rs_thread _ _ _ R1 a Ha Hc Hz) as (H1 & H2 & E1 & E2). destruct (rs_process _ _ _ R1 a x Ha Hc Hz Hp Hx) as [H3 H4].
    assert (process_at y2 a = process_at y1 a) as Ep by (unfold process_at; by rewrite E1). rewrite <- Ep in *. destruct (rs_process _ _ _ R2 a x H1 (Hne a Ha Hc Hz) H2 Hp H3) as [H5 H6]. split; [done|]. intros F HF. by apply H6, H4.
Qed.

Lemma wp_publish_process y1 y2 y3 p tid slot (Q : option Z -> S -> Prop) : forming y1 y2 p -> made y2 (MkPending None None (Some p)) p tid y3 -> slot = registry_slot (y_table y2) NULL -> slot <> UTAMO_PROCESS_LIMIT ->
  (forall r y', sys_inv ly base nx K y' none -> rest (current y1) y1 y' -> steady y1 y' -> Q r y') -> wp (publish_process slot p tid) Q y3.
Proof using Hly.
  intros Fm (Kp & (fs & hm & L & I) & Hth & Htid) Es Hs HQ. pose proof Kp as (R3 & S3 & Ep & Et & _). pose proof (fm_steady _ _ _ Fm) as St. pose proof (sd_current _ _ St) as Ec1. rewrite Ec1 in R3.
  assert (p ∉ pt_registry (y_table y3)) as Hnr by (rewrite Et; apply Fm). pose proof (fm_null _ _ _ Fm) as H0'. assert (is_Some (y_procs y3 !! p)) as [x Hx] by (apply I; by right). destruct tid as [tid|]; cbn [publish_process].
  - destruct Htid as (t & Hperm & Hnt & Hown). assert (t ∈ tasks y3) as Ht by (rewrite Hperm; by left). assert (mine y3 <> p) as Hmine by (rewrite (steady_mine _ _ S3); by apply (forming_mine y1)).
    step. unfold set_proc. cbn [wp modify]. rewrite (proc_lookup y3 p x Hx).
    destruct (inv_proc ly base nx K y3 fs hm L _ t p x (set_tid tid x) I Hx eq_refl) as [I4 R4]; [by left|intros a Ha Hne E; apply Hne; apply (ci_single _ _ _ _ _ _ _ _ _ I); [done|done|by rewrite E|by rewrite Hown]|]. set (y4 := with_procs _ y3) in *.
    pose proof (ci_registry _ _ _ _ _ _ _ _ _ I4) as Hr. assert (pt_registry (y_table y4) !! Z.to_nat slot = Some NULL) as Hslot by (rewrite Es, <- Et in *; by apply (slot_found (y_table y3))).
    step. unfold process_table_set. cbn [wp modify]. set (t' := MkTable _ _ _ _ _ _). destruct (registry_change (y_table y4) t' (Z.to_nat slot) NULL p Hr Hslot eq_refl) as [Hr' Hin']; [done|by right|by left|by rewrite (proj2 (Z.eqb_neq _ _) H0')|].
    destruct (inv_registry ly base nx K y4 fs hm L _ t' None t I4 Hr') as [I5 R5].
    + intros q. cbn. split; [intros [[Hq Hx']|]; [|done]|intros [[Hq Hx']|[= <-]]]; [apply Hin' in Hx' as [-> |[Hx' _]]; [by right|by left|done]|left; split; [done|]; apply Hin'; [done|by right]|left; split; [done|]; apply Hin'; [done|by left]].
    + intros q Hq [-> |[Hx' _]]%Hin'; [|right|done]; [right; by exists t|]. destruct (ci_run _ _ _ _ _ _ _ _ _ I4 q Hq Hx') as [[= <-]|]; [by exists t|done].
    + set (y5 := with_table t' y4) in *. step. cbn. apply HQ; [by exists fs, hm, L| |].
      * apply (rest_new (current y1) t y1 y3); [by eapply rest_trans; [apply Fm|]|by eapply rest_trans|]. by rewrite <- (fm_tasks _ _ _ Fm).
      * eapply steady_trans; [exact St|]. eapply steady_trans; [exact S3|]. constructor; try done. intros _. unfold state_of. change (proc y5 (mine y3)) with (proc y4 (mine y3)). unfold y4. by rewrite proc_insert, decide_False.
  - assert (forming y1 y3 p) as Fm3. { constructor; [by exists fs, hm, L|by eapply rest_trans; [apply Fm|]|by eapply steady_trans|by rewrite Et; apply Fm|by rewrite Htid; apply Fm|done|done| |unfold state_of, proc; rewrite Ep; apply Fm]. intros a Ha. rewrite Htid in Ha. unfold process_at. rewrite Hth by done. by apply (fm_alone _ _ _ Fm). }
    step. rewrite (proc_lookup y3 p x Hx). apply sys_wp_bind.
    assert (forall y4 z, forming y1 y4 p -> y_procs y4 !! p = Some z -> uv_initialized (pr_vm z) = false -> wp (_ ← require true; freed ← free_process p; _ ← require freed; mret None) Q y4) as Hend.
    { intros y4 z Fm4 Hz Hi. pose proof (fm_inv _ _ _ Fm4) as (fs4 & hm4 & L4 & I4). step. apply wp_require; [done|]. step. apply (wp_free_process ly base nx K y4 fs4 hm4 L4 _ p z (current y1) _ I4 eq_refl Hz Hi (fm_unlisted _ _ _ Fm4)). intros w5 fs5 I5 R5 _. step. apply wp_require; [done|]. cbn.
      apply HQ; [by exists fs5, (delete p hm4), L4|by eapply rest_trans; [apply Fm4|]|]. eapply steady_trans; [apply Fm4|]. constructor; try done. intros _. unfold state_of, proc. cbn. rewrite lookup_total_delete_ne; [done|]. apply not_eq_sym. by apply (forming_mine y1). }
    destruct (uv_initialized (pr_vm x)) eqn:Hi; [|by apply (Hend y3 x)]. destruct (live_view ly base nx K y3 fs hm L _ p x I Hx Hi) as [A HA].
    destruct (destroy_step _ A HA) as (Hd1 & Hd2 & Hd3); [eapply not_loaded; [exact I|done|done|by apply (forming_mine y1)]|].
    apply (wp_form_vm user_vm_destroy y1 y3 p _ Fm3); rewrite (proc_lookup y3 p x Hx).
    + split; [exact Hd3|]. pose proof (uf_obj _ Hd2) as E. unfold obj in *. rewrite E. done.
    + intros y4 Fm4 m E4 _ _. unfold m. rewrite Hd1. destruct (forming_object y1 y4 p Fm4) as [z Hz]. apply (Hend y4 z Fm4 Hz). rewrite (proc_lookup y4 p z Hz) in E4. rewrite E4. cbn. pose proof (uf_obj _ Hd2) as E. unfold m. by rewrite E.
Qed.
End spawn.
