(* ===== verification/SystemProcess.v ===== *)
(** * Threads and processes: spawning and reaping processes *)

From stdpp Require Import gmap.
From S2P Require Import Prelude MemoryHelpers Bytes VmmCore VmmMap VmmSpec VmmTrace Frames KernelVm KernelPages HeapCore HeapSpec HeapStore KernelHeap ThreadStack ThreadStackProps UserVm UserVmTree UserVmOps UserVmLife UserVmSpec UserVmFrame ElfLoad ElfLoadProps SchedCore SchedInv SchedMoves Vfs World WorldInv Devices System Scheduler Process SystemInv SystemSteps SystemEvents SystemSpawn.
Open Scope Z_scope.

Section lifetime.
Context {P : Type} `{PageFramesLaws P} (ly : layout) (Hly : layout_ok ly) (base : Z -> Prop) (nx : bool) (K : gset Z).
Notation S := (system P).
Notation self := (ly_scheduler ly).
Notation inv := (core_inv ly base nx K).
Notation forming := (forming ly base nx K).
Notation spawned := (spawned ly base nx K).
Implicit Types y : S.

(** ** Spawning *)

Lemma wp_form_new y fs hm L (Q : Z -> S -> Prop) : inv y fs hm L none -> (forall y', spawned y y' -> Q NULL y') ->
  (forall p y', forming y y' p -> uv_initialized (pr_vm (proc y' p)) = false -> Q p y') -> wp new_process Q y.
Proof using Hly.
  intros I HN HS. apply (wp_new_process ly Hly base nx K y fs hm L none (current y) Q I eq_refl).
  - intros w' fs' I' R'. apply HN. split_and!; [by exists fs', hm, L|done|by constructor].
  - intros w' fs' hm' p I' R' Hp0 Hreg Hp. assert (proc (adopted w' p y) p = process_zero) as Ep by (unfold proc; cbn; by rewrite lookup_total_insert_eq).
    assert (forall a, a ∈ tasks y -> process_at y a <> p) as Ha. { intros a Ha E. assert (process_at y a <> NULL) as Hn by (by rewrite E). destruct (oo_live _ _ _ (ci_owners _ _ _ _ _ _ _ _ _ I a Ha Hn)) as (x & Hx & _). congruence. }
    apply HS; [|by rewrite Ep]. constructor; try done; [by exists fs', hm', L| |by unfold state_of; rewrite Ep]. constructor; try done. intros _. unfold state_of, proc. cbn. rewrite lookup_total_insert_ne; [done|]. apply not_eq_sym, Ha. by eapply inv_current.
Qed.

(** Of a call on the address space that keeps it alive. *)
Lemma wp_form_op y1 y p op (f : vm (ustate P) -> vm (ustate P) * bool) (Q : bool -> S -> Prop) : forming y1 y p -> uv_initialized (pr_vm (proc y p)) = true -> user_args op ->
  (forall m, fst (f m) = fst (user_apply m op)) -> (forall b y', forming y1 y' p -> uv_initialized (pr_vm (proc y' p)) = true -> Q b y') -> wp (on_vm p f) Q y.
Proof.
  intros Fm Hi Ha Hf HQ. destruct (forming_object ly base nx K y1 y p Fm) as [x Hx]. pose proof (fm_inv _ _ _ _ _ _ _ Fm) as (fs & hm & L & I). pose proof (proc_lookup y p x Hx) as Ex. rewrite Ex in Hi.
  destruct (live_view ly base nx K y fs hm L _ p x I Hx Hi) as [A HA]. destruct (apply_step _ A op HA Ha) as (St & Es & A' & HA'). rewrite <- Hf in St, Es, HA'.
  apply (wp_form_vm ly base nx K f y1 y p Q Fm); rewrite Ex.
  - split; [exact St|]. intros _. pose proof (wi_masks _ _ _ _ _ _ _ (ci_world _ _ _ _ _ _ _ _ _ I) p (pr_vm x) ltac:(by rewrite lookup_fmap, Hx) Hi) as Hm. unfold space_mask in *. rewrite Es. exact Hm.
  - intros y' Fm' m E' _ _. apply HQ; [done|]. rewrite E'. exact (ui_init _ _ HA').
Qed.

Definition readied y1 y p (good : bool) : Prop := forming y1 y p /\ (good = true -> uv_initialized (pr_vm (proc y p)) = true).

Lemma wp_and_then y1 y p good op (f : vm (ustate P) -> vm (ustate P) * bool) (Q : bool -> S -> Prop) : readied y1 y p good -> (good = true -> user_args op) ->
  (forall m, fst (f m) = fst (user_apply m op)) -> (forall b y', readied y1 y' p b -> (b = true -> good = true) -> Q b y') -> wp (and_then p good f) Q y.
Proof.
  intros [Fm Hi] Ha Hf HQ. unfold and_then. destruct good; [|by apply HQ]. apply (wp_form_op y1 y p op f Q Fm (Hi eq_refl) (Ha eq_refl) Hf). intros b y' Fm' Hi'. by apply HQ.
Qed.

Lemma wp_probe_stack y1 p pages : Forall (fun i => 0 <= i < UTAMO_USER_STACK_PAGES) pages -> forall y good (Q : bool -> S -> Prop), readied y1 y p good ->
  (forall b y', readied y1 y' p b -> Q b y') -> wp (probe_stack p good pages) Q y.
Proof.
  induction 1 as [|i pages Hi Hp IH]; intros y good Q R HQ; cbn [probe_stack]; [by apply HQ|]. apply sys_wp_bind. unfold UTAMO_USER_STACK_PAGES in Hi.
  apply (wp_and_then y1 y p good (UAlloc (UTAMO_USER_STACK_TOP -u (i +u 1) *u MEMORY_PAGE_SIZE) USER_VM_WRITE)); [done| | |].
  - intros _. cbn. split; [apply u64_range|by vm_compute].
  - intros m. cbn. by destruct (user_vm_alloc_page m _ _).
  - intros b y' R' _. by apply (IH y' b).
Qed.

(** [user_vm_create] on the new object. *)
Lemma wp_form_create y1 y p good (Q : bool -> S -> Prop) : forming y1 y p -> uv_initialized (pr_vm (proc y p)) = false -> (forall b y', readied y1 y' p b -> (b = true -> good = true) -> Q b y') -> wp (and_then p good (user_vm_create (kernel_vmm_of y))) Q y.
Proof.
  intros Fm Hi HQ. unfold and_then. destruct good; [|by apply HQ]. destruct (forming_object ly base nx K y1 y p Fm) as [x Hx]. pose proof (fm_inv _ _ _ _ _ _ _ Fm) as (fs & hm & L & I). pose proof (proc_lookup y p x Hx) as Ex. rewrite Ex in Hi.
  destruct (create_step (kernel_vmm_of y) _ (fresh_view ly base nx K y fs hm L _ p x I Hx Hi)) as [St Hc]. apply (wp_form_vm ly base nx K _ y1 y p Q Fm); rewrite Ex.
  - split; [exact St|]. destruct (snd _) in Hc; [intros _; apply Hc|]. pose proof (uf_obj _ Hc) as E. intros Ht. by rewrite E in Ht.
  - intros y' Fm' m E' _ _. apply HQ; [|done]. split; [done|]. fold m in Hc. intros Hb. rewrite Hb in Hc. destruct Hc as [[A HA] _]. rewrite E'. exact (ui_init _ _ HA).
Qed.

(** A process entered for a thread: the identity, its first thread, the registry. *)
Definition first_thread (anchor p : Z) (name : cstring) (tid : Sys P (option Z)) : Prop :=
  tid = mret None \/ exists entry rsp argument, tid = scheduler_create_user ly false anchor name p entry rsp argument.

Lemma wp_spawn_tail y y1 y2 p slot pid parent name tid iflag anchor (Q : option Z * bool -> S -> Prop) : running y -> 0 <= level y -> on_stack ly y (current y) anchor -> disabled ly y y1 -> forming y1 y2 p ->
  slot = registry_slot (y_table y1) NULL -> slot <> UTAMO_PROCESS_LIMIT -> first_thread anchor p name tid ->
  (forall r y', spawned y y' -> Q r y') ->
  wp (_ ← set_proc p (set_identity pid parent name); tid ← tid; r ← publish_process slot p tid; trap ← preempt_enable ly iflag; mret (r, trap)) Q y2.
Proof using Hly.
  intros Hrun Hlv Ha D Fm Es Hs Htid HQ. destruct (disabled_mine _ y y1 D) as (Ec & _ & Eth). step. apply (wp_form_set ly base nx K y1 y2 p _ _ Fm); [done|by apply eq_sym, Fm|]. intros y3 Fm3 _ _. step.
  assert (slot = registry_slot (y_table y3) NULL) as Es3 by (by rewrite (fm_table _ _ _ _ _ _ _ Fm3)).
  assert (forall tid y4, made ly base nx K y3 (MkPending None None (Some p)) p tid y4 -> wp (r ← publish_process slot p tid; trap ← preempt_enable ly iflag; mret (r, trap)) Q y4) as Hend.
  { intros tid' y4 Hm. step. apply (wp_publish_process ly Hly base nx K y1 y3 y4 p tid' slot _ Fm3 Hm Es3 Hs). intros r y5 I5 R5 S5. apply (wp_spawn_end ly base nx K y y1 y5 iflag r Q); [done|done|done|done|by rewrite <- Ec|done|]. intros b y'. apply HQ. }
  pose proof (fm_inv _ _ _ _ _ _ _ Fm3) as (fs & hm & L & I). destruct Htid as [-> |(entry & rsp & argument & ->)].
  - apply (Hend None y3). by eapply made_self.
  - apply (wp_create_user ly Hly base nx K y3 fs hm L p); [done| |by apply Fm3|apply Fm3|apply Hend]. apply (steady_stack ly y1 y3); [apply Fm3|]. unfold on_stack, stack_bottom, stack_top in *. by rewrite Ec, Eth.
Qed.

Lemma spawned_end y y1 y2 : disabled ly y y1 -> spawned y1 y2 -> sys_inv ly base nx K y2 none /\ rest (current y) y1 y2 /\ steady ly y1 y2.
Proof. intros D (I & R & St). destruct (disabled_mine _ y y1 D) as (Ec & _). rewrite Ec in R. done. Qed.

Lemma spawned_refl y fs hm L : inv y fs hm L none -> spawned y y.
Proof. intros I. split_and!; [by exists fs, hm, L|apply rest_refl|apply steady_refl]. Qed.

Lemma wp_spawn_elf y fs hm L iflag anchor path argument parent (Q : option Z * bool -> S -> Prop) : inv y fs hm L none -> running y -> 0 <= level y < UINT32_MAX -> on_stack ly y (current y) anchor ->
  (forall r y', spawned y y' -> Q r y') -> wp (process_spawn_elf ly iflag anchor path argument parent) Q y.
Proof using Hly.
  intros I Hrun Hlv Ha HQ. unfold process_spawn_elf. step. destruct (process_available y); cbn [negb]; [|by apply HQ, (spawned_refl y fs hm L)]. step. apply (wp_disable ly base nx K y fs hm L none _ I Hrun); [lia|]. intros y1 I1 D. step. step. step.
  assert (forall y2, spawned y1 y2 -> wp (trap ← preempt_enable ly iflag; mret (None, trap)) Q y2) as Hno. { intros y2 Sp. destruct (spawned_end y y1 y2 D Sp) as (I2 & R2 & S2). apply (wp_spawn_end ly base nx K y y1 y2 iflag None Q); [done|done|lia|done|done|done|]. intros b y'. apply HQ. }
  pose proof (Hno y1 (spawned_refl y1 fs hm L I1)) as Hno1. destruct (_ || _) eqn:Eb; [done|]. apply orb_false_iff in Eb as [Eb _]. apply Z.eqb_neq in Eb. destruct (vfs_lookup (y_vfs y1) path) as [nd|] eqn:En; [|done]. destruct (_ || _); [done|]. step.
  apply (wp_form_new y1 fs hm L); [done|by intros y2 Sp; apply Hno|]. intros p y2 Fm Hi. rewrite (proj2 (Z.eqb_neq _ _) (fm_null _ _ _ _ _ _ _ Fm)). step. step. step. set (img := fun i => y_files y2 (nd_data nd + i)).
  destruct (forming_object ly base nx K y1 y2 p Fm) as [x Hx]. pose proof (fm_inv _ _ _ _ _ _ _ Fm) as (fs2 & hm2 & L2 & I2). pose proof (proc_lookup y2 p x Hx) as Ex. rewrite Ex in Hi.
  pose proof (load_step (kernel_vmm_of y2) _ img (nd_size nd) (str_get argument) (fresh_view ly base nx K y2 fs2 hm2 L2 _ p x I2 Hx Hi) (ci_files _ _ _ _ _ _ _ _ _ I1 _ _ En) (create_not_loaded ly base nx K y2 fs2 hm2 L2 _ p x I2 Hx Hi)) as Hl.
  rewrite (surjective_pairing (elf_load _ _ _ _ _)) in Hl. destruct Hl as [St Hl]. apply (wp_form_vm ly base nx K _ y1 y2 p _ Fm); rewrite Ex.
  - split; [exact St|]. destruct (snd _) in Hl; [intros _; apply Hl|]. pose proof (uf_obj _ Hl) as E. intros Ht. by rewrite E in Ht.
  - intros y3 Fm3 m _ _ _. apply (wp_spawn_tail y y1 y3 p _ _ _ _ _ iflag anchor Q); try done; [lia|]. destruct (snd _) as [l|]; [right|by left]. by eexists _, _, _.
Qed.

Lemma wp_spawn_probe y fs hm L iflag anchor probe (Q : option Z * bool -> S -> Prop) : inv y fs hm L none -> running y -> 0 <= level y < UINT32_MAX -> on_stack ly y (current y) anchor ->
  (forall r y', spawned y y' -> Q r y') -> wp (process_spawn_probe ly iflag anchor probe) Q y.
Proof using Hly.
  intros I Hrun Hlv Ha HQ. unfold process_spawn_probe. step. destruct (_ && _); cbn [negb]; [|by apply HQ, (spawned_refl y fs hm L)]. step. apply (wp_disable ly base nx K y fs hm L none _ I Hrun); [lia|]. intros y1 I1 D. step.
  assert (forall y2, spawned y1 y2 -> wp (trap ← preempt_enable ly iflag; mret (None, trap)) Q y2) as Hno. { intros y2 Sp. destruct (spawned_end y y1 y2 D Sp) as (I2 & R2 & S2). apply (wp_spawn_end ly base nx K y y1 y2 iflag None Q); [done|done|lia|done|done|done|]. intros b y'. apply HQ. }
  step. destruct (Z.eqb_spec (registry_slot (y_table y1) NULL) UTAMO_PROCESS_LIMIT) as [|Eb]; [by apply Hno, (spawned_refl y1 fs hm L)|].
  apply (wp_form_new y1 fs hm L); [done|by intros y2 Sp; apply Hno|]. intros p y2 Fm Hi. rewrite (proj2 (Z.eqb_neq _ _) (fm_null _ _ _ _ _ _ _ Fm)). step. step.
  apply (wp_form_create y1 y2 p _ _ Fm Hi). intros b3 y3 R3 G3. step.
  apply (wp_and_then y1 y3 p b3 (UAlloc UTAMO_USER_CODE USER_VM_WRITE)); [done|by vm_compute|by intros m; cbn; destruct (user_vm_alloc_page m _ _)|]. intros b4 y4 R4 G4. step.
  apply (wp_and_then y1 y4 p b4 (UWrite UTAMO_USER_CODE (ly_probe ly))); [done|intros G; apply G4, G3 in G; cbn; unfold u64_ok, UINT64_MAX, UTAMO_USER_CODE, MEMORY_PAGE_SIZE in *; lia|by intros m; cbn; destruct (user_vm_copy_to m _ _)|]. intros b5 y5 R5 _. step.
  apply (wp_and_then y1 y5 p b5 (UProtect UTAMO_USER_CODE USER_VM_EXEC)); [done|by vm_compute|by intros m; cbn; destruct (user_vm_protect_page m _ _)|]. intros b6 y6 R6 _. step.
  apply (wp_and_then y1 y6 p b6 (UAlloc UTAMO_USER_DATA USER_VM_WRITE)); [done|by vm_compute|by intros m; cbn; destruct (user_vm_alloc_page m _ _)|]. intros b7 y7 R7 _. step.
  apply (wp_probe_stack y1 p (seqZ 0 UTAMO_USER_STACK_PAGES)); [apply Forall_forall; intros i Hin%elem_of_seqZ; lia|done|]. intros b8 y8 [Fm8 _]. step.
  apply (wp_spawn_tail y y1 y8 p _ _ _ _ _ iflag anchor Q); try done; [lia|]. destruct b8; [right|by left]. by eexists _, _, _.
Qed.

(** ** Reaping *)

Lemma steady_orphaned w' p y : mine y <> p -> steady ly y (orphaned w' p y).
Proof. intros Hm. constructor; try done. intros _. unfold state_of, proc. cbn. rewrite lookup_total_delete_ne; [done|]. by apply not_eq_sym. Qed.

Lemma wp_process_reap y fs hm L t p x (Q : unit -> S -> Prop) : inv y fs hm L (MkPending (Some t) None (Some p)) -> p <> NULL -> p ∈ pt_registry (y_table y) -> y_procs y !! p = Some x ->
  pr_state x = UTAMO_PROCESS_EXITED -> uv_initialized (pr_vm x) = true -> (forall a, a ∈ tasks y -> process_at y a <> p) ->
  (forall y', sys_inv ly base nx K y' (MkPending (Some t) None None) -> rest (current y) y y' -> steady ly y y' -> Q tt y') -> wp (process_reap p) Q y.
Proof using Hly.
  intros I Hp0 Hreg Hx Hs Hi Hno HQ. pose proof (ci_registry _ _ _ _ _ _ _ _ _ I) as Hr. pose proof (slot_from_lookup _ _ Hreg) as Hl. fold (registry_slot (y_table y) p) in Hl. pose proof (proc_lookup y p x Hx) as Ex.
  assert (mine y <> p) as Hm by (apply Hno; by eapply inv_current). assert (registry_slot (y_table y) p <> UTAMO_PROCESS_LIMIT) as Hsl. { apply slot_from_found in Hreg. rewrite (ro_length _ Hr) in Hreg. unfold registry_slot, UTAMO_PROCESS_LIMIT in *. lia. }
  assert (ps_active (pt_stats (y_table y)) <> 0) as Hact. { rewrite (ro_active _ Hr). assert (0 < count_if (fun p => negb (p =? NULL)) (pt_registry (y_table y))); [|lia]. apply (count_if_pos _ _ _ _ Hl). by rewrite (proj2 (Z.eqb_neq _ _) Hp0). }
  unfold process_reap. step. step. rewrite Ex, Hs, (proj2 (Z.eqb_neq _ _) Hp0), (proj2 (Z.eqb_neq _ _) Hsl), (proj2 (Z.eqb_neq _ _) Hact). step. apply wp_require; [done|]. step.
  destruct (live_view ly base nx K y fs hm L _ p x I Hx Hi) as [A HA]. destruct (destroy_step _ A HA) as (Hd1 & Hd2 & Hd3); [by eapply not_loaded|]. pose proof (uf_obj _ Hd2) as Eo.
  apply (wp_on_vm ly base nx K user_vm_destroy y fs hm L _ p x (current y) _ I Hx Hd3); [intros E; by rewrite Eo in E|intros a Ha _; by apply Hno|intros a Ha E; by apply Hno in E|]. intros y1 I1 R1. rewrite Hd1. step. apply wp_require; [done|]. step. step. unfold process_table_set. cbn [wp modify].
  set (t' := MkTable _ _ _ _ _ _). destruct (registry_change (y_table y1) t' (Z.to_nat (registry_slot (y_table y) p)) p NULL Hr Hl eq_refl) as [Hr' Hin']; [done|by left|by right|done|].
  assert (inv (with_table t' y1) fs hm L (MkPending (Some t) None (Some p)) /\ rest (current y) y1 (with_table t' y1)) as [I2 R2].
  { apply (inv_registry ly base nx K y1 fs hm L _ t' (Some p) (current y) I1 Hr').
    - intros q. cbn. destruct (decide (q = p)) as [-> |Hq]; [split; intros _; by right|]. split; intros [[H1 H2]|[= E]]; try congruence; left; (split; [done|]); [by apply Hin' in H2 as [? |[? _]]|apply Hin'; [done|by right]].
    - intros q Hq H2. apply Hin' in H2 as [? |[H2 Hne]]; [done| |done]. exact (ci_run _ _ _ _ _ _ _ _ _ I1 q Hq H2). }
  assert (y_procs (with_table t' y1) !! p = Some (set_vm (obj (fst (user_vm_destroy (user_view (y_world y) (pr_vm x))))) x)) as Hx2 by (cbn; by rewrite lookup_insert_eq).
  step. apply (wp_free_process ly base nx K _ fs hm L _ p _ (current y) _ I2 eq_refl Hx2); [cbn; by rewrite Eo|intros Hin; by apply Hin' in Hin as [? |[_ ?]]|]. intros w3 fs3 I3 R3 _. apply wp_require; [done|].
  apply HQ; [by exists fs3, (delete p hm), L|by eapply rest_trans; [|eapply rest_trans]|]. eapply steady_trans; [|eapply steady_orphaned]; [|exact Hm].
  constructor; try done. intros _. unfold state_of, proc. cbn. by rewrite lookup_total_insert_ne by (by apply not_eq_sym).
Qed.

Lemma wp_reap_slot y fs hm L anchor i (Q : unit -> S -> Prop) : inv y fs hm L none -> on_stack ly y (current y) anchor -> 0 <= i < UTAMO_SCHED_MAX_TASKS ->
  (forall y', spawned y y' -> Q tt y') -> wp (reap_slot ly anchor i) Q y.
Proof using Hly.
  intros I Ha Hi' HQ. unfold reap_slot. step. set (t := arr_get _ i). step. destruct (_ || _) eqn:Eb; [by apply HQ, (spawned_refl y fs hm L)|]. apply orb_false_iff in Eb as [Eb Hz]. apply orb_false_iff in Eb as [Ht0 Htc]. apply Z.eqb_neq in Ht0, Htc.
  assert (t ∈ tasks y) as Ht. { apply list_elem_of_filter. split; [done|]. apply list_elem_of_lookup. exists (Z.to_nat i). apply list_lookup_lookup_total_lt. destruct (ci_sched _ _ _ _ _ _ _ _ _ I) as [Hty _]. rewrite (ty_tasks _ Hty). lia. }
  assert (dead y t) as Hd by (unfold dead, zombie; by destruct (st_state _)).
  pose proof (ci_threads _ _ _ _ _ _ _ _ _ I t Ht) as T. assert (t <> ly_bootstrap ly) as Htb by (intros E; rewrite E in Hd; by apply (ci_boot _ _ _ _ _ _ _ _ _ I)).
  assert (t <> ly_idle ly) as Hti. { intros E. apply (idle_not_zombie self (y_sched y)); [apply I|]. rewrite (ci_idle _ _ _ _ _ _ _ _ _ I), <- E. exact Hd. }
  step. rewrite (to_dynamic _ _ _ _ T Hti Htb). step. apply wp_require; [done|]. step.
  destruct (remove_moved self (lo_self _ Hly) (y_sched y) t (ci_sched _ _ _ _ _ _ _ _ _ I) Ht Hd Htc) as (s' & Es & Hok & Hreg & Hnt & Hidle & Hcur & Hnow & Hzero & Hnode). apply (wp_scheduler _ _ _ _ _ Es). step. apply wp_require; [done|].
  destruct (inv_remove ly base nx K y fs hm L t s' (current y) I Ht Hd Htc Hok Hreg Hnt Hidle Hcur Hnow Hnode) as [I1 R1]. set (y1 := with_sched s' y) in *. assert (current y1 = current y) as Ec by exact Hcur.
  assert (steady ly y y1) as S1. { constructor; try done; cbn; unfold is_running; by rewrite Hnode by (by apply not_eq_sym). }
  destruct (to_stack _ _ _ _ T Htb) as (_ & _ & Est). step. change (thread y1 t) with (thread y t). rewrite Est. step.
  apply (wp_stack_free ly Hly base nx K y1 fs hm L _ (current y) (slot_of y t) anchor _ I1 eq_refl); [by apply (steady_stack ly y y1)|]. intros w2 y2 I2 R2. cbn [fst snd]. step. apply wp_require; [done|]. step.
  apply (wp_unborn ly base nx K y2 fs hm _ _ t _ (current y) _ I2 eq_refl). intros y3 I3 R3 S3 E3. step. rewrite E3. change (th_process (set_stack thread_stack_zero (thread y2 t))) with (process_at y t).
  assert (rest (current y) y y3) as R03 by (by eapply rest_trans; [|eapply rest_trans]). assert (steady ly y y3) as S03 by (eapply steady_trans; [exact S1|]; eapply steady_trans; [|exact S3]; by constructor).
  assert (forall y4, sys_inv ly base nx K y4 (MkPending (Some t) None None) -> rest (current y) y y4 -> steady ly y y4 -> wp (ok ← free_thread t; _ ← require ok; statics count_reaped) Q y4) as Hend.
  { intros y4 (fs4 & hm4 & L4 & I4) R4 S4. step. apply (wp_free_thread ly base nx K y4 fs4 hm4 L4 _ t (current y) _ I4 eq_refl). intros w5 fs5 I5 R5 _. step. apply wp_require; [done|]. unfold statics. cbn [wp modify].
    destruct (inv_statics ly base nx K _ fs5 _ L4 _ (count_reaped (y_statics (buried w5 t y4))) (current y) I5 eq_refl eq_refl) as [I6 R6]. pose proof (sd_current _ _ _ S4) as Ec4. destruct (kept_buried ly y4 w5 t ltac:(congruence) ltac:(by rewrite Ec4)) as (_ & S5 & _).
    apply HQ. split_and!; [by exists fs5, (delete t hm4), L4|by eapply rest_trans; [|eapply rest_trans]|]. eapply steady_trans; [exact S4|]. eapply steady_trans; [exact S5|]. by constructor. }
  apply sys_wp_bind. unfold taken_pd in I3. destruct (Z.eqb_spec (process_at y t) NULL) as [Hp|Hp]; cbn [negb]; [apply Hend; [by exists fs, hm, (delete (slot_of y t) L)|done|done]|].
  pose proof (ci_owners _ _ _ _ _ _ _ _ _ I t Ht Hp) as [(x & Hx & Hi) Hreg' Hex _ _]. assert (y_procs y3 !! process_at y t = Some x) as Hx3 by exact Hx.
  apply (wp_process_reap y3 fs hm _ t (process_at y t) x _ I3 Hp); [by destruct Hreg'|done|specialize (Hex Hd); by rewrite (proc_lookup y _ x Hx) in Hex|done| |].
  - intros a Hin E. change (tasks y3) with (reg s') in Hin. assert (a <> t) as Hat by congruence. apply Hat, (ci_single _ _ _ _ _ _ _ _ _ I); [rewrite Hreg; by right|done| |]; unfold process_at, y3 in E; rewrite thread_insert, decide_False in E by done; [|exact E]. intros En. apply Hp. etrans; [exact (eq_sym E)|exact En].
  - intros y4 I4 R4 S4. apply Hend; [done| |by eapply steady_trans]. rewrite (sd_current _ _ _ S03) in R4. by eapply rest_trans.
Qed.

Lemma spawned_trans y1 y2 y3 : spawned y1 y2 -> spawned y2 y3 -> spawned y1 y3.
Proof. intros (_ & R1 & S1) (I & R2 & S2). rewrite (sd_current _ _ _ S1) in R2. split_and!; [done|by eapply rest_trans|by eapply steady_trans]. Qed.

Lemma wp_reap_slots anchor slots : Forall (fun i => 0 <= i < UTAMO_SCHED_MAX_TASKS) slots -> forall y (Q : unit -> S -> Prop), sys_inv ly base nx K y none -> on_stack ly y (current y) anchor ->
  (forall y', spawned y y' -> Q tt y') -> wp (reap_slots ly anchor slots) Q y.
Proof using Hly.
  induction 1 as [|i slots Hi Hs IH]; intros y Q (fs & hm & L & I) Ha HQ; cbn [reap_slots]; [by apply HQ, (spawned_refl y fs hm L)|]. apply sys_wp_bind. apply (wp_reap_slot y fs hm L anchor i _ I Ha Hi). intros y1 S1. pose proof S1 as (I1 & _ & St).
  apply IH; [done|by apply (steady_stack ly y y1)|]. intros y' S'. apply HQ. by eapply spawned_trans.
Qed.

Lemma wp_thread_reap y iflag anchor (Q : unit -> S -> Prop) : sys_inv ly base nx K y none -> on_stack ly y (current y) anchor -> (forall y', spawned y y' -> Q tt y') -> wp (thread_reap ly iflag anchor) Q y.
Proof using Hly.
  intros I Ha HQ. unfold thread_reap. step. destruct (_ || _); [destruct I as (fs & hm & L & I); by apply HQ, (spawned_refl y fs hm L)|]. apply wp_reap_slots; [|done|done|done]. apply Forall_forall. intros i Hin%elem_of_seqZ. lia.
Qed.
End lifetime.
