(* ===== verification/SystemCalls.v ===== *)
(** * Threads and processes: system calls and the dispatcher *)

From stdpp Require Import gmap.
From S2P Require Import Prelude MemoryHelpers Bytes VmmCore VmmMap Frames KernelVm HeapCore HeapSpec HeapStore KernelHeap ThreadStack ThreadStackProps UserVm UserVmTree UserVmOps UserVmLife UserVmSpec ElfLoad SchedCore SchedInv SchedMoves Vfs World WorldInv Devices System Scheduler Process SystemInv SystemSteps SystemEvents SystemSpawn SystemProcess.
Open Scope Z_scope.

Section calls.
Context {P : Type} `{PageFramesLaws P} (ly : layout) (Hly : layout_ok ly) (base : Z -> Prop) (nx : bool) (K : gset Z).
Notation S := (system P).
Notation self := (ly_scheduler ly).
Notation inv := (core_inv ly base nx K).
Notation spawned := (spawned ly base nx K).
Implicit Types y : S.

(** ** The running process *)

(** A change of its object. *)
Lemma wp_own_set y f (Q : unit -> S -> Prop) : sys_inv ly base nx K y none -> mine y <> NULL -> pr_vm (f (proc y (mine y))) = pr_vm (proc y (mine y)) -> pr_state (f (proc y (mine y))) = pr_state (proc y (mine y)) ->
  (forall y', spawned y y' -> Q tt y') -> wp (set_proc (mine y) f) Q y.
Proof.
  intros (fs & hm & L & I) Hp Hv Hs HQ. apply (wp_set_mine ly base nx K y fs hm L none); [done|done|done|by left|]. intros y' I' R' E'. apply HQ. split_and!; [by exists fs, hm, L|done|]. constructor; try done. intros _. unfold state_of. by rewrite E'.
Qed.

(** A write to its memory. *)
Lemma wp_own_write y v src (Q : bool -> S -> Prop) : sys_inv ly base nx K y none -> mine y <> NULL -> u64_ok v -> u64_ok (Z.of_nat (length src)) ->
  (forall b y', spawned y y' -> Q b y') -> wp (on_vm (mine y) (fun m => user_vm_copy_to m v src)) Q y.
Proof.
  intros (fs & hm & L & I) Hp Hv Hn HQ. destruct (mine_live ly base nx K y fs hm L none I Hp) as (x & Hx & Hi). destruct (live_view ly base nx K y fs hm L none (mine y) x I Hx Hi) as [A HA].
  destruct (apply_step _ A (UWrite v src) HA) as (St & Es & A' & HA'); [done|]. assert (fst (user_apply (user_view (y_world y) (pr_vm x)) (UWrite v src)) = fst (user_vm_copy_to (user_view (y_world y) (pr_vm x)) v src)) as Ef by (cbn; by destruct (user_vm_copy_to _ _ _)). rewrite Ef in St, Es, HA'.
  pose proof (wi_masks _ _ _ _ _ _ _ (ci_world _ _ _ _ _ _ _ _ _ I) (mine y) (pr_vm x) ltac:(by rewrite lookup_fmap, Hx) Hi) as Hm.
  apply (wp_on_vm ly base nx K _ y fs hm L none (mine y) x (current y) Q I Hx St).
  - intros _. unfold space_mask in *. rewrite Es. exact Hm.
  - intros t Ht Hne. by apply (mine_single ly base nx K y fs hm L none).
  - intros t Ht E. split; [exact (ui_init _ _ HA')|exact Es].
  - intros y' I' R'. apply HQ. split_and!; [by exists fs, hm, L|done|]. constructor; try done. intros _. unfold state_of. rewrite (proc_lookup y _ x Hx). unfold proc, y'. cbn. by rewrite lookup_total_insert_eq.
Qed.

(** ** File calls *)

Lemma sys_refl y : sys_inv ly base nx K y none -> spawned y y.
Proof. intros (fs & hm & L & I). by eapply spawned_refl. Qed.

(** The running process is in the kernel, on its stack. *)
Context (anchor : Z).
Record inside y : Prop := { in_mine : mine y <> NULL; in_running : running y; in_level : level y = 0; in_stack : on_stack ly y (current y) anchor }.

Lemma inside_steady y y' : steady ly y y' -> inside y -> inside y'.
Proof.
  intros St []. pose proof (sd_current _ _ _ St) as Ec. constructor; [by rewrite (steady_mine _ _ _ St)| | |by apply (steady_stack ly y y')].
  - unfold running. by rewrite Ec, (sd_running _ _ _ St).
  - unfold level, depth. fold (current y'). by rewrite Ec, (sd_depth _ _ _ St).
Qed.

(** A call of the running process: the invariant stays, and what the others have. *)
Definition serves {A} (call : Z -> Sys P A) : Prop := forall y (Q : A -> S -> Prop), sys_inv ly base nx K y none -> inside y ->
  (forall r y', spawned y y' -> Q r y') -> wp (call (mine y)) Q y.

(** The next call of a sequence. *)
Lemma serves_bind {A B} (f : Z -> Sys P A) (k : Z -> A -> Sys P B) : serves f -> (forall r, serves (fun p => k p r)) -> serves (fun p => r ← f p; k p r).
Proof.
  intros Hf Hk y Q I Hp HQ. apply sys_wp_bind. apply (Hf y); [done|done|]. intros r y1 S1. pose proof S1 as (I1 & _ & St1). rewrite <- (steady_mine _ _ _ St1). apply (Hk r y1); [done|by eapply inside_steady|]. intros r' y2 S2. apply HQ. by eapply spawned_trans.
Qed.

Lemma serves_ret {A} (r : A) : serves (fun _ => mret r).
Proof. intros y Q I Hp HQ. by apply HQ, sys_refl. Qed.
Lemma serves_gets {A} (f : Z -> S -> A) : serves (fun p => gets (f p)).
Proof. intros y Q I Hp HQ. by apply HQ, sys_refl. Qed.
Lemma serves_set f : (forall x, pr_vm (f x) = pr_vm x) -> (forall x, pr_state (f x) = pr_state x) -> serves (fun p => set_proc p f).
Proof. intros Hv Hs y Q I Hp HQ. destruct Hp. apply wp_own_set; auto. Qed.
Lemma serves_write v src : u64_ok v -> u64_ok (Z.of_nat (length src)) -> serves (fun p => on_vm p (fun m => user_vm_copy_to m v src)).
Proof. intros H1 H2 y Q I Hp HQ. destruct Hp. apply wp_own_write; auto. Qed.
Lemma serves_table f : (forall t, pt_registry (f t) = pt_registry t) -> (forall t, ps_active (pt_stats (f t)) = ps_active (pt_stats t)) -> serves (fun _ => process_table_set f).
Proof.
  intros Hr Ha y Q (fs & hm & L & I) Hp HQ. unfold process_table_set. cbn [wp modify]. destruct (inv_table ly base nx K y fs hm L none (f (y_table y)) (current y) I) as [I' R']; [apply Hr|apply Ha|]. apply HQ. split_and!; [by exists fs, hm, L|done|by constructor].
Qed.
Hint Resolve serves_ret serves_gets serves_set : core.

Ltac serve := repeat first [apply serves_bind; [auto|intros ?]|progress auto].

Lemma serves_path v n : serves (fun p => path_copy p v n).
Proof. unfold path_copy. destruct (_ || _); [auto|]. unfold read_vm. serve. Qed.
Hint Resolve serves_path : core.

Lemma serves_open a b c : serves (fun p => sys_open p a b c).
Proof.
  unfold sys_open. apply serves_bind; [auto|]. intros [path|]; [|auto]. destruct (negb _); [auto|]. apply serves_bind; [auto|]. intros [fd|]; [|auto]. serve.
Qed.

(** What a read returns fits the buffer. *)
Lemma read_length mem file n r : vfs_read mem file n = Some r -> 0 <= n -> Z.of_nat (length (snd r)) <= n.
Proof.
  unfold vfs_read. destruct (vf_node file) as [nd|]; [|done]. destruct (_ <? _); [done|]. intros [= <-] Hn. cbn. rewrite length_fmap, length_seqZ. destruct (Z.ltb_spec n (nd_size nd -u vf_offset file)); lia.
Qed.

Lemma serves_read a b c : u64_ok b -> u64_ok c -> serves (fun p => sys_read p a b c).
Proof.
  intros Hb Hc. unfold sys_read. apply serves_bind; [auto|]. intros file. destruct (_ || _); [auto|]. destruct (Z.ltb_spec UTAMO_SYS_WRITE_LIMIT c) as [|Hl]; [auto|]. unfold UTAMO_SYS_WRITE_LIMIT in Hl.
  intros y Q I Hp HQ. step. destruct (vfs_read (y_files y) file c) as [[tentative bytes]|] eqn:Er; [|by apply HQ, sys_refl]. apply (serves_bind (fun p => on_vm p _) (fun p copied => if negb copied then mret UTAMO_SYS_EFAULT else _ ← set_proc p (set_file a tentative); mret _)); try done.
  - apply serves_write; [done|]. apply read_length in Er; [|unfold u64_ok in *; lia]. cbn in Er. unfold u64_ok, UINT64_MAX in *. lia.
  - intros []; cbn [negb]; serve.
Qed.

Lemma serves_close a : serves (fun p => sys_close p a).
Proof. unfold sys_close. destruct (fd_bad a); [auto|]. serve. Qed.

Lemma serves_seek a b c : serves (fun p => sys_seek p a b c).
Proof. unfold sys_seek. apply serves_bind; [auto|]. intros file. destruct (_ || _); [auto|]. destruct (negb _); [auto|]. serve. Qed.

Lemma serves_fstat a : serves (fun p => sys_fstat p a).
Proof. unfold sys_fstat. serve. Qed.

Lemma le64_length v : length (le64 v) = 8%nat.
Proof. done. Qed.

Lemma serves_info a b : u64_ok a -> serves (fun p => sys_info p a b).
Proof.
  intros Ha. unfold sys_info. apply serves_bind; [auto|]. intros free. destruct (if negb _ then None else free) as [n|]; [|auto]. intros y Q I Hp HQ. step.
  apply (serves_bind (fun p => on_vm p _) (fun p copied => mret (if copied : bool then 0 else UTAMO_SYS_EFAULT))); try done. apply serves_write; [done|]. by vm_compute.
Qed.

Lemma serves_argument v : serves (fun p => argument_copy p v).
Proof. unfold argument_copy, read_vm. destruct (_ =? _); auto. Qed.

Lemma serves_elf path argument parent : serves (fun _ => process_spawn_elf ly false anchor path argument parent).
Proof using Hly.
  intros y Q (fs & hm & L & I) [] HQ. apply (wp_spawn_elf ly Hly base nx K y fs hm L); [done|done| |done|done]. rewrite in_level0. by vm_compute.
Qed.

Lemma serves_spawn a b c : serves (fun p => sys_spawn ly anchor p a b c).
Proof using Hly.
  unfold sys_spawn. apply serves_bind; [auto|]. intros [path|]; [|auto]. apply serves_bind; [apply serves_argument|]. intros [argument|]; [|auto]. apply serves_bind; [auto|]. intros parent. apply serves_bind; [apply serves_elf|auto].
Qed.

Lemma serves_collect child status : u64_ok status -> serves (fun p => process_collect_child p child status).
Proof.
  intros Hs. unfold process_collect_child. apply serves_bind; [auto|]. intros parent. destruct (_ || _); [auto|]. apply serves_bind; [auto|]. intros live. apply serves_bind; [auto|]. intros t. cbv zeta. destruct (pt_history t !! _) as [result|]; [|auto].
  apply serves_bind; [apply serves_write; [done|by vm_compute]|]. intros []; cbn [negb]; [|auto]. apply serves_bind; [by apply serves_table|auto].
Qed.

Lemma serves_file number a b c : u64_ok a -> u64_ok b -> u64_ok c -> serves (fun p => process_file_syscall ly anchor p number a b c).
Proof using Hly.
  intros Ha Hb Hc. unfold process_file_syscall. repeat match goal with |- context [if ?e =? ?d then _ else _] => destruct (e =? d) end; auto using serves_open, serves_read, serves_close, serves_seek, serves_fstat, serves_spawn, serves_collect, serves_info.
Qed.

(** ** System calls *)

(** The continuation of code that returns to a thread. *)
Definition resumed y0 (Q : Z -> S -> Prop) : Prop := forall y', sys_inv ly base nx K y' none -> rest (current y0) y0 y' -> returns ly y' -> Q (th_frame (thread y' (current y'))) y'.

Lemma resumed_resumes y0 Q fs hm L : resumed y0 Q -> resumes ly base nx K y0 fs hm L none Q.
Proof. intros HQ y' I'. apply HQ. by exists fs, hm, L. Qed.

Record serving y0 y (a : Z) : Prop := {
  sv_inv : sys_inv ly base nx K y none;
  sv_rest : rest (current y0) y0 y;
  sv_current : current y = current y0;
  sv_mine : mine y = mine y0;
  sv_entered : entered ly y a
}.

Lemma serving_resumed y0 y a Q : serving y0 y a -> resumed y0 Q -> resumed y Q.
Proof. intros [] HQ y' I' R' Hr. apply HQ; [done| |done]. rewrite sv_current0 in R'. by eapply rest_trans. Qed.

Lemma serving_spawned y0 y y' a : serving y0 y a -> spawned y y' -> serving y0 y' a.
Proof using Hly.
  intros [(fs & hm & L & I)] (I' & R' & St). constructor; [done|rewrite sv_current0 in R'; by eapply rest_trans|by rewrite (sd_current _ _ _ St)|by rewrite (steady_mine _ _ _ St)|].
  apply (steady_entered ly Hly y y' a L); [|done|done]. apply (ci_threads _ _ _ _ _ _ _ _ _ I). by eapply inv_current.
Qed.

Lemma wp_result y0 y a v (Q : unit -> S -> Prop) : serving y0 y a -> (forall y', serving y0 y' a -> Q tt y') -> wp (set_saved a (set_rax v)) Q y.
Proof using Hly.
  intros [(fs & hm & L & I)] HQ. apply (wp_set_rax ly Hly base nx K y fs hm L none); [done|done|]. intros y' I' R' En'. apply HQ. constructor; [by exists fs, hm, L|rewrite sv_current0 in R'; by eapply rest_trans|done|done|done].
Qed.

Lemma wp_serve y0 y a (call : Z -> Sys P Z) : serves call -> inside y -> serving y0 y a -> forall Q : Z -> S -> Prop, (forall r y', serving y0 y' a -> Q r y') -> wp (call (mine y0)) Q y.
Proof using Hly.
  intros Hc Hin Sv Q HQ. rewrite <- (sv_mine _ _ _ Sv). apply Hc; [apply Sv|done|]. intros r y' Sp. apply HQ. by eapply serving_spawned.
Qed.

Lemma wp_write y0 y a f (Q : unit -> S -> Prop) : serving y0 y a -> (forall y', serving y0 y' a -> Q tt y') -> wp (sys_write (mine y0) a f) Q y.
Proof using Hly.
  intros Sv HQ. unfold sys_write, set_result. destruct (_ && _); [by apply (wp_result y0)|]. destruct (_ <? _); [by apply (wp_result y0)|]. unfold read_vm. step. destruct (user_vm_copy_from _ _ _) as [bytes|]; [|by apply (wp_result y0)]. step.
  destruct Sv as [(fs & hm & L & I)]. destruct (inv_log ly base nx K y fs hm L none (y_log y ++ bytes) (current y) I) as [I' R']. apply (wp_result y0); [|done]. rewrite sv_current0 in R'. constructor; [by exists fs, hm, L|by eapply rest_trans|done|done|]. by destruct sv_entered0.
Qed.

Lemma wp_record y0 y a (Q : unit -> S -> Prop) : serving y0 y a -> inside y -> (forall y', serving y0 y' a -> inside y' -> Q tt y') -> wp (process_record_syscall (mine y0)) Q y.
Proof using Hly.
  intros Sv Hin HQ. pose proof (sv_entered _ _ _ Sv) as En. rewrite <- (sv_mine _ _ _ Sv). unfold process_record_syscall. step. step. apply wp_require.
  { pose proof (en_state _ _ _ En) as Es. unfold state_of in Es. rewrite (proj2 (Z.eqb_neq _ _) (en_mine _ _ _ En)), Es. done. }
  apply (serves_bind (fun p => set_proc p set_syscalls) (fun _ _ => process_table_set (set_stats stat_syscall))); [by apply serves_set|intros _; by apply serves_table|apply Sv|done|]. intros [] y' Sp. apply HQ; [by eapply serving_spawned|]. by eapply inside_steady; [apply Sp|].
Qed.

(** The registers that a call takes as arguments are 64-bit words. *)
Definition args_ok (f : interrupt_frame) : Prop := u64_ok (if_rdi f) /\ u64_ok (if_rsi f) /\ u64_ok (if_rdx f).

Lemma wp_on_syscall y fs hm L a Q : inv y fs hm L none -> entered ly y a -> on_stack ly y (current y) anchor -> args_ok (saved y a) -> resumed y Q -> wp (process_on_syscall ly anchor a) Q y.
Proof using Hly.
  intros I En Han (H1 & H2 & H3) HQ. assert (serving y y a) as Sv by (constructor; [by exists fs, hm, L|apply rest_refl|done|done|done]). assert (inside y) as Hin by (constructor; by try apply En).
  unfold process_on_syscall. step. rewrite (current_process ly base nx K y fs hm L none I). step. step. apply wp_require; [by rewrite (proj2 (Z.eqb_neq _ _) (en_mine _ _ _ En)), (en_mode _ _ _ En)|]. step. apply (wp_record y y a); [done|done|]. intros y1 S1 In1. set (f := saved y a) in *.
  assert (forall y2, serving y y2 a -> wp (scheduler_resume_user ly a) Q y2) as Hend. { intros y2 S2. pose proof (sv_inv _ _ _ S2) as (fs2 & hm2 & L2 & I2). apply (wp_resume_user ly Hly base nx K y2 fs2 hm2 L2 none); [done|apply S2|]. apply resumed_resumes. by eapply serving_resumed. }
  assert (forall ms y2, serving y y2 a -> wp (scheduler_yield_user ly a ms) Q y2) as Hyield. { intros ms y2 S2. pose proof (sv_inv _ _ _ S2) as (fs2 & hm2 & L2 & I2). apply (wp_yield_user ly Hly base nx K y2 fs2 hm2 L2 none); [done|apply S2|]. apply resumed_resumes. by eapply serving_resumed. }
  destruct (_ =? UTAMO_SYS_EXIT).
  - pose proof (sv_inv _ _ _ S1) as (fs1 & hm1 & L1 & I1). rewrite <- (sv_mine _ _ _ S1). step. apply (wp_mark_exit ly base nx K y1 fs1 hm1 L1 none a); [done|apply S1|]. intros y2 I2 R2 Ec Em Hr Hl Hs Ho.
    apply (wp_exit_user ly Hly base nx K y2 fs1 hm1 L1 none); [done|rewrite Em; apply (sv_entered _ _ _ S1)|done|done|done|done|]. apply (resumes_step ly base nx K y1); [apply resumed_resumes; by eapply serving_resumed|done|done].
  - destruct (_ =? UTAMO_SYS_YIELD); [step; apply (wp_result y); auto|]. destruct (_ =? UTAMO_SYS_SLEEP); [step; apply (wp_result y); auto|]. apply sys_wp_bind. destruct (_ =? UTAMO_SYS_WRITE); [by apply (wp_write y)|]. destruct (_ =? UTAMO_SYS_GETPID); [step; by apply (wp_result y)|].
    step. apply (wp_serve y y1 a _ (serves_file (if_rax f) _ _ _ H1 H2 H3) In1 S1). intros r y2 S2. by apply (wp_result y).
Qed.

(** ** The dispatcher *)

Definition critical (v : Z) : bool := (v =? 2) || (v =? 8) || (v =? 18).
Definition is_irq (v : Z) : bool := (32 <=? v) && (v <? 32 + 16).

(** What the CPU and the kernel's code give the dispatcher: any vector from user
    mode but the three critical ones; from the kernel, which runs with preemption
    points only, an interrupt line or [thread_yield_trap]. *)
Definition delivered y (a : Z) : Prop := interrupted ly y a /\ args_ok (saved y a) /\
  if decide (mine y = NULL) then is_irq (if_vector (saved y a)) = true \/ if_vector (saved y a) = UTAMO_SCHEDULE_VECTOR
  else critical (if_vector (saved y a)) = false.

Lemma interrupted_cpu y k a : interrupted ly y a -> interrupted ly (with_cpu k y) a.
Proof. unfold interrupted. change (mine (with_cpu k y)) with (mine y). case_decide; [done|]. intros []. by constructor. Qed.

Lemma wp_irq y fs hm L v a (Q : unit -> S -> Prop) : inv y fs hm L none -> interrupted ly y a -> 0 <= v < 16 ->
  (forall y', inv y' fs hm L none -> rest (current y) y y' -> current y' = current y -> interrupted ly y' a -> Q tt y') -> wp (device (irq_dispatch v)) Q y.
Proof.
  intros I Hi Hv HQ. pose proof (proj2 (ci_clock _ _ _ _ _ _ _ _ _ I)) as Hu. pose proof (irq_ticks v (cp_devices (y_cpu y)) Hu Hv) as Ht. unfold wp, device. destruct (irq_dispatch v (cp_devices (y_cpu y))) as [d []]. cbn [fst] in Ht. set (k := set_devices d (y_cpu y)).
  destruct (inv_cpu ly base nx K y fs hm L none k (current y) I eq_refl eq_refl) as [I' R'].
  1, 2: unfold cp_ticks in *; cbn [cp_devices set_devices k]; rewrite Ht; unfold u64_ok in *; destruct (v =? 0); lia.
  apply HQ; [done|done|done|]. by apply interrupted_cpu.
Qed.

Lemma wp_dispatch y fs hm L cr2 a Q : inv y fs hm L none -> delivered y a -> on_stack ly y (current y) anchor -> resumed y Q -> wp (interrupt_dispatch ly anchor cr2 a) Q y.
Proof using Hly.
  intros I (Hi & Har & Hv) Han HQ. unfold interrupt_dispatch. step. fold (critical (if_vector (saved y a))) (is_irq (if_vector (saved y a))). pose proof (resumed_resumes y Q fs hm L HQ) as HQ'. destruct (is_irq _) eqn:Eq.
  - step. apply (wp_irq y fs hm L _ a); [done|done|unfold is_irq in Eq; lia|]. intros y1 I1 R1 Ec Hi1. apply (wp_on_interrupt ly Hly base nx K y1 fs hm L none); [done|done|]. by apply (resumes_step ly base nx K y).
  - destruct (decide (mine y = NULL)) as [Hm|Hm].
    + destruct Hv as [|Hv]; [done|]. pose proof Hi as Hi'. unfold interrupted in Hi'. rewrite decide_True in Hi' by done. destruct Hi' as [Hval _]. assert (Z.land (if_cs (saved y a)) 3 =? 3 = false) as ->.
      { unfold valid_frame in Hval. destruct (negb _); [done|]. unfold mine, process_at in Hm. rewrite Hm, Z.eqb_refl in Hval. cbn [negb] in Hval. assert (if_cs (saved y a) = 8) as -> by (revert Hval; rewrite !andb_true_iff, Z.eqb_eq; tauto). done. }
      cbn [andb]. step. cbn [negb]. rewrite Hv. by apply (wp_on_interrupt ly Hly base nx K y fs hm L none).
    + pose proof Hi as En. unfold interrupted in En. rewrite decide_False in En by done. rewrite (en_mode _ _ _ En), Hv. cbn [Z.eqb Pos.eqb andb negb]. step. apply (wp_frame_safe ly base nx K y fs hm L none); [done|done|apply En|].
      destruct (process_user_return_valid _); cbn [negb]; [|by apply (wp_on_fault ly Hly base nx K y fs hm L none)]. destruct (_ =? UTAMO_SYSCALL_VECTOR); [by apply (wp_on_syscall y fs hm L)|]. destruct (_ =? UTAMO_SCHEDULE_VECTOR); [by apply (wp_on_interrupt ly Hly base nx K y fs hm L none)|]. by apply (wp_on_fault ly Hly base nx K y fs hm L none).
Qed.
End calls.
