(* ===== verification/SystemBoot.v ===== *)
(** * Threads and processes: the start of the scheduler

    [scheduler_init] and [process_init], as main.c calls them when memory and the
    heap are up, establish the invariant: the shell's thread runs on the boot
    stack, the idle thread is ready, and there are no processes. *)

From stdpp Require Import gmap.
From S2P Require Import Prelude MemoryHelpers Bytes VmmCore VmmMap Frames KernelVm HeapCore HeapSpec HeapStore KernelHeap ThreadStack ThreadStackProps UserVm SchedCore SchedInv SchedOps SchedTrace SchedMoves Vfs World WorldInv Devices System Scheduler Process SystemInv SystemSteps SystemEvents SystemSpawn.
Open Scope Z_scope.

Section boot.
Context {P : Type} `{PageFramesLaws P} (ly : layout) (Hly : layout_ok ly) (base : Z -> Prop) (nx : bool) (K : gset Z).
Notation S := (system P).
Notation self := (ly_scheduler ly).
Notation inv := (core_inv ly base nx K).
Implicit Types y : S.

(** The two calls of main.c; [status] is what [arch_user_init] finds. *)
Definition start (status : arch_user_status) : Sys P unit :=
  ok ← scheduler_init ly false;
  _ ← require ok;
  ok ← process_init false status;
  require ok.

(** The state in which they are called: the static objects are zero, the machine
    has no stacks and no address spaces, the blocks of the heap are those of [K],
    and CR3 holds the root that vmm.c has adopted. *)
Record booted y (fs : list Z) (hm : gmap Z (list Z)) : Prop := {
  bt_world : world_inv base (y_world y) nx fs hm ∅ ∅;
  bt_heap : forall p, is_Some (hm !! p) <-> p ∈ K;
  bt_static : ly_idle ly <> NULL /\ ly_bootstrap ly <> NULL;
  bt_threads : y_threads y = <[ly_idle ly := thread_zero]> {[ly_bootstrap ly := thread_zero]};
  bt_procs : y_procs y = ∅;
  bt_sched : sc_initialized (s_core (y_sched y)) = false /\ forall p, node (y_sched y) p = task_zero;
  bt_statics : sx_ready (y_statics y) = false;
  bt_table : pt_registry (y_table y) = replicate (Z.to_nat UTAMO_PROCESS_LIMIT) NULL /\ ps_active (pt_stats (y_table y)) = 0 /\ pt_initialized (y_table y) = false;
  bt_cpu : cp_gdt (y_cpu y) = true /\ u64_ok (cp_ticks (y_cpu y));
  bt_kernel : let m := w_kernel (y_world y) in let mask := vs_physical_mask (kspace m) in
    Z.land (w_cr3 (y_world y)) mask = vs_root_phys (kspace m) /\ memory_physical_mask (vinf_physical_bits (kv_information (ks_vmm (vm_ctx m)))) = Some mask;
  bt_files : forall path node, vfs_lookup (y_vfs y) path = Some node -> 0 <= nd_size node
}.

(** The idle thread when its stack has its first frame. *)
Definition idle_thread (k : Z) y : kernel_thread := MkThread (descriptor k (generation y k)) (guard_at k + 69632 - 192) (ly_idle_main ly) 0 idle_name false NULL.
Definition shell_thread : kernel_thread := MkThread thread_stack_zero 0 0 0 shell_name false NULL.

(** The state that [scheduler_init] leaves. *)
Record begun y fs hm (y' : S) : Prop := {
  bg_slot : exists k gs, 0 <= k < 64 /\ world_inv base (y_world y') nx fs hm {[k := gs]} ∅ /\ thread y' (ly_idle ly) = idle_thread k y' /\ valid_frame ly y' (ly_idle ly) (guard_at k + 69632 - 192) = true;
  bg_shell : thread y' (ly_bootstrap ly) = shell_thread;
  bg_threads : forall t, is_Some (y_threads y' !! t) <-> t = ly_idle ly \/ t = ly_bootstrap ly;
  bg_fixed : same_fixed (vm_ctx (w_kernel (y_world y))) (vm_ctx (w_kernel (y_world y')));
  bg_cr3 : w_cr3 (y_world y') = w_cr3 (y_world y);
  bg_sched : sched_ok self (y_sched y');
  bg_tasks : tasks y' = [ly_idle ly; ly_bootstrap ly];
  bg_current : current y' = ly_bootstrap ly /\ sc_idle (s_core (y_sched y')) = ly_idle ly /\ running y' /\ level y' = 0;
  bg_now : sc_now (s_core (y_sched y')) = cp_ticks (y_cpu y');
  bg_statics : sx_ready (y_statics y') = true /\ sx_kernel_cr3 (y_statics y') = w_cr3 (y_world y');
  bg_procs : y_procs y' = ∅;
  bg_table : pt_registry (y_table y') = pt_registry (y_table y) /\ ps_active (pt_stats (y_table y')) = ps_active (pt_stats (y_table y));
  bg_cpu : cp_gdt (y_cpu y') = cp_gdt (y_cpu y) /\ cp_ticks (y_cpu y') = cp_ticks (y_cpu y);
  bg_vfs : y_vfs y' = y_vfs y
}.

Lemma begun_inv y fs hm y' : booted y fs hm -> begun y fs hm y' -> exists L, inv y' fs hm L none.
Proof using Hly.
  intros B [(k & gs & Hk & W & Ei & Hv) Es Hth Hfx E3 Hok Htk (Ec & Eid & Hr & Hl) Hnow (Hrd & Hk3) Ep [Et Eact] [Egdt Etick] Evfs]. destruct B. exists {[k := gs]}. pose proof (lo_static _ Hly) as (Hne & Hi & Hb).
  assert (forall t, t ∈ tasks y' <-> t = ly_idle ly \/ t = ly_bootstrap ly) as Hin by (intros t; rewrite Htk, elem_of_cons, list_elem_of_singleton; done).
  assert (forall t, t ∈ tasks y' -> process_at y' t = NULL) as Hp by (intros t [-> | ->]%Hin; unfold process_at; rewrite ?Ei, ?Es; done).
  assert (slot_of y' (ly_idle ly) = k) as Esl by (unfold slot_of; by rewrite Ei).
  assert (forall p, ~ is_Some (y_procs y' !! p)) as Hnp by (intros p [x Hx]; by rewrite Ep, lookup_empty in Hx). assert (forall p, p ∈ pt_registry (y_table y') -> p = NULL) as Hnr by (intros p; rewrite Et, (proj1 bt_table0); intros [-> _]%elem_of_replicate; done).
  assert (forall p, p ∈ K -> p <> ly_idle ly /\ p <> ly_bootstrap ly) as HK. { intros p Hp'%bt_heap0. destruct (in_heap base nx _ _ _ _ _ p bt_world0 Hp') as (Hh & _). split; by intros ->. }
  assert (~ dead y' (ly_bootstrap ly)) as Hbd by (rewrite <- Ec; apply running_not_zombie; exact Hr). constructor; try done.
  - by rewrite Ep, fmap_empty.
  - split; [apply Hin; by right|done].
  - rewrite Hnow, Etick. split; [done|apply bt_cpu0].
  - rewrite Egdt. apply bt_cpu0.
  - apply (kernel_fixed (y_world y)); [exact Hfx|]. rewrite Hk3, E3. exact bt_kernel0.
  - intros t Ht. constructor; [|intros _; by apply Hp|].
    + intros Hnb. apply Hin in Ht as [-> | ->]; [|done]. rewrite Esl, Ei. split_and!; [lia|lia|by rewrite lookup_singleton_eq|done].
    + intros H1 H2. by apply Hin in Ht as [-> | ->].
  - intros t t' [-> | ->]%Hin [-> | ->]%Hin; done.
  - intros t Ht Hpt. by rewrite Hp in Hpt.
  - intros t t' Ht _ Hpt. by rewrite Hp in Hpt.
  - intros t [-> | ->]%Hin Hc _; [rewrite Ei; exact Hv|by rewrite Ec in Hc].
  - unfold space_root. rewrite Hp, Hk3; [done|]. rewrite Ec. apply Hin. by right.
  - intros t. rewrite Hth, Hin. split; [by left|by intros [|]].
  - intros j. split; [|intros [(t & Ht & Hnb & <-)|[=]]; apply Hin in Ht as [-> | ->]; [|done]; rewrite Esl; by rewrite lookup_singleton_eq]. intros Hj. apply lookup_singleton_is_Some in Hj as <-. left. exists (ly_idle ly). split_and!; [apply Hin; by left|done|done].
  - intros p. split; [by intros ?%Hnp|]. intros [[Hp0 Hr']|[=]]. by apply Hnr in Hr'.
  - intros p Hp0 Hr'. by apply Hnr in Hr'.
  - intros p. rewrite bt_heap0. split; [by left|]. intros [|[(H1 & H2 & Ht%Hth)|Hx%Hnp]]; [done|tauto|done].
  - intros p Hx. by apply Hnp in Hx.
  - intros t Ht%Hth HtK. destruct (HK t HtK). tauto.
  - destruct bt_table0 as (Hr' & Ha & _). constructor; rewrite ?Et, ?Hr'.
    + by rewrite length_replicate.
    + intros i j p Hp0 [-> _]%lookup_replicate. done.
    + by rewrite Eact, Ha.
  - by rewrite Evfs.
Qed.

Lemma world_descriptor (w : world P) fs hm L us k : world_inv base w nx fs hm L us -> is_Some (L !! k) -> 0 <= k < 64 /\ descriptor_valid (w_stacks w) (descriptor k (arr_get (sk_generations (w_stacks w)) k)) = true.
Proof.
  intros W [gs Hgs]. pose proof (wi_stacks _ _ _ _ _ _ _ W) as SI. destruct (si_stack _ _ _ SI k gs Hgs) as (Hr & Hg & _). split; [done|]. apply (descriptor_exact (w_stacks w)); cbn [ts_slot descriptor]; [lia|apply SI|]. split_and!; [lia|apply (si_slots _ _ _ SI); [lia|by exists gs]|lia|done].
Qed.

Lemma wp_set_thread t f (Q : unit -> S -> Prop) y : (let y' := with_threads (<[t := f (thread y t)]> (y_threads y)) y in (forall q, thread y' q = if decide (q = t) then f (thread y t) else thread y q) ->
  (forall q, is_Some (y_threads y' !! q) <-> t = q \/ is_Some (y_threads y !! q)) -> Q tt y') -> wp (set_thread t f) Q y.
Proof. intros HQ. unfold set_thread. cbn [wp modify]. apply HQ; [apply thread_insert|]. intros q. cbn. apply lookup_insert_is_Some'. Qed.

Lemma init_running s idle bootstrap quantum now s' : sched_core_init self s idle bootstrap quantum now = (s', true) -> is_running s' bootstrap = true /\ st_preempt_depth (node s' bootstrap) = 0 /\ sc_now (s_core s') = now.
Proof. unfold sched_core_init. destruct (_ || _); [done|]. cbv zeta. intros [= <-]. unfold is_running. rewrite !node_with_core, !node_upd, decide_True by done. done. Qed.

Lemma wp_init y fs hm (Q : bool -> S -> Prop) : booted y fs hm -> (forall y', sx_ready (y_statics y') = false -> Q false y') -> (forall y', begun y fs hm y' -> y_table y' = y_table y -> Q true y') -> wp (scheduler_init ly false) Q y.
Proof using Hly.
  intros B HN HS. pose proof (lo_static _ Hly) as (Hne & _). destruct (lo_entry _ Hly) as [He1 He2]. destruct (lo_halt _ Hly) as [Hh1 Hh2]. unfold scheduler_init. step. rewrite (bt_statics _ _ _ B). cbn [orb]. step. apply wp_machine.
  pose proof (world_stack_alloc base (y_world y) nx fs hm ∅ ∅ (bt_world _ _ _ B)) as Ha. pose proof (alloc_cr3 (y_world y)) as E1. destruct (stack_alloc (y_world y)) as [w1 [t|]]; cbn [fst] in E1; cycle 1.
  { destruct Ha as (W1 & _). split; [by apply (wi_panic base _ _ _ _ _ _ W1)|]. apply HN. apply B. }
  destruct Ha as (k & gs & Hk & _ & -> & Eg & W1 & F1). split; [by apply (wi_panic base _ _ _ _ _ _ W1)|]. rewrite insert_empty in W1.
  assert (arr_get (sk_generations (w_stacks (y_world y))) k + 1 = arr_get (sk_generations (w_stacks w1)) k) as ->. { rewrite Eg. rewrite arr_get_set_eq; [done|]. pose proof (si_length _ _ _ (wi_stacks _ _ _ _ _ _ _ (bt_world _ _ _ B))). lia. }
  set (g := arr_get (sk_generations (w_stacks w1)) k). step. apply wp_set_thread. intros y1 T1 D1. apply sys_wp_bind, wp_machine. change (y_world y1) with w1.
  destruct (world_descriptor w1 fs hm {[k := gs]} ∅ k W1 ltac:(by rewrite lookup_singleton_eq)) as [_ Hd]. fold g in Hd.
  pose proof (world_stack_frame base w1 nx fs hm {[k := gs]} ∅ (descriptor k g) (ly_thread_bootstrap ly) (ly_cpu_halt ly) W1 ltac:(cbn; lia) Hd He1 ltac:(lia) Hh1 Hh2) as Hf. pose proof (frame_cr3 w1 (descriptor k g) (ly_thread_bootstrap ly) (ly_cpu_halt ly)) as E2.
  destruct (stack_frame _ _ _ w1) as [w2 r]. cbn [fst] in E2. destruct Hf as (-> & Es & W2 & F2 & f & flags & Hq & Hm). cbn [ts_top ts_slot descriptor] in *. split; [by apply (wi_panic base _ _ _ _ _ _ W2)|].
  step. apply wp_set_thread. intros y3 T3 D3. step. rewrite (frame_found ly y3 k g f flags (w_mem w1) (ly_thread_bootstrap ly) Hk Hq Hm). set (y4 := with_saved _ y3). step. apply wp_set_thread. intros y5 T5 D5. step. apply wp_set_thread. intros y6 T6 D6. step.
  destruct (bt_sched _ _ _ B) as [Hz1 Hz2]. destruct (bt_static _ _ _ B) as [Hi0 Hb0]. destruct (bt_cpu _ _ _ B) as [_ Hu]. change (cp_ticks (y_cpu y6)) with (cp_ticks (y_cpu y)). set (now := cp_ticks (y_cpu y)) in *.
  destruct (init_spec self (y_sched y) (ly_idle ly) (ly_bootstrap ly) 2 now Hz1 Hi0 Hb0 Hne) as (s' & Ei & Hrep & Hreg & Hcur & Hid); [by rewrite Hz2|by rewrite Hz2|done|done|].
  pose proof (typed_init self (y_sched y) (ly_idle ly) (ly_bootstrap ly) 2 now) as Hty. rewrite Ei in Hty. specialize (Hty ltac:(intros p; rewrite Hz2; by constructor) ltac:(by vm_compute) Hu eq_refl). cbn [fst] in Hty.
  step. apply (wp_scheduler _ _ y6 s' true); [exact Ei|]. step. apply wp_require; [done|]. step. set (y7 := with_statics _ _). cbn. apply HS; [|done].
  assert (forall q, thread y7 q = thread y6 q) as T7 by done. assert (thread y7 (ly_idle ly) = idle_thread k y7) as Eid.
  { rewrite T7, T6, decide_False by done. rewrite T5, decide_True by done. change (thread y4) with (thread y3). rewrite T3, decide_True by done. change (thread (with_world w2 y1)) with (thread y1). rewrite T1, decide_True by done. unfold idle_thread, generation. change (w_stacks (y_world y7)) with (w_stacks w2). rewrite Es. fold g. unfold thread. cbn. by rewrite (bt_threads _ _ _ B), lookup_total_insert_eq. }
  constructor; try done.
  - exists k, gs. split_and!; [lia|lia|done|done|]. apply (kernel_first ly y7 (ly_idle ly) k (generation y7 k) (ly_thread_bootstrap ly)); [done|done|by rewrite Eid|by rewrite Eid|done|done|]. change (saved y4 (guard_at k + 69632 - 192) = first_frame (guard_at k + 69632) (ly_thread_bootstrap ly)). unfold y4. by rewrite saved_insert, decide_True.
  - rewrite T7, T6, decide_True by done. rewrite T5, decide_False by done. change (thread y4) with (thread y3). rewrite T3, decide_False by done. change (thread (with_world w2 y1)) with (thread y1). rewrite T1, decide_False by done. unfold thread. cbn. by rewrite (bt_threads _ _ _ B), lookup_total_insert_ne, lookup_total_singleton_eq.
  - intros t. change (y_threads y7) with (y_threads y6). rewrite D6, D5. change (y_threads y4) with (y_threads y3). rewrite D3. change (y_threads (with_world w2 y1)) with (y_threads y1). rewrite D1. change (y_threads (with_world w1 y)) with (y_threads y). rewrite (bt_threads _ _ _ B), lookup_insert_is_Some', lookup_singleton_is_Some. intuition.
  - etrans; [exact (ef_fixed _ _ _ _ F2)|exact (ef_fixed _ _ _ _ F1)].
  - etrans; [exact E2|exact E1].
  - split; [done|by exists [], []].
  - destruct (init_running _ _ _ _ _ _ Ei) as (H1 & H2 & _). assert (current y7 = ly_bootstrap ly) as Ec by exact Hcur. unfold running, level, depth. fold (current y7). rewrite Ec. by split_and!.
  - exact (proj2 (proj2 (init_running _ _ _ _ _ _ Ei))).
  - exact (bt_procs _ _ _ B).
Qed.

(** Without memory for the idle thread's stack the kernel does not start;
    otherwise the invariant holds. *)
Lemma start_inv y fs hm status : booted y fs hm -> forall y' r, start status y = (y', r) -> r = Some tt -> sys_inv ly base nx K y' none /\ settled ly y' /\ running y' /\ level y' = 0 /\ current y' = ly_bootstrap ly /\ y_procs y' = ∅.
Proof using Hly.
  intros B y' r Er ->. unfold start in Er. assert (wp (scheduler_init ly false) (fun ok y1 => if ok then begun y fs hm y1 /\ y_table y1 = y_table y else True) y) as Hi by (by apply (wp_init y fs hm _ B)).
  unfold wp, mbind, sys_bind in *. destruct (scheduler_init ly false y) as [y1 [[]|]]; [|done|done]. destruct Hi as [Bg Et]. cbn [require mret sys_ret] in Er. unfold process_init, mbind, sys_bind in Er. cbn [gets] in Er. rewrite Et, (proj2 (proj2 (bt_table _ _ _ B))) in Er. cbn in Er. injection Er as <-.
  match goal with |- sys_inv _ _ _ _ ?z _ /\ _ => set (y2 := z) end. assert (begun y fs hm y2) as Bg2. { destruct Bg. by constructor. }
  destruct (begun_inv y fs hm y2 B Bg2) as [L I]. destruct (bg_current _ _ _ _ Bg2) as (Ec & _ & Hr & Hl). split_and!; [by exists fs, hm, L| |done|done|done|apply Bg2]. intros Hm. destruct Hm. unfold mine, process_at. by rewrite Ec, (bg_shell _ _ _ _ Bg2).
Qed.
End boot.
