(* ===== verification/SystemTrace.v ===== *)
(** * Threads and processes: histories of the kernel

    The events are what happens to the kernel after its start: an interrupt, an
    exception or a system call arrives, the running kernel thread calls a function
    of scheduler.h, process.h or keyboard.h, or the running program stores to its
    memory, where the CPU checks what [user_vm_copy_to] checks.  [admits] says when an event can happen:
    what the CPU guarantees, and the preconditions of the functions that answer a
    wrong call with a [PANIC].  [reachable] are the states after the start and any
    sequence of events. *)

From stdpp Require Import gmap.
From S2P Require Import Prelude MemoryHelpers Bytes VmmCore VmmMap Frames KernelVm HeapCore HeapSpec HeapStore KernelHeap ThreadStack ThreadStackProps UserVm UserVmSpec SchedCore SchedInv SchedMoves Vfs World WorldInv Devices System Scheduler Process SystemInv SystemSteps SystemEvents SystemSpawn SystemProcess SystemCalls SystemBoot.
Open Scope Z_scope.

Inductive event :=
  | EInterrupt (f : interrupt_frame) (frame anchor cr2 : Z)
  | ECreate (iflag : bool) (anchor : Z) (name : cstring) (entry argument : Z)
  | EReap (iflag : bool) (anchor : Z)
  | ESleep (iflag : bool) (milliseconds : Z)
  | EExit (iflag : bool)
  | EWaitInput (iflag : bool)
  | EReadChar
  | EPreemptDisable
  | EPreemptEnable (iflag : bool)
  | ESpawnElf (iflag : bool) (anchor : Z) (path argument : cstring) (parent : Z)
  | ESpawnProbe (iflag : bool) (anchor probe : Z)
  | EStore (address : Z) (bytes : list Z).

Section trace.
Context {P : Type} `{PageFramesLaws P} (ly : layout).
Notation S := (system P).
Notation self := (ly_scheduler ly).
Implicit Types y : S.

(** The registers [f] are stored at [frame] and the dispatcher runs. *)
Definition exec (e : event) : Sys P unit :=
  match e with
  | EInterrupt f frame anchor cr2 =>
      _ ← modify (fun y => with_saved (<[frame := f]> (y_saved y)) y); _ ← interrupt_dispatch ly anchor cr2 frame; mret tt
  | ECreate iflag anchor name entry argument => _ ← thread_create ly iflag anchor name entry argument; mret tt
  | EReap iflag anchor => thread_reap ly iflag anchor
  | ESleep iflag milliseconds => _ ← thread_sleep_ms ly iflag milliseconds; mret tt
  | EExit iflag => thread_exit ly iflag
  | EWaitInput iflag => _ ← scheduler_wait_input ly iflag; mret tt
  | EReadChar => _ ← device keyboard_read_char; mret tt
  | EPreemptDisable => preempt_disable ly
  | EPreemptEnable iflag => _ ← preempt_enable ly iflag; mret tt
  | ESpawnElf iflag anchor path argument parent => _ ← process_spawn_elf ly iflag anchor path argument parent; mret tt
  | ESpawnProbe iflag anchor probe => _ ← process_spawn_probe ly iflag anchor probe; mret tt
  | EStore address bytes => p ← gets mine; _ ← on_vm p (fun m => user_vm_copy_to m address bytes); mret tt
  end.

(** A kernel thread runs and calls a function. *)
Definition calls y : Prop := mine y = NULL /\ running y.

(** From user mode the CPU stores the frame below the stack pointer of the task
    state segment, and every vector can arrive but the three critical ones.  In the
    kernel, interrupts are taken on the stack of the running thread, and only the
    lines of the interrupt controller and [thread_yield_trap] are foreseen; a thread
    that has ended does nothing but the latter. *)
Definition admits y (e : event) : Prop :=
  match e with
  | EInterrupt f frame anchor cr2 => args_ok f /\ on_stack ly y (current y) anchor /\
      if decide (mine y = NULL) then
        valid_frame ly (with_saved (<[frame := f]> (y_saved y)) y) (current y) frame = true /\
        (is_irq (if_vector f) = true \/ if_vector f = UTAMO_SCHEDULE_VECTOR) /\ (dead y (current y) -> if_vector f = UTAMO_SCHEDULE_VECTOR)
      else frame = cp_rsp0 (y_cpu y) - FRAME_BYTES /\ Z.land (if_cs f) 3 = 3 /\ critical (if_vector f) = false
  | ECreate _ anchor _ _ _ | EReap _ anchor => calls y /\ on_stack ly y (current y) anchor
  | ESleep _ _ | EWaitInput _ | EReadChar => calls y
  | EExit iflag => calls y /\ iflag = true /\ level y = 0 /\ current y <> ly_idle ly /\ current y <> ly_bootstrap ly
  | EPreemptDisable => calls y /\ level y < UINT32_MAX
  | EPreemptEnable _ => calls y /\ level y <> 0
  | ESpawnElf _ anchor _ _ _ | ESpawnProbe _ anchor _ => calls y /\ level y < UINT32_MAX /\ on_stack ly y (current y) anchor
  | EStore address bytes => mine y <> NULL /\ u64_ok address /\ u64_ok (Z.of_nat (length bytes))
  end.

Context (Hly : layout_ok ly) (base : Z -> Prop) (nx : bool) (K : gset Z).
Notation inv := (core_inv ly base nx K).

Inductive reachable : S -> Prop :=
  | reach_start y0 fs hm status y : booted ly base nx K y0 fs hm -> start ly status y0 = (y, Some tt) -> reachable y
  | reach_step y e y' : reachable y -> admits y e -> exec e y = (y', Some tt) -> reachable y'.

(** ** Every event *)

Definition good y : Prop := sys_inv ly base nx K y none /\ settled ly y.
Definition stepped y y' : Prop := good y' /\ rest (current y) y y'.

Lemma kernel_settled y : mine y = NULL -> settled ly y.
Proof. intros E Hm. by rewrite E in Hm. Qed.

Lemma stepped_steady y y' : mine y = NULL -> sys_inv ly base nx K y' none -> rest (current y) y y' -> steady ly y y' -> stepped y y'.
Proof. intros Hm I R St. split; [split; [done|]|done]. apply kernel_settled. by rewrite (steady_mine _ _ _ St). Qed.

Lemma stepped_sched y fs hm L s' : inv y fs hm L none -> mine y = NULL -> moved self (y_sched y) s' -> sc_current (s_core s') = current y -> sc_now (s_core s') = sc_now (s_core (y_sched y)) -> stepped y (with_sched s' y).
Proof.
  intros I Hm M Hc Hn. destruct (inv_moved ly base nx K y s' fs hm L none (current y) I M Hc) as [I' R']; [rewrite Hn; apply I|]. split; [split; [by exists fs, hm, L|]|done]. apply kernel_settled. unfold mine. change (current (with_sched s' y)) with (sc_current (s_core s')). rewrite Hc. exact Hm.
Qed.

Lemma level_nonneg y fs hm L : inv y fs hm L none -> 0 <= level y.
Proof. intros I. destruct (ci_sched _ _ _ _ _ _ _ _ _ I) as [Hty _]. apply (tt_preempt _ (ty_nodes _ Hty (sc_current (s_core (y_sched y))))). Qed.

(** An interrupt. *)
Lemma wp_interrupt y f frame anchor cr2 (Q : Z -> S -> Prop) : good y -> admits y (EInterrupt f frame anchor cr2) ->
  (forall y', stepped y y' -> returns ly y' -> Q (th_frame (thread y' (current y'))) y') ->
  wp (_ ← modify (fun y => with_saved (<[frame := f]> (y_saved y)) y); interrupt_dispatch ly anchor cr2 frame) Q y.
Proof using Hly.
  intros [(fs & hm & L & I) Hs] (Har & Han & Had) HQ. step. set (y1 := with_saved _ y) in *. assert (saved y1 frame = f) as Ef by (unfold y1; by rewrite saved_insert, decide_True).
  assert (frame_owned ly y (current y) frame = true /\ delivered ly y1 frame) as [Ho Hd].
  { unfold delivered, interrupted. change (mine y1) with (mine y). rewrite Ef. destruct (decide (mine y = NULL)) as [Hm|Hm].
    - destruct Had as (Hv & Hvec & Hdead). split; [exact (valid_owned ly y1 (current y) frame Hv)|done].
    - destruct Had as (-> & Hcs & Hcr). destruct (Hs Hm) as (H1 & H2 & H3 & H4). assert (frame_owned ly y (current y) (cp_rsp0 (y_cpu y) - FRAME_BYTES) = true) as Ho.
      { pose proof (ci_threads _ _ _ _ _ _ _ _ _ I _ (inv_current _ _ _ _ _ _ _ _ _ I)) as T. apply (owned_on ly Hly y L (current y) _ T). destruct (stack_bounds ly Hly y L (current y) T) as (B1 & B2 & _ & _ & B5). rewrite H4. unfold on_stack, FRAME_BYTES. split_and!; [lia|lia|lia|].
        revert B5. change 15 with (Z.ones 4). change 7 with (Z.ones 3). rewrite !Z.land_ones by lia. change (2 ^ 4) with 16. change (2 ^ 3) with 8. intros B5. dlia. }
      split; [done|]. split_and!; [|done|done]. constructor; try done. by rewrite Ef. }
  destruct (inv_own_saved ly Hly base nx K y fs hm L none frame f I Ho) as [I1 R1]. apply (wp_dispatch ly Hly base nx K anchor y1 fs hm L); [done|done|exact Han|]. intros y' I' R' Hr. apply HQ; [|done]. split; [split; [done|apply Hr]|by eapply rest_trans].
Qed.

(** Calls of kernel threads. *)

Lemma wp_thread_sleep y iflag ms (Q : bool -> S -> Prop) : good y -> calls y -> (forall r y', stepped y y' -> Q r y') -> wp (thread_sleep_ms ly iflag ms) Q y.
Proof.
  intros [(fs & hm & L & I) Hs] [Hm Hr] HQ. assert (stepped y y) as Hself by (split; [split; [by exists fs, hm, L|done]|apply rest_refl]). unfold thread_sleep_ms, thread_yield. destruct (ms =? 0); [by apply HQ|]. step. destruct (can_block iflag y); cbn [negb]; [|by apply HQ].
  destruct (sleep_moved self (y_sched y) (sched_ms_to_ticks ms) (ci_sched _ _ _ _ _ _ _ _ _ I)) as (s' & b & Es & M & Hc & Hn & _); [apply ticks_u64|]. apply (wp_scheduler _ _ _ _ _ Es). apply HQ. by apply (stepped_sched y fs hm L).
Qed.

Lemma wp_wait_input y iflag (Q : bool -> S -> Prop) : good y -> calls y -> (forall r y', stepped y y' -> Q r y') -> wp (scheduler_wait_input ly iflag) Q y.
Proof.
  intros [(fs & hm & L & I) Hs] [Hm Hr] HQ. assert (stepped y y) as Hself by (split; [split; [by exists fs, hm, L|done]|apply rest_refl]). unfold scheduler_wait_input. step. step. destruct (can_block iflag y && _) eqn:Eb; cbn [negb orb]; [|by apply HQ]. destruct (input_pending y); [by apply HQ|].
  assert (current y <> sc_idle (s_core (y_sched y)) /\ st_preempt_depth (node (y_sched y) (current y)) = 0) as [Hi Hd] by (revert Eb; unfold can_block; rewrite !andb_true_iff, negb_true_iff, Z.eqb_neq, !Z.eqb_eq; tauto).
  destruct (block_moved self (y_sched y) (ci_sched _ _ _ _ _ _ _ _ _ I) Hi Hr Hd) as [Es M]. step. apply (wp_scheduler _ _ _ _ _ Es). step. apply wp_require; [done|]. cbn. apply HQ. by apply (stepped_sched y fs hm L).
Qed.

(** Reading the keyboard changes neither clock nor threads. *)
Lemma wp_read_char y (Q : option Z -> S -> Prop) : good y -> calls y -> (forall r y', stepped y y' -> Q r y') -> wp (device keyboard_read_char) Q y.
Proof.
  intros [(fs & hm & L & I) Hs] [Hm Hr] HQ. pose proof (read_char_ticks (cp_devices (y_cpu y))) as Ht. unfold wp, device. destruct (keyboard_read_char (cp_devices (y_cpu y))) as [d r]. cbn [fst] in Ht.
  destruct (inv_cpu ly base nx K y fs hm L none (set_devices d (y_cpu y)) (current y) I eq_refl eq_refl) as [I' R'].
  1, 2: unfold cp_ticks; cbn [cp_devices set_devices]; rewrite Ht; first [done|apply (ci_clock _ _ _ _ _ _ _ _ _ I)].
  apply HQ. split; [split; [by exists fs, hm, L|by apply kernel_settled]|done].
Qed.

(** A program's store. *)
Lemma steady_settled y y' : steady ly y y' -> settled ly y -> settled ly y'.
Proof.
  intros St Hs. unfold settled. rewrite (steady_mine _ _ _ St), (sd_cpu _ _ _ St). intros Hm. destruct (Hs Hm) as (H1 & H2 & H3 & H4). rewrite (sd_state _ _ _ St Hm). unfold running, level, depth, stack_top in *. fold (current y') (current y) in *. rewrite (sd_current _ _ _ St), (sd_running _ _ _ St), (sd_depth _ _ _ St), (sd_thread _ _ _ St). done.
Qed.

Lemma wp_store y v bytes (Q : bool -> S -> Prop) : good y -> mine y <> NULL -> u64_ok v -> u64_ok (Z.of_nat (length bytes)) ->
  (forall r y', stepped y y' -> Q r y') -> wp (on_vm (mine y) (fun m => user_vm_copy_to m v bytes)) Q y.
Proof.
  intros [I Hs] Hm Hv Hn HQ. apply (wp_own_write ly base nx K y v bytes); [done|done|done|done|]. intros r y' (I' & R & St). apply HQ. split; [split; [done|by apply (steady_settled y)]|done].
Qed.

Lemma wp_exit y (Q : unit -> S -> Prop) : good y -> admits y (EExit true) -> (forall y', stepped y y' -> Q tt y') -> wp (thread_exit ly true) Q y.
Proof.
  intros [(fs & hm & L & I) Hs] ([Hm Hr] & _ & Hl & Hi & Hb) HQ. unfold thread_exit. step. step. apply wp_require.
  { unfold can_block. rewrite (ci_ready _ _ _ _ _ _ _ _ _ I), (ci_idle _ _ _ _ _ _ _ _ _ I), (proj2 (Z.eqb_neq _ _) Hi), (proj2 (Z.eqb_neq _ _) Hb). cbn [negb andb]. unfold level, depth in Hl. fold (current y) in Hl. by rewrite Hl. }
  destruct (exit_moved self (y_sched y) (ci_sched _ _ _ _ _ _ _ _ _ I)) as [Es Hok]; [by rewrite (ci_idle _ _ _ _ _ _ _ _ _ I)|done|done|]. step. apply (wp_scheduler _ _ _ _ _ Es). step. apply wp_require; [done|].
  destruct (inv_retired ly base nx K y fs hm L none I Hok Hb) as [I1 R1]; [intros Hp; by rewrite <- Hm in Hp|]. set (y1 := with_sched _ y) in *. unfold statics. cbn [wp modify].
  destruct (inv_statics ly base nx K y1 fs hm L none (count_exited (y_statics y1)) (current y) I1 eq_refl eq_refl) as [I2 R2]. apply HQ. split; [split; [by exists fs, hm, L|by apply kernel_settled]|by eapply rest_trans].
Qed.

Lemma wp_preempt_disable y (Q : unit -> S -> Prop) : good y -> admits y EPreemptDisable -> (forall y', stepped y y' -> Q tt y') -> wp (preempt_disable ly) Q y.
Proof.
  intros [(fs & hm & L & I) Hs] ([Hm Hr] & Hl) HQ. apply (wp_disable ly base nx K y fs hm L none _ I Hr Hl). intros y1 I1 D. destruct (disabled_mine _ y y1 D) as (_ & Em & _). apply HQ. split; [split; [by exists fs, hm, L|]|by apply D]. apply kernel_settled. by rewrite Em.
Qed.

Lemma wp_preempt_enable y iflag (Q : bool -> S -> Prop) : good y -> calls y -> level y <> 0 -> (forall r y', stepped y y' -> Q r y') -> wp (preempt_enable ly iflag) Q y.
Proof.
  intros [(fs & hm & L & I) Hs] [Hm Hr] Hl HQ. apply (wp_enable ly base nx K y fs hm L none iflag _ I Hr Hl). intros s' b y1 I1 R1 Ec _ _. apply HQ. split; [split; [by exists fs, hm, L|]|done]. apply kernel_settled. unfold mine. rewrite Ec. exact Hm.
Qed.

Lemma wp_event y e : good y -> admits y e -> wp (exec e) (fun _ y' => stepped y y') y.
Proof using Hly.
  intros G Ha. pose proof G as [(fs & hm & L & I) Hs]. destruct e as [f frame anchor cr2|iflag anchor name entry argument|iflag anchor|iflag ms|iflag|iflag| | |iflag|iflag anchor path argument parent|iflag anchor probe|address bytes]; cbn [exec].
  - pose proof (wp_interrupt y f frame anchor cr2 (fun _ y' => stepped y y') G Ha (fun y' Hst _ => Hst)) as Hw. revert Hw. unfold wp, mbind, sys_bind. cbn [modify]. destruct (interrupt_dispatch _ _ _ _ _) as [y' [r|]]; done.
  - destruct Ha as [[Hm Hr] Han]. step. apply (wp_thread_create ly Hly base nx K y fs hm L); [done|done|]. intros r y' ((R & St & _) & I' & _). cbn. by apply stepped_steady.
  - destruct Ha as [[Hm Hr] Han]. apply (wp_thread_reap ly Hly base nx K); [by exists fs, hm, L|done|]. intros y' (I' & R & St). by apply stepped_steady.
  - step. by apply wp_thread_sleep.
  - pose proof Ha as (_ & -> & _). by apply wp_exit.
  - step. by apply wp_wait_input.
  - step. by apply wp_read_char.
  - by apply wp_preempt_disable.
  - destruct Ha. step. by apply wp_preempt_enable.
  - destruct Ha as ([Hm Hr] & Hl & Han). step. pose proof (level_nonneg y fs hm L I). apply (wp_spawn_elf ly Hly base nx K y fs hm L); [done|done|lia|done|]. intros r y' (I' & R & St). cbn. by apply stepped_steady.
  - destruct Ha as ([Hm Hr] & Hl & Han). step. pose proof (level_nonneg y fs hm L I). apply (wp_spawn_probe ly Hly base nx K y fs hm L); [done|done|lia|done|]. intros r y' (I' & R & St). cbn. by apply stepped_steady.
  - destruct Ha as (Hm & Hv & Hn). step. step. by apply wp_store.
Qed.

Lemma reachable_good y : reachable y -> good y.
Proof using Hly.
  induction 1 as [y0 fs hm status y B E|y e y' _ IH Ha E].
  - destruct (start_inv ly Hly base nx K y0 fs hm status B y (Some tt) E eq_refl) as (I & Hs & _). done.
  - pose proof (wp_event y e IH Ha) as Hw. unfold wp in Hw. rewrite E in Hw. apply Hw.
Qed.
End trace.
