(* ===== verification/SystemExample.v ===== *)
(** * A small kernel

    A machine with 128 frames, its kernel and heap, and the static objects of the
    scheduler and the process table before their start. *)

From stdpp Require Import gmap.
From S2P Require Import Prelude MemoryHelpers MemoryMap Hhdm PmmCore PmmProps PmmInit PmmTrace PmmFrames Bytes VmmCore VmmMap Frames KernelVm KernelPages KernelVmProps HeapPages HeapCore HeapSpec HeapStore KernelHeap ThreadStack ThreadStackProps UserVm SchedCore SchedInv SchedMoves Vfs World WorldInv Devices System Scheduler Process SystemInv SystemEvents SystemCalls SystemBoot SystemTrace.
Open Scope Z_scope.

Section first.
Context {P : Type} `{PageFramesLaws P}.

(** The frames that are neither free nor the heap's, when there are no stacks and no
    address spaces. *)
Definition unowned (w : world P) (fs : list Z) (g : Z) : Prop := kloose (vm_ctx (w_kernel w)) g /\ g ∉ fs.

Lemma first_world (h : @kernel_heap P) w nx fs : heap_ok h nx fs ∅ -> w_stacks w = stacks_boot -> world_inv (unowned (from_heap h w) fs) (from_heap h w) nx fs ∅ ∅ ∅.
Proof.
  intros Ho Es. assert (heap_view (from_heap h w) = h) as Eh by (by destruct h as [[? ? [? ?]] ?]). pose proof (ho_backed _ _ _ _ Ho) as B. constructor.
  - by rewrite Eh.
  - change (stack_inv (w_stacks w) (bk_vm (ar_ctx (kh_arena h))) ∅). rewrite Es. apply boot_inv. exact (bd_inv _ _ _ B).
  - intros p u Hu. by rewrite lookup_empty in Hu.
  - intros p u Hu. by rewrite lookup_empty in Hu.
  - intros g. split.
    + intros Hg. destruct (decide (g ∈ fs)); [by exists OHeap|by exists OBase].
    + intros [[| |k|p] Hg]; cbn in Hg; [apply Hg|exact (proj2 (bd_frames _ _ _ B) g Hg)|destruct Hg as (gs & Hk & _); by rewrite lookup_empty in Hk|destruct Hg as (u & Hu & _); by rewrite lookup_empty in Hu].
  - assert (forall o g, owns (unowned (from_heap h w) fs) fs ∅ ∅ o g -> o = if decide (g ∈ fs) then OHeap else OBase) as Hone; [|intros o o' g H1 H2; by rewrite (Hone o g H1), (Hone o' g H2)].
    intros [| |k|p] g; cbn; [intros [_ Hn]; by rewrite decide_False|intros Hg; by rewrite decide_True|intros (gs & Hk & _); by rewrite lookup_empty in Hk|intros (u & Hu & _); by rewrite lookup_empty in Hu].
Qed.
End first.

(** ** Histories that can be evaluated *)

Section evaluate.
Context {P : Type} `{PageFramesLaws P} (ly : layout).
Notation S := (system P).

Definition in_u64 (x : Z) : bool := (0 <=? x) && (x <=? UINT64_MAX).
Definition on_own_stack (y : S) (a : Z) : bool := (stack_bottom ly y (current y) <=? a) && (a <? stack_top ly y (current y)).
Definition may_call (y : S) : bool := (mine y =? NULL) && is_running (y_sched y) (current y).

(** [admits], decided. *)
Definition allows (y : S) (e : event) : bool :=
  match e with
  | EInterrupt f frame anchor cr2 => in_u64 (if_rdi f) && in_u64 (if_rsi f) && in_u64 (if_rdx f) && on_own_stack y anchor &&
      if mine y =? NULL then
        valid_frame ly (with_saved (<[frame := f]> (y_saved y)) y) (current y) frame &&
        ((if_vector f =? UTAMO_SCHEDULE_VECTOR) || (is_irq (if_vector f) && negb (state_eqb (st_state (node (y_sched y) (current y))) UTAMO_SCHED_ZOMBIE)))
      else (frame =? cp_rsp0 (y_cpu y) - FRAME_BYTES) && (Z.land (if_cs f) 3 =? 3) && negb (critical (if_vector f))
  | ECreate _ anchor _ _ _ | EReap _ anchor => may_call y && on_own_stack y anchor
  | ESleep _ _ | EWaitInput _ | EReadChar => may_call y
  | EExit iflag => may_call y && iflag && (level y =? 0) && negb (current y =? ly_idle ly) && negb (current y =? ly_bootstrap ly)
  | EPreemptDisable => may_call y && (level y <? UINT32_MAX)
  | EPreemptEnable _ => may_call y && negb (level y =? 0)
  | ESpawnElf _ anchor _ _ _ | ESpawnProbe _ anchor _ => may_call y && (level y <? UINT32_MAX) && on_own_stack y anchor
  | EStore address bytes => negb (mine y =? NULL) && in_u64 address && in_u64 (Z.of_nat (length bytes))
  end.

Lemma on_own_stack_sound y a : on_own_stack y a = true -> on_stack ly y (current y) a.
Proof. unfold on_own_stack, on_stack. lia. Qed.
Lemma may_call_sound y : may_call y = true -> calls y.
Proof. unfold may_call, calls, running. rewrite andb_true_iff, Z.eqb_eq. done. Qed.

Lemma allows_sound y e : allows y e = true -> admits ly y e.
Proof.
  destruct e; cbn [allows admits]; rewrite ?andb_true_iff, ?Z.eqb_eq, ?Z.ltb_lt, ?negb_true_iff, ?Z.eqb_neq; try (intuition auto using on_own_stack_sound, may_call_sound; fail).
  + unfold args_ok, in_u64, u64_ok. rewrite !andb_true_iff, !Z.leb_le. intros [[[[H1 H2] H3] H4] H5]. split_and!; try lia; [by apply on_own_stack_sound|]. destruct (Z.eqb_spec (mine y) NULL) as [E|E]; [rewrite decide_True by done|rewrite decide_False by done].
    - apply andb_true_iff in H5 as [Hv Ho]. apply orb_true_iff in Ho as [Ho%Z.eqb_eq|[Hi Hz]%andb_true_iff]; [split_and!; auto|]. split_and!; [done|by left|]. intros Hd. unfold dead, zombie in Hd. by rewrite Hd in Hz.
    - rewrite !andb_true_iff, !Z.eqb_eq, negb_true_iff in H5. tauto.
  + unfold in_u64, u64_ok. rewrite !andb_true_iff, !Z.leb_le. tauto.
Qed.

Fixpoint history (events : list event) (y : S) : option S :=
  match events with
  | [] => Some y
  | e :: events =>
      if allows y e then
        match exec ly e y with
        | (y', Some _) => history events y'
        | (_, None) => None
        end
      else None
  end.

Lemma history_reachable base nx K events : forall y y', reachable ly base nx K y -> history events y = Some y' -> reachable ly base nx K y'.
Proof.
  induction events as [|e events IH]; intros y y' Hr; cbn [history]; [by intros [= <-]|]. destruct (allows y e) eqn:Ea; [|done]. destruct (exec ly e y) as [y1 [[]|]] eqn:Ee; [|done]. apply IH. apply (reach_step ly base nx K y e); [done|by apply allows_sound|done].
Qed.
End evaluate.

Module SmallKernel.
Definition map : memory_map := MkMap [MkRegion 0 524288 UTAMO_MEMORY_USABLE] 524288 0.
Definition plan : pmm_plan_t := Eval vm_compute in default (PmmCore.MkPlan 0 0 0 0) (pmm_plan map).
Definition frames : pmm_state :=
  Eval vm_compute in let st := fst (pmm_core_init ex_blank map plan (replicate 4096 7)) in PmmCore.with_mem st (take 32 (pmm_mem st)).
Definition machine128 : PmmFrames.machine := MkMachine frames (MkHhdm map 0xffff800000000000 0xfffffff000 true).

Lemma map_wf_128 : map_wf map.
Proof.
  constructor; simpl; try done.
  - by repeat constructor.
  - intros [|i] [|j] r s Hij Hi Hj; simplify_eq/=; lia.
  - intros [|i] [|j] r s Hij Hi Hj; simplify_eq/=.
Qed.

Lemma wf_128 : machine_wf machine128.
Proof.
  constructor; cbn.
  - apply pmm_wf_b_sound. by vm_compute.
  - exists (MkHhdm (MkMap [] 0 0) 0 0 false), 40. split_and!; [unfold u64_ok, UINT64_MAX; lia|apply map_wf_128|by vm_compute].
  - intros f [[Hf _]%elem_of_free|[Hf _]%elem_of_allocated]%elem_of_union; change (pmm_span frames) with 128 in Hf;
      change ((true && (0 <=? f) && (f <? 128)) || false = true); lia.
Qed.

Definition ly : layout :=
  MkLayout 0xffffffff80100000 0xffffffff80101000 0xffffffff80102000 0xffffffff80200000 0xffffffff80204000
    0xffffffff80001000 0xffffffff80002000 0xffffffff80003000 [0x90; 0xeb; 0xfd].

Definition heap : @kernel_heap PmmFrames.machine := first_heap machine128.
Definition bare_world : world PmmFrames.machine :=
  MkWorld (bare_kernel machine128) (ar_heap (kh_arena (blank_heap machine128))) (fun _ => 0) heap_pages_zero false stacks_boot 8192 0.
Definition table : process_table :=
  MkTable (replicate 16 NULL) (replicate (Z.to_nat UTAMO_PROCESS_HISTORY) result_zero) 0 1 (MkPStats 0 0 0 0 0 0 UTAMO_USER_UNINITIALIZED) false.
(** The ports answer zero, and the keyboard is in service. *)
Definition idle_devices : devices := MkDevices (MkPorts (fun _ => 0) 0 []) 0xff 0xff 0 input_ring_init input_decoder_init true.
Definition off : system PmmFrames.machine :=
  MkSystem (from_heap heap bare_world)
    (MkSched (MkCore (replicate (Z.to_nat UTAMO_SCHED_MAX_TASKS) NULL) NULL NULL NULL NULL NULL 0 0 0 0 0 0 false false) ∅)
    (<[ly_idle ly := thread_zero]> {[ly_bootstrap ly := thread_zero]}) ∅ ∅ (MkStatics false 0 0 0 0 0 0 0) table
    (MkCpu true 0 UTAMO_USER_UNINITIALIZED idle_devices) (MkVfs false []) (fun _ => 0) [].

Lemma ly_ok : layout_ok ly.
Proof.
  constructor; cbn.
  - done.
  - unfold heap_range, UTAMO_HEAP_BASE, UTAMO_HEAP_MAX_SIZE. split_and!; lia.
  - split_and!; [by vm_compute|lia|by vm_compute|lia|lia|unfold UINT64_MAX; lia].
  - intros k a Hk Ha Hr. destruct (guard_facts k Hk) as (_ & _ & Hlo & Hhi). unfold stack_range, VMM_DYNAMIC_BASE in *. lia.
  - split; [by vm_compute|lia].
  - split; [by vm_compute|lia].
Qed.

Lemma bare_128 : kinv (bare_kernel machine128).
Proof. apply bare_kinv; [apply wf_128|by vm_compute|by vm_compute]. Qed.

Lemma heap_runs : heap_init (blank_heap machine128) = (heap, true).
Proof. apply bare_init; vm_cast_no_check (eq_refl true). Qed.

Lemma off_world : exists nx fs, world_inv (unowned (y_world off) fs) (y_world off) nx fs ∅ ∅ ∅.
Proof.
  pose proof (heap_init_ok (blank_heap machine128) ltac:(by split_and!) bare_128) as Hi. rewrite heap_runs in Hi. destruct Hi as (nx & fs & Ho & _). exists nx, fs. exact (first_world heap bare_world nx fs Ho eq_refl).
Qed.

Lemma off_booted : exists nx fs, booted ly (unowned (y_world off) fs) nx ∅ off fs ∅.
Proof.
  destruct off_world as (nx & fs & W). exists nx, fs. constructor; [exact W|..].
  - intros p. rewrite lookup_empty. split; [by intros [? ?]|by intros ?%elem_of_empty].
  - by split.
  - exact eq_refl.
  - exact eq_refl.
  - split; [exact eq_refl|]. intros p. exact eq_refl.
  - exact eq_refl.
  - split_and!; exact eq_refl.
  - split; [exact eq_refl|by vm_compute].
  - split; [vm_cast_no_check (eq_refl 8192)|vm_cast_no_check (eq_refl (Some 0xfffffff000))].
  - intros path nd. done.
Qed.

(** ** A history

    The shell starts two processes and yields; the first process asks for its
    number and stores to its stack.  Then it exits, the second touches an address that is not mapped, the
    clock interrupts the shell, and the shell reaps. *)

Definition on : system PmmFrames.machine := fst (start ly UTAMO_USER_READY off).
Definition shell_anchor : Z := 0xffffffff80203000.
Definition process_anchor (k : Z) : Z := guard_at k + 69632 - 1024.
Definition kernel_frame (vector : Z) : interrupt_frame := MkFrame 0 0 0 0 0 0 0 0 0 0 0 0 0 0 0 vector 0 0xffffffff80001234 8 0x202 0xffffffff80203f80 16.
Definition user_frame (vector rax rdi : Z) : interrupt_frame := MkFrame 0 0 0 0 0 0 0 0 0 rdi 0 0 0 0 rax vector 0 0x400001 UTAMO_GDT_USER_CODE_SELECTOR 0x202 0x6ffffff8 UTAMO_GDT_USER_DATA_SELECTOR.
Definition shell_event (vector : Z) : event := EInterrupt (kernel_frame vector) 0xffffffff80203e00 shell_anchor 0.
Definition user_event (k vector rax rdi : Z) : event := EInterrupt (user_frame vector rax rdi) (guard_at k + 69632 - 176) (process_anchor k) 0x1234.
Definition opening : list event :=
  [ESpawnProbe true shell_anchor 0; ESpawnProbe true shell_anchor 3; shell_event UTAMO_SCHEDULE_VECTOR; user_event 1 UTAMO_SYSCALL_VECTOR UTAMO_SYS_GETPID 0; EStore 0x6fffff00 [1; 2; 3]].
Definition exit_event : event := user_event 1 UTAMO_SYSCALL_VECTOR UTAMO_SYS_EXIT 7.
Definition closing : list event := [exit_event; user_event 2 14 0 0; shell_event 32; EReap true shell_anchor].
Definition busy : system PmmFrames.machine := default off (history ly opening on).
Definition quiet : system PmmFrames.machine := default off (history ly closing busy).

Lemma on_reachable : exists base nx, reachable ly base nx ∅ on.
Proof.
  destruct off_booted as (nx & fs & B). exists (unowned (y_world off) fs), nx. apply (reach_start ly _ nx ∅ off fs ∅ UTAMO_USER_READY on B). assert (snd (start ly UTAMO_USER_READY off) = Some tt) as E by (vm_cast_no_check (eq_refl (Some tt))).
  unfold on. revert E. generalize (start ly UTAMO_USER_READY off). intros [y r]. cbn. by intros ->.
Qed.

Lemma history_default events y : match history ly events y with Some _ => true | None => false end = true -> history ly events y = Some (default off (history ly events y)).
Proof. generalize (history ly events y). by intros [y'|]. Qed.

Lemma busy_reachable : exists base nx, reachable ly base nx ∅ busy.
Proof.
  destruct on_reachable as (base & nx & Hr). exists base, nx. apply (history_reachable ly base nx ∅ opening on busy Hr). apply history_default. vm_cast_no_check (eq_refl true).
Qed.

Lemma quiet_reachable : exists base nx, reachable ly base nx ∅ quiet.
Proof.
  destruct busy_reachable as (base & nx & Hr). exists base, nx. apply (history_reachable ly base nx ∅ closing busy quiet Hr). apply history_default. vm_cast_no_check (eq_refl true).
Qed.

Lemma exit_allowed : admits ly busy exit_event.
Proof. apply allows_sound. vm_cast_no_check (eq_refl true). Qed.

(** The second process, which is ready while the first runs. *)
Definition second : Z := 0xffffc00001002510.
End SmallKernel.
