(* ===== verification/SystemProps.v ===== *)
(** * Threads and processes: the theorems

    For every state that the kernel can reach after its start: no event makes it
    panic, an event of one thread leaves the others alone, what the dispatcher
    returns to is safe, and the memory that is in use is exactly that of the
    threads and processes that exist. *)

From stdpp Require Import gmap.
From S2P Require Import Prelude MemoryHelpers Bytes VmmCore VmmMap VmmSpec Frames PmmFrames KernelVm HeapPages KernelPages HeapCore HeapSpec HeapStore KernelHeap ThreadStack ThreadStackProps UserVm UserVmTree UserVmOps UserVmLife UserVmSpec ElfLoadProps SchedCore SchedInv SchedMoves Vfs World WorldInv Devices System Scheduler Process SystemInv SystemSteps SystemEvents SystemSpawn SystemProcess SystemCalls SystemBoot SystemTrace SystemExample.
Open Scope Z_scope.

Section observe.
Context {P : Type} `{PageFramesLaws P}.
Notation M := (vm (ustate P)).

(** Address spaces with the same contents cannot be told apart. *)
Lemma shows_same (m m' : M) A : uvm_inv m A -> (forall F, shows m F -> shows m' F) -> exists A' U, urep m A U /\ uvm_inv m' A' /\ urep m' A' U.
Proof.
  intros Hi Hs. destruct (urep_exists m A) as [U Hu]. destruct (Hs (fun k => U !! k)) as (A' & Hi' & Hu'); [by exists A|]. by exists A', U.
Qed.

Lemma shows_read (m m' : M) A v n : uvm_inv m A -> (forall F, shows m F -> shows m' F) -> u64_ok v -> u64_ok n -> user_vm_copy_from m' v n = user_vm_copy_from m v n.
Proof.
  intros Hi Hs Hv Hn. destruct (shows_same m m' A Hi Hs) as (A' & U & Hu & Hi' & Hu'). destruct (user_step m A U Hi Hu (URead v n)) as (A1 & U1 & _ & _ & [E1 _] & _); [done|]. destruct (user_step m' A' U Hi' Hu' (URead v n)) as (A2 & U2 & _ & _ & [E2 _] & _); [done|].
  cbn in E1, E2. congruence.
Qed.

Lemma shows_query (m m' : M) A v : uvm_inv m A -> (forall F, shows m F -> shows m' F) -> u64_ok v -> (fun q => (vp_mapped q, vp_flags q)) <$> user_vm_query m' v = (fun q => (vp_mapped q, vp_flags q)) <$> user_vm_query m v.
Proof.
  intros Hi Hs Hv. destruct (shows_same m m' A Hi Hs) as (A' & U & Hu & Hi' & Hu'). destruct (user_step m A U Hi Hu (UQuery v)) as (A1 & U1 & _ & _ & [E1 _] & _); [done|]. destruct (user_step m' A' U Hi' Hu' (UQuery v)) as (A2 & U2 & _ & _ & [E2 _] & _); [done|].
  cbn in E1, E2. congruence.
Qed.
End observe.

Section theorems.
Context {P : Type} `{PageFramesLaws P} (ly : layout) (Hly : layout_ok ly) (base : Z -> Prop) (nx : bool) (K : gset Z).
Notation S := (system P).
Notation reachable := (reachable ly base nx K).
Implicit Types y : S.

Lemma event_steps y e y' : reachable y -> admits ly y e -> exec ly e y = (y', Some tt) -> stepped ly base nx K y y'.
Proof using Hly. intros Hr Ha E. pose proof (wp_event ly Hly base nx K y e (reachable_good ly Hly base nx K y Hr) Ha) as Hw. unfold wp in Hw. by rewrite E in Hw. Qed.

(** What of the thread [t] an event of another thread leaves as it is: its place
    in the scheduler, its object, the registers it will continue with, the object
    of its process, and all that a program can see of its memory. *)
Record untouched y y' (t : Z) : Prop := {
  un_task : t ∈ tasks y' /\ ~ dead y' t;
  un_thread : thread y' t = thread y t;
  un_registers : saved y' (th_frame (thread y t)) = saved y (th_frame (thread y t));
  un_process : process_at y t <> NULL -> proc y' (process_at y t) = proc y (process_at y t);
  un_memory : forall v n, process_at y t <> NULL -> u64_ok v -> u64_ok n ->
    user_vm_copy_from (user_view (y_world y') (pr_vm (proc y (process_at y t)))) v n = user_vm_copy_from (user_view (y_world y) (pr_vm (proc y (process_at y t)))) v n;
  un_mapping : forall v, process_at y t <> NULL -> u64_ok v ->
    (fun q => (vp_mapped q, vp_flags q)) <$> user_vm_query (user_view (y_world y') (pr_vm (proc y (process_at y t)))) v =
    (fun q => (vp_mapped q, vp_flags q)) <$> user_vm_query (user_view (y_world y) (pr_vm (proc y (process_at y t)))) v
}.

Lemma rest_untouched y fs hm L y' t : core_inv ly base nx K y fs hm L none -> rest (current y) y y' -> t ∈ tasks y -> t <> current y -> ~ dead y t -> untouched y y' t.
Proof.
  intros I R Ht Hc Hd. destruct (rs_thread _ _ _ R t Ht Hc Hd) as (H1 & H2 & H3 & H4). set (p := process_at y t).
  assert (p <> NULL -> exists x A, y_procs y !! p = Some x /\ y_procs y' !! p = Some x /\ uvm_inv (user_view (y_world y) (pr_vm x)) A /\ forall F, shows (user_view (y_world y) (pr_vm x)) F -> shows (user_view (y_world y') (pr_vm x)) F) as Hp.
  { intros Hp. destruct (oo_live _ _ _ (ci_owners _ _ _ _ _ _ _ _ _ I t Ht Hp)) as (x & Hx & Hi). destruct (live_view ly base nx K y fs hm L none p x I Hx Hi) as [A HA]. destruct (rs_process _ _ _ R t x Ht Hc Hd Hp Hx). by exists x, A. }
  constructor; fold p; [done|done|done| | |].
  - intros Hn. destruct (Hp Hn) as (x & A & Hx & Hx' & _). by rewrite (proc_lookup y p x Hx), (proc_lookup y' p x Hx').
  - intros v n Hn Hv Hl. destruct (Hp Hn) as (x & A & Hx & _ & HA & Hs). rewrite (proc_lookup y p x Hx). by apply (shows_read _ _ A).
  - intros v Hn Hv. destruct (Hp Hn) as (x & A & Hx & _ & HA & Hs). rewrite (proc_lookup y p x Hx). by apply (shows_query _ _ A).
Qed.

(** C1. The kernel never panics: in every reachable state, whatever event can happen
    (any interrupt, exception or system call of a process with any registers, any
    store of a program, any interrupt of a kernel thread, any call of a kernel
    thread that satisfies its precondition) is handled to the end, whatever the
    devices answer.  The non-maskable interrupt, the double fault, the machine
    check and faults inside the kernel are fatal by design and no such events. *)
Theorem kernel_never_panics y e : reachable y -> admits ly y e -> exists y', exec ly e y = (y', Some tt) /\ reachable y'.
Proof using Hly.
  intros Hr Ha. pose proof (wp_event ly Hly base nx K y e (reachable_good ly Hly base nx K y Hr) Ha) as Hw. unfold wp in Hw. destruct (exec ly e y) as [y' [[]|]] eqn:E; [|done]. exists y'. split; [done|]. by apply (reach_step ly base nx K y e).
Qed.

(** C2. Isolation: an event of the running thread, be it a system call with any
    arguments, a store, a fault or a preemption, leaves every other thread that has not
    ended untouched. *)
Theorem kernel_isolates y e y' t : reachable y -> admits ly y e -> exec ly e y = (y', Some tt) -> t ∈ tasks y -> t <> current y -> ~ dead y t -> untouched y y' t.
Proof using Hly.
  intros Hr Ha E. destruct (reachable_good ly Hly base nx K y Hr) as [(fs & hm & L & I) _]. destruct (event_steps y e y' Hr Ha E) as [_ R]. by apply (rest_untouched y fs hm L).
Qed.

(** Where the CPU goes on after an interrupt. *)
Record safe_return y (r : Z) : Prop := {
  sr_frame : r = th_frame (thread y (current y)) /\ frame_owned ly y (current y) r = true;
  sr_kernel : mine y = NULL -> if_cs (saved y r) = 8 /\ if_ss (saved y r) = 16 /\ stack_bottom ly y (current y) <= if_rsp (saved y r) <= stack_top ly y (current y) /\ 0xffff800000000000 <= if_rip (saved y r) /\
    w_cr3 (y_world y) = sx_kernel_cr3 (y_statics y);
  sr_user : mine y <> NULL -> if_cs (saved y r) = UTAMO_GDT_USER_CODE_SELECTOR /\ if_ss (saved y r) = UTAMO_GDT_USER_DATA_SELECTOR /\ Z.land (if_rflags (saved y r)) 0x3000 = 0 /\
    USER_VM_MIN <= if_rip (saved y r) < USER_VM_END /\ w_cr3 (y_world y) = vs_root_phys (uv_space (pr_vm (proc y (mine y)))) /\ cp_rsp0 (y_cpu y) = stack_top ly y (current y) /\ pr_state (proc y (mine y)) = UTAMO_PROCESS_READY
}.

Lemma returns_safe y fs hm L : core_inv ly base nx K y fs hm L none -> returns ly y -> safe_return y (th_frame (thread y (current y))).
Proof.
  intros I (Hz & Hv & Hs). pose proof (ci_cr3 _ _ _ _ _ _ _ _ _ I) as E3. unfold space_root in E3. fold (mine y) in E3. pose proof (valid_owned ly y _ _ Hv) as Ho. constructor; [done| |].
  - intros Hm. rewrite Hm in E3. unfold valid_frame in Hv. rewrite Ho in Hv. unfold mine, process_at in Hm. rewrite Hm in Hv. cbn [negb] in Hv. rewrite Z.eqb_refl in Hv. cbn [negb] in Hv. rewrite !andb_true_iff, !Z.eqb_eq, !Z.leb_le in Hv. tauto.
  - intros Hm. rewrite (proj2 (Z.eqb_neq _ _) Hm) in E3. destruct (Hs Hm) as (_ & _ & H3 & H4). rewrite user_frame in Hv by done. unfold process_user_return_valid in Hv. rewrite !andb_true_iff, !Z.eqb_eq, !Z.leb_le, !Z.ltb_lt in Hv. destruct Hv as [[[[[[[[[V1 V2] V3] V4] V5] V6] V7] V8] V9] V10]. split_and!; try done.
    change 0x3000 with (Z.land (Z.lor (Z.lor (Z.lor (Z.lor (Z.shiftl 3 12) (Z.shiftl 1 14)) (Z.shiftl 1 17)) (Z.shiftl 1 19)) (Z.shiftl 1 20)) 0x3000). by rewrite Z.land_assoc, V4.
Qed.

(** C3. After any interrupt, exception or system call but the fatal ones (vectors 2, 8
    and 18, and faults inside the kernel) the CPU continues a thread that has not ended, with registers that lie on that thread's own stack.  A process
    continues in user mode, without I/O privilege, at an address of the user half,
    in its own address space, and will enter the kernel on its own stack; a kernel
    thread continues in the kernel's address space. *)
Theorem kernel_returns_safely y f frame anchor cr2 : reachable y -> admits ly y (EInterrupt f frame anchor cr2) ->
  exists y' r, interrupt_dispatch ly anchor cr2 frame (with_saved (<[frame := f]> (y_saved y)) y) = (y', Some r) /\ current y' ∈ tasks y' /\ ~ dead y' (current y') /\ safe_return y' r.
Proof using Hly.
  intros Hr Ha. pose proof (wp_interrupt ly Hly base nx K y f frame anchor cr2 (fun r y' => current y' ∈ tasks y' /\ ~ dead y' (current y') /\ safe_return y' r) (reachable_good ly Hly base nx K y Hr) Ha) as Hw.
  revert Hw. unfold wp, mbind, sys_bind. cbn [modify]. destruct (interrupt_dispatch _ _ _ _ _) as [y' [r|]]; intros Hw.
  - exists y', r. split; [done|]. apply Hw. intros y2 [[(fs & hm & L & I) _] _] Hret. split_and!; [by eapply inv_current|apply Hret|by eapply returns_safe].
  - destruct Hw. intros y2 [[(fs & hm & L & I) _] _] Hret. split_and!; [by eapply inv_current|apply Hret|by eapply returns_safe].
Qed.

(** ** Who has which frame

    Read off the machine: the page tables of the kernel say which frames are
    behind the heap and behind a stack, and the object of an address space has
    the list of its frames. *)

Definition backs (w : world P) (a g : Z) : Prop := exists flags, vmm_query_page (w_kernel w) a = Some (MkMapping true g flags 4096).

(** A frame behind the part of the heap that is mapped. *)
Definition heap_frame (w : world P) (g : Z) : Prop :=
  exists i, 0 <= i /\ 4096 * i < hp_mapped_bytes (w_backing w) /\ backs w (UTAMO_HEAP_BASE + 4096 * i) g.

(** A frame behind one of the sixteen pages of a thread's stack. *)
Definition stack_page y (t g : Z) : Prop := exists j, 0 <= j < 16 /\ backs (y_world y) (stack_bottom ly y t + 4096 * j) g.

Inductive holder := HBoot | HHeap | HStack (t : Z) | HProcess (p : Z).
Definition holds y (h : holder) (g : Z) : Prop :=
  match h with
  | HBoot => base g
  | HHeap => heap_frame (y_world y) g
  | HStack t => t ∈ tasks y /\ t <> ly_bootstrap ly /\ stack_page y t g
  | HProcess p => p <> NULL /\ p ∈ pt_registry (y_table y) /\ g ∈ vm_frames (pr_vm (proc y p))
  end.

Lemma heap_frame_iff (w : world P) fs hm g : heap_ok (heap_view w) nx fs hm -> heap_frame w g <-> g ∈ fs.
Proof.
  intros [_ _ _ B _]. pose proof (bd_pages _ _ _ B) as Ep. pose proof (bd_room _ _ _ B) as Hr. unfold heap_frame, backs. cbn in Ep. rewrite Ep. cbn [hp_mapped_bytes]. unfold UTAMO_HEAP_MAX_SIZE in Hr.
  assert (forall i, 0 <= i -> 4096 * i < 4096 * Z.of_nat (length fs) -> vmm_query_page (w_kernel w) (UTAMO_HEAP_BASE + 4096 * i) =
    match fs !! Z.to_nat i with Some f => Some (MkMapping true f (page_flags nx) 4096) | None => Some unmapped end) as Hq.
  { intros i Hi Hlt. pose proof (bd_query _ _ _ B (UTAMO_HEAP_BASE + 4096 * i)) as Q. cbn in Q. rewrite Q by (unfold u64_ok, UINT64_MAX, UTAMO_HEAP_BASE, UTAMO_HEAP_MAX_SIZE in *; lia).
    replace ((UTAMO_HEAP_BASE + 4096 * i - UTAMO_HEAP_BASE) / 4096) with i by (unfold UTAMO_HEAP_BASE; dlia). assert ((UTAMO_HEAP_BASE + 4096 * i) mod 4096 = 0) as -> by (unfold UTAMO_HEAP_BASE; dlia). by destruct (fs !! Z.to_nat i); [rewrite Z.add_0_r|]. }
  split.
  - intros (i & Hi & Hlt & flags & E). rewrite Hq in E by done. destruct (fs !! Z.to_nat i) as [f|] eqn:Ef; [|done]. injection E as -> _. by eapply list_elem_of_lookup_2.
  - intros [i Hi]%list_elem_of_lookup_1. pose proof (lookup_lt_Some _ _ _ Hi). exists (Z.of_nat i). split_and!; [lia|lia|]. exists (page_flags nx). rewrite Hq by lia. by rewrite Nat2Z.id, Hi.
Qed.

Lemma stack_frame_iff (m : vm (kstate P)) k gs g : stack_at m k gs -> (exists j, 0 <= j < 16 /\ exists flags, vmm_query_page m (guard_at k + 4096 + 4096 * j) = Some (MkMapping true g flags 4096)) <-> g ∈ gs.
Proof.
  intros S. destruct (sa_pages _ _ _ S) as [x Hp]. pose proof (sa_length _ _ _ S) as Hl. split.
  - intros (j & Hj & flags & E). destruct (lookup_lt_is_Some_2 gs (Z.to_nat j)) as [f Hf]; [lia|]. pose proof (Hp _ _ Hf) as E'. rewrite Z2Nat.id in E' by lia. rewrite E in E'. injection E' as -> _. by eapply list_elem_of_lookup_2.
  - intros [j Hj]%list_elem_of_lookup_1. pose proof (lookup_lt_Some _ _ _ Hj). exists (Z.of_nat j). split; [lia|]. exists (page_flags x). by apply Hp.
Qed.

Section held.
Context y fs hm L (I : core_inv ly base nx K y fs hm L none).

Lemma stack_frames_of t : t ∈ tasks y -> t <> ly_bootstrap ly -> exists gs, L !! slot_of y t = Some gs /\ stack_at (w_kernel (y_world y)) (slot_of y t) gs /\ 0 <= slot_of y t < 64 /\ stack_bottom ly y t = guard_at (slot_of y t) + 4096 /\ forall g, stack_page y t g <-> g ∈ gs.
Proof using I.
  intros Ht Hb. destruct (to_stack _ _ _ _ (ci_threads _ _ _ _ _ _ _ _ _ I t Ht) Hb) as (Hk & [gs Hgs] & E). pose proof (wi_stacks _ _ _ _ _ _ _ (ci_world _ _ _ _ _ _ _ _ _ I)) as SI. destruct (si_stack _ _ _ SI _ _ Hgs) as (_ & _ & Ha).
  assert (stack_bottom ly y t = guard_at (slot_of y t) + 4096) as Eb by (unfold stack_bottom; rewrite (proj2 (Z.eqb_neq _ _) Hb), E; done). exists gs. split_and!; [done|done|lia|lia|done|]. intros g. unfold stack_page, backs. rewrite Eb. by apply stack_frame_iff.
Qed.

Lemma slot_taken k : 0 <= k < 64 -> Z.testbit (sk_occupied (w_stacks (y_world y))) k = true <-> exists t, t ∈ tasks y /\ t <> ly_bootstrap ly /\ slot_of y t = k.
Proof using I.
  intros Hk. rewrite (si_slots _ _ _ (wi_stacks _ _ _ _ _ _ _ (ci_world _ _ _ _ _ _ _ _ _ I)) k Hk), (ci_stacks _ _ _ _ _ _ _ _ _ I). cbn. split; [by intros [|]|by left].
Qed.

Lemma proc_of p : p <> NULL -> p ∈ pt_registry (y_table y) <-> is_Some (y_procs y !! p).
Proof using I. intros Hp. rewrite (ci_procs _ _ _ _ _ _ _ _ _ I). cbn. split; [by left|]. by intros [[]|]. Qed.

(** The owners of the invariant are these. *)
Definition owner_of (h : holder) : owner := match h with HBoot => OBase | HHeap => OHeap | HStack t => OStack (slot_of y t) | HProcess p => OVm p end.

Lemma holder_owns h g : holds y h g -> owns base fs L (pr_vm <$> y_procs y) (owner_of h) g.
Proof using I.
  destruct h as [| |t|p]; cbn; [done|by apply (heap_frame_iff _ _ hm), I| |].
  - intros (Ht & Hb & Hg). destruct (stack_frames_of t Ht Hb) as (gs & Hgs & _ & _ & _ & E). exists gs. split; [done|]. by apply E.
  - intros (Hp & Hin & Hg). apply proc_of in Hin as [x Hx]; [|done]. exists (pr_vm x). by rewrite lookup_fmap, Hx, <- (proc_lookup y p x Hx).
Qed.

Lemma owns_holds o g : owns base fs L (pr_vm <$> y_procs y) o g -> exists h, holds y h g.
Proof using I.
  destruct o as [| |k|p]; cbn.
  - intros Hg. by exists HBoot.
  - intros Hg. exists HHeap. by apply (heap_frame_iff _ fs hm), Hg; apply I.
  - intros (gs & Hk & Hg). pose proof (proj1 (ci_stacks _ _ _ _ _ _ _ _ _ I k) (ex_intro _ gs Hk)) as [(t & Ht & Hb & <-)|[=]]. exists (HStack t). destruct (stack_frames_of t Ht Hb) as (gs' & Hgs & _ & _ & _ & E). split_and!; [done|done|]. apply E. congruence.
  - intros (u & Hu & Hg). rewrite lookup_fmap in Hu. destruct (y_procs y !! p) as [x|] eqn:Hx; [|done]. injection Hu as <-. exists (HProcess p). pose proof (proj1 (ci_procs _ _ _ _ _ _ _ _ _ I p) (ex_intro _ x Hx)) as [[Hp Hin]|[=]]. split_and!; [done|done|]. by rewrite (proc_lookup y p x Hx).
Qed.

Lemma holds_unique h h' g : holds y h g -> holds y h' g -> h = h'.
Proof using I.
  intros H1 H2. pose proof (wi_unique _ _ _ _ _ _ _ (ci_world _ _ _ _ _ _ _ _ _ I) _ _ _ (holder_owns _ _ H1) (holder_owns _ _ H2)) as E.
  destruct h as [| |t|p], h' as [| |t'|p']; try done; injection E as E; [|by subst]. f_equal. destruct H1 as (? & ? & _), H2 as (? & ? & _). by apply (ci_slots _ _ _ _ _ _ _ _ _ I).
Qed.

Lemma held_by g : kloose (vm_ctx (w_kernel (y_world y))) g <-> exists h, holds y h g.
Proof using I.
  rewrite (wi_held _ _ _ _ _ _ _ (ci_world _ _ _ _ _ _ _ _ _ I) g). split; [intros [o Ho]; by apply (owns_holds o)|]. intros [h Hh]. exists (owner_of h). by apply holder_owns.
Qed.

Lemma blocks_of p : is_Some (hm !! p) <-> p ∈ K \/ (p ∈ tasks y /\ p <> ly_idle ly /\ p <> ly_bootstrap ly) \/ (p <> NULL /\ p ∈ pt_registry (y_table y)).
Proof using I.
  rewrite (ci_heap _ _ _ _ _ _ _ _ _ I), (ci_objects _ _ _ _ _ _ _ _ _ I), (ci_procs _ _ _ _ _ _ _ _ _ I). cbn. split; [intros [|[(H1 & H2 & [|])|[|]]]; try done; tauto|tauto].
Qed.
End held.

(** The frames [base] are those that are allocated before the start and are not
    behind the heap. *)
Lemma boot_frames y : reachable y -> exists y0 fs hm, booted ly base nx K y0 fs hm /\ forall g, base g <-> kloose (vm_ctx (w_kernel (y_world y0))) g /\ ~ heap_frame (y_world y0) g.
Proof.
  induction 1 as [y0 fs hm status y B _|]; [|done]. exists y0, fs, hm. split; [done|]. pose proof (bt_world _ _ _ _ _ _ _ B) as W. intros g. rewrite (wi_held _ _ _ _ _ _ _ W), (heap_frame_iff _ _ _ g (wi_heap _ _ _ _ _ _ _ W)). split.
  - intros Hg. split; [by exists OBase|]. intros Hf. by pose proof (wi_unique _ _ _ _ _ _ _ W OBase OHeap g Hg Hf).
  - intros [[[| |k|p] Ho] Hn]; cbn in Ho; [done|done| |]; destruct Ho as (? & Ho & _); [|rewrite ?fmap_empty in Ho]; by rewrite lookup_empty in Ho.
Qed.

(** C4. Nothing leaks and nothing is shared.  In every reachable state: the live
    blocks of the heap are those from before the start, one for every dynamic
    thread and one for every process; a stack slot is taken exactly when a thread
    other than the shell's has it, no two threads have the same, and its sixteen
    pages are mapped above a guard page that is not; every process in the
    registry has exactly one thread; and a frame is allocated exactly when it was
    so before the start (outside the heap), or is mapped behind the heap, or
    behind the stack of a thread that exists, or is listed in the address space
    of a process in the registry, and it is only one of these. *)
Theorem kernel_memory_exact y : reachable y ->
  (exists y0 fs0 hm0, booted ly base nx K y0 fs0 hm0 /\ forall g, base g <-> kloose (vm_ctx (w_kernel (y_world y0))) g /\ ~ heap_frame (y_world y0) g) /\
  (exists hm, heap_holds (kh_arena (heap_view (y_world y))) hm /\
    forall p, is_Some (hm !! p) <-> p ∈ K \/ (p ∈ tasks y /\ p <> ly_idle ly /\ p <> ly_bootstrap ly) \/ (p <> NULL /\ p ∈ pt_registry (y_table y))) /\
  (forall k, 0 <= k < 64 -> Z.testbit (sk_occupied (w_stacks (y_world y))) k = true <-> exists t, t ∈ tasks y /\ t <> ly_bootstrap ly /\ slot_of y t = k) /\
  (forall t t', t ∈ tasks y -> t' ∈ tasks y -> t <> ly_bootstrap ly -> t' <> ly_bootstrap ly -> slot_of y t = slot_of y t' -> t = t') /\
  (forall t, t ∈ tasks y -> t <> ly_bootstrap ly -> page_absent (w_kernel (y_world y)) (stack_bottom ly y t - 4096) = true /\ forall j, 0 <= j < 16 -> exists g, backs (y_world y) (stack_bottom ly y t + 4096 * j) g) /\
  (forall p, p <> NULL -> p ∈ pt_registry (y_table y) <-> exists t, t ∈ tasks y /\ process_at y t = p) /\
  (forall t t', t ∈ tasks y -> t' ∈ tasks y -> process_at y t <> NULL -> process_at y t = process_at y t' -> t = t') /\
  (forall g, kloose (vm_ctx (w_kernel (y_world y))) g <-> exists h, holds y h g) /\
  (forall h h' g, holds y h g -> holds y h' g -> h = h').
Proof using Hly.
  intros Hr. split; [by apply (boot_frames y)|]. destruct (reachable_good ly Hly base nx K y Hr) as [(fs & hm & L & I) _]. split_and!.
  - exists hm. split; [apply (wi_heap _ _ _ _ _ _ _ (ci_world _ _ _ _ _ _ _ _ _ I))|]. exact (blocks_of y fs hm L I).
  - exact (slot_taken y fs hm L I).
  - apply I.
  - intros t Ht Hb. destruct (stack_frames_of y fs hm L I t Ht Hb) as (gs & _ & Ha & _ & -> & _). replace (guard_at (slot_of y t) + 4096 - 4096) with (guard_at (slot_of y t)) by lia. split; [apply Ha|].
    intros j Hj. destruct (lookup_lt_is_Some_2 gs (Z.to_nat j)) as [g Hg]; [rewrite (sa_length _ _ _ Ha); lia|]. destruct (sa_pages _ _ _ Ha) as [x Hp]. exists g, (page_flags x). rewrite <- (Z2Nat.id j) at 1 by lia. by apply Hp.
  - intros p Hp. split.
    + intros Hin. by destruct (ci_run _ _ _ _ _ _ _ _ _ I p Hp Hin) as [|].
    + intros (t & Ht & <-). by destruct (oo_registry _ _ _ (ci_owners _ _ _ _ _ _ _ _ _ I t Ht Hp)).
  - apply I.
  - exact (held_by y fs hm L I).
  - exact (holds_unique y fs hm L I).
Qed.

(** C5. When only the idle thread and the shell are left, all that was ever created is
    gone: there is no process, the live blocks of the heap are those from before
    the start, the only stack slot that is taken is the idle thread's, and the
    only allocated frames are those of before the start, those mapped behind the
    heap, and the sixteen mapped behind the idle thread's stack. *)
Theorem kernel_leaves_nothing y : reachable y -> (forall t, t ∈ tasks y -> t = ly_idle ly \/ t = ly_bootstrap ly) ->
  y_procs y = ∅ /\ (forall p, p ∈ pt_registry (y_table y) -> p = NULL) /\
  (exists hm, heap_holds (kh_arena (heap_view (y_world y))) hm /\ forall p, is_Some (hm !! p) <-> p ∈ K) /\
  (forall k, 0 <= k < 64 -> Z.testbit (sk_occupied (w_stacks (y_world y))) k = bool_decide (k = slot_of y (ly_idle ly))) /\
  (forall g, kloose (vm_ctx (w_kernel (y_world y))) g <-> base g \/ heap_frame (y_world y) g \/ stack_page y (ly_idle ly) g) /\
  exists gs, length gs = 16%nat /\ NoDup gs /\ forall g, stack_page y (ly_idle ly) g <-> g ∈ gs.
Proof using Hly.
  intros Hr Hall. destruct (reachable_good ly Hly base nx K y Hr) as [(fs & hm & L & I) _].
  assert (forall p, p <> NULL -> p ∉ pt_registry (y_table y)) as Hreg. { intros p Hp Hin. destruct (ci_run _ _ _ _ _ _ _ _ _ I p Hp Hin) as [|(t & Ht & E)]; [done|]. apply Hp. rewrite <- E. apply (to_static _ _ _ _ (ci_threads _ _ _ _ _ _ _ _ _ I t Ht)). by apply Hall. }
  assert (forall p, ~ is_Some (y_procs y !! p)) as Hno. { intros p [[H1 H2]|[=]]%(ci_procs _ _ _ _ _ _ _ _ _ I). by apply (Hreg p). }
  assert (ly_idle ly ∈ tasks y) as Hidle by (rewrite <- (ci_idle _ _ _ _ _ _ _ _ _ I); by apply (ok_current (ly_scheduler ly)), I). destruct (lo_static _ Hly) as (Hne & _).
  split_and!; [apply map_eq; intros p; rewrite lookup_empty; apply eq_None_not_Some, Hno|intros p Hp; destruct (decide (p = NULL)); [done|by apply Hreg in Hp]| | | |].
  - exists hm. split; [apply (wi_heap _ _ _ _ _ _ _ (ci_world _ _ _ _ _ _ _ _ _ I))|]. intros p. rewrite (blocks_of y fs hm L I p). split; [|by left]. intros [|[(Ht & H1 & H2)|[H1 H2]]]; [done| |by apply Hreg in H2]. by destruct (Hall p Ht).
  - intros k Hk. apply eq_true_iff_eq. rewrite (slot_taken y fs hm L I k Hk), bool_decide_eq_true. split; [|intros ->; by exists (ly_idle ly)]. intros (t & Ht & Hb & <-). by destruct (Hall t Ht) as [-> |].
  - intros g. rewrite (held_by y fs hm L I g). split.
    + intros [[| |t|p] Hh]; cbn in Hh; [by left|by right; left| |]; [|destruct Hh as (Hp & Hin & _); by apply Hreg in Hin]. destruct Hh as (Ht & Hb & Hg). destruct (Hall t Ht) as [-> |]; [by right; right|done].
    + intros [|[|]]; [by exists HBoot|by exists HHeap|by exists (HStack (ly_idle ly))].
  - destruct (stack_frames_of y fs hm L I _ Hidle Hne) as (gs & _ & Ha & _ & _ & E). exists gs. split_and!; [apply Ha|apply Ha|exact E].
Qed.
End theorems.

(** ** The theorems on the small kernel *)

Import SmallKernel.

Lemma kernel_never_panics_witness : exists base nx y', reachable ly base nx ∅ busy /\ admits ly busy exit_event /\ exec ly exit_event busy = (y', Some tt) /\ reachable ly base nx ∅ y'.
Proof.
  destruct busy_reachable as (base & nx & Hr). destruct (kernel_never_panics ly ly_ok base nx ∅ busy exit_event Hr exit_allowed) as (y' & E & Hr'). exists base, nx, y'. split; [exact Hr|]. split; [exact exit_allowed|]. split; [exact E|exact Hr'].
Defined.

(** The first process exits; the second, which is in the registry, keeps all it has. *)
Lemma kernel_isolates_witness : process_at busy second = 0xffffc00001001310 /\ untouched busy (fst (exec ly exit_event busy)) second.
Proof.
  destruct busy_reachable as (base & nx & Hr). split; [vm_cast_no_check (eq_refl 0xffffc00001001310)|].
  apply (kernel_isolates ly ly_ok base nx ∅ busy exit_event (fst (exec ly exit_event busy)) second Hr exit_allowed).
  - assert (snd (exec ly exit_event busy) = Some tt) as E by (vm_cast_no_check (eq_refl (Some tt))). revert E. generalize (exec ly exit_event busy). intros [y' r] E. cbn [snd] in E. rewrite E. reflexivity.
  - assert (tasks busy !! 3%nat = Some second) as E by (vm_cast_no_check (eq_refl (Some second))). exact (list_elem_of_lookup_2 _ _ _ E).
  - assert ((second =? current busy) = false) as E by (vm_cast_no_check (eq_refl false)). exact (proj1 (Z.eqb_neq _ _) E).
  - assert (state_eqb (st_state (node (y_sched busy) second)) UTAMO_SCHED_READY = true) as E by (vm_cast_no_check (eq_refl true)). intros Hd. unfold dead, zombie in Hd. rewrite Hd in E. discriminate E.
Defined.

Lemma kernel_returns_safely_witness : exists y' r,
  interrupt_dispatch ly (process_anchor 1) 0x1234 (guard_at 1 + 69632 - 176) (with_saved (<[guard_at 1 + 69632 - 176 := user_frame UTAMO_SYSCALL_VECTOR UTAMO_SYS_EXIT 7]> (y_saved busy)) busy) = (y', Some r) /\
  current y' ∈ tasks y' /\ ~ dead y' (current y') /\ safe_return ly y' r.
Proof.
  destruct busy_reachable as (base & nx & Hr). exact (kernel_returns_safely ly ly_ok base nx ∅ busy _ _ _ _ Hr exit_allowed).
Defined.

(** With two processes, both objects of the second are live blocks, and every frame
    that is allocated has one holder. *)
Lemma kernel_memory_exact_witness : exists base : Z -> Prop,
  (exists hm : gmap Z (list Z), heap_holds (kh_arena (heap_view (y_world busy))) hm /\ is_Some (hm !! second) /\ is_Some (hm !! process_at busy second)) /\
  (forall g, kloose (vm_ctx (w_kernel (y_world busy))) g <-> exists h, holds ly base busy h g) /\ (forall h h' g, holds ly base busy h g -> holds ly base busy h' g -> h = h').
Proof.
  destruct busy_reachable as (base & nx & Hr). destruct (kernel_memory_exact ly ly_ok base nx ∅ busy Hr) as (_ & (hm & Hh & Hb) & _ & _ & _ & _ & _ & Hg & Hu). exists base. split; [|exact (conj Hg Hu)]. exists hm. split; [exact Hh|].
  assert (tasks busy !! 3%nat = Some second) as E by (vm_cast_no_check (eq_refl (Some second))). assert (pt_registry (y_table busy) !! 1%nat = Some (process_at busy second)) as Er by (vm_cast_no_check (eq_refl (Some 0xffffc00001001310))).
  assert ((second =? ly_idle ly) || (second =? ly_bootstrap ly) || (process_at busy second =? NULL) = false) as Ene by (vm_cast_no_check (eq_refl false)). apply orb_false_iff in Ene as [Ene E3]. apply orb_false_iff in Ene as [E1 E2].
  split; apply Hb; right; [left|right]; [|exact (conj (proj1 (Z.eqb_neq _ _) E3) (list_elem_of_lookup_2 _ _ _ Er))].
  exact (conj (list_elem_of_lookup_2 _ _ _ E) (conj (proj1 (Z.eqb_neq _ _) E1) (proj1 (Z.eqb_neq _ _) E2))).
Defined.

(** After both processes are gone, one slot is taken. *)
Lemma kernel_leaves_nothing_witness : y_procs quiet = ∅ /\ ps_reaped (pt_stats (y_table quiet)) = 2 /\ sk_occupied (w_stacks (y_world quiet)) = 1 /\
  exists base : Z -> Prop, forall g, kloose (vm_ctx (w_kernel (y_world quiet))) g <-> base g \/ heap_frame (y_world quiet) g \/ stack_page ly quiet (ly_idle ly) g.
Proof.
  destruct quiet_reachable as (base & nx & Hr). assert (tasks quiet = [ly_idle ly; ly_bootstrap ly]) as E by (vm_cast_no_check (eq_refl [ly_idle ly; ly_bootstrap ly])).
  assert (forall t, t ∈ tasks quiet -> t = ly_idle ly \/ t = ly_bootstrap ly) as Hall. { intros t. rewrite E, elem_of_cons, list_elem_of_singleton. exact (fun x => x). }
  destruct (kernel_leaves_nothing ly ly_ok base nx ∅ quiet Hr Hall) as (Hp & _ & _ & _ & Hg & _). split; [exact Hp|]. split; [vm_cast_no_check (eq_refl 2)|]. split; [vm_cast_no_check (eq_refl 1)|]. exists base. exact Hg.
Defined.
